(* ===== verification/_CoqProject ===== *)
-Q . S2P
Prelude.v
JsValue.v
Graph.v
Libs.v
FormUtils.v
Downstream.v
NodeNames.v
GraphStore.v
StoreProps.v
Dsl.v
Variables.v
Structured.v
Connection.v
AddNode.v
Editing.v
History.v
Placeholder.v
Rename.v
Splitting.v
Metadata.v
Messages.v
Streaming.v
AgentChat.v
Chat.v
ChatBoxes.v
Search.v
AgentForms.v
LoopForm.v
AgentTools.v
Grouping.v
FilterBar.v
Citations.v
Models.v
ChunkEditor.v
ChunkPage.v
FileUpload.v
DynamicForm.v
GlobalVariables.v
PromptEditor.v
Scan.v
ScanProps.v
ScanPage.v
DatasetPage.v
Embed.v
SharedChat.v
Credentials.v
AgentPage.v
Pager.v
MultiSelect.v
DatasetSelect.v
RunTimeline.v
CaseForms.v
FolderTree.v
SchemaEditor.v
SchemaEditorProps.v
SearchSettings.v
Helpers.v
