(* ===== verification/Prelude.v ===== *)
(** * The agent canvas and the conversations of RAGFlow's web client

    A model of the program logic of the TypeScript client under src/web/src,
    with its correctness theorems.  Paths below are relative to src/web/src
    unless they start with src/.

    ** The program and the model

    The client edits an agent as a graph: operators are nodes, connections are
    edges between handles, and a zustand store (pages/agent/store.ts) holds
    both.  Every gesture on the canvas ends in actions of that store.  The
    graph is turned into a DSL document which the backend runs, and the run's
    events come back as a stream which the chat page turns into messages.
    Around this core are the undo history, the forms of the operators, the
    drag that opens the list of operators, the search for the variables an
    operator may refer to, and, beside the agents, the pages of chats, of
    searches and of the chunks of a document, the filters of lists, the table
    in which the metadata of documents is edited, and the clients through
    which all requests go.

    - [Prelude]: array methods of the language ([js_filter], [js_find],
      [js_findIndex], [js_some], ...), list lemmas, tactics, hint databases.
    - [JsValue]: the untyped values of forms and JSON documents ([val]), with
      insertion-ordered objects ([obj]), conversions and text functions.
    - [Libs]: the packages the code calls, as type classes: [Lodash] and
      [XYFlow] (React Flow) with their laws; each law is documented behaviour,
      and concrete instances at the end of the file satisfy all of them.  The
      word generators (human-id, uuid) are functions from the number of words
      drawn so far, arguments of the operations that draw.
    - [Graph]: operators, handles, nodes, edges, and reachability along edges
      (constants/agent.tsx, pages/agent/constant/index.tsx,
      interfaces/database/agent.ts).
    - [FormUtils]: conversions of form data (pages/agent/utils.ts,
      utils/form.ts).
    - [NodeNames]: the naming scheme (pages/agent/utils.ts).
    - [Downstream]: the recursion below an agent
      (pages/agent/utils/filter-downstream-nodes.ts, delete-node.ts).
    - [GraphStore]: every action and getter of pages/agent/store.ts as a
      function on [RFState]; [StoreProps]: its theorems.
    - [Dsl]: the DSL of an agent (pages/agent/utils.ts,
      pages/agent/hooks/use-build-dsl.ts).
    - [Connection]: useValidateConnection (pages/agent/hooks.tsx) and
      useBeforeDelete (pages/agent/hooks/use-before-delete.tsx).
    - [AddNode]: pages/agent/hooks/use-add-node.ts.
    - [Editing]: the edits of a canvas as a step relation over the store,
      composed of the operations of the four files before: gestures, menus,
      the keyboard, forms, and undo and redo as steps between sessions.
    - [History]: pages/agent/use-agent-history-manager.ts.
    - [Placeholder]: pages/agent/hooks/use-placeholder-manager.ts,
      use-connection-drag.ts and the parts of the canvas that move their state.
    - [Rename]: pages/agent/hooks/use-change-node-name.ts.
    - [Variables]: the options of a field that takes a variable
      (utils/canvas-util.tsx, pages/agent/hooks/use-get-begin-query.tsx);
      [Structured]: the menu over the structured output of an agent and the
      resolution of references (pages/agent/hooks/use-build-structured-output.ts,
      pages/agent/utils/filter-agent-structured-output.ts).
    - [AgentForms], [LoopForm], [AgentTools]: the forms of the operators, of a
      loop, and the tools and MCP servers of an agent (pages/agent/form).
    - [Chat], [ChatBoxes]: the chat page with one model and with several
      (pages/next-chats); [Search]: the search page (pages/next-search).
    - [Grouping], [FilterBar]: the options of filter bars and the bar itself
      (utils/list-filter-util.ts, components/list-filter-bar), the combos of a
      knowledge graph (pages/dataset/knowledge-graph/util.ts).
    - [Citations]: markers of citations and the direction of a text
      (utils/citation-utils.ts, components/markdown-content/reference-utils.ts,
      utils/text-direction.ts).
    - [Models]: identifiers and options of models and the interceptors of
      requests (utils/llm-util.ts, utils/llm-cache.ts, utils/request.ts,
      utils/next-request.ts, hooks/use-llm-request.tsx).
    - [ChunkEditor]: the result of a data flow (pages/dataflow-result);
      [ChunkPage]: the chunks of a document (pages/chunk).
    - [FileUpload]: the upload component (components/file-upload.tsx) and the
      direct uploader (pages/agent/debug-content/uploader.tsx).
    - [DynamicForm]: forms from a list of fields (components/dynamic-form.tsx).
    - [GlobalVariables]: the conversation variables of an agent
      (pages/agent/gobal-variable-sheet), on top of [DynamicForm] and [Dsl].
    - [PromptEditor]: the prompt editor
      (pages/agent/form/components/prompt-editor), the texts of the canvas and
      the prompts of the extractor, on top of [Structured].
    - [Scan], [ScanProps], [ScanPage]: the local directories a knowledge base
      watches: the scan, the routes and the scheduler of the server
      (src/api/db/services/scanned_directory_service.py,
      src/api/apps/document_app.py, src/api/apps/scan_scheduler.py) on the
      tables they change, and the dialog of pages/dataset/dataset
      (use-scan-path.ts, scan-path-modal.tsx) in front of them.
    - [DatasetPage]: the documents of a dataset (pages/dataset/dataset):
      selection, operations on it, parsing again, uploads.
    - [Embed], [SharedChat]: a chat embedded in another page
      (components/embed-dialog, components/floating-chat-widget.tsx,
      use-send-shared-message.ts): the address and its parameters, the script
      of the embedding page, the session, the widget.
    - [Credentials]: the fields for OAuth credentials of data sources
      (pages/user-setting/data-source/component).
    - [AgentPage]: the page of an agent (pages/agent/index.tsx and the hooks
      of its drawers, of saving and of runs).
    - [Pager]: the row of pages under a list and its parents
      (components/ui/ragflow-pagination.tsx).
    - [MultiSelect], [DatasetSelect]: the select with several values
      (components/ui/multi-select.tsx) and the field of datasets on top of it
      (components/knowledge-base-item.tsx).
    - [RunTimeline]: the log of a run and the loading marks on the canvas
      (pages/agent/log-sheet, pages/agent/hooks/use-node-loading.ts).
    - [CaseForms]: the categories and the cases in the forms of two operators
      beside the canvas (pages/agent/form/categorize-form, switch-form).
    - [FolderTree]: the tree of folders in the dialog that moves files
      (pages/files/move-dialog.tsx, components/ui/async-tree-select.tsx).
    - [SchemaEditor], [SchemaEditorProps]: the editors of a JSON schema in the
      dialog of an agent's structured output (components/jsonjoy-builder).
    - [SearchSettings]: the settings of a search application
      (pages/next-search/search-setting.tsx) and their update on the server.
    - [Helpers]: sizes of files, the order of providers and the shortening of
      names (utils/common-util.ts, utils/file-util.ts).
    - [Metadata]: pages/dataset/components/metedata, with the server's batch
      update (src/api/db/services/doc_metadata_service.py) as the other side of
      the protocol; [Splitting]: how the server splits and strips the values it
      writes.
    - [Messages]: the list of messages of useSelectDerivedMessages
      (hooks/logic-hooks.ts).
    - [Streaming]: the two hooks that read server-sent events
      (hooks/logic-hooks.ts, hooks/use-send-message.ts).
    - [AgentChat]: pages/agent/chat/use-send-agent-message.ts with the log of
      pages/agent/hooks/use-cache-chat-log.ts, on top of both.

    A React state or ref is a field of a record; [set] of a partial state is a
    record update; a handler is a function from the state it reads to the state
    it leaves; an effect is a function composed after the changes that trigger
    it.  A thrown TypeError is [None] or [Throw].  Network answers, timers and
    gestures are the events of step functions and step relations.

    ** What the theorems show

    - The store keeps graph and forms in step: [onConnect_switch_sync],
      [deleteEdgeById_switch_sync], [setEdgesByNodeId_spec]; it generates
      fresh names and identifiers: [duplicateNode_unique_name],
      [generateAgentToolId_fresh], [addCanvasNode_unique_names],
      [rename_unique].
    - Deletions remove what they should: [deleteNodeById_exact],
      [deleteNodeById_agent], [deleteIteration_spec],
      [handleBeforeDelete_spec]; where they do not,
      [deleteAgent_leaves_edge] says what stays.
    - The check for cycles is exact ([hasCanvasCycle_exact]) and keeps the
      canvas acyclic ([valid_connect_acyclic], [addCanvasNode_invariant]);
      in every reachable editing session whose agents never formed a cycle the
      recursive deletion of agents ends ([editing_deletion_terminates]).
    - Refinements of abstract specifications: the history is a bounded zipper
      ([history_refines_zipper]), and the operations the metadata table records
      bring the server to the values the table shows ([deletes_refine],
      [renames_refine]).
    - The DSL: its two directions of edges agree, it holds no placeholder, and
      its construction ends ([dsl_directions_agree], [dsl_no_placeholder],
      [dsl_terminates]).
    - The drag leaves at most one placeholder ([one_placeholder]) and picking
      an operator puts it in the placeholder's place
      ([placeholder_replaced]).
    - Variables: the options offered are exactly those of the operators that
      run before ([variable_options_exact]); what the menu of a structured
      output offers resolves to the type it was offered for
      ([menu_type_roundtrip], [reference_roundtrip]).
    - Forms: what a form saves it shows again when the names of its rows are
      distinct and no integers ([form_saved_shown]); the
      conditions of a loop fit the types of their variables
      ([conditions_typed]); edits of the tools change what they name and keep
      the tool node in step ([tools_edited], [tool_node_follows]).
    - Chat and search pages: a turn from question to last answer, with its
      effects on conversation, URL and requests ([chat_turn], [boxes_turn],
      [search_turn], [refused_turn]).
    - Lists: counted options equal their reference ([groups_counted]); a
      filter bar submits exactly what was clicked ([filters_turn]).
    - Texts: the citations found are exactly the markers from left to right
      ([citations_found]).
    - Requests: the tenant's identifiers are beside every model name
      ([tenant_params_exact]), in the client of utils/next-request.ts an
      expired login redirects once ([one_redirect], unlike the other client:
      [umi_redirects_again]), a select offers each fitting model once
      ([compose_options_exact]).
    - Chunks: edits of a result that do not restore the initial content refine
      edits of a marked list, and the request sends what is shown
      ([edits_refine]); the time line ends exactly on a
      flow without a cycle ([timeline_ends]); the chunk page selects and
      deletes nothing twice and switches what it was asked to
      ([chunk_page_reachable]); the dialog sends an unchanged chunk unchanged
      ([chunk_dialog_roundtrip]).
    - Uploads: the component's list, states and object URLs are consistent in
      every order of events ([upload_reachable]); choosing files adds exactly
      the accepted ones ([files_chosen_exact]); a success stays one
      ([success_sticks]).
    - Forms from lists of fields: what is submitted ([submitted_exact]), the
      defaults ([default_values_exact]) and the schema of a text
      ([text_field_exact]) are exact.
    - Conversation variables: the check of names is exact
      ([validateKeys_exact]), saving an opened variable changes nothing
      ([variable_resaved]).
    - Prompts: every prompt opens and is saved as the same text, and one of
      plain texts and references opens as the same nodes ([prompt_reopened]);
      the editor follows its field ([prompt_reachable]).
    - Scanned directories: after a scan in which no call raises the documents
      mirror the files ([scan_mirrors], [rescan_stable]), the tables stay
      consistent whatever raises, one operation at a time ([server_reachable];
      two scans at once may import a file twice, [concurrent_imports]), a scan is bounded ([scan_bounded]), the scheduler
      scans what is due ([scheduler_round]), and the dialog and the server
      work together ([scan_turn]).
    - Documents of a dataset: deleting what is selected ([delete_turn]) and
      what a selection by row follows ([selection_follows_place]).
    - Embedded chats: every setting of the dialog is read back from the
      address ([embedded_settings]), the code to copy is well formed
      ([code_shows_src]), the window follows the button
      ([widget_embedded]), and the shared page is never idle
      ([never_asks]).
    - Credentials: what the stored text can be ([value_sources],
      [box_value_sources]), that an authorization goes through however often
      the server is not ready ([authorization_turn]), and what a
      cancellation leaves running ([cancelled_saved]).
    - Page of an agent: the open form is that of a node ([form_has_node]),
      one save for many changes ([autosave]), a run opens the chat once all
      went well ([agent_run]), the trace of a pipeline is followed until it
      is complete ([pipeline_turn]).
    - Pages: for whole pages the row shown is its reference
      ([pages_displayed_exact]) and page and size are those of an abstract
      cursor ([pager_refines]); a negative size throws
      ([negative_size_throws]).
    - Selects: what is shown is the field ([multi_in_form]), and datasets of
      one embedding model are selected together in a field without variables
      that starts empty ([datasets_one_model]).
    - Log of a run: rows and marks tell exactly what runs ([run_shown]), except
      that groups have no mark ([iteration_not_marked]), and more events change no row that is finished ([timeline_grows]).
    - Branches: the edges of a categorize operator start at its categories
      whatever is edited and drawn ([categories_kept]); those of a switch do
      not ([case_removed_misplaced]).
    - Folders: the tree of the move dialog is drawn once, with the folders among
      the first fifteen entries of each listing, as long as no folder is asked for twice ([tree_shown]), which two clicks can
      bring about ([two_loads_duplicate]).
    - Schemas: the nested editors implement operations on a tree of fields
      ([schema_edits_refine]); a renamed required field of the first level is left
      among the required names ([renamed_stays_required]).
    - Search settings: what is saved is opened again ([settings_reopened]), the
      weight as the same hundredths, apart from the ends of ranges ([weight_ends_lost],
      [zero_threshold_lost]) and the preset ([preset_lost]).
    - Helpers: the loops that choose a unit end with a size of at least 1 of it
      ([file_size_shown], [bytes_shown]); every provider is listed once, those
      of the given order first ([providers_ordered]).
    - Conversations: a turn of question, chunks and regeneration
      ([conversation_turn], [streamed_answers]), accumulation of chunks
      ([answer_accumulates]), the record of answering boxes
      ([done_record_exact]), the events of a run ([run_collects_events]), and
      a whole turn of the agent chat ([agent_turn]).
    - Theorems of kind "error" and the lemmas named in the findings record
      behaviour that differs from what the code means to do.

    ** Fuel

    Where the source recurses or loops without a bound the models take fuel.
    [hasCycle] marks nodes as visited: [cycle_fuel], one call per node and
    one, is always enough ([hasCanvasCycle_exact]).  The searches below an
    agent ([filterAllDownstreamNodeIds], hence the deletions, and
    [buildAgentTools] of the DSL) have no visited set: one level per edge and
    two ([del_fuel]) are enough when there is no cycle below the agent, and no
    fuel is enough for a deletion otherwise ([deleteNodeById_agent],
    [dsl_terminates]).  The search upstream for variables needs one level per
    edge and two ([options_fuel]).  The loop of [generateAgentToolId] draws
    until the identifier is fresh: one draw per existing tool and one is enough
    because the draws are distinct.  The time line follows the first step
    downstream: one step per component and one, or it never ends
    ([timeline_ends]).  The loop of the row of pages makes at most five rounds
    for any current page ([pages_from_ends]).  Walks over schemas, JSON values and the data of
    requests recurse on the size of the value ([val_size]).

    ** What is not modelled

    Rendering, styling, translations and the tables of initial form values and
    options (data without operations; operations that use them take them as
    arguments); the request hooks (thin wrappers around HTTP calls and the
    query cache); routing, login and most settings pages; of the schema editor
    the text editor, the validation of values and the inference of schemas; of
    the Python and Go services all but the scan of local directories, the batch
    update of metadata, the update of a search application and the default page
    of a listing of files.  The libraries
    the code calls are classes with the laws it relies on.  immer's freezing
    and React's batching, strict mode and stale closures are outside the model
    except where a file says that two closures see different states.  Finite
    numbers are exact rationals with the three non-finite values beside them;
    binary64 rounding is modelled only where it shows, in [SearchSettings].  Texts are strings of bytes where the
    program counts UTF-16 units. *)
From stdpp Require Export base list strings sorting pretty sets gmap.
From Stdlib Require Export Lia.

#[export] Set Default Goal Selector "!".
#[export] Set Warnings "-clear-no-such-hyp".

(** ** Notations

    JavaScript's strict equality on values whose equality is decidable, as a
    boolean, so that guards read like the code they translate. *)
Declare Scope js_scope.
Delimit Scope js_scope with js.
Notation "a === b" := (bool_decide (a = b)) (at level 70, no associativity) : js_scope.
Notation "a !== b" := (negb (bool_decide (a = b))) (at level 70, no associativity) : js_scope.
Open Scope js_scope.

(** ** Array primitives

    The methods of [Array.prototype] the program uses, on lists. *)
Definition js_filter {A} (p : A → bool) (l : list A) : list A := filter (λ x, Is_true (p x)) l.

Definition js_some {A} (p : A → bool) (l : list A) : bool := existsb p l.

Definition js_every {A} (p : A → bool) (l : list A) : bool := forallb p l.

Definition js_find {A} (p : A → bool) (l : list A) : option A := List.find p l.

Fixpoint js_findIndex {A} (p : A → bool) (l : list A) : option nat :=
  match l with
  | [] => None
  | x :: l' => if p x then Some 0 else S <$> js_findIndex p l'
  end.

Definition js_includes {A} `{EqDecision A} (l : list A) (x : A) : bool := bool_decide (x ∈ l).

(** [if (pre.every((y) => y !== x)) pre.push(x)] *)
Definition push_new {A} `{EqDecision A} (pre : list A) (x : A) : list A :=
  if js_every (λ y, y !== x) pre then pre ++ [x] else pre.

(** [xs.forEach((x) => push_new(pre, x))] *)
Definition push_all {A} `{EqDecision A} (pre xs : list A) : list A := foldl push_new pre xs.

(** A stable insertion sort: [Array.prototype.sort] is stable, and for a
    consistent comparator the stable sorted permutation is unique.  [gt a b]
    is "the comparator returns a positive number on [a], [b]". *)
Fixpoint sort_insert {A} (gt : A → A → bool) (x : A) (l : list A) : list A :=
  match l with
  | [] => [x]
  | y :: l' => if gt x y then y :: sort_insert gt x l' else x :: l
  end.

Definition js_sort {A} (gt : A → A → bool) (l : list A) : list A := foldr (sort_insert gt) [] l.

(** ** Outcomes

    A computation returns, throws a TypeError, or has not ended within its
    fuel. *)
Inductive outcome (A : Type) := Ok (a : A) | Throw | Diverge.
Arguments Ok {A} a.
Arguments Throw {A}.
Arguments Diverge {A}.

#[export] Instance outcome_ret : MRet outcome := λ A a, Ok a.
#[export] Instance outcome_bind : MBind outcome := λ A B f m,
  match m with Ok a => f a | Throw => Throw | Diverge => Diverge end.
#[export] Instance outcome_fmap : FMap outcome := λ A B f m,
  match m with Ok a => Ok (f a) | Throw => Throw | Diverge => Diverge end.

#[export] Instance outcome_eq_dec {A} `{EqDecision A} : EqDecision (outcome A).
Proof. solve_decision. Defined.

(** A TypeError unless there is a value. *)
Definition or_throw {A} (o : option A) : outcome A := match o with Some a => Ok a | None => Throw end.

(** ** Tactics *)
Ltac destruct_if := repeat case_match; simplify_eq/=.

(** Turn boolean guards into propositions, in the goal and the hypotheses. *)
Ltac reflect_bool :=
  repeat match goal with
  | H : andb _ _ = true |- _ => apply andb_true_iff in H as [? ?]
  | H : orb _ _ = false |- _ => apply orb_false_iff in H as [? ?]
  | H : negb _ = true |- _ => apply negb_true_iff in H
  | H : negb _ = false |- _ => apply negb_false_iff in H
  | H : bool_decide _ = true |- _ => apply bool_decide_eq_true in H
  | H : bool_decide _ = false |- _ => apply bool_decide_eq_false in H
  end.

(** ** Shared lemmas *)
Create HintDb js.

Lemma elem_of_js_filter {A} (p : A → bool) (l : list A) x :
  x ∈ js_filter p l ↔ p x = true ∧ x ∈ l.
Proof. unfold js_filter. rewrite list_elem_of_filter, Is_true_true. done. Qed.

Lemma js_filter_cons {A} (p : A → bool) x (l : list A) :
  js_filter p (x :: l) = if p x then x :: js_filter p l else js_filter p l.
Proof. unfold js_filter. rewrite filter_cons. destruct (p x); by simpl. Qed.

Lemma js_filter_app {A} (p : A → bool) (l1 l2 : list A) :
  js_filter p (l1 ++ l2) = js_filter p l1 ++ js_filter p l2.
Proof. apply filter_app. Qed.

Lemma js_filter_all {A} (p : A → bool) (l : list A) :
  (∀ x, x ∈ l → p x = true) → js_filter p l = l.
Proof.
  induction l as [|x l IH]; intros Hp; [done|].
  rewrite js_filter_cons, Hp by set_solver. f_equal. apply IH. set_solver.
Qed.

Lemma js_filter_length {A} (p : A → bool) (l : list A) : length (js_filter p l) ≤ length l.
Proof. apply length_filter. Qed.

Lemma js_filter_ext {A} (p q : A → bool) (l : list A) :
  (∀ x, x ∈ l → p x = q x) → js_filter p l = js_filter q l.
Proof.
  induction l as [|x l IH]; intros Hpq; [done|].
  rewrite !js_filter_cons, Hpq by set_solver. rewrite IH by set_solver. done.
Qed.

Lemma js_filter_filter {A} (p q : A → bool) (l : list A) :
  js_filter p (js_filter q l) = js_filter (λ x, q x && p x) l.
Proof.
  induction l as [|x l IH]; [done|]. rewrite !js_filter_cons.
  destruct (q x); simpl; [rewrite js_filter_cons; by destruct (p x); rewrite IH|done].
Qed.

Lemma js_filter_none {A} (p : A → bool) l : (∀ x, x ∈ l → p x = false) → js_filter p l = [].
Proof.
  induction l as [|x l IH]; intros H; [done|]. rewrite js_filter_cons, H by set_solver. apply IH. set_solver.
Qed.

Lemma NoDup_js_filter {A} (p : A → bool) (l : list A) : NoDup l → NoDup (js_filter p l).
Proof. apply NoDup_filter. Qed.

Lemma js_some_true {A} (p : A → bool) (l : list A) :
  js_some p l = true ↔ ∃ x, x ∈ l ∧ p x = true.
Proof.
  unfold js_some. rewrite existsb_exists. split; intros (x & Hx & Hp); exists x.
  - by rewrite list_elem_of_In.
  - by rewrite <-list_elem_of_In.
Qed.

Lemma js_some_false {A} (p : A → bool) (l : list A) :
  js_some p l = false ↔ ∀ x, x ∈ l → p x = false.
Proof.
  rewrite <-not_true_iff_false, js_some_true. split.
  - intros H x Hx. apply not_true_iff_false. eauto.
  - intros H (x & Hx & Hp). rewrite H in Hp; done.
Qed.

Lemma js_every_true {A} (p : A → bool) (l : list A) :
  js_every p l = true ↔ ∀ x, x ∈ l → p x = true.
Proof.
  unfold js_every. rewrite forallb_forall. split; intros H x Hx; apply H.
  - by rewrite <-list_elem_of_In.
  - by rewrite list_elem_of_In.
Qed.

Lemma js_find_Some {A} (p : A → bool) (l : list A) x :
  js_find p l = Some x → x ∈ l ∧ p x = true.
Proof. unfold js_find. intros [H ?]%find_some. by rewrite list_elem_of_In. Qed.

Lemma js_find_None {A} (p : A → bool) (l : list A) :
  js_find p l = None ↔ ∀ x, x ∈ l → p x = false.
Proof.
  induction l as [|y l IH]; simpl; [set_solver|].
  destruct (p y) eqn:Hy.
  { split; [done|]. intros H. rewrite (H y) in Hy; [done|set_solver]. }
  rewrite IH. set_solver.
Qed.

Lemma js_find_is_Some {A} (p : A → bool) (l : list A) x :
  x ∈ l → p x = true → is_Some (js_find p l).
Proof.
  intros Hx Hp. destruct (js_find p l) eqn:E; [done|].
  rewrite js_find_None in E. by rewrite E in Hp.
Qed.

Lemma js_findIndex_Some {A} (p : A → bool) (l : list A) i :
  js_findIndex p l = Some i ↔
  (∃ x, l !! i = Some x ∧ p x = true) ∧ ∀ j y, j < i → l !! j = Some y → p y = false.
Proof.
  revert i. induction l as [|x l IH]; intros i; simpl.
  { split; [done|]. intros [(y & ? & ?) _]. done. }
  destruct (p x) eqn:Hx.
  - split.
    + intros [= <-]. split; [eauto|]. intros; lia.
    + intros [_ H]. destruct i as [|i]; [done|].
      specialize (H 0 x ltac:(lia) eq_refl). congruence.
  - destruct i as [|i].
    + split; [by destruct (js_findIndex p l)|]. intros [(y & [= <-] & ?) _]. congruence.
    + rewrite fmap_Some. setoid_rewrite IH. split.
      * intros (k & [Hk Hlt] & [= <-]). split; [done|].
        intros [|j] y ? Hj; simplify_eq/=; [done|]. eapply Hlt; [|done]. lia.
      * intros [Hi Hlt]. exists i. split; [|done]. split; [done|].
        intros j y ? Hj. apply (Hlt (S j)); [lia|done].
Qed.

Lemma js_findIndex_None {A} (p : A → bool) (l : list A) :
  js_findIndex p l = None ↔ ∀ x, x ∈ l → p x = false.
Proof.
  induction l as [|x l IH]; simpl; [set_solver|].
  destruct (p x) eqn:Hx.
  { split; [done|]. intros H. rewrite (H x) in Hx; [done|set_solver]. }
  rewrite fmap_None, IH. set_solver.
Qed.

Lemma js_findIndex_lt {A} (p : A → bool) (l : list A) i :
  js_findIndex p l = Some i → i < length l.
Proof. intros [(x & Hx & _) _]%js_findIndex_Some. by eapply lookup_lt_Some. Qed.

Lemma js_includes_true {A} `{EqDecision A} (l : list A) x : js_includes l x = true ↔ x ∈ l.
Proof. apply bool_decide_eq_true. Qed.

Section push.
Context {A : Type} `{EqDecision A}.
Implicit Types (l xs : list A) (x : A).

Lemma push_new_eq l x : push_new l x = if decide (x ∈ l) then l else l ++ [x].
  Proof.
    unfold push_new. destruct (js_every _ l) eqn:E.
    - rewrite js_every_true in E. rewrite decide_False; [done|].
      intros Hx. specialize (E x Hx). reflect_bool. done.
    - rewrite decide_True; [done|]. destruct (decide (x ∈ l)); [done|].
      apply not_true_iff_false in E as []. apply js_every_true.
      intros y Hy. apply negb_true_iff, bool_decide_eq_false. congruence.
  Qed.

Lemma elem_of_push_new l x y : y ∈ push_new l x ↔ y ∈ l ∨ y = x.
  Proof. rewrite push_new_eq. case_decide; set_solver. Qed.

Lemma NoDup_push_new l x : NoDup l → NoDup (push_new l x).
  Proof.
    intros. rewrite push_new_eq. case_decide; [done|].
    apply NoDup_app. split; [done|]. split; [set_solver|]. apply NoDup_singleton.
  Qed.

Lemma elem_of_push_all l xs y : y ∈ push_all l xs ↔ y ∈ l ∨ y ∈ xs.
  Proof.
    revert l. unfold push_all. induction xs as [|x xs IH]; intros l; simpl; [set_solver|].
    rewrite IH, elem_of_push_new. set_solver.
  Qed.

Lemma NoDup_push_all l xs : NoDup l → NoDup (push_all l xs).
  Proof.
    revert l. unfold push_all. induction xs as [|x xs IH]; intros l Hl; simpl; [done|].
    by apply IH, NoDup_push_new.
  Qed.

Lemma push_all_app l xs ys : push_all l (xs ++ ys) = push_all (push_all l xs) ys.
  Proof. unfold push_all. by rewrite foldl_app. Qed.

Lemma push_new_prefix l x : l `prefix_of` push_new l x.
  Proof. rewrite push_new_eq. case_decide; [done|]. by apply prefix_app_r. Qed.

Lemma push_all_prefix l xs : l `prefix_of` push_all l xs.
  Proof.
    revert l. unfold push_all. induction xs as [|x xs IH]; intros l; simpl; [done|].
    etrans; [apply push_new_prefix|apply IH].
  Qed.
End push.

Section sort.
Context {A : Type} (gt : A → A → bool).

Lemma sort_insert_Permutation x l : sort_insert gt x l ≡ₚ x :: l.
  Proof.
    induction l as [|y l IH]; simpl; [done|]. destruct (gt x y); [|done].
    rewrite IH. apply Permutation_swap.
  Qed.

Lemma js_sort_Permutation l : js_sort gt l ≡ₚ l.
  Proof.
    induction l as [|x l IH]; simpl; [done|]. rewrite sort_insert_Permutation.
    by rewrite IH.
  Qed.

Lemma elem_of_js_sort l x : x ∈ js_sort gt l ↔ x ∈ l.
  Proof. by rewrite js_sort_Permutation. Qed.

Lemma length_js_sort l : length (js_sort gt l) = length l.
  Proof. by rewrite js_sort_Permutation. Qed.

  (** Adjacent elements of the sorted array are in order, for a comparator
      that never puts two elements strictly before each other. *)
Definition ordered (x y : A) : Prop := gt x y = false.

Lemma js_sort_HdRel x y l :
    (∀ a b, gt a b = true → gt b a = false) →
    HdRel ordered y l → gt x y = true → HdRel ordered y (sort_insert gt x l).
  Proof.
    intros Has Hl Hxy. destruct l as [|z l]; simpl.
    - constructor. by apply Has.
    - destruct (gt x z); constructor; [by inversion Hl|by apply Has].
  Qed.

Lemma js_sort_Sorted l :
    (∀ a b, gt a b = true → gt b a = false) → Sorted ordered (js_sort gt l).
  Proof.
    intros Has. induction l as [|x l IH]; simpl; [constructor|].
    assert (∀ s, Sorted ordered s → Sorted ordered (sort_insert gt x s)) as Hins; [|by apply Hins].
    intros s Hs. induction Hs as [|y s Hs IHs Hd]; simpl; [repeat constructor|].
    destruct (gt x y) eqn:E.
    - constructor; [done|]. by apply js_sort_HdRel.
    - repeat (constructor; try done).
  Qed.
End sort.

Lemma sort_insert_map {A B} (f : A → B) (gt : A → A → bool) (gt' : B → B → bool) x l :
  (∀ a b, gt' (f a) (f b) = gt a b) → sort_insert gt' (f x) (map f l) = map f (sort_insert gt x l).
Proof. intros H. induction l as [|y l IH]; simpl; [done|]. rewrite H. destruct (gt x y); simpl; congruence. Qed.

Lemma js_sort_map {A B} (f : A → B) (gt : A → A → bool) (gt' : B → B → bool) l :
  (∀ a b, gt' (f a) (f b) = gt a b) → js_sort gt' (map f l) = map f (js_sort gt l).
Proof. intros H. induction l as [|y l IH]; simpl; [done|]. rewrite IH. by apply sort_insert_map. Qed.

Lemma bind_Ok {A B} (m : outcome A) (f : A → outcome B) b :
  (m ≫= f) = Ok b ↔ ∃ a, m = Ok a ∧ f a = Ok b.
Proof. destruct m; simpl; naive_solver. Qed.

(** A run of steps that may fail: one that ends started from a state. *)
Lemma foldl_bind_Ok {A B} (f : A → B → outcome A) (m : outcome A) (l : list B) a :
  foldl (λ m x, m ≫= λ a, f a x) m l = Ok a → ∃ a0, m = Ok a0 ∧ foldl (λ m x, m ≫= λ a, f a x) (Ok a0) l = Ok a.
Proof.
  destruct m as [a0| |]; [eauto| |]; intros H; exfalso; induction l as [|x l IH]; cbn in H; try done; by apply IH.
Qed.

Lemma foldl_bind_app {A B} (f : A → B → outcome A) (m : outcome A) (l1 l2 : list B) :
  foldl (λ m x, m ≫= λ a, f a x) m (l1 ++ l2) =
  foldl (λ m x, m ≫= λ a, f a x) m l1 ≫= λ a, foldl (λ m x, m ≫= λ a, f a x) (Ok a) l2.
Proof.
  rewrite foldl_app. destruct (foldl _ m l1) as [a| |]; [done| |]; cbn [mbind outcome_bind];
    (induction l2 as [|x l2 IH]; [done|exact IH]).
Qed.

Lemma mapM_Ok {A B} (f : A → outcome B) l k : mapM f l = Ok k ↔ Forall2 (λ x y, f x = Ok y) l k.
Proof.
  revert k. induction l as [|x l IH]; intros k; simpl.
  - split; [intros [= <-]; constructor|]. by inversion 1.
  - rewrite bind_Ok. setoid_rewrite bind_Ok. setoid_rewrite IH. split.
    + intros (y & Hy & k' & Hk' & [= <-]). by constructor.
    + inversion 1; subst. eauto.
Qed.

#[export] Hint Resolve NoDup_js_filter NoDup_push_new NoDup_push_all : js.
Create Rewrite HintDb js_rw.
#[export] Hint Rewrite @elem_of_js_filter @elem_of_push_new @elem_of_push_all @elem_of_js_sort : js_rw.

(** ** Maps

    A [Map] keeps its keys in the order of their first insertion. *)
Section maps.
Context {K : Type} `{EqDecision K}.

Fixpoint map_get {A} (f : K) (m : list (K * A)) : option A :=
  match m with [] => None | (g, a) :: m => if f === g then Some a else map_get f m end.

Fixpoint map_set {A} (f : K) (a : A) (m : list (K * A)) : list (K * A) :=
  match m with [] => [(f, a)] | (g, b) :: m => if f === g then (g, a) :: m else (g, b) :: map_set f a m end.

Definition map_delete {A} (f : K) (m : list (K * A)) : list (K * A) := js_filter (λ ga, ga.1 !== f) m.

Lemma map_set_keys {A} f (a : A) m : (map_set f a m).*1 = push_new m.*1 f.
Proof.
  rewrite push_new_eq. induction m as [|[g b] m IH]; csimpl; [done|].
  case_bool_decide; subst; csimpl; [rewrite decide_True; [done|set_solver]|]. rewrite IH. repeat case_decide; set_solver.
Qed.

Lemma map_get_in {A} f (a : A) m : map_get f m = Some a → (f, a) ∈ m.
Proof.
  induction m as [|[g b] m IH]; simpl; [done|]. case_bool_decide; [intros [= <-]; subst; by left|]. intros ?%IH. by right.
Qed.

Lemma map_get_NoDup {A} f (a : A) m : NoDup m.*1 → (f, a) ∈ m → map_get f m = Some a.
Proof.
  induction m as [|[g b] m IH]; csimpl; [by intros _ ?%elem_of_nil|]. intros [Hg Hnd]%NoDup_cons.
  intros [[= -> ->]|Hin]%elem_of_cons; [by rewrite bool_decide_true|]. rewrite bool_decide_false; [by apply IH|].
  intros ->. apply Hg. apply list_elem_of_fmap. by exists (g, a).
Qed.

Lemma map_get_None {A} f (m : list (K * A)) : map_get f m = None ↔ f ∉ m.*1.
Proof. induction m as [|[g b] m IH]; simpl; [set_solver|]. case_bool_decide; subst; [set_solver|]. rewrite IH. set_solver. Qed.

Lemma map_get_is_Some {A} f (m : list (K * A)) : is_Some (map_get f m) ↔ f ∈ m.*1.
Proof.
  rewrite <-not_eq_None_Some, map_get_None. split; [|tauto]. intros H. destruct (decide (f ∈ m.*1)); [done|by destruct H].
Qed.

Lemma map_get_set {A} f g (a : A) m : map_get g (map_set f a m) = if decide (g = f) then Some a else map_get g m.
Proof.
  induction m as [|[h b] m IH]; simpl; [by case_bool_decide; case_decide; congruence|].
  destruct (decide (f = h)) as [->|Hfh]; [rewrite bool_decide_true by done|rewrite bool_decide_false by done]; simpl.
  - case_bool_decide; case_decide; congruence.
  - rewrite IH. case_bool_decide; [|done]. subst. by rewrite decide_False.
Qed.

Lemma map_delete_keys {A} f (m : list (K * A)) : (map_delete f m).*1 = js_filter (λ g, g !== f) m.*1.
Proof.
  unfold map_delete. induction m as [|[g b] m IH]; csimpl; [done|]. rewrite !js_filter_cons. simpl.
  destruct (g !== f); csimpl; by rewrite IH.
Qed.

Lemma Forall_map_set {A} (P : K * A → Prop) f a m : Forall P m → P (f, a) → Forall P (map_set f a m).
Proof.
  intros Hm Ha. induction Hm as [|[g b] m Hb Hm IH]; simpl; [by constructor|].
  case_bool_decide; [subst|]; by constructor.
Qed.

Lemma elem_of_map_delete {A} f (ga : K * A) m : ga ∈ map_delete f m ↔ ga ∈ m ∧ ga.1 ≠ f.
Proof. unfold map_delete. rewrite elem_of_js_filter, negb_true_iff, bool_decide_eq_false. tauto. Qed.

Lemma map_get_filter {A} (p : K → bool) f (m : list (K * A)) : p f = true →
  map_get f (js_filter (λ ga, p ga.1) m) = map_get f m.
Proof.
  intros Hp. induction m as [|[g b] m IH]; [done|]. rewrite js_filter_cons. simpl. case_bool_decide as H.
  - subst. rewrite Hp. simpl. by rewrite bool_decide_true.
  - destruct (p g); simpl; [by rewrite bool_decide_false|done].
Qed.

Lemma map_get_delete {A} f g (m : list (K * A)) : (f !== g) = true → map_get f (map_delete g m) = map_get f m.
Proof. exact (map_get_filter (λ h, h !== g) f m). Qed.

End maps.
