(* ===== verification/JsValue.v ===== *)
(** * JavaScript values

    The values the program's untyped records hold ([Record<string, any>],
    form data, JSON documents): numbers, strings, arrays and objects with
    their property order, with the operations of the language the code uses
    on them. *)
From S2P Require Import Prelude.
From Stdlib Require Import Ascii QArith Qcanon.
Open Scope list_scope.
Open Scope nat_scope.
Open Scope js_scope.

(** ** Numbers

    A finite number is an exact rational (binary64 rounding is not modelled;
    the code computes with small integers, halves and hundredths), and the
    three non-finite values are explicit. *)
Inductive num :=
  | NFin (q : Qc)
  | NNaN
  | NPosInf
  | NNegInf.

#[export] Instance num_eq_dec : EqDecision num.
Proof. solve_decision. Defined.

Definition num_of_Z (z : Z) : num := NFin (Qc_of_Z z).

Definition num_of_nat (n : nat) : num := num_of_Z (Z.of_nat n).

Definition num_isNaN (n : num) : bool := match n with NNaN => true | _ => false end.

Definition num_opp (a : num) : num :=
  match a with NFin q => NFin (- q)%Qc | NNaN => NNaN | NPosInf => NNegInf | NNegInf => NPosInf end.

Definition num_add (a b : num) : num :=
  match a, b with
  | NFin x, NFin y => NFin (x + y)%Qc
  | NNaN, _ | _, NNaN => NNaN
  | NPosInf, NNegInf | NNegInf, NPosInf => NNaN
  | NPosInf, _ | _, NPosInf => NPosInf
  | NNegInf, _ | _, NNegInf => NNegInf
  end.

Definition num_sub (a b : num) : num := num_add a (num_opp b).

(** Division by a non-zero finite constant, the only divisor the code uses. *)
Definition num_div_Z (a : num) (d : Z) : num :=
  match a with
  | NFin x => NFin (x / Qc_of_Z d)%Qc
  | NNaN => NNaN
  | NPosInf => if (d <? 0)%Z then NNegInf else NPosInf
  | NNegInf => if (d <? 0)%Z then NPosInf else NNegInf
  end.

Definition num_ltb (a b : num) : bool :=
  match a, b with
  | NFin x, NFin y => bool_decide (x < y)%Qc
  | NNaN, _ | _, NNaN => false
  | NNegInf, NNegInf | NPosInf, _ | _, NNegInf => false
  | NNegInf, _ | _, NPosInf => true
  end.

Definition num_leb (a b : num) : bool :=
  match a, b with
  | NFin x, NFin y => bool_decide (x <= y)%Qc
  | NNaN, _ | _, NNaN => false
  | NNegInf, _ | _, NPosInf => true
  | NPosInf, _ | _, NNegInf => false
  end.

(** [a === b] on numbers. *)
Definition num_eqb (a b : num) : bool :=
  match a, b with
  | NNaN, _ | _, NNaN => false
  | _, _ => a === b
  end.

(** [Math.max(...xs)], whose value on no argument is [-Infinity]. *)
Definition num_max (a b : num) : num :=
  match a, b with
  | NNaN, _ | _, NNaN => NNaN
  | _, _ => if num_ltb a b then b else a
  end.

Definition math_max (xs : list num) : num := foldl num_max NNegInf xs.

(** [(a, b) => a - b] put [b] strictly before [a]. *)
Definition num_gt_cmp (a b : num) : bool := num_ltb (num_of_Z 0) (num_sub a b).

(** ** Values *)
#[warnings="-register-all"]
Inductive val :=
  | VUndef
  | VNull
  | VBool (b : bool)
  | VNum (n : num)
  | VStr (s : string)
  | VArr (l : list val)
  | VObj (o : list (string * val)).

Abbreviation obj := (list (string * val)).

Section val_ind.
Variable P : val → Prop.
Hypothesis HU : P VUndef.
Hypothesis HN : P VNull.
Hypothesis HB : ∀ b, P (VBool b).
Hypothesis HM : ∀ n, P (VNum n).
Hypothesis HS : ∀ s, P (VStr s).
Hypothesis HA : ∀ l, Forall P l → P (VArr l).
Hypothesis HO : ∀ o, Forall (λ kv, P kv.2) o → P (VObj o).

Fixpoint val_ind' (v : val) : P v :=
    match v with
    | VUndef => HU
    | VNull => HN
    | VBool b => HB b
    | VNum n => HM n
    | VStr s => HS s
    | VArr l =>
        HA l ((fix go (l : list val) : Forall P l :=
          match l with
          | [] => List.Forall_nil _
          | x :: l' => List.Forall_cons _ x l' (val_ind' x) (go l')
          end) l)
    | VObj o =>
        HO o ((fix go (o : obj) : Forall (λ kv, P kv.2) o :=
          match o with
          | [] => List.Forall_nil _
          | (k, x) :: o' => List.Forall_cons _ (k, x) o' (val_ind' x) (go o')
          end) o)
    end.
End val_ind.

Fixpoint val_beq (a b : val) {struct a} : bool :=
  match a, b with
  | VUndef, VUndef | VNull, VNull => true
  | VBool x, VBool y => x === y
  | VNum x, VNum y => x === y
  | VStr x, VStr y => x === y
  | VArr xs, VArr ys =>
      (fix go (xs ys : list val) : bool :=
         match xs, ys with
         | [], [] => true
         | x :: xs', y :: ys' => val_beq x y && go xs' ys'
         | _, _ => false
         end) xs ys
  | VObj xs, VObj ys =>
      (fix go (xs ys : obj) : bool :=
         match xs, ys with
         | [], [] => true
         | (k, x) :: xs', (k', y) :: ys' => (k === k') && val_beq x y && go xs' ys'
         | _, _ => false
         end) xs ys
  | _, _ => false
  end.

Lemma val_beq_spec a b : val_beq a b = true ↔ a = b.
Proof.
  revert b. induction a as [| |x|x|x|xs IH|xs IH] using val_ind'; intros [| |y|y|y|ys|ys];
    simpl; try (split; congruence); rewrite ?bool_decide_eq_true; try (split; congruence).
  - revert ys. induction IH as [|x xs Hx _ IH]; intros [|y ys]; try (split; congruence).
    rewrite andb_true_iff, Hx, IH. split; [intros [? [=]]; congruence|intros [=]; by subst].
  - revert ys. induction IH as [|[k x] xs Hx _ IH]; intros [|[k' y] ys]; try (split; congruence).
    rewrite !andb_true_iff, Hx, IH, bool_decide_eq_true. simpl.
    split; [intros [[? ?] [=]]; congruence|intros [=]; by subst].
Qed.

#[export] Instance val_eq_dec : EqDecision val.
Proof.
  intros a b. destruct (val_beq a b) eqn:E.
  - left. by apply val_beq_spec.
  - right. intros H%val_beq_spec. congruence.
Defined.

(** [Boolean(v)] *)
Definition truthy (v : val) : bool :=
  match v with
  | VUndef | VNull => false
  | VBool b => b
  | VNum n => negb (num_isNaN n) && (n !== num_of_Z 0)
  | VStr s => s !== ""
  | VArr _ | VObj _ => true
  end.

(** [a || b], [a ?? b] on values *)
Definition js_or (a b : val) : val := if truthy a then a else b.

Definition nullish (v : val) : bool := match v with VUndef | VNull => true | _ => false end.

Definition js_coalesce (a b : val) : val := if nullish a then b else a.

Definition typeof (v : val) : string :=
  match v with
  | VUndef => "undefined"
  | VNull => "object"
  | VBool _ => "boolean"
  | VNum _ => "number"
  | VStr _ => "string"
  | VArr _ | VObj _ => "object"
  end.

Definition is_array (v : val) : bool := match v with VArr _ => true | _ => false end.

(** The value of an optional string field. *)
Definition of_ostr (o : option string) : val := match o with Some s => VStr s | None => VUndef end.

(** ** Objects

    An object is its own enumerable properties in creation order.  Names of
    [Object.prototype] and [__proto__] are not used as keys by the modelled
    code's callers and are outside the model. *)
Fixpoint obj_lookup (k : string) (o : obj) : option val :=
  match o with
  | [] => None
  | (k', v) :: o' => if k === k' then Some v else obj_lookup k o'
  end.

Definition obj_has (k : string) (o : obj) : bool := match obj_lookup k o with Some _ => true | None => false end.

(** [o[k]] *)
Definition obj_get (k : string) (o : obj) : val := default VUndef (obj_lookup k o).

(** [o[k] = v] *)
Fixpoint obj_set (k : string) (v : val) (o : obj) : obj :=
  match o with
  | [] => [(k, v)]
  | (k', v') :: o' => if k === k' then (k, v) :: o' else (k', v') :: obj_set k v o'
  end.

(** The rest pattern [{ [k]: _, ...rest } = o] and [delete o[k]]. *)
Definition obj_del (k : string) (o : obj) : obj := js_filter (λ kv, kv.1 !== k) o.

(** *** Property order

    [Object.keys], [Object.entries], spread and [for...in] list the array
    indices in increasing order before the other names. *)
Definition is_digit (a : ascii) : bool :=
  let n := nat_of_ascii a in bool_decide (48 ≤ n) && bool_decide (n ≤ 57).

Definition digit_val (a : ascii) : Z := Z.of_nat (nat_of_ascii a) - 48.

Definition digits_val (l : list ascii) : Z := foldl (λ acc a, (acc * 10 + digit_val a)%Z) 0%Z l.

(** The canonical numeric strings below 2^32 - 1. *)
Definition array_index (k : string) : option Z :=
  match String.list_ascii_of_string k with
  | [] => None
  | a :: l =>
      if js_every is_digit (a :: l) && ((a !== "0"%char) || (l === []))
      then let z := digits_val (a :: l) in if (z <? 4294967295)%Z then Some z else None
      else None
  end.

Definition is_index_key (kv : string * val) : bool :=
  match array_index kv.1 with Some _ => true | None => false end.

Definition index_gt (a b : string * val) : bool :=
  match array_index a.1, array_index b.1 with
  | Some x, Some y => (y <? x)%Z
  | _, _ => false
  end.

(** [Object.entries(o)] *)
Definition obj_entries (o : obj) : obj :=
  js_sort index_gt (js_filter is_index_key o) ++ js_filter (λ kv, negb (is_index_key kv)) o.

(** [Object.keys(o)], [Object.values(o)] *)
Definition obj_keys (o : obj) : list string := (obj_entries o).*1.

Definition obj_values (o : obj) : list val := (obj_entries o).*2.

(** [{ ...base, ...ext }] for [base] a fresh object *)
Definition obj_assign (base ext : obj) : obj :=
  foldl (λ acc kv, obj_set kv.1 kv.2 acc) base (obj_entries ext).

Definition obj_of_val (v : val) : obj := match v with VObj o => o | _ => [] end.

(** [v.k], [v?.k]: reading a property of a value that is not an object gives
    [undefined] (reading one of [undefined] throws; the code guards it). *)
Definition prop (k : string) (v : val) : val := match v with VObj o => obj_get k o | _ => VUndef end.

Definition arr_of_val (v : val) : list val := match v with VArr l => l | _ => [] end.

(** ** Strings *)
Fixpoint js_split (c : ascii) (s : string) : list string :=
  match s with
  | "" => [""]
  | String a s' =>
      if a === c then "" :: js_split c s'
      else match js_split c s' with
           | [] => [String a ""]
           | h :: t => String a h :: t
           end
  end.

Fixpoint count_char (c : ascii) (s : string) : nat :=
  match s with
  | "" => 0
  | String a s' => (if a === c then 1 else 0) + count_char c s'
  end.

Definition starts_with (p s : string) : bool := String.prefix p s.

Fixpoint str_includes (p s : string) : bool :=
  String.prefix p s || match s with "" => false | String _ s' => str_includes p s' end.

(** [s.slice(n)] and [s.slice(-n)]. *)
Definition str_from (n : nat) (s : string) : string := String.substring n (String.length s - n) s.

Definition slice_last (n : nat) (s : string) : string := str_from (String.length s - n) s.

(** ASCII case folding: the code folds tags and type names. *)
Definition ascii_lower (a : ascii) : ascii :=
  let n := nat_of_ascii a in
  if bool_decide (65 ≤ n) && bool_decide (n ≤ 90) then ascii_of_nat (n + 32) else a.

Definition to_lower (s : string) : string :=
  String.string_of_list_ascii (map ascii_lower (String.list_ascii_of_string s)).

Definition ascii_upper (a : ascii) : ascii :=
  let n := nat_of_ascii a in
  if bool_decide (97 ≤ n) && bool_decide (n ≤ 122) then ascii_of_nat (n - 32) else a.

Definition to_upper (s : string) : string :=
  String.string_of_list_ascii (map ascii_upper (String.list_ascii_of_string s)).

Definition is_space (a : ascii) : bool :=
  let n := nat_of_ascii a in
  (bool_decide (9 ≤ n) && bool_decide (n ≤ 13)) || (n === 32) || (n === 160).

Fixpoint trim_start (l : list ascii) : list ascii :=
  match l with
  | [] => []
  | a :: l' => if is_space a then trim_start l' else l
  end.

Definition trim_list (l : list ascii) : list ascii := rev (trim_start (rev (trim_start l))).

Definition str_trim (s : string) : string := String.string_of_list_ascii (trim_list (String.list_ascii_of_string s)).

(** ** [Number(s)]

    The StringNumericLiteral grammar: optional white space, a sign, decimal
    digits with a fraction and an exponent, [Infinity], and the three
    prefixed integer notations. *)
Fixpoint take_digits (l : list ascii) : list ascii * list ascii :=
  match l with
  | a :: l' => if is_digit a then let '(d, r) := take_digits l' in (a :: d, r) else ([], l)
  | [] => ([], [])
  end.

Definition pow10 (e : Z) : Qc :=
  if (0 <=? e)%Z then Qc_of_Z (10 ^ e)%Z else Q2Qc (1 # Z.to_pos (10 ^ (- e))%Z).

Definition parse_exponent (l : list ascii) : option Z :=
  match l with
  | [] => Some 0%Z
  | e :: r =>
      if (e === "e"%char) || (e === "E"%char) then
        let '(neg, r') :=
          match r with
          | "-"%char :: r' => (true, r')
          | "+"%char :: r' => (false, r')
          | _ => (false, r)
          end in
        let '(d, rest) := take_digits r' in
        if (rest === []) && (d !== []) then Some (if neg then (- digits_val d)%Z else digits_val d) else None
      else None
  end.

Definition parse_unsigned (l : list ascii) : num :=
  let '(ip, r) := take_digits l in
  let '(fp, r') := match r with "."%char :: r' => take_digits r' | _ => ([], r) end in
  if ip ++ fp === [] then NNaN
  else match parse_exponent r' with
       | Some e =>
           NFin (Qc_of_Z (digits_val (ip ++ fp)) * pow10 (e - Z.of_nat (length fp)))%Qc
       | None => NNaN
       end.

Definition radix_digit (base : Z) (a : ascii) : option Z :=
  let n := Z.of_nat (nat_of_ascii (ascii_lower a)) in
  let d := if is_digit a then digit_val a else (n - 87)%Z in
  if ((is_digit a) || ((97 <=? n)%Z && (n <=? 122)%Z)) && (d <? base)%Z then Some d else None.

Definition parse_radix (base : Z) (l : list ascii) : num :=
  if l === [] then NNaN
  else match mapM (radix_digit base) l with
       | Some ds => num_of_Z (foldl (λ acc d, (acc * base + d)%Z) 0%Z ds)
       | None => NNaN
       end.

Definition infinity_chars : list ascii := String.list_ascii_of_string "Infinity".

Definition num_of_string (s : string) : num :=
  match trim_list (String.list_ascii_of_string s) with
  | [] => num_of_Z 0
  | "0"%char :: "x"%char :: l | "0"%char :: "X"%char :: l => parse_radix 16 l
  | "0"%char :: "o"%char :: l | "0"%char :: "O"%char :: l => parse_radix 8 l
  | "0"%char :: "b"%char :: l | "0"%char :: "B"%char :: l => parse_radix 2 l
  | "-"%char :: l => if l === infinity_chars then NNegInf else num_opp (parse_unsigned l)
  | "+"%char :: l => if l === infinity_chars then NPosInf else parse_unsigned l
  | l => if l === infinity_chars then NPosInf else parse_unsigned l
  end.

(** ** [String(n)]

    The decimal expansion: exact for integers and for numbers with at most
    twenty fractional digits. *)
Fixpoint frac_digits (fuel : nat) (r d : Z) : string :=
  match fuel with
  | O => ""
  | S fuel =>
      if (r =? 0)%Z then ""
      else pretty (r * 10 / d)%Z +:+ frac_digits fuel (r * 10 mod d)%Z d
  end.

Definition num_to_string (n : num) : string :=
  match n with
  | NFin q =>
      let nu := Qnum q in
      let d := Zpos (Qden q) in
      if (d =? 1)%Z then pretty nu
      else (if (nu <? 0)%Z then "-" else "") +:+ pretty (Z.abs nu / d)%Z +:+ "." +:+
             frac_digits 20 (Z.abs nu mod d)%Z d
  | NNaN => "NaN"
  | NPosInf => "Infinity"
  | NNegInf => "-Infinity"
  end.

(** ** JSON

    [JSON.parse(JSON.stringify(v))]: [undefined] properties are dropped,
    [undefined] array elements and non-finite numbers become [null], and
    properties come out in enumeration order.  [JSON.stringify] is injective
    on the values this leaves, so two texts are equal exactly when the
    normal forms are. *)
Definition undef_to_null (v : val) : val := match v with VUndef => VNull | _ => v end.

Definition is_undef (v : val) : bool := match v with VUndef => true | _ => false end.

Fixpoint json_norm (v : val) : val :=
  match v with
  | VNum (NFin q) => VNum (NFin q)
  | VNum _ => VNull
  | VArr l => VArr (map (λ x, undef_to_null (json_norm x)) l)
  | VObj o =>
      VObj (obj_entries (js_filter (λ kv, negb (is_undef kv.2))
              (map (λ kv, (kv.1, json_norm kv.2)) o)))
  | _ => v
  end.

(** [JSON.stringify(a) === JSON.stringify(b)] *)
Definition json_eqb (a b : val) : bool := json_norm a === json_norm b.

(** ** Object lemmas *)
Lemma obj_lookup_set_eq k v o : obj_lookup k (obj_set k v o) = Some v.
Proof.
  induction o as [|[k' v'] o IH]; simpl; [by rewrite bool_decide_true|].
  destruct (bool_decide_reflect (k = k')); simpl; [by rewrite bool_decide_true|].
  by rewrite bool_decide_false.
Qed.

Lemma obj_lookup_set_ne k k' v o : k ≠ k' → obj_lookup k' (obj_set k v o) = obj_lookup k' o.
Proof.
  intros Hk. induction o as [|[k'' v''] o IH]; simpl; [by rewrite bool_decide_false|].
  destruct (bool_decide_reflect (k = k'')); simpl; [|by rewrite IH].
  subst. by rewrite !bool_decide_false.
Qed.

Lemma obj_get_set_eq k v o : obj_get k (obj_set k v o) = v.
Proof. unfold obj_get. by rewrite obj_lookup_set_eq. Qed.

Lemma obj_get_set_ne k k' v o : k ≠ k' → obj_get k' (obj_set k v o) = obj_get k' o.
Proof. intros. unfold obj_get. by rewrite obj_lookup_set_ne. Qed.

Lemma obj_lookup_filter_key (f : string → bool) k o :
  obj_lookup k (js_filter (λ kv, f kv.1) o) = if f k then obj_lookup k o else None.
Proof.
  induction o as [|[k' v] o IH]; [by destruct (f k)|].
  rewrite js_filter_cons. simpl. destruct (bool_decide_reflect (k = k')) as [<-|Hk].
  - destruct (f k); simpl; [by rewrite bool_decide_true|done].
  - destruct (f k'); simpl; [by rewrite bool_decide_false|done].
Qed.

Lemma obj_has_true k o : obj_has k o = true ↔ is_Some (obj_lookup k o).
Proof. unfold obj_has. destruct (obj_lookup k o); split; try done; by intros [? ?]. Qed.

Lemma obj_lookup_in k v o : obj_lookup k o = Some v → (k, v) ∈ o.
Proof.
  induction o as [|[k' v'] o IH]; simpl; [done|]. case_bool_decide; [intros [= <-]; subst; set_solver|].
  intros ?%IH. set_solver.
Qed.

Lemma obj_lookup_None k o : obj_lookup k o = None ↔ k ∉ o.*1.
Proof.
  induction o as [|[k' v'] o IH]; simpl; [set_solver|]. case_bool_decide; subst; [set_solver|].
  rewrite IH. set_solver.
Qed.

Lemma obj_lookup_NoDup k v o : NoDup o.*1 → (k, v) ∈ o → obj_lookup k o = Some v.
Proof.
  induction o as [|[k' v'] o IH]; simpl; [set_solver|].
  intros [Hk Hnd]%NoDup_cons [[= -> ->]|Hin]%elem_of_cons; [by rewrite bool_decide_true|].
  rewrite bool_decide_false; [by apply IH|]. intros ->. apply Hk.
  apply list_elem_of_fmap. by exists (k', v).
Qed.

(** *** Well-formed objects: no property is listed twice. *)
Definition obj_wf (o : obj) : Prop := NoDup o.*1.

Lemma obj_set_keys k v o : (obj_set k v o).*1 = push_new (o.*1) k.
Proof.
  rewrite push_new_eq. induction o as [|[k' v'] o IH]; csimpl; [done|].
  case_bool_decide; subst; csimpl; [rewrite decide_True; [done|set_solver]|].
  rewrite IH. repeat case_decide; set_solver.
Qed.

Lemma obj_set_wf k v o : obj_wf o → obj_wf (obj_set k v o).
Proof. unfold obj_wf. rewrite obj_set_keys. apply NoDup_push_new. Qed.

Lemma obj_entries_Permutation o : obj_entries o ≡ₚ o.
Proof.
  unfold obj_entries. rewrite js_sort_Permutation. induction o as [|kv o IH]; [done|].
  rewrite !js_filter_cons. destruct (is_index_key kv); simpl; [by rewrite IH|].
  by rewrite <-Permutation_middle, IH.
Qed.

Lemma obj_entries_wf o : obj_wf o → obj_wf (obj_entries o).
Proof. unfold obj_wf. by rewrite obj_entries_Permutation. Qed.

Lemma elem_of_obj_keys k o : k ∈ obj_keys o ↔ k ∈ o.*1.
Proof. unfold obj_keys. by rewrite obj_entries_Permutation. Qed.

Lemma obj_entries_lookup k o : obj_wf o → obj_lookup k (obj_entries o) = obj_lookup k o.
Proof.
  intros Hwf. destruct (obj_lookup k o) eqn:E.
  - apply obj_lookup_NoDup; [by apply obj_entries_wf|]. rewrite obj_entries_Permutation.
    by apply obj_lookup_in.
  - apply obj_lookup_None. rewrite obj_entries_Permutation. by apply obj_lookup_None.
Qed.

Lemma js_sort_sorted {A} (gt : A → A → bool) (l : list A) :
  Sorted (ordered gt) l → js_sort gt l = l.
Proof.
  induction 1 as [|x l Hs IH Hd]; simpl; [done|]. rewrite IH. destruct Hd as [|y l Hxy]; simpl; [done|].
  unfold ordered in Hxy. by rewrite Hxy.
Qed.

Lemma index_gt_asym a b : index_gt a b = true → index_gt b a = false.
Proof.
  unfold index_gt. destruct (array_index a.1), (array_index b.1); try done.
  rewrite Z.ltb_lt, Z.ltb_ge. lia.
Qed.

Lemma obj_entries_idemp o : obj_entries (obj_entries o) = obj_entries o.
Proof.
  unfold obj_entries. rewrite !js_filter_app, js_filter_filter.
  set (s := js_sort index_gt (js_filter is_index_key o)).
  assert (∀ kv, kv ∈ s → is_index_key kv = true) as Hs.
  { intros kv [? _]%elem_of_js_sort%elem_of_js_filter. done. }
  assert (∀ (p : string * val → bool) l, (∀ kv, kv ∈ l → p kv = false) → js_filter p l = []) as Hnil.
  { intros p l H. induction l as [|kv l IH]; [done|]. rewrite js_filter_cons, H by set_solver.
    apply IH. set_solver. }
  rewrite (js_filter_all _ s) by done.
  rewrite (js_filter_ext (λ x, negb (is_index_key x) && is_index_key x) (λ _, false)) by (intros; by destruct (is_index_key _)).
  rewrite (Hnil (λ _, false)), app_nil_r by done.
  rewrite (Hnil _ s) by (intros kv Hkv; by rewrite Hs). simpl. rewrite js_filter_filter.
  rewrite (js_filter_ext (λ x, negb (is_index_key x) && negb (is_index_key x)) (λ x, negb (is_index_key x)))
    by (intros; apply andb_diag).
  f_equal. unfold s at 1. rewrite js_sort_sorted; [done|]. apply js_sort_Sorted, index_gt_asym.
Qed.

Lemma foldl_obj_set_lookup k (es : obj) o : obj_wf es →
  obj_lookup k (foldl (λ acc kv, obj_set kv.1 kv.2 acc) o es) =
  match obj_lookup k es with Some v => Some v | None => obj_lookup k o end.
Proof.
  revert o. induction es as [|[k' v'] es IH]; intros o Hwf; [done|]. simpl.
  apply NoDup_cons in Hwf as [Hk Hwf]. rewrite IH by done. case_bool_decide; subst.
  - assert (obj_lookup k' es = None) as -> by (by apply obj_lookup_None). apply obj_lookup_set_eq.
  - by rewrite obj_lookup_set_ne.
Qed.

Lemma foldl_obj_set_fresh (base es : obj) : NoDup (base.*1 ++ es.*1) →
  foldl (λ acc kv, obj_set kv.1 kv.2 acc) base es = base ++ es.
Proof.
  revert base. induction es as [|[k v] es IH]; intros base Hnd; simpl; [by rewrite app_nil_r|].
  assert (obj_set k v base = base ++ [(k, v)]) as ->.
  { apply NoDup_app in Hnd as (_ & Hnd & _). clear IH.
    induction base as [|[k' v'] base IH]; simpl; [done|].
    rewrite bool_decide_false by (intros ->; apply (Hnd k'); set_solver). f_equal. apply IH. set_solver. }
  rewrite IH by (by rewrite fmap_app, <-app_assoc). by rewrite <-app_assoc.
Qed.

(** A spread into a fresh object lists the properties in enumeration order. *)
Lemma obj_assign_nil o : obj_wf o → obj_assign [] o = obj_entries o.
Proof. intros Hwf. unfold obj_assign. by rewrite foldl_obj_set_fresh by (by apply obj_entries_wf). Qed.

Lemma obj_assign_lookup k base ext : obj_wf ext →
  obj_lookup k (obj_assign base ext) =
  match obj_lookup k ext with Some v => Some v | None => obj_lookup k base end.
Proof.
  intros Hwf. unfold obj_assign. rewrite foldl_obj_set_lookup by (by apply obj_entries_wf).
  by rewrite obj_entries_lookup.
Qed.

Lemma obj_assign_wf base ext : obj_wf base → obj_wf (obj_assign base ext).
Proof.
  unfold obj_assign. generalize (obj_entries ext). intros es. revert base.
  induction es as [|kv es IH]; intros base Hb; simpl; [done|]. by apply IH, obj_set_wf.
Qed.

Lemma obj_get_assign_nil k o : obj_wf o → obj_get k (obj_assign [] o) = obj_get k o.
Proof. intros Hwf. unfold obj_get. rewrite obj_assign_lookup by done. by destruct (obj_lookup k o). Qed.

Lemma obj_get_del_ne k k' o : k ≠ k' → obj_get k (obj_del k' o) = obj_get k o.
Proof.
  intros Hk. unfold obj_get, obj_del. pose proof (obj_lookup_filter_key (λ x, x !== k') k o) as H.
  cbv beta in H. rewrite H. by rewrite bool_decide_false.
Qed.

Lemma obj_del_wf k o : obj_wf o → obj_wf (obj_del k o).
Proof.
  unfold obj_wf, obj_del. induction o as [|[k' v] o IH]; csimpl; [done|]. intros [Hk Hnd]%NoDup_cons.
  rewrite js_filter_cons. destruct (_ !== _); csimpl; [|by apply IH]. apply NoDup_cons. split; [|by apply IH].
  intros Hin. apply Hk. apply list_elem_of_fmap in Hin as ([k1 v1] & Hk1 & Hin). simpl in Hk1. subst k1.
  apply elem_of_js_filter in Hin as [_ Hin]. apply list_elem_of_fmap. by exists (k', v1).
Qed.

Lemma obj_get_del_eq k o : obj_get k (obj_del k o) = VUndef.
Proof.
  unfold obj_get, obj_del. pose proof (obj_lookup_filter_key (λ x, x !== k) k o) as Hf. cbv beta in Hf. rewrite Hf.
  by rewrite bool_decide_true.
Qed.

Lemma obj_get_defined k (o : obj) : obj_wf o → obj_get k (js_filter (λ kv, negb (is_undef kv.2)) o) = obj_get k o.
Proof.
  unfold obj_get, obj_wf. induction o as [|[k' v] o IH]; [done|]. csimpl. intros [Hk Hwf]%NoDup_cons. rewrite js_filter_cons. csimpl.
  destruct (is_undef v) eqn:Ev; csimpl; destruct (decide (k = k')) as [->|Hne];
    rewrite ?bool_decide_true, ?(bool_decide_false (k = k')) by done; try by apply IH.
  - rewrite IH by done. apply obj_lookup_None in Hk. rewrite Hk. by destruct v.
  - done.
Qed.

Lemma obj_filter_wf (f : string * val → bool) (o : obj) : obj_wf o → obj_wf (js_filter f o).
Proof.
  unfold obj_wf. induction o as [|kv o IH]; csimpl; [done|]. intros [Hk Hwf]%NoDup_cons. rewrite js_filter_cons.
  destruct (f kv); csimpl; [|by apply IH]. apply NoDup_cons. split; [|by apply IH].
  intros (kv' & E & [_ Hin]%elem_of_js_filter)%list_elem_of_fmap. apply Hk. rewrite E. by apply list_elem_of_fmap_2.
Qed.

#[export] Hint Resolve obj_set_wf obj_assign_wf obj_entries_wf : js.
#[export] Hint Rewrite obj_lookup_set_eq obj_get_set_eq : js_rw.

(** ** The size of a value, the measure of the recursions on documents *)
Fixpoint val_size (v : val) : nat :=
  match v with
  | VArr l => S (sum_list (map val_size l))
  | VObj o => S (sum_list (map (λ kv, val_size kv.2) o))
  | _ => 1
  end.

Lemma val_size_elem (o : obj) k w : (k, w) ∈ o → val_size w < val_size (VObj o).
Proof.
  intros Hin. simpl. induction o as [|[k0 v0] o IH]; [by apply elem_of_nil in Hin|]. simpl.
  apply elem_of_cons in Hin as [[= -> ->]|Hin]; [lia|]. apply IH in Hin. lia.
Qed.

Lemma val_size_pos v : 0 < val_size v.
Proof. destruct v; simpl; lia. Qed.

(** ** Arithmetic on integers

    The number operations on integral numbers are those of [Z]. *)
Lemma num_of_Z_inj a b : num_of_Z a = num_of_Z b → a = b.
Proof. unfold num_of_Z. intros [=]. congruence. Qed.

Lemma num_add_Z a b : num_add (num_of_Z a) (num_of_Z b) = num_of_Z (a + b).
Proof. unfold num_add, num_of_Z. by rewrite Z2Qc_inj_add. Qed.

Lemma num_sub_Z a b : num_sub (num_of_Z a) (num_of_Z b) = num_of_Z (a - b).
Proof. unfold num_sub, num_opp, num_of_Z. simpl. by rewrite <-Z2Qc_inj_opp, <-Z2Qc_inj_add. Qed.

Lemma num_ltb_Z a b : num_ltb (num_of_Z a) (num_of_Z b) = (a <? b)%Z.
Proof.
  apply eq_iff_eq_true. rewrite Z.ltb_lt. unfold num_ltb, num_of_Z. rewrite bool_decide_eq_true.
  by rewrite <-Z2Qc_inj_lt.
Qed.

Lemma num_leb_Z a b : num_leb (num_of_Z a) (num_of_Z b) = (a <=? b)%Z.
Proof.
  apply eq_iff_eq_true. rewrite Z.leb_le. unfold num_leb, num_of_Z. rewrite bool_decide_eq_true.
  by rewrite <-Z2Qc_inj_le.
Qed.

Lemma num_eqb_Z a b : num_eqb (num_of_Z a) (num_of_Z b) = (a =? b)%Z.
Proof.
  apply eq_iff_eq_true. rewrite Z.eqb_eq. unfold num_eqb. simpl. rewrite bool_decide_eq_true.
  split; [apply num_of_Z_inj|by intros ->].
Qed.

Lemma num_gt_cmp_Z a b : num_gt_cmp (num_of_Z a) (num_of_Z b) = (b <? a)%Z.
Proof. unfold num_gt_cmp. rewrite num_sub_Z, num_ltb_Z. apply eq_iff_eq_true. rewrite !Z.ltb_lt. lia. Qed.

Lemma num_gt_cmp_asym a b : num_gt_cmp a b = true → num_gt_cmp b a = false.
Proof.
  destruct a as [x| | |], b as [y| | |]; try done.
  unfold num_gt_cmp, num_sub, num_ltb, num_of_Z. cbn [num_opp num_add].
  rewrite bool_decide_eq_true, bool_decide_eq_false. replace (Qc_of_Z 0) with 0%Qc by (by apply Qc_is_canon).
  rewrite <-!Qclt_minus_iff. intros H1 H2. eapply Qclt_not_le; [exact H1|]. by apply Qclt_le_weak.
Qed.

Create Rewrite HintDb js_num.
#[export] Hint Rewrite num_add_Z num_sub_Z num_ltb_Z num_leb_Z num_eqb_Z num_gt_cmp_Z : js_num.

(** ** [Number(String(n))] on natural numbers *)
Lemma num_to_string_Z z : num_to_string (num_of_Z z) = pretty z.
Proof. done. Qed.

Lemma digits_val_app l1 l2 :
  digits_val (l1 ++ l2) = (digits_val l1 * 10 ^ Z.of_nat (length l2) + digits_val l2)%Z.
Proof.
  unfold digits_val. rewrite foldl_app.
  assert (∀ l a, foldl (λ acc a, (acc * 10 + digit_val a)%Z) a l =
    (a * 10 ^ Z.of_nat (length l) + foldl (λ acc a, (acc * 10 + digit_val a)%Z) 0 l)%Z) as H.
  { induction l as [|c l IH]; intros a; cbn [foldl length]; [lia|].
    rewrite (IH (a * 10 + _)%Z), (IH (0 * 10 + _)%Z). rewrite Nat2Z.inj_succ, Z.pow_succ_r by lia. lia. }
  by rewrite H.
Qed.

Lemma pretty_char_digit x : (x < 10)%N →
  is_digit (pretty_N_char x) = true ∧ digit_val (pretty_N_char x) = Z.of_N x ∧
  ((0 < x)%N → pretty_N_char x ≠ "0"%char).
Proof.
  intros Hx. assert (x = 0 ∨ x = 1 ∨ x = 2 ∨ x = 3 ∨ x = 4 ∨ x = 5 ∨ x = 6 ∨ x = 7 ∨ x = 8 ∨ x = 9)%N by lia.
  destruct_or!; subst; repeat split; try done; lia.
Qed.

Lemma pretty_N_go_digits x : ∃ ds,
  (∀ s, String.list_ascii_of_string (pretty_N_go x s) = ds ++ String.list_ascii_of_string s) ∧
  Forall (λ a, is_digit a = true) ds ∧ digits_val ds = Z.of_N x ∧
  ((0 < x)%N → ∃ c ds', ds = c :: ds' ∧ c ≠ "0"%char).
Proof.
  induction (N.lt_wf_0 x) as [x _ IH].
  assert (x = 0 ∨ 0 < x)%N as [->|Hx] by lia.
  { exists []. split; [done|]. split; [constructor|]. split; [done|lia]. }
  destruct (IH (x `div` 10)%N) as (ds & Hs & Hd & Hv & Hh); [by apply N.div_lt|].
  destruct (pretty_char_digit (x `mod` 10)%N) as (Hc1 & Hc2 & Hc3); [by apply N.mod_lt|].
  exists (ds ++ [pretty_N_char (x `mod` 10)]). split; [|split; [|split]].
  - intros s. rewrite pretty_N_go_step by done. rewrite Hs. simpl. by rewrite <-app_assoc.
  - apply Forall_app. split; [done|]. by constructor.
  - rewrite digits_val_app, Hv. change (digits_val [_]) with (digit_val (pretty_N_char (x `mod` 10))).
    change (10 ^ Z.of_nat (length [_]))%Z with 10%Z. rewrite Hc2. pose proof (N.div_mod x 10 ltac:(done)). lia.
  - intros _. destruct (N.eq_0_gt_0_cases (x `div` 10)) as [H0|H0].
    + assert (0 < x `mod` 10)%N as Hm by (pose proof (N.div_mod x 10 ltac:(done)); lia).
      destruct ds as [|c ds]; [simpl; eauto|]. exists c, (ds ++ [pretty_N_char (x `mod` 10)]).
      split; [done|]. rewrite H0 in Hs. specialize (Hs ""). rewrite pretty_N_go_0 in Hs. done.
    + destruct (Hh H0) as (c & ds' & -> & Hc). simpl. eauto.
Qed.

Lemma pretty_digits z : (0 <= z)%Z → ∃ c ds,
  String.list_ascii_of_string (pretty z) = c :: ds ∧ Forall (λ a, is_digit a = true) (c :: ds) ∧
  digits_val (c :: ds) = z ∧ (c = "0"%char → ds = []).
Proof.
  intros Hz. destruct z as [|q|q]; [| |lia].
  - exists "0"%char, []. repeat split; [by repeat constructor].
  - destruct (pretty_N_go_digits (Npos q)) as (ds & Hs & Hd & Hv & Hh).
    destruct Hh as (c & ds' & -> & Hc); [done|]. exists c, ds'. split; [|by repeat split].
    change (pretty (Zpos q)) with (pretty_N_go (Npos q) ""). rewrite Hs. simpl. by rewrite app_nil_r.
Qed.

Lemma digit_not_space a : is_digit a = true → is_space a = false.
Proof.
  unfold is_digit, is_space. intros. reflect_bool.
  rewrite !orb_false_iff, andb_false_iff, !bool_decide_eq_false. lia.
Qed.

Lemma trim_list_digits l : Forall (λ a, is_digit a = true) l → trim_list l = l.
Proof.
  assert (∀ l, Forall (λ a, is_digit a = true) l → trim_start l = l) as H.
  { intros [|a l'] Hl; simpl; [done|]. inversion Hl. by rewrite digit_not_space. }
  intros Hl. unfold trim_list. rewrite (H l) by done.
  change (rev (trim_start (rev l)) = l). rewrite H; [by rewrite rev_involutive|].
  apply Forall_forall. intros x Hx. rewrite Forall_forall in Hl. apply Hl.
  apply list_elem_of_In. apply in_rev. by apply list_elem_of_In.
Qed.

Lemma take_digits_all l : Forall (λ a, is_digit a = true) l → take_digits l = (l, []).
Proof. induction 1 as [|a l Ha Hl IH]; simpl; [done|]. by rewrite Ha, IH. Qed.

Lemma parse_unsigned_digits c l :
  Forall (λ a, is_digit a = true) (c :: l) → parse_unsigned (c :: l) = num_of_Z (digits_val (c :: l)).
Proof.
  intros H. unfold parse_unsigned. rewrite take_digits_all by done. simpl. rewrite app_nil_r.
  change (pow10 _) with (Qc_of_Z 1). unfold num_of_Z. by rewrite <-Z2Qc_inj_mul, Z.mul_1_r.
Qed.

Lemma digit_cases a : is_digit a = true →
  a ∈ ["0"; "1"; "2"; "3"; "4"; "5"; "6"; "7"; "8"; "9"]%char.
Proof.
  unfold is_digit. intros. reflect_bool. rewrite <-(ascii_nat_embedding a).
  assert (∀ n, 48 ≤ n → n ≤ 57 → ascii_of_nat n ∈ ["0"; "1"; "2"; "3"; "4"; "5"; "6"; "7"; "8"; "9"]%char) as Hn; [|by apply Hn].
  intros n ? ?. assert (n = 48 ∨ n = 49 ∨ n = 50 ∨ n = 51 ∨ n = 52 ∨ n = 53 ∨ n = 54 ∨ n = 55 ∨ n = 56 ∨ n = 57) by lia.
  destruct_or!; subst; set_solver.
Qed.

Lemma num_of_string_pretty z : (0 <= z)%Z → num_of_string (pretty z) = num_of_Z z.
Proof.
  intros Hz. destruct (pretty_digits z Hz) as (c & ds & Hs & Hd & Hv & H0).
  unfold num_of_string. rewrite Hs, trim_list_digits by done. rewrite <-Hv at 1.
  rewrite <-parse_unsigned_digits by done. apply Forall_inv, digit_cases in Hd as Hc.
  repeat (apply elem_of_cons in Hc as [->|Hc]); [|done..|by apply elem_of_nil in Hc].
  by rewrite H0.
Qed.

(** The digits of a number hold no separator. *)
Lemma count_char_pretty_sep sep z : (0 <= z)%Z → is_digit sep = false → count_char sep (pretty z) = 0.
Proof.
  intros Hz Hsep. destruct (pretty_digits z Hz) as (c & ds & Hs & Hd & _).
  assert (∀ s, Forall (λ a, is_digit a = true) (String.list_ascii_of_string s) → count_char sep s = 0) as H.
  { clear -Hsep. induction s as [|a s IH]; simpl; [done|]. intros Hs. inversion Hs as [|? ? Ha Hs']; subst.
    rewrite IH by done. rewrite bool_decide_false; [done|]. intros ->. by rewrite Ha in Hsep. }
  apply H. by rewrite Hs.
Qed.

(** ** Strings *)
Lemma js_split_no_sep c s : count_char c s = 0 → js_split c s = [s].
Proof.
  induction s as [|a s IH]; simpl; [done|]. case_bool_decide; [done|]. simpl. intros Hc. by rewrite IH.
Qed.

Lemma js_split_app c s t : count_char c s = 0 → js_split c (s +:+ String c t) = s :: js_split c t.
Proof.
  induction s as [|a s IH]; simpl; [by rewrite bool_decide_true|].
  case_bool_decide; [done|]. simpl. intros Hc. by rewrite IH.
Qed.

Lemma count_char_app c s t : count_char c (s +:+ t) = count_char c s + count_char c t.
Proof. induction s as [|a s IH]; simpl; [done|]. rewrite IH. lia. Qed.

Lemma str_cons_app x (a b : string) : String x a +:+ b = String x (a +:+ b).
Proof. reflexivity. Qed.

Lemma str_app_assoc (a b c : string) : (a +:+ b) +:+ c = a +:+ (b +:+ c).
Proof. induction a as [|x a IH]; [done|]. by rewrite !str_cons_app, IH. Qed.

Lemma str_app_nil_r (a : string) : a +:+ "" = a.
Proof. induction a as [|x a IH]; [done|]. by rewrite str_cons_app, IH. Qed.

Lemma str_length_app (a b : string) : String.length (a +:+ b) = String.length a + String.length b.
Proof. induction a as [|x a IH]; [done|]. rewrite str_cons_app. simpl. by rewrite IH. Qed.

Lemma substring_all s : String.substring 0 (String.length s) s = s.
Proof. induction s as [|x s IH]; [done|]. simpl. by rewrite IH. Qed.

Lemma str_from_app a b : str_from (String.length a) (a +:+ b) = b.
Proof.
  unfold str_from. rewrite str_length_app, Nat.add_comm, Nat.add_sub.
  induction a as [|x a IH]; [apply substring_all|]. exact IH.
Qed.

Lemma starts_with_app p s : starts_with p (p +:+ s) = true.
Proof.
  unfold starts_with. induction p as [|x p IH]; [by destruct s|]. rewrite str_cons_app. simpl.
  destruct (ascii_dec x x) as [_|]; [exact IH|done].
Qed.

Lemma starts_with_true p s : starts_with p s = true → ∃ r, s = p +:+ r.
Proof.
  unfold starts_with. revert s. induction p as [|x p IH]; intros s; [by exists s|].
  destruct s as [|y s]; [done|]. simpl. destruct (ascii_dec x y) as [->|]; [|done].
  intros [r ->]%IH. by exists r.
Qed.

(** A string is included where it stands between two others. *)
Lemma str_includes_spec p s : str_includes p s = true ↔ ∃ x y, s = x +:+ p +:+ y.
Proof.
  split.
  - induction s as [|c s IH]; cbn [str_includes].
    + intros [Hp|?]%orb_true_iff; [|done]. apply starts_with_true in Hp as [y ->]. by exists "", y.
    + intros [Hp|(x & y & ->)%IH]%orb_true_iff; [apply starts_with_true in Hp as [y ->]; by exists "", y|].
      by exists (String c x), y.
  - intros (x & y & ->). induction x as [|c x IH].
    + pose proof (starts_with_app p y) as H. unfold starts_with in H. change ("" +:+ p +:+ y) with (p +:+ y).
      destruct (p +:+ y); cbn [str_includes]; by rewrite H.
    + rewrite str_cons_app. cbn [str_includes]. by rewrite IH, orb_true_r.
Qed.
