(* ===== verification/Graph.v ===== *)
(** * The canvas graph

    The data the agent canvas works on: operators, handles, nodes, edges
    (interfaces/database/agent.ts, constants/agent.tsx,
    pages/agent/constant/index.tsx) and the reachability relation of its
    edges. *)
From S2P Require Import Prelude JsValue.
Open Scope js_scope.

(** ** Operators and handles

    String enums; labels in stored graphs are strings, so the constants are
    too. *)
Module Operator.
Definition Begin := "Begin".
Definition Retrieval := "Retrieval".
Definition Categorize := "Categorize".
Definition Message := "Message".
Definition RewriteQuestion := "RewriteQuestion".
Definition DuckDuckGo := "DuckDuckGo".
Definition Wikipedia := "Wikipedia".
Definition PubMed := "PubMed".
Definition ArXiv := "ArXiv".
Definition Google := "Google".
Definition Bing := "Bing".
Definition GoogleScholar := "GoogleScholar".
Definition GitHub := "GitHub".
Definition ExeSQL := "ExeSQL".
Definition Switch := "Switch".
Definition WenCai := "WenCai".
Definition YahooFinance := "YahooFinance".
Definition Note := "Note".
Definition Crawler := "Crawler".
Definition Invoke := "Invoke".
Definition Email := "Email".
Definition Iteration := "Iteration".
Definition IterationStart := "IterationItem".
Definition Code := "CodeExec".
Definition WaitingDialogue := "WaitingDialogue".
Definition Agent := "Agent".
Definition Tool := "Tool".
Definition TavilySearch := "TavilySearch".
Definition TavilyExtract := "TavilyExtract".
Definition UserFillUp := "UserFillUp".
Definition StringTransform := "StringTransform".
Definition SearXNG := "SearXNG".
Definition PDFGenerator := "PDFGenerator".
Definition Placeholder := "Placeholder".
Definition DataOperations := "DataOperations".
Definition ListOperations := "ListOperations".
Definition VariableAssigner := "VariableAssigner".
Definition VariableAggregator := "VariableAggregator".
Definition File := "File".
Definition Parser := "Parser".
Definition Tokenizer := "Tokenizer".
Definition Splitter := "Splitter".
Definition HierarchicalMerger := "HierarchicalMerger".
Definition Extractor := "Extractor".
Definition Loop := "Loop".
Definition LoopStart := "LoopItem".
Definition ExitLoop := "ExitLoop".
Definition ExcelProcessor := "ExcelProcessor".

  (** [Object.values(Operator)] *)
Definition all : list string :=
    [Begin; Retrieval; Categorize; Message; RewriteQuestion; DuckDuckGo; Wikipedia; PubMed; ArXiv;
     Google; Bing; GoogleScholar; GitHub; ExeSQL; Switch; WenCai; YahooFinance; Note; Crawler;
     Invoke; Email; Iteration; IterationStart; Code; WaitingDialogue; Agent; Tool; TavilySearch;
     TavilyExtract; UserFillUp; StringTransform; SearXNG; PDFGenerator; Placeholder;
     DataOperations; ListOperations; VariableAssigner; VariableAggregator; File; Parser;
     Tokenizer; Splitter; HierarchicalMerger; Extractor; Loop; LoopStart; ExitLoop;
     ExcelProcessor].
End Operator.

Module NodeHandleId.
Definition Start := "start".
Definition End_ := "end".
Definition Tool := "tool".
Definition AgentTop := "agentTop".
Definition AgentBottom := "agentBottom".
Definition AgentException := "agentException".
End NodeHandleId.

Definition SwitchElseTo : string := "end_cpn_ids".

(** An optional handle: [undefined], [null] or an identifier. *)
Inductive handle := HUndef | HNull | HId (s : string).

#[export] Instance handle_eq_dec : EqDecision handle.
Proof. solve_decision. Defined.

Definition handle_truthy (h : handle) : bool :=
  match h with HId s => s !== "" | _ => false end.

(** ** Nodes and edges

    The fields of React Flow's [Node] and [Edge] the program reads or
    writes. *)
Record XYPosition := { x : num; y : num }.

#[export] Instance XYPosition_eq_dec : EqDecision XYPosition.
Proof. solve_decision. Defined.

Record BaseNodeData := { label : string; name : string; form : val }.

#[export] Instance BaseNodeData_eq_dec : EqDecision BaseNodeData.
Proof. solve_decision. Defined.

Record Node := {
  n_id : string;
  n_type : option string;
  n_position : XYPosition;
  n_data : BaseNodeData;
  n_parentId : option string;
  n_extent : option string;
  n_width : option num;
  n_height : option num;
  n_selected : option bool;
  n_dragging : option bool;
  n_draggable : option bool;
  n_dragHandle : option string
}.

#[export] Instance Node_eq_dec : EqDecision Node.
Proof. solve_decision. Defined.

Record Edge := {
  e_id : string;
  source : string;
  target : string;
  sourceHandle : handle;
  targetHandle : handle;
  e_data : obj
}.

#[export] Instance Edge_eq_dec : EqDecision Edge.
Proof. solve_decision. Defined.

Record Connection := {
  c_source : string;
  c_target : string;
  c_sourceHandle : handle;
  c_targetHandle : handle
}.

(** Record updates. *)
Definition node_with_data (n : Node) (d : BaseNodeData) : Node :=
  {| n_id := n_id n; n_type := n_type n; n_position := n_position n; n_data := d;
     n_parentId := n_parentId n; n_extent := n_extent n; n_width := n_width n;
     n_height := n_height n; n_selected := n_selected n; n_dragging := n_dragging n;
     n_draggable := n_draggable n; n_dragHandle := n_dragHandle n |}.

Definition node_with_form (n : Node) (f : val) : Node :=
  node_with_data n {| label := label (n_data n); name := name (n_data n); form := f |}.

Definition node_with_name (n : Node) (s : string) : Node :=
  node_with_data n {| label := label (n_data n); name := s; form := form (n_data n) |}.

Definition node_with_selected (n : Node) (b : bool) : Node :=
  {| n_id := n_id n; n_type := n_type n; n_position := n_position n; n_data := n_data n;
     n_parentId := n_parentId n; n_extent := n_extent n; n_width := n_width n;
     n_height := n_height n; n_selected := Some b; n_dragging := n_dragging n;
     n_draggable := n_draggable n; n_dragHandle := n_dragHandle n |}.

Definition node_with_position (n : Node) (p : XYPosition) : Node :=
  {| n_id := n_id n; n_type := n_type n; n_position := p; n_data := n_data n;
     n_parentId := n_parentId n; n_extent := n_extent n; n_width := n_width n;
     n_height := n_height n; n_selected := n_selected n; n_dragging := n_dragging n;
     n_draggable := n_draggable n; n_dragHandle := n_dragHandle n |}.

Definition node_with_parent (n : Node) (p e : option string) : Node :=
  {| n_id := n_id n; n_type := n_type n; n_position := n_position n; n_data := n_data n;
     n_parentId := p; n_extent := e; n_width := n_width n;
     n_height := n_height n; n_selected := n_selected n; n_dragging := n_dragging n;
     n_draggable := n_draggable n; n_dragHandle := n_dragHandle n |}.

Definition node_with_size (n : Node) (w h : option num) : Node :=
  {| n_id := n_id n; n_type := n_type n; n_position := n_position n; n_data := n_data n;
     n_parentId := n_parentId n; n_extent := n_extent n; n_width := w;
     n_height := h; n_selected := n_selected n; n_dragging := n_dragging n;
     n_draggable := n_draggable n; n_dragHandle := n_dragHandle n |}.

Definition edge_with_data (e : Edge) (d : obj) : Edge :=
  {| e_id := e_id e; source := source e; target := target e; sourceHandle := sourceHandle e;
     targetHandle := targetHandle e; e_data := d |}.

(** ** Reachability along edges *)
Section reach.
Context (es : list Edge) (p : Edge → bool).

  (** One step along an edge the predicate selects. *)
Definition estep (a b : string) : Prop :=
    ∃ e, e ∈ es ∧ p e = true ∧ source e = a ∧ target e = b.

  (** The edges the predicate selects have no cycle. *)
Definition eacyclic : Prop := ∀ a, ¬ tc estep a a.

Definition estep_targets (a : string) : list string :=
    map target (js_filter (λ e, (source e === a) && p e) es).

Lemma elem_of_estep_targets a b : b ∈ estep_targets a ↔ estep a b.
  Proof.
    unfold estep_targets, estep. change (map ?f ?l) with (f <$> l).
    rewrite list_elem_of_fmap. setoid_rewrite elem_of_js_filter. split.
    - intros (e & -> & [Hp He]). exists e. reflect_bool. done.
    - intros (e & He & Hp & Hs & <-). exists e. rewrite Hp, Hs, bool_decide_true by done. done.
  Qed.
End reach.

(** A rank that the edges increase excludes cycles. *)
Lemma rank_acyclic (es : list Edge) (p : Edge → bool) (rank : string → nat) :
  Forall (λ e, rank (source e) < rank (target e)) es → eacyclic es p.
Proof.
  intros Hr a Ha. rewrite Forall_forall in Hr.
  assert (∀ x y, tc (estep es p) x y → rank x < rank y) as H; [|specialize (H a a Ha); lia].
  intros x y Hxy. induction Hxy as [x y (e & He & _ & <- & <-)|x y z (e & He & _ & <- & <-) _ IH]; [auto|].
  specialize (Hr e He). lia.
Qed.
