(* ===== verification/Libs.v ===== *)
(** * Third-party libraries

    The packages the canvas calls, as interfaces: lodash, React Flow
    (@xyflow/react) and human-id.  Each interface states the documented
    behaviour its clients rely on; the instances at the end are concrete
    functions that satisfy it, for the witnesses. *)
From S2P Require Import Prelude JsValue Graph.
Open Scope list_scope.
Open Scope nat_scope.
Open Scope js_scope.

(** A segment of a lodash path. *)
Inductive path_key := PKey (k : string) | PIdx (i : Z).

#[export] Instance path_key_eq_dec : EqDecision path_key.
Proof. solve_decision. Defined.

(** A number used as a property key. *)
Definition path_of_num (n : num) : path_key :=
  match n with
  | NFin q => if (Zpos (QArith_base.Qden (Qcanon.this q)) =? 1)%Z
              then PIdx (QArith_base.Qnum (Qcanon.this q)) else PKey (num_to_string n)
  | _ => PKey (num_to_string n)
  end.

(** ** lodash *)
Class Lodash := {
  lo_cloneDeep : val → val;
  lo_get : val → list path_key → val;
  lo_set : val → list path_key → val → val;
  lo_omit : obj → list string → obj;
  lo_isEmpty : val → bool;
  lo_isPlainObject : val → bool;
  lo_toLower : val → string;
  lo_intersectionWith : ∀ {A : Type}, list A → list A → (A → A → bool) → list A;
  lo_differenceWith : ∀ {A : Type}, list A → list A → (A → A → bool) → list A
}.

(** [get(v, path, default)]: the default replaces [undefined]. *)
Definition lo_getOr `{Lodash} (v : val) (p : list path_key) (d : val) : val :=
  match lo_get v p with VUndef => d | w => w end.

Class LodashLaws (L : Lodash) : Prop := {
  (** a recursive copy of plain data is structurally equal to it *)
  cloneDeep_eq : ∀ v, lo_cloneDeep v = v;
  get_nil : ∀ v, lo_get v [] = v;
  get_key : ∀ o k p, lo_get (VObj o) (PKey k :: p) = lo_get (obj_get k o) p;
  (** neither primitive values nor arrays have properties of these names *)
  get_absent : ∀ v k p, (∀ o, v ≠ VObj o) → k ∈ ["data"; "form"; "items"; "properties"; "type"] →
    lo_get v (PKey k :: p) = VUndef;
  isPlainObject_eq : ∀ v, lo_isPlainObject v = match v with VObj _ => true | _ => false end;
  (** [toLower] of a missing value is the empty text *)
  toLower_str : ∀ s, lo_toLower (VStr s) = to_lower s;
  toLower_nullish : ∀ v, nullish v = true → lo_toLower v = "";
  (** reading the path that was set gives the value *)
  get_set_same : ∀ o k p w,
    Forall (λ s, match s with PIdx i => (0 <= i)%Z | PKey _ => True end) p →
    lo_get (lo_set (VObj o) (PKey k :: p) w) (PKey k :: p) = w;
  (** setting a path of an object gives an object *)
  set_obj : ∀ o k p w, ∃ o', lo_set (VObj o) (PKey k :: p) w = VObj o';
  (** and leaves its other properties alone *)
  get_set_other : ∀ o k p w k', k ≠ k' →
    lo_get (lo_set (VObj o) (PKey k :: p) w) [PKey k'] = obj_get k' o;
  (** setting an element of an array property in range replaces that element *)
  get_set_elem : ∀ o k l i w, obj_get k o = VArr l → i < length l →
    lo_get (lo_set (VObj o) [PKey k; PIdx (Z.of_nat i)] w) [PKey k] = VArr (<[i := w]> l);
  get_elem : ∀ o k l i p, obj_get k o = VArr l → i < length l →
    lo_get (VObj o) (PKey k :: PIdx (Z.of_nat i) :: p) = lo_get (default VUndef (l !! i)) p;
  omit_lookup : ∀ o ks k, obj_lookup k (lo_omit o ks) = if decide (k ∈ ks) then None else obj_lookup k o;
  omit_wf : ∀ o ks, obj_wf o → obj_wf (lo_omit o ks);
  isEmpty_str : ∀ s, lo_isEmpty (VStr s) = (s === "");
  isEmpty_undef : lo_isEmpty VUndef = true;
  isEmpty_arr : ∀ l, lo_isEmpty (VArr l) = (l === []);
  isEmpty_obj : ∀ o, lo_isEmpty (VObj o) = (o === []);
  (** the elements of the first array that the second includes *)
  intersectionWith_sub : ∀ {A} (xs ys : list A) cmp x,
    x ∈ lo_intersectionWith xs ys cmp → x ∈ xs ∧ ∃ y, y ∈ ys ∧ cmp x y = true;
  (** one for each class of the comparator, when that is an equivalence *)
  intersectionWith_complete : ∀ {A} (xs ys : list A) cmp x y,
    (∀ a b, cmp a b = cmp b a) → x ∈ xs → y ∈ ys → cmp x y = true →
    ∃ x', x' ∈ lo_intersectionWith xs ys cmp ∧ (x' = x ∨ cmp x' x = true);
  (** the elements of the first array that the second does not include *)
  differenceWith_eq : ∀ {A} (xs ys : list A) cmp,
    lo_differenceWith xs ys cmp = js_filter (λ x, negb (js_some (cmp x) ys)) xs
}.

(** ** React Flow *)
Class XYFlow := {
  NodeChange : Type;
  EdgeChange : Type;
  xy_applyNodeChanges : list NodeChange → list Node → list Node;
  xy_applyEdgeChanges : list EdgeChange → list Edge → list Edge;
  xy_addEdge : Connection → list Edge → list Edge;
  xy_getOutgoers : Node → list Node → list Edge → list Node
}.

(** Two handles that React Flow does not tell apart: equal, or both absent. *)
Definition handle_same (a b : handle) : Prop := a = b ∨ (handle_truthy a = false ∧ handle_truthy b = false).

(** The edge joins the ends of the connection. *)
Definition edge_of_connection (c : Connection) (e : Edge) : Prop :=
  source e = c_source c ∧ target e = c_target c ∧
  handle_same (sourceHandle e) (c_sourceHandle c) ∧ handle_same (targetHandle e) (c_targetHandle c).

Class XYFlowLaws (X : XYFlow) : Prop := {
  (** [addEdge] validates: it appends the edge of the connection, or leaves
      the edges as they are when an end is missing or the edge exists. *)
  addEdge_cases : ∀ c es,
    (∃ e, xy_addEdge c es = es ++ [e] ∧ edge_of_connection c e ∧ ∀ d, d ∈ es → ¬ edge_of_connection c d) ∨
    (xy_addEdge c es = es ∧
      (c_source c = "" ∨ c_target c = "" ∨ ∃ d, d ∈ es ∧ edge_of_connection c d));
  (** the nodes connected to the given node as the target of an edge *)
  elem_of_getOutgoers : ∀ n ns es m,
    m ∈ xy_getOutgoers n ns es ↔ m ∈ ns ∧ ∃ e, e ∈ es ∧ source e = n_id n ∧ target e = n_id m
}.

(** ** Concrete instances *)
Fixpoint get_impl (v : val) (p : list path_key) : val :=
  match p with
  | [] => v
  | PKey k :: p' => match v with VObj o => get_impl (obj_get k o) p' | _ => VUndef end
  | PIdx i :: p' =>
      match v with
      | VArr l => if (0 <=? i)%Z then get_impl (default VUndef (l !! Z.to_nat i)) p' else VUndef
      | VObj o => get_impl (obj_get (pretty i) o) p'
      | _ => VUndef
      end
  end.

(** [a[i] = v]: a write past the end extends the array. *)
Definition arr_set (l : list val) (i : nat) (v : val) : list val :=
  if decide (i < length l) then <[i := v]> l else l ++ replicate (i - length l) VUndef ++ [v].

Fixpoint set_impl (v : val) (p : list path_key) (w : val) : val :=
  match p with
  | [] => w
  | PKey k :: p' =>
      let o := obj_of_val v in VObj (obj_set k (set_impl (obj_get k o) p' w) o)
  | PIdx i :: p' =>
      match v with
      | VObj o => VObj (obj_set (pretty i) (set_impl (obj_get (pretty i) o) p' w) o)
      | _ =>
          let l := arr_of_val v in
          if (0 <=? i)%Z
          then VArr (arr_set l (Z.to_nat i) (set_impl (default VUndef (l !! Z.to_nat i)) p' w))
          else VArr l
      end
  end.

Definition isEmpty_impl (v : val) : bool :=
  match v with VStr s => s === "" | VArr l => l === [] | VObj o => o === [] | _ => true end.

#[export] Instance lodash_impl : Lodash := {
  lo_cloneDeep v := v;
  lo_get := get_impl;
  lo_set := set_impl;
  lo_omit o ks := js_filter (λ kv, negb (js_includes ks kv.1)) o;
  lo_isEmpty := isEmpty_impl;
  lo_isPlainObject v := match v with VObj _ => true | _ => false end;
  lo_toLower v := match v with VStr s => to_lower s | _ => "" end;
  lo_intersectionWith A xs ys cmp :=
    foldl (λ acc x, if js_some (cmp x) ys && negb (js_some (cmp x) acc) then acc ++ [x] else acc) [] xs;
  lo_differenceWith A xs ys cmp := js_filter (λ x, negb (js_some (cmp x) ys)) xs
}.

Lemma lookup_arr_set l i v : arr_set l i v !! i = Some v.
Proof.
  unfold arr_set. case_decide.
  - by apply list_lookup_insert_eq.
  - rewrite lookup_app_r by lia. rewrite lookup_app_r by (rewrite length_replicate; lia).
    rewrite length_replicate. by replace (i - length l - (i - length l)) with 0 by lia.
Qed.

Lemma get_set_impl v p w :
  Forall (λ s, match s with PIdx i => (0 <= i)%Z | PKey _ => True end) p →
  get_impl (set_impl v p w) p = w.
Proof.
  revert v. induction p as [|[k|i] p IH]; intros v Hp; simpl; [done| |]; inversion Hp; subst.
  - by rewrite obj_get_set_eq, IH.
  - assert ((0 <=? i)%Z = true) as Hi by (by apply Z.leb_le).
    destruct v; simpl; rewrite ?Hi; simpl; rewrite ?Hi, ?lookup_arr_set, ?obj_get_set_eq; simpl; by apply IH.
Qed.

Lemma intersection_fold_spec {A} (ys : list A) cmp xs acc x :
  let r := foldl (λ acc x, if js_some (cmp x) ys && negb (js_some (cmp x) acc) then acc ++ [x] else acc) acc xs in
  (x ∈ r → x ∈ acc ∨ (x ∈ xs ∧ js_some (cmp x) ys = true)) ∧ (x ∈ acc → x ∈ r).
Proof.
  revert acc. induction xs as [|y xs IH]; intros acc; [set_solver|]. simpl.
  destruct (js_some (cmp y) ys && _) eqn:E.
  - destruct (IH (acc ++ [y])) as [H1 H2]. split; [|set_solver].
    intros [Hx|[? ?]]%H1; [|set_solver]. reflect_bool. set_solver.
  - destruct (IH acc) as [H1 H2]. split; [|done]. intros [?|[? ?]]%H1; set_solver.
Qed.

Lemma intersection_fold_complete {A} (ys : list A) cmp xs acc x :
  let r := foldl (λ acc x, if js_some (cmp x) ys && negb (js_some (cmp x) acc) then acc ++ [x] else acc) acc xs in
  (∀ a b, cmp a b = cmp b a) → x ∈ xs → js_some (cmp x) ys = true → ∃ x', x' ∈ r ∧ (x' = x ∨ cmp x' x = true).
Proof.
  intros r Hsym Hx Hs. subst r. revert acc. induction xs as [|z xs IH]; intros acc; [by apply elem_of_nil in Hx|].
  simpl. apply elem_of_cons in Hx as [<-|Hx]; [|by apply IH].
  rewrite Hs. simpl. destruct (js_some (cmp x) acc) eqn:E; simpl.
  - apply js_some_true in E as (z & Hz & Hc). exists z.
    split; [by apply intersection_fold_spec|]. right. by rewrite Hsym.
  - exists x. split; [|by left]. apply intersection_fold_spec. set_solver.
Qed.

#[export] Instance lodash_impl_laws : LodashLaws lodash_impl.
Proof.
  split; try done; simpl.
  - intros v k p Hv _. destruct v as [| | | | | |o]; try done. by destruct (Hv o).
  - by intros [].
  - intros o k p w Hp. apply (get_set_impl (VObj o) (PKey k :: p)). by constructor.
  - eauto.
  - intros o k p w k' Hk. by rewrite obj_get_set_ne.
  - intros o k l i w Hl Hi. rewrite obj_get_set_eq, Hl. simpl.
    assert ((0 <=? Z.of_nat i)%Z = true) as -> by (apply Z.leb_le; lia).
    rewrite Nat2Z.id. unfold arr_set. by rewrite decide_True.
  - intros o k l i p Hl Hi. rewrite Hl. assert ((0 <=? Z.of_nat i)%Z = true) as -> by (apply Z.leb_le; lia).
    by rewrite Nat2Z.id.
  - intros o ks k. rewrite (obj_lookup_filter_key (λ k, negb (js_includes ks k))).
    unfold js_includes. by case_bool_decide; case_decide.
  - intros o ks Ho. unfold obj_wf in *. induction o as [|[k v] o IH]; [done|].
    cbn [fmap list_fmap fst] in Ho. apply NoDup_cons in Ho as [Hk Ho]. rewrite js_filter_cons.
    destruct (negb _); [|by apply IH]. cbn [fmap list_fmap fst]. apply NoDup_cons. split; [|by apply IH].
    intros ([k' v'] & ? & [_ Hin]%elem_of_js_filter)%list_elem_of_fmap. simpl in *. subst k'.
    apply Hk, list_elem_of_fmap. by exists (k, v').
  - intros A xs ys cmp x Hx. apply intersection_fold_spec in Hx as [?%elem_of_nil|[? H]]; [done|].
    split; [done|]. by apply js_some_true in H.
  - intros A xs ys cmp x y Hsym Hx Hy Hxy. apply intersection_fold_complete; [done|done|].
    apply js_some_true; eauto.
Qed.

(** [getEdgeId] and [connectionExists] of React Flow. *)
Definition handle_text (h : handle) : string := match h with HId s => s | _ => "" end.

Definition edge_exists_impl (c : Connection) (d : Edge) : bool :=
  (source d === c_source c) && (target d === c_target c) &&
  (handle_text (sourceHandle d) === handle_text (c_sourceHandle c)) &&
  (handle_text (targetHandle d) === handle_text (c_targetHandle c)).

Definition addEdge_impl (c : Connection) (es : list Edge) : list Edge :=
  if (c_source c === "") || (c_target c === "") then es
  else if js_some (edge_exists_impl c) es then es
  else es ++ [{| e_id := "xy-edge__" +:+ c_source c +:+ handle_text (c_sourceHandle c) +:+ "-" +:+
                         c_target c +:+ handle_text (c_targetHandle c);
                 source := c_source c; target := c_target c;
                 sourceHandle := c_sourceHandle c; targetHandle := c_targetHandle c; e_data := [] |}].

#[export] Instance xyflow_impl : XYFlow := {
  NodeChange := list Node → list Node;
  EdgeChange := list Edge → list Edge;
  xy_applyNodeChanges cs ns := foldl (λ ns c, c ns) ns cs;
  xy_applyEdgeChanges cs es := foldl (λ es c, c es) es cs;
  xy_addEdge := addEdge_impl;
  xy_getOutgoers n ns es :=
    js_filter (λ m, js_some (λ e, (source e === n_id n) && (target e === n_id m)) es) ns
}.

Lemma handle_truthy_text h : handle_truthy h = false ↔ handle_text h = "".
Proof. destruct h; simpl; [done|done|]. rewrite negb_false_iff. apply bool_decide_eq_true. Qed.

Lemma handle_same_text a b : handle_same a b ↔ handle_text a = handle_text b.
Proof.
  unfold handle_same. rewrite !handle_truthy_text. split.
  - intros [->|[-> ->]]; done.
  - destruct a, b; simpl; intros H; subst; auto.
Qed.

Lemma edge_exists_impl_spec c d : edge_exists_impl c d = true ↔ edge_of_connection c d.
Proof.
  unfold edge_exists_impl, edge_of_connection. rewrite !handle_same_text, !andb_true_iff, !bool_decide_eq_true.
  tauto.
Qed.

#[export] Instance xyflow_impl_laws : XYFlowLaws xyflow_impl.
Proof.
  split; simpl.
  - intros c es. unfold addEdge_impl. destruct (_ || _) eqn:E.
    { right. split; [done|]. apply orb_true_iff in E as [?|?]; reflect_bool; auto. }
    destruct (js_some _ es) eqn:E2.
    { right. split; [done|]. apply js_some_true in E2 as (d & ? & ?%edge_exists_impl_spec). eauto. }
    left. eexists. split; [done|]. split.
    + repeat split; by left.
    + intros d Hd Hc%edge_exists_impl_spec. rewrite js_some_false in E2. by rewrite E2 in Hc.
  - intros n ns es m. rewrite elem_of_js_filter, js_some_true. split.
    + intros [(e & ? & H) ?]. reflect_bool. eauto.
    + intros [? (e & ? & ? & ?)]. split; [|done]. exists e. by rewrite !bool_decide_true.
Qed.
