(* ===== verification/FormUtils.v ===== *)
(** * Form data

    The pure functions of pages/agent/utils.ts and utils/form.ts that bring
    form values into the shape another part expects: the lists of
    react-hook-form, the fields of the language-model settings, the category
    lists, the queries of the Begin operator, the anchors of the Categorize
    node, and the texts of a log. *)
From S2P Require Import Prelude JsValue Graph Libs.
From Stdlib Require Import Ascii.
Open Scope list_scope.
Open Scope nat_scope.
Open Scope js_scope.

(** ** Values *)

(** [v.k], which throws on [undefined] and [null]. *)
Definition read (k : string) (v : val) : outcome val := if nullish v then Throw else Ok (prop k v).

(** A value whose array methods are called. *)
Definition elements (v : val) : outcome (list val) := match v with VArr l => Ok l | _ => Throw end.

(** [String(v)], which is also the property key a value becomes. *)
Fixpoint key_of (v : val) : string :=
  match v with
  | VUndef => "undefined"
  | VNull => "null"
  | VBool true => "true"
  | VBool false => "false"
  | VNum n => num_to_string n
  | VStr s => s
  | VArr l => String.concat "," (map (λ x, if nullish x then "" else key_of x) l)
  | VObj _ => "[object Object]"
  end.

(** [Number(v)] on the values a form field holds. *)
Definition Number (v : val) : num :=
  match v with
  | VNull => num_of_Z 0
  | VBool b => num_of_Z (if b then 1 else 0)
  | VNum n => n
  | VStr s => num_of_string s
  | VUndef | VArr _ | VObj _ => NNaN
  end.

(** [{ ...v }] *)
Definition spread (v : val) : obj := obj_assign [] (obj_of_val v).

(** ** Language-model settings *)
Definition variableEnabledFieldMap : list (string * string) :=
  [("temperatureEnabled", "temperature"); ("topPEnabled", "top_p");
   ("presencePenaltyEnabled", "presence_penalty"); ("frequencyPenaltyEnabled", "frequency_penalty");
   ("maxTokensEnabled", "max_tokens")].

Definition excludeUnEnabledVariables (values : val) (prefix : string) : list string :=
  map (λ kf, prefix +:+ kf.2)
    (js_filter (λ kf, negb (truthy (prop kf.1 values))) variableEnabledFieldMap).

Definition setLLMSettingEnabledValues (initialLlmSetting : val) : obj :=
  foldl (λ pre kf,
    obj_set kf.1 (VBool (match initialLlmSetting with VUndef => false | v => truthy (prop kf.2 v) end)) pre)
    [] variableEnabledFieldMap.

Section with_lodash.
Context {L : Lodash}.

Definition removeUselessFieldsFromValues (values : obj) (prefix : string) : obj :=
  lo_omit values (variableEnabledFieldMap.*1 ++ ["parameter"] ++ excludeUnEnabledVariables (VObj values) prefix).

(** ** Lists of react-hook-form *)
Definition transformObjectArrayToPureArray (list_ : val) (field : string) : outcome (list val) :=
  match list_ with
  | VArr l => vs ← mapM (read field) l; Ok (js_filter (λ v, negb (lo_isEmpty v)) vs)
  | _ => Ok []
  end.

Definition convertToStringArray (list_ : val) : outcome (list val) :=
  match list_ with VArr l => mapM (read "value") l | _ => Ok [] end.

Definition convertToObjectArray (list_ : val) : list val :=
  match list_ with VArr l => map (λ x, VObj [("value", x)]) l | _ => [] end.

Definition transformArrayToObject (list_ : val) : outcome obj :=
  match list_ with
  | VArr l =>
      foldl (λ acc cur,
        pre ← acc; key ← read "key" cur;
        Ok (if truthy key then obj_set (key_of key) (prop "value" cur) pre else pre)) (Ok []) l
  | _ => Ok []
  end.

(** ** Categories *)

(** [(a, b) => a.index - b.index] *)
Definition index_cmp (a b : val) : bool :=
  num_gt_cmp (Number (prop "index" a)) (Number (prop "index" b)).

Definition category_item (cur : string) (item : val) : val :=
  VObj (obj_set "examples" (VArr (convertToObjectArray (prop "examples" item)))
    (obj_assign [("name", VStr cur)] (obj_of_val item))).

Definition buildCategorizeListFromObject (categorizeItem : obj) : list val :=
  js_sort index_cmp (map (λ kv, category_item kv.1 kv.2) (obj_entries categorizeItem)).

Definition category_entry (cur : val) : outcome val :=
  examples ← convertToStringArray (prop "examples" cur);
  Ok (VObj (obj_set "examples" (VArr examples)
    (obj_assign [] (lo_omit (obj_of_val cur) ["name"; "examples"])))).

Definition buildCategorizeObjectFromList (list_ : list val) : outcome obj :=
  foldl (λ acc cur,
    pre ← acc;
    if truthy (prop "name" cur)
    then entry ← category_entry cur; Ok (obj_set (key_of (prop "name" cur)) entry pre)
    else Ok pre) (Ok []) list_.

(** ** The queries of the Begin operator *)
(** [values.find((x) => x.key === key)] *)
Fixpoint find_key (key : string) (values : list val) : outcome (option val) :=
  match values with
  | [] => Ok None
  | v :: values' => k ← read "key" v; if k === VStr key then Ok (Some v) else find_key key values'
  end.

Definition buildBeginQueryWithObject (inputs : obj) (values : list val) : outcome obj :=
  foldl (λ acc key,
    pre ← acc;
    found ← find_key key values;
    Ok (match found with
        | Some item => obj_set key (VObj (spread item)) pre
        | None => pre
        end)) (Ok []) (obj_keys inputs).

(** [type.match(/<([^>]+)>/)?.at(1) ?? '']: the first [<] that a non-empty
    text without [>] and then a [>] follow. *)
Fixpoint until_gt (l : list ascii) : option (list ascii) :=
  match l with
  | [] => None
  | ">"%char :: _ => Some []
  | a :: l' => cons a <$> until_gt l'
  end.

Fixpoint angle_match (l : list ascii) : option (list ascii) :=
  match l with
  | [] => None
  | a :: l' =>
      if a === "<"%char then
        match until_gt l' with
        | Some (b :: m) => Some (b :: m)
        | _ => angle_match l'
        end
      else angle_match l'
  end.

Definition getArrayElementType (type : val) : string :=
  match type with
  | VStr s => String.string_of_list_ascii (default [] (angle_match (String.list_ascii_of_string s)))
  | _ => ""
  end.

(** ** Texts of a log

    [replaceIdWithText]: identifiers inside arrays and objects become names;
    an identifier that is the whole value does not. *)
Fixpoint replaceIdWithText (getNameById : string → option string) (v : val) : val :=
  let text (x : val) : option string :=
    match x with
    | VStr s => match getNameById s with Some n => if n !== "" then Some n else None | None => None end
    | _ => None
    end in
  match v with
  | VArr l => VArr (map (λ x, match text x with Some t => VStr t | None => replaceIdWithText getNameById x end) l)
  | VObj o =>
      VObj (obj_entries (map (λ kv, (kv.1,
        match text kv.2 with Some t => VStr t | None => replaceIdWithText getNameById kv.2 end)) o))
  | _ => v
  end.
End with_lodash.

(** ** Anchors of the Categorize node *)
Definition CategorizeAnchorPointPositions : list (Z * Z) :=
  [(1, 34); (8, 18); (15, 10); (24, 4); (31, 1); (38, -2); (62, -2); (71, 1); (79, 6); (86, 12); (91, 20); (98, 34)]%Z.

Record IPosition := { top : Z; right : Z; idx : nat }.

(** [map[k] = v] *)
Fixpoint assoc_set {A} (k : string) (v : A) (m : list (string * A)) : list (string * A) :=
  match m with
  | [] => [(k, v)]
  | (k', v') :: m' => if k === k' then (k, v) :: m' else (k', v') :: assoc_set k v m'
  end.

Section anchors.
Context {L : Lodash} (sample : list nat → option nat).

Definition effectiveIdxes (indexesInUse : list nat) : list nat :=
  js_filter (λ i, negb (js_some (λ j, j === i) indexesInUse)) (seq 0 (length CategorizeAnchorPointPositions)).

(** One key of the [reduce]: the indices in use and the new map. *)
Definition place_key (acc : list nat * list (string * IPosition)) (cur : string)
    : list nat * list (string * IPosition) :=
  match sample (effectiveIdxes acc.1) with
  | Some i =>
      let p := default (0%Z, 0%Z) (CategorizeAnchorPointPositions !! i) in
      (acc.1 ++ [i],
       assoc_set cur {| top := p.1; right := p.2; idx := i |} acc.2)
  | None => acc
  end.

Definition buildNewPositionMap (currentKeys : list string) (previousPositionMap : list (string * IPosition))
    : list string * list (string * IPosition) :=
  let indexesInUse := map (λ kv, idx kv.2) previousPositionMap in
  let previousKeys := previousPositionMap.*1 in
  let intersectionKeys := lo_intersectionWith previousKeys currentKeys (λ a b, a === b) in
  let currentDifferenceKeys := js_filter (λ k, negb (js_some (λ y, y === k) intersectionKeys)) currentKeys in
  (intersectionKeys, (foldl place_key (indexesInUse, []) currentDifferenceKeys).2).
End anchors.

(** ** Properties *)
Section anchor_props.
Context {L : Lodash} {LL : LodashLaws L} (sample : list nat → option nat).
(** lodash: [sample] picks an element, and nothing only from nothing. *)
Hypothesis sample_spec : ∀ l, match sample l with Some i => i ∈ l | None => l = [] end.

Lemma assoc_set_keys {A} k (v : A) m : (assoc_set k v m).*1 = push_new (m.*1) k.
Proof.
  rewrite push_new_eq. induction m as [|[k' v'] m IH]; simpl; [done|]. destruct (bool_decide_reflect (k = k')) as [->|Hne].
  - by rewrite decide_True by by left.
  - cbn [fmap list_fmap fst]. rewrite IH. destruct (decide (k ∈ m.*1)).
    + by rewrite decide_True by by right.
    + by rewrite decide_False by (rewrite not_elem_of_cons; done).
Qed.

Lemma assoc_set_fresh {A} k (v : A) m : (k ∉ m.*1) → assoc_set k v m = m ++ [(k, v)].
Proof.
  induction m as [|[k' v'] m IH]; simpl; [done|]. intros Hk. rewrite bool_decide_false by set_solver.
  f_equal. apply IH. set_solver.
Qed.

Lemma elem_of_effective i used : i ∈ effectiveIdxes used ↔ (i ∉ used) ∧ i < length CategorizeAnchorPointPositions.
Proof.
  unfold effectiveIdxes. rewrite elem_of_js_filter, negb_true_iff, js_some_false, elem_of_seq.
  split; intros [H1 H2]; (split; [|lia]).
  - intros Hi. specialize (H1 i Hi). by reflect_bool.
  - intros j Hj. apply bool_decide_eq_false. intros ->. done.
Qed.

Definition idxs (m : list (string * IPosition)) : list nat := map (λ kv, idx kv.2) m.

Lemma place_keys_spec keys used m :
  NoDup keys → (∀ k, k ∈ keys → k ∉ m.*1) → NoDup used →
  let r := foldl (place_key sample) (used, m) keys in
  ∃ more, r.1 = used ++ idxs more ∧ r.2 = m ++ more ∧ NoDup r.1 ∧
    (∀ kv, kv ∈ more → kv.1 ∈ keys ∧ idx kv.2 < length CategorizeAnchorPointPositions ∧
       CategorizeAnchorPointPositions !! idx kv.2 = Some (top kv.2, right kv.2)) ∧
    (length more = length keys ∨ ∀ i, i < length CategorizeAnchorPointPositions → i ∈ r.1).
Proof.
  revert used m. induction keys as [|k keys IH]; intros used m Hk Hm Hu.
  { exists []. simpl. rewrite !app_nil_r. split; [done|]. split; [done|]. split; [done|].
    split; [by intros ? ?%elem_of_nil|by left]. }
  apply NoDup_cons in Hk as [Hkn Hk]. cbn [foldl].
  pose proof (sample_spec (effectiveIdxes used)) as Hs. destruct (sample (effectiveIdxes used)) as [i|] eqn:Hsi.
  - apply elem_of_effective in Hs as [Hi Hlt].
    destruct (lookup_lt_is_Some_2 CategorizeAnchorPointPositions i Hlt) as [[a b] Hab].
    set (kv := (k, {| top := a; right := b; idx := i |})).
    assert (place_key sample (used, m) k = (used ++ [i], m ++ [kv])) as ->.
    { unfold place_key. cbn [fst snd]. rewrite Hsi, Hab. by rewrite assoc_set_fresh by (apply Hm; by left). }
    destruct (IH (used ++ [i]) (m ++ [kv])) as (more & H1 & H2 & H3 & H4 & H5); [done| | |].
    + intros k' Hk'. rewrite fmap_app, not_elem_of_app. split; [apply Hm; by right|].
      simpl. intros ->%list_elem_of_singleton. done.
    + apply NoDup_app. split; [done|]. split; [|apply NoDup_singleton]. intros j Hj ->%list_elem_of_singleton. done.
    + exists (kv :: more). split; [rewrite H1, <-app_assoc; done|]. split; [rewrite H2, <-app_assoc; done|].
      split; [done|]. split.
      * intros kv' [->|Hin]%elem_of_cons; [split; [by left|]; split; [done|exact Hab]|].
        destruct (H4 kv' Hin) as (? & ? & ?). split; [by right|done].
      * destruct H5 as [H5|H5]; [left; simpl; by rewrite H5|by right].
  - assert (∀ i, i < length CategorizeAnchorPointPositions → i ∈ used) as Hfull.
    { intros i Hi. destruct (decide (i ∈ used)) as [|Hni]; [done|].
      assert (i ∈ effectiveIdxes used) as Hin by (by apply elem_of_effective). rewrite Hs in Hin. by apply elem_of_nil in Hin. }
    assert (place_key sample (used, m) k = (used, m)) as -> by (unfold place_key; cbn [fst snd]; by rewrite Hsi).
    destruct (IH used m) as (more & H1 & H2 & H3 & H4 & H5); [done|intros; apply Hm; by right|done|].
    exists more. split; [done|]. split; [done|]. split; [done|]. split.
    + intros kv Hin. destruct (H4 kv Hin) as (? & ? & ?). split; [by right|done].
    + right. intros i Hi. rewrite H1. apply elem_of_app. left. auto.
Qed.

(** The anchors given to new categories are free: no two categories, old
    or new, share one, every anchor is one of the twelve places with its
    coordinates, and a new category is left without one only when all twelve
    are taken. *)
Theorem buildNewPositionMap_distinct currentKeys prev :
  NoDup currentKeys → NoDup (idxs prev) →
  let '(kept, new) := buildNewPositionMap sample currentKeys prev in
  NoDup (idxs prev ++ idxs new) ∧
  (∀ k, k ∈ kept → k ∈ prev.*1 ∧ k ∈ currentKeys) ∧
  (∀ kv, kv ∈ new → kv.1 ∈ currentKeys ∧ (kv.1 ∉ kept) ∧
     CategorizeAnchorPointPositions !! idx kv.2 = Some (top kv.2, right kv.2)) ∧
  (length new = length (js_filter (λ k, negb (js_some (λ y, y === k) kept)) currentKeys) ∨
   ∀ i, i < length CategorizeAnchorPointPositions → i ∈ idxs prev ++ idxs new).
Proof.
  intros Hck Hu. unfold buildNewPositionMap. set (kept := lo_intersectionWith _ _ _).
  set (diff := js_filter _ currentKeys).
  destruct (place_keys_spec diff (idxs prev) []) as (more & H1 & H2 & H3 & H4 & H5);
    [by apply NoDup_js_filter|intros ? _; apply not_elem_of_nil|done|].
  change (map (λ kv, idx kv.2) prev) with (idxs prev). rewrite H2. rewrite H1 in H3, H5. cbn [app] in *.
  split; [done|]. split; [|split; [|done]].
  - intros k (Hk & y & Hy & Heq)%intersectionWith_sub. reflect_bool. by subst y.
  - intros kv Hin. destruct (H4 kv Hin) as ([Hk Hkd]%elem_of_js_filter & _ & Hp). split; [done|]. split; [|done].
    intros Hkept. apply negb_true_iff in Hk. rewrite js_some_false in Hk. specialize (Hk _ Hkept). by reflect_bool.
Qed.
End anchor_props.

(** ** Categories round-trip *)
Section category_props.
Context {L : Lodash} {LL : LodashLaws L}.

Definition same_props (a b : val) : Prop := ∀ k, prop k a = prop k b.

(** A category of the form: a named object with an integer index and its
    examples as react-hook-form keeps them. *)
Record category (nm : string) (z : Z) (cur : val) : Prop := {
  cat_obj : ∃ o xs, cur = VObj o ∧ obj_wf o ∧ obj_get "name" o = VStr nm ∧
    obj_get "index" o = VNum (num_of_Z z) ∧ obj_get "examples" o = VArr (map (λ x, VObj [("value", x)]) xs);
  cat_name : nm ≠ ""
}.

Lemma convert_examples xs :
  convertToStringArray (VArr (map (λ x, VObj [("value", x)]) xs)) = Ok xs.
Proof.
  simpl. induction xs as [|x xs IH]; [done|]. cbn [map mapM]. by rewrite IH.
Qed.

Lemma category_entry_ok nm z cur : category nm z cur →
  ∃ e, category_entry cur = Ok e ∧ same_props (category_item nm e) cur ∧ is_Some (Some e).
Proof.
  intros [(o & xs & -> & Hwf & Hn & Hi & He) Hne]. unfold category_entry. cbn [prop]. rewrite He, convert_examples.
  simpl mbind. eexists. split; [done|]. split; [|done]. intros k. unfold category_item. cbn [prop obj_of_val].
  set (e := obj_set "examples" (VArr xs) _).
  assert (∀ k, obj_lookup k e = if decide (k = "examples") then Some (VArr xs)
    else if decide (k = "name") then None else obj_lookup k o) as He'.
  { intros k'. unfold e. destruct (decide (k' = "examples")) as [->|Hk]; [apply obj_lookup_set_eq|].
    rewrite obj_lookup_set_ne by done. rewrite obj_assign_lookup by by apply omit_wf.
    rewrite omit_lookup. destruct (decide (k' = "name")) as [->|Hk'].
    - by rewrite decide_True by set_solver.
    - rewrite decide_False by set_solver. simpl. by destruct (obj_lookup k' o). }
  assert (obj_wf e) as Hwe by (apply obj_set_wf, obj_assign_wf; constructor).
  destruct (decide (k = "examples")) as [->|Hk].
  - rewrite obj_get_set_eq. unfold obj_get at 1. rewrite He'. simpl. by rewrite He.
  - rewrite obj_get_set_ne by done. unfold obj_get at 1. rewrite obj_assign_lookup by done. rewrite He'.
    rewrite decide_False by done. destruct (decide (k = "name")) as [->|Hk'].
    + simpl. by rewrite Hn.
    + unfold obj_get. destruct (obj_lookup k o) as [v|]; [done|]. simpl. by rewrite bool_decide_false.
Qed.

Lemma obj_set_fresh k v o : (k ∉ o.*1) → obj_set k v o = o ++ [(k, v)].
Proof.
  induction o as [|[k' v'] o IH]; simpl; [done|]. intros Hk. rewrite bool_decide_false by set_solver.
  f_equal. apply IH. set_solver.
Qed.

(** The object is the list with the names as keys. *)
Lemma categorize_fold items nzs pre :
  Forall2 (λ nz cur, category nz.1 nz.2 cur) nzs items → NoDup (pre.*1 ++ nzs.*1) →
  ∃ es, foldl (λ acc cur, pre ← acc;
      if truthy (prop "name" cur)
      then entry ← category_entry cur; Ok (obj_set (key_of (prop "name" cur)) entry pre)
      else Ok pre) (Ok pre) items = Ok (pre ++ zip (nzs.*1) es) ∧ length es = length nzs ∧
    Forall2 same_props (zip_with category_item (nzs.*1) es) items.
Proof.
  intros Hc. revert pre. induction Hc as [|[nm z] cur nzs items Hcur Hc IH]; intros pre Hnd.
  { exists []. simpl. by rewrite app_nil_r. }
  destruct (category_entry_ok nm z cur Hcur) as (e & He & Hsame & _).
  destruct Hcur as [(o & xs & -> & _ & Hn & _) Hne]. cbn [foldl].
  assert (prop "name" (VObj o) = VStr nm) as Hpn by exact Hn.
  cbn [fmap list_fmap fst] in *. rewrite (cons_middle nm) in Hnd. rewrite app_assoc in Hnd.
  assert (nm ∉ pre.*1) as Hfresh.
  { apply NoDup_app in Hnd as (Hnd & _ & _). apply NoDup_app in Hnd as (_ & Hd & _). intros Hin.
    apply (Hd nm Hin). by left. }
  destruct (IH (pre ++ [(nm, e)])) as (es & Hes & Hlen & Hall).
  { by rewrite fmap_app. }
  exists (e :: es). split; [|split; [simpl; by rewrite Hlen|]].
  - rewrite Hpn. cbn [truthy]. rewrite bool_decide_false by done. cbn [negb mbind outcome_bind].
    rewrite He. cbn [key_of mbind outcome_bind]. rewrite obj_set_fresh by done.
    etrans; [exact Hes|]. by rewrite <-app_assoc.
  - cbn [zip_with]. by constructor.
Qed.

Lemma zip_category_item names es :
  map (λ kv, category_item kv.1 kv.2) (zip names es) = zip_with category_item names es.
Proof. revert es. induction names as [|n names IH]; intros [|e es]; simpl; [done..|]. by rewrite IH. Qed.

Definition by_index (a b : val) : Prop :=
  ∃ x y, prop "index" a = VNum (num_of_Z x) ∧ prop "index" b = VNum (num_of_Z y) ∧ (x <= y)%Z.

#[local] Instance by_index_trans : Transitive by_index.
Proof.
  intros a b c (x & y & Ha & Hb & Hxy) (y' & z & Hb' & Hc & Hyz). exists x, z. split; [done|]. split; [done|].
  rewrite Hb in Hb'. assert (y = y') as -> by (apply num_of_Z_inj; congruence). lia.
Qed.

Lemma same_index nz cur a : category nz.1 nz.2 cur → same_props a cur → prop "index" a = VNum (num_of_Z nz.2).
Proof. intros [(o & xs & -> & _ & _ & Hi & _) _] Hs. by rewrite Hs. Qed.

Lemma index_cmp_Z a b x y :
  prop "index" a = VNum (num_of_Z x) → prop "index" b = VNum (num_of_Z y) → index_cmp a b = (y <? x)%Z.
Proof. intros Ha Hb. unfold index_cmp. rewrite Ha, Hb. apply num_gt_cmp_Z. Qed.

Lemma index_cmp_asym a b : index_cmp a b = true → index_cmp b a = false.
Proof. apply num_gt_cmp_asym. Qed.

(** a list of categories with distinct names and increasing indices that
    the form turns into the object the backend takes comes back as the same
    list, category by category, with every property; even a name that an
    object lists first, such as a number, keeps its place. *)
Theorem categorize_roundtrip items nzs :
  Forall2 (λ nz cur, category nz.1 nz.2 cur) nzs items → NoDup nzs.*1 → StronglySorted Z.lt nzs.*2 →
  ∃ c, buildCategorizeObjectFromList items = Ok c ∧
    Forall2 same_props (buildCategorizeListFromObject c) items.
Proof.
  intros Hc Hnd Hsort. destruct (categorize_fold items nzs [] Hc Hnd) as (es & Hes & Hlen & Hall).
  exists (zip nzs.*1 es). split; [exact Hes|]. unfold buildCategorizeListFromObject.
  set (M := zip_with category_item (nzs.*1) es) in Hall.
  assert (map (λ kv, category_item kv.1 kv.2) (obj_entries (zip nzs.*1 es)) ≡ₚ M) as Hperm.
  { unfold M. rewrite <-zip_category_item. apply Permutation_map, obj_entries_Permutation. }
  assert (Forall2 (λ nz a, prop "index" a = VNum (num_of_Z nz.2)) nzs M) as HM.
  { clear -Hc Hall. revert Hall. generalize M. induction Hc as [|nz cur nzs items Hcur _ IH]; intros M' Hall.
    - inversion Hall; subst. constructor.
    - inversion Hall as [|a ? M1 ? Ha Hall']; subst. constructor; [by eapply same_index|by apply IH]. }
  assert (js_sort index_cmp (map (λ kv, category_item kv.1 kv.2) (obj_entries (zip nzs.*1 es))) = M) as ->; [|done].
  assert (∀ a, a ∈ M → ∃ z, prop "index" a = VNum (num_of_Z z)) as HZ.
  { intros a [i Hi]%list_elem_of_lookup. destruct (Forall2_lookup_r _ _ _ _ _ HM Hi) as (nz & _ & ?). eauto. }
  apply (Sorted_unique_strong by_index).
  - intros a b Ha Hb (x & y & Hx & Hy & Hxy) (y' & x' & Hy' & Hx' & Hyx).
    rewrite js_sort_Permutation, Hperm in Ha. rewrite Hx in Hx'. rewrite Hy in Hy'.
    assert (x = x') as <- by (apply num_of_Z_inj; congruence).
    assert (y = y') as <- by (apply num_of_Z_inj; congruence). assert (x = y) as <- by lia.
    apply list_elem_of_lookup in Ha as [i Hi], Hb as [j Hj].
    destruct (Forall2_lookup_r _ _ _ _ _ HM Hi) as (nz & Hnz & Hnzi).
    destruct (Forall2_lookup_r _ _ _ _ _ HM Hj) as (nz' & Hnz' & Hnzj).
    rewrite Hx in Hnzi. rewrite Hy in Hnzj.
    assert (nz.2 = x) as E1 by (apply num_of_Z_inj; congruence).
    assert (nz'.2 = x) as E2 by (apply num_of_Z_inj; congruence).
    assert (i = j) as ->; [|congruence].
    assert (NoDup nzs.*2) as Hnd2.
    { clear -Hsort. induction Hsort as [|z l Hs IH Hz]; constructor; [|done].
      intros Hin. rewrite Forall_forall in Hz. specialize (Hz z Hin). lia. }
    apply (NoDup_lookup _ i j x Hnd2); rewrite list_lookup_fmap; [by rewrite Hnz, <-E1|by rewrite Hnz', <-E2].
  - assert (∀ l, Sorted (ordered index_cmp) l → (∀ a, a ∈ l → a ∈ M) → Sorted by_index l) as Hord.
    { intros l Hl. induction Hl as [|a l Hl IH Hd]; intros Hin; constructor; [apply IH; set_solver|].
      destruct Hd as [|b l Hab]; constructor. destruct (HZ a) as [x Hx]; [apply Hin; set_solver|].
      destruct (HZ b) as [y Hy]; [apply Hin; set_solver|]. exists x, y. split; [done|]. split; [done|].
      unfold ordered in Hab. rewrite (index_cmp_Z a b x y) in Hab by done. by apply Z.ltb_ge in Hab. }
    apply Hord; [apply js_sort_Sorted, index_cmp_asym|]. intros a. by rewrite js_sort_Permutation, Hperm.
  - clear -HM Hsort. induction HM as [|nz a nzs M Ha HM IH]; [constructor|]. cbn in Hsort.
    inversion Hsort as [|? ? Hs Hz]; subst. constructor; [by apply IH|].
    destruct HM as [|nz' a' nzs' M' Ha' _]; constructor. exists nz.2, nz'.2. split; [done|]. split; [done|].
    rewrite Forall_forall in Hz. specialize (Hz nz'.2 ltac:(cbn; by left)). lia.
  - by rewrite js_sort_Permutation.
Qed.
End category_props.

(** ** The theorems at work *)
Definition sample0 (l : list nat) : option nat := head l.

Lemma buildNewPositionMap_distinct_witness :
  let prev := [("a", {| top := 8; right := 18; idx := 1 |})] in
  let '(kept, new) := buildNewPositionMap sample0 ["a"; "b"; "c"] prev in
  kept = ["a"] ∧ idxs new = [0; 2] ∧ NoDup (idxs prev ++ idxs new).
Proof.
  intros prev. pose proof (buildNewPositionMap_distinct sample0) as H.
  specialize (H ltac:(intros [|i l]; [reflexivity|left]) ["a"; "b"; "c"] prev
    ltac:(apply (bool_decide_unpack _); vm_compute; exact I) ltac:(apply (bool_decide_unpack _); vm_compute; exact I)).
  destruct (buildNewPositionMap sample0 ["a"; "b"; "c"] prev) as [kept new] eqn:E.
  vm_compute in E. injection E as <- <-. split; [done|]. split; [done|]. apply H.
Defined.

Definition category_a (nm : string) (z : Z) : val :=
  VObj [("name", VStr nm); ("index", VNum (num_of_Z z));
        ("examples", VArr (map (λ x, VObj [("value", x)]) [VStr "why"; VStr "how"])); ("uuid", VStr "u")].

Lemma categorize_roundtrip_witness :
  ∃ c, buildCategorizeObjectFromList [category_a "product" 0; category_a "7" 1] = Ok c ∧
    Forall2 same_props (buildCategorizeListFromObject c) [category_a "product" 0; category_a "7" 1].
Proof.
  apply (categorize_roundtrip [category_a "product" 0; category_a "7" 1] [("product", 0%Z); ("7", 1%Z)]).
  - repeat constructor; try discriminate;
      (eexists _, _; split; [reflexivity|split; [apply (bool_decide_unpack _); vm_compute; exact I|]]; done).
  - apply (bool_decide_unpack _). vm_compute. exact I.
  - repeat constructor.
Defined.
