(* ===== verification/Downstream.v ===== *)
(** * Downstream agents and tools

    pages/agent/utils/filter-downstream-nodes.ts and
    pages/agent/utils/delete-node.ts: the nodes below an agent operator, and
    the edges deleted with them.  The source recurses along the edges with no
    visited set, so the model takes fuel and the theorems say exactly when it
    is enough. *)
From S2P Require Import Prelude JsValue Graph.
Open Scope js_scope.

Section filter_downstream.
Variable edges : list Edge.

Fixpoint filterAllDownstreamNodeIds (fuel : nat) (nodeIds : list string) (predicate : Edge → bool)
      : option (list string) :=
    match fuel with
    | O => None
    | S fuel =>
        foldl (λ acc nodeId,
          pre ← acc;
          let currentEdges := js_filter (λ x, (source x === nodeId) && predicate x) edges in
          let downstreamNodeIds := map target currentEdges in
          rest ← filterAllDownstreamNodeIds fuel downstreamNodeIds predicate;
          let ids := downstreamNodeIds ++ rest in
          Some (push_all pre ids)) (Some []) nodeIds
    end.

Definition is_agent_or_tool_edge (edge : Edge) : bool :=
    (sourceHandle edge === HId NodeHandleId.AgentBottom) || (sourceHandle edge === HId NodeHandleId.Tool).

Definition is_agent_edge (edge : Edge) : bool := sourceHandle edge === HId NodeHandleId.AgentBottom.

Definition filterAllDownstreamAgentAndToolNodeIds (fuel : nat) (nodeIds : list string) : option (list string) :=
    filterAllDownstreamNodeIds fuel nodeIds is_agent_or_tool_edge.

Definition filterAllDownstreamAgentNodeIds (fuel : nat) (nodeIds : list string) : option (list string) :=
    filterAllDownstreamNodeIds fuel nodeIds is_agent_edge.

Definition filterDownstreamAgentNodeIds (nodeId : option string) : list string :=
    map target (js_filter (λ x, (Some (source x) === nodeId) &&
                                (sourceHandle x === HId NodeHandleId.AgentBottom)) edges).

  (** The accumulation [if (!pre.some((y) => y.id !== x.id)) pre.push(x)], as
      the source writes it. *)
Definition push_related (pre : list Edge) (x : Edge) : list Edge :=
    if negb (js_some (λ y, e_id y !== e_id x) pre) then pre ++ [x] else pre.

Definition downstreamEdges (ids : list string) : list Edge :=
    foldl (λ pre cur,
      let relatedEdges := js_filter (λ x, (source x === cur) || (target x === cur)) edges in
      foldl push_related pre relatedEdges) [] ids.

Definition deleteAllDownstreamAgentsAndTool (fuel : nat) (nodeId : string)
      : option (list string * list Edge) :=
    downstreamAgentAndToolNodeIds ← filterAllDownstreamAgentAndToolNodeIds fuel [nodeId];
    Some (downstreamAgentAndToolNodeIds, downstreamEdges downstreamAgentAndToolNodeIds).

  (** ** The traversal computes reachability *)
Section spec.
Context (p : Edge → bool).
Abbreviation R := (estep edges p).

    (** One round of the reduce: what a single start node contributes. *)
Definition contribution (fuel : nat) (n : string) : option (list string) :=
      let ds := estep_targets edges p n in
      rest ← filterAllDownstreamNodeIds fuel ds p; Some (ds ++ rest).

Lemma filterAll_S fuel ns :
      filterAllDownstreamNodeIds (S fuel) ns p =
      (λ l : list (list string), push_all [] (mjoin l)) <$> mapM (contribution fuel) ns.
    Proof.
      simpl. set (step := λ acc nodeId, _).
      assert (∀ pre, foldl step (Some pre) ns =
                (λ l, push_all pre (mjoin l)) <$> mapM (contribution fuel) ns) as H; [|apply H].
      assert (∀ ms, foldl step None ms = None) as HN by (induction ms; done).
      assert (∀ pre n, step (Some pre) n = push_all pre <$> contribution fuel n) as HS.
      { intros pre n. unfold step, contribution, estep_targets. simpl.
        by destruct (filterAllDownstreamNodeIds _ _ _). }
      induction ns as [|n ns IH]; intros pre; [done|]. cbn [foldl mapM]. rewrite HS.
      destruct (contribution fuel n) as [c|]; simpl; [|apply HN].
      rewrite IH. destruct (mapM _ _) as [l|]; simpl; [|done]. by rewrite push_all_app.
    Qed.

Lemma elem_of_mjoin_mapM {A B} (f : A → option (list B)) (ns : list A) (l : list (list B)) b :
      mapM f ns = Some l → b ∈ mjoin l ↔ ∃ n c, n ∈ ns ∧ f n = Some c ∧ b ∈ c.
    Proof.
      rewrite mapM_Some. intros H. induction H as [|n c ns l Hn H IH]; simpl.
      - split; [by intros ?%elem_of_nil|]. intros (? & ? & ?%elem_of_nil & _). done.
      - rewrite elem_of_app, IH. setoid_rewrite elem_of_cons. naive_solver.
    Qed.

Lemma filterAll_spec fuel ns l :
      filterAllDownstreamNodeIds fuel ns p = Some l →
      NoDup l ∧ ∀ b, b ∈ l ↔ ∃ n, n ∈ ns ∧ tc R n b.
    Proof.
      revert ns l. induction fuel as [|fuel IH]; intros ns l; [done|].
      rewrite filterAll_S. intros (cs & Hcs & ->)%fmap_Some. split; [apply NoDup_push_all, NoDup_nil_2|].
      intros b. rewrite elem_of_push_all, (elem_of_mjoin_mapM _ _ _ _ Hcs).
      split.
      - intros [?%elem_of_nil|(n & c & Hn & Hc & Hb)]; [done|]. exists n. split; [done|].
        unfold contribution in Hc. simplify_option_eq. apply IH in Heqo as [_ Hr].
        apply elem_of_app in Hb as [Hb|Hb].
        + by apply tc_once, elem_of_estep_targets.
        + apply Hr in Hb as (m & Hm & Hmb). eapply tc_l; [|done]. by apply elem_of_estep_targets.
      - intros (n & Hn & Hnb). right.
        apply mapM_Some in Hcs. apply list_elem_of_lookup_1 in Hn as [i Hi].
        destruct (Forall2_lookup_l _ _ _ _ _ Hcs Hi) as (c & Hci & Hc).
        exists n, c. split; [by eapply list_elem_of_lookup_2|]. split; [done|].
        unfold contribution in Hc. simplify_option_eq. apply IH in Heqo as [_ Hr].
        apply elem_of_app. inversion Hnb as [? ? H1|? m ? H1 H2]; subst.
        + left. by apply elem_of_estep_targets.
        + right. apply Hr. exists m. split; [|done]. by apply elem_of_estep_targets.
    Qed.

Lemma filterAll_None_chain fuel ns :
      filterAllDownstreamNodeIds fuel ns p = None →
      ∃ c, length c = fuel ∧ Sorted R c ∧ ∀ n, head c = Some n → n ∈ ns.
    Proof.
      revert ns. induction fuel as [|fuel IH]; intros ns.
      { intros _. by exists []. }
      rewrite filterAll_S, fmap_None. intros Hc.
      apply mapM_None_1, Exists_exists in Hc as (n & Hn & Hc).
      unfold contribution in Hc. simplify_option_eq.
      apply IH in Heqo as (c & Hl & Hs & Hh). exists (n :: c). simpl. split; [by f_equal|].
      split; [|intros ? [= <-]; done]. constructor; [done|].
      destruct c as [|m c]; constructor. by apply elem_of_estep_targets, Hh.
    Qed.

    (** Enough fuel: a chain longer than the edges would repeat a source. *)
Lemma chain_bound c :
      (∀ n a, head c = Some n → rtc R n a → ¬ tc R a a) → Sorted R c → length c ≤ S (length edges).
    Proof.
      intros Hac Hs. assert (StronglySorted (tc R) c) as Hss.
      { apply Sorted_StronglySorted; [intros ???; apply tc_transitive|].
        clear Hac. induction Hs as [|n c' Hs IH Hd]; constructor; [done|].
        destruct Hd; constructor. by apply tc_once. }
      assert (NoDup c) as Hnd.
      { destruct c as [|h c]; [constructor|]. specialize (Hac h).
        assert (∀ a, a ∈ h :: c → ¬ tc R a a) as Ha.
        { intros a [->|Hin]%elem_of_cons; apply Hac; [done|done| |]; [done|].
          inversion Hss as [|? ? ? Hall]; subst. rewrite Forall_forall in Hall.
          apply tc_rtc, Hall, Hin. }
        clear Hac Hs. induction Hss as [|n c' Hss IH Hall]; constructor.
        - intros Hin. rewrite Forall_forall in Hall. eapply Ha; [|by apply Hall]. set_solver.
        - apply IH. set_solver. }
      destruct c as [|h c]; simpl; [lia|]. apply le_n_S.
      rewrite <-(length_map source edges).
      destruct (exists_last (l := h :: c)) as (l' & m & Hlm); [done|].
      assert (length c = length l') as -> by (apply (f_equal length) in Hlm; rewrite length_app in Hlm; simpl in *; lia).
      rewrite Hlm in Hnd, Hs. apply submseteq_length, NoDup_submseteq.
      { by apply NoDup_app in Hnd as [? _]. }
      intros a Ha. apply list_elem_of_split in Ha as (l1 & l2 & ->).
      assert (∃ b, R a b) as [b (e & He & _ & <- & _)].
      { clear -Hs. rewrite <-!app_assoc in Hs. induction l1 as [|d l1 IH]; simpl in Hs.
        - apply Sorted_inv in Hs as [_ Hd]. destruct l2; simpl in Hd; inversion Hd; eauto.
        - apply Sorted_inv in Hs as [Hs _]. by apply IH. }
      apply list_elem_of_In, in_map, list_elem_of_In, He.
    Qed.

Lemma filterAll_terminates fuel ns :
      (∀ n a, n ∈ ns → rtc R n a → ¬ tc R a a) → S (length edges) < fuel →
      is_Some (filterAllDownstreamNodeIds fuel ns p).
    Proof.
      intros Hac Hf. destruct (filterAllDownstreamNodeIds _ _ _) eqn:E; [done|].
      apply filterAll_None_chain in E as (c & Hl & Hs & Hh).
      apply chain_bound in Hs; [lia|]. eauto.
    Qed.

Lemma filterAll_diverges fuel ns n a :
      n ∈ ns → rtc R n a → tc R a a → filterAllDownstreamNodeIds fuel ns p = None.
    Proof.
      revert ns n. induction fuel as [|fuel IH]; intros ns n Hn Hna Ha; [done|].
      rewrite filterAll_S. apply fmap_None, mapM_None, Exists_exists. exists n. split; [done|].
      unfold contribution. assert (∃ m, R n m ∧ rtc R m a) as (m & Hnm & Hma).
      { inversion Hna as [|? m ? H1 H2]; subst; [|by eauto].
        inversion Ha as [? ? H1|? m ? H1 H2]; subst; [by exists a|]. eauto using tc_rtc. }
      rewrite (IH (estep_targets edges p n) m); [done| |done|done]. by apply elem_of_estep_targets.
    Qed.

Lemma filterAll_terminates_iff ns :
      (∃ fuel l, filterAllDownstreamNodeIds fuel ns p = Some l) ↔
      ∀ n a, n ∈ ns → rtc R n a → ¬ tc R a a.
    Proof.
      split.
      - intros (fuel & l & Hf) n a Hn Hna Ha. by rewrite (filterAll_diverges fuel ns n a) in Hf.
      - intros Hac. exists (S (S (length edges))).
        destruct (filterAll_terminates (S (S (length edges))) ns) as [l Hl]; [done|lia|eauto].
    Qed.
End spec.

  (** ** The deleted edges *)
Lemma downstreamEdges_same_id_foldl es pre :
    (∀ e e', e ∈ pre → e' ∈ pre → e_id e = e_id e') →
    let pre' := foldl push_related pre es in ∀ e e', e ∈ pre' → e' ∈ pre' → e_id e = e_id e'.
  Proof.
    revert pre. induction es as [|e es IH]; intros pre Hpre; [done|]. simpl. apply IH.
    unfold push_related. destruct (js_some _ pre) eqn:E; simpl; [done|].
    rewrite js_some_false in E. intros e1 e2. rewrite !elem_of_app, !list_elem_of_singleton.
    assert (∀ e1, e1 ∈ pre → e_id e1 = e_id e) by (intros ? H; specialize (E _ H); by reflect_bool).
    intros [?| ->] [?| ->]; auto. symmetry. auto.
  Qed.

Lemma downstreamEdges_same_id ids e e' :
    e ∈ downstreamEdges ids → e' ∈ downstreamEdges ids → e_id e = e_id e'.
  Proof.
    unfold downstreamEdges. set (step := λ pre cur, _).
    assert (∀ pre, (∀ e e', e ∈ pre → e' ∈ pre → e_id e = e_id e') →
      ∀ e e', e ∈ foldl step pre ids → e' ∈ foldl step pre ids → e_id e = e_id e') as H.
    { induction ids as [|i ids IH]; intros pre Hpre; [done|]. simpl. apply IH.
      by apply downstreamEdges_same_id_foldl. }
    apply H. intros ? ? ?%elem_of_nil. done.
  Qed.

Lemma elem_of_downstreamEdges ids e : e ∈ downstreamEdges ids → e ∈ edges.
  Proof.
    unfold downstreamEdges. set (step := λ pre cur, _).
    assert (∀ es pre, (∀ e, e ∈ es → e ∈ edges) → (∀ e, e ∈ pre → e ∈ edges) →
      ∀ e, e ∈ foldl push_related pre es → e ∈ edges) as Hpush.
    { intros es. induction es as [|d es IH]; intros pre Hes Hpre; [done|]. simpl. apply IH; [set_solver|].
      unfold push_related. destruct (js_some _ _); simpl; set_solver. }
    assert (∀ pre, (∀ e, e ∈ pre → e ∈ edges) → ∀ e, e ∈ foldl step pre ids → e ∈ edges) as H; [|apply H; set_solver].
    induction ids as [|i ids IH]; intros pre Hpre; [done|]. simpl. apply IH, Hpush; [|done].
    intros d [_ ?]%elem_of_js_filter. done.
  Qed.
End filter_downstream.
