(* ===== verification/NodeNames.v ===== *)
(** * Node names

    The naming scheme of pages/agent/utils.ts: [splitName] and
    [generateNodeNamesWithIncreasingIndex]. *)
From S2P Require Import Prelude JsValue Graph.
From Stdlib Require Import Ascii.
Open Scope list_scope.
Open Scope nat_scope.
Open Scope js_scope.

Definition underscore : ascii := "_"%char.

(** [names.at(0)] and [Number(names.at(-1))]; [split] never returns []. *)
Definition splitName (nm : string) : option string * num :=
  let names := js_split underscore nm in
  (head names, num_of_string (default "" (last names))).

(** The scan for the first gap: the loop breaks at the first element whose
    successor in the array is not the next index, at the latest at the last
    one, where [nextIdx] is [undefined]. *)
Fixpoint first_gap (idxs : list num) : num :=
  match idxs with
  | [] => num_of_Z 0
  | idx :: rest =>
      match rest with
      | nextIdx :: _ =>
          if negb (num_eqb (num_add idx (num_of_Z 1)) nextIdx) then num_add idx (num_of_Z 1)
          else first_gap rest
      | [] => num_add idx (num_of_Z 1)
      end
  end.

Definition is_template_name (nm temporaryName : string) : bool :=
  let '(type, index) := splitName temporaryName in
  (count_char underscore temporaryName === 1) && (type === Some nm) && negb (num_isNaN index).

Definition generateNodeNamesWithIncreasingIndex (nm : string) (nodes : list Node) : string :=
  let templateNameList :=
    js_sort num_gt_cmp
      (map (λ x, (splitName (name (n_data x))).2)
         (js_filter (λ x, is_template_name nm (name (n_data x))) nodes)) in
  let index := first_gap templateNameList in
  nm +:+ "_" +:+ num_to_string index.

(** ** Lemmas on the parts *)
Lemma js_split_head_no_sep c s h : head (js_split c s) = Some h → count_char c h = 0.
Proof.
  revert h. induction s as [|a s IH]; intros h; simpl; [by intros [= <-]|].
  destruct (bool_decide_reflect (a = c)) as [->|Ha]; [by intros [= <-]|].
  destruct (js_split c s) as [|h' t]; intros [= <-]; simpl; rewrite bool_decide_false by done; simpl; auto.
Qed.

Lemma count_char_pretty z : (0 <= z)%Z → count_char underscore (pretty z) = 0.
Proof. intros Hz. by apply count_char_pretty_sep. Qed.

Lemma splitName_canonical nm z :
  count_char underscore nm = 0 → (0 <= z)%Z → splitName (nm +:+ "_" +:+ pretty z) = (Some nm, num_of_Z z).
Proof.
  intros Hnm Hz. unfold splitName. change ("_" +:+ pretty z) with (String underscore (pretty z)).
  rewrite js_split_app, js_split_no_sep by (done || by apply count_char_pretty). simpl.
  by rewrite num_of_string_pretty.
Qed.

Lemma is_template_canonical nm z :
  count_char underscore nm = 0 → (0 <= z)%Z → is_template_name nm (nm +:+ "_" +:+ pretty z) = true.
Proof.
  intros Hnm Hz. unfold is_template_name. rewrite splitName_canonical by done.
  rewrite !count_char_app, Hnm, count_char_pretty by done. simpl. by rewrite bool_decide_true.
Qed.

Lemma is_template_underscore nm s : count_char underscore nm ≠ 0 → is_template_name nm s = false.
Proof.
  intros Hnm. unfold is_template_name, splitName.
  destruct (bool_decide_reflect (head (js_split underscore s) = Some nm)) as [Hh|];
    [|by rewrite andb_false_r].
  apply js_split_head_no_sep in Hh. done.
Qed.

(** The first gap of a strictly increasing list of integers is not in it. *)
Lemma first_gap_spec zs :
  StronglySorted Z.lt zs →
  ∃ g, first_gap (map num_of_Z zs) = num_of_Z g ∧ (g ∉ zs) ∧
       ((zs = [] ∧ g = 0%Z) ∨ ∃ z, z ∈ zs ∧ g = (z + 1)%Z).
Proof.
  induction zs as [|z zs IH]; intros Hs.
  { exists 0%Z. repeat split; [set_solver|by left]. }
  inversion Hs as [|? ? Hs' Hz]; subst. destruct zs as [|w zs].
  { exists (z + 1)%Z. cbn [map first_gap]. rewrite num_add_Z. repeat split; [|right; set_solver].
    rewrite list_elem_of_singleton. lia. }
  cbn [map first_gap]. rewrite num_add_Z, num_eqb_Z.
  destruct (Z.eqb_spec (z + 1) w) as [<-|Hw]; simpl.
  - destruct (IH Hs') as (g & Hg & Hnin & Hor). exists g. split; [done|].
    destruct Hor as [[? _]|(u & Hu & ->)]; [done|]. split; [|right; set_solver].
    apply not_elem_of_cons. split; [|done]. rewrite Forall_forall in Hz. specialize (Hz u Hu). lia.
  - exists (z + 1)%Z. split; [done|]. split; [|right; set_solver].
    rewrite !not_elem_of_cons. split; [lia|]. split; [done|]. intros Hin.
    inversion Hs' as [|? ? _ Hw']; subst. rewrite Forall_forall in Hz, Hw'.
    specialize (Hz w ltac:(set_solver)). specialize (Hw' _ Hin). lia.
Qed.

Definition zgt (a b : Z) : bool := (b <? a)%Z.

Lemma js_sort_Z_StronglySorted zs : NoDup zs → StronglySorted Z.lt (js_sort zgt zs).
Proof.
  intros Hnd. apply Sorted_StronglySorted; [intros ???; lia|].
  assert (NoDup (js_sort zgt zs)) as Hnd' by (by rewrite js_sort_Permutation).
  assert (Sorted (ordered zgt) (js_sort zgt zs)) as Hs.
  { apply js_sort_Sorted. unfold zgt. intros a b. rewrite Z.ltb_lt, Z.ltb_ge. lia. }
  clear Hnd. induction Hs as [|z l Hs IH Hd]; constructor.
  - apply IH. by apply NoDup_cons in Hnd' as [_ ?].
  - apply NoDup_cons in Hnd' as [Hz _]. destruct Hd as [|w l Hzw]; constructor.
    unfold ordered, zgt in Hzw. apply Z.ltb_ge in Hzw. assert (z ≠ w) by set_solver. lia.
Qed.

(** ** The invariant of the naming scheme *)
Definition node_names (nodes : list Node) : list string := map (λ n, name (n_data n)) nodes.

(** Every name of the scheme for [nm] has its index in canonical form. *)
Definition names_canonical (nm : string) (nodes : list Node) : Prop :=
  ∀ s, s ∈ node_names nodes → is_template_name nm s = true →
  ∃ z, (0 <= z)%Z ∧ s = nm +:+ "_" +:+ pretty z.

Lemma template_indices nm nodes :
  count_char underscore nm = 0 → NoDup (node_names nodes) → names_canonical nm nodes →
  ∃ zs, NoDup zs ∧ Forall (Z.le 0) zs ∧
    map (λ x, (splitName (name (n_data x))).2)
      (js_filter (λ x, is_template_name nm (name (n_data x))) nodes) = map num_of_Z zs ∧
    (∀ z, z ∈ zs → nm +:+ "_" +:+ pretty z ∈ node_names nodes) ∧
    ∀ z, (0 <= z)%Z → nm +:+ "_" +:+ pretty z ∈ node_names nodes → z ∈ zs.
Proof.
  intros Hnm. induction nodes as [|n nodes IH]; intros Hnd Hcan.
  { exists []. repeat split; [constructor|constructor|set_solver|by intros ? _ ?%elem_of_nil]. }
  apply NoDup_cons in Hnd as [Hn Hnd].
  destruct IH as (zs & H1 & H2 & H3 & H4 & H5); [done|intros s ?; apply Hcan; by right|].
  rewrite js_filter_cons. destruct (is_template_name nm (name (n_data n))) eqn:E.
  - destruct (Hcan (name (n_data n))) as (z & Hz & Hnz); [by left|done|].
    exists (z :: zs). split; [|split; [|split; [|split]]].
    + constructor; [|done]. intros Hin. apply Hn. rewrite Hnz. by apply H4.
    + by constructor.
    + cbn [map]. rewrite H3, Hnz, splitName_canonical by done. done.
    + intros w [->|Hw]%elem_of_cons; apply elem_of_cons; [left; done|right; by apply H4].
    + intros w Hw [Hw'|Hw']%elem_of_cons; [|right; by apply H5].
      apply elem_of_cons. left. rewrite Hnz in Hw'. pose proof (splitName_canonical nm w Hnm Hw) as Hs.
      rewrite Hw', splitName_canonical in Hs by done. by injection Hs.
  - exists zs. split; [done|]. split; [done|]. split; [done|]. split; [intros; right; by apply H4|].
    intros w Hw [Hw'|Hw']%elem_of_cons; [|by apply H5].
    rewrite <-Hw', is_template_canonical in E by done. done.
Qed.

Lemma generate_fresh nm nodes :
  count_char underscore nm = 0 → NoDup (node_names nodes) → names_canonical nm nodes →
  generateNodeNamesWithIncreasingIndex nm nodes ∉ node_names nodes ∧
  ∃ z, (0 <= z)%Z ∧ generateNodeNamesWithIncreasingIndex nm nodes = nm +:+ "_" +:+ pretty z.
Proof.
  intros Hnm Hnd Hcan. destruct (template_indices nm nodes) as (zs & H1 & H2 & H3 & _ & H5); [done..|].
  unfold generateNodeNamesWithIncreasingIndex. rewrite H3.
  rewrite (js_sort_map num_of_Z zgt) by apply num_gt_cmp_Z.
  destruct (first_gap_spec (js_sort zgt zs)) as (g & -> & Hg & Hor); [by apply js_sort_Z_StronglySorted|].
  rewrite num_to_string_Z. rewrite elem_of_js_sort in Hg.
  assert (0 <= g)%Z as Hg0.
  { destruct Hor as [[_ ->]|(z & Hz & ->)]; [done|]. rewrite elem_of_js_sort in Hz.
    rewrite Forall_forall in H2. specialize (H2 z Hz). lia. }
  split; [|by exists g]. intros Hin. by apply Hg, H5.
Qed.

Lemma generate_underscore nm nodes :
  count_char underscore nm ≠ 0 → generateNodeNamesWithIncreasingIndex nm nodes = nm +:+ "_0".
Proof.
  intros Hnm. unfold generateNodeNamesWithIncreasingIndex.
  replace (js_filter _ nodes) with (@nil Node); [done|]. symmetry.
  induction nodes as [|n nodes IH]; [done|]. by rewrite js_filter_cons, is_template_underscore.
Qed.
