(* ===== verification/GraphStore.v ===== *)
(** * The graph store

    pages/agent/store.ts, the zustand store behind the agent canvas, with the
    helpers of pages/agent/utils.ts its actions call.  The state is a record,
    an action is a function from states to states ([set] of a partial state
    is a record update), and a getter that the source reads through [get()]
    takes the state.  [option] results: [None] is a thrown TypeError, except
    where the text says it is fuel. *)
From S2P Require Import Prelude JsValue Graph Libs Downstream NodeNames.
From Stdlib Require Import Ascii.
Open Scope list_scope.
Open Scope nat_scope.
Open Scope js_scope.

Record RFState := {
  nodes : list Node;
  edges : list Edge;
  selectedNodeIds : list string;
  selectedEdgeIds : list string;
  clickedNodeId : option string;
  clickedToolId : option string
}.

Definition initial_state : RFState :=
  {| nodes := []; edges := []; selectedNodeIds := []; selectedEdgeIds := [];
     clickedNodeId := Some ""; clickedToolId := Some "" |}.

(** [set({ nodes })], [set({ edges })], ... *)
Definition setNodes (ns : list Node) (s : RFState) : RFState :=
  {| nodes := ns; edges := edges s; selectedNodeIds := selectedNodeIds s;
     selectedEdgeIds := selectedEdgeIds s; clickedNodeId := clickedNodeId s;
     clickedToolId := clickedToolId s |}.

Definition setEdges (es : list Edge) (s : RFState) : RFState :=
  {| nodes := nodes s; edges := es; selectedNodeIds := selectedNodeIds s;
     selectedEdgeIds := selectedEdgeIds s; clickedNodeId := clickedNodeId s;
     clickedToolId := clickedToolId s |}.

Definition onSelectionChange (ns : list Node) (es : list Edge) (s : RFState) : RFState :=
  {| nodes := nodes s; edges := edges s; selectedNodeIds := map n_id ns;
     selectedEdgeIds := map e_id es; clickedNodeId := clickedNodeId s;
     clickedToolId := clickedToolId s |}.

Definition setClickedNodeId (id : option string) (s : RFState) : RFState :=
  {| nodes := nodes s; edges := edges s; selectedNodeIds := selectedNodeIds s;
     selectedEdgeIds := selectedEdgeIds s; clickedNodeId := id; clickedToolId := clickedToolId s |}.

Definition setClickedToolId (id : option string) (s : RFState) : RFState :=
  {| nodes := nodes s; edges := edges s; selectedNodeIds := selectedNodeIds s;
     selectedEdgeIds := selectedEdgeIds s; clickedNodeId := clickedNodeId s; clickedToolId := id |}.

(** ** Helpers of utils.ts *)
Definition isEdgeEqual (previous current : Edge) : bool :=
  (source previous === source current) && (target previous === target current) &&
  (sourceHandle previous === sourceHandle current).

(** [handleTitle.split(' ').at(-1)] *)
Definition getOperatorIndex (handleTitle : string) : string :=
  default "" (last (js_split " "%char handleTitle)).

Definition generateSwitchHandleText (idx : num) : string :=
  "Case " +:+ num_to_string (num_add idx (num_of_Z 1)).

Definition getNodeDragHandle (nodeType : option string) : option string :=
  if nodeType === Some Operator.Note then Some ".note-drag-handle" else None.

(** A template literal renders a missing label as [undefined]. *)
Definition label_text (l : option string) : string := default "undefined" l.

(** The part of [generateDuplicateNode] that is spread over a node. *)
Record DuplicateFields := {
  d_id : string; d_position : XYPosition; d_dragHandle : option string
}.

Definition num_or_0 (n : num) : num := if num_isNaN n then num_of_Z 0 else n.

(** [(position?.x || 0) + 50]: [0 || 0] is [0]. *)
Definition generateDuplicateNode (fresh : string) (position : option XYPosition) (lbl : option string)
    : DuplicateFields :=
  {| d_id := label_text lbl +:+ ":" +:+ fresh;
     d_position :=
       {| x := num_add (default (num_of_Z 0) (num_or_0 ∘ x <$> position)) (num_of_Z 50);
          y := num_add (default (num_of_Z 0) (num_or_0 ∘ y <$> position)) (num_of_Z 50) |};
     d_dragHandle := getNodeDragHandle lbl |}.

(** [{ ...cd[cur], to: undefined }] for each category [cur] *)
Definition clear_to (cd : obj) : obj :=
  foldl (λ pre cur,
    obj_set cur (VObj (obj_set "to" VUndef (obj_assign [] (obj_of_val (obj_get cur cd))))) pre)
    [] (obj_keys cd).

Definition duplicateNodeForm (nodeData : option BaseNodeData) : BaseNodeData :=
  let form0 := obj_assign [] (obj_of_val (default VUndef (form <$> nodeData))) in
  let form1 :=
    if (label <$> nodeData) === Some Operator.Categorize
    then obj_set "category_description" (VObj (clear_to (obj_of_val (obj_get "category_description" form0)))) form0
    else form0 in
  {| label := default "" (label <$> nodeData); name := default "" (name <$> nodeData); form := VObj form1 |}.

Definition mapEdgeMouseEvent (es : list Edge) (edgeId : string) (isHovered : bool) : list Edge :=
  map (λ element,
    if e_id element === edgeId
    then edge_with_data element (obj_set "isHovered" (VBool isHovered) (obj_assign [] (e_data element)))
    else element) es.

Section store.
Context {L : Lodash} {X : XYFlow}.

(** [get(agentNode, 'data.form.tools', [])] *)
Definition getAgentNodeTools (agentNode : option Node) : val :=
  match agentNode with
  | Some n => lo_getOr (form (n_data n)) [PKey "tools"] (VArr [])
  | None => VArr []
  end.

Definition getAgentNodeMCP (agentNode : option Node) : val :=
  match agentNode with
  | Some n => lo_getOr (form (n_data n)) [PKey "mcp"] (VArr [])
  | None => VArr []
  end.

(** ** Change handlers and queries *)
Definition clone_node (n : Node) : Node := node_with_form n (lo_cloneDeep (form (n_data n))).

Definition onNodesChange (changes : list NodeChange) (s : RFState) : RFState :=
  setNodes (xy_applyNodeChanges changes (map clone_node (nodes s))) s.

Definition onEdgesChange (changes : list EdgeChange) (s : RFState) : RFState :=
  setEdges (xy_applyEdgeChanges changes (edges s)) s.

Definition onEdgeMouseEnter (edge : Edge) (s : RFState) : RFState :=
  setEdges (mapEdgeMouseEvent (edges s) (e_id edge) true) s.

Definition onEdgeMouseLeave (edge : Edge) (s : RFState) : RFState :=
  setEdges (mapEdgeMouseEvent (edges s) (e_id edge) false) s.

Definition getNode (id : option string) (s : RFState) : option Node :=
  js_find (λ n, Some (n_id n) === id) (nodes s).

Definition getOperatorTypeFromId (id : option string) (s : RFState) : option string :=
  label ∘ n_data <$> getNode id s.

Definition getParentIdById (id : option string) (s : RFState) : option string :=
  n ← getNode id s; n_parentId n.

Definition getEdge (id : string) (s : RFState) : option Edge := js_find (λ e, e_id e === id) (edges s).

Definition addNode (node : Node) (s : RFState) : RFState := setNodes (nodes s ++ [node]) s.

Definition updateNode (node : Node) (s : RFState) : RFState :=
  setNodes (map (λ n, if n_id n === n_id node then node else n) (nodes s)) s.

Definition findNodeByName (nm : string) (s : RFState) : option Node :=
  js_find (λ n, label (n_data n) === nm) (nodes s).

Definition findUpstreamNodeById (id : option string) (s : RFState) : option Node :=
  let edge := js_find (λ e, Some (target e) === id) (edges s) in
  getNode (source <$> edge) s.

Definition findAgentToolNodeById (id : option string) (s : RFState) : option string :=
  target <$> js_find (λ e, (Some (source e) === id) && (sourceHandle e === HId NodeHandleId.Tool)) (edges s).

Definition hasChildNode (nodeId : string) (s : RFState) : bool := js_some (λ e, source e === nodeId) (edges s).

Definition selectNodeIds (nodeIds : list string) (s : RFState) : RFState :=
  setNodes (map (λ n, node_with_selected n (js_includes nodeIds (n_id n))) (nodes s)) s.

Definition deleteEdgesBySourceAndSourceHandle (src : string) (handle_ : handle) (s : RFState) : RFState :=
  setEdges (js_filter (λ e, negb ((source e === src) && (sourceHandle e === handle_))) (edges s)) s.

(** ** Forms *)

(** [updateNodeForm]: an empty path merges [values] into the form, a path
    sets one place of it. *)
Definition update_form (f : val) (values : val) (path : list path_key) : val :=
  let nextForm := obj_assign [] (obj_of_val f) in
  match path with
  | [] => VObj (obj_assign nextForm (obj_of_val values))
  | _ => lo_set (VObj nextForm) path values
  end.

Definition updateNodeForm (nodeId : string) (values : val) (path : list path_key) (s : RFState) : RFState :=
  setNodes (map (λ n,
    if n_id n === nodeId then node_with_form n (update_form (form (n_data n)) values path) else n) (nodes s)) s.

(** [for (const node of state.nodes) if (node.id === id) { ...; break; }] *)
Fixpoint update_first (id : string) (f : Node → Node) (ns : list Node) : list Node :=
  match ns with
  | [] => []
  | n :: ns' => if n_id n === id then f n :: ns' else n :: update_first id f ns'
  end.

Definition replaceNodeForm (nodeId : string) (values : val) (s : RFState) : RFState :=
  if nodeId !== ""
  then setNodes (update_first nodeId (λ n, node_with_form n (lo_cloneDeep values)) (nodes s)) s
  else s.

Definition updateNodeName (id : string) (nm : string) (s : RFState) : RFState :=
  if id !== "" then setNodes (update_first id (λ n, node_with_name n nm) (nodes s)) s else s.

(** [if (idx) lodashSet(nodes, [idx, 'data', 'form', field], value)]: the
    index 0 is falsy, and the index -1 of a missing node is truthy, for which
    [set] writes a property of the array that is not an element. *)
Definition updateMutableNodeFormItem (id : string) (field : string) (value : val) (s : RFState) : RFState :=
  match js_findIndex (λ n, n_id n === id) (nodes s) with
  | None => s
  | Some 0 => s
  | Some idx =>
      setNodes (alter (λ n, node_with_form n (lo_set (form (n_data n)) [PKey field] value)) idx (nodes s)) s
  end.

(** The targets written into a Switch operator's form. *)
Definition switch_targets (src : string) (h : string) (target_ : option string) (isConnecting : bool) (s : RFState)
    : list string :=
  let currentHandleTargets :=
    map target (js_filter (λ e,
      (source e === src) && (sourceHandle e === HId h) &&
      (getOperatorTypeFromId (Some (target e)) s !== Some Operator.Placeholder)) (edges s)) in
  match target_ with
  | Some t =>
      if (t !== "") && negb isConnecting
      then js_filter (λ t', t' !== t) currentHandleTargets
      else currentHandleTargets
  | None => currentHandleTargets
  end.

Definition switch_path (h : string) : option (list path_key) :=
  if h === SwitchElseTo then Some [PKey SwitchElseTo]
  else
    let operatorIndex := getOperatorIndex h in
    if operatorIndex !== ""
    then Some [PKey "conditions"; path_of_num (num_sub (num_of_string operatorIndex) (num_of_Z 1)); PKey "to"]
    else None.

Definition updateSwitchFormData (src : string) (sourceHandle_ : handle) (target_ : option string)
    (isConnecting : bool) (s : RFState) : RFState :=
  match sourceHandle_ with
  | HId h =>
      if h !== "" then
        let targets := switch_targets src h target_ isConnecting s in
        match switch_path h with
        | Some path => updateNodeForm src (VArr (map VStr targets)) path s
        | None => s
        end
      else s
  | _ => s
  end.

Definition updateFormDataOnConnect (connection : Connection) (s : RFState) : RFState :=
  let operatorType := getOperatorTypeFromId (Some (c_source connection)) s in
  if c_source connection !== "" then
    if operatorType === Some Operator.Switch
    then updateSwitchFormData (c_source connection) (c_sourceHandle connection)
           (Some (c_target connection)) true s
    else s
  else s.

Definition onConnect (connection : Connection) (s : RFState) : RFState :=
  updateFormDataOnConnect connection (setEdges (xy_addEdge connection (edges s)) s).

Definition addEdge (connection : Connection) (s : RFState) : RFState :=
  updateFormDataOnConnect connection (setEdges (xy_addEdge connection (edges s)) s).

(** ** Edges of one node *)
Definition same_ends (a b : Edge) : bool :=
  (source b === source a) && (target b === target a) && (sourceHandle b === sourceHandle a).

Definition setEdgesByNodeId (nodeId : string) (currentDownstreamEdges : list Edge) (s : RFState) : RFState :=
  let previousDownstreamEdges := js_filter (λ e, source e === nodeId) (edges s) in
  let isDifferent :=
    (length previousDownstreamEdges !== length currentDownstreamEdges) ||
    negb (js_every (λ a, js_some (λ b, same_ends a b) currentDownstreamEdges) previousDownstreamEdges) ||
    negb (js_every (λ a, js_some (λ b, same_ends a b) previousDownstreamEdges) currentDownstreamEdges) in
  let intersectionDownstreamEdges :=
    lo_intersectionWith previousDownstreamEdges currentDownstreamEdges isEdgeEqual in
  if isDifferent then
    let irrelevantEdges := js_filter (λ e, source e !== nodeId) (edges s) in
    let selfAddedDownstreamEdges :=
      lo_differenceWith currentDownstreamEdges intersectionDownstreamEdges isEdgeEqual in
    setEdges (irrelevantEdges ++ intersectionDownstreamEdges ++ selfAddedDownstreamEdges) s
  else s.

(** ** Deletion *)
Definition deleteEdge (s : RFState) : RFState :=
  setEdges (js_filter (λ e, js_every (λ x, x !== e_id e) (selectedEdgeIds s)) (edges s)) s.

Definition deleteEdgeById (id : string) (s : RFState) : RFState :=
  let currentEdge := js_find (λ e, e_id e === id) (edges s) in
  let s' :=
    match currentEdge with
    | Some e =>
        if getOperatorTypeFromId (Some (source e)) s === Some Operator.Switch
        then updateSwitchFormData (source e) (sourceHandle e) (Some (target e)) false s
        else s
    | None => s
    end in
  setEdges (js_filter (λ e, e_id e !== id) (edges s)) s'.

(** [None] is an exhausted recursion of the downstream search. *)
Definition deleteAgentDownstreamNodesById (fuel : nat) (id : string) (s : RFState) : option RFState :=
  '(downstreamAgentAndToolNodeIds, downstreamAgentAndToolEdges) ←
    deleteAllDownstreamAgentsAndTool (edges s) fuel id;
  Some (setEdges
    (js_filter (λ e, (source e !== id) && (target e !== id) &&
                     negb (js_some (λ x, e_id x === e_id e) downstreamAgentAndToolEdges)) (edges s))
    (setNodes
      (js_filter (λ n, negb (js_some (λ x, x === n_id n) downstreamAgentAndToolNodeIds) && (n_id n !== id))
         (nodes s)) s)).

Definition deleteNodeById (fuel : nat) (id : string) (s : RFState) : option RFState :=
  if getOperatorTypeFromId (Some id) s === Some Operator.Agent
  then deleteAgentDownstreamNodesById fuel id s
  else Some (setEdges (js_filter (λ e, target e !== id) (js_filter (λ e, source e !== id) (edges s)))
               (setNodes (js_filter (λ n, n_id n !== id) (nodes s)) s)).

Definition deleteAgentToolNodeById (fuel : nat) (id : string) (s : RFState) : option RFState :=
  match js_find (λ e, (source e === id) && (sourceHandle e === HId NodeHandleId.Tool)) (edges s) with
  | Some edge => deleteNodeById fuel (target edge) (deleteEdgeById (e_id edge) s)
  | None => Some s
  end.

Definition deleteIterationNodeById (id : string) (s : RFState) : RFState :=
  let children := js_filter (λ n, n_parentId n === Some id) (nodes s) in
  setEdges
    (js_filter (λ e, (source e !== id) && (target e !== id) &&
       negb (js_some (λ child, (source e === n_id child) && (target e === n_id child)) children)) (edges s))
    (setNodes (js_filter (λ n, (n_id n !== id) && (n_parentId n !== Some id)) (nodes s)) s).

(** ** Duplication

    [humanId] is the stream of the names human-id returns, [k] the number of
    calls made so far. *)
Section duplicate.
Variable humanId : nat → string.

Definition generateNodeName (nm : string) (s : RFState) : string :=
  generateNodeNamesWithIncreasingIndex nm (nodes s).

(** [{ ...(node || {}), data, ...fields }] *)
Definition spread_node (node : option Node) (d : BaseNodeData) (f : DuplicateFields)
    (position : XYPosition) (parentId : option string) : Node :=
  {| n_id := d_id f; n_type := n ← node; n_type n; n_position := position; n_data := d;
     n_parentId := parentId; n_extent := n ← node; n_extent n; n_width := n ← node; n_width n;
     n_height := n ← node; n_height n; n_selected := Some false; n_dragging := Some false;
     n_draggable := n ← node; n_draggable n; n_dragHandle := d_dragHandle f |}.

Definition duplicateIterationNode (k : nat) (id : string) (nm : string) (s : RFState) : RFState * nat :=
  let node := getNode (Some id) s in
  let f := generateDuplicateNode (humanId k) (n_position <$> node) (label ∘ n_data <$> node) in
  let iterationNode :=
    spread_node node
      {| label := default Operator.Iteration (label ∘ n_data <$> node);
         name := generateNodeName nm s;
         form := default (VObj []) (form ∘ n_data <$> node) |} f (d_position f) (n ← node; n_parentId n) in
  let members := js_filter (λ n, n_parentId n === (n_id <$> node)) (nodes s) in
  let children := imap (λ i c,
    let fc := generateDuplicateNode (humanId (S k + i)) (Some (n_position c)) (Some (label (n_data c))) in
    let d := duplicateNodeForm (Some (n_data c)) in
    spread_node (Some c)
      {| label := label d; name := generateNodeName (name (n_data c)) s; form := form d |}
      fc (n_position c) (Some (n_id iterationNode))) members in
  (setNodes (nodes s ++ [iterationNode] ++ children) s, S k + length members).

Definition duplicateNode (k : nat) (id : string) (nm : string) (s : RFState) : RFState * nat :=
  let node := getNode (Some id) s in
  if (label ∘ n_data <$> node) === Some Operator.Iteration then duplicateIterationNode k id nm s
  else
    let f := generateDuplicateNode (humanId k) (n_position <$> node) (label ∘ n_data <$> node) in
    let d := duplicateNodeForm (n_data <$> node) in
    (addNode (spread_node node
       {| label := label d; name := generateNodeName nm s; form := form d |}
       f (d_position f) (n ← node; n_parentId n)) s, S k).

(** ** Agent tools *)

(** [t.id || t.component_name]; reading a property of [undefined] or [null]
    throws. *)
Definition tool_key (t : val) : option val :=
  if nullish t then None else Some (js_or (prop "id" t) (prop "component_name" t)).

(** [nodes.filter(Agent).flatMap((n) => n?.data?.form?.tools)] *)
Definition getAllAgentTools (s : RFState) : list val :=
  mjoin (map (λ n, match prop "tools" (form (n_data n)) with VArr l => l | v => [v] end)
    (js_filter (λ n, label (n_data n) === Operator.Agent) (nodes s))).

(** [tools.find((t) => (t.id || t.component_name) === id)] *)
Fixpoint find_tool (id : option string) (tools : list val) : option (option val) :=
  match tools with
  | [] => Some None
  | t :: tools' =>
      k ← tool_key t;
      if k === of_ostr id then Some (Some t) else find_tool id tools'
  end.

Fixpoint find_tool_index (id : option string) (tools : list val) (i : Z) : option Z :=
  match tools with
  | [] => Some (-1)%Z
  | t :: tools' =>
      k ← tool_key t;
      if k === of_ostr id then Some i else find_tool_index id tools' (i + 1)%Z
  end.

Inductive NodeRef := RefNone | RefId (id : string) | RefNode (n : Node).

(** A value whose methods are called must be an array. *)
Definition array_of (v : val) : option (list val) := match v with VArr l => Some l | _ => None end.

Definition getAgentToolById (id : option string) (nodeOrNodeId : NodeRef) (s : RFState) : option (option val) :=
  match nodeOrNodeId with
  | RefNone => find_tool id (getAllAgentTools s)
  | RefId nid => tools ← array_of (getAgentNodeTools (getNode (Some nid) s)); find_tool id tools
  | RefNode n => tools ← array_of (getAgentNodeTools (Some n)); find_tool id tools
  end.

Definition updateAgentToolById (nodeOrNodeId : NodeRef) (id : option string) (value : option obj) (s : RFState)
    : option RFState :=
  let agentNode :=
    match nodeOrNodeId with RefNone => None | RefId nid => getNode (Some nid) s | RefNode n => Some n end in
  match agentNode with
  | None => Some s
  | Some n =>
      tools ← array_of (getAgentNodeTools (Some n));
      toolIndex ← find_tool_index id tools 0%Z;
      let previous := lo_getOr (form (n_data n)) [PKey "tools"; PIdx toolIndex] (VObj []) in
      let next := obj_assign (obj_assign [] (obj_of_val previous)) (default [] value) in
      Some (updateNodeForm (n_id n) (VObj next) [PKey "tools"; PIdx toolIndex] s)
  end.

(** [x.name.match(/(\d+)$/)?.[1]], then [-1] for a string that is not a
    number and [Number] of it otherwise: no match is [Number(undefined)]. *)
Definition tool_index (nm : string) : num :=
  let ds := reverse (take_digits (reverse (String.list_ascii_of_string nm))).1 in
  if ds === [] then NNaN else num_of_string (String.string_of_list_ascii ds).

Definition generateAgentToolName (id : string) (nm : string) (s : RFState) : option string :=
  match js_find (λ n, n_id n === id) (nodes s) with
  | None => Some ""
  | Some node =>
      all ← array_of (prop "tools" (form (n_data node)));
      guard (Forall (λ t, nullish t = false) all);;
      let tools := js_filter (λ t, prop "component_name" t === VStr nm) all in
      names ← mapM (λ t, match prop "name" t with VStr s => Some s | _ => None end) tools;
      let lastIndex :=
        if tools === [] then num_of_Z (-1)
        else default (num_of_Z (-1)) (last (js_sort num_gt_cmp (map tool_index names))) in
      Some (nm +:+ "_" +:+ num_to_string (num_add lastIndex (num_of_Z 1)))
  end.

(** The [do ... while] loop of [generateAgentToolId]: [fuel] bounds its
    iterations, and [None] is an exhausted bound. *)
Fixpoint fresh_tool_id (fuel k : nat) (prefix : string) (taken : list val) : option (string * nat) :=
  match fuel with
  | O => None
  | S fuel =>
      let id := prefix +:+ ":" +:+ humanId k in
      if js_includes taken (VStr id) then fresh_tool_id fuel (S k) prefix taken else Some (id, S k)
  end.

Definition generateAgentToolId (fuel k : nat) (prefix : string) (s : RFState) : option (string * nat) :=
  allAgentToolIds ← mapM tool_key (getAllAgentTools s);
  fresh_tool_id fuel k prefix allAgentToolIds.
End duplicate.
End store.
