(* ===== verification/StoreProps.v ===== *)
(** * Correctness of the graph store

    Theorems on the actions of GraphStore.v: the frame of the form updates,
    the agreement of a Switch operator's form with its edges, the
    replacement of a node's outgoing edges, the deletions, the names and
    identifiers the store generates, and the agent tools. *)
From S2P Require Import Prelude JsValue Graph Libs Downstream NodeNames GraphStore.
Open Scope list_scope.
Open Scope nat_scope.
Open Scope js_scope.

Definition node_ids (s : RFState) : list string := map n_id (nodes s).

(** Every edge joins two nodes of the canvas. *)
Definition edges_closed (s : RFState) : Prop :=
  ∀ e, e ∈ edges s → source e ∈ node_ids s ∧ target e ∈ node_ids s.

Lemma elem_of_map {A B} (f : A → B) (l : list A) y : y ∈ map f l ↔ ∃ x, y = f x ∧ x ∈ l.
Proof. change (map f l) with (f <$> l). apply list_elem_of_fmap. Qed.

Lemma js_find_map {A} (f : A → A) (p : A → bool) (l : list A) :
  (∀ x, p (f x) = p x) → js_find p (map f l) = f <$> js_find p l.
Proof.
  intros H. induction l as [|x l IH]; simpl; [done|]. rewrite H. by destruct (p x).
Qed.

Section frame.
Context {L : Lodash} {X : XYFlow}.

Lemma updateNodeForm_edges i v p s : edges (updateNodeForm i v p s) = edges s.
Proof. done. Qed.

Lemma updateNodeForm_ids i v p s : node_ids (updateNodeForm i v p s) = node_ids s.
Proof.
  unfold node_ids, updateNodeForm. simpl. rewrite map_map. apply map_ext. intros n. by case_bool_decide.
Qed.

Lemma updateNodeForm_getNode j i v p s :
  getNode j (updateNodeForm i v p s) =
  (λ n, if n_id n === i then node_with_form n (update_form (form (n_data n)) v p) else n) <$> getNode j s.
Proof.
  unfold getNode, updateNodeForm. simpl. apply js_find_map. intros m. by destruct (n_id m === i).

Qed.

Lemma updateNodeForm_operator j i v p s :
  getOperatorTypeFromId j (updateNodeForm i v p s) = getOperatorTypeFromId j s.
Proof.
  unfold getOperatorTypeFromId. rewrite updateNodeForm_getNode. destruct (getNode j s) as [n|]; simpl; [|done].
  by case_bool_decide.
Qed.

Lemma getNode_Some i n s : getNode (Some i) s = Some n → n_id n = i ∧ n ∈ nodes s.
Proof. unfold getNode. intros [? H]%js_find_Some. reflect_bool. by injection H. Qed.

Lemma getNode_setEdges j es s : getNode j (setEdges es s) = getNode j s.
Proof. done. Qed.

Lemma switch_targets_ext src h t b s s' :
  edges s = edges s' → (∀ j, getOperatorTypeFromId j s = getOperatorTypeFromId j s') →
  switch_targets src h t b s = switch_targets src h t b s'.
Proof.
  intros He Ho. unfold switch_targets. rewrite He.
  rewrite (js_filter_ext _ (λ e, (source e === src) && (sourceHandle e === HId h) &&
    (getOperatorTypeFromId (Some (target e)) s' !== Some Operator.Placeholder))); [done|].
  intros e _. by rewrite Ho.
Qed.

(** The targets a Switch handle's edges lead to, placeholders left aside. *)
Definition handle_targets (src h : string) (s : RFState) : list string := switch_targets src h None true s.

Definition path_ok (p : list path_key) : Prop :=
  Forall (λ k, match k with PIdx i => (0 <= i)%Z | PKey _ => True end) p.

Context {LL : LodashLaws L} {XL : XYFlowLaws X}.

Lemma switch_path_PKey h p : switch_path h = Some p → ∃ k p', p = PKey k :: p'.
Proof. unfold switch_path. repeat case_match; naive_solver. Qed.

(** What [updateSwitchFormData] leaves in the form of the operator. *)
Lemma updateSwitchFormData_form src h t b p n s :
  getNode (Some src) s = Some n → h ≠ "" → switch_path h = Some p → path_ok p →
  ∃ n', getNode (Some src) (updateSwitchFormData src (HId h) t b s) = Some n' ∧
    label (n_data n') = label (n_data n) ∧
    lo_get (form (n_data n')) p = VArr (map VStr (switch_targets src h t b s)).
Proof.
  intros Hn Hh Hp Hok. unfold updateSwitchFormData. rewrite bool_decide_false by done. simpl.
  rewrite Hp, updateNodeForm_getNode, Hn. simpl. apply getNode_Some in Hn as [-> _].
  rewrite bool_decide_true by done. eexists. split; [done|]. split; [done|]. simpl.
  apply switch_path_PKey in Hp as (k & p' & ->). apply get_set_same. by apply Forall_cons in Hok as [_ ?].
Qed.

Lemma updateSwitchFormData_edges src (h : handle) t b s : edges (updateSwitchFormData src h t b s) = edges s.
Proof. unfold updateSwitchFormData. destruct_if; done. Qed.

Lemma updateSwitchFormData_operator j src h t b s :
  getOperatorTypeFromId j (updateSwitchFormData src h t b s) = getOperatorTypeFromId j s.
Proof. unfold updateSwitchFormData. repeat case_match; rewrite ?updateNodeForm_operator; done. Qed.

Lemma updateSwitchFormData_ids src h t b s : node_ids (updateSwitchFormData src h t b s) = node_ids s.
Proof. unfold updateSwitchFormData. repeat case_match; rewrite ?updateNodeForm_ids; done. Qed.

Lemma onConnect_edges c s : edges (onConnect c s) = xy_addEdge c (edges s).
Proof.
  unfold onConnect, updateFormDataOnConnect. repeat case_match; rewrite ?updateSwitchFormData_edges; done.
Qed.

Lemma onConnect_ids c s : node_ids (onConnect c s) = node_ids s.
Proof.
  unfold onConnect, updateFormDataOnConnect. repeat case_match; rewrite ?updateSwitchFormData_ids; done.
Qed.

(** A branch of a Switch operator: one of its cases, counted from 0, or the
    else branch. Its handle on the canvas is named [Case 1], [Case 2], ... or
    [end_cpn_ids]; in the form its targets are at [conditions\[i\].to] or at
    [end_cpn_ids]. *)
Inductive switch_branch := CaseBranch (i : nat) | ElseBranch.

Definition branch_handle (b : switch_branch) : string :=
  match b with CaseBranch i => "Case " +:+ pretty (Z.of_nat i + 1)%Z | ElseBranch => "end_cpn_ids" end.

Definition branch_place (b : switch_branch) : list path_key :=
  match b with
  | CaseBranch i => [PKey "conditions"; PIdx (Z.of_nat i); PKey "to"]
  | ElseBranch => [PKey "end_cpn_ids"]
  end.

Lemma branch_handle_place b :
  branch_handle b ≠ "" ∧ switch_path (branch_handle b) = Some (branch_place b) ∧ path_ok (branch_place b).
Proof.
  destruct b as [i|]; [|repeat split; repeat constructor; done].
  split; [done|]. split; [|repeat constructor; lia]. unfold switch_path.
  rewrite (bool_decide_false (branch_handle (CaseBranch i) = SwitchElseTo)) by done.
  assert (getOperatorIndex (branch_handle (CaseBranch i)) = pretty (Z.of_nat i + 1)%Z) as ->.
  { unfold getOperatorIndex, branch_handle.
    change ("Case " +:+ pretty (Z.of_nat i + 1)%Z) with ("Case" +:+ String (Ascii.ascii_of_nat 32) (pretty (Z.of_nat i + 1)%Z)).
    by rewrite js_split_app, js_split_no_sep by (done || by apply count_char_pretty_sep; [lia|]). }
  destruct (pretty_digits (Z.of_nat i + 1) ltac:(lia)) as (c & ds & Hs & _).
  rewrite (bool_decide_false (pretty (Z.of_nat i + 1)%Z = "")) by (intros He; by rewrite He in Hs). simpl.
  rewrite num_of_string_pretty, num_sub_Z by lia. replace (Z.of_nat i + 1 - 1)%Z with (Z.of_nat i) by lia. done.
Qed.

(** The edges of the branch, those to placeholders left out. *)
Definition branch_edges (src : string) (b : switch_branch) (s : RFState) (es : list Edge) : list Edge :=
  filter (λ e, source e = src ∧ sourceHandle e = HId (branch_handle b) ∧
    (λ m, label (n_data m)) <$> getNode (Some (target e)) s ≠ Some Operator.Placeholder) es.

Lemma switch_targets_branch src b s : switch_targets src (branch_handle b) None true s = target <$> branch_edges src b s (edges s).
Proof.
  unfold switch_targets, branch_edges, js_filter. change (map target) with (fmap (M:=list) target). f_equal.
  apply list_filter_iff. intros e. unfold getOperatorTypeFromId. rewrite Is_true_true, !andb_true_iff, negb_true_iff.
  rewrite !bool_decide_eq_true, bool_decide_eq_false. tauto.
Qed.

Lemma handle_same_id a h : h ≠ "" → handle_same a (HId h) → a = HId h.
Proof. intros Hh [?|[_ Hf]]; [done|]. simpl in Hf. by rewrite bool_decide_false in Hf. Qed.

(** C12: Connecting an edge to a branch of a Switch operator leaves, at the
    place of the form that belongs to the branch ([conditions\[i\].to] for the
    handle [Case i+1], [end_cpn_ids] for the else branch), exactly the targets
    of the edges the canvas then has on that handle, in their order and
    without placeholders; the new target is one of them, unless it is a
    placeholder. *)
Theorem onConnect_switch_sync c b n s :
  getNode (Some (c_source c)) s = Some n → label (n_data n) = Operator.Switch →
  c_source c ≠ "" → c_sourceHandle c = HId (branch_handle b) →
  let s' := onConnect c s in
  (∃ n', getNode (Some (c_source c)) s' = Some n' ∧
    lo_get (form (n_data n')) (branch_place b) = VArr (map VStr (target <$> branch_edges (c_source c) b s (edges s')))) ∧
  (c_target c ≠ "" → (λ m, label (n_data m)) <$> getNode (Some (c_target c)) s ≠ Some Operator.Placeholder →
   c_target c ∈ target <$> branch_edges (c_source c) b s (edges s')).
Proof.
  intros Hn Hl Hc Hh. destruct (branch_handle_place b) as (Hne & Hp & Hok). cbv zeta.
  set (s1 := setEdges (xy_addEdge c (edges s)) s).
  assert (onConnect c s = updateSwitchFormData (c_source c) (HId (branch_handle b)) (Some (c_target c)) true s1) as Heq.
  { assert (getOperatorTypeFromId (Some (c_source c)) s1 = Some Operator.Switch) as Hop.
    { unfold getOperatorTypeFromId. change (getNode (Some (c_source c)) s1) with (getNode (Some (c_source c)) s).
      rewrite Hn. simpl. by rewrite Hl. }
    unfold onConnect, updateFormDataOnConnect. fold s1. rewrite Hop, Hh, bool_decide_false by done. done. }
  split.
  - destruct (updateSwitchFormData_form (c_source c) (branch_handle b) (Some (c_target c)) true (branch_place b) n s1)
      as (n' & Hn' & _ & Hf); [done..|].
    exists n'. rewrite Heq. split; [done|]. rewrite Hf. do 2 f_equal.
    rewrite updateSwitchFormData_edges. change (branch_edges (c_source c) b s) with (branch_edges (c_source c) b s1).
    rewrite <- switch_targets_branch. unfold switch_targets. by rewrite andb_false_r.
  - intros Ht Hno. rewrite onConnect_edges.
    assert (∃ e, e ∈ xy_addEdge c (edges s) ∧ edge_of_connection c e) as (e & He & Hec).
    { destruct (addEdge_cases c (edges s)) as [(e & -> & He & _)|[-> [?|[?|(d & Hd & Hec)]]]]; [|done|done|by exists d].
      exists e. split; [|done]. apply elem_of_app. right. by apply list_elem_of_singleton. }
    destruct Hec as (Hs & Htg & Hsh & _). rewrite Hh in Hsh. apply handle_same_id in Hsh; [|done].
    rewrite <- Htg. apply list_elem_of_fmap_2, list_elem_of_filter. by rewrite Htg.
Qed.

(** deleting an edge of a Switch handle leaves the targets of the
    remaining edges of that handle in the form, when edge identifiers are
    unique and no second edge joins the same handle to the same target. *)
Theorem deleteEdgeById_switch_sync e h p n s :
  e ∈ edges s → NoDup (map e_id (edges s)) →
  getNode (Some (source e)) s = Some n → label (n_data n) = Operator.Switch →
  sourceHandle e = HId h → h ≠ "" → target e ≠ "" → switch_path h = Some p → path_ok p →
  (∀ e', e' ∈ edges s → source e' = source e → sourceHandle e' = HId h → target e' = target e → e' = e) →
  ∃ n', getNode (Some (source e)) (deleteEdgeById (e_id e) s) = Some n' ∧
    lo_get (form (n_data n')) p = VArr (map VStr (handle_targets (source e) h (deleteEdgeById (e_id e) s))).
Proof.
  intros He Hnd Hn Hl Hh Hne Ht Hp Hok Hu.
  assert (∀ e', e' ∈ edges s → e_id e' = e_id e → e' = e) as Hid.
  { intros e' He' Heq. apply list_elem_of_lookup in He as [i Hi], He' as [j Hj].
    assert (j = i) as ->; [|congruence]. eapply (NoDup_lookup (map e_id (edges s))); [done| |].
    - change (map e_id (edges s)) with (e_id <$> edges s). rewrite list_lookup_fmap, Hj. simpl. by rewrite Heq.
    - change (map e_id (edges s)) with (e_id <$> edges s). by rewrite list_lookup_fmap, Hi. }
  assert (js_find (λ d, e_id d === e_id e) (edges s) = Some e) as Hfind.
  { destruct (js_find_is_Some (λ d, e_id d === e_id e) (edges s) e He) as [d Hd]; [by apply bool_decide_eq_true|].
    rewrite Hd. apply js_find_Some in Hd as [Hd ?]. reflect_bool. f_equal. auto. }
  set (s1 := updateSwitchFormData (source e) (HId h) (Some (target e)) false s).
  assert (deleteEdgeById (e_id e) s = setEdges (js_filter (λ d, e_id d !== e_id e) (edges s)) s1) as ->.
  { unfold deleteEdgeById. rewrite Hfind. unfold getOperatorTypeFromId. rewrite Hn. simpl.
    rewrite Hl, bool_decide_true by done. by rewrite Hh. }
  destruct (updateSwitchFormData_form (source e) h (Some (target e)) false p n s) as (n' & Hn' & _ & Hf); [done..|].
  exists n'. rewrite getNode_setEdges. split; [done|]. rewrite Hf. do 2 f_equal.
  unfold handle_targets, switch_targets. rewrite (bool_decide_false (target e = "")) by done. simpl.
  transitivity (map target (js_filter (λ d, target d !== target e) (js_filter (λ d,
    (source d === source e) && (sourceHandle d === HId h) &&
    (getOperatorTypeFromId (Some (target d)) s !== Some Operator.Placeholder)) (edges s)))).
  { clear. generalize (js_filter (λ d, (source d === source e) && (sourceHandle d === HId h) &&
      (getOperatorTypeFromId (Some (target d)) s !== Some Operator.Placeholder)) (edges s)). intros l.
    induction l as [|d l IH]; [done|]. cbn [map]. rewrite !js_filter_cons. case_match; simpl; by rewrite IH. }
  f_equal. rewrite !js_filter_filter. apply js_filter_ext. intros d Hd.
  assert (getOperatorTypeFromId (Some (target d)) (setEdges (js_filter (λ d, e_id d !== e_id e) (edges s)) s1) =
    getOperatorTypeFromId (Some (target d)) s) as -> by apply updateSwitchFormData_operator.
  destruct (bool_decide_reflect (e_id d = e_id e)) as [Heq|Hneq]; simpl.
  - apply Hid in Heq as ->; [|done]. rewrite (bool_decide_true (target e = target e)) by done.
    simpl. by rewrite andb_false_r.
  - destruct (bool_decide_reflect (target d = target e)) as [Htd|]; simpl; [|by rewrite andb_true_r].
    rewrite andb_false_r. symmetry.
    destruct (bool_decide_reflect (source d = source e)) as [Hsd|]; simpl; [|done].
    destruct (bool_decide_reflect (sourceHandle d = HId h)) as [Hhd|]; simpl; [|done].
    exfalso. apply Hneq. f_equal. auto.
Qed.
End frame.

(** ** Replacing the outgoing edges of a node *)
Section downstream_edges.
Context {L : Lodash} {LL : LodashLaws L}.

Lemma isEdgeEqual_true a b :
  isEdgeEqual a b = true ↔ source a = source b ∧ target a = target b ∧ sourceHandle a = sourceHandle b.
Proof. unfold isEdgeEqual. rewrite !andb_true_iff, !bool_decide_eq_true. tauto. Qed.

Lemma isEdgeEqual_sym a b : isEdgeEqual a b = isEdgeEqual b a.
Proof.
  apply eq_true_iff_eq. rewrite !isEdgeEqual_true. naive_solver.
Qed.

Lemma same_ends_true a b : same_ends a b = true ↔ isEdgeEqual b a = true.
Proof. rewrite isEdgeEqual_true. unfold same_ends. rewrite !andb_true_iff, !bool_decide_eq_true. tauto. Qed.

(** [setEdgesByNodeId] makes the outgoing edges of a node the given ones,
    up to the identity of an edge as source, target and source handle: each
    resulting outgoing edge is one of the given, each given one is there, and
    the edges of the other nodes are untouched, in their order. *)
Theorem setEdgesByNodeId_spec nodeId current s :
  (∀ c, c ∈ current → source c = nodeId) →
  let s' := setEdgesByNodeId nodeId current s in
  js_filter (λ e, source e !== nodeId) (edges s') = js_filter (λ e, source e !== nodeId) (edges s) ∧
  (∀ e, e ∈ edges s' → source e = nodeId → ∃ c, c ∈ current ∧ isEdgeEqual e c = true) ∧
  (∀ c, c ∈ current → ∃ e, e ∈ edges s' ∧ isEdgeEqual e c = true) ∧
  nodes s' = nodes s.
Proof.
  intros Hcur. unfold setEdgesByNodeId. set (prev := js_filter (λ e, source e === nodeId) (edges s)).
  assert (∀ e, e ∈ prev ↔ source e = nodeId ∧ e ∈ edges s) as Hprev.
  { intros e. unfold prev. by rewrite elem_of_js_filter, bool_decide_eq_true. }
  destruct (_ || _ || _) eqn:Hd; cbn [edges nodes setEdges].
  - set (inter := lo_intersectionWith prev current isEdgeEqual).
    assert (∀ e, e ∈ inter → e ∈ prev ∧ ∃ c, c ∈ current ∧ isEdgeEqual e c = true) as Hinter
      by (intros e; apply intersectionWith_sub).
    rewrite differenceWith_eq. split; [|split; [|split]]; [| | |done].
    + rewrite !js_filter_app. rewrite js_filter_filter.
      rewrite (js_filter_ext _ (λ e, source e !== nodeId)) by (intros; apply andb_diag).
      assert (∀ l, (∀ e, e ∈ l → source e = nodeId) → js_filter (λ e, source e !== nodeId) l = []) as Hnil.
      { induction l as [|e l IH]; intros Hl; [done|]. rewrite js_filter_cons, bool_decide_true by (apply Hl; set_solver).
        simpl. apply IH. set_solver. }
      rewrite (Hnil inter), (Hnil (js_filter (λ x, negb (js_some (isEdgeEqual x) inter)) current)); [by rewrite app_nil_r| |].
      * intros e [_ He]%elem_of_js_filter. auto.
      * intros e [[? _]%Hprev _]%Hinter. done.
    + intros e. rewrite !elem_of_app, !elem_of_js_filter. intros [[H _]|[H|[_ H]]] Hs; [by reflect_bool| |].
      * by apply Hinter.
      * exists e. split; [done|]. by apply isEdgeEqual_true.
    + intros c Hc. destruct (js_some (isEdgeEqual c) inter) eqn:E.
      * apply js_some_true in E as (e & He & Heq). exists e. rewrite !elem_of_app. rewrite isEdgeEqual_sym. auto.
      * exists c. split; [|by apply isEdgeEqual_true]. rewrite !elem_of_app, !elem_of_js_filter, E. auto.
  - apply orb_false_iff in Hd as [[_ Hpc]%orb_false_iff Hcp]. apply negb_false_iff in Hpc, Hcp.
    rewrite js_every_true in Hpc, Hcp. split; [done|]. split; [|split; [|done]].
    + intros e He Hs. assert (e ∈ prev) as Hp by (by apply Hprev). apply Hpc in Hp.
      apply js_some_true in Hp as (c & ? & Hc%same_ends_true). exists c. rewrite isEdgeEqual_sym. done.
    + intros c Hc. apply Hcp in Hc. apply js_some_true in Hc as (e & He & Heq%same_ends_true).
      exists e. split; [by apply Hprev|done].
Qed.
End downstream_edges.

(** ** Deletion *)
Section deletion.
Context {L : Lodash} {X : XYFlow}.

Lemma getOperatorTypeFromId_Some i s lbl :
  getOperatorTypeFromId (Some i) s = Some lbl → i ∈ node_ids s.
Proof.
  unfold getOperatorTypeFromId. intros (n & [<- Hn]%getNode_Some & _)%fmap_Some.
  apply elem_of_map. eauto.
Qed.

(** The nodes an agent is deleted with: those its agent and tool handles lead
    to, in any number of steps. *)
Definition agent_reach (s : RFState) : string → string → Prop := tc (estep (edges s) is_agent_or_tool_edge).

Lemma deleteAgentDownstream_spec fuel i s s' :
  deleteAgentDownstreamNodesById fuel i s = Some s' →
  (∀ n, n ∈ nodes s' ↔ n ∈ nodes s ∧ n_id n ≠ i ∧ ¬ agent_reach s i (n_id n)) ∧
  (∀ e, e ∈ edges s' → e ∈ edges s ∧ source e ≠ i ∧ target e ≠ i).
Proof.
  unfold deleteAgentDownstreamNodesById, deleteAllDownstreamAgentsAndTool.
  destruct (filterAllDownstreamAgentAndToolNodeIds (edges s) fuel [i]) as [ids|] eqn:Hids; [|done].
  intros [= <-]. apply filterAll_spec in Hids as [_ Hids]. cbn [nodes edges setNodes setEdges]. split.
  - intros n. rewrite elem_of_js_filter, andb_true_iff, !negb_true_iff, js_some_false, bool_decide_eq_false.
    split.
    + intros [[Hno Hi] Hn]. split; [done|]. split; [done|]. intros Hr.
      assert (n_id n ∈ ids) as Hin by (apply Hids; exists i; split; [set_solver|done]).
      apply Hno in Hin. by reflect_bool.
    + intros (Hn & Hi & Hr). split; [|done]. split; [|done]. intros y Hy. apply bool_decide_eq_false. intros ->.
      apply Hids in Hy as (m & ->%list_elem_of_singleton & Hm). done.
  - intros e. rewrite elem_of_js_filter. intros [Hf He]. reflect_bool. done.
Qed.

Definition del_fuel (s : RFState) : nat := S (S (length (edges s))).

Lemma deleteAgentDownstream_terminates i s :
  (∀ a, rtc (estep (edges s) is_agent_or_tool_edge) i a → ¬ agent_reach s a a) →
  is_Some (deleteAgentDownstreamNodesById (del_fuel s) i s).
Proof.
  intros Hac. unfold deleteAgentDownstreamNodesById, deleteAllDownstreamAgentsAndTool.
  destruct (filterAll_terminates (edges s) is_agent_or_tool_edge (del_fuel s) [i]) as [ids Hids].
  { intros n a ->%list_elem_of_singleton. apply Hac. }
  { unfold del_fuel. lia. }
  unfold filterAllDownstreamAgentAndToolNodeIds. by rewrite Hids.
Qed.

Lemma deleteNodeById_plain fuel i s :
  getOperatorTypeFromId (Some i) s ≠ Some Operator.Agent →
  deleteNodeById fuel i s = Some (setEdges (js_filter (λ e, (source e !== i) && (target e !== i)) (edges s))
    (setNodes (js_filter (λ n, n_id n !== i) (nodes s)) s)).
Proof.
  intros Hl. unfold deleteNodeById. rewrite bool_decide_false by done. by rewrite js_filter_filter.
Qed.

Lemma deleteNodeById_closed fuel i s :
  getOperatorTypeFromId (Some i) s ≠ Some Operator.Agent → edges_closed s →
  ∃ s', deleteNodeById fuel i s = Some s' ∧ edges_closed s'.
Proof.
  intros Hl Hc. eexists. split; [by apply deleteNodeById_plain|].
  assert (∀ j, j ∈ node_ids s → j ≠ i →
    j ∈ map n_id (js_filter (λ n, n_id n !== i) (nodes s))) as Hin.
  { intros j [n [-> Hn]]%elem_of_map Hj. apply elem_of_map. exists n. split; [done|].
    apply elem_of_js_filter. split; [|done]. by apply negb_true_iff, bool_decide_eq_false. }
  intros e. cbn [edges setEdges]. rewrite elem_of_js_filter. intros [Hf He]. reflect_bool.
  destruct (Hc e He). split; by apply Hin.
Qed.

(** C19: deleting a node that is not an agent removes that node and the edges
    at it, nothing else, and leaves no edge without its nodes if there was
    none before. *)
Theorem deleteNodeById_exact fuel i s :
  getOperatorTypeFromId (Some i) s ≠ Some Operator.Agent → edges_closed s →
  ∃ s', deleteNodeById fuel i s = Some s' ∧ edges_closed s' ∧
    (∀ n, n ∈ nodes s' ↔ n ∈ nodes s ∧ n_id n ≠ i) ∧
    (∀ e, e ∈ edges s' ↔ e ∈ edges s ∧ source e ≠ i ∧ target e ≠ i).
Proof.
  intros Hl Hc. destruct (deleteNodeById_closed fuel i s Hl Hc) as (s' & Hs' & Hcl). exists s'. split; [done|].
  split; [done|]. rewrite deleteNodeById_plain in Hs' by done. injection Hs' as <-. split.
  - intros n. cbn [nodes setEdges setNodes]. rewrite elem_of_js_filter, negb_true_iff, bool_decide_eq_false. tauto.
  - intros e. cbn [edges setEdges setNodes].
    rewrite elem_of_js_filter, andb_true_iff, !negb_true_iff, !bool_decide_eq_false. tauto.
Qed.

(** C13: deleting an agent ends exactly when its agent and tool edges have no
    cycle below it, and then the nodes that are left are those it does not
    reach by them. *)
Theorem deleteNodeById_agent i s :
  getOperatorTypeFromId (Some i) s = Some Operator.Agent →
  ((∃ fuel s', deleteNodeById fuel i s = Some s') ↔
     ∀ a, rtc (estep (edges s) is_agent_or_tool_edge) i a → ¬ agent_reach s a a) ∧
  ∀ fuel s', deleteNodeById fuel i s = Some s' →
    ∀ n, n ∈ nodes s' ↔ n ∈ nodes s ∧ n_id n ≠ i ∧ ¬ agent_reach s i (n_id n).
Proof.
  intros Hl. assert (∀ fuel, deleteNodeById fuel i s = deleteAgentDownstreamNodesById fuel i s) as Heq.
  { intros fuel. unfold deleteNodeById. by rewrite bool_decide_true. }
  split; [split|].
  - intros (fuel & s' & Hs) a Ha Hcyc. rewrite Heq in Hs.
    unfold deleteAgentDownstreamNodesById, deleteAllDownstreamAgentsAndTool,
      filterAllDownstreamAgentAndToolNodeIds in Hs.
    rewrite (filterAll_diverges _ _ _ _ i a) in Hs; [done|set_solver|done|done].
  - intros Hac. destruct (deleteAgentDownstream_terminates i s) as [s' Hs]; [done|].
    exists (del_fuel s), s'. by rewrite Heq.
  - intros fuel s' Hs. rewrite Heq in Hs. by apply deleteAgentDownstream_spec in Hs as [? _].
Qed.

(** The edge touches a node the deletion of the agent [i] removes. *)
Definition at_reached (s : RFState) (i : string) (e : Edge) : Prop :=
  agent_reach s i (source e) ∨ agent_reach s i (target e).

(** The edges of the removed sub-agents and tools are not all removed: of
    two edges with different identifiers at the removed nodes, neither of them
    at the deleted agent itself, one survives. *)
Theorem deleteAgent_leaves_edge fuel i s s' e1 e2 :
  deleteAgentDownstreamNodesById fuel i s = Some s' →
  e1 ∈ edges s → e2 ∈ edges s → e_id e1 ≠ e_id e2 →
  at_reached s i e1 → at_reached s i e2 →
  source e1 ≠ i → target e1 ≠ i → source e2 ≠ i → target e2 ≠ i →
  ∃ e, e ∈ edges s' ∧ at_reached s i e.
Proof.
  unfold deleteAgentDownstreamNodesById, deleteAllDownstreamAgentsAndTool.
  destruct (filterAllDownstreamAgentAndToolNodeIds (edges s) fuel [i]) as [ids|] eqn:Hids; [|done].
  intros [= <-] H1 H2 Hne R1 R2 S1 T1 S2 T2. cbn [edges setEdges].
  set (deleted := λ e, js_some (λ x, e_id x === e_id e) (downstreamEdges (edges s) ids)).
  assert (deleted e1 = false ∨ deleted e2 = false) as [Hd|Hd].
  { destruct (deleted e1) eqn:D1; [|by left]. destruct (deleted e2) eqn:D2; [|by right]. exfalso.
    apply js_some_true in D1 as (d1 & D1 & E1), D2 as (d2 & D2 & E2). reflect_bool.
    apply Hne. rewrite <-E1, <-E2. by eapply downstreamEdges_same_id. }
  - exists e1. split; [|done]. apply elem_of_js_filter. fold (deleted e1). rewrite Hd, !bool_decide_false by done. done.
  - exists e2. split; [|done]. apply elem_of_js_filter. fold (deleted e2). rewrite Hd, !bool_decide_false by done. done.
Qed.

(** Deleting an iteration removes it and its children, and every edge at
    the iteration node itself; an edge that joins two different children
    survives the nodes it joins. *)
Theorem deleteIteration_spec i s :
  let s' := deleteIterationNodeById i s in
  (∀ n, n ∈ nodes s' ↔ n ∈ nodes s ∧ n_id n ≠ i ∧ n_parentId n ≠ Some i) ∧
  (∀ e, e ∈ edges s' → source e ≠ i ∧ target e ≠ i) ∧
  (∀ e, e ∈ edges s → source e ≠ i → target e ≠ i → source e ≠ target e → e ∈ edges s').
Proof.
  unfold deleteIterationNodeById. cbn [nodes edges setNodes setEdges]. split; [|split].
  - intros n. rewrite elem_of_js_filter, andb_true_iff, !negb_true_iff, !bool_decide_eq_false. tauto.
  - intros e [H _]%elem_of_js_filter. reflect_bool. done.
  - intros e He Hs Ht Hst. apply elem_of_js_filter. split; [|done].
    rewrite !bool_decide_false by done. apply negb_true_iff, js_some_false. intros c _.
    apply andb_false_iff. rewrite !bool_decide_eq_false. destruct (decide (source e = n_id c)); [right|by left].
    congruence.
Qed.

(** [updateMutableNodeFormItem] never changes the form of the first node
    of the canvas. *)
Lemma updateMutable_first n ns field v s :
  nodes s = n :: ns → updateMutableNodeFormItem (n_id n) field v s = s.
Proof.
  intros Hn. unfold updateMutableNodeFormItem. rewrite Hn. simpl. by rewrite bool_decide_true.
Qed.
End deletion.

(** ** Names and identifiers *)
Section naming.
Context {L : Lodash} (humanId : nat → string).

Lemma spread_node_id node d f pos par : n_id (spread_node node d f pos par) = d_id f.
Proof. done. Qed.

(** duplicating a node appends one node, whose identifier is the operator
    and the generated human-readable word, and whose name is not in use: names
    that were unique stay unique. *)
Theorem duplicateNode_unique_name k i nm s :
  count_char underscore nm = 0 → NoDup (node_names (nodes s)) → names_canonical nm (nodes s) →
  getOperatorTypeFromId (Some i) s ≠ Some Operator.Iteration →
  let '(s', k') := duplicateNode humanId k i nm s in
  k' = S k ∧ NoDup (node_names (nodes s')) ∧ names_canonical nm (nodes s') ∧ edges s' = edges s ∧
  ∃ n, nodes s' = nodes s ++ [n] ∧
    n_id n = label_text (getOperatorTypeFromId (Some i) s) +:+ ":" +:+ humanId k.
Proof.
  intros Hnm Hnd Hcan Hl. destruct (generate_fresh nm (nodes s) Hnm Hnd Hcan) as [Hf (z & Hz & Heq)].
  unfold duplicateNode. unfold getOperatorTypeFromId in Hl. rewrite bool_decide_false by done.
  split; [done|]. unfold node_names. cbn [nodes addNode setNodes]. split; [|split; [|split; [done|eexists; split; done]]].
  - rewrite map_app. cbn [map]. apply NoDup_app. split; [done|]. split; [|apply NoDup_singleton].
    intros x Hx ->%list_elem_of_singleton. by apply Hf.
  - intros x. unfold node_names. rewrite map_app, elem_of_app. intros [Hx| ->%list_elem_of_singleton] Ht; [by apply Hcan|].
    cbn [n_data spread_node name]. unfold generateNodeName. eauto.
Qed.

(** The copies of the children of an iteration. *)
Lemma duplicateIteration_child_name k i nm s c :
  getNode (Some i) s ≠ None → c ∈ nodes s → n_parentId c = Some i →
  count_char underscore (name (n_data c)) ≠ 0 →
  name (n_data c) +:+ "_0" ∈ drop (length (nodes s)) (node_names (nodes (duplicateIterationNode humanId k i nm s).1)).
Proof.
  intros Hi Hc Hp Hu. destruct (getNode (Some i) s) as [n|] eqn:Hn; [|done].
  pose proof (getNode_Some _ _ _ Hn) as [Hni _].
  unfold duplicateIterationNode. rewrite Hn. cbn [fst nodes setNodes].
  unfold node_names. rewrite map_app, drop_app_length' by by rewrite length_map.
  apply elem_of_map.
  assert (c ∈ js_filter (λ n0, n_parentId n0 === n_id <$> Some n) (nodes s)) as Hin.
  { apply elem_of_js_filter. split; [|done]. apply bool_decide_eq_true. simpl. by rewrite Hp, Hni. }
  apply list_elem_of_lookup in Hin as [j Hj].
  eexists. split; [|apply elem_of_cons; right; eapply list_elem_of_lookup_2; rewrite list_lookup_imap, Hj; done].
  cbn [n_data spread_node name]. symmetry. by apply generate_underscore.
Qed.

Lemma duplicateIteration_nodes k i nm s :
  ∃ ns, nodes (duplicateIterationNode humanId k i nm s).1 = nodes s ++ ns.
Proof. unfold duplicateIterationNode. eexists. done. Qed.

Lemma getNode_app i s s' ns :
  nodes s' = nodes s ++ ns → getNode i s ≠ None → getNode i s' ≠ None.
Proof.
  intros Hn Hi Hno. apply Hi. unfold getNode in *. rewrite Hn in Hno.
  rewrite js_find_None in *. set_solver.
Qed.

(** Duplicating an iteration twice gives two nodes of the same name as
    soon as a child's name has an underscore, which every name the canvas
    gives has. *)
Lemma duplicateIteration_collision k i nm s c :
  getNode (Some i) s ≠ None → c ∈ nodes s → n_parentId c = Some i →
  count_char underscore (name (n_data c)) ≠ 0 →
  let '(s1, k1) := duplicateIterationNode humanId k i nm s in
  let '(s2, _) := duplicateIterationNode humanId k1 i nm s1 in
  ¬ NoDup (node_names (nodes s2)).
Proof.
  intros Hi Hc Hp Hu. destruct (duplicateIterationNode humanId k i nm s) as [s1 k1] eqn:E1.
  destruct (duplicateIterationNode humanId k1 i nm s1) as [s2 k2] eqn:E2.
  destruct (duplicateIteration_nodes k i nm s) as [ns1 Hns1], (duplicateIteration_nodes k1 i nm s1) as [ns2 Hns2].
  pose proof (duplicateIteration_child_name k i nm s c Hi Hc Hp Hu) as H1.
  rewrite E1 in H1, Hns1. rewrite E2 in Hns2. simpl in *.
  pose proof (duplicateIteration_child_name k1 i nm s1 c) as H2. rewrite E2 in H2. simpl in H2.
  specialize (H2 (getNode_app _ _ _ _ Hns1 Hi) ltac:(rewrite Hns1; set_solver) Hp Hu).
  intros Hnd. rewrite <-(take_drop (length (nodes s1)) (node_names (nodes s2))) in Hnd.
  apply NoDup_app in Hnd as (_ & Hnd & _). eapply Hnd; [|apply H2].
  unfold node_names. rewrite Hns2, map_app, take_app_length' by by rewrite length_map.
  apply (sublist_subseteq (drop (length (nodes s)) (map (λ n, name (n_data n)) (nodes s1)))); [|done].
  apply sublist_drop.
Qed.

(** ** Agent tools *)
Lemma fresh_tool_id_spec fuel k prefix taken id k' :
  fresh_tool_id humanId fuel k prefix taken = Some (id, k') →
  (VStr id ∉ taken) ∧ ∃ j, k ≤ j ∧ k' = S j ∧ id = prefix +:+ ":" +:+ humanId j.
Proof.
  revert k. induction fuel as [|fuel IH]; intros k; simpl; [done|].
  destruct (js_includes taken _) eqn:E.
  - intros H. apply IH in H as (? & j & ? & ? & ?). split; [done|]. exists j. split; [lia|done].
  - intros [= <- <-]. split; [|by exists k]. apply not_true_iff_false in E.
    by rewrite js_includes_true in E.
Qed.

Lemma string_app_inj p a b : p +:+ a = p +:+ b → a = b.
Proof. induction p as [|c p IH]; simpl; [done|]. intros [= H]. auto. Qed.

Lemma fresh_tool_id_None fuel k prefix taken :
  fresh_tool_id humanId fuel k prefix taken = None →
  ∀ j, k ≤ j < k + fuel → VStr (prefix +:+ ":" +:+ humanId j) ∈ taken.
Proof.
  revert k. induction fuel as [|fuel IH]; intros k; simpl; [intros; lia|].
  destruct (js_includes taken _) eqn:E; [|done]. intros H j Hj.
  destruct (decide (j = k)) as [->|]; [by apply js_includes_true|]. apply (IH (S k)); [done|lia].
Qed.

Lemma fresh_tool_id_terminates fuel k prefix taken :
  Inj (=) (=) humanId → length taken < fuel → is_Some (fresh_tool_id humanId fuel k prefix taken).
Proof.
  intros Hinj Hf. destruct (fresh_tool_id humanId fuel k prefix taken) eqn:E; [done|].
  pose proof (fresh_tool_id_None _ _ _ _ E) as Hin. exfalso.
  assert (length (map (λ j, VStr (prefix +:+ ":" +:+ humanId j)) (seq k fuel)) ≤ length taken) as Hlen.
  { apply submseteq_length, NoDup_submseteq.
    - apply (NoDup_fmap_2_strong (λ j, VStr (prefix +:+ ":" +:+ humanId j))); [|apply NoDup_seq].
      intros a b _ _ [= H]. apply string_app_inj in H. simplify_eq. done.
    - intros x (j & -> & Hj%elem_of_seq)%elem_of_map. by apply Hin. }
  rewrite length_map, length_seq in Hlen. lia.
Qed.

(** The loop that generates an agent tool's identifier ends after at
    most one draw more than there are tools, when the word generator does not
    repeat, and the identifier is then that of no tool of any agent. *)
Theorem generateAgentToolId_fresh k prefix s ids :
  Inj (=) (=) humanId → mapM tool_key (getAllAgentTools s) = Some ids →
  ∃ id k', generateAgentToolId humanId (S (length ids)) k prefix s = Some (id, k') ∧
    (VStr id ∉ ids) ∧ ∀ fuel r, generateAgentToolId humanId fuel k prefix s = Some r → VStr r.1 ∉ ids.
Proof.
  intros Hinj Hids. unfold generateAgentToolId. rewrite Hids. simpl mbind.
  destruct (fresh_tool_id_terminates (S (length ids)) k prefix ids Hinj ltac:(lia)) as [[id k'] Hr].
  exists id, k'. split; [done|]. split; [by apply fresh_tool_id_spec in Hr as [? _]|].
  intros fuel [id' k2] H'. by apply fresh_tool_id_spec in H' as [? _].
Qed.
End naming.

Section tools.
Context {L : Lodash} {LL : LodashLaws L}.

Lemma find_tool_index_spec id tools z i :
  find_tool_index id tools z = Some i →
  (i = (-1)%Z ∧ ∀ t, t ∈ tools → tool_key t ≠ Some (of_ostr id)) ∨
  ∃ j t, i = (z + Z.of_nat j)%Z ∧ tools !! j = Some t ∧ tool_key t = Some (of_ostr id) ∧
    ∀ j' t', j' < j → tools !! j' = Some t' → tool_key t' ≠ Some (of_ostr id) ∧ is_Some (tool_key t').
Proof.
  revert z. induction tools as [|t tools IH]; intros z; simpl.
  { intros [= <-]. left. split; [done|]. by intros ? ?%elem_of_nil. }
  destruct (tool_key t) as [k|] eqn:Ek; simpl; [|done].
  destruct (bool_decide_reflect (k = of_ostr id)) as [->|Hk].
  - intros [= <-]. right. exists 0, t. split; [lia|]. split; [done|]. split; [done|]. intros; lia.
  - intros H. apply IH in H as [[-> H]|(j & t' & -> & Hj & Ht & Hlt)].
    + left. split; [done|]. intros t' [->|?]%elem_of_cons; [congruence|auto].
    + right. exists (S j), t'. split; [lia|]. split; [done|]. split; [done|].
      intros [|j'] t'' ? Hj'; simplify_eq/=; [split; [congruence|eauto]|]. eapply Hlt; [|done]. lia.
Qed.

Lemma find_tool_at id tools j t :
  tools !! j = Some t → tool_key t = Some (of_ostr id) →
  (∀ j' t', j' < j → tools !! j' = Some t' → tool_key t' ≠ Some (of_ostr id) ∧ is_Some (tool_key t')) →
  find_tool id tools = Some (Some t).
Proof.
  revert j. induction tools as [|t0 tools IH]; intros j Hj Ht Hlt; [done|]. simpl.
  destruct j as [|j]; simplify_eq/=.
  - rewrite Ht. simpl. by rewrite bool_decide_true.
  - destruct (Hlt 0 t0) as [Hne [k Hk]]; [lia|done|]. rewrite Hk. simpl.
    rewrite bool_decide_false by congruence. eapply IH; [done|done|].
    intros j' t' ? ?. apply (Hlt (S j')); [lia|done].
Qed.

Lemma getAgentNodeTools_arr n o l :
  form (n_data n) = VObj o → obj_get "tools" o = VArr l → getAgentNodeTools (Some n) = VArr l.
Proof. intros Hf Ho. simpl. unfold lo_getOr. by rewrite Hf, get_key, get_nil, Ho. Qed.

(** updating a tool of an agent by its identifier merges the value into
    the tool that reading by that identifier finds, and leaves the agent's
    other tools, the edges and the other nodes as they were. *)
Theorem updateAgentToolById_roundtrip nid id value n o l j t s :
  getNode (Some nid) s = Some n → form (n_data n) = VObj o → obj_wf o → obj_get "tools" o = VArr l →
  l !! j = Some t → find_tool_index id l 0%Z = Some (Z.of_nat j) →
  let next := VObj (obj_assign (obj_assign [] (obj_of_val t)) value) in
  tool_key next = Some (of_ostr id) →
  ∃ s', updateAgentToolById (RefId nid) id (Some value) s = Some s' ∧
    getAgentToolById id (RefId nid) s' = Some (Some next) ∧
    array_of (getAgentNodeTools (getNode (Some nid) s')) = Some (<[j := next]> l) ∧
    edges s' = edges s ∧ node_ids s' = node_ids s ∧
    ∀ i, i ≠ nid → getNode (Some i) s' = getNode (Some i) s.
Proof.
  intros Hn Hf Hwf Ho Hj Hi next Hk. pose proof (getNode_Some _ _ _ Hn) as [Hnid _].
  pose proof (lookup_lt_Some _ _ _ Hj) as Hlt.
  set (upd := updateNodeForm nid next [PKey "tools"; PIdx (Z.of_nat j)] s).
  assert (updateAgentToolById (RefId nid) id (Some value) s = Some upd) as Hu.
  { unfold updateAgentToolById. rewrite Hn, (getAgentNodeTools_arr n o l) by done. simpl. rewrite Hi. simpl.
    unfold upd, lo_getOr. rewrite Hf, (get_elem o "tools" l j []), Hj, get_nil, Hnid by done. simpl. unfold next.
    destruct t; done. }
  exists upd. split; [done|].
  assert (getAgentNodeTools (getNode (Some nid) upd) = VArr (<[j := next]> l)) as Htools.
  { unfold upd. rewrite updateNodeForm_getNode, Hn. simpl. rewrite bool_decide_true by done.
    unfold lo_getOr. simpl. unfold update_form. rewrite Hf. simpl.
    rewrite (get_set_elem _ "tools" l); [done| |done].
    unfold obj_get. rewrite obj_assign_lookup by done. unfold obj_get in Ho.
    by destruct (obj_lookup "tools" o). }
  split; [|split; [by rewrite Htools|split; [done|split; [apply updateNodeForm_ids|]]]].
  - unfold getAgentToolById. rewrite Htools. simpl.
    apply find_tool_index_spec in Hi as [[? _]|(j' & t' & ? & Hj' & Ht' & Hbefore)]; [lia|].
    assert (j' = j) as -> by lia.
    apply (find_tool_at _ _ j); [by apply list_lookup_insert_eq|done|].
    intros i t'' ? Hi'. rewrite list_lookup_insert_ne in Hi' by lia. eauto.
  - intros i Hne. unfold upd. rewrite updateNodeForm_getNode. destruct (getNode (Some i) s) as [m|] eqn:Hm; [|done].
    apply getNode_Some in Hm as [Hm _]. simpl. rewrite bool_decide_false; [done|congruence].
Qed.
End tools.

(** ** A concrete canvas

    A Switch with two branches, an agent with a sub-agent that has a tool, and
    an iteration with a named child; the hypotheses of the theorems hold
    there. *)
Module Canvas.
Definition mk_node (i lbl nm : string) (parent : option string) (f : val) : Node :=
  {| n_id := i; n_type := None; n_position := {| x := num_of_Z 0; y := num_of_Z 0 |};
     n_data := {| label := lbl; name := nm; form := f |}; n_parentId := parent; n_extent := None;
     n_width := None; n_height := None; n_selected := None; n_dragging := None; n_draggable := None;
     n_dragHandle := None |}.

Definition mk_edge (i a b : string) (h : handle) : Edge :=
  {| e_id := i; source := a; target := b; sourceHandle := h; targetHandle := HId NodeHandleId.End_; e_data := [] |}.

Definition switch_node : Node := mk_node "Switch:a" Operator.Switch "Switch_0" None (VObj []).
Definition tool_form : obj := [("tools", VArr [VObj [("component_name", VStr "Google")];
                                               VObj [("id", VStr "Bing:x"); ("component_name", VStr "Bing")]])].
Definition agent_node : Node := mk_node "Agent:a" Operator.Agent "Agent_0" None (VObj tool_form).

Definition canvas : RFState :=
  {| nodes :=
       [switch_node; agent_node; mk_node "Agent:b" Operator.Agent "Agent_1" None (VObj []);
        mk_node "Tool:c" Operator.Tool "Tool_0" None (VObj []);
        mk_node "Iteration:a" Operator.Iteration "Iteration_0" None (VObj []);
        mk_node "Retrieval:a" Operator.Retrieval "Retrieval_0" (Some "Iteration:a") (VObj []);
        mk_node "Message:a" Operator.Message "Message_0" None (VObj [])];
     edges :=
       [mk_edge "e1" "Switch:a" "Agent:a" (HId "Case 1"); mk_edge "e2" "Switch:a" "Message:a" (HId "Case 1");
        mk_edge "e3" "Agent:a" "Agent:b" (HId NodeHandleId.AgentBottom);
        mk_edge "e4" "Agent:b" "Tool:c" (HId NodeHandleId.Tool);
        mk_edge "e5" "Agent:b" "Tool:c" (HId NodeHandleId.Start)];
     selectedNodeIds := []; selectedEdgeIds := []; clickedNodeId := None; clickedToolId := None |}.

Definition connect_case2 : Connection :=
  {| c_source := "Switch:a"; c_target := "Message:a"; c_sourceHandle := HId "Case 2";
     c_targetHandle := HId NodeHandleId.End_ |}.

(** Two agents with tools, one of them without a key. *)
Definition tool_canvas : RFState :=
  setNodes [agent_node; mk_node "Agent:z" Operator.Agent "" None (VObj [("tools", VArr [VObj []])])] canvas.

Definition words (k : nat) : string := pretty k.
End Canvas.
Import Canvas.

#[local] Instance words_inj : Inj (=) (=) words.
Proof. unfold words. intros a b. apply (inj pretty). Qed.

Lemma onConnect_switch_sync_witness :
  ∃ n', getNode (Some "Switch:a") (onConnect connect_case2 canvas) = Some n' ∧
    lo_get (form (n_data n')) [PKey "conditions"; PIdx 1; PKey "to"] = VArr [VStr "Message:a"].
Proof.
  destruct (onConnect_switch_sync connect_case2 (CaseBranch 1) switch_node canvas) as [H _];
    [vm_compute; reflexivity|done..|]. exact H.
Defined.

Lemma deleteEdgeById_switch_sync_witness :
  ∃ n', getNode (Some "Switch:a") (deleteEdgeById "e1" canvas) = Some n' ∧
    lo_get (form (n_data n')) [PKey "conditions"; PIdx 0; PKey "to"] =
      VArr (map VStr (handle_targets "Switch:a" "Case 1" (deleteEdgeById "e1" canvas))).
Proof.
  apply (deleteEdgeById_switch_sync (mk_edge "e1" "Switch:a" "Agent:a" (HId "Case 1")) "Case 1"
    [PKey "conditions"; PIdx 0; PKey "to"] switch_node canvas); try done; try (vm_compute; reflexivity).
  - set_solver.
  - apply (bool_decide_unpack _). vm_compute. done.
  - repeat constructor. done.
  - intros e' He' _ _ Ht. simpl in He'.
    repeat (apply elem_of_cons in He' as [->|He']; [simpl in Ht; first [done|discriminate Ht]|]).
    by apply elem_of_nil in He'.
Defined.

Lemma setEdgesByNodeId_spec_witness :
  let cur := [mk_edge "n1" "Switch:a" "Agent:b" (HId "Case 1")] in
  js_filter (λ e, source e !== "Switch:a") (edges (setEdgesByNodeId "Switch:a" cur canvas)) =
  js_filter (λ e, source e !== "Switch:a") (edges canvas).
Proof.
  intros cur. apply (setEdgesByNodeId_spec "Switch:a" cur canvas).
  intros c [->|[]%elem_of_nil]%elem_of_cons. done.
Defined.

Lemma canvas_closed : edges_closed canvas.
Proof.
  intros e He. simpl in He.
  repeat (apply elem_of_cons in He as [->|He]; [split; apply (bool_decide_unpack _); vm_compute; exact I|]).
  by apply elem_of_nil in He.
Defined.

Lemma deleteNodeById_exact_witness :
  ∃ s', deleteNodeById 0 "Message:a" canvas = Some s' ∧ edges_closed s' ∧
    (∀ n, n ∈ nodes s' ↔ n ∈ nodes canvas ∧ n_id n ≠ "Message:a") ∧
    (∀ e, e ∈ edges s' ↔ e ∈ edges canvas ∧ source e ≠ "Message:a" ∧ target e ≠ "Message:a").
Proof. apply (deleteNodeById_exact 0 "Message:a" canvas); [discriminate|apply canvas_closed]. Defined.

Lemma deleteNodeById_agent_witness :
  ∃ s', deleteNodeById (del_fuel canvas) "Agent:a" canvas = Some s' ∧
    ∀ n, n ∈ nodes s' ↔ n ∈ nodes canvas ∧ n_id n ≠ "Agent:a" ∧ ¬ agent_reach canvas "Agent:a" (n_id n).
Proof.
  destruct (deleteNodeById (del_fuel canvas) "Agent:a" canvas) as [s'|] eqn:E.
  - exists s'. split; [done|]. by apply (proj2 (deleteNodeById_agent "Agent:a" canvas eq_refl) _ _ E).
  - exfalso. vm_compute in E. discriminate E.
Defined.

Lemma deleteAgent_leaves_edge_witness :
  ∃ s' e, deleteAgentDownstreamNodesById (del_fuel canvas) "Agent:a" canvas = Some s' ∧
    e ∈ edges s' ∧ at_reached canvas "Agent:a" e.
Proof.
  destruct (deleteAgentDownstreamNodesById (del_fuel canvas) "Agent:a" canvas) as [s'|] eqn:E.
  - assert (agent_reach canvas "Agent:a" "Agent:b") as Hr.
    { apply tc_once. exists (mk_edge "e3" "Agent:a" "Agent:b" (HId NodeHandleId.AgentBottom)).
      split; [set_solver|done]. }
    destruct (deleteAgent_leaves_edge _ "Agent:a" canvas s'
      (mk_edge "e4" "Agent:b" "Tool:c" (HId NodeHandleId.Tool))
      (mk_edge "e5" "Agent:b" "Tool:c" (HId NodeHandleId.Start)) E) as (e & He & Ha);
      [set_solver|set_solver|done|by left|by left|done|done|done|done|].
    by exists s', e.
  - exfalso. vm_compute in E. discriminate E.
Defined.

Lemma updateMutable_first_witness :
  nodes canvas = switch_node :: tail (nodes canvas) ∧
  updateMutableNodeFormItem (n_id switch_node) "top_n" (VBool true) canvas = canvas.
Proof. split; [done|]. apply (updateMutable_first switch_node (tail (nodes canvas)) "top_n" (VBool true) canvas). done. Defined.

Lemma duplicateNode_unique_name_witness :
  let '(s', k') := duplicateNode words 7 "Message:a" "Message" canvas in
  k' = 8 ∧ NoDup (node_names (nodes s')).
Proof.
  pose proof (duplicateNode_unique_name words 7 "Message:a" "Message" canvas) as H.
  destruct (duplicateNode words 7 "Message:a" "Message" canvas) as [s' k'].
  destruct H as (? & ? & _); [done| | |discriminate|done].
  - apply (bool_decide_unpack _). vm_compute. done.
  - intros s Hs Ht. exists 0%Z. split; [done|]. simpl in Hs.
    repeat (apply elem_of_cons in Hs as [->|Hs]; [first [done|vm_compute in Ht; discriminate Ht]|]).
    by apply elem_of_nil in Hs.
Defined.

Lemma duplicateIteration_collision_witness :
  let '(s1, k1) := duplicateIterationNode words 0 "Iteration:a" "Iteration" canvas in
  let '(s2, _) := duplicateIterationNode words k1 "Iteration:a" "Iteration" s1 in
  ¬ NoDup (node_names (nodes s2)).
Proof.
  apply (duplicateIteration_collision words 0 "Iteration:a" "Iteration" canvas
    (mk_node "Retrieval:a" Operator.Retrieval "Retrieval_0" (Some "Iteration:a") (VObj [])));
    [discriminate|set_solver|done|discriminate].
Defined.

Lemma generateAgentToolId_fresh_witness :
  ∃ id k', generateAgentToolId words 4 0 "Google" tool_canvas = Some (id, k') ∧
    (VStr id ∉ [VStr "Google"; VStr "Bing:x"; VUndef]) ∧
    ∀ fuel r, generateAgentToolId words fuel 0 "Google" tool_canvas = Some r →
      VStr r.1 ∉ [VStr "Google"; VStr "Bing:x"; VUndef].
Proof.
  apply (generateAgentToolId_fresh words 0 "Google" tool_canvas [VStr "Google"; VStr "Bing:x"; VUndef] words_inj).
  reflexivity.
Defined.

Lemma updateAgentToolById_roundtrip_witness :
  let next := VObj (obj_assign (obj_assign [] [("id", VStr "Bing:x"); ("component_name", VStr "Bing")])
                     [("name", VStr "Bing_1")]) in
  ∃ s', updateAgentToolById (RefId "Agent:a") (Some "Bing:x") (Some [("name", VStr "Bing_1")]) tool_canvas = Some s' ∧
    getAgentToolById (Some "Bing:x") (RefId "Agent:a") s' = Some (Some next).
Proof.
  intros next. destruct (updateAgentToolById_roundtrip "Agent:a" (Some "Bing:x") [("name", VStr "Bing_1")]
    agent_node tool_form [VObj [("component_name", VStr "Google")];
      VObj [("id", VStr "Bing:x"); ("component_name", VStr "Bing")]] 1
    (VObj [("id", VStr "Bing:x"); ("component_name", VStr "Bing")]) tool_canvas) as (s' & H1 & H2 & _); try reflexivity.
  - apply (bool_decide_unpack _). vm_compute. done.
  - by exists s'.
Defined.
