(* ===== verification/Dsl.v ===== *)
(** * The DSL of an agent

    [buildDslComponentsByGraph] of pages/agent/utils.ts and [buildDslData] of
    pages/agent/hooks/use-build-dsl.ts: what is sent to the backend, built
    from the nodes, the edges and the forms of the canvas. *)
From S2P Require Import Prelude JsValue Graph Libs FormUtils Downstream GraphStore StoreProps.
Open Scope list_scope.
Open Scope nat_scope.
Open Scope js_scope.

Definition buildAgentExceptionGoto (edges : list Edge) (nodeId : string) : list string :=
  map target (js_filter (λ e, (source e === nodeId) && (sourceHandle e === HId NodeHandleId.AgentException)) edges).

(** The filter of [buildComponentDownstreamOrUpstream]. *)
Definition keeps_edge (nodeId : string) (isBuildDownstream : bool) (nodes : list Node) (e : Edge) : bool :=
  let node := js_find (λ n, n_id n === nodeId) nodes in
  let is_agent := isBuildDownstream && ((label ∘ n_data <$> node) === Some Operator.Agent) in
  let isNotExceptionGoto := if is_agent then sourceHandle e !== HId NodeHandleId.AgentException else true in
  let isNotUpstreamTool := if is_agent then negb (starts_with Operator.Tool (target e)) else true in
  let isNotUpstreamAgent :=
    if is_agent
    then negb (starts_with Operator.Agent (target e) && (targetHandle e === HId NodeHandleId.AgentTop))
    else true in
  ((if isBuildDownstream then source e else target e) === nodeId) &&
  isNotUpstreamTool && isNotUpstreamAgent && isNotExceptionGoto.

Definition buildComponentDownstreamOrUpstream (edges : list Edge) (nodeId : string) (isBuildDownstream : bool)
    (nodes : list Node) : list string :=
  map (λ e, if isBuildDownstream then target e else source e)
    (js_filter (keeps_edge nodeId isBuildDownstream nodes) edges).

Definition ExcludeOperators : list string := [Operator.Note; Operator.Tool; Operator.Placeholder].

Definition isBottomSubAgent (edges : list Edge) (nodeId : option string) : bool :=
  js_some (λ e, (Some (target e) === nodeId) && (targetHandle e === HId NodeHandleId.AgentTop)) edges.

Definition hasSubAgentOrTool (edges : list Edge) (nodeId : option string) : bool :=
  js_some (λ e, (Some (source e) === nodeId) &&
    ((sourceHandle e === HId NodeHandleId.Tool) || (sourceHandle e === HId NodeHandleId.AgentBottom))) edges.

Definition hasSubAgent (edges : list Edge) (nodeId : option string) : bool :=
  js_some (λ e, (Some (source e) === nodeId) && (sourceHandle e === HId NodeHandleId.AgentBottom)) edges.

Definition filterTargetsBySourceHandleId (edges : list Edge) (handleId : handle) : list string :=
  map target (js_filter (λ e, sourceHandle e === handleId) edges).

(** The handle a form value names. *)
Definition handle_of (v : val) : option handle :=
  match v with VUndef => Some HUndef | VNull => Some HNull | VStr s => Some (HId s) | _ => None end.

Definition strs (l : list string) : val := VArr (map VStr l).

Definition needsSingleStepDebugging (lbl : string) : bool :=
  negb (js_some (λ l, l === lbl)
    [Operator.Begin; Operator.Message; Operator.RewriteQuestion; Operator.Switch; Operator.Iteration;
     Operator.UserFillUp; Operator.IterationStart; Operator.File; Operator.Parser; Operator.Tokenizer;
     Operator.Splitter; Operator.HierarchicalMerger; Operator.Extractor; Operator.Tool]).

Definition showCopyIcon (lbl : string) : bool :=
  negb (js_some (λ l, l === lbl)
    [Operator.File; Operator.Parser; Operator.Tokenizer; Operator.Splitter; Operator.HierarchicalMerger;
     Operator.Extractor]).

(** ** Sub-agents as tools *)
Record AgentTools := { at_params : obj; at_name : val; at_id : val }.

(** The tool a sub-agent is. *)
Definition sub_agent_tool (t : AgentTools) : val :=
  VObj [("component_name", VStr Operator.Agent); ("id", at_id t); ("name", at_name t);
        ("params", VObj (obj_assign [] (at_params t)))].

(** [node?.data.form ?? {}], spread *)
Definition node_params (node : option Node) : obj :=
  match node with Some n => spread (js_coalesce (form (n_data n)) (VObj [])) | None => [] end.

Fixpoint buildAgentTools (edges : list Edge) (nodes : list Node) (fuel : nat) (nodeId : string)
    : outcome AgentTools :=
  match fuel with
  | O => Diverge
  | S fuel =>
      let node := js_find (λ n, n_id n === nodeId) nodes in
      let params := node_params node in
      let result ps := {| at_params := ps; at_name := of_ostr (name ∘ n_data <$> node);
                          at_id := of_ostr (n_id <$> node) |} in
      if (label ∘ n_data <$> node) === Some Operator.Agent then
        tools ← elements (obj_get "tools" params);
        let bottomSubAgentEdges :=
          js_filter (λ e, (source e === nodeId) && (sourceHandle e === HId NodeHandleId.AgentBottom)) edges in
        subs ← mapM (λ e, buildAgentTools edges nodes fuel (target e)) bottomSubAgentEdges;
        Ok (result (obj_set "tools" (VArr (tools ++ map sub_agent_tool subs)) params))
      else Ok (result params)
  end.

(** ** The parameters of the operators *)
Definition FileTypeSuffixMap (fileFormat : string) : val :=
  if fileFormat === "pdf" then strs ["pdf"]
  else if fileFormat === "spreadsheet" then strs ["xls"; "xlsx"; "csv"]
  else if fileFormat === "image" then strs ["jpg"; "jpeg"; "png"; "gif"]
  else if fileFormat === "email" then strs ["eml"; "msg"]
  else if fileFormat === "text&markdown" then strs ["md"; "markdown"; "mdx"; "txt"]
  else if fileFormat === "word" then strs ["doc"; "docx"]
  else if fileFormat === "slides" then strs ["pptx"; "ppt"]
  else if fileFormat === "video" then strs ["mp4"; "avi"; "mkv"]
  else if fileFormat === "audio" then
    strs ["da"; "wave"; "wav"; "mp3"; "aac"; "flac"; "ogg"; "aiff"; "au"; "midi"; "wma"; "realaudio";
          "vqf"; "oggvorbis"; "ape"]
  else VUndef.

(** [cur.parse_method?.toLowerCase() === 'tcadp parser'] *)
Definition is_tcadp (parse_method : val) : outcome bool :=
  match parse_method with
  | VStr s => Ok (to_lower s === "tcadp parser")
  | VUndef | VNull => Ok false
  | _ => Throw
  end.

(** [{ ...setup, k: cur.k, ... }] *)
Definition with_fields (cur : val) (ks : list string) (setup : obj) : obj :=
  foldl (λ o k, obj_set k (prop k cur) o) setup ks.

Definition with_tcadp (cur : val) (setup : obj) : outcome obj :=
  b ← is_tcadp (prop "parse_method" cur);
  Ok (if (b : bool) then with_fields cur ["table_result_type"; "markdown_image_response_type"] setup else setup).

Definition parser_setup (cur : val) (fileFormat : string) : outcome obj :=
  let base :=
    [("output_format", prop "output_format" cur); ("preprocess", prop "preprocess" cur);
     ("suffix", FileTypeSuffixMap fileFormat)] in
  if fileFormat === "pdf" then with_tcadp cur (with_fields cur ["parse_method"; "lang"] base)
  else if fileFormat === "spreadsheet" then with_tcadp cur (with_fields cur ["parse_method"] base)
  else if fileFormat === "slides" then with_tcadp cur (with_fields cur ["parse_method"] base)
  else if fileFormat === "image" then Ok (with_fields cur ["parse_method"; "lang"; "system_prompt"] base)
  else if fileFormat === "email" then Ok (with_fields cur ["fields"] base)
  else if (fileFormat === "video") || (fileFormat === "audio") then Ok (with_fields cur ["llm_id"] base)
  else Ok base.

Definition transformParserParams (params : val) : outcome val :=
  setups0 ← elements (prop "setups" params);
  setups ← foldl (λ acc cur,
    pre ← acc;
    fileFormat ← read "fileFormat" cur;
    if truthy fileFormat
    then setup ← parser_setup cur (key_of fileFormat); Ok (obj_set (key_of fileFormat) (VObj setup) pre)
    else Ok pre) (Ok []) setups0;
  Ok (VObj (obj_set "setups" (VObj setups) (spread params))).

Section dsl.
Context {L : Lodash}.

Definition transformSplitterParams (params : val) : outcome val :=
  let rest := obj_del "image_table_context_window" (spread params) in
  let imageTableContextWindow :=
    VNum (Number (js_or (prop "image_table_context_window" params) (VNum (num_of_Z 0)))) in
  delimiters ← transformObjectArrayToPureArray (prop "delimiters" params) "value";
  children ← (if truthy (prop "enable_children" params)
              then transformObjectArrayToPureArray (prop "children_delimiters" params) "value"
              else Ok []);
  Ok (VObj (foldl (λ o kv, obj_set kv.1 kv.2 o) rest
    [("overlapped_percent", VNum (num_div_Z (Number (prop "overlapped_percent" params)) 100));
     ("delimiters", VArr delimiters);
     ("table_context_size", imageTableContextWindow);
     ("image_context_size", imageTableContextWindow);
     ("children_delimiters", VArr children)])).

Definition transformHierarchicalMergerParams (params : val) : outcome val :=
  levels0 ← elements (prop "levels" params);
  levels ← mapM (λ x, es ← read "expressions" x; transformObjectArrayToPureArray es "expression") levels0;
  Ok (VObj (obj_set "levels" (VArr (map VArr levels))
    (obj_set "hierarchy" (VNum (Number (prop "hierarchy" params))) (spread params)))).

Definition transformExtractorParams (params : val) : val :=
  VObj (obj_set "prompts" (VArr [VObj [("content", prop "prompts" params); ("role", VStr "user")]]) (spread params)).

(** [list?.map((x) => x.k)] *)
Definition opt_map (k : string) (v : val) : outcome val :=
  if nullish v then Ok VUndef else l ← elements v; vs ← mapM (read k) l; Ok (VArr vs).

Definition transformDataOperationsParams (params : val) : outcome val :=
  select_keys ← opt_map "name" (prop "select_keys" params);
  remove_keys ← opt_map "name" (prop "remove_keys" params);
  query0 ← elements (prop "query" params);
  query ← mapM (read "input") query0;
  Ok (VObj (obj_set "query" (VArr query) (obj_set "remove_keys" remove_keys
    (obj_set "select_keys" select_keys (spread params))))).

Definition schema_of (l : list val) : outcome val :=
  guard_ ← mapM (read "required") l;
  Ok (VObj [("type", VStr "object");
    ("required", VArr (map (prop "key") (js_filter (λ x, truthy (prop "required" x)) l)));
    ("properties", VObj (foldl (λ pre cur,
       obj_set (key_of (prop "key" cur)) (VObj [("type", prop "type" cur)]) pre) [] l))]).

Definition transformRequestSchemaToJsonschema (schema : val) : outcome val :=
  o ← foldl (λ acc kv,
    pre ← acc;
    match kv.2 with
    | VArr l => v ← schema_of l; Ok (obj_set kv.1 v pre)
    | _ => Ok pre
    end) (Ok []) (obj_entries (obj_of_val (js_or schema (VObj []))));
  Ok (VObj o).

Definition transformBeginParams (params : val) : outcome val :=
  if prop "mode" params === VStr "Webhook" then
    let security := prop "security" params in
    ip_whitelist ← (if nullish security then Ok VUndef
                    else l ← elements (prop "ip_whitelist" security); vs ← mapM (read "value") l; Ok (VArr vs));
    let nextSecurity := obj_set "ip_whitelist" ip_whitelist (spread (js_coalesce security (VObj []))) in
    nextSecurity ←
      (if prop "auth_type" security === VStr "jwt" then
         let jwt := prop "jwt" security in
         required_claims ← (if nullish jwt then Ok VUndef
                            else l ← elements (prop "required_claims" jwt); vs ← mapM (read "value") l; Ok (VArr vs));
         Ok (obj_set "jwt" (VObj (obj_set "required_claims" required_claims (spread jwt))) nextSecurity)
       else Ok nextSecurity);
    schema ← transformRequestSchemaToJsonschema (prop "schema" params);
    Ok (VObj (obj_set "security" (VObj nextSecurity) (obj_set "schema" schema (spread params))))
  else Ok (VObj (spread params)).

(** One category of [buildCategorize]. *)
Definition categorize_entry (subEdges : list Edge) (v : val) : outcome val :=
  examples ← (if nullish (prop "examples" v) then Ok []
              else l ← elements (prop "examples" v); mapM (read "value") l);
  let to :=
    match handle_of (prop "uuid" v) with
    | Some h => filterTargetsBySourceHandleId subEdges h
    | None => []
    end in
  Ok (VObj (obj_set "to" (strs to)
    (obj_set "examples" (VArr examples) (obj_assign [] (lo_omit (obj_of_val v) ["name"; "uuid"]))))).

Definition buildCategorize (edges : list Edge) (nodes : list Node) (nodeId : string) : outcome val :=
  let node := js_find (λ n, n_id n === nodeId) nodes in
  let params := node_params node in
  params' ←
    (if (label ∘ n_data <$> node) === Some Operator.Categorize then
       let subEdges := js_filter (λ e, source e === nodeId) edges in
       items ← elements (js_or (obj_get "items" params) (VArr []));
       next ← foldl (λ acc v,
         pre ← acc;
         key ← read "name" v;
         entry ← categorize_entry subEdges v;
         Ok (obj_set (key_of key) entry pre)) (Ok []) items;
       Ok (obj_set "category_description" (VObj next) params)
     else Ok params);
  Ok (VObj (lo_omit params' ["items"])).

(** [removeUselessDataInTheOperator] *)
Definition buildOperatorParams (operatorName : string) (params : val) : val :=
  if operatorName === Operator.Categorize
  then VObj (removeUselessFieldsFromValues (obj_of_val params) "")
  else params.

(** The [switch] on the operator. *)
Definition operator_params (fuel : nat) (nodes : list Node) (edges : list Edge) (n : Node) : outcome val :=
  let operatorName := label (n_data n) in
  let params := js_coalesce (form (n_data n)) (VObj []) in
  if operatorName === Operator.Agent then
    t ← buildAgentTools edges nodes fuel (n_id n);
    Ok (VObj (obj_set "exception_goto" (strs (buildAgentExceptionGoto edges (n_id n))) (obj_assign [] (at_params t))))
  else if operatorName === Operator.Categorize then buildCategorize edges nodes (n_id n)
  else if operatorName === Operator.Parser then transformParserParams params
  else if operatorName === Operator.Splitter then transformSplitterParams params
  else if operatorName === Operator.HierarchicalMerger then transformHierarchicalMergerParams params
  else if operatorName === Operator.Extractor then Ok (transformExtractorParams params)
  else if operatorName === Operator.DataOperations then transformDataOperationsParams params
  else if operatorName === Operator.Begin then transformBeginParams params
  else Ok params.

(** ** The components *)

(** [oldDslComponents[id]?.obj ?? {}], spread; then the operator's name and
    parameters. *)
Definition component (fuel : nat) (nodes : list Node) (edges : list Edge) (oldDslComponents : obj) (n : Node)
    : outcome val :=
  let operatorName := label (n_data n) in
  params ← operator_params fuel nodes edges n;
  Ok (VObj
    [("obj", VObj (obj_set "params" (js_coalesce (buildOperatorParams operatorName params) (VObj []))
        (obj_set "component_name" (VStr operatorName)
           (spread (js_coalesce (prop "obj" (obj_get (n_id n) oldDslComponents)) (VObj []))))));
     ("downstream", strs (buildComponentDownstreamOrUpstream edges (n_id n) true nodes));
     ("upstream", strs (buildComponentDownstreamOrUpstream edges (n_id n) false nodes));
     ("parent_id", of_ostr (n_parentId n))]).

Definition is_component (edges : list Edge) (n : Node) : bool :=
  negb (js_some (λ l, l === label (n_data n)) ExcludeOperators) && negb (isBottomSubAgent edges (Some (n_id n))).

Definition buildDslComponentsByGraph (fuel : nat) (nodes : list Node) (edges : list Edge) (oldDslComponents : obj)
    : outcome obj :=
  foldl (λ acc n,
    components ← acc;
    c ← component fuel nodes edges oldDslComponents n;
    Ok (obj_set (n_id n) c components)) (Ok []) (js_filter (is_component edges) nodes).

(** [key.indexOf('sys') > -1] keeps a system variable. *)
Definition buildDslGlobalVariables (dsl : obj) (globalVariables : option obj) : outcome obj :=
  match globalVariables with
  | None => Ok [("globals", obj_get "globals" dsl); ("variables", js_or (obj_get "variables" dsl) (VObj []))]
  | Some gv =>
      globals ← (if nullish (obj_get "globals" dsl) then Throw else Ok (obj_of_val (obj_get "globals" dsl)));
      guard_ ← mapM (λ kv, read "value" kv.2) (obj_entries gv);
      let globalSystem := js_filter (λ kv, str_includes "sys" kv.1) (obj_entries globals) in
      let globalVariablesTemp :=
        foldl (λ o kv, obj_set ("env." +:+ kv.1) (prop "value" kv.2) o) [] (obj_entries gv) in
      Ok [("globals", VObj (obj_assign (obj_assign [] globalSystem) globalVariablesTemp)); ("variables", VObj gv)]
  end.

Definition is_placeholder (n : Node) : bool := label (n_data n) === Operator.Placeholder.

(** The graph without placeholder nodes and the edges at them. *)
Definition filteredNodes (nodesToProcess : list Node) : list Node :=
  js_filter (λ n, negb (is_placeholder n)) nodesToProcess.

Definition filteredEdges (nodesToProcess : list Node) (edges : list Edge) : list Edge :=
  js_filter (λ e,
    let sourceNode := js_find (λ n, n_id n === source e) nodesToProcess in
    let targetNode := js_find (λ n, n_id n === target e) nodesToProcess in
    ((label ∘ n_data <$> sourceNode) !== Some Operator.Placeholder) &&
    ((label ∘ n_data <$> targetNode) !== Some Operator.Placeholder)) edges.

Record DslData := {
  dsl_base : obj; dsl_globals : obj; dsl_nodes : list Node; dsl_edges : list Edge; dsl_components : obj
}.

(** [{ ...data.dsl, ...globalVariables, graph: { nodes, edges }, components }],
    field by field. *)
Definition buildDslData (fuel : nat) (currentNodes : option (list Node)) (globalVariables : option obj)
    (s : RFState) (dsl : obj) : outcome DslData :=
  let nodesToProcess := default (nodes s) currentNodes in
  let ns := filteredNodes nodesToProcess in
  let es := filteredEdges nodesToProcess (edges s) in
  components ← buildDslComponentsByGraph fuel ns es (obj_of_val (obj_get "components" dsl));
  globals ← buildDslGlobalVariables dsl globalVariables;
  Ok {| dsl_base := dsl; dsl_globals := globals; dsl_nodes := ns; dsl_edges := es; dsl_components := components |}.
End dsl.

(** ** The components and the graph *)
Section dsl_props.
Context {L : Lodash}.

Lemma foldl_not_Ok {A B} (f : outcome B → A → outcome B) l r :
  (∀ x, f r x = r) → foldl f r l = r.
Proof. intros H. induction l as [|x l IH]; simpl; [done|]. by rewrite H. Qed.

Definition add_component (fuel : nat) (nodes : list Node) (edges : list Edge) (old : obj) (acc : outcome obj) (n : Node)
    : outcome obj :=
  components ← acc; c ← component fuel nodes edges old n; Ok (obj_set (n_id n) c components).

(** The result in closed form, for distinct identifiers. *)
Lemma add_components_Ok fuel nodes edges old ns pre r :
  NoDup (pre.*1 ++ map n_id ns) →
  foldl (add_component fuel nodes edges old) (Ok pre) ns = Ok r ↔
  ∃ cs, Forall2 (λ n c, component fuel nodes edges old n = Ok c) ns cs ∧ r = pre ++ zip (map n_id ns) cs.
Proof.
  revert pre. induction ns as [|n ns IH]; intros pre Hnd.
  { simpl. split; [intros [= <-]; exists []; rewrite app_nil_r; done|].
    intros (cs & Hcs & ->). inversion Hcs. by rewrite app_nil_r. }
  cbn [foldl map] in *. unfold add_component at 2. cbn [mbind outcome_bind].
  rewrite cons_middle, app_assoc in Hnd.
  assert (n_id n ∉ pre.*1) as Hfresh.
  { apply NoDup_app in Hnd as (Hnd & _ & _). apply NoDup_app in Hnd as (_ & Hd & _).
    intros Hin. apply (Hd _ Hin). by left. }
  destruct (component fuel nodes edges old n) as [c| |] eqn:Hc; cbn [mbind outcome_bind].
  - rewrite obj_set_fresh by done. rewrite IH by by rewrite fmap_app. split.
    + intros (cs & Hcs & ->). exists (c :: cs). split; [by constructor|]. simpl. by rewrite <-app_assoc.
    + intros (cs & Hcs & ->). inversion Hcs as [|? c' ? cs' Hc' Hcs']; subst. exists cs'. split; [done|].
      simpl. rewrite <-app_assoc. rewrite Hc in Hc'. injection Hc' as ->. done.
  - rewrite foldl_not_Ok by done. split; [done|]. intros (cs & Hcs & _). inversion Hcs as [|? ? ? ? Hx]; cbn in Hx; congruence.
  - rewrite foldl_not_Ok by done. split; [done|]. intros (cs & Hcs & _). inversion Hcs as [|? ? ? ? Hx]; cbn in Hx; congruence.
Qed.

Lemma zip_lookup {A} (ks : list string) (vs : list A) k v :
  (k, v) ∈ zip ks vs → k ∈ ks ∧ v ∈ vs.
Proof. intros H. split; [by eapply elem_of_zip_l|by eapply elem_of_zip_r]. Qed.

Lemma obj_lookup_zip (ks : list string) (vs : list val) i k v :
  NoDup ks → ks !! i = Some k → vs !! i = Some v → obj_lookup k (zip ks vs) = Some v.
Proof.
  revert vs i. induction ks as [|k0 ks IH]; intros [|v0 vs] [|i] Hnd Hk Hv; simplify_eq/=.
  - by rewrite bool_decide_true.
  - apply NoDup_cons in Hnd as [Hn Hnd]. rewrite bool_decide_false; [by eapply IH|].
    intros ->. apply Hn. by eapply list_elem_of_lookup_2.
Qed.

Lemma build_Ok fuel nodes edges old r :
  NoDup (map n_id nodes) →
  buildDslComponentsByGraph fuel nodes edges old = Ok r →
  NoDup r.*1 ∧
  (∀ k, k ∈ r.*1 ↔ ∃ n, n ∈ nodes ∧ is_component edges n = true ∧ n_id n = k) ∧
  ∀ n, n ∈ nodes → is_component edges n = true →
    ∃ c, component fuel nodes edges old n = Ok c ∧ obj_lookup (n_id n) r = Some c.
Proof.
  intros Hnd Hb. unfold buildDslComponentsByGraph in Hb. remember (js_filter (is_component edges) nodes) as ns eqn:Ens.
  assert (NoDup (map n_id ns)) as Hns.
  { rewrite Ens. clear -Hnd. induction nodes as [|n l IH]; [done|]. cbn [map] in Hnd.
    apply NoDup_cons in Hnd as [Hn Hnd]. rewrite js_filter_cons. destruct (is_component edges n); [|by apply IH].
    cbn [map]. constructor; [|by apply IH]. intros (m & Hm & [_ Hin]%elem_of_js_filter)%elem_of_map.
    apply Hn, elem_of_map. eauto. }
  apply (add_components_Ok fuel nodes edges old ns [] r) in Hb as (cs & Hcs & ->); [|exact Hns].
  cbn [app]. pose proof (Forall2_length _ _ _ Hcs) as Hlen.
  assert ((zip (map n_id ns) cs).*1 = map n_id ns) as Hks by (apply fst_zip; rewrite length_map; lia).
  rewrite Hks. split; [done|]. split.
  - intros k. rewrite elem_of_map, Ens. setoid_rewrite elem_of_js_filter. naive_solver.
  - intros n Hn Hc. assert (n ∈ ns) as [i Hi]%list_elem_of_lookup by (rewrite Ens; by apply elem_of_js_filter).
    destruct (Forall2_lookup_l _ _ _ _ _ Hcs Hi) as (c & Hci & Hcc). exists c. split; [done|].
    eapply obj_lookup_zip; [done| |done]. change (map n_id ns) with (n_id <$> ns). by rewrite list_lookup_fmap, Hi.
Qed.

Lemma component_fields fuel nodes edges old n c :
  component fuel nodes edges old n = Ok c →
  prop "downstream" c = strs (buildComponentDownstreamOrUpstream edges (n_id n) true nodes) ∧
  prop "upstream" c = strs (buildComponentDownstreamOrUpstream edges (n_id n) false nodes).
Proof. unfold component. intros (params & _ & [= <-])%bind_Ok. done. Qed.

Lemma elem_of_upstream edges nodes a b :
  a ∈ buildComponentDownstreamOrUpstream edges b false nodes ↔ ∃ e, e ∈ edges ∧ source e = a ∧ target e = b.
Proof.
  unfold buildComponentDownstreamOrUpstream. rewrite elem_of_map. setoid_rewrite elem_of_js_filter.
  unfold keeps_edge. cbn [andb]. setoid_rewrite andb_true_r. setoid_rewrite andb_true_r. setoid_rewrite andb_true_r.
  setoid_rewrite bool_decide_eq_true. naive_solver.
Qed.

Lemma node_by_id ns n i :
  NoDup (map n_id ns) → n ∈ ns → n_id n = i → js_find (λ m, n_id m === i) ns = Some n.
Proof.
  intros Hnd Hn Hi. destruct (js_find_is_Some (λ m, n_id m === i) ns n Hn) as [m Hm]; [by apply bool_decide_eq_true|].
  rewrite Hm. f_equal. apply js_find_Some in Hm as [Hm Heq]. reflect_bool.
  apply list_elem_of_lookup in Hm as [k Hk], Hn as [j Hj]. assert (k = j) as ->; [|congruence].
  eapply (NoDup_lookup (map n_id ns)); [done| |].
  - change (map n_id ns) with (n_id <$> ns). rewrite list_lookup_fmap, Hk. simpl. by rewrite Heq.
  - change (map n_id ns) with (n_id <$> ns). rewrite list_lookup_fmap, Hj. simpl. by rewrite Hi.
Qed.

Lemma downstream_edge edges nodes a b :
  b ∈ buildComponentDownstreamOrUpstream edges a true nodes →
  ∃ e, e ∈ edges ∧ source e = a ∧ target e = b.
Proof.
  unfold buildComponentDownstreamOrUpstream. rewrite elem_of_map.
  intros (e & -> & [Hk He]%elem_of_js_filter). exists e. split; [done|]. unfold keeps_edge in Hk. cbn [andb] in Hk.
  repeat apply andb_true_iff in Hk as [Hk _]. by reflect_bool.
Qed.

(** The identifiers of tools and agents, and of no other nodes, start with
    the name of their operator, as [addCanvasNode] makes them. *)
Definition ids_by_operator (nodes : list Node) : Prop :=
  ∀ n, n ∈ nodes → (starts_with Operator.Tool (n_id n) = true ↔ label (n_data n) = Operator.Tool) ∧
                   (starts_with Operator.Agent (n_id n) = true ↔ label (n_data n) = Operator.Agent).

(** The run goes on from [a] to [b] along the edge: always, unless [a] is an
    agent, which calls its tools and sub-agents itself and enters its branch
    for exceptions only when one occurs. *)
Definition runs_on (a b : Node) (e : Edge) : Prop :=
  source e = n_id a ∧ target e = n_id b ∧
  (label (n_data a) = Operator.Agent →
   label (n_data b) ≠ Operator.Tool ∧ ¬ (label (n_data b) = Operator.Agent ∧ targetHandle e = HId NodeHandleId.AgentTop) ∧
   sourceHandle e ≠ HId NodeHandleId.AgentException).

Lemma elem_of_downstream edges nodes a b :
  NoDup (map n_id nodes) → ids_by_operator nodes → a ∈ nodes → b ∈ nodes →
  n_id b ∈ buildComponentDownstreamOrUpstream edges (n_id a) true nodes ↔ ∃ e, e ∈ edges ∧ runs_on a b e.
Proof.
  intros Hnd Hids Ha Hb. destruct (Hids b Hb) as [Htool Hagent]. unfold buildComponentDownstreamOrUpstream.
  rewrite elem_of_map. setoid_rewrite elem_of_js_filter.
  assert (∀ e, target e = n_id b → keeps_edge (n_id a) true nodes e = true ↔ runs_on a b e) as Hk.
  { intros e He. unfold keeps_edge, runs_on. rewrite (node_by_id nodes a (n_id a) Hnd Ha eq_refl). simpl. rewrite He.
    rewrite !andb_true_iff, bool_decide_eq_true.
    destruct (bool_decide_reflect (Some (label (n_data a)) = Some Operator.Agent)) as [Hl|Hl].
    - injection Hl as Hl. rewrite !negb_true_iff, <- !not_true_iff_false, andb_true_iff, !bool_decide_eq_true, Htool, Hagent.
      tauto.
    - assert (label (n_data a) ≠ Operator.Agent) by congruence. tauto. }
  split; [intros (e & Ht & Hke & He)|intros (e & He & Hr)]; exists e.
  - split; [done|]. by apply Hk.
  - assert (target e = n_id b) as Ht by apply Hr. split; [done|]. split; [by apply Hk|done].
Qed.

(** C18: In the built components of a canvas whose identifiers are those
    addCanvasNode makes the two directions of an edge agree: upstream of a
    component are exactly the sources of the edges to it, downstream exactly
    the targets of the edges from it, except that of an agent the edges to its
    tools and sub-agents and from its exception handle are left out. *)
Theorem dsl_directions_agree fuel nodes edges old r a b ca cb :
  NoDup (map n_id nodes) → ids_by_operator nodes → buildDslComponentsByGraph fuel nodes edges old = Ok r →
  a ∈ nodes → b ∈ nodes → is_component edges a = true → is_component edges b = true →
  obj_lookup (n_id a) r = Some ca → obj_lookup (n_id b) r = Some cb →
  ∃ da ub, prop "downstream" ca = strs da ∧ prop "upstream" cb = strs ub ∧
    (n_id b ∈ da ↔ ∃ e, e ∈ edges ∧ runs_on a b e) ∧
    (n_id a ∈ ub ↔ ∃ e, e ∈ edges ∧ source e = n_id a ∧ target e = n_id b).
Proof.
  intros Hnd Hids Hb Ha Hbn Hca Hcb Hla Hlb. apply build_Ok in Hb as (_ & _ & Hc); [|done].
  destruct (Hc a Ha Hca) as (ca' & Hcoa & Hla'), (Hc b Hbn Hcb) as (cb' & Hcob & Hlb').
  rewrite Hla in Hla'. injection Hla' as <-. rewrite Hlb in Hlb'. injection Hlb' as <-.
  apply component_fields in Hcoa as [Hda _], Hcob as [_ Hub].
  eexists _, _. split; [exact Hda|]. split; [exact Hub|]. split; [by apply elem_of_downstream|apply elem_of_upstream].
Qed.

Lemma filteredEdges_no_placeholder ns es p e :
  NoDup (map n_id ns) → p ∈ ns → is_placeholder p = true → e ∈ filteredEdges ns es →
  source e ≠ n_id p ∧ target e ≠ n_id p.
Proof.
  intros Hnd Hp Hpl [He _]%elem_of_js_filter. unfold is_placeholder in Hpl.
  apply andb_true_iff in He as [Hs Ht]. reflect_bool. split; intros Heq.
  - rewrite Heq, (node_by_id ns p) in Hs by done. apply Hs. simpl. by rewrite Hpl.
  - rewrite Heq, (node_by_id ns p) in Ht by done. apply Ht. simpl. by rewrite Hpl.
Qed.

(** A placeholder node leaves no trace in what is sent: it is not a
    component, no component has it upstream or downstream, and neither the
    nodes nor the edges of the graph mention it. *)
Theorem dsl_no_placeholder fuel current gv s dsl d p :
  let ns := default (nodes s) current in
  NoDup (map n_id ns) → p ∈ ns → is_placeholder p = true →
  buildDslData fuel current gv s dsl = Ok d →
  (n_id p ∉ (dsl_components d).*1) ∧ (p ∉ dsl_nodes d) ∧
  (∀ e, e ∈ dsl_edges d → source e ≠ n_id p ∧ target e ≠ n_id p) ∧
  ∀ n c, n ∈ dsl_nodes d → is_component (dsl_edges d) n = true → obj_lookup (n_id n) (dsl_components d) = Some c →
    ∃ ds us, prop "downstream" c = strs ds ∧ prop "upstream" c = strs us ∧ (n_id p ∉ ds) ∧ (n_id p ∉ us).
Proof.
  intros ns Hnd Hp Hpl (comps & Hc & (g & _ & [= <-])%bind_Ok)%bind_Ok. cbn [dsl_components dsl_nodes dsl_edges].
  fold ns in Hc |- *.
  assert (NoDup (map n_id (filteredNodes ns))) as Hnd'.
  { unfold filteredNodes. clear -Hnd. induction ns as [|n l IH]; [done|]. cbn [map] in Hnd.
    apply NoDup_cons in Hnd as [Hn Hnd]. rewrite js_filter_cons. destruct (negb _); [|by apply IH].
    cbn [map]. constructor; [|by apply IH]. intros (m & Hm & [_ Hin]%elem_of_js_filter)%elem_of_map.
    apply Hn, elem_of_map. eauto. }
  assert (∀ n, n ∈ filteredNodes ns → n_id n ≠ n_id p) as Hne.
  { intros n [Hf Hn]%elem_of_js_filter Heq. pose proof (node_by_id ns p (n_id p) Hnd Hp eq_refl) as H1.
    rewrite (node_by_id ns n (n_id p) Hnd Hn Heq) in H1. injection H1 as ->. by rewrite Hpl in Hf. }
  pose proof (λ e, filteredEdges_no_placeholder ns (edges s) p e Hnd Hp Hpl) as Hes.
  apply build_Ok in Hc as (_ & Hks & Hcs); [|done]. split; [|split; [|split; [done|]]].
  - rewrite Hks. intros (n & Hn & _ & Heq). by eapply Hne.
  - intros [Hf _]%elem_of_js_filter. by rewrite Hpl in Hf.
  - intros n c Hn Hcomp Hl. destruct (Hcs n Hn Hcomp) as (c' & Hc & Hl'). rewrite Hl in Hl'. injection Hl' as <-.
    apply component_fields in Hc as [-> ->]. eexists _, _. split; [done|]. split; [done|]. split.
    + intros (e & He & _ & Ht)%downstream_edge. by destruct (Hes e He).
    + intros (e & He & Hs & _)%elem_of_upstream. by destruct (Hes e He).
Qed.

(** ** Termination *)
Lemma mapM_Diverge {A B} (f : A → outcome B) l : mapM f l = Diverge → ∃ x, x ∈ l ∧ f x = Diverge.
Proof.
  induction l as [|x l IH]; [done|]. cbn [mapM]. destruct (f x) as [y| |] eqn:E; cbn [mbind outcome_bind].
  - destruct (mapM f l) eqn:El; [done|done|]. intros _. destruct IH as (x' & ? & ?); [done|].
    exists x'. split; [by right|done].
  - done.
  - intros _. exists x. split; [by left|done].
Qed.

Lemma buildAgentTools_chain edges nodes fuel i :
  buildAgentTools edges nodes fuel i = Diverge →
  ∃ c, length c = fuel ∧ Sorted (estep edges is_agent_edge) c ∧ ∀ h, head c = Some h → h = i.
Proof.
  revert i. induction fuel as [|fuel IH]; intros i; [intros _; by exists []|]. cbn [buildAgentTools].
  case_match; [|done]. destruct (elements _) as [tools| |] eqn:Et; cbn [mbind outcome_bind];
    [|done|intros _; exfalso; revert Et; by destruct (obj_get "tools" _)].
  destruct (mapM _ _) eqn:Em; cbn [mbind outcome_bind]; [done|done|]. intros _.
  apply mapM_Diverge in Em as (e & [Hp He]%elem_of_js_filter & Hd). reflect_bool.
  apply IH in Hd as (c & Hl & Hs & Hh). exists (i :: c). simpl. split; [by rewrite Hl|].
  split; [|intros h [= <-]; done]. constructor; [done|]. destruct c as [|h c]; constructor.
  rewrite (Hh h) by done. exists e. split; [done|]. split; [by apply bool_decide_eq_true|done].
Qed.

Lemma elements_ne v : elements v ≠ Diverge.
Proof. by destruct v. Qed.
Lemma read_ne k v : read k v ≠ Diverge.
Proof. unfold read. by destruct (nullish v). Qed.

(** A computation that never runs out of fuel. *)
Definition total {A} (m : outcome A) : Prop := m ≠ Diverge.

Lemma total_bind {A B} (m : outcome A) (f : A → outcome B) : total m → (∀ a, total (f a)) → total (m ≫= f).
Proof. unfold total. destruct m; simpl; auto. Qed.
Lemma total_Ok {A} (a : A) : total (Ok a).
Proof. done. Qed.
Lemma total_mapM {A B} (f : A → outcome B) l : (∀ a, total (f a)) → total (mapM f l).
Proof. intros H Hd. apply mapM_Diverge in Hd as (x & _ & Hx). by eapply H. Qed.
Lemma total_foldl {A B} (f : outcome B → A → outcome B) l m :
  total m → (∀ m a, total m → total (f m a)) → total (foldl f m l).
Proof. intros Hm Hf. revert m Hm. induction l as [|a l IH]; intros m Hm; simpl; [done|]. by apply IH, Hf. Qed.
Lemma total_if {A} (b : bool) (m n : outcome A) : total m → total n → total (if b then m else n).
Proof. by destruct b. Qed.

Ltac total := repeat first
  [ apply total_Ok | apply elements_ne | apply read_ne | apply total_if
  | apply total_mapM; intros ? | apply total_bind; [|intros ?]
  | apply total_foldl; [|intros ? ? ?] | done | case_match ].

Lemma pure_array_total v k : total (transformObjectArrayToPureArray v k).
Proof. unfold transformObjectArrayToPureArray. total. Qed.

Lemma opt_map_total k v : total (opt_map k v).
Proof. unfold opt_map. total. Qed.

Lemma is_tcadp_total v : total (is_tcadp v).
Proof. by destruct v. Qed.

Lemma parser_setup_total cur f : total (parser_setup cur f).
Proof. unfold parser_setup, with_tcadp. repeat first [apply is_tcadp_total | progress total]. Qed.

Lemma operator_params_diverges fuel nodes edges n :
  operator_params fuel nodes edges n = Diverge → buildAgentTools edges nodes fuel (n_id n) = Diverge.
Proof.
  unfold operator_params. case_match; [by destruct (buildAgentTools _ _ _ _)|]. intros Hd. exfalso. revert Hd.
  change (total (if label (n_data n) === Operator.Categorize then buildCategorize edges nodes (n_id n) else
    if label (n_data n) === Operator.Parser then transformParserParams (js_coalesce (form (n_data n)) (VObj [])) else
    if label (n_data n) === Operator.Splitter then transformSplitterParams (js_coalesce (form (n_data n)) (VObj [])) else
    if label (n_data n) === Operator.HierarchicalMerger then
      transformHierarchicalMergerParams (js_coalesce (form (n_data n)) (VObj [])) else
    if label (n_data n) === Operator.Extractor then
      Ok (transformExtractorParams (js_coalesce (form (n_data n)) (VObj []))) else
    if label (n_data n) === Operator.DataOperations then
      transformDataOperationsParams (js_coalesce (form (n_data n)) (VObj [])) else
    if label (n_data n) === Operator.Begin then transformBeginParams (js_coalesce (form (n_data n)) (VObj [])) else
      Ok (js_coalesce (form (n_data n)) (VObj [])))).
  unfold buildCategorize, categorize_entry, transformParserParams, transformSplitterParams,
    transformHierarchicalMergerParams, transformDataOperationsParams, transformBeginParams,
    transformRequestSchemaToJsonschema, schema_of.
  repeat first [apply pure_array_total | apply opt_map_total | apply parser_setup_total | apply is_tcadp_total
    | progress total].
Qed.

(** The recursion that turns sub-agents into tools ends: with two more
    levels than edges, building the components of a graph whose sub-agent
    edges have no cycle returns or throws. *)
Theorem dsl_terminates nodes edges old fuel :
  eacyclic edges is_agent_edge → S (length edges) < fuel →
  buildDslComponentsByGraph fuel nodes edges old ≠ Diverge.
Proof.
  intros Hac Hf. unfold buildDslComponentsByGraph. apply total_foldl; [done|]. intros m n Hm.
  apply total_bind; [done|]. intros comps. apply total_bind; [|done].
  unfold component. apply total_bind; [|done].
  intros (c & Hl & Hs & _)%operator_params_diverges%buildAgentTools_chain.
  apply chain_bound in Hs; [lia|]. intros ? a _ _ Ha. by apply (Hac a).
Qed.

(** ** Global variables *)
Definition env_entry (kv : string * val) : string * val := ("env." +:+ kv.1, prop "value" kv.2).

Lemma env_entries_wf o : obj_wf o → obj_wf (map env_entry o).
Proof.
  unfold obj_wf. intros Ho. change (map env_entry o) with (env_entry <$> o). rewrite <-list_fmap_compose.
  replace ((fst ∘ env_entry) <$> o) with ((λ k, "env." +:+ k) <$> o.*1) by by rewrite <-list_fmap_compose.
  apply NoDup_fmap_2; [|done]. intros k1 k2. apply string_app_inj.
Qed.

Lemma env_lookup k o : obj_lookup ("env." +:+ k) (map env_entry o) = prop "value" <$> obj_lookup k o.
Proof.
  induction o as [|[k' v] o IH]; [done|]. simpl. rewrite IH.
  destruct (bool_decide_reflect (k = k')) as [->|Hne].
  - by rewrite bool_decide_true.
  - rewrite bool_decide_false; [done|]. intros [= Heq]. done.
Qed.

Lemma env_lookup_other k o : starts_with "env." k = false → obj_lookup k (map env_entry o) = None.
Proof.
  intros Hk. induction o as [|[k' v] o IH]; [done|]. cbn [map env_entry obj_lookup fst snd].
  rewrite bool_decide_false; [done|]. intros ->. by simpl in Hk; destruct k'.
Qed.

Lemma global_temp gv :
  foldl (λ o kv, obj_set ("env." +:+ kv.1) (prop "value" kv.2) o) [] (obj_entries gv) =
  foldl (λ o kv, obj_set kv.1 kv.2 o) [] (map env_entry (obj_entries gv)).
Proof. by rewrite foldl_fmap. Qed.

(** The globals that are sent hold the value of each variable under its
    name with the prefix [env.], of the other names exactly the old ones that
    contain [sys], and nothing else. *)
Theorem dsl_globals_spec dsl gv globals r :
  obj_get "globals" dsl = VObj globals → obj_wf globals → obj_wf gv →
  buildDslGlobalVariables dsl (Some gv) = Ok r →
  ∃ g, obj_get "globals" r = VObj g ∧ obj_get "variables" r = VObj gv ∧
    (∀ k, obj_lookup ("env." +:+ k) g =
       match obj_lookup k gv with
       | Some v => Some (prop "value" v)
       | None => if str_includes "sys" ("env." +:+ k) then obj_lookup ("env." +:+ k) globals else None
       end) ∧
    (∀ k, starts_with "env." k = false →
       obj_lookup k g = if str_includes "sys" k then obj_lookup k globals else None).
Proof.
  intros Hg Hwg Hwv Hb. unfold buildDslGlobalVariables in Hb. rewrite Hg in Hb. cbn [nullish obj_of_val mbind outcome_bind] in Hb.
  destruct (mapM _ _) as [vs| |]; [|done|done]. cbn [mbind outcome_bind] in Hb. injection Hb as <-.
  eexists. split; [reflexivity|]. split; [reflexivity|]. rewrite global_temp.
  set (sys := js_filter _ _). set (env := map env_entry _).
  assert (obj_wf env) as Hwe by (apply env_entries_wf, obj_entries_wf, Hwv).
  assert (obj_wf sys) as Hws.
  { unfold sys, obj_wf. pose proof (obj_entries_wf _ Hwg) as H. revert H. unfold obj_wf. generalize (obj_entries globals).
    intros l. induction l as [|kv l IH]; [done|]. cbn [fmap list_fmap]. intros Hnd%NoDup_cons. rewrite js_filter_cons.
    destruct Hnd as [Hn Hnd]. destruct (str_includes _ _); [|by apply IH]. cbn [fmap list_fmap]. constructor; [|by apply IH].
    intros (kv' & Heq & [_ Hin]%elem_of_js_filter)%list_elem_of_fmap. apply Hn, list_elem_of_fmap. eauto. }
  assert (∀ k, obj_lookup k (obj_assign (obj_assign [] sys) (foldl (λ o kv, obj_set kv.1 kv.2 o) [] env)) =
    match obj_lookup k env with Some v => Some v | None => if str_includes "sys" k then obj_lookup k globals else None end) as Hl.
  { intros k. rewrite obj_assign_lookup.
    - rewrite foldl_obj_set_lookup by done. cbn [obj_lookup]. destruct (obj_lookup k env); [done|].
      rewrite obj_assign_lookup by done. unfold sys.
      rewrite (obj_lookup_filter_key (str_includes "sys")). cbn [obj_lookup].
      destruct (str_includes "sys" k); [|done]. rewrite obj_entries_lookup by done. by destruct (obj_lookup k globals).
    - assert (∀ es o, obj_wf o → obj_wf (foldl (λ o kv, obj_set kv.1 kv.2 o) o es)) as H; [|apply H; constructor].
      induction es as [|kv es IH]; intros o Ho; [done|]. by apply IH, obj_set_wf. }
  split; intros k; [|intros Hk]; rewrite Hl; unfold env.
  - rewrite env_lookup, obj_entries_lookup by done. by destruct (obj_lookup k gv).
  - by rewrite env_lookup_other.
Qed.
End dsl_props.

(** ** The theorems at work *)
Section examples.
Import Canvas.

Definition dsl_nodes_ex : list Node :=
  [mk_node "begin" Operator.Begin "begin_0" None (VObj [("mode", VStr "task")]);
   mk_node "Retrieval:a" Operator.Retrieval "Retrieval_0" None (VObj []);
   mk_node "Placeholder:a" Operator.Placeholder "p_0" None (VObj [])].

Definition dsl_edges_ex : list Edge :=
  [mk_edge "e1" "begin" "Retrieval:a" (HId NodeHandleId.Start);
   mk_edge "e2" "begin" "Placeholder:a" (HId NodeHandleId.Start)].

Definition dsl_state : RFState := setEdges dsl_edges_ex (setNodes dsl_nodes_ex canvas).

Lemma dsl_ids_ex : ids_by_operator dsl_nodes_ex.
Proof.
  intros n Hn. unfold dsl_nodes_ex in Hn. repeat (apply elem_of_cons in Hn as [->|Hn]; [by repeat split|]). by apply elem_of_nil in Hn.
Qed.

Lemma dsl_directions_agree_witness :
  ∃ r ca cb da ub, buildDslComponentsByGraph 9 dsl_nodes_ex dsl_edges_ex [] = Ok r ∧
    obj_lookup "begin" r = Some ca ∧ obj_lookup "Retrieval:a" r = Some cb ∧
    prop "downstream" ca = strs da ∧ prop "upstream" cb = strs ub ∧ "Retrieval:a" ∈ da ∧ "begin" ∈ ub.
Proof.
  destruct (buildDslComponentsByGraph 9 dsl_nodes_ex dsl_edges_ex []) as [r| |] eqn:E;
    [|exfalso; vm_compute in E; discriminate E..].
  destruct (obj_lookup "begin" r) as [ca|] eqn:Ea;
    [|exfalso; vm_compute in E; injection E as <-; vm_compute in Ea; discriminate Ea].
  destruct (obj_lookup "Retrieval:a" r) as [cb|] eqn:Eb;
    [|exfalso; vm_compute in E; injection E as <-; vm_compute in Eb; discriminate Eb].
  destruct (dsl_directions_agree 9 dsl_nodes_ex dsl_edges_ex [] r
    (mk_node "begin" Operator.Begin "begin_0" None (VObj [("mode", VStr "task")]))
    (mk_node "Retrieval:a" Operator.Retrieval "Retrieval_0" None (VObj [])) ca cb) as (da & ub & H1 & H2 & H3 & H4);
    [apply (bool_decide_unpack _); vm_compute; exact I|apply dsl_ids_ex|exact E|left|right; left|reflexivity|reflexivity
    |exact Ea|exact Eb|].
  exists r, ca, cb, da, ub. do 5 (split; [done|]).
  split; [apply H3|apply H4]; exists (mk_edge "e1" "begin" "Retrieval:a" (HId NodeHandleId.Start));
    (split; [left|by repeat split]).
Defined.

Lemma dsl_no_placeholder_witness :
  ∃ d, buildDslData 9 None None dsl_state [("globals", VObj [])] = Ok d ∧
    ("Placeholder:a" ∉ (dsl_components d).*1) ∧
    (∀ e, e ∈ dsl_edges d → source e ≠ "Placeholder:a" ∧ target e ≠ "Placeholder:a").
Proof.
  destruct (buildDslData 9 None None dsl_state [("globals", VObj [])]) as [d| |] eqn:E;
    [|exfalso; vm_compute in E; discriminate E..].
  exists d. split; [done|].
  destruct (dsl_no_placeholder 9 None None dsl_state [("globals", VObj [])] d
    (mk_node "Placeholder:a" Operator.Placeholder "p_0" None (VObj []))) as (H1 & _ & H2 & _).
  - apply (bool_decide_unpack _). vm_compute. exact I.
  - apply list_elem_of_In. simpl. auto.
  - reflexivity.
  - exact E.
  - split; [exact H1|exact H2].
Defined.

Lemma dsl_terminates_witness : buildDslComponentsByGraph 12 (nodes canvas) (edges canvas) [] ≠ Diverge.
Proof.
  apply (dsl_terminates (nodes canvas) (edges canvas) [] 12); [|simpl; lia].
  intros a Ha. assert (∀ x y, tc (estep (edges canvas) is_agent_edge) x y → x = "Agent:a" ∧ y = "Agent:b") as H.
  { intros x y Hxy.
    assert (∀ x y, estep (edges canvas) is_agent_edge x y → x = "Agent:a" ∧ y = "Agent:b") as Hs.
    { intros u v (e & He & Hp & <- & <-). simpl in He.
      repeat (apply elem_of_cons in He as [->|He]; [first [done|discriminate Hp]|]). by apply elem_of_nil in He. }
    induction Hxy as [x y Hxy|x y z Hxy _ [-> _]]; [by apply Hs|]. apply Hs in Hxy as [_ Hxy]. discriminate Hxy. }
  destruct (H a a Ha) as [-> Hb]. discriminate Hb.
Defined.

Lemma dsl_globals_spec_witness :
  let dsl := [("globals", VObj [("sys.query", VStr "q"); ("old", VStr "o")])] in
  let gv := [("a", VObj [("value", VStr "1")])] in
  ∃ r g, buildDslGlobalVariables dsl (Some gv) = Ok r ∧ obj_get "globals" r = VObj g ∧
    obj_lookup "sys.query" g = Some (VStr "q") ∧ obj_lookup "old" g = None ∧ obj_lookup "env.a" g = Some (VStr "1").
Proof.
  intros dsl gv. destruct (buildDslGlobalVariables dsl (Some gv)) as [r| |] eqn:E;
    [|exfalso; vm_compute in E; discriminate E..].
  destruct (dsl_globals_spec dsl gv [("sys.query", VStr "q"); ("old", VStr "o")] r) as (g & Hg & _ & H1 & H2);
    [reflexivity|apply (bool_decide_unpack _); vm_compute; exact I..|exact E|].
  exists r, g. split; [done|]. split; [done|]. split; [|split].
  - rewrite H2 by reflexivity. reflexivity.
  - rewrite H2 by reflexivity. reflexivity.
  - exact (H1 "a").
Defined.
End examples.
