(* ===== verification/Variables.v ===== *)
(** * The variables an operator may refer to

    utils/canvas-util.tsx and pages/agent/hooks/use-get-begin-query.tsx: the
    groups of options a form offers when a field of an operator takes a
    variable (the outputs of the operators upstream, of the enclosing loop and
    of what is upstream of the enclosing group, the inputs of the Begin
    operator, the globals and the conversation variables), and the way back
    from a stored reference to the label and the type shown for it.  [t] is
    the translation function.  Icons are left out, and an element that only
    wraps a text is that text. *)
From S2P Require Import Prelude JsValue Graph Libs FormUtils Downstream GraphStore StoreProps.
From Stdlib Require Import Ascii.
Open Scope list_scope.
Open Scope nat_scope.
Open Scope js_scope.

(** ** Upstream nodes *)
Section upstream.
Variable edges : list Edge.

(** The recursion has no visited set; [None] is exhausted fuel. *)
Fixpoint filterAllUpstreamNodeIds (fuel : nat) (nodeIds : list string) : option (list string) :=
  match fuel with
  | O => None
  | S fuel =>
      foldl (λ acc nodeId,
        pre ← acc;
        let currentEdges := js_filter (λ x, target x === nodeId) edges in
        let upstreamNodeIds := map source currentEdges in
        rest ← filterAllUpstreamNodeIds fuel upstreamNodeIds;
        let ids := upstreamNodeIds ++ rest in
        Some (push_all pre ids)) (Some []) nodeIds
  end.
End upstream.

Definition filterChildNodeIds (nodes : list Node) (nodeId : option string) : list string :=
  map n_id (js_filter (λ x, n_parentId x === nodeId) nodes).

(** [Object.entries(v)]; the keys alone are [Object.keys(v)]. *)
Definition entries_of (v : val) : outcome (list (string * val)) :=
  match v with
  | VUndef | VNull => Throw
  | VObj o => Ok (obj_entries o)
  | VArr l => Ok (imap (λ i x, (pretty (Z.of_nat i), x)) l)
  | VStr s => Ok (imap (λ i a, (pretty (Z.of_nat i), VStr (String a ""))) (String.list_ascii_of_string s))
  | VBool _ | VNum _ => Ok []
  end.

(** An exhausted recursion of the upstream search. *)
Definition or_diverge {A} (o : option A) : outcome A := match o with Some a => Ok a | None => Diverge end.

(** ** Options *)
Record DefaultOptionType := {
  o_label : val;
  o_value : string;
  o_parentLabel : string;
  o_type : val
}.

Record option_group := {
  g_label : string;
  g_options : list DefaultOptionType
}.

Definition AgentStructuredOutputField : string := "structured".

Definition isAgentStructured (id label : string) : bool :=
  (label === AgentStructuredOutputField) && starts_with (Operator.Agent +:+ ":") id.

Definition buildVariableValue (value nodeId : string) : string := nodeId +:+ "@" +:+ value.

Definition secondary_option (nodeId parentLabel : string) (kv : string * val) : DefaultOptionType :=
  {| o_label := VStr kv.1; o_value := buildVariableValue kv.1 nodeId; o_parentLabel := parentLabel;
     o_type := if isAgentStructured nodeId kv.1 then VStr "object" else prop "type" kv.2 |}.

Definition buildSecondaryOutputOptions (outputs : val) (nodeId parentLabel : string)
    : outcome (list DefaultOptionType) :=
  es ← entries_of (match outputs with VUndef => VObj [] | v => v end);
  Ok (map (secondary_option nodeId parentLabel) es).

Definition buildOutputOptions (x : Node) : outcome option_group :=
  outputs ← read "outputs" (form (n_data x));
  os ← buildSecondaryOutputOptions outputs (n_id x) (name (n_data x));
  Ok {| g_label := name (n_data x); g_options := os |}.

Definition BeginId : string := "begin".

Definition flatOptions (options : list option_group) : list DefaultOptionType :=
  foldl (λ pre cur, pre ++ g_options cur) [] options.

Module AgentVariableType.
Inductive t := Begin | Conversation.

#[global] Instance t_eq_dec : EqDecision t.
Proof. solve_decision. Defined.
End AgentVariableType.

Section options.
Context {L : Lodash}.

Definition has_outputs (x : Node) : bool := negb (lo_isEmpty (prop "outputs" (form (n_data x)))).

Definition buildNodeOutputOptions (nodes : list Node) (nodeIds : list string) : outcome (list option_group) :=
  let nodeWithOutputList := js_filter (λ x, js_some (λ y, y === n_id x) nodeIds && has_outputs x) nodes in
  mapM buildOutputOptions nodeWithOutputList.

Definition buildUpstreamNodeOutputOptions (fuel : nat) (nodes : list Node) (edges : list Edge)
    (nodeId : option string) : outcome (list option_group) :=
  match nodeId with
  | None | Some "" => Ok []
  | Some nodeId =>
      upstreamIds ← or_diverge (filterAllUpstreamNodeIds edges fuel [nodeId]);
      buildNodeOutputOptions nodes upstreamIds
  end.

Definition buildChildOutputOptions (nodes : list Node) (nodeId : option string) : outcome (list option_group) :=
  mapM buildOutputOptions (js_filter (λ x, (n_parentId x === nodeId) && has_outputs x) nodes).

(** ** The hooks *)
Definition useBuildUpstreamNodeOutputOptions (fuel : nat) (nodeId : option string) (s : RFState)
    : outcome (list option_group) :=
  buildUpstreamNodeOutputOptions fuel (nodes s) (edges s) nodeId.

Definition useBuildParentOutputOptions (parentId : option string) (s : RFState) : outcome (list option_group) :=
  match getNode parentId s with
  | Some parentNode =>
      if js_includes [Operator.Loop] (label (n_data parentNode))
      then options ← buildOutputOptions parentNode; Ok [options]
      else Ok []
  | None => Ok []
  end.

Definition useBuildVariableOptions (fuel : nat) (nodeId parentId : option string) (s : RFState)
    : outcome (list option_group) :=
  upstreamNodeOutputOptions ← useBuildUpstreamNodeOutputOptions fuel nodeId s;
  parentNodeOutputOptions ← useBuildParentOutputOptions parentId s;
  parentUpstreamNodeOutputOptions ← useBuildUpstreamNodeOutputOptions fuel parentId s;
  Ok (upstreamNodeOutputOptions ++ parentNodeOutputOptions ++ parentUpstreamNodeOutputOptions).

(** *** Inputs of the Begin operator *)
Definition buildBeginInputListFromObject (inputs : val) : outcome (list obj) :=
  es ← entries_of (js_or inputs (VObj []));
  Ok (map (λ kv, obj_set "key" (VStr kv.1) (spread (js_or kv.2 (VObj [])))) es).

Definition useSelectBeginNodeDataInputs (s : RFState) : outcome (list obj) :=
  buildBeginInputListFromObject
    (match getNode (Some BeginId) s with
     | Some n => js_coalesce (prop "inputs" (form (n_data n))) (VObj [])
     | None => VObj []
     end).

Definition useIsTaskMode (isTask : option bool) (s : RFState) : bool :=
  match isTask with
  | Some b => b
  | None =>
      match getNode (Some BeginId) s with
      | Some node => prop "mode" (form (n_data node)) === VStr "task"
      | None => false
      end
  end.

(** Also [useGetBeginNodeDataInputs]. *)
Definition useGetBeginNodeDataQuery (s : RFState) : outcome (list obj) :=
  buildBeginInputListFromObject
    (match getNode (Some BeginId) s with
     | Some n => lo_getOr (form (n_data n)) [PKey "inputs"] (VObj [])
     | None => VObj []
     end).

Definition useGetBeginNodeDataQueryIsSafe (s : RFState) : outcome bool :=
  inputs ← useSelectBeginNodeDataInputs s;
  Ok (negb (js_some (λ q, negb (truthy (obj_get "optional" q)) && (obj_get "type" q === VStr "file")) inputs)).

Definition StringList : list string := ["line"; "paragraph"; "options"].

Definition transferToVariableType (type : val) : val :=
  if js_some (λ x, VStr x === type) StringList then VStr "string" else type.

Context (t : string → string).

Definition begin_option (x : obj) : DefaultOptionType :=
  {| o_label := obj_get "name" x; o_value := "begin@" +:+ key_of (obj_get "key" x);
     o_parentLabel := t "flow.beginInput"; o_type := transferToVariableType (obj_get "type" x) |}.

Definition useBuildBeginDynamicVariableOptions (s : RFState) : outcome (list option_group) :=
  inputs ← useSelectBeginNodeDataInputs s;
  Ok [{| g_label := t "flow.beginInput"; g_options := map begin_option inputs |}].

(** *** Globals and conversation variables *)
Definition Env : string := "env.".

Definition global_option (kv : string * val) : DefaultOptionType :=
  {| o_label := VStr kv.1; o_value := kv.1; o_parentLabel := t "flow.beginInput";
     o_type := VStr (if is_array kv.2 then "array" +:+ (if kv.1 === "sys.files" then "<file>" else "")
                     else typeof kv.2) |}.

(** [dsl] is what the server returned for the agent, if it did. *)
Definition useBuildGlobalWithBeginVariableOptions (dsl : val) (s : RFState) : outcome (list option_group) :=
  dynamicBeginOptions ← useBuildBeginDynamicVariableOptions s;
  globals ← entries_of (js_coalesce (prop "globals" dsl) (VObj []));
  let globalOptions := map global_option (js_filter (λ kv, negb (starts_with Env kv.1)) globals) in
  Ok (match dynamicBeginOptions with
      | g :: _ => [{| g_label := g_label g; g_options := g_options g ++ globalOptions |}]
      | [] => [{| g_label := ""; g_options := globalOptions |}]
      end).

Definition conversation_option (kv : string * val) : outcome DefaultOptionType :=
  type ← read "type" kv.2;
  Ok {| o_label := VStr (Env +:+ kv.1); o_value := Env +:+ kv.1;
        o_parentLabel := t "flow.conversationVariable"; o_type := type |}.

Definition useBuildConversationVariableOptions (dsl : val) : outcome (list option_group) :=
  variables ← entries_of (js_coalesce (prop "variables" dsl) (VObj []));
  os ← mapM conversation_option variables;
  Ok [{| g_label := t "flow.conversationVariable"; g_options := os |}].

(** *** All options *)
(** [node] is the operator whose form is open, if there is one. *)
Definition useBuildQueryVariableOptions (fuel : nat) (dsl : val) (node : option Node) (nodeIds : list string)
    (variablesExceptOperatorOutputs : option (list AgentVariableType.t)) (s : RFState)
    : outcome (list option_group) :=
  options ← useBuildVariableOptions fuel (n_id <$> node) (node ≫= n_parentId) s;
  conversationOptions ← useBuildConversationVariableOptions dsl;
  globalWithBeginVariableOptions ← useBuildGlobalWithBeginVariableOptions dsl s;
  if (nodeIds !== []) || (default [] variablesExceptOperatorOutputs !== [])
  then
    nodeOutputOptions ← buildNodeOutputOptions (nodes s) nodeIds;
    Ok (mjoin (map (λ x, match x with
                         | AgentVariableType.Begin => globalWithBeginVariableOptions
                         | AgentVariableType.Conversation => conversationOptions
                         end) (default [] variablesExceptOperatorOutputs)) ++ nodeOutputOptions)
  else Ok (globalWithBeginVariableOptions ++ conversationOptions ++ options).

(** ** Options of the types a field takes *)
Definition type_matches (x : string) (type : val) : bool :=
  let x := lo_toLower (VStr x) in
  if starts_with "array" x then str_includes x (lo_toLower type) else lo_toLower type === x.

Definition option_allowed (types : list string) (y : DefaultOptionType) : bool :=
  js_some (λ x, type_matches x (o_type y)) types ||
  isAgentStructured (o_value y) (slice_last (String.length AgentStructuredOutputField) (o_value y)).

Definition filter_options_by_types (types : list string) (nextOptions : list option_group) : list option_group :=
  if types === [] then nextOptions
  else map (λ x, {| g_label := g_label x; g_options := js_filter (option_allowed types) (g_options x) |}) nextOptions.

Definition useFilterQueryVariableOptionsByTypes (fuel : nat) (dsl : val) (node : option Node) (types : list string)
    (nodeIds : list string) (variablesExceptOperatorOutputs : option (list AgentVariableType.t)) (s : RFState)
    : outcome (list option_group) :=
  nextOptions ← useBuildQueryVariableOptions fuel dsl node nodeIds variablesExceptOperatorOutputs s;
  Ok (filter_options_by_types types nextOptions).

(** ** Components as options *)
Definition ExcludedNodes : list string := [Operator.Categorize; Operator.Begin; Operator.Note].

Definition filterChildNodesToSameParentOrExternal (parentId : option string) (node : Node) : bool :=
  match parentId with
  | None | Some "" => n_parentId node === None
  | Some p => ((n_parentId node === Some p) || (n_parentId node === None)) && (n_id node !== p)
  end.

Definition useBuildComponentIdOptions (nodeId parentId : option string) (s : RFState) : list option_group :=
  [{| g_label := "Component Output";
      g_options := map (λ x, {| o_label := VStr (name (n_data x)); o_value := n_id x; o_parentLabel := "";
                                o_type := VUndef |})
        (js_filter (λ x, (Some (n_id x) !== nodeId) &&
                         negb (js_some (λ y, y === label (n_data x)) ExcludedNodes) &&
                         filterChildNodesToSameParentOrExternal parentId x) (nodes s)) |}].

Definition useBuildComponentIdAndBeginOptions (nodeId parentId : option string) (s : RFState)
    : outcome (list option_group) :=
  beginOptions ← useBuildBeginDynamicVariableOptions s;
  Ok (beginOptions ++ useBuildComponentIdOptions nodeId parentId s).

Definition find_option (val_ : string) (flattenOptions : list DefaultOptionType) : option DefaultOptionType :=
  js_find (λ x, o_value x === val_) flattenOptions.

Definition useGetComponentLabelByValue (nodeId val_ : string) (s : RFState) : outcome val :=
  options ← useBuildComponentIdAndBeginOptions (Some nodeId) None s;
  Ok (match find_option val_ (flatOptions options) with Some x => o_label x | None => VUndef end).

Definition useFlattenQueryVariableOptions (fuel : nat) (dsl : val) (nodeId : option string) (nodeIds : list string)
    (variablesExceptOperatorOutputs : option (list AgentVariableType.t)) (s : RFState)
    : outcome (list DefaultOptionType) :=
  nextOptions ← useBuildQueryVariableOptions fuel dsl (getNode nodeId s) nodeIds variablesExceptOperatorOutputs s;
  Ok (flatOptions nextOptions).
End options.

(** ** Upstream is downstream of the reversed edges *)
Definition rev_edge (e : Edge) : Edge :=
  {| e_id := e_id e; source := target e; target := source e; sourceHandle := targetHandle e;
     targetHandle := sourceHandle e; e_data := e_data e |}.

(** The edge step of the whole canvas. *)
Abbreviation any_edge := (λ _ : Edge, true).

Lemma upstream_sources es n :
  map target (js_filter (λ x, (source x === n) && true) (map rev_edge es)) =
  map source (js_filter (λ x, target x === n) es).
Proof.
  induction es as [|e es IH]; [done|]. cbn [map]. rewrite !js_filter_cons. cbn beta. rewrite andb_true_r. simpl.
  destruct (bool_decide (target e = n)); cbn [map]; by rewrite IH.
Qed.

Lemma filterAllUpstream_rev es fuel ns :
  filterAllUpstreamNodeIds es fuel ns = filterAllDownstreamNodeIds (map rev_edge es) fuel ns any_edge.
Proof.
  revert ns. induction fuel as [|fuel IH]; intros ns; [done|]. simpl.
  generalize (Some ([] : list string)). induction ns as [|n ns IHn]; intros acc; [done|]. cbn [foldl].
  rewrite IHn. f_equal. destruct acc as [pre|]; [|done]. simpl. by rewrite upstream_sources, IH.
Qed.

Lemma estep_rev es a b : estep (map rev_edge es) any_edge a b ↔ estep es any_edge b a.
Proof.
  split.
  - intros (e' & (e & -> & He)%list_elem_of_fmap & _ & <- & <-). by exists e.
  - intros (e & He & _ & <- & <-). exists (rev_edge e). split; [|done]. apply list_elem_of_fmap. eauto.
Qed.

Lemma tc_rev es a b : tc (estep (map rev_edge es) any_edge) a b ↔ tc (estep es any_edge) b a.
Proof.
  split; (induction 1 as [a b H|a b c H _ IH]; [by apply tc_once, estep_rev|]);
    (eapply tc_r; [done|]; by apply estep_rev).
Qed.

Lemma rtc_rev es a b : rtc (estep (map rev_edge es) any_edge) a b ↔ rtc (estep es any_edge) b a.
Proof. rewrite !rtc_tc, tc_rev. naive_solver. Qed.

(** The recursion ends exactly when there is no cycle upstream, and then it
    lists the nodes with a path to one of the given nodes, each once. *)
Lemma filterAllUpstream_spec es fuel ns l :
  filterAllUpstreamNodeIds es fuel ns = Some l →
  NoDup l ∧ ∀ b, b ∈ l ↔ ∃ n, n ∈ ns ∧ tc (estep es any_edge) b n.
Proof.
  rewrite filterAllUpstream_rev. intros [? Hl]%filterAll_spec. split; [done|]. intros b. rewrite Hl.
  by setoid_rewrite tc_rev.
Qed.

Lemma filterAllUpstream_terminates es fuel ns :
  (∀ n a, n ∈ ns → rtc (estep es any_edge) a n → ¬ tc (estep es any_edge) a a) → S (length es) < fuel →
  is_Some (filterAllUpstreamNodeIds es fuel ns).
Proof.
  rewrite filterAllUpstream_rev. intros Hac Hf. apply filterAll_terminates.
  - intros n a Hn Ha Hc. rewrite rtc_rev in Ha. rewrite tc_rev in Hc. exact (Hac n a Hn Ha Hc).
  - by rewrite length_map.
Qed.

Lemma filterAllUpstream_diverges es fuel ns n a :
  n ∈ ns → rtc (estep es any_edge) a n → tc (estep es any_edge) a a → filterAllUpstreamNodeIds es fuel ns = None.
Proof.
  rewrite filterAllUpstream_rev, <-rtc_rev, <-tc_rev. apply filterAll_diverges.
Qed.

(** ** What the groups hold *)
Definition outputs_of (n : Node) : obj := obj_of_val (prop "outputs" (form (n_data n))).

(** A form, whose outputs are an object if there are any. *)
Definition form_ok (n : Node) : Prop :=
  nullish (form (n_data n)) = false ∧
  (prop "outputs" (form (n_data n)) = VUndef ∨ ∃ o, prop "outputs" (form (n_data n)) = VObj o).

Definition group_of (n : Node) : option_group :=
  {| g_label := name (n_data n);
     g_options := map (secondary_option (n_id n) (name (n_data n))) (obj_entries (outputs_of n)) |}.

Lemma buildOutputOptions_ok n : form_ok n → buildOutputOptions n = Ok (group_of n).
Proof.
  intros [Hf Ho]. unfold buildOutputOptions, read, group_of, outputs_of. rewrite Hf.
  by destruct Ho as [Ho|[o Ho]]; rewrite Ho.
Qed.

Lemma mapM_buildOutputOptions ns :
  (∀ n, n ∈ ns → form_ok n) → mapM buildOutputOptions ns = Ok (map group_of ns).
Proof.
  intros Hns. apply mapM_Ok. apply Forall2_fmap_r, Forall_Forall2_diag, Forall_forall.
  intros n Hn. by apply buildOutputOptions_ok, Hns.
Qed.

Lemma flatOptions_app gs gs' : flatOptions (gs ++ gs') = flatOptions gs ++ flatOptions gs'.
Proof.
  unfold flatOptions. rewrite foldl_app. generalize (foldl (λ pre cur, pre ++ g_options cur) [] gs) as pre.
  assert (∀ pre pre' : list DefaultOptionType,
    foldl (λ pre cur, pre ++ g_options cur) (pre ++ pre') gs' =
    pre ++ foldl (λ pre cur, pre ++ g_options cur) pre' gs') as H.
  { induction gs' as [|g gs' IH]; intros pre pre'; [done|]. cbn [foldl]. by rewrite <-app_assoc, IH. }
  intros pre. by rewrite <-(H pre []), app_nil_r.
Qed.

Lemma flatOptions_cons g gs : flatOptions (g :: gs) = g_options g ++ flatOptions gs.
Proof. apply (flatOptions_app [g] gs). Qed.

Lemma elem_of_flatOptions o gs : o ∈ flatOptions gs ↔ ∃ g, g ∈ gs ∧ o ∈ g_options g.
Proof.
  induction gs as [|g gs IH]; [set_solver|]. rewrite flatOptions_cons, elem_of_app, IH. set_solver.
Qed.

(** An option of an operator is one of its declared outputs. *)
Lemma elem_of_group_of n o :
  o ∈ g_options (group_of n) ↔
  ∃ k v, (k, v) ∈ outputs_of n ∧ o = secondary_option (n_id n) (name (n_data n)) (k, v).
Proof.
  unfold group_of. simpl. change (map ?f ?l) with (f <$> l). rewrite list_elem_of_fmap. split.
  - intros ([k v] & -> & Hin). exists k, v. by rewrite obj_entries_Permutation in Hin.
  - intros (k & v & Hin & ->). exists (k, v). by rewrite obj_entries_Permutation.
Qed.

Section exact.
Context {L : Lodash} {HL : LodashLaws L}.
Variable s : RFState.
Hypothesis Hforms : ∀ n, n ∈ nodes s → form_ok n.

Lemma has_outputs_spec n : form_ok n → has_outputs n = false → outputs_of n = [].
Proof.
  intros [_ Ho]. unfold has_outputs, outputs_of. rewrite negb_false_iff.
  destruct Ho as [Ho|[o Ho]]; rewrite Ho; [done|]. rewrite isEmpty_obj. by intros ->%bool_decide_eq_true.
Qed.

Lemma buildNodeOutputOptions_ok ids :
  ∃ gs, buildNodeOutputOptions (nodes s) ids = Ok gs ∧
    (∀ g, g ∈ gs → ∃ n, n ∈ nodes s ∧ n_id n ∈ ids ∧ g = group_of n) ∧
    ∀ o, o ∈ flatOptions gs ↔ ∃ n, n ∈ nodes s ∧ n_id n ∈ ids ∧ o ∈ g_options (group_of n).
Proof.
  unfold buildNodeOutputOptions. eexists. split.
  { apply mapM_buildOutputOptions. intros n [_ Hn]%elem_of_js_filter. by apply Hforms. }
  assert (∀ n, js_some (λ y, y === n_id n) ids = true ↔ n_id n ∈ ids) as Hids.
  { intros n. rewrite js_some_true. setoid_rewrite bool_decide_eq_true. naive_solver. }
  split.
  - intros g (n & -> & [H ?]%elem_of_js_filter)%list_elem_of_fmap. apply andb_true_iff in H as [?%Hids _]. eauto.
  - intros o. rewrite elem_of_flatOptions. split.
    + intros (g & (n & -> & [H ?]%elem_of_js_filter)%list_elem_of_fmap & ?).
      apply andb_true_iff in H as [?%Hids _]. eauto.
    + intros (n & Hn & Hi & Ho). exists (group_of n). split; [|done]. apply list_elem_of_fmap. exists n. split; [done|].
      apply elem_of_js_filter. split; [|done]. apply andb_true_iff. split; [by apply Hids|].
      destruct (has_outputs n) eqn:E; [done|]. apply has_outputs_spec in E; [|by apply Hforms].
      apply elem_of_group_of in Ho as (k & v & Hin & _). rewrite E in Hin. by apply elem_of_nil in Hin.
Qed.

Definition upstream_of (n : Node) (i : option string) : Prop :=
  ∃ j, i = Some j ∧ j ≠ "" ∧ tc (estep (edges s) any_edge) (n_id n) j.

(** No cycle on a path to the node. *)
Definition no_cycle_above (i : option string) : Prop :=
  ∀ j a, i = Some j → j ≠ "" → rtc (estep (edges s) any_edge) a j → ¬ tc (estep (edges s) any_edge) a a.

Definition options_fuel : nat := S (S (length (edges s))).

Lemma upstream_options_Ok fuel i gs :
  useBuildUpstreamNodeOutputOptions fuel i s = Ok gs →
  no_cycle_above i ∧ ∀ o, o ∈ flatOptions gs ↔ ∃ n, n ∈ nodes s ∧ upstream_of n i ∧ o ∈ g_options (group_of n).
Proof.
  unfold useBuildUpstreamNodeOutputOptions, buildUpstreamNodeOutputOptions.
  assert (∀ gs, Ok [] = Ok gs → (i = None ∨ i = Some "") →
    no_cycle_above i ∧ ∀ o, o ∈ flatOptions gs ↔ ∃ n, n ∈ nodes s ∧ upstream_of n i ∧ o ∈ g_options (group_of n)) as Hnil.
  { intros ? [= <-] Hi. split; [destruct Hi as [->| ->]; intros j a Hj Hne; by simplify_eq|]. intros o. split; [by intros ?%elem_of_nil|].
    intros (n & _ & (j & Hj & Hne & _) & _). destruct Hi as [->| ->]; by simplify_eq. }
  destruct i as [[|c i]|]; [by intros; apply Hnil; auto| |by intros; apply Hnil; auto].
  clear Hnil. destruct (filterAllUpstreamNodeIds _ _ _) as [ids|] eqn:E; simpl; [|done]. intros Hgs.
  destruct (buildNodeOutputOptions_ok ids) as (gs' & Hgs' & _ & Ho). rewrite Hgs in Hgs'. simplify_eq.
  split.
  - intros j a [= <-] _ Ha Hc. rewrite (filterAllUpstream_diverges _ _ _ (String c i) a) in E; [done|set_solver|done|done].
  - apply filterAllUpstream_spec in E as [_ Hids]. intros o. rewrite Ho. unfold upstream_of.
    setoid_rewrite Hids. split; intros (n & Hn & H & Hoo); exists n; (split; [done|split; [|done]]).
    + destruct H as (m & ->%list_elem_of_singleton & ?). by eexists.
    + destruct H as (j & [= <-] & _ & ?). eexists. split; [by apply list_elem_of_singleton|done].
Qed.

Lemma upstream_options_total i :
  no_cycle_above i → ∃ gs, useBuildUpstreamNodeOutputOptions options_fuel i s = Ok gs.
Proof.
  intros Hac. unfold useBuildUpstreamNodeOutputOptions, buildUpstreamNodeOutputOptions.
  destruct i as [[|c i]|]; [by eauto| |by eauto].
  destruct (filterAllUpstream_terminates (edges s) options_fuel [String c i]) as [ids Hids].
  { intros n a ->%list_elem_of_singleton. by apply Hac. }
  { unfold options_fuel. lia. }
  rewrite Hids. simpl. destruct (buildNodeOutputOptions_ok ids) as (gs & ? & _). eauto.
Qed.

Lemma parent_options_Ok parentId :
  ∃ gs, useBuildParentOutputOptions parentId s = Ok gs ∧
    ∀ o, o ∈ flatOptions gs ↔
      ∃ n, getNode parentId s = Some n ∧ label (n_data n) = Operator.Loop ∧ o ∈ g_options (group_of n).
Proof.
  unfold useBuildParentOutputOptions. destruct (getNode parentId s) as [n|] eqn:E.
  2:{ exists []. split; [done|]. intros o. split; [by intros ?%elem_of_nil|naive_solver]. }
  assert (form_ok n) as Hn by (apply js_find_Some in E as [? _]; by apply Hforms).
  unfold js_includes. case_bool_decide as Hl.
  - rewrite buildOutputOptions_ok by done. eexists. split; [done|]. intros o. rewrite elem_of_flatOptions.
    apply list_elem_of_singleton in Hl. setoid_rewrite list_elem_of_singleton. naive_solver.
  - exists []. split; [done|]. intros o. split; [by intros ?%elem_of_nil|]. intros (? & [= <-] & Hl' & _).
    by rewrite Hl', list_elem_of_singleton in Hl.
Qed.

(** C17: the variables offered to an operator are exactly the declared outputs
    of the operators with a path to it, of the loop that contains it, and of
    the operators with a path to the group that contains it.  The search ends
    exactly when there is no cycle on these paths, and then within as many
    levels as there are edges, and two. *)
Theorem variable_options_exact nodeId parentId :
  (no_cycle_above nodeId ∧ no_cycle_above parentId →
     ∃ gs, useBuildVariableOptions options_fuel nodeId parentId s = Ok gs) ∧
  ∀ fuel gs, useBuildVariableOptions fuel nodeId parentId s = Ok gs →
    (no_cycle_above nodeId ∧ no_cycle_above parentId) ∧
    ∀ w, w ∈ map o_value (flatOptions gs) ↔
      ∃ n k, n ∈ nodes s ∧ k ∈ (outputs_of n).*1 ∧ w = n_id n +:+ "@" +:+ k ∧
        (upstream_of n nodeId ∨ (getNode parentId s = Some n ∧ label (n_data n) = Operator.Loop) ∨
         upstream_of n parentId).
Proof.
  destruct (parent_options_Ok parentId) as (gp & Hp & Hgp). unfold useBuildVariableOptions. split.
  - intros [H1 H2]. apply upstream_options_total in H1 as [g1 ->], H2 as [g2 ->]. rewrite Hp. simpl. eauto.
  - intros fuel gs. destruct (useBuildUpstreamNodeOutputOptions fuel nodeId s) as [g1| |] eqn:E1; [|done..].
    rewrite Hp. destruct (useBuildUpstreamNodeOutputOptions fuel parentId s) as [g2| |] eqn:E2; [|done..].
    intros [= <-]. apply upstream_options_Ok in E1 as [H1 Hg1], E2 as [H2 Hg2]. split; [done|]. intros w.
    change (map ?f ?l) with (f <$> l). rewrite list_elem_of_fmap. split.
    + intros (o & -> & Ho). rewrite !flatOptions_app, !elem_of_app, Hg1, Hg2, Hgp in Ho.
      assert (∃ n, n ∈ nodes s ∧ o ∈ g_options (group_of n) ∧
        (upstream_of n nodeId ∨ (getNode parentId s = Some n ∧ label (n_data n) = Operator.Loop) ∨
         upstream_of n parentId)) as (n & Hn & Hin & Hv).
      { destruct Ho as [|[(n & Hn & ? & ?)|]]; [naive_solver| |naive_solver].
        exists n. apply js_find_Some in Hn as Hn'. naive_solver. }
      apply elem_of_group_of in Hin as (k & v & Hk & ->). exists n, k. split; [done|]. split; [|done].
      apply list_elem_of_fmap. by exists (k, v).
    + intros (n & k & Hn & ([k' v] & -> & Hk)%list_elem_of_fmap & -> & Hv).
      exists (secondary_option (n_id n) (name (n_data n)) (k', v)). split; [done|].
      rewrite !flatOptions_app, !elem_of_app, Hg1, Hg2, Hgp.
      assert (secondary_option (n_id n) (name (n_data n)) (k', v) ∈ g_options (group_of n)) as Hin
        by (apply elem_of_group_of; eauto). naive_solver.
Qed.
End exact.

(** ** References are unambiguous *)
Lemma obj_wf_inj (o : obj) k v v' : obj_wf o → (k, v) ∈ o → (k, v') ∈ o → v = v'.
Proof.
  unfold obj_wf. induction o as [|[k0 v0] o IH]; [by intros _ ?%elem_of_nil|].
  intros [Hk Ho]%NoDup_cons. assert (∀ w, (k0, w) ∉ o) as Hn.
  { intros w Hw. apply Hk, list_elem_of_fmap. by exists (k0, w). }
  intros [?|Hv]%elem_of_cons [?|Hv']%elem_of_cons; simplify_eq; [done|by destruct (Hn v')|by destruct (Hn v)|by apply IH].
Qed.

Definition at_sign : ascii := "@"%char.

(** The form [id@key] is read back by splitting at the first at-sign. *)
Lemma variable_value_inj id id' k k' :
  count_char at_sign id = 0 → count_char at_sign id' = 0 →
  id +:+ "@" +:+ k = id' +:+ "@" +:+ k' → id = id' ∧ k = k'.
Proof.
  change ("@" +:+ k) with (String at_sign k). change ("@" +:+ k') with (String at_sign k').
  assert (∀ x : string, "" +:+ x = x) as Hnil by done.
  revert id'. induction id as [|a id IH]; intros [|a' id']; rewrite ?str_cons_app, ?Hnil; simpl.
  - by intros _ _ [= ->].
  - intros _ H [= <- _]. by rewrite bool_decide_true in H.
  - intros H _ [= -> _]. by rewrite bool_decide_true in H.
  - intros H H' [= -> He]. destruct (bool_decide_reflect (a' = at_sign)); [done|].
    by destruct (IH id' H H' He) as [-> ->].
Qed.

Lemma at_sign_in_value id k : count_char at_sign (id +:+ "@" +:+ k) ≠ 0.
Proof. rewrite !count_char_app. simpl. lia. Qed.

(** An object, if the value is there at all. *)
Definition opt_obj (v : val) (o : obj) : Prop := obj_wf o ∧ (v = VObj o ∨ (nullish v = true ∧ o = [])).

Lemma entries_of_opt_obj v o es :
  opt_obj v o → entries_of (js_coalesce v (VObj [])) = Ok es → obj_wf es ∧ ∀ kv, kv ∈ es ↔ kv ∈ o.
Proof.
  intros [Hwf Hv]. assert (js_coalesce v (VObj []) = VObj o) as ->.
  { destruct Hv as [->|[Hn ->]]; [done|]. unfold js_coalesce. by rewrite Hn. }
  intros [= <-]. split; [by apply obj_entries_wf|]. intros kv. by rewrite obj_entries_Permutation.
Qed.

Section references.
Context {L : Lodash} {HL : LodashLaws L} (t : string → string).
Variables (s : RFState) (dsl : val) (begin_inputs globals variables : obj).

Definition begin_inputs_value : val :=
  match getNode (Some BeginId) s with Some n => prop "inputs" (form (n_data n)) | None => VUndef end.

(** Identifiers are distinct and without an at-sign, the Begin operator has no
    output (those of a webhook) with the name of one of its inputs, and no name
    of a global or a conversation variable has an at-sign. *)
Record names_ok : Prop := {
  ok_forms : ∀ n, n ∈ nodes s → form_ok n;
  ok_ids : NoDup (map n_id (nodes s));
  ok_at : ∀ n, n ∈ nodes s → count_char at_sign (n_id n) = 0;
  ok_outputs : ∀ n, n ∈ nodes s → obj_wf (outputs_of n);
  ok_begin : ∀ n k v w, n ∈ nodes s → n_id n = BeginId → (k, v) ∈ outputs_of n → (k, w) ∉ begin_inputs;
  ok_inputs : opt_obj begin_inputs_value begin_inputs;
  ok_globals : opt_obj (prop "globals" dsl) globals;
  ok_globals_at : ∀ k v, (k, v) ∈ globals → count_char at_sign k = 0;
  ok_variables : opt_obj (prop "variables" dsl) variables;
  ok_variables_at : ∀ k v, (k, v) ∈ variables → count_char at_sign k = 0
}.
Hypothesis Hok : names_ok.

Inductive offered : DefaultOptionType → Prop :=
  | offered_begin k v : (k, v) ∈ begin_inputs →
      offered (begin_option t (obj_set "key" (VStr k) (spread (js_or v (VObj [])))))
  | offered_global k v : (k, v) ∈ globals → starts_with Env k = false → offered (global_option t (k, v))
  | offered_conversation k v o : (k, v) ∈ variables → conversation_option t (k, v) = Ok o → offered o
  | offered_output n k v : n ∈ nodes s → (k, v) ∈ outputs_of n →
      offered (secondary_option (n_id n) (name (n_data n)) (k, v)).

Lemma begin_value k v :
  o_value (begin_option t (obj_set "key" (VStr k) (spread (js_or v (VObj []))))) = BeginId +:+ "@" +:+ k.
Proof. simpl. by rewrite obj_get_set_eq. Qed.

Lemma conversation_value k v o : conversation_option t (k, v) = Ok o → o_value o = Env +:+ k.
Proof. unfold conversation_option, read. simpl. destruct (nullish v); [done|]. by intros [= <-]. Qed.

Lemma node_id_inj n n' : n ∈ nodes s → n' ∈ nodes s → n_id n = n_id n' → n = n'.
Proof.
  intros Hn Hn' He. apply list_elem_of_lookup in Hn as [i Hi], Hn' as [j Hj].
  assert (i = j) as ->.
  { eapply (NoDup_lookup (map n_id (nodes s))); [apply ok_ids, Hok| |]; rewrite list_lookup_fmap, ?Hi, ?Hj; simpl; [done|].
    by rewrite He. }
  by simplify_eq.
Qed.

(** Whatever two options have the same value are the same option. *)
Lemma offered_inj o o' : offered o → offered o' → o_value o = o_value o' → o = o'.
Proof.
  assert (∀ k, count_char at_sign (Env +:+ k) = count_char at_sign k) as Henv
    by (intros k; by rewrite count_char_app).
  assert (∀ k v, (k, v) ∈ globals → ∀ i j, k ≠ i +:+ "@" +:+ j) as Hg.
  { intros k v Hk i j ->. by apply (at_sign_in_value i j), (ok_globals_at Hok _ v). }
  assert (∀ k v, (k, v) ∈ variables → ∀ i j, Env +:+ k ≠ i +:+ "@" +:+ j) as Hv.
  { intros k v Hk i j He. apply (at_sign_in_value i j). rewrite <-He, Henv. by apply (ok_variables_at Hok _ v). }
  assert (∀ n k v j w, n ∈ nodes s → (k, v) ∈ outputs_of n → (j, w) ∈ begin_inputs →
    BeginId +:+ "@" +:+ j ≠ n_id n +:+ "@" +:+ k) as Hb.
  { intros n k v j w Hn Hk Hj He. apply variable_value_inj in He as [He ->]; [|done|by apply (ok_at Hok)].
    by destruct (ok_begin Hok n k v w). }
  intros [k v Hk|k v Hk He|k v o1 Hk Ho|n k v Hn Hk] [k' v' Hk'|k' v' Hk' He'|k' v' o2 Hk' Ho'|n' k' v' Hn' Hk'];
    rewrite ?begin_value, ?(conversation_value _ _ _ Ho), ?(conversation_value _ _ _ Ho'); cbn [o_value global_option secondary_option];
    unfold buildVariableValue; intros Heq.
  - apply variable_value_inj in Heq as [_ ->]; [|done..]. f_equal. f_equal. f_equal.
    by rewrite (obj_wf_inj _ _ _ _ (proj1 (ok_inputs Hok)) Hk Hk').
  - by destruct (Hg _ _ Hk' BeginId k).
  - by destruct (Hv _ _ Hk' BeginId k).
  - by destruct (Hb _ _ _ _ _ Hn' Hk' Hk).
  - by destruct (Hg _ _ Hk BeginId k').
  - simpl in Heq. subst k'. by rewrite (obj_wf_inj _ _ _ _ (proj1 (ok_globals Hok)) Hk Hk').
  - simpl in Heq. subst k. by rewrite starts_with_app in He.
  - by destruct (Hg _ _ Hk (n_id n') k').
  - by destruct (Hv _ _ Hk BeginId k').
  - simpl in Heq. subst k'. by rewrite starts_with_app in He'.
  - apply (inj (String.append Env)) in Heq. subst k'.
    rewrite (obj_wf_inj _ _ _ _ (proj1 (ok_variables Hok)) Hk Hk') in Ho. congruence.
  - by destruct (Hv _ _ Hk (n_id n') k').
  - by destruct (Hb _ _ _ _ _ Hn Hk Hk').
  - by destruct (Hg _ _ Hk' (n_id n) k).
  - by destruct (Hv _ _ Hk' (n_id n) k).
  - cbn [fst] in Heq. apply variable_value_inj in Heq as [Hid ->]; [|by apply (ok_at Hok)..].
    apply node_id_inj in Hid as ->; [|done..].
    by rewrite (obj_wf_inj _ _ _ _ (ok_outputs Hok _ Hn') Hk Hk').
Qed.

Lemma output_offered n o : n ∈ nodes s → o ∈ g_options (group_of n) → offered o.
Proof. intros Hn (k & v & Hk & ->)%elem_of_group_of. by apply offered_output. Qed.

Lemma variable_options_offered fuel nodeId parentId gs o :
  useBuildVariableOptions fuel nodeId parentId s = Ok gs → o ∈ flatOptions gs → offered o.
Proof.
  unfold useBuildVariableOptions. intros (g1 & E1 & H)%bind_Ok. apply bind_Ok in H as (gp & Ep & H).
  apply bind_Ok in H as (g2 & E2 & [= <-]).
  pose proof (ok_forms Hok) as Hf. destruct (parent_options_Ok s Hf parentId) as (gp' & Hp & Hgp).
  rewrite Hp in Ep. simplify_eq. apply (upstream_options_Ok s Hf) in E1 as [_ Hg1], E2 as [_ Hg2].
  rewrite !flatOptions_app, !elem_of_app, Hg1, Hg2, Hgp.
  intros [(n & ? & _ & ?)|[(n & Hn & _ & ?)|(n & ? & _ & ?)]]; try by eapply output_offered.
  apply js_find_Some in Hn as [? _]. by eapply output_offered.
Qed.

Lemma begin_options_offered gs o :
  useBuildBeginDynamicVariableOptions t s = Ok gs → o ∈ flatOptions gs → offered o.
Proof.
  unfold useBuildBeginDynamicVariableOptions. intros (inputs & Hi & [= <-])%bind_Ok.
  unfold useSelectBeginNodeDataInputs, buildBeginInputListFromObject in Hi.
  apply bind_Ok in Hi as (es & Hes & [= <-]). rewrite flatOptions_cons, app_nil_r. cbn [g_options].
  assert (∀ kv, kv ∈ es ↔ kv ∈ begin_inputs) as Hin.
  { pose proof (ok_inputs Hok) as [Hw Hv]. unfold begin_inputs_value in Hv.
    assert (∀ d, js_or (match getNode (Some BeginId) s with
       | Some n => js_coalesce (prop "inputs" (form (n_data n))) (VObj []) | None => VObj [] end) d = VObj begin_inputs)
      as Hor.
    { intros d. destruct (getNode (Some BeginId) s) as [n|].
      - unfold js_coalesce. destruct Hv as [->|[-> ->]]; done.
      - by destruct Hv as [|[_ ->]]. }
    rewrite Hor in Hes. injection Hes as <-. intros kv. by rewrite obj_entries_Permutation. }
  change (map ?f ?l) with (f <$> l). rewrite <-list_fmap_compose, list_elem_of_fmap.
  intros ([k v] & -> & Hkv). apply Hin in Hkv. by apply offered_begin.
Qed.

Lemma global_options_offered gs o :
  useBuildGlobalWithBeginVariableOptions t dsl s = Ok gs → o ∈ flatOptions gs → offered o.
Proof.
  unfold useBuildGlobalWithBeginVariableOptions. intros (gb & Hb & H)%bind_Ok.
  apply bind_Ok in H as (es & Hes & [= <-]). apply entries_of_opt_obj with (o := globals) in Hes as [_ Hes]; [|apply Hok].
  assert (∀ o, o ∈ map (global_option t) (js_filter (λ kv, negb (starts_with Env kv.1)) es) → offered o) as Hg.
  { intros ? ([k v] & -> & [Hk Hin]%elem_of_js_filter)%list_elem_of_fmap. apply negb_true_iff in Hk.
    apply offered_global; [by apply Hes|done]. }
  pose proof (begin_options_offered gb) as Hbo. destruct gb as [|g gb]; rewrite flatOptions_cons, app_nil_r; cbn [g_options].
  - apply Hg.
  - rewrite elem_of_app. intros [Ho|Ho]; [|by apply Hg]. apply Hbo; [done|].
    rewrite flatOptions_cons. set_solver.
Qed.

Lemma conversation_options_offered gs o :
  useBuildConversationVariableOptions t dsl = Ok gs → o ∈ flatOptions gs → offered o.
Proof.
  unfold useBuildConversationVariableOptions. intros (es & Hes & H)%bind_Ok.
  apply bind_Ok in H as (os & Hos & [= <-]). apply entries_of_opt_obj with (o := variables) in Hes as [_ Hes]; [|apply Hok].
  rewrite flatOptions_cons, app_nil_r. cbn [g_options]. intros Ho. apply mapM_Ok in Hos.
  apply list_elem_of_lookup in Ho as [i Hi]. destruct (Forall2_lookup_r _ _ _ _ _ Hos Hi) as ([k v] & Hk & Hkv).
  apply offered_conversation with k v; [|done]. apply Hes. by eapply list_elem_of_lookup_2.
Qed.

Lemma query_options_offered fuel node nodeIds vars gs o :
  useBuildQueryVariableOptions t fuel dsl node nodeIds vars s = Ok gs → o ∈ flatOptions gs → offered o.
Proof.
  unfold useBuildQueryVariableOptions. intros (gv & Hv & H)%bind_Ok. apply bind_Ok in H as (gc & Hc & H).
  apply bind_Ok in H as (gg & Hg & H).
  pose proof (λ o, variable_options_offered _ _ _ _ o Hv) as Hvo.
  pose proof (λ o, conversation_options_offered _ o Hc) as Hco.
  pose proof (λ o, global_options_offered _ o Hg) as Hgo. destruct (_ || _).
  - apply bind_Ok in H as (gn & Hn & [= <-]). rewrite flatOptions_app, elem_of_app. intros [Ho|Ho].
    + apply elem_of_flatOptions in Ho as (g & (l & Hgl & (x & -> & _)%list_elem_of_fmap)%list_elem_of_join & Ho).
      destruct x; [apply Hgo|apply Hco]; apply elem_of_flatOptions; eauto.
    + destruct (buildNodeOutputOptions_ok s (ok_forms Hok) nodeIds) as (gn' & Hn' & _ & Hin).
      rewrite Hn in Hn'. simplify_eq. apply Hin in Ho as (n & ? & _ & ?). by eapply output_offered.
  - injection H as <-. rewrite !flatOptions_app, !elem_of_app. intros [?|[?|?]]; auto.
Qed.

(** Looking up the value of an option finds the option. *)
Lemma find_offered opts o :
  (∀ o, o ∈ opts → offered o) → o ∈ opts → find_option (o_value o) opts = Some o.
Proof.
  intros Hoff Ho. unfold find_option. destruct (js_find_is_Some (λ x, o_value x === o_value o) opts o) as [x Hx].
  { done. } { by apply bool_decide_eq_true. }
  rewrite Hx. apply js_find_Some in Hx as [Hin Hx%bool_decide_eq_true]. f_equal. apply offered_inj; auto.
Qed.
End references.

(** ** A canvas with an agent, a loop and a message in the loop *)
Module VariableCanvas.
Import Canvas.
Definition user_schema : val :=
  VObj [("type", VStr "object");
        ("properties", VObj [("age", VObj [("type", VStr "number")]);
                             ("tags", VObj [("type", VStr "array"); ("items", VObj [("type", VStr "string")])])])].

Definition agent_outputs : obj :=
  [("content", VObj [("type", VStr "string")]);
   ("structured", VObj [("type", VStr "object"); ("properties", VObj [("user", user_schema)])])].

Definition query_inputs : obj := [("q", VObj [("name", VStr "Question"); ("type", VStr "line")])].

Definition agent_with_schema : Node :=
  mk_node "Agent:a" Operator.Agent "Agent_0" None (VObj [("outputs", VObj agent_outputs)]).

Definition loop_node : Node :=
  mk_node "Loop:l" Operator.Loop "Loop_0" None (VObj [("outputs", VObj [("total", VObj [("type", VStr "number")])])]).

Definition canvas : RFState :=
  {| nodes :=
       [mk_node "begin" Operator.Begin "begin" None (VObj [("inputs", VObj query_inputs)]);
        agent_with_schema; loop_node;
        mk_node "LoopItem:s" Operator.LoopStart "LoopItem_0" (Some "Loop:l") (VObj []);
        mk_node "Message:m" Operator.Message "Message_0" (Some "Loop:l") (VObj [])];
     edges :=
       [mk_edge "e1" "begin" "Agent:a" (HId NodeHandleId.Start); mk_edge "e2" "Agent:a" "Loop:l" (HId NodeHandleId.Start);
        mk_edge "e3" "LoopItem:s" "Message:m" (HId NodeHandleId.Start)];
     selectedNodeIds := []; selectedEdgeIds := []; clickedNodeId := None; clickedToolId := None |}.

Definition dsl : val :=
  VObj [("globals", VObj [("sys.query", VStr ""); ("sys.files", VArr []); ("env.x", VNum (num_of_Z 1))]);
        ("variables", VObj [("x", VObj [("type", VStr "number")])])].

Definition rank (i : string) : nat :=
  default 0 (js_findIndex (λ j, j === i) ["begin"; "Agent:a"; "Loop:l"; "LoopItem:s"; "Message:m"]).

Lemma acyclic : eacyclic (edges canvas) any_edge.
Proof. apply (rank_acyclic _ _ rank). repeat (constructor; [vm_compute; lia|]). constructor. Defined.

Lemma forms_ok n : n ∈ nodes canvas → form_ok n.
Proof.
  revert n. refine (proj1 (Forall_forall _ _) _).
  repeat (constructor; [split; [done|first [by left|right; by eexists]]|]). constructor.
Defined.
End VariableCanvas.

Lemma variable_options_exact_witness :
  ∃ gs, useBuildVariableOptions (options_fuel VariableCanvas.canvas) (Some "Message:m") (Some "Loop:l")
          VariableCanvas.canvas = Ok gs ∧
    "Agent:a@content" ∈ map o_value (flatOptions gs) ∧ "Loop:l@total" ∈ map o_value (flatOptions gs).
Proof.
  destruct (variable_options_exact VariableCanvas.canvas VariableCanvas.forms_ok (Some "Message:m") (Some "Loop:l"))
    as [Htotal Hexact].
  destruct Htotal as [gs Hgs].
  { split; intros j a _ _ _; apply VariableCanvas.acyclic. }
  exists gs. split; [exact Hgs|]. destruct (Hexact _ gs Hgs) as [_ Hw]. split; apply Hw.
  - exists VariableCanvas.agent_with_schema, "content". split; [by right; left|]. split; [by left|]. split; [done|].
    right. right. exists "Loop:l". split; [done|]. split; [done|]. apply tc_once.
    eexists. split; [by right; left|done].
  - exists VariableCanvas.loop_node, "total". split; [by right; right; left|]. split; [by left|]. split; [done|].
    right. left. split; [vm_compute; reflexivity|done].
Defined.
