(* ===== verification/Structured.v ===== *)
(** * Structured outputs of agents

    pages/agent/hooks/use-build-structured-output.ts,
    pages/agent/utils/filter-agent-structured-output.ts and the menu of
    pages/agent/form/components/structured-output-secondary-menu.tsx.  An
    agent may declare the JSON schema of its output; the fields of the schema
    are offered as variables in a menu that follows the schema, and a stored
    reference is resolved by following it again.  Both recursions walk down
    the schema: the size of the value is enough fuel. *)
From S2P Require Import Prelude JsValue Graph Libs FormUtils GraphStore Variables.
From Stdlib Require Import Ascii.
Open Scope list_scope.
Open Scope nat_scope.
Open Scope js_scope.

(** [value.split('@')] and its first part. *)
Definition splitValue (value : string) : list string := js_split "@"%char value.

Definition getNodeId (value : string) : option string := head (splitValue value).

Definition is_container (dataType : val) : bool := js_some (λ x, VStr x === dataType) ["object"; "array"].

Section structured.
Context {L : Lodash}.

(** The declared type of a property and the one that is shown. *)
Definition getStructuredDatatype (value : val) : val * val :=
  let dataType := lo_get value [PKey "type"] in
  let arrayItemsType := lo_getOr value [PKey "items"; PKey "type"] (VStr "string") in
  let compositeDataType :=
    if dataType === VStr "array"
    then VStr (key_of dataType +:+ "<" +:+ key_of arrayItemsType +:+ ">") else dataType in
  (dataType, compositeDataType).

(** ** Resolving a reference *)
Definition showSecondaryMenu (value : string) (outputLabel : val) (s : RFState) : bool :=
  (getOperatorTypeFromId (getNodeId value) s === Some Operator.Agent) &&
  (outputLabel === VStr AgentStructuredOutputField).

Definition getStructuredOutput (value : string) (s : RFState) : val :=
  match getNode (getNodeId value) s with
  | Some node => lo_get (form (n_data node)) [PKey "outputs"; PKey AgentStructuredOutputField]
  | None => VUndef
  end.

(** [get(values, 'properties') || get(values, 'items.properties')] *)
Definition schema_properties (values : val) : val :=
  js_or (lo_get values [PKey "properties"]) (lo_get values [PKey "items"; PKey "properties"]).

Fixpoint find_in_entries (rec : val → string → string → outcome val) (target path : string)
    (es : list (string * val)) : outcome val :=
  match es with
  | [] => Ok VUndef
  | (key, value) :: es' =>
      let nextPath := if path === "" then key else path +:+ "." +:+ key in
      let '(dataType, compositeDataType) := getStructuredDatatype value in
      if nextPath === target then Ok compositeDataType
      else if is_container dataType then
        type ← rec value target nextPath;
        if truthy type then Ok type else find_in_entries rec target path es'
      else find_in_entries rec target path es'
  end.

Fixpoint findTypeByValue (fuel : nat) (values : val) (target path : string) : outcome val :=
  match fuel with
  | O => Diverge
  | S fuel =>
      let properties := schema_properties values in
      if lo_isPlainObject values && truthy properties
      then es ← entries_of properties; find_in_entries (findTypeByValue fuel) target path es
      else Ok VUndef
  end.

Definition findAgentStructuredOutputTypeByValue (fuel : nat) (value : string) (s : RFState) : outcome val :=
  if value === "" then Ok VUndef
  else
    let fields := splitValue value in
    let jsonSchema := getStructuredOutput value s in
    match fields !! 1 with
    | Some f =>
        if (getOperatorTypeFromId (head fields) s === Some Operator.Agent) &&
           starts_with AgentStructuredOutputField f
        then
          let jsonSchemaFields := str_from (String.length AgentStructuredOutputField + 1) f in
          if jsonSchemaFields === "" then Ok VUndef else findTypeByValue fuel jsonSchema jsonSchemaFields ""
        else Ok VUndef
    | None => Ok VUndef
    end.

Definition findAgentStructuredOutputLabelByValue (value : string) (s : RFState) : string :=
  if value === "" then ""
  else
    match getNode (getNodeId value) s with
    | Some node =>
        if name (n_data node) === "" then ""
        else name (n_data node) +:+ " / " +:+ label_text (splitValue value !! 1)
    | None => ""
    end.

Definition findAgentStructuredOutputLabel (value : string) (options : list DefaultOptionType) (s : RFState)
    : option DefaultOptionType :=
  let fields := splitValue value in
  match fields !! 1 with
  | Some f =>
      if (getOperatorTypeFromId (head fields) s === Some Operator.Agent) && starts_with AgentStructuredOutputField f
      then
        let agentOption := js_find (λ x, str_includes (o_value x) value) options in
        let jsonSchemaFields := str_from (String.length AgentStructuredOutputField) f in
        Some {| o_label := VStr (key_of (js_coalesce (default VUndef (o_label <$> agentOption)) (VStr ""))
                                 +:+ jsonSchemaFields);
                o_value := value;
                o_parentLabel := default "" (o_parentLabel <$> agentOption);
                o_type := default VUndef (o_type <$> agentOption) |}
      else None
  | None => None
  end.

(** *** The label and the type of a stored reference *)
Definition BeginQueryTypeMap : list (string * string) :=
  [("line", "string"); ("paragraph", "string"); ("options", "array<string>"); ("file", "File");
   ("integer", "number"); ("boolean", "boolean")].

(** The types are not names of properties every object inherits. *)
Definition map_query_type (currentType : val) : val :=
  match js_find (λ kv, kv.1 === key_of currentType) BeginQueryTypeMap with
  | Some kv => if truthy currentType then VStr kv.2 else currentType
  | None => currentType
  end.

Definition getType (fuel : nat) (flattenOptions : list DefaultOptionType) (val_ : string) (s : RFState)
    : outcome val :=
  let item_type := default VUndef (o_type <$> find_option val_ flattenOptions) in
  currentType ← (if truthy item_type then Ok item_type else findAgentStructuredOutputTypeByValue fuel val_ s);
  Ok (map_query_type currentType).

(** The text of a React child. *)
Definition child_text (v : val) : string :=
  match v with VStr s => s | VNum n => num_to_string n | _ => "" end.

Definition getLabel (flattenOptions : list DefaultOptionType) (val_ : string) (s : RFState) : string :=
  match find_option val_ flattenOptions with
  | Some item => o_parentLabel item +:+ " / " +:+ child_text (o_label item)
  | None => findAgentStructuredOutputLabelByValue val_ s
  end.

(** The item the select shows as chosen. *)
Definition selectedItem (flattenedOptions : list DefaultOptionType) (value : string) (s : RFState)
    : option DefaultOptionType :=
  match find_option value flattenedOptions with
  | Some o => Some o
  | None => if value === "" then None else findAgentStructuredOutputLabel value flattenedOptions s
  end.

(** ** Fields of a type *)
Definition predicate (types : list string) (value : val) : bool :=
  js_some (λ x, lo_toLower (VStr x) === lo_toLower (getStructuredDatatype value).2) types.

(** The loops return at the first hit, so the order of the entries does not
    matter. *)
Fixpoint hasSpecificTypeChild (data : val) (types : list string) {struct data} : bool :=
  match data with
  | VArr l =>
      js_some (λ value, (lo_isPlainObject value && predicate types value) || hasSpecificTypeChild value types) l
  | VObj o =>
      lo_isPlainObject data &&
      js_some (λ kv,
        (lo_isPlainObject kv.2 && predicate types kv.2 && (lo_get data [PKey "type"] !== VStr "array")) ||
        hasSpecificTypeChild kv.2 types) o
  | _ => false
  end.

Definition hasArrayChild (data : val) : bool := hasSpecificTypeChild data ["array"].

Definition hasJsonSchemaChild (data : val) : bool :=
  let properties := js_coalesce (lo_get data [PKey "properties"]) (VObj []) in
  lo_isPlainObject properties && bool_decide (0 < length (obj_keys (obj_of_val properties))).

(** ** The menu *)
Record menu_item := { m_label : string; m_value : string; m_type : val }.

Fixpoint menu_entries (rec : val → string → string → outcome (list menu_item)) (types : list string)
    (option_label option_value : string) (es : list (string * val)) : outcome (list menu_item) :=
  match es with
  | [] => Ok []
  | (key, value) :: es' =>
      let nextLabel := option_label +:+ "." +:+ key in
      let nextValue := option_value +:+ "." +:+ key in
      let '(dataType, compositeDataType) := getStructuredDatatype value in
      here ← (if (types === []) || js_some (λ x, VStr x === compositeDataType) types ||
                 hasSpecificTypeChild (js_coalesce value (VObj [])) types
              then
                below ← (if is_container dataType then rec value nextLabel nextValue else Ok []);
                Ok ({| m_label := nextLabel; m_value := nextValue; m_type := compositeDataType |} :: below)
              else Ok []);
      rest ← menu_entries rec types option_label option_value es';
      Ok (here ++ rest)
  end.

(** The entries that are shown, in order, below an option. *)
Fixpoint renderAgentStructuredOutput (fuel : nat) (types : list string) (values : val)
    (option_label option_value : string) : outcome (list menu_item) :=
  match fuel with
  | O => Diverge
  | S fuel =>
      let properties := schema_properties values in
      if lo_isPlainObject values && truthy properties
      then es ← entries_of properties;
           menu_entries (renderAgentStructuredOutput fuel types) types option_label option_value es
      else Ok []
  end.

(** A click on an entry chooses it, or does nothing. *)
Definition handleSubMenuClick (types : list string) (item : menu_item) : option string :=
  if (types === []) || js_some (λ x, VStr x === m_type item) types then Some (m_value item) else None.

Definition handleMenuClick (types : list string) (data_value : string) : option string :=
  if (types === []) || js_some (λ x, x === "object") types then Some data_value else None.

(** [None]: the agent's output is not offered at all. *)
Definition StructuredOutputSecondaryMenu (fuel : nat) (types : list string) (data_label data_value : string)
    (s : RFState) : outcome (option (list menu_item)) :=
  let structuredOutput := getStructuredOutput data_value s in
  if (types !== []) && negb (hasSpecificTypeChild structuredOutput types) && negb (js_some (λ x, x === "object") types)
  then Ok None
  else items ← renderAgentStructuredOutput fuel types structuredOutput data_label data_value; Ok (Some items).
End structured.

(** ** Paths of a schema *)
Definition simple_key (k : string) : Prop :=
  k ≠ "" ∧ count_char "."%char k = 0 ∧ count_char at_sign k = 0.

Fixpoint dotted (ks : list string) : string :=
  match ks with
  | [] => ""
  | k :: ks' => match ks' with [] => k | _ => k +:+ "." +:+ dotted ks' end
  end.

Lemma dotted_cons k ks : ks ≠ [] → dotted (k :: ks) = k +:+ "." +:+ dotted ks.
Proof. by destruct ks. Qed.

Lemma dotted_split ks : ks ≠ [] → Forall simple_key ks → js_split "."%char (dotted ks) = ks.
Proof.
  induction ks as [|k ks IH]; [done|]. intros _ [(_ & Hk & _) Hks]%Forall_cons. destruct ks as [|k' ks].
  - by apply js_split_no_sep.
  - rewrite dotted_cons by done. change ("." +:+ dotted (k' :: ks)) with (String "."%char (dotted (k' :: ks))).
    by rewrite js_split_app, IH.
Qed.

Lemma dotted_inj ks ks' :
  ks ≠ [] → ks' ≠ [] → Forall simple_key ks → Forall simple_key ks' → dotted ks = dotted ks' → ks = ks'.
Proof. intros Hn Hn' Hk Hk' He. apply (f_equal (js_split "."%char)) in He. by rewrite !dotted_split in He. Qed.

Lemma dotted_nil ks : Forall simple_key ks → dotted ks = "" → ks = [].
Proof.
  destruct ks as [|k ks]; [done|]. intros [(Hk & _) _]%Forall_cons.
  destruct ks as [|k' ks]; [done|]. rewrite dotted_cons by done. destruct k; [done|]. by rewrite str_cons_app.
Qed.

Lemma dotted_snoc ps k : ps ≠ [] → dotted (ps ++ [k]) = dotted ps +:+ "." +:+ k.
Proof.
  induction ps as [|p ps IH]; [done|]. intros _. destruct ps as [|p' ps]; [done|].
  change ((p :: p' :: ps) ++ [k]) with (p :: ((p' :: ps) ++ [k])).
  rewrite dotted_cons by (by destruct ps). rewrite IH by done. rewrite (dotted_cons p) by done.
  by rewrite !str_app_assoc.
Qed.

(** The path the search builds. *)
Lemma next_path ps k :
  Forall simple_key ps → (if dotted ps === "" then k else dotted ps +:+ "." +:+ k) = dotted (ps ++ [k]).
Proof.
  intros Hps. case_bool_decide as Hp.
  - by apply dotted_nil in Hp as ->.
  - rewrite dotted_snoc; [done|]. by intros ->.
Qed.

Lemma count_at_dotted ks : Forall simple_key ks → count_char at_sign (dotted ks) = 0.
Proof.
  induction ks as [|k ks IH]; [done|]. intros [(_ & _ & Hk) Hks]%Forall_cons. destruct ks as [|k' ks]; [done|].
  rewrite dotted_cons by done. rewrite !count_char_app, Hk, IH by done. done.
Qed.

Section schema.
Context {L : Lodash} {HL : LodashLaws L}.

Definition props_of (v : val) : list (string * val) :=
  if lo_isPlainObject v && truthy (schema_properties v)
  then match entries_of (schema_properties v) with Ok es => es | _ => [] end
  else [].

Lemma entries_of_truthy v : truthy v = true → ∃ es, entries_of v = Ok es.
Proof. destruct v; simpl; eauto; done. Qed.

Lemma findTypeByValue_S fuel v target path :
  findTypeByValue (S fuel) v target path = find_in_entries (findTypeByValue fuel) target path (props_of v).
Proof.
  simpl. unfold props_of. destruct (lo_isPlainObject v && truthy (schema_properties v)) eqn:E; [|done].
  apply andb_true_iff in E as [_ [es Hes]%entries_of_truthy]. by rewrite Hes.
Qed.

Lemma render_S fuel types v lab value :
  renderAgentStructuredOutput (S fuel) types v lab value =
  menu_entries (renderAgentStructuredOutput fuel types) types lab value (props_of v).
Proof.
  simpl. unfold props_of. destruct (lo_isPlainObject v && truthy (schema_properties v)) eqn:E; [|done].
  apply andb_true_iff in E as [_ [es Hes]%entries_of_truthy]. by rewrite Hes.
Qed.

(** The properties are parts of the schema. *)
Lemma obj_get_elem (o : obj) k : truthy (obj_get k o) = true → (k, obj_get k o) ∈ o.
Proof.
  unfold obj_get. induction o as [|[k0 v0] o IH]; [done|]. simpl.
  case_bool_decide as Hk; simpl; [subst; by left|]. intros H. right. by apply IH.
Qed.

Lemma entries_of_size v es k w : entries_of v = Ok es → (k, w) ∈ es → val_size w ≤ val_size v.
Proof.
  destruct v as [| |b|n|str|l|o]; simpl; intros [= <-] Hin; try by apply elem_of_nil in Hin.
  - apply elem_of_lookup_imap in Hin as (i & a & [= -> ->] & _). done.
  - apply elem_of_lookup_imap in Hin as (i & x & [= -> ->] & Hx). apply list_elem_of_lookup_2 in Hx.
    induction l as [|y l IH]; [by apply elem_of_nil in Hx|]. simpl.
    apply elem_of_cons in Hx as [->|Hx]; [lia|]. apply IH in Hx. lia.
  - rewrite obj_entries_Permutation in Hin. apply val_size_elem in Hin. simpl in Hin. lia.
Qed.

Lemma schema_properties_size v :
  lo_isPlainObject v = true → truthy (schema_properties v) = true → val_size (schema_properties v) < val_size v.
Proof.
  rewrite isPlainObject_eq. destruct v as [| | | | | |o]; try done. intros _. unfold schema_properties, js_or.
  rewrite !get_key, get_nil. destruct (truthy (obj_get "properties" o)) eqn:Hp.
  - intros _. by apply obj_get_elem, val_size_elem in Hp.
  - intros H. destruct (obj_get "items" o) as [| | | | | |o'] eqn:Hi;
      try (rewrite (get_absent _ "properties") in H; [done|by intros ?|set_solver]).
    rewrite get_key, get_nil in H |- *. apply obj_get_elem, val_size_elem in H.
    assert (truthy (obj_get "items" o) = true) as Ht by (by rewrite Hi).
    apply obj_get_elem, val_size_elem in Ht. rewrite Hi in Ht. lia.
Qed.

Lemma props_of_size v k w : (k, w) ∈ props_of v → val_size w < val_size v.
Proof.
  unfold props_of. destruct (lo_isPlainObject v && truthy (schema_properties v)) eqn:E; [|by intros ?%elem_of_nil].
  apply andb_true_iff in E as [H1 H2]. pose proof (schema_properties_size v H1 H2).
  destruct (entries_of_truthy _ H2) as [es Hes]. rewrite Hes. intros Hin.
  pose proof (entries_of_size _ _ _ _ Hes Hin). lia.
Qed.

(** Property names that can be told apart in a path, and declared types. *)
Inductive schema_ok (v : val) : Prop :=
  | schema_ok_intro :
      NoDup (props_of v).*1 →
      (∀ k w, (k, w) ∈ props_of v → simple_key k) →
      (∀ k w, (k, w) ∈ props_of v → truthy (getStructuredDatatype w).1 = true) →
      (∀ k w, (k, w) ∈ props_of v → is_container (getStructuredDatatype w).1 = true → schema_ok w) →
      schema_ok v.

(** The field a path of the schema leads to, with the type that is shown. *)
Inductive type_at : val → list string → val → Prop :=
  | type_here v k w : (k, w) ∈ props_of v → type_at v [k] (getStructuredDatatype w).2
  | type_below v k w ks c :
      (k, w) ∈ props_of v → is_container (getStructuredDatatype w).1 = true → type_at w ks c → type_at v (k :: ks) c.

Lemma type_at_nonempty v ks c : type_at v ks c → ks ≠ [].
Proof. by destruct 1. Qed.

Lemma type_at_simple v ks c : schema_ok v → type_at v ks c → Forall simple_key ks ∧ truthy c = true.
Proof.
  intros Hok Ht. revert Hok. induction Ht as [v k w Hk|v k w ks c Hk Hc Ht IH]; intros [Hnd Hs Hd Hrec].
  - split; [constructor; [by apply (Hs k w)|constructor]|]. specialize (Hd k w Hk). unfold getStructuredDatatype in *.
    cbn [fst snd] in *. case_bool_decide as Ha; [|done]. by rewrite Ha.
  - destruct (IH (Hrec k w Hk Hc)) as [? ?]. split; [|done]. constructor; [by apply (Hs k w)|done].
Qed.

(** A target that does not continue the path is not found below it. *)
Lemma find_other fuel ts v ps :
  val_size v ≤ fuel → ts ≠ [] → Forall simple_key ts → Forall simple_key ps → schema_ok v →
  (∀ qs, qs ≠ [] → ts ≠ ps ++ qs) → findTypeByValue fuel v (dotted ts) (dotted ps) = Ok VUndef.
Proof.
  intros Hf Hts Hsts Hsps Hok Hne. revert v ps Hf Hsps Hok Hne.
  induction fuel as [|fuel IH]; intros v ps Hf Hsps [_ Hs _ Hrec] Hne; [pose proof (val_size_pos v); lia|].
  rewrite findTypeByValue_S.
  assert (∀ k w, (k, w) ∈ props_of v → val_size w ≤ fuel) as Hsz.
  { intros k w Hk%props_of_size. lia. }
  revert Hs Hrec Hsz. generalize (props_of v) as es. induction es as [|[k w] es IHes]; intros Hs Hrec Hsz; [done|].
  simpl. rewrite next_path by done.
  assert (Forall simple_key (ps ++ [k])) as Hpk.
  { apply Forall_app. split; [done|]. constructor; [|constructor]. apply (Hs k w). by left. }
  rewrite bool_decide_false.
  2:{ intros He. apply dotted_inj in He as <-; [|by destruct ps|done..]. by apply (Hne [k]). }
  assert (find_in_entries (findTypeByValue fuel) (dotted ts) (dotted ps) es = Ok VUndef) as Hrest.
  { apply IHes; intros k' w' Hin; [apply (Hs k' w')|apply (Hrec k' w')|apply (Hsz k' w')]; by right. }
  destruct (is_container _) eqn:Hc; [|done]. rewrite IH; [done|..].
  - apply (Hsz k w). by left.
  - done.
  - apply (Hrec k w); [by left|done].
  - intros qs Hq He. apply (Hne (k :: qs)); [done|]. by rewrite He, <-app_assoc.
Qed.

(** One level of a path that is there: the entries before it do not answer. *)
Lemma find_step fuel v ps qs k w c :
  val_size v ≤ S fuel → Forall simple_key ps → schema_ok v → (k, w) ∈ props_of v →
  Forall simple_key (k :: qs) →
  (qs = [] ∧ c = (getStructuredDatatype w).2 ∨
   qs ≠ [] ∧ is_container (getStructuredDatatype w).1 = true ∧ truthy c = true ∧
   findTypeByValue fuel w (dotted ((ps ++ [k]) ++ qs)) (dotted (ps ++ [k])) = Ok c) →
  findTypeByValue (S fuel) v (dotted (ps ++ k :: qs)) (dotted ps) = Ok c.
Proof.
  intros Hf Hsps [Hnd Hs _ Hrec] Hk Hkq Hc. rewrite findTypeByValue_S.
  assert (Forall simple_key (ps ++ k :: qs)) as Hts by (by apply Forall_app).
  assert (∀ k w, (k, w) ∈ props_of v → val_size w ≤ fuel) as Hsz by (intros ? ? ?%props_of_size; lia).
  revert Hnd Hs Hrec Hsz Hk. generalize (props_of v) as es.
  induction es as [|[k0 w0] es IHes]; intros Hnd Hs Hrec Hsz Hk; [by apply elem_of_nil in Hk|].
  apply NoDup_cons in Hnd as [Hk0 Hnd]. cbn [find_in_entries]. rewrite next_path by done.
  assert (Forall simple_key (ps ++ [k0])) as Hpk.
  { apply Forall_app. split; [done|]. constructor; [|constructor]. apply (Hs k0 w0). by left. }
  destruct (getStructuredDatatype w0) as [d0 c0] eqn:Hd0.
  apply elem_of_cons in Hk as [[= -> ->]|Hk].
  - destruct Hc as [[-> ->]|(Hq & Hcont & Ht & Hfind)].
    + rewrite bool_decide_true by done. by rewrite Hd0.
    + rewrite bool_decide_false.
      2:{ intros He. apply dotted_inj in He; [|by destruct ps..|done|done]. apply (inj (app ps)) in He. by simplify_eq. }
      rewrite Hd0 in Hcont. cbn [fst] in Hcont. rewrite Hcont.
      rewrite <-app_assoc in Hfind. cbn [app] in Hfind. rewrite Hfind. simpl. by rewrite Ht.
  - assert (k0 ≠ k) as Hne.
    { intros ->. apply Hk0, list_elem_of_fmap. by exists (k, w). }
    rewrite bool_decide_false.
    2:{ intros He. apply dotted_inj in He; [|by destruct ps..|done|done]. apply (inj (app ps)) in He. by simplify_eq. }
    assert (find_in_entries (findTypeByValue fuel) (dotted (ps ++ k :: qs)) (dotted ps) es = Ok c) as Hrest.
    { apply IHes; [done|..|done]; intros k' w' Hin; [apply (Hs k' w')|apply (Hrec k' w')|apply (Hsz k' w')]; by right. }
    destruct (is_container d0) eqn:Hc0; [|done]. rewrite find_other; [done|..].
    + apply (Hsz k0 w0). by left.
    + by destruct ps.
    + done.
    + done.
    + apply (Hrec k0 w0); [by left|]. by rewrite Hd0.
    + intros qs' Hq' He. rewrite <-app_assoc in He. apply (inj (app ps)) in He. simpl in He. by simplify_eq.
Qed.

(** A path of the schema is found with its type. *)
Lemma find_at fuel v ps qs c :
  val_size v ≤ fuel → Forall simple_key ps → schema_ok v → type_at v qs c →
  findTypeByValue fuel v (dotted (ps ++ qs)) (dotted ps) = Ok c.
Proof.
  intros Hf Hsps Hok Ht. revert fuel ps Hf Hsps Hok.
  induction Ht as [v k w Hk|v k w ks c Hk Hcont Ht IH]; intros fuel ps Hf Hsps Hok;
    (destruct fuel as [|fuel]; [pose proof (val_size_pos v); lia|]).
  - eapply find_step; [done..| |by left]. constructor; [|constructor]. destruct Hok. by eauto.
  - assert (schema_ok w) as Hw by (destruct Hok; by eauto).
    destruct (type_at_simple _ _ _ Hw Ht) as [Hks Hc]. assert (simple_key k) as Hsk by (destruct Hok; by eauto).
    eapply find_step; [done..|by constructor|]. right. split; [by eapply type_at_nonempty|]. split; [done|]. split; [done|].
    apply IH; [|by apply Forall_app; auto|done]. pose proof (props_of_size _ _ _ Hk). lia.
Qed.

(** ** The menu follows the paths *)
Lemma menu_entries_paths rec types lab value es items :
  menu_entries rec types lab value es = Ok items →
  ∀ item, item ∈ items → ∃ k w, (k, w) ∈ es ∧
    (item = {| m_label := lab +:+ "." +:+ k; m_value := value +:+ "." +:+ k; m_type := (getStructuredDatatype w).2 |} ∨
     is_container (getStructuredDatatype w).1 = true ∧
     ∃ below, rec w (lab +:+ "." +:+ k) (value +:+ "." +:+ k) = Ok below ∧ item ∈ below).
Proof.
  revert items. induction es as [|[k w] es IH]; intros items; cbn [menu_entries].
  { intros [= <-] item ?%elem_of_nil. done. }
  destruct (getStructuredDatatype w) as [d c] eqn:Hd. intros (here & Hh & H)%bind_Ok item Hin.
  apply bind_Ok in H as (rest & Hr & [= <-]). apply elem_of_app in Hin as [Hin|Hin].
  - exists k, w. split; [by left|]. rewrite Hd. cbn [fst snd].
    destruct (_ || _); [|injection Hh as <-; by apply elem_of_nil in Hin].
    apply bind_Ok in Hh as (below & Hb & [= <-]). apply elem_of_cons in Hin as [->|Hin]; [by left|]. right.
    destruct (is_container d); [eauto|]. injection Hb as <-. by apply elem_of_nil in Hin.
  - destruct (IH _ Hr _ Hin) as (k' & w' & ? & ?). exists k', w'. split; [by right|done].
Qed.

Lemma menu_paths fuel types v lab value items :
  renderAgentStructuredOutput fuel types v lab value = Ok items →
  ∀ item, item ∈ items → ∃ qs, type_at v qs (m_type item) ∧
    m_value item = value +:+ "." +:+ dotted qs ∧ m_label item = lab +:+ "." +:+ dotted qs.
Proof.
  revert v lab value items. induction fuel as [|fuel IH]; intros v lab value items; [done|].
  rewrite render_S. intros Hm item Hin.
  destruct (menu_entries_paths _ _ _ _ _ _ Hm _ Hin) as (k & w & Hk & [->|(Hc & below & Hb & Hin')]).
  - exists [k]. split; [by apply type_here|done].
  - destruct (IH _ _ _ _ Hb _ Hin') as (qs & Hqs & -> & ->). exists (k :: qs).
    split; [by eapply type_below|]. rewrite dotted_cons by (by eapply type_at_nonempty).
    by rewrite !str_app_assoc.
Qed.

(** Enough fuel, and every path is shown when all types are taken. *)
Lemma menu_entries_total rec types lab value es :
  (∀ k w lab value, (k, w) ∈ es → ∃ items, rec w lab value = Ok items) →
  ∃ items, menu_entries rec types lab value es = Ok items.
Proof.
  induction es as [|[k w] es IH]; intros Hrec; [by eexists|]. cbn [menu_entries].
  destruct IH as [rest Hr]; [intros ? ? ? ? ?; eapply Hrec; by right|].
  destruct (getStructuredDatatype w) as [d c]. destruct (_ || _); [|rewrite Hr; by eexists].
  destruct (is_container d); [|rewrite Hr; by eexists].
  destruct (Hrec k w (lab +:+ "." +:+ k) (value +:+ "." +:+ k)) as [below Hb]; [by left|]. rewrite Hb. simpl.
  rewrite Hr. by eexists.
Qed.

Lemma menu_total fuel types v lab value :
  val_size v ≤ fuel → ∃ items, renderAgentStructuredOutput fuel types v lab value = Ok items.
Proof.
  revert v lab value. induction fuel as [|fuel IH]; intros v lab value Hf; [pose proof (val_size_pos v); lia|].
  rewrite render_S. apply menu_entries_total. intros k w lab' value' Hk%props_of_size. apply IH. lia.
Qed.

Lemma menu_entries_complete rec lab value es items k w :
  menu_entries rec [] lab value es = Ok items → (k, w) ∈ es →
  {| m_label := lab +:+ "." +:+ k; m_value := value +:+ "." +:+ k; m_type := (getStructuredDatatype w).2 |} ∈ items ∧
  (is_container (getStructuredDatatype w).1 = true →
   ∃ below, rec w (lab +:+ "." +:+ k) (value +:+ "." +:+ k) = Ok below ∧ ∀ i, i ∈ below → i ∈ items).
Proof.
  revert items. induction es as [|[k0 w0] es IH]; intros items; cbn [menu_entries]; [by intros _ ?%elem_of_nil|].
  destruct (getStructuredDatatype w0) as [d c] eqn:Hd. simpl (_ || _). cbn iota.
  intros (here & Hh & H)%bind_Ok Hin. apply bind_Ok in H as (rest & Hr & [= <-]).
  apply bind_Ok in Hh as (below & Hb & [= <-]). apply elem_of_cons in Hin as [[= -> ->]|Hin].
  - rewrite Hd. split; [set_solver|]. cbn [fst]. intros Hc. rewrite Hc in Hb. exists below. split; [done|]. set_solver.
  - destruct (IH _ Hr Hin) as [Hx Hc]. split; [set_solver|]. intros (b & Hb' & Hsub)%Hc. exists b. split; [done|].
    intros i Hi%Hsub. set_solver.
Qed.

Lemma menu_complete fuel v lab value items qs c :
  renderAgentStructuredOutput fuel [] v lab value = Ok items → type_at v qs c →
  {| m_label := lab +:+ "." +:+ dotted qs; m_value := value +:+ "." +:+ dotted qs; m_type := c |} ∈ items.
Proof.
  intros Hr Ht. revert fuel lab value items Hr.
  induction Ht as [v k w Hk|v k w ks c Hk Hc Ht IH]; intros [|fuel] lab value items; try done; rewrite render_S; intros Hm;
    destruct (menu_entries_complete _ _ _ _ _ _ _ Hm Hk) as [Hhere Hbelow].
  - done.
  - destruct (Hbelow Hc) as (below & Hb & Hsub). apply Hsub. apply IH in Hb.
    rewrite dotted_cons by (by eapply type_at_nonempty). by rewrite !str_app_assoc in Hb.
Qed.
End schema.

(** ** References resolve to what was chosen *)
Section resolve.
Context {L : Lodash} {HL : LodashLaws L}.

Definition agent_schema (n : Node) : val :=
  lo_get (form (n_data n)) [PKey "outputs"; PKey AgentStructuredOutputField].

Lemma split_reference id f :
  count_char at_sign id = 0 → count_char at_sign f = 0 → splitValue (id +:+ "@" +:+ f) = [id; f].
Proof.
  intros Hid Hf. unfold splitValue. change ("@" +:+ f) with (String "@"%char f).
  rewrite js_split_app by done. by rewrite js_split_no_sep.
Qed.

Lemma value_nonempty id f : id +:+ "@" +:+ f ≠ "".
Proof. by destruct id. Qed.

(** The value of a field below the structured output of an agent. *)
Definition field_value (n : Node) (qs : list string) : string :=
  buildVariableValue AgentStructuredOutputField (n_id n) +:+ "." +:+ dotted qs.

Lemma split_field_value n qs :
  count_char at_sign (n_id n) = 0 → Forall simple_key qs →
  splitValue (field_value n qs) = [n_id n; AgentStructuredOutputField +:+ "." +:+ dotted qs].
Proof.
  intros Hn Hq. unfold field_value, buildVariableValue. rewrite !str_app_assoc. apply split_reference; [done|].
  rewrite !count_char_app, count_at_dotted by done. done.
Qed.

Lemma agent_schema_of_value n s :
  getNode (Some (n_id n)) s = Some n → count_char at_sign (n_id n) = 0 →
  getStructuredOutput (buildVariableValue AgentStructuredOutputField (n_id n)) s = agent_schema n.
Proof.
  intros Hn Hat. unfold getStructuredOutput, getNodeId, buildVariableValue. rewrite split_reference by done.
  cbn [hd_error]. by rewrite Hn.
Qed.

(** The value of a field is read back as the field. *)
Lemma resolve_field n s qs c :
  getNode (Some (n_id n)) s = Some n → label (n_data n) = Operator.Agent → name (n_data n) ≠ "" →
  count_char at_sign (n_id n) = 0 → schema_ok (agent_schema n) → type_at (agent_schema n) qs c →
  findAgentStructuredOutputTypeByValue (val_size (agent_schema n)) (field_value n qs) s = Ok c ∧
  findAgentStructuredOutputLabelByValue (field_value n qs) s =
    name (n_data n) +:+ " / " +:+ AgentStructuredOutputField +:+ "." +:+ dotted qs.
Proof.
  intros Hn Hl Hname Hat Hok Hqs.
  destruct (type_at_simple _ _ _ Hok Hqs) as [Hs _]. pose proof (type_at_nonempty _ _ _ Hqs) as Hne.
  pose proof (split_field_value n qs Hat Hs) as Hsplit.
  assert (field_value n qs ≠ "") as Hnz.
  { unfold field_value, buildVariableValue. rewrite !str_app_assoc. apply value_nonempty. }
  assert (getNodeId (field_value n qs) = Some (n_id n)) as Hid by (unfold getNodeId; by rewrite Hsplit).
  split.
  - unfold findAgentStructuredOutputTypeByValue. rewrite bool_decide_false by done.
    unfold getStructuredOutput, getOperatorTypeFromId. rewrite Hid, Hsplit. cbn [lookup list_lookup hd_error].
    rewrite Hn. cbn [fmap option_fmap option_map compose]. rewrite Hl, bool_decide_true, starts_with_app by done.
    change (String.length AgentStructuredOutputField + 1) with (String.length (AgentStructuredOutputField +:+ ".")).
    rewrite <-str_app_assoc, str_from_app. cbn [andb]. rewrite bool_decide_false.
    + by apply (find_at _ (agent_schema n) [] qs).
    + intros He. by apply dotted_nil in He.
  - unfold findAgentStructuredOutputLabelByValue. rewrite bool_decide_false by done. rewrite Hid, Hn, Hsplit.
    by rewrite bool_decide_false by done.
Qed.

(** whatever the types a field takes, every entry of the menu below an
    agent's structured output resolves, through the text that is stored for
    it, to the type the menu shows, and is labelled with the agent's name;
    without a restriction of the types every path of the schema is shown.
    Both walks end within as many levels as the schema has parts. *)
Theorem menu_type_roundtrip types lab n s :
  getNode (Some (n_id n)) s = Some n → label (n_data n) = Operator.Agent → name (n_data n) ≠ "" →
  count_char at_sign (n_id n) = 0 → schema_ok (agent_schema n) →
  let value := buildVariableValue AgentStructuredOutputField (n_id n) in
  let fuel := val_size (agent_schema n) in
  ∃ r, StructuredOutputSecondaryMenu fuel types lab value s = Ok r ∧
    (∀ items item, r = Some items → item ∈ items →
       findAgentStructuredOutputTypeByValue fuel (m_value item) s = Ok (m_type item) ∧
       ∃ qs, m_value item = field_value n qs ∧
         findAgentStructuredOutputLabelByValue (m_value item) s =
           name (n_data n) +:+ " / " +:+ AgentStructuredOutputField +:+ "." +:+ dotted qs) ∧
    (types = [] → ∃ items, r = Some items ∧
       ∀ qs c, type_at (agent_schema n) qs c →
         {| m_label := lab +:+ "." +:+ dotted qs; m_value := field_value n qs; m_type := c |} ∈ items).
Proof.
  intros Hn Hl Hname Hat Hok value fuel. pose proof (agent_schema_of_value n s Hn Hat) as Hout. fold value in Hout.
  destruct (menu_total fuel types (agent_schema n) lab value) as [items Hitems]; [done|].
  assert (∀ item, item ∈ items →
       findAgentStructuredOutputTypeByValue fuel (m_value item) s = Ok (m_type item) ∧
       ∃ qs, m_value item = field_value n qs ∧
         findAgentStructuredOutputLabelByValue (m_value item) s =
           name (n_data n) +:+ " / " +:+ AgentStructuredOutputField +:+ "." +:+ dotted qs) as Hall.
  { intros item Hin. destruct (menu_paths _ _ _ _ _ _ Hitems _ Hin) as (qs & Hqs & Hv & _).
    change (m_value item = field_value n qs) in Hv. rewrite Hv.
    destruct (resolve_field n s qs _ Hn Hl Hname Hat Hok Hqs). eauto. }
  unfold StructuredOutputSecondaryMenu. rewrite Hout, Hitems. destruct (_ && _) eqn:E.
  - eexists. split; [done|]. split; [done|]. by intros ->.
  - eexists. split; [done|]. split; [by intros ? ? [= <-]; apply Hall|]. intros ->. exists items. split; [done|].
    intros qs c Hqs. by eapply menu_complete.
Qed.

(** C22: When identifiers are distinct and, like the names of globals and of
    conversation variables, without an at-sign, and the Begin operator has no
    webhook output named as one of its inputs: of the options a form offers,
    each is found again from the value that is stored for it. The label shown
    is its own below its group's, a type that is not empty is its own (or the
    one the widget of a Begin input stands for), the select shows it as
    chosen, and no other option has its value. *)
Theorem reference_roundtrip t s dsl begin_inputs globals variables fuel nodeId nodeIds vars opts o :
  names_ok s dsl begin_inputs globals variables →
  useFlattenQueryVariableOptions t fuel dsl nodeId nodeIds vars s = Ok opts → o ∈ opts →
  getLabel opts (o_value o) s = o_parentLabel o +:+ " / " +:+ child_text (o_label o) ∧
  (truthy (o_type o) = true → ∀ fuel', getType fuel' opts (o_value o) s = Ok (map_query_type (o_type o))) ∧
  selectedItem opts (o_value o) s = Some o ∧
  (∀ o', o' ∈ opts → o_value o' = o_value o → o' = o).
Proof.
  intros Hok Hopts Ho. unfold useFlattenQueryVariableOptions in Hopts. apply bind_Ok in Hopts as (gs & Hgs & [= <-]).
  assert (find_option (o_value o) (flatOptions gs) = Some o) as Hf.
  { apply (find_offered t s dsl begin_inputs globals variables Hok); [|done]. intros o'.
    by eapply query_options_offered. }
  unfold getLabel, getType, selectedItem. rewrite Hf. split; [done|]. split; [|split; [done|]].
  - intros Ht fuel'. simpl. by rewrite Ht.
  - intros o' Ho' Hv. apply (offered_inj t s dsl begin_inputs globals variables Hok); [| |done];
      by eapply query_options_offered.
Qed.
End resolve.

(** ** On the canvas of Variables.v *)
Section example.
Import VariableCanvas.

Lemma simple_key_dec k : bool_decide (k ≠ "") && (count_char "."%char k === 0) && (count_char at_sign k === 0) = true →
  simple_key k.
Proof. intros. reflect_bool. done. Qed.

Lemma leaf_schema_ok v : props_of v = [] → schema_ok v.
Proof.
  intros E. constructor; rewrite E; [constructor|..]; intros k w ?%elem_of_nil; done.
Defined.

Lemma user_schema_ok : schema_ok user_schema.
Proof.
  assert (props_of user_schema = [("age", VObj [("type", VStr "number")]);
    ("tags", VObj [("type", VStr "array"); ("items", VObj [("type", VStr "string")])])]) as E by reflexivity.
  constructor; rewrite E.
  - apply (bool_decide_unpack _). vm_compute. exact I.
  - intros k w [[= -> ->]|[[= -> ->]|[]%elem_of_nil]%elem_of_cons]%elem_of_cons; by apply simple_key_dec.
  - intros k w [[= -> ->]|[[= -> ->]|[]%elem_of_nil]%elem_of_cons]%elem_of_cons; done.
  - intros k w [[= -> ->]|[[= -> ->]|[]%elem_of_nil]%elem_of_cons]%elem_of_cons; intros _; by apply leaf_schema_ok.
Defined.

Lemma agent_schema_ok : schema_ok (agent_schema agent_with_schema).
Proof.
  assert (props_of (agent_schema agent_with_schema) = [("user", user_schema)]) as E by reflexivity.
  constructor; rewrite E.
  - apply (bool_decide_unpack _). vm_compute. exact I.
  - intros k w [= -> ->]%list_elem_of_singleton. by apply simple_key_dec.
  - by intros k w [= -> ->]%list_elem_of_singleton.
  - intros k w [= -> ->]%list_elem_of_singleton _. apply user_schema_ok.
Defined.

Lemma tags_type : type_at (agent_schema agent_with_schema) ["user"; "tags"] (VStr "array<string>").
Proof.
  eapply (type_below _ "user" user_schema); [by left|reflexivity|].
  assert (type_at user_schema ["tags"]
    (getStructuredDatatype (VObj [("type", VStr "array"); ("items", VObj [("type", VStr "string")])])).2) as H
    by (apply type_here; by right; left).
  exact H.
Defined.

(** A field of arrays is shown, and resolves to its type. *)
Lemma menu_type_roundtrip_witness :
  findAgentStructuredOutputTypeByValue 17 "Agent:a@structured.user.tags" VariableCanvas.canvas = Ok (VStr "array<string>").
Proof.
  destruct (menu_type_roundtrip [] "structured" agent_with_schema VariableCanvas.canvas) as (r & _ & Hall & Hshown).
  - vm_compute. reflexivity.
  - reflexivity.
  - apply (bool_decide_unpack (_ ≠ _)). vm_compute. exact I.
  - reflexivity.
  - apply agent_schema_ok.
  - destruct (Hshown eq_refl) as (items & -> & Hin).
    destruct (Hall items _ eq_refl (Hin ["user"; "tags"] (VStr "array<string>") tags_type)) as [Htype _].
    exact Htype.
Defined.

Lemma example_names_ok : names_ok VariableCanvas.canvas VariableCanvas.dsl query_inputs
  [("sys.query", VStr ""); ("sys.files", VArr []); ("env.x", VNum (num_of_Z 1))]
  [("x", VObj [("type", VStr "number")])].
Proof.
  constructor.
  - apply forms_ok.
  - apply (bool_decide_unpack _). vm_compute. exact I.
  - refine (proj1 (Forall_forall _ _) _). apply (bool_decide_unpack _). vm_compute. exact I.
  - refine (proj1 (Forall_forall _ _) _). unfold obj_wf. apply (bool_decide_unpack _). vm_compute. exact I.
  - assert (∀ n, n ∈ nodes VariableCanvas.canvas → n_id n = BeginId → outputs_of n = []) as H.
    { refine (proj1 (Forall_forall _ _) _). repeat (constructor; [done|]). constructor. }
    intros n k v w Hn Hb Hk. rewrite (H n Hn Hb) in Hk. by apply elem_of_nil in Hk.
  - split; [apply (bool_decide_unpack _); vm_compute; exact I|by left].
  - split; [apply (bool_decide_unpack _); vm_compute; exact I|by left].
  - intros k v H. revert k v H. assert (∀ kv : string * val, kv ∈ [("sys.query", VStr ""); ("sys.files", VArr []); ("env.x", VNum (num_of_Z 1))] →
      count_char at_sign kv.1 = 0) as H; [|by intros k v Hk; apply (H (k, v))].
    refine (proj1 (Forall_forall _ _) _). apply (bool_decide_unpack _). vm_compute. exact I.
  - split; [apply (bool_decide_unpack _); vm_compute; exact I|by left].
  - by intros k v [= -> ->]%list_elem_of_singleton.
Defined.

Definition example_options : list DefaultOptionType :=
  match useFlattenQueryVariableOptions (λ s, s) 5 VariableCanvas.dsl (Some "Message:m") [] None VariableCanvas.canvas with
  | Ok l => l | _ => [] end.

Lemma reference_roundtrip_witness :
  getLabel example_options "begin@q" VariableCanvas.canvas = "flow.beginInput / Question" ∧
  getType 0 example_options "begin@q" VariableCanvas.canvas = Ok (VStr "string").
Proof.
  destruct (reference_roundtrip (λ s, s) VariableCanvas.canvas VariableCanvas.dsl _ _ _ 5 (Some "Message:m") [] None
    example_options (begin_option (λ s, s) (obj_set "key" (VStr "q") (spread (VObj [("name", VStr "Question"); ("type", VStr "line")]))))
    example_names_ok) as (Hl & Ht & _).
  - vm_compute. reflexivity.
  - vm_compute. by left.
  - split; [exact Hl|]. exact (Ht eq_refl 0).
Defined.
End example.
