(* ===== verification/Connection.v ===== *)
(** * Connecting and deleting on the canvas

    [useValidateConnection] of pages/agent/hooks.tsx, which decides whether an
    edge may be drawn, with the search for cycles it runs, and
    [useBeforeDelete] of pages/agent/hooks/use-before-delete.tsx, which
    decides what a deletion takes with it. *)
From S2P Require Import Prelude JsValue Graph Libs Downstream GraphStore StoreProps.
Open Scope list_scope.
Open Scope nat_scope.
Open Scope js_scope.

(** The key is the operator of the source, the value the operators it must
    not be connected to. *)
Definition RestrictedUpstreamMap : list (string * list string) :=
  [(Operator.Begin, [Operator.Begin]);
   (Operator.Categorize, [Operator.Begin]);
   (Operator.Retrieval, [Operator.Begin; Operator.Retrieval]);
   (Operator.Message, [Operator.Begin; Operator.Message; Operator.Retrieval;
                       Operator.RewriteQuestion; Operator.Categorize]);
   (Operator.RewriteQuestion, [Operator.Begin; Operator.Message; Operator.RewriteQuestion]);
   (Operator.DuckDuckGo, [Operator.Begin; Operator.Retrieval]);
   (Operator.Wikipedia, [Operator.Begin; Operator.Retrieval]);
   (Operator.PubMed, [Operator.Begin; Operator.Retrieval]);
   (Operator.ArXiv, [Operator.Begin; Operator.Retrieval]);
   (Operator.Google, [Operator.Begin; Operator.Retrieval]);
   (Operator.Bing, [Operator.Begin; Operator.Retrieval]);
   (Operator.GoogleScholar, [Operator.Begin; Operator.Retrieval]);
   (Operator.GitHub, [Operator.Begin; Operator.Retrieval]);
   (Operator.SearXNG, [Operator.Begin; Operator.Retrieval]);
   (Operator.ExeSQL, [Operator.Begin]); (Operator.Switch, [Operator.Begin]);
   (Operator.WenCai, [Operator.Begin]); (Operator.YahooFinance, [Operator.Begin]);
   (Operator.Crawler, [Operator.Begin]); (Operator.Note, []);
   (Operator.Invoke, [Operator.Begin]); (Operator.Email, [Operator.Begin]);
   (Operator.Iteration, [Operator.Begin]); (Operator.IterationStart, [Operator.Begin]);
   (Operator.Code, [Operator.Begin]); (Operator.WaitingDialogue, [Operator.Begin]);
   (Operator.Agent, [Operator.Begin]); (Operator.TavilySearch, [Operator.Begin]);
   (Operator.TavilyExtract, [Operator.Begin]); (Operator.StringTransform, [Operator.Begin]);
   (Operator.UserFillUp, [Operator.Begin]); (Operator.Tool, [Operator.Begin]);
   (Operator.Placeholder, [Operator.Begin]); (Operator.DataOperations, [Operator.Begin]);
   (Operator.ListOperations, [Operator.Begin]); (Operator.VariableAssigner, [Operator.Begin]);
   (Operator.VariableAggregator, [Operator.Begin]); (Operator.Parser, [Operator.Begin]);
   (Operator.Splitter, [Operator.Begin]); (Operator.HierarchicalMerger, [Operator.Begin]);
   (Operator.Tokenizer, [Operator.Begin]); (Operator.Extractor, [Operator.Begin]);
   (Operator.File, [Operator.Begin]); (Operator.Loop, [Operator.Begin]);
   (Operator.LoopStart, [Operator.Begin]); (Operator.ExitLoop, [Operator.Begin])].

Definition restricted (op : string) : option (list string) :=
  snd <$> js_find (λ kv, kv.1 === op) RestrictedUpstreamMap.

Section connection.
Context {X : XYFlow}.

(** [if (sourceParentId || targetParentId) return sourceParentId === targetParentId] *)
Definition parent_truthy (p : option string) : bool := match p with Some q => q !== "" | None => false end.

Definition isSameNodeChild (connection : Connection) (s : RFState) : bool :=
  let sourceParentId := getParentIdById (Some (c_source connection)) s in
  let targetParentId := getParentIdById (Some (c_target connection)) s in
  if parent_truthy sourceParentId || parent_truthy targetParentId
  then sourceParentId === targetParentId
  else true.

(** The [for ... of] loop of [hasCycle]; [rec] is the recursive call, and the
    visited set is threaded through. *)
Fixpoint visit_outgoers (rec : Node → list string → option (bool * list string)) (src : string)
    (outgoers : list Node) (visited : list string) : option (bool * list string) :=
  match outgoers with
  | [] => Some (false, visited)
  | outgoer :: outgoers' =>
      if n_id outgoer === src then Some (true, visited)
      else
        '(found, visited') ← rec outgoer visited;
        if (found : bool) then Some (true, visited') else visit_outgoers rec src outgoers' visited'
  end.

Fixpoint hasCycle (nodes : list Node) (edges : list Edge) (src : string) (fuel : nat) (node : Node)
    (visited : list string) : option (bool * list string) :=
  match fuel with
  | O => None
  | S fuel =>
      if js_includes visited (n_id node) then Some (false, visited)
      else visit_outgoers (hasCycle nodes edges src fuel) src (xy_getOutgoers node nodes edges)
             (n_id node :: visited)
  end.

(** One call per node of the canvas, and one more. *)
Definition cycle_fuel (s : RFState) : nat := S (length (nodes s)).

Definition hasCanvasCycle (fuel : nat) (connection : Connection) (s : RFState) : option bool :=
  let target := js_find (λ n, n_id n === c_target connection) (nodes s) in
  if (n_id <$> target) === Some (c_source connection) then Some false
  else
    match target with
    | Some t => '(found, _) ← hasCycle (nodes s) (edges s) (c_source connection) fuel t []; Some (negb found)
    | None => Some false
    end.

(** [&&] evaluates [hasCanvasCycle] last, and only when the rest holds. *)
Definition isValidConnection (fuel : nat) (connection : Connection) (s : RFState) : option bool :=
  let isSelfConnected := c_target connection === c_source connection in
  let allowed :=
    match getOperatorTypeFromId (Some (c_source connection)) s with
    | Some op =>
        match restricted op with
        | Some l => js_every (λ x, Some x !== getOperatorTypeFromId (Some (c_target connection)) s) l
        | None => false
        end
    | None => false
    end in
  if negb isSelfConnected && allowed && isSameNodeChild connection s
  then hasCanvasCycle fuel connection s
  else Some false.
End connection.

(** ** What a deletion takes with it *)
Definition UndeletableNodes : list string := [Operator.Begin; Operator.IterationStart].

(** [if (pre.every((x) => x.id !== edge.id)) pre.push(edge)] *)
Definition push_edge (pre : list Edge) (e : Edge) : list Edge :=
  if js_every (λ d, e_id d !== e_id e) pre then pre ++ [e] else pre.

Definition agentPredicate (s : RFState) (n : Node) : bool :=
  getOperatorTypeFromId (Some (n_id n)) s === Some Operator.Agent.

Definition deletable_node (nodes : list Node) (node : Node) : bool :=
  let operatorType := label (n_data node) in
  if operatorType === Operator.Begin then false
  else negb ((operatorType === Operator.IterationStart) &&
             negb (js_some (λ m, Some (n_id m) === n_parentId node) nodes)).

Definition deletable_edge (s : RFState) (nodes : list Node) (edge : Edge) : bool :=
  let sourceType := getOperatorTypeFromId (Some (source edge)) s in
  let downStreamNodes := js_filter (λ m, n_id m === target edge) nodes in
  if js_includes (map Some UndeletableNodes) sourceType && (length downStreamNodes === 0)
  then negb (js_some (λ m, n_id m === source edge) nodes)
  else true.

(** One agent of the [forEach]. *)
Definition delete_with_agent (fuel : nat) (s : RFState) (edges : list Edge)
    (acc : list Node * list Edge) (node : Node) : option (list Node * list Edge) :=
  '(downstreamAgentAndToolNodeIds, downstreamAgentAndToolEdges) ←
    deleteAllDownstreamAgentsAndTool edges fuel (n_id node);
  Some
    (foldl (λ pre nodeId,
       match getNode (Some nodeId) s with
       | Some currentNode => if js_every (λ m, n_id m !== nodeId) pre then pre ++ [currentNode] else pre
       | None => pre
       end) acc.1 downstreamAgentAndToolNodeIds,
     foldl push_edge acc.2 downstreamAgentAndToolEdges).

Definition handleBeforeDelete (fuel : nat) (nodes : list Node) (edges : list Edge) (s : RFState)
    : option (list Node * list Edge) :=
  let toBeDeletedNodes := js_filter (deletable_node nodes) nodes in
  let toBeDeletedEdges := js_filter (deletable_edge s nodes) edges in
  foldl (λ acc node, a ← acc; delete_with_agent fuel s edges a node)
    (Some (toBeDeletedNodes, toBeDeletedEdges)) (js_filter (agentPredicate s) nodes).

(** ** The search for cycles is exact *)
Section cycle.
Context {X : XYFlow} {XL : XYFlowLaws X}.
Context (ns : list Node) (es : list Edge) (src : string).

Abbreviation ids := (map n_id ns).
Abbreviation R := (estep es (λ _, true)).

(** A step along an edge to a node of the canvas. *)
Definition vstep (a b : string) : Prop := R a b ∧ b ∈ ids.

Lemma outgoer_vstep n m : m ∈ xy_getOutgoers n ns es → vstep (n_id n) (n_id m) ∧ m ∈ ns.
Proof.
  intros [Hm (e & He & Hs & Ht)]%elem_of_getOutgoers. split; [|done]. split; [by exists e|].
  apply elem_of_map. eauto.
Qed.

Lemma vstep_outgoer n b : vstep (n_id n) b → ∃ m, m ∈ xy_getOutgoers n ns es ∧ n_id m = b.
Proof.
  intros [(e & He & _ & Hs & Ht) (m & -> & Hm)%elem_of_map]. exists m. split; [|done].
  apply elem_of_getOutgoers. eauto.
Qed.

(** A positive answer is a path. *)
Lemma hasCycle_sound fuel n visited v' :
  hasCycle ns es src fuel n visited = Some (true, v') → tc vstep (n_id n) src.
Proof.
  revert n visited v'. induction fuel as [|fuel IH]; intros n visited v'; simpl; [done|].
  destruct (js_includes visited (n_id n)); [done|].
  assert (∀ outs v, (∀ m, m ∈ outs → m ∈ xy_getOutgoers n ns es) →
    visit_outgoers (hasCycle ns es src fuel) src outs v = Some (true, v') → tc vstep (n_id n) src) as H.
  { induction outs as [|m outs IHo]; intros v Hin; simpl; [done|].
    assert (vstep (n_id n) (n_id m)) as Hstep by (apply outgoer_vstep, Hin; set_solver).
    destruct (bool_decide_reflect (n_id m = src)) as [<-|_]; [intros _; by apply tc_once|].
    destruct (hasCycle ns es src fuel m v) as [[[] v1]|] eqn:Hc; simpl; [|intros; eapply IHo; [|done]; set_solver|done].
    intros _. eapply tc_l; [done|]. eapply IH, Hc. }
  intros Ho. eapply H; [|done]. done.
Qed.

(** A negative answer leaves a visited set closed under the steps. *)
Definition closed_new (visited v' : list string) : Prop :=
  ∀ a, a ∈ v' → (a ∉ visited) → ∀ b, vstep a b → b ≠ src ∧ b ∈ v'.

Lemma hasCycle_complete fuel n visited v' :
  hasCycle ns es src fuel n visited = Some (false, v') →
  visited ⊆ v' ∧ n_id n ∈ v' ∧ closed_new visited v'.
Proof.
  revert n visited v'. induction fuel as [|fuel IH]; intros n visited v'; simpl; [done|].
  destruct (js_includes visited (n_id n)) eqn:Hv.
  { intros [= <-]. apply js_includes_true in Hv. split; [done|]. split; [done|]. by intros a ? []. }
  assert (∀ outs v, visit_outgoers (hasCycle ns es src fuel) src outs v = Some (false, v') →
    v ⊆ v' ∧ (∀ m, m ∈ outs → n_id m ≠ src ∧ n_id m ∈ v') ∧ closed_new v v') as H.
  { induction outs as [|m outs IHo]; intros v; simpl.
    { intros [= <-]. split; [done|]. split; [by intros ? ?%elem_of_nil|]. by intros a ? []. }
    destruct (bool_decide_reflect (n_id m = src)) as [|Hm]; [done|].
    destruct (hasCycle ns es src fuel m v) as [[[] v1]|] eqn:Hc; simpl; [done| |done].
    intros Ho. apply IH in Hc as (Hsub & Hm1 & Hcl). apply IHo in Ho as (Hsub' & Houts & Hcl').
    split; [set_solver|]. split.
    - intros m' [->|?]%elem_of_cons; [split; [done|set_solver]|auto].
    - intros a Ha Hav b Hab. destruct (decide (a ∈ v1)) as [Hin|Hnin]; [|by eapply Hcl'].
      destruct (Hcl a Hin Hav b Hab). split; [done|set_solver]. }
  intros Ho. apply H in Ho as (Hsub & Houts & Hcl). split; [set_solver|]. split; [set_solver|].
  intros a Ha Hav b Hab. destruct (decide (a = n_id n)) as [->|Hne].
  - apply vstep_outgoer in Hab as (m & Hm & <-). by apply Houts.
  - eapply Hcl; [done| |done]. set_solver.
Qed.

Lemma closed_no_path v a : closed_new [] v → a ∈ v → ¬ tc vstep a src.
Proof.
  intros Hcl Ha Htc. assert (∀ x y, tc vstep x y → x ∈ v → y ≠ src) as H; [|by eapply H].
  clear a Ha Htc. intros x y Htc. induction Htc as [x y Hxy|x y z Hxy _ IH]; intros Hx.
  - eapply Hcl; [done|set_solver|done].
  - apply IH. eapply Hcl; [done|set_solver|done].
Qed.

(** Each recursive call visits a node that was not visited. *)
Definition unvisited (visited : list string) : nat := length (js_filter (λ i, negb (js_includes visited i)) ids).

Lemma js_includes_mono (v v' : list string) i : v ⊆ v' → js_includes v i = true → js_includes v' i = true.
Proof. rewrite !js_includes_true. set_solver. Qed.

Lemma unvisited_mono_list (l v v' : list string) : v ⊆ v' →
  length (js_filter (λ j, negb (js_includes v' j)) l) ≤ length (js_filter (λ j, negb (js_includes v j)) l).
Proof.
  intros Hsub. induction l as [|i l IH]; [done|].
  rewrite !js_filter_cons. pose proof (js_includes_mono v v' i Hsub).
  destruct (js_includes v i), (js_includes v' i); simpl; naive_solver lia.
Qed.

Lemma unvisited_mono v v' : v ⊆ v' → unvisited v' ≤ unvisited v.
Proof. apply unvisited_mono_list. Qed.

Lemma unvisited_cons v i : i ∈ ids → (i ∉ v) → unvisited (i :: v) < unvisited v.
Proof.
  intros Hi Hv. pose proof (unvisited_mono v (i :: v) ltac:(set_solver)) as Hm.
  apply list_elem_of_split in Hi as (l1 & l2 & Hl). revert Hm. unfold unvisited. rewrite Hl.
  rewrite !js_filter_app, !js_filter_cons. intros _.
  pose proof (λ l, unvisited_mono_list l v (i :: v) ltac:(set_solver)) as Hle.
  assert (js_includes (i :: v) i = true) as -> by (apply js_includes_true; set_solver).
  assert (js_includes v i = false) as ->.
  { apply not_true_iff_false. by rewrite js_includes_true. }
  rewrite !length_app. simpl. pose proof (Hle l1). pose proof (Hle l2). lia.
Qed.

Lemma hasCycle_terminates fuel n visited :
  n ∈ ns → unvisited visited < fuel → is_Some (hasCycle ns es src fuel n visited).
Proof.
  revert n visited. induction fuel as [|fuel IH]; intros n visited Hn Hf; [lia|]. simpl.
  destruct (js_includes visited (n_id n)) eqn:Hv; [done|].
  assert (n_id n ∉ visited) as Hnv by (rewrite <-js_includes_true; congruence).
  assert (n_id n ∈ ids) as Hid by (apply elem_of_map; eauto).
  pose proof (unvisited_cons visited (n_id n) Hid Hnv) as Hlt.
  assert (∀ outs v, (∀ m, m ∈ outs → m ∈ ns) → unvisited v < fuel →
    is_Some (visit_outgoers (hasCycle ns es src fuel) src outs v)) as H.
  { induction outs as [|m outs IHo]; intros v Hin Hv'; simpl; [done|].
    case_bool_decide; [done|]. destruct (IH m v) as [[b v1] Hc]; [apply Hin; set_solver|done|].
    rewrite Hc. simpl. destruct b; [done|]. apply IHo; [set_solver|].
    apply hasCycle_complete in Hc as (Hsub & _ & _). pose proof (unvisited_mono _ _ Hsub). lia. }
  apply H; [|lia]. intros m Hm. by apply outgoer_vstep in Hm as [_ ?].
Qed.

Lemma unvisited_nil : unvisited [] = length ns.
Proof. unfold unvisited. rewrite js_filter_all; [by rewrite length_map|done]. Qed.
End cycle.

(** ** Valid connections *)
Section valid.
Context {L : Lodash} {X : XYFlow} {XL : XYFlowLaws X}.

(** No directed cycle along any edge of the canvas. *)
Definition canvas_acyclic (s : RFState) : Prop := eacyclic (edges s) (λ _, true).

Lemma hasCanvasCycle_spec fuel c s :
  length (nodes s) < fuel →
  ∃ b, hasCanvasCycle fuel c s = Some b ∧
    (b = true ↔ c_target c ∈ node_ids s ∧ c_target c ≠ c_source c ∧
                ¬ tc (vstep (nodes s) (edges s)) (c_target c) (c_source c)).
Proof.
  intros Hf. unfold hasCanvasCycle. destruct (js_find _ (nodes s)) as [t|] eqn:Hfind; simpl.
  - apply js_find_Some in Hfind as [Ht Hid]. reflect_bool. rewrite <-Hid.
    assert (n_id t ∈ node_ids s) as Hin by (apply elem_of_map; eauto).
    destruct (bool_decide_reflect (Some (n_id t) = Some (c_source c))) as [[= Heq]|Hne].
    { exists false. split; [done|]. naive_solver. }
    destruct (hasCycle_terminates (nodes s) (edges s) (c_source c) fuel t []) as [[b v'] Hc];
      [done|by rewrite unvisited_nil|].
    rewrite Hc. simpl. exists (negb b). split; [done|]. destruct b; simpl.
    + apply hasCycle_sound in Hc. naive_solver.
    + apply hasCycle_complete in Hc as (_ & Hm & Hcl). split; [|done]. intros _. split; [done|].
      split; [congruence|]. by eapply closed_no_path.
  - rewrite js_find_None in Hfind. exists false. split; [done|]. split; [done|].
    intros [(t & Heq & Ht)%elem_of_map _]. apply Hfind in Ht. by reflect_bool.
Qed.

(** C11: with as much fuel as there are nodes and one more, the check for
    cycles ends, and it lets a connection pass exactly when its target is a
    node other than its source and the canvas has no path from the target
    back to the source. *)
Theorem hasCanvasCycle_exact c s :
  ∃ b, hasCanvasCycle (cycle_fuel s) c s = Some b ∧
    (b = true ↔ c_target c ∈ node_ids s ∧ c_target c ≠ c_source c ∧
                ¬ tc (vstep (nodes s) (edges s)) (c_target c) (c_source c)).
Proof. apply hasCanvasCycle_spec. unfold cycle_fuel. lia. Qed.

Lemma isValidConnection_true fuel c s :
  isValidConnection fuel c s = Some true →
  c_target c ≠ c_source c ∧ isSameNodeChild c s = true ∧ hasCanvasCycle fuel c s = Some true ∧
  ∃ op l, getOperatorTypeFromId (Some (c_source c)) s = Some op ∧ restricted op = Some l ∧
    ∀ x, x ∈ l → getOperatorTypeFromId (Some (c_target c)) s ≠ Some x.
Proof.
  unfold isValidConnection. destruct (negb _ && _ && _) eqn:E; [|done]. intros Hc.
  apply andb_true_iff in E as [[Hne Hal]%andb_true_iff Hsame]. reflect_bool.
  split; [done|]. split; [done|]. split; [done|].
  destruct (getOperatorTypeFromId (Some (c_source c)) s) as [op|]; [|done].
  destruct (restricted op) as [l|] eqn:Hl; [|done]. exists op, l. split; [done|]. split; [done|].
  rewrite js_every_true in Hal. intros x Hx Heq. specialize (Hal x Hx). reflect_bool. congruence.
Qed.

Lemma tc_add_edge es e (p : Edge → bool) x y :
  tc (estep (es ++ [e]) p) x y →
  tc (estep es p) x y ∨ (rtc (estep es p) x (source e) ∧ rtc (estep es p) (target e) y).
Proof.
  assert (∀ a b, estep (es ++ [e]) p a b → estep es p a b ∨ (a = source e ∧ b = target e)) as Hstep.
  { intros a b (d & [Hd|Hd]%elem_of_app & Hp & Hs & Ht).
    - left. by exists d.
    - apply list_elem_of_singleton in Hd as ->. by right. }
  induction 1 as [x y Hxy|x z y Hxz _ IH].
  - apply Hstep in Hxy as [?|[-> ->]]; [left; by apply tc_once|by right].
  - apply Hstep in Hxz as [Hxz|[-> ->]].
    + destruct IH as [?|[? ?]]; [left; by eapply tc_l|right]. split; [by eapply rtc_l|done].
    + right. split; [done|]. destruct IH as [?|[_ ?]]; [by apply tc_rtc|done].
Qed.

Lemma estep_vstep s a b : edges_closed s → tc (estep (edges s) (λ _, true)) a b → tc (vstep (nodes s) (edges s)) a b.
Proof.
  intros Hc. assert (∀ a b, estep (edges s) (λ _, true) a b → vstep (nodes s) (edges s) a b) as H.
  { intros x y Hxy. split; [done|]. destruct Hxy as (e & He & _ & _ & <-). by apply Hc. }
  induction 1 as [x y Hxy|x z y Hxz _ IH]; [by apply tc_once, H|by eapply tc_l, IH; apply H].
Qed.

(** C16: an edge drawn after the canvas accepted the connection closes no
    cycle: on a canvas without cycles whose edges join existing nodes,
    connecting keeps both properties. *)
Theorem valid_connect_acyclic fuel c s :
  length (nodes s) < fuel → edges_closed s → canvas_acyclic s → isValidConnection fuel c s = Some true →
  canvas_acyclic (onConnect c s) ∧ edges_closed (onConnect c s).
Proof.
  intros Hf Hcl Hac Hv. apply isValidConnection_true in Hv as (Hne & _ & Hc & op & l & Hop & _ & _).
  destruct (hasCanvasCycle_spec fuel c s Hf) as (b & Hb & Hiff). rewrite Hc in Hb. injection Hb as <-.
  destruct Hiff as [(Hin & _ & Hno) _]; [done|].
  unfold canvas_acyclic, edges_closed. rewrite onConnect_edges, onConnect_ids.
  destruct (addEdge_cases c (edges s)) as [(e & -> & (Hs & Ht & _) & _)|[-> _]]; [|done]. split.
  - intros a Ha. apply tc_add_edge in Ha as [Ha|[H1 H2]]; [by eapply Hac|].
    rewrite Hs in H1. rewrite Ht in H2. apply Hno, (estep_vstep s _ _ Hcl).
    assert (rtc (estep (edges s) (λ _, true)) (c_target c) (c_source c)) as [|(m & ? & ?)]%rtc_inv
      by (by etrans); [done|]. eapply tc_rtc_r; [by apply tc_once|done].
  - intros d [Hd|Hd]%elem_of_app; [by apply Hcl|]. apply list_elem_of_singleton in Hd as ->.
    rewrite Hs, Ht. split; [|done]. by eapply getOperatorTypeFromId_Some.
Qed.

Lemma acyclic_agent s i :
  canvas_acyclic s → ∀ a, rtc (estep (edges s) is_agent_or_tool_edge) i a → ¬ agent_reach s a a.
Proof.
  intros Hac a _ Ha. apply (Hac a). unfold agent_reach in Ha.
  assert (∀ x y, tc (estep (edges s) is_agent_or_tool_edge) x y → tc (estep (edges s) (λ _, true)) x y) as H; [|auto].
  intros x y Hxy. induction Hxy as [x y Hxy|x y z Hxy _ IH].
  - apply tc_once. destruct Hxy as (e & ? & _ & ?). by exists e.
  - eapply tc_l, IH. destruct Hxy as (e & ? & _ & ?). by exists e.
Qed.

(** Exactly two operators are missing from the table of restrictions,
    PDFGenerator and ExcelProcessor, and no connection that starts at a node
    of one of them is ever valid. *)
Lemma restricted_missing op c s fuel :
  op ∈ Operator.all → getOperatorTypeFromId (Some (c_source c)) s = Some op →
  (restricted op = None ↔ op = Operator.PDFGenerator ∨ op = Operator.ExcelProcessor) ∧
  (op = Operator.PDFGenerator ∨ op = Operator.ExcelProcessor → isValidConnection fuel c s = Some false).
Proof.
  intros Hop Hs. split.
  - unfold Operator.all in Hop.
    repeat (apply elem_of_cons in Hop as [->|Hop]; [vm_compute; naive_solver|]). by apply elem_of_nil in Hop.
  - intros Hor. unfold isValidConnection. rewrite Hs. destruct Hor as [-> | ->]; simpl;
      by rewrite andb_false_r.
Qed.
End valid.

(** ** Deletions by the keyboard *)
Section before_delete.
Context (s : RFState) (ns : list Node) (es : list Edge).

(** What the agents among the deleted nodes reach along the deleted edges. *)
Definition reached (i : string) : Prop :=
  ∃ a, a ∈ ns ∧ agentPredicate s a = true ∧ tc (estep es is_agent_or_tool_edge) (n_id a) i.

Definition push_current (pre : list Node) (nodeId : string) : list Node :=
  match getNode (Some nodeId) s with
  | Some currentNode => if js_every (λ m, n_id m !== nodeId) pre then pre ++ [currentNode] else pre
  | None => pre
  end.

Lemma push_current_sub pre js n :
  n ∈ foldl push_current pre js →
  n ∈ pre ∨ ∃ i, i ∈ js ∧ getNode (Some i) s = Some n.
Proof.
  revert pre. induction js as [|i js IH]; intros pre; simpl; [auto|].
  intros [Hn|(j & ? & ?)]%IH; [|set_solver]. unfold push_current in Hn.
  destruct (getNode (Some i) s) as [m|] eqn:Hm; [|auto]. destruct (js_every _ pre); [|auto].
  apply elem_of_app in Hn as [?|Hn]; [auto|]. apply list_elem_of_singleton in Hn as ->. set_solver.
Qed.

Lemma push_current_mono pre js : pre ⊆ foldl push_current pre js.
Proof.
  revert pre. induction js as [|i js IH]; intros pre; simpl; [done|].
  etrans; [|apply IH]. unfold push_current. repeat case_match; set_solver.
Qed.

Lemma push_current_complete pre js i :
  i ∈ js → is_Some (getNode (Some i) s) → i ∈ map n_id (foldl push_current pre js).
Proof.
  intros Hi [m Hm]. revert pre. induction js as [|j js IH]; intros pre; [set_solver|]. simpl.
  apply elem_of_cons in Hi as [->|Hi]; [|by apply IH].
  assert (j ∈ map n_id (push_current pre j)) as Hj.
  { unfold push_current. rewrite Hm. destruct (js_every _ pre) eqn:E.
    - apply elem_of_map. exists m. apply getNode_Some in Hm as [? _]. set_solver.
    - destruct (decide (j ∈ map n_id pre)) as [|Hno]; [done|]. exfalso. apply not_true_iff_false in E as [].
      apply js_every_true. intros n Hn. apply negb_true_iff, bool_decide_eq_false. intros <-.
      apply Hno, elem_of_map. eauto. }
  apply elem_of_map in Hj as (n & -> & Hn). apply elem_of_map. exists n. split; [done|].
  by apply push_current_mono.
Qed.

Definition run (fuel : nat) (acc : list Node * list Edge) (agents : list Node) :=
  foldl (λ acc node, a ← acc; delete_with_agent fuel s es a node) (Some acc) agents.

Lemma foldl_None {A} (f : option (list Node * list Edge) → A → option (list Node * list Edge)) l :
  (∀ x, f None x = None) → foldl f None l = None.
Proof. intros H. induction l as [|x l IH]; simpl; [done|]. by rewrite H. Qed.

Lemma run_spec fuel acc agents r :
  run fuel acc agents = Some r →
  (∀ n, n ∈ r.1 → n ∈ acc.1 ∨ ∃ a, a ∈ agents ∧ tc (estep es is_agent_or_tool_edge) (n_id a) (n_id n) ∧
     getNode (Some (n_id n)) s = Some n) ∧
  acc.1 ⊆ r.1 ∧
  (∀ a i, a ∈ agents → tc (estep es is_agent_or_tool_edge) (n_id a) i → is_Some (getNode (Some i) s) →
     i ∈ map n_id r.1).
Proof.
  revert acc. unfold run. induction agents as [|a agents IH]; intros acc; simpl.
  { intros [= <-]. split; [auto|]. split; [done|]. by intros ? ? ?%elem_of_nil. }
  destruct (delete_with_agent fuel s es acc a) as [acc'|] eqn:E; [|by rewrite foldl_None].
  intros Hr. apply IH in Hr as (H1 & H2 & H3). unfold delete_with_agent, deleteAllDownstreamAgentsAndTool in E.
  destruct (filterAllDownstreamAgentAndToolNodeIds es fuel [n_id a]) as [ids|] eqn:Hids; [|done].
  simpl in E. injection E as <-. apply filterAll_spec in Hids as [_ Hids].
  change (foldl _ acc.1 ids) with (foldl push_current acc.1 ids) in *. cbn [fst] in *.
  assert (∀ i, i ∈ ids ↔ tc (estep es is_agent_or_tool_edge) (n_id a) i) as Hids'.
  { intros i. rewrite Hids. setoid_rewrite list_elem_of_singleton. naive_solver. }
  split; [|split].
  - intros n [Hn|(b & ? & ?)]%H1; [|set_solver]. apply push_current_sub in Hn as [?|(i & Hi & Hn)]; [auto|].
    right. exists a. pose proof (getNode_Some _ _ _ Hn) as [<- _]. split; [set_solver|]. split; [by apply Hids'|done].
  - etrans; [apply push_current_mono|done].
  - intros b i [->|Hb]%elem_of_cons Hi Hs; [|eauto].
    apply Hids' in Hi. pose proof (push_current_complete acc.1 ids i Hi Hs) as (n & -> & Hn)%elem_of_map.
    apply elem_of_map. exists n. split; [done|]. by apply H2.
Qed.

(** A deletion by the keyboard takes the deletable nodes of the
    selection, and beside them exactly the nodes of the canvas that an agent
    of the selection reaches along agent and tool edges that are themselves in
    the deletion; a Begin node, or an iteration's start without the iteration,
    is taken only in the second way. *)
Theorem handleBeforeDelete_spec fuel r :
  handleBeforeDelete fuel ns es s = Some r →
  (∀ n, n ∈ r.1 → (n ∈ ns ∧ deletable_node ns n = true) ∨
                  (reached (n_id n) ∧ getNode (Some (n_id n)) s = Some n)) ∧
  (∀ n, n ∈ ns → deletable_node ns n = true → n ∈ r.1) ∧
  (∀ i, reached i → is_Some (getNode (Some i) s) → i ∈ map n_id r.1) ∧
  (∀ n, n ∈ ns → label (n_data n) = Operator.Begin → deletable_node ns n = false).
Proof.
  unfold handleBeforeDelete. intros Hr. apply (run_spec fuel (js_filter (deletable_node ns) ns, _)) in Hr as (H1 & H2 & H3).
  split; [|split; [|split]].
  - intros n [Hn|(a & Ha & Ht & Hs)]%H1.
    + apply elem_of_js_filter in Hn as [? ?]. by left.
    + apply elem_of_js_filter in Ha as [? ?]. right. split; [by exists a|done].
  - intros n Hn Hd. apply H2, elem_of_js_filter. done.
  - intros i (a & Ha & Hp & Ht) Hs. eapply H3; [|done|done]. by apply elem_of_js_filter.
  - intros n _ Hb. unfold deletable_node. by rewrite bool_decide_true.
Qed.

Lemma run_terminates fuel acc agents :
  eacyclic es is_agent_or_tool_edge → S (length es) < fuel → is_Some (run fuel acc agents).
Proof.
  intros Hac Hf. unfold run. revert acc. induction agents as [|a agents IH]; intros acc; simpl; [done|].
  unfold delete_with_agent, deleteAllDownstreamAgentsAndTool.
  destruct (filterAll_terminates es is_agent_or_tool_edge fuel [n_id a]) as [ids Hids]; [auto|done|].
  unfold filterAllDownstreamAgentAndToolNodeIds. rewrite Hids. simpl. apply IH.
Qed.
End before_delete.

(** ** The theorems at work *)
Section examples.
Import Canvas.

Definition c_message : Connection :=
  {| c_source := "Agent:a"; c_target := "Message:a"; c_sourceHandle := HId NodeHandleId.Start;
     c_targetHandle := HId NodeHandleId.End_ |}.

Definition canvas_rank (i : string) : nat :=
  default 0 (js_findIndex (λ j, j === i) ["Switch:a"; "Agent:a"; "Agent:b"; "Tool:c"; "Message:a"]).

Lemma canvas_is_acyclic : canvas_acyclic canvas.
Proof. apply (rank_acyclic _ _ canvas_rank). repeat (constructor; [vm_compute; lia|]). constructor. Defined.

Lemma valid_connect_acyclic_witness :
  canvas_acyclic (onConnect c_message canvas) ∧ edges_closed (onConnect c_message canvas).
Proof.
  apply (valid_connect_acyclic 8 c_message canvas).
  - simpl. lia.
  - apply canvas_closed.
  - apply canvas_is_acyclic.
  - reflexivity.
Defined.

Lemma hasCanvasCycle_exact_witness :
  hasCanvasCycle (cycle_fuel canvas) c_message canvas = Some true ∧
  ¬ tc (vstep (nodes canvas) (edges canvas)) "Message:a" "Agent:a".
Proof.
  destruct (hasCanvasCycle_exact c_message canvas) as (b & Hb & Hiff).
  assert (b = true) as -> by (vm_compute in Hb; congruence). split; [exact Hb|]. by apply Hiff.
Defined.

Lemma restricted_missing_witness :
  let s := setNodes [mk_node "p" Operator.PDFGenerator "" None VUndef] canvas in
  isValidConnection 9 {| c_source := "p"; c_target := "q"; c_sourceHandle := HNull; c_targetHandle := HNull |} s
  = Some false.
Proof.
  intros s. apply (restricted_missing Operator.PDFGenerator
    {| c_source := "p"; c_target := "q"; c_sourceHandle := HNull; c_targetHandle := HNull |} s 9);
    [apply (bool_decide_unpack _); vm_compute; exact I|reflexivity|by left].
Defined.

(** Deleting [Agent:a] with the edges at it takes its sub-agent, but not the
    tool below that. *)
Definition agent_edges : list Edge := js_filter (λ e, (source e === "Agent:a") || (target e === "Agent:a")) (edges canvas).

Lemma handleBeforeDelete_spec_witness :
  ∃ r, handleBeforeDelete 9 [agent_node] agent_edges canvas = Some r ∧
    map n_id r.1 = ["Agent:a"; "Agent:b"] ∧
    ∀ i, reached canvas [agent_node] agent_edges i → is_Some (getNode (Some i) canvas) → i ∈ map n_id r.1.
Proof.
  destruct (handleBeforeDelete 9 [agent_node] agent_edges canvas) as [r|] eqn:E.
  - exists r. split; [done|]. split.
    + vm_compute in E. injection E as <-. reflexivity.
    + apply (handleBeforeDelete_spec canvas [agent_node] agent_edges 9 r E).
  - exfalso. vm_compute in E. discriminate E.
Defined.
End examples.
