(* ===== verification/AddNode.v ===== *)
(** * Adding operators to the canvas

    pages/agent/hooks/use-add-node.ts.  [useAddNode] reads [nodes] and [edges]
    of the render and writes through the store; an event runs to completion,
    so both are the state the handler starts in.  The initial forms of the
    operators (tables of constants), the translation function, the words of
    human-id and the screen coordinates come as arguments. *)
From S2P Require Import Prelude JsValue Graph Libs Downstream NodeNames GraphStore StoreProps Connection.
Open Scope list_scope.
Open Scope nat_scope.
Open Scope js_scope.

(** [Position] of React Flow. *)
Inductive Position := Left | Top | Right | Bottom.

#[export] Instance Position_eq_dec : EqDecision Position.
Proof. solve_decision. Defined.

Definition isBottomSubAgent (type : string) (position : Position) : bool :=
  ((type === Operator.Agent) && (position === Bottom)) || (type === Operator.Tool).

Definition NodeMap : list (string * string) :=
  [(Operator.Begin, "beginNode"); (Operator.Categorize, "categorizeNode");
   (Operator.Retrieval, "retrievalNode"); (Operator.Message, "messageNode");
   (Operator.RewriteQuestion, "rewriteNode"); (Operator.DuckDuckGo, "ragNode");
   (Operator.Wikipedia, "ragNode"); (Operator.PubMed, "ragNode"); (Operator.ArXiv, "ragNode");
   (Operator.Google, "ragNode"); (Operator.Bing, "ragNode"); (Operator.GoogleScholar, "ragNode");
   (Operator.GitHub, "ragNode"); (Operator.SearXNG, "ragNode"); (Operator.ExeSQL, "ragNode");
   (Operator.Switch, "switchNode"); (Operator.WenCai, "ragNode"); (Operator.YahooFinance, "ragNode");
   (Operator.Note, "noteNode"); (Operator.Crawler, "ragNode"); (Operator.Invoke, "ragNode");
   (Operator.Email, "ragNode"); (Operator.Iteration, "group");
   (Operator.IterationStart, "iterationStartNode"); (Operator.Code, "ragNode");
   (Operator.WaitingDialogue, "ragNode"); (Operator.Agent, "agentNode"); (Operator.Tool, "toolNode");
   (Operator.TavilySearch, "ragNode"); (Operator.UserFillUp, "ragNode");
   (Operator.StringTransform, "ragNode"); (Operator.TavilyExtract, "ragNode");
   (Operator.Placeholder, "placeholderNode"); (Operator.File, "fileNode");
   (Operator.Parser, "parserNode"); (Operator.Tokenizer, "tokenizerNode");
   (Operator.Splitter, "splitterNode"); (Operator.HierarchicalMerger, "splitterNode");
   (Operator.Extractor, "contextNode"); (Operator.DataOperations, "dataOperationsNode");
   (Operator.ListOperations, "listOperationsNode"); (Operator.VariableAssigner, "variableAssignerNode");
   (Operator.VariableAggregator, "variableAggregatorNode"); (Operator.Loop, "loopNode");
   (Operator.LoopStart, "loopStartNode"); (Operator.ExitLoop, "exitLoopNode");
   (Operator.ExcelProcessor, "ragNode"); (Operator.PDFGenerator, "ragNode")].

(** [NodeMap[type as Operator] || 'ragNode'] *)
Definition node_type (type : string) : string :=
  default "ragNode" (snd <$> js_find (λ kv, kv.1 === type) NodeMap).

(** [x || 0] of an optional number *)
Definition onum_or_0 (o : option num) : num := default (num_of_Z 0) (num_or_0 <$> o).

(** The truthy string under an optional property. *)
Definition otruthy (o : option string) : option string :=
  match o with Some "" => None | _ => o end.

(** The arguments of [addCanvasNode]. *)
Record AddParams := {
  p_nodeId : option string;
  p_position : Position;
  p_id : option string;
  p_isFromConnectionDrag : bool
}.

Definition default_params : AddParams :=
  {| p_nodeId := None; p_position := Right; p_id := None; p_isFromConnectionDrag := false |}.

Definition calculateNewlyBackChildPosition (id : option string) (sourceHandle_ : option string) (s : RFState)
    : XYPosition :=
  let parentNode := getNode id s in
  let allChildNodeIds :=
    map target (js_filter (λ e, (Some (source e) === id) &&
      (sourceHandle e === match sourceHandle_ with Some h => HId h | None => HUndef end)) (edges s)) in
  let yAxises :=
    map (λ n, y (n_position n)) (js_filter (λ n, js_some (λ i, i === n_id n) allChildNodeIds) (nodes s)) in
  let maxY := math_max yAxises in
  {| y := if bool_decide (0 < length yAxises) then num_add maxY (num_of_Z 150)
          else onum_or_0 (y ∘ n_position <$> parentNode);
     x := num_add (onum_or_0 (x ∘ n_position <$> parentNode)) (num_of_Z 300) |}.

Definition MoveRightDistance : Z := 310.

Definition resizeIterationNode (type : string) (position : Position) (parentId : option string) (s : RFState)
    : RFState :=
  match getNode parentId s with
  | Some parentNode =>
      if negb (isBottomSubAgent type position) then
        let childNodeList := js_filter (λ n, n_parentId n === parentId) (nodes s) in
        let maxX := math_max (map (λ n, x (n_position n)) childNodeList) in
        if num_ltb (x (n_position parentNode)) (num_add maxX (num_of_Z MoveRightDistance)) then
          updateNode (node_with_position
            (node_with_size parentNode (Some (num_add (onum_or_0 (n_width parentNode)) (num_of_Z MoveRightDistance)))
               (n_height parentNode))
            {| x := num_add (x (n_position parentNode)) (num_div_Z (num_of_Z MoveRightDistance) 2);
               y := y (n_position parentNode) |}) s
        else s
      else s
  | None => s
  end.

Section add.
Context {L : Lodash} {X : XYFlow}.
Context (getNodeName : string → string)
        (initialFormValuesMap : string → val)
        (descriptionMessage userPromptDefaultValue : string)
        (humanId : nat → string)
        (iterationStartId loopStartId : string)
        (initialIterationStartValues : val).

(** [GroupStartNodeMap]: one object per group operator, made when the module
    is loaded, its identifier with it. *)
Definition start_node (i type lbl : string) (f : val) : Node :=
  {| n_id := i; n_type := Some type; n_position := {| x := num_of_Z 50; y := num_of_Z 100 |};
     n_data := {| label := lbl; name := lbl; form := f |}; n_parentId := None; n_extent := Some "parent";
     n_width := None; n_height := None; n_selected := None; n_dragging := None; n_draggable := None;
     n_dragHandle := None |}.

Definition GroupStartNodeMap (operatorType : string) : Node :=
  if operatorType === Operator.Iteration
  then start_node (Operator.IterationStart +:+ ":" +:+ iterationStartId) "iterationStartNode"
         Operator.IterationStart initialIterationStartValues
  else start_node (Operator.LoopStart +:+ ":" +:+ loopStartId) "loopStartNode" Operator.LoopStart (VObj []).

Definition initializeOperatorParams (operatorName : string) (position : Position) : val :=
  let initialValues := initialFormValuesMap operatorName in
  if isBottomSubAgent operatorName position
  then VObj (obj_set "user_prompt" (VStr userPromptDefaultValue)
         (obj_set "description" (VStr descriptionMessage) (obj_assign [] (obj_of_val initialValues))))
  else initialValues.

Definition connection_to (src tgt sh th : string) : Connection :=
  {| c_source := src; c_target := tgt; c_sourceHandle := HId sh; c_targetHandle := HId th |}.

Definition addGroupNode (operatorType : string) (newNode0 : Node) (nodeId : option string) (s : RFState)
    : RFState * option string :=
  let newNode := node_with_size newNode0 (Some (num_of_Z 500)) (Some (num_of_Z 250)) in
  let startNode0 := GroupStartNodeMap operatorType in
  let startNode := node_with_parent startNode0 (Some (n_id newNode)) (n_extent startNode0) in
  let s := GraphStore.addNode startNode (GraphStore.addNode newNode s) in
  (match otruthy nodeId with
   | Some i => GraphStore.addEdge (connection_to i (n_id newNode) NodeHandleId.Start NodeHandleId.End_) s
   | None => s
   end, Some (n_id newNode)).

Definition addChildEdge (position : Position) (src tgt sh : option string) (s : RFState) : RFState :=
  match otruthy src, otruthy tgt, otruthy sh with
  | Some a, Some b, Some h =>
      if position === Right then GraphStore.addEdge (connection_to a b h NodeHandleId.End_) s else s
  | _, _, _ => s
  end.

(** At most one tool node for an agent: [None] when it has one already. *)
Definition addToolNode (newNode0 : Node) (nodeId : option string) (s : RFState) : option RFState :=
  match getNode nodeId s with
  | Some agentNode =>
      let childToolNodeIds :=
        map target (js_filter (λ e, (Some (source e) === nodeId) &&
                                    (sourceHandle e === HId NodeHandleId.Tool)) (edges s)) in
      let occupied :=
        match childToolNodeIds with
        | i :: _ => js_some (λ n, n_id n === i) (nodes s)
        | [] => false
        end in
      if occupied then None
      else
        let newNode := node_with_position newNode0
          {| x := num_sub (x (n_position agentNode)) (num_of_Z 82);
             y := num_add (y (n_position agentNode)) (num_of_Z 140) |} in
        let s := GraphStore.addNode newNode s in
        Some (match otruthy nodeId with
              | Some i => GraphStore.addEdge (connection_to i (n_id newNode) NodeHandleId.Tool NodeHandleId.End_) s
              | None => s
              end)
  | None => None
  end.

(** The place of a new sub-agent under its agent. *)
Definition sub_agent_position (nodeId : option string) (agentNode : Node) (s : RFState) : XYPosition :=
  let allChildAgentNodeIds :=
    map target (js_filter (λ e, (Some (source e) === nodeId) &&
                                (sourceHandle e === HId NodeHandleId.AgentBottom)) (edges s)) in
  let xAxises :=
    map (λ n, x (n_position n)) (js_filter (λ n, js_some (λ i, i === n_id n) allChildAgentNodeIds) (nodes s)) in
  let maxX := math_max xAxises in
  {| x := if bool_decide (0 < length xAxises) then num_add maxX (num_of_Z 262)
          else num_add (x (n_position agentNode)) (num_of_Z 82);
     y := num_add (y (n_position agentNode)) (num_of_Z 140) |}.

(** The node before it is placed in a group. *)
Definition new_canvas_node (k : nat) (type : string) (params : AddParams) (screenPosition : option XYPosition)
    (s : RFState) : Node :=
  let position :=
    if (p_position params === Right) && (type !== Operator.Note) && negb (p_isFromConnectionDrag params)
    then Some (calculateNewlyBackChildPosition (p_nodeId params) (p_id params) s)
    else screenPosition in
  {| n_id := type +:+ ":" +:+ humanId k;
     n_type := Some (node_type type);
     n_position := default {| x := num_of_Z 0; y := num_of_Z 0 |} position;
     n_data := {| label := type;
                  name := generateNodeNamesWithIncreasingIndex (getNodeName type) (nodes s);
                  form := initializeOperatorParams type (p_position params) |};
     n_parentId := None; n_extent := None; n_width := None; n_height := None; n_selected := None;
     n_dragging := None;
     n_draggable := if type === Operator.Placeholder then Some false else None;
     n_dragHandle := getNodeDragHandle (Some type) |}.

(** [if (node && node.parentId)]: the new node joins the group, and the group
    grows. *)
Definition join_group (type : string) (params : AddParams) (newNode : Node) (s : RFState) : Node * RFState :=
  let node := getNode (p_nodeId params) s in
  match otruthy (n ← node; n_parentId n) with
  | Some q =>
      (node_with_parent newNode (Some q) (Some "parent"),
       match getNode (Some q) s with
       | Some _ =>
           if negb (isBottomSubAgent type (p_position params))
           then resizeIterationNode type (p_position params) (Some q) s
           else s
       | None => s
       end)
  | None => (newNode, s)
  end.

Definition addCanvasNode (k : nat) (type : string) (params : AddParams) (screenPosition : option XYPosition)
    (s0 : RFState) : RFState * option string :=
  let nodeId := p_nodeId params in
  let '(newNode, s) := join_group type params (new_canvas_node k type params screenPosition s0) s0 in
  if js_includes [Operator.Iteration; Operator.Loop] type then addGroupNode type newNode nodeId s
  else if (type === Operator.Agent) && (p_position params === Bottom) then
    let newNode :=
      match getNode nodeId s with
      | Some agentNode => node_with_position newNode (sub_agent_position nodeId agentNode s0)
      | None => newNode
      end in
    let s := GraphStore.addNode newNode s in
    (match otruthy nodeId with
     | Some i => GraphStore.addEdge (connection_to i (n_id newNode) NodeHandleId.AgentBottom NodeHandleId.AgentTop) s
     | None => s
     end, Some (n_id newNode))
  else if type === Operator.Tool then
    match addToolNode newNode nodeId s with
    | Some s' => (s', Some (n_id newNode))
    | None => (s, None)
    end
  else
    (addChildEdge (p_position params) nodeId (Some (n_id newNode)) (p_id params) (GraphStore.addNode newNode s),
     Some (n_id newNode)).

Definition addNoteNode (k : nat) (screenPosition : option XYPosition) (s : RFState) : RFState * option string :=
  addCanvasNode k Operator.Note default_params screenPosition s.
End add.

(** [getRelativePositionToIterationNode] of utils.ts: the first iteration
    whose rectangle holds the point. *)
Definition num_geb (a b : num) : bool := num_leb b a.

Definition inside_iteration (p : XYPosition) (n : Node) : bool :=
  let halfWidth := num_div_Z (onum_or_0 (n_width n)) 2 in
  num_geb (x p) (num_sub (x (n_position n)) halfWidth) &&
  num_leb (x p) (num_add (x (n_position n)) halfWidth) &&
  num_geb (y p) (y (n_position n)) &&
  num_leb (y p) (num_add (y (n_position n)) (onum_or_0 (n_height n))).

Definition getRelativePositionToIterationNode (ns : list Node) (position : option XYPosition)
    : option (string * XYPosition) :=
  match position with
  | None => None
  | Some p =>
      let iterationNodes := js_filter (λ n, label (n_data n) === Operator.Iteration) ns in
      n ← js_find (inside_iteration p) iterationNodes;
      Some (n_id n,
        {| x := num_add (num_sub (x p) (x (n_position n))) (num_div_Z (onum_or_0 (n_width n)) 2);
           y := num_sub (y p) (y (n_position n)) |})
  end.

(** ** What adding keeps *)
Section add_props.
Context {L : Lodash} {X : XYFlow} {XL : XYFlowLaws X}.
Context (getNodeName : string → string) (initialFormValuesMap : string → val)
        (descriptionMessage userPromptDefaultValue : string) (humanId : nat → string)
        (iterationStartId loopStartId : string) (initialIterationStartValues : val).

Abbreviation add := (addCanvasNode getNodeName initialFormValuesMap descriptionMessage userPromptDefaultValue
  humanId iterationStartId loopStartId initialIterationStartValues).
Abbreviation new_node := (new_canvas_node getNodeName initialFormValuesMap descriptionMessage
  userPromptDefaultValue humanId).

Lemma resize_ids type p q s : node_ids (resizeIterationNode type p q s) = node_ids s.
Proof.
  unfold resizeIterationNode. destruct (getNode q s) as [n|] eqn:Hn; [|done]. repeat case_match; try done.
  unfold node_ids, updateNode. cbn [nodes setNodes]. rewrite map_map. apply map_ext. intros m.
  case_bool_decide; done.
Qed.

Lemma resize_edges type p q s : edges (resizeIterationNode type p q s) = edges s.
Proof. unfold resizeIterationNode. repeat case_match; done. Qed.

Lemma resize_names type p q s :
  NoDup (node_ids s) → node_names (nodes (resizeIterationNode type p q s)) = node_names (nodes s).
Proof.
  intros Hnd. unfold resizeIterationNode. destruct (getNode q s) as [n|] eqn:Hn; [|done].
  repeat case_match; try done. unfold node_names, updateNode. cbn [nodes setNodes].
  rewrite map_map. apply map_ext_in. intros m Hm%list_elem_of_In. case_bool_decide as Hid; [|done].
  cbn in Hid |- *. assert (n ∈ nodes s) as Hns by (by apply js_find_Some in Hn as [? _]).
  unfold node_ids in Hnd. apply list_elem_of_lookup in Hm as [i Hi], Hns as [j Hj].
  assert (i = j) as ->; [|congruence]. eapply (NoDup_lookup _ _ _ _ Hnd).
  - change (map n_id (nodes s)) with (n_id <$> nodes s). by rewrite list_lookup_fmap, Hi.
  - change (map n_id (nodes s)) with (n_id <$> nodes s). rewrite list_lookup_fmap, Hj. simpl. congruence.
Qed.

Lemma join_group_spec type params n s :
  let '(n', s') := join_group type params n s in
  n_id n' = n_id n ∧ name (n_data n') = name (n_data n) ∧ node_ids s' = node_ids s ∧ edges s' = edges s ∧
  (NoDup (node_ids s) → node_names (nodes s') = node_names (nodes s)).
Proof.
  unfold join_group. destruct (otruthy _) as [q|]; [|done].
  split; [done|]. split; [done|]. destruct (getNode (Some q) s); [|done].
  case_match; [|done]. split; [apply resize_ids|]. split; [apply resize_edges|]. apply resize_names.
Qed.

(** Adding one edge into a node that no edge touches yet. *)
Lemma add_edge_fresh c s ids' :
  edges_closed s → canvas_acyclic s → node_ids s ⊆ ids' → c_source c ∈ node_ids s → (c_target c ∉ node_ids s) →
  c_target c ∈ ids' →
  eacyclic (xy_addEdge c (edges s)) (λ _, true) ∧
  ∀ e, e ∈ xy_addEdge c (edges s) → source e ∈ ids' ∧ target e ∈ ids'.
Proof.
  intros Hcl Hac Hsub Hs Ht Hin. destruct (addEdge_cases c (edges s)) as [(e & -> & (Es & Et & _) & _)|[-> _]].
  - split.
    + intros a Ha. apply tc_add_edge in Ha as [Ha|[H1 H2]]; [by eapply Hac|]. rewrite Et in H2. rewrite Es in H1.
      assert (rtc (estep (edges s) (λ _, true)) (c_target c) (c_source c)) as Hr by (by etrans).
      apply rtc_inv in Hr as [Heq|(m & (d & Hd & _ & Hds & _) & _)].
      * congruence.
      * apply Hcl in Hd as [Hd _]. congruence.
    + intros d [Hd|Hd]%elem_of_app; [destruct (Hcl d Hd); auto|]. apply list_elem_of_singleton in Hd as ->.
      rewrite Es, Et. auto.
  - split; [done|]. intros d Hd. destruct (Hcl d Hd). auto.
Qed.

Definition new_id (k : nat) (type : string) : string := type +:+ ":" +:+ humanId k.

(** The nodes and edges of the result, whatever the operator. *)
Lemma addCanvasNode_shape k type params scr s :
  let '(s', r) := add k type params scr s in
  (r = None ∧ type = Operator.Tool ∧ node_ids s' = node_ids s ∧ edges s' = edges s) ∨
  (r = Some (new_id k type) ∧
   (∃ more, node_ids s' = node_ids s ++ new_id k type :: more) ∧
   (edges s' = edges s ∨
    ∃ c i, p_nodeId params = Some i ∧ c_source c = i ∧ c_target c = new_id k type ∧
      edges s' = xy_addEdge c (edges s))).
Proof.
  unfold addCanvasNode. pose proof (join_group_spec type params (new_node k type params scr s) s) as Hj.
  destruct (join_group _ _ _ _) as [n s1]. destruct Hj as (Hid & _ & Hids & Hes & _).
  change (n_id (new_node k type params scr s)) with (new_id k type) in Hid.
  assert (∀ m s2, n_id m = new_id k type → node_ids (GraphStore.addNode m s2) = node_ids s2 ++ [new_id k type]) as Hadd.
  { intros m s2 Hm. unfold node_ids, GraphStore.addNode. cbn [nodes setNodes]. rewrite map_app. simpl. by rewrite Hm. }
  assert (∀ o i, otruthy o = Some i → o = Some i) as Ho.
  { intros [[|a t]|] i; simpl; congruence. }
  destruct (js_includes [Operator.Iteration; Operator.Loop] type).
  { right. unfold addGroupNode. cbn [n_id node_with_size]. split; [by rewrite Hid|].
    set (m := node_with_size n _ _). set (g := node_with_parent _ _ _).
    assert (node_ids (GraphStore.addNode g (GraphStore.addNode m s1)) = node_ids s ++ new_id k type :: [n_id g]) as Hg.
    { unfold node_ids, GraphStore.addNode. cbn [nodes setNodes]. rewrite !map_app, <-app_assoc. simpl.
      rewrite Hid. unfold node_ids in Hids. by rewrite Hids. }
    destruct (otruthy (p_nodeId params)) as [i|] eqn:Hi.
    - split; [exists [n_id g]; etrans; [apply onConnect_ids|done]|]. right. eexists _, i. split; [by apply Ho|].
      split; [|split; [|etrans; [apply onConnect_edges|by rewrite <-Hes]]]; [done|assumption].
    - split; [by exists [n_id g]|]. by left. }
  destruct ((type === Operator.Agent) && (p_position params === Bottom)).
  { right. set (m := match getNode (p_nodeId params) s1 with Some _ => _ | None => _ end).
    assert (n_id m = new_id k type) as Hm by (unfold m; case_match; done). split; [by rewrite Hm|].
    destruct (otruthy (p_nodeId params)) as [i|] eqn:Hi.
    - split; [exists []; etrans; [apply onConnect_ids|]; by rewrite Hadd, Hids|]. right. eexists _, i.
      split; [by apply Ho|]. split; [|split; [|etrans; [apply onConnect_edges|by rewrite <-Hes]]]; [done|assumption].
    - split; [exists []; by rewrite Hadd, Hids|]. by left. }
  destruct (bool_decide_reflect (type = Operator.Tool)) as [Htool|_].
  { unfold addToolNode. destruct (getNode (p_nodeId params) s1) as [a|] eqn:Ha; [|by left].
    match goal with |- context [if ?b then None else _] => destruct b end; [by left|]. right. split; [by rewrite Hid|].
    destruct (otruthy (p_nodeId params)) as [i|] eqn:Hi.
    - split; [exists []; etrans; [apply onConnect_ids|]; by rewrite Hadd, Hids|]. right. eexists _, i.
      split; [by apply Ho|]. split; [|split; [|etrans; [apply onConnect_edges|by rewrite <-Hes]]]; [done|assumption].
    - split; [exists []; by rewrite Hadd, Hids|]. by left. }
  right. split; [by rewrite Hid|]. unfold addChildEdge.
  assert (∃ more, node_ids (GraphStore.addNode n s1) = node_ids s ++ new_id k type :: more) as Hn
    by (exists []; by rewrite Hadd, Hids).
  destruct (otruthy (p_nodeId params)) as [i|] eqn:Hi; [|by split; [|left]].
  destruct (otruthy (Some (n_id n))) as [b|] eqn:Hb; [|by split; [|left]].
  destruct (otruthy (p_id params)) as [h|]; [|by split; [|left]].
  case_match; [|by split; [|left]]. apply Ho in Hb. injection Hb as <-.
  split; [destruct Hn as [more Hn]; exists more; etrans; [apply onConnect_ids|done]|].
  right. eexists _, i. split; [by apply Ho|]. split; [|split; [|etrans; [apply onConnect_edges|by rewrite <-Hes]]]; [done|assumption].
Qed.

(** an operator added under an identifier that is not in use, from a
    node of the canvas or from none, closes no cycle and leaves no edge
    without its nodes; the returned identifier is the new node's, and nothing
    is returned only for the second tool node of an agent, when nothing is
    added. *)
Theorem addCanvasNode_invariant k type params scr s :
  edges_closed s → canvas_acyclic s → (new_id k type ∉ node_ids s) →
  (∀ i, p_nodeId params = Some i → i ∈ node_ids s) →
  let '(s', r) := add k type params scr s in
  edges_closed s' ∧ canvas_acyclic s' ∧ node_ids s ⊆ node_ids s' ∧
  ((r = Some (new_id k type) ∧ new_id k type ∈ node_ids s') ∨
   (r = None ∧ type = Operator.Tool ∧ node_ids s' = node_ids s ∧ edges s' = edges s)).
Proof.
  intros Hcl Hac Hf Hin. pose proof (addCanvasNode_shape k type params scr s) as Hs.
  destruct (add k type params scr s) as [s' r].
  destruct Hs as [(-> & -> & Hids & Hes)|(-> & [more Hids] & Hes)].
  - unfold edges_closed, canvas_acyclic. rewrite Hids, Hes. split; [done|]. split; [done|]. split; [done|]. by right.
  - assert (node_ids s ⊆ node_ids s' ∧ new_id k type ∈ node_ids s') as [Hsub Hnew].
    { rewrite Hids. split; [intros j Hj; by apply elem_of_app; left|]. apply elem_of_app; right; left. }
    assert (eacyclic (edges s') (λ _, true) ∧ ∀ e, e ∈ edges s' → source e ∈ node_ids s' ∧ target e ∈ node_ids s')
      as [Ha Hc]; [|split; [exact Hc|]; split; [exact Ha|]; split; [done|]; by left].
    destruct Hes as [->|(c & i & Hi & Hci & Hct & ->)].
    + split; [done|]. intros e He. destruct (Hcl e He). split; by apply Hsub.
    + apply add_edge_fresh; [done|done|done|rewrite Hci; auto|by rewrite Hct|by rewrite Hct].
Qed.

Lemma onConnect_names c s : node_names (nodes (onConnect c s)) = node_names (nodes s).
Proof.
  assert (∀ i v p s, node_names (nodes (updateNodeForm i v p s)) = node_names (nodes s)) as H.
  { intros i v p s1. unfold node_names, updateNodeForm. cbn [nodes setNodes]. rewrite map_map. apply map_ext.
    intros n. by case_bool_decide. }
  unfold onConnect, updateFormDataOnConnect, updateSwitchFormData. repeat case_match; rewrite ?H; done.
Qed.

Lemma addNode_names n s : node_names (nodes (GraphStore.addNode n s)) = node_names (nodes s) ++ [name (n_data n)].
Proof. unfold node_names, GraphStore.addNode. cbn [nodes setNodes]. by rewrite map_app. Qed.

Lemma addCanvasNode_names k type params scr s :
  NoDup (node_ids s) → (type ∉ [Operator.Iteration; Operator.Loop]) →
  let s' := (add k type params scr s).1 in
  node_names (nodes s') = node_names (nodes s) ∨
  node_names (nodes s') =
    node_names (nodes s) ++ [generateNodeNamesWithIncreasingIndex (getNodeName type) (nodes s)].
Proof.
  intros Hnd Ht. unfold addCanvasNode. pose proof (join_group_spec type params (new_node k type params scr s) s) as Hj.
  destruct (join_group _ _ _ _) as [n s1]. destruct Hj as (_ & Hnm & _ & _ & Hns). specialize (Hns Hnd).
  change (name (n_data (new_node k type params scr s)))
    with (generateNodeNamesWithIncreasingIndex (getNodeName type) (nodes s)) in Hnm.
  unfold js_includes. rewrite bool_decide_false by done.
  assert (∀ m, name (n_data m) = name (n_data n) → node_names (nodes (GraphStore.addNode m s1)) =
    node_names (nodes s) ++ [generateNodeNamesWithIncreasingIndex (getNodeName type) (nodes s)]) as Hadd.
  { intros m Hm. by rewrite addNode_names, Hns, Hm, Hnm. }
  destruct (_ && _).
  { right. cbn [fst]. destruct (otruthy _); rewrite ?(onConnect_names (connection_to _ _ _ _)); apply Hadd; by case_match. }
  case_match.
  - unfold addToolNode. destruct (getNode (p_nodeId params) s1); [|by left].
    match goal with |- context [if ?b then None else _] => destruct b end; [by left|]. right. cbn [fst].
    destruct (otruthy _); rewrite ?(onConnect_names (connection_to _ _ _ _)); by apply Hadd.
  - right. cbn [fst]. unfold addChildEdge. repeat case_match; rewrite ?(onConnect_names (connection_to _ _ _ _)); by apply Hadd.
Qed.

(** operators other than the two groups are added under a name that is
    not in use: unique names in the naming scheme stay so. *)
Theorem addCanvasNode_unique_names k type params scr s :
  NoDup (node_ids s) → (type ∉ [Operator.Iteration; Operator.Loop]) →
  count_char underscore (getNodeName type) = 0 →
  NoDup (node_names (nodes s)) → names_canonical (getNodeName type) (nodes s) →
  let s' := (add k type params scr s).1 in
  NoDup (node_names (nodes s')) ∧ names_canonical (getNodeName type) (nodes s').
Proof.
  intros Hids Ht Hu Hnd Hcan. destruct (generate_fresh (getNodeName type) (nodes s) Hu Hnd Hcan) as [Hf (z & Hz & Heq)].
  intros s'. unfold names_canonical.
  destruct (addCanvasNode_names k type params scr s Hids Ht) as [H|H]; subst s'; rewrite H; [done|]. split.
  - apply NoDup_app. split; [done|]. split; [|apply NoDup_singleton]. intros nm Hnm ->%list_elem_of_singleton. done.
  - intros nm [Hnm| ->%list_elem_of_singleton]%elem_of_app; [by apply Hcan|]. eauto.
Qed.

(** An agent has at most one tool node: after one was added from it, the
    next is refused. *)
Theorem addToolNode_once n m i s s' :
  i ≠ "" → n_id n ≠ "" → edges_closed s → addToolNode n (Some i) s = Some s' → addToolNode m (Some i) s' = None.
Proof.
  intros Hi Hne Hcl. unfold addToolNode at 1. destruct (getNode (Some i) s) as [a|] eqn:Ha; [|done].
  set (tools := js_filter _ (edges s)). destruct (map target tools) as [|j js] eqn:Htools.
  - assert (otruthy (Some i) = Some i) as -> by (by destruct i).
    intros [= <-]. set (n1 := node_with_position n _). set (c := connection_to i (n_id n) NodeHandleId.Tool NodeHandleId.End_).
    assert (tools = []) as Hnil by (destruct tools; [reflexivity|discriminate Htools]).
    set (s1 := GraphStore.addNode n1 s). unfold addToolNode.
    destruct (getNode (Some i) (GraphStore.addEdge c s1)); [|done].
    change (GraphStore.addEdge c s1) with (onConnect c s1). rewrite onConnect_edges.
    change (edges s1) with (edges s).
    assert (∃ e, js_filter (λ e, (Some (source e) === Some i) && (sourceHandle e === HId NodeHandleId.Tool))
      (xy_addEdge c (edges s)) = [e] ∧ target e = n_id n) as (e & -> & He).
    { destruct (addEdge_cases c (edges s)) as [(e & -> & (Es & Et & Eh & _) & _)|[-> Hor]].
      - exists e. rewrite js_filter_app. fold tools. rewrite Hnil. simpl. rewrite js_filter_cons, Es.
        assert (sourceHandle e = HId NodeHandleId.Tool) as -> by (by destruct Eh as [?|[_ ?]]).
        rewrite !bool_decide_true by done. done.
      - exfalso. destruct Hor as [?|[Hnn|(d & Hd & (Ds & _ & Dh & _))]]; [done| |].
        + by apply Hne.
        + assert (d ∈ tools) as Hin; [|rewrite Hnil in Hin; by apply elem_of_nil in Hin].
          apply elem_of_js_filter. split; [|done]. rewrite Ds.
          assert (sourceHandle d = HId NodeHandleId.Tool) as -> by (by destruct Dh as [?|[_ ?]]).
          by rewrite !bool_decide_true. }
    cbn [map]. rewrite He.
    assert (n_id n ∈ node_ids (onConnect c s1)) as (b & Hb & Hbs)%elem_of_map.
    { rewrite onConnect_ids. apply elem_of_map. exists n1. split; [done|]. apply elem_of_app. right. by left. }
    assert (js_some (λ n0, n_id n0 === n_id n) (nodes (onConnect c s1)) = true) as ->; [|done].
    apply js_some_true. exists b. split; [done|]. by apply bool_decide_eq_true.
  - assert (j ∈ node_ids s) as Hj.
    { assert (j ∈ map target tools) as (e & -> & He)%elem_of_map by (rewrite Htools; by left).
      apply elem_of_js_filter in He as [_ He]. by apply Hcl in He as [_ ?]. }
    assert (js_some (λ n0, n_id n0 === j) (nodes s) = true) as ->; [|done].
    apply js_some_true. apply elem_of_map in Hj as (b & -> & Hb). exists b. split; [done|]. by apply bool_decide_eq_true.
Qed.

(** The start node of a group is one object per operator, with one
    identifier: after two iterations were added, two nodes of the canvas have
    the same identifier. *)
Lemma two_groups_same_start k1 k2 params1 params2 scr1 scr2 s :
  let s1 := (add k1 Operator.Iteration params1 scr1 s).1 in
  let s2 := (add k2 Operator.Iteration params2 scr2 s1).1 in
  ¬ NoDup (node_ids s2).
Proof.
  assert (∀ k params scr s, ∃ i,
    node_ids (add k Operator.Iteration params scr s).1 =
    node_ids s ++ [i; Operator.IterationStart +:+ ":" +:+ iterationStartId]) as H.
  { intros k params scr s0. unfold addCanvasNode.
    pose proof (join_group_spec Operator.Iteration params (new_node k Operator.Iteration params scr s0) s0) as Hj.
    destruct (join_group _ _ _ _) as [n s1]. destruct Hj as (_ & _ & Hids & _ & _).
    unfold js_includes. rewrite bool_decide_true by set_solver. exists (n_id n).
    unfold addGroupNode. set (g := node_with_parent _ _ _). set (m := node_with_size _ _ _).
    assert (node_ids (GraphStore.addNode g (GraphStore.addNode m s1)) =
      node_ids s0 ++ [n_id n; Operator.IterationStart +:+ ":" +:+ iterationStartId]) as Hg.
    { unfold node_ids, GraphStore.addNode. cbn [nodes setNodes]. rewrite !map_app, <-app_assoc.
      unfold node_ids in Hids. by rewrite Hids. }
    destruct (otruthy _); [|done]. etrans; [apply onConnect_ids|done]. }
  destruct (H k1 params1 scr1 s) as [i1 H1]. intros s1 s2.
  destruct (H k2 params2 scr2 s1) as [i2 H2]. fold s1 in H1. fold s2 in H2. rewrite H2, H1, <-app_assoc.
  intros (_ & _ & Hnd)%NoDup_app. apply NoDup_app in Hnd as (_ & Hnd & _).
  eapply Hnd; [right; by left|right; by left].
Qed.
End add_props.

(** ** The theorems at work *)
Section examples.
Import Canvas.
#[local] Abbreviation add0 := (addCanvasNode (λ s, s) (λ _, VObj []) "" "" words "0" "1" (VObj [])).

Definition after_message : AddParams :=
  {| p_nodeId := Some "Message:a"; p_position := Right; p_id := Some NodeHandleId.Start;
     p_isFromConnectionDrag := false |}.

Lemma addCanvasNode_invariant_witness :
  let '(s', r) := add0 5 Operator.Retrieval after_message None canvas in
  edges_closed s' ∧ canvas_acyclic s' ∧ r = Some "Retrieval:5" ∧ length (edges s') = 6.
Proof.
  pose proof (addCanvasNode_invariant (λ s, s) (λ _, VObj []) "" "" words "0" "1" (VObj []) 5 Operator.Retrieval
    after_message None canvas canvas_closed canvas_is_acyclic) as H.
  destruct (add0 5 Operator.Retrieval after_message None canvas) as [s' r] eqn:E.
  destruct H as (H1 & H2 & _ & [[Hr _]|(_ & Ht & _)]); [| |split; [done|split; [done|split; [done|]]]|discriminate].
  - apply (bool_decide_unpack _). vm_compute. exact I.
  - intros i [= <-]. apply (bool_decide_unpack _). vm_compute. exact I.
  - vm_compute in E. injection E as <- _. reflexivity.
Defined.

Lemma addCanvasNode_unique_names_witness :
  NoDup (node_names (nodes (add0 5 Operator.Message after_message None canvas).1)).
Proof.
  apply (addCanvasNode_unique_names (λ s, s) (λ _, VObj []) "" "" words "0" "1" (VObj []) 5 Operator.Message
    after_message None canvas).
  - apply (bool_decide_unpack _). vm_compute. exact I.
  - apply (bool_decide_unpack _). vm_compute. exact I.
  - reflexivity.
  - apply (bool_decide_unpack _). vm_compute. exact I.
  - intros s Hs Ht. exists 0%Z. split; [done|]. simpl in Hs.
    repeat (apply elem_of_cons in Hs as [->|Hs]; [first [done|vm_compute in Ht; discriminate Ht]|]).
    by apply elem_of_nil in Hs.
Defined.

Lemma two_groups_same_start_witness :
  ¬ NoDup (node_ids (add0 2 Operator.Iteration default_params None
                       (add0 1 Operator.Iteration default_params None canvas).1).1).
Proof.
  apply (two_groups_same_start (λ s, s) (λ _, VObj []) "" "" words "0" "1" (VObj []) 1 2 default_params
    default_params None None canvas).
Defined.

Lemma addToolNode_once_witness :
  ∃ s', addToolNode (mk_node "Tool:n" Operator.Tool "Tool_1" None VUndef) (Some "Agent:a") canvas = Some s' ∧
    addToolNode (mk_node "Tool:m" Operator.Tool "Tool_2" None VUndef) (Some "Agent:a") s' = None.
Proof.
  eexists. split; [vm_compute; reflexivity|].
  apply (addToolNode_once (mk_node "Tool:n" Operator.Tool "Tool_1" None VUndef)
    (mk_node "Tool:m" Operator.Tool "Tool_2" None VUndef) "Agent:a" canvas);
    [discriminate|discriminate|apply canvas_closed|vm_compute; reflexivity].
Defined.
End examples.
