(* ===== verification/Editing.v ===== *)
(** * Editing sessions

    What a user can do to the canvas as a step relation over the store and the
    states that undo and redo can bring back, and what holds in every state
    they reach: the agent and tool edges have no cycle.  They are made by
    adding a sub-agent or a tool to an agent only, because the handles they
    start at cannot be drawn from (isConnectable={false}, agent-node.tsx), and
    an added node has an identifier of its own.  This is what makes the
    recursive searches of the deletions end, which keep no visited set. *)
From S2P Require Import Prelude JsValue Graph Libs Downstream NodeNames GraphStore StoreProps Connection AddNode.
Open Scope list_scope.
Open Scope nat_scope.
Open Scope js_scope.

(** The nodes and edges [onBeforeDelete] returns are removed by React Flow,
    as changes by identifier. *)
Definition remove_elements (ns : list Node) (es : list Edge) (s : RFState) : RFState :=
  setEdges (js_filter (λ e, negb (js_some (λ d, e_id d === e_id e) es)) (edges s))
    (setNodes (js_filter (λ n, negb (js_some (λ m, n_id m === n_id n) ns)) (nodes s)) s).

(** Undo and redo set the nodes and edges of an earlier state. *)
Definition restore (t s : RFState) : RFState := setEdges (edges t) (setNodes (nodes t) s).

Section editing.
Context {L : Lodash} {X : XYFlow} {XL : XYFlowLaws X}.
Context (getNodeName : string → string) (initialFormValuesMap : string → val)
        (descriptionMessage userPromptDefaultValue : string) (humanId : nat → string)
        (iterationStartId loopStartId : string) (initialIterationStartValues : val).

Abbreviation add := (addCanvasNode getNodeName initialFormValuesMap descriptionMessage userPromptDefaultValue
  humanId iterationStartId loopStartId initialIterationStartValues).
Abbreviation agent_edge := is_agent_or_tool_edge.

(** No edge touches the identifier. *)
Definition untouched (i : string) (s : RFState) : Prop := ∀ e, e ∈ edges s → source e ≠ i ∧ target e ≠ i.

(** A handle an edge can be drawn from. *)
Definition drawable (h : handle) : Prop := h ≠ HId NodeHandleId.AgentBottom ∧ h ≠ HId NodeHandleId.Tool.

(** One operation on the store. An edge is drawn by hand, after
    [isValidConnection], or by the placeholder of a dragged connection, which
    does not ask it; a node is added under an identifier no edge has. What is
    pasted is duplicated node by node. *)
Inductive edit : RFState → RFState → Prop :=
  | edit_connect c s : drawable (c_sourceHandle c) → edit s (onConnect c s)
  | edit_add k type params scr s :
      untouched (new_id humanId k type) s → p_nodeId params ≠ Some (new_id humanId k type) →
      edit s (add k type params scr s).1
  | edit_duplicate k i nm s : edit s (duplicateNode humanId k i nm s).1
  | edit_delete_edge i s : edit s (deleteEdgeById i s)
  | edit_delete_edges s : edit s (deleteEdge s)
  | edit_delete_handle a h s : edit s (deleteEdgesBySourceAndSourceHandle a h s)
  | edit_delete_node fuel i s s' : deleteNodeById fuel i s = Some s' → edit s s'
  | edit_delete_iteration i s : edit s (deleteIterationNodeById i s)
  | edit_delete_tool fuel i s s' : deleteAgentToolNodeById fuel i s = Some s' → edit s s'
  | edit_keyboard fuel N E ns es s : handleBeforeDelete fuel N E s = Some (ns, es) → edit s (remove_elements ns es s)
  | edit_form i v p s : edit s (updateNodeForm i v p s)
  | edit_replace_form i v s : edit s (replaceNodeForm i v s)
  | edit_name i nm s : edit s (updateNodeName i nm s)
  | edit_select js s : edit s (selectNodeIds js s)
  | edit_selection ns es s : edit s (onSelectionChange ns es s).

(** A session: the store, and the states that were on the canvas before. *)
Inductive session : RFState * list RFState → RFState * list RFState → Prop :=
  | session_edit s s' past : edit s s' → session (s, past) (s', s :: past)
  | session_history s t past : t ∈ past → session (s, past) (restore t s, s :: past).

Definition session_ok (s : RFState) : Prop := eacyclic (edges s) agent_edge.

Lemma eacyclic_sub es es' p : (∀ e, e ∈ es' → p e = true → e ∈ es) → eacyclic es p → eacyclic es' p.
Proof.
  intros Hsub Hac a Ha. apply (Hac a). assert (∀ x y, tc (estep es' p) x y → tc (estep es p) x y) as H; [|auto].
  assert (∀ x y, estep es' p x y → estep es p x y) as Hs by (intros x y (e & ? & ? & ?); exists e; auto).
  intros x y Hxy. induction Hxy as [x y Hxy|x y z Hxy _ IH]; [by apply tc_once, Hs|by eapply tc_l, IH; apply Hs].
Qed.

Lemma session_sub s s' : (∀ e, e ∈ edges s' → e ∈ edges s) → session_ok s → session_ok s'.
Proof. intros Hsub. apply eacyclic_sub. auto. Qed.

(** An edge that can be drawn is no agent edge. *)
Lemma session_connect c s s' : drawable (c_sourceHandle c) → edges s' = xy_addEdge c (edges s) → session_ok s → session_ok s'.
Proof.
  intros [Hb Ht] Hes. unfold session_ok. rewrite Hes. apply eacyclic_sub. intros e He Hp.
  destruct (addEdge_cases c (edges s)) as [(d & Hd & (_ & _ & Hh & _) & _)|[Hd _]]; rewrite Hd in He; [|done].
  apply elem_of_app in He as [He| ->%list_elem_of_singleton]; [done|]. exfalso. unfold is_agent_or_tool_edge in Hp.
  destruct Hh as [Hh|[Hh _]].
  - rewrite Hh, !bool_decide_false in Hp by done. done.
  - apply orb_true_iff in Hp as [Hp|Hp]; reflect_bool; rewrite Hp in Hh; done.
Qed.

(** An edge to an identifier no edge has closes no cycle. *)
Lemma session_fresh c s s' :
  untouched (c_target c) s → c_source c ≠ c_target c → edges s' = xy_addEdge c (edges s) → session_ok s → session_ok s'.
Proof.
  intros Hu Hne Hes Hok. unfold session_ok. rewrite Hes.
  destruct (addEdge_cases c (edges s)) as [(e & -> & (Es & Et & _) & _)|[-> _]]; [|done].
  intros a Ha. apply tc_add_edge in Ha as [Ha|[H1 H2]]; [by eapply Hok|]. rewrite Es in H1. rewrite Et in H2.
  assert (rtc (estep (edges s) agent_edge) (c_target c) (c_source c)) as Hr by (by etrans).
  apply rtc_inv in Hr as [Heq|(m & (d & Hd & _ & Hs & _) & _)]; [by apply Hne|]. by destruct (Hu d Hd).
Qed.

Lemma deleteEdgeById_sub i s e : e ∈ edges (deleteEdgeById i s) → e ∈ edges s.
Proof. unfold deleteEdgeById. cbn [edges setEdges]. by intros [_ ?]%elem_of_js_filter. Qed.

Lemma deleteNodeById_sub fuel i s s' : deleteNodeById fuel i s = Some s' → ∀ e, e ∈ edges s' → e ∈ edges s.
Proof.
  intros Hdel e He. destruct (decide (getOperatorTypeFromId (Some i) s = Some Operator.Agent)) as [Hl|Hl].
  - unfold deleteNodeById in Hdel. rewrite bool_decide_true in Hdel by done.
    apply deleteAgentDownstream_spec in Hdel as [_ Hsub]. by apply Hsub in He as [? _].
  - rewrite deleteNodeById_plain in Hdel by done. injection Hdel as <-. by apply elem_of_js_filter in He as [_ ?].
Qed.

Lemma duplicateNode_edges k i nm s : edges (duplicateNode humanId k i nm s).1 = edges s.
Proof. unfold duplicateNode. case_match; done. Qed.

Lemma edit_ok s s' : edit s s' → session_ok s → session_ok s'.
Proof.
  intros Hedit Hok. destruct Hedit as [c s Hv|k type params scr s Hu Hi|k i nm s|i s|s|a h s
    |fuel i s s' Hdel|i s|fuel i s s' Hdel|fuel N E ns es s _|i v p s|i v s|i nm s|js s|ns es s].
  - eapply session_connect; [done|apply onConnect_edges|done].
  - pose proof (addCanvasNode_shape getNodeName initialFormValuesMap descriptionMessage userPromptDefaultValue
      humanId iterationStartId loopStartId initialIterationStartValues k type params scr s) as Hs.
    destruct (add k type params scr s) as [s' r]. cbn [fst] in *. unfold session_ok.
    destruct Hs as [(_ & _ & _ & ->)|(_ & _ & [->|(c & i & Hp & Hci & Hct & Hes)])]; [done..|].
    eapply session_fresh; [by rewrite Hct| |done|done]. rewrite Hct, Hci. congruence.
  - unfold session_ok. by rewrite duplicateNode_edges.
  - eapply session_sub; [apply deleteEdgeById_sub|done].
  - eapply session_sub; [|done]. by intros e [_ ?]%elem_of_js_filter.
  - eapply session_sub; [|done]. by intros e [_ ?]%elem_of_js_filter.
  - eapply session_sub; [by eapply deleteNodeById_sub|done].
  - eapply session_sub; [|done]. by intros e [_ ?]%elem_of_js_filter.
  - unfold deleteAgentToolNodeById in Hdel. destruct (js_find _ _) as [e|]; [|by simplify_eq].
    eapply session_sub; [|done]. intros d Hd. eapply deleteEdgeById_sub. by eapply deleteNodeById_sub.
  - eapply session_sub; [|done]. by intros e [_ ?]%elem_of_js_filter.
  - done.
  - unfold replaceNodeForm. by case_match.
  - unfold updateNodeName. by case_match.
  - done.
  - done.
Qed.

Lemma session_steps_ok w w' : rtc session w w' →
  session_ok w.1 → Forall session_ok w.2 → session_ok w'.1 ∧ Forall session_ok w'.2.
Proof.
  induction 1 as [|w w1 w2 Hs _ IH]; [done|]. intros Hok Hpast.
  destruct Hs as [s s' past He|s t past Ht]; apply IH; cbn in *; [by eapply edit_ok|by constructor| |by constructor].
  rewrite Forall_forall in Hpast. exact (Hpast t Ht).
Qed.

(** Removing selected elements by the keyboard ends: the search runs on the
    edges React Flow hands over. *)
Lemma handleBeforeDelete_terminates N E s : session_ok s → (∀ e, e ∈ E → e ∈ edges s) →
  is_Some (handleBeforeDelete (S (S (length E))) N E s).
Proof.
  intros Hok Hsub. unfold handleBeforeDelete.
  assert (eacyclic E agent_edge) as Hac by (eapply eacyclic_sub; [|exact Hok]; auto).
  generalize (js_filter (agentPredicate s) N) as l, (js_filter (deletable_node N) N, js_filter (deletable_edge s N) E) as a.
  induction l as [|n l IH]; intros a; [by eexists|]. simpl foldl. unfold delete_with_agent at 2. simpl.
  destruct (filterAll_terminates E agent_edge (S (S (length E))) [n_id n]) as [ids Hids]; [|lia|].
  { intros m a' ->%list_elem_of_singleton _. apply Hac. }
  unfold deleteAllDownstreamAgentsAndTool, filterAllDownstreamAgentAndToolNodeIds. rewrite Hids. apply IH.
Qed.

(** C15: However a canvas whose agents form no cycle was edited - by
    connecting, adding under new identifiers, duplicating and pasting, by
    deletions from the menus and by the keyboard, iterations and agents
    included, by forms, names and selections, and by undo and redo - the
    deletion of a node ends, within as many levels of recursion as there are
    edges, and two, and so does the deletion of any selection by the keyboard.
    *)
Theorem editing_deletion_terminates s0 w i N E :
  eacyclic (edges s0) agent_edge → rtc session (s0, []) w → (∀ e, e ∈ E → e ∈ edges w.1) →
  (∃ s', deleteNodeById (del_fuel w.1) i w.1 = Some s') ∧ ∃ r, handleBeforeDelete (S (S (length E))) N E w.1 = Some r.
Proof.
  intros H0 Hr HE. destruct (session_steps_ok _ _ Hr) as [Hok _]; [done|by constructor|].
  split; [|by apply handleBeforeDelete_terminates].
  destruct (decide (getOperatorTypeFromId (Some i) w.1 = Some Operator.Agent)) as [Hl|Hl].
  - unfold deleteNodeById. rewrite bool_decide_true by done. apply deleteAgentDownstream_terminates. intros a _. apply Hok.
  - rewrite deleteNodeById_plain by done. eauto.
Qed.
End editing.

Section example.
Import Canvas.
#[local] Abbreviation ses := (session (λ s, s) (λ _, VObj []) "" "" words "0" "1" (VObj [])).

(** Connect, add a retrieval, delete the agent with its sub-agent by the
    keyboard, and undo it: then the agent can still be deleted. *)
Definition retrieval_params : AddParams :=
  {| p_nodeId := Some "Message:a"; p_position := Right; p_id := Some NodeHandleId.Start;
     p_isFromConnectionDrag := false |}.

Definition session_1 : RFState := onConnect c_message canvas.
Definition session_2 : RFState :=
  (addCanvasNode (λ s, s) (λ _, VObj []) "" "" words "0" "1" (VObj []) 3 Operator.Retrieval retrieval_params None
     session_1).1.

Definition agent_edges : list Edge := js_filter (λ e, (source e === "Agent:a") || (target e === "Agent:a")) (edges session_2).
Definition taken : list Node * list Edge := Eval vm_compute in
  default ([], []) (handleBeforeDelete 9 [agent_node] agent_edges session_2).
Definition session_3 : RFState := remove_elements taken.1 taken.2 session_2.
Definition session_4 : RFState := restore session_2 session_3.

Lemma session_edits : rtc ses (canvas, []) (session_4, [session_3; session_2; session_1; canvas]).
Proof.
  eapply rtc_l; [apply session_edit, (edit_connect _ _ _ _ _ _ _ _ c_message); by split|].
  eapply rtc_l; [apply session_edit, (edit_add _ _ _ _ _ _ _ _ 3 Operator.Retrieval retrieval_params None); [|done]|].
  - refine (proj1 (Forall_forall _ _) _). apply (bool_decide_unpack _). vm_compute. exact I.
  - eapply rtc_l; [apply session_edit, (edit_keyboard _ _ _ _ _ _ _ _ 9 [agent_node] agent_edges taken.1 taken.2);
      vm_compute; reflexivity|].
    eapply rtc_l; [|apply rtc_refl]. apply session_history. by left.
Defined.

Lemma editing_deletion_terminates_witness :
  (∃ s', deleteNodeById (del_fuel session_4) "Agent:a" session_4 = Some s') ∧
  ∃ r, handleBeforeDelete (S (S (length (edges session_4)))) [agent_node] (edges session_4) session_4 = Some r.
Proof.
  apply (editing_deletion_terminates (λ s, s) (λ _, VObj []) "" "" words "0" "1" (VObj []) canvas
    (session_4, [session_3; session_2; session_1; canvas]) "Agent:a" [agent_node] (edges session_4)); [|apply session_edits|done].
  intros a. apply (acyclic_agent canvas a canvas_is_acyclic a). done.
Defined.

(** The keyboard searches below an agent along the edges React Flow hands
    over, which are those at the selected nodes: of an agent with a sub-agent
    that has a tool, the tool stays on the canvas when the agent is deleted by
    the keyboard, and goes when it is deleted from its menu. *)
Lemma keyboard_leaves_deeper :
  "Tool:c" ∈ node_ids session_3 ∧ ("Agent:b" ∉ node_ids session_3) ∧
  ∃ s', deleteNodeById (del_fuel session_2) "Agent:a" session_2 = Some s' ∧ "Tool:c" ∉ node_ids s'.
Proof.
  split; [apply (bool_decide_unpack _); vm_compute; exact I|].
  split; [apply (bool_decide_unpack _); vm_compute; exact I|].
  destruct (deleteNodeById (del_fuel session_2) "Agent:a" session_2) as [s'|] eqn:E; [|vm_compute in E; discriminate E].
  exists s'. split; [done|]. vm_compute in E. injection E as <-. apply (bool_decide_unpack _). vm_compute. exact I.
Qed.
End example.
