(* ===== verification/History.v ===== *)
(** * Undo and redo

    The [HistoryManager] of pages/agent/use-agent-history-manager.ts: an array
    of at most fifty snapshots and an index into it.  It refines a zipper
    (the states before, the current one, the states after). *)
From S2P Require Import Prelude JsValue.
Open Scope list_scope.
Open Scope nat_scope.
Open Scope js_scope.

(** A snapshot [{ nodes, edges }] of JSON data. *)
Record Snapshot := { h_nodes : val; h_edges : val }.

#[export] Instance Snapshot_eq_dec : EqDecision Snapshot.
Proof. solve_decision. Defined.

Definition snapshot_val (s : Snapshot) : val := VObj [("nodes", h_nodes s); ("edges", h_edges s)].

(** [JSON.parse(JSON.stringify(...))] of both parts. *)
Definition clone_snapshot (s : Snapshot) : Snapshot :=
  {| h_nodes := json_norm (h_nodes s); h_edges := json_norm (h_edges s) |}.

Record HistoryManager := {
  history : list Snapshot;
  currentIndex : Z;
  lastSavedState : option Snapshot
}.

Definition maxSize : nat := 50.

Definition new_manager : HistoryManager := {| history := []; currentIndex := -1; lastSavedState := None |}.

(** [this.history[this.currentIndex]] *)
Definition current (m : HistoryManager) : option Snapshot :=
  if (0 <=? currentIndex m)%Z then history m !! Z.to_nat (currentIndex m) else None.

(** [JSON.stringify] of [undefined] is [undefined], which equals no text. *)
Definition statesEqual (state1 : Snapshot) (state2 : option Snapshot) : bool :=
  match state2 with Some s => json_eqb (snapshot_val state1) (snapshot_val s) | None => false end.

Definition push (canvas : Snapshot) (m : HistoryManager) : HistoryManager :=
  let currentState := clone_snapshot canvas in
  if bool_decide (0 < length (history m)) && statesEqual currentState (current m) then m
  else
    let h1 :=
      if (currentIndex m <? Z.of_nat (length (history m)) - 1)%Z
      then take (Z.to_nat (currentIndex m + 1)) (history m)
      else history m in
    let h2 := h1 ++ [currentState] in
    let h3 := if bool_decide (maxSize < length h2) then drop 1 h2 else h2 in
    {| history := h3; currentIndex := Z.of_nat (length h3) - 1; lastSavedState := Some currentState |}.

Definition canUndo (m : HistoryManager) : bool := (0 <? currentIndex m)%Z.

Definition canRedo (m : HistoryManager) : bool := (currentIndex m <? Z.of_nat (length (history m)) - 1)%Z.

Definition move_index (i : Z) (m : HistoryManager) : HistoryManager :=
  {| history := history m; currentIndex := i; lastSavedState := lastSavedState m |}.

(** The canvas is what [setNodes] and [setEdges] are called with, if they
    are; [None] for a method that returns [false]. *)
Definition undo (m : HistoryManager) : HistoryManager * option Snapshot :=
  if canUndo m then
    let m' := move_index (currentIndex m - 1) m in (m', clone_snapshot <$> current m')
  else (m, None).

Definition redo (m : HistoryManager) : HistoryManager * option Snapshot :=
  if canRedo m then
    let m' := move_index (currentIndex m + 1) m in (m', clone_snapshot <$> current m')
  else (m, None).

Definition reset (m : HistoryManager) : HistoryManager := new_manager.

(** ** The zipper it implements *)
Record Zipper := { z_past : list Snapshot; z_cur : Snapshot; z_future : list Snapshot }.

Definition zip_push (s : Snapshot) (z : Zipper) : Zipper :=
  if s === z_cur z then z
  else {| z_past := take (maxSize - 1) (z_cur z :: z_past z); z_cur := s; z_future := [] |}.

Definition zip_undo (z : Zipper) : option Zipper :=
  match z_past z with
  | p :: ps => Some {| z_past := ps; z_cur := p; z_future := z_cur z :: z_future z |}
  | [] => None
  end.

Definition zip_redo (z : Zipper) : option Zipper :=
  match z_future z with
  | f :: fs => Some {| z_past := z_cur z :: z_past z; z_cur := f; z_future := fs |}
  | [] => None
  end.

Definition zip_list (z : Zipper) : list Snapshot := rev (z_past z) ++ z_cur z :: z_future z.

(** Snapshots in the history are JSON normal forms. *)
Definition normal (s : Snapshot) : Prop := clone_snapshot s = s.

Definition rep (m : HistoryManager) (z : Zipper) : Prop :=
  history m = zip_list z ∧ currentIndex m = Z.of_nat (length (z_past z)) ∧
  length (zip_list z) ≤ maxSize ∧ Forall normal (zip_list z).

(** ** JSON normal forms are stable *)
Lemma json_norm_undef v : json_norm v = VUndef ↔ v = VUndef.
Proof. destruct v as [| |b|[]|s|l|o]; simpl; split; congruence. Qed.

Lemma json_norm_idemp v : json_norm (json_norm v) = json_norm v.
Proof.
  induction v as [| |b|n|s|l IH|o IH] using val_ind'; try done.
  - by destruct n.
  - cbn [json_norm]. f_equal. rewrite map_map. induction IH as [|x l Hx _ IHl]; [done|]. cbn [map]. f_equal; [|done].
    destruct (decide (x = VUndef)) as [->|Hne]; [done|].
    assert (json_norm x ≠ VUndef) as Hn by (by rewrite json_norm_undef).
    assert (undef_to_null (json_norm x) = json_norm x) as -> by (by destruct (json_norm x)). rewrite Hx.
    by destruct (json_norm x).
  - cbn [json_norm]. f_equal. set (o1 := js_filter _ (map _ o)).
    assert (∀ kv, kv ∈ o1 → kv.2 ≠ VUndef ∧ json_norm kv.2 = kv.2) as Ho1.
    { intros kv [Hu (kv' & -> & Hin)%list_elem_of_fmap]%elem_of_js_filter. simpl in *.
      rewrite Forall_forall in IH. split; [by intros Heq; rewrite Heq in Hu|by apply (IH kv')]. }
    assert (map (λ kv, (kv.1, json_norm kv.2)) (obj_entries o1) = obj_entries o1) as ->.
    { rewrite <-(map_id (obj_entries o1)) at 2. apply map_ext_in. intros [k v] Hin%list_elem_of_In.
      rewrite obj_entries_Permutation in Hin. apply Ho1 in Hin as [_ ?]. simpl in *. congruence. }
    rewrite (js_filter_all _ (obj_entries o1)).
    + apply obj_entries_idemp.
    + intros kv Hin. rewrite obj_entries_Permutation in Hin. apply Ho1 in Hin as [? _]. by destruct (kv.2).
Qed.

Lemma clone_normal s : normal (clone_snapshot s).
Proof. unfold normal, clone_snapshot. simpl. by rewrite !json_norm_idemp. Qed.

Lemma statesEqual_normal s t : normal s → normal t → statesEqual s (Some t) = (s === t).
Proof.
  unfold normal, clone_snapshot. destruct s as [n1 e1], t as [n2 e2]. simpl. intros [= Hn1 He1] [= Hn2 He2].
  unfold json_eqb, snapshot_val. cbn [json_norm map fst snd h_nodes h_edges]. rewrite Hn1, He1, Hn2, He2.
  apply bool_decide_ext. split; [|congruence].
  set (o1 := js_filter _ _). set (o2 := js_filter _ [_; _]). intros [= Ho].
  assert (∀ a b, obj_entries (js_filter (λ kv, negb (is_undef kv.2)) [("nodes", a); ("edges", b)]) =
    js_filter (λ kv, negb (is_undef kv.2)) [("nodes", a); ("edges", b)]) as He.
  { intros a b. unfold js_filter. destruct a, b; reflexivity. }
  unfold o1, o2 in Ho. rewrite !He in Ho. clear He o1 o2. rewrite !js_filter_cons in Ho. simpl in Ho.
  destruct (is_undef n1) eqn:U1, (is_undef e1) eqn:U2, (is_undef n2) eqn:U3, (is_undef e2) eqn:U4; simpl in Ho; try discriminate;
    repeat match goal with H : is_undef ?v = true |- _ => destruct v; try discriminate H; clear H end; congruence.
Qed.

(** ** The refinement *)
Lemma rep_current m z : rep m z → current m = Some (z_cur z).
Proof.
  intros (Hh & Hi & _). unfold current. rewrite Hh, Hi.
  rewrite (proj2 (Z.leb_le _ _)) by lia. rewrite Nat2Z.id. unfold zip_list.
  rewrite lookup_app_r by (rewrite length_rev; lia). by rewrite length_rev, Nat.sub_diag.
Qed.

Lemma length_zip_list z : length (zip_list z) = length (z_past z) + S (length (z_future z)).
Proof. unfold zip_list. by rewrite length_app, length_rev. Qed.

Lemma rep_push m z c : rep m z → rep (push c m) (zip_push (clone_snapshot c) z).
Proof.
  intros Hrep. pose proof (rep_current _ _ Hrep) as Hcur. pose proof Hrep as (Hh & Hi & Hlen & Hn).
  unfold push, zip_push. rewrite Hcur.
  assert (normal (z_cur z)) as Hnz.
  { rewrite Forall_forall in Hn. apply Hn. unfold zip_list. rewrite elem_of_app. right. by left. }
  rewrite statesEqual_normal by (done || apply clone_normal).
  rewrite (bool_decide_true (0 < length (history m))) by (rewrite Hh, length_zip_list; lia). simpl.
  case_bool_decide as Heq; [done|].
  set (s := clone_snapshot c) in *.
  assert ((if (currentIndex m <? Z.of_nat (length (history m)) - 1)%Z
           then take (Z.to_nat (currentIndex m + 1)) (history m) else history m) = rev (z_cur z :: z_past z)) as ->.
  { rewrite Hh, Hi, length_zip_list. unfold zip_list. cbn [rev]. destruct (Z.ltb_spec (Z.of_nat (length (z_past z)))
      (Z.of_nat (length (z_past z) + S (length (z_future z))) - 1)) as [Hlt|Hge].
    - replace (Z.to_nat (Z.of_nat (length (z_past z)) + 1)) with (length (rev (z_past z)) + 1) by (rewrite length_rev; lia).
      by rewrite take_app_add.
    - by destruct (z_future z); [|simpl in Hge; lia]. }
  rewrite length_zip_list in Hlen. rewrite length_app, length_rev. cbn [length].
  assert (Forall normal (z_cur z :: z_past z)) as Hnp.
  { unfold zip_list in Hn. apply Forall_app in Hn as [Hn1 Hn2]. apply Forall_cons in Hn2 as [? _].
    constructor; [done|]. apply Forall_rev in Hn1. by rewrite rev_involutive in Hn1. }
  assert ((if bool_decide (maxSize < S (length (z_past z)) + 1)
           then drop 1 (rev (z_cur z :: z_past z) ++ [s]) else rev (z_cur z :: z_past z) ++ [s]) =
          rev (take (maxSize - 1) (z_cur z :: z_past z)) ++ [s]) as Hh3.
  { case_bool_decide as Hsz.
    - rewrite drop_app_le by (rewrite length_rev; simpl; lia). rewrite skipn_rev. do 3 f_equal. unfold maxSize in *. cbn [length]. lia.
    - rewrite take_ge by (unfold maxSize in *; cbn [length]; lia). done. }
  rewrite Hh3. clear Hh3. unfold rep. cbn [history currentIndex z_past z_cur z_future].
  split; [done|]. split; [rewrite length_app, length_rev; simpl length; lia|]. split.
  - rewrite length_zip_list. cbn [z_past z_future length]. rewrite length_take. unfold maxSize. lia.
  - unfold zip_list. cbn [z_past z_cur z_future]. apply Forall_app. split.
    + apply Forall_rev. exact (Forall_take normal (maxSize - 1) _ Hnp).
    + constructor; [apply clone_normal|constructor].
Qed.

Lemma rep_first c m : history m = [] → currentIndex m = (-1)%Z →
  rep (push c m) {| z_past := []; z_cur := clone_snapshot c; z_future := [] |}.
Proof.
  intros Hh Hi. unfold push. rewrite Hh, Hi. simpl. unfold rep. cbn. split; [done|]. split; [done|].
  split; [unfold maxSize; lia|]. constructor; [apply clone_normal|constructor].
Qed.

Lemma rep_move m z z' : rep m z → zip_list z' = zip_list z →
  rep (move_index (Z.of_nat (length (z_past z'))) m) z'.
Proof. intros (Hh & _ & Hl & Hn) Heq. unfold rep. rewrite Heq. cbn. done. Qed.

Lemma rep_clone m z : rep m z → clone_snapshot <$> current m = Some (z_cur z).
Proof.
  intros Hrep. rewrite (rep_current m z) by done. simpl. f_equal.
  destruct Hrep as (_ & _ & _ & Hn). rewrite Forall_forall in Hn. apply Hn.
  unfold zip_list. rewrite elem_of_app. right. by left.
Qed.

Lemma rep_undo m z : rep m z →
  match zip_undo z with
  | Some z' => rep (undo m).1 z' ∧ (undo m).2 = Some (z_cur z')
  | None => undo m = (m, None)
  end.
Proof.
  intros Hrep. pose proof Hrep as (Hh & Hi & _). unfold undo, canUndo, zip_undo. rewrite Hi.
  destruct (z_past z) as [|p ps] eqn:Hp; [done|].
  rewrite (proj2 (Z.ltb_lt _ _)) by (simpl; lia). cbn [fst snd].
  set (z' := {| z_past := ps; z_cur := p; z_future := _ |}).
  assert (rep (move_index (Z.of_nat (length (p :: ps)) - 1) m) z') as Hr.
  { replace (Z.of_nat (length (p :: ps)) - 1)%Z with (Z.of_nat (length (z_past z'))) by (simpl; lia).
    apply (rep_move m z z' Hrep). unfold zip_list. rewrite Hp. cbn. by rewrite <-app_assoc. }
  split; [done|]. by apply (rep_clone _ z').
Qed.

Lemma rep_redo m z : rep m z →
  match zip_redo z with
  | Some z' => rep (redo m).1 z' ∧ (redo m).2 = Some (z_cur z')
  | None => redo m = (m, None)
  end.
Proof.
  intros Hrep. pose proof Hrep as (Hh & Hi & _). unfold redo, canRedo, zip_redo. rewrite Hi, Hh, length_zip_list.
  destruct (z_future z) as [|f fs] eqn:Hf; [by rewrite (proj2 (Z.ltb_ge _ _)) by (simpl; lia)|].
  rewrite (proj2 (Z.ltb_lt _ _)) by (simpl; lia). cbn [fst snd].
  set (z' := {| z_past := z_cur z :: z_past z; z_cur := f; z_future := fs |}).
  assert (rep (move_index (Z.of_nat (length (z_past z)) + 1) m) z') as Hr.
  { replace (Z.of_nat (length (z_past z)) + 1)%Z with (Z.of_nat (length (z_past z'))) by (simpl; lia).
    apply (rep_move m z z' Hrep). unfold zip_list. rewrite Hf. cbn. by rewrite <-app_assoc. }
  split; [done|]. by apply (rep_clone _ z').
Qed.

(** ** Sessions of edits, undos and redos

    An edit changes the canvas and the effect pushes it; an undo or redo that
    changes the canvas makes the effect push the restored canvas. *)
Inductive command := Edit (c : Snapshot) | Undo | Redo.

Definition run_command (cmd : command) (st : HistoryManager * Snapshot) : HistoryManager * Snapshot :=
  let '(m, canvas) := st in
  match cmd with
  | Edit c => (push c m, c)
  | Undo => let '(m', r) := undo m in match r with Some c => (push c m', c) | None => (m', canvas) end
  | Redo => let '(m', r) := redo m in match r with Some c => (push c m', c) | None => (m', canvas) end
  end.

Definition zip_command (cmd : command) (z : Zipper) : Zipper :=
  match cmd with
  | Edit c => zip_push (clone_snapshot c) z
  | Undo => default z (zip_undo z)
  | Redo => default z (zip_redo z)
  end.

Definition run_commands (cmds : list command) (st : HistoryManager * Snapshot) : HistoryManager * Snapshot :=
  foldl (λ st cmd, run_command cmd st) st cmds.

Definition zip_commands (cmds : list command) (z : Zipper) : Zipper := foldl (λ z cmd, zip_command cmd z) z cmds.

(** The manager holds the zipper and the canvas shows its current state. *)
Definition shows (st : HistoryManager * Snapshot) (z : Zipper) : Prop :=
  rep st.1 z ∧ clone_snapshot st.2 = z_cur z.

(** The push that the restored canvas causes changes nothing. *)
Lemma rep_push_restored m z : rep m z → push (z_cur z) m = m.
Proof.
  intros Hrep. pose proof (rep_current _ _ Hrep) as Hcur. destruct Hrep as (Hh & _ & _ & Hn).
  assert (normal (z_cur z)) as Hnz.
  { rewrite Forall_forall in Hn. apply Hn. unfold zip_list. rewrite elem_of_app. right. by left. }
  unfold push. rewrite Hcur, Hnz, statesEqual_normal by done.
  rewrite (bool_decide_true (0 < length (history m))) by (rewrite Hh, length_zip_list; lia).
  by rewrite bool_decide_true.
Qed.

Lemma shows_command cmd st z : shows st z → shows (run_command cmd st) (zip_command cmd z).
Proof.
  intros [Hrep Hc]. destruct st as [m canvas]. destruct cmd as [c| |]; cbn [run_command zip_command fst snd] in *.
  - split; [by apply rep_push|]. unfold zip_push. case_bool_decide; done.
  - pose proof (rep_undo m z Hrep) as Hu. destruct (zip_undo z) as [z'|]; simpl.
    + destruct (undo m) as [m' r]. cbn in Hu. destruct Hu as [Hr ->]. rewrite (rep_push_restored m' z') by done.
      split; [done|]. apply (rep_clone m' z') in Hr as Hcl. rewrite (rep_current m' z') in Hcl by done. by injection Hcl.
    + by rewrite Hu.
  - pose proof (rep_redo m z Hrep) as Hu. destruct (zip_redo z) as [z'|]; simpl.
    + destruct (redo m) as [m' r]. cbn in Hu. destruct Hu as [Hr ->]. rewrite (rep_push_restored m' z') by done.
      split; [done|]. apply (rep_clone m' z') in Hr as Hcl. rewrite (rep_current m' z') in Hcl by done. by injection Hcl.
    + by rewrite Hu.
Qed.

(** C10: the history manager refines a zipper: after the first canvas, any
    sequence of edits, undos and redos, each followed by the push its change
    of the canvas causes, leaves the manager with the snapshots of the zipper
    (at most fifty) and the canvas showing the zipper's current state. *)
Theorem history_refines_zipper c cmds :
  shows (run_commands cmds (push c new_manager, c))
        (zip_commands cmds {| z_past := []; z_cur := clone_snapshot c; z_future := [] |}).
Proof.
  assert (∀ st z, shows st z → shows (run_commands cmds st) (zip_commands cmds z)) as H.
  { induction cmds as [|cmd cmds IH]; intros st z Hs; [done|]. by apply IH, shows_command. }
  apply H. split; [by apply rep_first|done].
Qed.

(** from any state of the manager, undoing an edit shows the canvas the
    edit changed and redoing it shows the edited canvas, in the normal form of
    JSON. *)
Theorem undo_redo_roundtrip m z canvas c :
  shows (m, canvas) z → clone_snapshot c ≠ clone_snapshot canvas →
  let st1 := run_command (Edit c) (m, canvas) in
  let st2 := run_command Undo st1 in
  let st3 := run_command Redo st2 in
  clone_snapshot st2.2 = clone_snapshot canvas ∧ clone_snapshot st3.2 = clone_snapshot c ∧
  history st3.1 = history st1.1 ∧ currentIndex st3.1 = currentIndex st1.1.
Proof.
  intros Hs Hne st1 st2 st3. pose proof Hs as [Hrep Hc]. cbn in Hc.
  assert (shows st1 (zip_push (clone_snapshot c) z)) as H1 by (apply (shows_command (Edit c)), Hs).
  pose proof (shows_command Undo _ _ H1) as H2. pose proof (shows_command Redo _ _ H2) as H3.
  fold st2 in H2, H3. fold st3 in H3.
  unfold zip_push in *. rewrite bool_decide_false in * by congruence.
  set (z1 := {| z_past := take (maxSize - 1) (z_cur z :: z_past z); z_cur := _; z_future := [] |}) in *.
  set (z2 := {| z_past := take (maxSize - 2) (z_past z); z_cur := z_cur z; z_future := [clone_snapshot c] |}).
  assert (zip_command Undo z1 = z2) as Hz2 by reflexivity. rewrite Hz2 in H2, H3.
  assert (zip_command Redo z2 = z1) as Hz1 by reflexivity. rewrite Hz1 in H3.
  destruct H1 as [(R1 & R2 & _) _], H2 as [_ H2], H3 as [(R3 & R4 & _) H3].
  split; [by rewrite H2|]. split; [by rewrite H3|]. split; congruence.
Qed.

(** ** The theorems at work *)
Definition snap (n : Z) : Snapshot :=
  {| h_nodes := VArr [VNum (num_of_Z n)]; h_edges := VArr [] |}.

Lemma undo_redo_roundtrip_witness :
  let st1 := run_command (Edit (snap 2)) (push (snap 1) new_manager, snap 1) in
  let st2 := run_command Undo st1 in
  let st3 := run_command Redo st2 in
  clone_snapshot st2.2 = clone_snapshot (snap 1) ∧ clone_snapshot st3.2 = clone_snapshot (snap 2) ∧
  history st3.1 = history st1.1 ∧ currentIndex st3.1 = currentIndex st1.1.
Proof.
  apply (undo_redo_roundtrip (push (snap 1) new_manager)
    {| z_past := []; z_cur := clone_snapshot (snap 1); z_future := [] |} (snap 1) (snap 2)).
  - split; [by apply rep_first|done].
  - discriminate.
Defined.
