(* ===== verification/Placeholder.v ===== *)
(** * The placeholder of a connection that is dragged

    pages/agent/hooks/use-placeholder-manager.ts and use-connection-drag.ts:
    a connection dropped on the empty canvas adds a placeholder node and opens
    the list of operators; picking one replaces the placeholder, anything else
    removes it.  The refs of the two hooks and the dropdown are the state
    beside the store.  [deleteElements] of the React Flow instance is an
    interface: its promise is asynchronous, and nothing reads the canvas
    between the call and the deletion but the steps modelled here in order. *)
From S2P Require Import Prelude JsValue Graph Libs Downstream NodeNames GraphStore StoreProps Connection AddNode.
From Stdlib Require Import QArith Qcanon.
Open Scope list_scope.
Open Scope nat_scope.
Open Scope js_scope.

(** ** The React Flow instance *)
Class Deleter := { deleteElements : list Node → list Edge → RFState → RFState }.

Definition is_placeholder (n : Node) : bool := label (n_data n) === Operator.Placeholder.

(** Deleting placeholders without children removes them, their edges and the
    edges asked for, and nothing else. *)
Class DeleterLaws (D : Deleter) : Prop := {
  deleteElements_nodes : ∀ ns es s,
    (∀ n m, n ∈ ns → m ∈ nodes s → n_id m = n_id n → is_placeholder m = true) →
    (∀ n m, n ∈ ns → m ∈ nodes s → n_parentId m ≠ Some (n_id n)) →
    nodes (deleteElements ns es s) = js_filter (λ m, negb (js_includes (map n_id ns) (n_id m))) (nodes s);
  deleteElements_edges : ∀ ns es s,
    (∀ n m, n ∈ ns → m ∈ nodes s → n_id m = n_id n → is_placeholder m = true) →
    (∀ n m, n ∈ ns → m ∈ nodes s → n_parentId m ≠ Some (n_id n)) →
    edges (deleteElements ns es s) =
      js_filter (λ e, negb (js_includes (map e_id es) (e_id e)) && negb (js_includes (map n_id ns) (source e)) &&
                      negb (js_includes (map n_id ns) (target e))) (edges s)
}.

#[export] Instance deleter_impl : Deleter := {
  deleteElements ns es s :=
    setEdges (js_filter (λ e, negb (js_includes (map e_id es) (e_id e)) && negb (js_includes (map n_id ns) (source e)) &&
                      negb (js_includes (map n_id ns) (target e))) (edges s))
      (setNodes (js_filter (λ m, negb (js_includes (map n_id ns) (n_id m))) (nodes s)) s)
}.

#[export] Instance deleter_impl_laws : DeleterLaws deleter_impl.
Proof. split; done. Qed.

(** ** The state of the hooks *)
Record holder := { createdPlaceholderRef : option string; userSelectedNodeRef : bool }.

Definition point : Type := Qc * Qc.

Record drag := {
  isConnectedRef : bool;
  connectionStartRef : option (string * string);
  preventCloseRef : bool;
  mouseStartPosRef : option point
}.

Record dropdown := { visible : bool; activeDropdown : option string; dropdownPosition : point }.

Record canvas_state := { rf : RFState; hold : holder; dragging : drag; menu : dropdown }.

Definition with_rf (s : RFState) (c : canvas_state) : canvas_state :=
  {| rf := s; hold := hold c; dragging := dragging c; menu := menu c |}.

Definition with_hold (h : holder) (c : canvas_state) : canvas_state :=
  {| rf := rf c; hold := h; dragging := dragging c; menu := menu c |}.

Definition with_drag (d : drag) (c : canvas_state) : canvas_state :=
  {| rf := rf c; hold := hold c; dragging := d; menu := menu c |}.

Definition with_menu (m : dropdown) (c : canvas_state) : canvas_state :=
  {| rf := rf c; hold := hold c; dragging := dragging c; menu := m |}.

Definition hide_menu (c : canvas_state) : canvas_state :=
  with_menu {| visible := false; activeDropdown := None; dropdownPosition := dropdownPosition (menu c) |} c.

Definition touches (id : string) (e : Edge) : bool := (target e === id) || (source e === id).

(** ** usePlaceholderManager *)
Section manager.
Context {L : Lodash} {X : XYFlow} {D : Deleter} (ready : bool).

Definition checkAndRemoveExistingPlaceholder (c : canvas_state) : canvas_state :=
  match js_find is_placeholder (nodes (rf c)) with
  | Some p =>
      if ready then
        let edgesToRemove := js_filter (touches (n_id p)) (edges (rf c)) in
        let h := hold c in
        with_hold
          {| createdPlaceholderRef := if createdPlaceholderRef h === Some (n_id p) then None else createdPlaceholderRef h;
             userSelectedNodeRef := userSelectedNodeRef h |}
          (with_rf (deleteElements [p] edgesToRemove (rf c)) c)
      else c
  | None => c
  end.

(** Remove the node [id] of the ref, with its edges, both looked up in [s0]. *)
Definition delete_ref (id : string) (s0 s : RFState) : RFState :=
  let edgesToRemove := js_filter (touches id) (edges s0) in
  let nodesToRemove := js_filter (λ n, n_id n === id) (nodes s0) in
  if bool_decide (0 < length nodesToRemove) || bool_decide (0 < length edgesToRemove)
  then deleteElements nodesToRemove edgesToRemove s else s.

Definition removePlaceholderNode (c : canvas_state) : canvas_state :=
  let c' :=
    match otruthy (createdPlaceholderRef (hold c)) with
    | Some id =>
        if ready && negb (userSelectedNodeRef (hold c)) then
          with_hold {| createdPlaceholderRef := None; userSelectedNodeRef := userSelectedNodeRef (hold c) |}
            (with_rf (delete_ref id (rf c) (rf c)) c)
        else c
    | None => c
    end in
  with_hold {| createdPlaceholderRef := createdPlaceholderRef (hold c'); userSelectedNodeRef := false |} c'.

(** [{ ...newNode, ...pick(placeholderNode, ['position', 'parentId', 'extent']) }] *)
Definition take_place (newNode placeholderNode : Node) : Node :=
  let or_else (a b : option string) := match a with Some _ => a | None => b end in
  node_with_position
    (node_with_parent newNode (or_else (n_parentId placeholderNode) (n_parentId newNode))
       (or_else (n_extent placeholderNode) (n_extent newNode)))
    (n_position placeholderNode).

Definition handle_or_null (h : handle) : handle := if handle_truthy h then h else HNull.

Definition onNodeCreated (newNodeId : string) (c : canvas_state) : canvas_state :=
  let s0 := rf c in
  let s' :=
    match otruthy (createdPlaceholderRef (hold c)) with
    | Some id =>
        if ready then
          let s1 :=
            match js_find (λ n, n_id n === id) (nodes s0), js_find (λ n, n_id n === newNodeId) (nodes s0) with
            | Some placeholderNode, Some newNode => updateNode (take_place newNode placeholderNode) s0
            | _, _ => s0
            end in
          let s2 :=
            match js_find (λ e, target e === id) (edges s0) with
            | Some placeholderEdge =>
                GraphStore.addEdge
                  {| c_source := source placeholderEdge; c_target := newNodeId;
                     c_sourceHandle := handle_or_null (sourceHandle placeholderEdge);
                     c_targetHandle := handle_or_null (targetHandle placeholderEdge) |} s1
            | None => s1
            end in
          delete_ref id s0 s2
        else s0
    | None => s0
    end in
  with_hold {| createdPlaceholderRef := None; userSelectedNodeRef := true |} (with_rf s' c).

Definition setCreatedPlaceholderRef (nodeId : option string) (c : canvas_state) : canvas_state :=
  with_hold {| createdPlaceholderRef := nodeId; userSelectedNodeRef := userSelectedNodeRef (hold c) |} c.

Definition resetUserSelectedFlag (c : canvas_state) : canvas_state :=
  with_hold {| createdPlaceholderRef := createdPlaceholderRef (hold c); userSelectedNodeRef := false |} c.
End manager.

(** ** useConnectionDrag *)
Section connection_drag.
Context {L : Lodash} {X : XYFlow} {D : Deleter} (ready : bool).
Context (getNodeName : string → string) (initialFormValuesMap : string → val)
        (descriptionMessage userPromptDefaultValue : string) (humanId : nat → string)
        (iterationStartId loopStartId : string) (initialIterationStartValues : val).
Context (screenToFlowPosition : point → option XYPosition) (calculateDropdownPosition : point → point).

Abbreviation add := (addCanvasNode getNodeName initialFormValuesMap descriptionMessage userPromptDefaultValue
  humanId iterationStartId loopStartId initialIterationStartValues).

(** A touch event has no [clientX]: [None]. *)
Definition onConnectStart (event : option point) (params : option (string * string)) (c : canvas_state) : canvas_state :=
  with_drag
    {| isConnectedRef := false;
       connectionStartRef :=
         match params with
         | Some (nodeId, handleId) => if (nodeId !== "") && (handleId !== "") then params else None
         | None => None
         end;
       preventCloseRef := preventCloseRef (dragging c);
       mouseStartPosRef := match event with Some p => Some p | None => mouseStartPosRef (dragging c) end |} c.

(** [Math.sqrt(dx ** 2 + dy ** 2) < 5] *)
Definition is_click (a b : point) : bool :=
  bool_decide (((a.1 - b.1) * (a.1 - b.1) + (a.2 - b.2) * (a.2 - b.2))%Qc < Qc_of_Z 25)%Qc.

Definition drag_context (start : string * string) : AddParams :=
  {| p_nodeId := Some start.1; p_position := Right; p_id := Some start.2; p_isFromConnectionDrag := true |}.

Definition end_drag (c : canvas_state) : canvas_state :=
  with_drag {| isConnectedRef := isConnectedRef (dragging c); connectionStartRef := None;
               preventCloseRef := preventCloseRef (dragging c); mouseStartPosRef := None |} c.

Definition at_position (p : point) (c : canvas_state) : canvas_state :=
  with_menu {| visible := visible (menu c); activeDropdown := activeDropdown (menu c); dropdownPosition := p |} c.

Definition open_menu (p : point) (c : canvas_state) : canvas_state :=
  with_drag {| isConnectedRef := isConnectedRef (dragging c); connectionStartRef := connectionStartRef (dragging c);
               preventCloseRef := true; mouseStartPosRef := mouseStartPosRef (dragging c) |}
    (with_menu {| visible := true; activeDropdown := Some "drag"; dropdownPosition := calculateDropdownPosition p |} c).

Definition onConnectEnd (k : nat) (event : option point) (c : canvas_state) : canvas_state :=
  match event with
  | None => c
  | Some p =>
      let c := at_position p c in
      match isConnectedRef (dragging c), connectionStartRef (dragging c) with
      | false, Some start =>
          let isHandleClick := match mouseStartPosRef (dragging c) with Some q => is_click p q | None => false end in
          if isHandleClick then end_drag (hide_menu (removePlaceholderNode ready c))
          else
            let c := checkAndRemoveExistingPlaceholder ready c in
            let '(s, newNodeId) := add k Operator.Placeholder (drag_context start) (screenToFlowPosition p) (rf c) in
            let c := with_rf s c in
            let c := match otruthy newNodeId with Some i => setCreatedPlaceholderRef (Some i) c | None => c end in
            let c := match otruthy newNodeId with Some _ => if ready then open_menu p c else c | None => c end in
            end_drag c
      | _, _ => c
      end
  end.

Definition handleConnect (connection : Connection) (c : canvas_state) : canvas_state :=
  with_drag {| isConnectedRef := true; connectionStartRef := connectionStartRef (dragging c);
               preventCloseRef := preventCloseRef (dragging c); mouseStartPosRef := mouseStartPosRef (dragging c) |}
    (with_rf (onConnect connection (rf c)) c).

Definition getConnectionStartContext (c : canvas_state) : option AddParams := drag_context <$> connectionStartRef (dragging c).

Definition shouldPreventClose (c : canvas_state) : bool := preventCloseRef (dragging c).

(** The timer of [PREVENT_CLOSE_DELAY]. *)
Definition prevent_close_expires (c : canvas_state) : canvas_state :=
  with_drag {| isConnectedRef := isConnectedRef (dragging c); connectionStartRef := connectionStartRef (dragging c);
               preventCloseRef := false; mouseStartPosRef := mouseStartPosRef (dragging c) |} c.

Definition onMove (c : canvas_state) : canvas_state := hide_menu (removePlaceholderNode ready c).

Definition onPaneClick (c : canvas_state) : canvas_state :=
  if visible (menu c) && negb (shouldPreventClose c) then hide_menu (removePlaceholderNode ready c) else c.

(** Picking an operator from the open list: the click handler of
    operator-item-list.tsx with the context of canvas/index.tsx. *)
Definition default_context : AddParams :=
  {| p_nodeId := Some ""; p_position := Right; p_id := Some ""; p_isFromConnectionDrag := true |}.

Definition pick_operator (k : nat) (operator : string) (c : canvas_state) : canvas_state :=
  let context := default default_context (getConnectionStartContext c) in
  let '(s, newNodeId) := add k operator context (screenToFlowPosition (dropdownPosition (menu c))) (rf c) in
  let c := with_rf s c in
  let c := match otruthy newNodeId with Some i => onNodeCreated ready i c | None => c end in
  hide_menu (removePlaceholderNode ready c).
End connection_drag.

(** ** The kind of a node: its identifier, operator and parent *)
Definition kind (n : Node) : string * (string * option string) := (n_id n, (label (n_data n), n_parentId n)).

Definition kinds (s : RFState) : list (string * (string * option string)) := map kind (nodes s).

Section placeholder_props.
Context {L : Lodash} {X : XYFlow} {XL : XYFlowLaws X} {D : Deleter} {DL : DeleterLaws D}.
Context (getNodeName : string → string) (initialFormValuesMap : string → val)
        (descriptionMessage userPromptDefaultValue : string) (humanId : nat → string)
        (iterationStartId loopStartId : string) (initialIterationStartValues : val).
Context (screenToFlowPosition : point → option XYPosition) (calculateDropdownPosition : point → point).

Abbreviation add := (addCanvasNode getNodeName initialFormValuesMap descriptionMessage userPromptDefaultValue
  humanId iterationStartId loopStartId initialIterationStartValues).
Abbreviation new_node := (new_canvas_node getNodeName initialFormValuesMap descriptionMessage
  userPromptDefaultValue humanId).

Lemma kinds_ids s : (kinds s).*1 = node_ids s.
Proof. unfold kinds, node_ids. change (map ?f ?l) with (f <$> l). by rewrite <-list_fmap_compose. Qed.

Lemma elem_of_kinds i l p s : (i, (l, p)) ∈ kinds s ↔ ∃ n, n ∈ nodes s ∧ n_id n = i ∧ label (n_data n) = l ∧ n_parentId n = p.
Proof.
  unfold kinds. rewrite elem_of_map. split.
  - intros (n & [= -> -> ->] & Hn). by exists n.
  - intros (n & Hn & <- & <- & <-). by exists n.
Qed.

Lemma kinds_updateNodeForm i v p s : kinds (updateNodeForm i v p s) = kinds s.
Proof. unfold kinds, updateNodeForm. cbn [nodes setNodes]. rewrite map_map. apply map_ext. intros n. by case_bool_decide. Qed.

Lemma kinds_onConnect c s : kinds (onConnect c s) = kinds s.
Proof.
  unfold onConnect, updateFormDataOnConnect, updateSwitchFormData. repeat case_match; rewrite ?kinds_updateNodeForm; done.
Qed.

Lemma kinds_addNode n s : kinds (GraphStore.addNode n s) = kinds s ++ [kind n].
Proof. unfold kinds, GraphStore.addNode. cbn [nodes setNodes]. by rewrite map_app. Qed.

(** With unique identifiers [updateNode] replaces the kind of one node. *)
Lemma kinds_updateNode n m s : NoDup (node_ids s) → n ∈ nodes s → n_id m = n_id n →
  kinds (updateNode m s) = map (λ k, if k.1 === n_id n then kind m else k) (kinds s) ∧
  (kind m = kind n → kinds (updateNode m s) = kinds s).
Proof.
  intros Hnd Hn Hid. unfold kinds, updateNode. cbn [nodes setNodes]. rewrite !map_map. split.
  - apply map_ext. intros x. rewrite Hid. cbn [kind fst]. by case_bool_decide.
  - intros Hk. apply map_ext_in. intros x Hx%list_elem_of_In. rewrite Hid. case_bool_decide as E; [|done].
    assert (x = n) as ->; [|done].
    apply list_elem_of_lookup in Hx as [i Hi], Hn as [j Hj]. unfold node_ids in Hnd.
    assert (i = j) as ->; [|congruence]. eapply (NoDup_lookup _ _ _ (n_id n) Hnd);
      change (map n_id (nodes s)) with (n_id <$> nodes s); rewrite list_lookup_fmap; [rewrite Hi|rewrite Hj]; simpl; congruence.
Qed.

Lemma kinds_resize type p q s : NoDup (node_ids s) → kinds (resizeIterationNode type p q s) = kinds s.
Proof.
  intros Hnd. unfold resizeIterationNode. destruct (getNode q s) as [n|] eqn:Hn; [|done]. repeat case_match; try done.
  assert (n ∈ nodes s) as Hns by by apply js_find_Some in Hn as [? _].
  apply (kinds_updateNode n); done.
Qed.

Lemma join_group_kinds type params n s : NoDup (node_ids s) →
  let '(n', s') := join_group type params n s in
  n_id n' = n_id n ∧ label (n_data n') = label (n_data n) ∧ kinds s' = kinds s ∧
  (n_parentId n' = n_parentId n ∨ ∃ m, m ∈ nodes s ∧ n_parentId m = n_parentId n').
Proof.
  intros Hnd. unfold join_group. destruct (otruthy _) as [q|] eqn:E.
  - assert (∃ m, m ∈ nodes s ∧ n_parentId m = Some q) as (m & Hm & Hq).
    { destruct (getNode (p_nodeId params) s) as [m|] eqn:Hm; [|done]. apply js_find_Some in Hm as [Hm _].
      exists m. split; [done|]. cbn in E. destruct (n_parentId m) as [[|a t]|]; simpl in E; congruence. }
    split; [done|]. split; [done|]. split; [|right; by exists m].
    destruct (getNode (Some q) s); [|done]. case_match; [|done]. by apply kinds_resize.
  - split; [done|]. split; [done|]. split; [done|]. by left.
Qed.

(** The kinds of the result: the new node's is added, with the start node of
    a group, and the tool node of an agent that has one is not. *)
Lemma addCanvasNode_kinds k type params scr s : NoDup (node_ids s) →
  let '(s', r) := add k type params scr s in
  (r = None ∧ type = Operator.Tool ∧ kinds s' = kinds s) ∨
  (r = Some (new_id humanId k type) ∧ ∃ par more,
    kinds s' = kinds s ++ (new_id humanId k type, (type, par)) :: more ∧
    (par = None ∨ ∃ m, m ∈ nodes s ∧ n_parentId m = par) ∧
    (more = [] ∨ ∃ i l, more = [(i, (l, Some (new_id humanId k type)))] ∧
       l ≠ Operator.Placeholder ∧ type ∈ [Operator.Iteration; Operator.Loop])).
Proof.
  intros Hnd. unfold addCanvasNode.
  pose proof (join_group_kinds type params (new_node k type params scr s) s Hnd) as Hj.
  destruct (join_group _ _ _ _) as [n s1]. destruct Hj as (Hid & Hlbl & Hk & Hpar).
  change (n_id (new_node k type params scr s)) with (new_id humanId k type) in Hid.
  change (label (n_data (new_node k type params scr s))) with type in Hlbl.
  change (n_parentId (new_node k type params scr s)) with (@None string) in Hpar.
  assert (∀ m, n_id m = n_id n → label (n_data m) = label (n_data n) → n_parentId m = n_parentId n →
    kinds (GraphStore.addNode m s1) = kinds s ++ [(new_id humanId k type, (type, n_parentId n))]) as Hadd.
  { intros m H1 H2 H3. rewrite kinds_addNode, Hk. unfold kind. by rewrite H1, H2, H3, Hid, Hlbl. }
  assert (∀ c s2, kinds (GraphStore.addEdge c s2) = kinds s2) as Hc by (intros c s2; apply kinds_onConnect).
  destruct (js_includes [Operator.Iteration; Operator.Loop] type) eqn:Eg.
  { right. unfold addGroupNode. cbn [n_id node_with_size]. split; [by rewrite Hid|].
    set (g := node_with_parent _ _ _). exists (n_parentId n), [kind g]. split; [|split; [done|right]].
    - assert (kinds (GraphStore.addNode g (GraphStore.addNode
          (node_with_size n (Some (num_of_Z 500)) (Some (num_of_Z 250))) s1)) =
        kinds s ++ [(new_id humanId k type, (type, n_parentId n)); kind g]) as Hg
        by (rewrite kinds_addNode, Hadd by done; by rewrite <-app_assoc).
      destruct (otruthy (p_nodeId params)); [by rewrite Hc|done].
    - exists (n_id g), (label (n_data g)). split; [unfold kind, g; cbn; by rewrite Hid|].
      split; [|by apply js_includes_true]. unfold g, GroupStartNodeMap. by destruct (type === Operator.Iteration). }
  destruct ((type === Operator.Agent) && (p_position params === Bottom)).
  { right. set (m := match getNode (p_nodeId params) s1 with Some _ => _ | None => _ end).
    assert (kind m = kind n) as [= Hm1 Hm2 Hm3] by (unfold m; by case_match). split; [by rewrite Hm1, Hid|].
    exists (n_parentId n), []. split; [|by split; [|left]].
    destruct (otruthy (p_nodeId params)); rewrite ?Hc; by apply Hadd. }
  destruct (bool_decide_reflect (type = Operator.Tool)) as [Htool|_].
  { unfold addToolNode. destruct (getNode (p_nodeId params) s1) as [a|]; [|by left].
    match goal with |- context [if ?b then None else _] => destruct b end; [by left|]. right. split; [by rewrite Hid|].
    exists (n_parentId n), []. split; [|by split; [|left]].
    destruct (otruthy (p_nodeId params)); rewrite ?Hc; by apply Hadd. }
  right. split; [by rewrite Hid|]. exists (n_parentId n), []. split; [|by split; [|left]].
  unfold addChildEdge. repeat case_match; rewrite ?Hc; by apply Hadd.
Qed.

(** ** At most one placeholder *)
Abbreviation P := Operator.Placeholder.

(** Identifiers are unique; the ref is the one placeholder; no node has it as
    its parent. *)
Record ok (ks : list (string * (string * option string))) (ref : option string) : Prop := {
  ok_ids : NoDup ks.*1;
  ok_ref : ∀ i p, (i, (P, p)) ∈ ks → ref = Some i;
  ok_node : ∀ i, ref = Some i → i ≠ "" ∧ ∃ p, (i, (P, p)) ∈ ks;
  ok_child : ∀ i p j l, (i, (P, p)) ∈ ks → (j, (l, Some i)) ∉ ks
}.

Definition state_ok (c : canvas_state) : Prop := ok (kinds (rf c)) (createdPlaceholderRef (hold c)).

Lemma ok_remove ks i : ok ks (Some i) → ok (js_filter (λ k, k.1 !== i) ks) None.
Proof.
  intros [H1 H2 H3 H4]. split; [| | |].
  - unfold js_filter. eapply sublist_NoDup; [exact H1|apply fmap_sublist, sublist_filter].
  - intros j p [Hne Hj]%elem_of_js_filter. apply H2 in Hj as [= ->]. cbn in Hne. by rewrite bool_decide_true in Hne.
  - done.
  - intros j p j' l [_ Hj]%elem_of_js_filter [_ Hj']%elem_of_js_filter. by eapply H4.
Qed.

Lemma ok_add ks ref new : ok ks ref → NoDup (ks ++ new).*1 →
  (∀ k, k ∈ new → k.2.1 ≠ P ∧ (k.2.2 = None ∨ (∃ j l, (j, (l, k.2.2)) ∈ ks) ∨ ∃ l p, k.2.2 = Some l ∧ (l, p) ∈ new)) →
  ok (ks ++ new) ref.
Proof.
  intros [H1 H2 H3 H4] Hnd Hnew. split; [done| | |].
  - intros i p [Hi|Hi]%elem_of_app; [by eapply H2|]. by destruct (Hnew _ Hi).
  - intros i Hi. destruct (H3 i Hi) as [? [p Hp]]. split; [done|]. exists p. apply elem_of_app. by left.
  - intros i p j l [Hi|Hi]%elem_of_app; [|by destruct (Hnew _ Hi)]. intros [Hj|Hj]%elem_of_app; [by eapply H4|].
    destruct (Hnew _ Hj) as [_ [Hn|[(j' & l' & Hj')|(l' & p' & [= <-] & Hl)]]]; [done|by eapply H4|].
    rewrite fmap_app in Hnd. apply NoDup_app in Hnd as (_ & Hd & _). apply (Hd i).
    + change i with (i, (P, p)).1. apply list_elem_of_fmap_2. done.
    + change i with (i, p').1. apply list_elem_of_fmap_2. done.
Qed.

Lemma ok_add_placeholder ks i par : ok ks None → (i ∉ ks.*1) → i ≠ "" → (∀ j l, (j, (l, Some i)) ∉ ks) →
  (par = None ∨ ∃ j l, (j, (l, par)) ∈ ks) → ok (ks ++ [(i, (P, par))]) (Some i).
Proof.
  intros [H1 H2 H3 H4] Hi Hne Hch Hpar. split; [| | |].
  - rewrite fmap_app. apply NoDup_app. split; [done|]. split; [set_solver|apply NoDup_singleton].
  - intros j p [Hj|Hj]%elem_of_app; [by apply H2 in Hj|]. apply list_elem_of_singleton in Hj. by injection Hj as -> ->.
  - intros j [= <-]. split; [done|]. exists par. set_solver.
  - intros j p j' l [Hj|Hj]%elem_of_app; [by apply H2 in Hj|]. apply list_elem_of_singleton in Hj. injection Hj as -> ->.
    intros [Hj'|Hj']%elem_of_app; [by eapply Hch|]. apply list_elem_of_singleton in Hj'. injection Hj' as -> -> <-.
    destruct Hpar as [?|(j & l' & Hj)]; [done|]. by eapply Hch.
Qed.

Lemma ok_reparent ks ref i l par0 par : ok ks ref → (i, (l, par0)) ∈ ks → l ≠ P →
  (par = None ∨ ∃ j l', (j, (l', par)) ∈ ks) →
  ok (map (λ k, if k.1 === i then (i, (l, par)) else k) ks) ref.
Proof.
  intros [H1 H2 H3 H4] Hi Hl Hpar. set (f := λ k, _).
  assert (∀ k, (f k).1 = k.1) as Hf by (intros k; unfold f; by case_bool_decide).
  assert (∀ j p, (j, (P, p)) ∈ map f ks → (j, (P, p)) ∈ ks) as Hpl.
  { intros j p ([j' [l' p']] & Hk & Hin)%elem_of_map. unfold f in Hk. case_bool_decide; congruence. }
  split; [| | |].
  - assert ((map f ks).*1 = ks.*1) as ->; [|done]. change (map f ks) with (f <$> ks). rewrite <-list_fmap_compose.
    apply list_fmap_ext. intros ? k _. apply Hf.
  - intros j p Hj. by eapply H2, Hpl.
  - intros j Hj. destruct (H3 j Hj) as [? [p Hp]]. split; [done|]. exists p. apply elem_of_map. exists (j, (P, p)).
    split; [|done]. unfold f. cbn [fst]. rewrite bool_decide_false; [done|]. intros ->.
    assert ((l, par0) = (P, p)) as [= -> _]; [|done].
    apply list_elem_of_lookup in Hi as [a Ha], Hp as [b Hb].
    assert (a = b) as ->; [|congruence]. eapply (NoDup_lookup _ _ _ i H1); by rewrite list_lookup_fmap, ?Ha, ?Hb.
  - intros j p j' l' Hj%Hpl ([j'' [l'' p'']] & Hk & Hin)%elem_of_map. unfold f in Hk. case_bool_decide.
    + injection Hk as _ _ Epar. subst par. destruct Hpar as [?|(j3 & l3 & H')]; [done|]. by eapply H4.
    + injection Hk as E1 E2 E3. subst. by eapply H4.
Qed.

Lemma filter_by_id {A} (f : Node → string * A) i ns : (∀ n, (f n).1 = n_id n) →
  map f (js_filter (λ m, n_id m !== i) ns) = js_filter (λ k, k.1 !== i) (map f ns).
Proof.
  intros Hf. induction ns as [|m l IH]; [done|]. cbn [map]. rewrite !js_filter_cons, Hf.
  destruct (n_id m === i); cbn [negb map]; by rewrite IH.
Qed.

(** What [deleteElements] leaves when the ref is deleted. *)
Lemma delete_ref_nodes i s0 s : (∃ n, n ∈ nodes s0 ∧ n_id n = i) →
  (∀ m, m ∈ nodes s → n_id m = i → is_placeholder m = true) → (∀ m, m ∈ nodes s → n_parentId m ≠ Some i) →
  nodes (delete_ref i s0 s) = js_filter (λ m, n_id m !== i) (nodes s) ∧
  edges (delete_ref i s0 s) = js_filter (λ e, negb (js_includes (map e_id (js_filter (touches i) (edges s0))) (e_id e)) &&
    negb (touches i e)) (edges s).
Proof.
  intros (n & Hn & Hid) Hp Hc. unfold delete_ref. set (ns := js_filter _ (nodes s0)).
  assert (∀ x, x ∈ ns → n_id x = i) as Hns by (intros x [Hx _]%elem_of_js_filter; by apply bool_decide_eq_true in Hx).
  assert (n ∈ ns) as Hin by (apply elem_of_js_filter; split; [by apply bool_decide_eq_true|done]).
  assert (∀ j, js_includes (map n_id ns) j = (j === i)) as Hinc.
  { intros j. apply eq_true_iff_eq. rewrite js_includes_true, bool_decide_eq_true. rewrite elem_of_map. split.
    - intros (x & -> & Hx). by apply Hns.
    - intros ->. by exists n. }
  rewrite bool_decide_true by (destruct ns; [by apply not_elem_of_nil in Hin|simpl; lia]). cbn [orb].
  assert (∀ x m, x ∈ ns → m ∈ nodes s → n_id m = n_id x → is_placeholder m = true) as G1
    by (intros x m Hx Hm Hmx; apply Hp; [done|]; by rewrite Hmx, Hns).
  assert (∀ x m, x ∈ ns → m ∈ nodes s → n_parentId m ≠ Some (n_id x)) as G2
    by (intros x m Hx Hm; rewrite Hns by done; by apply Hc).
  split.
  - rewrite deleteElements_nodes by done. apply js_filter_ext. intros m _. by rewrite Hinc.
  - rewrite deleteElements_edges by done. apply js_filter_ext. intros e _. rewrite !Hinc. unfold touches.
    by rewrite <-andb_assoc, (orb_comm (target e === i)), negb_orb.
Qed.

Lemma delete_ref_kinds i s0 s : (∃ n, n ∈ nodes s0 ∧ n_id n = i) →
  (∀ m, m ∈ nodes s → n_id m = i → is_placeholder m = true) → (∀ m, m ∈ nodes s → n_parentId m ≠ Some i) →
  kinds (delete_ref i s0 s) = js_filter (λ k, k.1 !== i) (kinds s).
Proof. intros H1 H2 H3. unfold kinds. rewrite (proj1 (delete_ref_nodes i s0 s H1 H2 H3)). by apply filter_by_id. Qed.

Lemma ok_placeholder s ref i : ok (kinds s) ref → ref = Some i →
  (∃ n, n ∈ nodes s ∧ n_id n = i) ∧ (∀ m, m ∈ nodes s → n_id m = i → is_placeholder m = true) ∧
  (∀ m, m ∈ nodes s → n_parentId m ≠ Some i).
Proof.
  intros Hok ->. destruct (ok_node _ _ Hok i eq_refl) as [_ [p Hp]].
  pose proof Hp as (n & Hn & Hid & Hl & Hpar)%elem_of_kinds. split; [by exists n|]. split.
  - intros m Hm Hmi. assert (kind m ∈ kinds s) as Hk by (apply elem_of_map; by exists m).
    apply list_elem_of_lookup in Hk as [a Ha], Hp as [b Hb].
    assert (a = b) as ->.
    { eapply (NoDup_lookup _ _ _ i (ok_ids _ _ Hok)); rewrite list_lookup_fmap; [rewrite Ha|by rewrite Hb]. simpl. by rewrite Hmi. }
    rewrite Ha in Hb. injection Hb as _ Hb _. unfold is_placeholder. by apply bool_decide_eq_true.
  - intros m Hm Hmp. eapply (ok_child _ _ Hok); [exact Hp|]. apply elem_of_kinds. by exists m.
Qed.

Lemma removePlaceholderNode_ok c : state_ok c → state_ok (removePlaceholderNode true c).
Proof.
  unfold state_ok. intros Hok. unfold removePlaceholderNode.
  destruct (otruthy (createdPlaceholderRef (hold c))) as [i|] eqn:Ei; [|exact Hok].
  destruct (userSelectedNodeRef (hold c)); [exact Hok|]. cbn [andb negb].
  assert (createdPlaceholderRef (hold c) = Some i) as Href
    by (destruct (createdPlaceholderRef (hold c)) as [[|a t]|]; simpl in Ei; congruence).
  destruct (ok_placeholder _ _ i Hok Href) as (He & Hp & Hc).
  cbn [rf hold with_hold with_rf createdPlaceholderRef]. rewrite (delete_ref_kinds i _ _ He Hp Hc).
  apply ok_remove. by rewrite <-Href.
Qed.

Lemma checkAndRemove_ok c : state_ok c →
  let c' := checkAndRemoveExistingPlaceholder true c in
  ok (kinds (rf c')) None ∧ createdPlaceholderRef (hold c') = None ∧ dragging c' = dragging c ∧ menu c' = menu c ∧
  kinds (rf c') ⊆ kinds (rf c).
Proof.
  unfold state_ok, checkAndRemoveExistingPlaceholder. intros Hok.
  destruct (js_find is_placeholder (nodes (rf c))) as [p|] eqn:E.
  - apply js_find_Some in E as [Hp Hpl]. unfold is_placeholder in Hpl. apply bool_decide_eq_true in Hpl.
    assert ((n_id p, (P, n_parentId p)) ∈ kinds (rf c)) as Hk by (apply elem_of_kinds; by exists p).
    pose proof (ok_ref _ _ Hok _ _ Hk) as Href. destruct (ok_placeholder _ _ _ Hok Href) as (_ & H1 & H2).
    cbn [rf hold with_hold with_rf createdPlaceholderRef dragging menu]. rewrite Href, bool_decide_true by done.
    assert (kinds (deleteElements [p] (js_filter (touches (n_id p)) (edges (rf c))) (rf c)) =
      js_filter (λ k, k.1 !== n_id p) (kinds (rf c))) as Hks.
    { unfold kinds. rewrite deleteElements_nodes;
        [|intros n m ->%list_elem_of_singleton; by apply H1|intros n m ->%list_elem_of_singleton; by apply H2].
      rewrite (js_filter_ext _ (λ m, n_id m !== n_id p)).
      + by apply filter_by_id.
      + intros m _. f_equal. apply eq_true_iff_eq. rewrite js_includes_true, bool_decide_eq_true. set_solver. }
    rewrite Hks. split; [by apply ok_remove; rewrite <-Href|]. do 3 (split; [done|]).
    by intros k [_ Hx]%elem_of_js_filter.
  - assert (createdPlaceholderRef (hold c) = None) as ->.
    { destruct (createdPlaceholderRef (hold c)) as [i|] eqn:Hi; [|done].
      destruct (ok_placeholder _ _ i Hok eq_refl) as ((n & Hn & Hni) & H1 & _).
      rewrite js_find_None in E. specialize (E n Hn). by rewrite H1 in E. }
    assert (ok (kinds (rf c)) None) as Hn; [|done].
    destruct Hok as [H1 H2 H3 H4]. split; [done| |done|done].
    intros i q (n & Hn & _ & Hl & _)%elem_of_kinds. rewrite js_find_None in E. specialize (E n Hn).
    unfold is_placeholder in E. by rewrite bool_decide_true in E.
Qed.

Lemma new_id_truthy k type : otruthy (Some (new_id humanId k type)) = Some (new_id humanId k type).
Proof. unfold new_id. cbn. destruct type; [done|]. done. Qed.

Lemma new_id_nonempty k type : new_id humanId k type ≠ "".
Proof. unfold new_id. by destruct type. Qed.

(** The identifier is new: no node has it, as its own or as its parent's. *)
Definition unused_id (i : string) (s : RFState) : Prop := ∀ n, n ∈ nodes s → n_id n ≠ i ∧ n_parentId n ≠ Some i.

Abbreviation end_connect := (onConnectEnd true getNodeName initialFormValuesMap descriptionMessage
  userPromptDefaultValue humanId iterationStartId loopStartId initialIterationStartValues screenToFlowPosition
  calculateDropdownPosition).
Abbreviation pick := (pick_operator true getNodeName initialFormValuesMap descriptionMessage
  userPromptDefaultValue humanId iterationStartId loopStartId initialIterationStartValues screenToFlowPosition).

Lemma onConnectEnd_ok k ev c : unused_id (new_id humanId k P) (rf c) → state_ok c → state_ok (end_connect k ev c).
Proof.
  intros Hun Hok. unfold onConnectEnd. destruct ev as [p|]; [|done].
  destruct (isConnectedRef _); [done|]. destruct (connectionStartRef _) as [start|]; [|done].
  destruct (match mouseStartPosRef _ with Some q => is_click p q | None => false end).
  { apply removePlaceholderNode_ok. exact Hok. }
  destruct (checkAndRemove_ok (at_position p c) Hok) as (Hok1 & Href1 & _ & _ & Hsub).
  set (c1 := checkAndRemoveExistingPlaceholder true _) in *. change (kinds (rf (at_position p c))) with (kinds (rf c)) in Hsub.
  assert (NoDup (node_ids (rf c1))) as Hnd by (rewrite <-kinds_ids; apply (ok_ids _ _ Hok1)).
  pose proof (addCanvasNode_kinds k P (drag_context start) (screenToFlowPosition p) (rf c1) Hnd) as Hadd.
  destruct (add k P _ _ _) as [s r]. destruct Hadd as [(_ & ? & _)|(-> & par & more & Hks & Hpar & Hmore)]; [done|].
  rewrite new_id_truthy. unfold state_ok. cbn [hold rf createdPlaceholderRef end_drag open_menu with_drag with_menu
    setCreatedPlaceholderRef with_hold with_rf].
  rewrite Hks. destruct Hmore as [->|(i & l & _ & _ & Hin)];
    [|exfalso; revert Hin; apply (bool_decide_unpack (P ∉ [Operator.Iteration; Operator.Loop])); vm_compute; exact I].
  assert (∀ j l q, (j, (l, q)) ∈ kinds (rf c1) → j ≠ new_id humanId k P ∧ q ≠ Some (new_id humanId k P)) as Hfr.
  { intros j l q (n & Hn & <- & _ & <-)%Hsub%elem_of_kinds. by apply Hun. }
  apply ok_add_placeholder; [done| |apply new_id_nonempty| |].
  - intros ([j [l q]] & Hj & Hin)%list_elem_of_fmap. apply Hfr in Hin as [Hne _]. by apply Hne.
  - intros j l Hin. by destruct (Hfr _ _ _ Hin).
  - destruct Hpar as [?|(m & Hm & Hq)]; [by left|right]. exists (n_id m), (label (n_data m)). apply elem_of_kinds. by exists m.
Qed.

Lemma onNodeCreated_ok i op par0 c : state_ok c → (i, (op, par0)) ∈ kinds (rf c) → op ≠ P →
  state_ok (onNodeCreated true i c) ∧ createdPlaceholderRef (hold (onNodeCreated true i c)) = None.
Proof.
  intros Hok Hi Hop. split; [|done]. unfold state_ok. unfold onNodeCreated.
  cbn [rf hold with_hold with_rf createdPlaceholderRef].
  destruct (otruthy (createdPlaceholderRef (hold c))) as [p|] eqn:Ep.
  2: { unfold state_ok in Hok. destruct (createdPlaceholderRef (hold c)) as [[|a t]|] eqn:Er; [|done|exact Hok].
       by destruct (ok_node _ _ Hok "" eq_refl). }
  assert (createdPlaceholderRef (hold c) = Some p) as Href
    by (destruct (createdPlaceholderRef (hold c)) as [[|a t]|]; simpl in Ep; congruence).
  unfold state_ok in Hok. rewrite Href in Hok. pose proof (ok_ids _ _ Hok) as Hnd. rewrite kinds_ids in Hnd.
  destruct (ok_placeholder _ _ p Hok eq_refl) as ((pn & Hpn & Hpi) & Hpl & Hch).
  pose proof Hi as (n & Hn & Hni & Hnl & Hnp)%elem_of_kinds.
  destruct (js_find (λ n, n_id n === p) (nodes (rf c))) as [pn'|] eqn:E1.
  2: { rewrite js_find_None in E1. specialize (E1 pn Hpn). by rewrite bool_decide_true in E1. }
  destruct (js_find (λ m, n_id m === i) (nodes (rf c))) as [n'|] eqn:E2.
  2: { rewrite js_find_None in E2. specialize (E2 n Hn). by rewrite bool_decide_true in E2. }
  apply js_find_Some in E1 as [Hpn' Hpid%bool_decide_eq_true]. apply js_find_Some in E2 as [Hn' Hnid%bool_decide_eq_true].
  set (s2 := match js_find _ (edges (rf c)) with Some _ => _ | None => _ end).
  assert (kinds s2 = map (λ k, if k.1 === n_id n' then kind (take_place n' pn') else k) (kinds (rf c))) as Hs2.
  { unfold s2. rewrite <-(proj1 (kinds_updateNode n' (take_place n' pn') (rf c) Hnd Hn' eq_refl)).
    destruct (js_find _ (edges (rf c))); [apply kinds_onConnect|done]. }
  assert (label (n_data n') = op) as Hl'.
  { assert (kind n' ∈ kinds (rf c)) as Hk' by (apply elem_of_map; by exists n').
    apply list_elem_of_lookup in Hk' as [a Ha]. pose proof Hi as [b Hb]%list_elem_of_lookup.
    assert (a = b) as ->; [|rewrite Ha in Hb; by injection Hb].
    eapply (NoDup_lookup _ _ _ i (ok_ids _ _ Hok)); rewrite list_lookup_fmap; [rewrite Ha|by rewrite Hb]. simpl. by rewrite Hnid. }
  assert (ok (kinds s2) (Some p)) as Hok2.
  { rewrite Hs2, Hnid. unfold kind at 1. cbn [take_place n_id node_with_position node_with_parent n_data n_parentId].
    rewrite Hnid, Hl'. eapply ok_reparent; [exact Hok|exact Hi|done|].
    destruct (n_parentId pn') as [q|] eqn:Eq; [|destruct (n_parentId n') as [q|] eqn:Eq'; [|by left]]; right.
    - exists (n_id pn'), (label (n_data pn')). apply elem_of_kinds. by exists pn'.
    - exists (n_id n'), (label (n_data n')). apply elem_of_kinds. by exists n'. }
  destruct (ok_placeholder _ _ p Hok2 eq_refl) as (_ & Hpl2 & Hch2).
  rewrite (delete_ref_kinds p (rf c) s2 (ex_intro _ pn (conj Hpn Hpi)) Hpl2 Hch2). by apply ok_remove.
Qed.

Lemma pick_operator_ok k op c :
  op ≠ P → (∀ params scr, NoDup (node_ids (add k op params scr (rf c)).1)) → state_ok c → state_ok (pick k op c).
Proof.
  intros Hop Hnd Hok. unfold pick_operator. set (params := default _ _). set (scr := screenToFlowPosition _).
  specialize (Hnd params scr).
  assert (NoDup (node_ids (rf c))) as Hids by (rewrite <-kinds_ids; apply (ok_ids _ _ Hok)).
  pose proof (addCanvasNode_kinds k op params scr (rf c) Hids) as Hadd.
  destruct (add k op params scr (rf c)) as [s r]. cbn [fst] in Hnd.
  assert (∀ c', state_ok c' → state_ok (hide_menu (removePlaceholderNode true c'))) as Hend
    by (intros c' Hc'; exact (removePlaceholderNode_ok c' Hc')).
  destruct Hadd as [(-> & _ & Hks)|(-> & par & more & Hks & Hpar & Hmore)].
  - apply Hend. unfold state_ok. cbn [otruthy rf hold with_rf]. by rewrite Hks.
  - rewrite new_id_truthy. apply Hend.
    refine (proj1 (onNodeCreated_ok (new_id humanId k op) op par _ _ _ Hop)).
    + unfold state_ok. cbn [rf hold with_rf]. rewrite Hks. apply ok_add; [exact Hok|by rewrite <-Hks, kinds_ids|].
      intros x [->|Hx]%elem_of_cons; cbn [fst snd].
      * split; [done|]. destruct Hpar as [?|(m & Hm & Hq)]; [by left|right; left].
        exists (n_id m), (label (n_data m)). apply elem_of_kinds. by exists m.
      * destruct Hmore as [->|(i & l & -> & Hl & _)]; [by apply not_elem_of_nil in Hx|].
        apply list_elem_of_singleton in Hx as ->. cbn [fst snd]. split; [done|]. right; right.
        exists (new_id humanId k op), (op, par). split; [done|apply elem_of_cons; by left].
    + cbn [rf with_rf]. rewrite Hks. set_solver.
Qed.

(** The events of the canvas around a dragged connection. *)
Inductive pstep : canvas_state → canvas_state → Prop :=
  | ps_start ev params c : pstep c (onConnectStart ev params c)
  | ps_end k ev c : unused_id (new_id humanId k P) (rf c) → pstep c (end_connect k ev c)
  | ps_connect connection c : pstep c (handleConnect connection c)
  | ps_pick k op c : op ≠ P → (∀ params scr, NoDup (node_ids (add k op params scr (rf c)).1)) → pstep c (pick k op c)
  | ps_move c : pstep c (onMove true c)
  | ps_pane c : pstep c (onPaneClick true c)
  | ps_expire c : pstep c (prevent_close_expires c).

Lemma pstep_ok c c' : pstep c c' → state_ok c → state_ok c'.
Proof.
  destruct 1; intros Hok.
  - done.
  - by apply onConnectEnd_ok.
  - unfold state_ok, handleConnect. cbn [rf hold with_drag with_rf]. by rewrite kinds_onConnect.
  - by apply pick_operator_ok.
  - exact (removePlaceholderNode_ok c Hok).
  - unfold onPaneClick. destruct (_ && _); [exact (removePlaceholderNode_ok c Hok)|done].
  - done.
Qed.

(** however connections are dragged, dropped, cancelled and completed by
    picking an operator, the canvas holds at most one placeholder, and the
    hook's ref is exactly that placeholder's identifier: none is ever left
    behind unreferenced. *)
Theorem one_placeholder c0 c :
  NoDup (node_ids (rf c0)) → (∀ n, n ∈ nodes (rf c0) → is_placeholder n = false) →
  createdPlaceholderRef (hold c0) = None → rtc pstep c0 c →
  length (js_filter is_placeholder (nodes (rf c))) ≤ 1 ∧
  ∀ i, createdPlaceholderRef (hold c) = Some i ↔ ∃ n, n ∈ nodes (rf c) ∧ is_placeholder n = true ∧ n_id n = i.
Proof.
  intros Hnd Hno Href Hsteps.
  assert (state_ok c0) as H0.
  { unfold state_ok. rewrite Href. split; [by rewrite kinds_ids| |done|];
      intros i p; intros; match goal with H : (_, (P, _)) ∈ _ |- _ =>
        apply elem_of_kinds in H as (n & Hn & _ & Hl & _); specialize (Hno n Hn); unfold is_placeholder in Hno;
        by rewrite bool_decide_true in Hno end. }
  assert (state_ok c) as Hok.
  { clear Hnd Hno Href. induction Hsteps as [|a b d Hab _ IH]; [done|]. by apply IH, (pstep_ok a b). }
  assert (∀ n, n ∈ nodes (rf c) → is_placeholder n = true → (n_id n, (P, n_parentId n)) ∈ kinds (rf c)) as Hk.
  { intros n Hn Hp. apply elem_of_kinds. exists n. by apply bool_decide_eq_true in Hp. }
  split.
  - assert (NoDup (map n_id (js_filter is_placeholder (nodes (rf c))))) as Hnd'.
    { assert (NoDup (node_ids (rf c))) as Hids by (rewrite <-kinds_ids; apply (ok_ids _ _ Hok)).
      eapply sublist_NoDup; [exact Hids|]. apply (fmap_sublist n_id), sublist_filter. }
    destruct (js_filter is_placeholder (nodes (rf c))) as [|a [|b l]] eqn:E; [simpl; lia|simpl; lia|]. exfalso.
    assert (a ∈ js_filter is_placeholder (nodes (rf c)) ∧ b ∈ js_filter is_placeholder (nodes (rf c)))
      as [[Ha1 Ha2]%elem_of_js_filter [Hb1 Hb2]%elem_of_js_filter] by (rewrite E; set_solver).
    pose proof (ok_ref _ _ Hok _ _ (Hk a Ha2 Ha1)) as Ra. rewrite (ok_ref _ _ Hok _ _ (Hk b Hb2 Hb1)) in Ra.
    injection Ra as Ra. cbn in Hnd'. apply NoDup_cons in Hnd' as [Hx _]. set_solver.
  - intros i. split.
    + intros Hi. destruct (ok_placeholder _ _ i Hok Hi) as ((n & Hn & Hni) & Hpl & _). exists n. auto.
    + intros (n & Hn & Hp & <-). by eapply (ok_ref _ _ Hok), Hk.
Qed.

(** ** Replacing the placeholder *)
Definition place (n : Node) : string * XYPosition := (n_id n, n_position n).

Definition places (s : RFState) : list (string * XYPosition) := map place (nodes s).

Lemma places_onConnect c s : places (onConnect c s) = places s.
Proof.
  assert (∀ i v p s, places (updateNodeForm i v p s) = places s) as H.
  { intros i v p s1. unfold places, updateNodeForm. cbn [nodes setNodes]. rewrite map_map. apply map_ext.
    intros n. by case_bool_decide. }
  unfold onConnect, updateFormDataOnConnect, updateSwitchFormData. repeat case_match; rewrite ?H; done.
Qed.

Lemma handle_same_or_null a h : handle_same a (handle_or_null h) → handle_same a h.
Proof.
  unfold handle_or_null. destruct (handle_truthy h) eqn:E; [done|]. intros [->|[Ha _]]; right; auto.
Qed.

(** Edges that are not at the placeholder are not deleted, when identifiers
    are unique. *)
Lemma keep_other_edges p es es' : NoDup (map e_id (es ++ es')) → (∀ e, e ∈ es' → touches p e = false) →
  js_filter (λ e, negb (js_includes (map e_id (js_filter (touches p) es)) (e_id e)) && negb (touches p e)) (es ++ es') =
  js_filter (λ e, negb (touches p e)) es ++ es'.
Proof.
  intros Hnd Hno. etrans; [|etrans; [apply (js_filter_app (λ e, negb (touches p e)))|]].
  - apply js_filter_ext. intros e He. destruct (touches p e) eqn:Et; [by rewrite andb_false_r|].
    cbn [negb]. rewrite andb_true_r. apply negb_true_iff, not_true_iff_false. intros Hin%js_includes_true.
    apply elem_of_map in Hin as (d & Hid & [Hd1 Hd2]%elem_of_js_filter).
    assert (d = e) as ->; [|congruence].
    assert (d ∈ es ++ es') as Hd by (apply elem_of_app; by left).
    apply list_elem_of_lookup in Hd as [a Ha], He as [b Hb].
    assert (a = b) as ->; [|rewrite Ha in Hb; by injection Hb].
    eapply (NoDup_lookup _ _ _ (e_id e) Hnd); change (map e_id ?l) with (e_id <$> l);
      rewrite list_lookup_fmap; [by rewrite Ha, Hid|by rewrite Hb].
  - f_equal. apply js_filter_all. intros e He. by rewrite Hno.
Qed.

(** picking an operator replaces the placeholder: the new node stands
    where the placeholder stood and gets the edge that led to it, from the
    same handle; the placeholder is gone with every edge at it, and the other
    nodes and edges are as they were. *)
Theorem placeholder_replaced i p pn n pe c :
  let s0 := rf c in
  let s := rf (onNodeCreated true i c) in
  let conn := {| c_source := source pe; c_target := i; c_sourceHandle := handle_or_null (sourceHandle pe);
                 c_targetHandle := handle_or_null (targetHandle pe) |} in
  state_ok c → createdPlaceholderRef (hold c) = Some p → pn ∈ nodes s0 → n_id pn = p →
  n ∈ nodes s0 → n_id n = i → i ≠ p → i ≠ "" → (∀ e, e ∈ edges s0 → touches i e = false) →
  js_find (λ e, target e === p) (edges s0) = Some pe → source pe ≠ "" → source pe ≠ p →
  NoDup (map e_id (edges s0)) →
  (∀ e d, xy_addEdge conn (edges s0) = edges s0 ++ [e] → d ∈ edges s0 → e_id d ≠ e_id e) →
  places s = js_filter (λ k, k.1 !== p) (map (λ k, if k.1 === i then (i, n_position pn) else k) (places s0)) ∧
  ∃ e, edges s = js_filter (λ e, negb (touches p e)) (edges s0) ++ [e] ∧
    source e = source pe ∧ target e = i ∧ handle_same (sourceHandle e) (sourceHandle pe).
Proof.
  intros s0 s conn Hok Href Hpn Hpi Hn Hni Hip Hie Hfresh Hpe Hse Hsp Hnd Hids. unfold state_ok in Hok. rewrite Href in Hok.
  destruct (ok_node _ _ Hok p eq_refl) as [Hpne _].
  pose proof (ok_ids _ _ Hok) as Hnodup. rewrite kinds_ids in Hnodup.
  destruct (ok_placeholder _ _ p Hok eq_refl) as (Hex & Hpl & Hch).
  assert (∀ m x, m ∈ nodes s0 → x ∈ nodes s0 → n_id m = n_id x → m = x) as Huniq.
  { intros m x Hm Hx Hmx. apply list_elem_of_lookup in Hm as [a Ha], Hx as [b Hb].
    assert (a = b) as ->; [|congruence]. eapply (NoDup_lookup _ _ _ (n_id x) Hnodup);
      change (node_ids (rf c)) with (n_id <$> nodes s0); rewrite list_lookup_fmap; [by rewrite Ha; simpl; rewrite Hmx|by rewrite Hb]. }
  assert (∀ x j, x ∈ nodes s0 → n_id x = j → js_find (λ m, n_id m === j) (nodes s0) = Some x) as Hfind.
  { intros x j Hx Hj. destruct (js_find_is_Some (λ m, n_id m === j) (nodes s0) x Hx) as [m Hm];
      [by apply bool_decide_eq_true|]. rewrite Hm. f_equal. apply js_find_Some in Hm as [Hm Hmj%bool_decide_eq_true].
    apply Huniq; congruence. }
  set (s1 := updateNode (take_place n pn) s0).
  assert (s = delete_ref p s0 (onConnect conn s1)) as ->.
  { unfold s, onNodeCreated. cbn [rf with_hold with_rf]. rewrite Href.
    assert (otruthy (Some p) = Some p) as -> by (by destruct p).
    fold s0. by rewrite (Hfind pn p Hpn Hpi), (Hfind n i Hn Hni), Hpe. }
  assert (∃ e, xy_addEdge conn (edges s0) = edges s0 ++ [e] ∧ edge_of_connection conn e) as (e & He & Hec).
  { destruct (addEdge_cases conn (edges s0)) as [(e & H1 & H2 & _)|[_ [H|[H|(d & Hd & Hdc)]]]]; [by exists e|done|done|].
    exfalso. specialize (Hfresh d Hd). destruct Hdc as (_ & Ht & _). unfold touches in Hfresh.
    rewrite (bool_decide_true (target d = i)) in Hfresh by done. done. }
  destruct Hec as (Es & Et & Eh & _). cbn in Es, Et, Eh.
  assert (places (onConnect conn s1) = map (λ k, if k.1 === i then (i, n_position pn) else k) (places s0)) as Hplaces.
  { rewrite places_onConnect. unfold places, s1, updateNode. cbn [nodes setNodes]. rewrite !map_map. apply map_ext_in.
    intros m Hm%list_elem_of_In. cbn [place fst]. change (n_id (take_place n pn)) with (n_id n). rewrite Hni.
    case_bool_decide; [|done]. unfold place. cbn. by rewrite Hni. }
  assert (∀ m, m ∈ nodes (onConnect conn s1) → (n_id m = p → is_placeholder m = true) ∧ n_parentId m ≠ Some p) as Hafter.
  { assert (kinds (onConnect conn s1) = map (λ k, if k.1 === n_id n then kind (take_place n pn) else k) (kinds s0)) as Hks
      by (rewrite kinds_onConnect; apply (kinds_updateNode n); done).
    intros m Hm. assert (kind m ∈ kinds (onConnect conn s1)) as Hk by (apply elem_of_map; by exists m).
    rewrite Hks in Hk. apply elem_of_map in Hk as ([j [l q]] & Hk & (x & Hx & <- & <- & <-)%elem_of_kinds). cbn [fst] in Hk.
    case_bool_decide as E.
    - injection Hk as Hk1 Hk2 Hk3. split; [congruence|]. rewrite Hk3. cbn.
      destruct (n_parentId pn) as [q|] eqn:Eq; [rewrite <-Eq; by apply Hch|by apply Hch].
    - injection Hk as Hk1 Hk2 Hk3. split; [|rewrite Hk3; by apply Hch]. intros Hmp. unfold is_placeholder. rewrite Hk2.
      apply Hpl; [done|]. congruence. }
  destruct (delete_ref_nodes p s0 (onConnect conn s1) Hex) as [Hnodes Hedges]; [apply Hafter|apply Hafter|].
  split.
  - rewrite <-Hplaces. unfold places. rewrite Hnodes. by apply filter_by_id.
  - exists e. split; [|split; [done|split; [done|by apply handle_same_or_null]]].
    rewrite Hedges, onConnect_edges. change (edges s1) with (edges s0). rewrite He. apply keep_other_edges.
    + rewrite map_app. apply NoDup_app. split; [done|]. split; [|apply NoDup_singleton].
      intros x (d & -> & Hd)%elem_of_map Hx%list_elem_of_singleton. by eapply Hids.
    + intros d ->%list_elem_of_singleton. unfold touches. rewrite Es, Et, !bool_decide_false by done. done.
Qed.

Lemma pick_fresh k op s : NoDup (node_ids s) → (op ∉ [Operator.Iteration; Operator.Loop]) →
  (new_id humanId k op ∉ node_ids s) → ∀ params scr, NoDup (node_ids (add k op params scr s).1).
Proof.
  intros Hnd Hop Hf params scr. pose proof (addCanvasNode_kinds k op params scr s Hnd) as H.
  destruct (add k op params scr s) as [s' r]. cbn [fst]. rewrite <-kinds_ids in Hnd, Hf |- *.
  destruct H as [(_ & _ & ->)|(_ & par & more & -> & _ & [->|(i & l & _ & _ & ?)])]; [done| |done].
  rewrite fmap_app. apply NoDup_app. split; [done|]. split; [|apply NoDup_singleton].
  intros x Hx Hx'%list_elem_of_singleton. cbn in Hx'. by subst x.
Qed.

Lemma ok_intro ks ref : NoDup ks.*1 → Forall (λ k, k.2.1 = P → ref = Some k.1) ks →
  match ref with Some i => i ≠ "" ∧ Exists (λ k, k.1 = i ∧ k.2.1 = P) ks | None => True end →
  Forall (λ k, k.2.1 = P → Forall (λ k', k'.2.2 ≠ Some k.1) ks) ks → ok ks ref.
Proof.
  rewrite !Forall_forall. intros H1 H2 H3 H4. split; [done| | |].
  - intros i p Hi. exact (H2 _ Hi eq_refl).
  - intros i ->. destruct H3 as [Hi ([j [l p]] & Hin & <- & Hl)%Exists_exists]. split; [done|].
    exists p. cbn in Hl. by subst l.
  - intros i p j l Hi Hj. specialize (H4 _ Hi eq_refl). rewrite Forall_forall in H4. by apply (H4 _ Hj).
Qed.
End placeholder_props.

(** ** The theorems at work *)
Section examples.
Import Canvas.
Definition to_flow (p : point) : option XYPosition := Some {| x := NFin p.1; y := NFin p.2 |}.

Definition at_ (a b : Z) : point := (Qc_of_Z a, Qc_of_Z b).

#[local] Abbreviation end0 := (onConnectEnd true (λ s, s) (λ _, VObj []) "" "" words "0" "1" (VObj []) to_flow (λ p, p)).
#[local] Abbreviation pick0 := (pick_operator true (λ s, s) (λ _, VObj []) "" "" words "0" "1" (VObj []) to_flow).
#[local] Abbreviation add0 := (addCanvasNode (λ s, s) (λ _, VObj []) "" "" words "0" "1" (VObj [])).

Definition idle : canvas_state :=
  {| rf := canvas; hold := {| createdPlaceholderRef := None; userSelectedNodeRef := false |};
     dragging := {| isConnectedRef := false; connectionStartRef := None; preventCloseRef := false; mouseStartPosRef := None |};
     menu := {| visible := false; activeDropdown := None; dropdownPosition := at_ 0 0 |} |}.

Definition started : canvas_state := onConnectStart (Some (at_ 10 10)) (Some ("Message:a", "start")) idle.

Definition dropped : canvas_state := end0 7 (Some (at_ 400 300)) started.

Lemma dropped_steps : rtc (pstep (λ s, s) (λ _, VObj []) "" "" words "0" "1" (VObj []) to_flow (λ p, p)) idle dropped.
Proof.
  eapply rtc_l; [apply (ps_start _ _ _ _ _ _ _ _ _ _ (Some (at_ 10 10)) (Some ("Message:a", "start")))|].
  apply rtc_once. apply ps_end. unfold unused_id. refine (proj1 (Forall_forall _ _) _).
  apply (bool_decide_unpack _). vm_compute. exact I.
Qed.

Lemma one_placeholder_witness :
  let c := pick0 8 Operator.Retrieval dropped in
  map (λ n, n_id n) (js_filter is_placeholder (nodes (rf dropped))) = ["Placeholder:7"] ∧
  length (js_filter is_placeholder (nodes (rf c))) ≤ 1 ∧ "Retrieval:8" ∈ node_ids (rf c).
Proof.
  split; [vm_compute; reflexivity|]. split; [|apply (bool_decide_unpack _); vm_compute; exact I].
  refine (proj1 (one_placeholder (λ s, s) (λ _, VObj []) "" "" words "0" "1" (VObj []) to_flow (λ p, p) idle _ _ _ _ _)).
  - apply (bool_decide_unpack _). vm_compute. exact I.
  - refine (proj1 (Forall_forall _ _) _). apply (bool_decide_unpack _). vm_compute. exact I.
  - reflexivity.
  - eapply rtc_r; [exact dropped_steps|]. apply ps_pick; [by apply (bool_decide_unpack (_ ≠ _)); vm_compute|].
    apply pick_fresh; apply (bool_decide_unpack _); vm_compute; exact I.
Defined.

Definition picked : canvas_state :=
  with_rf (add0 8 Operator.Retrieval default_context (to_flow (at_ 400 300)) (rf dropped)).1 dropped.

Definition the_node (i : string) : Node :=
  default (mk_node "" "" "" None VUndef) (getNode (Some i) (rf picked)).

Definition the_edge : Edge :=
  default (mk_edge "" "" "" HNull) (js_find (λ e, target e === "Placeholder:7") (edges (rf picked))).

Lemma placeholder_replaced_witness : ∃ e,
  edges (rf (onNodeCreated true "Retrieval:8" picked)) =
    js_filter (λ e, negb (touches "Placeholder:7" e)) (edges (rf picked)) ++ [e] ∧
  source e = "Message:a" ∧ target e = "Retrieval:8".
Proof.
  destruct (placeholder_replaced "Retrieval:8" "Placeholder:7" (the_node "Placeholder:7") (the_node "Retrieval:8")
    the_edge picked) as [_ (e & He & Hs & Ht & _)].
  - apply ok_intro; apply (bool_decide_unpack _); vm_compute; exact I.
  - vm_compute. reflexivity.
  - apply (bool_decide_unpack _). vm_compute. exact I.
  - vm_compute. reflexivity.
  - apply (bool_decide_unpack _). vm_compute. exact I.
  - vm_compute. reflexivity.
  - apply (bool_decide_unpack (_ ≠ _)). vm_compute. exact I.
  - apply (bool_decide_unpack (_ ≠ _)). vm_compute. exact I.
  - refine (proj1 (Forall_forall _ _) _). apply (bool_decide_unpack _). vm_compute. exact I.
  - vm_compute. reflexivity.
  - apply (bool_decide_unpack (_ ≠ _)). vm_compute. exact I.
  - apply (bool_decide_unpack (_ ≠ _)). vm_compute. exact I.
  - apply (bool_decide_unpack _). vm_compute. exact I.
  - intros e d He. revert d. refine (proj1 (Forall_forall _ _) _). vm_compute in He.
    injection He as <-. apply (bool_decide_unpack _). vm_compute. exact I.
  - exists e. split; [exact He|]. split; [exact Hs|exact Ht].
Defined.
End examples.
