(* ===== verification/Rename.v ===== *)
(** * Renaming nodes and tools

    pages/agent/hooks/use-change-node-name.ts: what happens to the store, and
    to the text of the input, when the name input of a node or of an agent's
    tool loses the focus.  [trim] is lodash's; a handler returns whether the
    name was accepted. *)
From S2P Require Import Prelude JsValue Graph Libs NodeNames GraphStore StoreProps FormUtils.
Open Scope list_scope.
Open Scope nat_scope.
Open Scope js_scope.

Section rename.
Context {L : Lodash} (trim : val → string).

(** The text of the input, the store, and the answer. *)
Record blur := { b_name : val; b_store : RFState; b_ok : bool }.

Definition handleNameBlur (id : string) (previousName : val) (nm : val) (s : RFState) : blur :=
  let trimmedName := trim nm in
  let existsSameName := js_some (λ n, VStr (name (n_data n)) === nm) (nodes s) in
  if trimmedName === "" then {| b_name := js_or previousName (VStr ""); b_store := s; b_ok := true |}
  else if existsSameName && (previousName !== nm) then {| b_name := nm; b_store := s; b_ok := false |}
  else {| b_name := nm; b_store := updateNodeName id (key_of nm) s; b_ok := true |}.

(** [None] is a TypeError: tools that are not an array, or a missing agent. *)
Definition handleToolNameBlur (id : string) (nm : val) (s : RFState) : option blur :=
  let agentNode := findUpstreamNodeById (Some id) s in
  let ref := match agentNode with Some n => RefNode n | None => RefNone end in
  tools ← array_of (getAgentNodeTools agentNode);
  tool ← getAgentToolById (clickedToolId s) ref s;
  let previousName := match tool with Some t => prop "name" t | None => VUndef end in
  let trimmedName := trim nm in
  let existsSameName := js_some (λ t, prop "name" t === VStr trimmedName) tools in
  if trimmedName === "" then Some {| b_name := js_or previousName (VStr ""); b_store := s; b_ok := true |}
  else if existsSameName && (previousName !== nm) then Some {| b_name := nm; b_store := s; b_ok := false |}
  else
    match agentNode with
    | Some n =>
        s' ← updateAgentToolById (RefNode n) (clickedToolId s) (Some [("name", nm)]) s;
        Some {| b_name := nm; b_store := s'; b_ok := true |}
    | None => Some {| b_name := nm; b_store := s; b_ok := true |}
    end.

(** [handleNameBlur] of the hook: the handler for a tool node or another. *)
Definition blur_name (id : string) (previousName : val) (nm : val) (s : RFState) : option blur :=
  if getOperatorTypeFromId (Some id) s === Some Operator.Tool then handleToolNameBlur id nm s
  else Some (handleNameBlur id previousName nm s).

Lemma update_first_none i f ns : (i ∉ map n_id ns) → update_first i f ns = ns.
Proof.
  induction ns as [|n ns IH]; intros Hi; [done|]. cbn [update_first]. rewrite bool_decide_false by set_solver.
  f_equal. apply IH. set_solver.
Qed.

Lemma update_first_at i f ns n : NoDup (map n_id ns) → n ∈ ns → n_id n = i →
  ∃ l1 l2, ns = l1 ++ n :: l2 ∧ update_first i f ns = l1 ++ f n :: l2.
Proof.
  intros Hnd Hn Hi. induction ns as [|m ns IH]; [by apply not_elem_of_nil in Hn|].
  cbn [map] in Hnd. apply NoDup_cons in Hnd as [Hm Hnd]. cbn [update_first].
  apply elem_of_cons in Hn as [<-|Hn].
  - exists [], ns. by rewrite bool_decide_true.
  - rewrite bool_decide_false; [|intros E; apply Hm, elem_of_map; exists n; by rewrite E].
    destruct (IH Hnd Hn) as (l1 & l2 & -> & ->). by exists (m :: l1), l2.
Qed.

(** A node gets the name that is typed exactly when the name is not blank
    and no other node has it: names that are unique stay so, a blank name
    restores the old one, and a name in use is refused with nothing
    changed. *)
Theorem rename_unique i n nm s :
  NoDup (node_ids s) → NoDup (node_names (nodes s)) → n ∈ nodes s → n_id n = i → i ≠ "" →
  let b := handleNameBlur i (VStr (name (n_data n))) (VStr nm) s in
  NoDup (node_names (nodes (b_store b))) ∧
  (trim (VStr nm) = "" → b_store b = s ∧ b_name b = VStr (name (n_data n)) ∧ b_ok b = true) ∧
  (trim (VStr nm) ≠ "" → (∃ m, m ∈ nodes s ∧ m ≠ n ∧ name (n_data m) = nm) → b_store b = s ∧ b_ok b = false) ∧
  (trim (VStr nm) ≠ "" → (∀ m, m ∈ nodes s → m ≠ n → name (n_data m) ≠ nm) →
     b_ok b = true ∧ ∃ l1 l2, nodes s = l1 ++ n :: l2 ∧ nodes (b_store b) = l1 ++ node_with_name n nm :: l2).
Proof.
  intros Hids Hnames Hn Hi Hne b. unfold b, handleNameBlur. cbn [key_of].
  destruct (update_first_at i (λ m, node_with_name m nm) (nodes s) n Hids Hn Hi) as (l1 & l2 & Hsplit & Hupd).
  assert (∀ m, m ∈ l1 ++ l2 → m ∈ nodes s ∧ m ≠ n) as Hother.
  { intros m Hm. split; [rewrite Hsplit; set_solver|]. intros ->. unfold node_ids in Hids. rewrite Hsplit, map_app in Hids.
    apply NoDup_app in Hids as (_ & Hd & [Hd2 _]%NoDup_cons). apply elem_of_app in Hm as [Hm|Hm].
    - apply (Hd (n_id n)); [apply elem_of_map; by exists n|]. cbn [map]. apply elem_of_cons. by left.
    - apply Hd2, elem_of_map. by exists n. }
  assert (∀ m, m ∈ nodes s → m ≠ n → m ∈ l1 ++ l2) as Hback.
  { intros m Hm Hmn. rewrite Hsplit in Hm. set_solver. }
  set (same := js_some _ (nodes s)).
  assert (same = true ↔ ∃ m, m ∈ nodes s ∧ name (n_data m) = nm) as Hsame.
  { unfold same. rewrite js_some_true. setoid_rewrite bool_decide_eq_true. split; intros (m & Hm & H); exists m;
      [by injection H|by rewrite H]. }
  destruct (decide (trim (VStr nm) = "")) as [Ht|Ht].
  { rewrite bool_decide_true by done. cbn [b_store b_name b_ok]. split; [done|]. split; [|done]. intros _.
    split; [done|]. split; [|done]. unfold js_or, truthy. destruct (decide (name (n_data n) = "")) as [->|Hnn]; [done|].
    by rewrite bool_decide_false. }
  rewrite (bool_decide_false (trim (VStr nm) = "")) by done.
  assert (¬ name (n_data n) ∈ node_names (l1 ++ l2)) as Hfresh.
  { unfold node_names in *. rewrite Hsplit, !map_app in Hnames. apply NoDup_app in Hnames as (_ & Hd & [Hd2 _]%NoDup_cons).
    rewrite map_app. intros [H|H]%elem_of_app; [|done]. apply (Hd _ H). cbn [map]. apply elem_of_cons. by left. }
  destruct (decide (nm ∈ node_names (l1 ++ l2))) as [Hin|Hno].
  - assert (name (n_data n) ≠ nm) as Hd by congruence.
    apply elem_of_map in Hin as (m & -> & Hm). destruct (Hother m Hm) as [Hms Hmn].
    assert (same = true) as -> by (apply Hsame; by exists m).
    rewrite (bool_decide_false (VStr (name (n_data n)) = _)) by congruence. cbn [andb negb b_store b_ok].
    split; [done|]. split; [done|]. split; [done|]. intros _ H. by destruct (H m Hms Hmn).
  - assert (same && (VStr (name (n_data n)) !== VStr nm) = false) as ->.
    { apply not_true_iff_false. intros [(m & Hm & Hmn)%Hsame Hd]%andb_true_iff.
      apply negb_true_iff, bool_decide_eq_false in Hd.
      apply Hno, elem_of_map. exists m. split; [done|]. apply Hback; [done|]. congruence. }
    cbn [b_store b_ok]. unfold updateNodeName. rewrite bool_decide_false by done. cbn [negb nodes setNodes].
    rewrite Hupd. split; [|split; [done|split]].
    + unfold node_names in *. rewrite Hsplit, map_app in Hnames. rewrite map_app in Hno |- *. cbn [map] in *.
      apply NoDup_app in Hnames as (H1 & H2 & [H3 H4]%NoDup_cons). apply NoDup_app. split; [done|]. split.
      * intros x Hx Hx'. cbn in Hx'. apply elem_of_cons in Hx' as [->|Hx'].
        -- apply Hno, elem_of_app. by left.
        -- apply (H2 x Hx), elem_of_cons. by right.
      * apply NoDup_cons. split; [|done]. intros Hx. apply Hno, elem_of_app. by right.
    + intros _ (m & Hm & Hmn & Hnm). destruct Hno. apply elem_of_map. exists m. split; [done|by apply Hback].
    + intros _ _. split; [done|]. by exists l1, l2.
Qed.
End rename.

(** ** Examples *)
Import Canvas.

(** lodash's [trim] of a string. *)
Definition trim0 (v : val) : string := match v with VStr s => str_trim s | _ => "" end.

Lemma rename_unique_witness :
  NoDup (node_names (nodes (b_store (handleNameBlur trim0 "Agent:a" (VStr "Agent_0") (VStr "Writer") canvas)))).
Proof.
  refine (proj1 (rename_unique trim0 "Agent:a" agent_node "Writer" canvas _ _ _ _ _)).
  - apply (bool_decide_unpack _). vm_compute. exact I.
  - apply (bool_decide_unpack _). vm_compute. exact I.
  - apply (bool_decide_unpack _). vm_compute. exact I.
  - reflexivity.
  - apply (bool_decide_unpack (_ ≠ _)). vm_compute. exact I.
Defined.

(** The names of the tools of an agent are compared trimmed and stored as
    typed: a name with a blank can be given to two tools. *)
Definition named_tool (nm : string) : val := VObj [("component_name", VStr nm); ("id", VStr nm); ("name", VStr nm)].

Definition tools_canvas : RFState :=
  setClickedToolId (Some "b")
    (setEdges [mk_edge "e" "Agent:t" "Tool:t" (HId NodeHandleId.Tool)]
      (setNodes [mk_node "Agent:t" Operator.Agent "Agent_1" None (VObj [("tools", VArr [named_tool " a"; named_tool "b"])]);
                 mk_node "Tool:t" Operator.Tool "Tool_0" None (VObj [])] canvas)).

Lemma tool_names_collide : ∃ b,
  handleToolNameBlur trim0 "Tool:t" (VStr " a") tools_canvas = Some b ∧ b_ok b = true ∧
  map (prop "name") (arr_of_val (getAgentNodeTools (getNode (Some "Agent:t") (b_store b)))) = [VStr " a"; VStr " a"].
Proof. eexists. split; [vm_compute; reflexivity|]. split; reflexivity. Qed.
