(* ===== verification/Splitting.v ===== *)
(** * Values that hold several

    [_split_combined_values] of api/db/services/doc_metadata_service.py, which
    every write of metadata goes through, on the texts of list values: Python's
    [str.strip] and [re.split], on the bytes of UTF-8.  A byte of a character
    is never taken for another character, so that words of bytes stand for the
    characters of the expression. *)
From S2P Require Import Prelude JsValue.
From Stdlib Require Import Ascii.
Open Scope list_scope.
Open Scope nat_scope.
Open Scope js_scope.

Definition bytes_of (s : string) : list ascii := String.list_ascii_of_string s.
Definition text_of (l : list ascii) : string := String.string_of_list_ascii l.
Definition utf8 (l : list nat) : list ascii := ascii_of_nat <$> l.

(** [[、,，;；|]] *)
Definition separators : list (list ascii) := bytes_of <$> ["、"; ","; "，"; ";"; "；"; "|"].

(** The white space of [str.isspace]. *)
Definition py_spaces : list (list ascii) :=
  utf8 <$> ((λ c, [c]) <$> [9; 10; 11; 12; 13; 28; 29; 30; 31; 32]) ++
    [[194; 133]; [194; 160]; [225; 154; 128]] ++
    ((λ c, [226; 128; c]) <$> seq 128 11) ++ [[226; 128; 168]; [226; 128; 169]; [226; 128; 175]; [226; 129; 159]; [227; 128; 128]].

(** The word of a list that a text starts with. *)
Definition word_at (ws : list (list ascii)) (s : list ascii) : option (list ascii) :=
  js_find (λ w, bool_decide (w `prefix_of` s)) ws.

(** The text after the words it starts with; [skip] bytes belong to a word. *)
Fixpoint drop_words (ws : list (list ascii)) (skip : nat) (s : list ascii) : list ascii :=
  match s with
  | [] => []
  | c :: s' =>
      match skip with
      | S k => drop_words ws k s'
      | O => match word_at ws s with Some w => drop_words ws (length w - 1) s' | None => s end
      end
  end.

Definition strip (s : list ascii) : list ascii :=
  reverse (drop_words (reverse <$> py_spaces) 0 (reverse (drop_words py_spaces 0 s))).

(** The pieces between the separators. Where several follow each other there
    are empty pieces, which the caller leaves out. *)
Fixpoint pieces (skip : nat) (s : list ascii) : list (list ascii) :=
  match s with
  | [] => [[]]
  | c :: s' =>
      match skip with
      | S k => pieces k s'
      | O =>
          match word_at separators s with
          | Some w => [] :: pieces (length w - 1) s'
          | None => match pieces 0 s' with p :: ps => (c :: p) :: ps | [] => [[c]] end
          end
      end
  end.

(** [[s.strip() for s in re.split(..., item.strip()) if s.strip()]] *)
Definition split_bytes (s : list ascii) : list (list ascii) :=
  js_filter (λ p, p !== []) (strip <$> pieces 0 (strip s)).

Definition split_text (s : string) : list string := text_of <$> split_bytes (bytes_of s).

(** ** The pieces are not split again *)
Lemma word_at_None ws s : word_at ws s = None ↔ ∀ w, w ∈ ws → ¬ w `prefix_of` s.
Proof.
  unfold word_at. rewrite js_find_None. split; intros H w Hw.
  - specialize (H w Hw). by apply bool_decide_eq_false in H.
  - by apply bool_decide_eq_false, H.
Qed.

Lemma word_at_prefix ws s t : word_at ws t = None → s `prefix_of` t → word_at ws s = None.
Proof. rewrite !word_at_None. intros H Hp w Hw Hs. apply (H w Hw). by etrans. Qed.

Lemma drop_words_suffix ws s : ∀ k, drop_words ws k s `suffix_of` s.
Proof.
  induction s as [|c s IH]; intros k; [done|]. simpl.
  destruct k; [destruct (word_at _ _); [|done]|]; by apply suffix_cons_r.
Qed.

Lemma drop_words_stop ws s : ([] ∉ ws) → ∀ k, word_at ws (drop_words ws k s) = None.
Proof.
  intros Hws. induction s as [|c s IH]; intros k.
  - apply word_at_None. intros w Hw Hp. apply prefix_nil_inv in Hp as ->. done.
  - cbn [drop_words]. destruct k; [|done]. by destruct (word_at ws (c :: s)) eqn:E.
Qed.

Lemma drop_words_id ws s : word_at ws s = None → drop_words ws 0 s = s.
Proof. intros H. destruct s; [done|]. cbn [drop_words]. by rewrite H. Qed.

Lemma spaces_words : ([] ∉ py_spaces) ∧ [] ∉ (reverse <$> py_spaces).
Proof. split; (apply (bool_decide_unpack _); vm_compute; exact I). Qed.

Lemma strip_spec s : ∃ q, q `suffix_of` s ∧ strip s `prefix_of` q ∧ word_at py_spaces (strip s) = None ∧
  word_at (reverse <$> py_spaces) (reverse (strip s)) = None.
Proof.
  destruct spaces_words as [H1 H2]. exists (drop_words py_spaces 0 s). unfold strip.
  assert (reverse (drop_words (reverse <$> py_spaces) 0 (reverse (drop_words py_spaces 0 s))) `prefix_of` drop_words py_spaces 0 s)
    as Hp.
  { apply prefix_suffix_reverse. rewrite reverse_involutive. apply drop_words_suffix. }
  split; [apply drop_words_suffix|]. split; [exact Hp|]. split.
  - eapply word_at_prefix; [|exact Hp]. by apply drop_words_stop.
  - rewrite reverse_involutive. by apply drop_words_stop.
Qed.

Lemma strip_id s : word_at py_spaces s = None → word_at (reverse <$> py_spaces) (reverse s) = None → strip s = s.
Proof. intros H1 H2. unfold strip. by rewrite (drop_words_id _ s H1), (drop_words_id _ _ H2), reverse_involutive. Qed.

Lemma strip_strip s : strip (strip s) = strip s.
Proof. destruct (strip_spec s) as (_ & _ & _ & H1 & H2). by apply strip_id. Qed.

(** No separator begins anywhere in the text. *)
Fixpoint no_separator (s : list ascii) : Prop :=
  match s with [] => True | c :: s' => word_at separators s = None ∧ no_separator s' end.

Lemma no_separator_prefix s t : no_separator t → s `prefix_of` t → no_separator s.
Proof.
  revert s. induction t as [|c t IH]; intros s Ht Hp; [by apply prefix_nil_inv in Hp as ->|].
  destruct s as [|d s]; [done|]. destruct Ht as [Hw Ht]. split; [by eapply word_at_prefix|].
  apply IH; [done|]. by apply prefix_cons_inv_2 in Hp.
Qed.

Lemma no_separator_suffix s t : no_separator t → s `suffix_of` t → no_separator s.
Proof.
  intros Ht [k ->]. induction k as [|c k IH]; [done|]. apply IH. by destruct Ht.
Qed.

Lemma no_separator_strip s : no_separator s → no_separator (strip s).
Proof.
  intros H. destruct (strip_spec s) as (q & Hq & Hp & _). eapply no_separator_prefix; [|done]. by eapply no_separator_suffix.
Qed.

Lemma pieces_id s : no_separator s → pieces 0 s = [s].
Proof. induction s as [|c s IH]; [done|]. intros [Hw Hs]. cbn [pieces]. by rewrite Hw, (IH Hs). Qed.

Lemma pieces_prefix s : ∃ p ps, pieces 0 s = p :: ps ∧ p `prefix_of` s.
Proof.
  induction s as [|c s IH]; [by exists [], []|]. cbn [pieces]. destruct (word_at _ _).
  - eexists [], _. split; [done|]. apply prefix_nil.
  - destruct IH as (p & ps & -> & Hp). exists (c :: p), ps. split; [done|]. by apply prefix_cons.
Qed.

Lemma pieces_no_separator s : ∀ k, Forall no_separator (pieces k s).
Proof.
  induction s as [|c s IH]; intros k; [by repeat constructor|]. cbn [pieces]. destruct k; [|done].
  destruct (word_at separators (c :: s)) eqn:E; [by constructor|].
  destruct (pieces_prefix s) as (p & ps & Hp & Hpre). specialize (IH 0). rewrite Hp in IH |- *.
  apply Forall_cons in IH as [H1 H2]. constructor; [|done]. split; [|done].
  eapply word_at_prefix; [exact E|]. by apply prefix_cons.
Qed.

(** A text that is written as it is: not empty, without separators, and
    without white space at its ends. *)
Definition plain_bytes (s : list ascii) : Prop := s ≠ [] ∧ no_separator s ∧ strip s = s.

Lemma split_plain s : plain_bytes s → split_bytes s = [s].
Proof.
  intros (Hne & Hs & Hst). unfold split_bytes. rewrite Hst, (pieces_id s Hs). cbn [fmap list_fmap].
  rewrite Hst, js_filter_cons. by rewrite bool_decide_false.
Qed.

Lemma split_all_plain s : Forall plain_bytes (split_bytes s).
Proof.
  apply Forall_forall. intros p [Hne (q & -> & Hq)%list_elem_of_fmap]%elem_of_js_filter.
  apply negb_true_iff, bool_decide_eq_false in Hne. split; [done|]. split; [|apply strip_strip].
  apply no_separator_strip. by eapply (proj1 (Forall_forall _ _)) in Hq; [|apply pieces_no_separator].
Qed.

Definition plain_text (s : string) : Prop := plain_bytes (bytes_of s).

Lemma text_bytes s : text_of (bytes_of s) = s.
Proof. apply String.string_of_list_ascii_of_string. Qed.

Lemma bytes_text l : bytes_of (text_of l) = l.
Proof. apply String.list_ascii_of_string_of_list_ascii. Qed.

Lemma split_text_plain s : plain_text s → split_text s = [s].
Proof. intros H. unfold split_text. rewrite (split_plain _ H). simpl. by rewrite text_bytes. Qed.

Lemma split_text_all_plain s : Forall plain_text (split_text s).
Proof.
  unfold split_text. apply Forall_fmap. eapply Forall_impl; [apply split_all_plain|]. intros p Hp. unfold compose, plain_text.
  by rewrite bytes_text.
Qed.

#[export] Instance no_separator_dec s : Decision (no_separator s).
Proof. induction s; simpl; apply _. Defined.

#[export] Instance plain_text_dec s : Decision (plain_text s).
Proof. unfold plain_text, plain_bytes. apply _. Defined.

(** The example of the source, and a value with a separator between blanks. *)
Example split_names : split_text "Guan Yu、Sun Quan，Zhang Liao; x |, y " = ["Guan Yu"; "Sun Quan"; "Zhang Liao"; "x"; "y"].
Proof. by vm_compute. Qed.

Example not_split : split_text " , " = [] ∧ split_text "a" = ["a"].
Proof. by vm_compute. Qed.
