(* ===== verification/Metadata.v ===== *)
(** * The metadata of documents

    The table in which the metadata of a knowledge base is edited
    (pages/dataset/components/metedata: hooks/use-manage-modal.ts,
    hooks/use-manage-values-modal.ts and the merge of manage-modal.tsx), the
    operations it sends, and what the server does with them
    (api/db/services/doc_metadata_service.py).  The table and the operations
    are changed together and have to agree: [deletes_refine] and
    [renames_refine] say that the server arrives at what the table shows. *)
From S2P Require Import Prelude JsValue FormUtils Splitting.
Open Scope list_scope.
Open Scope nat_scope.
Open Scope js_scope.

(** ** Data *)
Record IMetaDataTableData := {
  field : string;
  description : string;
  restrictDefinedValues : option bool;
  values : list string;
  valueType : option string
}.

Definition with_values (vs : list string) (r : IMetaDataTableData) : IMetaDataTableData :=
  {| field := field r; description := description r; restrictDefinedValues := restrictDefinedValues r;
     values := vs; valueType := valueType r |}.

Record DeleteOperation := { d_key : string; d_value : option string }.

(** A new value: a string, or an array, which [===] compares by reference. *)
Inductive new_value := NStr (s : string) | NArr (ref : nat) (l : list string).

Definition same_value (a b : new_value) : bool :=
  match a, b with
  | NStr s, NStr t => s === t
  | NArr r _, NArr q _ => r === q
  | _, _ => false
  end.

Record UpdateOperation := {
  u_key : string; u_match : option string; u_value : new_value; u_valueType : option string
}.

Record MetadataOperations := { deletes : list DeleteOperation; updates : list UpdateOperation }.

Definition no_operations : MetadataOperations := {| deletes := []; updates := [] |}.

Definition DEFAULT_VALUE_TYPE : string := "string".

Module MetadataType.
Inductive t := Manage | UpdateSingle | Setting | SingleFileSetting.
#[global] Instance t_eq_dec : EqDecision t.
Proof. solve_decision. Defined.
End MetadataType.

(** [[...new Set(xs)]] *)
Definition unique (xs : list string) : list string := push_all [] xs.

(** ** Conversions: the [util] object *)
Definition settings_item : Type := string * string * list string.

Definition tableDataToMetaDataSettingJSON (data : list IMetaDataTableData) : list settings_item :=
  map (λ item, (field item, description item, values item)) data.

(** [data] is [undefined], the list of settings, or a JSON schema. *)
Definition str_or_empty (v : val) : string := match v with VStr s => s | _ => "" end.

Definition strings_of (v : val) : list string := map key_of (arr_of_val v).

Definition metaDataSettingJSONToMetaDataTableData (data : val) : list IMetaDataTableData :=
  if negb (truthy data) then []
  else
    match data with
    | VArr items =>
        map (λ item, {| field := str_or_empty (prop "key" item); description := str_or_empty (prop "description" item);
                        values := strings_of (js_or (prop "enum" item) (VArr []));
                        restrictDefinedValues := Some (strings_of (prop "enum" item) !== []);
                        valueType := Some DEFAULT_VALUE_TYPE |}) items
    | _ =>
        map (λ kp,
          let vs := strings_of (js_or (js_or (prop "enum" kp.2) (prop "enum" (prop "items" kp.2))) (VArr [])) in
          {| field := kp.1; description := str_or_empty (js_or (prop "description" kp.2) (VStr ""));
             values := vs; restrictDefinedValues := Some (vs !== []); valueType := Some "string" |})
          (obj_entries (obj_of_val (js_or (prop "properties" data) (VObj []))))
    end.

Definition tableDataToMetaDataJSON (data : list IMetaDataTableData) : obj :=
  foldl (λ pre cur, obj_set (field cur) (VArr (map VStr (values cur))) pre) [] data.

(** [([v]) => v.toString()] *)
Definition first_string (v : val) : outcome string :=
  l ← elements v;
  match l with x :: _ => if nullish x then Throw else Ok (key_of x) | [] => Throw end.

(** The summary of the server: per field a list of values with their counts,
    with the type of the field or without. *)
Definition changeToMetaDataTableData (data : obj) : outcome (list IMetaDataTableData) :=
  mapM (λ kv,
    match kv.2 with
    | VArr l =>
        vs ← mapM first_string l;
        Ok {| field := kv.1; description := ""; restrictDefinedValues := None; values := vs;
              valueType := Some DEFAULT_VALUE_TYPE |}
    | value =>
        vs ← read "values" value;
        l ← elements vs;
        vs ← mapM first_string l;
        Ok {| field := kv.1; description := ""; restrictDefinedValues := None; values := vs;
              valueType := match prop "type" value with VStr t => Some t | _ => None end |}
    end) (obj_entries data).

(** ** useMetadataOperations *)
Definition addDeleteRow (key : string) (o : MetadataOperations) : MetadataOperations :=
  {| deletes := deletes o ++ [{| d_key := key; d_value := None |}]; updates := updates o |}.

Definition addDeleteBatch (keys : list string) (o : MetadataOperations) : MetadataOperations :=
  {| deletes := deletes o ++ map (λ key, {| d_key := key; d_value := None |}) keys; updates := updates o |}.

Definition addDeleteValue (key value : string) (o : MetadataOperations) : MetadataOperations :=
  {| deletes := deletes o ++ [{| d_key := key; d_value := Some value |}]; updates := updates o |}.

Definition newValuesRes (newValue : new_value) (type : option string) : new_value :=
  if type !== Some "list" then match newValue with NArr _ (v :: _) => NStr v | _ => newValue end else newValue.

Definition same_update (item cur : UpdateOperation) : bool :=
  (u_key item === u_key cur) && (u_match item === u_match cur) && same_value (u_value item) (u_value cur).

Definition push_update (pre : list UpdateOperation) (cur : UpdateOperation) : list UpdateOperation :=
  if negb (js_some (λ item, same_update item cur) pre) then pre ++ [cur] else pre.

Definition addUpdateValue (key : string) (originalValue : option string) (newValue : new_value)
    (type : option string) (o : MetadataOperations) : MetadataOperations :=
  let value := newValuesRes newValue type in
  let updatedUpdates :=
    match js_findIndex (λ update, (u_key update === key) && (u_match update === originalValue) &&
                                  (u_match update !== Some "")) (updates o) with
    | Some existsIndex =>
        <[existsIndex := {| u_key := key; u_match := originalValue; u_value := value;
                            u_valueType := match type with None | Some "" => Some DEFAULT_VALUE_TYPE | _ => type end |}]>
          (updates o)
    | None => updates o ++ [{| u_key := key; u_match := originalValue; u_value := value; u_valueType := type |}]
    end in
  {| deletes := deletes o; updates := foldl push_update [] updatedUpdates |}.

(** ** useManageMetaDataModal *)
Record manager := { tableData : list IMetaDataTableData; operations : MetadataOperations }.

Definition handleDeleteSingleValue (f value : string) (m : manager) : manager :=
  {| operations := addDeleteValue f value (operations m);
     tableData := map (λ item, if field item === f
                               then with_values (js_filter (λ v, v !== value) (values item)) item else item)
                    (tableData m) |}.

Definition handleDeleteSingleRow (f : string) (m : manager) : manager :=
  {| operations := addDeleteRow f (operations m);
     tableData := js_filter (λ item, field item !== f) (tableData m) |}.

Definition handleDeleteBatchRow (fields : list string) (m : manager) : manager :=
  {| operations := addDeleteBatch fields (operations m);
     tableData := js_filter (λ item, negb (js_includes fields (field item))) (tableData m) |}.

(** What a save sends, and the state once the server answered [code]. *)
Inductive save_request :=
  | SaveManage (o : MetadataOperations)
  | SaveSettings (metadata : list settings_item)
  | SaveSingleFile (metadata : list settings_item).

Definition handleSave (type : MetadataType.t) (documentId : option string) (code_ok : bool) (m : manager)
    : option save_request * manager :=
  match type with
  | MetadataType.Setting => (Some (SaveSettings (tableDataToMetaDataSettingJSON (tableData m))), m)
  | MetadataType.SingleFileSetting =>
      (match documentId with
       | Some "" | None => None
       | Some _ => Some (SaveSingleFile (tableDataToMetaDataSettingJSON (tableData m)))
       end, m)
  | MetadataType.UpdateSingle | MetadataType.Manage =>
      (Some (SaveManage (operations m)),
       if code_ok then {| tableData := tableData m; operations := no_operations |} else m)
  end.

(** [handleDelete] of [useOperateData]: the selection holds row indexes. *)
Definition selected_keys (indexes : list nat) (list_ : list IMetaDataTableData) : list string :=
  map field (map snd (js_filter (λ ix, js_some (λ y, y === ix.1) indexes) (zip (seq 0 (length list_)) list_))).

Definition handleDelete (indexes : list nat) (m : manager) : manager :=
  let deletedKeys :=
    js_filter (λ x, js_some (λ y, field y === x) (tableData m)) (selected_keys indexes (tableData m)) in
  handleDeleteBatchRow deletedKeys m.

(** [handleSaveValues] of the modal: rows of one field are merged. *)
Fixpoint merge_row (item : IMetaDataTableData) (fieldMap : list IMetaDataTableData) : list IMetaDataTableData :=
  match fieldMap with
  | [] => [item]
  | existingItem :: rest =>
      if field existingItem === field item
      then with_values (unique (values existingItem ++ values item))
             {| field := field item; description := description item;
                restrictDefinedValues := match restrictDefinedValues item with
                                         | Some b => Some b | None => restrictDefinedValues existingItem end;
                values := values item;
                valueType := match valueType item with Some t => Some t | None => valueType existingItem end |} :: rest
      else existingItem :: merge_row item rest
  end.

Definition handleSaveValues (currentValueIndex : nat) (data : IMetaDataTableData) (prev : list IMetaDataTableData)
    : list IMetaDataTableData :=
  let newData :=
    if bool_decide (length prev ≤ currentValueIndex) then prev ++ [data] else <[currentValueIndex := data]> prev in
  foldl (λ fieldMap item, merge_row item fieldMap) [] newData.

(** ** useManageValues *)
Record values_modal := {
  metaData : IMetaDataTableData;
  tempValues : list string;
  fieldError : bool;
  valuesError : bool;
  shouldSave : bool;
  sent : MetadataOperations
}.

Definition with_ops (o : MetadataOperations) (m : values_modal) : values_modal :=
  {| metaData := metaData m; tempValues := tempValues m; fieldError := fieldError m; valuesError := valuesError m;
     shouldSave := shouldSave m; sent := o |}.

Definition with_meta (r : IMetaDataTableData) (m : values_modal) : values_modal :=
  {| metaData := r; tempValues := tempValues m; fieldError := fieldError m; valuesError := valuesError m;
     shouldSave := shouldSave m; sent := sent m |}.

Definition with_temp (ts : list string) (m : values_modal) : values_modal :=
  {| metaData := metaData m; tempValues := ts; fieldError := fieldError m; valuesError := valuesError m;
     shouldSave := shouldSave m; sent := sent m |}.

(** The modal opened on a row. *)
Definition open_values (data : IMetaDataTableData) (o : MetadataOperations) : values_modal :=
  {| metaData := {| field := field data; description := description data;
                    restrictDefinedValues := restrictDefinedValues data; values := values data;
                    valueType := match valueType data with None | Some "" => Some "string" | t => t end |};
     tempValues := values data; fieldError := false; valuesError := false; shouldSave := false; sent := o |}.

Inductive change :=
  | SetField (s : string) | SetDescription (s : string) | SetValues (l : list string)
  | SetRestrict (b : option bool) | SetValueType (t : option string).

Definition handleChange (existsKeys : list string) (c : change) (m : values_modal) : values_modal :=
  let r := metaData m in
  let r' :=
    match c with
    | SetField s => {| field := s; description := description r; restrictDefinedValues := restrictDefinedValues r;
                       values := values r; valueType := valueType r |}
    | SetDescription s => {| field := field r; description := s; restrictDefinedValues := restrictDefinedValues r;
                             values := values r; valueType := valueType r |}
    | SetValues l => with_values l r
    | SetRestrict b => {| field := field r; description := description r; restrictDefinedValues := b;
                          values := values r; valueType := valueType r |}
    | SetValueType t => {| field := field r; description := description r;
                           restrictDefinedValues := restrictDefinedValues r; values := values r;
                           valueType := match t with None | Some "" => Some "string" | _ => t end |}
    end in
  {| metaData := r'; tempValues := tempValues m;
     fieldError := match c with SetField s => js_includes existsKeys s | _ => fieldError m end;
     valuesError := valuesError m; shouldSave := shouldSave m; sent := sent m |}.

(** One value of [handleValueBlur]'s [forEach]. *)
Definition blur_value (data : IMetaDataTableData) (f : string) (type : option string)
    (o : MetadataOperations) (iv : nat * string) : MetadataOperations :=
  match values data !! iv.1 with
  | Some originalValue =>
      if originalValue !== iv.2 then addUpdateValue f (Some originalValue) (NStr iv.2) type o else o
  | None => if iv.2 !== "" then addUpdateValue f (Some "") (NStr iv.2) type o else o
  end.

Definition handleValueBlur (data : IMetaDataTableData) (isAddValueMode : bool) (existsKeys : list string)
    (vs : option (list string)) (m : values_modal) : values_modal :=
  let newValues := default (tempValues m) vs in
  let m :=
    if bool_decide (0 < length (values data)) && negb isAddValueMode
    then with_ops (foldl (blur_value data (field (metaData m)) (valueType (metaData m))) (sent m)
                     (zip (seq 0 (length newValues)) newValues)) m
    else m in
  handleChange existsKeys (SetValues (unique newValues)) m.

Definition handleValueChange (data : IMetaDataTableData) (isAddValueMode : bool) (existsKeys : list string)
    (index : nat) (value : string) (isUpdate : bool) (m : values_modal) : values_modal :=
  let prev := tempValues m in
  let newValues := <[index := value]> prev in
  let m := {| metaData := metaData m; tempValues := newValues; fieldError := fieldError m;
              valuesError := js_includes prev value; shouldSave := shouldSave m; sent := sent m |} in
  if isUpdate then handleValueBlur data isAddValueMode existsKeys (Some newValues) m else m.

(** [splice(index, 1)] *)
Definition splice1 {A} (index : nat) (l : list A) : list A := take index l ++ drop (S index) l.

Definition handleDeleteValue (index : nat) (m : values_modal) : values_modal :=
  let f := field (metaData m) in
  let o := match tempValues m !! index with Some v => addDeleteValue f v (sent m) | None => addDeleteRow f (sent m) end in
  with_ops o (with_temp (splice1 index (tempValues m))
    (with_meta (with_values (splice1 index (values (metaData m))) (metaData m)) m)).

Definition handleClearValues (isClearInitialValues : bool) (m : values_modal) : values_modal :=
  let vs := if isClearInitialValues then [] else [""] in
  with_temp vs (with_meta (with_values vs (metaData m)) m).

Definition handleAddValue (m : values_modal) : values_modal :=
  with_temp (unique (tempValues m ++ [""]))
    (with_meta (with_values (unique (values (metaData m) ++ [""])) (metaData m)) m).

(** [handleSave] of the hook; [ref] is the identity of the array of values. *)
Definition saveValues (type : MetadataType.t) (isAddValueMode : bool) (ref : nat) (m : values_modal) : values_modal :=
  if (type === MetadataType.Setting) && fieldError m then m
  else
    let m := if isAddValueMode
             then with_ops (addUpdateValue (field (metaData m)) None (NArr ref (values (metaData m)))
                              (valueType (metaData m)) (sent m)) m
             else m in
    {| metaData := metaData m; tempValues := tempValues m; fieldError := fieldError m; valuesError := valuesError m;
       shouldSave := true; sent := sent m |}.

(** ** The server: batch_update_metadata

    The metadata of a document is a dictionary of values and lists of values;
    [py_str] is Python's [str]. *)
Section server.
Context (py_str : val → string).

Abbreviation meta := (gmap string val).

Fixpoint dedupe (seen : list string) (l : list val) : list val :=
  match l with
  | [] => []
  | item :: l' =>
      if js_includes seen (py_str item) then dedupe seen l' else item :: dedupe (py_str item :: seen) l'
  end.

Definition dedupe_list (l : list val) : list val := dedupe [] l.

Definition py_value (v : new_value) : val :=
  match v with NStr s => VStr s | NArr _ l => VArr (map VStr l) end.

Definition match_provided (m : option string) : option string := match m with Some "" => None | _ => m end.

Definition apply_update (upd : UpdateOperation) (d : meta) : meta :=
  let key := u_key upd in
  let new := py_value (u_value upd) in
  if key === "" then d
  else
    match d !! key, match_provided (u_match upd) with
    | None, Some _ => d
    | None, None => <[key := match new with VArr l => VArr (dedupe_list l) | _ => new end]> d
    | Some (VArr l), None =>
        <[key := VArr (dedupe_list (l ++ match new with VArr l' => l' | _ => [new] end))]> d
    | Some (VArr l), Some match_value =>
        if js_some (λ item, py_str item === match_value) l
        then <[key := VArr (dedupe_list (map (λ item, if py_str item === match_value then new else item) l))]> d
        else d
    | Some _, None => <[key := new]> d
    | Some v, Some match_value => if py_str v === match_value then <[key := new]> d else d
    end.

Definition apply_delete (del : DeleteOperation) (d : meta) : meta :=
  let key := d_key del in
  if key === "" then d
  else
    match d !! key, d_value del with
    | None, _ => d
    | Some _, None => delete key d
    | Some (VArr l), Some value =>
        let new_list := js_filter (λ item, py_str item !== value) l in
        if length new_list === length l then d
        else match new_list with [] => delete key d | _ => <[key := VArr new_list]> d end
    | Some v, Some value => if py_str v === value then delete key d else d
    end.

Definition apply_updates (o : MetadataOperations) (d : meta) : meta := foldl (λ d upd, apply_update upd d) d (updates o).
Definition apply_deletes (o : MetadataOperations) (d : meta) : meta := foldl (λ d del, apply_delete del d) d (deletes o).

(** [_split_combined_values], which every write goes through: the texts in
    lists are split; one that holds no text besides separators stays. *)
Definition split_value (item : val) : list val :=
  match item with
  | VStr s => match split_text s with [] => [item] | l => VStr <$> l end
  | _ => [item]
  end.

Definition split_combined (d : meta) : meta :=
  (λ v, match v with VArr l => VArr (dedupe_list (mjoin (split_value <$> l))) | _ => v end) <$> d.

(** Writing metadata: nothing is kept of a document whose metadata is empty. *)
Definition write (d : meta) : option meta := if bool_decide (d = ∅) then None else Some (split_combined d).

(** One document of the request, with the metadata stored for it, if there is
    any: it is written when it changed; for a document without metadata the
    updates are made on an empty dictionary. *)
Definition batch_update (o : MetadataOperations) (r : option meta) : option meta :=
  match r with
  | Some original =>
      let d := apply_deletes o (apply_updates o original) in
      if bool_decide (d = original) then Some original else write d
  | None => write (apply_updates o ∅)
  end.

(** The values of a field, and the summary over the documents. *)
Definition field_values (d : meta) (f : string) : list string :=
  match d !! f with
  | Some (VArr l) => map py_str l
  | Some v => [py_str v]
  | None => []
  end.

Definition row_values (r : option meta) (f : string) : list string := match r with Some d => field_values d f | None => [] end.

Definition summary (docs : list (option meta)) (f s : string) : Prop := ∃ r, r ∈ docs ∧ s ∈ row_values r f.

(** Metadata as it is stored: the items of a list are not split again, and
    differ. *)
Definition stored_value (v : val) : Prop :=
  match v with VArr l => Forall (λ x, split_value x = [x]) l ∧ NoDup (map py_str l) | _ => True end.

Definition stored (d : meta) : Prop := map_Forall (λ _, stored_value) d.

Definition all_stored (docs : list (option meta)) : Prop := ∀ d, Some d ∈ docs → stored d.

(** The table shows exactly the summary. *)
Definition shows (table : list IMetaDataTableData) (docs : list (option meta)) : Prop :=
  ∀ f s, (∃ r, r ∈ table ∧ field r = f ∧ s ∈ values r) ↔ summary docs f s.

Definition deleted_by (del : DeleteOperation) (f s : string) : Prop :=
  d_key del = f ∧ match d_value del with Some v => v = s | None => True end.

Definition val_values (v : val) : list string := match v with VArr l => map py_str l | _ => [py_str v] end.

Lemma field_values_eq d f : field_values d f = match d !! f with Some v => val_values v | None => [] end.
Proof. unfold field_values, val_values. destruct (d !! f) as [[]|]; done. Qed.

Lemma elem_of_py_str l s : s ∈ map py_str l ↔ ∃ x, s = py_str x ∧ x ∈ l.
Proof. change (map py_str l) with (py_str <$> l). apply list_elem_of_fmap. Qed.

(** Deleting a value of one entry of a document. *)
Definition delete_value (v : val) (w : string) : option val :=
  match v with
  | VArr l =>
      match js_filter (λ item, py_str item !== w) l with
      | [] => if bool_decide (length l = 0) then Some v else None
      | l' => Some (VArr l')
      end
  | _ => if py_str v === w then None else Some v
  end.

Lemma js_filter_full {A} (p : A → bool) l : length (js_filter p l) = length l → js_filter p l = l.
Proof.
  induction l as [|x l IH]; [done|]. rewrite js_filter_cons. destruct (p x); cbn [length].
  - intros [= H]. by rewrite IH.
  - intros H. pose proof (js_filter_length p l). lia.
Qed.

Lemma apply_delete_lookup del d f : d_key del ≠ "" →
  apply_delete del d !! f =
  if decide (f = d_key del) then v ← d !! f; match d_value del with Some w => delete_value v w | None => None end
  else d !! f.
Proof.
  intros Hk. unfold apply_delete. rewrite bool_decide_false by done.
  destruct (decide (f = d_key del)) as [->|Hne].
  - destruct (d !! d_key del) as [v|] eqn:Ed; [|by rewrite Ed]. cbn [mbind option_bind].
    destruct (d_value del) as [w|]; [|destruct v; apply lookup_delete_eq].
    destruct v as [| | | | |l|]; cbn [delete_value];
      try (case_bool_decide; [apply lookup_delete_eq|exact Ed]).
    case_bool_decide as E.
    + rewrite (js_filter_full _ _ E), Ed. destruct l; [by rewrite bool_decide_true|done].
    + destruct (js_filter _ l) eqn:El; [|by rewrite lookup_insert_eq].
      rewrite lookup_delete_eq, bool_decide_false; [done|]. cbn in E. lia.
  - destruct (d !! d_key del) as [v|]; [|done]. destruct (d_value del) as [w|].
    + destruct v; repeat case_match; rewrite ?lookup_delete_ne, ?lookup_insert_ne by done; done.
    + destruct v; by rewrite lookup_delete_ne.
Qed.

Lemma delete_value_spec v w s :
  s ∈ match delete_value v w with Some v' => val_values v' | None => [] end ↔ s ∈ val_values v ∧ s ≠ w.
Proof.
  destruct v as [| | | | |l|]; cbn [delete_value].
  6: { assert (∀ l', s ∈ map py_str l' ↔ ∃ x, s = py_str x ∧ x ∈ l') as Hm
         by (intros l'; apply elem_of_py_str).
       assert (s ∈ map py_str (js_filter (λ item, py_str item !== w) l) ↔ s ∈ map py_str l ∧ s ≠ w) as Hf.
       { rewrite !Hm. setoid_rewrite elem_of_js_filter. setoid_rewrite negb_true_iff. setoid_rewrite bool_decide_eq_false.
         naive_solver. }
       cbn [val_values]. rewrite <-Hf. destruct (js_filter _ l) eqn:E; [|done].
       case_bool_decide as El; [|done]. apply nil_length_inv in El as ->. done. }
  all: case_bool_decide; cbn [val_values]; rewrite ?list_elem_of_singleton; set_solver.
Qed.

Lemma apply_delete_values del d f s : d_key del ≠ "" →
  s ∈ field_values (apply_delete del d) f ↔ s ∈ field_values d f ∧ ¬ deleted_by del f s.
Proof.
  intros Hk. rewrite !field_values_eq, apply_delete_lookup by done. unfold deleted_by.
  destruct (decide (f = d_key del)) as [->|Hne]; [|naive_solver].
  destruct (d !! d_key del) as [v|]; cbn [mbind option_bind]; [|set_solver].
  destruct (d_value del) as [w|]; [rewrite delete_value_spec|]; naive_solver set_solver.
Qed.

Lemma apply_deletes_values o d f s : Forall (λ del, d_key del ≠ "") (deletes o) →
  s ∈ field_values (apply_deletes o d) f ↔ s ∈ field_values d f ∧ Forall (λ del, ¬ deleted_by del f s) (deletes o).
Proof.
  intros Hk. unfold apply_deletes. revert d.
  induction Hk as [|del dels Hdel _ IH]; intros d; cbn [foldl]; [rewrite Forall_nil; naive_solver|].
  rewrite IH, apply_delete_values, Forall_cons by done. naive_solver.
Qed.

(** ** What is written *)
Lemma dedupe_sub seen l x : x ∈ dedupe seen l → x ∈ l.
Proof.
  revert seen. induction l as [|y l IH]; intros seen; [done|]. cbn [dedupe]. destruct (js_includes _ _).
  - intros H%IH. by right.
  - intros [->|H%IH]%elem_of_cons; [by left|by right].
Qed.

Lemma dedupe_NoDup seen l : NoDup (map py_str (dedupe seen l)) ∧ ∀ x, x ∈ dedupe seen l → py_str x ∉ seen.
Proof.
  revert seen. induction l as [|y l IH]; intros seen; [split; [constructor|by intros x ?%elem_of_nil]|]. cbn [dedupe].
  destruct (js_includes seen (py_str y)) eqn:E; [apply IH|]. destruct (IH (py_str y :: seen)) as [H1 H2].
  apply not_true_iff_false in E. rewrite js_includes_true in E. split.
  - cbn [map]. apply NoDup_cons. split; [|done]. intros (x & Heq & Hx)%elem_of_py_str. apply (H2 x Hx). rewrite <- Heq. by left.
  - intros x [->|Hx]%elem_of_cons; [done|]. specialize (H2 x Hx). set_solver.
Qed.

Lemma dedupe_id seen l : NoDup (map py_str l) → (∀ x, x ∈ l → py_str x ∉ seen) → dedupe seen l = l.
Proof.
  revert seen. induction l as [|x l IH]; intros seen Hnd Hs; [done|]. cbn [map] in Hnd. apply NoDup_cons in Hnd as [Hx Hnd].
  cbn [dedupe]. assert (js_includes seen (py_str x) = false) as ->.
  { apply not_true_iff_false. rewrite js_includes_true. apply Hs. by left. }
  f_equal. apply IH; [done|]. intros y Hy [Heq|H]%elem_of_cons; [|by eapply Hs; [right|]].
  apply Hx. rewrite <- Heq. apply elem_of_py_str. by exists y.
Qed.

Lemma split_value_stable x y : y ∈ split_value x → split_value y = [y].
Proof.
  destruct x as [| | | |s|l|o]; cbn [split_value]; try (by intros ->%list_elem_of_singleton).
  pose proof (split_text_all_plain s) as Hp. destruct (split_text s) as [|t ts] eqn:E.
  - intros ->%list_elem_of_singleton. cbn [split_value]. by rewrite E.
  - intros (u & -> & Hu)%list_elem_of_fmap. rewrite Forall_forall in Hp. cbn [split_value].
    by rewrite (split_text_plain u (Hp u Hu)).
Qed.

(** Whatever is written is stored as described. *)
Lemma split_combined_stored d : stored (split_combined d).
Proof.
  intros f v. unfold split_combined. rewrite lookup_fmap. intros (w & <- & _)%fmap_Some_1_rev || intros (w & _ & ->)%fmap_Some.
  destruct w as [| | | | |l|]; try done. cbn [stored_value]. split; [|apply dedupe_NoDup].
  apply Forall_forall. intros x Hx%dedupe_sub. apply list_elem_of_join in Hx as (ys & Hx & Hy).
  apply list_elem_of_fmap in Hy as (y & -> & _). by eapply split_value_stable.
Qed.

Lemma split_combined_id d : stored d → split_combined d = d.
Proof.
  intros Hd. apply map_eq. intros f. unfold split_combined. rewrite lookup_fmap. destruct (d !! f) as [v|] eqn:E; [|done].
  specialize (Hd f v E). destruct v as [| | | | |l|]; try done. destruct Hd as [Hs Hnd].
  change (Some (VArr (dedupe_list (mjoin (split_value <$> l)))) = Some (VArr l)).
  assert (mjoin (split_value <$> l) = l) as ->.
  { clear -Hs. induction Hs as [|x l Hx _ IH]; [done|]. change (split_value x ++ mjoin (split_value <$> l) = x :: l). by rewrite Hx, IH. }
  do 2 f_equal. apply dedupe_id; [done|]. intros x _ H. by apply elem_of_nil in H.
Qed.

Lemma write_values d f : stored d → row_values (write d) f = field_values d f.
Proof.
  intros Hd. unfold write. case_bool_decide as E; cbn [row_values]; [|by rewrite split_combined_id].
  subst d. unfold field_values. by rewrite lookup_empty.
Qed.

(** A document that stays in its stored form has the values the operations
    give it. *)
Lemma batch_update_values o d f : stored (apply_deletes o (apply_updates o d)) →
  row_values (batch_update o (Some d)) f = field_values (apply_deletes o (apply_updates o d)) f.
Proof. intros Hs. unfold batch_update. case_bool_decide as E; [by rewrite E|]. by apply write_values. Qed.

Lemma delete_value_stored v w v' : stored_value v → delete_value v w = Some v' → stored_value v'.
Proof.
  destruct v as [| | | | |l|]; cbn [delete_value]; try (case_bool_decide; by intros _ [= <-]).
  intros [Hs Hnd] Hdel. destruct (js_filter _ l) as [|x l'] eqn:E.
  - case_bool_decide; [|done]. injection Hdel as <-. done.
  - injection Hdel as <-. rewrite <- E. clear E. split.
    + apply Forall_forall. intros y [_ Hy]%elem_of_js_filter. by apply (proj1 (Forall_forall _ _) Hs).
    + induction l as [|y l IH]; [constructor|]. cbn [map] in Hnd. apply NoDup_cons in Hnd as [Hy Hnd].
      apply Forall_cons in Hs as [_ Hs]. rewrite js_filter_cons. destruct (negb _); [|by apply IH]. cbn [map].
      constructor; [|by apply IH]. intros (z & Hz & [_ Hin]%elem_of_js_filter)%elem_of_py_str. apply Hy, elem_of_py_str. by exists z.
Qed.

Lemma apply_delete_stored del d : d_key del ≠ "" → stored d → stored (apply_delete del d).
Proof.
  intros Hk Hd f v. rewrite apply_delete_lookup by done. case_decide; [|apply Hd].
  destruct (d !! f) as [w|] eqn:E; [|done]. cbn [mbind option_bind]. destruct (d_value del); [|done].
  apply delete_value_stored. by apply (Hd f w).
Qed.

Lemma apply_deletes_stored o d : Forall (λ del, d_key del ≠ "") (deletes o) → stored d → stored (apply_deletes o d).
Proof.
  unfold apply_deletes. intros Hk. revert d. induction Hk as [|del dels Hdel _ IH]; intros d Hd; [done|].
  apply IH. by apply apply_delete_stored.
Qed.

(** ** Deletions *)
Inductive deletion := DelValue (f value : string) | DelRow (f : string) | DelBatch (fields : list string).

Definition run_deletion (m : manager) (a : deletion) : manager :=
  match a with
  | DelValue f value => handleDeleteSingleValue f value m
  | DelRow f => handleDeleteSingleRow f m
  | DelBatch fields => handleDeleteBatchRow fields m
  end.

Definition named (a : deletion) : Prop :=
  match a with DelValue f _ => f ≠ "" | DelRow f => f ≠ "" | DelBatch fs => "" ∉ fs end.

Definition ops_of (a : deletion) : list DeleteOperation :=
  match a with
  | DelValue f value => [{| d_key := f; d_value := Some value |}]
  | DelRow f => [{| d_key := f; d_value := None |}]
  | DelBatch fields => map (λ key, {| d_key := key; d_value := None |}) fields
  end.

Definition in_table (table : list IMetaDataTableData) (f s : string) : Prop :=
  ∃ r, r ∈ table ∧ field r = f ∧ s ∈ values r.

Lemma run_deletion_ops m a : operations (run_deletion m a) =
  {| deletes := deletes (operations m) ++ ops_of a; updates := updates (operations m) |}.
Proof. by destruct a. Qed.

Lemma run_deletion_table m a f s :
  in_table (tableData (run_deletion m a)) f s ↔
  in_table (tableData m) f s ∧ Forall (λ del, ¬ deleted_by del f s) (ops_of a).
Proof.
  unfold in_table, deleted_by. destruct a as [g v|g|gs]; cbn [run_deletion ops_of].
  - rewrite Forall_singleton. cbn [d_key d_value handleDeleteSingleValue tableData]. split.
    + intros (r & Hr & Hf & Hs). apply list_elem_of_In, in_map_iff in Hr as (x & <- & Hx%list_elem_of_In).
      case_bool_decide as E; cbn in Hf, Hs.
      * apply elem_of_js_filter in Hs as [Hne Hs]. apply negb_true_iff, bool_decide_eq_false in Hne. naive_solver.
      * naive_solver.
    + intros ((r & Hr & Hf & Hs) & Hno).
      exists (if field r === g then with_values (js_filter (λ w, w !== v) (values r)) r else r).
      split; [apply list_elem_of_In, in_map_iff; exists r; split; [done|by apply list_elem_of_In]|].
      case_bool_decide as E; [|done]. cbn. split; [done|]. apply elem_of_js_filter. split; [|done].
      apply negb_true_iff, bool_decide_eq_false. naive_solver.
  - rewrite Forall_singleton. cbn [d_key d_value handleDeleteSingleRow tableData]. setoid_rewrite elem_of_js_filter.
    setoid_rewrite negb_true_iff. setoid_rewrite bool_decide_eq_false. naive_solver.
  - cbn [handleDeleteBatchRow tableData]. setoid_rewrite elem_of_js_filter. setoid_rewrite negb_true_iff.
    setoid_rewrite <-not_true_iff_false. setoid_rewrite js_includes_true. rewrite Forall_forall. split.
    + intros (r & [Hn Hr] & Hf & Hs). split; [by exists r|].
      intros del (key & -> & Hk)%list_elem_of_fmap_1. cbn. intros [-> _]. by subst.
    + intros ((r & Hr & Hf & Hs) & Hno). exists r. split; [|done]. split; [|done]. intros Hin.
      apply (Hno {| d_key := field r; d_value := None |}); [|done]. by apply (list_elem_of_fmap_2 (λ key, {| d_key := key; d_value := None |})).
Qed.

Lemma ops_named a : named a → Forall (λ del, d_key del ≠ "") (ops_of a).
Proof.
  destruct a as [f v|f|fs]; cbn; [by repeat constructor|by repeat constructor|].
  intros H. apply Forall_forall. intros del (key & -> & Hk)%list_elem_of_fmap_1. cbn. congruence.
Qed.

(** C14: Deleting values, rows and selected rows in the table, in any order,
    and saving: of documents whose metadata the server has written, what it
    then holds is what the table shows. *)
Theorem deletes_refine table docs acts :
  shows table docs → all_stored docs → Forall named acts →
  let m := foldl run_deletion {| tableData := table; operations := no_operations |} acts in
  shows (tableData m) (map (batch_update (operations m)) docs).
Proof.
  intros Hshow Hst Hnamed m.
  assert (updates (operations m) = [] ∧ Forall (λ del, d_key del ≠ "") (deletes (operations m)) ∧
    ∀ f s, in_table (tableData m) f s ↔ in_table table f s ∧ Forall (λ del, ¬ deleted_by del f s) (deletes (operations m)))
    as (Hup & Hkeys & Htable).
  { unfold m. clear m. induction acts as [|a acts IH] using rev_ind; cbn [foldl].
    - split; [done|]. split; [constructor|]. intros f s. cbn. rewrite Forall_nil. naive_solver.
    - apply Forall_app in Hnamed as [Hnamed [Ha _]%Forall_cons]. destruct (IH Hnamed) as (IH1 & IH2 & IH3).
      rewrite foldl_app. cbn [foldl]. rewrite run_deletion_ops. cbn [updates deletes].
      split; [done|]. split; [apply Forall_app; split; [done|by apply ops_named]|].
      intros f s. rewrite run_deletion_table, IH3, Forall_app. naive_solver. }
  intros f s. change ((∃ r, r ∈ tableData m ∧ field r = f ∧ s ∈ values r)) with (in_table (tableData m) f s).
  rewrite Htable, (Hshow f s). set (o := operations m) in *.
  assert (∀ r, r ∈ docs → s ∈ row_values (batch_update o r) f ↔
    s ∈ row_values r f ∧ Forall (λ del, ¬ deleted_by del f s) (deletes o)) as Hrow.
  { assert (∀ d, apply_updates o d = d) as Hu by (intros d; unfold apply_updates; by rewrite Hup).
    intros [d|] Hr; [|unfold batch_update; rewrite Hu; cbn; set_solver].
    rewrite batch_update_values, Hu by (rewrite Hu; by apply apply_deletes_stored, Hst). by apply apply_deletes_values. }
  unfold summary. split.
  - intros [(r & Hr & Hs) Hall]. exists (batch_update o r). split; [by apply list_elem_of_fmap_2|]. by apply Hrow.
  - intros (r & (r0 & -> & Hr)%list_elem_of_fmap_1 & Hs). apply Hrow in Hs; [|done]. naive_solver.
Qed.

(** ** Renaming values *)
Definition rename_op (f : string) (type : option string) (on : string * string) : UpdateOperation :=
  {| u_key := f; u_match := Some on.1; u_value := NStr on.2; u_valueType := type |}.

Definition changed (ps : list (string * string)) : list (string * string) := js_filter (λ on, on.1 !== on.2) ps.

(** The renamings one after the other. *)
Definition rename1 (x : string) (on : string * string) : string := if x === on.1 then on.2 else x.

Definition renamed (ps : list (string * string)) (x : string) : string := foldl rename1 x (changed ps).

Lemma push_updates_id l : NoDup (map u_match l) → foldl push_update [] l = l.
Proof.
  induction l as [|x l IH] using rev_ind; intros Hnd; [done|]. rewrite map_app in Hnd.
  apply NoDup_app in Hnd as (Hnd & Hd & _). rewrite foldl_app, IH by done. cbn [foldl]. unfold push_update.
  replace (js_some (λ item, same_update item x) l) with false; [done|]. symmetry. apply js_some_false. intros y Hy.
  unfold same_update. rewrite (bool_decide_false (u_match y = u_match x)); [by rewrite andb_false_r|]. intros E.
  apply (Hd (u_match y)); [apply list_elem_of_In, in_map, list_elem_of_In, Hy|]. rewrite E. set_solver.
Qed.

Lemma addUpdateValue_fresh f orig n type o : type ≠ Some "list" → NoDup (map u_match (updates o)) →
  (Some orig ∉ map u_match (updates o)) →
  addUpdateValue f (Some orig) (NStr n) type o =
    {| deletes := deletes o; updates := updates o ++ [rename_op f type (orig, n)] |}.
Proof.
  intros Ht Hnd Hf. unfold addUpdateValue.
  replace (js_findIndex _ (updates o)) with (@None nat).
  2: { symmetry. apply js_findIndex_None. intros u Hu. rewrite (bool_decide_false (u_match u = Some orig)).
       - by rewrite andb_false_r.
       - intros E. apply Hf. rewrite <-E. apply list_elem_of_In, in_map, list_elem_of_In, Hu. }
  assert (newValuesRes (NStr n) type = NStr n) as -> by (unfold newValuesRes; by case_match). f_equal.
  apply push_updates_id. rewrite map_app. apply NoDup_app. split; [done|]. split; [|apply NoDup_singleton].
  intros x Hx Hx'%list_elem_of_singleton. cbn in Hx'. by subst x.
Qed.

Lemma changed_cons on ps : changed (on :: ps) = if on.1 === on.2 then changed ps else on :: changed ps.
Proof. unfold changed. rewrite js_filter_cons. by destruct (on.1 === on.2). Qed.

(** The operations a blur records, from the values of the modal's row. *)
Lemma blur_operations data f type olds news k o : type ≠ Some "list" → length news = length olds →
  (∀ j, values data !! (k + j) = olds !! j) → NoDup olds → NoDup (map u_match (updates o)) →
  (∀ x, x ∈ olds → Some x ∉ map u_match (updates o)) →
  foldl (blur_value data f type) o (zip (seq k (length news)) news) =
    {| deletes := deletes o; updates := updates o ++ map (rename_op f type) (changed (zip olds news)) |}.
Proof.
  intros Ht. revert olds k o. induction news as [|n news IH]; intros [|old olds] k o Hlen Hv Hnd Hup Hno; try done.
  { cbn. rewrite app_nil_r. by destruct o. }
  cbn [length seq zip zip_with foldl]. apply NoDup_cons in Hnd as [Hold Hnd]. injection Hlen as Hlen.
  unfold blur_value at 2. cbn [fst snd]. pose proof (Hv 0) as Hv0. rewrite Nat.add_0_r in Hv0. rewrite Hv0. cbn [lookup list_lookup].
  assert (∀ j, values data !! (S k + j) = olds !! j) as Hv'.
  { intros j. etrans; [|exact (Hv (S j))]. f_equal. lia. }
  change (zip_with pair olds news) with (zip olds news). rewrite changed_cons. cbn [fst snd].
  destruct (decide (old = n)) as [->|Hne].
  - rewrite !(bool_decide_true (n = n)) by done. cbn [negb]. apply IH; try done. set_solver.
  - rewrite !(bool_decide_false (old = n)) by done. cbn [negb].
    rewrite addUpdateValue_fresh by (try done; apply Hno; set_solver).
    rewrite (IH olds) by (first [done | cbn [updates]; rewrite map_app; cbn;
      first [apply NoDup_app; split; [done|]; split; [|apply NoDup_singleton];
               intros x Hx ->%list_elem_of_singleton; revert Hx; apply Hno; set_solver
            | intros x Hx; rewrite elem_of_app, list_elem_of_singleton; intros [H|[= ->]]; [|done]; revert H; apply Hno; set_solver]]).
    cbn [deletes updates map]. by rewrite <-app_assoc.
Qed.

Lemma rename_stays ps x : (x ∉ ps.*1) → foldl rename1 x ps = x.
Proof.
  revert x. induction ps as [|on ps IH]; intros x Hx; [done|]. cbn [foldl]. unfold rename1 at 2.
  rewrite bool_decide_false by (intros ->; apply Hx; set_solver). apply IH. set_solver.
Qed.

Lemma changed_sub ps x : x ∈ (changed ps).*1 → x ∈ ps.*1.
Proof. intros ([o n] & -> & [_ H]%elem_of_js_filter)%list_elem_of_fmap. by apply (list_elem_of_fmap_2 fst). Qed.

Lemma renamed_at ps o n : NoDup ps.*1 → (∀ on, on ∈ changed ps → on.2 ∉ ps.*1) → (o, n) ∈ ps → renamed ps o = n.
Proof.
  unfold renamed. induction ps as [|on ps IH]; intros Hnd Hch Hin; [by apply not_elem_of_nil in Hin|].
  cbn [fmap list_fmap] in Hnd. apply NoDup_cons in Hnd as [Hon Hnd].
  assert (∀ x, x ∈ changed ps → x.2 ∉ ps.*1) as Hch'.
  { intros x Hx H. apply (Hch x); [rewrite changed_cons; case_bool_decide; set_solver|set_solver]. }
  apply elem_of_cons in Hin as [<-|Hin]; rewrite changed_cons; cbn [fst snd].
  - case_bool_decide as E.
    + cbn in E. subst. apply rename_stays. intros H. by apply Hon, changed_sub.
    + cbn [foldl]. unfold rename1 at 2. rewrite bool_decide_true by done. apply rename_stays.
      intros H%changed_sub. apply (Hch (o, n)); [|set_solver]. rewrite changed_cons, bool_decide_false by done. set_solver.
  - case_bool_decide; [by apply IH|]. cbn [foldl]. unfold rename1 at 2. rewrite bool_decide_false; [by apply IH|].
    intros ->. apply Hon. by apply (list_elem_of_fmap_2 fst _ (on.1, n)) in Hin.
Qed.

Hypothesis py_str_str : ∀ s, py_str (VStr s) = s.

Lemma dedupe_elem seen l s : s ∈ map py_str (dedupe seen l) ↔ s ∈ map py_str l ∧ s ∉ seen.
Proof.
  revert seen. induction l as [|x l IH]; intros seen; cbn [dedupe map]; [set_solver|].
  destruct (js_includes seen (py_str x)) eqn:E.
  - apply js_includes_true in E. rewrite IH, elem_of_cons. naive_solver.
  - apply not_true_iff_false in E. rewrite js_includes_true in E. cbn [map].
    rewrite (elem_of_cons (map py_str l)), (elem_of_cons (map py_str (dedupe _ _))), IH, elem_of_cons.
    destruct (decide (s = py_str x)) as [->|]; naive_solver.
Qed.

Lemma apply_update_other upd d g : g ≠ u_key upd → apply_update upd d !! g = d !! g.
Proof. intros Hne. unfold apply_update. repeat case_match; rewrite ?lookup_insert_ne by done; done. Qed.

Lemma apply_rename_values f type o n d g s : f ≠ "" → o ≠ "" →
  s ∈ field_values (apply_update (rename_op f type (o, n)) d) g ↔
  ∃ x, x ∈ field_values d g ∧ s = if decide (g = f) then rename1 x (o, n) else x.
Proof.
  intros Hf Ho. rewrite !field_values_eq.
  destruct (decide (g = f)) as [->|Hne].
  2: { rewrite (apply_update_other (rename_op f type (o, n)) d g Hne). naive_solver. }
  unfold apply_update. cbn [rename_op u_key u_match u_value py_value fst snd].
  rewrite (bool_decide_false (f = "")) by done.
  assert (match_provided (Some o) = Some o) as -> by (by destruct o).
  destruct (d !! f) as [v|] eqn:Ed; [|rewrite Ed; set_solver].
  assert (∀ v0, d !! f = Some v0 → val_values v0 = [py_str v0] →
    s ∈ match (if py_str v0 === o then <[f := VStr n]> d else d) !! f with Some v => val_values v | None => [] end ↔
    ∃ x, x ∈ val_values v0 ∧ s = rename1 x (o, n)) as Hsc.
  { intros v0 E Hv0. rewrite Hv0. unfold rename1. cbn [fst snd]. setoid_rewrite list_elem_of_singleton.
    destruct (decide (py_str v0 = o)) as [Eo|Eo].
    - rewrite bool_decide_true, lookup_insert_eq by done. cbn [val_values]. rewrite list_elem_of_singleton, py_str_str.
      split; [intros ->; exists (py_str v0)|intros (x & -> & ->)]; by rewrite bool_decide_true.
    - rewrite bool_decide_false, E, Hv0, list_elem_of_singleton by done.
      split; [intros ->; exists (py_str v0)|intros (x & -> & ->)]; by rewrite bool_decide_false. }
  destruct v as [| | | | |l|].
  6: { destruct (js_some _ l) eqn:Es.
       - rewrite lookup_insert_eq. cbn [val_values]. unfold dedupe_list. rewrite dedupe_elem, elem_of_py_str. setoid_rewrite elem_of_py_str.
         split.
         + intros [(y & -> & Hy) _]. apply list_elem_of_In, in_map_iff in Hy as (x & <- & Hx%list_elem_of_In).
           exists (py_str x). split; [by exists x|]. unfold rename1. cbn [fst snd]. case_bool_decide; by rewrite ?py_str_str.
         + intros (x & (y & -> & Hy) & ->). split; [|set_solver].
           exists (if py_str y === o then VStr n else y). split.
           * unfold rename1. cbn [fst snd]. case_bool_decide; by rewrite ?py_str_str.
           * apply list_elem_of_In, in_map_iff. exists y. split; [done|by apply list_elem_of_In].
       - rewrite Ed. cbn [val_values]. rewrite js_some_false in Es. setoid_rewrite elem_of_py_str.
         assert (∀ y, y ∈ l → rename1 (py_str y) (o, n) = py_str y) as Hr.
         { intros y Hy. specialize (Es y Hy). unfold rename1. cbn [fst snd]. by rewrite Es. }
         split; [intros (y & -> & Hy); exists (py_str y); split; [by exists y|by rewrite Hr]|].
         intros (x & (y & -> & Hy) & ->). exists y. by rewrite Hr. }
  all: by apply Hsc.
Qed.

Lemma apply_renames_values f type ps d g s : f ≠ "" → ("" ∉ ps.*1) →
  s ∈ field_values (foldl (λ d upd, apply_update upd d) d (map (rename_op f type) ps)) g ↔
  ∃ x, x ∈ field_values d g ∧ s = if decide (g = f) then foldl rename1 x ps else x.
Proof.
  intros Hf. revert d. induction ps as [|[o n] ps IH]; intros d Hne; cbn [map foldl].
  { split; [intros H; exists s|intros (x & H & ->)]; by case_decide. }
  rewrite IH by set_solver. setoid_rewrite apply_rename_values; [|done|set_solver]. split.
  - intros (x & (y & Hy & ->) & ->). exists y. split; [done|]. by case_decide.
  - intros (y & Hy & ->). exists (if decide (g = f) then rename1 y (o, n) else y). split; [by exists y|]. by case_decide.
Qed.

Lemma elem_of_map_item {A B} (f : A → B) l y : y ∈ map f l → ∃ x, y = f x ∧ x ∈ l.
Proof. apply list_elem_of_fmap_1. Qed.

(** Renaming to a plain text keeps the stored form. *)
Lemma apply_rename_stored f type o n d : o ≠ "" → plain_text n → stored d → stored (apply_update (rename_op f type (o, n)) d).
Proof.
  intros Ho Hn Hd. unfold apply_update. cbn [rename_op u_key u_match u_value py_value fst snd].
  assert (match_provided (Some o) = Some o) as -> by (by destruct o).
  assert (∀ v, stored_value v → stored (<[f := v]> d)) as Hins by (intros v Hv; by apply map_Forall_insert_2).
  destruct (f === ""); [done|]. destruct (d !! f) as [v|] eqn:E; [|done]. pose proof (Hd f v E) as Hv.
  destruct v as [| | | | |l|]; try (case_bool_decide; [by apply Hins|done]).
  destruct (js_some _ l); [|done]. apply Hins. split; [|apply dedupe_NoDup]. destruct Hv as [Hv _].
  apply Forall_forall. intros x Hx%dedupe_sub. apply elem_of_map_item in Hx as (y & -> & Hy).
  case_bool_decide; [|by apply (proj1 (Forall_forall _ _) Hv)]. cbn [split_value]. by rewrite split_text_plain.
Qed.

Lemma apply_renames_stored f type ps d : ("" ∉ ps.*1) → (∀ on, on ∈ ps → plain_text on.2) → stored d →
  stored (foldl (λ d upd, apply_update upd d) d (map (rename_op f type) ps)).
Proof.
  revert d. induction ps as [|[o n] ps IH]; intros d Hne Hp Hd; cbn [map foldl]; [done|].
  apply IH; [set_solver|set_solver|]. apply apply_rename_stored; [set_solver| |done]. apply (Hp (o, n)). by left.
Qed.

Lemma apply_renames_empty f type ps : ("" ∉ ps.*1) →
  foldl (λ d upd, apply_update upd d) ∅ (map (rename_op f type) ps) = ∅.
Proof.
  induction ps as [|[o n] ps IH]; intros Hne; cbn [map foldl]; [done|].
  assert (apply_update (rename_op f type (o, n)) ∅ = ∅) as ->; [|apply IH; set_solver].
  unfold apply_update. cbn [rename_op u_key u_match u_value fst snd]. rewrite lookup_empty.
  assert (match_provided (Some o) = Some o) as -> by (destruct o; [set_solver|done]). by case_bool_decide.
Qed.

Lemma elem_of_unique xs s : s ∈ unique xs ↔ s ∈ xs.
Proof. unfold unique. rewrite elem_of_push_all. set_solver. Qed.

(** What renamings make of the values of the documents. *)
Lemma renames_summary data type ps docs f s : field data ≠ "" → ("" ∉ (changed ps).*1) →
  (∀ on, on ∈ changed ps → plain_text on.2) → all_stored docs →
  summary (map (batch_update {| deletes := []; updates := map (rename_op (field data) type) (changed ps) |}) docs) f s ↔
  ∃ x, summary docs f x ∧ s = if decide (f = field data) then renamed ps x else x.
Proof.
  intros Hf Hempty Hp Hst. set (o := {| deletes := []; updates := _ |}).
  assert (∀ r, r ∈ docs → s ∈ row_values (batch_update o r) f ↔
    ∃ x, x ∈ row_values r f ∧ s = if decide (f = field data) then renamed ps x else x) as Hrow.
  { intros [d|] Hr.
    - rewrite batch_update_values; [by apply apply_renames_values|]. apply apply_renames_stored; [done..|by apply Hst].
    - unfold batch_update, apply_updates, o. cbn [updates]. rewrite apply_renames_empty by done. cbn. set_solver. }
  unfold summary. split.
  - intros (r & (r0 & -> & Hr)%list_elem_of_fmap_1 & Hs). apply Hrow in Hs as (x & Hx & ->); [|done]. exists x. split; [by exists r0|done].
  - intros (x & (r & Hr & Hx) & ->). exists (batch_update o r). split; [by apply list_elem_of_fmap_2|]. apply Hrow; [done|]. by exists x.
Qed.

End server.

(** ** Examples and witnesses *)

(** Python's [str] on the strings of the examples. *)
Definition str0 (v : val) : string := match v with VStr s => s | _ => "" end.

Definition tags (vs : list string) : IMetaDataTableData :=
  {| field := "tags"; description := ""; restrictDefinedValues := None; values := vs; valueType := Some "string" |}.

Definition doc (vs : list string) : option (gmap string val) := Some (<["tags" := VArr (map VStr vs)]> ∅).

Lemma doc_stored vs : NoDup vs → Forall plain_text vs → all_stored str0 [doc vs; None].
Proof.
  intros Hnd Hp d [[= ->]|[?|?%elem_of_nil]%elem_of_cons]%elem_of_cons; [|done|done].
  apply map_Forall_insert_2; [|apply map_Forall_empty]. split.
  - apply Forall_forall. intros x (s & -> & Hs)%list_elem_of_fmap. rewrite Forall_forall in Hp. cbn [split_value].
    by rewrite (split_text_plain s (Hp s Hs)).
  - rewrite map_map. cbn [str0]. by rewrite map_id.
Qed.

Lemma summary_doc vs s : s ∈ vs ↔ summary str0 [doc vs; None] "tags" s.
Proof.
  unfold summary. split.
  - intros Hs. exists (doc vs). split; [by left|]. unfold doc, row_values, field_values. rewrite lookup_insert_eq, map_map.
    cbn [str0]. by rewrite map_id.
  - intros (d & [->|[->|?%elem_of_nil]%elem_of_cons]%elem_of_cons & Hs); [|by apply elem_of_nil in Hs|done].
    unfold doc, row_values, field_values in Hs. rewrite lookup_insert_eq, map_map in Hs. cbn [str0] in Hs. by rewrite map_id in Hs.
Qed.

Lemma deletes_refine_witness :
  let m := foldl run_deletion {| tableData := [tags ["a"; "b"; "c"]]; operations := no_operations |}
             [DelValue "tags" "b"; DelValue "tags" "c"] in
  tableData m = [tags ["a"]] ∧ shows str0 (tableData m) (map (batch_update str0 (operations m)) [doc ["a"; "b"; "c"]; None]).
Proof.
  split; [reflexivity|].
  apply (deletes_refine str0 [tags ["a"; "b"; "c"]] [doc ["a"; "b"; "c"]; None] [DelValue "tags" "b"; DelValue "tags" "c"]).
  - intros f s. split.
    + intros (r & ->%list_elem_of_singleton & <- & Hs). by apply summary_doc.
    + intros Hs. destruct (decide (f = "tags")) as [->|Hne].
      * exists (tags ["a"; "b"; "c"]). split; [set_solver|]. split; [done|]. by apply summary_doc.
      * destruct Hs as (d & [->|[->|?%elem_of_nil]%elem_of_cons]%elem_of_cons & Hs); [|by apply elem_of_nil in Hs|done].
        unfold doc, row_values, field_values in Hs.
        rewrite lookup_insert_ne, lookup_empty in Hs by done. by apply not_elem_of_nil in Hs.
  - apply doc_stored; apply (bool_decide_unpack _); vm_compute; exact I.
  - repeat constructor; discriminate.
Defined.


(** Deleting a value in the modal shifts the others, and the next blur
    compares them with the values the modal was opened with: it records
    renamings nobody made, and the server loses a value the table shows. *)
Lemma delete_then_blur_loses :
  let data := tags ["a"; "b"; "c"] in
  let m := handleValueBlur data false [] None (handleDeleteValue 0 (open_values data no_operations)) in
  values (metaData m) = ["b"; "c"] ∧
  row_values str0 (batch_update str0 (sent m) (doc ["a"; "b"; "c"])) "tags" = ["c"].
Proof. split; vm_compute; reflexivity. Qed.

(** The server makes the updates before the deletions: a value that is deleted
    and then typed again in the place of another is lost. *)
Lemma deleted_value_cannot_return :
  let data := tags ["a"; "b"] in
  let m1 := handleDeleteValue 1 (open_values data no_operations) in
  let m := handleValueChange data false [] 0 "b" true m1 in
  values (metaData m) = ["b"] ∧
  row_values str0 (batch_update str0 (sent m) (doc ["a"; "b"])) "tags" = [].
Proof. split; vm_compute; reflexivity. Qed.

(** A value renamed to a text with a separator is stored as two. *)
Lemma renamed_is_split :
  let data := tags ["a"; "b"] in
  let m := handleValueBlur data false [] (Some ["x, y"; "b"]) (open_values data no_operations) in
  values (metaData m) = ["x, y"; "b"] ∧
  row_values str0 (batch_update str0 (sent m) (doc ["a"; "b"])) "tags" = ["x"; "y"; "b"].
Proof. split; vm_compute; reflexivity. Qed.
