(* ===== verification/Messages.v ===== *)
(** * The messages of a conversation

    The list [useSelectDerivedMessages] of hooks/logic-hooks.ts keeps, with
    the identifiers of utils/chat.ts.  A message is an object; [uuid] is the
    stream of the identifiers the uuid package draws, [k] the number drawn so
    far. *)
From S2P Require Import Prelude JsValue Libs FormUtils.
Open Scope list_scope.
Open Scope nat_scope.
Open Scope js_scope.

Module MessageType.
Definition Assistant : string := "assistant".
Definition User : string := "user".
End MessageType.

(** [xs.slice(0, -n)] *)
Definition drop_last {A} (n : nat) (l : list A) : list A := take (length l - n) l.

Definition has_id (i : val) (m : val) : bool := prop "id" m === i.

Section messages.
Context {L : Lodash} (uuid : nat → string).

(** ** Identifiers *)
Definition buildMessageUuid (k : nat) (message : obj) : val * nat :=
  if obj_has "id" message && truthy (obj_get "id" message)
  then (obj_get "id" message, k)
  else (VStr (uuid k), S k).

Definition buildMessageListWithUuid (k : nat) (messages : option (list val)) : list val * nat :=
  match messages with
  | None => ([], k)
  | Some ms =>
      foldl (λ acc m,
        let '(i, k') := buildMessageUuid acc.2 (obj_of_val m) in
        (acc.1 ++ [VObj (obj_set "id" i (obj_assign [] (lo_omit (obj_of_val m) ["reference"])))], k'))
        ([], k) ms
  end.

Definition buildMessageUuidWithRole (message : val) : string :=
  key_of (prop "role" message) +:+ "_" +:+ key_of (prop "id" message).

(** ** Questions *)
Definition addNewestQuestion (k : nat) (message : obj) (answer : val) (pre : list val) : list val * nat :=
  let '(i, k1) := buildMessageUuid k message in
  let '(j, k2) := buildMessageUuid k1 (obj_set "role" (VStr MessageType.Assistant) (obj_assign [] message)) in
  (pre ++
   [VObj (obj_set "id" i (obj_assign [] message));
    VObj [("role", VStr MessageType.Assistant); ("content", answer);
          ("conversationId", obj_get "conversationId" message); ("id", j)]], k2).

Definition addNewestOneQuestion (k : nat) (message : obj) (pre : list val) : list val * nat :=
  let '(i, k1) := buildMessageUuid k message in
  (pre ++ [VObj (obj_set "id" i (obj_assign [] message))], k1).

(** ** Answers *)
Definition answer_message (k : nat) (answer : obj) : val * nat :=
  let '(i, k1) := buildMessageUuid k [("id", obj_get "id" answer); ("role", VStr MessageType.Assistant)] in
  (VObj (obj_assign
     [("role", VStr MessageType.Assistant); ("content", obj_get "answer" answer);
      ("reference", obj_get "reference" answer); ("id", i); ("prompt", obj_get "prompt" answer);
      ("audio_binary", obj_get "audio_binary" answer)] (lo_omit answer ["reference"])), k1).

Definition addNewestAnswer (k : nat) (answer : obj) (pre : list val) : list val * nat :=
  let '(m, k1) := answer_message k answer in (drop_last 1 pre ++ [m], k1).

Definition update_answer (answer : obj) (m : val) : val :=
  VObj (obj_set "content" (obj_get "answer" answer) (obj_assign (obj_assign [] (obj_of_val m)) answer)).

Definition addNewestOneAnswer (k : nat) (answer : obj) (pre : list val) : list val * nat :=
  match js_findIndex (has_id (obj_get "id" answer)) pre with
  | Some _ => (map (λ m, if has_id (obj_get "id" answer) m then update_answer answer m else m) pre, k)
  | None => let '(m, k1) := answer_message k answer in (pre ++ [m], k1)
  end.

Definition addPrologue (k : nat) (prologue : val) (pre : list val) : list val * nat :=
  match pre with
  | m :: ms => (VObj (obj_set "content" prologue (obj_assign [] (obj_of_val m))) :: ms, k)
  | [] =>
      let '(i, k1) := buildMessageUuid k [("role", VStr MessageType.Assistant)] in
      ([VObj [("role", VStr MessageType.Assistant); ("content", prologue); ("id", i)]], k1)
  end.

(** ** Removal *)
Definition removeLatestMessage (pre : list val) : list val := drop_last 2 pre.

Definition removeMessageById (messageId : val) (pre : list val) : list val :=
  js_filter (λ m, negb (has_id messageId m)) pre.

Definition clear_answer (m : val) : val :=
  VObj (obj_set "prompt" VUndef (obj_set "reference" VUndef (obj_set "content" (VStr "")
    (obj_assign [] (obj_of_val m))))).

Definition removeMessagesAfterCurrentMessage (messageId : val) (pre : list val) : list val :=
  match js_findIndex (has_id messageId) pre with
  | Some index =>
      let nextMessages := take (index + 2) pre in
      match last nextMessages with
      | Some latestMessage => drop_last 1 nextMessages ++ [clear_answer latestMessage]
      | None => nextMessages
      end
  | None => pre
  end.

Definition removeAllMessages (pre : list val) : list val := [].

Definition removeAllMessagesExceptFirst (pre : list val) : list val :=
  if bool_decide (length pre ≤ 1) then pre else take 1 pre.

(** [regenerateMessage]: what is removed, and what is sent again. *)
Definition regenerateMessage (k : nat) (message : obj) (messages pre : list val)
    : list val * option (val * option (list val)) * nat :=
  if truthy (obj_get "id" message) then
    let pre' := removeMessagesAfterCurrentMessage (obj_get "id" message) pre in
    let nextMessages :=
      match js_findIndex (has_id (obj_get "id" message)) messages with
      | Some index => Some (take index messages)
      | None => None
      end in
    (pre', Some (VObj (obj_set "id" (VStr (uuid k)) (obj_assign [] message)), nextMessages), S k)
  else (pre, None, k).
End messages.

(** [value.replaceAll('\\n', '\n').replaceAll('\\t', '\t')] of
    [useHandleMessageInputChange]: a backslash and a letter become the
    character. *)
Fixpoint replace_escape (letter : Ascii.ascii) (c : Ascii.ascii) (s : string) : string :=
  match s with
  | EmptyString => EmptyString
  | String a s' =>
      match s' with
      | String b rest =>
          if (a === Ascii.ascii_of_nat 92) && (b === letter) then String c (replace_escape letter c rest)
          else String a (replace_escape letter c s')
      | EmptyString => s
      end
  end.

Definition handleInputChange (value : string) : string :=
  replace_escape (Ascii.ascii_of_nat 116) (Ascii.ascii_of_nat 9)
    (replace_escape (Ascii.ascii_of_nat 110) (Ascii.ascii_of_nat 10) value).

(** ** Properties *)
Section message_props.
Context {L : Lodash} {LL : LodashLaws L} (uuid : nat → string).

Lemma buildMessageUuid_id k m i : obj_get "id" m = i → truthy i = true → buildMessageUuid uuid k m = (i, k).
Proof.
  intros Hi Ht. unfold buildMessageUuid, obj_has. rewrite Hi, Ht. unfold obj_get in Hi.
  destruct (obj_lookup "id" m) as [v|]; [by rewrite andb_true_r|]. simpl in Hi. by subst i.
Qed.

Lemma id_of_set i o : prop "id" (VObj (obj_set "id" i o)) = i.
Proof. apply obj_get_set_eq. Qed.

Lemma obj_get_assign k base ext : obj_wf ext →
  obj_get k (obj_assign base ext) = match obj_lookup k ext with Some v => v | None => obj_get k base end.
Proof. intros Hw. unfold obj_get. rewrite obj_assign_lookup by done. by destruct (obj_lookup k ext). Qed.

(** An answer carries the identifier it came with, whatever it is. *)
Lemma answer_message_id k answer : obj_wf answer → truthy (obj_get "id" answer) = true →
  prop "id" (answer_message uuid k answer).1 = obj_get "id" answer ∧ (answer_message uuid k answer).2 = k.
Proof.
  intros Hw Ht. unfold answer_message. rewrite (buildMessageUuid_id _ _ (obj_get "id" answer)) by done.
  split; [|done]. cbn [fst prop]. rewrite obj_get_assign by by apply omit_wf.
  rewrite omit_lookup, decide_False by set_solver. destruct (obj_lookup "id" answer) as [v|] eqn:E; [|done].
  unfold obj_get. by rewrite E.
Qed.

(** A turn: the question and its empty answer, then the chunks of the answer. *)
Definition turn (k : nat) (message : obj) (answers : list obj) (pre : list val) : list val * nat :=
  foldl (λ acc a, addNewestAnswer uuid acc.2 a acc.1) (addNewestQuestion uuid k message (VStr "") pre) answers.

Lemma drop_last_app {A} (l1 l2 : list A) n : length l2 = n → drop_last n (l1 ++ l2) = l1.
Proof.
  intros <-. unfold drop_last. rewrite length_app.
  replace (length l1 + length l2 - length l2) with (length l1) by lia. by rewrite take_app_length.
Qed.

Lemma turn_shape k message answers pre i :
  obj_wf message → obj_get "id" message = i → truthy i = true →
  Forall (λ a, obj_wf a ∧ obj_get "id" a = i) answers →
  ∃ a, turn k message answers pre = (pre ++ [VObj (obj_set "id" i (obj_assign [] message)); a], k) ∧
    prop "id" a = i ∧ (∀ a0, last answers = Some a0 → a = (answer_message uuid k a0).1).
Proof.
  intros Hw Hi Ht Hall. unfold turn.
  assert (addNewestQuestion uuid k message (VStr "") pre = (pre ++
    [VObj (obj_set "id" i (obj_assign [] message));
     VObj [("role", VStr MessageType.Assistant); ("content", VStr "");
       ("conversationId", obj_get "conversationId" message); ("id", i)]], k)) as ->.
  { unfold addNewestQuestion. rewrite (buildMessageUuid_id _ _ i) by done.
    rewrite (buildMessageUuid_id _ _ i); [done| |done].
    rewrite obj_get_set_ne by done. by rewrite obj_get_assign_nil. }
  set (q := VObj (obj_set "id" i (obj_assign [] message))). set (a0 := VObj (_ :: _)).
  induction answers as [|a answers IH] using rev_ind; [by exists a0|].
  apply Forall_app in Hall as [Hall [[Hwa Hia] _]%Forall_cons].
  rewrite foldl_app. destruct (IH Hall) as (a' & Hf & _ & _). rewrite Hf. cbn [foldl fst snd].
  unfold addNewestAnswer. destruct (answer_message uuid k a) as [m k1] eqn:Em.
  pose proof (answer_message_id k a Hwa ltac:(by rewrite Hia)) as [Hm Hk]. rewrite Em in Hm, Hk. cbn in Hm, Hk. subst k1.
  exists m. rewrite (app_assoc pre [q] [a'] : pre ++ [q; a'] = _), drop_last_app by done.
  rewrite <-(app_assoc pre). split; [done|]. split; [by rewrite Hm|].
  intros b. rewrite last_snoc. intros [= <-]. by rewrite Em.
Qed.
Lemma js_findIndex_app {A} (p : A → bool) l x rest :
  (∀ y, y ∈ l → p y = false) → p x = true → js_findIndex p (l ++ x :: rest) = Some (length l).
Proof.
  intros Hl Hx. induction l as [|y l IH]; cbn [app js_findIndex length]; [by rewrite Hx|].
  rewrite Hl by set_solver. rewrite IH by set_solver. done.
Qed.

Lemma fresh_ids i (pre : list val) : Forall (λ m, prop "id" m ≠ i) pre → ∀ y, y ∈ pre → has_id i y = false.
Proof. intros H y Hy. rewrite Forall_forall in H. apply bool_decide_eq_false, H, Hy. Qed.

(** Cutting after the first message with an identifier: everything before it,
    the message, and the next message emptied; the message itself is emptied
    when it is the last one. *)
Lemma cut_after i pre q rest : Forall (λ m, prop "id" m ≠ i) pre → prop "id" q = i →
  removeMessagesAfterCurrentMessage i (pre ++ q :: rest) =
  match rest with [] => pre ++ [clear_answer q] | a :: _ => pre ++ [q; clear_answer a] end.
Proof.
  intros Hf Hq. unfold removeMessagesAfterCurrentMessage.
  rewrite js_findIndex_app by (try apply (fresh_ids i); try done; by apply bool_decide_eq_true).
  destruct rest as [|a rest].
  - rewrite take_ge by (rewrite length_app; simpl; lia). by rewrite last_snoc, drop_last_app.
  - rewrite take_app_add.
    change (take 2 (q :: a :: rest)) with ([q] ++ [a]). rewrite app_assoc, last_snoc, drop_last_app by done.
    by rewrite <-app_assoc.
Qed.

(** C40: a turn of the conversation, a question followed by the chunks of its
    answer, all under the identifier of the question, adds exactly two
    messages, the last of which is the last chunk; removing the pair by its
    identifier, as well as removing the latest messages, restores the
    conversation as it was; regenerating the question keeps the history and
    the question, sends what preceded it, and the new answer replaces the
    old one. *)
Theorem conversation_turn k message answers pre i :
  obj_wf message → obj_get "id" message = i → truthy i = true →
  Forall (λ a, obj_wf a ∧ obj_get "id" a = i) answers →
  Forall (λ m, prop "id" m ≠ i) pre →
  ∃ q a, turn k message answers pre = (pre ++ [q; a], k) ∧
    (∀ key, key ≠ "id" → prop key q = obj_get key message) ∧
    (∀ a0, last answers = Some a0 → a = (answer_message uuid k a0).1) ∧
    removeMessageById i (pre ++ [q; a]) = pre ∧
    removeLatestMessage (pre ++ [q; a]) = pre ∧
    let '(l, sent, k') := regenerateMessage uuid k message (pre ++ [q; a]) (pre ++ [q; a]) in
    sent = Some (VObj (obj_set "id" (VStr (uuid k)) (obj_assign [] message)), Some pre) ∧ k' = S k ∧
    ∀ a1, addNewestAnswer uuid k' a1 l =
      (pre ++ [q; (answer_message uuid k' a1).1], (answer_message uuid k' a1).2).
Proof.
  intros Hw Hi Ht Hall Hf.
  destruct (turn_shape k message answers pre i Hw Hi Ht Hall) as (a & Hturn & Ha & Hlast).
  exists (VObj (obj_set "id" i (obj_assign [] message))), a. split; [done|].
  assert (∀ q, prop "id" q = i → js_filter (λ m, negb (has_id i m)) [q; a] = []) as Hrm.
  { intros q Hq. unfold has_id. rewrite !js_filter_cons, Hq, Ha. by rewrite bool_decide_true. }
  split; [|split; [done|split; [|split]]].
  - intros key Hkey. cbn [prop]. rewrite obj_get_set_ne by done. by rewrite obj_get_assign_nil.
  - unfold removeMessageById. rewrite js_filter_app, Hrm, app_nil_r by apply id_of_set.
    apply js_filter_all. intros m Hm. by rewrite (fresh_ids i pre).
  - by apply drop_last_app.
  - unfold regenerateMessage. rewrite Hi, Ht. rewrite cut_after by (done || apply id_of_set).
    rewrite js_findIndex_app by (try apply (fresh_ids i); try done; apply bool_decide_eq_true, id_of_set).
    rewrite take_app_length. split; [done|]. split; [done|]. intros a1. unfold addNewestAnswer.
    destruct (answer_message uuid (S k) a1) as [m k1]. cbn [fst snd].
    set (q := VObj _). rewrite (app_assoc pre [q] [_] : pre ++ [q; _] = _), drop_last_app by done.
    by rewrite <-app_assoc.
Qed.
(** ** Upserting the answers of a run *)
Definition answers_added (k : nat) (answers : list obj) (pre : list val) : list val * nat :=
  foldl (λ acc a, addNewestOneAnswer uuid acc.2 a acc.1) (pre, k) answers.

(** An answer as the server's events build it: identified, and without a
    [content] of its own. *)
Definition plain_answer (a : obj) : Prop :=
  obj_wf a ∧ truthy (obj_get "id" a) = true ∧ obj_lookup "content" a = None.

Lemma update_answer_spec a m : plain_answer a →
  prop "id" (update_answer a m) = obj_get "id" a ∧ prop "content" (update_answer a m) = obj_get "answer" a.
Proof.
  intros (Hw & Ht & _). unfold update_answer. cbn [prop]. rewrite obj_get_set_eq. split; [|done].
  rewrite obj_get_set_ne, obj_get_assign by done. unfold obj_get in *. by destruct (obj_lookup "id" a).
Qed.

Lemma answer_message_spec k a : plain_answer a →
  prop "id" (answer_message uuid k a).1 = obj_get "id" a ∧
  prop "content" (answer_message uuid k a).1 = obj_get "answer" a ∧ (answer_message uuid k a).2 = k.
Proof.
  intros (Hw & Ht & Hc). destruct (answer_message_id k a Hw Ht) as [Hi Hk]. split; [done|]. split; [|done].
  unfold answer_message. rewrite (buildMessageUuid_id _ _ (obj_get "id" a)) by done. cbn [fst prop].
  rewrite obj_get_assign by by apply omit_wf.
  rewrite omit_lookup, decide_False by set_solver. by rewrite Hc.
Qed.

Lemma has_id_true i m : has_id i m = true ↔ prop "id" m = i.
Proof. apply bool_decide_eq_true. Qed.

(** One answer: its message is the only one that changes, or is added last. *)
Lemma addNewestOneAnswer_spec k a l : plain_answer a →
  ∃ l', addNewestOneAnswer uuid k a l = (l', k) ∧
    map (prop "id") l' = push_new (map (prop "id") l) (obj_get "id" a) ∧
    ∀ m, m ∈ l' → (prop "id" m = obj_get "id" a ∧ prop "content" m = obj_get "answer" a) ∨
      (prop "id" m ≠ obj_get "id" a ∧ m ∈ l).
Proof.
  intros Ha. unfold addNewestOneAnswer. destruct (js_findIndex _ l) as [j|] eqn:E.
  - exists (map (λ m, if has_id (obj_get "id" a) m then update_answer a m else m) l). split; [done|]. split.
    + apply js_findIndex_Some in E as [(x & Hx & Hp%has_id_true) _].
      rewrite push_new_eq, decide_True
        by (rewrite <-Hp; apply list_elem_of_In, in_map, list_elem_of_In; by eapply list_elem_of_lookup_2).
      rewrite map_map. apply map_ext. intros m. destruct (has_id _ m) eqn:Em; [|done].
      rewrite (proj1 (update_answer_spec a m Ha)). symmetry. by apply has_id_true.
    + intros m Hm. apply list_elem_of_In, in_map_iff in Hm as (x & <- & Hx). apply list_elem_of_In in Hx.
      destruct (has_id _ x) eqn:Em; [left; by apply update_answer_spec|right].
      split; [|done]. intros H%has_id_true. congruence.
  - rewrite js_findIndex_None in E. destruct (answer_message uuid k a) as [m k1] eqn:Em.
    pose proof (answer_message_spec k a Ha) as (Hi & Hc & Hk). rewrite Em in Hi, Hc, Hk. cbn in Hi, Hc, Hk. subst k1.
    exists (l ++ [m]). split; [done|]. split.
    + rewrite push_new_eq, decide_False, map_app; [by rewrite <-Hi|].
      intros Hin. apply list_elem_of_In, in_map_iff in Hin as (x & Hx & Hin). apply list_elem_of_In in Hin.
      apply E in Hin. apply has_id_true in Hx. congruence.
    + intros x [Hx|Hx%list_elem_of_singleton]%elem_of_app; [right|left; by subst].
      split; [|done]. intros H%has_id_true. rewrite E in H; done.
Qed.

(** streaming the answers of a run into the conversation keeps one
    message per identifier, in the order in which the identifiers first
    appear; each message shows the last answer received under its identifier,
    and the messages that received none are untouched. *)
Theorem streamed_answers k answers pre :
  Forall plain_answer answers → NoDup (map (prop "id") pre) →
  ∃ l, answers_added k answers pre = (l, k) ∧
    map (prop "id") l = push_all (map (prop "id") pre) (map (obj_get "id") answers) ∧
    NoDup (map (prop "id") l) ∧
    ∀ m, m ∈ l →
      match js_find (λ a, obj_get "id" a === prop "id" m) (rev answers) with
      | Some a => prop "content" m = obj_get "answer" a
      | None => m ∈ pre
      end.
Proof.
  intros Hall Hnd. unfold answers_added.
  assert (∃ l, foldl (λ acc a, addNewestOneAnswer uuid acc.2 a acc.1) (pre, k) answers = (l, k) ∧
    map (prop "id") l = push_all (map (prop "id") pre) (map (obj_get "id") answers) ∧
    ∀ m, m ∈ l → match js_find (λ a, obj_get "id" a === prop "id" m) (rev answers) with
      | Some a => prop "content" m = obj_get "answer" a | None => m ∈ pre end) as (l & Hl & Hids & Hc).
  - induction answers as [|a answers IH] using rev_ind; [by exists pre|].
    apply Forall_app in Hall as [Hall [Ha _]%Forall_cons]. destruct (IH Hall) as (l & Hl & Hids & Hc).
    rewrite foldl_app, Hl. cbn [foldl fst snd].
    destruct (addNewestOneAnswer_spec k a l Ha) as (l' & Hl' & Hids' & Hc'). exists l'. split; [done|].
    split; [by rewrite Hids', Hids, map_app, push_all_app|].
    intros m Hm. rewrite rev_unit. unfold js_find. cbn [List.find].
    destruct (Hc' m Hm) as [[Hi Hcm]|[Hi Hml]]; [by rewrite bool_decide_true|].
    rewrite bool_decide_false by congruence. by apply Hc.
  - exists l. split; [done|]. split; [done|]. split; [|done]. rewrite Hids. by apply NoDup_push_all.
Qed.
End message_props.

(** ** Witnesses *)
Definition uuid0 (k : nat) : string := "u" +:+ pretty k.

Definition question0 : obj := [("id", VStr "q1"); ("role", VStr "user"); ("content", VStr "hi")].

Definition answer0 (i s : string) : obj := [("id", VStr i); ("answer", VStr s)].

Lemma conversation_turn_witness :
  ∃ q a, turn uuid0 3 question0 [answer0 "q1" "He"; answer0 "q1" "Hello"]
           [VObj [("id", VStr "p"); ("content", VStr "welcome")]] =
         ([VObj [("id", VStr "p"); ("content", VStr "welcome")]; q; a], 3).
Proof.
  destruct (conversation_turn uuid0 3 question0 [answer0 "q1" "He"; answer0 "q1" "Hello"]
    [VObj [("id", VStr "p"); ("content", VStr "welcome")]] (VStr "q1")) as (q & a & H & _).
  - apply (bool_decide_unpack _); vm_compute; exact I.
  - reflexivity.
  - reflexivity.
  - repeat constructor; apply (bool_decide_unpack _); vm_compute; exact I.
  - repeat constructor; apply (bool_decide_unpack _); vm_compute; exact I.
  - exists q, a. exact H.
Defined.

Lemma streamed_answers_witness :
  ∃ l, answers_added uuid0 0 [answer0 "a" "1"; answer0 "b" "x"; answer0 "a" "12"]
         [VObj [("id", VStr "p")]] = (l, 0) ∧ map (prop "id") l = [VStr "p"; VStr "a"; VStr "b"].
Proof.
  destruct (streamed_answers uuid0 0 [answer0 "a" "1"; answer0 "b" "x"; answer0 "a" "12"] [VObj [("id", VStr "p")]])
    as (l & H & Hids & _).
  - repeat constructor; apply (bool_decide_unpack _); vm_compute; exact I.
  - apply (bool_decide_unpack _); vm_compute; exact I.
  - exists l. split; [exact H|exact Hids].
Defined.
