(* ===== verification/Streaming.v ===== *)
(** * Streams of server-sent events

    The two hooks that read the answer of the server: [useSendMessageWithSse]
    (hooks/logic-hooks.ts), which accumulates the chunks of an answer, with
    the record [useSetDoneRecord] keeps of the chat boxes still answering,
    and [useSendMessageBySSE] (hooks/use-send-message.ts), which collects the
    events of a run.  What the environment does to a hook (a request that
    starts, a chunk read from the body, the end of the stream, the timer that
    fires) is an event of a state machine; a chunk is what [JSON.parse]
    returns, or nothing when it throws. *)
From S2P Require Import Prelude JsValue Libs FormUtils.
Open Scope list_scope.
Open Scope nat_scope.
Open Scope js_scope.

(** ** The accumulated answer *)
Definition isTrue (v : val) : bool := v === VBool true.

(** [prevAnswer && currentAnswer.startsWith(prevAnswer) ? currentAnswer
    : prevAnswer + currentAnswer] *)
Definition join_answer (prevAnswer currentAnswer : val) : outcome string :=
  if truthy prevAnswer then
    match currentAnswer with
    | VStr cur =>
        if starts_with (key_of prevAnswer) cur then Ok cur
        else Ok (key_of prevAnswer +:+ cur)
    | _ => Throw
    end
  else Ok (key_of prevAnswer +:+ key_of currentAnswer).

Definition mark_thinking (d : val) (newAnswer : string) : string :=
  let newAnswer := if isTrue (prop "start_to_think" d) then newAnswer +:+ "<think>" else newAnswer in
  if isTrue (prop "end_to_think" d) then newAnswer +:+ "</think>" else newAnswer.

(** The updater of [setAnswer]. *)
Definition receive_answer (body d : val) (prev : obj) : outcome obj :=
  let prevAnswer := js_or (obj_get "answer" prev) (VStr "") in
  a ← read "answer" d;
  newAnswer ← join_answer prevAnswer (js_or a (VStr ""));
  Ok (obj_set "chatBoxId" (prop "chatBoxId" body) (obj_set "conversationId" (prop "conversation_id" body)
    (obj_set "answer" (VStr (mark_thinking d newAnswer)) (spread d)))).

(** ** The boxes still answering *)
Definition bools := list (string * bool).

Fixpoint rec_set (k : string) (v : bool) (r : bools) : bools :=
  match r with
  | [] => [(k, v)]
  | (k', w) :: r' => if k === k' then (k, v) :: r' else (k', w) :: rec_set k v r'
  end.

Fixpoint rec_get (k : string) (r : bools) : option bool :=
  match r with
  | [] => None
  | (k', w) :: r' => if k === k' then Some w else rec_get k r'
  end.

Definition allDone (doneRecord : bools) : bool := js_every snd doneRecord.

(** The effect that empties the record once every box is done. *)
Definition settle (doneRecord : bools) : bools :=
  if (doneRecord !== []) && allDone doneRecord then [] else doneRecord.

Definition setDoneRecordById (id : string) (v : bool) (doneRecord : bools) : bools :=
  settle (rec_set id v doneRecord).

(** ** [useSendMessageWithSse] *)
Record sse := { sse_answer : obj; sse_done : bool; doneRecord : bools; sse_timer : bool }.

Definition sse_init : sse := {| sse_answer := []; sse_done := true; doneRecord := []; sse_timer := false |}.

(** [Ended]: the end of the stream, an abort, or a failed request. *)
Inductive sse_event :=
  | Started (body : val)
  | Chunk (body : val) (value : option val)
  | Ended (body : val)
  | Timer.

Definition has_box (body : val) : bool := obj_has "chatBoxId" (obj_of_val body).

Definition setDoneValue (body : val) (value : bool) (s : sse) : sse :=
  if has_box body then
    {| sse_answer := sse_answer s; sse_done := sse_done s;
       doneRecord := setDoneRecordById (key_of (prop "chatBoxId" body)) value (doneRecord s);
       sse_timer := sse_timer s |}
  else {| sse_answer := sse_answer s; sse_done := value; doneRecord := doneRecord s; sse_timer := sse_timer s |}.

Definition with_answer (a : obj) (s : sse) : sse :=
  {| sse_answer := a; sse_done := sse_done s; doneRecord := doneRecord s; sse_timer := sse_timer s |}.

Definition resetAnswer (s : sse) : sse :=
  {| sse_answer := sse_answer s; sse_done := sse_done s; doneRecord := doneRecord s; sse_timer := true |}.

Definition timer_fires (s : sse) : sse :=
  if sse_timer s then
    {| sse_answer := []; sse_done := sse_done s; doneRecord := doneRecord s; sse_timer := false |}
  else s.

Definition sse_step (s : sse) (e : sse_event) : outcome sse :=
  match e with
  | Started body => Ok (setDoneValue body false s)
  | Chunk body None => Ok s
  | Chunk body (Some v) =>
      let d := prop "data" v in
      if typeof d !== "boolean" then a ← receive_answer body d (sse_answer s); Ok (with_answer a s) else Ok s
  | Ended body => Ok (resetAnswer (setDoneValue body true s))
  | Timer => Ok (timer_fires s)
  end.

Definition sse_run (s : sse) (es : list sse_event) : outcome sse := foldl (λ m e, m ≫= λ s, sse_step s e) (Ok s) es.

(** [answer] is a new object after a chunk that is not the final boolean, and
    after the timer: the effects of the clients on [answer] run then. *)
Definition answer_changes (e : sse_event) : bool :=
  match e with
  | Chunk _ (Some v) => typeof (prop "data" v) !== "boolean"
  | Timer => true
  | _ => false
  end.

(** ** [useSendMessageBySSE] *)

(** A parsed event is an object, known by its reference; the hook never
    looks at it but for [code]. *)
Abbreviation loc := nat.

Record collector := { answerList : list loc; coll_done : bool; coll_timer : bool }.

Definition coll_init : collector := {| answerList := []; coll_done := true; coll_timer := false |}.

Inductive coll_event :=
  | CStarted
  | CGot (event : option loc)
  | CEnded
  | CReset
  | CTimer.

Definition resetAnswerList (c : collector) : collector :=
  {| answerList := answerList c; coll_done := coll_done c; coll_timer := true |}.

Definition coll_step (c : collector) (e : coll_event) : collector :=
  match e with
  | CStarted => {| answerList := answerList c; coll_done := false; coll_timer := coll_timer c |}
  | CGot (Some l) =>
      {| answerList := answerList c ++ [l]; coll_done := coll_done c; coll_timer := coll_timer c |}
  | CGot None => c
  | CEnded => resetAnswerList {| answerList := answerList c; coll_done := true; coll_timer := coll_timer c |}
  | CReset => resetAnswerList c
  | CTimer =>
      if coll_timer c then {| answerList := []; coll_done := coll_done c; coll_timer := false |} else c
  end.

Definition coll_run (c : collector) (es : list coll_event) : collector := foldl coll_step c es.

(** ** Properties of the answer *)
Definition chunk_of (s : string) : val := VObj [("answer", VStr s)].

Fixpoint receive_all (body : val) (ds : list val) (a : obj) : outcome obj :=
  match ds with
  | [] => Ok a
  | d :: ds' => receive_answer body d a ≫= receive_all body ds'
  end.

Definition shown (o : outcome obj) : val := match o with Ok a => obj_get "answer" a | _ => VUndef end.

(** A chunk: its text, and whether thinking starts or ends after it. *)
Record piece := { text : string; starts : bool; ends : bool }.

Record chunk_is (d : val) (x : piece) : Prop := {
  chunk_text : prop "answer" d = VStr (text x);
  chunk_starts : isTrue (prop "start_to_think" d) = starts x;
  chunk_ends : isTrue (prop "end_to_think" d) = ends x
}.

Definition marked (x : piece) (s : string) : string :=
  (s +:+ (if starts x then "<think>" else "")) +:+ (if ends x then "</think>" else "").

Lemma js_or_str (v : val) (s : string) : v = VStr s → js_or v (VStr "") = VStr s.
Proof.
  intros ->. unfold js_or, truthy. destruct (decide (s = "")) as [->|Hs]; [done|]. by rewrite bool_decide_false.
Qed.

Lemma app_empty_r (s : string) : s +:+ "" = s.
Proof. induction s as [|a s IH]; [done|]. exact (f_equal (String a) IH). Qed.

Lemma app_string_assoc (a b c : string) : (a +:+ b) +:+ c = a +:+ (b +:+ c).
Proof. induction a as [|x a IH]; [done|]. exact (f_equal (String x) IH). Qed.

Lemma concat_cons (s : string) ss : String.concat "" (s :: ss) = s +:+ String.concat "" ss.
Proof. destruct ss; [by rewrite app_empty_r|done]. Qed.

(** The text after a chunk, from the text before it. *)
Definition next_text (prev : string) (x : piece) : string :=
  marked x (if (prev !== "") && starts_with prev (text x) then text x else prev +:+ text x).

Definition answer_text (a : obj) (p : string) : Prop := js_or (obj_get "answer" a) (VStr "") = VStr p.

Lemma receive_text body d x prev p : chunk_is d x → answer_text prev p →
  ∃ a, receive_answer body d prev = Ok a ∧ answer_text a (next_text p x).
Proof.
  intros [Ha Hs He] Hp. unfold receive_answer. rewrite Hp.
  assert (read "answer" d = Ok (VStr (text x))) as ->.
  { unfold read. destruct d; simpl in *; try done. by rewrite Ha. }
  cbn [mbind outcome_bind]. rewrite (js_or_str (VStr (text x)) (text x)) by done.
  assert (join_answer (VStr p) (VStr (text x)) =
    Ok (if (p !== "") && starts_with p (text x) then text x else p +:+ text x)) as ->.
  { unfold join_answer. cbn [truthy key_of]. destruct (p !== ""); cbn [andb]; [|done].
    by destruct (starts_with p (text x)). }
  cbn [mbind outcome_bind]. eexists. split; [done|].
  apply js_or_str. rewrite !obj_get_set_ne by done. rewrite obj_get_set_eq. f_equal.
  unfold mark_thinking, next_text, marked. rewrite Hs, He.
  by destruct (starts x), (ends x); rewrite ?app_empty_r.
Qed.

Lemma receive_texts body ds xs prev p : Forall2 chunk_is ds xs → answer_text prev p →
  ∃ a, receive_all body ds prev = Ok a ∧ answer_text a (foldl next_text p xs).
Proof.
  intros Hall. revert prev p. induction Hall as [|d x ds xs Hd _ IH]; intros prev p Hp; [by exists prev|].
  destruct (receive_text body d x prev p Hd Hp) as (a & Ha & Hget).
  cbn [receive_all foldl]. rewrite Ha. cbn [mbind outcome_bind]. by apply IH.
Qed.

(** Chunks that each repeat the answer so far. *)
Fixpoint cumulative (p : string) (xs : list piece) : Prop :=
  match xs with
  | [] => True
  | x :: xs' => starts_with p (text x) = true ∧ starts x = false ∧ ends x = false ∧ cumulative (text x) xs'
  end.

(** Chunks that each carry what is new, none of which happens to start with
    the whole text received so far. *)
Fixpoint fresh_deltas (p : string) (xs : list piece) : Prop :=
  match xs with
  | [] => True
  | x :: xs' => (p = "" ∨ starts_with p (text x) = false) ∧ fresh_deltas (p +:+ marked x (text x)) xs'
  end.

Lemma marked_app p x : marked x (p +:+ text x) = p +:+ marked x (text x).
Proof. unfold marked. by rewrite !app_string_assoc. Qed.

Lemma next_text_cumulative p xs : cumulative p xs → foldl next_text p xs = List.last (map text xs) p.
Proof.
  revert p. induction xs as [|x xs IH]; intros p; [done|]. intros (Hp & Hs & He & Hc). cbn [foldl map].
  assert (next_text p x = text x) as ->.
  { unfold next_text, marked. rewrite Hp, Hs, He, !app_empty_r, andb_true_r.
    destruct (decide (p = "")) as [->|Hne]; [done|]. by rewrite bool_decide_false. }
  rewrite IH by done. generalize (map text xs). intros l. clear. generalize (text x). revert p.
  induction l as [|y [|z l] IH]; intros p s; [done|done|]. change (List.last (z :: l) s = List.last (y :: z :: l) p).
  by rewrite (IH p s).
Qed.

Lemma next_text_deltas p xs : fresh_deltas p xs →
  foldl next_text p xs = p +:+ String.concat "" (map (λ x, marked x (text x)) xs).
Proof.
  revert p. induction xs as [|x xs IH]; intros p; [intros _; by rewrite app_empty_r|]. intros [Hp Hf]. cbn [foldl map].
  assert (next_text p x = p +:+ marked x (text x)) as ->.
  { unfold next_text. rewrite <-marked_app. f_equal. destruct Hp as [->| ->]; [done|by rewrite andb_false_r]. }
  by rewrite IH, concat_cons, app_string_assoc by done.
Qed.

(** whichever way the server streams an answer, the accumulated text is
    the answer: the last chunk when each chunk repeats the text so far, and
    the concatenation of the chunks, with the thinking sections marked, when
    each carries what is new (and none starts with all that came before). *)
Theorem answer_accumulates body ds xs :
  Forall2 chunk_is ds xs →
  ∃ a, receive_all body ds [] = Ok a ∧
    (cumulative "" xs → answer_text a (List.last (map text xs) "")) ∧
    (fresh_deltas "" xs → answer_text a (String.concat "" (map (λ x, marked x (text x)) xs))).
Proof.
  intros Hall. destruct (receive_texts body ds xs [] "" Hall eq_refl) as (a & Ha & Ht).
  exists a. split; [done|]. unfold answer_text in *. rewrite Ht. split; intros H.
  - by rewrite next_text_cumulative.
  - by rewrite next_text_deltas.
Qed.

(** A chunk that repeats the text so far is taken for the whole answer: two
    chunks that each carry a "1" show one. *)
Lemma repeated_delta_lost body : ∃ a,
  receive_all body [chunk_of "1"; chunk_of "1"] [] = Ok a ∧ obj_get "answer" a = VStr "1".
Proof. eexists. split; vm_compute; reflexivity. Qed.

Definition delta (s : string) (b e : bool) : val :=
  VObj [("answer", VStr s); ("start_to_think", VBool b); ("end_to_think", VBool e)].

Lemma answer_accumulates_witness : ∃ a,
  receive_all (VObj []) [delta "" true false; delta "hm" false false; delta "" false true; delta "Yes" false false] []
    = Ok a ∧ answer_text a "<think>hm</think>Yes".
Proof.
  destruct (answer_accumulates (VObj [])
    [delta "" true false; delta "hm" false false; delta "" false true; delta "Yes" false false]
    [{| text := ""; starts := true; ends := false |}; {| text := "hm"; starts := false; ends := false |};
     {| text := ""; starts := false; ends := true |}; {| text := "Yes"; starts := false; ends := false |}])
    as (a & Ha & _ & Hd).
  - repeat (constructor; [split; reflexivity|]). constructor.
  - exists a. split; [exact Ha|]. apply Hd. cbn. repeat split; first [left; reflexivity|right; reflexivity].
Defined.

(** ** Properties of the record of boxes *)

(** The boxes with a request in flight, from the events alone. *)
Definition box_of (body : val) : string := key_of (prop "chatBoxId" body).

Definition running_step (r : gset string) (e : sse_event) : gset string :=
  match e with
  | Started body => if has_box body then {[box_of body]} ∪ r else r
  | Ended body => if has_box body then r ∖ {[box_of body]} else r
  | _ => r
  end.

Definition running (es : list sse_event) : gset string := foldl running_step ∅ es.

Lemma rec_get_set k v r k' : rec_get k' (rec_set k v r) = if decide (k' = k) then Some v else rec_get k' r.
Proof.
  induction r as [|[k1 w] r IH]; cbn [rec_set rec_get]; repeat case_bool_decide; repeat case_decide;
    cbn [rec_get]; repeat case_bool_decide; simplify_eq; try done; by rewrite IH, ?decide_True, ?decide_False.
Qed.

Lemma allDone_spec r : NoDup r.*1 → allDone r = true ↔ ∀ k, rec_get k r ≠ Some false.
Proof.
  unfold allDone. rewrite js_every_true. induction r as [|[k w] r IH]; intros Hnd; [set_solver|].
  apply NoDup_cons in Hnd as [Hk Hnd]. split.
  - intros H k'. cbn [rec_get]. case_bool_decide; [|apply IH; [done|set_solver]].
    specialize (H (k, w)). cbn in H. rewrite H by set_solver. done.
  - intros H x [->|Hx]%elem_of_cons.
    + specialize (H k). cbn [rec_get] in H. rewrite bool_decide_true in H by done. by destruct w.
    + eapply IH; [done| |done]. intros k' Hk'. specialize (H k'). cbn [rec_get] in H. case_bool_decide; [|done].
      subst k'. apply Hk. clear -Hk'. induction r as [|[k1 w1] r IHr]; [done|]. cbn [rec_get] in Hk'.
      case_bool_decide; set_solver.
Qed.

Lemma rec_set_keys k v r : (rec_set k v r).*1 = push_new (r.*1) k.
Proof.
  induction r as [|[k1 w] r IH]; [done|]. cbn [rec_set fmap list_fmap fst]. case_bool_decide.
  - subst. rewrite push_new_eq, decide_True by set_solver. done.
  - cbn [fmap list_fmap fst]. change (k1 :: (rec_set k v r).*1 = push_new (k1 :: r.*1) k).
    rewrite IH, !push_new_eq. repeat case_decide; set_solver.
Qed.

Definition tracks (r : bools) (boxes : gset string) : Prop :=
  NoDup r.*1 ∧ ∀ k, rec_get k r = Some false ↔ k ∈ boxes.

Lemma settle_tracks r boxes : tracks r boxes → tracks (settle r) boxes.
Proof.
  intros [Hnd Hr]. unfold settle. destruct (_ && _) eqn:E; [|done]. reflect_bool.
  rewrite allDone_spec in H0 by done. split; [constructor|]. intros k. rewrite <-Hr.
  split; [done|]. intros Hk. by apply H0 in Hk.
Qed.

Lemma setDoneRecordById_tracks id v r boxes : tracks r boxes →
  tracks (setDoneRecordById id v r) (if v then boxes ∖ {[id]} else {[id]} ∪ boxes).
Proof.
  intros [Hnd Hr]. apply settle_tracks. split.
  - rewrite rec_set_keys. by apply NoDup_push_new.
  - intros k. rewrite rec_get_set. case_decide; subst; destruct v; rewrite ?Hr; set_solver.
Qed.

Lemma setDoneValue_tracks body v s boxes : tracks (doneRecord s) boxes →
  tracks (doneRecord (setDoneValue body v s))
    (if has_box body then if v then boxes ∖ {[box_of body]} else {[box_of body]} ∪ boxes else boxes).
Proof.
  intros H. unfold setDoneValue. destruct (has_box body); [|done]. cbn [doneRecord].
  by apply setDoneRecordById_tracks.
Qed.

Lemma sse_step_tracks s e s' boxes : sse_step s e = Ok s' → tracks (doneRecord s) boxes →
  tracks (doneRecord s') (running_step boxes e).
Proof.
  intros Hs Ht. destruct e as [body|body [v|]|body|]; cbn [sse_step running_step] in *.
  - injection Hs as <-. exact (setDoneValue_tracks body false s boxes Ht).
  - destruct (_ !== _); [|by injection Hs as <-].
    apply bind_Ok in Hs as (a & _ & [= <-]). done.
  - by injection Hs as <-.
  - injection Hs as <-. exact (setDoneValue_tracks body true s boxes Ht).
  - injection Hs as <-. unfold timer_fires. by destruct (sse_timer s).
Qed.

(** whatever the interleaving of the requests of the chat boxes, the
    record marks as not done exactly the boxes with a request in flight, so
    [allDone] holds exactly when none is. *)
Theorem done_record_exact es s : sse_run sse_init es = Ok s →
  (∀ box, rec_get box (doneRecord s) = Some false ↔ box ∈ running es) ∧
  (allDone (doneRecord s) = true ↔ running es = ∅).
Proof.
  intros Hs. assert (tracks (doneRecord s) (running es)) as [Hnd Hr].
  { revert s Hs. unfold sse_run, running. induction es as [|e es IH] using rev_ind; intros s.
    - intros [= <-]. split; [constructor|]. intros k. set_solver.
    - rewrite !foldl_app. cbn [foldl]. intros (s' & Hs' & Hstep)%bind_Ok.
      eapply sse_step_tracks; [exact Hstep|]. by apply IH. }
  split; [done|]. rewrite allDone_spec by done. setoid_rewrite Hr. set_solver.
Qed.

Definition box (k : string) : val := VObj [("chatBoxId", VStr k); ("conversation_id", VStr "c")].

Lemma done_record_exact_witness : ∃ s,
  sse_run sse_init [Started (box "a"); Started (box "b"); Chunk (box "a") (Some (VObj [("data", chunk_of "x")]));
    Ended (box "a"); Timer] = Ok s ∧ allDone (doneRecord s) = false.
Proof.
  eexists. split; [reflexivity|]. apply not_true_iff_false.
  rewrite (proj2 (done_record_exact
    [Started (box "a"); Started (box "b"); Chunk (box "a") (Some (VObj [("data", chunk_of "x")]));
     Ended (box "a"); Timer] _ eq_refl)).
  intros H. assert ("b" ∈ (∅ : gset string)) as Hb; [rewrite <-H; apply (bool_decide_unpack _); vm_compute; exact I|].
  by apply not_elem_of_empty in Hb.
Defined.

(** ** Properties of the collected events *)
Definition events_of (got : list (option loc)) : list loc := omap id got.

Lemma coll_run_got c got : coll_run c (map CGot got) =
  {| answerList := answerList c ++ events_of got; coll_done := coll_done c; coll_timer := coll_timer c |}.
Proof.
  unfold coll_run, events_of. revert c.
  induction got as [|[l|] got IH]; intros [l0 d t]; cbn [map foldl coll_step omap list_omap id];
    [by rewrite app_nil_r| |]; rewrite IH; cbn [answerList coll_done coll_timer]; [by rewrite <-app_assoc|done].
Qed.

(** A run that starts on an empty list with no timer pending lists the
    parsed events in their order at each moment, is in progress until its
    stream ends, keeps the list when it ends, and the timer empties it. *)
Theorem run_collects_events c got1 got2 :
  answerList c = [] → coll_timer c = false →
  let mid := coll_run c (CStarted :: map CGot got1) in
  let fin := coll_run mid (map CGot got2 ++ [CEnded]) in
  answerList mid = events_of got1 ∧ coll_done mid = false ∧
  answerList fin = events_of (got1 ++ got2) ∧ coll_done fin = true ∧
  coll_step fin CTimer = {| answerList := []; coll_done := true; coll_timer := false |}.
Proof.
  intros Hl Ht mid fin.
  assert (mid = {| answerList := events_of got1; coll_done := false; coll_timer := false |}) as Hmid.
  { unfold mid. change (coll_run c (CStarted :: map CGot got1)) with (coll_run (coll_step c CStarted) (map CGot got1)).
    rewrite coll_run_got. cbn. by rewrite Hl, Ht. }
  assert (fin = {| answerList := events_of (got1 ++ got2); coll_done := true; coll_timer := true |}) as Hfin.
  { unfold fin, coll_run. rewrite foldl_app. fold (coll_run mid (map CGot got2)). rewrite coll_run_got, Hmid.
    cbn. unfold events_of. by rewrite omap_app. }
  rewrite Hfin, Hmid. done.
Qed.

Lemma run_collects_events_witness :
  answerList (coll_run (coll_run coll_init (CStarted :: map CGot [Some 1; None])) (map CGot [Some 2] ++ [CEnded])) =
  events_of [Some 1; None; Some 2].
Proof.
  exact (proj1 (proj2 (proj2 (run_collects_events coll_init [Some 1; None] [Some 2] eq_refl eq_refl)))).
Defined.

(** The timer of a finished run is not cancelled by the next one: a run
    started within its second first appends to the events of the previous
    run, then loses what it received so far. *)
Lemma stale_timer_loses_events :
  let c := coll_run coll_init [CStarted; CGot (Some 1); CEnded; CStarted; CGot (Some 2)] in
  answerList c = [1; 2] ∧ answerList (coll_run c [CTimer; CGot (Some 3); CEnded]) = [3].
Proof. done. Qed.
