(* ===== verification/AgentChat.v ===== *)
(** * The chat of an agent

    pages/agent/chat/use-send-agent-message.ts, with the log cache of
    pages/agent/hooks/use-cache-chat-log.ts and the references of
    pages/agent/utils/chat.ts: from the events of a run to the messages
    shown, the log kept per message, and what is sent.  An event is a JSON
    object, known by its reference [l] and never mutated: [heap l] are its
    properties.  React runs the effects of the page once per rendered event
    list; a step of [agent_step] is a change of state followed by the effects
    it triggers. *)
From S2P Require Import Prelude JsValue Libs FormUtils Messages Streaming.
Open Scope list_scope.
Open Scope nat_scope.
Open Scope js_scope.

Module MessageEventType.
Definition Message : string := "message".
Definition MessageEnd : string := "message_end".
Definition WorkflowFinished : string := "workflow_finished".
Definition UserInputs : string := "user_inputs".
End MessageEventType.

Section agent_chat.
Context {L : Lodash} (uuid : nat → string) (heap : loc → obj).

Definition field (k : string) (l : loc) : val := obj_get k (heap l).

Definition is_event (t : string) (l : loc) : bool := field "event" l === VStr t.

(** ** What the events of a run say *)
Record thinking := { nextContent : string; startIndex : Z; endIndex : Z; audioBinary : val }.

Definition think_step (st : thinking) (idx : nat) (x : loc) : outcome thinking :=
  let data := field "data" x in
  content ← read "content" data;
  let audio := if truthy (prop "audio_binary" data) then prop "audio_binary" data else audioBinary st in
  if isTrue (prop "start_to_think" data) then
    Ok {| nextContent := nextContent st +:+ ("<think>" +:+ key_of content); startIndex := Z.of_nat idx;
          endIndex := endIndex st; audioBinary := audio |}
  else if isTrue (prop "end_to_think" data) then
    Ok {| nextContent := nextContent st +:+ (key_of content +:+ "</think>"); startIndex := startIndex st;
          endIndex := Z.of_nat idx; audioBinary := audio |}
  else
    Ok {| nextContent := nextContent st +:+ key_of content; startIndex := startIndex st;
          endIndex := endIndex st; audioBinary := audio |}.

Fixpoint think_steps (st : thinking) (idx : nat) (xs : list loc) : outcome thinking :=
  match xs with
  | [] => Ok st
  | x :: xs' => st' ← think_step st idx x; think_steps st' (S idx) xs'
  end.

Record found := { f_id : val; f_content : string; f_audio_binary : val; f_attachment : val }.

Definition findMessageFromList (eventList : list loc) : outcome found :=
  let messageEventList := js_filter (is_event MessageEventType.Message) eventList in
  st ← think_steps {| nextContent := ""; startIndex := -1; endIndex := -1; audioBinary := VUndef |} 0 messageEventList;
  let currentIdx := (Z.of_nat (length messageEventList) - 1)%Z in
  let content :=
    if (0 <=? startIndex st)%Z && (startIndex st <=? currentIdx)%Z && (endIndex st === (-1)%Z)
    then nextContent st +:+ "</think>" else nextContent st in
  let workflowFinished := js_find (is_event MessageEventType.WorkflowFinished) eventList in
  Ok {| f_id := match eventList with l :: _ => field "message_id" l | [] => VUndef end;
        f_content := content;
        f_audio_binary := audioBinary st;
        f_attachment :=
          js_or (match workflowFinished with
                 | Some w => prop "attachment" (prop "outputs" (field "data" w))
                 | None => VUndef
                 end) (VObj []) |}.

Definition findInputFromList (eventList : list loc) : obj :=
  match js_find (is_event MessageEventType.UserInputs) eventList with
  | None => []
  | Some inputEvent => [("id", field "message_id" inputEvent); ("data", field "data" inputEvent)]
  end.

Definition getLatestError (eventList : list loc) : val :=
  let latest := match last eventList with Some l => VObj (heap l) | None => VUndef end in
  js_or (lo_get latest [PKey "data"; PKey "outputs"; PKey "_ERROR"])
    (if truthy (prop "code" latest) then prop "message" latest else VUndef).

(** ** The references at the end of a message *)
Definition keep_message_end (answerList ends : list loc) : list loc :=
  match js_find (is_event MessageEventType.MessageEnd) answerList with
  | Some messageEndEvent =>
      if js_every (λ x, field "message_id" x !== field "message_id" messageEndEvent) ends
      then ends ++ [messageEndEvent] else ends
  | None => ends
  end.

Definition findReferenceByMessageId (ends : list loc) (messageId : val) : outcome val :=
  match js_find (λ item, field "message_id" item === messageId) ends with
  | Some event => read "reference" (field "data" event)
  | None => Ok VUndef
  end.

Definition buildAgentMessageItemReference (messages references : list val) (message : val) : val :=
  let assistantMessages := js_filter (λ x, prop "role" x === VStr MessageType.Assistant) messages in
  let reference :=
    if negb (lo_isEmpty (prop "reference" message)) then prop "reference" message
    else match js_findIndex (has_id (prop "id" message)) assistantMessages with
         | Some referenceIndex => default VUndef (references !! referenceIndex)
         | None => VUndef
         end in
  js_coalesce reference (VObj [("doc_aggs", VArr []); ("chunks", VArr []); ("total", VNum (num_of_Z 0))]).

(** ** The log kept for each message *)
Definition pool := list (string * list loc).

Fixpoint pool_get (k : string) (p : pool) : option (list loc) :=
  match p with
  | [] => None
  | (k', l) :: p' => if k === k' then Some l else pool_get k p'
  end.

Definition ExcludeTypes : list string := [MessageEventType.Message; MessageEventType.MessageEnd].

Definition addEventList (events : list loc) (message_id : val) (p : pool) (latestTaskId : val) : pool * val :=
  match events with
  | [] => (p, latestTaskId)
  | first :: _ =>
      let key := key_of message_id in
      let list_ := push_all (default [] (pool_get key p)) events in
      (assoc_set key list_ p, field "task_id" first)
  end.

Definition filterEventListByMessageId (p : pool) (messageId : string) : option (list loc) :=
  js_filter (λ x, field "message_id" x === VStr messageId) <$> pool_get messageId p.

Definition filterEventListByEventType (p : pool) (currentMessageId eventType : string) : option (list loc) :=
  js_filter (is_event eventType) <$> pool_get currentMessageId p.

Definition currentEventListWithoutMessageById (p : pool) (messageId : string) : option (list loc) :=
  js_filter (λ x, (field "message_id" x === VStr messageId) &&
    js_every (λ y, negb (is_event y x)) ExcludeTypes) <$> pool_get messageId p.

(** ** Uploads and requests *)

(** A File object: its reference and its name. *)
Record File := { file_ref : nat; file_name : string }.

Definition append (data : val) (files : list File) (st : list val * list File) : list val * list File :=
  (st.1 ++ [data], st.2 ++ files).

Definition removeFile (file : File) (st : list val * list File) : list val * list File :=
  (js_filter (λ item, prop "name" item !== VStr (file_name file)) st.1,
   js_filter (λ f, file_ref f !== file_ref file) st.2).

Definition file_val (f : File) : val := VObj [("name", VStr (file_name f))].

Definition buildRequestBody (k : nat) (value : string) : obj * nat :=
  ([("id", VStr (uuid k)); ("content", VStr (str_trim value)); ("role", VStr MessageType.User)], S k).

Definition transferInputsArrayToObject (inputs : list val) : obj :=
  foldl (λ pre cur, obj_set (key_of (prop "key" cur)) (VObj (lo_omit (obj_of_val cur) ["key"])) pre) [] inputs.

Definition receiveMessageError (res : val) : outcome bool :=
  if truthy res then
    let response := prop "response" res in
    status ← read "status" response;
    Ok ((status !== VNum (num_of_Z 200)) || (prop "code" (prop "data" res) !== VNum (num_of_Z 0)))
  else Ok false.

(** The page: what is fixed for it. *)
Record page := {
  pg_agentId : val;
  pg_hint : val;
  pg_inputs : list val;
  pg_releaseMode : val;
  pg_isTaskMode : bool;
  pg_isShared : bool
}.

(** The state of [useSendAgentMessage], with the requests sent so far. *)
Record agent := {
  ag_coll : collector;
  ag_messages : list val;
  ag_drawn : nat;
  ag_sessionId : val;
  ag_ends : list loc;
  ag_pool : pool;
  ag_latestTaskId : val;
  ag_value : val;
  ag_uploads : list val * list File;
  ag_sendedTaskMessage : bool;
  ag_requests : list obj
}.

Definition send_params (pg : page) (a : agent) (message : obj) (exploreSessionId : val) : obj :=
  let params := [("id", pg_agentId pg); ("running_hint_text", pg_hint pg)] in
  match obj_get "content" message with
  | VStr content =>
      let params := params ++
        [("query", VStr content); ("inputs", VObj (transferInputsArrayToObject (pg_inputs pg)));
         ("files", VArr (ag_uploads a).1); ("session_id", js_or (ag_sessionId a) exploreSessionId)] in
      if truthy (pg_releaseMode pg) then params ++ [("release", pg_releaseMode pg)] else params
  | _ => params
  end.

Definition with_coll (c : collector) (a : agent) : agent :=
  {| ag_coll := c; ag_messages := ag_messages a; ag_drawn := ag_drawn a; ag_sessionId := ag_sessionId a;
     ag_ends := ag_ends a; ag_pool := ag_pool a; ag_latestTaskId := ag_latestTaskId a; ag_value := ag_value a;
     ag_uploads := ag_uploads a; ag_sendedTaskMessage := ag_sendedTaskMessage a; ag_requests := ag_requests a |}.

Definition with_messages (m : list val * nat) (a : agent) : agent :=
  {| ag_coll := ag_coll a; ag_messages := m.1; ag_drawn := m.2; ag_sessionId := ag_sessionId a;
     ag_ends := ag_ends a; ag_pool := ag_pool a; ag_latestTaskId := ag_latestTaskId a; ag_value := ag_value a;
     ag_uploads := ag_uploads a; ag_sendedTaskMessage := ag_sendedTaskMessage a; ag_requests := ag_requests a |}.

Definition with_value (v : val) (a : agent) : agent :=
  {| ag_coll := ag_coll a; ag_messages := ag_messages a; ag_drawn := ag_drawn a; ag_sessionId := ag_sessionId a;
     ag_ends := ag_ends a; ag_pool := ag_pool a; ag_latestTaskId := ag_latestTaskId a; ag_value := v;
     ag_uploads := ag_uploads a; ag_sendedTaskMessage := ag_sendedTaskMessage a; ag_requests := ag_requests a |}.

Definition with_uploads (u : list val * list File) (a : agent) : agent :=
  {| ag_coll := ag_coll a; ag_messages := ag_messages a; ag_drawn := ag_drawn a; ag_sessionId := ag_sessionId a;
     ag_ends := ag_ends a; ag_pool := ag_pool a; ag_latestTaskId := ag_latestTaskId a; ag_value := ag_value a;
     ag_uploads := u; ag_sendedTaskMessage := ag_sendedTaskMessage a; ag_requests := ag_requests a |}.

(** [send(params)]: the request leaves, the collector starts. *)
Definition send (params : obj) (a : agent) : agent :=
  {| ag_coll := coll_step (ag_coll a) CStarted; ag_messages := ag_messages a; ag_drawn := ag_drawn a;
     ag_sessionId := ag_sessionId a; ag_ends := ag_ends a; ag_pool := ag_pool a;
     ag_latestTaskId := ag_latestTaskId a; ag_value := ag_value a; ag_uploads := ag_uploads a;
     ag_sendedTaskMessage := ag_sendedTaskMessage a; ag_requests := ag_requests a ++ [params] |}.

(** ** The effects of a new event list *)
Definition effect_message_end (a : agent) : agent :=
  {| ag_coll := ag_coll a; ag_messages := ag_messages a; ag_drawn := ag_drawn a; ag_sessionId := ag_sessionId a;
     ag_ends := keep_message_end (answerList (ag_coll a)) (ag_ends a); ag_pool := ag_pool a;
     ag_latestTaskId := ag_latestTaskId a; ag_value := ag_value a;
     ag_uploads := ag_uploads a; ag_sendedTaskMessage := ag_sendedTaskMessage a; ag_requests := ag_requests a |}.

Definition answer_of (answerList : list loc) (f : found) : obj :=
  let answer := js_or (VStr (f_content f)) (getLatestError answerList) in
  obj_assign
    [("answer", js_coalesce answer (VStr "")); ("audio_binary", f_audio_binary f);
     ("attachment", f_attachment f); ("id", f_id f)] (findInputFromList answerList).

Definition effect_answer (a : agent) : outcome agent :=
  let events := answerList (ag_coll a) in
  f ← findMessageFromList events;
  Ok (if bool_decide (0 < length events)
      then with_messages (addNewestOneAnswer uuid (ag_drawn a) (answer_of events f) (ag_messages a)) a else a).

Definition effect_log (a : agent) : agent :=
  let events := answerList (ag_coll a) in
  let messageId := match events with l :: _ => field "message_id" l | [] => VUndef end in
  let '(p, t) := addEventList events messageId (ag_pool a) (ag_latestTaskId a) in
  {| ag_coll := ag_coll a; ag_messages := ag_messages a; ag_drawn := ag_drawn a; ag_sessionId := ag_sessionId a;
     ag_ends := ag_ends a; ag_pool := p; ag_latestTaskId := t; ag_value := ag_value a;
     ag_uploads := ag_uploads a; ag_sendedTaskMessage := ag_sendedTaskMessage a; ag_requests := ag_requests a |}.

Definition effect_session (a : agent) : agent :=
  match answerList (ag_coll a) with
  | first :: _ =>
      if truthy (field "session_id" first) then
        {| ag_coll := ag_coll a; ag_messages := ag_messages a; ag_drawn := ag_drawn a;
           ag_sessionId := field "session_id" first; ag_ends := ag_ends a; ag_pool := ag_pool a;
           ag_latestTaskId := ag_latestTaskId a; ag_value := ag_value a; ag_uploads := ag_uploads a;
           ag_sendedTaskMessage := ag_sendedTaskMessage a; ag_requests := ag_requests a |}
      else a
  | [] => a
  end.

Definition on_answers (a : agent) : outcome agent :=
  a ← effect_answer (effect_message_end a); Ok (effect_session (effect_log a)).

(** ** The operations of the page *)
Inductive action :=
  | PressEnter (exploreSessionId : val)
  | TaskStart
  | SubmitForm (body : obj)
  | Receive (event : option loc)
  | StreamEnd
  | Answered (message : obj) (res : val)
  | TimerFires
  | ResetSession
  | TypeText (value : string)
  | Upload (data : val) (files : list File)
  | RemoveFile (file : File).

Definition sendMessage (pg : page) (message : obj) (exploreSessionId : val) (a : agent) : agent :=
  send (send_params pg a message exploreSessionId) a.

(** What [sendMessage] does once [send] has returned [res]. *)
Definition after_send (message : obj) (res : val) (a : agent) : outcome agent :=
  let a := with_uploads ([], []) a in
  failed ← receiveMessageError res;
  Ok (if (failed : bool) then
        let a := with_value (obj_get "content" message) a in
        with_messages (removeLatestMessage (ag_messages a), ag_drawn a) a
      else a).

Definition handlePressEnter (pg : page) (exploreSessionId : val) (a : agent) : agent :=
  let value := key_of (ag_value a) in
  if str_trim value === "" then a
  else
    let '(msgBody, k) := buildRequestBody (ag_drawn a) value in
    let files := (ag_uploads a).2 in
    let a := with_messages (ag_messages a, k) a in
    let a := if coll_done (ag_coll a) then sendMessage pg msgBody exploreSessionId (with_value (VStr "") a) else a in
    with_messages (addNewestOneQuestion uuid (ag_drawn a)
      (obj_set "files" (VArr (map file_val files)) msgBody) (ag_messages a)) a.

Definition sendMessageInTaskMode (pg : page) (a : agent) : agent :=
  if pg_isShared pg || negb (pg_isTaskMode pg) || ag_sendedTaskMessage a then a
  else
    let '(msgBody, k) := buildRequestBody (ag_drawn a) "" in
    let a := sendMessage pg msgBody VUndef (with_messages (ag_messages a, k) a) in
    {| ag_coll := ag_coll a; ag_messages := ag_messages a; ag_drawn := ag_drawn a; ag_sessionId := ag_sessionId a;
       ag_ends := ag_ends a; ag_pool := ag_pool a; ag_latestTaskId := ag_latestTaskId a; ag_value := ag_value a;
       ag_uploads := ag_uploads a; ag_sendedTaskMessage := true; ag_requests := ag_requests a |}.

Definition sendFormMessage (pg : page) (body : obj) (a : agent) : agent :=
  let line v := key_of (prop "name" v) +:+ ": " +:+ key_of (prop "value" v) in
  let content := String.concat "<br/>" (map line (obj_values (obj_of_val (obj_get "inputs" body)))) in
  let a := with_messages (addNewestOneQuestion uuid (ag_drawn a)
    [("content", VStr content); ("role", VStr MessageType.User)] (ag_messages a)) a in
  let params := obj_set "session_id" (ag_sessionId a) (obj_assign [] body) in
  send (if truthy (pg_releaseMode pg) then obj_set "release" (pg_releaseMode pg) params else params) a.

(** The stop request of [stopConversation] is not part of the state. *)
Definition resetSession (pg : page) (a : agent) : agent :=
  let messages := if pg_isTaskMode pg then removeAllMessages (ag_messages a)
                  else removeAllMessagesExceptFirst (ag_messages a) in
  {| ag_coll := coll_step (ag_coll a) CReset; ag_messages := messages; ag_drawn := ag_drawn a;
     ag_sessionId := VNull; ag_ends := ag_ends a; ag_pool := ag_pool a; ag_latestTaskId := ag_latestTaskId a;
     ag_value := ag_value a; ag_uploads := ag_uploads a; ag_sendedTaskMessage := ag_sendedTaskMessage a;
     ag_requests := ag_requests a |}.

Definition agent_step (pg : page) (a : agent) (e : action) : outcome agent :=
  match e with
  | PressEnter exploreSessionId => Ok (handlePressEnter pg exploreSessionId a)
  | TaskStart => Ok (sendMessageInTaskMode pg a)
  | SubmitForm body => Ok (sendFormMessage pg body a)
  | Receive (Some event) => on_answers (with_coll (coll_step (ag_coll a) (CGot (Some event))) a)
  | Receive None => Ok a
  | StreamEnd => Ok (with_coll (coll_step (ag_coll a) CEnded) a)
  | Answered message res => after_send message res a
  | TimerFires => if coll_timer (ag_coll a) then on_answers (with_coll (coll_step (ag_coll a) CTimer) a) else Ok a
  | ResetSession => Ok (resetSession pg a)
  | TypeText value => Ok (with_value (VStr (handleInputChange value)) a)
  | Upload data files => Ok (with_uploads (append data files (ag_uploads a)) a)
  | RemoveFile file => Ok (with_uploads (removeFile file (ag_uploads a)) a)
  end.

Definition agent_run (pg : page) (a : agent) (es : list action) : outcome agent :=
  foldl (λ m e, m ≫= λ a, agent_step pg a e) (Ok a) es.

Definition useGetBeginNodePrologue (formData : val) : val :=
  if truthy (prop "enablePrologue" formData) then prop "prologue" formData else VUndef.

(** The effect that shows the prologue. *)
Definition effect_prologue (pg : page) (prologue : val) (a : agent) : agent :=
  if pg_isTaskMode pg then a
  else if truthy prologue then with_messages (addPrologue uuid (ag_drawn a) prologue (ag_messages a)) a else a.
End agent_chat.

(** ** Properties *)
Section agent_props.
Context {L : Lodash} {LL : LodashLaws L} (uuid : nat → string) (heap : loc → obj).

Definition data_of (x : loc) : val := field heap "data" x.

Definition is_start (x : loc) : bool := isTrue (prop "start_to_think" (data_of x)).

Definition is_end (x : loc) : bool := negb (is_start x) && isTrue (prop "end_to_think" (data_of x)).

(** What a message event contributes to the text. *)
Definition event_text (x : loc) : string :=
  let content := key_of (prop "content" (data_of x)) in
  if is_start x then "<think>" +:+ content else if is_end x then content +:+ "</think>" else content.

Lemma think_steps_spec xs st idx : Forall (λ x, nullish (data_of x) = false) xs →
  ∃ st', think_steps heap st idx xs = Ok st' ∧
    nextContent st' = nextContent st +:+ String.concat "" (map event_text xs) ∧
    (if js_some is_start xs then Z.of_nat idx <= startIndex st' < Z.of_nat (idx + length xs)
     else startIndex st' = startIndex st)%Z ∧
    (if js_some is_end xs then Z.of_nat idx <= endIndex st' < Z.of_nat (idx + length xs)
     else endIndex st' = endIndex st)%Z.
Proof.
  intros Hall. revert st idx. induction Hall as [|x xs Hx _ IH]; intros st idx.
  { exists st. split; [done|]. by rewrite app_empty_r. }
  assert (∃ st1, think_step heap st idx x = Ok st1 ∧ nextContent st1 = nextContent st +:+ event_text x ∧
    startIndex st1 = (if is_start x then Z.of_nat idx else startIndex st) ∧
    endIndex st1 = (if is_end x then Z.of_nat idx else endIndex st)) as (st1 & H1 & Ht & Hs & He).
  { unfold think_step, read. fold (data_of x). rewrite Hx. cbn [mbind outcome_bind].
    unfold event_text, is_end. fold (is_start x). destruct (is_start x); cbn [negb andb]; [by eexists|].
    destruct (isTrue (prop "end_to_think" (data_of x))); by eexists. }
  destruct (IH st1 (S idx)) as (st' & H' & Ht' & Hs' & He'). exists st'.
  cbn [think_steps]. rewrite H1. cbn [mbind outcome_bind]. split; [done|]. split.
  { rewrite Ht', Ht. cbn [map]. by rewrite concat_cons, app_string_assoc. }
  unfold js_some in *. cbn [existsb length]. split.
  - destruct (is_start x), (existsb is_start xs); cbn [orb]; lia.
  - destruct (is_end x), (existsb is_end xs); cbn [orb]; lia.
Qed.

(** the message shown for the events of a run is the concatenation of the
    texts of its message events, each thinking section marked where it starts
    and ends, and closed at the end exactly when one started and none has
    ended yet; it carries the identifier of the first event. *)
Theorem findMessageFromList_content eventList :
  let ms := js_filter (is_event heap MessageEventType.Message) eventList in
  Forall (λ x, nullish (data_of x) = false) ms →
  ∃ f, findMessageFromList heap eventList = Ok f ∧
    f_content f = String.concat "" (map event_text ms) +:+
      (if js_some is_start ms && negb (js_some is_end ms) then "</think>" else "") ∧
    f_id f = match eventList with l :: _ => field heap "message_id" l | [] => VUndef end.
Proof.
  intros ms Hall. unfold findMessageFromList. fold ms.
  destruct (think_steps_spec ms {| nextContent := ""; startIndex := -1; endIndex := -1; audioBinary := VUndef |} 0 Hall)
    as (st & -> & Ht & Hs & He). cbn [mbind outcome_bind]. eexists. split; [done|]. cbn [f_content f_id].
  split; [|done]. rewrite Ht. cbn [nextContent startIndex endIndex] in *.
  destruct (js_some is_start ms) eqn:Es; cbn [andb].
  - replace (0 <=? startIndex st)%Z with true by lia.
    replace (startIndex st <=? Z.of_nat (length ms) - 1)%Z with true by lia.
    destruct (js_some is_end ms) eqn:Ee; cbn [andb negb].
    + rewrite bool_decide_false by lia. by rewrite app_empty_r.
    + rewrite bool_decide_true by done. done.
  - replace (0 <=? startIndex st)%Z with false by lia. cbn [andb]. by rewrite app_empty_r.
Qed.

(** ** A turn of the chat *)
Section turn.
Variables (pg : page) (i : string) (base : list val) (p0 : pool).
Hypothesis Hi : i ≠ "".
Hypothesis Hbase : ∀ y, y ∈ base → has_id (VStr i) y = false.
Hypothesis Hpool : pool_get i p0 = None.

(** An event of the run [i]. *)
Definition of_run (x : loc) : Prop := field heap "message_id" x = VStr i ∧ nullish (data_of x) = false.

(** The answer the events amount to. *)
Definition answer_shown (es : list loc) : val :=
  match findMessageFromList heap es with
  | Ok f => js_coalesce (js_or (VStr (f_content f)) (getLatestError heap es)) (VStr "")
  | _ => VUndef
  end.

Record receiving (es : list loc) (a : agent) : Prop := {
  rc_coll : ag_coll a = {| answerList := es; coll_done := false; coll_timer := false |};
  rc_messages :
    match es with
    | [] => ag_messages a = base
    | _ => ∃ m, ag_messages a = base ++ [m] ∧ prop "id" m = VStr i ∧ prop "content" m = answer_shown es
    end;
  rc_pool : ∀ k, pool_get k (ag_pool a) = if decide (k = i ∧ es ≠ []) then Some es else pool_get k p0
}.

Lemma pool_get_set k l p k' : pool_get k' (assoc_set k l p) = if decide (k' = k) then Some l else pool_get k' p.
Proof.
  induction p as [|[k1 w] p IH]; cbn [assoc_set pool_get].
  - destruct (decide (k' = k)); [by rewrite bool_decide_true|by rewrite bool_decide_false].
  - destruct (decide (k = k1)) as [->|Hk]; [rewrite bool_decide_true by done|rewrite bool_decide_false by done];
      cbn [pool_get]; [|rewrite IH]; destruct (decide (k' = k1)) as [->|Hk'];
      rewrite ?bool_decide_true, ?bool_decide_false, ?decide_True, ?decide_False by congruence; done.
Qed.

Lemma push_all_snoc {A} `{EqDecision A} (es : list A) x : NoDup (es ++ [x]) → push_all es (es ++ [x]) = es ++ [x].
Proof.
  intros Hnd. rewrite push_all_app.
  assert (∀ l ys : list A, (∀ y, y ∈ ys → y ∈ l) → push_all l ys = l) as Hsub.
  { intros l ys. induction ys as [|y ys IH]; intros H; [done|]. unfold push_all in *. cbn [foldl].
    rewrite push_new_eq, decide_True by set_solver. apply IH. set_solver. }
  rewrite (Hsub es es) by done. unfold push_all. cbn [foldl]. rewrite push_new_eq, decide_False; [done|].
  apply NoDup_app in Hnd as (_ & Hd & _). intros Hx. apply (Hd x Hx). set_solver.
Qed.

Lemma push_all_nil {A} `{EqDecision A} (x : A) : push_all [] [x] = [x].
Proof. done. Qed.

Lemma answer_of_plain es f : Forall of_run es → es ≠ [] → f_id f = VStr i →
  plain_answer (answer_of heap es f) ∧ obj_get "id" (answer_of heap es f) = VStr i ∧
  obj_get "answer" (answer_of heap es f) = js_coalesce (js_or (VStr (f_content f)) (getLatestError heap es)) (VStr "").
Proof.
  intros Hall Hne Hf. unfold answer_of.
  assert (obj_wf (findInputFromList heap es) ∧ ∀ k, k ≠ "data" →
    obj_lookup k (findInputFromList heap es) = None ∨ (k = "id" ∧ obj_lookup k (findInputFromList heap es) = Some (VStr i)))
    as [Hw Hl].
  { unfold findInputFromList. destruct (js_find _ es) as [x|] eqn:E; [|split; [constructor|by left]].
    apply js_find_Some in E as [Hx _]. rewrite Forall_forall in Hall. destruct (Hall x Hx) as [-> _]. split.
    - apply (bool_decide_unpack _). done.
    - intros k Hk. cbn [obj_lookup]. destruct (decide (k = "id")) as [->|Hkid]; [by right|].
      left. by rewrite !bool_decide_false. }
  assert (∀ o, obj_get "id" (obj_assign (("answer", o) :: ("audio_binary", f_audio_binary f) ::
      ("attachment", f_attachment f) :: [("id", f_id f)]) (findInputFromList heap es)) = VStr i) as Hid.
  { intros o. unfold obj_get. rewrite obj_assign_lookup by done. destruct (Hl "id") as [->|[_ ->]]; [done| |done].
    cbn. by rewrite Hf. }
  split; [split; [|split]|split].
  - apply obj_assign_wf. unfold obj_wf. cbn. apply (bool_decide_unpack _). done.
  - rewrite Hid. cbn. by rewrite bool_decide_false.
  - rewrite obj_assign_lookup by done. destruct (Hl "content") as [->|[? _]]; done.
  - apply Hid.
  - unfold obj_get. rewrite obj_assign_lookup by done. destruct (Hl "answer") as [->|[? _]]; done.
Qed.

Lemma upsert_last k ans ms : plain_answer ans → obj_get "id" ans = VStr i →
  ms = base ∨ (∃ m0, ms = base ++ [m0] ∧ prop "id" m0 = VStr i) →
  ∃ m, addNewestOneAnswer uuid k ans ms = (base ++ [m], k) ∧ prop "id" m = VStr i ∧
    prop "content" m = obj_get "answer" ans.
Proof.
  intros Hp Hid Hms. unfold addNewestOneAnswer. rewrite Hid. destruct Hms as [->|(m0 & -> & Hm0)].
  - replace (js_findIndex (has_id (VStr i)) base) with (@None nat) by (symmetry; by apply js_findIndex_None).
    destruct (answer_message uuid k ans) as [m k1] eqn:E.
    pose proof (answer_message_spec uuid k ans Hp) as (Hm & Hc & Hk). rewrite E in Hm, Hc, Hk. cbn in *. subst k1.
    exists m. by rewrite <-Hid.
  - assert (has_id (VStr i) m0 = true) as Hm0i by by apply bool_decide_eq_true.
    rewrite js_findIndex_app by done. exists (update_answer ans m0).
    destruct (update_answer_spec ans m0 Hp) as [H1 H2]. rewrite H1, H2, Hid. split; [|done].
    rewrite map_app. cbn [map]. rewrite Hm0i. f_equal. f_equal.
    rewrite <-(map_id base) at 2. apply map_ext_in. intros y Hy%list_elem_of_In. by rewrite Hbase.
Qed.

Lemma first_id es : es ≠ [] → Forall of_run es →
  match es with l :: _ => field heap "message_id" l | [] => VUndef end = VStr i.
Proof. intros Hne Hall. destruct Hall as [|x es [Hx _] _]; [done|exact Hx]. Qed.

Lemma effect_log_run a es : ag_coll a = {| answerList := es; coll_done := false; coll_timer := false |} →
  es ≠ [] → Forall of_run es → push_all (default [] (pool_get i (ag_pool a))) es = es →
  let b := effect_session heap (effect_log heap a) in
  ag_coll b = ag_coll a ∧ ag_messages b = ag_messages a ∧ ag_pool b = assoc_set i es (ag_pool a) ∧
  ag_requests b = ag_requests a ∧ ag_uploads b = ag_uploads a ∧ ag_value b = ag_value a.
Proof.
  intros Hc Hne Hall Hpush b.
  assert (∃ t, addEventList heap es (VStr i) (ag_pool a) (ag_latestTaskId a) = (assoc_set i es (ag_pool a), t)) as [t Ht].
  { destruct es as [|x es]; [done|]. eexists. cbn [addEventList key_of]. by rewrite Hpush. }
  assert (∃ c, effect_log heap a = c ∧ ag_coll c = ag_coll a ∧ ag_messages c = ag_messages a ∧
    ag_pool c = assoc_set i es (ag_pool a) ∧ ag_requests c = ag_requests a ∧
    ag_uploads c = ag_uploads a ∧ ag_value c = ag_value a) as (c & Hb & H).
  { eexists. split; [done|]. unfold effect_log. rewrite Hc. cbn [answerList].
    rewrite (first_id es Hne Hall), Ht. done. }
  unfold b. rewrite Hb. unfold effect_session. destruct (answerList (ag_coll c)) as [|x l]; [done|].
  by destruct (truthy _).
Qed.

Lemma receiving_step es x a : receiving es a → Forall of_run (es ++ [x]) → NoDup (es ++ [x]) →
  ∃ a', agent_step uuid heap pg a (Receive (Some x)) = Ok a' ∧ receiving (es ++ [x]) a' ∧
    ag_requests a' = ag_requests a ∧ ag_uploads a' = ag_uploads a ∧ ag_value a' = ag_value a.
Proof.
  intros [Hc Hm Hp] Hall Hnd.
  assert (es ++ [x] ≠ []) as Hne by by destruct es.
  destruct (findMessageFromList_content (es ++ [x])) as (f & Hf & _ & Hid).
  { rewrite Forall_forall in Hall |- *. intros y [_ Hy]%elem_of_js_filter. by apply Hall. }
  rewrite (first_id _ Hne Hall) in Hid.
  destruct (answer_of_plain (es ++ [x]) f Hall Hne Hid) as (Hplain & Haid & Hans).
  cbn [agent_step]. unfold on_answers, effect_answer.
  set (a1 := effect_message_end heap _).
  assert (ag_coll a1 = {| answerList := es ++ [x]; coll_done := false; coll_timer := false |}) as Hc1.
  { unfold a1. cbn. by rewrite Hc. }
  rewrite Hc1. cbn [answerList]. rewrite Hf. cbn [mbind outcome_bind].
  rewrite bool_decide_true by (rewrite length_app; simpl; lia).
  destruct (upsert_last (ag_drawn a1) (answer_of heap (es ++ [x]) f) (ag_messages a) Hplain Haid) as (m & Hup & Hmid & Hmc).
  { destruct es as [|y es]; [by left|]. right. destruct Hm as (m0 & H1 & H2 & _). by exists m0. }
  change (ag_messages a1) with (ag_messages a). rewrite Hup.
  destruct (effect_log_run (with_messages (base ++ [m], ag_drawn a1) a1) (es ++ [x]) Hc1 Hne Hall) as (E1 & E2 & E3 & E4).
  { change (ag_pool (with_messages _ a1)) with (ag_pool a). rewrite Hp.
    destruct (decide (i = i ∧ es ≠ [])) as [|Hn]; [by apply push_all_snoc|]. rewrite Hpool.
    destruct es; [done|]. by destruct Hn. }
  eexists. split; [done|]. split; [|done]. split.
  - by rewrite E1.
  - rewrite E2. cbn [ag_messages with_messages fst].
    assert (answer_shown (es ++ [x]) = obj_get "answer" (answer_of heap (es ++ [x]) f)) as Hs
      by (unfold answer_shown; by rewrite Hf, Hans).
    rewrite <-Hs in Hmc. destruct (es ++ [x]) eqn:E; [done|]. by exists m.
  - intros k. rewrite E3, pool_get_set. change (ag_pool (with_messages _ a1)) with (ag_pool a). rewrite Hp.
    destruct (decide (k = i)) as [->|Hk]; [by rewrite decide_True|]. by rewrite !decide_False by naive_solver.
Qed.

Lemma receiving_run es a : receiving [] a → Forall of_run es → NoDup es →
  ∃ a', agent_run uuid heap pg a (map (λ x, Receive (Some x)) es) = Ok a' ∧ receiving es a' ∧
    ag_requests a' = ag_requests a ∧ ag_uploads a' = ag_uploads a ∧ ag_value a' = ag_value a.
Proof.
  intros Hr. unfold agent_run. induction es as [|x es IH] using rev_ind; intros Hall Hnd; [by exists a|].
  pose proof Hall as [Hall' _]%Forall_app. pose proof Hnd as (Hnd' & _ & _)%NoDup_app.
  destruct (IH Hall' Hnd') as (a1 & Ha1 & Hr1 & E1 & E2 & E3). rewrite map_app, foldl_app, Ha1.
  destruct (receiving_step es x a1 Hr1 Hall Hnd) as (a2 & Ha2 & Hr2 & F1 & F2 & F3). exists a2.
  split; [exact Ha2|]. split; [done|]. by rewrite F1, F2, F3.
Qed.
End turn.

(** The question is in the list, the request has left. *)
Lemma press_enter_receiving pg i s a :
  ag_coll a = coll_init → str_trim (key_of (ag_value a)) ≠ "" →
  uuid (ag_drawn a) ≠ i → uuid (ag_drawn a) ≠ "" →
  Forall (λ m, prop "id" m ≠ VStr i) (ag_messages a) →
  let content := VStr (str_trim (key_of (ag_value a))) in
  ∃ q params a1, agent_step uuid heap pg a (PressEnter s) = Ok a1 ∧
    receiving i (ag_messages a ++ [q]) (ag_pool a) [] a1 ∧
    (∀ y, y ∈ ag_messages a ++ [q] → has_id (VStr i) y = false) ∧
    prop "role" q = VStr MessageType.User ∧ prop "content" q = content ∧
    ag_value a1 = VStr "" ∧ ag_requests a1 = ag_requests a ++ [params] ∧ obj_get "query" params = content.
Proof.
  intros Hc Hv Hi Hu Hf content.
  set (q := VObj [("id", VStr (uuid (ag_drawn a))); ("content", content); ("role", VStr MessageType.User);
                  ("files", VArr (map file_val (ag_uploads a).2))]).
  exists q. cbn [agent_step]. unfold handlePressEnter. rewrite bool_decide_false by done.
  unfold buildRequestBody. cbv zeta.
  change (coll_done (ag_coll (with_messages _ a))) with (coll_done (ag_coll a)). rewrite Hc. cbn [coll_done coll_init].
  set (a2 := sendMessage _ _ _ _).
  assert (∀ o pre, addNewestOneQuestion uuid (ag_drawn a2) (obj_set "files" o [("id", VStr (uuid (ag_drawn a)));
      ("content", content); ("role", VStr MessageType.User)]) pre =
    (pre ++ [VObj [("id", VStr (uuid (ag_drawn a))); ("content", content); ("role", VStr MessageType.User); ("files", o)]],
     ag_drawn a2)) as Hq.
  { intros o pre. unfold addNewestOneQuestion.
    rewrite (buildMessageUuid_id _ _ _ (VStr (uuid (ag_drawn a)))); [reflexivity|reflexivity|].
    cbn. by rewrite bool_decide_false. }
  eexists _, _. split; [done|]. rewrite Hq. split; [|split; [|split; [done|split; [done|split; [done|split; [done|]]]]]].
  - split; [|done|].
    + unfold a2. cbn. by rewrite Hc.
    + intros k. by rewrite decide_False by naive_solver.
  - intros y [Hy|Hy%list_elem_of_singleton]%elem_of_app; apply bool_decide_eq_false.
    + rewrite Forall_forall in Hf. by apply Hf.
    + subst y. by intros [= ?].
  - unfold send_params. cbn. by destruct (truthy _).
Qed.

(** C7: a turn of the chat. When nothing is in progress, sending the text
    typed and receiving the events of the run leaves the earlier messages
    alone and adds the question and one answer, under the identifier of the
    run, whose content is what all the events of the run amount to; the log
    of the run is the list of its events, each once and in order, and the
    logs of other runs are untouched; one request was sent, with the text;
    and the page is idle again, its input and uploads empty. *)
Theorem agent_turn pg i a s es message :
  ag_coll a = coll_init → str_trim (key_of (ag_value a)) ≠ "" →
  i ≠ "" → uuid (ag_drawn a) ≠ i → uuid (ag_drawn a) ≠ "" →
  Forall (λ m, prop "id" m ≠ VStr i) (ag_messages a) → pool_get i (ag_pool a) = None →
  es ≠ [] → NoDup es → Forall (of_run i) es →
  ∃ a' q ans params,
    agent_run uuid heap pg a
      (PressEnter s :: map (λ x, Receive (Some x)) es ++ [StreamEnd; Answered message VUndef; TimerFires]) = Ok a' ∧
    ag_messages a' = ag_messages a ++ [q; ans] ∧
    prop "role" q = VStr MessageType.User ∧ prop "content" q = VStr (str_trim (key_of (ag_value a))) ∧
    prop "id" ans = VStr i ∧ prop "content" ans = answer_shown es ∧
    (∀ k, pool_get k (ag_pool a') = if decide (k = i) then Some es else pool_get k (ag_pool a)) ∧
    ag_requests a' = ag_requests a ++ [params] ∧ obj_get "query" params = VStr (str_trim (key_of (ag_value a))) ∧
    ag_coll a' = coll_init ∧ ag_value a' = VStr "" ∧ ag_uploads a' = ([], []).
Proof.
  intros Hc Hv Hi Hui Hu Hf Hp Hne Hnd Hall.
  destruct (press_enter_receiving pg i s a Hc Hv Hui Hu Hf) as (q & params & a1 & H1 & Hr1 & Hb & Hrole & Hq & Hv1 & Hreq & Hquery).
  destruct (receiving_run pg i _ _ Hi Hb Hp es a1 Hr1 Hall Hnd) as (a2 & H2 & [Hc2 Hm2 Hp2] & E1 & E2 & E3).
  assert (∃ a3, agent_run uuid heap pg a2 [StreamEnd; Answered message VUndef; TimerFires] = Ok a3 ∧
    ag_coll a3 = coll_init ∧ ag_messages a3 = ag_messages a2 ∧ ag_pool a3 = ag_pool a2 ∧
    ag_requests a3 = ag_requests a2 ∧ ag_uploads a3 = ([], []) ∧ ag_value a3 = ag_value a2)
    as (a3 & H3 & Hc3 & Hm3 & Hp3 & Hreq3 & Hup3 & Hv3).
  { unfold agent_run. cbn [foldl mbind outcome_bind agent_step]. unfold after_send. cbn [receiveMessageError truthy].
    cbn [mbind outcome_bind ag_coll with_coll with_uploads coll_step resetAnswerList coll_timer].
    rewrite Hc2. eexists. split; [reflexivity|]. done. }
  destruct es as [|e0 es0] eqn:Ees; [done|]. rewrite <-Ees in *. destruct Hm2 as (ans & Hm2 & Hid & Hcont).
  exists a3, q, ans, params. split.
  { unfold agent_run in *. cbn [foldl]. rewrite foldl_app. cbn [mbind outcome_bind]. rewrite H1, H2. exact H3. }
  split; [by rewrite Hm3, Hm2, <-app_assoc|]. do 4 (split; [done|]).
  split.
  { intros k. rewrite Hp3, Hp2. destruct (decide (k = i)); [by rewrite decide_True by (subst; done)|].
    by rewrite decide_False by naive_solver. }
  rewrite Hreq3, E1. do 3 (split; [done|]). split; [|done]. by rewrite Hv3, E3.
Qed.
End agent_props.

(** ** Examples and witnesses *)
Definition msg_event (content : string) (b e : bool) : obj :=
  [("event", VStr "message"); ("message_id", VStr "m1"); ("task_id", VStr "t");
   ("data", VObj [("content", VStr content); ("start_to_think", VBool b); ("end_to_think", VBool e)])].

Definition heap0 (l : loc) : obj :=
  match l with
  | 0 => msg_event "" true false
  | 1 => msg_event "hm" false false
  | 2 => msg_event "" false true
  | _ => msg_event "Yes" false false
  end.

Lemma findMessageFromList_content_witness :
  ∃ f, findMessageFromList heap0 [0; 1; 2; 3] = Ok f ∧ f_content f = "<think>hm</think>Yes".
Proof.
  destruct (findMessageFromList_content heap0 [0; 1; 2; 3]) as (f & Hf & Hc & _).
  - repeat constructor.
  - exists f. split; [exact Hf|exact Hc].
Defined.

(** The second thinking section of a run is not closed while it lasts: the
    first one has ended. *)
Lemma second_thinking_unclosed :
  ∃ f, findMessageFromList heap0 [0; 1; 2; 3; 0; 1] = Ok f ∧ f_content f = "<think>hm</think>Yes<think>hm".
Proof. eexists. split; vm_compute; reflexivity. Qed.

Definition page0 : page :=
  {| pg_agentId := VStr "a"; pg_hint := VStr "is running..."; pg_inputs := []; pg_releaseMode := VNull;
     pg_isTaskMode := false; pg_isShared := false |}.

Definition agent0 : agent :=
  {| ag_coll := coll_init; ag_messages := [VObj [("id", VStr "p"); ("content", VStr "Welcome")]]; ag_drawn := 0;
     ag_sessionId := VNull; ag_ends := []; ag_pool := []; ag_latestTaskId := VStr ""; ag_value := VStr " hello ";
     ag_uploads := ([], []); ag_sendedTaskMessage := false; ag_requests := [] |}.

Lemma agent_turn_witness :
  ∃ a', agent_run uuid0 heap0 page0 agent0
    (PressEnter VUndef :: map (λ x, Receive (Some x)) [0; 1; 2; 3] ++ [StreamEnd; Answered [] VUndef; TimerFires]) = Ok a' ∧
    ag_coll a' = coll_init ∧ pool_get "m1" (ag_pool a') = Some [0; 1; 2; 3].
Proof.
  destruct (agent_turn uuid0 heap0 page0 "m1" agent0 VUndef [0; 1; 2; 3] [])
    as (a' & q & ans & params & H & _ & _ & _ & _ & _ & Hp & _ & _ & Hc & _).
  1-10: first [reflexivity|done|repeat constructor; done|idtac].
  - apply (bool_decide_unpack _); vm_compute; exact I.
  - exists a'. split; [exact H|]. split; [exact Hc|]. by rewrite Hp.
Defined.

(** A request the server refuses before any event: the question had added one
    message, [removeLatestMessage] removes two, so the message before the
    question goes with it. *)
Lemma refused_request_removes_two :
  ∃ a', agent_run uuid0 heap0 page0 agent0
    [PressEnter VUndef; StreamEnd;
     Answered [("content", VStr "hello")]
       (VObj [("response", VObj [("status", VNum (num_of_Z 200))]); ("data", VObj [("code", VNum (num_of_Z 102))])])]
    = Ok a' ∧ ag_messages a' = [].
Proof. eexists. split; vm_compute; reflexivity. Qed.

(** A message sent within the second that follows a run is answered in the
    message of that run. *)
Lemma quick_resend_merges_answers :
  ∃ a', agent_run uuid0 heap0 page0 agent0
    [PressEnter VUndef; Receive (Some 3); StreamEnd; TypeText "again"; PressEnter VUndef; Receive (Some 1)] = Ok a' ∧
    map (prop "content") (ag_messages a') = [VStr "Welcome"; VStr "hello"; VStr "Yeshm"; VStr "again"].
Proof. eexists. split; vm_compute; reflexivity. Qed.
