(* ===== verification/Chat.v ===== *)
(** * The chat page

    pages/next-chats/hooks: [useSendMessage] (use-send-chat-message.ts) with
    the URL parameters and the creation of a conversation before its first
    question (use-chat-url.ts, use-set-conversation.ts), the uploaded files
    (use-upload-file.ts), the list of conversations
    (use-select-conversation-list.ts), and the references of utils.ts.  The
    page is a client of the message list ([Messages]) and of the answer
    stream ([Streaming]): a step is what the user, the router or the server
    does, followed by the effects React runs for what changed.  [uuid] is the
    stream of drawn identifiers; an uploaded file record is known by its
    reference, [heap l] is its content. *)
From S2P Require Import Prelude JsValue Libs FormUtils Messages Streaming.
From S2P Require AgentChat.
Open Scope list_scope.
Open Scope nat_scope.
Open Scope js_scope.

(** ** Identifiers and references *)
Definition EmptyConversationId : string := "empty".

Definition isConversationIdExist (conversationId : string) : bool :=
  (conversationId !== EmptyConversationId) && (conversationId !== "").

(** [uuid().replace(/-/g, '')] *)
Definition remove_dashes (s : string) : string :=
  String.string_of_list_ascii (js_filter (λ a, a !== Ascii.ascii_of_nat 45) (String.list_ascii_of_string s)).

Definition generateConversationId (uuid : nat → string) (k : nat) : string := remove_dashes (uuid k).

(** The documents the references of a conversation name, each once. *)
Definition getDocumentIdsFromConversionReference (references : list val) : string :=
  String.concat "," (map key_of (foldl (λ pre cur,
    push_all pre (map (prop "doc_id") (arr_of_val (prop "doc_aggs" cur)))) [] references)).

Definition answered (x : val) : bool :=
  (prop "role" x === VStr MessageType.Assistant) && negb (starts_with "**ERROR**:" (key_of (prop "content" x))).

(** The reference of a message: its own, or the one the conversation keeps at
    the place of the answer among the answers after the first. *)
Definition buildMessageItemReference `{Lodash} (messages references : list val) (message : val) : val :=
  let assistantMessages := drop 1 (js_filter answered messages) in
  let reference :=
    if negb (lo_isEmpty (prop "reference" message)) then prop "reference" message
    else match js_findIndex (has_id (prop "id" message)) assistantMessages with
         | Some referenceIndex => default VUndef (references !! referenceIndex)
         | None => VUndef
         end in
  js_coalesce reference (VObj [("doc_aggs", VArr []); ("chunks", VArr []); ("total", VNum (num_of_Z 0))]).

(** ** Uploaded files *)

(** [fileMap] is one Map that is changed in place: an entry per File object,
    at the place of its first upload, with the record of the last. *)
Abbreviation File := nat (only parsing).

Record uploads := { currentFiles : list loc; fileMap : list (File * loc) }.

Definition no_uploads : uploads := {| currentFiles := []; fileMap := [] |}.

(** What is kept of an upload whose reply has code 0. *)
Definition file_uploaded (file : File) (data : loc) (u : uploads) : uploads :=
  {| currentFiles := currentFiles u ++ [data]; fileMap := map_set file data (fileMap u) |}.

(** [removeFile]: while an upload runs it is cancelled instead. *)
Definition remove_file (loading : bool) (file : File) (u : uploads) : uploads :=
  if loading then u
  else match map_get file (fileMap u) with
       | Some id => {| currentFiles := js_filter (λ item, item !== id) (currentFiles u); fileMap := fileMap u |}
       | None => u
       end.

(** ** The list of conversations *)
Definition addTemporaryConversation (conversationId dialogId name prologue : val) (conversationList pre : list val)
    : list val * bool :=
  if truthy dialogId then
    (VObj [("id", conversationId); ("name", name); ("dialog_id", dialogId); ("is_new", VBool true);
           ("message", VArr [VObj [("content", prologue); ("role", VStr MessageType.Assistant)]])]
     :: conversationList, true)
  else (pre, false).

Definition removeTemporaryConversation (conversationId : val) (prevList : list val) : list val :=
  js_filter (λ conversation, prop "id" conversation !== conversationId) prevList.

(** *** The batch deletion of conversations (chat/sessions.tsx) *)
Definition toggleSelection (id : string) (prev : list string) : list string :=
  if js_includes prev id then js_filter (λ x, x !== id) prev else prev ++ [id].

Definition toggleSelectAll (ids prev : list string) : list string :=
  if length prev === length ids then [] else push_all [] ids.

(** The identifiers removed on the spot, the ones sent to the server, and,
    given the code the server answers, whether the page leaves the
    conversation it shows. *)
Definition handleBatchDelete (conversationId : string) (conversations : list (string * bool))
    (selectedIds : list string) : list string * list string * (Z → bool) :=
  let temporary := map fst (js_filter snd conversations) in
  let removedHere := js_filter (js_includes temporary) selectedIds in
  let persistedIds := js_filter (λ id, negb (js_includes temporary id)) selectedIds in
  (removedHere, persistedIds,
   λ code,
     let removeCode := if persistedIds === [] then (-1)%Z else code in
     let currentConversationDeleted := (conversationId !== "") && js_includes selectedIds conversationId in
     currentConversationDeleted &&
     (js_includes temporary conversationId || (js_includes persistedIds conversationId && (removeCode === 0%Z)))).

(** ** The page *)

(** [conversationId] and [isNew] of the URL. *)
Abbreviation url := (string * string)%type (only parsing).

Section chat.
Context {L : Lodash} (uuid : nat → string) (heap : loc → val).

(** What a press of Enter keeps while a conversation is created for it: the
    values its closure holds. *)
Record press := {
  p_value : string;
  p_files : list loc;
  p_done : bool;
  p_messages : list val;
  p_thinking : val;
  p_internet : val;
  p_params : url;
  p_target : string
}.

Record chat := {
  ch_messages : list val;
  ch_sse : sse;
  ch_drawn : nat;
  ch_url : url;
  ch_value : string;
  ch_uploads : uploads;
  ch_pending : list press;
  ch_requests : list obj
}.

(** What is fixed for a page: the dialog of its route and its prologue. *)
Record dialog := { dialogId : string; prologue : val }.

Definition with_list (m : list val * nat) (c : chat) : chat :=
  {| ch_messages := m.1; ch_sse := ch_sse c; ch_drawn := m.2; ch_url := ch_url c; ch_value := ch_value c;
     ch_uploads := ch_uploads c; ch_pending := ch_pending c; ch_requests := ch_requests c |}.

Definition with_sse (s : sse) (c : chat) : chat :=
  {| ch_messages := ch_messages c; ch_sse := s; ch_drawn := ch_drawn c; ch_url := ch_url c; ch_value := ch_value c;
     ch_uploads := ch_uploads c; ch_pending := ch_pending c; ch_requests := ch_requests c |}.

Definition with_url (u : url) (c : chat) : chat :=
  {| ch_messages := ch_messages c; ch_sse := ch_sse c; ch_drawn := ch_drawn c; ch_url := u; ch_value := ch_value c;
     ch_uploads := ch_uploads c; ch_pending := ch_pending c; ch_requests := ch_requests c |}.

Definition setValue (v : string) (c : chat) : chat :=
  {| ch_messages := ch_messages c; ch_sse := ch_sse c; ch_drawn := ch_drawn c; ch_url := ch_url c; ch_value := v;
     ch_uploads := ch_uploads c; ch_pending := ch_pending c; ch_requests := ch_requests c |}.

Definition with_uploads (u : uploads) (c : chat) : chat :=
  {| ch_messages := ch_messages c; ch_sse := ch_sse c; ch_drawn := ch_drawn c; ch_url := ch_url c;
     ch_value := ch_value c; ch_uploads := u; ch_pending := ch_pending c; ch_requests := ch_requests c |}.

Definition with_pending (ps : list press) (c : chat) : chat :=
  {| ch_messages := ch_messages c; ch_sse := ch_sse c; ch_drawn := ch_drawn c; ch_url := ch_url c;
     ch_value := ch_value c; ch_uploads := ch_uploads c; ch_pending := ps; ch_requests := ch_requests c |}.

(** *** Effects *)

(** The effect of [useSelectNextMessages]. *)
Definition addPrologue (d : dialog) (c : chat) : chat :=
  if (dialogId d !== "") && ((ch_url c).2 === "true") then
    with_list ([VObj [("role", VStr MessageType.Assistant); ("content", prologue d); ("id", VStr (uuid (ch_drawn c)));
                      ("conversationId", VStr (ch_url c).1)]], S (ch_drawn c)) c
  else c.

(** The effect on [answer], [conversationId] and [isNew]. *)
Definition effect_answer (c : chat) : chat :=
  let answer := sse_answer (ch_sse c) in
  if truthy (obj_get "answer" answer) && ((ch_url c).1 !== "") && ((ch_url c).2 !== "true")
  then with_list (addNewestAnswer uuid (ch_drawn c) answer (ch_messages c)) c else c.

(** A change of the URL and what it triggers; the last effect is that of
    [SingleChatBox]. *)
Definition setSearchParams (d : dialog) (u : url) (c : chat) : chat :=
  if u === ch_url c then c
  else
    let left := (u.1 !== (ch_url c).1) && (u.1 === "") in
    let c := effect_answer (addPrologue d (with_url u c)) in
    if left then with_list ([], ch_drawn c) c else c.

(** *** Requests *)
Definition request_body (conversationId : string) (messages derivedMessages : list val) (message : obj)
    (enableThinking enableInternet : val) : obj :=
  [("conversation_id", VStr conversationId);
   ("messages", VArr ((match messages with [] => derivedMessages | _ => messages end) ++ [VObj message]));
   ("reasoning", enableThinking); ("internet", enableInternet)].

(** [send(body)]: the request leaves and the hook is busy. *)
Definition send (body : obj) (c : chat) : chat :=
  {| ch_messages := ch_messages c; ch_sse := setDoneValue (VObj body) false (ch_sse c); ch_drawn := ch_drawn c;
     ch_url := ch_url c; ch_value := ch_value c; ch_uploads := ch_uploads c; ch_pending := ch_pending c;
     ch_requests := ch_requests c ++ [body] |}.

Definition question (id : string) (content : string) (files : list loc) (conversationId : string) : obj :=
  [("content", VStr content); ("files", VArr (map heap files)); ("id", VStr id); ("role", VStr MessageType.User);
   ("conversationId", VStr conversationId)].

Definition sent_message (id : string) (content : string) (files : list loc) (conversationId : string) : obj :=
  [("id", VStr id); ("content", VStr content); ("role", VStr MessageType.User); ("files", VArr (map heap files));
   ("conversationId", VStr conversationId)].

(** The rest of [handlePressEnter], once the conversation exists. *)
Definition submit (p : press) (currentMessages : list val) (c : chat) : chat :=
  let id := uuid (ch_drawn c) in
  let c := with_list (addNewestQuestion uuid (S (ch_drawn c))
             (question id (p_value p) (p_files p) (p_target p)) (VStr "") (ch_messages c)) c in
  let c :=
    if p_done p then
      send (request_body (p_target p) currentMessages (p_messages p)
              (sent_message id (str_trim (p_value p)) (p_files p) (p_target p)) (p_thinking p) (p_internet p))
        (setValue "" c)
    else c in
  with_uploads no_uploads c.

(** [handlePressEnter] with [createConversationBeforeSendMessage]: an
    existing conversation is answered at once; a new one is first saved under
    a drawn identifier, and the press waits for the reply. *)
Definition handlePressEnter (d : dialog) (enableThinking enableInternet : val) (c : chat) : chat :=
  if str_trim (ch_value c) === "" then c
  else
    let '(conversationId, isNew) := ch_url c in
    let currentConversationId := generateConversationId uuid (ch_drawn c) in
    let target := if conversationId === "" then currentConversationId else conversationId in
    let params := if conversationId === "" then (currentConversationId, "true") else ch_url c in
    let p := {| p_value := ch_value c; p_files := currentFiles (ch_uploads c); p_done := sse_done (ch_sse c);
                p_messages := ch_messages c; p_thinking := enableThinking; p_internet := enableInternet;
                p_params := params; p_target := target |} in
    let c := with_list (ch_messages c, S (ch_drawn c)) c in
    if (conversationId === "") || (isNew === "true") then
      setSearchParams d params (with_pending (ch_pending c ++ [p]) c)
    else submit p [] c.

(** The reply [{ code, data }] to the saved conversation: [setIsNew('')] goes
    through the closure's own search parameters. *)
Definition conversation_saved (d : dialog) (data : val) (c : chat) : chat :=
  match ch_pending c with
  | [] => c
  | p :: ps =>
      let c := with_pending ps c in
      if prop "code" data === VNum (num_of_Z 0) then
        submit p (arr_of_val (prop "message" (prop "data" data))) (setSearchParams d ((p_params p).1, "") c)
      else c
  end.

(** What follows once [send] has returned [res]. *)
Definition send_returned (content : string) (res : val) (c : chat) : outcome chat :=
  failed ← AgentChat.receiveMessageError res;
  Ok (if (failed : bool) then with_list (removeLatestMessage (ch_messages c), ch_drawn c) (setValue content c) else c).

Definition regenerate (message : obj) (c : chat) : chat :=
  let '(messages, sent, k) := regenerateMessage uuid (ch_drawn c) message (ch_messages c) (ch_messages c) in
  match sent with
  | Some (m, nextMessages) =>
      send (request_body (ch_url c).1 (default [] nextMessages) (ch_messages c) (obj_of_val m) VUndef VUndef)
        (with_list (messages, k) c)
  | None => c
  end.

(** *** Files before the first question

    Choosing files in a new conversation first saves a conversation named
    after the first file; the reply ends its being new.  [params] are the
    search parameters the closure holds. *)
Definition createConversationBeforeUploadFile (d : dialog) (c : chat) : chat :=
  let '(conversationId, isNew) := ch_url c in
  if (conversationId === "") || (isNew === "true") then
    let currentConversationId := generateConversationId uuid (ch_drawn c) in
    let c := with_list (ch_messages c, S (ch_drawn c)) c in
    if conversationId === "" then setSearchParams d (currentConversationId, "true") c else c
  else c.

Definition upload_conversation_saved (d : dialog) (params : url) (data : val) (c : chat) : chat :=
  if prop "code" data === VNum (num_of_Z 0) then setSearchParams d (params.1, "") c else c.

(** *** Steps *)
Inductive chat_event :=
  | TypeValue (value : string)
  | EnterPressed (enableThinking enableInternet : val)
  | ConversationSaved (data : val)
  | Streamed (e : sse_event)
  | SendReturned (content : string) (res : val)
  | RegenerateClicked (message : obj)
  | RemoveClicked (messageId : val)
  | CardClicked (conversationId : string) (isNew : bool)
  | ConversationFetched (messages : list val)
  | FilesChosen
  | UploadConversationSaved (params : url) (data : val)
  | FileUploaded (file : File) (data : loc)
  | FileRemoved (loading : bool) (file : File).

Definition chat_step (d : dialog) (c : chat) (e : chat_event) : outcome chat :=
  match e with
  | TypeValue value => Ok (setValue (handleInputChange value) c)
  | EnterPressed enableThinking enableInternet => Ok (handlePressEnter d enableThinking enableInternet c)
  | ConversationSaved data => Ok (conversation_saved d data c)
  | Streamed e =>
      s ← sse_step (ch_sse c) e;
      Ok (if answer_changes e then effect_answer (with_sse s c) else with_sse s c)
  | SendReturned content res => send_returned content res c
  | RegenerateClicked message => Ok (regenerate message c)
  | RemoveClicked messageId => Ok (with_list (removeMessageById messageId (ch_messages c), ch_drawn c) c)
  | CardClicked conversationId isNew => Ok (setSearchParams d (conversationId, if isNew then "true" else "") c)
  | ConversationFetched messages => Ok (with_list (messages, ch_drawn c) c)
  | FilesChosen => Ok (createConversationBeforeUploadFile d c)
  | UploadConversationSaved params data => Ok (upload_conversation_saved d params data c)
  | FileUploaded file data => Ok (with_uploads (file_uploaded file data (ch_uploads c)) c)
  | FileRemoved loading file => Ok (with_uploads (remove_file loading file (ch_uploads c)) c)
  end.

(** The page when it is opened at a URL. *)
Definition chat_init (d : dialog) (u : url) : chat :=
  let c := addPrologue d
    {| ch_messages := []; ch_sse := sse_init; ch_drawn := 0; ch_url := u; ch_value := ""; ch_uploads := no_uploads;
       ch_pending := []; ch_requests := [] |} in
  if u.1 === "" then with_list ([], ch_drawn c) c else c.

Definition chat_run (d : dialog) (c : chat) (es : list chat_event) : outcome chat :=
  foldl (λ m e, m ≫= λ c, chat_step d c e) (Ok c) es.
End chat.

(** ** Properties *)
Section chat_props.
Context {L : Lodash} {LL : LodashLaws L} (uuid : nat → string) (heap : loc → val) (d : dialog).

(** A chunk's data: an object that answers the message [i]. *)
Definition chunk_for (i v : val) : Prop :=
  ∃ o, v = VObj o ∧ obj_wf o ∧ obj_get "id" o = i ∧ obj_lookup "content" o = None.

Lemma chat_run_app c es1 es2 :
  chat_run uuid heap d c (es1 ++ es2) = chat_run uuid heap d c es1 ≫= λ c', chat_run uuid heap d c' es2.
Proof. apply foldl_bind_app. Qed.

Lemma chat_run_cons c e es :
  chat_run uuid heap d c (e :: es) = chat_step uuid heap d c e ≫= λ c', chat_run uuid heap d c' es.
Proof. apply (chat_run_app c [e] es). Qed.

Lemma next_text_nonempty p x : p ≠ "" → next_text p x ≠ "".
Proof.
  intros Hp. unfold next_text, marked. rewrite bool_decide_false by done. cbn [negb andb].
  assert (∀ s t : string, s ≠ "" → s +:+ t ≠ "") as Happ by (by intros [|? ?]).
  destruct (starts_with p (text x)) eqn:E; do 2 apply Happ; [|by apply Happ].
  intros Hx. rewrite Hx in E. by destruct p.
Qed.

(** What a chunk makes of the answer. *)
Lemma receive_for body v x prev p i : chunk_is v x → chunk_for i v → truthy i = true → answer_text prev p →
  ∃ a, receive_answer body v prev = Ok a ∧ answer_text a (next_text p x) ∧ plain_answer a ∧ obj_get "id" a = i.
Proof.
  intros Hc (o & -> & Hw & Hi & Hn) Ht Hp. destruct (receive_text body (VObj o) x prev p Hc Hp) as (a & Ha & Hat).
  exists a. split; [done|]. split; [done|]. revert Ha. unfold receive_answer. intros (a0 & _ & Ha)%bind_Ok.
  apply bind_Ok in Ha as (t & _ & [= <-]). unfold spread. cbn [obj_of_val].
  assert (∀ key, key ∉ ["answer"; "conversationId"; "chatBoxId"] → ∀ v1 v2 v3,
    obj_lookup key (obj_set "chatBoxId" v1 (obj_set "conversationId" v2 (obj_set "answer" v3 (obj_assign [] o))))
      = obj_lookup key o) as Hl.
  { intros key Hk v1 v2 v3. rewrite !obj_lookup_set_ne by set_solver. rewrite obj_assign_lookup by done.
    by destruct (obj_lookup key o). }
  assert (obj_lookup "id" o = Some i) as Hid.
  { unfold obj_get in Hi. destruct (obj_lookup "id" o); [by subst|]. by subst i. }
  assert ("id" ∉ ["answer"; "conversationId"; "chatBoxId"]) by (apply (bool_decide_unpack _); vm_compute; exact I).
  assert ("content" ∉ ["answer"; "conversationId"; "chatBoxId"]) by (apply (bool_decide_unpack _); vm_compute; exact I).
  unfold plain_answer, obj_get. rewrite !Hl, Hid by done. repeat split; [|done..].
  repeat apply obj_set_wf. apply obj_assign_wf. constructor.
Qed.

(** An identified answer draws no identifier. *)
Lemma answer_message_plain k a : plain_answer a → answer_message uuid k a = ((answer_message uuid 0 a).1, k).
Proof.
  intros (_ & Ht & _). unfold answer_message. by rewrite !(buildMessageUuid_id uuid _ _ (obj_get "id" a)).
Qed.

(** The chunk [v] takes the last message from the text [p] to the next. *)
Lemma shown_step body i pre p a0 v x prev : truthy i = true → prop "content" a0 = VStr p → prop "id" a0 = i →
  answer_text prev p → chunk_is v x → chunk_for i v →
  ∃ a m, receive_answer body v prev = Ok a ∧ answer_text a (next_text p x) ∧
    truthy (obj_get "answer" a) = (next_text p x !== "") ∧
    (∀ k, (if truthy (obj_get "answer" a) then addNewestAnswer uuid k a (pre ++ [a0]) else (pre ++ [a0], k)) =
      (pre ++ [m], k)) ∧ prop "content" m = VStr (next_text p x) ∧ prop "id" m = i.
Proof.
  intros Ht Hc0 Hi0 Htext Hx Hv. destruct (receive_for body v x prev p i Hx Hv Ht Htext) as (a & Ha & Hat & Hplain & Hai).
  assert (truthy (obj_get "answer" a) = (next_text p x !== "")) as Heq.
  { unfold answer_text, js_or in Hat. destruct (truthy (obj_get "answer" a)) eqn:E.
    - by rewrite Hat in E.
    - injection Hat as <-. by rewrite bool_decide_true. }
  destruct (decide (next_text p x = "")) as [Hn|Hn].
  - destruct (decide (p = "")) as [->|Hp]; [|by destruct (next_text_nonempty p x Hp)].
    exists a, a0. rewrite Heq, Hn, bool_decide_true by done. rewrite Hn in Hat. repeat split; done.
  - exists a, (answer_message uuid 0 a).1. rewrite Heq, bool_decide_false by done. cbn [negb].
    destruct (answer_message_spec uuid 0 a Hplain) as (Hid & Hcont & _). split; [done|]. split; [done|]. split; [done|]. split.
    + intros k. unfold addNewestAnswer. rewrite answer_message_plain by done. by rewrite drop_last_app.
    + rewrite Hcont, Hid. split; [|done]. rewrite bool_decide_false in Heq by done.
      unfold answer_text, js_or in Hat. by rewrite Heq in Hat.
Qed.

Definition stream_events (body : val) (ds : list val) : list chat_event :=
  map (λ v, Streamed (Chunk body (Some (VObj [("data", v)])))) ds.

(** The page while the answer [i] is shown with the text [p] after [pre]. *)
Record showing (i : val) (pre : list val) (p : string) (c0 c : chat) : Prop := {
  sh_last : ∃ a, ch_messages c = pre ++ [a] ∧ prop "content" a = VStr p ∧ prop "id" a = i;
  sh_text : answer_text (sse_answer (ch_sse c)) p;
  sh_drawn : ch_drawn c = ch_drawn c0;
  sh_url : ch_url c = ch_url c0;
  sh_value : ch_value c = ch_value c0;
  sh_uploads : ch_uploads c = ch_uploads c0;
  sh_pending : ch_pending c = ch_pending c0;
  sh_requests : ch_requests c = ch_requests c0;
  sh_done : sse_done (ch_sse c) = sse_done (ch_sse c0)
}.

Lemma stream_step body i pre p c0 c v x : (ch_url c0).1 ≠ "" → (ch_url c0).2 ≠ "true" → truthy i = true →
  showing i pre p c0 c → chunk_is v x → chunk_for i v →
  ∃ c', chat_step uuid heap d c (Streamed (Chunk body (Some (VObj [("data", v)])))) = Ok c' ∧
    showing i pre (next_text p x) c0 c'.
Proof.
  intros Hu1 Hu2 Ht [(a0 & Hm & Hc0 & Hi0) Htext ? Hurl ? ? ? ? ?] Hx Hv.
  destruct (shown_step body i pre p a0 v x _ Ht Hc0 Hi0 Htext Hx Hv) as (a & m & Ha & Hat & _ & Hadd & Hcont & Hid).
  destruct Hv as (o & -> & _).
  cbn [chat_step sse_step answer_changes]. change (prop "data" (VObj [("data", VObj o)])) with (VObj o).
  cbn [typeof]. rewrite (bool_decide_false ("object" = "boolean")) by done. cbn [negb].
  rewrite Ha. cbn [mbind outcome_bind]. eexists. split; [done|].
  set (c1 := with_sse _ c).
  assert (effect_answer uuid c1 = with_list (pre ++ [m], ch_drawn c) c1) as ->.
  { unfold effect_answer. change (sse_answer (ch_sse c1)) with a. change (ch_url c1) with (ch_url c). rewrite Hurl.
    rewrite (bool_decide_false _ Hu1), (bool_decide_false _ Hu2). cbn [negb]. rewrite !andb_true_r.
    rewrite <-(Hadd (ch_drawn c)). change (ch_messages c1) with (ch_messages c). change (ch_drawn c1) with (ch_drawn c).
    rewrite Hm. by destruct (truthy (obj_get "answer" a)); [|destruct c; cbn in *; subst]. }
  split; try done. by exists m.
Qed.

Lemma stream_steps body i pre p c0 c ds xs : (ch_url c0).1 ≠ "" → (ch_url c0).2 ≠ "true" → truthy i = true →
  showing i pre p c0 c → Forall2 chunk_is ds xs → Forall (chunk_for i) ds →
  ∃ c', chat_run uuid heap d c (stream_events body ds) = Ok c' ∧ showing i pre (foldl next_text p xs) c0 c'.
Proof.
  intros Hu1 Hu2 Ht Hs Hall. revert p c Hs. induction Hall as [|v x ds xs Hx _ IH]; intros p c Hs Hd; [by exists c|].
  apply Forall_cons in Hd as [Hv Hd].
  destruct (stream_step body i pre p c0 c v x Hu1 Hu2 Ht Hs Hx Hv) as (c1 & H1 & Hs1).
  destruct (IH (next_text p x) c1 Hs1 Hd) as (c2 & H2 & Hs2). exists c2. split; [|done].
  unfold stream_events. cbn [map]. rewrite chat_run_cons, H1. exact H2.
Qed.

(** An existing conversation with nothing in flight and a text typed. *)
Record ready (c : chat) : Prop := {
  rd_conversation : (ch_url c).1 ≠ "";
  rd_old : (ch_url c).2 ≠ "true";
  rd_value : str_trim (ch_value c) ≠ "";
  rd_done : sse_done (ch_sse c) = true;
  rd_answer : sse_answer (ch_sse c) = []
}.

(** The question and the request that a press of Enter in [c] makes. *)
Definition asked (c : chat) : val :=
  VObj (question heap (uuid (S (ch_drawn c))) (ch_value c) (currentFiles (ch_uploads c)) (ch_url c).1).

Definition request_of (c : chat) (t w : val) : obj :=
  request_body (ch_url c).1 [] (ch_messages c)
    (sent_message heap (uuid (S (ch_drawn c))) (str_trim (ch_value c)) (currentFiles (ch_uploads c)) (ch_url c).1) t w.

(** A question and its empty answer, under one identifier. *)
Definition empty_answer (id conversationId : string) : val :=
  VObj [("role", VStr MessageType.Assistant); ("content", VStr ""); ("conversationId", VStr conversationId); ("id", VStr id)].

Lemma question_added k id content files conversationId pre : id ≠ "" →
  addNewestQuestion uuid k (question heap id content files conversationId) (VStr "") pre =
    (pre ++ [VObj (question heap id content files conversationId); empty_answer id conversationId], k).
Proof.
  intros Hid. assert (truthy (VStr id) = true) as Ht by (cbn; by rewrite bool_decide_false).
  unfold addNewestQuestion. rewrite (buildMessageUuid_id uuid _ _ (VStr id)) by done.
  by rewrite (buildMessageUuid_id uuid _ _ (VStr id)).
Qed.

(** The page right after Enter. *)
Lemma press_ready c t w : ready c → uuid (S (ch_drawn c)) ≠ "" →
  let i := VStr (uuid (S (ch_drawn c))) in
  let body := request_of c t w in
  ∃ c1, chat_step uuid heap d c (EnterPressed t w) = Ok c1 ∧
    showing i (ch_messages c ++ [asked c]) "" c1 c1 ∧ ch_url c1 = ch_url c ∧ ch_value c1 = "" ∧
    ch_uploads c1 = no_uploads ∧ ch_pending c1 = ch_pending c ∧ ch_requests c1 = ch_requests c ++ [body] ∧
    sse_done (ch_sse c1) = false.
Proof.
  intros [Hu1 Hu2 Hv Hd Ha] Hid i body. cbn [chat_step]. unfold handlePressEnter.
  rewrite (bool_decide_false _ Hv). destruct (ch_url c) as [cid new] eqn:Hu. cbn [fst snd] in *.
  rewrite (bool_decide_false _ Hu1), (bool_decide_false _ Hu2). cbn [orb]. eexists. split; [done|].
  unfold submit. cbn [p_value p_files p_done p_messages p_thinking p_internet p_params p_target]. rewrite Hd.
  cbn [with_list ch_drawn ch_messages snd fst].
  rewrite question_added by done.
  split; [|unfold send, setDoneValue; subst body; unfold request_of; rewrite Hu; repeat split; exact Hu].
  split; try done.
  - exists (empty_answer (uuid (S (ch_drawn c))) cid). split; [|done]. rewrite <-app_assoc. unfold asked. by rewrite Hu.
  - unfold answer_text, send, setDoneValue. cbn. by rewrite Ha.
Qed.

(** C9: a turn of the chat page.  On an existing conversation with nothing
    in flight, Enter sends one request, the history with the trimmed text,
    and empties the input and the files; while the chunks of the answer come
    in, the page is busy and shows the history, the question and the text
    accumulated so far, under one identifier, by which the pair can be
    removed; when the stream ends the page is idle again, and what it shows
    stays when the timer clears the answer. *)
Theorem chat_turn c t w ds xs :
  ready c → uuid (S (ch_drawn c)) ≠ "" → Forall2 chunk_is ds xs →
  Forall (chunk_for (VStr (uuid (S (ch_drawn c))))) ds →
  Forall (λ m, prop "id" m ≠ VStr (uuid (S (ch_drawn c)))) (ch_messages c) →
  let body := request_of c t w in
  ∃ a mid fin,
    chat_run uuid heap d c (EnterPressed t w :: stream_events (VObj body) ds) = Ok mid ∧
    ch_messages mid = ch_messages c ++ [asked c; a] ∧
    prop "content" a = VStr (foldl next_text "" xs) ∧
    removeMessageById (VStr (uuid (S (ch_drawn c)))) (ch_messages mid) = ch_messages c ∧
    sse_done (ch_sse mid) = false ∧ ch_requests mid = ch_requests c ++ [body] ∧
    ch_value mid = "" ∧ currentFiles (ch_uploads mid) = [] ∧ ch_url mid = ch_url c ∧
    chat_run uuid heap d mid [Streamed (Ended (VObj body)); SendReturned (str_trim (ch_value c)) VUndef; Streamed Timer]
      = Ok fin ∧
    ch_messages fin = ch_messages mid ∧ sse_done (ch_sse fin) = true ∧ sse_answer (ch_sse fin) = [] ∧
    ch_requests fin = ch_requests mid ∧ ch_url fin = ch_url c.
Proof.
  intros Hr Hid Hall Hfor Hfresh body.
  destruct (press_ready c t w Hr Hid) as (c1 & H1 & Hs & Hu & Hv & Hup & Hp & Hreq & Hdone).
  assert (truthy (VStr (uuid (S (ch_drawn c)))) = true) as Ht by (cbn; by rewrite bool_decide_false).
  destruct Hr as [Hu1 Hu2 _ _ _]. rewrite <-Hu in Hu1, Hu2.
  destruct (stream_steps (VObj body) _ _ _ c1 c1 ds xs Hu1 Hu2 Ht Hs Hall Hfor) as (c2 & H2 & Hs2).
  destruct Hs2 as [(a & Hm & Hc & Hi) Htext Hdr Hurl Hval Hupl Hpen Hreqs Hdn].
  assert (ch_messages c2 = ch_messages c ++ [asked c; a]) as Hm' by (by rewrite Hm, <-app_assoc).
  exists a, c2, (with_sse {| sse_answer := []; sse_done := true; doneRecord := doneRecord (ch_sse c2); sse_timer := false |} c2).
  split; [by rewrite chat_run_cons, H1|].
  split; [done|]. split; [done|]. split.
  { rewrite Hm'. unfold removeMessageById. rewrite js_filter_app, js_filter_all.
    - rewrite !js_filter_cons. rewrite (proj2 (has_id_true _ a) Hi), (proj2 (has_id_true (VStr (uuid (S (ch_drawn c)))) (asked c)) eq_refl).
      apply app_nil_r.
    - intros m Hm0. by rewrite (fresh_ids (VStr (uuid (S (ch_drawn c)))) (ch_messages c)). }
  rewrite Hdn, Hreqs, Hval, Hupl, Hurl, Hu. rewrite Hdone, Hreq, Hv, Hup. do 5 (split; [done|]).
  split; [|do 3 (split; [done|]); split; [by rewrite <-Hreq, <-Hreqs|by rewrite <-Hu, <-Hurl]]. unfold chat_run. cbn [foldl mbind outcome_bind chat_step sse_step answer_changes].
  unfold resetAnswer, setDoneValue. assert (has_box (VObj body) = false) as -> by done.
  unfold send_returned, AgentChat.receiveMessageError, timer_fires. cbn. reflexivity.
Qed.

(** C39: a request the server refuses takes the turn back: the messages are
    what they were before Enter, the trimmed text is in the input again and
    the page is idle; the attached files are gone. *)
Theorem refused_turn c t w res :
  ready c → uuid (S (ch_drawn c)) ≠ "" → AgentChat.receiveMessageError res = Ok true →
  ∃ fin, chat_run uuid heap d c
      [EnterPressed t w; Streamed (Ended (VObj (request_of c t w))); SendReturned (str_trim (ch_value c)) res] = Ok fin ∧
    ch_messages fin = ch_messages c ∧ ch_value fin = str_trim (ch_value c) ∧ sse_done (ch_sse fin) = true ∧
    ch_url fin = ch_url c ∧ currentFiles (ch_uploads fin) = [].
Proof.
  intros Hr Hid Hres.
  destruct (press_ready c t w Hr Hid) as (c1 & H1 & [(a & Hm & _) _ _ _ _ _ _ _ _] & Hu & _ & Hup & _).
  rewrite chat_run_cons, H1. unfold chat_run. cbn [foldl mbind outcome_bind chat_step sse_step answer_changes].
  unfold resetAnswer, setDoneValue. assert (has_box (VObj (request_of c t w)) = false) as -> by done.
  unfold send_returned. rewrite Hres. cbn [mbind outcome_bind]. eexists. split; [done|]. cbn. rewrite Hup. repeat split; try done.
  unfold removeLatestMessage. rewrite Hm, <-app_assoc. by apply drop_last_app.
Qed.

(** ** The first question of a new conversation *)
Definition saved_reply (messages : list val) : val :=
  VObj [("code", VNum (num_of_Z 0)); ("data", VObj [("message", VArr messages)])].

(** A page on a new conversation (without an identifier yet, or with one that
    was drawn for it) with nothing in flight and a text typed. *)
Record fresh_page (c : chat) : Prop := {
  fp_new : (ch_url c).1 = "" ∨ (ch_url c).2 = "true";
  fp_value : str_trim (ch_value c) ≠ "";
  fp_sse : ch_sse c = sse_init;
  fp_pending : ch_pending c = []
}.

(** The identifier the conversation will have. *)
Definition target_of (c : chat) : string :=
  if (ch_url c).1 === "" then generateConversationId uuid (ch_drawn c) else (ch_url c).1.

(** What the page shows while the reply is awaited: its prologue, when the
    URL changes. *)
Definition shown_before (c : chat) : list val * nat :=
  if (ch_url c).1 === "" then
    if dialogId d !== "" then
      ([VObj [("role", VStr MessageType.Assistant); ("content", prologue d); ("id", VStr (uuid (S (ch_drawn c))));
              ("conversationId", VStr (target_of c))]], S (S (ch_drawn c)))
    else (ch_messages c, S (ch_drawn c))
  else (ch_messages c, S (ch_drawn c)).

Lemma effect_answer_none c : sse_answer (ch_sse c) = [] → effect_answer uuid c = c.
Proof. intros H. unfold effect_answer. by rewrite H. Qed.

Lemma setSearchParams_changed u c : u ≠ ch_url c → u.1 ≠ "" →
  setSearchParams uuid d u c = effect_answer uuid (addPrologue uuid d (with_url u c)).
Proof.
  intros Hu H1. unfold setSearchParams. rewrite (bool_decide_false _ Hu), (bool_decide_false _ H1).
  by rewrite andb_false_r.
Qed.

Lemma press_fresh c t w : fresh_page c → target_of c ≠ "" →
  ∃ p, chat_step uuid heap d c (EnterPressed t w) =
      Ok (with_list (shown_before c) (with_url (target_of c, "true") (with_pending [p] c))) ∧
    p_value p = ch_value c ∧ p_files p = currentFiles (ch_uploads c) ∧ p_done p = true ∧
    p_messages p = ch_messages c ∧ p_thinking p = t ∧ p_internet p = w ∧ p_params p = (target_of c, "true") ∧
    p_target p = target_of c.
Proof.
  intros [Hnew Hv Hs Hp] Ht. cbn [chat_step]. unfold handlePressEnter. rewrite (bool_decide_false _ Hv).
  unfold target_of, shown_before, target_of in *. destruct (ch_url c) as [cid new] eqn:Hu. cbn [fst snd] in *.
  cbn [ch_pending with_list]. rewrite Hp. destruct (decide (cid = "")) as [->|Hc].
  - rewrite (bool_decide_true ("" = "")) in * by done. cbn [orb app].
    rewrite setSearchParams_changed; [|cbn; rewrite Hu; congruence|done].
    unfold addPrologue. cbn [with_url ch_url snd with_list with_pending].
    rewrite (bool_decide_true ("true" = "true")), andb_true_r by done.
    rewrite effect_answer_none by (destruct (dialogId d !== ""); cbn; by rewrite Hs).
    eexists. split; [by destruct (dialogId d !== "")|cbn; rewrite Hs; by repeat split].
  - destruct Hnew as [->|Hnew]; [done|]. subst new. rewrite (bool_decide_false _ Hc) in *. cbn [orb app].
    rewrite (bool_decide_true ("true" = "true")) by done.
    unfold setSearchParams. cbn [ch_url with_list with_pending]. rewrite Hu, bool_decide_true by done.
    eexists. split; [unfold with_list, with_url, with_pending; cbn; by rewrite Hu|cbn; rewrite Hs; by repeat split].
Qed.

(** What follows the reply is a submission on the saved conversation. *)
Lemma saved_fresh c p ms : fresh_page c → target_of c ≠ "" → p_params p = (target_of c, "true") →
  chat_step uuid heap d (with_list (shown_before c) (with_url (target_of c, "true") (with_pending [p] c)))
    (ConversationSaved (saved_reply ms)) =
  Ok (submit uuid heap p ms (with_list (shown_before c) (with_url (target_of c, "") (with_pending [] c)))).
Proof.
  intros [_ _ Hs _] Ht Hp. cbn [chat_step]. unfold conversation_saved. cbn [ch_pending with_list with_url with_pending].
  change (prop "code" (saved_reply ms)) with (VNum (num_of_Z 0)). rewrite bool_decide_true by done.
  change (arr_of_val (prop "message" (prop "data" (saved_reply ms)))) with ms. do 2 f_equal. rewrite Hp. cbn [fst].
  rewrite setSearchParams_changed; [|cbn; congruence|done].
  unfold addPrologue. cbn [ch_url with_url snd]. rewrite (bool_decide_false ("" = "true")) by done.
  rewrite andb_false_r. rewrite effect_answer_none; [done|]. cbn. by rewrite Hs.
Qed.

(** the first question of a new conversation.  Until the server has
    saved the conversation, no request leaves; then exactly one does, under
    the identifier the conversation was saved with and with the messages the
    server returned, the URL names the conversation, which is new no longer,
    and question and empty answer follow what was shown; when the server
    refuses, nothing is sent and the text stays. *)
Theorem new_conversation c t w ms :
  fresh_page c → target_of c ≠ "" → ms ≠ [] → uuid (shown_before c).2 ≠ "" →
  ∃ c1, chat_run uuid heap d c [EnterPressed t w] = Ok c1 ∧ ch_requests c1 = ch_requests c ∧
    (∃ fin a, chat_run uuid heap d c1 [ConversationSaved (saved_reply ms)] = Ok fin ∧
      let id := uuid (shown_before c).2 in
      let files := currentFiles (ch_uploads c) in
      ch_requests fin = ch_requests c ++
        [request_body (target_of c) ms [] (sent_message heap id (str_trim (ch_value c)) files (target_of c)) t w] ∧
      ch_url fin = (target_of c, "") ∧ ch_value fin = "" ∧ sse_done (ch_sse fin) = false ∧
      ch_messages fin = (shown_before c).1 ++ [VObj (question heap id (ch_value c) files (target_of c)); a] ∧
      prop "content" a = VStr "") ∧
    (∀ data, prop "code" data ≠ VNum (num_of_Z 0) →
      ∃ fin, chat_run uuid heap d c1 [ConversationSaved data] = Ok fin ∧ ch_requests fin = ch_requests c ∧
        ch_messages fin = ch_messages c1 ∧ ch_value fin = ch_value c).
Proof.
  intros Hf Ht Hms Hid. destruct (press_fresh c t w Hf Ht) as (p & H1 & Hpv & Hpf & Hpd & Hpm & Hpt & Hpw & Hpp & Hptg).
  exists (with_list (shown_before c) (with_url (target_of c, "true") (with_pending [p] c))).
  split; [rewrite chat_run_cons, H1; reflexivity|]. split; [done|]. split.
  - do 2 eexists. rewrite chat_run_cons, saved_fresh by done. split; [reflexivity|]. cbn zeta.
    unfold submit. rewrite Hpv, Hpf, Hpd, Hpt, Hpw, Hptg. cbn [with_list ch_drawn ch_messages fst snd].
    rewrite question_added by done. split; [|by repeat split]. cbn. by destruct ms.
  - intros data Hd. eexists. unfold chat_run. cbn [foldl mbind outcome_bind chat_step]. split; [reflexivity|].
    unfold conversation_saved. cbn [ch_pending with_list with_url with_pending]. by rewrite (bool_decide_false _ Hd).
Qed.
End chat_props.

(** ** References of the answers *)
Section references.
Context {L : Lodash}.

Definition no_reference : val := VObj [("doc_aggs", VArr []); ("chunks", VArr []); ("total", VNum (num_of_Z 0))].

Definition turn_messages (x : val * val) : list val := [x.1; x.2].

Lemma answered_turns turns : (∀ x, x ∈ turns → answered x.1 = false ∧ answered x.2 = true) →
  js_filter answered (concat (map turn_messages turns)) = turns.*2.
Proof.
  induction turns as [|[q a] turns IH]; intros H; [done|]. cbn [map concat turn_messages app fst snd].
  destruct (H (q, a)) as [Hq Ha]; [set_solver|]. cbn [fst snd] in Hq, Ha.
  rewrite !js_filter_cons, Hq, Ha, IH by set_solver. done.
Qed.

Lemma js_findIndex_id (l : list val) n a : NoDup (map (prop "id") l) → l !! n = Some a →
  js_findIndex (has_id (prop "id" a)) l = Some n.
Proof.
  intros Hnd Hn. apply js_findIndex_Some. split; [exists a; split; [done|]; by apply bool_decide_eq_true|].
  intros j y Hj Hy. apply bool_decide_eq_false. intros Heq.
  assert (j = n); [|lia]. eapply (NoDup_lookup _ j n (prop "id" a) Hnd).
  - change (map (prop "id") l) with (prop "id" <$> l). by rewrite list_lookup_fmap, Hy, <-Heq.
  - change (map (prop "id") l) with (prop "id" <$> l). by rewrite list_lookup_fmap, Hn.
Qed.

(** In a conversation that opens with a message of the assistant and
    goes on in turns of a question and an answer that is not an error, the
    answer of the n-th turn is shown with the n-th reference the server
    keeps, and an answer beyond them with the empty one. *)
Theorem reference_of_answer pro turns references n q a :
  answered pro = true → (∀ x, x ∈ turns → answered x.1 = false ∧ answered x.2 = true) →
  NoDup (map (prop "id") turns.*2) → turns !! n = Some (q, a) → lo_isEmpty (prop "reference" a) = true →
  buildMessageItemReference (pro :: concat (map turn_messages turns)) references a =
    js_coalesce (default VUndef (references !! n)) no_reference.
Proof.
  intros Hpro Hturns Hnd Hn He. unfold buildMessageItemReference. rewrite He. cbn [negb].
  rewrite js_filter_cons, Hpro, answered_turns by done. cbn [drop]. rewrite drop_0.
  by rewrite (js_findIndex_id turns.*2 n a) by (try done; by rewrite list_lookup_fmap, Hn).
Qed.
End references.

(** *** The documents of the references *)
Lemma push_docs_spec references pre x :
  let docs := foldl (λ pre cur, push_all pre (map (prop "doc_id") (arr_of_val (prop "doc_aggs" cur)))) pre references in
  (NoDup pre → NoDup docs) ∧
  (x ∈ docs ↔ x ∈ pre ∨ ∃ r, r ∈ references ∧ x ∈ map (prop "doc_id") (arr_of_val (prop "doc_aggs" r))).
Proof.
  cbn zeta. revert pre. induction references as [|r references IH]; intros pre; cbn [foldl]; [set_solver|].
  destruct (IH (push_all pre (map (prop "doc_id") (arr_of_val (prop "doc_aggs" r))))) as [Hnd Hin].
  split; [intros H; by apply Hnd, NoDup_push_all|]. rewrite Hin, elem_of_push_all. set_solver.
Qed.

(** ** Deleting conversations *)

(** The identifiers are split: what was never saved goes at once, the rest to
    the server; the page leaves its conversation exactly when it is gone. *)
Lemma batch_delete_spec cid conversations selectedIds removedHere persistedIds leaves :
  handleBatchDelete cid conversations selectedIds = (removedHere, persistedIds, leaves) →
  (∀ id, id ∈ removedHere ↔ id ∈ selectedIds ∧ (id, true) ∈ conversations) ∧
  (∀ id, id ∈ persistedIds ↔ id ∈ selectedIds ∧ (id, true) ∉ conversations) ∧
  ∀ code, leaves code = true ↔ cid ≠ "" ∧ (cid ∈ removedHere ∨ (cid ∈ persistedIds ∧ code = 0%Z)).
Proof.
  assert (∀ id, js_includes (map fst (js_filter snd conversations)) id = true ↔ (id, true) ∈ conversations) as Htmp.
  { intros id. rewrite js_includes_true. change (map fst ?l) with (fst <$> l). rewrite list_elem_of_fmap. split.
    - intros ([i b] & -> & [Hb Hin]%elem_of_js_filter). cbn in *. by subst b.
    - intros H. exists (id, true). split; [done|]. by apply elem_of_js_filter. }
  assert (∀ id, js_includes (map fst (js_filter snd conversations)) id = false ↔ (id, true) ∉ conversations) as Htmp'.
  { intros id. by rewrite <-Htmp, not_true_iff_false. }
  unfold handleBatchDelete. intros [= <- <- <-].
  assert (∀ id, id ∈ js_filter (js_includes (map fst (js_filter snd conversations))) selectedIds ↔
    id ∈ selectedIds ∧ (id, true) ∈ conversations) as Hr by (intros id; rewrite elem_of_js_filter, Htmp; tauto).
  assert (∀ id, id ∈ js_filter (λ id, negb (js_includes (map fst (js_filter snd conversations)) id)) selectedIds ↔
    id ∈ selectedIds ∧ (id, true) ∉ conversations) as Hp
    by (intros id; rewrite elem_of_js_filter, negb_true_iff, Htmp'; tauto).
  split; [done|]. split; [done|]. intros code. rewrite Hr, Hp.
  rewrite !andb_true_iff, orb_true_iff, andb_true_iff, negb_true_iff, bool_decide_eq_false, !js_includes_true, Hp.
  rewrite <-(js_includes_true (map fst _)), Htmp, bool_decide_eq_true.
  destruct (bool_decide_reflect (js_filter (λ id, negb (js_includes (map fst (js_filter snd conversations)) id)) selectedIds = []))
    as [Hnil|Hnil].
  - assert ((cid, true) ∉ conversations → cid ∉ selectedIds) as Hno by (intros ??; eapply not_elem_of_nil; rewrite <-Hnil; by apply Hp).
    split; [intros ([? ?] & [?|[? [=]]]); tauto|tauto].
  - tauto.
Qed.

Lemma toggleSelection_spec id prev x : NoDup prev →
  NoDup (toggleSelection id prev) ∧
  (x ∈ toggleSelection id prev ↔ if decide (x = id) then id ∉ prev else x ∈ prev).
Proof.
  intros Hnd. unfold toggleSelection. destruct (js_includes prev id) eqn:E.
  - apply js_includes_true in E. split; [by apply NoDup_js_filter|]. rewrite elem_of_js_filter, negb_true_iff, bool_decide_eq_false.
    case_decide; subst; tauto.
  - assert (id ∉ prev) by (by rewrite <-js_includes_true, E). split.
    + apply NoDup_app. split; [done|]. split; [set_solver|]. apply NoDup_singleton.
    + rewrite elem_of_app, list_elem_of_singleton. case_decide; subst; tauto.
Qed.

(** ** Files *)
(** A file that was uploaded is taken back by removing it, and nothing else is
    (its record is new: the server's reply is a new object). *)
Lemma upload_remove file data u : data ∉ currentFiles u →
  currentFiles (remove_file false file (file_uploaded file data u)) = currentFiles u.
Proof.
  intros Hd. unfold remove_file, file_uploaded. cbn [fileMap currentFiles]. rewrite map_get_set, decide_True by done.
  cbn [currentFiles]. rewrite js_filter_app, js_filter_cons, bool_decide_true by done. cbn [negb].
  rewrite js_filter_all, app_nil_r; [done|]. intros x Hx. apply negb_true_iff, bool_decide_eq_false. by intros ->.
Qed.

(** ** A page *)
Module ChatPage.
Definition uuid (k : nat) : string := "id-" +:+ pretty k.
Definition heap (l : loc) : val := VObj [("id", VStr "file")].
Definition d : dialog := {| dialogId := "d1"; prologue := VStr "Hello" |}.

(** An opened conversation with its first message, and a text typed. *)
Definition page : chat :=
  {| ch_messages := [VObj [("role", VStr "assistant"); ("content", VStr "Hello"); ("id", VStr "m0")]];
     ch_sse := sse_init; ch_drawn := 4; ch_url := ("c1", ""); ch_value := " Why? "; ch_uploads := no_uploads;
     ch_pending := []; ch_requests := [] |}.

Lemma page_ready : ready page.
Proof. split; try done; by vm_compute. Qed.

Definition chunk (s : string) : val := VObj [("answer", VStr s); ("id", VStr "id-5")].

Definition a_piece (s : string) : piece := {| text := s; starts := false; ends := false |}.

Lemma chunk_ok s : chunk_is (chunk s) (a_piece s) ∧ chunk_for (VStr "id-5") (chunk s).
Proof.
  split; [by split|]. eexists. split; [reflexivity|]. split; [|by split].
  apply (bool_decide_unpack _). vm_compute. exact I.
Qed.

Lemma chat_turn_witness : ∃ a mid,
  chat_run uuid heap d page (EnterPressed VUndef VUndef ::
    stream_events (VObj (request_of uuid heap page VUndef VUndef)) [chunk "Be"; chunk "cause"]) = Ok mid ∧
  ch_messages mid = ch_messages page ++ [asked uuid heap page; a] ∧ prop "content" a = VStr "Because".
Proof.
  destruct (chat_turn uuid heap d page VUndef VUndef [chunk "Be"; chunk "cause"] [a_piece "Be"; a_piece "cause"])
    as (a & mid & fin & Hrun & Hm & Ht & _).
  - exact page_ready.
  - vm_compute. discriminate.
  - constructor; [exact (proj1 (chunk_ok "Be"))|]. constructor; [exact (proj1 (chunk_ok "cause"))|]. constructor.
  - constructor; [exact (proj2 (chunk_ok "Be"))|]. constructor; [exact (proj2 (chunk_ok "cause"))|]. constructor.
  - constructor; [|constructor]. vm_compute. discriminate.
  - exists a, mid. split; [exact Hrun|]. split; [exact Hm|]. exact Ht.
Defined.

Definition refusal : val :=
  VObj [("response", VObj [("status", VNum (num_of_Z 200))]); ("data", VObj [("code", VNum (num_of_Z 102))])].

Lemma refused_turn_witness : ∃ fin,
  chat_run uuid heap d page [EnterPressed VUndef VUndef;
    Streamed (Ended (VObj (request_of uuid heap page VUndef VUndef))); SendReturned "Why?" refusal] = Ok fin ∧
  ch_messages fin = ch_messages page ∧ ch_value fin = "Why?".
Proof.
  destruct (refused_turn uuid heap d page VUndef VUndef refusal) as (fin & Hrun & Hm & Hv & _).
  - exact page_ready.
  - vm_compute. discriminate.
  - vm_compute. reflexivity.
  - exists fin. split; [exact Hrun|]. split; [exact Hm|]. exact Hv.
Defined.

(** A page without a conversation. *)
Definition start : chat :=
  {| ch_messages := []; ch_sse := sse_init; ch_drawn := 0; ch_url := ("", ""); ch_value := "Why?";
     ch_uploads := no_uploads; ch_pending := []; ch_requests := [] |}.

Definition greeting : list val := [VObj [("role", VStr "assistant"); ("content", VStr "Why?")]].

Lemma new_conversation_witness : ∃ fin,
  chat_run uuid heap d start [EnterPressed VUndef VUndef] ≫=
    (λ c, chat_run uuid heap d c [ConversationSaved (saved_reply greeting)]) = Ok fin ∧
  ch_url fin = ("id0", "") ∧ length (ch_requests fin) = 1 ∧ length (ch_messages fin) = 3.
Proof.
  destruct (new_conversation uuid heap d start VUndef VUndef greeting) as (c1 & H1 & _ & (fin & a & H2 & Hr & Hu & _ & _ & Hm & _) & _).
  - split; [left; reflexivity|vm_compute; discriminate|reflexivity|reflexivity].
  - vm_compute. discriminate.
  - discriminate.
  - vm_compute. discriminate.
  - exists fin. rewrite H1. split; [exact H2|]. rewrite Hu, Hr, Hm. split; [reflexivity|]. split; reflexivity.
Defined.

Definition answer (i : string) : val := VObj [("role", VStr "assistant"); ("content", VStr i); ("id", VStr i)].
Definition asking (i : string) : val := VObj [("role", VStr "user"); ("content", VStr i); ("id", VStr i)].
Definition turns : list (val * val) := [(asking "t1", answer "t1"); (asking "t2", answer "t2")].

Lemma reference_of_answer_witness :
  buildMessageItemReference (answer "m0" :: concat (map turn_messages turns)) [VStr "r1"; VStr "r2"] (answer "t2") = VStr "r2".
Proof.
  rewrite (reference_of_answer (answer "m0") turns [VStr "r1"; VStr "r2"] 1 (asking "t2") (answer "t2"));
    [reflexivity|reflexivity| | |reflexivity|reflexivity].
  - refine (proj1 (Forall_forall _ _) _). repeat (constructor; [split; reflexivity|]). constructor.
  - apply (bool_decide_unpack _). vm_compute. exact I.
Defined.

(** Removing a turn does not remove its reference: the answers after it are
    shown with the reference of the turn before. *)
Lemma removed_turn_shifts_references :
  buildMessageItemReference (removeMessageById (VStr "t1") (answer "m0" :: concat (map turn_messages turns)))
    [VStr "r1"; VStr "r2"] (answer "t2") = VStr "r1".
Proof. vm_compute. reflexivity. Qed.

(** A question sent before the timer of the answer before has fired (one
    second) is answered behind that answer; when the timer fires, what was
    received so far is dropped. *)
Lemma quick_resend_appends :
  let ask := EnterPressed VUndef VUndef in
  let body := VObj (request_of uuid heap page VUndef VUndef) in
  let got s := Streamed (Chunk body (Some (VObj [("data", chunk s)]))) in
  ∃ c1 c2,
    chat_run uuid heap d page [ask; got "Because."; Streamed (Ended body); TypeValue "And?"; ask; got "So"] = Ok c1 ∧
    prop "content" (default VUndef (last (ch_messages c1))) = VStr "Because.So" ∧
    chat_run uuid heap d c1 [Streamed Timer; got " it is."] = Ok c2 ∧
    prop "content" (default VUndef (last (ch_messages c2))) = VStr " it is.".
Proof. do 2 eexists. split; [vm_compute; reflexivity|]. split; [reflexivity|]. split; vm_compute; reflexivity. Qed.
End ChatPage.
