(* ===== verification/ChatBoxes.v ===== *)
(** * The chat page with several models

    pages/next-chats/chat: up to three boxes (use-add-box.ts), each a
    [ChatCard] with its own conversation (use-send-single-message.ts), under
    one input ([MultipleChatBox], next-multiple-chat-box.tsx), which is
    blocked while [chatBoxLoading] says that a box is answering.  A box also
    holds a whole [useSendMessage] ([Chat]), of which it uses only the
    regeneration. *)
From S2P Require Import Prelude JsValue Libs FormUtils Messages Streaming Chat.
From S2P Require AgentChat.
Open Scope list_scope.
Open Scope nat_scope.
Open Scope js_scope.

(** ** Boxes *)
Section boxes.
Context {L : Lodash} (uuid : nat → string) (heap : loc → val).

Record card := {
  cd_messages : list val;
  cd_sse : sse;
  cd_form : obj;
  cd_other : chat
}.

(** What a press of Enter keeps while the conversation is created. *)
Record opening := { o_target : string; o_params : url; o_thinking : val; o_internet : val }.

Record boxes := {
  bx_cards : list (string * card);
  bx_loading : bools;
  bx_drawn : nat;
  bx_url : url;
  bx_value : string;
  bx_uploads : uploads;
  bx_pending : list opening;
  bx_requests : list (string * obj)
}.

Definition with_cards (cs : list (string * card)) (loading : bools) (k : nat) (b : boxes) : boxes :=
  {| bx_cards := cs; bx_loading := loading; bx_drawn := k; bx_url := bx_url b; bx_value := bx_value b;
     bx_uploads := bx_uploads b; bx_pending := bx_pending b; bx_requests := bx_requests b |}.

Definition with_input (v : string) (u : uploads) (b : boxes) : boxes :=
  {| bx_cards := bx_cards b; bx_loading := bx_loading b; bx_drawn := bx_drawn b; bx_url := bx_url b; bx_value := v;
     bx_uploads := u; bx_pending := bx_pending b; bx_requests := bx_requests b |}.

Definition with_openings (u : url) (ps : list opening) (k : nat) (b : boxes) : boxes :=
  {| bx_cards := bx_cards b; bx_loading := bx_loading b; bx_drawn := k; bx_url := u; bx_value := bx_value b;
     bx_uploads := bx_uploads b; bx_pending := ps; bx_requests := bx_requests b |}.

(** [sendLoading] of a box, and of the input. *)
Definition busy (c : card) : bool := negb (sse_done (cd_sse c)).

Definition input_loading (b : boxes) : bool := js_some snd (bx_loading b).

(** The effect on [id], [sendLoading] and [setLoading]. *)
Definition setLoading (id : string) (before after : card) (loading : bools) : bools :=
  if Bool.eqb (busy before) (busy after) then loading else rec_set id (busy after) loading.

Fixpoint card_get (id : string) (cs : list (string * card)) : option card :=
  match cs with
  | [] => None
  | (i, c) :: cs' => if id === i then Some c else card_get id cs'
  end.

Definition card_put (id : string) (c : card) (cs : list (string * card)) : list (string * card) :=
  map (λ ic, if id === ic.1 then (ic.1, c) else ic) cs.

(** A change of one box; nothing happens to a box that is gone. *)
Definition on_card (id : string) (f : nat → card → outcome (card * nat)) (b : boxes) : outcome boxes :=
  match card_get id (bx_cards b) with
  | None => Ok b
  | Some c =>
      ck ← f (bx_drawn b) c;
      let '(c', k) := (ck : card * nat) in
      Ok (with_cards (card_put id c' (bx_cards b)) (setLoading id c c' (bx_loading b)) k b)
  end.

(** ** One box *)
Definition card_with (ms : list val) (s : sse) (c : card) : card :=
  {| cd_messages := ms; cd_sse := s; cd_form := cd_form c; cd_other := cd_other c |}.

Definition card_stream (e : sse_event) (k : nat) (c : card) : outcome (card * nat) :=
  s ← sse_step (cd_sse c) e;
  let '(ms, k') :=
    if answer_changes e && truthy (obj_get "answer" (sse_answer s))
    then addNewestAnswer uuid k (sse_answer s) (cd_messages c) else (cd_messages c, k) in
  Ok (card_with ms s c, k').

(** [handlePressEnter] of [useSendSingleMessage]: the box's part of a press,
    with the request when one leaves. *)
Definition card_press (value : string) (files : list loc) (target : string) (currentMessages : list val)
    (enableThinking enableInternet : val) (k : nat) (c : card) : card * nat * option obj :=
  let id := uuid k in
  let '(ms, k') := addNewestQuestion uuid (S k) (question heap id value files target) (VStr "") (cd_messages c) in
  if sse_done (cd_sse c) then
    let body := obj_assign (request_body target currentMessages (cd_messages c)
      (sent_message heap id (str_trim value) files target) enableThinking enableInternet) (cd_form c) in
    (card_with ms (setDoneValue (VObj body) false (cd_sse c)) c, k', Some body)
  else (card_with ms (cd_sse c) c, k', None).

(** [Object.values(boxesRef.current).forEach]: every mounted box gets the
    same input; one that sends empties it, each empties the files. *)
Fixpoint press_cards (value : string) (files : list loc) (target : string) (currentMessages : list val)
    (t w : val) (k : nat) (cs : list (string * card)) (loading : bools)
    : list (string * card) * bools * nat * list (string * obj) :=
  match cs with
  | [] => ([], loading, k, [])
  | (id, c) :: cs' =>
      let '(c', k1, sent) := card_press value files target currentMessages t w k c in
      let '(cs1, loading1, k2, reqs) :=
        press_cards value files target currentMessages t w k1 cs' (setLoading id c c' loading) in
      ((id, c') :: cs1, loading1, k2, match sent with Some body => (id, body) :: reqs | None => reqs end)
  end.

Definition press_all (target : string) (currentMessages : list val) (t w : val) (b : boxes) : boxes :=
  let '(cs, loading, k, reqs) :=
    press_cards (bx_value b) (currentFiles (bx_uploads b)) target currentMessages t w (bx_drawn b)
      (bx_cards b) (bx_loading b) in
  {| bx_cards := cs; bx_loading := loading; bx_drawn := k; bx_url := bx_url b;
     bx_value := if reqs === [] then bx_value b else "";
     bx_uploads := if bx_cards b === [] then bx_uploads b else no_uploads;
     bx_pending := bx_pending b; bx_requests := bx_requests b ++ reqs |}.

(** A change of the URL reaches the [useSendMessage] of every box. *)
Fixpoint others_navigate (d : dialog) (u : url) (k : nat) (cs : list (string * card)) : list (string * card) * nat :=
  match cs with
  | [] => ([], k)
  | (id, c) :: cs' =>
      let o := setSearchParams uuid d u (with_list (ch_messages (cd_other c), k) (cd_other c)) in
      let '(cs1, k1) := others_navigate d u (ch_drawn o) cs' in
      ((id, {| cd_messages := cd_messages c; cd_sse := cd_sse c; cd_form := cd_form c; cd_other := o |}) :: cs1, k1)
  end.

Definition navigate (d : dialog) (u : url) (b : boxes) : boxes :=
  let '(cs, k) := others_navigate d u (bx_drawn b) (bx_cards b) in
  with_openings u (bx_pending b) k (with_cards cs (bx_loading b) k b).

(** ** The input of all boxes *)
Definition boxes_press (d : dialog) (t w : val) (b : boxes) : boxes :=
  if str_trim (bx_value b) === "" then b
  else
    let '(conversationId, isNew) := bx_url b in
    let currentConversationId := generateConversationId uuid (bx_drawn b) in
    let target := if conversationId === "" then currentConversationId else conversationId in
    let params := if conversationId === "" then (currentConversationId, "true") else bx_url b in
    let k := S (bx_drawn b) in
    if (conversationId === "") || (isNew === "true") then
      let o := {| o_target := target; o_params := params; o_thinking := t; o_internet := w |} in
      navigate d params (with_openings (bx_url b) (bx_pending b ++ [o]) k b)
    else press_all target [] t w (with_openings (bx_url b) (bx_pending b) k b).

(** The handles are read when the reply is there, so the boxes send what is
    then in the input. *)
Definition boxes_saved (d : dialog) (data : val) (b : boxes) : boxes :=
  match bx_pending b with
  | [] => b
  | o :: ps =>
      let b := with_openings (bx_url b) ps (bx_drawn b) b in
      if prop "code" data === VNum (num_of_Z 0) then
        press_all (o_target o) (arr_of_val (prop "message" (prop "data" data))) (o_thinking o) (o_internet o)
          (navigate d ((o_params o).1, "") b)
      else b
  end.

(** *** Adding and removing boxes *)
Definition card_init (d : dialog) (u : url) (form : obj) (k : nat) : card * nat :=
  let o := addPrologue uuid d
    {| ch_messages := []; ch_sse := sse_init; ch_drawn := k; ch_url := u; ch_value := ""; ch_uploads := no_uploads;
       ch_pending := []; ch_requests := [] |} in
  ({| cd_messages := []; cd_sse := sse_init; cd_form := form; cd_other := o |}, ch_drawn o).

Definition addChatBox (d : dialog) (form : obj) (b : boxes) : boxes :=
  let id := uuid (bx_drawn b) in
  let '(c, k) := card_init d (bx_url b) form (S (bx_drawn b)) in
  with_cards (bx_cards b ++ [(id, c)]) (rec_set id (busy c) (bx_loading b)) k b.

Definition removeChatBox (id : string) (b : boxes) : boxes :=
  with_cards (js_filter (λ ic, ic.1 !== id) (bx_cards b)) (bx_loading b) (bx_drawn b) b.

(** The buttons of the box at [idx]. *)
Definition shows_remove (idx n : nat) : bool := (idx !== n - 1) || (n === 3).

(** The page when it is opened, with one box. *)
Definition boxes_init (d : dialog) (u : url) (form : obj) : boxes :=
  addChatBox d form
    {| bx_cards := []; bx_loading := []; bx_drawn := 0; bx_url := u; bx_value := ""; bx_uploads := no_uploads;
       bx_pending := []; bx_requests := [] |}.

(** ** Steps *)
Inductive boxes_event :=
  | BoxesTyped (value : string)
  | BoxesEntered (enableThinking enableInternet : val)
  | BoxesSaved (data : val)
  | BoxStreamed (id : string) (e : sse_event)
  | BoxReturned (id : string) (content : string) (res : val)
  | BoxConfigured (id : string) (form : obj)
  | BoxMessageRemoved (id : string) (messageId : val)
  | BoxRegenerated (id : string) (message : obj)
  | BoxOtherStreamed (id : string) (e : sse_event)
  | BoxesUploaded (file : nat) (data : loc)
  | BoxesFileRemoved (loading : bool) (file : nat)
  | BoxAdded (form : obj)
  | BoxRemoved (id : string).

(** What the refused request of a box does to the box; the text goes back to
    the input all boxes share. *)
Definition box_returned (id : string) (content : string) (res : val) (b : boxes) : outcome boxes :=
  failed ← AgentChat.receiveMessageError res;
  if (failed : bool) then
    on_card id (λ k c, Ok (card_with (removeLatestMessage (cd_messages c)) (cd_sse c) c, k))
      (with_input content (bx_uploads b) b)
  else Ok b.

Definition with_other (k : nat) (f : chat → outcome chat) (c : card) : outcome (card * nat) :=
  o ← f (with_list (ch_messages (cd_other c), k) (cd_other c));
  Ok ({| cd_messages := cd_messages c; cd_sse := cd_sse c; cd_form := cd_form c; cd_other := o |}, ch_drawn o).

Definition boxes_step (d : dialog) (b : boxes) (e : boxes_event) : outcome boxes :=
  match e with
  | BoxesTyped value => Ok (with_input (handleInputChange value) (bx_uploads b) b)
  | BoxesEntered t w => Ok (boxes_press d t w b)
  | BoxesSaved data => Ok (boxes_saved d data b)
  | BoxStreamed id e => on_card id (card_stream e) b
  | BoxReturned id content res => box_returned id content res b
  | BoxConfigured id form =>
      on_card id (λ k c, Ok ({| cd_messages := cd_messages c; cd_sse := cd_sse c; cd_form := form;
                               cd_other := cd_other c |}, k)) b
  | BoxMessageRemoved id messageId =>
      on_card id (λ k c, Ok (card_with (removeMessageById messageId (cd_messages c)) (cd_sse c) c, k)) b
  | BoxRegenerated id message => on_card id (λ k, with_other k (λ o, Ok (regenerate uuid message o))) b
  | BoxOtherStreamed id e => on_card id (λ k, with_other k (λ o, chat_step uuid heap d o (Streamed e))) b
  | BoxesUploaded file data => Ok (with_input (bx_value b) (file_uploaded file data (bx_uploads b)) b)
  | BoxesFileRemoved loading file => Ok (with_input (bx_value b) (remove_file loading file (bx_uploads b)) b)
  | BoxAdded form => Ok (addChatBox d form b)
  | BoxRemoved id => Ok (removeChatBox id b)
  end.

Definition boxes_run (d : dialog) (b : boxes) (es : list boxes_event) : outcome boxes :=
  foldl (λ m e, m ≫= λ b, boxes_step d b e) (Ok b) es.
End boxes.

(** ** Properties of the boxes and the record of the busy ones *)
Section boxes_lookup.
Implicit Types (cs : list (string * card)) (r : bools).

Lemma card_get_None id cs : card_get id cs = None ↔ id ∉ cs.*1.
Proof.
  induction cs as [|[i c] cs IH]; cbn [card_get fmap list_fmap fst]; [set_solver|].
  case_bool_decide; [subst; set_solver|]. rewrite IH. set_solver.
Qed.

Lemma card_put_ids id c cs : (card_put id c cs).*1 = cs.*1.
Proof.
  induction cs as [|[i c0] cs IH]; [done|]. unfold card_put in *. cbn [map fmap list_fmap fst].
  case_bool_decide; cbn [fst]; f_equal; exact IH.
Qed.

Lemma card_get_put i id c cs :
  card_get i (card_put id c cs) = if decide (i = id) then (λ _, c) <$> card_get id cs else card_get i cs.
Proof.
  induction cs as [|[j c0] cs IH]; [by case_decide|]. unfold card_put in *. cbn [map card_get fst].
  repeat case_bool_decide; repeat case_decide; subst; cbn [card_get]; repeat case_bool_decide; simplify_eq; try done;
    by rewrite IH, ?decide_True, ?decide_False.
Qed.

Lemma card_get_app i cs1 cs2 :
  card_get i (cs1 ++ cs2) = match card_get i cs1 with Some c => Some c | None => card_get i cs2 end.
Proof. induction cs1 as [|[j c0] cs1 IH]; [done|]. cbn [app card_get]. by case_bool_decide. Qed.

Lemma card_get_filter i id cs :
  card_get i (js_filter (λ ic, ic.1 !== id) cs) = if decide (i = id) then None else card_get i cs.
Proof.
  induction cs as [|[j c0] cs IH]; [by case_decide|]. rewrite js_filter_cons. cbn [fst card_get].
  destruct (decide (j = id)) as [->|Hj].
  - rewrite bool_decide_true by done. cbn [negb]. rewrite IH. case_decide; [done|]. by rewrite bool_decide_false.
  - rewrite bool_decide_false by done. cbn [negb card_get]. rewrite IH. case_bool_decide; [|done].
    subst. by rewrite decide_False.
Qed.

Lemma card_get_elem id c cs : NoDup cs.*1 → card_get id cs = Some c ↔ (id, c) ∈ cs.
Proof.
  induction cs as [|[j c0] cs IH]; cbn [card_get fmap list_fmap fst]; [set_solver|].
  intros [Hj Hnd]%NoDup_cons. specialize (IH Hnd). rewrite elem_of_cons. case_bool_decide.
  - subst. split; [intros [= <-]; by left|]. intros [[= <-]|Hin]; [done|].
    destruct Hj. apply list_elem_of_fmap. by exists (j, c).
  - rewrite IH. split; [by right|]. intros [[= -> ->]|?]; done.
Qed.

Lemma some_true_spec r : NoDup r.*1 → js_some snd r = true ↔ ∃ k, rec_get k r = Some true.
Proof.
  unfold js_some. induction r as [|[k w] r IH]; cbn [existsb fmap list_fmap fst snd rec_get].
  - intros _. split; [done|]. by intros [? ?].
  - intros [Hk Hnd]%NoDup_cons. rewrite orb_true_iff, IH by done. split.
    + intros [->|[k' Hk']]; [exists k; by rewrite bool_decide_true|]. exists k'. rewrite bool_decide_false; [done|].
      intros ->. apply Hk. clear -Hk'. induction r as [|[k1 w1] r IHr]; [done|]. cbn [rec_get] in Hk'.
      case_bool_decide; set_solver.
    + intros [k' Hk']. case_bool_decide; [left; congruence|]. right. by exists k'.
Qed.

Lemma rec_set_NoDup k v r : NoDup r.*1 → NoDup (rec_set k v r).*1.
Proof. rewrite rec_set_keys. apply NoDup_push_new. Qed.

Lemma setLoading_get k id c c' r : rec_get k (setLoading id c c' r) =
  if Bool.eqb (busy c) (busy c') then rec_get k r else if decide (k = id) then Some (busy c') else rec_get k r.
Proof. unfold setLoading. destruct (Bool.eqb _ _); [done|]. apply rec_get_set. Qed.

Lemma setLoading_NoDup id c c' r : NoDup r.*1 → NoDup (setLoading id c c' r).*1.
Proof. unfold setLoading. destruct (Bool.eqb _ _); [done|]. apply rec_set_NoDup. Qed.

(** After the effect, the record says what the box does, if it did before. *)
Lemma setLoading_own id c c' r : rec_get id r = Some (busy c) → rec_get id (setLoading id c c' r) = Some (busy c').
Proof.
  intros H. rewrite setLoading_get. destruct (Bool.eqb _ _) eqn:E; [|by rewrite decide_True].
  apply Bool.eqb_prop in E. congruence.
Qed.

Lemma setLoading_other k id c c' r : k ≠ id → rec_get k (setLoading id c c' r) = rec_get k r.
Proof. intros H. rewrite setLoading_get. destruct (Bool.eqb _ _); [done|]. by rewrite decide_False. Qed.
End boxes_lookup.

(** ** Identifiers drawn *)
Section draws.
Context {L : Lodash} (uuid : nat → string) (heap : loc → val).

Lemma draws_uuid k m : k ≤ (buildMessageUuid uuid k m).2.
Proof. unfold buildMessageUuid. destruct (_ && _); cbn; lia. Qed.

Lemma draws_question k m v pre : k ≤ (addNewestQuestion uuid k m v pre).2.
Proof.
  unfold addNewestQuestion. pose proof (draws_uuid k m) as H. destruct (buildMessageUuid uuid k m) as [i k1].
  set (m' := obj_set _ _ _). pose proof (draws_uuid k1 m'). destruct (buildMessageUuid uuid k1 m'). cbn in *. lia.
Qed.

Lemma draws_answer k a pre : k ≤ (addNewestAnswer uuid k a pre).2.
Proof.
  unfold addNewestAnswer, answer_message. set (m := [_; _]). pose proof (draws_uuid k m).
  destruct (buildMessageUuid uuid k m). cbn in *. lia.
Qed.

Lemma draws_effect_answer c : ch_drawn c ≤ ch_drawn (effect_answer uuid c).
Proof.
  unfold effect_answer. destruct (_ && _); [|done].
  pose proof (draws_answer (ch_drawn c) (sse_answer (ch_sse c)) (ch_messages c)). by destruct (addNewestAnswer _ _ _ _).
Qed.

Lemma draws_prologue d c : ch_drawn c ≤ ch_drawn (addPrologue uuid d c).
Proof. unfold addPrologue. destruct (_ && _); cbn; lia. Qed.

Lemma draws_navigate d u c : ch_drawn c ≤ ch_drawn (setSearchParams uuid d u c).
Proof.
  unfold setSearchParams. case_bool_decide; [done|].
  pose proof (draws_prologue d (with_url u c)). pose proof (draws_effect_answer (addPrologue uuid d (with_url u c))).
  destruct (_ && _); cbn in *; lia.
Qed.

Lemma draws_regenerate m c : ch_drawn c ≤ ch_drawn (regenerate uuid m c).
Proof.
  unfold regenerate, regenerateMessage. destruct (truthy _); cbn; [|done]. lia.
Qed.

Lemma draws_stream d e c c' : chat_step uuid heap d c (Streamed e) = Ok c' → ch_drawn c ≤ ch_drawn c'.
Proof.
  cbn [chat_step]. intros (s & _ & [= <-])%bind_Ok. destruct (answer_changes e); [|done].
  apply (draws_effect_answer (with_sse s c)).
Qed.

Lemma draws_card_press value files target ms t w k c c' k' sent :
  card_press uuid heap value files target ms t w k c = (c', k', sent) → k < k'.
Proof.
  unfold card_press. set (q := question _ _ _ _ _). pose proof (draws_question (S k) q (VStr "") (cd_messages c)).
  destruct (addNewestQuestion _ _ _ _ _) as [ms' k1]. cbn in *. destruct (sse_done _); intros [= _ <- _]; lia.
Qed.

Lemma draws_card_stream e k c c' k' : card_stream uuid e k c = Ok (c', k') → k ≤ k'.
Proof.
  unfold card_stream. intros (s & _ & H)%bind_Ok. destruct (_ && _); [|by injection H as _ <-].
  pose proof (draws_answer k (sse_answer s) (cd_messages c)). destruct (addNewestAnswer _ _ _ _). by injection H as _ <-.
Qed.
End draws.

(** ** What blocks the input *)
Section blocked.
Context {L : Lodash} (uuid : nat → string) (heap : loc → val) (d : dialog).

(** The boxes that were removed while they were answering. *)
Definition lost_step (b : boxes) (e : boxes_event) (lost : gset string) : gset string :=
  match e with
  | BoxRemoved id =>
      match card_get id (bx_cards b) with
      | Some c => if busy c then {[id]} ∪ lost else lost
      | None => lost
      end
  | _ => lost
  end.

Fixpoint lost_after (b : boxes) (es : list boxes_event) (lost : gset string) : gset string :=
  match es with
  | [] => lost
  | e :: es' =>
      match boxes_step uuid heap d b e with
      | Ok b' => lost_after b' es' (lost_step b e lost)
      | _ => lost
      end
  end.

Record synced (lost : gset string) (b : boxes) : Prop := {
  sy_ids : NoDup (bx_cards b).*1;
  sy_keys : NoDup (bx_loading b).*1;
  sy_cards : ∀ id c, card_get id (bx_cards b) = Some c → rec_get id (bx_loading b) = Some (busy c);
  sy_gone : ∀ id, card_get id (bx_cards b) = None → (rec_get id (bx_loading b) = Some true ↔ id ∈ lost);
  sy_lost : ∀ id, id ∈ lost → card_get id (bx_cards b) = None;
  sy_drawn : ∀ id v, rec_get id (bx_loading b) = Some v → ∃ j, j < bx_drawn b ∧ id = uuid j
}.

Lemma synced_ext lost b b' : bx_cards b' = bx_cards b → bx_loading b' = bx_loading b → bx_drawn b ≤ bx_drawn b' →
  synced lost b → synced lost b'.
Proof.
  intros Hc Hl Hd [H1 H2 H3 H4 H5 H6]. split; rewrite ?Hc, ?Hl; try done.
  intros id v Hv. destruct (H6 id v Hv) as (j & ? & ->). exists j. split; [lia|done].
Qed.

(** A step that changes boxes in place and records what they do keeps the
    record in line. *)
Lemma synced_in_place lost b b' :
  (bx_cards b').*1 = (bx_cards b).*1 → NoDup (bx_loading b').*1 → bx_drawn b ≤ bx_drawn b' →
  (∀ id c c', card_get id (bx_cards b) = Some c → card_get id (bx_cards b') = Some c' →
    rec_get id (bx_loading b) = Some (busy c) → rec_get id (bx_loading b') = Some (busy c')) →
  (∀ id, id ∉ (bx_cards b).*1 → rec_get id (bx_loading b') = rec_get id (bx_loading b)) →
  synced lost b → synced lost b'.
Proof.
  intros Hids Hnd Hd Hown Hother [H1 H2 H3 H4 H5 H6].
  assert (∀ id, card_get id (bx_cards b') = None ↔ card_get id (bx_cards b) = None) as Hnone
    by (intros id; by rewrite !card_get_None, Hids).
  split; [by rewrite Hids|done| | | |].
  - intros id c' Hc'. destruct (card_get id (bx_cards b)) as [c|] eqn:E; [|apply Hnone in E; congruence].
    by apply (Hown id c c' E Hc'), H3.
  - intros id Hn%Hnone. rewrite Hother by by apply card_get_None. by apply H4.
  - intros id Hl. by apply Hnone, H5.
  - intros id v Hv. destruct (card_get id (bx_cards b)) as [c|] eqn:E.
    + destruct (H6 id (busy c) (H3 id c E)) as (j & ? & ->). exists j. split; [lia|done].
    + rewrite Hother in Hv by by apply card_get_None. destruct (H6 id v Hv) as (j & ? & ->). exists j. split; [lia|done].
Qed.

Lemma synced_on_card lost id f b b' :
  (∀ k c c' k', f k c = Ok (c', k') → k ≤ k') → on_card id f b = Ok b' → synced lost b → synced lost b'.
Proof.
  intros Hf. unfold on_card. destruct (card_get id (bx_cards b)) as [c|] eqn:E; [|by intros [= <-]].
  intros ([c' k'] & Hfc & [= <-])%bind_Ok Hs. pose proof (Hf _ _ _ _ Hfc).
  eapply synced_in_place; [apply card_put_ids|apply setLoading_NoDup, Hs|done| | |exact Hs]; cbn.
  - intros i c1 c2 H1 H2 H3. rewrite card_get_put in H2. case_decide as Hi.
    + subst i. rewrite E in H2. cbn in H2. rewrite E in H1. simplify_eq. by apply setLoading_own.
    + rewrite setLoading_other by done. simplify_eq. congruence.
  - intros i Hi. apply setLoading_other. intros ->. apply card_get_None in Hi. congruence.
Qed.

Lemma press_cards_spec value files target ms t w k cs r cs' r' k' reqs :
  press_cards uuid heap value files target ms t w k cs r = (cs', r', k', reqs) → NoDup cs.*1 → NoDup r.*1 →
  cs'.*1 = cs.*1 ∧ NoDup r'.*1 ∧ k ≤ k' ∧
  (∀ id c c', card_get id cs = Some c → card_get id cs' = Some c' →
    rec_get id r = Some (busy c) → rec_get id r' = Some (busy c')) ∧
  (∀ id, id ∉ cs.*1 → rec_get id r' = rec_get id r).
Proof.
  revert k r cs' r' k' reqs. induction cs as [|[i c] cs IH]; intros k r cs' r' k' reqs; cbn [press_cards].
  { intros [= <- <- <- <-] _ Hr. repeat split; done. }
  destruct (card_press _ _ _ _ _ _ _ _ _ _) as [[c' k1] sent] eqn:Ep.
  destruct (press_cards _ _ _ _ _ _ _ _ _ _ _) as [[[cs1 r1] k2] reqs1] eqn:E. intros [= <- <- <- <-].
  cbn [fmap list_fmap fst]. intros [Hi Hnd]%NoDup_cons Hr. apply draws_card_press in Ep.
  destruct (IH _ _ _ _ _ _ E Hnd (setLoading_NoDup _ _ _ _ Hr)) as (Hids & Hr1 & Hk & Hown & Hother).
  split; [by f_equal|]. split; [done|]. split; [lia|]. split.
  - intros id c1 c2. cbn [card_get]. case_bool_decide as Hid.
    + subst id. intros [= <-] [= <-] Hrec. rewrite Hother by done. by apply setLoading_own.
    + intros H1 H2 Hrec. apply (Hown id c1 c2); [done..|]. by rewrite setLoading_other.
  - intros id [Hid Hin]%not_elem_of_cons. rewrite Hother by done. by apply setLoading_other.
Qed.

Lemma synced_press_all lost target ms t w b :
  synced lost b → synced lost (press_all uuid heap target ms t w b).
Proof.
  intros Hs. unfold press_all.
  destruct (press_cards _ _ _ _ _ _ _ _ _ _ _) as [[[cs r] k] reqs] eqn:E.
  destruct (press_cards_spec _ _ _ _ _ _ _ _ _ _ _ _ _ E (sy_ids _ _ Hs) (sy_keys _ _ Hs)) as (H1 & H2 & H3 & H4 & H5).
  by eapply synced_in_place; [..|exact Hs].
Qed.

Lemma others_navigate_spec u k cs cs' k' : others_navigate uuid d u k cs = (cs', k') →
  cs'.*1 = cs.*1 ∧ k ≤ k' ∧
  ∀ id c', card_get id cs' = Some c' → ∃ c, card_get id cs = Some c ∧ cd_messages c' = cd_messages c ∧
    cd_sse c' = cd_sse c ∧ cd_form c' = cd_form c.
Proof.
  revert k cs' k'. induction cs as [|[i c] cs IH]; intros k cs' k'; cbn [others_navigate].
  { intros [= <- <-]. repeat split; done. }
  set (o := setSearchParams _ _ _ _). pose proof (draws_navigate uuid d u (with_list (ch_messages (cd_other c), k) (cd_other c))) as Hd.
  change (setSearchParams uuid d u _) with o in Hd. cbn [with_list ch_drawn snd] in Hd.
  destruct (others_navigate uuid d u (ch_drawn o) cs) as [cs1 k1] eqn:E. intros [= <- <-].
  destruct (IH _ _ _ E) as (Hids & Hk & Hc). cbn [fmap list_fmap fst]. split; [by f_equal|]. split; [lia|].
  intros id c'. cbn [card_get]. case_bool_decide; [|apply Hc]. intros [= <-]. by exists c.
Qed.

Lemma synced_navigate lost u b : synced lost b → synced lost (navigate uuid d u b).
Proof.
  intros Hs. unfold navigate. destruct (others_navigate _ _ _ _ _) as [cs k] eqn:E.
  destruct (others_navigate_spec _ _ _ _ _ E) as (Hids & Hk & Hc).
  eapply synced_in_place; [exact Hids|apply Hs|exact Hk| | |exact Hs]; cbn; [|done].
  intros id c c' H1 H2 H3. destruct (Hc id c' H2) as (c0 & H0 & _ & Hsse & _). simplify_eq.
  by unfold busy in *; rewrite Hsse.
Qed.

Lemma synced_add lost form b : Inj (=) (=) uuid → synced lost b → synced lost (addChatBox uuid d form b).
Proof.
  intros Hinj Hs. unfold addChatBox. destruct (card_init _ _ _ _ _) as [c k] eqn:E.
  assert (S (bx_drawn b) ≤ k) as Hk.
  { unfold card_init in E. injection E as _ <-. apply (draws_prologue uuid d {| ch_drawn := S (bx_drawn b) |}). }
  assert (busy c = false) as Hbusy by (unfold card_init in E; by injection E as <- _).
  destruct Hs as [H1 H2 H3 H4 H5 H6].
  assert (∀ v, rec_get (uuid (bx_drawn b)) (bx_loading b) ≠ Some v) as Hfresh.
  { intros v Hv. destruct (H6 _ _ Hv) as (j & Hj & Heq%Hinj). lia. }
  assert (card_get (uuid (bx_drawn b)) (bx_cards b) = None) as Hnone.
  { destruct (card_get _ _) as [c0|] eqn:E0; [|done]. by destruct (Hfresh _ (H3 _ _ E0)). }
  split; cbn.
  - rewrite fmap_app. apply NoDup_app. split; [done|]. split; [|apply NoDup_singleton].
    intros x Hx Hin. cbn in Hin. apply list_elem_of_singleton in Hin. subst. by apply card_get_None in Hnone.
  - by apply rec_set_NoDup.
  - intros id c'. rewrite card_get_app, rec_get_set. case_decide as Hid.
    + subst id. rewrite Hnone. cbn [card_get]. rewrite bool_decide_true by done. by intros [= <-].
    + destruct (card_get id (bx_cards b)) eqn:E0; [intros [= <-]; by apply H3|].
      cbn [card_get]. by rewrite bool_decide_false.
  - intros id. rewrite card_get_app, rec_get_set. destruct (card_get id (bx_cards b)) eqn:E0; [done|].
    cbn [card_get]. case_bool_decide as Hid; [done|]. intros _. rewrite decide_False by done. by apply H4.
  - intros id Hl. rewrite card_get_app, (H5 id Hl). cbn [card_get]. rewrite bool_decide_false; [done|].
    intros ->. apply (Hfresh true). by apply H4.
  - intros id v. rewrite rec_get_set. case_decide as Hid.
    + intros _. exists (bx_drawn b). split; [lia|done].
    + intros Hv. destruct (H6 id v Hv) as (j & ? & ->). exists j. split; [lia|done].
Qed.

Lemma synced_remove lost id b : synced lost b →
  synced (match card_get id (bx_cards b) with Some c => if busy c then {[id]} ∪ lost else lost | None => lost end)
    (removeChatBox id b).
Proof.
  intros [H1 H2 H3 H4 H5 H6]. split; cbn; try done.
  - assert ((js_filter (λ ic, ic.1 !== id) (bx_cards b)).*1 = js_filter (λ i, i !== id) (bx_cards b).*1) as ->.
    { generalize (bx_cards b). intros cs. induction cs as [|[i c] cs IH]; [done|].
      rewrite js_filter_cons. cbn [fmap list_fmap fst]. rewrite js_filter_cons. destruct (i !== id); cbn [fmap list_fmap fst];
        [f_equal|]; exact IH. }
    by apply NoDup_js_filter.
  - intros i c. rewrite card_get_filter. case_decide; [done|]. apply H3.
  - intros i. rewrite card_get_filter. case_decide as Hi.
    + subst i. intros _. destruct (card_get id (bx_cards b)) as [c|] eqn:E; [|by apply H4].
      rewrite (H3 id c E). destruct (busy c); [set_solver|]. split; [done|]. intros Hl%H5. congruence.
    + intros Hn. rewrite H4 by done. destruct (card_get id (bx_cards b)) as [c|]; [|done]. destruct (busy c); set_solver.
  - intros i Hl. rewrite card_get_filter. case_decide; [done|].
    apply H5. destruct (card_get id (bx_cards b)) as [c|]; [|done]. destruct (busy c); set_solver.
Qed.

Lemma synced_step lost b e b' : Inj (=) (=) uuid → boxes_step uuid heap d b e = Ok b' → synced lost b →
  synced (lost_step b e lost) b'.
Proof.
  intros Hinj Hstep Hs.
  destruct e as [value|t w|data|id e|id content res|id form|id messageId|id message|id e|file data|loading file|form|id];
    cbn [boxes_step lost_step] in *.
  - injection Hstep as <-. by apply (synced_ext lost b).
  - injection Hstep as <-. unfold boxes_press. case_bool_decide; [done|]. destruct (bx_url b) as [cid new].
    destruct (_ || _); [apply synced_navigate|apply synced_press_all]; apply (synced_ext lost b); cbn; try done; lia.
  - injection Hstep as <-. unfold boxes_saved. destruct (bx_pending b) as [|o ps]; [done|].
    case_bool_decide; [apply synced_press_all, synced_navigate|]; by apply (synced_ext lost b).
  - eapply synced_on_card; [|exact Hstep|done]. intros k c c' k'. apply draws_card_stream.
  - unfold box_returned in Hstep. apply bind_Ok in Hstep as ([|] & _ & Hstep); [|by injection Hstep as <-].
    eapply synced_on_card; [|exact Hstep|by apply (synced_ext lost b)]. by intros k c c' k' [= _ <-].
  - eapply synced_on_card; [|exact Hstep|done]. by intros k c c' k' [= _ <-].
  - eapply synced_on_card; [|exact Hstep|done]. by intros k c c' k' [= _ <-].
  - eapply synced_on_card; [|exact Hstep|done]. intros k c c' k' H. cbv beta in H. unfold with_other in H. apply bind_Ok in H as (o & [= <-] & [= _ <-]).
    exact (draws_regenerate uuid message (with_list (ch_messages (cd_other c), k) (cd_other c))).
  - eapply synced_on_card; [|exact Hstep|done]. intros k c c' k' H. cbv beta in H. unfold with_other in H.
    apply bind_Ok in H as (o & Ho%draws_stream & [= _ <-]). exact Ho.
  - injection Hstep as <-. by apply (synced_ext lost b).
  - injection Hstep as <-. by apply (synced_ext lost b).
  - injection Hstep as <-. by apply synced_add.
  - injection Hstep as <-. by apply synced_remove.
Qed.

Lemma synced_run lost b es b' : Inj (=) (=) uuid → boxes_run uuid heap d b es = Ok b' → synced lost b →
  synced (lost_after b es lost) b'.
Proof.
  intros Hinj. revert lost b. induction es as [|e es IH]; intros lost b Hrun Hs; [injection Hrun as <-; exact Hs|].
  unfold boxes_run in Hrun. cbn [foldl] in Hrun. apply foldl_bind_Ok in Hrun as (b1 & E & Hrun1). cbn [mbind outcome_bind] in E. cbn [lost_after].
  rewrite E. apply IH; [exact Hrun1|]. exact (synced_step lost b e b1 Hinj E Hs).
Qed.

Lemma synced_init u form : Inj (=) (=) uuid → synced ∅ (boxes_init uuid d u form).
Proof.
  intros Hinj. apply synced_add; [done|]. split; cbn; try done; try constructor; try set_solver.
Qed.

Lemma synced_loading lost b : synced lost b →
  input_loading b = true ↔ (∃ id c, card_get id (bx_cards b) = Some c ∧ busy c = true) ∨ lost ≠ ∅.
Proof.
  intros [H1 H2 H3 H4 H5 H6]. unfold input_loading. rewrite some_true_spec by done. split.
  - intros [id Hid]. destruct (card_get id (bx_cards b)) as [c|] eqn:E.
    + left. exists id, c. split; [done|]. rewrite (H3 id c E) in Hid. congruence.
    + right. apply H4 in Hid; [set_solver|done].
  - intros [(id & c & Hc & Hb)|Hl].
    + exists id. by rewrite (H3 id c Hc), Hb.
    + apply set_choose_L in Hl as [id Hl]. exists id. apply H4; [by apply H5|done].
Qed.

(** whatever the user and the streams do, the input under the boxes is
    blocked exactly while a box on the page is answering, or for good once a
    box was removed while it was answering. *)
Theorem input_blocked_exact u form es b : Inj (=) (=) uuid →
  boxes_run uuid heap d (boxes_init uuid d u form) es = Ok b →
  input_loading b = true ↔
    (∃ id c, card_get id (bx_cards b) = Some c ∧ busy c = true) ∨
    lost_after (boxes_init uuid d u form) es ∅ ≠ ∅.
Proof. intros Hinj Hrun. eapply synced_loading, synced_run; [done|exact Hrun|]. by apply synced_init. Qed.
End blocked.

(** ** A turn of all boxes *)
Section turn.
Context {L : Lodash} {LL : LodashLaws L} (uuid : nat → string) (heap : loc → val) (d : dialog).

(** The runs of one box that draw no identifier. *)
Inductive card_runs : card → list sse_event → card → Prop :=
  | runs_nil c : card_runs c [] c
  | runs_cons c e c1 es c2 :
      (∀ k, card_stream uuid e k c = Ok (c1, k)) → card_runs c1 es c2 → card_runs c (e :: es) c2.

Lemma card_runs_app c1 es1 c2 es2 c3 : card_runs c1 es1 c2 → card_runs c2 es2 c3 → card_runs c1 (es1 ++ es2) c3.
Proof. induction 1; [done|]. intros. econstructor; eauto. Qed.

(** The events of a box in an interleaving. *)
Definition own (id : string) (es : list (string * sse_event)) : list sse_event := (js_filter (λ ie, ie.1 === id) es).*2.

Lemma own_cons id i e es : own id ((i, e) :: es) = if i === id then e :: own id es else own id es.
Proof. unfold own. rewrite js_filter_cons. cbn [fst]. by destruct (i === id). Qed.

Definition streams (es : list (string * sse_event)) : list boxes_event := map (λ ie, BoxStreamed ie.1 ie.2) es.

Lemma stream_card b i e : ∀ c c1,
  card_get i (bx_cards b) = Some c → (∀ k, card_stream uuid e k c = Ok (c1, k)) →
  boxes_step uuid heap d b (BoxStreamed i e) =
    Ok (with_cards (card_put i c1 (bx_cards b)) (setLoading i c c1 (bx_loading b)) (bx_drawn b) b).
Proof. intros c c1 Hc H1. cbn [boxes_step]. unfold on_card. by rewrite Hc, H1. Qed.

(** An interleaving of the streams is, for each box, the run of its own. *)
Lemma boxes_project (P : string → card → Prop) es : ∀ b,
  (∀ id c, card_get id (bx_cards b) = Some c → ∃ c', card_runs c (own id es) c' ∧ P id c') →
  ∃ b', boxes_run uuid heap d b (streams es) = Ok b' ∧ (bx_cards b').*1 = (bx_cards b).*1 ∧
    (∀ id c', card_get id (bx_cards b') = Some c' → P id c') ∧ bx_requests b' = bx_requests b ∧ bx_value b' = bx_value b.
Proof.
  induction es as [|[i e] es IH]; intros b HF.
  - exists b. split; [done|]. split; [done|]. split; [|done]. intros id c Hc.
    destruct (HF id c Hc) as (c' & Hrun & HP). inversion Hrun; by subst.
  - assert (∃ b1, boxes_step uuid heap d b (BoxStreamed i e) = Ok b1 ∧ (bx_cards b1).*1 = (bx_cards b).*1 ∧
      bx_requests b1 = bx_requests b ∧ bx_value b1 = bx_value b ∧
      ∀ id c1, card_get id (bx_cards b1) = Some c1 → ∃ c', card_runs c1 (own id es) c' ∧ P id c')
      as (b1 & H1 & Hids & Hr & Hv & HF1).
    { destruct (card_get i (bx_cards b)) as [c|] eqn:Ei.
      - destruct (HF i c Ei) as (c' & Hi & HP). rewrite own_cons, bool_decide_true in Hi by done.
        inversion Hi as [|c0 e0 c1 es0 c2 Hc1 Hrest]; subst. eexists. split; [by apply (stream_card b i e c c1)|].
        split; [apply card_put_ids|]. do 2 (split; [done|]). cbn [with_cards bx_cards].
        intros id c1'. rewrite card_get_put. case_decide as Hid.
        + subst. rewrite Ei. intros [= <-]. by exists c'.
        + intros Hc'. destruct (HF id c1' Hc') as (c2 & Hrun & HP2). rewrite own_cons, bool_decide_false in Hrun by done. eauto.
      - exists b. cbn [boxes_step]. unfold on_card. rewrite Ei. do 4 (split; [done|]). intros id c1 Hc1.
        destruct (HF id c1 Hc1) as (c2 & Hrun & HP2). rewrite own_cons, bool_decide_false in Hrun; [eauto|]. intros ->. congruence. }
    destruct (IH b1 HF1) as (b' & Hrun & Hids' & Hfin & Hr' & Hv').
    exists b'. split; [|split; [by rewrite Hids'|split; [done|by rewrite Hr', Hv']]].
    unfold streams. cbn [map]. unfold boxes_run. cbn [foldl mbind outcome_bind fst snd]. rewrite H1. exact Hrun.
Qed.

(** A box that shows the text [p] of the answer [i] after [pre]. *)
Record card_showing (i : val) (pre : list val) (p : string) (c : card) : Prop := {
  cs_last : ∃ a, cd_messages c = pre ++ [a] ∧ prop "content" a = VStr p ∧ prop "id" a = i;
  cs_text : answer_text (sse_answer (cd_sse c)) p;
  cs_busy : busy c = true
}.

Lemma card_chunk body i pre p c v x : truthy i = true → card_showing i pre p c → chunk_is v x → chunk_for i v →
  ∃ c', (∀ k, card_stream uuid (Chunk body (Some (VObj [("data", v)]))) k c = Ok (c', k)) ∧
    card_showing i pre (next_text p x) c'.
Proof.
  intros Ht [(a0 & Hm & Hc0 & Hi0) Htext Hb] Hx Hv.
  destruct (shown_step uuid body i pre p a0 v x _ Ht Hc0 Hi0 Htext Hx Hv) as (a & m & Ha & Hat & _ & Hadd & Hcont & Hid).
  destruct Hv as (o & -> & _).
  exists (card_with (pre ++ [m]) (with_answer a (cd_sse c)) c). split.
  - intros k. unfold card_stream. cbn [sse_step answer_changes].
    change (prop "data" (VObj [("data", VObj o)])) with (VObj o).
    cbn [typeof]. rewrite (bool_decide_false ("object" = "boolean")) by done. cbn [negb].
    rewrite Ha. cbn [mbind outcome_bind andb with_answer sse_answer]. rewrite Hm, Hadd. done.
  - split; [by exists m|done|exact Hb].
Qed.

Definition chunk_events (body : val) (ds : list val) : list sse_event :=
  map (λ v, Chunk body (Some (VObj [("data", v)]))) ds.

Lemma card_answer body i pre p c ds xs : truthy i = true → has_box body = false → card_showing i pre p c →
  Forall2 chunk_is ds xs → Forall (chunk_for i) ds →
  ∃ c', card_runs c (chunk_events body ds ++ [Ended body]) c' ∧ busy c' = false ∧
    ∃ a, cd_messages c' = pre ++ [a] ∧ prop "content" a = VStr (foldl next_text p xs) ∧ prop "id" a = i.
Proof.
  intros Ht Hbox Hs Hall. revert p c Hs. induction Hall as [|v x ds xs Hx _ IH]; intros p c Hs Hf.
  - destruct Hs as [(a & Hm & Hc & Hi) _ _].
    exists (card_with (cd_messages c) (resetAnswer (setDoneValue body true (cd_sse c))) c). split; [|split].
    + econstructor; [|constructor]. intros k. unfold card_stream. cbn. done.
    + unfold busy, setDoneValue. by rewrite Hbox.
    + by exists a.
  - apply Forall_cons in Hf as [Hv Hf]. destruct (card_chunk body i pre p c v x Ht Hs Hx Hv) as (c1 & Hc1 & Hs1).
    destruct (IH (next_text p x) c1 Hs1 Hf) as (c2 & Hr & Hb & Ha). exists c2. split; [|done].
    unfold chunk_events. cbn [map app]. by econstructor.
Qed.

(** *** Enter in all boxes *)

(** A box with nothing in flight, whose settings do not name a stream. *)
Record card_ready (c : card) : Prop := {
  cr_done : busy c = false;
  cr_answer : sse_answer (cd_sse c) = [];
  cr_form : obj_wf (cd_form c) ∧ obj_lookup "chatBoxId" (cd_form c) = None
}.

(** The request of a box, with the drawn identifier of its question. *)
Definition card_request (b : boxes) (t w : val) (j : nat) (c : card) : obj :=
  obj_assign (request_body (bx_url b).1 [] (cd_messages c)
    (sent_message heap (uuid (S (bx_drawn b) + j)) (str_trim (bx_value b)) (currentFiles (bx_uploads b)) (bx_url b).1) t w)
    (cd_form c).

Definition card_question (b : boxes) (j : nat) : val :=
  VObj (question heap (uuid (S (bx_drawn b) + j)) (bx_value b) (currentFiles (bx_uploads b)) (bx_url b).1).

Lemma request_no_box b t w j c : card_ready c → has_box (VObj (card_request b t w j c)) = false.
Proof.
  intros [_ _ [Hw Hn]]. unfold has_box, obj_has, card_request. cbn [obj_of_val].
  rewrite obj_assign_lookup by done. by rewrite Hn.
Qed.

Lemma press_card b t w j c : card_ready c → uuid (S (bx_drawn b) + j) ≠ "" →
  ∃ c', card_press uuid heap (bx_value b) (currentFiles (bx_uploads b)) (bx_url b).1 [] t w (S (bx_drawn b) + j) c =
      (c', S (S (bx_drawn b) + j), Some (card_request b t w j c)) ∧
    card_showing (VStr (uuid (S (bx_drawn b) + j))) (cd_messages c ++ [card_question b j]) "" c'.
Proof.
  intros Hr Hid. pose proof (request_no_box b t w j c Hr) as Hbox. destruct Hr as [Hd Ha _].
  unfold card_press. rewrite question_added by done. unfold busy in Hd. apply negb_false_iff in Hd. rewrite Hd.
  eexists. split; [done|]. unfold setDoneValue. fold (card_request b t w j c). rewrite Hbox. split.
  - eexists. cbn [card_with cd_messages]. rewrite (app_assoc _ [_] [_] : _ ++ [_; _] = _). by repeat split.
  - unfold answer_text. cbn. by rewrite Ha.
  - done.
Qed.

Lemma press_ready_cards b t w cs : ∀ r j, Forall card_ready cs.*2 → (∀ k, uuid k ≠ "") →
  ∃ cs' r', press_cards uuid heap (bx_value b) (currentFiles (bx_uploads b)) (bx_url b).1 [] t w (S (bx_drawn b) + j) cs r =
      (cs', r', S (bx_drawn b) + j + length cs, imap (λ n ic, (ic.1, card_request b t w (j + n) ic.2)) cs) ∧
    Forall2 (λ ic ic', ic'.1 = ic.1) cs cs' ∧
    ∀ n id c c', cs !! n = Some (id, c) → cs' !! n = Some (id, c') →
      card_showing (VStr (uuid (S (bx_drawn b) + (j + n)))) (cd_messages c ++ [card_question b (j + n)]) "" c'.
Proof.
  induction cs as [|[i c] cs IH]; intros r j Hall Hid; cbn [press_cards].
  { exists [], r. rewrite Nat.add_0_r. split; [done|]. split; [constructor|]. intros n. by rewrite lookup_nil. }
  apply Forall_cons in Hall as [Hc Hall]. cbn [snd] in Hc.
  destruct (press_card b t w j c Hc (Hid _)) as (c' & -> & Hs).
  replace (S (S (bx_drawn b) + j)) with (S (bx_drawn b) + S j) by lia.
  destruct (IH (setLoading i c c' r) (S j) Hall Hid) as (cs' & r' & -> & H2 & Hshow).
  exists ((i, c') :: cs'), r'. split; [|split].
  - cbn [length imap fst snd]. rewrite Nat.add_0_r. f_equal; [f_equal; lia|]. f_equal. apply imap_ext.
    intros n [i0 c0] _. cbn. by replace (j + S n) with (S (j + n)) by lia.
  - by constructor.
  - intros [|n] id c0 c1; cbn [lookup list_lookup].
    + intros [= <- <-] [= <-]. by rewrite Nat.add_0_r.
    + intros H0 H1. replace (j + S n) with (S j + n) by lia. by apply (Hshow n id c0 c1).
Qed.

(** The page with several boxes, all idle, on an existing conversation and
    with a text typed. *)
Record boxes_ready (b : boxes) : Prop := {
  br_cards : Forall card_ready (bx_cards b).*2;
  br_synced : synced uuid ∅ b;
  br_conversation : (bx_url b).1 ≠ "";
  br_old : (bx_url b).2 ≠ "true";
  br_value : str_trim (bx_value b) ≠ ""
}.

Lemma lost_streams es : ∀ b lost, lost_after uuid heap d b (streams es) lost = lost.
Proof.
  induction es as [|ie es IH]; intros b lost; [done|]. unfold streams. cbn [map lost_after lost_step].
  destruct (boxes_step _ _ _ _ _); [apply IH|done..].
Qed.

(** The page right after Enter: every box shows its question. *)
Lemma boxes_pressed b t w : Inj (=) (=) uuid → (∀ k, uuid k ≠ "") → boxes_ready b →
  ∃ b1, boxes_step uuid heap d b (BoxesEntered t w) = Ok b1 ∧
    bx_requests b1 = bx_requests b ++ imap (λ n ic, (ic.1, card_request b t w n ic.2)) (bx_cards b) ∧
    (bx_cards b ≠ [] → bx_value b1 = "") ∧ synced uuid ∅ b1 ∧ (bx_cards b1).*1 = (bx_cards b).*1 ∧
    ∀ id c', card_get id (bx_cards b1) = Some c' → ∃ n c, bx_cards b !! n = Some (id, c) ∧ card_ready c ∧
      card_showing (VStr (uuid (S (bx_drawn b) + n))) (cd_messages c ++ [card_question b n]) "" c'.
Proof.
  intros Hinj Hid [Hcards Hs Hu1 Hu2 Hv].
  destruct (press_ready_cards b t w (bx_cards b) (bx_loading b) 0 Hcards Hid) as (cs' & r' & Hpress & Hids & Hshow).
  rewrite Nat.add_0_r in Hpress. cbn [Nat.add] in *. set (reqs := imap _ _) in Hpress.
  set (b1 := {| bx_cards := cs'; bx_loading := r'; bx_drawn := S (bx_drawn b) + length (bx_cards b); bx_url := bx_url b;
       bx_value := if reqs === [] then bx_value b else "";
       bx_uploads := if bx_cards b === [] then bx_uploads b else no_uploads;
       bx_pending := bx_pending b; bx_requests := bx_requests b ++ reqs |}).
  assert (boxes_step uuid heap d b (BoxesEntered t w) = Ok b1) as Hstep.
  { cbn [boxes_step]. unfold boxes_press. rewrite (bool_decide_false _ Hv). subst b1 reqs. destruct (bx_url b) as [cid new] eqn:Hu.
    cbn [fst snd] in *. rewrite (bool_decide_false _ Hu1), (bool_decide_false _ Hu2). cbn [orb]. unfold press_all.
    cbn [with_openings bx_value bx_uploads bx_drawn bx_cards bx_loading bx_url bx_pending bx_requests].
    by rewrite Hpress. }
  pose proof (synced_step uuid heap d ∅ b (BoxesEntered t w) b1 Hinj Hstep Hs) as Hs1.
  exists b1. split; [done|]. split; [done|]. split; [subst b1 reqs; cbn [bx_value]; by destruct (bx_cards b)|].
  split; [done|]. split.
  - cbn [b1 bx_cards]. clear -Hids. induction Hids as [|[i c] [i' c'] cs cs' Hi _ IH]; [done|].
    cbn [fmap list_fmap fst] in *. by rewrite Hi, IH.
  - intros id c' Hc'. apply card_get_elem in Hc'; [|exact (sy_ids _ _ _ Hs1)].
    apply list_elem_of_lookup in Hc' as [n Hn]. destruct (Forall2_lookup_r _ _ _ _ _ Hids Hn) as ([i c] & Hc & Heq).
    cbn in Heq. subst i. exists n, c. split; [done|]. split; [|by apply (Hshow n id c c')].
    rewrite Forall_forall in Hcards. apply Hcards, list_elem_of_fmap. exists (id, c). split; [done|].
    by eapply list_elem_of_lookup_2.
Qed.

Lemma card_get_ids cs id : id ∈ cs.*1 → ∃ c, card_get id cs = Some c.
Proof. intros Hin. destruct (card_get id cs) eqn:E; [eauto|]. by apply card_get_None in E. Qed.

(** C8: a turn of all boxes.  Enter sends one request for each box, with the
    box's own history and settings; then, in whatever order the chunks of
    the answers arrive, once every stream has ended each box shows its own
    history, the question and the text of its own stream, and the input is
    free again. *)
Theorem boxes_turn b t w : Inj (=) (=) uuid → (∀ k, uuid k ≠ "") → boxes_ready b →
  ∃ b1, boxes_step uuid heap d b (BoxesEntered t w) = Ok b1 ∧
    bx_requests b1 = bx_requests b ++ imap (λ n ic, (ic.1, card_request b t w n ic.2)) (bx_cards b) ∧
    (bx_cards b ≠ [] → bx_value b1 = "" ∧ input_loading b1 = true) ∧
    ∀ es ds xs,
      (∀ n id c, bx_cards b !! n = Some (id, c) →
        let body := VObj (card_request b t w n c) in
        own id es = chunk_events body (ds n) ++ [Ended body] ∧
        Forall2 chunk_is (ds n) (xs n) ∧ Forall (chunk_for (VStr (uuid (S (bx_drawn b) + n)))) (ds n)) →
      ∃ b2, boxes_run uuid heap d b1 (streams es) = Ok b2 ∧ input_loading b2 = false ∧ bx_requests b2 = bx_requests b1 ∧
        ∀ n id c, bx_cards b !! n = Some (id, c) → ∃ c2 a, card_get id (bx_cards b2) = Some c2 ∧
          cd_messages c2 = cd_messages c ++ [card_question b n; a] ∧
          prop "content" a = VStr (foldl next_text "" (xs n)).
Proof.
  intros Hinj Hid Hrd. pose proof (sy_ids _ _ _ (br_synced b Hrd)) as Hnd.
  destruct (boxes_pressed b t w Hinj Hid Hrd) as (b1 & Hstep & Hreqs & Hval & Hs1 & Hids & Hcs).
  exists b1. split; [done|]. split; [done|]. split.
  { intros Hne. split; [by apply Hval|]. apply (synced_loading uuid ∅ _ Hs1). left.
    destruct (bx_cards b) as [|[id c] cs]; [done|]. destruct (card_get_ids (bx_cards b1) id) as [c' Hc'];
      [rewrite Hids; by left|]. exists id, c'. split; [done|]. by destruct (Hcs id c' Hc') as (n & c0 & _ & _ & []). }
  intros es ds xs Hown.
  destruct (boxes_project (λ id c2, busy c2 = false ∧ ∃ n c a, bx_cards b !! n = Some (id, c) ∧
      cd_messages c2 = cd_messages c ++ [card_question b n; a] ∧ prop "content" a = VStr (foldl next_text "" (xs n)))
    es b1) as (b2 & Hrun & Hids2 & HP & Hr2 & _).
  { intros id c' Hc'. destruct (Hcs id c' Hc') as (n & c & Hn & Hready & Hsh).
    destruct (Hown n id c Hn) as (-> & Hall & Hfor).
    destruct (card_answer (VObj (card_request b t w n c)) (VStr (uuid (S (bx_drawn b) + n)))
      (cd_messages c ++ [card_question b n]) "" c' (ds n) (xs n)) as (c2 & Hruns & Hb & a & Hm & Hc & _); try done.
    - cbn. by rewrite bool_decide_false.
    - by apply request_no_box.
    - exists c2. split; [done|]. split; [done|]. exists n, c, a. split; [done|]. split; [|done].
      by rewrite Hm, <-app_assoc. }
  pose proof (synced_run uuid heap d ∅ b1 _ b2 Hinj Hrun Hs1) as Hs2. rewrite lost_streams in Hs2.
  exists b2. split; [done|]. split; [|split; [done|]].
  - apply not_true_iff_false. rewrite (synced_loading uuid ∅ b2 Hs2).
    intros [(id & c2 & Hc2 & Hb)|?]; [|done]. destruct (HP id c2 Hc2) as [? _]. congruence.
  - intros n id c Hn. assert (id ∈ (bx_cards b2).*1) as [c2 E]%card_get_ids.
    { rewrite Hids2, Hids. apply list_elem_of_fmap. exists (id, c). split; [done|]. by eapply list_elem_of_lookup_2. }
    destruct (HP id c2 E) as (_ & n' & c0 & a & Hn' & Hm & Hc).
    assert (n' = n) as -> by (eapply (NoDup_lookup _ n' n id Hnd); by rewrite list_lookup_fmap, ?Hn, ?Hn').
    simplify_eq. by exists c2, a.
Qed.

(** What the regeneration of a box's message does happens in the other
    message list: the box itself does not change, nor does the record. *)
Lemma other_not_shown b id b' e : boxes_step uuid heap d b e = Ok b' →
  (∃ m, e = BoxRegenerated id m) ∨ (∃ s, e = BoxOtherStreamed id s) →
  bx_loading b' = bx_loading b ∧
  ∀ i c', card_get i (bx_cards b') = Some c' → ∃ c, card_get i (bx_cards b) = Some c ∧
    cd_messages c' = cd_messages c ∧ cd_sse c' = cd_sse c.
Proof.
  assert (∀ f, on_card id (λ k, with_other k f) b = Ok b' → bx_loading b' = bx_loading b ∧
    ∀ i c', card_get i (bx_cards b') = Some c' → ∃ c, card_get i (bx_cards b) = Some c ∧
      cd_messages c' = cd_messages c ∧ cd_sse c' = cd_sse c) as Hf.
  { intros f. unfold on_card. destruct (card_get id (bx_cards b)) as [c|] eqn:E; [|intros [= <-]; eauto].
    intros H. apply bind_Ok in H as ([c1 k1] & H1 & [= <-]). unfold with_other in H1.
    apply bind_Ok in H1 as (o & _ & [= <- _]). split.
    - cbn. unfold setLoading. by rewrite Bool.eqb_reflx.
    - intros i c'. cbn [with_cards bx_cards]. rewrite card_get_put. case_decide; [subst|by eauto].
      rewrite E. intros [= <-]. by exists c. }
  intros Hstep [[m ->]|[s ->]]; exact (Hf _ Hstep).
Qed.
End turn.

(** ** The number of boxes *)

(** With the buttons the boxes show, there are always one to three. *)
Lemma box_buttons n idx : 1 ≤ n ≤ 3 → idx < n →
  if shows_remove idx n then 1 ≤ n - 1 ≤ 3 else 1 ≤ n + 1 ≤ 3.
Proof.
  intros Hn Hi. unfold shows_remove. repeat case_bool_decide; cbn; subst; try lia.
Qed.

(** ** A page *)
Module BoxesPage.
Definition uuid (k : nat) : string := "id" +:+ pretty k.
Definition heap (l : loc) : val := VNull.
Definition d : dialog := {| dialogId := "d1"; prologue := VStr "Hello" |}.

#[export] Instance uuid_inj : Inj (=) (=) uuid.
Proof. intros x y [= H]. by apply pretty_nat_inj in H. Qed.

Lemma uuid_nonempty k : uuid k ≠ "".
Proof. done. Qed.

(** Two boxes with different models, and a text typed. *)
Definition start : boxes := boxes_init uuid d ("c1", "") [("llm_id", VStr "a")].

Definition two : boxes :=
  match boxes_run uuid heap d start [BoxAdded [("llm_id", VStr "b")]; BoxesTyped "Why?"] with
  | Ok b => b
  | _ => start
  end.

Lemma two_synced : synced uuid ∅ two.
Proof.
  exact (synced_run uuid heap d ∅ start [BoxAdded [("llm_id", VStr "b")]; BoxesTyped "Why?"] two uuid_inj eq_refl
    (synced_init uuid d ("c1", "") [("llm_id", VStr "a")] uuid_inj)).
Qed.

Lemma two_ready : boxes_ready uuid two.
Proof.
  split; [|exact two_synced|done|done|by vm_compute].
  repeat constructor; try done; apply (bool_decide_unpack _); vm_compute; exact I.
Qed.

Definition chunk (i s : string) : val := VObj [("answer", VStr s); ("id", VStr i)].

Definition a_piece (s : string) : piece := {| text := s; starts := false; ends := false |}.

Lemma box_chunk_ok i s : chunk_is (chunk i s) (a_piece s) ∧ chunk_for (VStr i) (chunk i s).
Proof.
  split; [by split|]. eexists. split; [reflexivity|]. split; [|by split]. apply (bool_decide_unpack _). vm_compute. exact I.
Qed.

(** The requests and the interleaved chunks of the two answers. *)
Definition body (n : nat) : val :=
  match bx_cards two !! n with Some (_, c) => VObj (card_request uuid heap two VUndef VUndef n c) | None => VNull end.

Definition question_id (n : nat) : string := uuid (S (bx_drawn two) + n).

Definition got (n : nat) (s : string) : sse_event := Chunk (body n) (Some (VObj [("data", chunk (question_id n) s)])).

Definition mixed : list (string * sse_event) :=
  [("id0", got 0 "Be"); ("id1", got 1 "No"); ("id1", Ended (body 1)); ("id0", got 0 "cause"); ("id0", Ended (body 0))].

Definition texts (n : nat) : list string := match n with 0 => ["Be"; "cause"] | 1 => ["No"] | _ => [] end.

Lemma boxes_turn_witness : ∃ b1 b2 c2 a,
  boxes_step uuid heap d two (BoxesEntered VUndef VUndef) = Ok b1 ∧
  boxes_run uuid heap d b1 (streams mixed) = Ok b2 ∧ input_loading b2 = false ∧
  card_get "id0" (bx_cards b2) = Some c2 ∧ last (cd_messages c2) = Some a ∧ prop "content" a = VStr "Because".
Proof.
  destruct (boxes_turn uuid heap d two VUndef VUndef uuid_inj uuid_nonempty two_ready) as (b1 & H1 & _ & _ & Hall).
  destruct (Hall mixed (λ n, map (chunk (question_id n)) (texts n)) (λ n, map a_piece (texts n)))
    as (b2 & H2 & Hl & _ & Hshow).
  - intros [|[|n]] id c Hn.
    + vm_compute in Hn. injection Hn as <- <-. cbn zeta. split; [vm_compute; reflexivity|].
      split; repeat constructor; apply box_chunk_ok.
    + vm_compute in Hn. injection Hn as <- <-. cbn zeta. split; [vm_compute; reflexivity|].
      split; repeat constructor; apply box_chunk_ok.
    + vm_compute in Hn. discriminate.
  - destruct (Hshow 0 "id0" _ eq_refl) as (c2 & a & Hc2 & Hm & Ha).
    exists b1, b2, c2, a. split; [exact H1|]. split; [exact H2|]. split; [exact Hl|]. split; [exact Hc2|].
    split; [rewrite Hm; reflexivity|exact Ha].
Defined.

(** A box that is removed while it answers leaves the input blocked, though
    no box on the page is answering. *)
Definition after_removal : list boxes_event :=
  [BoxAdded []; BoxesTyped "Why?"; BoxesEntered VUndef VUndef; BoxRemoved "id1"; BoxStreamed "id0" (Ended (body 0));
   BoxStreamed "id1" (Ended (body 1))].

Lemma input_blocked_exact_witness : ∃ b, boxes_run uuid heap d start after_removal = Ok b ∧
  js_every (λ ic, negb (busy ic.2)) (bx_cards b) = true ∧ input_loading b = true.
Proof.
  eexists. split; [vm_compute; reflexivity|]. split; [vm_compute; reflexivity|].
  apply (input_blocked_exact uuid heap d ("c1", "") [("llm_id", VStr "a")] after_removal _ uuid_inj
    (ltac:(vm_compute; reflexivity))).
  right. intros H. assert ("id1" ∈ (∅ : gset string)) as Hin;
    [rewrite <-H; apply (bool_decide_unpack _); vm_compute; exact I|]. by apply not_elem_of_empty in Hin.
Defined.
End BoxesPage.
