(* ===== verification/Search.v ===== *)
(** * The search page

    pages/next-search/hooks.ts: [useSendQuestion] and [useSearching] (a
    question asked to the model over the answer stream, with the retrieval
    test and the related questions beside it), the mind map drawer
    ([useShowMindMapDrawer]) and its pending progress ([usePendingMindMap]);
    with the pagination in the URL ([useGetPaginationWithRouter] of
    hooks/logic-hooks.ts and [useSetPaginationParams] of
    hooks/route-hook.ts).  The requests are logged; their replies, except the
    stream, are the query cache's. *)
From S2P Require Import Prelude JsValue Libs FormUtils Streaming.
Open Scope list_scope.
Open Scope nat_scope.
Open Scope js_scope.

(** ** Pagination in the URL

    [Number(get('page')) || 1] and [Number(get('size')) || 50]: what the
    parameters of the URL read as numbers, if they are there; a number is
    written with [toString] and read back as it is. *)
Record paging := { url_page : option num; url_size : option num }.

Definition or_number (o : option num) (z : Z) : num :=
  match o with Some n => if truthy (VNum n) then n else num_of_Z z | None => num_of_Z z end.

Definition page_of (p : paging) : num := or_number (url_page p) 1.
Definition size_of (p : paging) : num := or_number (url_size p) 50.

Definition setPaginationParams (page : option num) (pageSize : option num) (p : paging) : paging :=
  {| url_page := Some (default (num_of_Z 1) page);
     url_size := match pageSize with
                 | Some n => if truthy (VNum n) then Some n else url_size p
                 | None => url_size p
                 end |}.

(** The page is reset when the size changes, or is not given. *)
Definition setCurrentPagination (page : num) (pageSize : option num) (p : paging) : paging :=
  let same := match pageSize with Some n => num_eqb n (size_of p) | None => false end in
  setPaginationParams (Some (if negb same then num_of_Z 1 else page)) pageSize p.

(** ** The page *)
Section search.
Context {L : Lodash}.

(** The search application and the parameters of the URL. *)
Record search_app := {
  kbIds : val;
  tenantId : val;
  searchId : val;
  related_search : bool;
  summary : bool
}.

Record search := {
  se_sse : sse;
  se_sendingLoading : bool;
  se_currentAnswer : obj;
  se_searchStr : string;
  se_isFirstRender : bool;
  se_selectedDocumentIds : val;
  se_paging : paging;
  se_mindMapVisible : bool;
  se_mindMapRef : val;
  se_asked : list obj;
  se_tested : list obj;
  se_testedAll : list obj;
  se_related : list string;
  se_mindMaps : list val
}.

Definition search_init (p : paging) : search :=
  {| se_sse := sse_init; se_sendingLoading := false; se_currentAnswer := []; se_searchStr := "";
     se_isFirstRender := true; se_selectedDocumentIds := VArr []; se_paging := p; se_mindMapVisible := false;
     se_mindMapRef := VUndef; se_asked := []; se_tested := []; se_testedAll := []; se_related := []; se_mindMaps := [] |}.

Definition setSearchStr (v : string) (s : search) : search :=
  {| se_sse := se_sse s; se_sendingLoading := se_sendingLoading s; se_currentAnswer := se_currentAnswer s;
     se_searchStr := v; se_isFirstRender := se_isFirstRender s; se_selectedDocumentIds := se_selectedDocumentIds s;
     se_paging := se_paging s; se_mindMapVisible := se_mindMapVisible s; se_mindMapRef := se_mindMapRef s;
     se_asked := se_asked s; se_tested := se_tested s; se_testedAll := se_testedAll s; se_related := se_related s;
     se_mindMaps := se_mindMaps s |}.

Definition with_stream (st : sse) (loading : bool) (answer : obj) (s : search) : search :=
  {| se_sse := st; se_sendingLoading := loading; se_currentAnswer := answer;
     se_searchStr := se_searchStr s; se_isFirstRender := se_isFirstRender s;
     se_selectedDocumentIds := se_selectedDocumentIds s; se_paging := se_paging s;
     se_mindMapVisible := se_mindMapVisible s; se_mindMapRef := se_mindMapRef s;
     se_asked := se_asked s; se_tested := se_tested s; se_testedAll := se_testedAll s; se_related := se_related s;
     se_mindMaps := se_mindMaps s |}.

Definition with_requests (p : paging) (first : bool) (asked tested testedAll : list obj) (related : list string)
    (s : search) : search :=
  {| se_sse := se_sse s; se_sendingLoading := se_sendingLoading s; se_currentAnswer := se_currentAnswer s;
     se_searchStr := se_searchStr s; se_isFirstRender := first; se_selectedDocumentIds := se_selectedDocumentIds s;
     se_paging := p; se_mindMapVisible := se_mindMapVisible s; se_mindMapRef := se_mindMapRef s;
     se_asked := asked; se_tested := tested; se_testedAll := testedAll; se_related := related;
     se_mindMaps := se_mindMaps s |}.

Definition with_mind_map (visible : bool) (ref : val) (fetched : list val) (s : search) : search :=
  {| se_sse := se_sse s; se_sendingLoading := se_sendingLoading s; se_currentAnswer := se_currentAnswer s;
     se_searchStr := se_searchStr s; se_isFirstRender := se_isFirstRender s;
     se_selectedDocumentIds := se_selectedDocumentIds s; se_paging := se_paging s;
     se_mindMapVisible := visible; se_mindMapRef := ref;
     se_asked := se_asked s; se_tested := se_tested s; se_testedAll := se_testedAll s; se_related := se_related s;
     se_mindMaps := fetched |}.

Definition setSelectedDocumentIds (ids : val) (s : search) : search :=
  {| se_sse := se_sse s; se_sendingLoading := se_sendingLoading s; se_currentAnswer := se_currentAnswer s;
     se_searchStr := se_searchStr s; se_isFirstRender := se_isFirstRender s; se_selectedDocumentIds := ids;
     se_paging := se_paging s; se_mindMapVisible := se_mindMapVisible s; se_mindMapRef := se_mindMapRef s;
     se_asked := se_asked s; se_tested := se_tested s; se_testedAll := se_testedAll s; se_related := se_related s;
     se_mindMaps := se_mindMaps s |}.

Definition ask_body (a : search_app) (q : string) : obj :=
  [("kb_ids", kbIds a); ("question", VStr q); ("tenantId", tenantId a); ("search_id", searchId a)].

Definition test_body (a : search_app) (q : string) (docs : option val) (page size : num) : obj :=
  [("kb_id", kbIds a); ("highlight", VBool true); ("question", VStr q)] ++
  (match docs with Some d => [("doc_ids", d)] | None => [] end) ++
  [("page", VNum page); ("size", VNum size); ("search_id", searchId a)].

Definition sendQuestion (a : search_app) (question : string) (enableAI : bool) (s : search) : search :=
  let q := str_trim question in
  if q === "" then s
  else
    let body := ask_body a q in
    let s := if enableAI then with_stream (setDoneValue (VObj body) false (se_sse s)) true [] s
             else with_stream (se_sse s) (se_sendingLoading s) [] s in
    with_requests (setCurrentPagination (num_of_Z 1) None (se_paging s)) false
      (if enableAI then se_asked s ++ [body] else se_asked s)
      (se_tested s ++ [test_body a q None (num_of_Z 1) (size_of (se_paging s))]) (se_testedAll s)
      (if related_search a then se_related s ++ [q] else se_related s) s.

(** The closure a related question gets, once clicked. *)
Definition handleClickRelatedQuestion (a : search_app) (question : string) (enableAI : bool) (s : search) : search :=
  if se_sendingLoading s then s else sendQuestion a question enableAI (setSearchStr question s).

Definition handleTestChunk (a : search_app) (documentIds : val) (page size : num) (s : search) : search :=
  let q := str_trim (se_searchStr s) in
  if se_sendingLoading s || (q === "") then s
  else
    with_requests (se_paging s) (se_isFirstRender s) (se_asked s)
      (se_tested s ++ [test_body a q (Some (js_coalesce documentIds (se_selectedDocumentIds s))) page size])
      (se_testedAll s ++ [test_body a q (Some (VArr [])) page size]) (se_related s) s.

(** [useSearching] *)
Definition handleSearch (a : search_app) (value : string) (s : search) : search :=
  let s := setSearchStr value (sendQuestion a value (summary a) s) in
  with_mind_map false (se_mindMapRef s) (se_mindMaps s) s.

(** The effect on a text handed over by the page before. *)
Definition effect_searchText (a : search_app) (searchText : string) (s : search) : search :=
  if searchText === "" then s else sendQuestion a searchText (summary a) (setSearchStr searchText s).

Definition onChange (a : search_app) (pageNumber pageSize : num) (s : search) : search :=
  let s := with_requests (setCurrentPagination pageNumber (Some pageSize) (se_paging s)) (se_isFirstRender s)
             (se_asked s) (se_tested s) (se_testedAll s) (se_related s) s in
  handleTestChunk a (se_selectedDocumentIds s) pageNumber pageSize s.

(** [useShowMindMapDrawer]: the map is fetched when the parameters are not
    those of the last fetch. *)
Definition mind_map_params (a : search_app) (s : search) : val :=
  VObj [("question", VStr (str_trim (se_searchStr s))); ("kb_ids", kbIds a); ("searchId", searchId a)].

Definition handleShowModal (a : search_app) (s : search) : search :=
  let searchParams := mind_map_params a s in
  if negb (lo_isEmpty (prop "question" searchParams)) && (searchParams !== se_mindMapRef s)
  then with_mind_map true searchParams (se_mindMaps s ++ [searchParams]) s
  else with_mind_map true (se_mindMapRef s) (se_mindMaps s) s.

(** *** Steps *)
Inductive search_event :=
  | SearchEntered (value : string)
  | SearchTextGiven (searchText : string)
  | SearchStrSet (value : string)
  | RelatedClicked (question : string) (enableAI : bool)
  | DocumentsTested (documentIds : val) (page size : num)
  | DocumentsSelected (ids : val)
  | PageChanged (pageNumber pageSize : num)
  | MindMapOpened
  | MindMapClosed
  | SearchStreamed (e : sse_event).

(** The two effects, on [answer] and on [done]. *)
Definition search_stream (e : sse_event) (s : search) : outcome search :=
  st ← sse_step (se_sse s) e;
  Ok (with_stream st
        (if sse_done st && negb (sse_done (se_sse s)) then false else se_sendingLoading s)
        (if answer_changes e && negb (lo_isEmpty (VObj (sse_answer st))) then sse_answer st else se_currentAnswer s) s).

Definition search_step (a : search_app) (s : search) (e : search_event) : outcome search :=
  match e with
  | SearchEntered value => Ok (handleSearch a value s)
  | SearchTextGiven searchText => Ok (effect_searchText a searchText s)
  | SearchStrSet value => Ok (setSearchStr value s)
  | RelatedClicked question enableAI => Ok (handleClickRelatedQuestion a question enableAI s)
  | DocumentsTested documentIds page size => Ok (handleTestChunk a documentIds page size s)
  | DocumentsSelected ids => Ok (setSelectedDocumentIds ids s)
  | PageChanged pageNumber pageSize => Ok (onChange a pageNumber pageSize s)
  | MindMapOpened => Ok (handleShowModal a s)
  | MindMapClosed => Ok (with_mind_map false (se_mindMapRef s) (se_mindMaps s) s)
  | SearchStreamed e => search_stream e s
  end.

Definition search_run (a : search_app) (s : search) (es : list search_event) : outcome search :=
  foldl (λ m e, m ≫= λ s, search_step a s e) (Ok s) es.
End search.

Definition useCheckSettings (kb_ids name : val) : bool :=
  negb (match kb_ids with VArr (_ :: _) => truthy name | _ => false end).

(** ** The progress of a pending mind map

    An interval that counts up each second and clears itself when the count
    was over 40; the percentage is [toFixed(0)], the nearest integer. *)
Record pending := { count : nat; ticking : bool }.

Definition pending_init : pending := {| count := 0; ticking := true |}.

Definition pending_tick (p : pending) : pending :=
  if ticking p then {| count := S (count p); ticking := bool_decide (count p ≤ 40) |} else p.

Definition pending_after (n : nat) : pending := Nat.iter n pending_tick pending_init.

Definition progress (p : pending) : Z := ((2 * 100 * Z.of_nat (count p) + 43) / (2 * 43))%Z.

(** ** Properties *)
Section search_props.
Context {L : Lodash} {LL : LodashLaws L} (a : search_app).

(** A stream does not make a hook busy: requests do. *)
Lemma stream_done e st st' : (∀ body, e ≠ Started body) → sse_step st e = Ok st' → sse_done st' = false → sse_done st = false.
Proof.
  intros He Hst Hd. destruct e as [body|body [v|]|body|]; cbn [sse_step] in Hst.
  - by destruct (He body).
  - destruct (_ !== _); [apply bind_Ok in Hst as (? & _ & [= <-])|injection Hst as <-]; done.
  - by injection Hst as <-.
  - injection Hst as <-. revert Hd. unfold resetAnswer, setDoneValue. by destruct (has_box body).
  - injection Hst as <-. revert Hd. unfold timer_fires. by destruct (sse_timer st).
Qed.

Lemma sendQuestion_loading q ai s : se_sendingLoading s = negb (sse_done (se_sse s)) →
  se_sendingLoading (sendQuestion a q ai s) = negb (sse_done (se_sse (sendQuestion a q ai s))).
Proof. intros H1. unfold sendQuestion. destruct (_ === _); [done|]. destruct ai; [done|exact H1]. Qed.

(** In any run of the page, it says that an answer is being produced exactly
    while the hook of the stream is busy. *)
Lemma search_loading_exact p es s : Forall (λ e, ∀ body, e ≠ SearchStreamed (Started body)) es →
  search_run a (search_init p) es = Ok s → se_sendingLoading s = negb (sse_done (se_sse s)).
Proof.
  unfold search_run. revert s. induction es as [|e es IH] using rev_ind; intros s; [by intros _ [= <-]|].
  intros [Hes [He _]%Forall_cons]%Forall_app. rewrite foldl_app. cbn [foldl]. intros (s0 & H0 & Hstep)%bind_Ok.
  specialize (IH s0 Hes H0). destruct e; cbn [search_step] in Hstep; try (injection Hstep as <-); try exact IH.
  - by apply (sendQuestion_loading value (summary a) s0).
  - unfold effect_searchText. destruct (_ === _); [done|]. by apply (sendQuestion_loading searchText (summary a)).
  - unfold handleClickRelatedQuestion. destruct (se_sendingLoading s0) eqn:E; [congruence|].
    apply sendQuestion_loading. cbn. congruence.
  - unfold handleTestChunk. by destruct (_ || _).
  - unfold onChange, handleTestChunk. by destruct (_ || _).
  - unfold handleShowModal. by destruct (_ && _).
  - unfold search_stream in Hstep. apply bind_Ok in Hstep as (st & Hst & [= <-]). cbn [se_sendingLoading with_stream se_sse].
    rewrite IH. destruct (sse_done st) eqn:E1, (sse_done (se_sse s0)) eqn:E2; try done.
    rewrite (stream_done e (se_sse s0) st) in E2; [done| |done|done]. intros body ->. by apply (He body).
Qed.

(** *** A search *)
Definition search_chunks (body : val) (ds : list val) : list search_event :=
  map (λ v, SearchStreamed (Chunk body (Some (VObj [("data", v)])))) ds.

(** The page while the answer accumulates. *)
Record answering (p : string) (s0 s : search) : Prop := {
  an_text : answer_text (sse_answer (se_sse s)) p;
  an_shown : p ≠ "" → answer_text (se_currentAnswer s) p;
  an_busy : sse_done (se_sse s) = sse_done (se_sse s0);
  an_loading : se_sendingLoading s = se_sendingLoading s0;
  an_str : se_searchStr s = se_searchStr s0;
  an_asked : se_asked s = se_asked s0;
  an_tested : se_tested s = se_tested s0
}.

Lemma search_chunk body p s0 s v x : answering p s0 s → chunk_is v x →
  ∃ s', search_step a s (SearchStreamed (Chunk body (Some (VObj [("data", v)])))) = Ok s' ∧ answering (next_text p x) s0 s'.
Proof.
  intros [Ht Hsh Hb Hl Hs Ha Hte] Hx. destruct (receive_text body v x _ p Hx Ht) as (r & Hr & Hrt).
  assert (∃ o, v = VObj o) as [o ->]. { destruct Hx as [Hx _ _]. destruct v; try done. eauto. }
  cbn [search_step]. unfold search_stream. cbn [sse_step answer_changes].
  change (prop "data" (VObj [("data", VObj o)])) with (VObj o). cbn [typeof].
  rewrite (bool_decide_false ("object" = "boolean")) by done. cbn [negb]. rewrite Hr. cbn [mbind outcome_bind andb].
  eexists. split; [done|]. cbn [with_answer sse_done]. rewrite andb_negb_r.
  split; cbn [se_sse se_sendingLoading se_currentAnswer se_searchStr se_asked se_tested with_stream with_answer sse_answer sse_done]; try done.
  intros Hne. rewrite isEmpty_obj. destruct (decide (r = [])) as [->|Hr0].
  - exfalso. unfold answer_text in Hrt. cbn in Hrt. congruence.
  - by rewrite bool_decide_false.
Qed.

Lemma search_chunks_run body ds xs : Forall2 chunk_is ds xs → ∀ p s0 s, answering p s0 s →
  ∃ s', search_run a s (search_chunks body ds) = Ok s' ∧ answering (foldl next_text p xs) s0 s'.
Proof.
  induction 1 as [|v x ds xs Hx _ IH]; intros p s0 s Hs; [by exists s|].
  destruct (search_chunk body p s0 s v x Hs Hx) as (s1 & H1 & Hs1). destruct (IH _ _ _ Hs1) as (s2 & H2 & Hs2).
  exists s2. split; [|done]. unfold search_run, search_chunks in *. cbn [map foldl]. cbn [mbind outcome_bind].
  rewrite H1. exact H2.
Qed.

(** a search with a summary.  One question to the model and one
    retrieval test leave, with the trimmed text; while the chunks come in the
    page is loading and shows the text accumulated so far; when the stream
    ends it is not loading any more, and the answer stays when the timer
    clears the stream's own.  Meanwhile the related questions and a new
    retrieval test are refused. *)
Theorem search_turn s value ds xs :
  str_trim value ≠ "" → summary a = true → sse_done (se_sse s) = true → sse_answer (se_sse s) = [] →
  Forall2 chunk_is ds xs →
  let body := VObj (ask_body a (str_trim value)) in
  ∃ mid fin,
    search_run a s (SearchEntered value :: search_chunks body ds) = Ok mid ∧
    se_sendingLoading mid = true ∧ se_searchStr mid = value ∧
    (foldl next_text "" xs ≠ "" → answer_text (se_currentAnswer mid) (foldl next_text "" xs)) ∧
    se_asked mid = se_asked s ++ [ask_body a (str_trim value)] ∧ length (se_tested mid) = S (length (se_tested s)) ∧
    (∀ q ai ids pg sz, handleClickRelatedQuestion a q ai mid = mid ∧ handleTestChunk a ids pg sz mid = mid) ∧
    search_run a mid [SearchStreamed (Ended body); SearchStreamed Timer] = Ok fin ∧
    se_sendingLoading fin = false ∧ sse_done (se_sse fin) = true ∧ sse_answer (se_sse fin) = [] ∧
    se_currentAnswer fin = se_currentAnswer mid ∧ se_asked fin = se_asked mid.
Proof.
  intros Hv Hsum Hd Ha Hall body.
  set (s1 := handleSearch a value s).
  assert (answering "" s1 s1 ∧ se_sendingLoading s1 = true ∧ sse_done (se_sse s1) = false ∧ se_searchStr s1 = value ∧
    se_asked s1 = se_asked s ++ [ask_body a (str_trim value)] ∧ length (se_tested s1) = S (length (se_tested s)))
    as (Hs1 & Hl1 & Hd1 & Hstr1 & Hask1 & Htest1).
  { subst s1. unfold handleSearch, sendQuestion. rewrite Hsum, (bool_decide_false _ Hv). split; [|repeat split].
    - split; try done. unfold answer_text, setDoneValue. cbn. by rewrite Ha.
    - cbn. rewrite length_app. cbn. lia. }
  destruct (search_chunks_run body ds xs Hall "" s1 s1 Hs1) as (mid & Hrun & [Ht Hsh Hb Hl Hstr Hask Htest]).
  assert (se_sendingLoading mid = true) as Hlm by congruence.
  eexists mid, _. split; [exact Hrun|]. split; [done|]. split; [congruence|]. split; [done|].
  split; [congruence|]. split; [by rewrite Htest|]. split.
  { intros q ai ids pg sz. unfold handleClickRelatedQuestion, handleTestChunk. rewrite Hlm. done. }
  unfold search_run. cbn [foldl mbind outcome_bind search_step]. unfold search_stream. cbn [sse_step mbind outcome_bind].
  unfold resetAnswer, setDoneValue. assert (has_box body = false) as -> by done.
  cbn [sse_done sse_answer sse_timer doneRecord with_stream se_sse answer_changes andb timer_fires].
  rewrite Hb, Hd1. cbn [negb andb se_sendingLoading with_stream se_sse].
  unfold timer_fires. cbn [sse_timer se_sse with_stream]. split; [reflexivity|].
  cbn. rewrite isEmpty_obj. by rewrite bool_decide_true.
Qed.
End search_props.

(** The mind map is fetched again exactly when it is opened for other
    parameters than last time, and never for an empty question. *)
Lemma mind_map_fetched {L : Lodash} {LL : LodashLaws L} a s :
  let s' := handleShowModal a s in
  se_mindMapVisible s' = true ∧
  (str_trim (se_searchStr s) = "" ∨ se_mindMapRef s = mind_map_params a s → se_mindMaps s' = se_mindMaps s) ∧
  (str_trim (se_searchStr s) ≠ "" → se_mindMapRef s' = mind_map_params a s) ∧
  (str_trim (se_searchStr s) ≠ "" → se_mindMapRef s ≠ mind_map_params a s →
    se_mindMaps s' = se_mindMaps s ++ [mind_map_params a s]).
Proof.
  cbn zeta. unfold handleShowModal. assert (prop "question" (mind_map_params a s) = VStr (str_trim (se_searchStr s))) as Hq by done.
  rewrite Hq, isEmpty_str. destruct (decide (str_trim (se_searchStr s) = "")) as [He|He].
  - rewrite (bool_decide_true _ He). cbn [negb andb]. by repeat split.
  - rewrite (bool_decide_false _ He). cbn [negb andb]. case_bool_decide as Hr; cbn [negb].
    + split; [done|]. split; [done|]. split; [intros _; exact (eq_sym Hr)|]. intros _ H. congruence.
    + split; [done|]. split; [intros [?|?]; congruence|]. by split.
Qed.

(** ** The pending progress *)
Lemma pending_count n : pending_after n = {| count := n `min` 42; ticking := bool_decide (n ≤ 41) |}.
Proof.
  induction n as [|n IH]; [done|]. change (pending_after (S n)) with (pending_tick (pending_after n)). rewrite IH. unfold pending_tick.
  cbn [ticking count]. case_bool_decide; f_equal; try lia; repeat case_bool_decide; try lia; done.
Qed.

(** the progress shown while a mind map is produced never goes back, is
    the nearest integer to the seconds waited in percent of 43, stops after
    42 seconds and never passes 98, so it never claims to be complete. *)
Theorem progress_bounds n m : n ≤ m →
  let p := progress (pending_after n) in
  (0 <= p <= 98)%Z ∧ (p <= progress (pending_after m))%Z ∧
  (2 * Z.abs (43 * p - 100 * Z.of_nat (n `min` 42)) <= 43)%Z ∧
  (42 ≤ n → pending_after m = pending_after n).
Proof.
  intros Hnm. cbn zeta. rewrite !pending_count. unfold progress. cbn [count].
  assert (Z.of_nat (n `min` 42) <= Z.of_nat (m `min` 42) <= 42)%Z as H by lia.
  split; [|split; [|split]].
  - split; [apply Z.div_pos; lia|]. apply Z.lt_succ_r, Z.div_lt_upper_bound; lia.
  - apply Z.div_le_mono; lia.
  - set (x := Z.of_nat (n `min` 42)). pose proof (Z.div_mod (2 * 100 * x + 43) (2 * 43) ltac:(lia)) as Hdm.
    pose proof (Z.mod_pos_bound (2 * 100 * x + 43) (2 * 43) ltac:(lia)). lia.
  - intros Hn. f_equal; [lia|]. by rewrite !bool_decide_false by lia.
Qed.

Lemma progress_bounds_witness : progress (pending_after 60) = 98%Z ∧ (progress (pending_after 60) <= 98)%Z.
Proof.
  split; [vm_compute; reflexivity|]. destruct (progress_bounds 60 90) as [[_ H] _]; [lia|]. exact H.
Defined.

(** ** A page *)
Module SearchPage.
Definition a : search_app :=
  {| kbIds := VArr [VStr "kb"]; tenantId := VStr "t"; searchId := VStr "s"; related_search := true; summary := true |}.

Definition start : search := search_init {| url_page := None; url_size := None |}.

Definition chunk (s : string) : val := VObj [("answer", VStr s)].

Definition a_piece (s : string) : piece := {| text := s; starts := false; ends := false |}.

Lemma search_turn_witness : ∃ mid fin,
  search_run a start (SearchEntered " Why? " :: search_chunks (VObj (ask_body a "Why?")) [chunk "Be"; chunk "cause"]) = Ok mid ∧
  search_run a mid [SearchStreamed (Ended (VObj (ask_body a "Why?"))); SearchStreamed Timer] = Ok fin ∧
  se_sendingLoading fin = false ∧ obj_get "answer" (se_currentAnswer fin) = VStr "Because".
Proof.
  destruct (search_turn a start " Why? " [chunk "Be"; chunk "cause"] [a_piece "Be"; a_piece "cause"])
    as (mid & fin & H1 & _ & _ & Ht & _ & _ & _ & H2 & Hl & _ & _ & Hc & _).
  - vm_compute. discriminate.
  - reflexivity.
  - reflexivity.
  - reflexivity.
  - constructor; [split; reflexivity|]. constructor; [split; reflexivity|]. constructor.
  - exists mid, fin. split; [exact H1|]. split; [exact H2|]. split; [exact Hl|]. rewrite Hc.
    assert (foldl next_text "" [a_piece "Be"; a_piece "cause"] ≠ "") as Hne by discriminate.
    specialize (Ht Hne). revert Ht. unfold answer_text, js_or. destruct (truthy _); [intros H; exact H|discriminate].
Defined.
End SearchPage.
