(* ===== verification/AgentForms.v ===== *)
(** * The forms of the operators

    pages/agent/form: every form of an operator is a pair of hooks.
    [useValues] turns the form data stored in the node into the values the
    form shows; [useWatchFormChange] turns the values back and writes them to
    the node.  Both are here for each form that converts anything, with the
    edits that go with them (the language of a code operator, the loop's
    conditions, the dialogs over a list of rows).  A form's values are the
    argument [values], [dirty] says whether the user has changed something, and
    the stored data of a node that is not there are [undefined]. *)
From S2P Require Import Prelude JsValue Graph Libs FormUtils GraphStore StoreProps Rename Variables.
Open Scope list_scope.
Open Scope nat_scope.
Open Scope js_scope.

Module ProgrammingLanguage.
Definition Python := "python".
Definition Javascript := "javascript".
End ProgrammingLanguage.

Module StringTransformMethod.
Definition Merge := "merge".
Definition Split := "split".
End StringTransformMethod.

Module AgentDialogueMode.
Definition Conversational := "conversational".
Definition Task := "task".
Definition Webhook := "Webhook".
End AgentDialogueMode.

Module PromptRole.
Definition User := "user".
Definition Assistant := "assistant".
End PromptRole.

(** ** Shared steps of the hooks *)
Section with_lodash.
Context {L : Lodash}.

(** [list.reduce((pre, cur) => { pre[cur.key] = entry(cur); return pre }, {})] *)
Definition reduce_rows (key : string) (entry : val → outcome val) (l : list val) : outcome obj :=
  foldl (λ acc cur, pre ← acc; k ← read key cur; e ← entry cur; Ok (obj_set (key_of k) e pre)) (Ok []) l.

(** A default of an argument that is [undefined]. *)
Definition or_default (v d : val) : val := match v with VUndef => d | _ => v end.

(** The effect runs for a node with an identifier. *)
Definition for_node (id : option string) (f : string → outcome RFState) (s : RFState) : outcome RFState :=
  match id with
  | Some i => if i !== "" then f i else Ok s
  | None => Ok s
  end.

(** [{ ...v, k: w }] *)
Definition with_field (k : string) (w : val) (v : val) : val := VObj (obj_set k w (spread v)).

(** ** The code operator *)
Section code_form.
Variable initialCodeValues : val.

Definition convertToArray (args : val) : outcome (list val) :=
  es ← entries_of args; Ok (map (λ kv, VObj [("name", VStr kv.1); ("type", kv.2)]) es).

Definition convertOutputsToArray (formData : val) : outcome val :=
  es ← entries_of (or_default (prop "outputs" formData) (VObj []));
  if prop "lang" formData === VStr ProgrammingLanguage.Python
  then rows ← mapM (λ kv, t ← read "type" kv.2; Ok (VObj [("name", VStr kv.1); ("type", t)])) es; Ok (VArr rows)
  else row ← foldl (λ acc kv, pre ← acc; t ← read "type" kv.2;
         Ok (obj_set "type" t (obj_set "name" (VStr kv.1) pre))) (Ok []) es;
       Ok (VObj row).

Definition code_values (formData : val) : outcome val :=
  if lo_isEmpty formData then Ok initialCodeValues
  else arguments ← convertToArray (prop "arguments" formData);
       outputs ← convertOutputsToArray formData;
       Ok (VObj (obj_set "outputs" outputs (obj_set "arguments" (VArr arguments) (spread formData)))).
End code_form.

Definition convertToObject (list_ : val) : outcome obj :=
  l ← elements (or_default list_ (VArr [])); reduce_rows "name" (read "type") l.

Definition code_output (cur : val) : outcome val :=
  t ← read "type" cur; Ok (VObj [("value", VStr ""); ("type", t)]).

Definition convertOutputsToObject (values : val) : outcome obj :=
  if prop "lang" values === VStr ProgrammingLanguage.Python
  then l ← elements (prop "outputs" values); reduce_rows "name" code_output l
  else if lo_isEmpty (prop "outputs" values) then Ok []
       else n ← read "name" (prop "outputs" values); e ← code_output (prop "outputs" values);
            Ok [(key_of n, e)].

Definition code_watch (id : option string) (values : val) (s : RFState) : outcome RFState :=
  for_node id (λ i,
    arguments ← convertToObject (prop "arguments" values);
    outputs ← convertOutputsToObject values;
    Ok (updateNodeForm i (with_field "outputs" (VObj outputs) (with_field "arguments" (VObj arguments) values)) [] s)) s.

(** [form.setValue] of a top-level field *)
Definition set_value (k : string) (w values : val) : val := VObj (obj_set k w (obj_of_val values)).

Definition handleLanguageChange (templates : string → val) (id : option string) (lang : string) (values : val) (s : RFState)
    : outcome (val * RFState) :=
  match id with
  | Some i =>
      if i !== "" then
        let script := templates lang in
        let outputs := if lang === ProgrammingLanguage.Python then VArr [] else VObj [] in
        Ok (set_value "outputs" outputs (set_value "script" script values),
            updateNodeForm i script [PKey "script"] s)
      else Ok (values, s)
  | None => Ok (values, s)
  end.

(** ** The iteration operator *)
Definition iteration_row (kv : string * val) : outcome val :=
  ref ← read "ref" kv.2; t ← read "type" kv.2; Ok (VObj [("name", VStr kv.1); ("ref", ref); ("type", t)]).

Definition iteration_values (initialIterationValues formData : val) : outcome val :=
  if lo_isEmpty formData then Ok (with_field "outputs" (VArr []) initialIterationValues)
  else es ← entries_of (prop "outputs" formData); rows ← mapM iteration_row es;
       Ok (with_field "outputs" (VArr rows) formData).

Definition iteration_output (cur : val) : outcome val :=
  ref ← read "ref" cur; t ← read "type" cur; Ok (VObj [("ref", ref); ("type", t)]).

Definition transferToObject (list_ : val) : outcome obj :=
  l ← elements list_; reduce_rows "name" iteration_output l.

Definition iteration_watch (id : option string) (dirty : bool) (values : val) (s : RFState) : outcome RFState :=
  for_node id (λ i,
    if dirty then
      outputs ← transferToObject (prop "outputs" values);
      Ok (updateNodeForm i (with_field "outputs" (VObj outputs) values) [] s)
    else Ok s) s.

(** ** The Begin and the form operator *)
Definition input_entry (cur : val) : outcome val := Ok (VObj (lo_omit (obj_of_val cur) ["key"])).

Definition transferInputsArrayToObject (inputs : val) : outcome obj :=
  l ← elements (or_default inputs (VArr [])); reduce_rows "key" input_entry l.

Definition begin_values (defaultValues formData : val) : outcome val :=
  if lo_isEmpty formData then Ok defaultValues
  else inputs ← buildBeginInputListFromObject (prop "inputs" formData);
       Ok (with_field "inputs" (VArr (map VObj inputs)) (js_or formData (VObj []))).

(** The outputs of one property of the schema of a webhook. *)
Definition schema_output (key : string) (outputs : obj) (cur : val) : outcome obj :=
  k ← read "key" cur; t ← read "type" cur;
  Ok (obj_set (key +:+ "." +:+ key_of k) (VObj [("type", t)]) outputs).

Definition property_outputs (outputs : obj) (kv : string * val) : outcome obj :=
  match kv.2 with
  | VArr l => foldl (λ acc cur, outputs ← acc; schema_output kv.1 outputs cur) (Ok outputs) l
  | _ => Ok outputs
  end.

Definition transformRequestSchemaToOutput (schema : val) : outcome obj :=
  es ← entries_of (js_or schema (VObj []));
  foldl (λ acc kv, outputs ← acc; property_outputs outputs kv) (Ok []) es.

Definition begin_watch (id : option string) (values : val) (s : RFState) : outcome RFState :=
  for_node id (λ i,
    outputs ←
      (if (prop "mode" values === VStr AgentDialogueMode.Webhook) && negb (lo_isEmpty (prop "schema" values))
       then transformRequestSchemaToOutput (prop "schema" values) else Ok []);
    inputs ← transferInputsArrayToObject (prop "inputs" values);
    Ok (updateNodeForm i (with_field "outputs" (VObj outputs) (with_field "inputs" (VObj inputs) values)) [] s)) s.

Definition fillup_watch (id : option string) (values : val) (s : RFState) : outcome RFState :=
  for_node id (λ i,
    inputs ← transferInputsArrayToObject (prop "inputs" values);
    Ok (updateNodeForm i (with_field "outputs" (VObj inputs) (with_field "inputs" (VObj inputs) values)) [] s)) s.

(** ** Lists of texts: the message and the search operators *)
Definition message_values (initialMessageValues formData : val) : outcome val :=
  if lo_isEmpty formData then Ok initialMessageValues
  else Ok (with_field "content" (VArr (convertToObjectArray (prop "content" formData))) formData).

Definition message_watch (id : option string) (dirty : bool) (values : val) (s : RFState) : outcome RFState :=
  for_node id (λ i,
    if dirty then
      content ← convertToStringArray (prop "content" values);
      Ok (updateNodeForm i (with_field "content" (VArr content) values) [] s)
    else Ok s) s.

Definition tavily_values (initialTavilyValues formData : val) : outcome val :=
  if lo_isEmpty formData then Ok initialTavilyValues
  else Ok (with_field "exclude_domains" (VArr (convertToObjectArray (prop "exclude_domains" formData)))
        (with_field "include_domains" (VArr (convertToObjectArray (prop "include_domains" formData))) formData)).

Definition tavily_watch (id : option string) (values : val) (s : RFState) : outcome RFState :=
  for_node id (λ i,
    include_domains ← convertToStringArray (prop "include_domains" values);
    exclude_domains ← convertToStringArray (prop "exclude_domains" values);
    Ok (updateNodeForm i (with_field "exclude_domains" (VArr exclude_domains)
      (with_field "include_domains" (VArr include_domains) values)) [] s)) s.

(** ** The switch operator *)
Definition plain_values (initialValues formData : val) : outcome val :=
  Ok (if lo_isEmpty formData then initialValues else formData).

(** [values?.conditions?.map((x) => ({ ...x })) ?? []] *)
Definition copy_conditions (conditions : val) : outcome (list val) :=
  match conditions with
  | VUndef | VNull => Ok []
  | VArr l => Ok (map (λ x, VObj (spread x)) l)
  | _ => Throw
  end.

Definition switch_watch (id : option string) (values : val) (s : RFState) : outcome RFState :=
  for_node id (λ i,
    conditions ← copy_conditions (prop "conditions" values);
    Ok (updateNodeForm i (with_field "conditions" (VArr conditions) values) [] s)) s.

(** ** The agent operator *)
Definition omitToolsAndMcp (values : val) : obj := lo_omit (obj_of_val values) ["mcp"; "tools"; "outputs"].

Definition agent_values (initialAgentValues llmId formData : val) : outcome val :=
  if lo_isEmpty formData
  then Ok (with_field "prompts" (VStr "") (with_field "llm_id" llmId (VObj (omitToolsAndMcp initialAgentValues))))
  else Ok (with_field "prompts" (lo_getOr formData [PKey "prompts"; PIdx 0; PKey "content"] (VStr ""))
        (VObj (omitToolsAndMcp formData))).

Definition agent_prompts (content : val) : val :=
  VArr [VObj [("role", VStr PromptRole.User); ("content", content)]].

Definition agent_watch (id : option string) (dirty : bool) (values : val) (s : RFState) : outcome RFState :=
  for_node id (λ i,
    if dirty then Ok (updateNodeForm i (with_field "prompts" (agent_prompts (prop "prompts" values)) values) [] s)
    else Ok s) s.

(** ** The text operator *)
Definition transferDelimiters (formData : val) : outcome val :=
  method ← read "method" formData;
  if method === VStr StringTransformMethod.Merge
  then match prop "delimiters" formData with
       | VUndef | VNull => Throw
       | VArr l => Ok (default VUndef (head l))
       | VStr (String a _) => Ok (VStr (String a ""))
       | VObj o => Ok (obj_get "0" o)
       | _ => Ok VUndef
       end
  else Ok (prop "delimiters" formData).

Definition transform_values (initialStringTransformValues formData : val) : outcome val :=
  delimiters ← transferDelimiters formData;
  Ok (with_field "delimiters" delimiters (if lo_isEmpty formData then initialStringTransformValues else formData)).

Definition transform_watch (id : option string) (dirty : bool) (values : val) (s : RFState) : outcome RFState :=
  for_node id (λ i,
    if dirty then
      let nextValues :=
        if (prop "delimiters" values !== VUndef) && (prop "method" values === VStr StringTransformMethod.Merge)
        then set_value "delimiters" (VArr [prop "delimiters" values]) values else values in
      Ok (updateNodeForm i nextValues [] s)
    else Ok s) s.

(** ** The categorize operator *)
Definition categorize_values (defaultValues formData : val) : outcome val :=
  Ok (if lo_isEmpty formData then defaultValues
      else if lo_isPlainObject formData then formData else VUndef).

Definition categorize_watch (id : option string) (values : val) (s : RFState) : outcome RFState :=
  for_node id (λ i,
    items ← (match prop "items" values with
             | VUndef | VNull => Ok (VArr [])
             | VArr l => Ok (VArr l)
             | VStr t => Ok (js_or (VStr t) (VArr []))
             | _ => Throw
             end);
    Ok (updateNodeForm i (with_field "items" items values) [] s)) s.

(** ** Operators whose outputs follow the rows of the form *)

(** Rows without a name give no output. *)
Definition reduce_named (key : string) (entry : val → val) (l : list val) : outcome obj :=
  foldl (λ acc cur, pre ← acc; k ← read key cur;
    Ok (if truthy k then obj_set (key_of k) (entry cur) pre else pre)) (Ok []) l.

(** [list?.reduce(...)] *)
Definition reduce_optional (key : string) (entry : val → val) (list_ : val) : outcome val :=
  match list_ with
  | VUndef | VNull => Ok VUndef
  | _ => l ← elements list_; outputs ← reduce_named key entry l; Ok (VObj outputs)
  end.

Definition loop_values (defaultValues formData : val) : outcome val :=
  Ok (VObj (lo_omit (obj_of_val (if lo_isEmpty formData then defaultValues else formData)) ["outputs"])).

Definition loop_output (cur : val) : val := VObj [("type", prop "type" cur); ("value", VStr "")].

Definition loop_watch (id : option string) (values : val) (s : RFState) : outcome RFState :=
  for_node id (λ i,
    outputs ← reduce_optional "variable" loop_output (prop "loop_variables" values);
    Ok (replaceNodeForm i (with_field "outputs" outputs values) s)) s.

Definition aggregator_output (cur : val) : val := VObj [("type", prop "type" cur)].

Definition aggregator_watch (id : option string) (dirty : bool) (values : val) (s : RFState) : outcome RFState :=
  for_node id (λ i,
    if dirty then
      outputs ← reduce_optional "group_name" aggregator_output (prop "groups" values);
      Ok (replaceNodeForm i (with_field "outputs" (js_coalesce outputs (VObj [])) values) s)
    else Ok s) s.

(** ** The other operators *)
Definition plain_watch (enableReplacement : bool) (id : option string) (values : val) (s : RFState) : outcome RFState :=
  for_node id (λ i, Ok ((if enableReplacement then replaceNodeForm i values else updateNodeForm i values []) s)) s.

Definition pdf_values (initialPDFGeneratorValues formData : val) : outcome val :=
  Ok (js_coalesce formData initialPDFGeneratorValues).
End with_lodash.

(** ** The hooks of each form *)

(** The pairs of hooks the components of form-config-map.tsx use. *)
Inductive form_kind :=
  | CodeForm | IterationForm | BeginForm | UserFillUpForm | MessageForm | TavilyForm | SwitchForm | AgentForm
  | StringTransformForm | CategorizeForm | LoopForm | VariableAggregatorForm | PlainForm (enableReplacement : bool).

Section saved_and_shown.
Context {L : Lodash} {HL : LodashLaws L}.

Definition useValues (k : form_kind) (initial llmId formData : val) : outcome val :=
  match k with
  | CodeForm => code_values initial formData
  | IterationForm => iteration_values initial formData
  | BeginForm | UserFillUpForm => begin_values initial formData
  | MessageForm => message_values initial formData
  | TavilyForm => tavily_values initial formData
  | SwitchForm | VariableAggregatorForm | PlainForm _ => plain_values initial formData
  | AgentForm => agent_values initial llmId formData
  | StringTransformForm => transform_values initial formData
  | CategorizeForm => categorize_values initial formData
  | LoopForm => loop_values initial formData
  end.

Definition useWatchFormChange (k : form_kind) (id : option string) (dirty : bool) (values : val) (s : RFState)
    : outcome RFState :=
  match k with
  | CodeForm => code_watch id values s
  | IterationForm => iteration_watch id dirty values s
  | BeginForm => begin_watch id values s
  | UserFillUpForm => fillup_watch id values s
  | MessageForm => message_watch id dirty values s
  | TavilyForm => tavily_watch id values s
  | SwitchForm => switch_watch id values s
  | AgentForm => agent_watch id dirty values s
  | StringTransformForm => transform_watch id dirty values s
  | CategorizeForm => categorize_watch id values s
  | LoopForm => loop_watch id values s
  | VariableAggregatorForm => aggregator_watch id dirty values s
  | PlainForm enableReplacement => plain_watch enableReplacement id values s
  end.

(** Two values a user cannot tell apart: equal up to the order of the
    properties of an object, or of the rows of a table. *)
Definition row_as (v w : val) : Prop := v = w ∨ ∃ o o', v = VObj o ∧ w = VObj o' ∧ same_props v w.

Definition shown_as (v w : val) : Prop :=
  row_as v w ∨ ∃ l l', v = VArr l ∧ w = VArr l' ∧ Forall2 row_as l l'.

(** A table of a form: rows with the given columns beside the name, the names
    distinct texts that are not integers. *)
Definition row_ok (key : string) (cols : option (list string)) (n : string) (r : val) : Prop :=
  ∃ o, r = VObj o ∧ obj_wf o ∧ obj_get key o = VStr n ∧
    match cols with Some cs => ∀ k, k ∈ o.*1 → k ∈ key :: cs | None => True end.

Definition table_ok (key : string) (cols : option (list string)) (w : val) : Prop :=
  ∃ l names, w = VArr l ∧ Forall2 (row_ok key cols) names l ∧ NoDup names ∧
    Forall (λ n, array_index n = None) names.

(** A list of rows that hold one text each. *)
Definition texts_ok (w : val) : Prop := ∃ l, w = VArr l ∧ Forall (λ r, ∃ x, r = VObj [("value", x)]) l.

(** The value of an optional field. *)
Definition field_ok (P : val → Prop) (k : string) (vs : obj) : Prop := ∀ w, obj_lookup k vs = Some w → P w.

(** The request schema of a webhook: an object, the elements of its lists objects. *)
Definition schema_ok (w : val) : Prop :=
  w = VUndef ∨ ∃ o, w = VObj o ∧ ∀ k l, (k, VArr l) ∈ o → Forall (λ r, nullish r = false) l.

Definition objects_ok (w : val) : Prop := ∃ l, w = VArr l ∧ Forall (λ r, ∃ o, r = VObj o ∧ obj_wf o) l.

Definition rows_present (w : val) : Prop := ∃ l, w = VArr l ∧ Forall (λ r, nullish r = false) l.

(** What the values of each form are asked to be.  The forms themselves enforce
    neither that the names of rows are distinct nor that they are no integers
    ([same_name_lost], [integer_name_first]). *)
Definition fields_ok (k : form_kind) (vs : obj) : Prop :=
  match k with
  | CodeForm =>
      table_ok "name" (Some ["type"]) (obj_get "arguments" vs) ∧
      ∃ lang, obj_lookup "lang" vs = Some lang ∧
        if lang === VStr ProgrammingLanguage.Python
        then table_ok "name" (Some ["type"]) (obj_get "outputs" vs)
        else obj_get "outputs" vs = VObj [] ∨ ∃ n t, obj_get "outputs" vs = VObj [("name", VStr n); ("type", t)]
  | IterationForm => table_ok "name" (Some ["ref"; "type"]) (obj_get "outputs" vs)
  | BeginForm => table_ok "key" None (obj_get "inputs" vs) ∧ schema_ok (obj_get "schema" vs)
  | UserFillUpForm => table_ok "key" None (obj_get "inputs" vs)
  | MessageForm => texts_ok (obj_get "content" vs)
  | TavilyForm => field_ok texts_ok "include_domains" vs ∧ field_ok texts_ok "exclude_domains" vs
  | SwitchForm => field_ok objects_ok "conditions" vs
  | AgentForm => field_ok (λ w, w ≠ VUndef) "prompts" vs
  | StringTransformForm => obj_get "delimiters" vs ≠ VUndef ∧ is_Some (obj_lookup "method" vs)
  | CategorizeForm => field_ok (λ w, ∃ l, w = VArr l) "items" vs
  | LoopForm => field_ok rows_present "loop_variables" vs
  | VariableAggregatorForm => field_ok rows_present "groups" vs
  | PlainForm _ => True
  end.

(** Fields of the stored data that the form does not show: outputs computed
    from its values, and what other dialogs edit. *)
Definition hidden (k : form_kind) : list string :=
  match k with
  | BeginForm | UserFillUpForm | LoopForm | VariableAggregatorForm => ["outputs"]
  | AgentForm => ["mcp"; "tools"; "outputs"]
  | _ => []
  end.

(** *** Rows *)
Lemma obj_entries_plain o : Forall (λ kv, array_index kv.1 = None) o → obj_entries o = o.
Proof.
  intros H. unfold obj_entries.
  assert (js_filter is_index_key o = [] ∧ js_filter (λ kv, negb (is_index_key kv)) o = o) as [-> ->]; [|done].
  induction H as [|kv o Hkv Ho [IH1 IH2]]; [done|]. rewrite !js_filter_cons.
  assert (is_index_key kv = false) as -> by (unfold is_index_key; by rewrite Hkv). cbn [negb]. by rewrite IH1, IH2.
Qed.

Lemma reduce_rows_go key entry names l es pre :
  Forall2 (λ n r, nullish r = false ∧ prop key r = VStr n) names l → Forall2 (λ r e, entry r = Ok e) l es →
  NoDup (pre.*1 ++ names) →
  foldl (λ acc cur, pre ← acc; k ← read key cur; e ← entry cur; Ok (obj_set (key_of k) e pre)) (Ok pre) l
    = Ok (pre ++ zip names es).
Proof.
  intros Hn. revert es pre. induction Hn as [|n r names l [Hr Hk] Hn IH]; intros es pre He Hnd.
  { inversion He; subst. by rewrite app_nil_r. }
  apply Forall2_cons_inv_l in He as (e & es' & Hre & He' & ->). cbn [foldl mbind outcome_bind]. unfold read. rewrite Hr, Hk. cbn [outcome_bind mbind].
  rewrite Hre. cbn [outcome_bind mbind key_of]. rewrite obj_set_fresh.
  - rewrite (IH es'); [by rewrite <-app_assoc|done|]. rewrite fmap_app, <-app_assoc. exact Hnd.
  - intros Hin. apply NoDup_app in Hnd as (_ & Hd & _). apply (Hd n Hin). by left.
Qed.

Lemma zip_fst {A B} (l : list A) (k : list B) : length l = length k → (zip l k).*1 = l.
Proof. intros H. apply fst_zip. lia. Qed.

(** A table survives being stored: the object has the rows' names as keys, in
    order, and its entries give the rows again. *)
Lemma table_roundtrip key cols entry (row : string * val → val) w :
  table_ok key cols w →
  (∀ n r, row_ok key cols n r → ∃ e, entry r = Ok e ∧ same_props (row (n, e)) r ∧ ∃ o, row (n, e) = VObj o) →
  ∃ l o, w = VArr l ∧ reduce_rows key entry l = Ok o ∧ obj_entries o = o ∧
    (∀ kv, kv ∈ o → ∃ r, r ∈ l ∧ entry r = Ok kv.2) ∧ shown_as (VArr (map row o)) w.
Proof.
  intros (l & names & -> & Hrows & Hnd & Hidx) Hrow.
  assert (∃ es, Forall2 (λ r e, entry r = Ok e) l es ∧ Forall2 row_as (map row (zip names es)) l) as (es & He & Hs).
  { clear Hnd Hidx. induction Hrows as [|n r names l Hr Hrows (es & He & Hs)]; [exists []; by repeat constructor|].
    destruct (Hrow n r Hr) as (e & Hre & Hsame & o' & Ho'). exists (e :: es). split; [by constructor|]. cbn [zip_with map].
    constructor; [|done]. right. destruct Hr as (o & -> & _). eauto. }
  exists l, (zip names es). pose proof (Forall2_length _ _ _ Hrows) as Hl1. pose proof (Forall2_length _ _ _ He) as Hl2.
  split; [done|]. split; [|split; [|split]].
  - apply (reduce_rows_go key entry names l es []); [|done|done].
    eapply Forall2_impl; [exact Hrows|]. intros n r (o & -> & _ & Hk & _). by split.
  - apply obj_entries_plain. rewrite <-(zip_fst names es) in Hidx by lia. by apply Forall_fmap in Hidx.
  - intros [n e] Hin. apply elem_of_zip_r in Hin. cbn [snd].
    apply list_elem_of_lookup in Hin as [j Hj]. destruct (Forall2_lookup_r _ _ _ _ _ He Hj) as (r & Hr & Hre).
    exists r. split; [|done]. by eapply list_elem_of_lookup_2.
  - right. by eexists _, _.
Qed.

(** The row has the columns given, and no other. *)
Lemma row_props key cs n o row : row_ok key (Some cs) n (VObj o) →
  (∀ k, k ∈ key :: cs → prop k row = obj_get k o) → (∀ k, k ∉ key :: cs → prop k row = VUndef) → same_props row (VObj o).
Proof.
  intros (o' & [= <-] & Hwf & _ & Hcols) Hin Hout k. destruct (decide (k ∈ key :: cs)) as [Hk|Hk]; [by apply Hin|].
  rewrite Hout by done. cbn [prop]. unfold obj_get.
  assert (obj_lookup k o = None) as ->; [|done]. apply obj_lookup_None. by intros ?%Hcols.
Qed.

Lemma mapM_all_Ok {A B} (f : A → outcome B) (g : A → B) l : (∀ x, x ∈ l → f x = Ok (g x)) → mapM f l = Ok (map g l).
Proof.
  induction l as [|x l IH]; intros H; [done|]. cbn. rewrite (H x) by (by left). cbn.
  rewrite IH; [done|]. intros y Hy. apply H. by right.
Qed.

Lemma lookup_get k (o : obj) w : obj_lookup k o = Some w → obj_get k o = w.
Proof. intros H. unfold obj_get. by rewrite H. Qed.

(** *** What is stored *)
Lemma obj_wf_nil : obj_wf [].
Proof. unfold obj_wf. constructor. Qed.

Lemma spread_lookup key vs : obj_wf vs → obj_lookup key (spread (VObj vs)) = obj_lookup key vs.
Proof. intros H. unfold spread. cbn [obj_of_val]. rewrite obj_assign_lookup by exact H. by destruct (obj_lookup key vs). Qed.

Lemma field_lookup key k w vs : obj_wf vs →
  obj_lookup key (obj_set k w (spread (VObj vs))) = if decide (key = k) then Some w else obj_lookup key vs.
Proof.
  intros H. case_decide; [subst; by rewrite obj_lookup_set_eq|]. by rewrite obj_lookup_set_ne, spread_lookup.
Qed.

Lemma field_wf k w v : obj_wf (obj_set k w (spread v)).
Proof. apply obj_set_wf, obj_assign_wf, obj_wf_nil. Qed.

(** Stored data that holds the given fields. *)
Definition stored (next : obj) (d : val) : Prop :=
  ∃ o, d = VObj o ∧ obj_wf o ∧ ∀ k w, obj_lookup k next = Some w → obj_lookup k o = Some w.

Lemma stored_prop next d k w : stored next d → obj_lookup k next = Some w → prop k d = w.
Proof. intros (o & -> & _ & H) Hk. cbn [prop]. unfold obj_get. by rewrite (H k w Hk). Qed.

Lemma stored_nonempty next d k w : stored next d → obj_lookup k next = Some w → lo_isEmpty d = false.
Proof.
  intros (o & -> & _ & H) Hk. rewrite isEmpty_obj. apply bool_decide_false. intros ->. by apply H in Hk.
Qed.

Lemma stored_field next d k w key : stored next d →
  prop key (with_field k w d) = if decide (key = k) then w else prop key d.
Proof.
  intros (o & -> & Hwf & _). unfold with_field. cbn [prop]. unfold obj_get. rewrite field_lookup by done.
  by case_decide.
Qed.

Lemma field_prop key k w o : obj_wf o →
  prop key (with_field k w (VObj o)) = if decide (key = k) then w else prop key (VObj o).
Proof. intros Ho. unfold with_field. cbn [prop]. unfold obj_get. rewrite field_lookup by done. by case_decide. Qed.

(** How the hooks write to the store. *)
Inductive save_as : (string → val → RFState → RFState) → Prop :=
  | save_merge : save_as (λ i v s, updateNodeForm i v [] s)
  | save_replace : save_as replaceNodeForm.

Lemma getNode_update_first j i f ns : (∀ m, n_id (f m) = n_id m) →
  js_find (λ m, Some (n_id m) === j) (update_first i f ns) =
    (λ m, if n_id m === i then f m else m) <$> js_find (λ m, Some (n_id m) === j) ns.
Proof.
  intros Hf. unfold js_find. induction ns as [|m ns IH]; [done|]. cbn [update_first].
  destruct (decide (n_id m = i)) as [Hm|Hm].
  - rewrite bool_decide_true by done. cbn [List.find]. rewrite Hf.
    destruct (Some (n_id m) === j) eqn:E; [cbn; by rewrite bool_decide_true|].
    destruct (List.find _ ns) as [x|] eqn:Ex; [|done]. cbn. apply List.find_some in Ex as [_ Ex].
    reflect_bool. rewrite bool_decide_false; [done|]. intros Hx. apply E. congruence.
  - rewrite bool_decide_false by done. cbn [List.find]. destruct (Some (n_id m) === j) eqn:E; [|exact IH].
    cbn. by rewrite bool_decide_false.
Qed.

Lemma save_stored save i n next s : save_as save → i ≠ "" → getNode (Some i) s = Some n → obj_wf next →
  ∃ n', getNode (Some i) (save i (VObj next) s) = Some n' ∧ stored next (form (n_data n')) ∧
    (∀ j, j ≠ i → getNode (Some j) (save i (VObj next) s) = getNode (Some j) s) ∧
    edges (save i (VObj next) s) = edges s.
Proof.
  intros Hsave Hi Hn Hwf. pose proof (getNode_Some _ _ _ Hn) as [Hid _]. destruct Hsave.
  - eexists. split; [|split; [|split; [|done]]].
    + rewrite updateNodeForm_getNode, Hn. cbn [fmap option_fmap option_map]. by rewrite bool_decide_true.
    + exists (obj_assign (obj_assign [] (obj_of_val (form (n_data n)))) next). split; [done|]. split.
      * apply obj_assign_wf, obj_assign_wf, obj_wf_nil.
      * intros k w Hk. rewrite obj_assign_lookup by done. by rewrite Hk.
    + intros j Hj. rewrite updateNodeForm_getNode. destruct (getNode (Some j) s) as [m|] eqn:Hm; [|done].
      apply getNode_Some in Hm as [<- _]. cbn. by rewrite bool_decide_false.
  - unfold replaceNodeForm. rewrite (bool_decide_false (i = "")) by done. cbn [negb].
    eexists. split; [|split; [|split; [|done]]].
    + unfold getNode in *. cbn [nodes setNodes]. rewrite getNode_update_first by done. rewrite Hn. cbn.
      by rewrite bool_decide_true.
    + cbn. rewrite cloneDeep_eq. by exists next.
    + intros j Hj. unfold getNode. cbn [nodes setNodes]. rewrite getNode_update_first by done.
      fold (getNode (Some j) s). destruct (getNode (Some j) s) as [m|] eqn:Hm; [|done].
      apply getNode_Some in Hm as [<- _]. cbn. by rewrite bool_decide_false.
Qed.

(** *** Each form *)
Lemma typed_row n r : row_ok "name" (Some ["type"]) n r →
  ∃ e, read "type" r = Ok e ∧ same_props (VObj [("name", VStr n); ("type", e)]) r ∧
    ∃ o, VObj [("name", VStr n); ("type", e)] = VObj o.
Proof.
  intros Hr. pose proof Hr as (o & -> & _ & Hn & _). eexists. split; [done|]. split; [|eauto].
  eapply row_props; [exact Hr| |].
  - intros k [->|[->|[]%elem_of_nil]%elem_of_cons]%elem_of_cons; [by rewrite Hn|done].
  - intros k Hk. cbn. rewrite !bool_decide_false by set_solver. done.
Qed.

(** The outputs of a code operator in either language. *)
Lemma code_outputs vs lang : obj_lookup "lang" vs = Some lang →
  (if lang === VStr ProgrammingLanguage.Python
   then table_ok "name" (Some ["type"]) (obj_get "outputs" vs)
   else obj_get "outputs" vs = VObj [] ∨ ∃ n t, obj_get "outputs" vs = VObj [("name", VStr n); ("type", t)]) →
  ∃ outs shown, convertOutputsToObject (VObj vs) = Ok outs ∧
    (∀ d, prop "lang" d = lang → prop "outputs" d = VObj outs → convertOutputsToArray d = Ok shown) ∧
    shown_as shown (obj_get "outputs" vs).
Proof.
  intros Hlang Houts. unfold convertOutputsToObject. cbn [prop].
  assert (obj_get "lang" vs = lang) as -> by (unfold obj_get; by rewrite Hlang).
  destruct (lang === VStr ProgrammingLanguage.Python) eqn:E.
  - destruct (table_roundtrip "name" (Some ["type"]) code_output
      (λ kv, VObj [("name", VStr kv.1); ("type", prop "type" kv.2)]) _ Houts) as (l & o & Hl & Ho & Hoe & Hin & Hs).
    { intros n r (e & He & Hsame)%typed_row. exists (VObj [("value", VStr ""); ("type", e)]). cbn [snd fst].
      unfold code_output. rewrite He. cbn. by split. }
    rewrite Hl in *. exists o, (VArr (map (λ kv, VObj [("name", VStr kv.1); ("type", prop "type" kv.2)]) o)).
    split; [exact Ho|]. split; [|done]. intros d Hd Hdo. unfold convertOutputsToArray. rewrite Hd, Hdo, E.
    cbn [or_default entries_of mbind outcome_bind]. rewrite Hoe.
    rewrite (mapM_all_Ok _ (λ kv, VObj [("name", VStr kv.1); ("type", prop "type" kv.2)])); [done|].
    intros kv Hkv. destruct (Hin kv Hkv) as (r & _ & Hr). unfold code_output in Hr. apply bind_Ok in Hr as (t & _ & [= <-]). done.
  - destruct Houts as [->|(n & t & ->)].
    + rewrite isEmpty_obj. exists [], (VObj []). split; [done|]. split; [|by left; left].
      intros d Hd Hdo. unfold convertOutputsToArray. by rewrite Hd, Hdo, E.
    + rewrite isEmpty_obj. eexists [(n, _)], (VObj [("name", VStr n); ("type", t)]). split; [done|]. split; [|by left; left].
      intros d Hd Hdo. unfold convertOutputsToArray. rewrite Hd, Hdo, E. cbn [or_default entries_of mbind outcome_bind].
      assert (∀ kv, obj_entries [kv] = [kv]) as -> by (intros kv; unfold obj_entries; rewrite !js_filter_cons; by destruct (is_index_key kv)).
      done.
Qed.

Section each_form.
Variables (initial llmId : val) (i : string) (vs : obj) (s : RFState).
Hypotheses (Hi : i ≠ "") (Hvs : obj_wf vs).

Definition shows_saved (k : form_kind) : Prop :=
  ∃ save next, save_as save ∧ obj_wf next ∧
    useWatchFormChange k (Some i) true (VObj vs) s = Ok (save i (VObj next) s) ∧
    ∀ d, stored next d → ∃ shown, useValues k initial llmId d = Ok shown ∧
      ∀ key w, key ∉ hidden k → obj_lookup key vs = Some w → shown_as (prop key shown) w.

Lemma for_this_node f : for_node (Some i) f s = f i.
Proof. cbn. by rewrite bool_decide_false. Qed.

Lemma shown_same v : shown_as v v.
Proof. by left; left. Qed.

(** [{ ...values, k1: w1 }] and [{ ...values, k1: w1, k2: w2 }] *)
Abbreviation next1 k w := (obj_set k w (spread (VObj vs))) (only parsing).
Abbreviation next2 k1 w1 k2 w2 := (obj_set k2 w2 (spread (VObj (obj_set k1 w1 (spread (VObj vs)))))) (only parsing).

Lemma next2_lookup k1 w1 k2 w2 key :
  obj_lookup key (next2 k1 w1 k2 w2) =
    if decide (key = k2) then Some w2 else if decide (key = k1) then Some w1 else obj_lookup key vs.
Proof. by rewrite !field_lookup by (done || apply field_wf). Qed.

(** What the form shows besides the fields it converts. *)
Lemma shown2_prop next d k1 w1 k2 w2 key : stored next d →
  prop key (VObj (obj_set k2 w2 (obj_set k1 w1 (spread d)))) =
    if decide (key = k2) then w2 else if decide (key = k1) then w1 else prop key d.
Proof.
  intros (o & -> & Hwf & _). cbn [prop]. unfold obj_get.
  case_decide; [subst; by rewrite obj_lookup_set_eq|]. rewrite obj_lookup_set_ne by done.
  rewrite field_lookup by done. by case_decide.
Qed.

Lemma saves_plain b : shows_saved (PlainForm b).
Proof.
  exists (if b then replaceNodeForm else λ i v s, updateNodeForm i v [] s), vs.
  split; [destruct b; constructor|]. split; [done|]. split.
  - cbn [useWatchFormChange]. unfold plain_watch. rewrite for_this_node. by destruct b.
  - intros d Hd. eexists. split; [done|]. intros key w _ Hw. rewrite (stored_nonempty _ _ _ _ Hd Hw).
    rewrite (stored_prop _ _ _ _ Hd Hw). apply shown_same.
Qed.

Lemma saves_code : fields_ok CodeForm vs → shows_saved CodeForm.
Proof.
  intros (Hargs & lang & Hlang & Houts).
  destruct (table_roundtrip "name" (Some ["type"]) (read "type")
    (λ kv, VObj [("name", VStr kv.1); ("type", kv.2)]) _ Hargs) as (al & ao & Hal & Hao & Hae & _ & Has).
  { apply typed_row. }
  assert (∃ outs oshown, convertOutputsToObject (VObj vs) = Ok outs ∧
    (∀ d, prop "lang" d = lang → prop "outputs" d = VObj outs → convertOutputsToArray d = Ok oshown) ∧
    shown_as oshown (obj_get "outputs" vs)) as (outs & oshown & Houts' & Hback & Hos).
  { by apply (code_outputs vs lang). }
  exists (λ i v s, updateNodeForm i v [] s), (next2 "arguments" (VObj ao) "outputs" (VObj outs)).
  split; [constructor|]. split; [apply field_wf|]. split.
  { cbn [useWatchFormChange]. unfold code_watch. rewrite for_this_node. cbn [prop]. rewrite Hal.
    unfold convertToObject. cbn [or_default elements mbind outcome_bind]. rewrite Hao. cbn [mbind outcome_bind].
    by rewrite Houts'. }
  intros d Hd.
  assert (∀ key w, obj_lookup key (next2 "arguments" (VObj ao) "outputs" (VObj outs)) = Some w → prop key d = w) as Hp
    by (intros key w; apply stored_prop, Hd).
  eexists. split.
  { cbn [useValues]. unfold code_values. rewrite (stored_nonempty _ _ "outputs" (VObj outs) Hd).
    2: by rewrite next2_lookup. 
    rewrite (Hp "arguments" (VObj ao)) by (by rewrite next2_lookup).
    unfold convertToArray. cbn [entries_of mbind outcome_bind]. rewrite Hae.
    rewrite (Hback d); [reflexivity| |].
    - apply Hp. by rewrite next2_lookup.
    - apply Hp. by rewrite next2_lookup. }
  intros key w _ Hw. rewrite (shown2_prop _ _ _ _ _ _ _ Hd).
  destruct (decide (key = "outputs")) as [->|H2]; [by rewrite <-(lookup_get _ _ _ Hw)|].
  destruct (decide (key = "arguments")) as [->|H1]; [by rewrite <-(lookup_get _ _ _ Hw)|].
  rewrite (Hp key w); [apply shown_same|]. rewrite next2_lookup. by rewrite !decide_False.
Qed.

(** A form that shows the stored data with one field converted. *)
Lemma shown_field k next key0 x d :
  stored next d → useValues k initial llmId d = Ok (with_field key0 x d) →
  (∀ key w, key ∉ hidden k → key ≠ key0 → obj_lookup key vs = Some w → obj_lookup key next = Some w) →
  (∀ w, obj_lookup key0 vs = Some w → shown_as x w) →
  ∃ shown, useValues k initial llmId d = Ok shown ∧
    ∀ key w, key ∉ hidden k → obj_lookup key vs = Some w → shown_as (prop key shown) w.
Proof.
  intros Hd Hv Hother Hx. eexists. split; [exact Hv|]. intros key w Hh Hw.
  rewrite (stored_field _ _ _ _ _ Hd). case_decide; [subst; by apply Hx|].
  rewrite (stored_prop _ _ key w Hd); [apply shown_same|]. by apply Hother.
Qed.

Lemma iteration_row_ok n r : row_ok "name" (Some ["ref"; "type"]) n r →
  ∃ e, iteration_output r = Ok e ∧
    same_props (VObj [("name", VStr n); ("ref", prop "ref" e); ("type", prop "type" e)]) r ∧
    ∃ o, VObj [("name", VStr n); ("ref", prop "ref" e); ("type", prop "type" e)] = VObj o.
Proof.
  intros Hr. pose proof Hr as (o & -> & _ & Hn & _). eexists. split; [done|]. split; [|eauto].
  eapply row_props; [exact Hr| |].
  - intros k [->|[->|[->|[]%elem_of_nil]%elem_of_cons]%elem_of_cons]%elem_of_cons; [by rewrite Hn|done..].
  - intros k Hk. cbn. rewrite !bool_decide_false by set_solver. done.
Qed.

Lemma saves_iteration : fields_ok IterationForm vs → shows_saved IterationForm.
Proof.
  intros Htab.
  destruct (table_roundtrip "name" (Some ["ref"; "type"]) iteration_output
    (λ kv, VObj [("name", VStr kv.1); ("ref", prop "ref" kv.2); ("type", prop "type" kv.2)]) _ Htab)
    as (l & o & Hl & Ho & Hoe & Hin & Hs); [apply iteration_row_ok|].
  exists (λ i v s, updateNodeForm i v [] s), (next1 "outputs" (VObj o)).
  split; [constructor|]. split; [apply field_wf|]. split.
  { cbn [useWatchFormChange]. unfold iteration_watch. rewrite for_this_node. cbn [prop]. rewrite Hl.
    unfold transferToObject. cbn [elements mbind outcome_bind]. by rewrite Ho. }
  intros d Hd. eapply shown_field; [exact Hd| | |].
  - cbn [useValues]. unfold iteration_values. rewrite (stored_nonempty _ _ "outputs" (VObj o) Hd) by (by rewrite field_lookup).
    rewrite (stored_prop _ _ "outputs" (VObj o) Hd) by (by rewrite field_lookup).
    cbn [entries_of mbind outcome_bind]. rewrite Hoe.
    rewrite (mapM_all_Ok _ (λ kv, VObj [("name", VStr kv.1); ("ref", prop "ref" kv.2); ("type", prop "type" kv.2)])); [reflexivity|].
    intros [k e] Hkv. destruct (Hin _ Hkv) as (r & _ & Hr). unfold iteration_output in Hr. cbn [snd] in Hr.
    apply bind_Ok in Hr as (x & _ & Hr). apply bind_Ok in Hr as (t & _ & [= <-]). done.
  - intros key w _ Hk Hw. rewrite field_lookup by done. by rewrite decide_False.
  - intros w Hw. by rewrite <-(lookup_get _ _ _ Hw).
Qed.

(** *** The inputs of the Begin and the form operator *)
Lemma input_row n r : row_ok "key" None n r →
  ∃ e, input_entry r = Ok e ∧
    same_props (VObj (obj_set "key" (VStr n) (spread (js_or e (VObj []))))) r ∧
    ∃ o, VObj (obj_set "key" (VStr n) (spread (js_or e (VObj [])))) = VObj o.
Proof.
  intros (o & -> & Hwf & Hn & _). eexists. split; [done|]. split; [|eauto]. intros k. cbn [js_or truthy prop].
  unfold obj_get. rewrite field_lookup by (by apply omit_wf). case_decide; [subst; exact (eq_sym Hn)|].
  cbn [obj_of_val]. rewrite omit_lookup. by rewrite decide_False by set_solver.
Qed.

Lemma inputs_saved w : table_ok "key" None w → ∃ o, transferInputsArrayToObject w = Ok o ∧
  ∃ rows, buildBeginInputListFromObject (VObj o) = Ok rows ∧ shown_as (VArr (map VObj rows)) w.
Proof.
  intros Htab.
  destruct (table_roundtrip "key" None input_entry
    (λ kv, VObj (obj_set "key" (VStr kv.1) (spread (js_or kv.2 (VObj []))))) _ Htab) as (l & o & -> & Ho & Hoe & _ & Hs);
    [apply input_row|].
  exists o. split; [exact Ho|]. eexists. split.
  - unfold buildBeginInputListFromObject. cbn [js_or truthy entries_of mbind outcome_bind]. by rewrite Hoe.
  - by rewrite map_map.
Qed.

Lemma schema_outputs_total w : schema_ok w → lo_isEmpty w = false → ∃ o, transformRequestSchemaToOutput w = Ok o.
Proof.
  intros [->|(o & -> & Ho)] He; [by rewrite isEmpty_undef in He|]. unfold transformRequestSchemaToOutput.
  cbn [js_or truthy entries_of mbind outcome_bind].
  assert (∀ k l, (k, VArr l) ∈ obj_entries o → Forall (λ r, nullish r = false) l) as Hes
    by (intros k l; rewrite obj_entries_Permutation; apply Ho).
  clear Ho He. generalize (@nil (string * val)) as acc. induction (obj_entries o) as [|[k v] es IH]; intros acc; [by eexists|].
  assert (∃ acc', property_outputs acc (k, v) = Ok acc') as [acc' Hacc].
  { unfold property_outputs. cbn [fst snd]. destruct v as [| | | | |l|]; try (by eexists).
    specialize (Hes k l ltac:(by left)). clear IH. revert acc.
    induction Hes as [|r l Hr Hl IHl]; intros acc; [by eexists|].
    cbn [foldl]. unfold schema_output at 2, read. rewrite Hr. apply IHl. }
  cbn [foldl]. change (Ok acc ≫= ?f) with (f acc). cbn beta. rewrite Hacc.
  apply IH. intros k' l Hin. apply (Hes k'). by right.
Qed.

Lemma shown_inputs k next o rows d : k = BeginForm ∨ k = UserFillUpForm → stored next d →
  obj_lookup "inputs" next = Some (VObj o) → buildBeginInputListFromObject (VObj o) = Ok rows →
  useValues k initial llmId d = Ok (with_field "inputs" (VArr (map VObj rows)) d).
Proof.
  intros Hk Hd Hn Hrows.
  assert (js_or d (VObj []) = d) as Hor by (destruct Hd as (o' & -> & _); done).
  assert (begin_values initial d = Ok (with_field "inputs" (VArr (map VObj rows)) d)) as Hv.
  { unfold begin_values. rewrite (stored_nonempty _ _ _ _ Hd Hn), (stored_prop _ _ _ _ Hd Hn), Hrows, Hor. done. }
  by destruct Hk as [->| ->].
Qed.

Lemma saves_begin : fields_ok BeginForm vs → shows_saved BeginForm.
Proof.
  intros [Htab Hschema]. destruct (inputs_saved _ Htab) as (o & Ho & rows & Hrows & Hs).
  assert (∃ outs, (if (prop "mode" (VObj vs) === VStr AgentDialogueMode.Webhook) && negb (lo_isEmpty (prop "schema" (VObj vs)))
     then transformRequestSchemaToOutput (prop "schema" (VObj vs)) else Ok []) = Ok outs) as [outs Houts].
  { case_bool_decide; [|by eexists]. destruct (lo_isEmpty _) eqn:He; [by eexists|]. by apply schema_outputs_total. }
  exists (λ i v s, updateNodeForm i v [] s), (next2 "inputs" (VObj o) "outputs" (VObj outs)).
  split; [constructor|]. split; [apply field_wf|]. split.
  { cbn [useWatchFormChange]. unfold begin_watch. rewrite for_this_node, Houts.
    change (prop "inputs" (VObj vs)) with (obj_get "inputs" vs). cbn [mbind outcome_bind]. by rewrite Ho. }
  intros d Hd. eapply shown_field; [exact Hd| | |].
  - eapply shown_inputs; [by left|exact Hd| |exact Hrows]. by rewrite next2_lookup.
  - intros key w Hh Hk Hw. rewrite next2_lookup, decide_False by set_solver. by rewrite decide_False.
  - intros w Hw. by rewrite <-(lookup_get _ _ _ Hw).
Qed.

Lemma saves_fillup : fields_ok UserFillUpForm vs → shows_saved UserFillUpForm.
Proof.
  intros Htab. destruct (inputs_saved _ Htab) as (o & Ho & rows & Hrows & Hs).
  exists (λ i v s, updateNodeForm i v [] s), (next2 "inputs" (VObj o) "outputs" (VObj o)).
  split; [constructor|]. split; [apply field_wf|]. split.
  { cbn [useWatchFormChange]. unfold fillup_watch. rewrite for_this_node.
    change (prop "inputs" (VObj vs)) with (obj_get "inputs" vs). by rewrite Ho. }
  intros d Hd. eapply shown_field; [exact Hd| | |].
  - eapply shown_inputs; [by right|exact Hd| |exact Hrows]. by rewrite next2_lookup.
  - intros key w Hh Hk Hw. rewrite next2_lookup, decide_False by set_solver. by rewrite decide_False.
  - intros w Hw. by rewrite <-(lookup_get _ _ _ Hw).
Qed.

(** *** Lists of texts *)
Lemma texts_saved w : texts_ok w → ∃ xs, convertToStringArray w = Ok xs ∧ VArr (convertToObjectArray (VArr xs)) = w.
Proof.
  intros (l & -> & Hl). exists (map (prop "value") l). split.
  - cbn [convertToStringArray]. apply mapM_all_Ok. intros r Hr. rewrite Forall_forall in Hl.
    by destruct (Hl r Hr) as [x ->].
  - cbn [convertToObjectArray]. f_equal. rewrite map_map. induction Hl as [|r l [x ->] Hl IH]; [done|]. cbn [map]. by rewrite IH.
Qed.

Lemma optional_texts_saved k : field_ok texts_ok k vs → ∃ xs, convertToStringArray (obj_get k vs) = Ok xs ∧
  ∀ w, obj_lookup k vs = Some w → shown_as (VArr (convertToObjectArray (VArr xs))) w.
Proof.
  intros H. unfold obj_get. destruct (obj_lookup k vs) as [w|] eqn:Hw; [|by exists []].
  destruct (texts_saved w (H w Hw)) as (xs & Hxs & Hsame). exists xs. split; [done|]. intros ? [= <-]. rewrite Hsame.
  apply shown_same.
Qed.

Lemma saves_message : fields_ok MessageForm vs → shows_saved MessageForm.
Proof.
  intros (xs & Hxs & Hsame)%texts_saved.
  exists (λ i v s, updateNodeForm i v [] s), (next1 "content" (VArr xs)).
  split; [constructor|]. split; [apply field_wf|]. split.
  { cbn [useWatchFormChange]. unfold message_watch. rewrite for_this_node. cbn [prop]. by rewrite Hxs. }
  intros d Hd. eapply shown_field; [exact Hd| | |].
  - cbn [useValues]. unfold message_values. rewrite (stored_nonempty _ _ "content" (VArr xs) Hd) by (by rewrite field_lookup).
    by rewrite (stored_prop _ _ "content" (VArr xs) Hd) by (by rewrite field_lookup).
  - intros key w _ Hk Hw. rewrite field_lookup by done. by rewrite decide_False.
  - intros w Hw. rewrite Hsame, (lookup_get _ _ _ Hw). apply shown_same.
Qed.

Lemma saves_tavily : fields_ok TavilyForm vs → shows_saved TavilyForm.
Proof.
  intros [(xs & Hxs & Hsx)%optional_texts_saved (ys & Hys & Hsy)%optional_texts_saved].
  exists (λ i v s, updateNodeForm i v [] s), (next2 "include_domains" (VArr xs) "exclude_domains" (VArr ys)).
  split; [constructor|]. split; [apply field_wf|]. split.
  { cbn [useWatchFormChange]. unfold tavily_watch. rewrite for_this_node. cbn [prop]. by rewrite Hxs, Hys. }
  intros d Hd.
  assert (∀ key w, obj_lookup key (next2 "include_domains" (VArr xs) "exclude_domains" (VArr ys)) = Some w → prop key d = w) as Hp
    by (intros key w; apply stored_prop, Hd).
  eexists. split.
  { cbn [useValues]. unfold tavily_values. rewrite (stored_nonempty _ _ "exclude_domains" (VArr ys) Hd) by (by rewrite next2_lookup).
    rewrite (Hp "include_domains" (VArr xs)), (Hp "exclude_domains" (VArr ys)) by (by rewrite next2_lookup). reflexivity. }
  intros key w _ Hw. unfold with_field at 2. rewrite field_prop by apply field_wf.
  destruct (decide (key = "exclude_domains")) as [->|H2]; [by apply Hsy|].
  change (VObj (obj_set "include_domains" ?x (spread d))) with (with_field "include_domains" x d).
  rewrite (stored_field _ _ _ _ _ Hd). destruct (decide (key = "include_domains")) as [->|H1]; [by apply Hsx|].
  rewrite (Hp key w); [apply shown_same|]. rewrite next2_lookup. by rewrite !decide_False.
Qed.

(** *** Forms that show the stored data *)
Lemma shown_stored k next d :
  stored next d → useValues k initial llmId d = Ok d →
  (∀ key w, key ∉ hidden k → obj_lookup key vs = Some w → ∃ w', obj_lookup key next = Some w' ∧ shown_as w' w) →
  ∃ shown, useValues k initial llmId d = Ok shown ∧
    ∀ key w, key ∉ hidden k → obj_lookup key vs = Some w → shown_as (prop key shown) w.
Proof.
  intros Hd Hv H. exists d. split; [done|]. intros key w Hh Hw. destruct (H key w Hh Hw) as (w' & Hw' & Hs).
  by rewrite (stored_prop _ _ key w' Hd).
Qed.

(** One field is rewritten to something that shows the same. *)
Lemma field_kept k0 x : (∀ w, obj_lookup k0 vs = Some w → shown_as x w) →
  ∀ key w, obj_lookup key vs = Some w → ∃ w', obj_lookup key (next1 k0 x) = Some w' ∧ shown_as w' w.
Proof.
  intros Hx key w Hw. rewrite field_lookup by done. case_decide; [subst; eauto|]. eauto using shown_same.
Qed.

Lemma conditions_copied : field_ok objects_ok "conditions" vs → ∃ cs, copy_conditions (obj_get "conditions" vs) = Ok cs ∧
  ∀ w, obj_lookup "conditions" vs = Some w → shown_as (VArr cs) w.
Proof.
  intros H. unfold obj_get. destruct (obj_lookup "conditions" vs) as [w|] eqn:E; [|by exists []].
  destruct (H w E) as (l & -> & Hl). eexists. split; [done|]. intros ? [= <-]. right. eexists _, _. split; [done|].
  split; [done|]. clear E. induction Hl as [|r l (o & -> & Ho) Hl IH]; [constructor|]. cbn [map]. constructor; [|exact IH].
  right. eexists _, _. split; [done|]. split; [done|]. intros key. cbn [prop]. unfold obj_get. by rewrite spread_lookup.
Qed.

Lemma saves_switch : fields_ok SwitchForm vs → shows_saved SwitchForm.
Proof.
  intros (cs & Hcs & Hs)%conditions_copied.
  exists (λ i v s, updateNodeForm i v [] s), (next1 "conditions" (VArr cs)).
  split; [constructor|]. split; [apply field_wf|]. split.
  { cbn [useWatchFormChange]. unfold switch_watch. rewrite for_this_node. cbn [prop]. by rewrite Hcs. }
  intros d Hd. eapply shown_stored; [exact Hd| |].
  - cbn [useValues]. unfold plain_values. by rewrite (stored_nonempty _ _ "conditions" (VArr cs) Hd) by (by rewrite field_lookup).
  - intros key w _. by apply field_kept.
Qed.

Lemma saves_categorize : fields_ok CategorizeForm vs → shows_saved CategorizeForm.
Proof.
  intros Hitems.
  assert (∃ x, (match prop "items" (VObj vs) with
             | VUndef | VNull => Ok (VArr [])
             | VArr l => Ok (VArr l)
             | VStr t => Ok (js_or (VStr t) (VArr []))
             | _ => Throw
             end) = Ok x ∧ ∀ w, obj_lookup "items" vs = Some w → shown_as x w) as (x & Hx & Hs).
  { cbn [prop]. unfold obj_get. destruct (obj_lookup "items" vs) as [w|] eqn:E; [|by eexists].
    destruct (Hitems w E) as [l ->]. eexists. split; [done|]. intros ? [= <-]. apply shown_same. }
  exists (λ i v s, updateNodeForm i v [] s), (next1 "items" x).
  split; [constructor|]. split; [apply field_wf|]. split.
  { cbn [useWatchFormChange]. unfold categorize_watch. rewrite for_this_node, Hx. done. }
  intros d Hd. eapply shown_stored; [exact Hd| |].
  - cbn [useValues]. unfold categorize_values. rewrite (stored_nonempty _ _ "items" x Hd) by (by rewrite field_lookup).
    rewrite isPlainObject_eq. by destruct Hd as (o & -> & _).
  - intros key w _. by apply field_kept.
Qed.

Lemma saves_transform : fields_ok StringTransformForm vs → shows_saved StringTransformForm.
Proof.
  intros [Hdel [m Hm]]. set (merge := m === VStr StringTransformMethod.Merge).
  exists (λ i v s, updateNodeForm i v [] s), (if merge then obj_set "delimiters" (VArr [obj_get "delimiters" vs]) vs else vs).
  split; [constructor|]. split; [destruct merge; [by apply obj_set_wf|done]|]. split.
  { cbn [useWatchFormChange]. unfold transform_watch. rewrite for_this_node. cbn [prop].
    rewrite (lookup_get _ _ _ Hm). rewrite (bool_decide_false (_ = VUndef)) by done. cbn [negb andb]. fold merge. by destruct merge. }
  intros d Hd.
  assert (prop "method" d = m) as Hmd.
  { apply (stored_prop _ _ _ _ Hd). destruct merge; [by rewrite obj_lookup_set_ne|done]. }
  assert (∀ key w, key ≠ "delimiters" → obj_lookup key vs = Some w → prop key d = w) as Hother.
  { intros key w Hk Hw. apply (stored_prop _ _ _ _ Hd). destruct merge; [by rewrite obj_lookup_set_ne|done]. }
  assert (∃ w, obj_lookup "delimiters" vs = Some w) as [w Hw].
  { unfold obj_get in Hdel. destruct (obj_lookup "delimiters" vs); [eauto|done]. }
  assert (∃ o, d = VObj o) as [o Ho] by (by destruct Hd as (o & -> & _); eauto).
  assert (lo_isEmpty d = false) as He.
  { apply (stored_nonempty _ _ "method" m Hd). destruct merge; [by rewrite obj_lookup_set_ne|done]. }
  exists (with_field "delimiters" w d). split.
  - cbn [useValues]. unfold transform_values, transferDelimiters, read. rewrite Hmd, He. subst d. cbn [nullish mbind outcome_bind].
    fold merge. rewrite (lookup_get _ _ _ Hw) in Hd. destruct merge.
    + by rewrite (stored_prop _ _ "delimiters" (VArr [w]) Hd) by apply obj_lookup_set_eq.
    + by rewrite (stored_prop _ _ "delimiters" w Hd).
  - intros key w' _ Hw'. rewrite (stored_field _ _ _ _ _ Hd). case_decide; [subst key; simplify_eq; apply shown_same|].
    rewrite (Hother key w') by done. apply shown_same.
Qed.

(** *** Outputs that follow the rows *)
Lemma reduce_named_total key entry l pre : Forall (λ r, nullish r = false) l → ∃ o,
  foldl (λ acc cur, pre ← acc; k ← read key cur;
    Ok (if truthy k then obj_set (key_of k) (entry cur) pre else pre)) (Ok pre) l = Ok o.
Proof.
  intros Hl. revert pre. induction Hl as [|r l Hr Hl IH]; intros pre; [by eexists|]. cbn [foldl].
  unfold read at 2. rewrite Hr. apply IH.
Qed.

Lemma rows_reduced key entry k : field_ok rows_present k vs → ∃ outputs, reduce_optional key entry (obj_get k vs) = Ok outputs.
Proof.
  intros H. unfold obj_get. destruct (obj_lookup k vs) as [w|] eqn:E; [|by eexists]. destruct (H w E) as (l & -> & Hl).
  destruct (reduce_named_total key entry l [] Hl) as [o Ho]. exists (VObj o). cbn. unfold reduce_named. by rewrite Ho.
Qed.

Lemma saves_loop : fields_ok LoopForm vs → shows_saved LoopForm.
Proof.
  intros H. destruct (rows_reduced "variable" loop_output _ H) as [outputs Ho].
  exists replaceNodeForm, (next1 "outputs" outputs). split; [constructor|]. split; [apply field_wf|]. split.
  { cbn [useWatchFormChange]. unfold loop_watch. rewrite for_this_node. cbn [prop]. by rewrite Ho. }
  intros d Hd. eexists. split.
  - cbn [useValues]. unfold loop_values. by rewrite (stored_nonempty _ _ "outputs" outputs Hd) by (by rewrite field_lookup).
  - intros key w Hh Hw. cbn [prop]. unfold obj_get. rewrite omit_lookup, decide_False by exact Hh.
    destruct Hd as (o & -> & _ & Hd). cbn [obj_of_val]. rewrite (Hd key w); [apply shown_same|].
    rewrite field_lookup by done. by rewrite decide_False by set_solver.
Qed.

Lemma saves_aggregator : fields_ok VariableAggregatorForm vs → shows_saved VariableAggregatorForm.
Proof.
  intros H. destruct (rows_reduced "group_name" aggregator_output _ H) as [outputs Ho].
  exists replaceNodeForm, (next1 "outputs" (js_coalesce outputs (VObj []))). split; [constructor|]. split; [apply field_wf|]. split.
  { cbn [useWatchFormChange]. unfold aggregator_watch. rewrite for_this_node. cbn [prop]. by rewrite Ho. }
  intros d Hd. eapply shown_stored; [exact Hd| |].
  - cbn [useValues]. unfold plain_values.
    by rewrite (stored_nonempty _ _ "outputs" (js_coalesce outputs (VObj [])) Hd) by (by rewrite field_lookup).
  - intros key w Hh Hw. rewrite field_lookup by done. rewrite decide_False by set_solver. eauto using shown_same.
Qed.

(** *** The agent's prompt *)
Lemma agent_prompt_shown next d w : stored next d → obj_lookup "prompts" next = Some (agent_prompts w) →
  lo_getOr d [PKey "prompts"; PIdx 0; PKey "content"] (VStr "") = match w with VUndef => VStr "" | _ => w end.
Proof.
  intros (o & -> & _ & Hd) Hp. apply Hd in Hp. apply lookup_get in Hp. unfold lo_getOr.
  change (PIdx 0) with (PIdx (Z.of_nat 0)).
  rewrite (get_elem o "prompts" _ 0 [PKey "content"] Hp) by (cbn; lia).
  change (default VUndef _) with (VObj [("role", VStr PromptRole.User); ("content", w)]).
  rewrite get_key, get_nil. by destruct w.
Qed.

Lemma saves_agent : fields_ok AgentForm vs → shows_saved AgentForm.
Proof.
  intros H. exists (λ i v s, updateNodeForm i v [] s), (next1 "prompts" (agent_prompts (obj_get "prompts" vs))).
  split; [constructor|]. split; [apply field_wf|]. split.
  { cbn [useWatchFormChange]. unfold agent_watch. by rewrite for_this_node. }
  intros d Hd. eexists. split.
  { cbn [useValues]. unfold agent_values.
    rewrite (stored_nonempty _ _ "prompts" (agent_prompts (obj_get "prompts" vs)) Hd) by (by rewrite field_lookup).
    rewrite (agent_prompt_shown _ _ (obj_get "prompts" vs) Hd) by (by rewrite field_lookup). reflexivity. }
  intros key w Hh Hw. rewrite field_prop by (apply omit_wf; by destruct Hd as (o & -> & Ho & _)).
  case_decide as Hk.
  - subst key. rewrite (lookup_get _ _ _ Hw). destruct w; try apply shown_same. by destruct (H _ Hw).
  - cbn [prop]. unfold obj_get, omitToolsAndMcp. rewrite omit_lookup, decide_False by exact Hh.
    destruct Hd as (o & -> & _ & Hd). cbn [obj_of_val]. rewrite (Hd key w); [apply shown_same|].
    rewrite field_lookup by done. by rewrite decide_False.
Qed.

Lemma saves_each k : fields_ok k vs → shows_saved k.
Proof.
  destruct k; auto using saves_code, saves_iteration, saves_begin, saves_fillup, saves_message, saves_tavily,
    saves_switch, saves_agent, saves_transform, saves_categorize, saves_loop, saves_aggregator, saves_plain.
Qed.
End each_form.

(** C23: For each kind of form, when the rows of its tables have distinct
    names that are no integers and its values have the shape its inputs give
    them: saving changed values never fails, changes no other node and no
    edge, and opening the form on the stored data shows every saved field as
    it was, the rows of its tables in their order. *)
Theorem form_saved_shown k initial llmId i n vs s :
  i ≠ "" → getNode (Some i) s = Some n → obj_wf vs → fields_ok k vs →
  ∃ s' n' shown, useWatchFormChange k (Some i) true (VObj vs) s = Ok s' ∧
    getNode (Some i) s' = Some n' ∧ useValues k initial llmId (form (n_data n')) = Ok shown ∧
    (∀ key w, key ∉ hidden k → obj_lookup key vs = Some w → shown_as (prop key shown) w) ∧
    (∀ j, j ≠ i → getNode (Some j) s' = getNode (Some j) s) ∧ edges s' = edges s.
Proof.
  intros Hi Hn Hvs Hok.
  destruct (saves_each initial llmId i vs s Hi Hvs k Hok) as (save & next & Hsave & Hwf & Hw & Hd).
  destruct (save_stored save i n next s Hsave Hi Hn Hwf) as (n' & Hn' & Hst & Hothers & Hedges).
  destruct (Hd _ Hst) as (shown & Hv & Hshown).
  exists (save i (VObj next) s), n', shown. by repeat split.
Qed.
End saved_and_shown.

(** Two arguments of one name are saved as the last of them, and an argument
    whose name is an integer comes first when the form is opened again. *)
Definition two_arguments (n n' : string) : val :=
  VArr [VObj [("name", VStr n); ("type", VStr "sys.query")]; VObj [("name", VStr n'); ("type", VStr "begin@q")]].

Definition reopened (w : val) : outcome val := o ← convertToObject w; l ← convertToArray (VObj o); Ok (VArr l).

Lemma same_name_lost : reopened (two_arguments "x" "x") = Ok (VArr [VObj [("name", VStr "x"); ("type", VStr "begin@q")]]).
Proof. vm_compute. reflexivity. Qed.

Lemma integer_name_first : reopened (two_arguments "x" "1") =
  Ok (VArr [VObj [("name", VStr "1"); ("type", VStr "begin@q")]; VObj [("name", VStr "x"); ("type", VStr "sys.query")]]).
Proof. vm_compute. reflexivity. Qed.

(** The empty form data of a text operator: without data the hook throws, and
    with an empty object the default delimiters are overwritten by nothing. *)
Lemma transform_defaults_lost (L : Lodash) {HL : LodashLaws L} initial : transform_values initial VUndef = Throw ∧
  ∃ shown, transform_values initial (VObj []) = Ok shown ∧ prop "delimiters" shown = VUndef.
Proof.
  split; [done|]. unfold transform_values. rewrite isEmpty_obj. eexists. split; [done|]. cbn [prop with_field].
  unfold obj_get. by rewrite obj_lookup_set_eq.
Qed.

(** ** Witnesses *)
Module CodeForms.
Definition code_node : Node :=
  Canvas.mk_node "CodeExec:A" Operator.Code "Code_0" None
    (VObj [("lang", VStr "python"); ("script", VStr "old"); ("arguments", VObj [("arg1", VStr "")]); ("outputs", VObj [])]).

Definition page : RFState := setNodes [code_node] initial_state.

Definition argument (n t : string) : val := VObj [("name", VStr n); ("type", VStr t)].

(** The values after the user typed a script and filled in both tables. *)
Definition typed_values : obj :=
  [("lang", VStr "python"); ("script", VStr "return x");
   ("arguments", VArr [argument "x" "begin@query"; argument "y" "sys.query"]);
   ("outputs", VArr [argument "sum" "number"])].
End CodeForms.

Lemma typed_table names types : length names = length types → NoDup names → Forall (λ n, array_index n = None) names →
  table_ok "name" (Some ["type"]) (VArr (zip_with CodeForms.argument names types)).
Proof.
  intros Hlen Hnd Hidx. exists (zip_with CodeForms.argument names types), names. split; [done|]. split; [|done].
  clear Hnd Hidx. revert types Hlen. induction names as [|n names IH]; intros [|t types] Hlen; try discriminate Hlen; [constructor|].
  cbn [zip_with]. constructor; [|apply IH; by injection Hlen]. eexists. split; [done|]. split; [|split; [done|]].
  - apply (bool_decide_unpack _). by vm_compute.
  - intros k Hk. exact Hk.
Qed.

Lemma form_saved_shown_witness :
  ∃ s' n' shown, useWatchFormChange CodeForm (Some "CodeExec:A") true (VObj CodeForms.typed_values) CodeForms.page = Ok s' ∧
    getNode (Some "CodeExec:A") s' = Some n' ∧ useValues CodeForm VUndef VUndef (form (n_data n')) = Ok shown ∧
    (∀ key w, key ∉ hidden CodeForm → obj_lookup key CodeForms.typed_values = Some w → shown_as (prop key shown) w) ∧
    (∀ j, j ≠ "CodeExec:A" → getNode (Some j) s' = getNode (Some j) CodeForms.page) ∧ edges s' = edges CodeForms.page.
Proof.
  apply (form_saved_shown CodeForm VUndef VUndef "CodeExec:A" CodeForms.code_node); [done|by vm_compute| |].
  - apply (bool_decide_unpack _). vm_compute. exact I.
  - split; [|exists (VStr "python"); split; [done|]].
    + apply (typed_table ["x"; "y"] ["begin@query"; "sys.query"]); [done| |by repeat constructor].
      apply (bool_decide_unpack _). vm_compute. exact I.
    + apply (typed_table ["sum"] ["number"]); [done| |by repeat constructor].
      apply (bool_decide_unpack _). vm_compute. exact I.
Defined.
