(* ===== verification/LoopForm.v ===== *)
(** * The form of the loop operator

    pages/agent/form/loop-form: the variables of a loop and the conditions
    that end it, as the form holds them, and every handler of
    dynamic-variables.tsx and loop-termination-condition.tsx on them.  A
    condition is about a variable; which operators and values it may have
    depends on the type of that variable, which the store knows from the
    outputs the form wrote there ([loop_outputs], the effect of
    use-watch-form-change.ts).  Resolving a reference is the business of
    [Structured]; here it is the interface [VariableTypes]. *)
From S2P Require Import Prelude JsValue FormUtils GraphStore StoreProps Variables AgentForms.
Open Scope list_scope.
Open Scope nat_scope.
Open Scope js_scope.

(** ** Operators of a condition by the type of its variable *)
Module TypesWithArray.
Definition String_ := "string".
Definition Number := "number".
Definition Boolean := "boolean".
Definition Object := "object".
Definition ArrayString := "array<string>".
Definition ArrayNumber := "array<number>".
Definition ArrayBoolean := "array<boolean>".
Definition ArrayObject := "array<object>".
Definition all_types := [String_; Number; Boolean; Object; ArrayString; ArrayNumber; ArrayBoolean; ArrayObject].
End TypesWithArray.

Module InputMode.
Definition Constant := "constant".
Definition Variable_ := "variable".
Definition all_modes := [Constant; Variable_].
End InputMode.

Definition EmptyFields : list string := ["empty"; "not empty"].

Definition LoopTerminationStringComparisonOperator : list string :=
  ["contains"; "not contains"; "start with"; "end with"; "is"; "is not"] ++ EmptyFields.

Definition LoopTerminationNumberComparisonOperator : list string :=
  ["="; "≠"; ">"; "<"; "≥"; "≤"] ++ EmptyFields.

Definition LoopTerminationBooleanComparisonOperator : list string := ["is"; "is not"] ++ EmptyFields.

Definition LoopTerminationStringArrayComparisonOperator : list string := ["contains"; "not contains"] ++ EmptyFields.

Definition LoopTerminationStringComparisonOperatorMap : list (string * list string) :=
  [(TypesWithArray.String_, LoopTerminationStringComparisonOperator);
   (TypesWithArray.Number, LoopTerminationNumberComparisonOperator);
   (TypesWithArray.Boolean, LoopTerminationBooleanComparisonOperator);
   (TypesWithArray.Object, EmptyFields);
   (TypesWithArray.ArrayString, LoopTerminationStringArrayComparisonOperator);
   (TypesWithArray.ArrayNumber, LoopTerminationStringArrayComparisonOperator);
   (TypesWithArray.ArrayBoolean, LoopTerminationBooleanComparisonOperator);
   (TypesWithArray.ArrayObject, EmptyFields)].

(** The values of the options; [undefined] for a type the map does not know. *)
Definition buildLogicalOptions (type : string) : option (list string) :=
  snd <$> js_find (λ kv, kv.1 === to_lower type) LoopTerminationStringComparisonOperatorMap.

(** ** The form *)
Record loop_variable := { lv_variable : string; lv_type : string; lv_value : val; lv_input_mode : string }.

Record condition := { c_variable : string; c_operator : val; c_value : val; c_input_mode : val }.

Record loop_form := {
  loop_variables : list loop_variable;
  logical_operator : val;
  loop_termination_condition : list condition
}.

(** [form.setValue] of one field of one row *)
Definition on_variable (i : nat) (f : loop_variable → loop_variable) (p : loop_form) : loop_form :=
  {| loop_variables := alter f i (loop_variables p); logical_operator := logical_operator p;
     loop_termination_condition := loop_termination_condition p |}.

Definition on_condition (i : nat) (f : condition → condition) (p : loop_form) : loop_form :=
  {| loop_variables := loop_variables p; logical_operator := logical_operator p;
     loop_termination_condition := alter f i (loop_termination_condition p) |}.

Definition set_c_variable (v : string) (c : condition) : condition :=
  {| c_variable := v; c_operator := c_operator c; c_value := c_value c; c_input_mode := c_input_mode c |}.
Definition set_c_operator (v : val) (c : condition) : condition :=
  {| c_variable := c_variable c; c_operator := v; c_value := c_value c; c_input_mode := c_input_mode c |}.
Definition set_c_value (v : val) (c : condition) : condition :=
  {| c_variable := c_variable c; c_operator := c_operator c; c_value := v; c_input_mode := c_input_mode c |}.
Definition set_c_mode (v : val) (c : condition) : condition :=
  {| c_variable := c_variable c; c_operator := c_operator c; c_value := c_value c; c_input_mode := v |}.
Definition set_lv_variable (v : string) (r : loop_variable) : loop_variable :=
  {| lv_variable := v; lv_type := lv_type r; lv_value := lv_value r; lv_input_mode := lv_input_mode r |}.
Definition set_lv_type (v : string) (r : loop_variable) : loop_variable :=
  {| lv_variable := lv_variable r; lv_type := v; lv_value := lv_value r; lv_input_mode := lv_input_mode r |}.
Definition set_lv_value (v : val) (r : loop_variable) : loop_variable :=
  {| lv_variable := lv_variable r; lv_type := lv_type r; lv_value := v; lv_input_mode := lv_input_mode r |}.
Definition set_lv_mode (v : string) (r : loop_variable) : loop_variable :=
  {| lv_variable := lv_variable r; lv_type := lv_type r; lv_value := lv_value r; lv_input_mode := v |}.

(** *** use-watch-form-change.ts *)

(** The outputs the effect computes from the variables. *)
Definition loop_outputs (p : loop_form) : obj :=
  foldl (λ pre cur,
    if lv_variable cur !== "" then obj_set (lv_variable cur) (VObj [("type", VStr (lv_type cur)); ("value", VStr "")]) pre
    else pre) [] (loop_variables p).

Definition initializeConditionMode (keyType : string) (c : condition) : condition :=
  if keyType === TypesWithArray.Number then set_c_mode (VStr InputMode.Constant) c else c.

Definition initializeConditionValue (keyType : string) (c : condition) : condition :=
  set_c_value (if keyType === TypesWithArray.Number then VNum (num_of_Z 0)
               else if keyType === TypesWithArray.Boolean then VBool true else VStr "") c.

Definition initializeConditionOperator (keyType : string) (c : condition) : condition :=
  set_c_operator (of_ostr (buildLogicalOptions keyType ≫= head)) c.

Definition initializeVariableRelatedConditions (id variable variableType : string) (p : loop_form) : loop_form :=
  {| loop_variables := loop_variables p; logical_operator := logical_operator p;
     loop_termination_condition := map (λ x,
       if (variable !== "") && (c_variable x === buildVariableValue variable id)
       then initializeConditionOperator variableType (initializeConditionValue variableType
              (initializeConditionMode variableType x))
       else x) (loop_termination_condition p) |}.

(** *** dynamic-variables.tsx *)
Definition ConstantValueMap (type : string) : val :=
  if type === TypesWithArray.Boolean then VBool true
  else if type === TypesWithArray.Number then VNum (num_of_Z 0)
  else if type === TypesWithArray.String_ then VStr ""
  else if js_includes [TypesWithArray.ArrayBoolean; TypesWithArray.ArrayNumber; TypesWithArray.ArrayString;
    TypesWithArray.ArrayObject] type then VStr "[]"
  else if type === TypesWithArray.Object then VStr "{}" else VUndef.

Definition initializeValue (mode variableType : string) (r : loop_variable) : loop_variable :=
  set_lv_value (if mode === InputMode.Variable_ then VStr "" else ConstantValueMap variableType) r.

(** The handler, then [field.onChange(mode)]. *)
Definition variable_mode_change (i : nat) (mode : string) : loop_form → loop_form :=
  on_variable i (λ r, set_lv_mode mode (initializeValue mode (lv_type r) r)).

(** [handleVariableTypeChange], then [field.onChange(variableType)]. *)
Definition handleVariableTypeChange (id : string) (i : nat) (variableType : string) (p : loop_form) : loop_form :=
  match loop_variables p !! i with
  | Some r =>
      on_variable i (set_lv_type variableType)
        (on_variable i (initializeValue (lv_input_mode r) variableType)
          (initializeVariableRelatedConditions id (lv_variable r) variableType p))
  | None => p
  end.

Definition append_variable (p : loop_form) : loop_form :=
  {| loop_variables := loop_variables p ++
       [{| lv_variable := ""; lv_type := TypesWithArray.String_; lv_value := VStr ""; lv_input_mode := InputMode.Constant |}];
     logical_operator := logical_operator p; loop_termination_condition := loop_termination_condition p |}.

Definition remove_variable (i : nat) (p : loop_form) : loop_form :=
  {| loop_variables := delete i (loop_variables p); logical_operator := logical_operator p;
     loop_termination_condition := loop_termination_condition p |}.

(** *** loop-termination-condition.tsx *)

(** The type of a reference, given the outputs the loop has in the store. *)
Class VariableTypes := type_of : obj → string → val.

(** What the form relies on: its own outputs have the type it wrote, and what
    it writes says nothing about other references. *)
Class VariableTypesLaws (T : VariableTypes) (id : string) : Prop := {
  type_of_own : ∀ outs v t, v ≠ "" → obj_get v outs = VObj [("type", VStr t); ("value", VStr "")] →
    t ∈ TypesWithArray.all_types → type_of outs (buildVariableValue v id) = VStr t;
  type_of_other : ∀ outs outs' key,
    (∀ v, key = buildVariableValue v id → obj_lookup v outs = obj_lookup v outs') →
    type_of outs key = type_of outs' key
}.

(** [toLower] of a type *)
Definition lower_type (v : val) : string := match v with VStr s => to_lower s | _ => "" end.

Section conditions.
Context {T : VariableTypes} (id : string).

Definition getVariableType (p : loop_form) (key : string) : string := lower_type (type_of (loop_outputs p) key).

(** [field.onChange(key)], then [handleVariableChange]. *)
Definition handleVariableChange (i : nat) (key : string) (p : loop_form) : loop_form :=
  on_condition i (λ c,
    let keyType := getVariableType p key in
    initializeConditionValue keyType (initializeConditionMode keyType
      (initializeConditionOperator keyType (set_c_variable key c)))) p.

(** [handleOperatorChange], then [onChange(op)]. *)
Definition handleOperatorChange (i : nat) (op : string) (p : loop_form) : loop_form :=
  on_condition i (λ c,
    let keyType := getVariableType p (c_variable c) in
    set_c_operator (VStr op) (initializeConditionValue keyType (initializeConditionMode keyType c))) p.

(** [handleModeChange], then [field.onChange(mode)]. *)
Definition handleModeChange (i : nat) (mode : string) : loop_form → loop_form :=
  on_condition i (λ c,
    set_c_mode (VStr mode)
      (set_c_value (if mode === InputMode.Constant then VNum (num_of_Z 0) else VStr "") c)).

Definition append_condition (p : loop_form) : loop_form :=
  {| loop_variables := loop_variables p;
     logical_operator :=
       if length (loop_termination_condition p) =? 1 then VStr "and" else logical_operator p;
     loop_termination_condition := loop_termination_condition p ++
       [{| c_variable := ""; c_operator := VUndef; c_value := VStr ""; c_input_mode := VUndef |}] |}.

Definition remove_condition (i : nat) (p : loop_form) : loop_form :=
  {| loop_variables := loop_variables p; logical_operator := logical_operator p;
     loop_termination_condition := delete i (loop_termination_condition p) |}.

(** What the panel of a condition lets the user enter. *)
Inductive panel := NoPanel | ModePanel (mode : val) | SwitchPanel | TextPanel.

Definition renderParameterPanel (p : loop_form) (c : condition) : panel :=
  let type := getVariableType p (c_variable c) in
  if match c_operator c with VStr op => js_includes EmptyFields op | _ => false end then NoPanel
  else if type === TypesWithArray.Number then ModePanel (c_input_mode c)
  else if type === TypesWithArray.Boolean then SwitchPanel else TextPanel.

(** What is typed or chosen there, and the value the panel hands to the form:
    the input of a number converts its text (components/ui/input.tsx), one
    that was emptied hands over the empty text. *)
Inductive entry := Typed (s : string) | Chosen (b : bool).

Definition number_value (s : string) : val := if s === "" then VStr "" else VNum (num_of_string s).

Definition entered (pn : panel) (e : entry) : val :=
  match pn, e with
  | ModePanel mode, Typed s => if mode === VStr InputMode.Constant then number_value s else VStr s
  | _, Typed s => VStr s
  | _, Chosen b => VBool b
  end.

(** ** What the user does *)
Inductive gesture :=
  | AddVariable | RenameVariable (i : nat) (name : string) | PickType (i : nat) (type : string)
  | PickVariableMode (i : nat) (mode : string) | EnterVariableValue (i : nat) (v : val) | RemoveVariable (i : nat)
  | AddCondition | PickVariable (i : nat) (key : string) | PickOperator (i : nat) (op : string)
  | PickConditionMode (i : nat) (mode : string) | EnterConditionValue (i : nat) (e : entry) | RemoveCondition (i : nat).

Definition loop_step (p : loop_form) (g : gesture) : loop_form :=
  match g with
  | AddVariable => append_variable p
  | RenameVariable i name => on_variable i (set_lv_variable name) p
  | PickType i type => handleVariableTypeChange id i type p
  | PickVariableMode i mode => variable_mode_change i mode p
  | EnterVariableValue i v => on_variable i (set_lv_value v) p
  | RemoveVariable i => remove_variable i p
  | AddCondition => append_condition p
  | PickVariable i key => handleVariableChange i key p
  | PickOperator i op => handleOperatorChange i op p
  | PickConditionMode i mode => handleModeChange i mode p
  | EnterConditionValue i e => on_condition i (λ c, set_c_value (entered (renderParameterPanel p c) e) c) p
  | RemoveCondition i => remove_condition i p
  end.

(** What the controls on the page offer; the text the browser reports of an
    input of numbers is a number, or empty. *)
Definition offers (p : loop_form) (g : gesture) : Prop :=
  match g with
  | PickType _ type => type ∈ TypesWithArray.all_types
  | PickVariable _ key => key ≠ ""
  | PickOperator i op => ∀ c, loop_termination_condition p !! i = Some c →
      ∃ ops, buildLogicalOptions (getVariableType p (c_variable c)) = Some ops ∧ op ∈ ops
  | PickConditionMode i mode => mode ∈ InputMode.all_modes ∧ ∀ c, loop_termination_condition p !! i = Some c →
      ∃ m, renderParameterPanel p c = ModePanel m
  | EnterConditionValue i e => ∀ c, loop_termination_condition p !! i = Some c →
      match renderParameterPanel p c with
      | NoPanel => False
      | SwitchPanel => ∃ b, e = Chosen b
      | ModePanel mode => ∃ s, e = Typed s ∧
          (mode = VStr InputMode.Constant → s = "" ∨ num_isNaN (num_of_string s) = false)
      | TextPanel => ∃ s, e = Typed s
      end
  | _ => True
  end.
End conditions.

(** ** Well-typed conditions *)
Definition operator_ok (type : string) (c : condition) : Prop :=
  match buildLogicalOptions type with
  | Some ops => ∃ op, c_operator c = VStr op ∧ op ∈ ops
  | None => c_operator c = VUndef
  end.

(** A number is a constant, which is a number or was emptied, or a reference;
    a boolean is a boolean, and everything else is text. *)
Definition value_ok (type : string) (c : condition) : Prop :=
  if type === TypesWithArray.Number then
    (c_input_mode c = VStr InputMode.Constant ∧
       ((∃ n, c_value c = VNum n ∧ num_isNaN n = false) ∨ c_value c = VStr "")) ∨
    (c_input_mode c = VStr InputMode.Variable_ ∧ ∃ s, c_value c = VStr s)
  else if type === TypesWithArray.Boolean then ∃ b, c_value c = VBool b
  else ∃ s, c_value c = VStr s.

Section typed.
Context {T : VariableTypes} (id : string) {HT : VariableTypesLaws T id}.

Definition typed (p : loop_form) (c : condition) : Prop :=
  c_variable c ≠ "" →
  operator_ok (getVariableType p (c_variable c)) c ∧ value_ok (getVariableType p (c_variable c)) c.

Definition well_typed (p : loop_form) : Prop := ∀ c, c ∈ loop_termination_condition p → typed p c.

Definition referenced (p : loop_form) (v : string) : Prop :=
  ∃ c, c ∈ loop_termination_condition p ∧ c_variable c = buildVariableValue v id.

(** A variable that a condition is about is not renamed or removed, no name
    that a condition is about is given to a variable, and the type is changed
    of a variable that shares its name with no other. *)
Definition safe (p : loop_form) (g : gesture) : Prop :=
  match g with
  | RenameVariable i name => ¬ referenced p name ∧
      ∀ r, loop_variables p !! i = Some r → ¬ referenced p (lv_variable r)
  | RemoveVariable i => ∀ r, loop_variables p !! i = Some r → ¬ referenced p (lv_variable r)
  | PickType i _ => ∀ r j r', loop_variables p !! i = Some r → loop_variables p !! j = Some r' →
      lv_variable r' = lv_variable r → j = i
  | _ => True
  end.

Inductive loop_run : loop_form → loop_form → Prop :=
  | run_refl p : loop_run p p
  | run_step p g p' : offers p g → safe p g → loop_run (loop_step id p g) p' → loop_run p p'.

(** *** The outputs of the loop *)
Definition add_output (pre : obj) (cur : loop_variable) : obj :=
  if lv_variable cur !== "" then obj_set (lv_variable cur) (VObj [("type", VStr (lv_type cur)); ("value", VStr "")]) pre
  else pre.

Lemma add_output_lookup v pre r : v = "" ∨ v ≠ lv_variable r → obj_lookup v (add_output pre r) = obj_lookup v pre.
Proof.
  intros H. unfold add_output. destruct (decide (lv_variable r = "")) as [He|He].
  - by rewrite bool_decide_true.
  - rewrite bool_decide_false by done. cbn [negb]. rewrite obj_lookup_set_ne; [done|]. intros Hv. destruct H; congruence.
Qed.

Lemma outputs_cong v rs pre pre' : obj_lookup v pre = obj_lookup v pre' →
  obj_lookup v (foldl add_output pre rs) = obj_lookup v (foldl add_output pre' rs).
Proof.
  revert pre pre'. induction rs as [|r rs IH]; intros pre pre' H; [done|]. cbn [foldl]. apply IH.
  unfold add_output. destruct (lv_variable r !== ""); [|done]. destruct (decide (lv_variable r = v)) as [->|Hv].
  - by rewrite !obj_lookup_set_eq.
  - by rewrite !obj_lookup_set_ne.
Qed.

Lemma outputs_other v rs pre : v = "" ∨ (∀ r, r ∈ rs → v ≠ lv_variable r) →
  obj_lookup v (foldl add_output pre rs) = obj_lookup v pre.
Proof.
  revert pre. induction rs as [|r rs IH]; intros pre H; [done|]. cbn [foldl]. rewrite IH by set_solver.
  apply add_output_lookup. set_solver.
Qed.

(** Changing one row only concerns the names it had and has. *)
Lemma outputs_alter v f i rs pre : (v = "" ∨ ∀ r, rs !! i = Some r → v ≠ lv_variable r ∧ v ≠ lv_variable (f r)) →
  obj_lookup v (foldl add_output pre (alter f i rs)) = obj_lookup v (foldl add_output pre rs).
Proof.
  revert i pre. induction rs as [|r rs IH]; intros [|i] pre H; [done..| |].
  - cbn [alter list_alter foldl]. apply outputs_cong. rewrite !add_output_lookup; [done| |].
    all: destruct H as [H|H]; [by left|right; by apply H].
  - cbn [alter list_alter foldl]. apply IH, H.
Qed.

Lemma outputs_delete v i rs pre : (v = "" ∨ ∀ r, rs !! i = Some r → v ≠ lv_variable r) →
  obj_lookup v (foldl add_output pre (delete i rs)) = obj_lookup v (foldl add_output pre rs).
Proof.
  revert i pre. induction rs as [|r rs IH]; intros [|i] pre H; [done..| |].
  - cbn [delete list_delete foldl]. apply outputs_cong. rewrite add_output_lookup; [done|].
    destruct H as [H|H]; [by left|right; by apply H].
  - cbn [delete list_delete foldl]. apply IH, H.
Qed.

(** Only names and types count. *)
Lemma outputs_alter_ext f g i rs pre : (∀ r, lv_variable (f r) = lv_variable (g r) ∧ lv_type (f r) = lv_type (g r)) →
  foldl add_output pre (alter f i rs) = foldl add_output pre (alter g i rs).
Proof.
  intros Hf. revert i pre. induction rs as [|r rs IH]; intros [|i] pre; [done..| |]; cbn [alter list_alter foldl].
  - unfold add_output at 2 4. by destruct (Hf r) as [-> ->].
  - apply IH.
Qed.

Lemma outputs_same f i rs pre : (∀ r, lv_variable (f r) = lv_variable r ∧ lv_type (f r) = lv_type r) →
  foldl add_output pre (alter f i rs) = foldl add_output pre rs.
Proof. intros Hf. rewrite (outputs_alter_ext f (λ r, r)) by done. by rewrite list_alter_id. Qed.

(** The output of a variable that shares its name with no later one *)
Lemma outputs_at rs i r pre : rs !! i = Some r → lv_variable r ≠ "" →
  (∀ j r', rs !! j = Some r' → lv_variable r' = lv_variable r → j = i) →
  obj_lookup (lv_variable r) (foldl add_output pre rs) = Some (VObj [("type", VStr (lv_type r)); ("value", VStr "")]).
Proof.
  intros Hi Hne Huniq. rewrite <-(take_drop_middle rs i r Hi), foldl_app. cbn [foldl]. rewrite outputs_other.
  - unfold add_output. rewrite bool_decide_false by done. apply obj_lookup_set_eq.
  - right. intros r' Hr' He. apply list_elem_of_lookup in Hr' as [j Hj]. rewrite lookup_drop in Hj.
    specialize (Huniq _ _ Hj (eq_sym He)). lia.
Qed.

(** *** Conditions *)
Lemma value_inj v w : buildVariableValue v id = buildVariableValue w id → v = w.
Proof. unfold buildVariableValue. intros H. do 2 apply string_app_inj in H. exact H. Qed.

Lemma typed_same p p' c : (∀ v, c_variable c = buildVariableValue v id →
    obj_lookup v (loop_outputs p) = obj_lookup v (loop_outputs p')) → typed p c → typed p' c.
Proof.
  intros H Hc Hv. assert (getVariableType p' (c_variable c) = getVariableType p (c_variable c)) as ->; [|by apply Hc].
  unfold getVariableType. f_equal. symmetry. by apply (type_of_other (id := id)).
Qed.

Lemma options_nonempty type ops : buildLogicalOptions type = Some ops → ∃ op, head ops = Some op ∧ op ∈ ops.
Proof.
  unfold buildLogicalOptions. destruct (js_find _ _) as [[k l]|] eqn:E; [|done]. intros [= <-].
  apply js_find_Some in E as [Hin _]. cbn [snd].
  assert (Forall (λ kv : string * list string, ∃ op, head kv.2 = Some op ∧ op ∈ kv.2) LoopTerminationStringComparisonOperatorMap) as Hall
    by (repeat (apply Forall_cons; split; [eexists; split; [reflexivity|by left]|]); by apply Forall_nil).
  rewrite Forall_forall in Hall. by apply (Hall (k, l)).
Qed.

(** The three initializations make a condition of the type. *)
Lemma operator_initial type c : c_operator c = of_ostr (buildLogicalOptions type ≫= head) → operator_ok type c.
Proof.
  intros Hc. unfold operator_ok. rewrite Hc. destruct (buildLogicalOptions type) as [ops|] eqn:E; [|done].
  destruct (options_nonempty _ _ E) as (op & Hop & Hin). exists op. cbn. by rewrite Hop.
Qed.

Lemma value_initial type c : value_ok type (initializeConditionValue type (initializeConditionMode type c)).
Proof.
  unfold value_ok, initializeConditionValue, initializeConditionMode.
  destruct (type === TypesWithArray.Number) eqn:E1; cbn; [left; eauto|].
  destruct (type === TypesWithArray.Boolean) eqn:E2; cbn; eauto.
Qed.

Lemma lower_known type : type ∈ TypesWithArray.all_types → to_lower type = type.
Proof.
  assert (Forall (λ t, to_lower t = t) TypesWithArray.all_types) as H by (repeat constructor). rewrite Forall_forall in H. apply H.
Qed.

Lemma elem_of_alter {A} (f : A → A) (i : nat) (l : list A) y : y ∈ alter f i l → y ∈ l ∨ ∃ x, l !! i = Some x ∧ y = f x.
Proof.
  intros [j Hj]%list_elem_of_lookup. destruct (decide (i = j)) as [->|Hij].
  - rewrite list_lookup_alter_eq in Hj. destruct (l !! j) as [x|] eqn:Hx; [|done]. simplify_eq/=. eauto.
  - rewrite list_lookup_alter_ne in Hj by done. left. by eapply list_elem_of_lookup_2.
Qed.

(** A step that keeps the conditions, and the outputs they are about. *)
Lemma keep_conditions p p' : loop_termination_condition p' = loop_termination_condition p →
  (∀ v, referenced p v → obj_lookup v (loop_outputs p) = obj_lookup v (loop_outputs p')) →
  well_typed p → well_typed p'.
Proof.
  intros Hc Ho Hp c Hin. rewrite Hc in Hin. apply (typed_same p); [|by apply Hp].
  intros v Hv. apply Ho. by exists c.
Qed.

(** A step that changes one condition, and keeps the variables. *)
Lemma change_condition p i f : (∀ c, loop_termination_condition p !! i = Some c → typed p c → typed p (f c)) →
  well_typed p → well_typed (on_condition i f p).
Proof.
  intros Hf Hp c Hin. apply (typed_same p); [done|]. apply elem_of_alter in Hin as [Hin|(c0 & H0 & ->)]; [by apply Hp|].
  apply Hf; [done|]. apply Hp. by eapply list_elem_of_lookup_2.
Qed.

Lemma typed_pick_type p i type : type ∈ TypesWithArray.all_types → safe p (PickType i type) →
  well_typed p → well_typed (handleVariableTypeChange id i type p).
Proof.
  intros Htype Hsafe Hp. unfold handleVariableTypeChange. destruct (loop_variables p !! i) as [r|] eqn:Hr; [|done].
  set (p' := on_variable i (set_lv_type type) _).
  assert (loop_outputs p' = foldl add_output [] (alter (set_lv_type type) i (loop_variables p))) as Hout.
  { unfold loop_outputs, p', on_variable. cbn [loop_variables initializeVariableRelatedConditions].
    rewrite list_alter_alter_eq. apply outputs_alter_ext. by intros []. }
  assert (∀ v, v ≠ lv_variable r ∨ v = "" → obj_lookup v (loop_outputs p) = obj_lookup v (loop_outputs p')) as Hother.
  { intros v Hv. rewrite Hout. symmetry. apply outputs_alter. destruct Hv as [Hv|Hv]; [right|by left].
    intros r' [= <-]%(eq_trans (eq_sym Hr)). done. }
  intros c Hin. unfold p' in Hin. cbn in Hin. apply list_elem_of_fmap in Hin as (x & -> & Hx).
  destruct (decide (lv_variable r ≠ "" ∧ c_variable x = buildVariableValue (lv_variable r) id)) as [[Hne Hc]|Hno].
  - rewrite (bool_decide_false (lv_variable r = "")), (bool_decide_true (c_variable x = _)) by done. cbn [negb andb].
    intros _. set (c := initializeConditionOperator _ _).
    assert (getVariableType p' (c_variable c) = type) as ->.
    { assert (c_variable c = c_variable x) as -> by (unfold c, initializeConditionMode; by destruct (type === _)).
      unfold getVariableType. rewrite Hc, (type_of_own (id := id) _ _ type); [by apply lower_known|done| |done].
      rewrite Hout. apply lookup_get. apply (outputs_at _ i (set_lv_type type r)); [by rewrite list_lookup_alter_eq, Hr|done|].
      intros j r' Hj Hsame. destruct (decide (i = j)) as [|Hij]; [done|]. rewrite list_lookup_alter_ne in Hj by done.
      by apply (Hsafe r j r'). }
    split; [by apply operator_initial|]. unfold c. pose proof (value_initial type x) as Hv. exact Hv.
  - assert ((if (lv_variable r !== "") && (c_variable x === buildVariableValue (lv_variable r) id)
      then initializeConditionOperator type (initializeConditionValue type (initializeConditionMode type x)) else x) = x) as ->.
    { case_bool_decide; [done|]. cbn [negb andb]. rewrite bool_decide_false; [done|]. intros Heq. by apply Hno. }
    apply (typed_same p); [|by apply Hp]. intros v Hv. apply Hother. destruct (decide (v = "")) as [|Hve]; [by right|].
    left. intros ->. by apply Hno.
Qed.

(** What the panel of a condition hands over has the type of its variable. *)
Lemma entered_ok p c e : value_ok (getVariableType p (c_variable c)) c →
  match renderParameterPanel p c with
  | NoPanel => False
  | SwitchPanel => ∃ b, e = Chosen b
  | ModePanel mode => ∃ s, e = Typed s ∧ (mode = VStr InputMode.Constant → s = "" ∨ num_isNaN (num_of_string s) = false)
  | TextPanel => ∃ s, e = Typed s
  end →
  value_ok (getVariableType p (c_variable c)) (set_c_value (entered (renderParameterPanel p c) e) c).
Proof.
  unfold value_ok, renderParameterPanel. destruct (match c_operator c with VStr op => _ | _ => _ end); [done|].
  destruct (getVariableType p (c_variable c) === TypesWithArray.Number).
  - intros Hval (s & -> & Hs). cbn [c_value c_input_mode set_c_value entered].
    destruct Hval as [[Hm _]|[Hm _]]; [left|right]; (split; [exact Hm|]); rewrite Hm in Hs |- *; [|by exists s].
    cbn. unfold number_value. destruct (decide (s = "")) as [->|Hne]; [by right|]. rewrite (bool_decide_false (s = "")) by done.
    left. eexists. split; [done|]. by destruct Hs.
  - destruct (_ === TypesWithArray.Boolean); intros _; [intros [b ->]; by exists b|intros [s ->]; by exists s].
Qed.

Lemma typed_step p g : offers p g → safe p g → well_typed p → well_typed (loop_step id p g).
Proof.
  intros Hoff Hsafe Hp. destruct g as [|i name|i type|i mode|i v|i| |i key|i op|i mode|i e|i]; cbn [loop_step].
  - apply (keep_conditions p); [done| |done]. intros v _. unfold loop_outputs, append_variable. cbn [loop_variables].
    rewrite foldl_app. cbn [foldl lv_variable]. by rewrite bool_decide_true.
  - apply (keep_conditions p); [done| |done]. intros v Hv. symmetry. apply outputs_alter. right. intros r Hr.
    destruct Hsafe as [Hname Hold]. split; [|cbn]; intros ->; [by apply (Hold r)|by apply Hname].
  - by apply typed_pick_type.
  - apply (keep_conditions p); [done| |done]. intros v _. f_equal. symmetry. by apply outputs_same.
  - apply (keep_conditions p); [done| |done]. intros v' _. f_equal. symmetry. by apply outputs_same.
  - apply (keep_conditions p); [done| |done]. intros v Hv. symmetry. apply outputs_delete. right. intros r Hr ->.
    by apply (Hsafe r).
  - intros c Hin. apply (typed_same p); [done|]. apply elem_of_app in Hin as [Hin|Hin]; [by apply Hp|].
    apply list_elem_of_singleton in Hin as ->. by intros [].
  - apply change_condition; [|done]. intros c _ _ _. cbv beta zeta. set (τ := getVariableType p key).
    set (c' := initializeConditionOperator τ (set_c_variable key c)).
    assert (c_variable (initializeConditionValue τ (initializeConditionMode τ c')) = key ∧
      c_operator (initializeConditionValue τ (initializeConditionMode τ c')) = of_ostr (buildLogicalOptions τ ≫= head)) as [-> Hop]
      by (unfold initializeConditionMode; by destruct (τ === _)).
    split; [by apply operator_initial|apply value_initial].
  - apply change_condition; [|done]. intros c Hc Htyped Hv. destruct (Hoff c Hc) as (ops & Hops & Hin). cbv beta zeta in *.
    set (τ := getVariableType p (c_variable c)) in *.
    assert (c_variable (set_c_operator (VStr op) (initializeConditionValue τ (initializeConditionMode τ c))) = c_variable c) as ->
      by (unfold initializeConditionMode; by destruct (τ === _)).
    fold τ. split; [unfold operator_ok; rewrite Hops; by exists op|apply value_initial].
  - apply change_condition; [|done]. intros c Hc Htyped Hv. destruct Hoff as [Hmode Hoff]. destruct (Hoff c Hc) as [m Hm].
    destruct (Htyped Hv) as [Hop _]. split; [exact Hop|]. cbn [c_variable set_c_mode set_c_value].
    unfold renderParameterPanel in Hm. destruct (match c_operator c with VStr op => _ | _ => _ end); [done|].
    unfold value_ok. destruct (_ === TypesWithArray.Number); [|by destruct (_ === TypesWithArray.Boolean)].
    apply elem_of_cons in Hmode as [->|Hmode]; [left; cbn; eauto|]. apply list_elem_of_singleton in Hmode as ->.
    right. cbn. eauto.
  - apply change_condition; [|done]. intros c Hc Htyped Hv. specialize (Hoff c Hc). destruct (Htyped Hv) as [Hop Hval].
    split; [exact Hop|]. exact (entered_ok p c e Hval Hoff).
  - intros c Hin. apply (typed_same p); [done|]. apply Hp.
    cbn in Hin. rewrite (delete_take_drop) in Hin. apply elem_of_app in Hin as [Hin|Hin].
    + by eapply subseteq_take.
    + by eapply subseteq_drop.
Qed.

End typed.

(** ** A resolution of references

    The outputs of the loop itself by their names, anything else by a table
    that does not change. *)
Definition local_types (id : string) (others : string → val) : VariableTypes := λ outs key,
  if starts_with (buildVariableValue "" id) key
  then prop "type" (obj_get (str_from (String.length (buildVariableValue "" id)) key) outs)
  else others key.

Lemma variable_value_prefix id v : buildVariableValue v id = buildVariableValue "" id +:+ v.
Proof. unfold buildVariableValue. by rewrite str_app_nil_r, str_app_assoc. Qed.

#[export] Instance local_types_laws id others : VariableTypesLaws (local_types id others) id.
Proof.
  split.
  - intros outs v t Hv Ho _. unfold type_of, local_types. rewrite (variable_value_prefix id v), starts_with_app, str_from_app.
    by rewrite Ho.
  - intros outs outs' key H. unfold type_of, local_types. destruct (starts_with _ key) eqn:E; [|done].
    apply starts_with_true in E as [v ->]. rewrite str_from_app. unfold obj_get. rewrite (H v); [done|].
    by rewrite (variable_value_prefix id v).
Qed.

Module LoopPage.
Definition types : VariableTypes := local_types "Loop:a" (λ _, VStr "string").

Definition empty_form : loop_form := {| loop_variables := []; logical_operator := VUndef; loop_termination_condition := [] |}.

(** A counter with the condition that it is over a number. *)
Definition gestures : list gesture :=
  [AddVariable; RenameVariable 0 "n"; AddCondition; PickVariable 0 "Loop:a@n"; PickType 0 "number";
   PickOperator 0 ">"; EnterConditionValue 0 (Typed "10")].

Definition counter_form : loop_form := foldl (loop_step (T := types) "Loop:a") empty_form gestures.

(** The counter gets another name, and a new variable of texts the old one. *)
Definition renamed_form : loop_form :=
  foldl (loop_step (T := types) "Loop:a") counter_form [RenameVariable 0 "m"; AddVariable; RenameVariable 1 "n"].
End LoopPage.

Lemma counter_run : loop_run (T := LoopPage.types) "Loop:a" LoopPage.empty_form LoopPage.counter_form.
Proof.
  unfold LoopPage.counter_form, LoopPage.gestures. cbn [foldl].
  eapply (run_step _ _ AddVariable); [exact I|exact I|].
  eapply (run_step _ _ (RenameVariable 0 "n")); [exact I|split; [|intros r _]; intros (c & Hc & _); by apply elem_of_nil in Hc|].
  eapply (run_step _ _ AddCondition); [exact I|exact I|].
  eapply (run_step _ _ (PickVariable 0 "Loop:a@n")); [done|exact I|].
  eapply (run_step _ _ (PickType 0 "number")); [by right; left| |].
  { intros r [|j] r' _ Hr' _; [done|]. by destruct j. }
  eapply (run_step _ _ (PickOperator 0 ">")); [|exact I|].
  { intros c [= <-]. eexists. split; [by vm_compute|]. apply (bool_decide_unpack _). vm_compute. exact I. }
  eapply (run_step _ _ (EnterConditionValue 0 (Typed "10"))); [|exact I|apply run_refl].
  intros c [= <-]. eexists. split; [reflexivity|]. intros _. by right.
Qed.


(** Renaming is not followed by the conditions: after it the condition on the
    counter is about the new variable of texts, compared with [>]. *)
Lemma renamed_condition_untyped : ¬ well_typed (T := LoopPage.types) LoopPage.renamed_form.
Proof.
  intros H.
  assert (∃ c, head (loop_termination_condition LoopPage.renamed_form) = Some c ∧ c_variable c = "Loop:a@n" ∧
    c_operator c = VStr ">" ∧ getVariableType (T := LoopPage.types) LoopPage.renamed_form "Loop:a@n" = "string") as (c & Hc & Hv & Ho & Ht)
    by (eexists; vm_compute; done).
  destruct (H c) as [Hop _]; [by apply head_Some_elem_of|by rewrite Hv|].
  rewrite Hv, Ht in Hop. unfold operator_ok in Hop. destruct (buildLogicalOptions "string") as [ops|] eqn:E; [|by rewrite Ho in Hop].
  destruct Hop as (op & He & Hin). rewrite Ho in He. injection He as <-. vm_compute in E. injection E as <-.
  by repeat (apply elem_of_cons in Hin as [?|Hin]; [done|]); apply elem_of_nil in Hin.
Qed.
