(* ===== verification/AgentTools.v ===== *)
(** * The tools of an agent

    pages/agent/form/agent-form and tool-form: the list of built-in tools of
    an agent (tool-popover/use-update-tools.ts), its MCP servers
    (use-update-mcp.ts), the initial parameters of a tool
    (hooks/use-agent-tool-initial-values.ts), the forms of a tool and of a
    server, and the effect that keeps the tool node on the canvas
    (tool-popover/index.tsx).  [None] is a thrown TypeError, or an exhausted
    bound of the loop that draws an identifier. *)
From S2P Require Import Prelude JsValue Graph Libs FormUtils NodeNames Downstream GraphStore StoreProps Variables AddNode.
Open Scope list_scope.
Open Scope nat_scope.
Open Scope js_scope.

(** [pick(o, keys)] of lodash: the properties of [o] with these keys. *)
Class Picker := lo_pick : obj → list string → obj.

Class PickerLaws (P : Picker) : Prop := {
  pick_lookup : ∀ o ks k, obj_lookup k (lo_pick o ks) = if decide (k ∈ ks) then obj_lookup k o else None;
  pick_wf : ∀ o ks, obj_wf (lo_pick o ks);
  (** in the order the keys are asked for *)
  pick_keys : ∀ o ks, (lo_pick o ks).*1 = push_all [] (js_filter (λ k, obj_has k o) ks)
}.

Section tools.
Context {L : Lodash} {X : XYFlow} {P : Picker}.
Context (initialFormValuesMap : string → val) (humanId : nat → string).

(** ** Initial parameters *)

(** [case (Operator.TavilySearch, Operator.TavilyExtract):] is the second
    operator only. *)
Definition initializeAgentToolValues (operatorName : string) : val :=
  let initialValues := initialFormValuesMap operatorName in
  let o := obj_of_val initialValues in
  if operatorName === Operator.Retrieval then VObj (obj_set "description" (VStr "") (obj_assign [] (lo_omit o ["query"])))
  else if operatorName === Operator.TavilyExtract then VObj [("api_key", VStr "")]
  else if operatorName === Operator.ExeSQL then VObj (lo_omit o ["sql"])
  else if operatorName === Operator.Bing then VObj (lo_omit o ["query"])
  else if operatorName === Operator.YahooFinance then VObj (lo_omit o ["stock_code"])
  else if operatorName === Operator.Email then
    VObj (lo_pick o ["smtp_server"; "smtp_port"; "email"; "smtp_username"; "password"; "sender_name"])
  else if operatorName === Operator.DuckDuckGo then VObj (lo_pick o ["top_n"; "channel"])
  else if operatorName === Operator.Wikipedia then VObj (lo_pick o ["top_n"; "language"])
  else if operatorName === Operator.Google then VObj (lo_pick o ["api_key"; "country"; "language"])
  else if operatorName === Operator.GoogleScholar then VObj (lo_omit o ["query"; "outputs"])
  else if operatorName === Operator.ArXiv then VObj (lo_pick o ["top_n"; "sort_by"])
  else if operatorName === Operator.PubMed then VObj (lo_pick o ["top_n"; "email"])
  else if operatorName === Operator.GitHub then VObj (lo_pick o ["top_n"])
  else if operatorName === Operator.WenCai then VObj (lo_pick o ["top_n"; "query_type"])
  else if operatorName === Operator.Code then VObj []
  else if operatorName === Operator.SearXNG then VObj (lo_pick o ["searxng_url"; "top_n"])
  else initialValues.

(** ** Built-in tools *)

(** [get(node, 'data.form.tools')] *)
Definition useGetNodeTools (node : Node) : val := lo_get (form (n_data node)) [PKey "tools"].

Definition has_component (value : string) (x : val) : bool := prop "component_name" x === VStr value.

Definition new_tool (value : string) (nm : string) (id : string) : val :=
  VObj [("component_name", VStr value); ("name", VStr nm); ("params", initializeAgentToolValues value); ("id", VStr id)].

Definition set_tools (i : string) (tools : list val) (s : RFState) : RFState :=
  updateNodeForm i (VArr tools) [PKey "tools"] s.

Definition updateNodeTools (fuel k : nat) (node : Node) (value : string) (s : RFState) : option (RFState * nat) :=
  let i := n_id node in
  if i === "" then Some (s, k)
  else
    tools ← array_of (useGetNodeTools node);
    if value === Operator.Retrieval then
      nm ← generateAgentToolName i value s;
      '(id, k') ← generateAgentToolId humanId fuel k value s;
      Some (set_tools i (tools ++ [new_tool value nm id]) s, k')
    else
      guard (Forall (λ t, nullish t = false) tools);;
      if js_some (has_component value) tools
      then Some (set_tools i (js_filter (λ x, negb (has_component value x)) tools) s, k)
      else '(id, k') ← generateAgentToolId humanId fuel k value s;
           Some (set_tools i (tools ++ [new_tool value value id]) s, k').

Definition deleteNodeTool (node : Node) (toolId : string) (s : RFState) : option RFState :=
  tools ← array_of (useGetNodeTools node);
  guard (Forall (λ t, nullish t = false) tools);;
  let nextTools := js_filter (λ x, prop "id" x !== VStr toolId) tools in
  Some (if n_id node !== "" then set_tools (n_id node) nextTools s else s).

(** *** The form of a tool *)
Definition clicked_tool (clickedNodeId clickedToolId : option string) (s : RFState) : option (option val) :=
  match findUpstreamNodeById clickedNodeId s with
  | Some agentNode => getAgentToolById clickedToolId (RefNode agentNode) s
  | None => getAgentToolById clickedToolId RefNone s
  end.

Definition tool_values (clickedNodeId clickedToolId : option string) (s : RFState) : option val :=
  tool ← clicked_tool clickedNodeId clickedToolId s;
  let formData := match tool with Some t => prop "params" t | None => VUndef end in
  Some (if lo_isEmpty formData
        then initializeAgentToolValues
               (match tool with
                | Some t => if truthy (prop "component_name" t) then key_of (prop "component_name" t)
                            else default "undefined" clickedNodeId
                | None => default "undefined" clickedNodeId
                end)
        else VObj (spread formData)).

Definition tool_watch (clickedNodeId clickedToolId : option string) (dirty : bool) (values : val) (s : RFState)
    : option RFState :=
  match findUpstreamNodeById clickedNodeId s with
  | Some agentNode =>
      if dirty
      then updateAgentToolById (RefNode agentNode) clickedToolId
             (Some [("params", VObj (spread (js_coalesce values (VObj []))))]) s
      else Some s
  | None => Some s
  end.

(** ** MCP servers *)
Definition useGetNodeMCP (node : Node) : val := lo_get (form (n_data node)) [PKey "mcp"].

(** [list.find((x) => x[key] === id)] *)
Fixpoint find_by (key : string) (id : string) (l : list val) : option (option val) :=
  match l with
  | [] => Some None
  | x :: l' => if nullish x then None else if prop key x === VStr id then Some (Some x) else find_by key id l'
  end.

(** [mcp?.variables.tools] *)
Definition findMcpTools (mcpServers : list val) (mcpId : string) : option val :=
  mcp ← find_by "id" mcpId mcpServers;
  match mcp with
  | Some mcp => if nullish (prop "variables" mcp) then None else Some (prop "tools" (prop "variables" mcp))
  | None => Some VUndef
  end.

Definition next_mcp (mcpList mcpServers : list val) (pre : list val) (cur : string) : option (list val) :=
  mcp ← find_by "mcp_id" cur mcpList;
  tools ← findMcpTools mcpServers cur;
  Some (match mcp with
        | Some m => pre ++ [m]
        | None => if truthy tools then pre ++ [VObj [("mcp_id", VStr cur); ("tools", VObj [])]] else pre
        end).

Definition set_mcp (i : string) (mcp : list val) (s : RFState) : RFState := updateNodeForm i (VArr mcp) [PKey "mcp"] s.

Definition updateNodeMCP (mcpServers : list val) (node : Node) (value : list string) (s : RFState) : option RFState :=
  if n_id node === "" then Some s
  else
    mcpList ← (if value === [] then Some [] else array_of (useGetNodeMCP node));
    nextValue ← foldl (λ acc cur, pre ← acc; next_mcp mcpList mcpServers pre cur) (Some []) value;
    Some (set_mcp (n_id node) nextValue s).

Definition deleteNodeMCP (node : Node) (value : string) (s : RFState) : option RFState :=
  mcpList ← array_of (useGetNodeMCP node);
  guard (Forall (λ t, nullish t = false) mcpList);;
  let nextMCP := js_filter (λ x, prop "mcp_id" x !== VStr value) mcpList in
  Some (if n_id node !== "" then set_mcp (n_id node) nextMCP s else s).

(** [toggleOption] of tool-command.tsx *)
Definition toggleOption (option_ : string) (currentValue : list string) : list string :=
  if js_includes currentValue option_ then js_filter (λ v, v !== option_) currentValue else currentValue ++ [option_].

(** *** The form of a server *)
Definition mcp_values (clickedNodeId : option string) (clickedToolId : string) (s : RFState) : option (list string) :=
  mcpList ← array_of (getAgentNodeMCP (findUpstreamNodeById clickedNodeId s));
  mcp ← find_by "mcp_id" clickedToolId mcpList;
  let formData := js_or (match mcp with Some m => prop "tools" m | None => VUndef end) (VObj []) in
  Some (if lo_isEmpty formData then [] else obj_keys (obj_of_val formData)).

Definition mcp_watch (mcpTools : val) (clickedNodeId : option string) (clickedToolId : string) (items : list string)
    (s : RFState) : option RFState :=
  let nextMCPTools := lo_pick (obj_of_val mcpTools) items in
  match findUpstreamNodeById clickedNodeId s with
  | Some agentNode =>
      mcpList ← array_of (getAgentNodeMCP (Some agentNode));
      guard (Forall (λ t, nullish t = false) mcpList);;
      let nextMCP := map (λ x, if prop "mcp_id" x === VStr clickedToolId
                               then VObj (obj_set "tools" (VObj nextMCPTools) (spread x)) else x) mcpList in
      Some (set_mcp (n_id agentNode) nextMCP s)
  | None => Some s
  end.
End tools.

(** ** The invariant of the tools *)
Section invariant.
Context {L : Lodash} {LL : LodashLaws L} {X : XYFlow} {P : Picker}.
Context (initialFormValuesMap : string → val) (humanId : nat → string).

Definition tools_of (n : Node) : list val := arr_of_val (prop "tools" (form (n_data n))).

Definition is_agent (n : Node) : bool := label (n_data n) === Operator.Agent.

Definition tool_ok (t : val) : Prop :=
  ∃ c nm id, prop "component_name" t = VStr c ∧ prop "name" t = VStr nm ∧ prop "id" t = VStr id ∧ id ≠ "".

(** Each agent has a list of tools, no built-in tool but Retrieval twice, and
    no two tools of any agents share an identifier. *)
Record tools_inv (s : RFState) : Prop := {
  ti_nodes : NoDup (map n_id (nodes s));
  ti_forms : ∀ n, n ∈ nodes s → is_agent n = true → ∃ o, form (n_data n) = VObj o ∧ obj_get "tools" o = VArr (tools_of n);
  ti_tools : ∀ n t, n ∈ nodes s → is_agent n = true → t ∈ tools_of n → tool_ok t;
  ti_once : ∀ n c, n ∈ nodes s → is_agent n = true → c ≠ Operator.Retrieval →
    length (js_filter (has_component c) (tools_of n)) ≤ 1;
  ti_ids : NoDup (map (prop "id") (getAllAgentTools s))
}.

Definition all_tools (ns : list Node) : list val := mjoin (map tools_of (js_filter is_agent ns)).

Lemma all_tools_app ns1 ns2 : all_tools (ns1 ++ ns2) = all_tools ns1 ++ all_tools ns2.
Proof. unfold all_tools. by rewrite js_filter_app, map_app, join_app. Qed.

Lemma all_tools_cons n ns : is_agent n = true → all_tools (n :: ns) = tools_of n ++ all_tools ns.
Proof. intros H. unfold all_tools. by rewrite js_filter_cons, H. Qed.

Lemma getAllAgentTools_forms s :
  (∀ n, n ∈ nodes s → is_agent n = true → ∃ o, form (n_data n) = VObj o ∧ obj_get "tools" o = VArr (tools_of n)) →
  getAllAgentTools s = all_tools (nodes s).
Proof.
  intros H. unfold getAllAgentTools, all_tools. f_equal. change (λ n, label (n_data n) === Operator.Agent) with is_agent.
  apply map_ext_in. intros n Hn%list_elem_of_In. apply elem_of_js_filter in Hn as [Ha Hn].
  destruct (H n Hn Ha) as (o & Hf & Ho). rewrite Hf. cbn [prop]. by rewrite Ho.
Qed.

(** *** Writing the tools of one agent *)
Lemma split_by_id (f : Node → Node) ns n : NoDup (map n_id ns) → n ∈ ns →
  ∃ l1 l2, ns = l1 ++ n :: l2 ∧ map (λ m, if n_id m === n_id n then f m else m) ns = l1 ++ f n :: l2.
Proof.
  intros Hnd (l1 & l2 & ->)%list_elem_of_split. exists l1, l2. split; [done|].
  rewrite map_app in Hnd |- *. cbn [map] in *. rewrite bool_decide_true by done.
  apply NoDup_app in Hnd as (_ & Hd & Hnd). apply NoDup_cons in Hnd as [Hn _].
  assert (∀ l, (∀ m, m ∈ l → n_id m ≠ n_id n) → map (λ m, if n_id m === n_id n then f m else m) l = l) as Hid.
  { intros l Hl. rewrite <-(map_id l) at 2. apply map_ext_in. intros m Hm%list_elem_of_In.
    by rewrite bool_decide_false by (by apply Hl). }
  rewrite !Hid; [done| |].
  - intros m Hm He. apply Hn. rewrite <-He. apply elem_of_map. by exists m.
  - intros m Hm He. apply (Hd (n_id m)); [apply elem_of_map; by exists m|]. rewrite He. by left.
Qed.

Lemma find_by_id s n : tools_inv s → n ∈ nodes s → getNode (Some (n_id n)) s = Some n.
Proof.
  intros Hinv Hn. unfold getNode. destruct (js_find_is_Some (λ m, Some (n_id m) === Some (n_id n)) (nodes s) n) as [m Hm].
  { done. } { by apply bool_decide_eq_true. }
  rewrite Hm. apply js_find_Some in Hm as [Hin He]. reflect_bool. injection He as He. f_equal.
  destruct (split_by_id id (nodes s) n (ti_nodes _ Hinv) Hn) as (l1 & l2 & Hs & _).
  pose proof (ti_nodes _ Hinv) as Hnd. apply list_elem_of_lookup in Hn as [a Ha], Hin as [b Hb].
  assert (a = b) as ->; [|congruence].
  apply (NoDup_lookup (map n_id (nodes s)) a b (n_id n)); [done| |].
  - change (map n_id ?l) with (n_id <$> l). by rewrite list_lookup_fmap, Ha.
  - change (map n_id ?l) with (n_id <$> l). rewrite list_lookup_fmap, Hb. cbn. by rewrite He.
Qed.

Lemma set_tools_form n l : (∃ o, form (n_data n) = VObj o) →
  let f := update_form (form (n_data n)) (VArr l) [PKey "tools"] in
  (∃ o', f = VObj o' ∧ obj_get "tools" o' = VArr l) ∧ prop "tools" f = VArr l.
Proof.
  intros [o Ho] f. subst f. unfold update_form. destruct (set_obj (obj_assign [] (obj_of_val (form (n_data n)))) "tools" [] (VArr l)) as [o' Hset].
  rewrite Hset. assert (obj_get "tools" o' = VArr l) as Hg; [|split; [by exists o'|done]].
  pose proof (get_set_same (obj_assign [] (obj_of_val (form (n_data n)))) "tools" [] (VArr l) ltac:(constructor)) as Hget.
  by rewrite Hset, get_key, get_nil in Hget.
Qed.

Lemma set_tools_inv s n l :
  tools_inv s → n ∈ nodes s → is_agent n = true → (∀ t, t ∈ l → tool_ok t) →
  (∀ c, c ≠ Operator.Retrieval → length (js_filter (has_component c) l) ≤ 1) →
  (∀ rest, NoDup (map (prop "id") (tools_of n ++ rest)) → getAllAgentTools s ≡ₚ tools_of n ++ rest →
    NoDup (map (prop "id") (l ++ rest))) →
  tools_inv (set_tools (n_id n) l s) ∧
  (∃ n', getNode (Some (n_id n)) (set_tools (n_id n) l s) = Some n' ∧ tools_of n' = l ∧ is_agent n' = true ∧
    n' ∈ nodes (set_tools (n_id n) l s) ∧ n_id n' = n_id n) ∧
  (∀ j, j ≠ n_id n → getNode (Some j) (set_tools (n_id n) l s) = getNode (Some j) s).
Proof.
  intros Hinv Hn Ha Hok Honce Hids. destruct (ti_forms _ Hinv n Hn Ha) as (o & Hf & Ho).
  set (upd m := node_with_form m (update_form (form (n_data m)) (VArr l) [PKey "tools"])).
  destruct (split_by_id upd (nodes s) n (ti_nodes _ Hinv) Hn) as (l1 & l2 & Hs & Hs').
  destruct (set_tools_form n l (ex_intro _ o Hf)) as [Hform Hprop].
  assert (tools_of (upd n) = l) as Htools by (unfold tools_of, upd; cbn [n_data node_with_form node_with_data form]; by rewrite Hprop).
  set (s' := set_tools (n_id n) l s). assert (nodes s' = l1 ++ upd n :: l2) as Hns by exact Hs'.
  assert (∀ m, m ∈ nodes s' → m = upd n ∨ m ∈ nodes s) as Hin.
  { intros m. rewrite Hns, Hs. set_solver. }
  assert (∀ m, m ∈ nodes s' → is_agent m = true → ∃ o, form (n_data m) = VObj o ∧ obj_get "tools" o = VArr (tools_of m)) as Hforms.
  { intros m [->|Hm]%Hin Ham; [by rewrite Htools|by apply (ti_forms _ Hinv)]. }
  split; [|split].
  - constructor.
    + change (NoDup (node_ids s')). unfold s', set_tools. rewrite updateNodeForm_ids. apply (ti_nodes _ Hinv).
    + exact Hforms.
    + intros m t [->|Hm]%Hin Ham; [rewrite Htools; apply Hok|by apply (ti_tools _ Hinv)].
    + intros m c [->|Hm]%Hin Ham Hc; [rewrite Htools; by apply Honce|by apply (ti_once _ Hinv)].
    + rewrite getAllAgentTools_forms by done. rewrite Hns, all_tools_app, (all_tools_cons (upd n)), Htools by exact Ha.
      assert (all_tools l1 ++ l ++ all_tools l2 ≡ₚ l ++ (all_tools l1 ++ all_tools l2)) as ->
        by (rewrite !(assoc_L (++)); by rewrite (comm (++) (all_tools l1) l)).
      pose proof (ti_ids _ Hinv) as Hnd. pose proof (getAllAgentTools_forms s (ti_forms _ Hinv)) as Hall.
      assert (getAllAgentTools s ≡ₚ tools_of n ++ (all_tools l1 ++ all_tools l2)) as Hperm.
      { rewrite Hall, Hs, all_tools_app, all_tools_cons by done. rewrite !(assoc_L (++)).
        by rewrite (comm (++) (all_tools l1) (tools_of n)). }
      apply Hids; [|exact Hperm]. by rewrite <-Hperm.
  - exists (upd n). split; [|split; [done|split; [done|split; [rewrite Hns; set_solver|done]]]].
    unfold s', set_tools. rewrite updateNodeForm_getNode, (find_by_id s n Hinv Hn). cbn. by rewrite bool_decide_true.
  - intros j Hj. unfold s', set_tools. rewrite updateNodeForm_getNode. destruct (getNode (Some j) s) as [m|] eqn:Hm; [|done].
    apply getNode_Some in Hm as [<- _]. cbn. by rewrite bool_decide_false.
Qed.

(** *** Drawing an identifier *)
Lemma tool_key_ok t : tool_ok t → tool_key t = Some (prop "id" t) ∧ nullish t = false.
Proof.
  intros (c & nm & id & _ & _ & Hid & Hne). destruct t; try done. cbn [nullish]. split; [|done]. unfold tool_key. cbn [nullish].
  rewrite Hid. unfold js_or. cbn [truthy]. by rewrite bool_decide_false.
Qed.

Lemma elem_of_getAll s t : tools_inv s → t ∈ getAllAgentTools s → tool_ok t.
Proof.
  intros Hinv. rewrite (getAllAgentTools_forms _ (ti_forms _ Hinv)). unfold all_tools.
  intros (l & Ht & (n & -> & Hn)%elem_of_map)%list_elem_of_join. apply elem_of_js_filter in Hn as [Ha Hn].
  by apply (ti_tools _ Hinv n).
Qed.

Lemma all_ids s : tools_inv s → mapM tool_key (getAllAgentTools s) = Some (map (prop "id") (getAllAgentTools s)).
Proof.
  intros Hinv. apply mapM_Some. rewrite Forall2_fmap_r. apply Forall_Forall2_diag, Forall_forall.
  intros t Ht. by apply tool_key_ok, (elem_of_getAll s).
Qed.

Lemma draw_id s k prefix : Inj (=) (=) humanId → tools_inv s →
  ∃ id k', generateAgentToolId humanId (S (length (getAllAgentTools s))) k prefix s = Some (id, k') ∧
    (VStr id ∉ map (prop "id") (getAllAgentTools s)) ∧ id ≠ "".
Proof.
  intros Hinj Hinv. unfold generateAgentToolId. rewrite (all_ids s Hinv). cbn [mbind option_bind].
  destruct (fresh_tool_id_terminates humanId (S (length (getAllAgentTools s))) k prefix (map (prop "id") (getAllAgentTools s)) Hinj)
    as [[id k'] Hr]; [rewrite length_map; lia|].
  exists id, k'. split; [done|]. apply fresh_tool_id_spec in Hr as (Hfresh & j & _ & _ & ->). split; [done|].
  intros He. assert (String.length (prefix +:+ ":" +:+ humanId j) = 0) as Hl by (by rewrite He).
  rewrite !str_length_app in Hl. cbn in Hl. lia.
Qed.

Lemma js_find_ext {A} (p q : A → bool) l : (∀ x, p x = q x) → js_find p l = js_find q l.
Proof. intros H. induction l as [|x l IH]; [done|]. unfold js_find in *. cbn. by rewrite H, IH. Qed.

Lemma tool_name s n value : tools_inv s → n ∈ nodes s → is_agent n = true →
  is_Some (generateAgentToolName (n_id n) value s).
Proof.
  intros Hinv Hn Ha. unfold generateAgentToolName. pose proof (find_by_id s n Hinv Hn) as Hf.
  assert (js_find (λ m, n_id m === n_id n) (nodes s) = Some n) as ->.
  { rewrite <-Hf. unfold getNode. apply js_find_ext. intros m. case_bool_decide; case_bool_decide; congruence. }
  destruct (ti_forms _ Hinv n Hn Ha) as (o & -> & Ho). cbn [prop]. rewrite Ho. cbn [array_of mbind option_bind].
  rewrite option_guard_True by (apply Forall_forall; intros t Ht; by apply tool_key_ok, (ti_tools _ Hinv n)).
  cbn [mbind option_bind].
  destruct (mapM _ (js_filter _ _)) as [names|] eqn:E; [by eexists|]. exfalso.
  apply mapM_None, Exists_exists in E as (t & [_ Ht]%elem_of_js_filter & E).
  destruct (ti_tools _ Hinv n t Hn Ha Ht) as (c & nm & id & _ & Hnm & _). by rewrite Hnm in E.
Qed.

(** *** What the list of tools becomes *)
Lemma tools_read s n : tools_inv s → n ∈ nodes s → is_agent n = true → array_of (useGetNodeTools n) = Some (tools_of n).
Proof.
  intros Hinv Hn Ha. destruct (ti_forms _ Hinv n Hn Ha) as (o & Hf & Ho). unfold useGetNodeTools.
  by rewrite Hf, get_key, get_nil, Ho.
Qed.

Lemma tools_nonnull s n : tools_inv s → n ∈ nodes s → is_agent n = true → Forall (λ t, nullish t = false) (tools_of n).
Proof. intros Hinv Hn Ha. apply Forall_forall. intros t Ht. by apply tool_key_ok, (ti_tools _ Hinv n). Qed.

Lemma append_ok s n t : tools_inv s → n ∈ nodes s → is_agent n = true → tool_ok t →
  (prop "id" t ∉ map (prop "id") (getAllAgentTools s)) →
  (∀ c, c ≠ Operator.Retrieval → has_component c t = true → js_some (has_component c) (tools_of n) = false) →
  tools_inv (set_tools (n_id n) (tools_of n ++ [t]) s) ∧
  (∃ n', getNode (Some (n_id n)) (set_tools (n_id n) (tools_of n ++ [t]) s) = Some n' ∧ tools_of n' = tools_of n ++ [t] ∧
    is_agent n' = true ∧ n' ∈ nodes (set_tools (n_id n) (tools_of n ++ [t]) s) ∧ n_id n' = n_id n) ∧
  (∀ j, j ≠ n_id n → getNode (Some j) (set_tools (n_id n) (tools_of n ++ [t]) s) = getNode (Some j) s).
Proof.
  intros Hinv Hn Ha Ht Hfresh Hno. apply set_tools_inv; [done..| | |].
  - intros t' [Ht'|Ht']%elem_of_app; [by apply (ti_tools _ Hinv n)|]. by apply list_elem_of_singleton in Ht' as ->.
  - intros c Hc. rewrite js_filter_app, length_app. pose proof (ti_once _ Hinv n c Hn Ha Hc) as Hle.
    destruct (has_component c t) eqn:E.
    + assert (js_filter (has_component c) (tools_of n) = []) as ->.
      { specialize (Hno c Hc E). destruct (js_filter _ (tools_of n)) as [|x l] eqn:El; [done|].
        assert (x ∈ js_filter (has_component c) (tools_of n)) as [Hx Hin]%elem_of_js_filter by (rewrite El; by left).
        rewrite js_some_false in Hno. by rewrite (Hno x Hin) in Hx. }
      rewrite js_filter_cons, E. cbn. lia.
    + rewrite js_filter_cons, E. cbn. lia.
  - intros rest Hnd Hperm. rewrite <-app_assoc, map_app. cbn [app map].
    assert (map (prop "id") (tools_of n) ++ prop "id" t :: map (prop "id") rest ≡ₚ
      prop "id" t :: map (prop "id") (tools_of n ++ rest)) as -> by (rewrite map_app; by rewrite Permutation_middle).
    apply NoDup_cons. split; [|done]. intros Hin. apply Hfresh. change (map (prop "id") ?l) with (prop "id" <$> l) in *.
    by rewrite Hperm.
Qed.

Lemma filter_ok s n p : tools_inv s → n ∈ nodes s → is_agent n = true →
  tools_inv (set_tools (n_id n) (js_filter p (tools_of n)) s) ∧
  (∃ n', getNode (Some (n_id n)) (set_tools (n_id n) (js_filter p (tools_of n)) s) = Some n' ∧
    tools_of n' = js_filter p (tools_of n) ∧ is_agent n' = true ∧
    n' ∈ nodes (set_tools (n_id n) (js_filter p (tools_of n)) s) ∧ n_id n' = n_id n) ∧
  (∀ j, j ≠ n_id n → getNode (Some j) (set_tools (n_id n) (js_filter p (tools_of n)) s) = getNode (Some j) s).
Proof.
  intros Hinv Hn Ha. apply set_tools_inv; [done..| | |].
  - intros t [_ Ht]%elem_of_js_filter. by apply (ti_tools _ Hinv n).
  - intros c Hc. pose proof (ti_once _ Hinv n c Hn Ha Hc) as Hle. rewrite js_filter_filter.
    etrans; [|exact Hle]. clear. induction (tools_of n) as [|t ts IH]; [done|]. rewrite !js_filter_cons.
    destruct (p t), (has_component c t); cbn; lia.
  - intros rest Hnd _. eapply sublist_NoDup; [exact Hnd|]. rewrite !map_app. apply sublist_app; [|done].
    change (map (prop "id") ?l) with (prop "id" <$> l). by apply fmap_sublist, sublist_filter.
Qed.

(** The agent as the store has it after an edit. *)
Definition agent_after (s' : RFState) (n n' : Node) : Prop :=
  getNode (Some (n_id n)) s' = Some n' ∧ n' ∈ nodes s' ∧ is_agent n' = true ∧ n_id n' = n_id n.

Lemma component_new value nm id c : has_component c (new_tool initialFormValuesMap value nm id) = true → c = value.
Proof. intros H%bool_decide_eq_true. change (VStr value = VStr c) in H. congruence. Qed.

Lemma new_tool_ok value nm id : id ≠ "" → tool_ok (new_tool initialFormValuesMap value nm id).
Proof. intros H. by exists value, nm, id. Qed.

(** Pressing a tool that the agent has takes it away. *)
Lemma toggle_off fuel k s n value : tools_inv s → n ∈ nodes s → is_agent n = true → n_id n ≠ "" →
  value ≠ Operator.Retrieval → js_some (has_component value) (tools_of n) = true →
  updateNodeTools initialFormValuesMap humanId fuel k n value s =
    Some (set_tools (n_id n) (js_filter (λ x, negb (has_component value x)) (tools_of n)) s, k).
Proof.
  intros Hinv Hn Ha Hi Hv Hsome. unfold updateNodeTools. rewrite (bool_decide_false (n_id n = "")) by done.
  rewrite (tools_read s n) by done. cbn [mbind option_bind]. rewrite (bool_decide_false (value = _)) by done.
  rewrite option_guard_True by exact (tools_nonnull s n Hinv Hn Ha). cbn [mbind option_bind]. by rewrite Hsome.
Qed.

(** Pressing a tool that the agent does not have adds it, once; pressing it
    again restores the list. *)
Lemma toggle_on k s n value : tools_inv s → n ∈ nodes s → is_agent n = true → n_id n ≠ "" → Inj (=) (=) humanId →
  value ≠ Operator.Retrieval → js_some (has_component value) (tools_of n) = false →
  ∃ s' k' n', updateNodeTools initialFormValuesMap humanId (S (length (getAllAgentTools s))) k n value s = Some (s', k') ∧
    tools_inv s' ∧ agent_after s' n n' ∧ (∀ j, j ≠ n_id n → getNode (Some j) s' = getNode (Some j) s) ∧
    ∃ nm id, tools_of n' = tools_of n ++ [new_tool initialFormValuesMap value nm id] ∧
      (VStr id ∉ map (prop "id") (getAllAgentTools s)) ∧
      (value ≠ Operator.Retrieval → nm = value ∧ ∀ fuel, ∃ s'' n'',
        updateNodeTools initialFormValuesMap humanId fuel k' n' value s' = Some (s'', k') ∧
        agent_after s'' n' n'' ∧ tools_of n'' = tools_of n).
Proof.
  intros Hinv Hn Ha Hi Hinj Hv Hsome.
  destruct (draw_id s k value Hinj Hinv) as (id & k' & Hid & Hfresh & Hne).
  destruct (append_ok s n (new_tool initialFormValuesMap value value id) Hinv Hn Ha) as (Hs' & (n' & Hn' & Ht & Ha' & Hin & Hid') & Hoth).
  { by apply new_tool_ok. } { exact Hfresh. } { by intros c Hc ->%component_new. }
  eexists _, k', n'. split; [|split; [exact Hs'|split; [by split|split; [exact Hoth|]]]].
  { unfold updateNodeTools. rewrite (bool_decide_false (n_id n = "")), (tools_read s n) by done. cbn [mbind option_bind].
    rewrite (bool_decide_false (value = _)) by done. rewrite option_guard_True by exact (tools_nonnull s n Hinv Hn Ha).
    cbn [mbind option_bind]. rewrite Hsome, Hid. done. }
  exists value, id. split; [done|]. split; [done|]. intros _. split; [done|]. intros fuel.
  assert (js_some (has_component value) (tools_of n') = true) as Hsome'.
  { rewrite Ht. apply js_some_true. eexists. split; [apply elem_of_app; right; by left|].
    by apply bool_decide_eq_true. }
  destruct (filter_ok _ n' (λ x, negb (has_component value x)) Hs' Hin Ha') as (_ & (n'' & Hn'' & Ht'' & Ha'' & Hin'' & Hid'') & _).
  eexists _, n''. split; [apply toggle_off; [done..|by rewrite Hid'|exact Hv|exact Hsome']|]. split; [by split|].
  rewrite Ht'', Ht, js_filter_app, js_filter_all.
  2: { intros x Hx. rewrite js_some_false in Hsome. by rewrite (Hsome x Hx). }
  rewrite js_filter_cons.
  assert (has_component value (new_tool initialFormValuesMap value value id) = true) as -> by (by apply bool_decide_eq_true).
  apply app_nil_r.
Qed.


(** *** MCP servers *)
Lemma find_by_eq key id l : Forall (λ t, nullish t = false) l → find_by key id l = Some (js_find (λ x, prop key x === VStr id) l).
Proof.
  intros Hl. induction Hl as [|x l Hx Hl IH]; [done|]. cbn. rewrite Hx. unfold js_find. cbn. by destruct (_ === _).
Qed.

Record server_ok (m : val) : Prop := {
  sv_some : nullish m = false;
  sv_variables : nullish (prop "variables" m) = false
}.

(** A server of the list with its tools, if it is there. *)
Definition server_tools (mcpServers : list val) (i : string) : val :=
  match js_find (λ x, prop "id" x === VStr i) mcpServers with
  | Some m => prop "tools" (prop "variables" m)
  | None => VUndef
  end.

Definition entry_for (mcpList mcpServers : list val) (i : string) : list val :=
  match js_find (λ x, prop "mcp_id" x === VStr i) mcpList with
  | Some m => [m]
  | None => if truthy (server_tools mcpServers i) then [VObj [("mcp_id", VStr i); ("tools", VObj [])]] else []
  end.

Lemma next_mcp_eq mcpList mcpServers pre i : Forall (λ t, nullish t = false) mcpList → Forall server_ok mcpServers →
  next_mcp mcpList mcpServers pre i = Some (pre ++ entry_for mcpList mcpServers i).
Proof.
  intros Hl Hs. unfold next_mcp, findMcpTools. rewrite (find_by_eq "mcp_id" i mcpList) by exact Hl.
  rewrite (find_by_eq "id" i mcpServers) by (eapply Forall_impl; [exact Hs|]; by intros m []). unfold entry_for, server_tools.
  cbn [mbind option_bind]. destruct (js_find (λ x, prop "id" x === VStr i) mcpServers) as [m|] eqn:E; cbn [mbind option_bind].
  - assert (nullish (prop "variables" m) = false) as ->.
    { apply js_find_Some in E as [Hin _]. rewrite Forall_forall in Hs. by destruct (Hs m Hin). }
    cbn. destruct (js_find _ mcpList); [done|]. destruct (truthy _); by rewrite ?app_nil_r.
  - destruct (js_find _ mcpList); [done|]. cbn. by rewrite app_nil_r.
Qed.

(** Choosing servers keeps what was configured of the chosen ones, adds the
    others that have tools without any, and drops the rest. *)
Lemma mcp_chosen n o l mcpServers value s :
  n ∈ nodes s → NoDup (map n_id (nodes s)) → n_id n ≠ "" → form (n_data n) = VObj o → obj_get "mcp" o = VArr l →
  Forall (λ t, nullish t = false) l → Forall server_ok mcpServers →
  updateNodeMCP mcpServers n value s = Some (set_mcp (n_id n) (mjoin (map (entry_for l mcpServers) value)) s).
Proof.
  intros Hn Hnd Hi Hf Ho Hl Hs. unfold updateNodeMCP. rewrite (bool_decide_false (n_id n = "")) by done.
  assert (∀ pre, foldl (λ acc cur, pre ← acc; next_mcp l mcpServers pre cur) (Some pre) value =
    Some (pre ++ mjoin (map (entry_for l mcpServers) value))) as Hfold.
  { induction value as [|i value IH]; intros pre; [by rewrite app_nil_r|]. cbn [foldl].
    change (Some pre ≫= ?f) with (f pre). cbn beta. rewrite next_mcp_eq by done. rewrite IH. cbn. by rewrite <-app_assoc. }
  case_bool_decide; [by subst|]. unfold useGetNodeMCP. rewrite Hf, get_key, get_nil, Ho. cbn [array_of mbind option_bind].
  by rewrite Hfold.
Qed.
End invariant.

(** ** The tool node on the canvas *)
Section tool_node.
Context {L : Lodash} {LL : LodashLaws L} {X : XYFlow} {XL : XYFlowLaws X}.
Context (getNodeName : string → string) (initialFormValuesMap : string → val)
        (descriptionMessage userPromptDefaultValue : string) (humanId : nat → string)
        (iterationStartId loopStartId : string) (initialIterationStartValues : val).

(** The effect of tool-popover/index.tsx, run when the number of tools or of
    servers changes. *)
Definition popover_effect (fuel k : nat) (i : string) (toolNames mcpIds : nat) (s : RFState) : option RFState :=
  let total := toolNames + mcpIds in
  if i !== "" then
    if bool_decide (0 < total)
    then Some (addCanvasNode getNodeName initialFormValuesMap descriptionMessage userPromptDefaultValue humanId
           iterationStartId loopStartId initialIterationStartValues k Operator.Tool
           {| p_nodeId := Some i; p_position := Bottom; p_id := None; p_isFromConnectionDrag := false |} None s).1
    else deleteAgentToolNodeById fuel i s
  else Some s.

Definition tool_edges (i : string) (s : RFState) : list Edge :=
  js_filter (λ e, (source e === i) && (sourceHandle e === HId NodeHandleId.Tool)) (edges s).

(** The agent has at most one tool node, which is no agent. *)
Record tool_node_ok (i : string) (s : RFState) : Prop := {
  tn_closed : edges_closed s;
  tn_one : length (tool_edges i s) ≤ 1;
  tn_kind : ∀ e, e ∈ tool_edges i s → getOperatorTypeFromId (Some (target e)) s ≠ Some Operator.Agent
}.

Lemma tool_edges_ext i s s' : edges s' = edges s → tool_edges i s' = tool_edges i s.
Proof. unfold tool_edges. by intros ->. Qed.

Lemma addToolNode_edges m i n s : getNode (Some i) s = Some n → i ≠ "" → n_id m ≠ "" → edges_closed s →
  match addToolNode m (Some i) s with
  | Some s' => tool_edges i s = [] ∧ node_ids s' = node_ids s ++ [n_id m] ∧
      (∃ e, tool_edges i s' = [e] ∧ target e = n_id m) ∧ ∀ e, e ∈ edges s' → e ∈ edges s ∨ source e = i ∧ target e = n_id m
  | None => tool_edges i s ≠ []
  end.
Proof.
  intros Hn Hi Hm Hcl. unfold addToolNode. rewrite Hn.
  assert (js_filter (λ e, (Some (source e) === Some i) && (sourceHandle e === HId NodeHandleId.Tool)) (edges s) = tool_edges i s) as ->.
  { apply js_filter_ext. intros e _. f_equal. case_bool_decide; case_bool_decide; congruence. }
  destruct (tool_edges i s) as [|e es] eqn:Etools; cbn [map].
  - assert (otruthy (Some i) = Some i) as -> by (by destruct i). set (m' := node_with_position m _).
    set (c := connection_to i (n_id m') NodeHandleId.Tool NodeHandleId.End_). split; [done|].
    change (GraphStore.addEdge c) with (onConnect c). split.
    { rewrite onConnect_ids. unfold node_ids, GraphStore.addNode. cbn [nodes setNodes]. by rewrite map_app. }
    unfold tool_edges in *. rewrite onConnect_edges. change (edges (GraphStore.addNode m' s)) with (edges s).
    destruct (addEdge_cases c (edges s)) as [(e & -> & (Es & Et & Eh & _) & _)|[-> Hor]].
    + assert (sourceHandle e = HId NodeHandleId.Tool) as Eh' by (by destruct Eh as [?|[_ ?]]). split.
      * exists e. rewrite js_filter_app, Etools, js_filter_cons, Es, Eh', !bool_decide_true by done. done.
      * intros d [Hd|Hd]%elem_of_app; [by left|]. apply list_elem_of_singleton in Hd as ->. by right.
    + exfalso. destruct Hor as [?|[Hnn|(d & Hd & (Ds & _ & Dh & _))]]; [done|done|].
      assert (d ∈ js_filter (λ e, (source e === i) && (sourceHandle e === HId NodeHandleId.Tool)) (edges s)) as Hin.
      { apply elem_of_js_filter. split; [|done]. rewrite Ds.
        assert (sourceHandle d = HId NodeHandleId.Tool) as -> by (by destruct Dh as [?|[_ ?]]). by rewrite !bool_decide_true. }
      rewrite Etools in Hin. by apply elem_of_nil in Hin.
  - assert (target e ∈ node_ids s) as (b & Hb & Hbs)%elem_of_map.
    { apply Hcl. assert (e ∈ tool_edges i s) as [_ He]%elem_of_js_filter by (rewrite Etools; by left). done. }
    assert (js_some (λ n0, n_id n0 === target e) (nodes s) = true) as ->; [|done].
    apply js_some_true. exists b. split; [done|]. by apply bool_decide_eq_true.
Qed.

Lemma node_of_id i s : i ∈ node_ids s → ∃ n, getNode (Some i) s = Some n.
Proof.
  intros (n & -> & Hn)%elem_of_map. destruct (js_find_is_Some (λ m, Some (n_id m) === Some (n_id n)) (nodes s) n) as [m Hm];
    [done|by apply bool_decide_eq_true|by exists m].
Qed.

Lemma tool_ne k : new_id humanId k Operator.Tool ≠ "".
Proof. unfold new_id. done. Qed.

(** Deleting the tool node of an agent leaves it without a tool edge. *)
Lemma deleteAgentTool_edges fuel i s : tool_node_ok i s → ∃ s', deleteAgentToolNodeById fuel i s = Some s' ∧
  edges_closed s' ∧ tool_edges i s' = [].
Proof.
  intros [Hcl Hone Hkind]. unfold deleteAgentToolNodeById.
  destruct (js_find _ (edges s)) as [e|] eqn:E.
  - apply js_find_Some in E as [Hin He]. set (s1 := deleteEdgeById (e_id e) s).
    assert (edges s1 = js_filter (λ d, e_id d !== e_id e) (edges s)) as Hes1 by done.
    assert (e ∈ tool_edges i s) as Het by (by apply elem_of_js_filter).
    assert (getOperatorTypeFromId (Some (target e)) s1 = getOperatorTypeFromId (Some (target e)) s) as Hop.
    { unfold s1, deleteEdgeById. destruct (js_find _ (edges s)) as [d|]; [|done].
      change (getOperatorTypeFromId ?j (setEdges ?es ?st)) with (getOperatorTypeFromId j st).
      destruct (getOperatorTypeFromId (Some (source d)) s === _); [apply updateSwitchFormData_operator|done]. }
    assert (node_ids s1 = node_ids s) as Hids.
    { unfold s1, deleteEdgeById. destruct (js_find _ (edges s)) as [d|]; [|done].
      change (node_ids (setEdges ?es ?st)) with (node_ids st).
      destruct (getOperatorTypeFromId (Some (source d)) s === _); [apply updateSwitchFormData_ids|done]. }
    assert (edges_closed s1) as Hcl1.
    { intros d Hd. rewrite Hes1 in Hd. apply elem_of_js_filter in Hd as [_ Hd]. rewrite Hids. by apply Hcl. }
    destruct (deleteNodeById_closed fuel (target e) s1) as (s' & Hs' & Hcl'); [rewrite Hop; by apply Hkind|done|].
    exists s'. split; [exact Hs'|]. split; [done|].
    rewrite deleteNodeById_plain in Hs' by (rewrite Hop; by apply Hkind).
    assert (edges s' = js_filter (λ d, (source d !== target e) && (target d !== target e)) (edges s1)) as Hes' by (by injection Hs' as <-).
    unfold tool_edges. rewrite Hes', Hes1, !js_filter_filter.
    apply js_filter_none. intros d Hd. destruct (decide (d = e)) as [->|Hne].
    { by rewrite (bool_decide_true (e_id e = e_id e)). }
    destruct ((source d === i) && (sourceHandle d === HId NodeHandleId.Tool)) eqn:Ed; [|by rewrite !andb_false_r].
    exfalso. assert (d ∈ tool_edges i s) as Hdt by (by apply elem_of_js_filter).
    destruct (tool_edges i s) as [|a [|b l]]; [by apply elem_of_nil in Hdt| |cbn in Hone; lia].
    apply list_elem_of_singleton in Hdt, Het. congruence.
  - exists s. split; [done|]. split; [done|]. unfold tool_edges. apply js_filter_none. intros d Hd.
    by apply (proj1 (js_find_None _ _) E).
Qed.

(** the tool node follows the tools.  After the effect of the tool list
    the agent has a tool node on the canvas exactly when it has a built-in
    tool or a server, never two, and no edge is left without its nodes. *)
Theorem tool_node_follows fuel k i n toolNames mcpIds s :
  getNode (Some i) s = Some n → i ≠ "" → tool_node_ok i s →
  ∃ s', popover_effect fuel k i toolNames mcpIds s = Some s' ∧ edges_closed s' ∧ length (tool_edges i s') ≤ 1 ∧
    (tool_edges i s' ≠ [] ↔ 0 < toolNames + mcpIds).
Proof.
  intros Hn Hi Hok. unfold popover_effect. rewrite (bool_decide_false (i = "")) by done. cbn [negb].
  case_bool_decide as Htotal.
  - eexists. split; [done|]. unfold addCanvasNode. set (ps := {| p_nodeId := Some i; p_position := Bottom; p_id := None; p_isFromConnectionDrag := false |}).
    set (m0 := new_canvas_node _ _ _ _ _ k Operator.Tool ps None s).
    pose proof (join_group_spec Operator.Tool ps m0 s) as Hj.
    destruct (join_group Operator.Tool ps m0 s) as [m s1]. destruct Hj as (Hm & _ & Hids & Hes & _).
    change (js_includes [Operator.Iteration; Operator.Loop] Operator.Tool) with false. cbn [andb]. 
    change (Operator.Tool === Operator.Agent) with false. change (Operator.Tool === Operator.Tool) with true. cbn [andb].
    assert (edges_closed s1) as Hcl1.
    { intros e He. rewrite Hids. apply (tn_closed _ _ Hok). by rewrite <-Hes. }
    assert (i ∈ node_ids s1) as Hin.
    { rewrite Hids. apply getNode_Some in Hn as [<- Hn]. apply elem_of_map. by exists n. }
    assert (∃ n1, getNode (Some i) s1 = Some n1) as [n1 Hn1] by (by apply node_of_id).
    pose proof (addToolNode_edges m i n1 s1 Hn1 Hi ltac:(rewrite Hm; apply tool_ne) Hcl1) as Hadd.
    change (p_nodeId ps) with (Some i).
    destruct (addToolNode m (Some i) s1) as [s'|]; cbn [fst].
    + destruct Hadd as (_ & Hids' & (e & He & _) & Hsub). rewrite He. split; [|split; [done|by split]].
      intros d [Hd|[Hds Hdt]]%Hsub; rewrite Hids'.
      * destruct (Hcl1 d Hd). set_solver.
      * rewrite Hds, Hdt. set_solver.
    + split; [done|]. rewrite (tool_edges_ext i s s1) in Hadd |- * by done. split; [apply (tn_one _ _ Hok)|by split].
  - destruct (deleteAgentTool_edges fuel i s Hok) as (s' & Hs' & Hcl' & Hnone). exists s'. split; [done|]. split; [done|].
    rewrite Hnone. split; [cbn; lia|]. split; [done|lia].
Qed.
End tool_node.

(** ** Concrete edits *)
#[export] Instance picker_impl : Picker := λ o ks, map (λ k, (k, obj_get k o)) (push_all [] (js_filter (λ k, obj_has k o) ks)).

Lemma picker_keys o ks : (picker_impl o ks).*1 = push_all [] (js_filter (λ k, obj_has k o) ks).
Proof. unfold picker_impl. rewrite <-list_fmap_compose. apply list_fmap_id. Qed.

#[export] Instance picker_impl_laws : PickerLaws picker_impl.
Proof.
  split.
  - intros o ks k. pose proof (picker_keys o ks) as Hkeys. unfold lo_pick.
    destruct (decide (k ∈ ks ∧ obj_has k o = true)) as [[Hk Ho]|Hno].
    + rewrite decide_True by done. apply obj_has_true in Ho as [v Hv]. rewrite Hv.
      apply obj_lookup_NoDup; [rewrite Hkeys; apply NoDup_push_all; constructor|].
      apply elem_of_map. exists k. unfold obj_get. rewrite Hv. split; [done|]. apply elem_of_push_all. right.
      apply elem_of_js_filter. split; [|done]. apply obj_has_true. by exists v.
    + assert (obj_lookup k (picker_impl o ks) = None) as ->.
      { apply obj_lookup_None. rewrite Hkeys. intros [Hin|Hin]%elem_of_push_all; [by apply elem_of_nil in Hin|].
        apply elem_of_js_filter in Hin as [Ho Hk]. by apply Hno. }
      case_decide as Hk; [|done]. destruct (obj_lookup k o) eqn:E; [|done]. exfalso. apply Hno. split; [done|].
      apply obj_has_true. by eexists.
  - intros o ks. change (NoDup (picker_impl o ks).*1). rewrite picker_keys. apply NoDup_push_all; constructor.
  - apply picker_keys.
Qed.

Module ToolCanvas.
Import Canvas.

Definition tool (c nm i : string) : val :=
  VObj [("component_name", VStr c); ("name", VStr nm); ("params", VObj []); ("id", VStr i)].

Definition tool_agent (i nm : string) (tools : list val) : Node :=
  mk_node i Operator.Agent nm None (VObj [("tools", VArr tools); ("mcp", VArr [])]).

Definition first : Node := tool_agent "Agent:a" "Agent_0" [tool "Bing" "Bing" "Bing:Old"].

Definition second : Node := tool_agent "Agent:b" "Agent_1" [].

Definition two_agents : RFState := setNodes [first; second] initial_state.

(** A renamed Retrieval tool. *)
Definition renamed : Node := tool_agent "Agent:a" "Agent_0" [tool "Retrieval" "Handbook" "Retrieval:Old"].
End ToolCanvas.

Lemma two_agents_inv : tools_inv ToolCanvas.two_agents.
Proof.
  constructor.
  - apply (bool_decide_unpack _). vm_compute. exact I.
  - intros n Hn _. cbn in Hn. by repeat (apply elem_of_cons in Hn as [->|Hn]; [eexists; split; reflexivity|]); apply elem_of_nil in Hn.
  - intros n t Hn _ Ht. cbn in Hn. apply elem_of_cons in Hn as [->|Hn].
    + cbn in Ht. apply list_elem_of_singleton in Ht as ->. by exists "Bing", "Bing", "Bing:Old".
    + apply list_elem_of_singleton in Hn as ->. by apply elem_of_nil in Ht.
  - intros n c Hn _ _. cbn in Hn. apply elem_of_cons in Hn as [->|Hn].
    + etrans; [apply js_filter_length|]. by cbn.
    + apply list_elem_of_singleton in Hn as ->. etrans; [apply js_filter_length|]. vm_compute. by constructor.
  - apply (bool_decide_unpack _). vm_compute. exact I.
Qed.


(** A Retrieval tool that was given a name without a number: the next one is
    called Retrieval_NaN, and so is the one after it. *)
Lemma retrieval_names_collide :
  ∃ s1 s2 k1 k2 n1 n2, updateNodeTools (λ _, VObj []) (λ k, pretty k) 9 0 ToolCanvas.renamed Operator.Retrieval
      (setNodes [ToolCanvas.renamed] initial_state) = Some (s1, k1) ∧
    getNode (Some "Agent:a") s1 = Some n1 ∧
    updateNodeTools (λ _, VObj []) (λ k, pretty k) 9 k1 n1 Operator.Retrieval s1 = Some (s2, k2) ∧
    getNode (Some "Agent:a") s2 = Some n2 ∧
    map (prop "name") (tools_of n2) = [VStr "Handbook"; VStr "Retrieval_NaN"; VStr "Retrieval_NaN"].
Proof. do 6 eexists. split; [vm_compute; reflexivity|]. split; [vm_compute; reflexivity|].
  split; [vm_compute; reflexivity|]. split; vm_compute; reflexivity. Qed.

Lemma tool_node_follows_witness :
  ∃ s', popover_effect (λ s, s) (λ _, VObj []) "" "" (λ k, pretty k) "0" "1" (VObj []) 0 0 "Agent:a" 1 0 ToolCanvas.two_agents = Some s' ∧
    edges_closed s' ∧ length (tool_edges "Agent:a" s') ≤ 1 ∧ (tool_edges "Agent:a" s' ≠ [] ↔ 0 < 1 + 0).
Proof.
  apply (tool_node_follows (λ s, s) (λ _, VObj []) "" "" (λ k, pretty k) "0" "1" (VObj []) 0 0 "Agent:a" ToolCanvas.first 1 0
    ToolCanvas.two_agents); [reflexivity|discriminate|].
  split; [intros e He; by apply elem_of_nil in He|vm_compute; lia|intros e He; by apply elem_of_nil in He].
Defined.
