(* ===== verification/Grouping.v ===== *)
(** * Grouping

    utils/list-filter-util.ts: the counted options of the filter bars of the
    agent, dataset, memory and message lists, with the hooks that build them
    (pages/agents/hooks/use-selelct-filters.ts, pages/memories/hooks.ts,
    pages/memory/memory-message/hook.ts, pages/datasets/use-select-owners.ts);
    and pages/dataset/knowledge-graph/util.ts: the combos in which the drawing
    of a knowledge graph collects its nodes. *)
From S2P Require Import Prelude JsValue.
Open Scope list_scope.
Open Scope nat_scope.
Open Scope js_scope.

(** ** Strict equality

    [a === b] on values of documents from the server: each array or object
    of a document is a new one, so it is equal to no other. *)
Definition scalar (v : val) : bool :=
  match v with VArr _ | VObj _ => false | VNum n => negb (num_isNaN n) | _ => true end.

Definition val_seq (a b : val) : bool := scalar a && (a === b).

Lemma val_seq_scalar a b : scalar a = true → val_seq a b = (a === b).
Proof. unfold val_seq. by intros ->. Qed.

(** ** Counted options *)
Record FilterType := { ft_id : val; ft_label : val; ft_count : nat }.

#[export] Instance FilterType_eq_dec : EqDecision FilterType.
Proof. solve_decision. Defined.

(** [item.count += 1] on the first item found, which the list shares. *)
Fixpoint count_up (id : val) (l : list FilterType) : list FilterType :=
  match l with
  | [] => []
  | y :: l' =>
      if val_seq (ft_id y) id
      then {| ft_id := ft_id y; ft_label := ft_label y; ft_count := ft_count y + 1 |} :: l'
      else y :: count_up id l'
  end.

(** The body of both loops: find the item and push or count. *)
Definition group_add (id label : val) (fileTypeList : list FilterType) : list FilterType :=
  match js_find (λ y, val_seq (ft_id y) id) fileTypeList with
  | None => fileTypeList ++ [{| ft_id := id; ft_label := label; ft_count := 1 |}]
  | Some _ => count_up id fileTypeList
  end.

Definition groupListByType (items : list obj) (idField labelField : string) : list FilterType :=
  foldl (λ acc x, group_add (obj_get idField x) (obj_get labelField x) acc) [] items.

Definition groupListByArray (items : list obj) (idField : string) : list FilterType :=
  foldl (λ acc x,
    match obj_get idField x with
    | VArr js => foldl (λ acc j, group_add j j acc) acc js
    | _ => acc
    end) [] items.

Record FilterCollection := { fc_field : string; fc_list : list FilterType; fc_label : string }.

(** [nickName || 'nickname'] *)
Definition buildOwnersFilter (items : list obj) (nickName : option string) : FilterCollection :=
  {| fc_field := "owner";
     fc_list := groupListByType items "tenant_id"
       (match nickName with Some ((String _ _) as s) => s | _ => "nickname" end);
     fc_label := "Owner" |}.

(** *** The filter bars, on the list of the last reply *)
Definition agents_filters (canvas : list obj) : list FilterCollection :=
  [buildOwnersFilter canvas None;
   {| fc_field := "canvasCategory"; fc_list := groupListByType canvas "canvas_category" "canvas_category";
      fc_label := "Canvas category" |}].

Definition memories_filters (memory_list : list obj) : list FilterCollection :=
  [buildOwnersFilter memory_list (Some "owner_name");
   {| fc_field := "memoryType"; fc_list := groupListByArray memory_list "memory_type"; fc_label := "Memory Type" |};
   {| fc_field := "storageType"; fc_list := groupListByType memory_list "storage_type" "storage_type";
      fc_label := "Storage Type" |}].

Definition messages_filters (message_list : list obj) : list FilterCollection :=
  [{| fc_field := "agentId"; fc_list := groupListByType message_list "agent_id" "agent_name"; fc_label := "Agent" |}].

(** ** Combos of a knowledge graph

    A combo is an object of its own; [isCombo] is missing in the default one,
    which has its label also outside [data]. *)
Record combo := { co_isCombo : bool; co_id : string; co_label : val }.

Definition defaultComboLabel : string := "defaultCombo".

(** [Array.isArray(x?.communities) ? communities[0] : undefined] *)
Definition findCombo (communities : val) : val :=
  match communities with VArr (c :: _) => c | _ => VUndef end.

Section combos.

(** uuid.v4, the words it draws in a pass *)
Context (uuid : nat → string).

(** [combos.push({... id: uuid() ...})] *)
Definition add_combo (combos : list combo) (x : val) : list combo :=
  let c := findCombo (prop "communities" x) in
  if truthy c && js_every (λ y, negb (val_seq (co_label y) c)) combos
  then combos ++ [{| co_isCombo := true; co_id := uuid (length combos); co_label := c |}]
  else combos.

Definition node_combo (combos : list combo) (x : val) : val :=
  of_ostr (co_id <$> js_find (λ y, val_seq (co_label y) (findCombo (prop "communities" x))) combos).

Definition buildNodesAndCombos (nodes : list val) : list obj * list combo :=
  let combos := foldl add_combo [] nodes in
  let nextNodes := map (λ x, obj_set "combo" (node_combo combos x) (obj_assign [] (obj_of_val x))) nodes in
  (nextNodes,
   if combos is [] then [{| co_isCombo := false; co_id := uuid 0; co_label := VStr defaultComboLabel |}] else combos).

End combos.

(** [isDataExist] with lodash's [isEmpty] on a JSON value *)
Definition json_isEmpty (v : val) : bool :=
  match v with VObj o => o === [] | VArr l => l === [] | VStr s => s === "" | _ => true end.

Definition isDataExist (data : val) : bool :=
  truthy (prop "data" data) && (typeof (prop "data" data) !== "boolean") &&
  negb (json_isEmpty (prop "graph" (prop "data" data))).

(** ** Grouping is counting

    The reference: one option per identifier, in the order of their first
    occurrences, labelled as there, with the number of occurrences. *)
Definition occurrence : Type := val * val.

Definition occurrences_by_type (items : list obj) (idField labelField : string) : list occurrence :=
  map (λ x, (obj_get idField x, obj_get labelField x)) items.

Definition occurrences_by_array (items : list obj) (idField : string) : list occurrence :=
  x ← items; j ← arr_of_val (obj_get idField x); [(j, j)].

Definition label_of (occ : list occurrence) (id : val) : val :=
  default VUndef (snd <$> js_find (λ o, o.1 === id) occ).

Definition count_of (occ : list occurrence) (id : val) : nat := length (js_filter (λ o, o.1 === id) occ).

Definition counted (occ : list occurrence) : list FilterType :=
  map (λ id, {| ft_id := id; ft_label := label_of occ id; ft_count := count_of occ id |}) (push_all [] occ.*1).

Definition group_all (occ : list occurrence) : list FilterType :=
  foldl (λ acc o, group_add o.1 o.2 acc) [] occ.

Lemma groupListByType_all items idField labelField :
  groupListByType items idField labelField = group_all (occurrences_by_type items idField labelField).
Proof.
  unfold groupListByType, group_all, occurrences_by_type. generalize (@nil FilterType).
  induction items as [|x items IH]; intros acc; [done|]. apply IH.
Qed.

Lemma groupListByArray_all items idField :
  groupListByArray items idField = group_all (occurrences_by_array items idField).
Proof.
  unfold groupListByArray, group_all, occurrences_by_array. generalize (@nil FilterType).
  induction items as [|x items IH]; intros acc; [done|]. csimpl. rewrite IH, foldl_app. f_equal.
  destruct (obj_get idField x) as [| | | | |js|]; try done. simpl. clear IH. revert acc.
  induction js as [|j js IH]; intros acc; [done|]. csimpl. apply IH.
Qed.

Definition scalars (occ : list occurrence) : Prop := Forall (λ o, scalar o.1 = true) occ.

Lemma count_of_snoc occ o id : count_of (occ ++ [o]) id = count_of occ id + (if o.1 === id then 1 else 0).
Proof.
  unfold count_of. rewrite js_filter_app, length_app. f_equal. rewrite js_filter_cons. by destruct (o.1 === id).
Qed.

Lemma label_of_snoc occ o id : id ∈ occ.*1 → label_of (occ ++ [o]) id = label_of occ id.
Proof.
  intros Hin. unfold label_of. induction occ as [|p occ IH]; [set_solver|]. simpl. unfold js_find in *. simpl.
  destruct (bool_decide_reflect (p.1 = id)) as [|Hne]; [done|]. apply IH. set_solver.
Qed.

Lemma label_of_new occ o : o.1 ∉ occ.*1 → label_of (occ ++ [o]) o.1 = o.2.
Proof.
  intros Hin. unfold label_of. induction occ as [|p occ IH]; unfold js_find in *; simpl in *.
  - by rewrite bool_decide_true.
  - rewrite bool_decide_false by set_solver. apply IH. set_solver.
Qed.

Lemma count_of_none occ id : id ∉ occ.*1 → count_of occ id = 0.
Proof.
  intros Hin. unfold count_of. rewrite js_filter_none; [done|]. intros o Ho. apply bool_decide_eq_false.
  intros <-. apply Hin. by apply list_elem_of_fmap_2.
Qed.

Lemma count_up_map id (f g : val → FilterType) ids :
  (∀ i, ft_id (f i) = i) → Forall (λ i, scalar i = true) ids → NoDup ids →
  (∀ i, i ∈ ids → i ≠ id → g i = f i) →
  g id = {| ft_id := id; ft_label := ft_label (f id); ft_count := ft_count (f id) + 1 |} →
  id ∈ ids → count_up id (map f ids) = map g ids.
Proof.
  intros Hf Hs Hnd Hne Heq. induction ids as [|i ids IH]; [set_solver|]. intros Hin. simpl.
  rewrite Hf. apply Forall_cons in Hs as [Hi Hs]. apply NoDup_cons in Hnd as [Hni Hnd].
  rewrite (val_seq_scalar _ _ Hi). destruct (bool_decide_reflect (i = id)) as [->|Hi'].
  - rewrite Heq. f_equal. apply map_ext_in. intros j Hj%list_elem_of_In. symmetry. apply Hne; [set_solver|].
    by intros ->.
  - rewrite Hne by set_solver. f_equal. apply IH; [done..| |set_solver]. intros j ? ?. apply Hne; set_solver.
Qed.

Lemma find_counted occ id : scalars occ →
  js_find (λ y, val_seq (ft_id y) id) (counted occ) = None ↔ id ∉ occ.*1.
Proof.
  intros Hs. rewrite js_find_None. unfold counted. split.
  - intros H Hin. specialize (H {| ft_id := id; ft_label := label_of occ id; ft_count := count_of occ id |}).
    rewrite val_seq_scalar in H.
    + rewrite bool_decide_true in H by done. discriminate H. apply list_elem_of_fmap. exists id.
      split; [done|]. apply elem_of_push_all. by right.
    + apply list_elem_of_fmap in Hin as (o & -> & Ho). by apply (proj1 (Forall_forall _ _) Hs).
  - intros Hin y Hy. apply list_elem_of_fmap in Hy as (i & -> & Hi). simpl.
    unfold val_seq. apply andb_false_intro2, bool_decide_eq_false. intros ->.
    apply elem_of_push_all in Hi. set_solver.
Qed.

Lemma scalars_ids occ : scalars occ → Forall (λ i, scalar i = true) (push_all [] occ.*1).
Proof.
  intros Hs. apply Forall_forall. intros i Hi. apply elem_of_push_all in Hi as [Hi|Hi]; [set_solver|].
  apply list_elem_of_fmap in Hi as (o & -> & Ho). by apply (proj1 (Forall_forall _ _) Hs).
Qed.

Lemma group_all_counted occ : scalars occ → group_all occ = counted occ.
Proof.
  induction occ as [|o occ IH] using rev_ind; [done|]. intros [Hs Ho]%Forall_app. apply Forall_inv in Ho.
  unfold group_all in *. rewrite foldl_app. simpl. rewrite IH by done. unfold group_add.
  destruct (js_find _ _) eqn:E.
  - assert (o.1 ∈ occ.*1) as Hin.
    { destruct (decide (o.1 ∈ occ.*1)) as [|Hn]; [done|]. apply (find_counted _ _ Hs) in Hn. congruence. }
    unfold counted. rewrite fmap_app, push_all_app. change (push_all ?l ([o].*1)) with (push_new l o.1).
    rewrite push_new_eq, decide_True by (apply elem_of_push_all; by right).
    apply count_up_map; [done|by apply scalars_ids|apply NoDup_push_all; constructor| | |].
    + intros i Hi Hne. apply elem_of_push_all in Hi as [Hi|Hi]; [set_solver|].
      by rewrite label_of_snoc, count_of_snoc, bool_decide_false, Nat.add_0_r.
    + by rewrite label_of_snoc, count_of_snoc, bool_decide_true.
    + apply elem_of_push_all. by right.
  - apply (find_counted _ _ Hs) in E. unfold counted. rewrite fmap_app, push_all_app.
    change (push_all ?l ([o].*1)) with (push_new l o.1).
    rewrite push_new_eq, decide_False by (rewrite elem_of_push_all; set_solver). rewrite map_app. f_equal.
    + apply map_ext_in. intros i Hi%list_elem_of_In. apply elem_of_push_all in Hi as [Hi|Hi]; [set_solver|].
      by rewrite label_of_snoc, count_of_snoc, bool_decide_false, Nat.add_0_r by set_solver.
    + simpl. by rewrite label_of_new, count_of_snoc, bool_decide_true, count_of_none.
Qed.

(** The counts of all identifiers add up to the occurrences. *)
Lemma count_of_cons o occ id : count_of (o :: occ) id = (if o.1 === id then 1 else 0) + count_of occ id.
Proof. unfold count_of. rewrite js_filter_cons. by destruct (o.1 === id). Qed.

Lemma sum_counts occ ids : NoDup ids → (∀ o, o ∈ occ → o.1 ∈ ids) →
  sum_list (map (count_of occ) ids) = length occ.
Proof.
  intros Hnd. induction occ as [|o occ IH]; intros Hin.
  - clear. induction ids; simpl; [done|]. unfold count_of at 1. done.
  - cbn [length]. rewrite <-(IH ltac:(set_solver)).
    assert (∀ ids, NoDup ids → sum_list (map (count_of (o :: occ)) ids) =
      (if bool_decide (o.1 ∈ ids) then 1 else 0) + sum_list (map (count_of occ) ids)) as H;
      [|rewrite H, bool_decide_true by set_solver; done].
    clear. induction ids as [|i ids IH]; intros Hnd; [done|]. apply NoDup_cons in Hnd as [Hi Hnd].
    cbn [map sum_list]. simpl. rewrite count_of_cons, IH by done.
    destruct (bool_decide_reflect (o.1 = i)) as [<-|Hne].
    + rewrite bool_decide_false by done. rewrite bool_decide_true by set_solver. lia.
    + rewrite (bool_decide_ext (o.1 ∈ i :: ids) (o.1 ∈ ids)) by set_solver. lia.
Qed.

Lemma counted_ids occ : ft_id <$> counted occ = push_all [] occ.*1.
Proof. unfold counted. change (map ?f ?l) with (f <$> l). rewrite <-list_fmap_compose. apply list_fmap_id. Qed.

Lemma counted_NoDup occ : NoDup (ft_id <$> counted occ).
Proof. rewrite counted_ids. apply NoDup_push_all. constructor. Qed.

Lemma counted_total occ : sum_list (ft_count <$> counted occ) = length occ.
Proof.
  unfold counted. change (map ?f ?l) with (f <$> l). rewrite <-list_fmap_compose. apply sum_counts.
  - apply NoDup_push_all. constructor.
  - intros o Ho. apply elem_of_push_all. right. by apply list_elem_of_fmap_2.
Qed.

(** The options of a filter bar are exactly the counted reference: one
    option per identifier, in the order and with the label of its first
    occurrence, counting its occurrences; no identifier has two options and
    the counts add up to the number of occurrences.  For the lists grouped by
    a field ([groupListByType]) and by the elements of an array field
    ([groupListByArray]) alike. *)
Theorem groups_counted items idField labelField arrField :
  (∀ x, x ∈ items → scalar (obj_get idField x) = true) →
  (∀ x j, x ∈ items → j ∈ arr_of_val (obj_get arrField x) → scalar j = true) →
  groupListByType items idField labelField = counted (occurrences_by_type items idField labelField) ∧
  groupListByArray items arrField = counted (occurrences_by_array items arrField) ∧
  NoDup (ft_id <$> groupListByType items idField labelField) ∧
  NoDup (ft_id <$> groupListByArray items arrField) ∧
  sum_list (ft_count <$> groupListByType items idField labelField) = length items ∧
  sum_list (ft_count <$> groupListByArray items arrField) =
    sum_list ((λ x, length (arr_of_val (obj_get arrField x))) <$> items).
Proof.
  intros Hid Harr.
  assert (scalars (occurrences_by_type items idField labelField)) as Ht.
  { apply Forall_forall. intros o Ho. apply list_elem_of_fmap in Ho as (x & -> & Hx). by apply Hid. }
  assert (scalars (occurrences_by_array items arrField)) as Ha.
  { apply Forall_forall. intros o Ho. unfold occurrences_by_array in Ho.
    apply list_elem_of_bind in Ho as (x & Ho & Hx). apply list_elem_of_bind in Ho as (j & Ho & Hj).
    apply list_elem_of_singleton in Ho as ->. by eapply Harr. }
  rewrite groupListByType_all, groupListByArray_all, !group_all_counted by done.
  split; [done|]. split; [done|]. split; [apply counted_NoDup|]. split; [apply counted_NoDup|].
  rewrite !counted_total. split; [apply length_map|].
  unfold occurrences_by_array. clear. induction items as [|x items IH]; [done|]. csimpl.
  etrans; [apply length_app|]. f_equal; [|exact IH]. clear. induction (arr_of_val _) as [|j js IH]; [done|]. csimpl. by rewrite IH.
Qed.

Definition two_agents : list obj :=
  [[("tenant_id", VStr "t"); ("nickname", VStr "ann"); ("tags", VArr [VStr "a"; VStr "b"])];
   [("tenant_id", VStr "u"); ("nickname", VStr "bob"); ("tags", VArr [VStr "b"])];
   [("tenant_id", VStr "t"); ("nickname", VStr "eve"); ("tags", VNull)]].

Lemma groups_counted_witness :
  (∀ x, x ∈ two_agents → scalar (obj_get "tenant_id" x) = true) ∧
  groupListByType two_agents "tenant_id" "nickname" =
    [{| ft_id := VStr "t"; ft_label := VStr "ann"; ft_count := 2 |};
     {| ft_id := VStr "u"; ft_label := VStr "bob"; ft_count := 1 |}] ∧
  sum_list (ft_count <$> groupListByArray two_agents "tags") = 3.
Proof.
  assert (∀ x, x ∈ two_agents → scalar (obj_get "tenant_id" x) = true) as H1.
  { intros x Hx. repeat (apply elem_of_cons in Hx as [->|Hx]; [reflexivity|]). by apply elem_of_nil in Hx. }
  split; [exact H1|]. split; [vm_compute; reflexivity|].
  apply (groups_counted two_agents "tenant_id" "nickname" "tags" H1).
  intros x j Hx Hj. repeat (apply elem_of_cons in Hx as [->|Hx]).
  - repeat (apply elem_of_cons in Hj as [->|Hj]; [reflexivity|]). by apply elem_of_nil in Hj.
  - repeat (apply elem_of_cons in Hj as [->|Hj]; [reflexivity|]). by apply elem_of_nil in Hj.
  - by apply elem_of_nil in Hj.
  - by apply elem_of_nil in Hx.
Defined.

(** ** Combos collect the nodes of a community *)
Section combos_spec.
Context (uuid : nat → string) `{!Inj (=) (=) uuid}.

Definition community (x : val) : val := findCombo (prop "communities" x).

Definition combos_ok (cs : list combo) : Prop :=
  (co_id <$> cs = uuid <$> seq 0 (length cs)) ∧ NoDup (co_label <$> cs) ∧
  Forall (λ c, co_isCombo c = true ∧ truthy (co_label c) = true ∧ scalar (co_label c) = true) cs.

Lemma combos_every cs v : combos_ok cs →
  js_every (λ y, negb (val_seq (co_label y) v)) cs = true ↔ v ∉ co_label <$> cs.
Proof.
  intros (_ & _ & Hf). rewrite js_every_true. split.
  - intros H (c & -> & Hc)%list_elem_of_fmap. specialize (H c Hc). rewrite val_seq_scalar in H.
    + by rewrite bool_decide_true in H.
    + rewrite Forall_forall in Hf. by apply (Hf c).
  - intros H c Hc. apply negb_true_iff, andb_false_intro2, bool_decide_eq_false. intros <-.
    apply H. by apply list_elem_of_fmap_2.
Qed.

Lemma add_combo_labels cs x : combos_ok cs → scalar (community x) = true →
  combos_ok (add_combo uuid cs x) ∧
  (∀ v, v ∈ co_label <$> add_combo uuid cs x ↔ v ∈ co_label <$> cs ∨ (truthy v = true ∧ v = community x)).
Proof.
  intros Hok Hs. unfold add_combo. fold (community x). destruct (truthy (community x)) eqn:Ht; simpl.
  2:{ split; [done|]. intros v. split; [by left|]. intros [H|[H ->]]; [done|congruence]. }
  destruct (js_every _ cs) eqn:E.
  - apply (combos_every _ _ Hok) in E. destruct Hok as (Hid & Hnd & Hf). split.
    + repeat split.
      * rewrite length_app, Nat.add_1_r, seq_S, !fmap_app, Hid. done.
      * rewrite fmap_app. apply NoDup_app. split; [done|]. split; [set_solver|]. apply NoDup_singleton.
      * apply Forall_app. split; [done|]. by constructor.
    + intros v. rewrite fmap_app, elem_of_app. csimpl. rewrite list_elem_of_singleton. naive_solver.
  - apply not_true_iff_false in E. rewrite (combos_every _ _ Hok) in E. split; [done|].
    intros v. split; [by left|]. intros [H|[_ ->]]; [done|]. by destruct (decide (community x ∈ co_label <$> cs)).
Qed.

Lemma all_combos nodes cs : combos_ok cs → Forall (λ x, scalar (community x) = true) nodes →
  combos_ok (foldl (add_combo uuid) cs nodes) ∧
  (∀ v, v ∈ co_label <$> foldl (add_combo uuid) cs nodes ↔
        v ∈ co_label <$> cs ∨ (truthy v = true ∧ v ∈ map community nodes)).
Proof.
  intros Hok Hs. revert cs Hok. induction Hs as [|x nodes Hx _ IH]; intros cs Hok.
  - split; [done|]. intros v. simpl. set_solver.
  - destruct (add_combo_labels cs x Hok Hx) as [Hok' Hl]. destruct (IH _ Hok') as [Hok'' Hl'].
    split; [done|]. intros v. simpl. rewrite Hl', Hl, elem_of_cons. naive_solver.
Qed.

Lemma node_combo_spec cs x : combos_ok cs → 
  match node_combo cs x with
  | VStr i => ∃ c, c ∈ cs ∧ co_label c = community x ∧ co_id c = i
  | VUndef => community x ∉ co_label <$> cs
  | _ => False
  end.
Proof.
  intros (_ & _ & Hf). unfold node_combo. fold (community x). destruct (js_find _ cs) as [c|] eqn:E; simpl.
  - apply js_find_Some in E as [Hc Hx]. exists c. unfold val_seq in Hx. apply andb_true_iff in Hx as [_ Hx].
    by apply bool_decide_eq_true in Hx.
  - intros (c & Hl & Hc)%list_elem_of_fmap. rewrite js_find_None in E. specialize (E c Hc).
    rewrite Forall_forall in Hf. destruct (Hf c Hc) as (_ & _ & Hs). rewrite val_seq_scalar in E by done.
    rewrite Hl in E. by rewrite bool_decide_true in E.
Qed.

Definition placed (cs : list combo) (x : val) (n : obj) : Prop :=
  (∀ k, k ≠ "combo" → obj_lookup k n = obj_lookup k (obj_of_val x)) ∧
  (if truthy (community x)
   then ∃ c, c ∈ cs ∧ co_label c = community x ∧ co_isCombo c = true ∧ obj_lookup "combo" n = Some (VStr (co_id c))
   else obj_lookup "combo" n = Some VUndef).

Lemma nodes_placed nodes cs : combos_ok cs →
  (∀ v, v ∈ co_label <$> cs ↔ truthy v = true ∧ v ∈ map community nodes) →
  Forall (λ x, scalar (community x) = true ∧ obj_wf (obj_of_val x)) nodes →
  Forall2 (placed cs) nodes
    (map (λ x, obj_set "combo" (node_combo cs x) (obj_assign [] (obj_of_val x))) nodes).
Proof.
  intros Hok Hl' Hn. pose proof Hok as (_ & _ & Hf).
  apply Forall2_same_length_lookup. split; [by rewrite length_map|].
  intros i x n Hi. change (map ?f ?l) with (f <$> l). rewrite list_lookup_fmap, Hi. intros [= <-].
  rewrite Forall_forall in Hn. destruct (Hn x) as [_ Hwf]; [by eapply list_elem_of_lookup_2|]. split.
  - intros k Hk. rewrite obj_lookup_set_ne, obj_assign_lookup by done. by destruct (obj_lookup k _).
  - rewrite obj_lookup_set_eq. pose proof (node_combo_spec cs x Hok) as Hc.
    destruct (truthy (community x)) eqn:Ht; destruct (node_combo cs x) as [| | | |s| |]; try done.
    + destruct Hc. apply Hl'. split; [done|]. apply list_elem_of_fmap_2. by eapply list_elem_of_lookup_2.
    + destruct Hc as (c & Hc & Hlc & <-). exists c. rewrite Forall_forall in Hf. by destruct (Hf c Hc).
    + destruct Hc as (c & Hc & Hlc & <-). rewrite Forall_forall in Hf. destruct (Hf c Hc) as (_ & H & _). congruence.
Qed.

(** Every node of the graph keeps its properties and points with its
    combo to the one drawn for its first community, nodes without a community
    to none; combos have distinct identifiers and labels, each has a node,
    two nodes share a combo exactly when they share their first community,
    and there is at least one combo, the default one when no node has a
    community. *)
Theorem combos_partition nodes :
  Forall (λ x, scalar (community x) = true ∧ obj_wf (obj_of_val x)) nodes →
  let '(ns, cs) := buildNodesAndCombos uuid nodes in
  cs ≠ [] ∧ NoDup (co_id <$> cs) ∧ NoDup (co_label <$> cs) ∧
  (∀ c, c ∈ cs → co_isCombo c = true → ∃ x, x ∈ nodes ∧ community x = co_label c) ∧
  Forall2 (placed cs) nodes ns ∧
  (js_every (λ x, negb (truthy (community x))) nodes = true →
   cs = [{| co_isCombo := false; co_id := uuid 0; co_label := VStr defaultComboLabel |}]).
Proof.
  intros Hn. unfold buildNodesAndCombos.
  destruct (all_combos nodes []) as [Hok Hl].
  { repeat split; constructor. }
  { eapply Forall_impl; [exact Hn|]. by intros x []. }
  set (cs := foldl (add_combo uuid) [] nodes) in *.
  assert (∀ v, v ∈ co_label <$> cs ↔ truthy v = true ∧ v ∈ map community nodes) as Hl'.
  { intros v. rewrite Hl. set_solver. }
  pose proof Hok as (Hid & Hnd & Hf).
  pose proof (nodes_placed nodes cs Hok Hl' Hn) as Hnodes.
  assert (js_every (λ x, negb (truthy (community x))) nodes = true → cs = []) as Hdef.
  { intros He. destruct cs as [|c cs']; [done|]. destruct (proj1 (Hl' (co_label c))) as [Ht Hin]; [set_solver|].
    apply list_elem_of_fmap in Hin as (x & Hx & Hxn). rewrite js_every_true in He. specialize (He x Hxn).
    rewrite <-Hx, Ht in He. done. }
  destruct cs as [|c0 cs'] eqn:Ecs.
  - split; [done|]. split; [apply NoDup_singleton|]. split; [apply NoDup_singleton|].
    split; [by intros c ->%list_elem_of_singleton|]. split; [|done].
    eapply Forall2_impl; [exact Hnodes|]. intros x n [H1 H2]. split; [done|].
    destruct (truthy (community x)); [|done]. destruct H2 as (c & Hc & _). by apply elem_of_nil in Hc.
  - split; [done|]. split; [rewrite Hid; apply (NoDup_fmap_2 uuid), NoDup_seq|]. split; [done|].
    split; [|split; [done|]].
    + intros c Hc _. destruct (proj1 (Hl' (co_label c))) as [_ Hin]; [by apply list_elem_of_fmap_2|].
      apply list_elem_of_fmap in Hin as (x & Hx & Hxn). by exists x.
    + intros He. by specialize (Hdef He).
Qed.
End combos_spec.

Definition graph_nodes : list val :=
  [VObj [("id", VStr "a"); ("communities", VArr [VStr "x"; VStr "y"])];
   VObj [("id", VStr "b"); ("communities", VArr [])];
   VObj [("id", VStr "c"); ("communities", VArr [VStr "x"])]].

Lemma combos_partition_witness :
  snd (buildNodesAndCombos pretty graph_nodes) =
    [{| co_isCombo := true; co_id := "0"; co_label := VStr "x" |}] ∧
  Forall2 (placed (snd (buildNodesAndCombos pretty graph_nodes))) graph_nodes
    (fst (buildNodesAndCombos pretty graph_nodes)).
Proof.
  split; [vm_compute; reflexivity|].
  assert (Forall (λ x, scalar (community x) = true ∧ obj_wf (obj_of_val x)) graph_nodes) as H.
  { repeat constructor; apply (bool_decide_unpack _); vm_compute; exact I. }
  pose proof (combos_partition pretty graph_nodes H) as Hp.
  destruct (buildNodesAndCombos pretty graph_nodes) as [ns cs]. apply Hp.
Defined.
