(* ===== verification/FilterBar.v ===== *)
(** * The filter bar

    components/list-filter-bar: the popover with the options of a list
    (filter-popover.tsx, filter-field.tsx), the value it submits and its
    check against the options offered (use-handle-filter-submit.ts), the
    number on its button (index.tsx); and its use for the documents of a
    dataset: the options built from the server's counts
    (pages/dataset/dataset/use-select-filters.ts) and the request for the list
    (useFetchDocumentList of hooks/use-document-request.ts). *)
From S2P Require Import Prelude JsValue Search.
From Stdlib Require Import Ascii.
Open Scope list_scope.
Open Scope nat_scope.
Open Scope js_scope.

(** ** Values of the form

    react-hook-form reads and writes the values of a form by names; a name of
    two parts joined by a dot is a property of a property. *)
Class FormPaths := {
  form_get : val → string → val;
  form_set : val → string → val → val
}.

Definition plain_name (n : string) : bool :=
  (n !== "") && js_every (λ a, js_every (λ b, a !== b) (["."; "["; "]"; "'"; "|"]%char ++ [ascii_of_nat 34])) (String.list_ascii_of_string n).

(** A part that is a number would make the outer property an array. *)
Definition key_name (n : string) : bool := plain_name n && num_isNaN (num_of_string n).

Class FormPathsLaws (F : FormPaths) : Prop := {
  form_get_plain o n : plain_name n = true → form_get (VObj o) n = obj_get n o;
  form_set_plain o n v : plain_name n = true → form_set (VObj o) n v = VObj (obj_set n v o);
  form_get_nested o n m : plain_name n = true → plain_name m = true →
    form_get (VObj o) (n +:+ "." +:+ m) = prop m (obj_get n o);
  form_set_nested o n m v : plain_name n = true → key_name m = true →
    (is_undef (obj_get n o) = true ∨ ∃ p, obj_get n o = VObj p) →
    form_set (VObj o) (n +:+ "." +:+ m) v = VObj (obj_set n (VObj (obj_set m v (obj_of_val (obj_get n o)))) o)
}.

(** ** Options

    An option with a [list] is a group of options. *)
#[warnings="-register-all"]
Inductive filter_type :=
  | FT (id : string) (field : option string) (label : string) (count : val) (sub : option (list filter_type)).

Definition fb_id (f : filter_type) : string := let '(FT i _ _ _ _) := f in i.
Definition fb_field (f : filter_type) : option string := let '(FT _ d _ _ _) := f in d.
Definition fb_label (f : filter_type) : string := let '(FT _ _ l _ _) := f in l.
Definition fb_list (f : filter_type) : option (list filter_type) := let '(FT _ _ _ _ s) := f in s.

(** A collection, with the [id] it is given where it is used as an option. *)
Record collection := {
  cl_field : string;
  cl_label : string;
  cl_list : option (list filter_type);
  cl_canSearch : bool
}.

(** [item.list && item.list.length > 0] *)
Definition has_nested (f : filter_type) : bool :=
  match fb_list f with Some (_ :: _) => true | _ => false end.

(** *** The search in the options *)
Fixpoint filterNestedList_item (term : string) (item : filter_type) : bool :=
  str_includes term (to_lower (fb_label item)) || str_includes term (to_lower (fb_id item)) ||
  match item with
  | FT _ _ _ _ (Some ((_ :: _) as l)) =>
      (fix any (l : list filter_type) : bool :=
         match l with [] => false | x :: l' => filterNestedList_item term x || any l' end) l
  | _ => false
  end.

Definition filterNestedList (l : list filter_type) (searchTerm : string) : list filter_type :=
  if searchTerm === "" then l else js_filter (filterNestedList_item (to_lower searchTerm)) l.

(** [searchTerms[field]] *)
Definition getFilteredFilters (searchTerms : obj) (originalFilters : list collection) : list collection :=
  map (λ f,
    match obj_get (cl_field f) searchTerms with
    | VStr ((String _ _) as t) =>
        if cl_canSearch f
        then {| cl_field := cl_field f; cl_label := cl_label f;
                cl_list := (λ l, filterNestedList l t) <$> cl_list f; cl_canSearch := cl_canSearch f |}
        else f
    | _ => f
    end) originalFilters.

(** [filterList] and [notInfilterGroup] *)
Definition filterList (filterGroup : list (string * list string)) : list string :=
  push_all [] (concat filterGroup.*2).

Definition notInfilterGroup (filterGroup : list (string * list string)) (filters : list collection) : list collection :=
  js_filter (λ x, negb (js_includes (filterList filterGroup) (cl_field x))) filters.

(** The empty selection: an object for a collection with groups. *)
Definition fieldsDict (filters : list collection) : obj :=
  foldl (λ pre cur,
    obj_set (cl_field cur)
      (if js_some has_nested (default [] (cl_list cur)) then VObj [] else VArr []) pre) [] filters.

(** *** Checking an option *)
Definition without (id : string) (l : list val) : list val := js_filter (λ v, v !== VStr id) l.

Definition handleCheckChange (checked : bool) (value : val) (id : string)
    (isNestedField : bool) (parentId : string) : val :=
  if isNestedField && (parentId !== "") then
    let currentValue := obj_of_val value in
    let current := arr_of_val (obj_get parentId currentValue) in
    let newParentValues := if checked then current ++ [VStr id] else without id current in
    match newParentValues with
    | [] => VObj (obj_assign [] currentValue)
    | _ => VObj (obj_set parentId (VArr newParentValues) (obj_assign [] currentValue))
    end
  else VArr (if checked then arr_of_val value ++ [VStr id] else without id (arr_of_val value)).

Definition includes (value : val) (id : string) : bool :=
  match value with VArr l => js_includes l (VStr id) | _ => false end.

Section bar.
Context {F : FormPaths}.

(** A click on the box of an option under the form's [name]. *)
Definition click_item (name id : string) (form : val) : val :=
  let value := form_get form name in
  form_set form name (handleCheckChange (negb (includes value id)) value id false "").

(** The name of the form under which the options of a group are kept. *)
Definition group_name (parent : string) (item : filter_type) : string :=
  parent +:+ "." +:+ default "undefined" (fb_field item).

(** ** The state: the submitted value and the page of the list, the form of
    the popover and the terms searched in it. *)
Record bar := {
  fb_value : val;
  fb_paging : paging;
  fb_open : bool;
  fb_form : val;
  fb_searchTerms : obj
}.

(** [handleFilterSubmit]; both callers also close the popover. *)
Definition handleFilterSubmit (value : val) (b : bar) : bar :=
  {| fb_value := value; fb_paging := setCurrentPagination (num_of_Z 1) None (fb_paging b);
     fb_open := fb_open b; fb_form := fb_form b; fb_searchTerms := fb_searchTerms b |}.

Definition close (b : bar) : bar :=
  {| fb_value := fb_value b; fb_paging := fb_paging b; fb_open := false;
     fb_form := fb_form b; fb_searchTerms := [] |}.

(** The effect on the value and the options: [form.reset(value || fieldsDict)]. *)
Definition reset_effect (filters : list collection) (b : bar) : bar :=
  match filters with
  | [] => b
  | _ => {| fb_value := fb_value b; fb_paging := fb_paging b; fb_open := fb_open b;
            fb_form := js_or (fb_value b) (VObj (fieldsDict filters)); fb_searchTerms := fb_searchTerms b |}
  end.

(** Opening mounts the form with its default values and runs the effect. *)
Definition open_popover (filters : list collection) (b : bar) : bar :=
  reset_effect filters
    {| fb_value := fb_value b; fb_paging := fb_paging b; fb_open := true;
       fb_form := VObj (fieldsDict filters); fb_searchTerms := [] |}.

Definition click (name id : string) (b : bar) : bar :=
  {| fb_value := fb_value b; fb_paging := fb_paging b; fb_open := fb_open b;
     fb_form := click_item name id (fb_form b); fb_searchTerms := fb_searchTerms b |}.

Definition handleSearchChange (field value : string) (b : bar) : bar :=
  {| fb_value := fb_value b; fb_paging := fb_paging b; fb_open := fb_open b; fb_form := fb_form b;
     fb_searchTerms := obj_set field (VStr value) (obj_assign [] (fb_searchTerms b)) |}.

(** [onChange?.({ ...formValues }); setOpen(false)] *)
Definition onSubmit (b : bar) : bar :=
  close (handleFilterSubmit (VObj (obj_assign [] (obj_of_val (fb_form b)))) b).

Definition onReset (filters : list collection) (b : bar) : bar :=
  close (handleFilterSubmit (VObj (fieldsDict filters)) b).

(** ** The check against the options offered *)
Fixpoint getFilterIds (f : filter_type) : list string :=
  match f with
  | FT i _ _ _ None => [i]
  | FT _ _ _ _ (Some l) =>
      (fix go (l : list filter_type) : list string :=
         match l with [] => [] | x :: l' => getFilterIds x ++ go l' end) l
  end.

(** A collection has no [id], so one without a list gives [undefined]. *)
Definition collection_ids (c : collection) : list (option string) :=
  match cl_list c with None => [None] | Some l => Some <$> (l ≫= getFilterIds) end.

Fixpoint mergeFilterValue (ids : list (option string)) (v : val) : val :=
  match v with
  | VObj o =>
      VObj (obj_entries ((fix go (o : obj) : obj :=
        match o with
        | [] => []
        | (k, x) :: o' =>
            match x with
            | VArr keyIds => (k, VArr (js_filter (λ id, js_includes keyIds id) (of_ostr <$> ids))) :: go o'
            | VObj _ => (k, mergeFilterValue ids x) :: go o'
            | VNull => (k, VObj []) :: go o'
            | _ => go o'
            end
        end) o))
  | _ => VObj []
  end.

(** The callback keeps the value of the first render, [{}], in its test;
    without filters there are no valid fields. *)
Definition checkValue (filters : list collection) (b : bar) : bar :=
  let validFields := filters ≫= collection_ids in
  if validFields === [] then b
  else {| fb_value := mergeFilterValue validFields (fb_value b); fb_paging := fb_paging b;
          fb_open := fb_open b; fb_form := fb_form b; fb_searchTerms := fb_searchTerms b |}.

(** [cur.length] of an entry: [undefined] and [null] throw. *)
Definition length_of (v : val) : outcome nat :=
  match v with
  | VArr l => Ok (length l)
  | VUndef | VNull => Throw
  | VStr s => Ok (String.length s)
  | _ => Ok 0
  end.

(** The number on the button. *)
Definition filterCount (value : val) : outcome nat :=
  match value with
  | VObj o =>
      foldl (λ pre cur, pre ← pre;
        match cur with
        | VArr l => Ok (pre + length l)
        | VObj p => foldl (λ pre cur, pre ← pre; n ← length_of cur; Ok (pre + n)) (Ok pre) (obj_values p)
        | VNull => Throw
        | _ => Ok pre
        end) (Ok 0) (obj_values o)
  | _ => Ok 0
  end.

End bar.

(** ** The documents of a dataset *)
Definition EMPTY_METADATA_FIELD : string := "empty_metadata".

(** The counts the server sends are numbers. *)
Definition num_of_count (v : val) : num := match v with VNum n => n | _ => NNaN end.

Section dataset.

(** The translations. *)
Context (t : string → string).

Definition fileTypes (filter : val) : option (list filter_type) :=
  let suffix := prop "suffix" filter in
  if truthy suffix
  then Some (map (λ x, FT x None (to_upper x) (prop x suffix) None) (obj_keys (obj_of_val suffix)))
  else None.

Definition fileStatus (filter : val) : list filter_type :=
  let run_status := prop "run_status" filter in
  let l := if truthy run_status
           then map (λ x, FT x None (t ("runningStatus" +:+ x)) (prop x run_status) None)
                  (obj_keys (obj_of_val run_status))
           else [] in
  let emptyMetadata := prop EMPTY_METADATA_FIELD (prop "metadata" filter) in
  if truthy (prop "metadata" filter) && truthy emptyMetadata
  then l ++ [FT EMPTY_METADATA_FIELD None (t "emptyMetadata") (prop "true" emptyMetadata) None]
  else l.

Definition metaDataList (filter : val) : option (list filter_type) :=
  let metadata := prop "metadata" filter in
  if truthy metadata
  then Some (map (λ x,
         let counts := prop x metadata in
         let keys := obj_keys (obj_of_val counts) in
         FT x (Some x) x
           (VNum (foldl (λ acc cur, num_add acc (num_of_count (prop cur counts))) (num_of_Z 0) keys))
           (Some (map (λ y, FT y (Some y) y (prop y counts) None) keys)))
         (js_filter (λ m, m !== EMPTY_METADATA_FIELD) (obj_keys (obj_of_val metadata))))
  else None.

Definition dataset_filters (filter : val) : list collection :=
  [{| cl_field := "type"; cl_label := "File Type"; cl_list := fileTypes filter; cl_canSearch := false |};
   {| cl_field := "run"; cl_label := "Status"; cl_list := Some (fileStatus filter); cl_canSearch := false |};
   {| cl_field := "metadata"; cl_label := "Metadata field"; cl_list := metaDataList filter; cl_canSearch := true |}].

Definition dataset_filterGroup : list (string * list string) := [(t "systemAttribute", ["type"; "run"])].

End dataset.

(** [queryFn]: the status that stands for missing metadata is not a status of
    the server; it is sent as a flag. *)
Definition split_run (filterValue : val) : val * bool :=
  match prop "run" filterValue with
  | VArr run =>
      match js_findIndex (λ r, r === VStr EMPTY_METADATA_FIELD) run with
      | Some i => (VArr (take i run ++ drop (S i) run), true)
      | None => (VArr run, false)
      end
  | run => (run, false)
  end.

(** [listDocument(params, body)] *)
Definition document_request (kb_id keywords : string) (p : paging) (filterValue : val) : obj * obj :=
  let '(run, returnEmptyMetadata) := split_run filterValue in
  ([("kb_id", VStr kb_id); ("keywords", VStr keywords);
    ("page_size", VNum (size_of p)); ("page", VNum (page_of p))],
   [("suffix", prop "type" filterValue); ("run_status", run);
    ("return_empty_metadata", VBool returnEmptyMetadata); ("metadata", prop "metadata" filterValue)]).

(** ** Slots

    The places of a form that hold the identifiers of checked options: a
    collection without groups has one, a collection with groups one per
    group.  [nested] tells the collections apart. *)
Inductive slot := SField (n : string) | SGroup (n m : string).

#[export] Instance slot_eq_dec : EqDecision slot.
Proof. solve_decision. Defined.

Arguments slot_eq_dec _ _ : simpl never.

Definition slot_name (s : slot) : string :=
  match s with SField n => n | SGroup n m => n +:+ "." +:+ m end.

Definition slot_value (s : slot) (o : obj) : val :=
  match s with SField n => obj_get n o | SGroup n m => prop m (obj_get n o) end.

Definition checked (s : slot) (id : string) (o : obj) : bool := includes (slot_value s o) id.

Definition slot_ok (nested : string → bool) (s : slot) : Prop :=
  match s with
  | SField n => plain_name n = true ∧ nested n = false
  | SGroup n m => plain_name n = true ∧ key_name m = true ∧ nested n = true
  end.

(** The parts of a form under collections with groups are objects, if there. *)
Definition form_ok (nested : string → bool) (o : obj) : Prop :=
  ∀ n, nested n = true → is_undef (obj_get n o) = true ∨ ∃ p, obj_get n o = VObj p ∧ obj_wf p.

Lemma key_plain m : key_name m = true → plain_name m = true.
Proof. unfold key_name. by intros [? _]%andb_true_iff. Qed.

Lemma js_includes_without id i l : js_includes (without id l) (VStr i) = (i !== id) && js_includes l (VStr i).
Proof.
  apply eq_iff_eq_true. rewrite andb_true_iff, !js_includes_true. unfold without. rewrite elem_of_js_filter.
  assert ((VStr i !== VStr id) = (i !== id)) as ->; [|done].
  f_equal. apply bool_decide_ext. split; congruence.
Qed.

Lemma includes_toggled value id i : is_array value = true ∨ is_undef value = true →
  includes (handleCheckChange (negb (includes value id)) value id false "") i =
  xorb (includes value i) (i === id).
Proof.
  intros Hv. unfold handleCheckChange. simpl.
  assert (includes value id = js_includes (arr_of_val value) (VStr id)) as -> by (by destruct value).
  assert (includes value i = js_includes (arr_of_val value) (VStr i)) as -> by (by destruct value).
  destruct (js_includes (arr_of_val value) (VStr id)) eqn:E; simpl.
  - rewrite js_includes_without. destruct (bool_decide_reflect (i = id)) as [->|]; simpl; [by rewrite E|].
    by rewrite xorb_false_r.
  - destruct (bool_decide_reflect (i = id)) as [->|Hne].
    + rewrite E. simpl. apply js_includes_true. set_solver.
    + rewrite xorb_false_r. apply eq_iff_eq_true. rewrite !js_includes_true, elem_of_app, list_elem_of_singleton.
      split; [intros [?|[=]]; done|by left].
Qed.

(** ** The clicks *)
Section clicks.
Context {F : FormPaths} `{!FormPathsLaws F} (nested : string → bool).

Definition slots_array (o : obj) : Prop :=
  ∀ s, slot_ok nested s → is_array (slot_value s o) = true ∨ is_undef (slot_value s o) = true.

Lemma form_get_slot s o : slot_ok nested s → form_get (VObj o) (slot_name s) = slot_value s o.
Proof.
  destruct s as [n|n m]; simpl.
  - intros [? _]. by apply form_get_plain.
  - intros (? & ?%key_plain & _). by apply form_get_nested.
Qed.

(** What a click leaves in the object. *)
Definition slot_set (s : slot) (v : val) (o : obj) : obj :=
  match s with
  | SField n => obj_set n v o
  | SGroup n m => obj_set n (VObj (obj_set m v (obj_of_val (obj_get n o)))) o
  end.

Lemma form_set_slot s o v : slot_ok nested s → form_ok nested o →
  form_set (VObj o) (slot_name s) v = VObj (slot_set s v o).
Proof.
  destruct s as [n|n m]; simpl.
  - intros [? _] _. by apply form_set_plain.
  - intros (? & ? & Hn) Ho. apply form_set_nested; [done..|]. destruct (Ho n Hn) as [?|(p & ? & _)]; eauto.
Qed.

Lemma slot_set_value s s' v o : slot_ok nested s → slot_ok nested s' → form_ok nested o →
  slot_value s' (slot_set s v o) = if decide (s' = s) then v else slot_value s' o.
Proof.
  intros Hs Hs' Ho. destruct s as [n|n m], s' as [n'|n' m']; simpl in *.
  - destruct (decide (n' = n)) as [->|Hne].
    + rewrite obj_get_set_eq. by rewrite decide_True.
    + rewrite obj_get_set_ne by congruence. by rewrite decide_False by congruence.
  - rewrite obj_get_set_ne; [done|]. intros <-. naive_solver congruence.
  - rewrite obj_get_set_ne; [done|]. intros <-. naive_solver congruence.
  - destruct (decide (n' = n)) as [->|Hne].
    + rewrite obj_get_set_eq. simpl. destruct (decide (m' = m)) as [->|Hm].
      * rewrite obj_get_set_eq. by rewrite decide_True.
      * rewrite obj_get_set_ne by congruence. rewrite decide_False by congruence.
        destruct Hs' as (_ & _ & Hn). destruct (Ho n Hn) as [Hu|(p & -> & _)]; [|done].
        by destruct (obj_get n o).
    + rewrite obj_get_set_ne by congruence. by rewrite decide_False by congruence.
Qed.

Lemma slot_set_ok s v o : slot_ok nested s → form_ok nested o → form_ok nested (slot_set s v o).
Proof.
  intros Hs Ho k Hk. destruct s as [n|n m]; simpl in *; (destruct (decide (n = k)) as [->|Hne];
    [|rewrite obj_get_set_ne by done; by apply Ho]).
  - destruct Hs. congruence.
  - rewrite obj_get_set_eq. right. eexists. split; [done|]. apply obj_set_wf.
    destruct Hs as (_ & _ & Hn). destruct (Ho k Hn) as [Hu|(p & -> & ?)]; [|done].
    destruct (obj_get k o); try done. constructor.
Qed.

Lemma slot_set_wf s v o : obj_wf o → obj_wf (slot_set s v o).
Proof. destruct s; simpl; intros; by apply obj_set_wf. Qed.

Definition selection_ok (o : obj) : Prop := obj_wf o ∧ form_ok nested o ∧ slots_array o.

Lemma click_spec s id o : slot_ok nested s → selection_ok o →
  ∃ o', click_item (slot_name s) id (VObj o) = VObj o' ∧ selection_ok o' ∧
    ∀ s' i, slot_ok nested s' → checked s' i o' = xorb (checked s' i o) (bool_decide (s' = s) && (i === id)).
Proof.
  intros Hs (Hwf & Ho & Ha). unfold click_item. rewrite (form_get_slot s o Hs), form_set_slot by done.
  eexists. split; [done|]. split; [split; [by apply slot_set_wf|split; [by apply slot_set_ok|]]|].
  - intros s' Hs'. rewrite slot_set_value by done. case_decide; [by left|by apply Ha].
  - intros s' i Hs'. unfold checked. rewrite slot_set_value by done.
    destruct (decide (s' = s)) as [->|Hne].
    + rewrite includes_toggled by (by apply Ha). by rewrite (bool_decide_true (s = s)).
    + rewrite (bool_decide_false (s' = s)) by done. by rewrite xorb_false_r.
Qed.

Definition clicks_on (s : slot) (id : string) (cs : list (slot * string)) : nat :=
  length (js_filter (λ c, c === (s, id)) cs).

Definition click_all (cs : list (slot * string)) (b : bar) : bar :=
  foldl (λ b c, click (slot_name c.1) c.2 b) b cs.

Lemma clicks_spec cs b o : Forall (λ c, slot_ok nested c.1) cs → fb_form b = VObj o → selection_ok o →
  ∃ o', click_all cs b = {| fb_value := fb_value b; fb_paging := fb_paging b; fb_open := fb_open b;
                            fb_form := VObj o'; fb_searchTerms := fb_searchTerms b |} ∧ selection_ok o' ∧
    ∀ s i, slot_ok nested s → checked s i o' = xorb (checked s i o) (Nat.odd (clicks_on s i cs)).
Proof.
  intros Hcs. revert b o. induction Hcs as [|[s id] cs Hs _ IH]; intros b o Hb Ho.
  - exists o. split; [destruct b; simpl in *; by subst|]. split; [done|]. intros. simpl. by rewrite xorb_false_r.
  - simpl in Hs. destruct (click_spec s id o Hs Ho) as (o1 & Hc & Ho1 & H1).
    destruct (IH (click (slot_name s) id b) o1) as (o2 & H2 & Ho2 & H3); [simpl; by rewrite Hb|done|].
    exists o2. split; [exact H2|]. split; [done|]. intros s' i Hs'. rewrite H3, H1 by done.
    unfold clicks_on. rewrite js_filter_cons.
    assert (((s, id) === (s', i)) = bool_decide (s' = s) && (i === id)) as ->.
    { destruct (bool_decide_reflect (s' = s)) as [->|]; destruct (bool_decide_reflect (i = id)) as [->|];
        simpl; rewrite ?bool_decide_true, ?bool_decide_false by congruence; done. }
    destruct (bool_decide (s' = s) && (i === id)); [|by rewrite xorb_false_r].
    cbn [length]. rewrite Nat.odd_succ, <-Nat.negb_odd. by destruct (checked s' i o), (Nat.odd _).
Qed.

Lemma obj_assign_get k o : obj_wf o → obj_get k (obj_assign [] o) = obj_get k o.
Proof. intros. unfold obj_get. rewrite obj_assign_lookup by done. by destruct (obj_lookup k o). Qed.

Lemma slot_value_copy s o : obj_wf o → slot_value s (obj_assign [] o) = slot_value s o.
Proof. intros. destruct s; simpl; by rewrite obj_assign_get. Qed.

Lemma selection_copy o : selection_ok o → selection_ok (obj_assign [] o).
Proof.
  intros (Hwf & Ho & Ha). split; [apply obj_assign_wf; constructor|]. split.
  - intros n Hn. rewrite obj_assign_get by done. by apply Ho.
  - intros s Hs. rewrite slot_value_copy by done. by apply Ha.
Qed.

(** Nothing is checked in the empty selection. *)
Lemma fieldsDict_get filters n :
  obj_get n (fieldsDict filters) = VUndef ∨ obj_get n (fieldsDict filters) = VObj [] ∨
  obj_get n (fieldsDict filters) = VArr [].
Proof.
  unfold fieldsDict.
  assert (∀ o, (obj_get n o = VUndef ∨ obj_get n o = VObj [] ∨ obj_get n o = VArr []) → let r := foldl
    (λ pre cur, obj_set (cl_field cur) (if js_some has_nested (default [] (cl_list cur)) then VObj [] else VArr []) pre)
    o filters in obj_get n r = VUndef ∨ obj_get n r = VObj [] ∨ obj_get n r = VArr []) as H; [|by apply H; left].
  induction filters as [|c filters IH]; intros o H; simpl; [done|].
  apply IH. destruct (decide (cl_field c = n)) as [<-|]; [|by rewrite obj_get_set_ne].
  rewrite obj_get_set_eq. destruct (js_some _ _); auto.
Qed.

Lemma fieldsDict_unchecked filters s i : checked s i (fieldsDict filters) = false.
Proof.
  unfold checked. destruct s as [n|n m]; simpl;
    destruct (fieldsDict_get filters n) as [-> | [-> | ->]]; done.
Qed.

(** C30: A selection in the filter bar.  Opened on a submitted value, after any
    clicks on options the popover submits exactly the options clicked an odd
    number of times against the value it opened with; submitting goes back to
    the first page, keeps its size and closes the popover, which shows the
    submitted value when it is opened again.  Clearing submits a value with no
    option at all. *)
Theorem filters_turn filters b v clicks :
  filters ≠ [] → fb_value b = VObj v → selection_ok v → Forall (λ c, slot_ok nested c.1) clicks →
  let shown := open_popover filters b in
  let b' := onSubmit (click_all clicks shown) in
  let b'' := onReset filters (click_all clicks shown) in
  (∃ v', fb_value b' = VObj v' ∧ selection_ok v' ∧
     ∀ s i, slot_ok nested s → checked s i v' = xorb (checked s i v) (Nat.odd (clicks_on s i clicks))) ∧
  page_of (fb_paging b') = num_of_Z 1 ∧ size_of (fb_paging b') = size_of (fb_paging b) ∧ fb_open b' = false ∧
  fb_form (open_popover filters b') = fb_value b' ∧
  (∃ v'', fb_value b'' = VObj v'' ∧ ∀ s i, checked s i v'' = false) ∧
  page_of (fb_paging b'') = num_of_Z 1 ∧ fb_open b'' = false.
Proof.
  intros Hf Hb Hv Hcs shown b' b''.
  assert (fb_form shown = VObj v) as Hform.
  { unfold shown, open_popover, reset_effect. destruct filters; [done|]. simpl. by rewrite Hb. }
  destruct (clicks_spec clicks shown v Hcs Hform Hv) as (o' & Hc & Ho' & Hx).
  unfold b', b''. rewrite Hc. simpl. destruct Ho' as (Hwf & Ho1 & Ho2) eqn:E; clear E.
  split; [|split; [|split; [|split; [|split; [|split; [|split]]]]]]; try done.
  - eexists. split; [done|]. split; [by apply selection_copy|]. intros s i Hs. rewrite <-Hx by done.
    unfold checked. by rewrite slot_value_copy.
  - unfold shown, open_popover, reset_effect. by destruct filters.
  - unfold open_popover, reset_effect. by destruct filters.
  - eexists. split; [done|]. apply fieldsDict_unchecked.
Qed.

End clicks.

(** ** The options offered *)
Section filter_type_ind.
Variable P : filter_type → Prop.
Hypothesis H0 : ∀ i d l c, P (FT i d l c None).
Hypothesis H1 : ∀ i d l c s, Forall P s → P (FT i d l c (Some s)).

Fixpoint filter_type_ind' (f : filter_type) : P f :=
  match f with
  | FT i d l c None => H0 i d l c
  | FT i d l c (Some s) =>
      H1 i d l c s ((fix go (s : list filter_type) : Forall P s :=
        match s with
        | [] => List.Forall_nil _
        | x :: s' => List.Forall_cons _ x s' (filter_type_ind' x) (go s')
        end) s)
  end.
End filter_type_ind.

(** The identifier of an option in the tree below [f]. *)
Inductive offered_in : filter_type → string → Prop :=
  | offered_here i d l c : offered_in (FT i d l c None) i
  | offered_below i d l c s x j : x ∈ s → offered_in x j → offered_in (FT i d l c (Some s)) j.

Lemma getFilterIds_go s :
  (fix go (l : list filter_type) : list string := match l with [] => [] | x :: l' => getFilterIds x ++ go l' end) s =
  s ≫= getFilterIds.
Proof. induction s as [|x s IH]; [done|]. csimpl. by rewrite IH. Qed.

Lemma elem_of_getFilterIds f j : j ∈ getFilterIds f ↔ offered_in f j.
Proof.
  induction f as [i d l c|i d l c s IH] using filter_type_ind'; simpl.
  - rewrite list_elem_of_singleton. split; [intros ->; constructor|]. by inversion 1.
  - rewrite getFilterIds_go, list_elem_of_bind. split.
    + intros (x & Hj & Hx). rewrite Forall_forall in IH. apply (IH x Hx) in Hj. by econstructor.
    + inversion 1; subst. eexists. split; [|done]. rewrite Forall_forall in IH. by apply IH.
Qed.

Definition offered (filters : list collection) (i : string) : Prop :=
  ∃ c l f, c ∈ filters ∧ cl_list c = Some l ∧ f ∈ l ∧ offered_in f i.

Lemma elem_of_valid filters i : Some i ∈ filters ≫= collection_ids ↔ offered filters i.
Proof.
  rewrite list_elem_of_bind. unfold offered. split.
  - intros (c & Hi & Hc). unfold collection_ids in Hi. destruct (cl_list c) as [l|] eqn:El.
    2:{ apply list_elem_of_singleton in Hi. done. }
    apply list_elem_of_fmap in Hi as (j & [= <-] & Hj). apply list_elem_of_bind in Hj as (f & Hf & Hl).
    exists c, l, f. by rewrite <-elem_of_getFilterIds.
  - intros (c & l & f & Hc & Hl & Hf & Hi). exists c. split; [|done]. unfold collection_ids. rewrite Hl.
    apply list_elem_of_fmap. exists i. split; [done|]. apply list_elem_of_bind. exists f. by rewrite elem_of_getFilterIds.
Qed.

(** *** What the check keeps *)
Definition merge_entry (ids : list (option string)) (kv : string * val) : option (string * val) :=
  match kv.2 with
  | VArr keyIds => Some (kv.1, VArr (js_filter (λ id, js_includes keyIds id) (of_ostr <$> ids)))
  | VObj _ => Some (kv.1, mergeFilterValue ids kv.2)
  | VNull => Some (kv.1, VObj [])
  | _ => None
  end.

Lemma mergeFilterValue_obj ids o : mergeFilterValue ids (VObj o) = VObj (obj_entries (omap (merge_entry ids) o)).
Proof.
  simpl. do 2 f_equal. induction o as [|[k x] o IH]; [done|]. rewrite IH. clear IH.
  unfold merge_entry at 2. simpl. by destruct x.
Qed.

Lemma merge_entry_key ids kv y : merge_entry ids kv = Some y → y.1 = kv.1.
Proof. unfold merge_entry. destruct kv as [k x]. simpl. by destruct x; intros; simplify_eq. Qed.

Lemma merge_keys ids o k : k ∈ (omap (merge_entry ids) o).*1 → k ∈ o.*1.
Proof.
  intros (y & -> & (kv & Hkv & He)%list_elem_of_omap)%list_elem_of_fmap. apply list_elem_of_fmap.
  exists kv. split; [|done]. by apply merge_entry_key in He.
Qed.

Lemma merge_wf ids o : obj_wf o → obj_wf (omap (merge_entry ids) o).
Proof.
  unfold obj_wf. induction o as [|kv o IH]; [done|]. intros [Hk Hwf]%NoDup_cons. simpl.
  destruct (merge_entry ids kv) as [y|] eqn:E; [|by apply IH]. apply NoDup_cons. split; [|by apply IH].
  intros Hin%merge_keys. apply Hk. unfold merge_entry in E. by destruct kv.2; simplify_eq.
Qed.

Lemma merge_get ids o k : obj_wf o →
  obj_get k (omap (merge_entry ids) o) = default VUndef (snd <$> merge_entry ids (k, obj_get k o)).
Proof.
  unfold obj_get. induction o as [|[k' x] o IH]; [done|]. intros [Hk Hwf]%NoDup_cons. simpl.
  destruct (merge_entry ids (k', x)) as [[k'' y]|] eqn:E.
  - apply merge_entry_key in E as Hk'. simpl in Hk'. subst k''. simpl.
    destruct (bool_decide_reflect (k = k')) as [->|]; simpl; [by rewrite E|by apply IH].
  - destruct (bool_decide_reflect (k = k')) as [->|]; [|by apply IH]. simpl. rewrite E.
    assert (obj_lookup k' (omap (merge_entry ids) o) = None) as H; [|exact (f_equal (default VUndef) H)].
    apply obj_lookup_None. by intros ?%merge_keys.
Qed.

Lemma merge_value_get ids o k : obj_wf o →
  prop k (mergeFilterValue ids (VObj o)) = default VUndef (snd <$> merge_entry ids (k, obj_get k o)).
Proof.
  intros. rewrite mergeFilterValue_obj. simpl. unfold obj_get at 1.
  rewrite obj_entries_lookup by (by apply merge_wf). by apply merge_get.
Qed.

Lemma includes_merged ids l i :
  js_includes (js_filter (λ id, js_includes l id) (of_ostr <$> ids)) (VStr i) =
  js_includes l (VStr i) && bool_decide (Some i ∈ ids).
Proof.
  apply eq_iff_eq_true. rewrite andb_true_iff, bool_decide_eq_true, !js_includes_true, elem_of_js_filter, js_includes_true.
  rewrite list_elem_of_fmap. split.
  - intros [H ([j|] & Hj & Hin)]; simplify_eq/=. done.
  - intros [H Hin]. split; [done|]. by exists (Some i).
Qed.

Lemma omap_id {A} (f : A → option A) (l : list A) : (∀ x, x ∈ l → f x = Some x) → omap f l = l.
Proof.
  induction l as [|x l IH]; intros H; [done|]. simpl. rewrite (H x) by set_solver. f_equal. apply IH. set_solver.
Qed.

(** A second check changes nothing. *)
Lemma mergeFilterValue_idemp ids v : mergeFilterValue ids (mergeFilterValue ids v) = mergeFilterValue ids v.
Proof.
  induction v as [| | | | | |o IH] using val_ind'; try done.
  rewrite !mergeFilterValue_obj. f_equal.
  rewrite (omap_id _ (obj_entries _)); [apply obj_entries_idemp|].
  intros y. rewrite obj_entries_Permutation. intros (kv & Hkv & He)%list_elem_of_omap.
  rewrite Forall_forall in IH. specialize (IH kv Hkv). destruct kv as [k x]. change (snd (k, x)) with x in IH.
  destruct x as [| | | | |l|p]; try done.
  - by injection He as <-.
  - injection He as <-. unfold merge_entry. cbn [fst snd]. do 3 f_equal. apply js_filter_ext. intros e He.
    apply eq_iff_eq_true. rewrite js_includes_true, elem_of_js_filter. tauto.
  - change (Some (k, mergeFilterValue ids (VObj p)) = Some y) in He. apply (inj Some) in He as <-.
    rewrite (mergeFilterValue_obj ids p) in IH |- *.
    change (Some (k, mergeFilterValue ids (VObj (obj_entries (omap (merge_entry ids) p)))) =
      Some (k, VObj (obj_entries (omap (merge_entry ids) p)))). by rewrite IH.
Qed.

Section check.
Context (nested : string → bool).

(** The check against the options offered, after the documents changed:
    of the options selected exactly those stay that some collection still
    offers; page, form and popover are not touched, and a second check changes
    nothing. *)
Theorem check_offered filters b v :
  fb_value b = VObj v → selection_ok nested v → filters ≫= collection_ids ≠ [] →
  let b' := checkValue filters b in
  (∃ v', fb_value b' = VObj v' ∧
     ∀ s i, slot_ok nested s → checked s i v' = true ↔ checked s i v = true ∧ offered filters i) ∧
  checkValue filters b' = b' ∧
  (fb_paging b', fb_open b', fb_form b') = (fb_paging b, fb_open b, fb_form b).
Proof.
  intros Hb (Hwf & Ho & Ha) Hne b'. unfold b', checkValue. rewrite !bool_decide_false by done. simpl.
  rewrite Hb. split; [|split; [by rewrite mergeFilterValue_idemp|done]].
  eexists. split; [apply mergeFilterValue_obj|]. intros s i Hs. rewrite <-elem_of_valid.
  set (ids := filters ≫= collection_ids). unfold checked.
  assert (∀ k, obj_get k (obj_entries (omap (merge_entry ids) v)) =
    default VUndef (snd <$> merge_entry ids (k, obj_get k v))) as Hget.
  { intros k. rewrite <-merge_value_get by done. by rewrite mergeFilterValue_obj. }
  destruct s as [n|n m]; simpl.
  - rewrite Hget. destruct (Ha (SField n) Hs) as [Harr|Hu]; simpl in *.
    + destruct (obj_get n v) as [| | | | |l|]; try done. cbn. rewrite includes_merged, andb_true_iff, bool_decide_eq_true. done.
    + destruct (obj_get n v); try done. split; [done|]. by intros [? _].
  - rewrite Hget. destruct Hs as (Hp & Hk & Hn) eqn:E; clear E. specialize (Ha (SGroup n m) Hs). simpl in Ha.
    destruct (Ho n Hn) as [Hu|(p & Hp' & Hpwf)].
    + destruct (obj_get n v); try done. split; [done|]. by intros [? _].
    + rewrite Hp' in Ha |- *. change (default VUndef (snd <$> merge_entry ids (n, VObj p))) with (mergeFilterValue ids (VObj p)).
      rewrite merge_value_get by done. simpl in Ha. simpl (prop m (VObj p)).
      destruct (obj_get m p) as [| | | | |l|]; destruct Ha as [Ha|Ha]; try done;
        [split; [done|]; by intros [? _]|].
      cbn. rewrite includes_merged, andb_true_iff, bool_decide_eq_true. done.
Qed.
End check.

(** *** Names in use: an instance of the paths on names of one or two parts *)
Definition split_paths : FormPaths := {|
  form_get v name := foldl (λ v k, prop k v) v (js_split "." name);
  form_set v name x :=
    let o := obj_of_val v in
    match js_split "." name with
    | [n] => VObj (obj_set n x o)
    | [n; m] => VObj (obj_set n (VObj (obj_set m x (obj_of_val (obj_get n o)))) o)
    | _ => v
    end
|}.

Lemma plain_no_dot n : plain_name n = true → count_char "." n = 0.
Proof.
  unfold plain_name. intros [_ H]%andb_true_iff. rewrite js_every_true in H.
  induction n as [|a n IH]; [done|]. simpl in *. rewrite bool_decide_false; [apply IH; set_solver|].
  intros ->. specialize (H "."%char ltac:(set_solver)). done.
Qed.

#[export] Instance split_paths_laws : FormPathsLaws split_paths.
Proof.
  split; simpl.
  - intros o n Hn. by rewrite js_split_no_sep by (by apply plain_no_dot).
  - intros o n v Hn. by rewrite js_split_no_sep by (by apply plain_no_dot).
  - intros o n m Hn Hm. change ("." +:+ m) with (String "." m).
    by rewrite js_split_app, js_split_no_sep by (by apply plain_no_dot).
  - intros o n m v Hn Hm%key_plain _. change ("." +:+ m) with (String "." m).
    by rewrite js_split_app, js_split_no_sep by (by apply plain_no_dot).
Qed.

Definition doc_filters : list collection :=
  dataset_filters id
    (VObj [("suffix", VObj [("pdf", VNum (num_of_Z 2)); ("md", VNum (num_of_Z 1))]);
           ("run_status", VObj [("1", VNum (num_of_Z 3))]);
           ("metadata", VObj [("author", VObj [("ann", VNum (num_of_Z 1)); ("pdf", VNum (num_of_Z 1))])])]).

Definition group_fields (n : string) : bool := n === "metadata".

Definition bar0 : bar :=
  {| fb_value := VObj []; fb_paging := {| url_page := Some (num_of_Z 3); url_size := None |}; fb_open := false;
     fb_form := VUndef; fb_searchTerms := [] |}.

Lemma empty_selection_ok nested : selection_ok nested [].
Proof. split; [constructor|]. split; [by left|]. intros [n|n m] _; by right. Qed.

Definition some_clicks : list (slot * string) :=
  [(SField "type", "pdf"); (SGroup "metadata" "author", "ann"); (SField "type", "md"); (SField "type", "pdf")].

Lemma filters_turn_witness :
  fb_value (onSubmit (click_all (F := split_paths) some_clicks (open_popover doc_filters bar0))) =
    VObj [("type", VArr [VStr "md"]); ("metadata", VObj [("author", VArr [VStr "ann"])])] ∧
  page_of (fb_paging (onSubmit (click_all (F := split_paths) some_clicks (open_popover doc_filters bar0)))) = num_of_Z 1.
Proof.
  split; [vm_compute; reflexivity|].
  apply (filters_turn (F := split_paths) group_fields doc_filters bar0 [] some_clicks).
  - intros H. vm_compute in H. discriminate H.
  - reflexivity.
  - apply empty_selection_ok.
  - repeat constructor; vm_compute; reflexivity.
Defined.

Definition picked : obj := [("type", VArr [VStr "pdf"; VStr "txt"]); ("metadata", VObj [("author", VArr [VStr "ann"])])].

Lemma picked_ok : selection_ok group_fields picked.
Proof.
  split; [apply (bool_decide_unpack _); vm_compute; exact I|]. split.
  - intros n Hn. apply bool_decide_eq_true in Hn as ->. right. eexists. split; [done|].
    apply (bool_decide_unpack _). vm_compute. exact I.
  - intros [n|n m]; simpl; unfold picked, obj_get; simpl.
    + intros [_ Hn]. destruct (n === "type"); [by left|]. unfold group_fields in Hn. rewrite Hn. by right.
    + intros (_ & _ & Hn). apply bool_decide_eq_true in Hn as ->. simpl. unfold obj_get. simpl.
      destruct (m === "author"); [by left|by right].
Qed.

Lemma check_offered_witness :
  let b := {| fb_value := VObj picked; fb_paging := fb_paging bar0; fb_open := false; fb_form := VUndef;
              fb_searchTerms := [] |} in
  checkValue doc_filters (checkValue doc_filters b) = checkValue doc_filters b ∧
  includes (prop "type" (fb_value (checkValue doc_filters b))) "txt" = false.
Proof.
  intros b. split; [|vm_compute; reflexivity].
  apply (check_offered group_fields doc_filters b picked eq_refl picked_ok).
  intros H. vm_compute in H. discriminate H.
Defined.

(** An identifier offered by two collections is doubled by the check, and
    the button counts it twice. *)
Lemma check_doubles :
  let b := {| fb_value := VObj [("type", VArr [VStr "pdf"])]; fb_paging := fb_paging bar0; fb_open := false;
              fb_form := VUndef; fb_searchTerms := [] |} in
  filterCount (fb_value b) = Ok 1 ∧
  fb_value (checkValue doc_filters b) = VObj [("type", VArr [VStr "pdf"; VStr "pdf"])] ∧
  filterCount (fb_value (checkValue doc_filters b)) = Ok 2.
Proof. vm_compute. done. Qed.

(** The schema of the popover allows [undefined] for the options of a group;
    the number on the button does not. *)
Lemma count_throws : filterCount (VObj [("metadata", VObj [("author", VUndef)])]) = Throw.
Proof. reflexivity. Qed.

(** Inside a group, as [handleCheckChange] handles it itself, the last option
    cannot be unchecked. *)
Lemma last_nested_stays id parentId :
  parentId ≠ "" →
  includes (prop parentId (handleCheckChange false (VObj [(parentId, VArr [VStr id])]) id true parentId)) id = true.
Proof.
  intros Hp. unfold handleCheckChange. rewrite (bool_decide_false (parentId = "")) by done. simpl.
  unfold obj_get. simpl. rewrite bool_decide_true by done. simpl. unfold without. rewrite js_filter_cons.
  rewrite bool_decide_true by done. simpl. unfold obj_get.
  rewrite obj_assign_lookup by (apply NoDup_singleton). simpl. rewrite bool_decide_true by done. simpl.
  by apply js_includes_true, list_elem_of_singleton.
Qed.

(** *** The search in the options: an option is shown exactly when its name or
    identifier, or that of an option below it, has the term. *)
Inductive has_term (term : string) : filter_type → Prop :=
  | term_here f : str_includes term (to_lower (fb_label f)) || str_includes term (to_lower (fb_id f)) = true →
      has_term term f
  | term_below i d l c s x : x ∈ s → has_term term x → has_term term (FT i d l c (Some s)).

Lemma filterNestedList_item_spec term f : filterNestedList_item term f = true ↔ has_term term f.
Proof.
  induction f as [i d l c|i d l c s IH] using filter_type_ind'.
  - simpl. rewrite orb_false_r. split; [by constructor|]. by inversion 1.
  - assert (∀ s, (fix any (l : list filter_type) : bool :=
       match l with [] => false | x :: l' => filterNestedList_item term x || any l' end) s =
       js_some (filterNestedList_item term) s) as Hany by (clear; induction s; simpl; congruence).
    transitivity (str_includes term (to_lower l) || str_includes term (to_lower i) = true ∨
                  js_some (filterNestedList_item term) s = true).
    { rewrite <-orb_true_iff, <-(Hany s). destruct s; reflexivity. }
    rewrite js_some_true. rewrite Forall_forall in IH. split.
    + intros [H|(x & Hx & H)]; [by constructor|]. eapply term_below; [done|]. by apply IH.
    + inversion 1; subst; [by left|]. right. eexists. split; [done|]. by apply IH.
Qed.

Lemma filterNestedList_exact l searchTerm f : searchTerm ≠ "" →
  f ∈ filterNestedList l searchTerm ↔ f ∈ l ∧ has_term (to_lower searchTerm) f.
Proof.
  intros. unfold filterNestedList. rewrite bool_decide_false by done.
  rewrite elem_of_js_filter, filterNestedList_item_spec. tauto.
Qed.

(** *** The request: without duplicates the flag stands for exactly the option
    of missing metadata, and the statuses are the others. *)
Lemma split_run_spec fv run : prop "run" fv = VArr run → NoDup run →
  split_run fv = (VArr (js_filter (λ r, r !== VStr EMPTY_METADATA_FIELD) run),
                  js_includes run (VStr EMPTY_METADATA_FIELD)).
Proof.
  intros Hr Hnd. unfold split_run. rewrite Hr. clear Hr. destruct (js_findIndex _ run) as [i|] eqn:E.
  - apply js_findIndex_Some in E as [(x & Hx & Hp) _]. apply bool_decide_eq_true in Hp as ->.
    assert (js_includes run (VStr EMPTY_METADATA_FIELD) = true) as ->
      by (apply js_includes_true; by eapply list_elem_of_lookup_2).
    do 2 f_equal. pose proof (take_drop_middle run i _ Hx) as Hm. rewrite <-Hm in Hnd |- * at 3. clear Hx Hm.
    apply NoDup_app in Hnd as (_ & Hn1 & [Hn2 _]%NoDup_cons).
    rewrite js_filter_app, js_filter_cons, bool_decide_true by done. simpl. rewrite !js_filter_all; [done| |];
      intros y Hy; apply negb_true_iff, bool_decide_eq_false; intros ->; [done|]. apply (Hn1 _ Hy). set_solver.
  - rewrite js_findIndex_None in E.
    assert (VStr EMPTY_METADATA_FIELD ∉ run) as Hn by (intros Hin; specialize (E _ Hin); by rewrite bool_decide_true in E).
    assert (js_includes run (VStr EMPTY_METADATA_FIELD) = false) as -> by (by apply bool_decide_eq_false).
    rewrite js_filter_all; [done|]. intros y Hy. by rewrite (E y Hy).
Qed.
