(* ===== verification/Citations.v ===== *)
(** * Citations and text direction

    utils/citation-utils.ts and the markers of components/markdown-content/
    reference-utils.ts (with their predecessor in utils/chat.ts): the places
    of an answer that cite a chunk, their grouping into runs, and the choice
    to show a run as a carousel of images; utils/text-direction.ts: the
    direction in which a text is set.

    A text is the list of its UTF-16 code units. *)
From S2P Require Import Prelude.
Open Scope list_scope.
Open Scope nat_scope.
Open Scope js_scope.

Definition text := list Z.

Definition in_range (r : Z * Z) (c : Z) : bool := (r.1 <=? c)%Z && (c <=? r.2)%Z.

(** [s.slice(a, b)] for [a <= b] *)
Definition slice (a b : nat) (s : text) : text := take (b - a) (drop a s).

(** ** Digits *)
Definition ascii_digit (c : Z) : bool := in_range (0x30, 0x39)%Z c.
Definition arabic_digit (c : Z) : bool := in_range (0x660, 0x669)%Z c || in_range (0x6f0, 0x6f9)%Z c.

(** The class [[0-9\u0660-\u0669\u06F0-\u06F9]] *)
Definition marker_digit (c : Z) : bool := ascii_digit c || arabic_digit c.

Definition normalize_char (c : Z) : Z :=
  if in_range (0x660, 0x669)%Z c then (c - 0x660 + 0x30)%Z
  else if in_range (0x6f0, 0x6f9)%Z c then (c - 0x6f0 + 0x30)%Z
  else c.

Definition normalizeCitationDigits (s : text) : text := map normalize_char s.

(** [Number(s)] of a text of ASCII digits *)
Definition number_of (s : text) : Z := foldl (λ acc c, (acc * 10 + (c - 0x30))%Z) 0%Z s.

(** ** Markers

    The expressions of the code at a position: [[], an optional [ID:], one or
    more digits, []].  No alternative overlaps another, so the match is found
    without going back. *)
Definition lit_open : Z := 0x5b.
Definition lit_close : Z := 0x5d.
Definition lit_id : text := [0x49; 0x44; 0x3a]%Z.

Fixpoint take_while (p : Z → bool) (s : text) : text * text :=
  match s with
  | c :: s' => if p c then let '(d, r) := take_while p s' in (c :: d, r) else ([], s)
  | [] => ([], [])
  end.

Definition skip_id (s : text) : text :=
  match s with
  | a :: b :: c :: s' => if [a; b; c] === lit_id then s' else s
  | _ => s
  end.

(** The digits of the marker that starts the text, and its length. *)
Definition match_marker (digit : Z → bool) (s : text) : option (text * nat) :=
  match s with
  | o :: s1 =>
      if o === lit_open then
        let s2 := skip_id s1 in
        let '(d, r) := take_while digit s2 in
        match d, r with
        | _ :: _, c :: _ =>
            if c === lit_close then Some (d, 1 + (length s1 - length s2) + length d + 1) else None
        | _, _ => None
        end
      else None
  | [] => None
  end.

(** [/.../.exec(text)] from an index on: the first position with a match. *)
Fixpoint exec_from (digit : Z → bool) (s : text) (i : nat) : option (text * nat * nat) :=
  match match_marker digit s with
  | Some (d, n) => Some (d, i, n)
  | None => match s with [] => None | _ :: s' => exec_from digit s' (S i) end
  end.

Record ReferenceMatch := { rm_id : text; fullMatch : text; rm_start : nat; rm_end : nat }.

Definition reference_at (s : text) (d : text) (i n : nat) : ReferenceMatch :=
  {| rm_id := normalizeCitationDigits d; fullMatch := slice i (i + n) s; rm_start := i; rm_end := i + n |}.

(** The loop on the global expression, whose [lastIndex] is the end of the
    last match; a match has at least three characters. *)
Fixpoint find_matches (fuel : nat) (s : text) (lastIndex : nat) : list ReferenceMatch :=
  match fuel with
  | O => []
  | S fuel =>
      match exec_from marker_digit (drop lastIndex s) lastIndex with
      | None => []
      | Some (d, i, n) => reference_at s d i n :: find_matches fuel s (i + n)
      end
  end.

Definition findAllReferenceMatches (s : text) : list ReferenceMatch := find_matches (S (length s)) s 0.

(** The loop over the matches with the current group. *)
Fixpoint group_loop (currentGroup : list ReferenceMatch) (matches : list ReferenceMatch)
    (groups : list (list ReferenceMatch)) : list (list ReferenceMatch) :=
  match matches with
  | [] => groups ++ [currentGroup]
  | m :: matches' =>
      if Some (rm_start m) === (rm_end <$> last currentGroup)
      then group_loop (currentGroup ++ [m]) matches' groups
      else group_loop [m] matches' (groups ++ [currentGroup])
  end.

Definition groupConsecutiveReferences (s : text) : list (list ReferenceMatch) :=
  match findAllReferenceMatches s with
  | [] => []
  | m :: matches => group_loop [m] matches []
  end.

(** [showImage]: a chunk is shown as an image when its type is one of these. *)
Definition ShowImageFields : list string := ["image"; "table"].

Definition showImage (filed : option string) : bool :=
  js_some (λ x, Some x === filed) ShowImageFields.

(** The chunks of the reference, each with its optional type; a number
    beyond them reads [undefined]. *)
Definition shouldShowCarousel (group : list ReferenceMatch)
    (chunks : list (option string)) : bool :=
  if length group <? 2 then false
  else js_every (λ r, match chunks !! Z.to_nat (number_of (rm_id r)) with
                      | Some doc_type => showImage doc_type
                      | None => false
                      end) group.

(** [NaN] is [None]. *)
Definition parseCitationIndex (value : text) : option Z :=
  let normalized := normalizeCitationDigits value in
  match exec_from ascii_digit normalized 0 with
  | Some (d, _, _) => Some (number_of d)
  | None =>
      if js_every ascii_digit normalized && negb (normalized === []) then Some (number_of normalized) else None
  end.

(** *** The old markers: [##12$$] becomes [[ID:12]] *)
Definition match_old (s : text) : option (text * text) :=
  match s with
  | 0x23%Z :: 0x23%Z :: s1 =>
      match take_while marker_digit s1 with
      | ((_ :: _) as d, 0x24%Z :: 0x24%Z :: r) => Some (d, r)
      | _ => None
      end
  | _ => None
  end.

Fixpoint replace_old (fuel : nat) (s : text) : text :=
  match fuel with
  | O => s
  | S fuel =>
      match match_old s with
      | Some (d, r) => (lit_open :: lit_id ++ d ++ [lit_close]) ++ replace_old fuel r
      | None => match s with [] => [] | c :: s' => c :: replace_old fuel s' end
      end
  end.

Definition replaceTextByOldReg (s : text) : text := replace_old (length s) s.

(** ** Text direction *)
Definition RTL_RANGES : list (Z * Z) :=
  [(0x600, 0x6ff); (0x750, 0x77f); (0x8a0, 0x8ff); (0xfb50, 0xfdff); (0xfe70, 0xfeff); (0x590, 0x5ff);
   (0xfb1d, 0xfb4f); (0x700, 0x74f); (0x780, 0x7bf); (0x840, 0x85f); (0x860, 0x86f)]%Z.

Definition isRTLCharCode (charCode : Z) : bool := js_some (λ r, in_range r charCode) RTL_RANGES.

Inductive direction := DirRtl | DirLtr | DirNeutral.

#[export] Instance direction_eq_dec : EqDecision direction.
Proof. solve_decision. Defined.

(** Whitespace, digits and punctuation *)
Definition skipped (code : Z) : bool :=
  (code <=? 0x40)%Z || in_range (0x5b, 0x60)%Z code || in_range (0x7b, 0x7f)%Z code.

Definition ltr_letter (code : Z) : bool :=
  js_some (λ r, in_range r code)
    [(0x41, 0x5a); (0x61, 0x7a); (0xc0, 0x24f); (0x370, 0x3ff); (0x400, 0x4ff)]%Z.

(** [for (const char of text)] with [char.charCodeAt(0)]: the code points, a
    surrogate pair giving its first half. *)
Definition high_surrogate (c : Z) : bool := in_range (0xd800, 0xdbff)%Z c.
Definition low_surrogate (c : Z) : bool := in_range (0xdc00, 0xdfff)%Z c.

Fixpoint char_codes (s : text) : list Z :=
  match s with
  | [] => []
  | c :: s' =>
      c :: match s' with
           | d :: s'' => if high_surrogate c && low_surrogate d then char_codes s'' else char_codes s'
           | [] => []
           end
  end.

Fixpoint direction_of (codes : list Z) : direction :=
  match codes with
  | [] => DirNeutral
  | code :: codes' =>
      if skipped code then direction_of codes'
      else if isRTLCharCode code then DirRtl
      else if ltr_letter code then DirLtr
      else direction_of codes'
  end.

Definition getTextDirection (s : text) : direction := direction_of (char_codes s).

Definition containsRTL (s : text) : bool := js_some isRTLCharCode (char_codes s).

Definition isRTL (s : text) : bool := getTextDirection s === DirRtl.

Inductive dir_attribute := AttrRtl | AttrLtr | AttrAuto.

Definition getDirAttribute (s : text) : dir_attribute :=
  match getTextDirection s with DirRtl => AttrRtl | DirLtr => AttrLtr | DirNeutral => AttrAuto end.

(** [extractNumbersFromMessageContent]: the matches of the whole text, parsed
    one by one. *)
Definition extractNumbersFromMessageContent (content : text) : list Z :=
  omap (λ m, parseCitationIndex (fullMatch m)) (findAllReferenceMatches content).

(** ** The markers of a text *)
Definition marker (digit : Z → bool) (d w : text) : Prop :=
  ∃ pre, (pre = [] ∨ pre = lit_id) ∧ d ≠ [] ∧ Forall (λ c, digit c = true) d ∧
    w = lit_open :: pre ++ d ++ [lit_close].

Lemma take_while_spec p s d r : take_while p s = (d, r) →
  s = d ++ r ∧ Forall (λ c, p c = true) d ∧ (∀ c r', r = c :: r' → p c = false).
Proof.
  revert d r. induction s as [|c s IH]; simpl; intros d r; [by intros [= <- <-]|].
  destruct (p c) eqn:E.
  - destruct (take_while p s) as [d' r'] eqn:E'. intros [= <- <-]. destruct (IH _ _ eq_refl) as (-> & Hd & Hr).
    split; [done|]. split; [by constructor|done].
  - intros [= <- <-]. split; [done|]. split; [constructor|]. by intros c' r' [= <- _].
Qed.

Lemma take_while_app p d c r : Forall (λ c, p c = true) d → p c = false → take_while p (d ++ c :: r) = (d, c :: r).
Proof. intros Hd Hc. induction Hd as [|x d Hx _ IH]; simpl; [by rewrite Hc|]. by rewrite Hx, IH. Qed.

Lemma skip_id_spec s : ∃ pre, (pre = [] ∨ pre = lit_id) ∧ s = pre ++ skip_id s.
Proof.
  destruct s as [|a [|b [|c s]]]; [by exists []; auto..|]. unfold skip_id. case_bool_decide as H.
  - exists lit_id. split; [by right|]. by rewrite <-H.
  - exists []. auto.
Qed.

Section match_marker.
Context (digit : Z → bool) (Hopen : digit lit_open = false) (Hclose : digit lit_close = false)
  (HI : digit 0x49%Z = false).

Lemma skip_id_digits d r : d ≠ [] → Forall (λ c, digit c = true) d → skip_id (d ++ r) = d ++ r.
Proof.
  intros Hd Hf. destruct d as [|x d]; [done|]. apply Forall_inv in Hf.
  destruct (d ++ r) as [|b [|c s]] eqn:E; simpl; rewrite E; [done..|]. unfold lit_id.
  rewrite bool_decide_false; [done|]. intros [= -> _ _]. congruence.
Qed.

Lemma match_marker_Some s d n :
  match_marker digit s = Some (d, n) ↔ ∃ w r, s = w ++ r ∧ n = length w ∧ marker digit d w.
Proof.
  split.
  - destruct s as [|o s1]; simpl; [done|]. destruct (bool_decide_reflect (o = lit_open)) as [->|]; [|done].
    destruct (skip_id_spec s1) as (pre & Hpre & Hs1). destruct (take_while digit (skip_id s1)) as [d' r] eqn:E.
    destruct (take_while_spec _ _ _ _ E) as (Hs2 & Hd & _). destruct d' as [|x d']; [done|].
    destruct r as [|c r]; [done|]. destruct (bool_decide_reflect (c = lit_close)) as [->|]; [|done].
    intros [= <- <-]. exists (lit_open :: pre ++ (x :: d') ++ [lit_close]), r. split; [|split].
    + simpl. f_equal. rewrite Hs1, Hs2 at 1. rewrite <-!app_assoc. simpl. by rewrite <-app_assoc.
    + rewrite Hs1 at 1. simpl. repeat (rewrite length_app; simpl). lia.
    + exists pre. done.
  - intros (w & r & -> & -> & pre & Hpre & Hne & Hd & ->). simpl. 
    rewrite <-!app_assoc. simpl.
    assert (skip_id (pre ++ d ++ lit_close :: r) = d ++ lit_close :: r) as Hsk.
    { destruct Hpre as [->| ->]; [exact (skip_id_digits d (lit_close :: r) Hne Hd)|reflexivity]. }
    rewrite Hsk, take_while_app by done. destruct d as [|x d]; [done|].
    do 2 f_equal. simpl. repeat (rewrite length_app; simpl). lia.
Qed.

Lemma match_marker_short s d n : match_marker digit s = Some (d, n) → 3 ≤ n ∧ n ≤ length s.
Proof.
  intros (w & r & -> & -> & pre & _ & Hne & _ & ->)%match_marker_Some. destruct d; [done|].
  simpl. repeat (rewrite length_app; simpl). lia.
Qed.

(** No marker starts inside another. *)
Lemma match_marker_inside s d n k : match_marker digit s = Some (d, n) → 0 < k < n →
  match_marker digit (drop k s) = None.
Proof.
  intros (w & r & -> & -> & pre & Hpre & Hne & Hd & Hw)%match_marker_Some Hk.
  destruct (match_marker digit (drop k (w ++ r))) as [[d' n']|] eqn:E; [|done]. exfalso.
  apply match_marker_Some in E as (w' & r' & Hdr & _ & pre' & _ & _ & _ & Hw').
  assert ((w ++ r) !! k = Some lit_open) as Hl.
  { replace k with (k + 0) by lia. rewrite <-lookup_drop, Hdr, Hw'. done. }
  rewrite lookup_app_l in Hl by lia. rewrite Hw in Hl. destruct k as [|k]; [lia|]. simpl in Hl.
  apply list_elem_of_lookup_2 in Hl. apply elem_of_app in Hl as [Hl|Hl].
  - destruct Hpre as [->| ->]; [by apply elem_of_nil in Hl|].
    unfold lit_id in Hl. repeat (apply elem_of_cons in Hl as [Hl|Hl]; [done|]). by apply elem_of_nil in Hl.
  - apply elem_of_app in Hl as [Hl|Hl].
    + rewrite Forall_forall in Hd. specialize (Hd _ Hl). simpl in Hd. congruence.
    + apply list_elem_of_singleton in Hl. done.
Qed.

Lemma exec_from_Some s i d j n : exec_from digit s i = Some (d, j, n) →
  i ≤ j ∧ match_marker digit (drop (j - i) s) = Some (d, n) ∧
  ∀ k, i ≤ k → k < j → match_marker digit (drop (k - i) s) = None.
Proof.
  revert i. induction s as [|c s IH]; intros i; [done|]. cbn [exec_from].
  destruct (match_marker digit (c :: s)) as [[d' n']|] eqn:E.
  - intros [= -> -> ->]. rewrite Nat.sub_diag. split; [lia|]. split; [done|]. intros k ? ?. lia.
  - intros (Hj & Hm & Hk)%IH. split; [lia|]. replace (j - i) with (S (j - S i)) by lia. split; [done|].
    intros k ? ?. destruct (decide (k = i)) as [->|]; [by rewrite Nat.sub_diag|].
    replace (k - i) with (S (k - S i)) by lia. apply Hk; lia.
Qed.

Lemma exec_from_None s i k : exec_from digit s i = None → match_marker digit (drop k s) = None.
Proof.
  revert i k. induction s as [|c s IH]; intros i k; [by rewrite drop_nil|]. cbn [exec_from].
  destruct (match_marker digit (c :: s)) as [[d' n']|] eqn:E; [done|]. intros H.
  destruct k as [|k]; [done|]. by eapply IH.
Qed.
End match_marker.

(** *** All markers are found, in order *)
Definition marker_at (s : text) (i : nat) (d : text) (n : nat) : Prop :=
  match_marker marker_digit (drop i s) = Some (d, n).

Fixpoint ordered_from (p : nat) (ms : list ReferenceMatch) : Prop :=
  match ms with
  | [] => True
  | m :: ms' => p ≤ rm_start m ∧ rm_start m < rm_end m ∧ ordered_from (rm_end m) ms'
  end.

Lemma exec_find s p :
  match exec_from marker_digit (drop p s) p with
  | Some (d, i, n) => p ≤ i ∧ marker_at s i d n ∧ ∀ k, p ≤ k → k < i → match_marker marker_digit (drop k s) = None
  | None => ∀ k, p ≤ k → match_marker marker_digit (drop k s) = None
  end.
Proof.
  destruct (exec_from _ _ _) as [[[d i] n]|] eqn:E.
  - apply exec_from_Some in E as (Hi & Hm & Hk). rewrite drop_drop in Hm. replace (p + (i - p)) with i in Hm by lia.
    split; [done|]. split; [done|]. intros k ? ?. specialize (Hk k). rewrite drop_drop in Hk.
    replace (p + (k - p)) with k in Hk by lia. by apply Hk.
  - intros k Hk. apply (exec_from_None _ _ _ (k - p)) in E. rewrite drop_drop in E.
    by replace (p + (k - p)) with k in E by lia.
Qed.

Lemma find_matches_spec fuel s p : p ≤ length s → length s - p < fuel →
  (∀ m, m ∈ find_matches fuel s p ↔ ∃ i d n, p ≤ i ∧ marker_at s i d n ∧ m = reference_at s d i n) ∧
  ordered_from p (find_matches fuel s p).
Proof.
  revert p. induction fuel as [|fuel IH]; intros p Hp Hf; [lia|]. simpl. pose proof (exec_find s p) as He.
  destruct (exec_from _ _ _) as [[[d i] n]|].
  - destruct He as (Hi & Hm & Hk).
    destruct (match_marker_short marker_digit eq_refl eq_refl _ _ _ Hm) as [Hn1 Hn2].
    rewrite length_drop in Hn2. destruct (IH (i + n)) as [IH1 IH2]; [lia..|]. split.
    + intros m. rewrite elem_of_cons, IH1. split.
      * intros [->|(i' & d' & n' & ? & ? & ->)]; [by exists i, d, n|]. exists i', d', n'. split; [lia|done].
      * intros (i' & d' & n' & Hi' & Hm' & ->). destruct (decide (i' < i)) as [Hlt|Hge].
        { unfold marker_at in Hm'. by rewrite (Hk i') in Hm'. }
        destruct (decide (i' = i)) as [->|Hne]; [left; unfold marker_at in *; by simplify_eq|].
        right. exists i', d', n'. split; [|done]. destruct (decide (i + n ≤ i')) as [|Hin]; [done|]. exfalso.
        pose proof (match_marker_inside marker_digit eq_refl eq_refl eq_refl _ _ _ (i' - i) Hm ltac:(lia)) as Hno.
        rewrite drop_drop in Hno. replace (i + (i' - i)) with i' in Hno by lia. unfold marker_at in Hm'. congruence.
    + simpl. split; [done|]. split; [lia|done].
  - split; [|done]. intros m. split; [by intros ?%elem_of_nil|]. intros (i' & d' & n' & Hi' & Hm' & _).
    unfold marker_at in Hm'. by rewrite He in Hm'.
Qed.

(** *** Groups are maximal runs *)
Fixpoint adjacent (g : list ReferenceMatch) : Prop :=
  match g with
  | a :: (b :: _) as g' => rm_start b = rm_end a ∧ adjacent g'
  | _ => True
  end.

Fixpoint separate (gs : list (list ReferenceMatch)) : Prop :=
  match gs with
  | g :: (h :: _) as gs' => (rm_start <$> head h) ≠ (rm_end <$> last g) ∧ separate gs'
  | _ => True
  end.

Lemma adjacent_snoc g m : adjacent g → Some (rm_start m) = rm_end <$> last g → adjacent (g ++ [m]).
Proof.
  induction g as [|a [|b g] IH]; simpl; [done|by intros _ [= ?]|]. intros [H1 H2] H3. split; [done|]. by apply IH.
Qed.

Lemma group_loop_spec ms cur groups : cur ≠ [] → adjacent cur →
  ∃ g gs, group_loop cur ms groups = groups ++ g :: gs ∧ concat (g :: gs) = cur ++ ms ∧
    Forall (λ g, g ≠ [] ∧ adjacent g) (g :: gs) ∧ separate (g :: gs) ∧ head g = head cur.
Proof.
  revert cur groups. induction ms as [|m ms IH]; intros cur groups Hne Ha; simpl.
  - exists cur, []. rewrite !app_nil_r. repeat split; auto.
  - destruct (bool_decide_reflect (Some (rm_start m) = rm_end <$> last cur)) as [Heq|Hneq].
    + destruct (IH (cur ++ [m]) groups) as (g & gs & -> & Hc & Hf & Hs & Hh); [by destruct cur|by apply adjacent_snoc|].
      exists g, gs. split; [done|]. split; [etrans; [exact Hc|]; by rewrite <-app_assoc|]. split; [done|]. split; [done|].
      rewrite Hh. by destruct cur.
    + destruct (IH [m] (groups ++ [cur])) as (g & gs & -> & Hc & Hf & Hs & Hh); [done..|].
      exists cur, (g :: gs). rewrite <-app_assoc. split; [done|]. split; [exact (f_equal (app cur) Hc)|].
      split; [by constructor|]. split; [|done]. split; [|done]. by rewrite Hh.
Qed.

(** *** Digits and numbers *)
Lemma normalize_char_digit c : marker_digit c = true → ascii_digit (normalize_char c) = true.
Proof.
  unfold marker_digit, arabic_digit, normalize_char, ascii_digit, in_range. simpl. intros H.
  rewrite !orb_true_iff, !andb_true_iff, !Z.leb_le in H.
  destruct ((0x660 <=? c)%Z && (c <=? 0x669)%Z) eqn:E1;
    [|destruct ((0x6f0 <=? c)%Z && (c <=? 0x6f9)%Z) eqn:E2].
  - rewrite andb_true_iff, !Z.leb_le in *. lia.
  - rewrite andb_true_iff, !Z.leb_le in *. lia.
  - rewrite andb_false_iff, !Z.leb_gt in E1, E2. rewrite andb_true_iff, !Z.leb_le. lia.
Qed.

Lemma normalize_marker d w : marker marker_digit d w →
  marker ascii_digit (normalizeCitationDigits d) (normalizeCitationDigits w).
Proof.
  intros (pre & Hpre & Hne & Hd & ->). exists pre. split; [done|]. split; [by destruct d|]. split.
  - apply Forall_forall. intros c Hc. apply list_elem_of_fmap in Hc as (c' & -> & Hc').
    apply normalize_char_digit. rewrite Forall_forall in Hd. by apply Hd.
  - unfold normalizeCitationDigits. simpl. rewrite !map_app. by destruct Hpre as [->| ->].
Qed.

Lemma parse_marker d w : marker marker_digit d w →
  parseCitationIndex w = Some (number_of (normalizeCitationDigits d)).
Proof.
  intros Hm%normalize_marker. unfold parseCitationIndex.
  assert (match_marker ascii_digit (normalizeCitationDigits w) =
    Some (normalizeCitationDigits d, length (normalizeCitationDigits w))) as He.
  { apply (match_marker_Some ascii_digit eq_refl eq_refl). exists (normalizeCitationDigits w), [].
    by rewrite app_nil_r. }
  destruct (normalizeCitationDigits w) as [|c w'] eqn:Ew; [done|]. cbn [exec_from]. by rewrite He.
Qed.

Lemma marker_at_slice s i d n : marker_at s i d n → i + n ≤ length s ∧ marker marker_digit d (slice i (i + n) s).
Proof.
  intros H. destruct (match_marker_short marker_digit eq_refl eq_refl _ _ _ H) as [H3 Hn]. split.
  { rewrite length_drop in Hn. lia. }
  apply (match_marker_Some marker_digit eq_refl eq_refl) in H as (w & r & Hs & -> & Hw).
  unfold slice. rewrite Hs. replace (i + length w - i) with (length w) by lia. by rewrite take_app_length.
Qed.

Lemma slice_marker_at s i d n : i + n ≤ length s → marker marker_digit d (slice i (i + n) s) → marker_at s i d n.
Proof.
  intros Hn Hw. apply (match_marker_Some marker_digit eq_refl eq_refl).
  exists (slice i (i + n) s), (drop (i + n) s). unfold slice in *. replace (i + n - i) with n in * by lia.
  split; [|split; [|done]].
  - rewrite <-(take_drop n (drop i s)) at 1. f_equal. by rewrite drop_drop.
  - rewrite length_take, length_drop. lia.
Qed.

(** C31: The citations of a text.  The matches are exactly the occurrences of
    a marker, a bracket with an optional [ID:] around digits of one of three
    scripts, from left to right without overlap; each parses to the number of
    its digits.  The groups are the matches cut exactly where two neighbours do
    not touch. *)
Theorem citations_found s :
  (∀ m, m ∈ findAllReferenceMatches s ↔
     ∃ d, rm_end m ≤ length s ∧ rm_start m ≤ rm_end m ∧ rm_id m = normalizeCitationDigits d ∧
          fullMatch m = slice (rm_start m) (rm_end m) s ∧ marker marker_digit d (fullMatch m)) ∧
  ordered_from 0 (findAllReferenceMatches s) ∧
  (∀ m, m ∈ findAllReferenceMatches s → parseCitationIndex (fullMatch m) = Some (number_of (rm_id m))) ∧
  extractNumbersFromMessageContent s = (λ m, number_of (rm_id m)) <$> findAllReferenceMatches s ∧
  concat (groupConsecutiveReferences s) = findAllReferenceMatches s ∧
  Forall (λ g, g ≠ [] ∧ adjacent g) (groupConsecutiveReferences s) ∧ separate (groupConsecutiveReferences s).
Proof.
  destruct (find_matches_spec (S (length s)) s 0 ltac:(lia) ltac:(lia)) as [Hf Ho].
  fold (findAllReferenceMatches s) in Hf, Ho.
  assert (∀ m, m ∈ findAllReferenceMatches s → parseCitationIndex (fullMatch m) = Some (number_of (rm_id m))) as Hp.
  { intros m (i & d & n & _ & Hm & ->)%Hf. apply marker_at_slice in Hm as [_ Hm]. by apply parse_marker. }
  split; [|split; [done|split; [done|split]]].
  - intros m. rewrite Hf. split.
    + intros (i & d & n & _ & Hm & ->). apply marker_at_slice in Hm as [Hn Hm]. exists d. simpl. split; [done|].
      split; [lia|done].
    + intros (d & Hn & Hle & Hid & Hfull & Hm). destruct m as [id full a b]. simpl in *. subst.
      exists a, d, (b - a). split; [lia|]. unfold reference_at. replace (a + (b - a)) with b by lia. split; [|done].
      apply slice_marker_at; replace (a + (b - a)) with b by lia; done.
  - unfold extractNumbersFromMessageContent. clear Hf Ho. induction (findAllReferenceMatches s) as [|m ms IH]; [done|].
    simpl. rewrite (Hp m) by set_solver. f_equal. apply IH. intros. apply Hp. set_solver.
  - unfold groupConsecutiveReferences. destruct (findAllReferenceMatches s) as [|m ms]; [done|].
    destruct (group_loop_spec ms [m] []) as (g & gs & -> & Hc & Hg & Hs & _); done.
Qed.

(** [see [ID:1][2]] has one run of two citations, and [##3$$] becomes one. *)
Example two_touching :
  let s := [0x73; 0x20; 0x5b; 0x49; 0x44; 0x3a; 0x31; 0x5d; 0x5b; 0x662; 0x5d]%Z in
  length <$> groupConsecutiveReferences s = [2] ∧ extractNumbersFromMessageContent s = [1; 2]%Z ∧
  shouldShowCarousel (concat (groupConsecutiveReferences s)) [None; Some "image"; Some "table"] = true ∧
  extractNumbersFromMessageContent (replaceTextByOldReg [0x23; 0x23; 0x33; 0x24; 0x24]%Z) = [3]%Z.
Proof. vm_compute. done. Qed.

(** ** The direction of a text *)
Definition rtl_char (c : Z) : bool := negb (skipped c) && isRTLCharCode c.
Definition ltr_char (c : Z) : bool := negb (skipped c) && negb (isRTLCharCode c) && ltr_letter c.
Definition strong (c : Z) : bool := rtl_char c || ltr_char c.

Lemma direction_of_cons c s :
  direction_of (c :: s) = if rtl_char c then DirRtl else if ltr_char c then DirLtr else direction_of s.
Proof. unfold rtl_char, ltr_char. simpl. by destruct (skipped c), (isRTLCharCode c), (ltr_letter c). Qed.

Lemma low_surrogate_weak c : low_surrogate c = true → rtl_char c = false ∧ ltr_char c = false ∧ isRTLCharCode c = false.
Proof.
  unfold low_surrogate, in_range. simpl. rewrite andb_true_iff, !Z.leb_le. intros [H1 H2].
  assert (isRTLCharCode c = false) as HR.
  { unfold isRTLCharCode. apply js_some_false. intros r Hr.
    repeat (apply elem_of_cons in Hr as [->|Hr]; [unfold in_range; cbn [fst snd];
      rewrite andb_false_iff, !Z.leb_gt; lia|]). by apply elem_of_nil in Hr. }
  assert (ltr_letter c = false) as HL.
  { unfold ltr_letter. apply js_some_false. intros r Hr.
    repeat (apply elem_of_cons in Hr as [->|Hr]; [unfold in_range; cbn [fst snd];
      rewrite andb_false_iff, !Z.leb_gt; lia|]). by apply elem_of_nil in Hr. }
  unfold rtl_char, ltr_char. rewrite HR, HL. by rewrite !andb_false_r.
Qed.

(** Going over code points or over code units is the same: what is skipped is
    the second half of a pair, which no test of the code accepts. *)
Lemma char_codes_fold {A} (f : list Z → A) :
  (∀ c s s', f s = f s' → f (c :: s) = f (c :: s')) →
  (∀ c s, low_surrogate c = true → f (c :: s) = f s) →
  ∀ s, f (char_codes s) = f s.
Proof.
  intros Hcong Hlow s. remember (length s) as n eqn:Hn. revert s Hn.
  induction n as [n IH] using lt_wf_ind. intros [|c [|d s]] ->; [done..|].
  cbn [char_codes]. destruct (high_surrogate c && low_surrogate d) eqn:E; apply Hcong.
  - apply andb_true_iff in E as [_ E]. rewrite Hlow by done. eapply IH; [|done]. simpl. lia.
  - change (f (char_codes (d :: s)) = f (d :: s)). eapply IH; [|done]. simpl. lia.
Qed.

Lemma getTextDirection_units s : getTextDirection s = direction_of s.
Proof.
  apply (char_codes_fold direction_of).
  - intros c s1 s2 H. rewrite !direction_of_cons. by rewrite H.
  - intros c s1 (H1 & H2 & _)%low_surrogate_weak. by rewrite direction_of_cons, H1, H2.
Qed.

Lemma containsRTL_units s : containsRTL s = js_some isRTLCharCode s.
Proof.
  apply (char_codes_fold (js_some isRTLCharCode)).
  - intros c s1 s2 H. simpl. by rewrite H.
  - intros c s1 (_ & _ & H)%low_surrogate_weak. simpl. by rewrite H.
Qed.

Lemma direction_first s :
  direction_of s = match js_find strong s with
                   | Some c => if rtl_char c then DirRtl else DirLtr
                   | None => DirNeutral
                   end.
Proof.
  induction s as [|c s IH]; [done|]. rewrite direction_of_cons. unfold js_find in *. cbn [List.find].
  unfold strong at 1. destruct (rtl_char c) eqn:E1; simpl; [by rewrite E1|].
  destruct (ltr_char c) eqn:E2; [by rewrite E1|done].
Qed.

(** The direction of a text is that of its first strong character, a
    character that is no blank, digit or punctuation and lies in one of the
    ranges of the code; without one it is neutral and the attribute is [auto].
    Surrogate pairs change nothing: the code units decide alone. *)
Theorem text_direction s :
  getTextDirection s = match js_find strong s with
                       | Some c => if rtl_char c then DirRtl else DirLtr
                       | None => DirNeutral
                       end ∧
  (containsRTL s = true ↔ ∃ c, c ∈ s ∧ isRTLCharCode c = true) ∧
  (isRTL s = true → containsRTL s = true) ∧
  (getDirAttribute s = AttrAuto ↔ Forall (λ c, strong c = false) s).
Proof.
  split; [by rewrite getTextDirection_units, direction_first|].
  split; [by rewrite containsRTL_units, js_some_true|]. split.
  - unfold isRTL. rewrite bool_decide_eq_true, getTextDirection_units, direction_first, containsRTL_units, js_some_true.
    destruct (js_find strong s) as [c|] eqn:E; [|done]. apply js_find_Some in E as [Hc _].
    destruct (rtl_char c) eqn:Er; [|done]. intros _. exists c. split; [done|].
    unfold rtl_char in Er. by apply andb_true_iff in Er as [_ ?].
  - unfold getDirAttribute. rewrite getTextDirection_units, direction_first, Forall_forall.
    destruct (js_find strong s) as [c|] eqn:E.
    + apply js_find_Some in E as [Hc Hs]. split; [by destruct (rtl_char c)|]. intros H. specialize (H c Hc). congruence.
    + rewrite js_find_None in E. split; [|done]. intros _ c Hc. by apply E.
Qed.

(** A letter outside the ranges is skipped although it is a letter: Chinese
    text followed by an Arabic word is set from right to left. *)
Lemma other_letters_skipped :
  getTextDirection [0x4e2d; 0x6587; 0x20; 0x639]%Z = DirRtl ∧
  getTextDirection [0x4e2d; 0x6587]%Z = DirNeutral.
Proof. vm_compute. done. Qed.
