(* ===== verification/Models.v ===== *)
(** * Models and requests

    utils/llm-util.ts and utils/llm-cache.ts: the identifiers of models
    ([name@factory]), the cached list of models, and the tenant's identifiers
    added to the data of a request; the interceptors of utils/request.ts and
    utils/next-request.ts through which every request and reply passes; and
    the options of a model select (hooks/use-llm-request.tsx). *)
From S2P Require Import Prelude JsValue FormUtils.
From Stdlib Require Import Ascii.
Open Scope list_scope.
Open Scope nat_scope.
Open Scope js_scope.

(** ** Identifiers of models *)

(** [s.split(sep).at(0)] for a separator of two characters. *)
Fixpoint before_two (a b : ascii) (s : string) : string :=
  match s with
  | String x ((String y _) as s') => if (x === a) && (y === b) then "" else String x (before_two a b s')
  | _ => s
  end.

Definition getLLMIconName (fid llm_name : string) : string :=
  if fid === "FastEmbed" then default "" (head (js_split "/" llm_name)) else fid.

(** [const [llmName, fId] = llmId?.split('@') || []] *)
Definition getLlmNameAndFIdByLlmId (llmId : option string) : option string * option string :=
  match llmId with
  | Some i => let parts := js_split "@" i in (parts !! 0, parts !! 1)
  | None => (None, None)
  end.

Definition getRealModelName (llmName : string) : string := before_two "_" "_" llmName.

Definition buildLlmUuid (llm_name fid : string) : string := llm_name +:+ "@" +:+ fid.

Definition parseModelUuid (uuid : string) : option string * option string :=
  let parts := js_split "@" uuid in (parts !! 0, parts !! 1).

(** ** The tenant's identifier of a model *)

Fixpoint find_model (p : val → outcome bool) (l : list val) : outcome (option val) :=
  match l with
  | [] => Ok None
  | m :: l' => b ← p m; if (b : bool) then Ok (Some m) else find_model p l'
  end.

(** The loop over the providers, in both formats of the list. *)
Fixpoint provider_loop (es : obj) (modelName factoryId : val) : outcome val :=
  match es with
  | [] => Ok (VStr "")
  | (provider, data) :: es' =>
      llm ← read "llm" data;
      model ← match llm, data with
              | VArr ms, _ =>
                  find_model (λ m, name ← read "name" m; Ok ((name === modelName) && (VStr provider === factoryId))) ms
              | _, VArr ms =>
                  find_model (λ m, name ← read "llm_name" m;
                    if name === modelName then Ok (prop "fid" m === factoryId) else Ok false) ms
              | _, _ => Ok None
              end;
      match model with
      | Some m => if truthy m && truthy (prop "id" m) then Ok (prop "id" m) else provider_loop es' modelName factoryId
      | None => provider_loop es' modelName factoryId
      end
  end.

Definition getTenantModelId (llmList : val) (modelName factoryId : option string) : outcome val :=
  provider_loop (obj_entries (obj_of_val llmList)) (of_ostr modelName) (of_ostr factoryId).

Definition modelParamMap : list (string * string) :=
  [("llm_id", "tenant_llm_id"); ("embd_id", "tenant_embd_id"); ("asr_id", "tenant_asr_id");
   ("tts_id", "tenant_tts_id"); ("img2txt_id", "tenant_img2txt_id"); ("rerank_id", "tenant_rerank_id")].

Definition API_WHITELIST : list string :=
  ["/v1/user/set_tenant_info"; "/v1/dialog/set"; "/v1/canvas/set"; "/v1/canvas/setting"; "/v1/search/update";
   "/api/v1/memories"; "/v1/kb/create"; "/v1/kb/update"; "/v1/dataflow/set"].

Definition isUrlInWhitelist (url : string) : bool := js_some (λ endpoint, str_includes endpoint url) API_WHITELIST.

(** The body of the [try]: a value that is no text, or a list that cannot be
    read, throws and the parameter is left out. *)
Definition tenant_id_of (llmList v : val) : option val :=
  if truthy v then
    match v with
    | VStr u =>
        let '(modelName, factoryId) := parseModelUuid u in
        match getTenantModelId llmList modelName factoryId with
        | Ok t => if truthy t then Some t else None
        | _ => None
        end
    | _ => None
    end
  else None.

Definition add_param (llmList : val) (newData : obj) (p : string * string) : obj :=
  match tenant_id_of llmList (obj_get p.1 newData) with
  | Some t => obj_set p.2 t newData
  | None => newData
  end.

Definition is_model_param (k : string) : bool := js_some (λ p, p.1 === k) modelParamMap.

(** [value && typeof value === 'object'] *)
Definition is_object (v : val) : bool := match v with VArr _ | VObj _ => true | _ => false end.

(** The recursion of [addTenantParams] once the list was read; a cached list
    that is still valid at the first level is so at all of them.  [None] is
    running out of fuel. *)
Fixpoint add_tenant (fuel : nat) (llmList data : val) : option val :=
  match fuel with
  | O => None
  | S fuel =>
      match data with
      | VArr l => l' ← mapM (add_tenant fuel llmList) l; Some (VArr l')
      | VObj o =>
          let newData := foldl (add_param llmList) (obj_assign [] o) modelParamMap in
          o' ← foldl (λ acc kv, acc ← acc;
                 if is_object kv.2 && negb (is_model_param kv.1)
                 then v ← add_tenant fuel llmList kv.2; Some (obj_set kv.1 v acc)
                 else Some acc) (Some newData) (obj_entries newData);
          Some (VObj o')
      | _ => Some data
      end
  end.

(** ** The cached list

    localStorage holds no entry, an entry that does not parse, or a list with
    the time it was stored at. *)
Record llm_cache := { cache_data : val; timestamp : Z }.

Definition CACHE_DURATION : Z := (5 * 60 * 1000)%Z.

Definition getCachedLlmList (now : Z) (st : option (option llm_cache)) : val * option (option llm_cache) :=
  match st with
  | None => (VNull, st)
  | Some None => (VNull, None)
  | Some (Some c) =>
      if (CACHE_DURATION <? now - timestamp c)%Z then (VNull, None) else (cache_data c, st)
  end.

Definition setCachedLlmList (now : Z) (data : val) : option (option llm_cache) :=
  Some (Some {| cache_data := json_norm data; timestamp := now |}).

Definition isLlmListCached (now : Z) (st : option (option llm_cache)) : bool :=
  fst (getCachedLlmList now st) !== VNull.

(** [addTenantParams(data, url)] *)
Definition addTenantParams (fuel : nat) (now : Z) (data : val) (url : option string)
    (st : option (option llm_cache)) : option val * option (option llm_cache) :=
  if negb (is_object data) then (Some data, st)
  else if match url with Some ((String _ _) as u) => negb (isUrlInWhitelist u) | _ => false end then (Some data, st)
  else let '(llmList, st) := getCachedLlmList now st in
       if truthy llmList then (add_tenant fuel llmList data, st) else (Some data, st).

(** ** The interceptors of replies

    One page's state: whether a redirect to the login page is under way, the
    cached list, and what was done, last thing last. *)
Inductive effect :=
  | ErrorText (text : val)                     (* message.error *)
  | NoteText (text : val)                      (* notification.error with one text *)
  | NoteCode (code text : val)                 (* ... with the code as title *)
  | NoteStatus (status : Z) (url text : val)   (* ... with status and address *)
  | NoteNetwork
  | ClearAuth                                  (* authorizationUtil.removeAll *)
  | Redirect.                                  (* redirectToLogin *)

#[export] Instance effect_eq_dec : EqDecision effect.
Proof. solve_decision. Defined.

Record client := {
  isRedirecting : bool;
  llmCache : option (option llm_cache);
  done_log : list effect
}.

Definition do_effects (es : list effect) (c : client) : client :=
  {| isRedirecting := isRedirecting c; llmCache := llmCache c; done_log := done_log c ++ es |}.

(** A reply: its body is [None] when it does not parse. *)
Record reply := { rp_status : Z; rp_blob : bool; rp_url : string; rp_statusText : val; rp_body : option val }.

Definition num_is (z : Z) (v : val) : bool := v === VNum (num_of_Z z).

Section interceptors.

(** The texts of the result codes, translated. *)
Context (RetcodeMessage : Z → val).

(** [if (!isRedirecting) { isRedirecting = true; ... }] *)
Definition redirect_once (text : val) (c : client) : client :=
  if isRedirecting c then c
  else {| isRedirecting := true; llmCache := llmCache c; done_log := done_log c ++ [NoteText text; ClearAuth; Redirect] |}.

(** The list of models is kept when it passes. *)
Definition cache_step (now : Z) (r : reply) (data : val) (c : client) : client :=
  if num_is 0 (prop "code" data) && truthy (prop "data" data) &&
     (str_includes "/v1/llm/my_llms" (rp_url r) || str_includes "/v1/llm/list" (rp_url r))
  then {| isRedirecting := isRedirecting c; llmCache := setCachedLlmList now (prop "data" data); done_log := done_log c |}
  else c.

Definition status_step (r : reply) (c : client) : client :=
  if (rp_status r =? 413)%Z || (rp_status r =? 504)%Z then do_effects [ErrorText (RetcodeMessage (rp_status r))] c else c.

(** utils/next-request.ts, a reply *)
Definition next_response (now : Z) (r : reply) (c : client) : client :=
  let c := status_step r c in
  if rp_blob r then c
  else
    let data := default VUndef (rp_body r) in
    let c := cache_step now r data c in
    let code := prop "code" data in
    if num_is 100 code then do_effects [ErrorText (prop "message" data)] c
    else if num_is 401 code then redirect_once (prop "message" data) c
    else if num_is 0 code then c
    else do_effects [NoteCode code (prop "message" data)] c.

(** [errorHandler], on an error with or without a reply *)
Definition errorHandler (message : string) (r : option reply) (c : client) : client :=
  if message === "Failed to fetch" then do_effects [NoteNetwork] c
  else match r with
       | Some r =>
           if (rp_status r =? 0)%Z then c
           else do_effects [NoteStatus (rp_status r) (VStr (rp_url r))
                              (js_or (RetcodeMessage (rp_status r)) (rp_statusText r))] c
       | None => c
       end.

(** utils/next-request.ts, an error *)
Definition next_error (message : string) (r : option reply) (c : client) : client :=
  match r with
  | Some r' =>
      if (rp_status r' =? 401)%Z
      then redirect_once (js_or (prop "message" (default VUndef (rp_body r'))) (RetcodeMessage 401)) c
      else errorHandler message r c
  | None => errorHandler message r c
  end.

(** utils/request.ts, a reply; one whose body does not parse is rejected after
    what was done up to there. *)
Definition umi_response (now : Z) (r : reply) (c : client) : client :=
  let c := status_step r c in
  if (rp_status r =? 401)%Z then
    redirect_once (js_or (prop "message" (default VUndef (rp_body r))) (RetcodeMessage 401)) c
  else if rp_blob r then c
  else match rp_body r with
       | None => c
       | Some data =>
           let c := cache_step now r data c in
           let code := prop "code" data in
           if num_is 100 code then do_effects [ErrorText (prop "message" data)] c
           else if num_is 401 code then do_effects [ClearAuth; Redirect] (redirect_once (prop "message" data) c)
           else if num_is 0 code then c
           else do_effects [NoteCode code (prop "message" data)] c
       end.

(** What happens to the requests of a page. *)
Inductive net_event := Replied (now : Z) (r : reply) | Failed (message : string) (r : option reply).

Definition next_event (c : client) (e : net_event) : client :=
  match e with Replied now r => next_response now r c | Failed m r => next_error m r c end.

End interceptors.

(** ** The keys of a request

    [convertTheKeysOfTheObjectToSnake] on a JSON value: [isObject] of lodash
    accepts arrays, whose keys are their indices. *)
Definition excludedFields : list string := ["img2txt_id"; "mcpServers"; "image_base64"].

Definition isExcludedField (key : string) : bool := js_some (λ excl, excl === key) excludedFields.

Definition index_entries (l : list val) : obj := imap (λ i v, (pretty (N.of_nat i), v)) l.

Definition convertTheKeysOfTheObjectToSnake (snakeCase : string → string) (data : val) : val :=
  let convert es := foldl (λ pre kv, obj_set (if isExcludedField kv.1 then kv.1 else snakeCase kv.1) kv.2 pre) [] es in
  match data with
  | VObj o => VObj (convert (obj_entries o))
  | VArr l => VObj (convert (index_entries l))
  | _ => data
  end.

(** The interceptor of requests: the data that is sent. *)
Definition request_data (snakeCase : string → string) (fuel : nat) (now : Z) (data : val) (url : option string)
    (st : option (option llm_cache)) : option val * option (option llm_cache) :=
  addTenantParams fuel now (convertTheKeysOfTheObjectToSnake snakeCase data) url st.

(** ** The options of a model select *)
Record model := {
  mo_available : bool;
  mo_fid : string;
  mo_llm_name : string;
  mo_model_type : string;
  mo_status : string;
  mo_tags : string;
  mo_is_tools : bool
}.

(** The collection, its providers in enumeration order. *)
Definition collection_of_models := list (string * list model).

Record llm_option := {
  op_icon : string;
  op_name : string;
  op_value : string;
  op_disabled : bool;
  op_is_tools : bool
}.

Record llm_group := { lg_label : string; lg_options : list llm_option }.

Definition useSelectFlatLlmList (llmList : collection_of_models) : list (model * string) :=
  foldl (λ pre cur, pre ++ map (λ x, (x, buildLlmUuid (mo_llm_name x) (mo_fid x))) cur.2) [] llmList.

Definition useFindLlmByUuid (llmList : collection_of_models) (uuid : string) : option (model * string) :=
  js_find (λ x, x.2 === uuid) (useSelectFlatLlmList llmList).

Definition buildLlmOptionsWithIcon (x : model) : llm_option :=
  {| op_icon := getLLMIconName (mo_fid x) (mo_llm_name x); op_name := getRealModelName (mo_llm_name x);
     op_value := mo_llm_name x +:+ "@" +:+ mo_fid x; op_disabled := negb (mo_available x);
     op_is_tools := mo_is_tools x |}.

Definition nonempty_groups (l : list llm_group) : list llm_group := js_filter (λ x, negb (bool_decide (length (lg_options x) = 0))) l.

Definition groupImage2TextOptions (llmInfo : collection_of_models) : list llm_group :=
  nonempty_groups (map (λ kv,
    {| lg_label := kv.1;
       lg_options := map buildLlmOptionsWithIcon
         (js_filter (λ x, (str_includes "image2text" (mo_model_type x) || str_includes "IMAGE2TEXT" (mo_tags x)) &&
                          mo_available x && (mo_status x === "1")) kv.2) |}) llmInfo).

Definition groupOptionsByModelType (llmInfo : collection_of_models) (modelType : string) : list llm_group :=
  nonempty_groups (map (λ kv,
    {| lg_label := kv.1;
       lg_options := map buildLlmOptionsWithIcon
         (js_filter (λ x, ((modelType === "") || str_includes modelType (mo_model_type x)) && mo_available x) kv.2) |})
    (js_filter (λ kv, (modelType === "") || js_some (λ x, str_includes modelType (mo_model_type x)) kv.2) llmInfo)).

(** [allOptions[modelType]] *)
Definition options_of_type (llmInfo : collection_of_models) (modelType : string) : list llm_group :=
  if modelType === "image2text" then groupImage2TextOptions llmInfo else groupOptionsByModelType llmInfo modelType.

(** [item.options.push(y)] for the values [item] does not have *)
Definition push_option (options : list llm_option) (y : llm_option) : list llm_option :=
  if js_some (λ z, op_value z === op_value y) options then options else options ++ [y].

(** The first group with the label takes the options; [None] without one. *)
Fixpoint merge_group (x : llm_group) (pre : list llm_group) : option (list llm_group) :=
  match pre with
  | [] => None
  | item :: pre' =>
      if lg_label item === lg_label x
      then Some ({| lg_label := lg_label item; lg_options := foldl push_option (lg_options item) (lg_options x) |} :: pre')
      else cons item <$> merge_group x pre'
  end.

Definition compose_step (pre : list llm_group) (x : llm_group) : list llm_group :=
  match merge_group x pre with Some pre' => pre' | None => pre ++ [x] end.

Definition useComposeLlmOptionsByModelTypes (llmInfo : collection_of_models) (modelTypes : list string) : list llm_group :=
  foldl (λ pre cur, foldl compose_step pre (options_of_type llmInfo cur)) [] modelTypes.

(** [useSelectLlmList]: the user's models with the logo of their factory, and
    the factories the user has none of. *)
Definition nextMyLlmList (myLlmList : obj) (factoryList : list obj) : list obj :=
  map (λ kv,
    let logo := match js_find (λ x, obj_get "name" x === VStr kv.1) factoryList with
                | Some x => js_coalesce (obj_get "logo" x) (VStr "")
                | None => VStr ""
                end in
    obj_set "llm"
      (match prop "llm" kv.2 with
       | VArr l => VArr (map (λ x, VObj (obj_set "name" (prop "name" x) (obj_assign [] (obj_of_val x)))) l)
       | _ => VUndef
       end)
      (obj_assign [("name", VStr kv.1); ("logo", logo)] (obj_of_val kv.2))) (obj_entries myLlmList).

Definition nextFactoryList (myLlmList : obj) (factoryList : list obj) : list obj :=
  js_filter (λ x, js_every (λ y, VStr y !== obj_get "name" x) (obj_keys myLlmList)) factoryList.

(** ** What the tenant's identifiers are added to

    The reference: inside arrays and objects, every property that names a
    model of the list gets its tenant property beside it; all else stays. *)
Definition tenant_for (llmList : val) (o : obj) (k : string) : option val :=
  match js_find (λ p, p.2 === k) modelParamMap with
  | Some p => tenant_id_of llmList (obj_get p.1 o)
  | None => None
  end.

#[warnings="-register-all"]
Inductive tenanted (llmList : val) : val → val → Prop :=
  | tenanted_other v : is_object v = false → tenanted llmList v v
  | tenanted_array l l' : Forall2 (tenanted llmList) l l' → tenanted llmList (VArr l) (VArr l')
  | tenanted_object o o' :
      (∀ k t, tenant_for llmList o k = Some t → obj_lookup k o' = Some t) →
      (∀ k, tenant_for llmList o k = None → obj_lookup k o = None → obj_lookup k o' = None) →
      (∀ k v, tenant_for llmList o k = None → obj_lookup k o = Some v → is_model_param k = true →
        obj_lookup k o' = Some v) →
      (∀ k v, tenant_for llmList o k = None → obj_lookup k o = Some v → is_model_param k = false →
        ∃ v', obj_lookup k o' = Some v' ∧ tenanted llmList v v') →
      tenanted llmList (VObj o) (VObj o').

#[warnings="-register-all"]
Inductive deep_wf : val → Prop :=
  | deep_other v : is_object v = false → deep_wf v
  | deep_array l : Forall deep_wf l → deep_wf (VArr l)
  | deep_object o : obj_wf o → Forall (λ kv, deep_wf kv.2) o → deep_wf (VObj o).

(** The identifiers in the list are no objects. *)
Definition plain_ids (llmList : val) : Prop := ∀ v t, tenant_id_of llmList v = Some t → is_object t = false.

Section tenant.
Context (llmList : val).

Lemma add_params_lookup (ps : list (string * string)) nd k :
  NoDup ps.*2 → (∀ p q, p ∈ ps → q ∈ ps → p.1 ≠ q.2) →
  obj_lookup k (foldl (add_param llmList) nd ps) =
  match js_find (λ p, p.2 === k) ps with
  | Some p => match tenant_id_of llmList (obj_get p.1 nd) with Some t => Some t | None => obj_lookup k nd end
  | None => obj_lookup k nd
  end.
Proof.
  revert nd. induction ps as [|p ps IH]; intros nd Hnd Hd; [done|]. apply NoDup_cons in Hnd as [Hp Hnd].
  cbn [foldl]. rewrite IH by set_solver.
  assert (∀ q, q ∈ p :: ps → obj_get q.1 (add_param llmList nd p) = obj_get q.1 nd) as Hget.
  { intros q Hq. unfold add_param. destruct (tenant_id_of _ _); [|done].
    rewrite obj_get_set_ne; [done|]. intros H. by apply (Hd q p); [..|set_solver|]. }
  assert (∀ k', k' ≠ p.2 → obj_lookup k' (add_param llmList nd p) = obj_lookup k' nd) as Hne.
  { intros k' Hk'. unfold add_param. destruct (tenant_id_of _ _); [|done]. by rewrite obj_lookup_set_ne. }
  unfold js_find. cbn [List.find]. destruct (bool_decide_reflect (p.2 = k)) as [<-|Hk].
  - assert (List.find (λ q, q.2 === p.2) ps = None) as ->.
    { apply js_find_None. intros q Hq. apply bool_decide_eq_false. intros He. apply Hp. rewrite <-He.
      by apply list_elem_of_fmap_2. }
    unfold add_param. destruct (tenant_id_of llmList (obj_get p.1 nd)); [|done]. apply obj_lookup_set_eq.
  - destruct (List.find (λ q, q.2 === k) ps) as [q|] eqn:E; [|by apply Hne].
    rewrite Hget by (apply js_find_Some in E as [? _]; set_solver).
    destruct (tenant_id_of _ _); [done|]. by apply Hne.
Qed.

Lemma add_params_wf (ps : list (string * string)) nd : obj_wf nd → obj_wf (foldl (add_param llmList) nd ps).
Proof.
  revert nd. induction ps as [|p ps IH]; intros nd H; [done|]. apply IH. unfold add_param.
  destruct (tenant_id_of _ _); [by apply obj_set_wf|done].
Qed.

Lemma modelParamMap_lookup o k : obj_wf o →
  obj_lookup k (foldl (add_param llmList) (obj_assign [] o) modelParamMap) =
  match tenant_for llmList o k with Some t => Some t | None => obj_lookup k o end.
Proof.
  intros Hwf. rewrite add_params_lookup.
  - unfold tenant_for.
    assert (∀ k, obj_lookup k (obj_assign [] o) = obj_lookup k o) as Hl.
    { intros k'. rewrite obj_assign_lookup by done. by destruct (obj_lookup k' o). }
    destruct (js_find _ _) as [p|]; [|apply Hl]. unfold obj_get. rewrite !Hl. done.
  - apply (bool_decide_unpack _). vm_compute. exact I.
  - intros p q Hp Hq. unfold modelParamMap in *.
    repeat (apply elem_of_cons in Hp as [->|Hp]; [repeat (apply elem_of_cons in Hq as [->|Hq]; [done|]);
      by apply elem_of_nil in Hq|]). by apply elem_of_nil in Hp.
Qed.

(** The loop over the properties. *)
Definition rec_step (fuel : nat) (acc : option obj) (kv : string * val) : option obj :=
  acc ← acc;
  if is_object kv.2 && negb (is_model_param kv.1)
  then v ← add_tenant fuel llmList kv.2; Some (obj_set kv.1 v acc)
  else Some acc.

Lemma rec_loop fuel (es acc : obj) :
  NoDup es.*1 → (∀ k v, (k, v) ∈ es → obj_lookup k acc = Some v) →
  (∀ k v, (k, v) ∈ es → is_object v = true → is_model_param k = false → is_Some (add_tenant fuel llmList v)) →
  ∃ o', foldl (rec_step fuel) (Some acc) es = Some o' ∧
    (∀ k, k ∉ es.*1 → obj_lookup k o' = obj_lookup k acc) ∧
    (∀ k v, (k, v) ∈ es →
       obj_lookup k o' = if is_object v && negb (is_model_param k) then add_tenant fuel llmList v else Some v).
Proof.
  revert acc. induction es as [|[k v] es IH]; intros acc Hnd Hacc Htot.
  { exists acc. split; [done|]. split; [done|]. by intros ?? ?%elem_of_nil. }
  apply NoDup_cons in Hnd as [Hk Hnd]. simpl in Hk.
  assert (∃ acc', rec_step fuel (Some acc) (k, v) = Some acc' ∧ (∀ k', k' ≠ k → obj_lookup k' acc' = obj_lookup k' acc) ∧
    obj_lookup k acc' = if is_object v && negb (is_model_param k) then add_tenant fuel llmList v else Some v)
    as (acc' & Hs & Hne & Heq).
  { unfold rec_step. simpl. destruct (is_object v && negb (is_model_param k)) eqn:E.
    - apply andb_true_iff in E as [E1 E2%negb_true_iff]. destruct (Htot k v ltac:(set_solver) E1 E2) as [v' ->].
      exists (obj_set k v' acc). split; [done|]. split; [|apply obj_lookup_set_eq].
      intros k' Hk'. by rewrite obj_lookup_set_ne.
    - exists acc. split; [done|]. split; [done|]. apply Hacc. set_solver. }
  destruct (IH acc' Hnd) as (o' & Ho' & H1 & H2).
  - intros k' v' Hin. rewrite Hne; [apply Hacc; set_solver|]. intros ->. apply Hk.
    apply list_elem_of_fmap. by exists (k, v').
  - intros k' v' Hin. apply Htot. set_solver.
  - exists o'. split; [cbn [foldl]; by rewrite Hs|]. split.
    + intros k' Hk'. rewrite H1 by set_solver. apply Hne. set_solver.
    + intros k' v' [[= -> ->]|Hin]%elem_of_cons; [by rewrite H1|by apply H2].
Qed.

Lemma mapM_total {A B} (f : A → option B) (R : A → B → Prop) l :
  (∀ x, x ∈ l → ∃ y, f x = Some y ∧ R x y) → ∃ k, mapM f l = Some k ∧ Forall2 R l k.
Proof.
  induction l as [|x l IH]; intros H; [by exists []|].
  destruct (H x) as (y & Hy & Hr); [set_solver|]. destruct IH as (k & Hk & Hf); [set_solver|].
  exists (y :: k). simpl. rewrite Hy, Hk. by split; [|constructor].
Qed.

Lemma is_object_cases v : is_object v = true → (∃ l, v = VArr l) ∨ ∃ o, v = VObj o.
Proof. destruct v; try done; eauto. Qed.

Lemma val_size_item (l : list val) x : x ∈ l → val_size x < val_size (VArr l).
Proof.
  intros Hin. simpl. induction l as [|y l IH]; [by apply elem_of_nil in Hin|]. simpl.
  apply elem_of_cons in Hin as [->|Hin]; [lia|]. apply IH in Hin. lia.
Qed.

Lemma add_tenant_spec fuel v : plain_ids llmList → deep_wf v → val_size v ≤ fuel →
  ∃ v', add_tenant fuel llmList v = Some v' ∧ tenanted llmList v v'.
Proof.
  intros Hids. revert v. induction fuel as [|fuel IH]; intros v Hwf Hf; [pose proof (val_size_pos v); lia|].
  inversion Hwf as [? Hv|l Hl|o Ho Hfo]; subst.
  - exists v. split; [by destruct v|by constructor].
  - destruct (mapM_total (add_tenant fuel llmList) (tenanted llmList) l) as (l' & Hl' & HR).
    { intros x Hx. apply IH; [by apply (proj1 (Forall_forall _ _) Hl)|]. apply val_size_item in Hx. lia. }
    exists (VArr l'). split; [cbn [add_tenant]; by rewrite Hl'|by constructor].
  - set (nd := foldl (add_param llmList) (obj_assign [] o) modelParamMap).
    assert (obj_wf nd) as Hnd by (apply add_params_wf, obj_assign_wf; constructor).
    assert (∀ k v, obj_lookup k o = Some v → ∃ v', add_tenant fuel llmList v = Some v' ∧ tenanted llmList v v') as Hsub.
    { intros k w Hw%obj_lookup_in. apply IH; [by apply (proj1 (Forall_forall _ _) Hfo (k, w))|].
      apply val_size_elem in Hw. lia. }
    assert (∀ k v, (k, v) ∈ obj_entries nd ↔ obj_lookup k nd = Some v) as Hin.
    { intros k w. rewrite obj_entries_Permutation. split; [by apply obj_lookup_NoDup|apply obj_lookup_in]. }
    pose proof (modelParamMap_lookup o) as Hlk. fold nd in Hlk.
    destruct (rec_loop fuel (obj_entries nd) nd) as (o' & Ho' & H1 & H2).
    { by apply obj_entries_wf. }
    { intros k w. apply Hin. }
    { intros k w Hw%Hin Hob _. rewrite Hlk in Hw by done. destruct (tenant_for llmList o k) as [t|] eqn:Et.
      - injection Hw as ->. unfold tenant_for in Et. destruct (js_find _ _); [|done]. apply Hids in Et. congruence.
      - destruct (Hsub k w Hw) as (v' & Hv' & _). eauto. }
    exists (VObj o'). split.
    { cbn [add_tenant]. fold nd. change (foldl _ (Some nd) (obj_entries nd)) with (foldl (rec_step fuel) (Some nd) (obj_entries nd)).
      by rewrite Ho'. }
    constructor.
    + intros k t Ht. rewrite (H2 k t); [|apply Hin; by rewrite Hlk, Ht].
      unfold tenant_for in Ht. destruct (js_find _ _); [|done]. apply Hids in Ht. by rewrite Ht.
    + intros k Ht Hn. rewrite H1; [by rewrite Hlk, Ht|]. rewrite obj_entries_Permutation. apply obj_lookup_None.
      by rewrite Hlk, Ht.
    + intros k w Ht Hw Hp. rewrite (H2 k w); [|apply Hin; by rewrite Hlk, Ht]. by rewrite Hp, andb_false_r.
    + intros k w Ht Hw Hp. rewrite (H2 k w); [|apply Hin; by rewrite Hlk, Ht]. rewrite Hp, andb_true_r.
      destruct (is_object w) eqn:Ew; [|exists w; split; [done|by constructor]].
      destruct (Hsub k w Hw) as (v' & -> & Hv'). eauto.
Qed.

End tenant.

(** A list whose identifiers are all plain. *)
Definition list_ids_plain (llmList : val) : bool :=
  js_every (λ kv, js_every (λ m, negb (is_object (prop "id" m)))
    (match kv.2 with VArr ms => ms | _ => [] end ++ arr_of_val (prop "llm" kv.2))) (obj_entries (obj_of_val llmList)).

Lemma find_model_in p l m : find_model p l = Ok (Some m) → m ∈ l.
Proof.
  induction l as [|x l IH]; simpl; [done|]. destruct (p x) as [[]| |]; simpl; try done.
  - intros [= ->]. by left.
  - intros ?%IH. by right.
Qed.

Lemma provider_loop_plain es n f t :
  (∀ kv m, kv ∈ es → m ∈ (match kv.2 with VArr ms => ms | _ => [] end ++ arr_of_val (prop "llm" kv.2)) →
     is_object (prop "id" m) = false) →
  provider_loop es n f = Ok t → is_object t = false.
Proof.
  induction es as [|[k data] es IH]; intros Hes; [by intros [= <-]|]. cbn [provider_loop].
  assert (∀ (r : outcome (option val)), (∀ m, r = Ok (Some m) → is_object (prop "id" m) = false) →
    (model ← r; match model with
                | Some m => if truthy m && truthy (prop "id" m) then Ok (prop "id" m) else provider_loop es n f
                | None => provider_loop es n f
                end) = Ok t → is_object t = false) as Hr.
  { intros r Hm. destruct r as [[m|]| |]; simpl; try done.
    - destruct (truthy m && truthy (prop "id" m)); [intros [= <-]; by apply Hm|]. apply IH. intros kv m' ?. apply Hes. by right.
    - apply IH. intros kv m' ?. apply Hes. by right. }
  specialize (Hes (k, data)). destruct data as [| | | | |ms|o]; try done; intros Ht; refine (Hr _ _ Ht); clear Hr IH Ht.
  1-3: by intros m.
  - intros m Hm%find_model_in. apply Hes; [by left|]. apply elem_of_app. by left.
  - simpl. intros m Hm. apply Hes; [by left|]. simpl. destruct (obj_get "llm" o) as [| | | | |ms|]; try done.
    by apply find_model_in in Hm.
Qed.

Lemma list_ids_plain_ok llmList : list_ids_plain llmList = true → plain_ids llmList.
Proof.
  unfold list_ids_plain, plain_ids, tenant_id_of, getTenantModelId. rewrite js_every_true. intros H v t.
  destruct (truthy v); [|done]. destruct v as [| | | |u| |]; try done. destruct (parseModelUuid u) as [n f].
  destruct (provider_loop _ _ _) as [t'| |] eqn:E; [|done..]. destruct (truthy t'); [|done]. intros [= <-].
  eapply provider_loop_plain; [|exact E]. intros kv m Hkv Hm. specialize (H kv Hkv). rewrite js_every_true in H.
  by apply negb_true_iff, H.
Qed.

(** The tenant's identifiers in the data of a request.  Adding them ends,
    with as much fuel as the data is large.  For an address of the white list
    and a list in the cache, every property naming a model of the list, at any
    depth, gets the tenant's identifier beside it, under its own name, and all
    other values are kept; for any other address, or without a valid list,
    the data is sent as it is. *)
Theorem tenant_params_exact now data url st :
  deep_wf data → list_ids_plain (fst (getCachedLlmList now st)) = true →
  ∃ data', fst (addTenantParams (val_size data) now data url st) = Some data' ∧
    (if truthy (fst (getCachedLlmList now st)) &&
        match url with Some ((String _ _) as u) => isUrlInWhitelist u | _ => true end
     then tenanted (fst (getCachedLlmList now st)) data data' else data' = data).
Proof.
  intros Hwf Hids%list_ids_plain_ok. unfold addTenantParams.
  destruct (is_object data) eqn:Eo; simpl.
  2:{ exists data. split; [done|]. destruct (_ && _); [by constructor|done]. }
  destruct url as [[|a u]|]; simpl.
  1,3: destruct (getCachedLlmList now st) as [llm st'] eqn:Ec; simpl in *; destruct (truthy llm) eqn:Et; simpl;
    [by apply add_tenant_spec|by exists data].
  destruct (isUrlInWhitelist (String a u)) eqn:Eu; simpl.
  - destruct (getCachedLlmList now st) as [llm st'] eqn:Ec; simpl in *; destruct (truthy llm) eqn:Et; simpl;
      [by apply add_tenant_spec|by exists data].
  - exists data. split; [done|]. by rewrite andb_false_r.
Qed.

Ltac solve_deep :=
  repeat first [ apply deep_object; [apply (bool_decide_unpack _); vm_compute; exact I|]
               | apply deep_array | apply List.Forall_cons | apply List.Forall_nil
               | apply deep_other; reflexivity ].

Definition some_list : val :=
  VObj [("Ollama", VObj [("llm", VArr [VObj [("name", VStr "q"); ("id", VNum (num_of_Z 7))]])]);
        ("list", VArr [VObj [("llm_name", VStr "e"); ("fid", VStr "X"); ("id", VNum (num_of_Z 9))]])].

Definition dialog_data : val :=
  VObj [("llm_id", VStr "q@Ollama"); ("kb", VArr [VObj [("embd_id", VStr "e@X"); ("n", VNum (num_of_Z 1))]])].

Lemma tenant_params_exact_witness :
  fst (addTenantParams (val_size dialog_data) 10 dialog_data (Some "/v1/dialog/set") (setCachedLlmList 5 some_list)) =
    Some (VObj [("llm_id", VStr "q@Ollama");
                ("kb", VArr [VObj [("embd_id", VStr "e@X"); ("n", VNum (num_of_Z 1)); ("tenant_embd_id", VNum (num_of_Z 9))]]);
                ("tenant_llm_id", VNum (num_of_Z 7))]) ∧
  ∃ data', fst (addTenantParams (val_size dialog_data) 10 dialog_data (Some "/v1/dialog/set")
                  (setCachedLlmList 5 some_list)) = Some data' ∧
    tenanted (fst (getCachedLlmList 10 (setCachedLlmList 5 some_list))) dialog_data data'.
Proof.
  split; [vm_compute; reflexivity|].
  assert (deep_wf dialog_data) as Hwf.
  { solve_deep. }
  exact (tenant_params_exact 10 dialog_data (Some "/v1/dialog/set") (setCachedLlmList 5 some_list) Hwf eq_refl).
Defined.

(** ** Identifiers: built, then parsed *)
Lemma uuid_roundtrip llm_name fid : count_char "@" llm_name = 0 → count_char "@" fid = 0 →
  parseModelUuid (buildLlmUuid llm_name fid) = (Some llm_name, Some fid) ∧
  getLlmNameAndFIdByLlmId (Some (buildLlmUuid llm_name fid)) = (Some llm_name, Some fid).
Proof.
  intros Hn Hf. unfold parseModelUuid, getLlmNameAndFIdByLlmId, buildLlmUuid.
  change ("@" +:+ fid) with (String "@" fid). rewrite js_split_app by done. rewrite js_split_no_sep by done. done.
Qed.

(** A name that has the separator is cut at it: the model is not found. *)
Lemma uuid_name_with_at : parseModelUuid (buildLlmUuid "a@b" "X") = (Some "a", Some "b").
Proof. reflexivity. Qed.

(** A list is valid for five minutes after it was stored, and gone afterwards. *)
Lemma cache_window now later data :
  getCachedLlmList later (setCachedLlmList now data) =
  if (later - now <=? CACHE_DURATION)%Z then (json_norm data, setCachedLlmList now data) else (VNull, None).
Proof.
  unfold getCachedLlmList, setCachedLlmList. simpl.
  destruct (Z.ltb_spec CACHE_DURATION (later - now)), (Z.leb_spec (later - now) CACHE_DURATION); [lia|done..|lia].
Qed.

(** ** One redirect

    What tells of an expired login, and the text that is shown for it: a reply
    with the code 401 in its body, unless a file was asked for, or an error
    whose reply has the status 401. *)
Inductive expired (RetcodeMessage : Z → val) : net_event → val → Prop :=
  | expired_body now r o :
      rp_blob r = false → rp_body r = Some (VObj o) → obj_get "code" o = VNum (num_of_Z 401) →
      expired RetcodeMessage (Replied now r) (obj_get "message" o)
  | expired_status m r :
      rp_status r = 401%Z →
      expired RetcodeMessage (Failed m (Some r)) (js_or (prop "message" (default VUndef (rp_body r))) (RetcodeMessage 401%Z)).

(** A reply that brings a list of models, and when: a success with data, from
    one of the two addresses. *)
Inductive brings : net_event → Z → val → Prop :=
  | brings_models now r o address before after :
      rp_blob r = false → rp_body r = Some (VObj o) → obj_get "code" o = VNum (num_of_Z 0) →
      truthy (obj_get "data" o) = true → address ∈ ["/v1/llm/my_llms"; "/v1/llm/list"] →
      rp_url r = before +:+ address +:+ after →
      brings (Replied now r) now (obj_get "data" o).

(** The code's two tests. *)
Definition unauthorized (e : net_event) : bool :=
  match e with
  | Replied _ r => negb (rp_blob r) && num_is 401 (prop "code" (default VUndef (rp_body r)))
  | Failed _ (Some r) => (rp_status r =? 401)%Z
  | Failed _ None => false
  end.

Definition brings_list (e : net_event) : option (Z * val) :=
  match e with
  | Replied now r =>
      let data := default VUndef (rp_body r) in
      if negb (rp_blob r) && (num_is 0 (prop "code" data) && truthy (prop "data" data) &&
           (str_includes "/v1/llm/my_llms" (rp_url r) || str_includes "/v1/llm/list" (rp_url r)))
      then Some (now, prop "data" data) else None
  | Failed _ _ => None
  end.

Lemma num_is_true z v : num_is z v = true ↔ v = VNum (num_of_Z z).
Proof. unfold num_is. by rewrite bool_decide_eq_true. Qed.

Lemma prop_num k v n : prop k v = VNum n → ∃ o, v = VObj o.
Proof. destruct v; try done. by eexists. Qed.

Lemma body_num k (b : option val) n : prop k (default VUndef b) = VNum n → ∃ o, b = Some (VObj o).
Proof. destruct b as [v|]; cbn [default from_option id]; [|done]. intros Hv. destruct (prop_num _ _ _ Hv) as [o ->]. by eexists. Qed.

Lemma unauthorized_expired R e : unauthorized e = true ↔ ∃ t, expired R e t.
Proof.
  split.
  - destruct e as [now r|m [r|]]; simpl; [|intros ?%Z.eqb_eq; eexists; by constructor|done].
    intros [Hb%negb_true_iff Hc%num_is_true]%andb_true_iff. destruct (body_num _ _ _ Hc) as [o Ho].
    rewrite Ho in Hc. eexists. by eapply expired_body.
  - intros [t [now r o Hb Ho Hc|m r Hs]]; simpl; [|by apply Z.eqb_eq].
    rewrite Hb, Ho. simpl. by rewrite Hc.
Qed.

Lemma brings_list_brings e now d : brings_list e = Some (now, d) ↔ brings e now d.
Proof.
  split.
  - destruct e as [t r|]; [|done]. cbn [brings_list]. destruct (_ && _) eqn:E; [|done]. intros [= -> <-].
    apply andb_true_iff in E as [Hb%negb_true_iff [[Hc%num_is_true Hd]%andb_true_iff Hu]%andb_true_iff].
    destruct (body_num _ _ _ Hc) as [o Ho]. rewrite Ho in *. simpl in *.
    apply orb_true_iff in Hu as [(x & y & Hu)%str_includes_spec|(x & y & Hu)%str_includes_spec];
      (eapply brings_models; [done..| |exact Hu]; set_solver).
  - intros [t r o address x y Hb Ho Hc Hd Ha Hu]. cbn [brings_list]. rewrite Hb, Ho. simpl. rewrite Hc, Hd. simpl.
    destruct (str_includes "/v1/llm/my_llms" _ || _) eqn:E; [done|]. apply orb_false_iff in E as [E1 E2].
    assert (str_includes address (rp_url r) = true) as Hi by (apply str_includes_spec; eauto).
    apply elem_of_cons in Ha as [->|[->|[]%not_elem_of_nil]%elem_of_cons]; congruence.
Qed.

(** What is shown without leaving the page. *)
Definition quiet (e : effect) : bool := match e with ClearAuth | Redirect => false | _ => true end.
Definition calm (l : list effect) : Prop := Forall (λ e, quiet e = true) l.

Definition sign_out (text : val) : list effect := [NoteText text; ClearAuth; Redirect].

(** What a part of a handler does to flag, cache and log: the text of an
    expired login it met ([u]) and the list it stored ([b]). *)
Definition adds (u : option val) (b : option (Z * val)) (c c' : client) : Prop :=
  isRedirecting c' = isRedirecting c || bool_decide (is_Some u) ∧
  llmCache c' = match b with Some (now, d) => setCachedLlmList now d | None => llmCache c end ∧
  ∃ l, calm l ∧ done_log c' = done_log c ++ l ++ (if isRedirecting c then [] else from_option sign_out [] u).

Lemma adds_trans u b1 b2 c c1 c2 : adds None b1 c c1 → adds u b2 c1 c2 →
  adds u (match b2 with Some _ => b2 | None => b1 end) c c2.
Proof.
  intros (H1 & H2 & l1 & H3 & H4) (K1 & K2 & l2 & K3 & K4). rewrite orb_false_r in H1. rewrite H1 in K1, K4.
  split; [done|]. split; [rewrite K2, H2; by destruct b2|]. exists (l1 ++ l2). split; [by apply Forall_app|].
  rewrite K4, H4. by destruct (isRedirecting c); simpl; rewrite ?app_nil_r, <-?app_assoc.
Qed.

Lemma adds_calm c es : calm es → adds None None c (do_effects es c).
Proof.
  intros Hq. split; [by rewrite orb_false_r|]. split; [done|]. exists es. split; [done|]. simpl.
  by destruct (isRedirecting c); rewrite app_nil_r.
Qed.

Lemma adds_nothing c : adds None None c c.
Proof.
  split; [by rewrite orb_false_r|]. split; [done|]. exists []. split; [by constructor|]. simpl.
  by destruct (isRedirecting c); rewrite app_nil_r.
Qed.

Lemma adds_redirect text c : adds (Some text) None c (redirect_once text c).
Proof.
  unfold adds, redirect_once. destruct (isRedirecting c) eqn:E; simpl.
  - split; [done|]. split; [done|]. exists []. split; [by constructor|]. by rewrite app_nil_r.
  - split; [done|]. split; [done|]. exists []. by split; [constructor|].
Qed.

Section redirects.
Context (RetcodeMessage : Z → val).

Lemma adds_status r c : adds None None c (status_step RetcodeMessage r c).
Proof. unfold status_step. destruct (_ || _); [apply adds_calm; by repeat constructor|apply adds_nothing]. Qed.

Lemma adds_cache now r data c : adds None
  (if num_is 0 (prop "code" data) && truthy (prop "data" data) &&
      (str_includes "/v1/llm/my_llms" (rp_url r) || str_includes "/v1/llm/list" (rp_url r))
   then Some (now, prop "data" data) else None) c (cache_step now r data c).
Proof.
  unfold cache_step. destruct (_ && _); [|apply adds_nothing]. split; [simpl; by rewrite orb_false_r|]. split; [done|].
  exists []. split; [by constructor|]. simpl. by destruct (isRedirecting c); rewrite app_nil_r.
Qed.

Lemma adds_errorHandler m r c : adds None None c (errorHandler RetcodeMessage m r c).
Proof.
  unfold errorHandler. destruct (m === _); [apply adds_calm; by repeat constructor|]. destruct r as [r|]; [|apply adds_nothing].
  destruct (_ =? _)%Z; [apply adds_nothing|apply adds_calm; by repeat constructor].
Qed.

(** The text of an expired login, by the code's test. *)
Definition expired_text (e : net_event) : option val :=
  if unauthorized e then
    match e with
    | Replied _ r => Some (prop "message" (default VUndef (rp_body r)))
    | Failed _ (Some r) => Some (js_or (prop "message" (default VUndef (rp_body r))) (RetcodeMessage 401%Z))
    | Failed _ None => None
    end
  else None.

Lemma expired_text_spec e t : expired_text e = Some t ↔ expired RetcodeMessage e t.
Proof.
  unfold expired_text. split.
  - destruct (unauthorized e) eqn:E; [|done]. apply (unauthorized_expired RetcodeMessage) in E as [t' Ht].
    destruct Ht as [now r o Hb Ho Hc|m r Hs]; intros [= <-]; [|by constructor]. rewrite Ho. by eapply expired_body.
  - intros Ht. rewrite (proj2 (unauthorized_expired RetcodeMessage e)) by eauto. destruct Ht as [now r o Hb Ho Hc|m r Hs]; [|done].
    by rewrite Ho.
Qed.

Lemma next_event_adds c e : adds (expired_text e) (brings_list e) c (next_event RetcodeMessage c e).
Proof.
  unfold expired_text. destruct e as [now r|m [r|]]; simpl.
  - unfold next_response. destruct (rp_blob r); simpl; [apply adds_status|].
    set (data := default VUndef (rp_body r)). set (c1 := status_step RetcodeMessage r c).
    pose proof (adds_cache now r data c1) as Hc. set (b := if _ && _ then Some (now, _) else _) in *.
    assert (∀ u c2, adds u None (cache_step now r data c1) c2 → adds u b c c2) as Hk.
    { intros u c2 H. pose proof (adds_trans _ _ _ _ _ _ (adds_status r c) (adds_trans _ _ None _ _ _ Hc H)) as Ht.
      by destruct b. }
    apply Hk. destruct (num_is 100 _) eqn:E1; [|destruct (num_is 401 _) eqn:E2; [apply adds_redirect|]].
    + apply num_is_true in E1. replace (num_is 401 (prop "code" data)) with false by (rewrite E1; by vm_compute).
      apply adds_calm. by repeat constructor.
    + destruct (num_is 0 _); [apply adds_nothing|apply adds_calm; by repeat constructor].
  - destruct (_ =? 401)%Z; [apply adds_redirect|apply adds_errorHandler].
  - apply adds_errorHandler.
Qed.

Local Notation run := (foldl (next_event RetcodeMessage)).

(** Nothing leaves the page while no login has expired, or once one has. *)
Lemma run_calm es c : isRedirecting c = true ∨ Forall (λ e, ∀ t, ¬ expired RetcodeMessage e t) es →
  isRedirecting (run c es) = isRedirecting c ∧ ∃ l, calm l ∧ done_log (run c es) = done_log c ++ l.
Proof.
  revert c. induction es as [|e es IH]; intros c Hes.
  - split; [done|]. exists []. split; [constructor|]. simpl. by rewrite app_nil_r.
  - destruct (next_event_adds c e) as (H1 & _ & l & H2 & H3).
    assert (isRedirecting (next_event RetcodeMessage c e) = isRedirecting c ∧
      done_log (next_event RetcodeMessage c e) = done_log c ++ l) as [K1 K2].
    { destruct Hes as [Hr|He]; [rewrite H1, H3, Hr; by rewrite app_nil_r|]. apply Forall_cons in He as [He _].
      destruct (expired_text e) as [t|] eqn:Et; [by apply expired_text_spec in Et; destruct (He t)|].
      rewrite H1, H3, orb_false_r. simpl. by destruct (isRedirecting c); rewrite app_nil_r. }
    destruct (IH (next_event RetcodeMessage c e)) as (J1 & l' & J2 & J3).
    { destruct Hes as [Hr|[_ He]%Forall_cons]; [left; congruence|by right]. }
    cbn [foldl]. split; [congruence|]. exists (l ++ l'). split; [by apply Forall_app|]. by rewrite J3, K2, app_assoc.
Qed.

Lemma run_cache_kept es c : Forall (λ e, ∀ now d, ¬ brings e now d) es → llmCache (run c es) = llmCache c.
Proof.
  revert c. induction es as [|e es IH]; intros c; [done|]. intros [He Hes]%Forall_cons. cbn [foldl]. rewrite IH by done.
  destruct (next_event_adds c e) as (_ & H & _). rewrite H. destruct (brings_list e) as [[now d]|] eqn:E; [|done].
  apply brings_list_brings in E. by destruct (He now d).
Qed.

Lemma run_cache_set e now d c : brings e now d → llmCache (next_event RetcodeMessage c e) = setCachedLlmList now d.
Proof. intros H%brings_list_brings. destruct (next_event_adds c e) as (_ & -> & _). by rewrite H. Qed.

Lemma run_signs_out e t c : isRedirecting c = false → expired RetcodeMessage e t →
  isRedirecting (next_event RetcodeMessage c e) = true ∧
  ∃ l, calm l ∧ done_log (next_event RetcodeMessage c e) = done_log c ++ l ++ sign_out t.
Proof.
  intros Hr Ht%expired_text_spec. destruct (next_event_adds c e) as (H1 & _ & l & H2 & H3).
  rewrite Ht, Hr in *. split; [done|]. by exists l.
Qed.

(** C29: In the client of utils/next-request.ts: as long as no reply or error
    tells of an expired login, what is done leaves the page alone; from the
    first that does, its text is shown, the credentials are cleared and the
    login page is opened, once, and whatever follows does so no more.
    Meanwhile the cached list of models is that of the last reply that brought
    one, and without such a reply it stays. *)
Theorem one_redirect es c :
  isRedirecting c = false →
  let c' := run c es in
  (Forall (λ e, ∀ t, ¬ expired RetcodeMessage e t) es →
    isRedirecting c' = false ∧ ∃ l, calm l ∧ done_log c' = done_log c ++ l) ∧
  (∀ before e t later, es = before ++ e :: later →
    Forall (λ e, ∀ t, ¬ expired RetcodeMessage e t) before → expired RetcodeMessage e t →
    isRedirecting c' = true ∧
    ∃ l l', calm l ∧ calm l' ∧ done_log c' = done_log c ++ l ++ sign_out t ++ l') ∧
  (Forall (λ e, ∀ now d, ¬ brings e now d) es → llmCache c' = llmCache c) ∧
  (∀ before e now d later, es = before ++ e :: later → brings e now d →
    Forall (λ e, ∀ now d, ¬ brings e now d) later → llmCache c' = setCachedLlmList now d).
Proof.
  intros Hr. cbv zeta. split_and!.
  - intros H. destruct (run_calm es c (or_intror H)) as [-> H']. by split.
  - intros before e t later -> Hb Ht. rewrite foldl_app. cbn [foldl].
    destruct (run_calm before c (or_intror Hb)) as (H1 & l1 & H2 & H3). rewrite Hr in H1.
    destruct (run_signs_out e t _ H1 Ht) as (K1 & l2 & K2 & K3).
    destruct (run_calm later _ (or_introl K1)) as (J1 & l3 & J2 & J3). split; [congruence|].
    exists (l1 ++ l2), l3. split; [by apply Forall_app|]. split; [done|]. by rewrite J3, K3, H3, <-!app_assoc.
  - apply run_cache_kept.
  - intros before e now d later -> Hb Hl. rewrite foldl_app. cbn [foldl]. rewrite run_cache_kept by done. by apply run_cache_set.
Qed.
End redirects.

Definition logged_out : reply :=
  {| rp_status := 200; rp_blob := false; rp_url := "/v1/kb/list"; rp_statusText := VUndef;
     rp_body := Some (VObj [("code", VNum (num_of_Z 401)); ("message", VStr "expired")]) |}.

Definition client0 : client := {| isRedirecting := false; llmCache := None; done_log := [] |}.

Lemma one_redirect_witness :
  let es := [Replied 1 logged_out; Replied 2 logged_out] in
  done_log (foldl (next_event (λ _, VUndef)) client0 es) = [NoteText (VStr "expired"); ClearAuth; Redirect] ∧
  isRedirecting (foldl (next_event (λ _, VUndef)) client0 es) = true.
Proof.
  split; [vm_compute; reflexivity|].
  apply (one_redirect (λ _, VUndef) [Replied 1 logged_out; Replied 2 logged_out] client0 eq_refl) with
    (before := []) (e := Replied 1 logged_out) (t := VStr "expired") (later := [Replied 2 logged_out]);
    [reflexivity|constructor|].
  by apply (expired_body _ 1 logged_out [("code", VNum (num_of_Z 401)); ("message", VStr "expired")]).
Defined.

Definition count_eff (e : effect) (l : list effect) : nat := length (js_filter (λ x, x === e) l).

(** The other client redirects for every such reply, and twice for the first. *)
Lemma umi_redirects_again :
  count_eff Redirect (done_log (umi_response (λ _, VUndef) 1 logged_out client0)) = 2 ∧
  count_eff Redirect (done_log (umi_response (λ _, VUndef) 2 logged_out (umi_response (λ _, VUndef) 1 logged_out client0))) = 3.
Proof. vm_compute. done. Qed.

(** An array sent as data becomes an object with its indices as keys. *)
Lemma array_data_becomes_object snakeCase x : snakeCase "0" = "0" →
  convertTheKeysOfTheObjectToSnake snakeCase (VArr [x]) = VObj [("0", x)].
Proof. intros H. change (VObj [(snakeCase "0", x)] = VObj [("0", x)]). by rewrite H. Qed.

(** ** The options of several types *)
Definition has_value (gs : list llm_group) (l v : string) : Prop :=
  ∃ g, g ∈ gs ∧ lg_label g = l ∧ v ∈ op_value <$> lg_options g.

Lemma push_option_values opts y : op_value <$> push_option opts y = push_new (op_value <$> opts) (op_value y).
Proof.
  rewrite push_new_eq. unfold push_option. destruct (js_some _ opts) eqn:E; case_decide as H.
  - done.
  - exfalso. apply H. apply js_some_true in E as (z & Hz & Hv). apply bool_decide_eq_true in Hv as <-.
    by apply list_elem_of_fmap_2.
  - exfalso. rewrite js_some_false in E. apply list_elem_of_fmap in H as (z & Hv & Hz). specialize (E z Hz).
    by rewrite bool_decide_true in E.
  - by rewrite fmap_app.
Qed.

Lemma push_options_values opts ys : op_value <$> foldl push_option opts ys = push_all (op_value <$> opts) (op_value <$> ys).
Proof.
  unfold push_all. revert opts. induction ys as [|y ys IH]; intros opts; [done|]. cbn [foldl]. rewrite IH, push_option_values. done.
Qed.

Definition groups_ok (gs : list llm_group) : Prop :=
  NoDup (lg_label <$> gs) ∧ Forall (λ g, NoDup (op_value <$> lg_options g)) gs.

Lemma has_value_cons g gs l v :
  has_value (g :: gs) l v ↔ (lg_label g = l ∧ v ∈ op_value <$> lg_options g) ∨ has_value gs l v.
Proof.
  unfold has_value. setoid_rewrite elem_of_cons. split.
  - intros (g' & [->|Hg] & H1 & H2); [by left|right; eauto].
  - intros [[H1 H2]|(g' & Hg & H1 & H2)]; eauto.
Qed.

Lemma has_value_app gs gs' l v : has_value (gs ++ gs') l v ↔ has_value gs l v ∨ has_value gs' l v.
Proof. unfold has_value. setoid_rewrite elem_of_app. naive_solver. Qed.

Lemma has_value_nil l v : ¬ has_value [] l v.
Proof. by intros (g & ?%elem_of_nil & _). Qed.

Lemma merge_group_spec x pre :
  match merge_group x pre with
  | Some pre' => lg_label x ∈ lg_label <$> pre ∧ lg_label <$> pre' = lg_label <$> pre ∧
      (∀ l v, has_value pre' l v ↔ has_value pre l v ∨ (lg_label x = l ∧ v ∈ op_value <$> lg_options x)) ∧
      (Forall (λ g, NoDup (op_value <$> lg_options g)) pre → Forall (λ g, NoDup (op_value <$> lg_options g)) pre')
  | None => lg_label x ∉ lg_label <$> pre
  end.
Proof.
  induction pre as [|g pre IH]; [by apply not_elem_of_nil|]. cbn [merge_group].
  destruct (bool_decide_reflect (lg_label g = lg_label x)) as [Hg|Hg].
  - split; [rewrite <-Hg; by left|]. split; [done|]. split.
    + intros l v. rewrite !has_value_cons. cbn [lg_label lg_options]. rewrite push_options_values, elem_of_push_all, Hg. tauto.
    + intros [H1 H2]%Forall_cons. constructor; [|done]. cbn [lg_options]. rewrite push_options_values. by apply NoDup_push_all.
  - destruct (merge_group x pre) as [pre'|]; simpl.
    + destruct IH as (H1 & H2 & H3 & H4). split; [by right|]. split; [exact (f_equal (cons (lg_label g)) H2)|]. split.
      * intros l v. rewrite !has_value_cons, H3. tauto.
      * intros [? ?]%Forall_cons. constructor; auto.
    + set_solver.
Qed.

Lemma compose_step_spec pre x : groups_ok pre → NoDup (op_value <$> lg_options x) →
  groups_ok (compose_step pre x) ∧
  (∀ l v, has_value (compose_step pre x) l v ↔ has_value pre l v ∨ (lg_label x = l ∧ v ∈ op_value <$> lg_options x)).
Proof.
  intros [Hl Hv] Hx. unfold compose_step. pose proof (merge_group_spec x pre) as Hm.
  destruct (merge_group x pre) as [pre'|].
  - destruct Hm as (H1 & H2 & H3 & H4). split; [|done]. split; [by rewrite H2|auto].
  - split.
    + split; [rewrite fmap_app; apply NoDup_app; split; [done|]; split; [set_solver|apply NoDup_singleton]|].
      apply Forall_app. split; [done|]. by constructor.
    + intros l v. rewrite has_value_app, has_value_cons. pose proof (has_value_nil l v). tauto.
Qed.

Lemma compose_list xs pre : groups_ok pre → Forall (λ g, NoDup (op_value <$> lg_options g)) xs →
  groups_ok (foldl compose_step pre xs) ∧
  (∀ l v, has_value (foldl compose_step pre xs) l v ↔ has_value pre l v ∨ has_value xs l v).
Proof.
  intros Hp Hx. revert pre Hp. induction Hx as [|x xs Hx _ IH]; intros pre Hp.
  - split; [done|]. intros l v. pose proof (has_value_nil l v). simpl. tauto.
  - destruct (compose_step_spec pre x Hp Hx) as [H1 H2]. destruct (IH _ H1) as [H3 H4]. split; [done|].
    intros l v. cbn [foldl]. rewrite H4, H2, has_value_cons. tauto.
Qed.

(** The models a type offers: available, of the type. *)
Definition model_fits (modelType : string) (x : model) : bool :=
  mo_available x &&
  (if modelType === "image2text"
   then (str_includes "image2text" (mo_model_type x) || str_includes "IMAGE2TEXT" (mo_tags x)) && (mo_status x === "1")
   else (modelType === "") || str_includes modelType (mo_model_type x)).

Definition model_value (x : model) : string := buildLlmUuid (mo_llm_name x) (mo_fid x).

Lemma group_models_spec (f : model → bool) info l v :
  has_value (nonempty_groups (map (λ kv, {| lg_label := kv.1;
    lg_options := map buildLlmOptionsWithIcon (js_filter f kv.2) |}) info)) l v ↔
  ∃ ms x, (l, ms) ∈ info ∧ x ∈ ms ∧ f x = true ∧ model_value x = v.
Proof.
  unfold has_value, nonempty_groups. split.
  - intros (g & [_ Hg]%elem_of_js_filter & <- & Hv). apply list_elem_of_fmap in Hg as ([l' ms] & -> & Hin).
    simpl in Hv. change (map ?f ?l) with (f <$> l) in Hv. rewrite <-list_fmap_compose in Hv.
    apply list_elem_of_fmap in Hv as (x & -> & [Hf Hx]%elem_of_js_filter). by exists ms, x.
  - intros (ms & x & Hin & Hx & Hf & <-).
    assert (buildLlmOptionsWithIcon x ∈ map buildLlmOptionsWithIcon (js_filter f ms)) as Ho
      by (apply list_elem_of_fmap_2, elem_of_js_filter; done).
    exists {| lg_label := l; lg_options := map buildLlmOptionsWithIcon (js_filter f ms) |}.
    split; [|split; [done|exact (list_elem_of_fmap_2 op_value _ _ Ho)]].
    apply elem_of_js_filter. split; [|apply list_elem_of_fmap; by exists (l, ms)].
    cbn [lg_options]. destruct (map _ _); [by apply elem_of_nil in Ho|done].
Qed.

Lemma group_models_distinct (f : model → bool) info :
  (∀ kv, kv ∈ info → NoDup (model_value <$> kv.2)) →
  Forall (λ g, NoDup (op_value <$> lg_options g)) (nonempty_groups (map (λ kv, {| lg_label := kv.1;
    lg_options := map buildLlmOptionsWithIcon (js_filter f kv.2) |}) info)).
Proof.
  intros H. apply Forall_forall. intros g [_ Hg]%elem_of_js_filter. apply list_elem_of_fmap in Hg as (kv & -> & Hin).
  cbn [lg_options]. change (map ?f ?l) with (f <$> l). rewrite <-list_fmap_compose. specialize (H kv Hin).
  induction kv.2 as [|x ms IH]; [constructor|]. apply NoDup_cons in H as [Hx Hnd]. rewrite js_filter_cons.
  destruct (f x); [|by apply IH]. apply NoDup_cons. split; [|by apply IH].
  intros (y & Hy & [_ Hin']%elem_of_js_filter)%list_elem_of_fmap. apply Hx. apply list_elem_of_fmap. by exists y.
Qed.

Lemma options_of_type_spec llmInfo t l v :
  has_value (options_of_type llmInfo t) l v ↔
  ∃ ms x, (l, ms) ∈ llmInfo ∧ x ∈ ms ∧ model_fits t x = true ∧ model_value x = v.
Proof.
  unfold options_of_type, model_fits. destruct (t === "image2text").
  - unfold groupImage2TextOptions. rewrite group_models_spec. split; intros (ms & x & Hin & Hx & Hf & Hv); exists ms, x;
      (split; [done|]; split; [done|]; split; [|done]); rewrite !andb_true_iff in *; tauto.
  - unfold groupOptionsByModelType. rewrite group_models_spec. split.
    + intros (ms & x & [_ Hin]%elem_of_js_filter & Hx & Hf & Hv). exists ms, x. by rewrite andb_comm.
    + intros (ms & x & Hin & Hx & Hf & Hv). exists ms, x. rewrite andb_comm in Hf. split; [|done].
      apply elem_of_js_filter. split; [|done]. apply andb_true_iff in Hf as [[H|Hf]%orb_true_iff _]; apply orb_true_iff; [by left|].
      right. apply js_some_true. eauto.
Qed.

(** The options composed of several model types have one group per
    provider, and a provider's group offers exactly the models that are
    available and fit one of the types, a model of several types once. *)
Theorem compose_options_exact llmInfo modelTypes :
  (∀ kv, kv ∈ llmInfo → NoDup (model_value <$> kv.2)) →
  let gs := useComposeLlmOptionsByModelTypes llmInfo modelTypes in
  NoDup (lg_label <$> gs) ∧
  (∀ g, g ∈ gs → NoDup (op_value <$> lg_options g)) ∧
  (∀ l v, has_value gs l v ↔
     ∃ t ms x, t ∈ modelTypes ∧ (l, ms) ∈ llmInfo ∧ x ∈ ms ∧ model_fits t x = true ∧ model_value x = v).
Proof.
  intros Hd gs. unfold gs, useComposeLlmOptionsByModelTypes. clear gs.
  assert (∀ pre, groups_ok pre →
    groups_ok (foldl (λ pre cur, foldl compose_step pre (options_of_type llmInfo cur)) pre modelTypes) ∧
    ∀ l v, has_value (foldl (λ pre cur, foldl compose_step pre (options_of_type llmInfo cur)) pre modelTypes) l v ↔
      has_value pre l v ∨ ∃ t, t ∈ modelTypes ∧ has_value (options_of_type llmInfo t) l v) as H.
  { induction modelTypes as [|t ts IH]; intros pre Hp.
    - split; [done|]. intros l v. split; [by left|]. intros [H|(t & ?%elem_of_nil & _)]; done.
    - destruct (compose_list (options_of_type llmInfo t) pre Hp) as [H1 H2].
      { unfold options_of_type. destruct (t === "image2text"); [by apply group_models_distinct|].
        apply group_models_distinct. intros kv [_ ?]%elem_of_js_filter. by apply Hd. }
      destruct (IH _ H1) as [H3 H4]. split; [exact H3|]. intros l v. cbn [foldl]. rewrite H4, H2.
      setoid_rewrite elem_of_cons. naive_solver. }
  destruct (H []) as [[H1 H2] H3]; [split; constructor|]. split; [exact H1|]. split; [by apply Forall_forall|].
  intros l v. rewrite H3. split.
  - intros [[]%has_value_nil|(t & Ht & (ms & x & ?)%options_of_type_spec)]. by exists t, ms, x.
  - intros (t & ms & x & Ht & ?). right. exists t. split; [done|]. apply options_of_type_spec. eauto.
Qed.

Definition two_models : collection_of_models :=
  [("Ollama", [{| mo_available := true; mo_fid := "Ollama"; mo_llm_name := "q"; mo_model_type := "chat"; mo_status := "1";
                  mo_tags := "LLM,IMAGE2TEXT"; mo_is_tools := true |};
               {| mo_available := false; mo_fid := "Ollama"; mo_llm_name := "e"; mo_model_type := "embedding";
                  mo_status := "1"; mo_tags := ""; mo_is_tools := false |}])].

Lemma compose_options_exact_witness :
  (λ g, (lg_label g, op_value <$> lg_options g)) <$> useComposeLlmOptionsByModelTypes two_models ["chat"; "image2text"] =
    [("Ollama", ["q@Ollama"])] ∧
  NoDup (lg_label <$> useComposeLlmOptionsByModelTypes two_models ["chat"; "image2text"]).
Proof.
  split; [vm_compute; reflexivity|].
  apply (compose_options_exact two_models ["chat"; "image2text"]).
  intros kv Hkv. apply list_elem_of_singleton in Hkv as ->. apply (bool_decide_unpack _). vm_compute. exact I.
Defined.
