(* ===== verification/ChunkEditor.v ===== *)
(** * The result of a data flow

    pages/dataflow-result: the editor of the chunks a step produced
    (parser.tsx with components/parse-editer), the request that runs the flow
    again from the step (useRerunDataflow of hooks.ts), and the time line of
    the steps (useTimelineDataFlow, with utils/date.ts).

    The editor keeps the content in a state that starts as the very object of
    the memoised initial value, and deletion assigns to a property of it; the
    sharing of the two is part of the model. *)
From S2P Require Import Prelude JsValue.
From Stdlib Require Import Ascii QArith Qcanon Qround.
Open Scope list_scope.
Open Scope nat_scope.
Open Scope js_scope.

(** ** The content of a step *)
Record content := {
  ct_key : string;
  ct_type : val;
  ct_value : val;
  ct_params : val
}.

Definition content_val (c : content) : val :=
  VObj [("key", VStr (ct_key c)); ("type", ct_type c); ("value", ct_value c); ("params", ct_params c)].

Definition set_value (v : val) (c : content) : content :=
  {| ct_key := ct_key c; ct_type := ct_type c; ct_value := v; ct_params := ct_params c |}.

(** The step shown: its key in the flow and its component. *)
Record step_data := { sd_key : string; sd_value : val }.

Definition params_of (d : step_data) : val := prop "params" (prop "obj" (sd_value d)).

(** The memoised [initialValue]; output formats are texts. *)
Definition initial_content (d : step_data) : content :=
  let outputs := prop "outputs" (params_of d) in
  match prop "value" (prop "output_format" outputs) with
  | VStr ((String _ _) as key) =>
      {| ct_key := key; ct_type := prop "type" (prop key outputs); ct_value := prop "value" (prop key outputs);
         ct_params := params_of d |}
  | _ => {| ct_key := ""; ct_type := VStr ""; ct_value := VArr []; ct_params := VUndef |}
  end.

(** ** The editor

    A selected chunk is a text or, from selecting all, a number. *)
Inductive sel := SelText (s : string) | SelNum (n : nat).

#[export] Instance sel_eq_dec : EqDecision sel.
Proof. solve_decision. Defined.

Definition sel_text (s : sel) : string := match s with SelText t => t | SelNum n => pretty n end.

(** [ed_text] is [None] while the state is the object of the initial value. *)
Record editor := {
  ed_data : step_data;
  ed_initial : content;
  ed_text : option content;
  isChange : bool;
  selectedChunkIds : list sel;
  activeEditIndex : option nat
}.

Definition initialText (e : editor) : content := default (ed_initial e) (ed_text e).

Definition set_text (t : option content) (change : bool) (e : editor) : editor :=
  {| ed_data := ed_data e; ed_initial := ed_initial e; ed_text := t; isChange := change;
     selectedChunkIds := selectedChunkIds e; activeEditIndex := activeEditIndex e |}.

Definition set_selected (s : list sel) (e : editor) : editor :=
  {| ed_data := ed_data e; ed_initial := ed_initial e; ed_text := ed_text e; isChange := isChange e;
     selectedChunkIds := s; activeEditIndex := activeEditIndex e |}.

Definition set_active (i : option nat) (e : editor) : editor :=
  {| ed_data := ed_data e; ed_initial := ed_initial e; ed_text := ed_text e; isChange := isChange e;
     selectedChunkIds := selectedChunkIds e; activeEditIndex := i |}.

(** Another step, or new data of it: the memo and the effect on it. *)
Definition load (d : step_data) (e : editor) : editor :=
  {| ed_data := d; ed_initial := initial_content d; ed_text := None; isChange := isChange e;
     selectedChunkIds := selectedChunkIds e; activeEditIndex := activeEditIndex e |}.

(** [handleSave] of the page *)
Definition handleSave (newContent : content) (e : editor) : editor :=
  if json_eqb (content_val newContent) (content_val (ed_initial e))
  then set_text (ed_text e) false e
  else set_text (Some newContent) true e.

(** *** The list of chunks (json-parser.tsx), its content being that of the
    state after its effect *)
Definition parserKey (c : content) : string :=
  match prop "field_name" (ct_params c) with
  | VStr ((String _ _) as f) => if ct_key c === "chunks" then f else "text"
  | _ => "text"
  end.

Definition handleEdit (index : nat) (isReadonly : bool) (e : editor) : editor :=
  if isReadonly then e else set_active (Some index) e.

(** [onBlur], with the text of the element *)
Definition array_handleSave (text : string) (e : editor) : editor :=
  let c := initialText e in
  set_active None
    (match ct_value c with
     | VArr l =>
         handleSave (set_value (VArr (imap (λ index item,
           if Some index === activeEditIndex e
           then VObj (obj_set (parserKey c) (VStr text) (obj_assign [] (obj_of_val item)))
           else item) l)) c) e
     | _ => e
     end).

(** The chunks that are drawn: one whose text is empty is hidden. *)
Definition drawn (item : val) : bool := prop "text" item !== VStr "".

(** *** The text of a step without chunks (object-parser.tsx) *)
Definition object_handleSave (text : string) (e : editor) : editor :=
  set_active None (handleSave (set_value (VStr text) (initialText e)) e).

(** *** Selection, deletion, creation *)
Definition handleCheckboxClick (id : nat) (checked : bool) (e : editor) : editor :=
  set_selected
    (if checked then selectedChunkIds e ++ [SelText (pretty id)]
     else js_filter (λ item, sel_text item !== pretty id) (selectedChunkIds e)) e.

Definition is_checked (index : nat) (e : editor) : bool :=
  js_some (λ id, sel_text id === pretty index) (selectedChunkIds e).

Definition chunks_of (c : content) : list val := arr_of_val (ct_value c).

Definition selectAllChunk (checked : bool) (e : editor) : editor :=
  set_selected (if checked then SelNum <$> seq 0 (length (chunks_of (initialText e))) else []) e.

(** The box of all chunks is shown checked. *)
Definition all_checked (e : editor) : bool := length (selectedChunkIds e) === length (chunks_of (initialText e)).

Definition without_selected (ids : list sel) (l : list val) : list val :=
  omap (λ ix, if js_includes ids (SelText (pretty ix.1)) then None else Some ix.2) (imap pair l).

(** [initialText.value = initialText.value.filter(...)]: the assignment is to
    the object of the initial value while the state is that object. *)
Definition handleRemoveChunk (e : editor) : editor :=
  match selectedChunkIds e with
  | [] => e
  | ids =>
      let c := set_value (VArr (without_selected ids (chunks_of (initialText e)))) (initialText e) in
      {| ed_data := ed_data e;
         ed_initial := match ed_text e with None => c | Some _ => ed_initial e end;
         ed_text := match ed_text e with None => None | Some _ => Some c end;
         isChange := true; selectedChunkIds := []; activeEditIndex := activeEditIndex e |}
  end.

(** [text || ' '] *)
Definition handleCreateChunk (text : string) (e : editor) : editor :=
  let chunk := VObj [("text", VStr (if text === "" then " " else text))] in
  set_text (Some (set_value (VArr (chunks_of (initialText e) ++ [chunk])) (initialText e))) (isChange e) e.

(** *** Running again

    The data of the step with the content shown, and the request. *)
Definition obj_spread (v : val) : obj := obj_assign [] (obj_of_val v).

Definition rerun_data (e : editor) : step_data :=
  let d := ed_data e in
  let c := initialText e in
  let outputs := obj_set (ct_key c) (VObj [("type", ct_type c); ("value", ct_value c)])
                   (obj_spread (prop "outputs" (params_of d))) in
  let params := obj_set "outputs" (VObj outputs) (obj_spread (params_of d)) in
  {| sd_key := sd_key d;
     sd_value := VObj (obj_set "obj" (VObj (obj_set "params" (VObj params) (obj_spread (prop "obj" (sd_value d)))))
                   (obj_spread (sd_value d))) |}.

Definition handleReRunFunc (e : editor) : step_data * editor := (rerun_data e, set_text (ed_text e) false e).

(** [mutationFn] of useRerunDataflow, on the detail of the log *)
Definition rerun_request (data : val) (newData : step_data) : obj :=
  let dsl := prop "dsl" data in
  let newDsl := obj_set "components"
                  (VObj (obj_set (sd_key newData) (sd_value newData) (obj_spread (prop "components" dsl))))
                  (obj_spread dsl) in
  [("id", prop "id" data); ("dsl", VObj newDsl); ("component_id", VStr (sd_key newData))].

(** ** The time line *)

(** [formatSecondsToHumanReadable]: hours, minutes and seconds with at most
    three decimals, [toFixed(3)] rounding halves up. *)
Definition Qc_floor (q : Qc) : Z := Qfloor q.

Fixpoint drop_zeros (l : list ascii) : list ascii :=
  match l with "0"%char :: l' => drop_zeros l' | _ => l end.

Definition pad3 (z : Z) : string :=
  if (z <? 10)%Z then "00" +:+ pretty z else if (z <? 100)%Z then "0" +:+ pretty z else pretty z.

Definition fixed3 (s : Qc) : string :=
  let n := Qc_floor (s * Qc_of_Z 1000 + Q2Qc (1 # 2))%Qc in
  let frac := String.string_of_list_ascii (rev (drop_zeros (rev (String.list_ascii_of_string (pad3 (n mod 1000)))))) in
  pretty (n / 1000)%Z +:+ (if frac === "" then "" else "." +:+ frac).

Definition formatSecondsToHumanReadable (seconds : JsValue.num) : string :=
  match seconds with
  | NFin q =>
      if bool_decide (q < Qc_of_Z 0)%Qc then "0s"
      else
        let total := Qc_floor q in
        let h := (total / 3600)%Z in
        let m := (total mod 3600 / 60)%Z in
        let s := (q - Qc_of_Z (total - total mod 60))%Qc in
        let parts := (if (0 <? h)%Z then pretty h +:+ "h " else "") +:+ (if (0 <? m)%Z then pretty m +:+ "m " else "") in
        if (s !== Qc_of_Z 0) || (parts === "")
        then parts +:+ (if s === Qc_of_Z 0 then "0" else fixed3 s) +:+ "s" else parts
  | NNaN => "0s"
  | NNegInf => "0s"
  | NPosInf => "Infinityh "
  end.

(** A component of the flow: its name, the steps after it, the time it took. *)
Record flow_comp := { fc_name : string; fc_downstream : list string; fc_elapsed : JsValue.num; fc_value : val }.

Record timeline_node := {
  tn_id : nat;
  tn_title : val;
  tn_date : string;
  tn_type : string;
  tn_key : string;
  tn_value : val
}.

Section timeline.

(** lodash's [camelCase], and the components and nodes of the flow. *)
Context (camelCase : string → string) (times : list (string * flow_comp)) (graphNodes : list (string * val)).

Definition comp_at (key : string) : option flow_comp := snd <$> js_find (λ kv, kv.1 === key) times.

Definition node_type (name type : string) : string :=
  if name === "parser" then "parser"
  else if name === "tokenizer" then "tokenizer"
  else if (name === "splitter") || (name === "hierarchicalMerger") then "splitter"
  else type.

(** [getNode] *)
Fixpoint getNode (fuel : nat) (key : string) (index : nat) (type : string) : outcome (list timeline_node) :=
  match fuel with
  | O => Diverge
  | S fuel =>
      c ← or_throw (comp_at key);
      let tempType := node_type (camelCase (fc_name c)) type in
      let timeNode :=
        {| tn_id := index;
           tn_title := default VUndef (snd <$> js_find (λ item, item.1 === key) graphNodes);
           tn_date := formatSecondsToHumanReadable (fc_elapsed c);
           tn_type := tempType; tn_key := key; tn_value := fc_value c |} in
      match fc_downstream c with
      | nextKey :: _ => rest ← getNode fuel nextKey (index + 1) tempType; Ok (timeNode :: rest)
      | [] => Ok [timeNode]
      end
  end.

(** [getNode(upperFirst('file'), 1, 'file')] *)
Definition timelineNodes : outcome (list timeline_node) := getNode (S (length times)) "File" 1 "file".

End timeline.

(** ** What editing means

    A list of chunks with marks on some positions. *)
Record marked := { mk_list : list val; mk_marks : list nat }.

Inductive gesture :=
  | GEdit (i : nat) (text : string)       (* click on a chunk, type, leave it *)
  | GCheck (i : nat) (checked : bool)
  | GRemove
  | GCreate (text : string).

Definition edited (key text : string) (item : val) : val := VObj (obj_set key (VStr text) (obj_assign [] (obj_of_val item))).

Definition unmarked (marks : list nat) (l : list val) : list val :=
  snd <$> js_filter (λ ix, negb (js_includes marks ix.1)) (imap pair l).

Definition mark_gesture (key : string) (m : marked) (g : gesture) : marked :=
  match g with
  | GEdit i t => {| mk_list := alter (edited key t) i (mk_list m); mk_marks := mk_marks m |}
  | GCheck i true => {| mk_list := mk_list m; mk_marks := mk_marks m ++ [i] |}
  | GCheck i false => {| mk_list := mk_list m; mk_marks := js_filter (λ j, j !== i) (mk_marks m) |}
  | GRemove => {| mk_list := unmarked (mk_marks m) (mk_list m); mk_marks := [] |}
  | GCreate t => {| mk_list := mk_list m ++ [VObj [("text", VStr (if t === "" then " " else t))]]; mk_marks := mk_marks m |}
  end.

Definition do_gesture (e : editor) (g : gesture) : editor :=
  match g with
  | GEdit i t => array_handleSave t (handleEdit i false e)
  | GCheck i b => handleCheckboxClick i b e
  | GRemove => handleRemoveChunk e
  | GCreate t => handleCreateChunk t e
  end.

(** No edit leaves the content equal to the initial value. *)
Fixpoint no_return (gs : list gesture) (e : editor) : Prop :=
  match gs with
  | [] => True
  | g :: gs => (match g with GEdit _ _ => isChange (do_gesture e g) = true | _ => True end) ∧ no_return gs (do_gesture e g)
  end.

(** The editor shows a marked list. *)
Definition shows (e : editor) (m : marked) : Prop :=
  ct_value (initialText e) = VArr (mk_list m) ∧ selectedChunkIds e = (λ i, SelText (pretty i)) <$> mk_marks m.

Lemma SelText_pretty_inj (i j : nat) : SelText (pretty i) = SelText (pretty j) ↔ i = j.
Proof. split; [|by intros ->]. intros [= H]. by apply (inj pretty) in H. Qed.

Lemma unmark_texts (i : nat) ms :
  js_filter (λ item, sel_text item !== pretty i) ((λ i, SelText (pretty i)) <$> ms) =
  (λ i, SelText (pretty i)) <$> js_filter (λ j, j !== i) ms.
Proof.
  induction ms as [|j ms IH]; [done|]. rewrite fmap_cons, !js_filter_cons. cbn [sel_text].
  assert ((pretty j !== pretty i) = (j !== i)) as ->.
  { f_equal. apply bool_decide_ext. split; [apply (inj pretty)|by intros ->]. }
  destruct (j !== i); [by rewrite fmap_cons, IH|done].
Qed.

Lemma imap_alter {A} (f : A → A) (i : nat) (l : list A) :
  imap (λ index item, if Some index === Some i then f item else item) l = alter f i l.
Proof.
  apply list_eq. intros j. rewrite list_lookup_imap. destruct (decide (i = j)) as [->|Hne].
  - rewrite list_lookup_alter_eq. destruct (l !! j); simpl; [|done]. by rewrite bool_decide_true.
  - rewrite list_lookup_alter_ne by done. destruct (l !! j); simpl; [|done]. by rewrite bool_decide_false by congruence.
Qed.

Lemma without_selected_unmarked marks l :
  without_selected ((λ i, SelText (pretty i)) <$> marks) l = unmarked marks l.
Proof.
  unfold without_selected, unmarked. induction (imap pair l) as [|[i x] ps IH]; [done|].
  rewrite js_filter_cons. cbn [omap list_omap fst snd].
  assert (js_includes ((λ i, SelText (pretty i)) <$> marks) (SelText (pretty i)) = js_includes marks i) as ->.
  { apply eq_iff_eq_true. rewrite !js_includes_true, list_elem_of_fmap. split.
    - intros (j & Hj%SelText_pretty_inj & Hin). by subst.
    - intros. by exists i. }
  destruct (js_includes marks i); simpl; [exact IH|]. f_equal. exact IH.
Qed.

Lemma gesture_shows e m g : shows e m →
  match g with GEdit _ _ => isChange (do_gesture e g) = true | _ => True end →
  shows (do_gesture e g) (mark_gesture (parserKey (initialText e)) m g).
Proof.
  intros [Hv Hs]. destruct g as [i t|i b| |t]; intros Hr; simpl in *.
  - unfold array_handleSave in *. simpl in *. change (initialText (set_active (Some i) e)) with (initialText e) in *.
    rewrite Hv in *. unfold handleSave in *. simpl in *.
    destruct (json_eqb _ _); [done|]. split; [|done]. simpl. f_equal. apply imap_alter.
  - destruct b; (split; [done|]); simpl; rewrite Hs.
    + by rewrite fmap_app.
    + apply unmark_texts.
  - unfold handleRemoveChunk. rewrite Hs. destruct (mk_marks m) as [|j ms] eqn:Em; csimpl.
    + split; [|done]. rewrite Hv. f_equal. simpl. unfold unmarked. rewrite js_filter_all.
      2:{ intros x _. unfold js_includes. by rewrite bool_decide_false by apply not_elem_of_nil. }
      apply list_eq. intros k. rewrite list_lookup_fmap, list_lookup_imap. by destruct (mk_list m !! k).
    + split; [|done]. unfold initialText. cbn [ed_initial ed_text].
      assert (chunks_of (initialText e) = mk_list m) as Hc by (unfold chunks_of; by rewrite Hv).
      unfold initialText in Hc. pose proof (without_selected_unmarked (j :: ms) (mk_list m)) as Hu. csimpl in Hu.
      destruct (ed_text e); simpl in *; rewrite Hc; f_equal; exact Hu.
  - split; [|done]. simpl. unfold chunks_of. by rewrite Hv.
Qed.

(** *** Along a session *)
Definition run (gs : list gesture) (e : editor) : editor := foldl do_gesture e gs.

Lemma gesture_frame e g :
  ed_data (do_gesture e g) = ed_data e ∧ ct_key (initialText (do_gesture e g)) = ct_key (initialText e) ∧
  ct_type (initialText (do_gesture e g)) = ct_type (initialText e) ∧
  ct_params (initialText (do_gesture e g)) = ct_params (initialText e) ∧
  (isChange e = true → match g with GEdit _ _ => True | _ => isChange (do_gesture e g) = true end).
Proof.
  destruct g as [i t|i b| |t]; simpl.
  - unfold array_handleSave, handleEdit. change (initialText (set_active (Some i) e)) with (initialText e).
    unfold handleSave. destruct (ct_value (initialText e)) as [| | | | |l|]; try (by repeat split).
    destruct (json_eqb _ _); by repeat split.
  - done.
  - unfold handleRemoveChunk, initialText. destruct (selectedChunkIds e); [done|]. destruct (ed_text e); done.
  - done.
Qed.

Lemma run_frame gs e :
  ed_data (run gs e) = ed_data e ∧ ct_key (initialText (run gs e)) = ct_key (initialText e) ∧
  ct_type (initialText (run gs e)) = ct_type (initialText e) ∧ ct_params (initialText (run gs e)) = ct_params (initialText e).
Proof.
  revert e. induction gs as [|g gs IH]; intros e; [done|]. destruct (gesture_frame e g) as (H1 & H2 & H3 & H4 & _).
  destruct (IH (do_gesture e g)) as (K1 & K2 & K3 & K4). simpl. unfold run in *. rewrite K1, K2, K3, K4. auto.
Qed.

Lemma parserKey_frame c c' : ct_key c = ct_key c' → ct_params c = ct_params c' → parserKey c = parserKey c'.
Proof. unfold parserKey. by intros -> ->. Qed.

Lemma run_shows gs e m : shows e m → no_return gs e →
  shows (run gs e) (foldl (mark_gesture (parserKey (initialText e))) m gs).
Proof.
  revert e m. induction gs as [|g gs IH]; intros e m Hm Hn; [done|]. destruct Hn as [Hg Hn].
  destruct (gesture_frame e g) as (_ & H2 & _ & H4 & _).
  specialize (IH _ _ (gesture_shows e m g Hm Hg) Hn). rewrite (parserKey_frame _ _ H2 H4) in IH. exact IH.
Qed.

Lemma run_changed gs e : no_return gs e → isChange e = true ∨ (∃ i t, GEdit i t ∈ gs) → isChange (run gs e) = true.
Proof.
  revert e. induction gs as [|g gs IH]; intros e Hn H.
  - destruct H as [H|(i & t & H)]; [done|by apply elem_of_nil in H].
  - destruct Hn as [Hg Hn]. apply IH; [done|]. destruct (gesture_frame e g) as (_ & _ & _ & _ & Hc).
    destruct g as [i t|i b| |t]; [by left|..]; (destruct H as [H|(i' & t' & [H|H]%elem_of_cons)];
      [left; by apply Hc|done|right; eauto]).
Qed.

(** The parts of a step that are spread are objects with distinct keys. *)
Definition step_ok (d : step_data) : Prop :=
  obj_wf (obj_of_val (sd_value d)) ∧ obj_wf (obj_of_val (prop "obj" (sd_value d))) ∧
  obj_wf (obj_of_val (params_of d)) ∧ obj_wf (obj_of_val (prop "outputs" (params_of d))).

Lemma spread_get k v : obj_wf (obj_of_val v) → obj_get k (obj_spread v) = prop k v.
Proof.
  intros H. unfold obj_spread, obj_get. rewrite obj_assign_lookup by done.
  destruct v; simpl in *; try done. unfold obj_get. by destruct (obj_lookup k o).
Qed.

Lemma rerun_outputs e : step_ok (ed_data e) →
  sd_key (rerun_data e) = sd_key (ed_data e) ∧
  (∀ k, k ≠ "obj" → prop k (sd_value (rerun_data e)) = prop k (sd_value (ed_data e))) ∧
  (∀ k, k ≠ "outputs" → prop k (params_of (rerun_data e)) = prop k (params_of (ed_data e))) ∧
  prop (ct_key (initialText e)) (prop "outputs" (params_of (rerun_data e))) =
    VObj [("type", ct_type (initialText e)); ("value", ct_value (initialText e))] ∧
  (∀ k, k ≠ ct_key (initialText e) →
    prop k (prop "outputs" (params_of (rerun_data e))) = prop k (prop "outputs" (params_of (ed_data e)))).
Proof.
  intros (H1 & H2 & H3 & H4). unfold rerun_data, params_of in *. cbn [sd_value sd_key prop].
  do 3 (rewrite ?obj_get_set_eq; cbn [prop]). split; [done|].
  split; [|split; [|split; [by rewrite ?obj_get_set_eq|]]]; intros k Hk; cbn [prop]; rewrite ?obj_get_set_eq; cbn [prop]; rewrite obj_get_set_ne by congruence; by apply spread_get.
Qed.

(** C32: From a step just loaded, as long as no edit restores the initial
    content (typed_back_not_shown), the editor shows after any edits, checks,
    deletions and additions exactly the list these make of the step's chunks,
    checked are exactly the marked ones, and once a chunk was edited running
    again is offered.  Running again then sends the step with that list as the
    value of its output, its type and all other parts as they were, under the
    step's key. *)
Theorem edits_refine d e0 l gs :
  let e := load d e0 in
  ct_value (initial_content d) = VArr l → selectedChunkIds e0 = [] → no_return gs e → step_ok d →
  let e' := run gs e in
  let m := foldl (mark_gesture (parserKey (initial_content d))) {| mk_list := l; mk_marks := [] |} gs in
  ct_value (initialText e') = VArr (mk_list m) ∧
  (∀ i, is_checked i e' = js_includes (mk_marks m) i) ∧
  ((∃ i t, GEdit i t ∈ gs) → isChange e' = true) ∧
  let sent := fst (handleReRunFunc e') in
  prop (ct_key (initial_content d)) (prop "outputs" (params_of sent)) =
    VObj [("type", ct_type (initial_content d)); ("value", VArr (mk_list m))] ∧
  (∀ k, k ≠ ct_key (initial_content d) → prop k (prop "outputs" (params_of sent)) = prop k (prop "outputs" (params_of d))) ∧
  (∀ k, k ≠ "outputs" → prop k (params_of sent) = prop k (params_of d)) ∧
  sd_key sent = sd_key d ∧ isChange (snd (handleReRunFunc e')) = false.
Proof.
  intros e Hl Hs Hn Hok e' m. destruct (run_shows gs e {| mk_list := l; mk_marks := [] |}) as [Hv Hc]; [done..|].
  destruct (run_frame gs e) as (F1 & F2 & F3 & F4). change (initialText e) with (initial_content d) in *.
  change (ed_data e) with d in *. fold e' in Hv, Hc, F1, F2, F3, F4. fold m in Hv, Hc.
  split; [done|]. split; [|split; [intros H; apply run_changed; auto|]].
  - intros i. unfold is_checked. rewrite Hc. apply eq_iff_eq_true. rewrite js_some_true, js_includes_true. split.
    + intros (x & Hx & Hp). apply list_elem_of_fmap in Hx as (j & -> & Hj). apply bool_decide_eq_true in Hp.
      simpl in Hp. apply (inj pretty) in Hp. rewrite <-Hp; exact Hj.
    + intros Hi. exists (SelText (pretty i)). split; [by apply list_elem_of_fmap; exists i|]. by apply bool_decide_eq_true.
  - intros sent. assert (step_ok (ed_data e')) as Hok' by (by rewrite F1).
    destruct (rerun_outputs e' Hok') as (R1 & R2 & R3 & R4 & R5).
    rewrite F1 in R1, R3, R5. rewrite F2 in R4, R5. rewrite F3, Hv in R4. by repeat split.
Qed.

Definition chunk (t : string) : val := VObj [("text", VStr t)].

Definition some_step : step_data :=
  {| sd_key := "Splitter:a";
     sd_value := VObj [("downstream", VArr []);
       ("obj", VObj [("component_name", VStr "Splitter");
         ("params", VObj [("outputs", VObj [("output_format", VObj [("value", VStr "chunks")]);
                                            ("chunks", VObj [("type", VStr "Array"); ("value", VArr [chunk "a"; chunk "b"])])])])])] |}.

Definition editor0 : editor :=
  {| ed_data := some_step; ed_initial := initial_content some_step; ed_text := None; isChange := false;
     selectedChunkIds := []; activeEditIndex := None |}.

Definition some_gestures : list gesture := [GEdit 0 "c"; GCheck 1 true; GCreate "d"; GRemove].

Lemma some_step_ok : step_ok some_step.
Proof. repeat split; apply (bool_decide_unpack _); vm_compute; exact I. Qed.

Lemma edits_refine_witness :
  ct_value (initialText (run some_gestures (load some_step editor0))) = VArr [chunk "c"; chunk "d"] ∧
  isChange (run some_gestures (load some_step editor0)) = true.
Proof.
  split; [vm_compute; reflexivity|].
  apply (edits_refine some_step editor0 [chunk "a"; chunk "b"] some_gestures eq_refl eq_refl).
  - repeat split; vm_compute; reflexivity.
  - exact some_step_ok.
  - exists 0, "c". by left.
Defined.

(** *** Where the editor does not do what it shows *)

Lemma without_numbers ns l : without_selected (SelNum <$> ns) l = l.
Proof.
  unfold without_selected. transitivity (snd <$> imap pair l).
  - induction (imap pair l) as [|ix ps IH]; [done|]. cbn [omap list_omap]. unfold js_includes at 1.
    rewrite bool_decide_false by (by intros (n & Hn & _)%list_elem_of_fmap). rewrite fmap_cons, <-IH. done.
  - apply list_eq. intros i. rewrite list_lookup_fmap, list_lookup_imap. by destruct (l !! i).
Qed.

(** Selecting all keeps numbers, deletion looks for texts: nothing is deleted,
    but running again is offered and the selection is gone. *)
Lemma select_all_removes_nothing e l : ct_value (initialText e) = VArr l → l ≠ [] →
  let e' := handleRemoveChunk (selectAllChunk true e) in
  ct_value (initialText e') = VArr l ∧ selectedChunkIds e' = [] ∧ isChange e' = true ∧
  ∀ i, i < length l → is_checked i (selectAllChunk true e) = true.
Proof.
  intros Hv Hl. cbv zeta.
  assert (selectedChunkIds (selectAllChunk true e) = SelNum <$> seq 0 (length l)) as Hs.
  { unfold selectAllChunk, chunks_of. by rewrite Hv. }
  pose proof (without_numbers (seq 0 (length l)) l) as Hw. rewrite <-Hs in Hw.
  split; [|split; [|split]].
  2-3: unfold handleRemoveChunk; rewrite Hs; by destruct l.
  - unfold handleRemoveChunk. destruct (selectedChunkIds (selectAllChunk true e)) as [|s ids] eqn:E; [by destruct l|].
    unfold initialText in *. cbn [ed_text ed_initial selectAllChunk set_selected]. unfold chunks_of.
    destruct (ed_text e); cbn in Hv |- *; rewrite Hv; cbn [arr_of_val]; by rewrite Hw.
  - intros i Hi. unfold is_checked. rewrite Hs. apply js_some_true. exists (SelNum i).
    split; [|by apply bool_decide_eq_true]. apply list_elem_of_fmap_2, elem_of_seq. lia.
Qed.

(** Typing the first text of a chunk again leaves the second one shown while
    running again is no longer offered. *)
Lemma typed_back_not_shown :
  let e := run [GEdit 0 "c"; GEdit 0 "a"] (load some_step editor0) in
  isChange e = false ∧ ct_value (initialText e) = VArr [chunk "c"; chunk "b"].
Proof. vm_compute. done. Qed.

(** Deleting assigns to the initial value itself: leaving another chunk
    unchanged then withdraws the offer to run again, the chunk stays gone. *)
Lemma deletion_withdrawn :
  let e := run [GCheck 1 true; GRemove] (load some_step editor0) in
  let e' := run [GEdit 0 "a"] e in
  isChange e = true ∧ isChange e' = false ∧ ct_value (initialText e') = VArr [chunk "a"].
Proof. vm_compute. done. Qed.

(** A new chunk alone does not offer to run again. *)
Lemma created_not_offered t : isChange (run [GCreate t] (load some_step editor0)) = false.
Proof. reflexivity. Qed.

(** ** The time line ends *)
Section timeline_ends.
Context (camelCase : string → string) (times : list (string * flow_comp)) (graphNodes : list (string * val)).

Abbreviation getNode := (getNode camelCase times graphNodes).
Abbreviation comp_at := (comp_at times).

Lemma getNode_mono fuel fuel' k i ty r : getNode fuel k i ty = r → r ≠ Diverge → fuel ≤ fuel' → getNode fuel' k i ty = r.
Proof.
  revert fuel' k i ty r. induction fuel as [|fuel IH]; intros fuel' k i ty r <- Hr Hle; [done|].
  destruct fuel' as [|fuel']; [lia|]. simpl in *. destruct (comp_at k) as [c|]; [|done]. simpl in *.
  destruct (fc_downstream c) as [|k' ds]; [done|].
  destruct (getNode fuel k' (i + 1) _) as [l| |] eqn:E; [| |done]; by rewrite (IH _ _ _ _ _ E) by (done || lia).
Qed.

(** The steps of a walk along the first edges. *)
Fixpoint walk (fuel : nat) (k : string) : outcome (list string) :=
  match fuel with
  | O => Diverge
  | S fuel =>
      c ← or_throw (comp_at k);
      match fc_downstream c with
      | k' :: _ => rest ← walk fuel k'; Ok (k :: rest)
      | [] => Ok [k]
      end
  end.

Lemma getNode_walk fuel k i ty : (λ l, map tn_key l) <$> getNode fuel k i ty = walk fuel k.
Proof.
  revert k i ty. induction fuel as [|fuel IH]; intros k i ty; [done|]. simpl. destruct (comp_at k) as [c|]; [|done]. simpl.
  destruct (fc_downstream c) as [|k' ds]; [done|]. rewrite <-(IH k' (i + 1) (node_type (camelCase (fc_name c)) ty)).
  by destruct (getNode fuel k' _ _).
Qed.

Lemma walk_mono fuel fuel' k r : walk fuel k = r → r ≠ Diverge → fuel ≤ fuel' → walk fuel' k = r.
Proof.
  rewrite <-!(getNode_walk _ _ 0 ""). intros <- Hr Hle. destruct (getNode fuel k 0 "") as [l| |] eqn:E; [| |done];
    by rewrite (getNode_mono _ _ _ _ _ _ E) by (done || lia).
Qed.

(** The position of a step from the end is its own, so no step comes twice. *)
Lemma walk_suffix fuel k l k' l1 l2 : walk fuel k = Ok l → l = l1 ++ k' :: l2 → ∃ fuel', walk fuel' k' = Ok (k' :: l2).
Proof.
  revert k l l1. induction fuel as [|fuel IH]; intros k l l1 H Hl; [done|]. pose proof H as H0. simpl in H.
  destruct (comp_at k) as [c|]; [|done]. simpl in H. destruct (fc_downstream c) as [|d ds].
  - injection H as <-. destruct l1 as [|x l1]; [|by destruct l1]. injection Hl as <- <-. by exists (S fuel).
  - destruct (walk fuel d) as [r| |] eqn:E; [|done..]. injection H as <-. destruct l1 as [|x l1].
    + injection Hl as <- <-. by exists (S fuel).
    + injection Hl as <- Hl. by eapply IH.
Qed.

Lemma walk_det f1 f2 k l1 l2 : walk f1 k = Ok l1 → walk f2 k = Ok l2 → l1 = l2.
Proof.
  intros H1 H2. apply (walk_mono _ (f1 `max` f2)) in H1; [|done|lia]. apply (walk_mono _ (f1 `max` f2)) in H2; [|done|lia].
  congruence.
Qed.

Lemma walk_NoDup fuel k l : walk fuel k = Ok l → NoDup l.
Proof.
  intros H. apply NoDup_alt. intros i j x Hi Hj.
  assert (∀ i j, i < j → l !! i = Some x → l !! j = Some x → False) as Hno.
  { clear i j Hi Hj. intros i j Hij Hi Hj.
    destruct (walk_suffix _ _ _ x (take i l) (drop (S i) l) H) as [f1 H1]; [by rewrite take_drop_middle|].
    destruct (walk_suffix _ _ _ x (take j l) (drop (S j) l) H) as [f2 H2]; [by rewrite take_drop_middle|].
    pose proof (walk_det _ _ _ _ _ H1 H2) as Heq. injection Heq as Heq. apply (f_equal length) in Heq.
    rewrite !length_drop in Heq. apply lookup_lt_Some in Hj. lia. }
  destruct (lt_eq_lt_dec i j) as [[?|]|?]; [|done|]; exfalso; eauto.
Qed.

Lemma walk_known fuel k l : walk fuel k = Ok l → l ⊆ times.*1.
Proof.
  revert k l. induction fuel as [|fuel IH]; intros k l H; [done|]. simpl in H. destruct (comp_at k) as [c|] eqn:Ec; [|done].
  assert (k ∈ times.*1) as Hk.
  { unfold ChunkEditor.comp_at in Ec. destruct (js_find _ times) as [kv|] eqn:E; [|done].
    apply js_find_Some in E as [Hin Hk]. apply bool_decide_eq_true in Hk as <-. by apply list_elem_of_fmap_2. }
  simpl in H. destruct (fc_downstream c) as [|d ds].
  - injection H as <-. intros x ->%list_elem_of_singleton. done.
  - destruct (walk fuel d) as [r| |] eqn:E; [|done..]. injection H as <-. intros x [->|Hx]%elem_of_cons; [done|]. by eapply IH.
Qed.

(** A walk takes as many calls as it has steps. *)
Lemma walk_length fuel k l : walk fuel k = Ok l → walk (length l) k = Ok l.
Proof.
  revert k l. induction fuel as [|fuel IH]; intros k l H; [done|]. pose proof H as H0. simpl in H.
  destruct (comp_at k) as [c|] eqn:Ec; [|done]. simpl in H. destruct (fc_downstream c) as [|d ds] eqn:Ed.
  - injection H as <-. simpl. by rewrite Ec; simpl; rewrite Ed.
  - destruct (walk fuel d) as [r| |] eqn:E; [|done..]. injection H as <-. simpl. rewrite Ec. simpl. rewrite Ed.
    by rewrite (IH _ _ E).
Qed.

(** The time line of a flow.  Its construction follows the first edge of
    each step; one call per component of the flow is enough: if the walk ends
    at all it has ended by then, its steps are components of the flow, none
    twice, numbered from one. *)
Theorem timeline_ends fuel nodes :
  getNode fuel "File" 1 "file" = Ok nodes →
  timelineNodes camelCase times graphNodes = Ok nodes ∧
  NoDup (tn_key <$> nodes) ∧ tn_key <$> nodes ⊆ times.*1 ∧
  tn_id <$> nodes = seq 1 (length nodes).
Proof.
  intros H. pose proof (getNode_walk fuel "File" 1 "file") as Hw. rewrite H in Hw. simpl in Hw. symmetry in Hw.
  change (map tn_key nodes) with (tn_key <$> nodes) in Hw.
  pose proof (walk_NoDup _ _ _ Hw) as Hnd. pose proof (walk_known _ _ _ Hw) as Hk.
  assert (length nodes ≤ length times) as Hle.
  { rewrite <-(length_fmap tn_key nodes), <-(length_fmap fst times). by apply submseteq_length, NoDup_submseteq. }
  split; [|split; [done|split; [done|]]].
  - apply walk_length in Hw. rewrite length_fmap in Hw. rewrite <-(getNode_walk _ _ 1 "file") in Hw.
    destruct (getNode (length nodes) "File" 1 "file") as [nodes'| |] eqn:E; [|done..].
    pose proof (getNode_mono _ (S (length times)) _ _ _ _ E ltac:(done) ltac:(lia)) as E1.
    unfold timelineNodes. rewrite E1.
    pose proof (getNode_mono _ (fuel + length nodes) _ _ _ _ E ltac:(done) ltac:(lia)) as E2.
    pose proof (getNode_mono _ (fuel + length nodes) _ _ _ _ H ltac:(done) ltac:(lia)) as E3. congruence.
  - clear Hw Hnd Hk Hle. revert H. generalize "File", 1, "file". revert nodes.
    induction fuel as [|fuel IH]; intros nodes k i ty H; [done|]. simpl in H. destruct (comp_at k) as [c|]; [|done].
    simpl in H. destruct (fc_downstream c) as [|d ds]; [by injection H as <-|].
    destruct (getNode fuel d (i + 1) _) as [r| |] eqn:E; [|done..]. injection H as <-. apply IH in E. csimpl.
    rewrite E. by rewrite Nat.add_1_r.
Qed.
End timeline_ends.

Definition two_steps : list (string * flow_comp) :=
  [("File", {| fc_name := "File"; fc_downstream := ["P"]; fc_elapsed := num_of_Z 1; fc_value := VNull |});
   ("P", {| fc_name := "Parser"; fc_downstream := []; fc_elapsed := num_of_Z 61; fc_value := VNull |})].

Lemma timeline_ends_witness :
  is_Some (match timelineNodes (λ n, if n === "Parser" then "parser" else n) two_steps [] with Ok l => Some l | _ => None end) ∧
  ∀ nodes, getNode (λ n, if n === "Parser" then "parser" else n) two_steps [] 2 "File" 1 "file" = Ok nodes →
    tn_id <$> nodes = seq 1 (length nodes).
Proof.
  split; [vm_compute; eexists; reflexivity|]. intros nodes H.
  apply (timeline_ends (λ n, if n === "Parser" then "parser" else n) two_steps [] 2 nodes H).
Defined.

(** A flow whose first edges form a cycle never gets a time line. *)
Lemma timeline_cycle camelCase graphNodes fuel i ty :
  getNode camelCase [("File", {| fc_name := "File"; fc_downstream := ["File"]; fc_elapsed := num_of_Z 1; fc_value := VNull |})]
    graphNodes fuel "File" i ty = Diverge.
Proof. revert i ty. induction fuel as [|fuel IH]; intros i ty; [done|]. simpl. by rewrite IH. Qed.
