(* ===== verification/ChunkPage.v ===== *)
(** * The page of the chunks of a document

    pages/chunk/parsed-result/add-knowledge/components/knowledge-chunk: the
    list of chunks with its selection, the switches that make chunks
    available, deletion, and the dialog that creates and edits a chunk; with
    the requests of hooks/use-chunk-request.ts.

    A reply of the server is an array kept by the query cache, and the page's
    own list is a reference to it; a switch assigns to the chunks of the array
    that was shown when it was made.  Arrays are cells of a heap. *)
From S2P Require Import Prelude JsValue FormUtils Search.
Open Scope list_scope.
Open Scope nat_scope.
Open Scope js_scope.

(** ** The state *)
Record pending_switch := { ps_ids : list string; ps_available : val; ps_list : nat }.

Record chunk_page := {
  pg_heap : list (list obj);          (* the arrays replied so far *)
  pg_data : nat;                      (* the array of the query *)
  chunkList : nat;                    (* the array shown *)
  pg_selected : list string;
  pg_paging : paging;
  pg_search : string;
  pg_available : val;
  pg_switching : list pending_switch; (* requests without a reply yet *)
  pg_removing : list (list string);
  pg_warnings : nat;
  pg_dialog : option (option string); (* the dialog is open, on a chunk or a new one *)
  pg_stale : nat                      (* how often the list was invalidated *)
}.

Definition array (r : nat) (p : chunk_page) : list obj := default [] (pg_heap p !! r).
Definition shown (p : chunk_page) : list obj := array (chunkList p) p.
Definition data (p : chunk_page) : list obj := array (pg_data p) p.

Definition chunk_id (c : obj) : val := obj_get "chunk_id" c.

Definition str_of (v : val) : string := match v with VStr s => s | _ => "" end.

(** *** Updates of parts of the state *)
Definition set_pg_selected (s : list string) (p : chunk_page) : chunk_page :=
  {| pg_heap := pg_heap p; pg_data := pg_data p; chunkList := chunkList p; pg_selected := s; pg_paging := pg_paging p;
     pg_search := pg_search p; pg_available := pg_available p; pg_switching := pg_switching p;
     pg_removing := pg_removing p; pg_warnings := pg_warnings p; pg_dialog := pg_dialog p; pg_stale := pg_stale p |}.

Definition set_query (q : paging) (s : string) (a : val) (p : chunk_page) : chunk_page :=
  {| pg_heap := pg_heap p; pg_data := pg_data p; chunkList := chunkList p; pg_selected := pg_selected p; pg_paging := q;
     pg_search := s; pg_available := a; pg_switching := pg_switching p; pg_removing := pg_removing p;
     pg_warnings := pg_warnings p; pg_dialog := pg_dialog p; pg_stale := pg_stale p |}.

Definition set_requests (sw : list pending_switch) (rm : list (list string)) (w : nat) (p : chunk_page) : chunk_page :=
  {| pg_heap := pg_heap p; pg_data := pg_data p; chunkList := chunkList p; pg_selected := pg_selected p;
     pg_paging := pg_paging p; pg_search := pg_search p; pg_available := pg_available p; pg_switching := sw;
     pg_removing := rm; pg_warnings := w; pg_dialog := pg_dialog p; pg_stale := pg_stale p |}.

Definition set_heap (h : list (list obj)) (d l : nat) (p : chunk_page) : chunk_page :=
  {| pg_heap := h; pg_data := d; chunkList := l; pg_selected := pg_selected p; pg_paging := pg_paging p;
     pg_search := pg_search p; pg_available := pg_available p; pg_switching := pg_switching p;
     pg_removing := pg_removing p; pg_warnings := pg_warnings p; pg_dialog := pg_dialog p; pg_stale := pg_stale p |}.

Definition set_dialog (d : option (option string)) (stale : nat) (p : chunk_page) : chunk_page :=
  {| pg_heap := pg_heap p; pg_data := pg_data p; chunkList := chunkList p; pg_selected := pg_selected p;
     pg_paging := pg_paging p; pg_search := pg_search p; pg_available := pg_available p; pg_switching := pg_switching p;
     pg_removing := pg_removing p; pg_warnings := pg_warnings p; pg_dialog := d; pg_stale := stale |}.

(** ** The selection *)
Definition selectAllChunk (checked : bool) (p : chunk_page) : chunk_page :=
  set_pg_selected (if checked then map (λ x, str_of (chunk_id x)) (data p) else []) p.

Definition handleSingleCheckboxClick (chunkId : string) (checked : bool) (p : chunk_page) : chunk_page :=
  set_pg_selected
    (match js_findIndex (λ x, x === chunkId) (pg_selected p), checked with
     | None, true => pg_selected p ++ [chunkId]
     | Some idx, false => take idx (pg_selected p) ++ drop (S idx) (pg_selected p)
     | _, _ => pg_selected p
     end) p.

Definition warn (p : chunk_page) : chunk_page := set_requests (pg_switching p) (pg_removing p) (S (pg_warnings p)) p.

(** ** Query parameters (useFetchNextChunkList) *)
Definition onPaginationChange (page : num) (size : option num) (p : chunk_page) : chunk_page :=
  set_query (setPaginationParams (Some page) size (pg_paging p)) (pg_search p) (pg_available p) (set_pg_selected [] p).

(** [setPagination({ page: 1 })] runs twice, here and in handleInputChange. *)
Definition onInputChange (s : string) (p : chunk_page) : chunk_page :=
  let q := setCurrentPagination (num_of_Z 1) None (pg_paging p) in
  set_query (setCurrentPagination (num_of_Z 1) None q) s (pg_available p) p.

Definition handleSetAvailable (a : val) (p : chunk_page) : chunk_page :=
  set_query (setCurrentPagination (num_of_Z 1) None (pg_paging p)) (pg_search p) a p.

(** A new reply, and the effect that shows it. *)
Definition data_arrives (chunks : list obj) (p : chunk_page) : chunk_page :=
  set_heap (pg_heap p ++ [chunks]) (length (pg_heap p)) (length (pg_heap p)) p.

(** ** Deletion *)
Definition handleRemoveChunk (p : chunk_page) : chunk_page :=
  match pg_selected p with
  | [] => warn p
  | ids => set_requests (pg_switching p) (pg_removing p ++ [ids]) (pg_warnings p) p
  end.

(** The [i]th waiting deletion is answered: on success the first page is
    fetched anew and the selection cleared. *)
Definition removed (i : nat) (code : Z) (p : chunk_page) : chunk_page :=
  match pg_removing p !! i with
  | None => p
  | Some _ =>
      let p := set_requests (pg_switching p) (delete i (pg_removing p)) (pg_warnings p) p in
      if (code =? 0)%Z
      then set_dialog (pg_dialog p) (S (pg_stale p))
             (set_pg_selected []
                (set_query (setPaginationParams (Some (num_of_Z 1)) None (pg_paging p)) (pg_search p) (pg_available p) p))
      else p
  end.

(** ** Switching chunks on and off *)
Definition handleSwitchChunk (available : val) (chunkIds : option (list string)) (p : chunk_page) : chunk_page :=
  match chunkIds, pg_selected p with
  | None, [] => warn p
  | _, selected =>
      let ids := default selected chunkIds in
      set_requests (pg_switching p ++ [{| ps_ids := ids; ps_available := available; ps_list := chunkList p |}])
        (pg_removing p) (pg_warnings p) p
  end.

(** [ids.indexOf(x['chunk_id']) > -1] *)
Definition in_ids (ids : list string) (x : obj) : bool := js_some (λ i, VStr i === chunk_id x) ids.

Definition switch_list (s : pending_switch) (l : list obj) : list obj :=
  map (λ x, if in_ids (ps_ids s) x then obj_set "available_int" (ps_available s) x else x) l.

(** The [i]th waiting switch is answered. *)
Definition switched (i : nat) (code : Z) (p : chunk_page) : chunk_page :=
  match pg_switching p !! i with
  | None => p
  | Some s =>
      let p := set_requests (delete i (pg_switching p)) (pg_removing p) (pg_warnings p) p in
      if negb (bool_decide (ps_ids s = [])) && (code =? 0)%Z
      then set_heap (alter (switch_list s) (ps_list s) (pg_heap p)) (pg_data p) (ps_list s) p
      else p
  end.

(** The switch on a card. *)
Definition card_switch (item : obj) (p : chunk_page) : chunk_page :=
  handleSwitchChunk (VNum (num_of_Z (if Number (obj_get "available_int" item) === num_of_Z 0 then 1 else 0)))
    (Some [str_of (chunk_id item)]) p.

(** ** The dialog of a chunk *)
Definition transformTagFeaturesArrayToObject (l : list (string * val)) : obj :=
  foldl (λ pre cur, obj_set cur.1 cur.2 pre) [] l.

Definition transformTagFeaturesObjectToArray (o : obj) : list (string * val) :=
  map (λ key, (key, obj_get key o)) (obj_keys o).

Definition tag_items (v : val) : list (string * val) :=
  map (λ x, (str_of (prop "tag" x), prop "frequency" x)) (arr_of_val v).

Definition items_val (l : list (string * val)) : val :=
  VArr (map (λ t, VObj [("frequency", t.2); ("tag", VStr t.1)]) l).

(** The form of the dialog and its box for availability. *)
Record chunk_form := { cf_values : obj; cf_checked : bool }.

Definition chunk_form0 : chunk_form :=
  {| cf_values := [("content_with_weight", VStr ""); ("tag_kwd", VArr []); ("question_kwd", VArr []);
                   ("important_kwd", VArr []); ("tag_feas", VArr []); ("image", VArr [])];
     cf_checked := false |}.

(** The effect on the fetched chunk. *)
Definition chunk_fetched (reply : val) (f : chunk_form) : chunk_form :=
  if prop "code" reply === VNum (num_of_Z 0) then
    let d := prop "data" reply in
    {| cf_values := obj_set "tag_feas"
         (items_val (transformTagFeaturesObjectToArray (obj_of_val (prop "tag_feas" d)))) (obj_assign [] (obj_of_val d));
       cf_checked := prop "available_int" d !== VNum (num_of_Z 0) |}
  else f.

Definition handleCheck (f : chunk_form) : chunk_form := {| cf_values := cf_values f; cf_checked := negb (cf_checked f) |}.

(** [onSubmit] of the dialog, with the encoded image, if any *)
Definition prunedValues (image_base64 : val) (f : chunk_form) : obj :=
  obj_del "image"
    (obj_set "available_int" (VNum (num_of_Z (if cf_checked f then 1 else 0)))
      (obj_set "tag_feas" (VObj (transformTagFeaturesArrayToObject (tag_items (obj_get "tag_feas" (cf_values f)))))
        (obj_set "image_base64" image_base64 (obj_assign [] (cf_values f))))).

(** [onChunkUpdatingOk] of the page: the payload of the request *)
Definition chunk_payload (image_base64 : val) (doc_id : string) (chunkId : option string) (f : chunk_form) : obj :=
  obj_set "chunk_id" (of_ostr chunkId) (obj_set "doc_id" (VStr doc_id) (obj_assign [] (prunedValues image_base64 f))).

(** A payload with a chunk's identifier is an update. *)
Definition is_update (payload : obj) : bool := truthy (obj_get "chunk_id" payload).

Definition showChunkUpdatingModal (id : option string) (p : chunk_page) : chunk_page := set_dialog (Some id) (pg_stale p) p.

(** The reply closes the dialog; a second later the list is fetched anew. *)
Definition chunk_saved (code : Z) (p : chunk_page) : chunk_page :=
  if (code =? 0)%Z then set_dialog None (pg_stale p) p else p.

Definition chunk_saved_later (p : chunk_page) : chunk_page := set_dialog (pg_dialog p) (S (pg_stale p)) p.

(** ** The page as a whole *)
Inductive page_event :=
  | ESelectAll (checked : bool)
  | ECheck (id : string) (checked : bool)
  | EPage (page : num) (size : option num)
  | EInput (s : string)
  | EAvailable (a : val)
  | EData (chunks : list obj)
  | ERemove
  | ERemoved (i : nat) (code : Z)
  | ESwitch (available : val) (ids : option (list string))
  | ESwitched (i : nat) (code : Z)
  | EShowDialog (id : option string)
  | ESaved (code : Z)
  | ESavedLater.

Definition page_step (p : chunk_page) (e : page_event) : chunk_page :=
  match e with
  | ESelectAll b => selectAllChunk b p
  | ECheck id b => handleSingleCheckboxClick id b p
  | EPage n s => onPaginationChange n s p
  | EInput s => onInputChange s p
  | EAvailable a => handleSetAvailable a p
  | EData l => data_arrives l p
  | ERemove => handleRemoveChunk p
  | ERemoved i c => removed i c p
  | ESwitch a ids => handleSwitchChunk a ids p
  | ESwitched i c => switched i c p
  | EShowDialog id => showChunkUpdatingModal id p
  | ESaved c => chunk_saved c p
  | ESavedLater => chunk_saved_later p
  end.

Definition page0 : chunk_page :=
  {| pg_heap := [[]]; pg_data := 0; chunkList := 0; pg_selected := []; pg_paging := {| url_page := None; url_size := None |};
     pg_search := ""; pg_available := VUndef; pg_switching := []; pg_removing := []; pg_warnings := 0; pg_dialog := None;
     pg_stale := 0 |}.

(** The identifiers of the chunks of a list. *)
Definition ids_of (l : list obj) : list string := map (λ x, str_of (chunk_id x)) l.

Lemma js_findIndex_take_drop (ids : list string) (c : string) i :
  js_findIndex (λ x, x === c) ids = Some i → NoDup ids →
  take i ids ++ drop (S i) ids = js_filter (λ x, x !== c) ids.
Proof.
  intros [(x & Hx & Hc) _]%js_findIndex_Some Hnd. apply bool_decide_eq_true in Hc as ->.
  pose proof (take_drop_middle ids i c Hx) as Hm. rewrite <-Hm in Hnd.
  transitivity (js_filter (λ x, x !== c) (take i ids ++ c :: drop (S i) ids)); [|by rewrite Hm].
  apply NoDup_app in Hnd as (_ & H1 & [H2 _]%NoDup_cons).
  rewrite js_filter_app, js_filter_cons, bool_decide_true by done. simpl.
  rewrite !js_filter_all; [done| |]; intros y Hy; apply negb_true_iff, bool_decide_eq_false; intros ->; [done|].
  apply (H1 _ Hy). by left.
Qed.

(** A click on the box of a chunk checks or unchecks it and no other. *)
Lemma single_click id b p : NoDup (pg_selected p) →
  let p' := handleSingleCheckboxClick id b p in
  NoDup (pg_selected p') ∧ ∀ i, i ∈ pg_selected p' ↔ if decide (i = id) then b = true else i ∈ pg_selected p.
Proof.
  intros Hnd. unfold handleSingleCheckboxClick. cbn [set_pg_selected pg_selected].
  destruct (js_findIndex _ (pg_selected p)) as [i|] eqn:E.
  - assert (id ∈ pg_selected p) as Hin.
    { apply js_findIndex_Some in E as [(x & Hx & Hc) _]. apply bool_decide_eq_true in Hc as ->.
      by eapply list_elem_of_lookup_2. }
    destruct b; simpl.
    + split; [done|]. intros j. case_decide as Hj; [by subst|done].
    + rewrite (js_findIndex_take_drop _ _ _ E Hnd). split; [by apply NoDup_js_filter|]. intros j.
      rewrite elem_of_js_filter. case_decide as Hj; rewrite negb_true_iff, bool_decide_eq_false; naive_solver.
  - rewrite js_findIndex_None in E. assert (id ∉ pg_selected p) as Hin.
    { intros Hin. specialize (E _ Hin). by rewrite bool_decide_true in E. }
    destruct b; simpl.
    + split; [apply NoDup_app; split; [done|]; split; [set_solver|apply NoDup_singleton]|].
      intros j. case_decide as Hj; set_solver.
    + split; [done|]. intros j. case_decide as Hj; [|done]. subst. by split.
Qed.

(** What holds of the page whatever happens: the shown array exists. *)
Record page_ok (p : chunk_page) : Prop := {
  ok_selected : NoDup (pg_selected p);
  ok_data : pg_data p < length (pg_heap p);
  ok_heap : Forall (λ l, NoDup (ids_of l)) (pg_heap p);
  ok_removing : Forall (λ ids, ids ≠ [] ∧ NoDup ids) (pg_removing p)
}.

(** No new list arrives while a switch waits for its reply. *)
Definition calm (e : page_event) (p : chunk_page) : Prop :=
  match e with EData _ => pg_switching p = [] | _ => True end.

Definition in_step (p : chunk_page) : Prop :=
  chunkList p = pg_data p ∧ Forall (λ s, ps_list s = pg_data p) (pg_switching p).

Definition event_ok (e : page_event) : Prop :=
  match e with EData l => NoDup (ids_of l) | _ => True end.

Lemma switch_list_ids s l : ids_of (switch_list s l) = ids_of l.
Proof.
  unfold ids_of, switch_list. induction l as [|x l IH]; [done|]. csimpl. f_equal; [|exact IH].
  destruct (in_ids _ x); [|done]. unfold chunk_id. by rewrite obj_get_set_ne.
Qed.

Lemma page_step_ok p e : page_ok p → event_ok e → page_ok (page_step p e).
Proof.
  intros [H1 H2 H3 H4] He. destruct e as [b|id b|n s|s|a|l| |i c|a ids|i c|id|c|]; simpl in He |- *.
  - split; try done. simpl. destruct b; [|constructor]. unfold data, array.
    destruct (pg_heap p !! pg_data p) as [l|] eqn:El; [|by apply lookup_ge_None in El; lia].
    by apply (Forall_lookup_1 _ _ _ _ H3 El).
  - split; try done. by apply single_click.
  - split; try done. constructor.
  - done.
  - done.
  - split; simpl; try done; [rewrite length_app; simpl; lia|]. apply Forall_app. split; [done|]. by constructor.
  - unfold handleRemoveChunk. destruct (pg_selected p) as [|i ids] eqn:Es; [split; simpl; try done; by rewrite Es|].
    split; simpl; try done; [by rewrite Es|]. apply Forall_app. split; [done|]. by constructor.
  - unfold removed. destruct (pg_removing p !! i) as [rm|]; [|by split].
    destruct (c =? 0)%Z; split; simpl; try done; try (by apply Forall_delete). constructor.
  - unfold handleSwitchChunk. destruct ids, (pg_selected p) eqn:Es; split; simpl; rewrite ?Es; done.
  - unfold switched. destruct (pg_switching p !! i) as [s|]; [|by split]. destruct (negb _ && _); split; simpl; try done.
    + by rewrite length_alter.
    + apply Forall_alter; [done|]. intros l _ Hl. by rewrite switch_list_ids.
  - done.
  - unfold chunk_saved. by destruct (c =? 0)%Z.
  - done.
Qed.

Lemma page_step_in_step p e : in_step p → calm e p → in_step (page_step p e).
Proof.
  intros [H1 H2] Hc. destruct e as [b|id b|n s|s|a|l| |i c|a ids|i c|id|c|]; simpl in Hc |- *; try done.
  - split; [done|]. simpl. rewrite Hc. constructor.
  - unfold handleRemoveChunk. by destruct (pg_selected p).
  - unfold removed. destruct (pg_removing p !! i); [|done]. by destruct (c =? 0)%Z.
  - unfold handleSwitchChunk. destruct ids, (pg_selected p); split; simpl; try done; apply Forall_app; split; auto.
  - unfold switched. destruct (pg_switching p !! i) as [s|] eqn:Es; [|by split].
    pose proof (Forall_lookup_1 _ _ _ _ H2 Es) as Hs. simpl in Hs.
    destruct (negb _ && _); split; simpl; try done; by apply Forall_delete.
  - unfold chunk_saved. by destruct (c =? 0)%Z.
Qed.

Fixpoint calm_run (evs : list page_event) (p : chunk_page) : Prop :=
  match evs with [] => True | e :: evs => calm e p ∧ calm_run evs (page_step p e) end.

(** The chunk page, in whatever order gestures, lists and replies follow.
    No chunk is selected twice and every deletion asks for at least one chunk
    and none twice.  If no new list arrives while a switch waits for its
    reply, the page shows the list of its query, and the reply of a switch
    sets the availability of exactly the chunks it was made for, in the order
    and with all other properties they had. *)
Theorem chunk_page_reachable evs :
  Forall event_ok evs → let p := foldl page_step page0 evs in
  NoDup (pg_selected p) ∧ Forall (λ ids, ids ≠ [] ∧ NoDup ids) (pg_removing p) ∧
  (calm_run evs page0 → shown p = data p ∧
   ∀ i s, pg_switching p !! i = Some s → ps_ids s ≠ [] →
     shown (switched i 0 p) = switch_list s (data p) ∧ data (switched i 0 p) = switch_list s (data p)).
Proof.
  intros Hev p. assert (∀ q, page_ok q → page_ok (foldl page_step q evs)) as Hok.
  { induction Hev as [|e evs He _ IH]; intros q Hq; [done|]. by apply IH, page_step_ok. }
  assert (page_ok page0) as H0 by (split; simpl; try constructor; constructor).
  destruct (Hok page0 H0) as [H1 H2 H3 H4]. fold p in H1, H2, H3, H4. split; [done|]. split; [done|]. intros Hc.
  assert (∀ q, in_step q → calm_run evs q → in_step (foldl page_step q evs)) as Hin.
  { clear. induction evs as [|e evs IH]; intros q Hq Hr; [done|]. destruct Hr. by apply IH; [apply page_step_in_step|]. }
  destruct (Hin page0 ltac:(by split; [|constructor]) Hc) as [Hl Hs]. fold p in Hl, Hs.
  split; [unfold shown, data; by rewrite Hl|]. intros i s Hsw Hne. pose proof (Forall_lookup_1 _ _ _ _ Hs Hsw) as Hs'. simpl in Hs'.
  unfold switched. rewrite Hsw, bool_decide_false by done. simpl. unfold shown, data, array. simpl. rewrite Hs'.
  rewrite list_lookup_alter_eq. destruct (pg_heap p !! pg_data p) as [l|] eqn:El; [done|]. apply lookup_ge_None in El. lia.
Qed.

Definition available (b : bool) : val := VNum (num_of_Z (if b then 1 else 0)).

Example run1 : list page_event :=
  [EData [[("chunk_id", VStr "a"); ("available_int", available true)]; [("chunk_id", VStr "b"); ("available_int", available true)]];
   ESelectAll true; ECheck "a" false; ESwitch (available false) None].

Lemma chunk_page_reachable_witness :
  pg_selected (foldl page_step page0 run1) = ["b"] ∧
  shown (switched 0 0 (foldl page_step page0 run1)) =
    [[("chunk_id", VStr "a"); ("available_int", available true)]; [("chunk_id", VStr "b"); ("available_int", available false)]].
Proof.
  split; [reflexivity|].
  assert (Forall event_ok run1) as Hev by (repeat constructor; apply (bool_decide_unpack _); vm_compute; exact I).
  destruct (chunk_page_reachable run1 Hev) as (_ & _ & H).
  destruct (H ltac:(repeat split)) as [_ H'].
  destruct (H' 0 {| ps_ids := ["b"]; ps_available := available false; ps_list := 1 |} eq_refl ltac:(done)) as [-> _]. reflexivity.
Defined.

(** ** Two orders of events that go wrong *)

(** A reply of a switch brings back the list shown when it was made: after a
    turn of the page the cards are those of the page before, while the
    select-all box and the query are on the new page. *)
Lemma switch_shows_old_page :
  let old := [[("chunk_id", VStr "a")]] in let new := [[("chunk_id", VStr "b")]] in
  let p := foldl page_step page0
    [EData old; ESwitch (available false) (Some ["a"]); EPage (num_of_Z 2) None; EData new; ESwitched 0 0; ESelectAll true] in
  shown p = switch_list {| ps_ids := ["a"]; ps_available := available false; ps_list := 1 |} old ∧ data p = new ∧
  pg_selected p = ["b"].
Proof. done. Qed.

(** A search does not clear the selection: a deletion then asks for chunks
    that are not in the list. *)
Lemma search_deletes_unshown :
  let p := foldl page_step page0
    [EData [[("chunk_id", VStr "a")]]; ECheck "a" true; EInput "x"; EData [[("chunk_id", VStr "b")]]; ERemove] in
  ids_of (shown p) = ["b"] ∧ pg_removing p = [["a"]].
Proof. done. Qed.

(** ** Opening a chunk and saving it *)

Lemma tag_items_val l : tag_items (items_val l) = l.
Proof.
  unfold tag_items, items_val. simpl. rewrite map_map. simpl. induction l as [|[t f] l IH]; [done|].
  csimpl. f_equal. exact IH.
Qed.

(** The tags of a chunk survive the form's list of them. *)
Lemma tag_features_roundtrip o : obj_wf o →
  transformTagFeaturesArrayToObject (transformTagFeaturesObjectToArray o) = obj_entries o.
Proof.
  intros Hwf. unfold transformTagFeaturesArrayToObject, transformTagFeaturesObjectToArray, obj_keys.
  assert (map (λ key, (key, obj_get key o)) (obj_entries o).*1 = obj_entries o) as ->.
  { rewrite map_map. transitivity (map id (obj_entries o)); [|apply map_id]. apply map_ext_in.
    intros [k v] Hin%list_elem_of_In. unfold obj_get. rewrite <-obj_entries_lookup by done.
    by rewrite (obj_lookup_NoDup k v); [|by apply obj_entries_wf|]. }
  rewrite foldl_obj_set_fresh; [done|]. by apply obj_entries_wf.
Qed.

Definition dialog_keys : list string :=
  ["image"; "image_base64"; "tag_feas"; "available_int"; "chunk_id"; "doc_id"].

(** A chunk opened in the dialog and saved as it is: every property of the
    chunk that the dialog does not own is sent back as it was read, the tags as
    the same entries, the availability as 0 exactly for an unavailable chunk,
    under the identifiers of the chunk and of its document, as an update. *)
Theorem chunk_dialog_roundtrip d feas img doc id f :
  obj_wf d → obj_wf feas → obj_get "tag_feas" d = VObj feas → id ≠ "" →
  let reply := VObj [("code", VNum (num_of_Z 0)); ("data", VObj d)] in
  let o := chunk_payload img doc (Some id) (chunk_fetched reply f) in
  (∀ k, k ∉ dialog_keys → obj_get k o = obj_get k d) ∧
  obj_get "tag_feas" o = VObj (obj_entries feas) ∧
  obj_get "available_int" o = VNum (num_of_Z (if obj_get "available_int" d === VNum (num_of_Z 0) then 0 else 1)) ∧
  obj_get "chunk_id" o = VStr id ∧ obj_get "doc_id" o = VStr doc ∧ is_update o = true.
Proof.
  intros Hd Hf Ht Hid reply o. unfold o, chunk_payload, prunedValues, chunk_fetched, is_update.
  assert ((prop "code" reply === VNum (num_of_Z 0)) = true) as -> by (by apply bool_decide_eq_true).
  change (prop "data" reply) with (VObj d). simpl (obj_of_val _). simpl (prop "tag_feas" _). rewrite Ht.
  cbn [cf_values cf_checked obj_of_val prop]. rewrite obj_get_set_eq, tag_items_val, tag_features_roundtrip by done.
  assert (obj_wf (obj_assign [] d)) as Hw by (apply obj_assign_wf; constructor).
  split; [|split; [|split; [|split; [|split]]]].
  - intros k Hk. unfold dialog_keys in Hk. rewrite !not_elem_of_cons in Hk. destruct Hk as (H1&H2&H3&H4&H5&H6&_).
    rewrite !obj_get_set_ne by done.
    rewrite obj_get_assign_nil by (apply obj_del_wf; repeat apply obj_set_wf; apply obj_assign_wf; constructor).
    rewrite obj_get_del_ne, !obj_get_set_ne by done.
    rewrite obj_get_assign_nil by (by apply obj_set_wf). rewrite obj_get_set_ne by done. by apply obj_get_assign_nil.
  - rewrite !obj_get_set_ne by done.
    rewrite obj_get_assign_nil by (apply obj_del_wf; repeat apply obj_set_wf; apply obj_assign_wf; constructor).
    by rewrite obj_get_del_ne, obj_get_set_ne, obj_get_set_eq.
  - rewrite !obj_get_set_ne by done.
    rewrite obj_get_assign_nil by (apply obj_del_wf; repeat apply obj_set_wf; apply obj_assign_wf; constructor).
    rewrite obj_get_del_ne, obj_get_set_eq by done. by case_bool_decide.
  - by rewrite obj_get_set_eq.
  - by rewrite obj_get_set_ne, obj_get_set_eq.
  - rewrite obj_get_set_eq. by destruct id.
Qed.

Lemma chunk_dialog_roundtrip_witness :
  let d := [("chunk_id", VStr "c"); ("content_with_weight", VStr "text"); ("tag_feas", VObj [("b", available true)]);
            ("available_int", available false)] in
  obj_get "content_with_weight"
    (chunk_payload VUndef "doc" (Some "c")
      (chunk_fetched (VObj [("code", VNum (num_of_Z 0)); ("data", VObj d)]) chunk_form0)) = VStr "text".
Proof.
  intros d. assert (obj_wf d) as Hd by (apply (bool_decide_unpack _); vm_compute; exact I).
  assert (obj_wf [("b", available true)]) as Hf by (apply (bool_decide_unpack _); vm_compute; exact I).
  destruct (chunk_dialog_roundtrip d _ VUndef "doc" "c" chunk_form0 Hd Hf eq_refl ltac:(done)) as [H _].
  exact (H "content_with_weight" ltac:(apply (bool_decide_unpack _); vm_compute; exact I)).
Defined.
