(* ===== verification/FileUpload.v ===== *)
(** * Uploading files

    components/file-upload.tsx: the store of the files chosen (its reducer
    over a Map from files to their states), the checks of new files, the
    frames, timers and callbacks of an upload, and the previews with their
    object URLs; and its client pages/agent/debug-content/uploader.tsx, which
    keeps the server's records beside the files.

    A [File] is an object, known by its reference; [info] is its content. *)
From S2P Require Import Prelude JsValue.
From Stdlib Require Import Ascii QArith Qcanon.
Open Scope list_scope.
Open Scope nat_scope.
Open Scope js_scope.

Abbreviation file := nat (only parsing).

Record file_info := { fi_name : string; fi_type : string; fi_size : Z }.

Inductive status := idle | uploading | error | success.

#[export] Instance status_eq_dec : EqDecision status.
Proof. solve_decision. Defined.

Record file_state := { fs_progress : JsValue.num; fs_error : option string; fs_status : status }.

(** ** The store *)
Record store := {
  st_files : list (file * file_state);
  st_dragOver : bool;
  st_invalid : bool;
  st_urlCache : list (file * nat);   (* object URLs by file *)
  st_live : list nat;                (* object URLs not revoked *)
  st_created : nat                   (* how many were created *)
}.

Inductive action :=
  | ADD_FILES (files : list file)
  | SET_FILES (files : list file)
  | SET_PROGRESS (f : file) (progress : JsValue.num)
  | SET_SUCCESS (f : file)
  | SET_ERROR (f : file) (message : string)
  | REMOVE_FILE (f : file)
  | SET_DRAG_OVER (dragOver : bool)
  | SET_INVALID (invalid : bool)
  | CLEAR.

Definition with_files (m : list (file * file_state)) (s : store) : store :=
  {| st_files := m; st_dragOver := st_dragOver s; st_invalid := st_invalid s; st_urlCache := st_urlCache s;
     st_live := st_live s; st_created := st_created s |}.

Definition with_urls (cache : list (file * nat)) (live : list nat) (n : nat) (s : store) : store :=
  {| st_files := st_files s; st_dragOver := st_dragOver s; st_invalid := st_invalid s; st_urlCache := cache;
     st_live := live; st_created := n |}.

Definition with_flags (dragOver invalid : bool) (s : store) : store :=
  {| st_files := st_files s; st_dragOver := dragOver; st_invalid := invalid; st_urlCache := st_urlCache s;
     st_live := st_live s; st_created := st_created s |}.

Definition file_keys (s : store) : list file := (st_files s).*1.

Definition fresh_state : file_state := {| fs_progress := num_of_Z 0; fs_error := None; fs_status := idle |}.

Definition update_file (f : file) (g : file_state → file_state) (s : store) : store :=
  match map_get f (st_files s) with Some st => with_files (map_set f (g st) (st_files s)) s | None => s end.

Definition revoke (s : store) (f : file) : store :=
  match map_get f (st_urlCache s) with
  | Some url => with_urls (map_delete f (st_urlCache s)) (js_filter (λ u, u !== url) (st_live s)) (st_created s) s
  | None => s
  end.

(** The reducer, and the list [onValueChange] is called with, if it is. *)
Definition reducer (s : store) (a : action) : store * option (list file) :=
  match a with
  | ADD_FILES files =>
      let s := with_files (foldl (λ m (f : file), map_set f fresh_state m) (st_files s) files) s in (s, Some (file_keys s))
  | SET_FILES files =>
      let kept := js_filter (λ ga, js_includes files ga.1) (st_files s) in
      (with_files (foldl (λ m (f : file), match map_get f m with Some _ => m | None => map_set f fresh_state m end) kept files) s,
       None)
  | SET_PROGRESS f p =>
      (update_file f (λ st, {| fs_progress := p; fs_error := fs_error st; fs_status := uploading |}) s, None)
  | SET_SUCCESS f =>
      (update_file f (λ st, {| fs_progress := num_of_Z 100; fs_error := fs_error st; fs_status := success |}) s, None)
  | SET_ERROR f e =>
      (update_file f (λ st, {| fs_progress := fs_progress st; fs_error := Some e; fs_status := error |}) s, None)
  | REMOVE_FILE f =>
      let s := revoke s f in let s := with_files (map_delete f (st_files s)) s in (s, Some (file_keys s))
  | SET_DRAG_OVER b => (with_flags b (st_invalid s) s, None)
  | SET_INVALID b => (with_flags (st_dragOver s) b s, None)
  | CLEAR => (with_flags (st_dragOver s) false (with_files [] (foldl revoke s (file_keys s))), Some [])
  end.

(** ** The root component *)

(** A frame waits with a report of progress or with the start of an upload. *)
Inductive task := FProgress (f : file) (p : JsValue.num) | FUpload (files : list file).

Record root := {
  rt_store : store;
  rt_value : list file;                  (* the state of the parent *)
  rt_changed : bool;                     (* it was set, the effect on it is due *)
  rt_frames : list task;
  rt_timers : nat;
  rt_rejected : list (file * string);    (* calls of onFileReject *)
  rt_accepted : list (list file);        (* calls of onAccept *)
  rt_uploads : list (list file)          (* calls of onUpload *)
}.

Record upload_props := {
  isControlled : bool;
  disabled : bool;
  maxFiles : option nat;
  maxSize : option Z;
  accept : option string;
  onFileValidate : option (file → option string);
  hasUpload : bool
}.

Section upload.
Context (info : file → file_info) (props : upload_props).

Definition with_store (s : store) (r : root) : root :=
  {| rt_store := s; rt_value := rt_value r; rt_changed := rt_changed r; rt_frames := rt_frames r; rt_timers := rt_timers r;
     rt_rejected := rt_rejected r; rt_accepted := rt_accepted r; rt_uploads := rt_uploads r |}.

Definition with_value (v : list file) (changed : bool) (r : root) : root :=
  {| rt_store := rt_store r; rt_value := v; rt_changed := changed; rt_frames := rt_frames r; rt_timers := rt_timers r;
     rt_rejected := rt_rejected r; rt_accepted := rt_accepted r; rt_uploads := rt_uploads r |}.

Definition with_waiting (fr : list task) (t : nat) (r : root) : root :=
  {| rt_store := rt_store r; rt_value := rt_value r; rt_changed := rt_changed r; rt_frames := fr; rt_timers := t;
     rt_rejected := rt_rejected r; rt_accepted := rt_accepted r; rt_uploads := rt_uploads r |}.

Definition with_calls (rej : list (file * string)) (acc up : list (list file)) (r : root) : root :=
  {| rt_store := rt_store r; rt_value := rt_value r; rt_changed := rt_changed r; rt_frames := rt_frames r;
     rt_timers := rt_timers r; rt_rejected := rej; rt_accepted := acc; rt_uploads := up |}.

(** [onValueChange]: a parent that controls the component keeps the list. *)
Definition value_change (l : list file) (r : root) : root := if isControlled props then with_value l true r else r.

Definition dispatch (a : action) (r : root) : root :=
  let '(s, call) := reducer (rt_store r) a in
  let r := with_store s r in
  match call with Some l => value_change l r | None => r end.

(** The effect on the value. *)
Definition value_effect (r : root) : root :=
  if isControlled props && rt_changed r then dispatch (SET_FILES (rt_value r)) (with_value (rt_value r) false r) else r.

(** *** The checks of a file *)
Definition acceptTypes : option (list string) := map str_trim <$> (js_split ","%char <$> accept props).

(** [s.replace('/*', '/')] *)
Fixpoint replace_star (s : string) : string :=
  match s with
  | "" => ""
  | String a s' => if String.prefix "/*" s then "/" +:+ String.substring 2 (String.length s) s else String a (replace_star s')
  end.

Definition type_accepted (f : file) (type : string) : bool :=
  let fileExtension := "." +:+ default "" (last (js_split "."%char (fi_name (info f)))) in
  (type === fi_type (info f)) || (type === fileExtension) ||
  (str_includes "/*" type && starts_with (replace_star type) (fi_type (info f))).

(** A message that is not empty. *)
Definition validation (f : file) : option string :=
  match onFileValidate props with
  | Some v => match v f with Some ((String _ _) as m) => Some m | _ => None end
  | None => None
  end.

(** The calls of [onFileReject] for one file: none means accepted. *)
Definition rejections (f : file) : list string :=
  match validation f with
  | Some m => [m]
  | None =>
      (match acceptTypes with
       | Some types => if js_some (type_accepted f) types then [] else ["File type not accepted"]
       | None => []
       end) ++
      (match maxSize props with
       | Some m => if (m !== 0%Z) && (m <? fi_size (info f))%Z then ["File too large"] else []
       | None => []
       end)
  end.

Definition accepted (f : file) : bool := rejections f === [].

(** The files there is still room for, and the others. *)
Definition within_max (count : nat) (files : list file) : list file * list file :=
  match maxFiles props with
  | Some ((S _) as m) => (take (m - count) files, drop (m - count) files)
  | _ => (files, [])
  end.

Definition over_message (f : file) : string :=
  default ("Maximum " +:+ pretty (default 0 (maxFiles props)) +:+ " files allowed") (validation f).

(** *** Choosing files *)
Definition refusals (filesToProcess over : list file) : list (file * string) :=
  map (λ f, (f, over_message f)) over ++ concat (map (λ f, map (pair f) (rejections f)) filesToProcess).

Definition note_refusals (filesToProcess over : list file) (r : root) : root :=
  let r := with_calls (rt_rejected r ++ refusals filesToProcess over) (rt_accepted r) (rt_uploads r) r in
  if negb (over === []) || js_some (λ f, negb (accepted f)) filesToProcess
  then with_waiting (rt_frames r) (S (rt_timers r)) (dispatch (SET_INVALID true) r) else r.

Definition accept_files (acceptedFiles : list file) (r : root) : root :=
  match acceptedFiles with
  | [] => r
  | _ =>
      let r := dispatch (ADD_FILES acceptedFiles) r in
      let r := value_change (file_keys (rt_store r)) r in
      let r := with_calls (rt_rejected r) (rt_accepted r ++ [acceptedFiles]) (rt_uploads r) r in
      if hasUpload props then with_waiting (rt_frames r ++ [FUpload acceptedFiles]) (rt_timers r) r else r
  end.

Definition onFilesChange (originalFiles : list file) (r : root) : root :=
  if disabled props then r
  else
    let '(filesToProcess, over) := within_max (length (st_files (rt_store r))) originalFiles in
    accept_files (js_filter accepted filesToProcess) (note_refusals filesToProcess over r).

(** [onFilesUpload], up to the promise of [onUpload] *)
Definition onFilesUpload (files : list file) (r : root) : root :=
  let r := foldl (λ r f, dispatch (SET_PROGRESS f (num_of_Z 0)) r) r files in
  with_calls (rt_rejected r) (rt_accepted r) (rt_uploads r ++ [files]) r.

(** The promise is rejected. *)
Definition upload_failed (files : list file) (message : string) (r : root) : root :=
  foldl (λ r f, dispatch (SET_ERROR f message) r) r files.

(** [Math.min(Math.max(0, progress), 100)] *)
Definition num_min (a b : JsValue.num) : JsValue.num :=
  match a, b with NNaN, _ | _, NNaN => NNaN | _, _ => if num_ltb b a then b else a end.

Definition clamp (p : JsValue.num) : JsValue.num := num_min (num_max (num_of_Z 0) p) (num_of_Z 100).

Definition is_progress (t : task) : bool := match t with FProgress _ _ => true | FUpload _ => false end.

(** [onProgress]: dropped while a report waits for its frame. *)
Definition onProgress (f : file) (p : JsValue.num) (r : root) : root :=
  if js_some is_progress (rt_frames r) then r
  else with_waiting (rt_frames r ++ [FProgress f (clamp p)]) (rt_timers r) r.

Definition run_task (r : root) (t : task) : root :=
  match t with FProgress f p => dispatch (SET_PROGRESS f p) r | FUpload files => onFilesUpload files r end.

Definition frame (r : root) : root := foldl run_task (with_waiting [] (rt_timers r) r) (rt_frames r).

Definition timer (r : root) : root :=
  match rt_timers r with O => r | S n => dispatch (SET_INVALID false) (with_waiting (rt_frames r) n r) end.

(** *** Items *)
Definition is_image (f : file) : bool := starts_with "image/" (fi_type (info f)).

(** [onPreviewRender] of a file that is in the store *)
Definition preview (f : file) (r : root) : root :=
  let s := rt_store r in
  match map_get f (st_files s), map_get f (st_urlCache s) with
  | Some _, None =>
      if is_image f
      then with_store (with_urls (st_urlCache s ++ [(f, st_created s)]) (st_live s ++ [st_created s]) (S (st_created s)) s) r
      else r
  | _, _ => r
  end.

Definition item_delete (f : file) (r : root) : root :=
  match map_get f (st_files (rt_store r)) with Some _ => dispatch (REMOVE_FILE f) r | None => r end.

Definition clear (r : root) : root := if disabled props then r else dispatch CLEAR r.

(** The cleanup when the component goes away: the URLs still held. *)
Definition unmount (s : store) : list nat :=
  foldl (λ live f, match map_get f (st_urlCache s) with Some u => js_filter (λ v, v !== u) live | None => live end)
    (st_live s) (file_keys s).

(** What the screen reader says of a file. *)
Definition statusText (st : file_state) : string :=
  match fs_error st with
  | Some ((String _ _) as e) => "Error: " +:+ e
  | _ => match fs_status st with
         | uploading => "Uploading: " +:+ num_to_string (fs_progress st) +:+ "% complete"
         | success => "Upload complete"
         | _ => "Ready to upload"
         end
  end.

(** ** The component as a whole *)
Inductive upload_event :=
  | EInput (files : list file)
  | EDrop (files : list file)
  | EPaste (files : list file)
  | EDrag (over : bool)
  | EProgress (f : file) (p : JsValue.num)
  | ESuccess (f : file)
  | EError (f : file) (message : string)
  | EFailed (files : list file) (message : string)
  | EFrame
  | ETimer
  | EPreview (f : file)
  | ERemove (f : file)
  | EClear
  | EValue (files : list file).         (* the parent sets its state *)

Definition upload_handler (r : root) (e : upload_event) : root :=
  match e with
  | EInput files => onFilesChange files r
  | EDrop files => onFilesChange files (dispatch (SET_DRAG_OVER false) r)
  | EPaste files =>
      let r := dispatch (SET_DRAG_OVER false) r in match files with [] => r | _ => onFilesChange files r end
  | EDrag b => dispatch (SET_DRAG_OVER b) r
  | EProgress f p => onProgress f p r
  | ESuccess f => dispatch (SET_SUCCESS f) r
  | EError f m => dispatch (SET_ERROR f m) r
  | EFailed files m => upload_failed files m r
  | EFrame => frame r
  | ETimer => timer r
  | EPreview f => preview f r
  | ERemove f => item_delete f r
  | EClear => clear r
  | EValue files => value_change files r
  end.

Definition upload_step (r : root) (e : upload_event) : root := value_effect (upload_handler r e).

Definition store0 : store :=
  {| st_files := []; st_dragOver := false; st_invalid := false; st_urlCache := []; st_live := []; st_created := 0 |}.

Definition root0 : root :=
  {| rt_store := store0; rt_value := []; rt_changed := false; rt_frames := []; rt_timers := 0; rt_rejected := [];
     rt_accepted := []; rt_uploads := [] |}.

(** ** What holds whatever happens *)

Definition state_ok (st : file_state) : Prop :=
  num_leb (num_of_Z 0) (fs_progress st) = true ∧ num_leb (fs_progress st) (num_of_Z 100) = true ∧
  match fs_status st with
  | idle => fs_progress st = num_of_Z 0 ∧ fs_error st = None
  | success => fs_progress st = num_of_Z 100
  | error => is_Some (fs_error st)
  | uploading => True
  end.

(** The URLs alive are those of the cache, each of one file. *)
Record store_ok (s : store) : Prop := {
  so_keys : NoDup (file_keys s);
  so_states : Forall (λ ga, state_ok ga.2) (st_files s);
  so_cache : NoDup (st_urlCache s).*1;
  so_urls : NoDup (st_urlCache s).*2;
  so_live : st_live s ≡ₚ (st_urlCache s).*2;
  so_created : Forall (λ u, u < st_created s) (st_urlCache s).*2
}.

Definition max_ok (l : list file) : Prop :=
  match maxFiles props with Some ((S _) as m) => length l ≤ m | _ => True end.

Definition frame_ok (t : task) : Prop :=
  match t with
  | FProgress _ p => num_leb (num_of_Z 0) p = true ∧ num_leb p (num_of_Z 100) = true
  | FUpload _ => True
  end.

Definition list_ok (l : list file) : Prop := NoDup l ∧ Forall (λ f, accepted f = true) l ∧ max_ok l.

(** The list of a parent that controls the component is the list of the store,
    once the effect has run. *)
Record root_ok (r : root) : Prop := {
  ro_store : store_ok (rt_store r);
  ro_list : list_ok (file_keys (rt_store r));
  ro_frames : Forall frame_ok (rt_frames r);
  ro_cached : isControlled props = false → ∀ f, f ∈ (st_urlCache (rt_store r)).*1 → f ∈ file_keys (rt_store r);
  ro_value : isControlled props = true →
    list_ok (rt_value r) ∧ (rt_changed r = false → rt_value r ≡ₚ file_keys (rt_store r))
}.

Definition event_ok (e : upload_event) : Prop :=
  match e with
  | EProgress _ p => p ≠ NNaN
  | EValue files => list_ok files
  | _ => True
  end.

Lemma clamp_bounds p : p ≠ NNaN → num_leb (num_of_Z 0) (clamp p) = true ∧ num_leb (clamp p) (num_of_Z 100) = true.
Proof.
  destruct p as [q| | |]; intros Hp; [|done|by vm_compute..]. clear Hp. unfold clamp, num_max. simpl.
  assert (Qc_of_Z 0 <= Qc_of_Z 100)%Qc as H0100 by (by vm_compute).
  destruct (bool_decide_reflect (Qc_of_Z 0 < q)%Qc) as [H1|H1]; simpl;
  destruct (bool_decide_reflect (Qc_of_Z 100 < q)%Qc) as [H2|H2]; simpl;
    try done. split; apply bool_decide_eq_true; [by apply Qclt_le_weak|by apply Qcnot_lt_le].
Qed.

Lemma with_files_ok m s : store_ok s → NoDup m.*1 → Forall (λ ga, state_ok ga.2) m → store_ok (with_files m s).
Proof. intros [] ??. by split. Qed.

Lemma fresh_state_ok : state_ok fresh_state.
Proof. by vm_compute. Qed.

Lemma add_keys files m : (foldl (λ m (f : file), map_set f fresh_state m) m files).*1 = push_all m.*1 files.
Proof.
  revert m. unfold push_all. induction files as [|f files IH]; intros m; [done|]. simpl. by rewrite IH, map_set_keys.
Qed.

Lemma add_states files m : Forall (λ ga, state_ok ga.2) m →
  Forall (λ ga, state_ok ga.2) (foldl (λ m (f : file), map_set f fresh_state m) m files).
Proof.
  revert m. induction files as [|f files IH]; intros m Hm; [done|]. simpl. apply IH.
  apply Forall_map_set; [done|apply fresh_state_ok].
Qed.

Definition keep_or_add (m : list (file * file_state)) (f : file) : list (file * file_state) :=
  match map_get f m with Some _ => m | None => map_set f fresh_state m end.

Lemma keep_or_add_keys m f : (keep_or_add m f).*1 = push_new m.*1 f.
Proof.
  unfold keep_or_add. destruct (map_get f m) eqn:E; [|apply map_set_keys].
  rewrite push_new_eq, decide_True; [done|]. apply map_get_is_Some. by rewrite E.
Qed.

Lemma set_keys files m : (foldl keep_or_add m files).*1 = push_all m.*1 files.
Proof.
  revert m. unfold push_all. induction files as [|f files IH]; intros m; [done|]. simpl. by rewrite IH, keep_or_add_keys.
Qed.

Lemma set_states files m : Forall (λ ga, state_ok ga.2) m → Forall (λ ga, state_ok ga.2) (foldl keep_or_add m files).
Proof.
  revert m. induction files as [|f files IH]; intros m Hm; [done|]. simpl. apply IH. unfold keep_or_add.
  destruct (map_get f m); [done|]. apply Forall_map_set; [done|apply fresh_state_ok].
Qed.

Lemma update_file_keys f g s : file_keys (update_file f g s) = file_keys s.
Proof.
  unfold update_file. destruct (map_get f (st_files s)) eqn:E; [|done]. unfold file_keys. simpl.
  rewrite map_set_keys, push_new_eq, decide_True; [done|]. apply map_get_is_Some. by rewrite E.
Qed.

Lemma update_file_ok f g s : store_ok s → (∀ st, state_ok st → state_ok (g st)) → store_ok (update_file f g s).
Proof.
  intros Hs Hg. pose proof (update_file_keys f g s) as Hk. unfold file_keys, update_file in *.
  destruct (map_get f (st_files s)) as [st|] eqn:E; [|done]. simpl in Hk. apply with_files_ok; [done| |].
  - rewrite Hk. apply Hs.
  - apply Forall_map_set; [apply Hs|]. apply Hg. apply map_get_in in E.
    exact (proj1 (Forall_forall _ _) (so_states _ Hs) _ E).
Qed.

Lemma snd_inj_cache (c : list (file * nat)) f g u : NoDup c.*2 → (f, u) ∈ c → (g, u) ∈ c → f = g.
Proof.
  induction c as [|[h v] c IH]; intros Hnd Hf Hg; [by apply elem_of_nil in Hf|].
  csimpl in Hnd. apply NoDup_cons in Hnd as [Hv Hnd].
  apply elem_of_cons in Hf as [[= -> ->]|Hf]; apply elem_of_cons in Hg as [Hg|Hg].
  - by injection Hg.
  - destruct Hv. apply list_elem_of_fmap. by exists (g, v).
  - injection Hg as -> ->. destruct Hv. apply list_elem_of_fmap. by exists (f, v).
  - by apply IH.
Qed.

Lemma map_delete_values (c : list (file * nat)) f u : NoDup c.*1 → NoDup c.*2 → map_get f c = Some u →
  (map_delete f c).*2 = js_filter (λ v, v !== u) c.*2.
Proof.
  intros H1 H2 Hf%map_get_in. unfold map_delete.
  assert (∀ ga, ga ∈ c → (ga.1 !== f) = (ga.2 !== u)) as Hext.
  { intros [g v] Hg. simpl. f_equal. apply bool_decide_ext. split; intros ->.
    - apply (map_get_NoDup _ _ _ H1) in Hf, Hg. by rewrite Hf in Hg; injection Hg.
    - by apply (snd_inj_cache c g f u). }
  clear H1 H2 Hf. revert Hext. induction c as [|[g v] c IH]; intros Hext; [done|]. csimpl. rewrite !js_filter_cons.
  pose proof (Hext (g, v) ltac:(by left)) as Hgv. simpl in Hgv. simpl. rewrite Hgv.
  assert ((js_filter (λ ga, ga.1 !== f) c).*2 = js_filter (λ w, w !== u) c.*2) as IH'.
  { apply IH. intros ga Hga. apply Hext. by right. }
  destruct (v !== u); csimpl; by rewrite IH'.
Qed.

Lemma revoke_files s f : st_files (revoke s f) = st_files s.
Proof. unfold revoke. by destruct (map_get f (st_urlCache s)). Qed.

Lemma revoke_cache s f : (st_urlCache (revoke s f)).*1 = js_filter (λ g, g !== f) (st_urlCache s).*1.
Proof.
  unfold revoke. destruct (map_get f (st_urlCache s)) as [u|] eqn:E; simpl; [apply map_delete_keys|].
  apply map_get_None in E. symmetry. apply js_filter_all. intros g Hg. apply negb_true_iff, bool_decide_eq_false. by intros ->.
Qed.

Lemma revoke_ok s f : store_ok s → store_ok (revoke s f).
Proof.
  intros [H1 H2 H3 H4 H5 H6]. unfold revoke. destruct (map_get f (st_urlCache s)) as [u|] eqn:E; [|by split].
  pose proof (map_delete_values _ _ _ H3 H4 E) as Hv. split; simpl; try done.
  - rewrite map_delete_keys. by apply NoDup_js_filter.
  - rewrite Hv. by apply NoDup_js_filter.
  - rewrite Hv. unfold js_filter. by rewrite H5.
  - rewrite Hv. apply Forall_forall. intros v [_ Hin]%elem_of_js_filter. by apply (proj1 (Forall_forall _ _) H6).
Qed.

Lemma revoke_all files s : store_ok s →
  let s' := foldl revoke s files in
  store_ok s' ∧ st_files s' = st_files s ∧ (st_urlCache s').*1 = js_filter (λ g, negb (js_includes files g)) (st_urlCache s).*1.
Proof.
  revert s. induction files as [|f files IH]; intros s Hs; simpl.
  - split; [done|]. split; [done|]. symmetry. by apply js_filter_all.
  - destruct (IH (revoke s f) (revoke_ok s f Hs)) as (H1 & H2 & H3). split; [done|]. split; [by rewrite H2, revoke_files|].
    rewrite H3, revoke_cache, js_filter_filter. apply js_filter_ext. intros g _. unfold js_includes.
    repeat case_bool_decide; simpl; set_solver.
Qed.

Definition action_ok (a : action) : Prop :=
  match a with
  | SET_PROGRESS _ p => num_leb (num_of_Z 0) p = true ∧ num_leb p (num_of_Z 100) = true
  | _ => True
  end.

(** The keys and the cached files an action leaves. *)
Definition action_keys (a : action) (ks : list file) : list file :=
  match a with
  | ADD_FILES files => push_all ks files
  | SET_FILES files => push_all (js_filter (js_includes files) ks) files
  | REMOVE_FILE f => js_filter (λ g, g !== f) ks
  | CLEAR => []
  | _ => ks
  end.

Definition action_cache (a : action) (ks cs : list file) : list file :=
  match a with
  | REMOVE_FILE f => js_filter (λ g, g !== f) cs
  | CLEAR => js_filter (λ g, negb (js_includes ks g)) cs
  | _ => cs
  end.

Lemma kept_keys (files : list file) (m : list (file * file_state)) :
  (js_filter (λ ga, js_includes files ga.1) m).*1 = js_filter (js_includes files) m.*1.
Proof.
  induction m as [|[g b] m IH]; csimpl; [done|]. rewrite !js_filter_cons. simpl.
  destruct (js_includes files g); csimpl; by rewrite IH.
Qed.

Lemma reducer_ok s a : store_ok s → action_ok a →
  let s' := (reducer s a).1 in
  store_ok s' ∧ file_keys s' = action_keys a (file_keys s) ∧
  (st_urlCache s').*1 = action_cache a (file_keys s) (st_urlCache s).*1.
Proof.
  intros Hs Ha. pose proof Hs as [H1 H2 H3 H4 H5 H6]. destruct a as [files|files|f p|f|f m|f|b|b|]; simpl in Ha |- *.
  - unfold file_keys. simpl. rewrite add_keys. split; [|done].
    apply with_files_ok; [done| |by apply add_states]. rewrite add_keys. by apply NoDup_push_all.
  - unfold file_keys. simpl. change (foldl _ ?m files) with (foldl keep_or_add m files). rewrite set_keys, kept_keys.
    split; [|done]. apply with_files_ok; [done| |].
    + rewrite set_keys, kept_keys. by apply NoDup_push_all, NoDup_js_filter.
    + apply set_states, Forall_forall. intros ga [_ Hin]%elem_of_js_filter. by apply (proj1 (Forall_forall _ _) H2).
  - rewrite update_file_keys. split; [|by split; [|unfold update_file; destruct (map_get _ _)]].
    apply update_file_ok; [done|]. intros st Hst. by split; [|split]; apply Ha || done.
  - rewrite update_file_keys. split; [|by split; [|unfold update_file; destruct (map_get _ _)]].
    apply update_file_ok; [done|]. intros st Hst. by vm_compute.
  - rewrite update_file_keys. split; [|by split; [|unfold update_file; destruct (map_get _ _)]].
    apply update_file_ok; [done|]. intros st (Ha1 & Ha2 & _). by split; [|split]; [..|eexists].
  - unfold file_keys. simpl. rewrite revoke_files, map_delete_keys. split; [|split; [done|apply revoke_cache]].
    apply with_files_ok; [by apply revoke_ok| |].
    + rewrite map_delete_keys. by apply NoDup_js_filter.
    + apply Forall_forall. intros ga [Hin _]%elem_of_map_delete. by apply (proj1 (Forall_forall _ _) H2).
  - by split; [split|].
  - by split; [split|].
  - destruct (revoke_all (file_keys s) s Hs) as ([] & _ & Hc). split; [split; simpl; try done; constructor|]. done.
Qed.

Lemma dispatch_store a r : rt_store (dispatch a r) = (reducer (rt_store r) a).1.
Proof.
  unfold dispatch. destruct (reducer (rt_store r) a) as [s [l|]]; [|done]. unfold value_change. by destruct (isControlled props).
Qed.

Lemma dispatch_frames a r : rt_frames (dispatch a r) = rt_frames r.
Proof.
  unfold dispatch. destruct (reducer (rt_store r) a) as [s [l|]]; [|done]. unfold value_change. by destruct (isControlled props).
Qed.

(** What an action needs: the list it leaves is acceptable, the files with a
    preview are still there, and it tells the parent if the list changes. *)
Lemma dispatch_ok a r : root_ok r → action_ok a →
  list_ok (action_keys a (file_keys (rt_store r))) →
  (isControlled props = false → ∀ f, f ∈ action_cache a (file_keys (rt_store r)) (st_urlCache (rt_store r)).*1 →
     f ∈ action_keys a (file_keys (rt_store r))) →
  ((reducer (rt_store r) a).2 = None → action_keys a (file_keys (rt_store r)) ≡ₚ file_keys (rt_store r) ∨
     (isControlled props = true → action_keys a (file_keys (rt_store r)) ≡ₚ rt_value r)) →
  ((reducer (rt_store r) a).2 = None ∨ (reducer (rt_store r) a).2 = Some (action_keys a (file_keys (rt_store r)))) →
  root_ok (dispatch a r).
Proof.
  intros [H1 H2 H3 H4 H5] Ha Hl Hc Hn Hcall. destruct (reducer_ok (rt_store r) a H1 Ha) as (G1 & G2 & G3).
  split; rewrite ?dispatch_store, ?dispatch_frames, ?G2, ?G3; try done. intros Hctl. specialize (H5 Hctl) as [H5 H6].
  unfold dispatch. destruct (reducer (rt_store r) a) as [s call] eqn:Er. simpl in *. destruct call as [l|]; simpl.
  - destruct Hcall as [|[= ->]]; [done|]. unfold value_change. rewrite Hctl. simpl. done.
  - split; [done|]. intros Hch. destruct (Hn eq_refl) as [->|Hv]; [by apply H6|by rewrite (Hv Hctl)].
Qed.

(** The actions that keep the list. *)
Definition keeps_keys (a : action) : bool :=
  match a with SET_PROGRESS _ _ | SET_SUCCESS _ | SET_ERROR _ _ | SET_DRAG_OVER _ | SET_INVALID _ => true | _ => false end.

Lemma dispatch_same a r : keeps_keys a = true → action_ok a → root_ok r → root_ok (dispatch a r).
Proof.
  intros Hk Ha Hr. apply dispatch_ok; destruct a; try done; simpl; try apply Hr; auto.
Qed.

Lemma keep_all (a : file → action) files r : (∀ f, keeps_keys (a f) = true ∧ action_ok (a f)) → root_ok r →
  root_ok (foldl (λ r f, dispatch (a f) r) r files).
Proof.
  intros Ha. revert r. induction files as [|f files IH]; intros r Hr; [done|]. apply IH. by apply dispatch_same; try apply Ha.
Qed.

Lemma list_ok_sub (p : file → bool) l : list_ok l → list_ok (js_filter p l).
Proof.
  intros (H1 & H2 & H3). split; [by apply NoDup_js_filter|]. split.
  - apply Forall_forall. intros f [_ Hf]%elem_of_js_filter. by apply (proj1 (Forall_forall _ _) H2).
  - unfold max_ok in *. destruct (maxFiles props) as [[|m]|]; [done| |done]. pose proof (js_filter_length p l). lia.
Qed.

Lemma length_push_all (l xs : list file) : length (push_all l xs) ≤ length l + length xs.
Proof.
  revert l. unfold push_all. induction xs as [|x xs IH]; intros l; simpl; [lia|]. specialize (IH (push_new l x)).
  rewrite push_new_eq in IH at 2. case_decide; [lia|]. rewrite length_app in IH. simpl in IH. lia.
Qed.

Lemma list_ok_add l xs : list_ok l → Forall (λ f, accepted f = true) xs →
  (∀ m, maxFiles props = Some (S m) → length xs ≤ S m - length l) → list_ok (push_all l xs).
Proof.
  intros (H1 & H2 & H3) Hxs Hm. split; [by apply NoDup_push_all|]. split.
  - apply Forall_forall. intros f [Hf|Hf]%elem_of_push_all; [by apply (proj1 (Forall_forall _ _) H2)|].
    by apply (proj1 (Forall_forall _ _) Hxs).
  - unfold max_ok in *. destruct (maxFiles props) as [[|m]|]; [done| |done]. specialize (Hm m eq_refl).
    pose proof (length_push_all l xs). lia.
Qed.

Lemma dispatch_remove f r : root_ok r → root_ok (dispatch (REMOVE_FILE f) r).
Proof.
  intros Hr. apply dispatch_ok; simpl; try done.
  - apply list_ok_sub, Hr.
  - intros Hc g [Hg Hin]%elem_of_js_filter. apply elem_of_js_filter. split; [done|]. by apply Hr.
  - right. f_equal. unfold file_keys. simpl. by rewrite map_delete_keys, revoke_files.
Qed.

Lemma dispatch_clear r : root_ok r → root_ok (dispatch CLEAR r).
Proof.
  intros Hr. apply dispatch_ok; simpl; try done.
  - split; [constructor|]. split; [constructor|]. unfold max_ok. destruct (maxFiles props) as [[|m]|]; simpl; done || lia.
  - intros Hc g [Hg Hin]%elem_of_js_filter. apply (ro_cached _ Hr Hc) in Hin. apply negb_true_iff, bool_decide_eq_false in Hg.
    by destruct Hg.
  - by right.
Qed.

Lemma dispatch_add files r : root_ok r → list_ok (push_all (file_keys (rt_store r)) files) →
  root_ok (dispatch (ADD_FILES files) r).
Proof.
  intros Hr Hl. apply dispatch_ok; simpl; try done.
  - intros Hc g Hin. apply elem_of_push_all. left. by apply Hr.
  - right. f_equal. unfold file_keys. simpl. apply add_keys.
Qed.

Lemma value_change_ok l r : root_ok r → list_ok l → root_ok (value_change l r).
Proof.
  intros [H1 H2 H3 H4 H5] Hl. unfold value_change. destruct (isControlled props) eqn:E; split; simpl; rewrite ?E; try done.
Qed.

Lemma set_value_keys (l ks : list file) : NoDup l → NoDup ks → push_all (js_filter (js_includes l) ks) l ≡ₚ l.
Proof.
  intros Hl Hks. apply NoDup_Permutation; [by apply NoDup_push_all, NoDup_js_filter|done|]. intros f.
  rewrite elem_of_push_all, elem_of_js_filter, js_includes_true. tauto.
Qed.

Lemma value_effect_ok r : root_ok r → root_ok (value_effect r) ∧
  (isControlled props = true → rt_changed (value_effect r) = false).
Proof.
  intros Hr. unfold value_effect. destruct (isControlled props) eqn:E; [|done]. destruct (rt_changed r) eqn:Ec; [|done].
  split; [|done]. destruct (ro_value _ Hr E) as [(V1 & V2 & V3) _]. destruct Hr as [H1 H2 H3 H4 H5]. simpl.
  pose proof (set_value_keys (rt_value r) _ V1 (so_keys _ H1)) as Hp.
  assert (list_ok (push_all (js_filter (js_includes (rt_value r)) (file_keys (rt_store r))) (rt_value r))) as Hl.
  { split; [by rewrite Hp|]. split; [by rewrite Hp|]. unfold max_ok in *. by rewrite (Permutation_length Hp). }
  destruct (reducer_ok (rt_store r) (SET_FILES (rt_value r)) H1 I) as (G1 & G2 & G3).
  split; rewrite ?dispatch_store, ?dispatch_frames; simpl rt_store; rewrite ?G2; simpl; try done. by rewrite E.
Qed.

Lemma with_waiting_ok fr t r : root_ok r → Forall frame_ok fr → root_ok (with_waiting fr t r).
Proof. intros [] ?. by split. Qed.

Lemma with_calls_ok rej acc up r : root_ok r → root_ok (with_calls rej acc up r).
Proof. intros []. by split. Qed.

Lemma within_max_length count files m : maxFiles props = Some (S m) → length (within_max count files).1 ≤ S m - count.
Proof. intros Hm. unfold within_max. rewrite Hm. simpl fst. rewrite length_take. lia. Qed.

Lemma note_refusals_ok processed over r : root_ok r → root_ok (note_refusals processed over r).
Proof.
  intros Hr. unfold note_refusals. destruct (_ || _); [|by apply with_calls_ok].
  apply with_waiting_ok; [|apply Hr]. apply dispatch_same; [done..|]. by apply with_calls_ok.
Qed.

Lemma note_refusals_files processed over r : st_files (rt_store (note_refusals processed over r)) = st_files (rt_store r).
Proof. unfold note_refusals. by destruct (_ || _). Qed.

Lemma accept_files_ok files r : root_ok r → list_ok (push_all (file_keys (rt_store r)) files) → root_ok (accept_files files r).
Proof.
  intros Hr Hl. destruct files as [|f fs]; [done|]. pose proof (dispatch_add _ _ Hr Hl) as Hd. unfold accept_files.
  assert (root_ok (value_change (file_keys (rt_store (dispatch (ADD_FILES (f :: fs)) r))) (dispatch (ADD_FILES (f :: fs)) r)))
    as Hv by (apply value_change_ok; [done|apply Hd]).
  destruct (hasUpload props); [|by apply with_calls_ok]. apply with_waiting_ok; [by apply with_calls_ok|].
  apply Forall_app. split; [apply (ro_frames _ Hv)|by repeat constructor].
Qed.

Lemma onFilesChange_ok files r : root_ok r → root_ok (onFilesChange files r).
Proof.
  intros Hr. unfold onFilesChange. destruct (disabled props); [done|].
  destruct (within_max _ files) as [processed over] eqn:Ew. apply accept_files_ok; [by apply note_refusals_ok|].
  unfold file_keys. rewrite note_refusals_files. apply list_ok_add; [apply Hr| |].
  - apply Forall_forall. by intros g [Hg _]%elem_of_js_filter.
  - intros m Hm. pose proof (within_max_length (length (st_files (rt_store r))) files m Hm) as Hw. rewrite Ew in Hw.
    simpl in Hw. pose proof (js_filter_length accepted processed). rewrite length_fmap. lia.
Qed.

Lemma run_task_ok t r : frame_ok t → root_ok r → root_ok (run_task r t).
Proof.
  intros Ht Hr. destruct t as [f p|files]; simpl; [by apply dispatch_same|]. apply with_calls_ok.
  by apply (keep_all (λ f, SET_PROGRESS f (num_of_Z 0))).
Qed.

Lemma frame_step_ok r : root_ok r → root_ok (frame r).
Proof.
  intros Hr. unfold frame. pose proof (ro_frames _ Hr) as Hf.
  assert (root_ok (with_waiting [] (rt_timers r) r)) as Hr0 by (by apply with_waiting_ok).
  revert Hr0. generalize (with_waiting [] (rt_timers r) r). induction Hf as [|t ts Ht _ IH]; intros r' Hr'; [done|].
  apply IH. by apply run_task_ok.
Qed.

Lemma preview_ok f r : root_ok r → root_ok (preview f r).
Proof.
  intros Hr. unfold preview. destruct (map_get f (st_files (rt_store r))) eqn:Ef; [|done].
  destruct (map_get f (st_urlCache (rt_store r))) eqn:Eu; [done|]. destruct (is_image f); [|done].
  destruct Hr as [[G1 G2 G3 G4 G5 G6] H2 H3 H4 H5]. split; simpl; try done.
  - split; simpl; try done; rewrite ?fmap_app; simpl.
    + apply NoDup_app. split; [done|]. split; [|apply NoDup_singleton]. intros g Hg ->%list_elem_of_singleton.
      by apply map_get_None in Eu.
    + apply NoDup_app. split; [done|]. split; [|apply NoDup_singleton]. intros u Hu ->%list_elem_of_singleton.
      pose proof (proj1 (Forall_forall _ _) G6 _ Hu). simpl in *. lia.
    + by rewrite G5.
    + apply Forall_app. split; [|repeat constructor; lia]. eapply Forall_impl; [exact G6|]. simpl. lia.
  - intros Hc g. rewrite fmap_app. intros [Hg|Hg]%elem_of_app; [by apply H4|]. apply list_elem_of_singleton in Hg as ->.
    exact (proj1 (map_get_is_Some _ _) (mk_is_Some _ _ Ef)).
Qed.

Lemma upload_handler_ok r e : event_ok e → root_ok r → root_ok (upload_handler r e).
Proof.
  intros He Hr. destruct e; simpl in He |- *.
  - by apply onFilesChange_ok.
  - by apply onFilesChange_ok, dispatch_same.
  - destruct files; [|apply onFilesChange_ok]; by apply dispatch_same.
  - by apply dispatch_same.
  - unfold onProgress. destruct (js_some _ _); [done|]. apply with_waiting_ok; [done|]. apply Forall_app.
    split; [apply Hr|]. repeat constructor; by apply clamp_bounds.
  - by apply dispatch_same.
  - by apply dispatch_same.
  - by apply (keep_all (λ f, SET_ERROR f message)).
  - by apply frame_step_ok.
  - unfold timer. destruct (rt_timers r); [done|]. apply dispatch_same; [done..|]. apply with_waiting_ok; [done|]. apply Hr.
  - by apply preview_ok.
  - unfold item_delete. destruct (map_get _ _); [by apply dispatch_remove|done].
  - unfold clear. destruct (disabled props); [done|by apply dispatch_clear].
  - by apply value_change_ok.
Qed.

Lemma root0_ok : root_ok root0.
Proof.
  assert (list_ok []) as Hl.
  { split; [constructor|]. split; [constructor|]. unfold max_ok. destruct (maxFiles props) as [[|m]|]; simpl; done || lia. }
  split; simpl; try done. split; simpl; try done; constructor.
Qed.

(** The URLs that are left when the component goes away are those of the
    files that are not in the list. *)
Lemma unmount_left s u : store_ok s →
  u ∈ unmount s ↔ ∃ f, (f, u) ∈ st_urlCache s ∧ f ∉ file_keys s.
Proof.
  intros [H1 H2 H3 H4 H5 H6]. unfold unmount.
  assert (∀ ks live, u ∈ foldl (λ live f, match map_get f (st_urlCache s) with
      Some u => js_filter (λ v, v !== u) live | None => live end) live ks ↔
    u ∈ live ∧ ∀ f, f ∈ ks → (f, u) ∉ st_urlCache s) as Hfold.
  { induction ks as [|f ks IH]; intros live; simpl; [set_solver|]. rewrite IH.
    destruct (map_get f (st_urlCache s)) as [v|] eqn:E.
    - rewrite elem_of_js_filter, negb_true_iff, bool_decide_eq_false. pose proof (map_get_in _ _ _ E) as Hin. split.
      + intros [[Hne Hu] Hks]. split; [done|]. intros g [->|Hg]%elem_of_cons; [|by apply Hks]. intros Hfu.
        apply (map_get_NoDup _ _ _ H3) in Hfu. congruence.
      + intros [Hu Hks]. split; [|intros g Hg; apply Hks; by right]. split; [|done]. intros ->.
        apply (Hks f); [by left|done].
    - split.
      + intros [Hu Hks]. split; [done|]. intros g [->|Hg]%elem_of_cons; [|by apply Hks]. intros Hfu.
        apply (map_get_NoDup _ _ _ H3) in Hfu. congruence.
      + intros [Hu Hks]. split; [done|]. intros g Hg. apply Hks. by right. }
  rewrite Hfold, H5. split.
  - intros [Hu Hks]. apply list_elem_of_fmap in Hu as ([f v] & -> & Hin). exists f. split; [done|]. intros Hf. by apply (Hks f).
  - intros (f & Hin & Hf). split; [apply list_elem_of_fmap; by exists (f, u)|]. intros g Hg Hgu.
    by rewrite (snd_inj_cache _ _ _ _ H4 Hin Hgu) in Hf.
Qed.

(** The upload component, in whatever order files are chosen, dropped and
    removed, reports and frames arrive, and the parent sets its list: no file
    is listed twice, every listed file passed the checks, there are never more
    than [maxFiles]; every progress is between 0 and 100, a file with status
    success is at 100 and one with status error has its message; a parent that
    controls the component has the same files; the object URLs alive are those
    the cache holds, each for one file, and a component without such a parent
    leaves none behind when it goes away. *)
Theorem upload_reachable es : Forall event_ok es →
  let r := foldl upload_step root0 es in let s := rt_store r in
  list_ok (file_keys s) ∧ Forall (λ ga, state_ok ga.2) (st_files s) ∧
  (isControlled props = true → rt_value r ≡ₚ file_keys s) ∧
  st_live s ≡ₚ (st_urlCache s).*2 ∧ NoDup (st_urlCache s).*1 ∧ NoDup (st_urlCache s).*2 ∧
  (isControlled props = false → unmount s = []).
Proof.
  intros Hes r s.
  assert (root_ok r ∧ (isControlled props = true → rt_changed r = false)) as [Hr Hch].
  { unfold r. assert (∀ q, root_ok q ∧ (isControlled props = true → rt_changed q = false) →
      let q' := foldl upload_step q es in root_ok q' ∧ (isControlled props = true → rt_changed q' = false)) as H.
    { clear r s. induction Hes as [|e es He _ IH]; intros q Hq; [done|]. apply IH. apply value_effect_ok.
      apply upload_handler_ok; [done|apply Hq]. }
    apply H. split; [apply root0_ok|done]. }
  destruct Hr as [Hs Hl _ Hc Hv]. split; [done|]. split; [apply Hs|].
  split; [intros Hctl; by apply Hv, Hch|]. split; [apply Hs|]. split; [apply Hs|]. split; [apply Hs|].
  intros Hctl. destruct (unmount s) as [|u us] eqn:E; [done|].
  destruct (proj1 (unmount_left s u Hs)) as (f & Hin & Hf); [rewrite E; by left|]. destruct Hf. apply Hc; [done|].
  apply list_elem_of_fmap. by exists (f, u).
Qed.

Lemma map_get_add f files m :
  map_get f (foldl (λ m (f : file), map_set f fresh_state m) m files) =
  if decide (f ∈ files) then Some fresh_state else map_get f m.
Proof.
  revert m. induction files as [|g files IH]; intros m; simpl; [done|]. rewrite IH, map_get_set.
  repeat case_decide; set_solver.
Qed.

(** Refused are the files over the maximum and those that fail a check. *)
Lemma refusals_exact processed over f :
  (∃ m, (f, m) ∈ refusals processed over) ↔ f ∈ over ∨ (f ∈ processed ∧ accepted f = false).
Proof.
  unfold refusals. setoid_rewrite elem_of_app. split.
  - intros (m & [Hin|Hin]).
    + apply list_elem_of_In, in_map_iff in Hin as (g & [= -> _] & Hg). left. by apply list_elem_of_In.
    + right. apply list_elem_of_In, in_concat in Hin as (l & Hl & Hin). apply in_map_iff in Hl as (g & <- & Hg).
      apply in_map_iff in Hin as (n & [= -> ->] & Hn). split; [by apply list_elem_of_In|].
      apply bool_decide_eq_false. intros E. by rewrite E in Hn.
  - intros [Hf|[Hf Ha]].
    + exists (over_message f). left. apply list_elem_of_In, in_map_iff. exists f. split; [done|]. by apply list_elem_of_In.
    + apply bool_decide_eq_false in Ha. destruct (rejections f) as [|m ms] eqn:E; [done|]. exists m. right.
      apply list_elem_of_In, in_concat. exists (map (pair f) (rejections f)). split.
      * apply in_map_iff. exists f. split; [done|]. by apply list_elem_of_In.
      * rewrite E. by left.
Qed.

Lemma refusals_some processed over :
  negb (over === []) || js_some (λ f, negb (accepted f)) processed = negb (refusals processed over === []).
Proof.
  apply eq_true_iff_eq. rewrite orb_true_iff, !negb_true_iff, !bool_decide_eq_false, js_some_true. split.
  - intros H E. assert (∃ f, f ∈ over ∨ (f ∈ processed ∧ accepted f = false)) as [f Hf].
    { destruct H as [H|(f & Hf & Ha)]; [|exists f; right; by apply negb_true_iff in Ha].
      destruct over as [|f over']; [done|]. exists f. left. by left. }
    apply refusals_exact in Hf as [m Hm]. rewrite E in Hm. by apply elem_of_nil in Hm.
  - intros H. destruct (refusals processed over) as [|[f m] cs] eqn:E; [done|].
    destruct (proj1 (refusals_exact processed over f)) as [Hf|[Hf Ha]].
    + exists m. rewrite E. by left.
    + left. intros ->. by apply elem_of_nil in Hf.
    + right. exists f. by rewrite Ha.
Qed.

Lemma note_refusals_spec processed over r :
  let calls := refusals processed over in let r' := note_refusals processed over r in
  rt_rejected r' = rt_rejected r ++ calls ∧ rt_frames r' = rt_frames r ∧
  st_invalid (rt_store r') = st_invalid (rt_store r) || negb (calls === []).
Proof.
  unfold note_refusals. rewrite refusals_some. destruct (refusals processed over === []); simpl;
    rewrite ?orb_false_r, ?orb_true_r; done.
Qed.

Lemma accept_files_spec new r :
  let r' := accept_files new r in
  st_files (rt_store r') = foldl (λ m (f : file), map_set f fresh_state m) (st_files (rt_store r)) new ∧
  rt_rejected r' = rt_rejected r ∧ st_invalid (rt_store r') = st_invalid (rt_store r) ∧
  rt_frames r' = rt_frames r ++ (if hasUpload props && negb (new === []) then [FUpload new] else []).
Proof.
  unfold accept_files, dispatch, value_change. destruct new as [|f fs].
  - by rewrite andb_false_r, app_nil_r.
  - simpl. rewrite andb_true_r. by destruct (isControlled props), (hasUpload props); simpl; rewrite ?app_nil_r.
Qed.

(** Choosing files: those that fit below [maxFiles] and pass the checks
    are added behind the others as fresh, each once; the state of every other
    file stays; exactly the others among the files chosen are refused, with a
    message; the component shows that something was refused; and an upload of
    exactly the accepted files is started with the next frame. *)
Theorem files_chosen_exact files r : disabled props = false →
  let r' := onFilesChange files r in
  let fit := within_max (length (st_files (rt_store r))) files in
  let new := js_filter accepted fit.1 in
  fit.1 ++ fit.2 = files ∧
  file_keys (rt_store r') = push_all (file_keys (rt_store r)) new ∧
  (∀ f, map_get f (st_files (rt_store r')) =
     if decide (f ∈ new) then Some fresh_state else map_get f (st_files (rt_store r))) ∧
  (∃ calls, rt_rejected r' = rt_rejected r ++ calls ∧
     (∀ f, (∃ m, (f, m) ∈ calls) ↔ f ∈ fit.2 ∨ (f ∈ fit.1 ∧ accepted f = false)) ∧
     st_invalid (rt_store r') = st_invalid (rt_store r) || negb (calls === [])) ∧
  rt_frames r' = rt_frames r ++ (if hasUpload props && negb (new === []) then [FUpload new] else []).
Proof.
  intros Hd r' fit new. unfold r', onFilesChange. rewrite Hd. fold fit. destruct fit as [processed over] eqn:Ew.
  simpl in new. fold new. simpl fst. simpl snd. split.
  { unfold fit, within_max in Ew. destruct (maxFiles props) as [[|m]|]; injection Ew as <- <-;
      rewrite ?take_drop, ?app_nil_r; done. }
  destruct (note_refusals_spec processed over r) as (N2 & N3 & N4).
  destruct (accept_files_spec new (note_refusals processed over r)) as (A1 & A2 & A3 & A4).
  rewrite note_refusals_files in A1. split; [unfold file_keys; rewrite A1; apply add_keys|].
  split; [intros f; by rewrite A1, map_get_add|]. rewrite A2, A3, A4, N2, N3, N4. split; [|done].
  exists (refusals processed over). split; [done|]. split; [|done]. intros f. apply refusals_exact.
Qed.


(** *** A finished upload *)

(** The actions that leave the state of a file of the list alone. *)
Definition leaves (f : file) (a : action) : bool :=
  match a with
  | ADD_FILES files => negb (js_includes files f)
  | SET_FILES files => js_includes files f
  | SET_PROGRESS g _ | SET_ERROR g _ | REMOVE_FILE g => f !== g
  | CLEAR => false
  | _ => true
  end.

Definition finished (f : file) (r : root) : Prop :=
  ∃ st, map_get f (st_files (rt_store r)) = Some st ∧ fs_status st = success ∧ fs_progress st = num_of_Z 100.

Lemma map_get_keep f files m st : map_get f m = Some st → map_get f (foldl keep_or_add m files) = Some st.
Proof.
  revert m. induction files as [|g files IH]; intros m Hm; [done|]. simpl. apply IH. unfold keep_or_add.
  destruct (map_get g m) eqn:Eg; [done|]. rewrite map_get_set. case_decide; [congruence|done].
Qed.

Lemma dispatch_finished f a r : leaves f a = true → finished f r → finished f (dispatch a r).
Proof.
  intros Ha (st & Hf & H1 & H2). unfold finished. rewrite dispatch_store.
  destruct a as [files|files|g p|g|g m|g|b|b|]; simpl in Ha |- *; try (by exists st).
  - exists st. apply negb_true_iff, bool_decide_eq_false in Ha. by rewrite map_get_add, decide_False.
  - exists st. change (foldl _ ?m files) with (foldl keep_or_add m files). split; [|done]. apply map_get_keep.
    by rewrite (map_get_filter (js_includes files)).
  - exists st. apply negb_true_iff, bool_decide_eq_false in Ha. unfold update_file.
    destruct (map_get g (st_files (rt_store r))); [|done]. simpl. by rewrite map_get_set, decide_False.
  - unfold update_file. destruct (map_get g (st_files (rt_store r))) as [sg|] eqn:Eg; [|by exists st]. simpl.
    rewrite map_get_set. case_decide; [by eexists|by exists st].
  - exists st. apply negb_true_iff, bool_decide_eq_false in Ha. unfold update_file.
    destruct (map_get g (st_files (rt_store r))); [|done]. simpl. by rewrite map_get_set, decide_False.
  - exists st. split; [|done]. rewrite revoke_files. by rewrite map_get_delete.
Qed.

Lemma finished_store f r r' : st_files (rt_store r') = st_files (rt_store r) → finished f r → finished f r'.
Proof. unfold finished. by intros ->. Qed.

(** No frame waits with a report about the file or with its upload. *)
Definition no_report (f : file) (t : task) : Prop :=
  match t with FProgress g _ => g ≠ f | FUpload files => f ∉ files end.

(** What may happen without touching the file. *)
Definition quiet (f : file) (e : upload_event) : Prop :=
  match e with
  | EInput files | EDrop files | EPaste files | EFailed files _ => f ∉ files
  | EProgress g _ | EError g _ | ERemove g => g ≠ f
  | EClear => False
  | EValue files => f ∈ files
  | _ => True
  end.

Definition settled (f : file) (r : root) : Prop :=
  finished f r ∧ Forall (no_report f) (rt_frames r) ∧ (isControlled props = true → f ∈ rt_value r).

Lemma dispatch_settled f a r : leaves f a = true → settled f r → settled f (dispatch a r).
Proof.
  intros Ha (H1 & H2 & H3). split; [by apply dispatch_finished|]. split; [by rewrite dispatch_frames|]. intros Hc.
  assert (∀ l, (reducer (rt_store r) a).2 = Some l → f ∈ l) as Hl.
  { intros l Hl. pose proof (dispatch_finished f a r Ha H1) as (st & Hst & _). rewrite dispatch_store in Hst.
    apply mk_is_Some, map_get_is_Some in Hst. destruct a; simpl in Hl, Ha; simplify_eq; done. }
  unfold dispatch. destruct (reducer (rt_store r) a) as [s [l|]]; [|by apply H3]. simpl. unfold value_change.
  rewrite Hc. by apply Hl.
Qed.

Lemma dispatch_all_settled f (a : file → action) files r : (∀ g, g ∈ files → leaves f (a g) = true) → settled f r →
  settled f (foldl (λ r g, dispatch (a g) r) r files).
Proof.
  revert r. induction files as [|g files IH]; intros r Ha Hr; [done|]. apply IH.
  - intros h Hh. apply Ha. by right.
  - apply dispatch_settled; [apply Ha; by left|done].
Qed.

Lemma with_waiting_settled f fr t r : settled f r → Forall (no_report f) fr → settled f (with_waiting fr t r).
Proof. by intros (? & _ & ?) ?. Qed.

Lemma accept_files_settled f files r : f ∉ files → settled f r → settled f (accept_files files r).
Proof.
  intros Hf Hr. destruct files as [|g gs]; [done|]. unfold accept_files.
  assert (settled f (dispatch (ADD_FILES (g :: gs)) r)) as Hd.
  { apply dispatch_settled; [|done]. by apply negb_true_iff, bool_decide_eq_false. }
  assert (settled f (value_change (file_keys (rt_store (dispatch (ADD_FILES (g :: gs)) r))) (dispatch (ADD_FILES (g :: gs)) r)))
    as (V1 & V2 & V3).
  { unfold value_change. destruct (isControlled props) eqn:E; [|done]. destruct Hd as (D1 & D2 & D3). split; [done|].
    split; [done|]. intros _. simpl. destruct D1 as (st & Hst & _). by apply map_get_is_Some, (mk_is_Some _ _ Hst). }
  destruct (hasUpload props); [|done]. split; [done|]. split; [|done]. simpl. apply Forall_app. split; [done|].
  by repeat constructor.
Qed.

Lemma onFilesChange_settled f files r : f ∉ files → settled f r → settled f (onFilesChange files r).
Proof.
  intros Hf Hr. unfold onFilesChange. destruct (disabled props); [done|].
  destruct (within_max _ files) as [processed over] eqn:Ew. apply accept_files_settled.
  - intros [_ Hin]%elem_of_js_filter. apply Hf. unfold within_max in Ew.
    destruct (maxFiles props) as [[|m]|]; injection Ew as <- <-; [done| |done].
    by apply elem_of_take in Hin as (i & Hi & _); apply list_elem_of_lookup_2 in Hi.
  - unfold note_refusals. destruct (_ || _); [|done]. apply with_waiting_settled; [|apply Hr]. by apply dispatch_settled.
Qed.

Lemma run_task_settled f t r : no_report f t → settled f r → settled f (run_task r t).
Proof.
  intros Ht Hr. destruct t as [g p|files]; simpl in Ht |- *.
  - apply dispatch_settled; [|done]. apply negb_true_iff, bool_decide_eq_false. congruence.
  - unfold onFilesUpload. apply (dispatch_all_settled f (λ g, SET_PROGRESS g (num_of_Z 0)) files r); [|done].
    intros g Hg. apply negb_true_iff, bool_decide_eq_false. by intros ->.
Qed.

Lemma frame_settled f r : settled f r → settled f (frame r).
Proof.
  intros Hr. unfold frame. destruct Hr as (H1 & H2 & H3).
  assert (settled f (with_waiting [] (rt_timers r) r)) as Hr by (split; [done|]; split; [constructor|done]).
  revert Hr. generalize (with_waiting [] (rt_timers r) r). clear H1 H3.
  induction H2 as [|t ts Ht _ IH]; intros r' Hr'; [done|]. apply IH. by apply run_task_settled.
Qed.

Lemma upload_step_settled f e r : quiet f e → settled f r → settled f (upload_step r e).
Proof.
  intros He Hr. assert (settled f (upload_handler r e)) as Hh.
  { destruct e; simpl in He |- *; try (by apply dispatch_settled); try (by apply onFilesChange_settled).
    - destruct files; [|apply onFilesChange_settled; [done|]]; by apply dispatch_settled.
    - unfold onProgress. destruct (js_some _ _); [done|]. apply with_waiting_settled; [done|]. apply Forall_app.
      split; [apply Hr|by repeat constructor].
    - apply dispatch_settled; [|done]. apply negb_true_iff, bool_decide_eq_false. congruence.
    - apply (dispatch_all_settled f (λ g, SET_ERROR g message)); [|done].
      intros g Hg. apply negb_true_iff, bool_decide_eq_false. by intros ->.
    - by apply frame_settled.
    - unfold timer. destruct (rt_timers r); [done|]. apply dispatch_settled; [done|].
      apply with_waiting_settled; [done|apply Hr].
    - unfold preview. destruct (map_get _ _); [|done]. destruct (map_get _ _); [done|]. by destruct (is_image _).
    - unfold item_delete. destruct (map_get _ _); [|done]. apply dispatch_settled; [|done].
      apply negb_true_iff, bool_decide_eq_false. congruence.
    - done.
    - unfold value_change. destruct (isControlled props); [|done]. destruct Hr as (H1 & H2 & _). by repeat split. }
  unfold upload_step, value_effect. destruct (isControlled props && rt_changed _) eqn:E; [|done].
  apply andb_true_iff in E as [Ec _]. destruct Hh as (H1 & H2 & H3). apply dispatch_settled; [|done].
  simpl. apply js_includes_true. by apply H3.
Qed.

(** An upload reported as a success stays one: if no frame waits with a
    report about the file when the success arrives, then whatever happens to
    the other files, the file is listed as uploaded until it is chosen again,
    reported on again or removed. *)
Theorem success_sticks f es r :
  is_Some (map_get f (st_files (rt_store r))) → (isControlled props = true → f ∈ rt_value r ∧ rt_changed r = false) →
  Forall (no_report f) (rt_frames r) → Forall (quiet f) es → finished f (foldl upload_step r (ESuccess f :: es)).
Proof.
  intros [st Hst] Hv Hfr Hes. simpl.
  assert (settled f (upload_step r (ESuccess f))) as Hs.
  { assert (upload_step r (ESuccess f) = dispatch (SET_SUCCESS f) r) as ->.
    { unfold upload_step, value_effect. simpl. unfold dispatch. simpl. destruct (isControlled props) eqn:E; [|done].
      by rewrite (proj2 (Hv eq_refl)). }
    split; [|split; [by rewrite dispatch_frames|]].
    - unfold finished. rewrite dispatch_store. simpl. unfold update_file. rewrite Hst. simpl.
      rewrite map_get_set, decide_True by done. by eexists.
    - intros Hc. unfold dispatch. simpl. by apply Hv. }
  revert Hs. generalize (upload_step r (ESuccess f)). clear Hv Hfr Hst st.
  induction Hes as [|e es He _ IH]; intros q Hq; [apply Hq|]. simpl. by apply IH, upload_step_settled.
Qed.
End upload.

(** ** Direct uploads (pages/agent/debug-content/uploader.tsx)

    The client keeps the records the server returned in a list of its own and
    removes them by the positions of the removed files. *)
Record direct := {
  du_files : list file;
  du_uploaded : list val;
  du_sent : list (list val)       (* calls of onChange *)
}.

(** [handleFilesChange] *)
Definition handleFilesChange (newFiles : list file) (d : direct) : direct :=
  let removedFiles := js_filter (λ f, negb (js_includes newFiles f)) (du_files d) in
  match removedFiles with
  | [] => {| du_files := newFiles; du_uploaded := du_uploaded d; du_sent := du_sent d |}
  | _ =>
      let removedIndices := map (λ f, js_findIndex (λ g, g === f) (du_files d)) removedFiles in
      let uploaded := omap (λ iv, if js_includes removedIndices (Some iv.1) then None else Some iv.2)
                        (imap pair (du_uploaded d)) in
      {| du_files := newFiles; du_uploaded := uploaded; du_sent := du_sent d ++ [uploaded] |}
  end.

(** The server has taken a file: [ret.code === 0]. *)
Definition upload_returned (record : val) (d : direct) : direct :=
  let uploaded := du_uploaded d ++ [record] in
  {| du_files := du_files d; du_uploaded := uploaded; du_sent := du_sent d ++ [uploaded] |}.

(** The form field's value when the component is mounted. *)
Definition direct0 (value : val) : direct :=
  {| du_files := [];
     du_uploaded := match value with VArr l => l | v => if truthy v then [v] else [] end; du_sent := [] |}.

Inductive direct_event :=
  | DChoose (files : list file)         (* new files behind the others *)
  | DRemove (f : file)
  | DReturned (f : file).

Section direct.
Context (record : file → val).

Definition direct_step (d : direct) (e : direct_event) : direct :=
  match e with
  | DChoose files => handleFilesChange (push_all (du_files d) files) d
  | DRemove f => handleFilesChange (js_filter (λ g, g !== f) (du_files d)) d
  | DReturned f => upload_returned (record f) d
  end.

(** The uploads return in the order of the files. *)
Definition in_order (d : direct) (e : direct_event) : Prop :=
  match e with
  | DReturned f => du_files d !! length (du_uploaded d) = Some f
  | _ => True
  end.

Fixpoint run_in_order (d : direct) (es : list direct_event) : Prop :=
  match es with [] => True | e :: es => in_order d e ∧ run_in_order (direct_step d e) es end.

Definition aligned (d : direct) : Prop :=
  NoDup (du_files d) ∧ du_uploaded d = record <$> take (length (du_uploaded d)) (du_files d).


Lemma removed_exact (l : list file) f a k p rest : NoDup l → f ∈ l → l = p ++ k ++ rest → length p = a →
  omap (λ iv, if js_includes [js_findIndex (λ g, g === f) l] (Some iv.1) then None else Some iv.2)
    (imap (λ j v, (a + j, v)) (record <$> k)) = record <$> js_filter (λ g, g !== f) k.
Proof.
  intros Hnd Hf. revert a p. induction k as [|g k IH]; intros a p Hl Ha; [done|]. csimpl. rewrite js_filter_cons.
  assert (imap ((λ j v, (a + j, v)) ∘ S) (record <$> k) = imap (λ j v, (S a + j, v)) (record <$> k)) as ->.
  { apply imap_ext. intros i x _. simpl. by rewrite Nat.add_succ_r. }
  rewrite (IH (S a) (p ++ [g])), Nat.add_0_r; [|by rewrite <-app_assoc|rewrite length_app; simpl; lia].
  assert (js_includes [js_findIndex (λ h, h === f) l] (Some a) = (g === f)) as ->.
  { apply bool_decide_ext. rewrite list_elem_of_singleton.
    assert (l !! a = Some g) as Hg by (by rewrite Hl; simpl; rewrite list_lookup_middle).
    destruct (js_findIndex (λ h, h === f) l) as [i|] eqn:E.
    - apply js_findIndex_Some in E as [(x & Hx & Hc) _]. apply bool_decide_eq_true in Hc as ->. split.
      + intros [= ->]. congruence.
      + intros ->. f_equal. by eapply NoDup_lookup.
    - rewrite js_findIndex_None in E. specialize (E f Hf). by rewrite bool_decide_true in E. }
  by case_bool_decide.
Qed.

Lemma js_filter_only (l : list file) f : NoDup l → f ∈ l → js_filter (λ g, g === f) l = [f].
Proof.
  intros Hnd Hf. induction l as [|g l IH]; [by apply elem_of_nil in Hf|].
  apply NoDup_cons in Hnd as [Hg Hnd]. rewrite js_filter_cons. case_bool_decide as E; subst.
  - f_equal. apply js_filter_none. intros h Hh. apply bool_decide_eq_false. by intros ->.
  - apply IH; [done|]. by apply elem_of_cons in Hf as [->|].
Qed.

Lemma removed_files (l : list file) f :
  js_filter (λ g, negb (js_includes (js_filter (λ g, g !== f) l) g)) l = js_filter (λ g, g === f) l.
Proof.
  apply js_filter_ext. intros g Hg. apply eq_true_iff_eq. rewrite negb_true_iff. unfold js_includes.
  rewrite bool_decide_eq_false, elem_of_js_filter, negb_true_iff, bool_decide_eq_false, bool_decide_eq_true.
  destruct (decide (g = f)); naive_solver.
Qed.

Lemma direct_step_aligned d e : in_order d e → aligned d → aligned (direct_step d e).
Proof.
  intros He [Hnd Hu]. pose proof (f_equal length Hu) as Hlen. rewrite length_fmap, length_take in Hlen.
  destruct e as [files|f|f]; simpl in He |- *.
  - unfold handleFilesChange. rewrite js_filter_none.
    + split; simpl; [by apply NoDup_push_all|]. destruct (push_all_prefix (du_files d) files) as [k ->].
      rewrite take_app_le by lia. done.
    + intros g Hg. apply negb_false_iff, js_includes_true, elem_of_push_all. by left.
  - unfold handleFilesChange. rewrite removed_files. destruct (decide (f ∈ du_files d)) as [Hf|Hf].
    + rewrite js_filter_only by done. set (n := length (du_uploaded d)) in *. split; [by apply NoDup_js_filter|]. simpl.
      assert (omap (λ iv, if js_includes [js_findIndex (λ h, h === f) (du_files d)] (Some iv.1) then None else Some iv.2)
                (imap pair (du_uploaded d)) = record <$> js_filter (λ g, g !== f) (take n (du_files d))) as ->.
      { rewrite Hu. apply (removed_exact (du_files d) f 0 (take n (du_files d)) [] (drop n (du_files d))); [done|done| |done].
        by rewrite app_nil_l, take_drop. }
      rewrite length_fmap. f_equal. rewrite <-(take_drop n (du_files d)) at 3. rewrite js_filter_app. by rewrite take_app_length.
    + rewrite js_filter_none; [|intros g Hg; apply bool_decide_eq_false; by intros ->]. rewrite js_filter_all; [done|].
      intros g Hg. apply negb_true_iff, bool_decide_eq_false. by intros ->.
  - split; [done|]. simpl. rewrite length_app. simpl. rewrite Nat.add_1_r, (take_S_r _ _ _ He), fmap_app. simpl.
    by rewrite <-Hu.
Qed.

(** While the uploads return in the order of the files and every one succeeds,
    the records are those of the first files, whatever is chosen and removed in
    between. *)
Theorem direct_in_order es : run_in_order (direct0 VUndef) es →
  let d := foldl direct_step (direct0 VUndef) es in
  du_uploaded d = record <$> take (length (du_uploaded d)) (du_files d).
Proof.
  intros Hes d. assert (∀ q, aligned q → run_in_order q es → aligned (foldl direct_step q es)) as H.
  { clear. induction es as [|e es IH]; intros q Hq; [done|]. intros [He Hes]. apply IH; [by apply direct_step_aligned|done]. }
  apply H; [|done]. split; [constructor|done].
Qed.
End direct.

(** *** A round of uploads *)
Definition photo (f : file) : file_info :=
  {| fi_name := "p" +:+ pretty f +:+ ".png"; fi_type := "image/png"; fi_size := 10 |}.

Definition free_props (controlled : bool) : upload_props :=
  {| isControlled := controlled; disabled := false; maxFiles := Some 2; maxSize := Some 100%Z; accept := Some "image/*, .pdf";
     onFileValidate := None; hasUpload := true |}.

Definition some_round : list upload_event :=
  [EInput [0; 1; 2]; EFrame; EPreview 0; EProgress 0 (num_of_Z 150); EFrame; ESuccess 0; EError 1 "full"; ERemove 1; ETimer].

Lemma upload_reachable_witness :
  file_keys (rt_store (foldl (upload_step photo (free_props true)) root0 some_round)) = [0] ∧
  rt_value (foldl (upload_step photo (free_props true)) root0 some_round) ≡ₚ [0].
Proof.
  split; [reflexivity|].
  assert (Forall (event_ok photo (free_props true)) some_round) as H by (repeat constructor; discriminate).
  destruct (upload_reachable photo (free_props true) some_round H) as (_ & _ & Hv & _). exact (Hv eq_refl).
Defined.

Lemma files_chosen_exact_witness :
  file_keys (rt_store (onFilesChange photo (free_props false) [3; 4; 5] root0)) = [3; 4].
Proof. destruct (files_chosen_exact photo (free_props false) [3; 4; 5] root0 eq_refl) as (_ & -> & _). reflexivity. Defined.

Lemma success_sticks_witness :
  finished 0 (foldl (upload_step photo (free_props true))
    (foldl (upload_step photo (free_props true)) root0 [EInput [0]; EFrame]) [ESuccess 0; EInput [1]; EFrame; ESuccess 1]).
Proof.
  apply (success_sticks photo (free_props true)).
  - vm_compute. by eexists.
  - intros _. split; [by left|reflexivity].
  - constructor.
  - repeat constructor. apply (bool_decide_unpack _). vm_compute. exact I.
Defined.

(** *** What goes wrong *)

(** The upload of the chat page reports 100 and success in one go: the frame
    of the report comes last. *)
Lemma success_overwritten :
  let r := foldl (upload_step photo (free_props true)) root0
             [EInput [0]; EFrame; EProgress 0 (num_of_Z 100); ESuccess 0; EFrame] in
  statusText <$> map_get 0 (st_files (rt_store r)) = Some "Uploading: 100% complete".
Proof. reflexivity. Qed.

(** Of several reports before a frame only the first is shown. *)
Lemma only_first_progress :
  let r := foldl (upload_step photo (free_props true)) root0
             [EInput [0; 1]; EFrame; EProgress 0 (num_of_Z 50); EProgress 1 (num_of_Z 50); EFrame] in
  fs_progress <$> map_get 1 (st_files (rt_store r)) = Some (num_of_Z 0).
Proof. reflexivity. Qed.

(** A parent that empties its list leaves the URLs of the previews behind. *)
Lemma cleared_previews_leak :
  let r := foldl (upload_step photo (free_props true)) root0 [EInput [0]; EPreview 0; EValue []] in
  file_keys (rt_store r) = [] ∧ unmount (rt_store r) = [0].
Proof. split; reflexivity. Qed.

(** Two uploads that return in the other order, then the removal of the first
    file: the record of the removed file is kept. *)
Lemma other_record_removed (record : file → val) :
  let d := foldl (direct_step record) (direct0 VUndef) [DChoose [0; 1]; DReturned 1; DReturned 0; DRemove 0] in
  du_files d = [1] ∧ du_uploaded d = [record 0].
Proof. split; reflexivity. Qed.
