(* ===== verification/DynamicForm.v ===== *)
(** * Forms from a list of fields

    components/dynamic-form.tsx: a form is given by the configuration of its
    fields.  The names of fields are paths ([config.bucket]); the default
    values, the values that are submitted and the validation are computed from
    the configuration.

    The schema library zod is the interface [Zod]: the builders the code
    calls, [None] where the called method does not exist and the call throws,
    and the messages a value gets. *)
From S2P Require Import Prelude JsValue FormUtils.
From Stdlib Require Import Ascii.
Open Scope list_scope.
Open Scope nat_scope.
Open Scope js_scope.

(** ** Fields *)
Inductive FormFieldType :=
  | Text | Email | Password | Number | Textarea | Select | MultiSelect | Checkbox | Switch | Tag | Segmented | Custom.

#[export] Instance FormFieldType_eq_dec : EqDecision FormFieldType.
Proof. solve_decision. Defined.

(** What a custom validation does: it returns a text or a boolean, or throws
    (an error with its message, or something else). *)
Inductive custom_result := CText (s : string) | CBool (b : bool) | CThrow (message : option string).

Record validation := {
  v_pattern : option (string → bool);
  v_minLength : option Z;
  v_maxLength : option Z;
  v_min : option Z;
  v_max : option Z;
  v_message : string
}.

(** ** The schema of a field *)
Class Zod := {
  zod : Type;
  z_string : zod;
  z_email : string → zod;
  z_number : zod;                                  (* z.coerce.number() *)
  z_boolean : zod;
  z_array_string : zod;
  z_min : Z → string → zod → option zod;
  z_max : Z → string → zod → option zod;
  z_regex : (string → bool) → string → zod → option zod;
  z_refine_true : string → zod → zod;
  z_optional : zod → zod;
  z_messages : zod → val → list string             (* [] means accepted *)
}.

Section fields.
Context `{Zod}.

Record FormFieldConfig := {
  f_name : string;
  f_label : string;
  f_type : FormFieldType;
  f_required : bool;
  f_defaultValue : val;
  f_validation : option validation;
  f_schema : option zod;
  f_shouldRender : option (val → bool);
  f_customValidate : option (val → val → custom_result);
  f_dependencies : list string
}.

Definition message_or (f : FormFieldConfig) (text : string) : string :=
  match f_validation f with
  | Some v => if v_message v === "" then text else v_message v
  | None => text
  end.

(** The schema by type, before the rules for required fields *)
Definition base_schema (f : FormFieldConfig) : option zod :=
  match f_schema f with
  | Some s => Some s
  | None =>
      match f_type f with
      | Email => Some (z_email "Please enter a valid email address")
      | MultiSelect =>
          if f_required f then z_min 1 (f_label f +:+ " is required") z_array_string else Some (z_optional z_array_string)
      | Number =>
          s ← match f_validation f ≫= v_min with
              | Some m => z_min m (message_or f ("Value cannot be less than " +:+ pretty m)) z_number
              | None => Some z_number
              end;
          match f_validation f ≫= v_max with
          | Some m => z_max m (message_or f ("Value cannot be greater than " +:+ pretty m)) s
          | None => Some s
          end
      | Checkbox | Switch => Some z_boolean
      | Tag => Some z_array_string
      | _ => Some z_string
      end
  end.

Definition required_schema (f : FormFieldConfig) (s : zod) : option zod :=
  if f_required f then
    let requiredMessage := message_or f (f_label f +:+ " is required") in
    match f_type f with
    | Checkbox => Some (z_refine_true requiredMessage s)
    | _ => z_min 1 requiredMessage s
    end
  else Some (z_optional s).

Definition has_text_rules (f : FormFieldConfig) : bool :=
  match f_type f with Number | Checkbox | Switch | Custom | Tag => false | _ => f_required f end.

Definition text_rules (f : FormFieldConfig) (s : zod) : option zod :=
  if has_text_rules f then
    s ← match f_validation f ≫= v_minLength with
        | Some m => z_min m (message_or f ("Enter at least " +:+ pretty m +:+ " characters")) s
        | None => Some s
        end;
    s ← match f_validation f ≫= v_maxLength with
        | Some m => z_max m (message_or f ("Enter up to " +:+ pretty m +:+ " characters")) s
        | None => Some s
        end;
    match f_validation f ≫= v_pattern with
    | Some p => z_regex p (message_or f "Invalid input format") s
    | None => Some s
    end
  else Some s.

(** [None]: building the schema throws. *)
Definition field_schema (f : FormFieldConfig) : option zod :=
  s ← base_schema f; s ← required_schema f s; text_rules f s.

(** ** Paths *)
Definition keys_of (name : string) : list string := js_split "."%char name.

Definition get_path (keys : list string) (o : val) : val := foldl (λ current key, prop key current) o keys.

Definition getNestedValue (o : val) (path : string) : val := get_path (keys_of path) o.

(** The loop that walks to the place of a path, creating objects, and assigns
    there; an assignment to a property of a text, a number or [true] throws.
    Paths do not lead through arrays. *)
Fixpoint set_path (keys : list string) (v : val) (o : obj) : outcome obj :=
  match keys with
  | [] => Ok o
  | [k] => Ok (obj_set k v o)
  | k :: keys =>
      match obj_get k o with
      | VObj o' => o2 ← set_path keys v o'; Ok (obj_set k (VObj o2) o)
      | w => if truthy w then Throw else o2 ← set_path keys v []; Ok (obj_set k (VObj o2) o)
      end
  end.

(** ** The schema of a form

    An object of schemas, nested along the names with dots. *)
#[warnings="-register-all"]
Inductive shape := Leaf (s : zod) | Branch (l : list (string * shape)).

(** The walk through the nested schemas; what is assigned to a property of a
    schema is lost. *)
Fixpoint set_shape (keys : list string) (s : zod) (m : list (string * shape)) : list (string * shape) :=
  match keys with
  | [] => m
  | [k] => map_set k (Leaf s) m
  | k :: keys =>
      match map_get k m with
      | Some (Branch m') => map_set k (Branch (set_shape keys s m')) m
      | Some (Leaf _) => m
      | None => map_set k (Branch (set_shape keys s [])) m
      end
  end.

Definition place_schema (f : FormFieldConfig) (s : zod) (m : list (string * shape) * list (string * shape))
    : list (string * shape) * list (string * shape) :=
  let '(schema, nestedSchemas) := m in
  if str_includes "." (f_name f)
  then (schema, set_shape (keys_of (f_name f)) s nestedSchemas)
  else (map_set (f_name f) (Leaf s) schema, nestedSchemas).

(** [None]: building the schema of a field throws, and this with it. *)
Definition generateSchema (fields : list FormFieldConfig) : option (list (string * shape)) :=
  '(schema, nestedSchemas) ← foldl (λ m f, m ← m; s ← field_schema f; Some (place_schema f s m)) (Some ([], [])) fields;
  Some (foldl (λ schema kv, map_set kv.1 kv.2 schema) schema nestedSchemas).

(** ** Default values *)
Definition default_of (f : FormFieldConfig) : val :=
  match f_defaultValue f with
  | VUndef =>
      match f_type f with
      | Checkbox | Switch => VBool false
      | Tag => VArr []
      | MultiSelect => if str_includes "." (f_name f) then VStr "" else VArr []
      | _ => VStr ""
      end
  | v => v
  end.

Definition generateDefaultValues (fields : list FormFieldConfig) : outcome obj :=
  foldl (λ m f, o ← m; set_path (keys_of (f_name f)) (default_of f) o) (Ok []) fields.

(** ** What is submitted *)
Definition FilterFormField : string := "RAG_DY_STATIC".

Definition active (allValues : val) (f : FormFieldConfig) : bool :=
  match f_shouldRender f with
  | None => true
  | Some shouldRender => shouldRender allValues && negb (str_includes FilterFormField (f_name f))
  end.

Definition filterActiveValues (fields : list FormFieldConfig) (allValues : val) : outcome obj :=
  foldl (λ m f, o ← m;
    if active allValues f
    then match getNestedValue allValues (f_name f) with
         | VUndef => Ok o
         | v => set_path (keys_of (f_name f)) v o
         end
    else Ok o) (Ok []) fields.

(** ** Validation *)
Definition rendered (data : val) (f : FormFieldConfig) : bool :=
  match f_shouldRender f with None => true | Some shouldRender => shouldRender data end.

(** The error of a field's custom validation. *)
Definition custom_error (data : val) (f : FormFieldConfig) : option string :=
  match f_customValidate f, getNestedValue data (f_name f) with
  | None, _ | _, VUndef => None
  | Some customValidate, v =>
      if rendered data f then
        match customValidate v data with
        | CText s => Some s
        | CBool false => Some (message_or f (f_label f +:+ " is invalid"))
        | CBool true => None
        | CThrow (Some m) => Some m
        | CThrow None => Some "Validation failed"
        end
      else None
  end.

Definition error_val (message : string) : val := VObj [("type", VStr "custom"); ("message", VStr message)].

Definition fieldErrors (fields : list FormFieldConfig) (data : val) : obj :=
  foldl (λ o f, match custom_error data f with Some m => obj_set (f_name f) (error_val m) o | None => o end) [] fields.

Definition first_error (v : val) : val := match v with VArr (x :: _) => x | VArr [] => VUndef | v => v end.

(** The resolver, given the errors zod finds with a schema ([zodResolver]):
    [values] and [errors].  It rejects when the schema cannot be built. *)
Definition resolver (zodErrors : list (string * shape) → val → obj) (fields : list FormFieldConfig) (data : val)
    : outcome (val * obj) :=
  let activeFields := js_filter (rendered data) fields in
  match generateSchema activeFields with
  | None => Throw
  | Some activeSchema =>
      let combinedErrors := obj_assign (obj_assign [] (zodErrors activeSchema data)) (fieldErrors fields data) in
      let combinedErrors := map (λ kv, (kv.1, first_error kv.2)) combinedErrors in
      Ok (if obj_keys combinedErrors === [] then data else VObj [], combinedErrors)
  end.

(** [submit]: what [onSubmit] gets, if it is called. *)
Definition submit (zodErrors : list (string * shape) → val → obj) (fields : list FormFieldConfig) (data : val)
    : outcome (option obj) :=
  '(values, errors) ← resolver zodErrors fields data;
  if obj_keys errors === [] then o ← filterActiveValues fields values; Ok (Some o) else Ok None.

(** ** Changes of the configuration *)
Definition onFieldUpdate (fieldName : string) (update : FormFieldConfig → FormFieldConfig) (fields : list FormFieldConfig)
    : list FormFieldConfig :=
  map (λ f, if f_name f === fieldName then update f else f) fields.

(** [dependencyMap]: by field, the fields to validate again when it changes. *)
Definition dependencyMap (fields : list FormFieldConfig) : list (string * list string) :=
  foldl (λ m f, foldl (λ m dep, map_set dep (default [] (map_get dep m) ++ [f_name f]) m) m (f_dependencies f)) [] fields.

Definition triggered (fields : list FormFieldConfig) (name : string) : list string :=
  default [] (map_get name (dependencyMap fields)).


(** ** Paths that do not cross *)
Definition apart (p q : list string) : Prop := ¬ p `prefix_of` q ∧ ¬ q `prefix_of` p.

Definition compatible (ps : list (list string)) : Prop := ∀ p q, p ∈ ps → q ∈ ps → p = q ∨ apart p q.

(** Nothing, or an object, at every place above a path *)
Definition open_above (p : list string) (o : obj) : Prop :=
  ∀ r, r `prefix_of` p → r ≠ p → r ≠ [] → get_path r (VObj o) = VUndef ∨ ∃ o', get_path r (VObj o) = VObj o'.

Lemma get_path_cons k p o : get_path (k :: p) (VObj o) = get_path p (obj_get k o).
Proof. done. Qed.

Lemma get_path_nonobj p v : (∀ o, v ≠ VObj o) → p ≠ [] → get_path p v = VUndef.
Proof.
  intros Hv Hp. destruct p as [|k p]; [done|]. clear Hp. change (get_path p (prop k v) = VUndef).
  assert (prop k v = VUndef) as -> by (by destruct v; try done; destruct (Hv o)).
  clear Hv. induction p as [|k' p IH]; [done|exact IH].
Qed.

Lemma prefix_cons_iff (k k' : string) p q : k :: p `prefix_of` k' :: q ↔ k = k' ∧ p `prefix_of` q.
Proof. split; [intros H0; split; [by apply prefix_cons_inv_1 in H0|by apply prefix_cons_inv_2 in H0]|intros [-> ?]; by apply prefix_cons]. Qed.

Lemma set_path_ok p v o : p ≠ [] → open_above p o →
  ∃ o', set_path p v o = Ok o' ∧ get_path p (VObj o') = v ∧
    (∀ q, apart p q → get_path q (VObj o') = get_path q (VObj o)) ∧
    (∀ q, q `prefix_of` p → q ≠ p → ∃ o'', get_path q (VObj o') = VObj o'').
Proof.
  revert o. induction p as [|k p IH]; intros o Hp Ho; [done|]. clear Hp.
  assert (∀ w q, apart (k :: p) q → get_path q (VObj (obj_set k w o)) =
    match q with k' :: q' => if decide (k = k') then get_path q' w else get_path q (VObj o) | [] => get_path [] (VObj o) end) as Hq.
  { intros w [|k' q'] Hap; [by destruct Hap as [_ []]; apply prefix_nil|]. rewrite get_path_cons.
    case_decide; [subst; by rewrite obj_get_set_eq|]. by rewrite obj_get_set_ne. }
  destruct p as [|k2 p].
  { exists (obj_set k v o). split; [done|]. split; [by rewrite get_path_cons, obj_get_set_eq|]. split.
    - intros q Hap. rewrite (Hq v q Hap). destruct q as [|k' q']; [by destruct Hap as [_ []]; apply prefix_nil|].
      case_decide; [|done]. subst. destruct Hap as [[] _]. apply prefix_cons_iff. split; [done|apply prefix_nil].
    - intros q Hpre Hne. destruct q as [|k' q']; [by eexists|]. apply prefix_cons_iff in Hpre as [-> Hpre].
      by apply prefix_nil_inv in Hpre as ->. }
  assert (∃ o1, set_path (k :: k2 :: p) v o = (o2 ← set_path (k2 :: p) v o1; Ok (obj_set k (VObj o2) o)) ∧
    open_above (k2 :: p) o1 ∧ ∀ q, q ≠ [] → get_path q (VObj o1) = get_path q (obj_get k o)) as (o1 & -> & Ho1 & Hsame).
  { assert (∀ r, k :: r `prefix_of` k :: k2 :: p → r ≠ k2 :: p → get_path r (obj_get k o) = VUndef ∨
        ∃ o', get_path r (obj_get k o) = VObj o') as Habove.
    { intros r Hr Hne. apply (Ho (k :: r)); [done|congruence|done]. }
    destruct (Habove [] ltac:(apply prefix_cons_iff; split; [done|apply prefix_nil]) ltac:(done)) as [Hu|[o' Ho']].
    - cbn in Hu. exists []. cbn [set_path]. rewrite Hu. split; [done|].
      assert (∀ q, q ≠ [] → get_path q (VObj []) = VUndef) as He.
      { intros [|k' q] Hne; [done|]. rewrite get_path_cons. destruct q as [|k'' q]; [done|]. by apply get_path_nonobj. }
      split; [intros r Hr Hne Hr0; left; by apply He|]. intros q Hne. rewrite He by done. by rewrite get_path_nonobj.
    - cbn in Ho'. exists o'. cbn [set_path]. rewrite Ho'. split; [done|]. split; [|done]. intros r Hr Hne Hr0.
      rewrite <-Ho'. apply Habove; [|done]. by apply prefix_cons_iff. }
  destruct (IH o1 ltac:(done) Ho1) as (o2 & -> & H1 & H2 & H3). exists (obj_set k (VObj o2) o). split; [done|].
  split; [by rewrite get_path_cons, obj_get_set_eq|]. split.
  - intros q Hap. rewrite (Hq (VObj o2) q Hap). destruct q as [|k' q']; [done|]. case_decide as Hk; [|done]. subst k'.
    assert (apart (k2 :: p) q') as Hap'.
    { destruct Hap as [Ha Hb]. split; intros Hpre; [apply Ha|apply Hb]; by apply prefix_cons_iff. }
    rewrite (H2 q' Hap'), get_path_cons. apply Hsame. intros ->. destruct Hap' as [_ []]. apply prefix_nil.
  - intros q Hpre Hne. destruct q as [|k' q']; [by eexists|]. apply prefix_cons_iff in Hpre as [-> Hpre].
    rewrite get_path_cons, obj_get_set_eq. apply H3; [done|congruence].
Qed.

(** ** Assigning at many places *)
Definition set_all (l : list (list string * val)) : outcome obj :=
  foldl (λ m pv, o ← m; set_path pv.1 pv.2 o) (Ok []) l.

(** The last value of a path *)
Definition last_value (p : list string) (l : list (list string * val)) : option val :=
  foldl (λ acc pv, if pv.1 === p then Some pv.2 else acc) None l.

Lemma get_path_empty q : q ≠ [] → get_path q (VObj []) = VUndef.
Proof. intros Hq. destruct q as [|k q]; [done|]. rewrite get_path_cons. destruct q; [done|]. by apply get_path_nonobj. Qed.

Lemma last_value_is_Some p l : p ∈ l.*1 → is_Some (last_value p l).
Proof.
  intros Hp. induction l as [|[q v] l IH] using rev_ind; [by apply elem_of_nil in Hp|].
  unfold last_value. rewrite foldl_app. simpl. case_bool_decide; [by eexists|]. apply IH.
  rewrite fmap_app in Hp. apply elem_of_app in Hp as [|Hp]; [done|]. by apply list_elem_of_singleton in Hp.
Qed.

Lemma compatible_sub ps qs : ps ⊆ qs → compatible qs → compatible ps.
Proof. intros Hs Hc p q Hp Hq. apply Hc; by apply Hs. Qed.

Lemma set_all_ok l : compatible l.*1 → [] ∉ l.*1 →
  ∃ o, set_all l = Ok o ∧ (∀ p, p ∈ l.*1 → Some (get_path p (VObj o)) = last_value p l) ∧
    (∀ q, q ≠ [] → (∀ p, p ∈ l.*1 → apart p q) → get_path q (VObj o) = VUndef) ∧
    (∀ p q, p ∈ l.*1 → q `prefix_of` p → q ≠ p → ∃ o', get_path q (VObj o) = VObj o').
Proof.
  induction l as [|[p v] l IH] using rev_ind; intros Hc Hn.
  { exists []. split; [done|]. split; [by intros ? ?%elem_of_nil|]. split; [intros q Hq _; by apply get_path_empty|].
    by intros ? ? ?%elem_of_nil. }
  rewrite fmap_app in Hc, Hn. simpl in Hc, Hn.
  destruct IH as (o & Ho & H1 & H2 & H3).
  { eapply compatible_sub; [|exact Hc]. set_solver. }
  { set_solver. }
  assert (∀ p', p' ∈ l.*1 → p' = p ∨ apart p' p) as Hcp by (intros p' Hp'; apply Hc; set_solver).
  assert (open_above p o) as Hop.
  { intros r Hr Hrp Hr0. destruct (decide (Exists (λ p', r `prefix_of` p') l.*1)) as [Hex|Hex].
    - apply Exists_exists in Hex as (p' & Hp' & Hrp'). right. apply (H3 p'); [done|done|]. intros ->.
      destruct (Hcp _ Hp') as [->|[Ha _]]; done.
    - left. apply H2; [done|]. intros p' Hp'. split; [|intros Hpre; apply Hex, Exists_exists; by exists p'].
      intros Hpre. assert (p' `prefix_of` p) as Hpp by (by etrans). destruct (Hcp _ Hp') as [->|[Ha _]]; [|done].
      apply Hrp. by apply (anti_symm prefix). }
  destruct (set_path_ok p v o) as (o' & Ho' & G1 & G2 & G3); [intros ->; set_solver|done|].
  exists o'. unfold set_all in *. rewrite foldl_app, Ho. split; [exact Ho'|]. split; [|split].
  - intros q. rewrite fmap_app. intros Hq. unfold last_value. rewrite foldl_app. simpl. case_bool_decide as E.
    + by rewrite <-E, G1.
    + apply elem_of_app in Hq as [Hq|Hq]; [|by apply list_elem_of_singleton in Hq as ->].
      destruct (Hcp _ Hq) as [->|Hap]; [done|]. rewrite G2 by (by destruct Hap). by apply H1.
  - intros q Hq0 Hq. rewrite fmap_app in Hq. rewrite G2 by (apply Hq; set_solver). apply H2; [done|]. intros p' Hp'.
    apply Hq. set_solver.
  - intros p' q. rewrite fmap_app. intros Hp' Hpre Hne. apply elem_of_app in Hp' as [Hp'|Hp'].
    + destruct (Hcp _ Hp') as [->|Hap]; [by apply G3|]. destruct (decide (q `prefix_of` p)) as [Hqp|Hqp].
      * apply G3; [done|]. intros ->. by destruct Hap as [_ []].
      * rewrite G2; [by apply (H3 p')|]. split; [|done]. intros Hpq. destruct Hap as [_ []]. by etrans.
    + apply list_elem_of_singleton in Hp' as ->. by apply G3.
Qed.

(** ** The values of a form *)
Definition names (fields : list FormFieldConfig) : list (list string) := map (λ f, keys_of (f_name f)) fields.

Lemma keys_of_nonempty name : keys_of name ≠ [].
Proof.
  unfold keys_of. destruct name as [|a s]; [done|]. simpl. case_bool_decide; [done|]. by destruct (js_split _ s).
Qed.

Lemma generate_set_all fields :
  generateDefaultValues fields = set_all (map (λ f, (keys_of (f_name f), default_of f)) fields).
Proof.
  unfold generateDefaultValues, set_all. generalize (Ok (A := obj) []). induction fields as [|f fields IH]; intros m; [done|].
  simpl. apply IH.
Qed.

Lemma in_names fields q : q ∈ names fields ↔ ∃ f, f ∈ fields ∧ q = keys_of (f_name f).
Proof.
  unfold names. rewrite list_elem_of_In, in_map_iff. setoid_rewrite list_elem_of_In. naive_solver.
Qed.

Lemma nil_not_in_names fields : [] ∉ names fields.
Proof. intros (f & _ & Hf)%in_names. by apply (keys_of_nonempty (f_name f)). Qed.

(** The default values of a form whose names do not lead through one
    another exist; at the name of each field they hold the default of the last
    field of that name, and nothing anywhere else. *)
Theorem default_values_exact fields : compatible (names fields) →
  ∃ o, generateDefaultValues fields = Ok o ∧
    (∀ f, f ∈ fields → Some (getNestedValue (VObj o) (f_name f)) =
       last_value (keys_of (f_name f)) (map (λ f, (keys_of (f_name f), default_of f)) fields)) ∧
    (∀ q, q ≠ [] → (∀ p, p ∈ names fields → apart p q) → get_path q (VObj o) = VUndef).
Proof.
  intros Hc. rewrite generate_set_all. set (l := map _ fields).
  assert (l.*1 = names fields) as Hl by (unfold l, names; change (fst <$> ?x) with (map fst x); by rewrite map_map).
  destruct (set_all_ok l) as (o & Ho & H1 & H2 & _); [by rewrite Hl|rewrite Hl; apply nil_not_in_names|].
  exists o. rewrite Hl in *. split; [done|]. split; [|done]. intros f Hf. apply H1, in_names. by exists f.
Qed.

(** What filterActiveValues keeps of a field *)
Definition kept (values : val) (f : FormFieldConfig) : option (list string * val) :=
  if active values f then match getNestedValue values (f_name f) with VUndef => None | v => Some (keys_of (f_name f), v) end
  else None.

Lemma filter_set_all fields values : filterActiveValues fields values = set_all (omap (kept values) fields).
Proof.
  unfold filterActiveValues, set_all. generalize (Ok (A := obj) []). induction fields as [|f fields IH]; intros m; [done|].
  simpl. rewrite IH. unfold kept at 2. destruct (active values f); [|by destruct m].
  destruct (getNestedValue values (f_name f)); try done. by destruct m.
Qed.

Lemma kept_in values (fields : list FormFieldConfig) p v : (p, v) ∈ omap (kept values) fields ↔
  ∃ f, f ∈ fields ∧ p = keys_of (f_name f) ∧ active values f = true ∧ v = getNestedValue values (f_name f) ∧ v ≠ VUndef.
Proof.
  rewrite list_elem_of_omap. split; intros (f & Hf & Hk); exists f; (split; [done|]); unfold kept in *.
  - destruct (active values f); [|done]. destruct (getNestedValue values (f_name f)) eqn:E; simplify_eq; by rewrite ?E.
  - destruct Hk as (-> & -> & -> & Hv). by destruct (getNestedValue values (f_name f)).
Qed.

Lemma last_value_in p l v : last_value p l = Some v → (p, v) ∈ l.
Proof.
  induction l as [|[q w] l IH] using rev_ind; [done|]. unfold last_value. rewrite foldl_app. simpl.
  case_bool_decide; [intros [= ->]; subst; set_solver|]. intros ?%IH. set_solver.
Qed.

Lemma filter_exact fields values : compatible (names fields) →
  ∃ o, filterActiveValues fields values = Ok o ∧
    (∀ f, f ∈ fields → getNestedValue (VObj o) (f_name f) =
       if js_some (λ g, (keys_of (f_name g) === keys_of (f_name f)) && active values g) fields
       then getNestedValue values (f_name f) else VUndef) ∧
    (∀ q, q ≠ [] → (∀ p, p ∈ names fields → apart p q) → get_path q (VObj o) = VUndef).
Proof.
  intros Hc. rewrite filter_set_all. set (l := omap (kept values) fields).
  assert (l.*1 ⊆ names fields) as Hsub.
  { intros p Hp. apply list_elem_of_fmap in Hp as ([p' v] & -> & Hin). apply kept_in in Hin as (f & Hf & -> & _).
    apply in_names. by exists f. }
  destruct (set_all_ok l) as (o & Ho & H1 & H2 & _).
  { by eapply compatible_sub. }
  { intros Hn. by apply Hsub, nil_not_in_names in Hn. }
  exists o. split; [done|]. split; [|intros q Hq Hap; apply H2; [done|]; intros p Hp; by apply Hap, Hsub].
  intros f Hf. unfold getNestedValue at 1. destruct (decide (keys_of (f_name f) ∈ l.*1)) as [Hin|Hin].
  - pose proof (H1 _ Hin) as Hlast. symmetry in Hlast. apply last_value_in, kept_in in Hlast as (g & Hg & Hn & Ha & Hv & _).
    rewrite (proj2 (js_some_true _ _)); [by rewrite Hv; unfold getNestedValue; rewrite Hn|].
    exists g. split; [done|]. rewrite Ha, andb_true_r. by apply bool_decide_eq_true.
  - rewrite H2; [|apply keys_of_nonempty|].
    + destruct (js_some _ fields) eqn:Es; [|done]. apply js_some_true in Es as (g & Hg & [He Ha]%andb_true_iff).
      apply bool_decide_eq_true in He. destruct (decide (getNestedValue values (f_name f) = VUndef)) as [|Hv]; [done|].
      destruct Hin. apply list_elem_of_fmap. exists (keys_of (f_name f), getNestedValue values (f_name f)). split; [done|].
      apply kept_in. exists g. unfold getNestedValue in Hv |- *. by rewrite He.
    + intros p Hp. destruct (Hc p (keys_of (f_name f))) as [->|Hap]; [by apply Hsub|apply in_names; by exists f|done|done].
Qed.

Lemma set_path_wf p v o o' : obj_wf o → set_path p v o = Ok o' → obj_wf o'.
Proof.
  intros Ho. destruct p as [|k [|k2 p]]; simpl; [by intros [= <-]|intros [= <-]; by apply obj_set_wf|].
  destruct (obj_get k o); simpl; repeat (destruct (match p with [] => _ | _ :: _ => _ end) || case_match);
    simpl; intros Hs; simplify_eq; by apply obj_set_wf.
Qed.

Lemma filterActiveValues_wf fields values o : filterActiveValues fields values = Ok o → obj_wf o.
Proof.
  unfold filterActiveValues. assert (∀ m, (∀ o, m = Ok o → obj_wf o) → ∀ o, foldl (λ m f, o ← m;
    if active values f then match getNestedValue values (f_name f) with VUndef => Ok o | v => set_path (keys_of (f_name f)) v o end
    else Ok o) m fields = Ok o → obj_wf o) as Hall; [|apply Hall; intros ? [= <-]; constructor].
  induction fields as [|f fields IH]; intros m Hm o'; [apply Hm|]. simpl. apply IH. intros o1. destruct m as [o0| |]; try done.
  simpl. specialize (Hm o0 eq_refl). destruct (active values f); [|by intros [= <-]].
  destruct (getNestedValue values (f_name f)); [by intros [= <-]|by apply set_path_wf..].
Qed.

(** ** Submitting *)
Lemma obj_keys_nil o : obj_keys o = [] ↔ o = [].
Proof.
  unfold obj_keys. split; [|by intros ->]. intros Hk. apply fmap_nil_inv in Hk. apply Permutation_nil_r.
  by rewrite <-Hk, obj_entries_Permutation.
Qed.

Lemma foldl_set_nil (es : obj) base : foldl (λ acc kv, obj_set kv.1 kv.2 acc) base es = [] ↔ base = [] ∧ es = [].
Proof.
  revert base. induction es as [|[k v] es IH]; intros base; simpl; [tauto|]. rewrite IH. split; [|by intros [_ ?]].
  intros [Hs _]. by destruct base as [|[k' v'] base]; simpl in Hs; [|case_bool_decide].
Qed.

Lemma obj_assign_nil_iff base ext : obj_assign base ext = [] ↔ base = [] ∧ ext = [].
Proof.
  unfold obj_assign. rewrite foldl_set_nil. split; intros [-> He]; (split; [done|]).
  - apply Permutation_nil_r. by rewrite <-He, obj_entries_Permutation.
  - by rewrite He.
Qed.

Lemma fieldErrors_nil fields data : fieldErrors fields data = [] ↔ ∀ f, f ∈ fields → custom_error data f = None.
Proof.
  unfold fieldErrors. assert (∀ o, foldl (λ o f, match custom_error data f with
      Some m => obj_set (f_name f) (error_val m) o | None => o end) o fields = [] ↔
    o = [] ∧ ∀ f, f ∈ fields → custom_error data f = None) as Hall; [|rewrite Hall; tauto].
  induction fields as [|f fields IH]; intros o; simpl; [set_solver|]. rewrite IH.
  destruct (custom_error data f) as [m|] eqn:E.
  - split; [|intros [_ Hf]; by rewrite Hf in E by (by left)]. intros [Hs _].
    by destruct o as [|[k' v'] o]; simpl in Hs; [|case_bool_decide].
  - split; intros [Ho Hf]; (split; [done|]); [by intros g [->|Hg]%elem_of_cons; auto|]. intros g Hg. apply Hf. by right.
Qed.

(** A field is shown unless its condition says otherwise. *)
Definition shown (data : val) (f : FormFieldConfig) : Prop := ∀ r, f_shouldRender f = Some r → r data = true.

(** Its own validation, if it has one and a value, accepts the value. *)
Definition accepted (data : val) (f : FormFieldConfig) : Prop :=
  ∀ check, f_customValidate f = Some check → shown data f → getNestedValue data (f_name f) ≠ VUndef →
    check (getNestedValue data (f_name f)) data = CBool true.

(** The fields whose values are submitted: those without a condition, and
    those that are shown and do not have the mark of static fields in their
    name. *)
Definition submits (data : val) (f : FormFieldConfig) : Prop :=
  f_shouldRender f = None ∨
  (shown data f ∧ ¬ ∃ before after, f_name f = before +:+ "RAG_DY_STATIC" +:+ after).

Lemma rendered_shown data f : rendered data f = true ↔ shown data f.
Proof. unfold rendered, shown. destruct (f_shouldRender f) as [r|]; naive_solver. Qed.

Lemma active_submits data f : active data f = true ↔ submits data f.
Proof.
  unfold active, submits, shown. rewrite <-str_includes_spec. unfold FilterFormField.
  destruct (f_shouldRender f) as [r|]; [|naive_solver]. rewrite andb_true_iff, negb_true_iff, <-not_true_iff_false.
  naive_solver.
Qed.

Lemma custom_case data f check w text : w ≠ VUndef →
  (if rendered data f
   then match check w data with
        | CText s => Some s
        | CBool false => Some text
        | CBool true => None
        | CThrow (Some m) => Some m
        | CThrow None => Some "Validation failed"
        end
   else None) = None ↔
  ∀ check', Some check = Some check' → shown data f → w ≠ VUndef → check' w data = CBool true.
Proof.
  intros Hw. pose proof (rendered_shown data f) as Hr. split.
  - intros Hn check' [= <-] Hs _. rewrite (proj2 Hr Hs) in Hn. by destruct (check w data) as [| [] |[]].
  - intros Hall. destruct (rendered data f); [|done]. by rewrite (Hall check eq_refl (proj1 Hr eq_refl) Hw).
Qed.

Lemma custom_accepted data f : custom_error data f = None ↔ accepted data f.
Proof.
  unfold custom_error, accepted. destruct (f_customValidate f) as [check|]; [|naive_solver].
  destruct (getNestedValue data (f_name f)); [naive_solver|by apply custom_case..].
Qed.

(** What makes a form valid: zod has nothing against the values, with the
    schema of the fields that are shown, and every field accepts its own. *)
Definition valid (zodErrors : list (string * shape) → val → obj) (fields : list FormFieldConfig) (data : val) : Prop :=
  (∃ schema, generateSchema (js_filter (rendered data) fields) = Some schema ∧ zodErrors schema data = []) ∧
  ∀ f, f ∈ fields → accepted data f.

Lemma generateSchema_None fields : generateSchema fields = None ↔ ∃ f, f ∈ fields ∧ field_schema f = None.
Proof.
  unfold generateSchema.
  assert (∀ m, foldl (λ m f, m ← m; s ← field_schema f; Some (place_schema f s m)) m fields = None ↔
    m = None ∨ ∃ f, f ∈ fields ∧ field_schema f = None) as Hall.
  { induction fields as [|f fields IH]; intros m; cbn [foldl].
    - split; [by left|]. intros [->|(f & ?%elem_of_nil & _)]; done.
    - rewrite IH. setoid_rewrite elem_of_cons. destruct m as [m|]; [|naive_solver]. cbn [mbind option_bind].
      destruct (field_schema f) as [s|] eqn:E; naive_solver. }
  specialize (Hall (Some ([], []))). destruct (foldl _ _ fields) as [[schema nested]|]; cbn [mbind option_bind].
  - split; [done|]. intros Hf. assert (Some (schema, nested) = None); [|done]. apply Hall. by right.
  - split; [|done]. intros _. by destruct (proj1 Hall eq_refl).
Qed.

Lemma submit_throws zodErrors fields data : compatible (names fields) →
  submit zodErrors fields data = Throw ↔ ∃ f, f ∈ fields ∧ shown data f ∧ field_schema f = None.
Proof.
  intros Hc. unfold submit, resolver. destruct (generateSchema _) as [schema|] eqn:E.
  - cbn. destruct (filter_exact fields data Hc) as (o & Ho & _). split.
    + case_bool_decide as Hk; [|done]. by rewrite Ho.
    + intros (f & Hf & Hs & Hn). assert (generateSchema (js_filter (rendered data) fields) = None) as Hg; [|congruence].
      apply generateSchema_None. exists f. split; [|done]. apply elem_of_js_filter. by rewrite rendered_shown.
  - split; [|done]. intros _. apply generateSchema_None in E as (f & [Hr Hf]%elem_of_js_filter & Hn).
    exists f. by rewrite <-rendered_shown.
Qed.

Lemma submit_valid zodErrors fields data : valid zodErrors fields data →
  submit zodErrors fields data = (o ← filterActiveValues fields data; Ok (Some o)).
Proof.
  intros ((schema & Hs & Hz) & Hall). unfold submit, resolver. rewrite Hs, Hz. cbn [mbind outcome_bind].
  assert (fieldErrors fields data = []) as -> by (apply fieldErrors_nil; intros f Hf; by apply custom_accepted, Hall).
  done.
Qed.

Lemma submit_invalid zodErrors fields data :
  (∀ f, f ∈ fields → shown data f → is_Some (field_schema f)) → ¬ valid zodErrors fields data →
  submit zodErrors fields data = Ok None.
Proof.
  intros Hb Hv. unfold submit, resolver. destruct (generateSchema _) as [schema|] eqn:E.
  2:{ apply generateSchema_None in E as (f & [Hr Hf]%elem_of_js_filter & Hn). apply rendered_shown in Hr.
      destruct (Hb f Hf Hr). congruence. }
  cbn [mbind outcome_bind]. rewrite (bool_decide_false (obj_keys _ = [])); [done|]. intros Hk%obj_keys_nil. apply Hv.
  apply map_eq_nil, obj_assign_nil_iff in Hk as [[_ Hz]%obj_assign_nil_iff Hf]. split; [by exists schema|].
  intros f Hin. apply custom_accepted. by apply (proj1 (fieldErrors_nil fields data)).
Qed.


(** ** Fields that depend on others *)
Lemma foldl_deps (deps : list string) (n : string) m d :
  default [] (map_get d (foldl (λ m dep, map_set dep (default [] (map_get dep m) ++ [n]) m) m deps)) =
  default [] (map_get d m) ++ replicate (length (js_filter (λ dep, dep === d) deps)) n.
Proof.
  revert m. induction deps as [|dep deps IH]; intros m; simpl; [by rewrite app_nil_r|].
  rewrite IH, map_get_set, js_filter_cons. case_decide; [subst; rewrite bool_decide_true by done|rewrite bool_decide_false by congruence].
  - simpl. by rewrite <-app_assoc.
  - done.
Qed.

(** A change of a field validates again exactly the fields that name it as a
    dependency, in order, once for each time they name it. *)
Theorem triggered_exact fields name :
  triggered fields name =
  concat (map (λ f, replicate (length (js_filter (λ dep, dep === name) (f_dependencies f))) (f_name f)) fields).
Proof.
  unfold triggered, dependencyMap.
  assert (∀ m, default [] (map_get name (foldl (λ m f, foldl (λ m dep, map_set dep (default [] (map_get dep m) ++ [f_name f]) m)
      m (f_dependencies f)) m fields)) = default [] (map_get name m) ++
    concat (map (λ f, replicate (length (js_filter (λ dep, dep === name) (f_dependencies f))) (f_name f)) fields)) as Hm;
    [|by rewrite Hm].
  induction fields as [|f fields IH]; intros m; simpl; [by rewrite app_nil_r|]. by rewrite IH, foldl_deps, app_assoc.
Qed.

(** ** The schema of a field *)

(** zod: the checks of a text or a number schema are made one after the
    other; a boolean schema has no [min]. *)
Class ZodLaws := {
  z_text : zod → Prop;
  z_numeric : zod → Prop;
  z_string_text : z_text z_string;
  z_number_numeric : z_numeric z_number;
  z_string_accepts s : z_messages z_string (VStr s) = [];
  z_number_accepts q : q ≠ NNaN → z_messages z_number (VNum q) = [];
  z_min_text n m s : z_text s → ∃ s', z_min n m s = Some s' ∧ z_text s' ∧
    ∀ x, z_messages s' (VStr x) = z_messages s (VStr x) ++ if (Z.of_nat (String.length x) <? n)%Z then [m] else [];
  z_max_text n m s : z_text s → ∃ s', z_max n m s = Some s' ∧ z_text s' ∧
    ∀ x, z_messages s' (VStr x) = z_messages s (VStr x) ++ if (n <? Z.of_nat (String.length x))%Z then [m] else [];
  z_regex_text p m s : z_text s → ∃ s', z_regex p m s = Some s' ∧ z_text s' ∧
    ∀ x, z_messages s' (VStr x) = z_messages s (VStr x) ++ if p x then [] else [m];
  z_min_number n m s : z_numeric s → ∃ s', z_min n m s = Some s' ∧ z_numeric s' ∧
    ∀ q, q ≠ NNaN → z_messages s' (VNum q) = z_messages s (VNum q) ++ if num_ltb q (num_of_Z n) then [m] else [];
  z_min_boolean n m : z_min n m z_boolean = None;
  z_optional_text s x : z_text s → z_messages (z_optional s) (VStr x) = z_messages s (VStr x)
}.

Context {LZ : ZodLaws}.

(** The types whose schema is a plain text *)
Definition plain_text (f : FormFieldConfig) : Prop :=
  f_schema f = None ∧ match f_type f with Text | Password | Textarea | Select | Segmented => True | _ => False end.

(** A rule that may be there adds its condition. *)
Lemma optional_rule {A} (rule : option A) (mk : A → zod → option zod) (ok : A → string → bool) (s : zod) :
  z_text s →
  (∀ a s, z_text s → ∃ s' m, mk a s = Some s' ∧ z_text s' ∧
     ∀ x, z_messages s' (VStr x) = z_messages s (VStr x) ++ if ok a x then [] else [m]) →
  ∃ s', match rule with Some a => mk a s | None => Some s end = Some s' ∧ z_text s' ∧
    ∀ x, z_messages s' (VStr x) = [] ↔ z_messages s (VStr x) = [] ∧ ∀ a, rule = Some a → ok a x = true.
Proof.
  intros Hs Hmk. destruct rule as [a|]; [|exists s; split; [done|]; split; [done|]; naive_solver].
  destruct (Hmk a s Hs) as (s' & m & H1 & H2 & H3). exists s'. split; [done|]. split; [done|]. intros x. rewrite H3.
  destruct (ok a x) eqn:E; rewrite ?app_nil_r; [naive_solver|]. split; [by intros [_ ?]%app_nil|].
  intros [_ Hok]. specialize (Hok a eq_refl). congruence.
Qed.

(** The schema of a field with a plain text always exists; it accepts any
    text where none is required, and otherwise exactly the texts that are not
    empty, keep to the lengths and match the pattern. *)
Theorem text_field_exact f : plain_text f →
  ∃ s, field_schema f = Some s ∧ ∀ x,
    z_messages s (VStr x) = [] ↔
      (f_required f = true → x ≠ "" ∧
        (∀ n, f_validation f ≫= v_minLength = Some n → (n ≤ Z.of_nat (String.length x))%Z) ∧
        (∀ n, f_validation f ≫= v_maxLength = Some n → (Z.of_nat (String.length x) ≤ n)%Z) ∧
        (∀ p, f_validation f ≫= v_pattern = Some p → p x = true)).
Proof.
  intros [Hs Ht]. unfold field_schema.
  assert (base_schema f = Some z_string ∧ (∀ s, required_schema f s = if f_required f
      then z_min 1 (message_or f (f_label f +:+ " is required")) s else Some (z_optional s)) ∧
    has_text_rules f = f_required f) as (-> & Hr & Hx).
  { unfold base_schema, required_schema, has_text_rules. rewrite Hs. by destruct (f_type f). }
  simpl. rewrite Hr. unfold text_rules. rewrite Hx. destruct (f_required f); simpl.
  2: { exists (z_optional z_string). split; [done|]. intros x. rewrite z_optional_text, z_string_accepts by apply z_string_text.
    split; done. }
  destruct (z_min_text 1 (message_or f (f_label f +:+ " is required")) z_string z_string_text) as (s1 & -> & T1 & E1). simpl.
  edestruct (optional_rule (f_validation f ≫= v_minLength)
    (λ m s, z_min m (message_or f ("Enter at least " +:+ pretty m +:+ " characters")) s)
    (λ m x, negb (Z.of_nat (String.length x) <? m)%Z) s1 T1) as (s2 & -> & T2 & E2).
  { intros m s Hts. destruct (z_min_text m (message_or f ("Enter at least " +:+ pretty m +:+ " characters")) s Hts)
      as (s' & ? & ? & Hm). eexists s', _. split; [done|]. split; [done|]. intros x. rewrite Hm. by destruct (_ <? _)%Z. }
  simpl. edestruct (optional_rule (f_validation f ≫= v_maxLength)
    (λ m s, z_max m (message_or f ("Enter up to " +:+ pretty m +:+ " characters")) s)
    (λ m x, negb (m <? Z.of_nat (String.length x))%Z) s2 T2) as (s3 & -> & T3 & E3).
  { intros m s Hts. destruct (z_max_text m (message_or f ("Enter up to " +:+ pretty m +:+ " characters")) s Hts)
      as (s' & ? & ? & Hm). eexists s', _. split; [done|]. split; [done|]. intros x. rewrite Hm. by destruct (_ <? _)%Z. }
  simpl. edestruct (optional_rule (f_validation f ≫= v_pattern)
    (λ p s, z_regex p (message_or f "Invalid input format") s) (λ p x, p x) s3 T3) as (s4 & -> & T4 & E4).
  { intros p s Hts. destruct (z_regex_text p (message_or f "Invalid input format") s Hts) as (s' & ? & ? & Hm).
    eexists s', _. split; [done|]. split; [done|]. intros x. apply Hm. }
  exists s4. split; [done|]. intros x. rewrite E4, E3, E2, E1, z_string_accepts. simpl.
  assert ((if (Z.of_nat (String.length x) <? 1)%Z then [message_or f (f_label f +:+ " is required")] else []) = [] ↔ x ≠ "")
    as -> by (destruct x; simpl; [done|]; destruct (Z.ltb_spec (Z.of_nat (S (String.length x))) 1); [lia|done]).
  setoid_rewrite negb_true_iff. setoid_rewrite Z.ltb_ge. split.
  - by intros [[[? ?] ?] ?] _.
  - intros Hall. by destruct (Hall eq_refl) as (? & ? & ? & ?).
Qed.

(** A required number refuses 0 (and everything below 1), and a required
    switch has no schema: building it throws. *)
Lemma required_number_refuses_zero f : f_schema f = None → f_type f = Number → f_required f = true →
  f_validation f = None → ∃ s m, field_schema f = Some s ∧ z_messages s (VNum (num_of_Z 0)) = [m].
Proof.
  intros Hs Ht Hr Hv. unfold field_schema, base_schema, required_schema, text_rules, has_text_rules.
  rewrite Hs, Ht, Hr, Hv. simpl.
  destruct (z_min_number 1 (message_or f (f_label f +:+ " is required")) z_number z_number_numeric) as (s & -> & _ & Hm).
  eexists s, _. split; [done|]. by rewrite Hm, z_number_accepts by done.
Qed.

Lemma required_switch_throws f : f_schema f = None → f_type f = Switch → f_required f = true → field_schema f = None.
Proof.
  intros Hs Ht Hr. unfold field_schema, base_schema, required_schema. rewrite Hs, Ht, Hr. simpl. by rewrite z_min_boolean.
Qed.
End fields.

(** ** A small schema library *)
Inductive schema :=
  | SStr (checks : list (string → option string))
  | SNum (checks : list (JsValue.num → option string))
  | SBool (refine : option string)
  | SArr (checks : list (nat → option string))
  | SOpt (s : schema).

Fixpoint schema_messages (s : schema) (v : val) : list string :=
  match s, v with
  | SStr checks, VStr x => omap (λ c, c x) checks
  | SNum checks, v => let n := FormUtils.Number v in if num_isNaN n then ["Expected number"] else omap (λ c, c n) checks
  | SBool None, VBool _ => []
  | SBool (Some m), VBool b => if b then [] else [m]
  | SArr checks, VArr l => omap (λ c, c (length l)) checks
  | SOpt _, VUndef => []
  | SOpt s, v => schema_messages s v
  | _, _ => ["Invalid input"]
  end.

#[export] Instance small_zod : Zod := {|
  zod := schema;
  z_string := SStr [];
  z_email m := SStr [λ x, if str_includes "@" x then None else Some m];
  z_number := SNum [];
  z_boolean := SBool None;
  z_array_string := SArr [];
  z_min n m s := match s with
    | SStr cs => Some (SStr (cs ++ [λ x, if (Z.of_nat (String.length x) <? n)%Z then Some m else None]))
    | SNum cs => Some (SNum (cs ++ [λ q, if num_ltb q (num_of_Z n) then Some m else None]))
    | SArr cs => Some (SArr (cs ++ [λ k, if (Z.of_nat k <? n)%Z then Some m else None]))
    | SBool _ | SOpt _ => None end;
  z_max n m s := match s with
    | SStr cs => Some (SStr (cs ++ [λ x, if (n <? Z.of_nat (String.length x))%Z then Some m else None]))
    | SNum cs => Some (SNum (cs ++ [λ q, if num_ltb (num_of_Z n) q then Some m else None]))
    | SArr cs => Some (SArr (cs ++ [λ k, if (n <? Z.of_nat k)%Z then Some m else None]))
    | SBool _ | SOpt _ => None end;
  z_regex p m s := match s with SStr cs => Some (SStr (cs ++ [λ x, if p x then None else Some m])) | _ => None end;
  z_refine_true m s := match s with SBool _ => SBool (Some m) | s => s end;
  z_optional := SOpt;
  z_messages := schema_messages
|}.

Definition is_text_schema (s : schema) : Prop := match s with SStr _ => True | _ => False end.

Definition is_number_schema (s : schema) : Prop := match s with SNum _ => True | _ => False end.

Lemma omap_snoc {A B} (c : A → option B) l x : omap c (l ++ [x]) = omap c l ++ match c x with Some y => [y] | None => [] end.
Proof. induction l as [|y l IH]; csimpl; [by destruct (c x)|]. rewrite IH. by destruct (c y). Qed.

#[export] Instance small_zod_laws : ZodLaws.
Proof.
  apply (@Build_ZodLaws small_zod is_text_schema is_number_schema); try done.
  - intros q Hq. simpl. by destruct q.
  - intros n m [cs| | | |] Hs; try done. eexists. split; [done|]. split; [done|]. intros x. simpl. rewrite omap_snoc.
    by destruct (_ <? _)%Z.
  - intros n m [cs| | | |] Hs; try done. eexists. split; [done|]. split; [done|]. intros x. simpl. rewrite omap_snoc.
    by destruct (_ <? _)%Z.
  - intros p m [cs| | | |] Hs; try done. eexists. split; [done|]. split; [done|]. intros x. simpl. rewrite omap_snoc.
    by destruct (p x).
  - intros n m [|cs| | |] Hs; try done. eexists. split; [done|]. split; [done|]. intros q Hq. simpl.
    assert (num_isNaN q = false) as -> by (by destruct q). rewrite omap_snoc. by destruct (num_ltb _ _).
Qed.

(** ** Examples *)
Definition field (name : string) (type : FormFieldType) (required : bool) : FormFieldConfig := {|
  f_name := name; f_label := name; f_type := type; f_required := required; f_defaultValue := VUndef;
  f_validation := None; f_schema := None; f_shouldRender := None; f_customValidate := None; f_dependencies := [] |}.

Definition hidden_field (name : string) : FormFieldConfig := {|
  f_name := name; f_label := name; f_type := Text; f_required := true; f_defaultValue := VStr "x";
  f_validation := None; f_schema := None; f_shouldRender := Some (λ v, prop "all" v === VBool true);
  f_customValidate := Some (λ _ _, CBool false); f_dependencies := ["all"] |}.

Definition some_fields : list FormFieldConfig :=
  [field "name" Text true; field "config.bucket" Text false; hidden_field "config.secret.key"; field "all" Switch false].

Lemma compatible_unpack ps : Forall (λ p, Forall (λ q, p = q ∨ (¬ p `prefix_of` q ∧ ¬ q `prefix_of` p)) ps) ps → compatible ps.
Proof. intros Hf p q Hp Hq. rewrite Forall_forall in Hf. specialize (Hf _ Hp). rewrite Forall_forall in Hf. by apply Hf. Qed.

Lemma some_compatible : compatible (names some_fields).
Proof. apply compatible_unpack, (bool_decide_unpack _). vm_compute. exact I. Qed.

Lemma default_values_exact_witness :
  ∃ o, generateDefaultValues some_fields = Ok o ∧ Some (getNestedValue (VObj o) "config.secret.key") = Some (VStr "x").
Proof.
  destruct (default_values_exact some_fields some_compatible) as (o & Ho & Hf & _). exists o. split; [exact Ho|].
  exact (Hf (hidden_field "config.secret.key") ltac:(unfold some_fields; do 2 right; left)).
Defined.

Definition some_data : val :=
  VObj [("name", VStr "n"); ("config", VObj [("bucket", VStr "b"); ("secret", VObj [("key", VStr "k")])]); ("all", VBool false)].

Definition no_errors (schema : list (string * shape)) (data : val) : obj := [].

Lemma some_valid : valid no_errors some_fields some_data.
Proof. split; [eexists; split; reflexivity|]. intros f Hf. apply custom_accepted. revert f Hf. by apply fieldErrors_nil. Defined.


(** A required switch: submitting rejects, and nothing is sent. *)
Lemma required_switch_rejects data : submit no_errors [field "on" Switch true] data = Throw.
Proof. reflexivity. Qed.

Lemma text_field_exact_witness :
  ∃ s, field_schema (field "name" Text true) = Some s ∧ (z_messages s (VStr "n") = [] ∧ z_messages s (VStr "") ≠ []).
Proof.
  destruct (text_field_exact (field "name" Text true) ltac:(split; done)) as (s & Hs & Hx). exists s. split; [exact Hs|].
  rewrite !Hx. split; [intros _; repeat split; done|]. intros Hall. destruct (Hall eq_refl) as [[] _]. reflexivity.
Defined.

(** ** What goes wrong *)

(** A static field without a condition is submitted. *)
Lemma static_field_submitted :
  submit no_errors [field "RAG_DY_STATIC_tip" Text false] (VObj [("RAG_DY_STATIC_tip", VStr "x")]) =
  Ok (Some [("RAG_DY_STATIC_tip", VStr "x")]).
Proof. reflexivity. Qed.

(** The default of a nested multi-select is a text, which its schema refuses. *)
Lemma nested_multi_select_default :
  default_of (field "config.tables" MultiSelect false) = VStr "" ∧ default_of (field "tables" MultiSelect false) = VArr [] ∧
  ∃ s, field_schema (field "config.tables" MultiSelect false) = Some s ∧ z_messages s (VStr "") = ["Invalid input"].
Proof. split; [reflexivity|]. split; [reflexivity|]. eexists. split; reflexivity. Qed.
