(* ===== verification/GlobalVariables.v ===== *)
(** * The conversation variables of an agent

    pages/agent/gobal-variable-sheet: the sheet that lists the variables of an
    agent, the dialog that adds and edits one (a [DynamicForm]), the editors
    and checks of their values by type, and what is saved (through [Dsl]).
    [json_parse] is [JSON.parse] of a text, [None] where it throws. *)
From S2P Require Import Prelude JsValue FormUtils Graph Dsl DynamicForm.
From Stdlib Require Import Ascii.
Open Scope list_scope.
Open Scope nat_scope.
Open Scope js_scope.

(** ** Types *)
Module TypesWithArray.
Definition String := "string".
Definition Number := "number".
Definition Boolean := "boolean".
Definition Object := "object".
Definition ArrayString := "array<string>".
Definition ArrayNumber := "array<number>".
Definition ArrayBoolean := "array<boolean>".
Definition ArrayObject := "array<object>".
End TypesWithArray.

Definition TypeMaps (type : string) : option FormFieldType :=
  if type === TypesWithArray.String then Some Textarea
  else if type === TypesWithArray.Number then Some DynamicForm.Number
  else if type === TypesWithArray.Boolean then Some Checkbox
  else if js_includes [TypesWithArray.Object; TypesWithArray.ArrayString; TypesWithArray.ArrayNumber;
                       TypesWithArray.ArrayBoolean; TypesWithArray.ArrayObject] type then Some Textarea
  else None.

(** ** Checks of values *)
Inductive seg := SKey (s : string) | SIdx (i : nat).

Definition key_char (a : ascii) : bool :=
  let n := nat_of_ascii a in
  (bool_decide (48 ≤ n) && bool_decide (n ≤ 57)) || (bool_decide (65 ≤ n) && bool_decide (n ≤ 90)) ||
  (bool_decide (97 ≤ n) && bool_decide (n ≤ 122)) || (n === 95).

(** [/^[a-zA-Z_0-9]+$/] *)
Definition key_ok (key : string) : bool :=
  (key !== "") && js_every key_char (String.list_ascii_of_string key).

Record key_error := { ke_path : list seg; ke_message : string }.

Definition invalid_key (key : string) : string :=
  let q := String (ascii_of_nat 34) "" in
  "Key " +:+ q +:+ key +:+ q +:+ " is invalid. Keys can only contain letters and underscores and numbers.".

(** The order of [for...in] *)
Definition in_key_order {A} (l : list (string * A)) : list (string * A) :=
  js_sort (λ a b, index_gt (a.1, VUndef) (b.1, VUndef)) (js_filter (λ a, is_index_key (a.1, VUndef)) l) ++
  js_filter (λ a, negb (is_index_key (a.1, VUndef))) l.

Fixpoint validateKeys (v : val) (path : list seg) {struct v} : list key_error :=
  let empty := {| ke_path := path; ke_message := "No empty parameters are allowed." |} in
  match v with
  | VNull => [empty]
  | VObj o =>
      (match o with [] => [empty] | _ => [] end) ++
      concat (in_key_order (map (λ kv, (kv.1,
        (if key_ok kv.1 then [] else [{| ke_path := path ++ [SKey kv.1]; ke_message := invalid_key kv.1 |}]) ++
        validateKeys kv.2 (path ++ [SKey kv.1]))) o)).*2
  | VArr l =>
      (fix go (i : nat) (l : list val) : list key_error :=
        match l with [] => [] | x :: l => validateKeys x (path ++ [SIdx i]) ++ go (S i) l end) 0 l
  | _ => []
  end.

Section variables.
Context (json_parse : string → option val) (formatTypeError : string).

(** A text that parses to something truthy, or nothing to parse *)
Definition parses (value : val) : bool :=
  match value with
  | VStr ((String _ _) as s) => match json_parse s with Some v => truthy v | None => false end
  | _ => true
  end.

Definition check (ok : bool) : custom_result := if ok then CBool true else CThrow (Some formatTypeError).

(** [z.object({})] accepts objects that are not arrays. *)
Definition is_object (v : val) : bool := match v with VObj _ => true | _ => false end.

Definition objectValidate (value : val) : custom_result :=
  check (match validateKeys value [] with [] => true | _ => false end && is_object value && parses value).

Definition arrayObjectValidate (value : val) : custom_result :=
  check (match validateKeys value [] with [] => true | _ => false end && parses value).

Definition arrayValidate (type : string) (value : val) : custom_result :=
  check (match value with VArr l => js_every (λ item, typeof item === type) l | _ => false end).

Definition handleCustomValidate (type : string) : option (val → custom_result) :=
  if type === TypesWithArray.Object then Some objectValidate
  else if type === TypesWithArray.ArrayObject then Some arrayObjectValidate
  else if type === TypesWithArray.ArrayString then Some (arrayValidate "string")
  else if type === TypesWithArray.ArrayNumber then Some (arrayValidate "number")
  else if type === TypesWithArray.ArrayBoolean then Some (arrayValidate "boolean")
  else None.

(** ** Editors of lists

    The rows drawn for the value of a field; typing into a row, removing one,
    adding one. *)
Definition rows (initial : val) (value : val) : list val := match value with VArr l => l | _ => [initial] end.

Definition first_row (number : bool) : val := if number then VNum (num_of_Z 0) else VStr "".

Definition edit_row (number : bool) (index : nat) (text : string) (value : val) : val :=
  VArr (<[index := VStr text]> (rows (first_row number) value)).

Definition remove_row (initial : val) (index : nat) (value : val) : val :=
  let values := rows initial value in VArr (take index values ++ drop (S index) values).

(** [[...field.value, added]]: spreading what is not a list or a text throws. *)
Definition add_row (added : val) (value : val) : outcome val :=
  match value with
  | VArr l => Ok (VArr (l ++ [added]))
  | VStr s => Ok (VArr (map (λ a, VStr (String a "")) (String.list_ascii_of_string s) ++ [added]))
  | _ => Throw
  end.

Definition edit_boolean (index : nat) (value_ : val) (value : val) : val :=
  VArr (<[index := VBool (truthy value_)]> (rows (VBool false) value)).

(** ** The dialog *)

(** The value a new type starts with *)
Definition type_default (type : string) : val :=
  if type === TypesWithArray.Boolean then VBool false
  else if type === TypesWithArray.Number then VNum (num_of_Z 0)
  else if type === TypesWithArray.Object then VObj []
  else if (type === TypesWithArray.ArrayString) || (type === TypesWithArray.ArrayNumber) then VArr [VStr ""]
  else if type === TypesWithArray.ArrayBoolean then VArr [VBool false]
  else if type === TypesWithArray.ArrayObject then VArr []
  else VStr "".

(** ** What is saved *)
Definition handleObjectData (value : val) : val :=
  match value with VStr s => default value (json_parse s) | _ => value end.

Definition is_json_type (type : val) : bool :=
  (type === VStr TypesWithArray.Object) || (type === VStr TypesWithArray.ArrayObject).

(** The entry of a variable: [{ ...fieldValue, value }]. *)
Definition variable_entry (fieldValue : obj) : val :=
  let value := obj_get "value" fieldValue in
  VObj (obj_set "value" (if is_json_type (obj_get "type" fieldValue) then handleObjectData value else value)
    (obj_assign [] fieldValue)).

Definition variables_of (dsl : val) : obj := obj_of_val (js_or (prop "variables" dsl) (VObj [])).

(** [handleSubmit]: the variables that are saved *)
Definition handleSubmit (dsl : val) (fieldValue : obj) : obj :=
  obj_set (key_of (obj_get "name" fieldValue)) (variable_entry fieldValue) (obj_assign [] (variables_of dsl)).

Definition handleDeleteGlobalVariable (key : string) (dsl : val) : obj := obj_del key (obj_assign [] (variables_of dsl)).


(** *** The form of the dialog

    Its four fields; the field of the value follows the type. *)
Section form.
Context `{Zod}.

Definition plain_field (name : string) (type : FormFieldType) (required : bool) : FormFieldConfig := {|
  f_name := name; f_label := name; f_type := type; f_required := required; f_defaultValue := VUndef;
  f_validation := if name === "name" then Some {| v_pattern := Some key_ok; v_minLength := None; v_maxLength := None;
                     v_min := None; v_max := None; v_message := "flow.variableNameMessage" |} else None;
  f_schema := None; f_shouldRender := None; f_customValidate := None; f_dependencies := [] |}.

(** The field of the value for a type, [schema] being its zod schema, if any. *)
Definition value_field (schema : string → option zod) (type : string) : FormFieldConfig := {|
  f_name := "value"; f_label := "value"; f_type := default Textarea (TypeMaps type); f_required := false;
  f_defaultValue := VUndef; f_validation := None; f_schema := schema type; f_shouldRender := None;
  f_customValidate := (λ c v _, c v) <$> handleCustomValidate type; f_dependencies := [] |}.

(** [handleEditGlobalVariable] and the change of the type *)
Definition form_fields (schema : string → option zod) (type : string) : list FormFieldConfig :=
  [plain_field "name" Text true; plain_field "type" Select true; value_field schema type;
   plain_field "description" Textarea false].

(** The values the form is reset to: defaults, then the variable. *)
Definition form_values (schema : string → option zod) (type : string) (item : obj) : outcome obj :=
  d ← generateDefaultValues (form_fields schema type); Ok (obj_assign d item).

(** The change of the type with the values of the form: new field, new values. *)
Definition type_changed (values : obj) (type : string) : obj :=
  obj_set "value" (type_default type) (obj_assign [] values).

(** The saving button. *)
Definition save_variable (zodErrors : list (string * shape) → val → obj) (schema : string → option zod) (type : string)
    (values : obj) (dsl : val) : outcome (option obj) :=
  submitted ← submit zodErrors (form_fields schema type) (VObj values);
  Ok (match submitted with Some fieldValue => Some (handleSubmit dsl fieldValue) | None => None end).

End form.

(** ** Checks of names, exactly *)
Lemma in_key_order_Permutation {A} (l : list (string * A)) : in_key_order l ≡ₚ l.
Proof.
  unfold in_key_order. rewrite js_sort_Permutation. induction l as [|x l IH]; [done|].
  rewrite !js_filter_cons. destruct (is_index_key _); simpl; [by rewrite IH|]. by rewrite <-Permutation_middle, IH.
Qed.

(** A value all of whose objects have properties, with good names, and that
    holds no [null]. *)
#[warnings="-register-all"]
Inductive well_keyed : val → Prop :=
  | wk_obj o : o ≠ [] → Forall (λ kv, key_ok kv.1 = true) o → Forall (λ kv, well_keyed kv.2) o → well_keyed (VObj o)
  | wk_arr l : Forall well_keyed l → well_keyed (VArr l)
  | wk_atom v : match v with VObj _ | VArr _ | VNull => False | _ => True end → well_keyed v.

Lemma concat_nil_iff {A} (l : list (list A)) : concat l = [] ↔ Forall (λ x, x = []) l.
Proof.
  induction l as [|x l IH]; simpl; [split; constructor|]. rewrite app_nil, Forall_cons, IH. done.
Qed.

(** The check of the names in a value, at any depth, finds nothing
    exactly in the values all of whose objects are not empty and have names of
    letters, digits and underscores only, and that hold no null. *)
Theorem validateKeys_exact v path : validateKeys v path = [] ↔ well_keyed v.
Proof.
  revert path. induction v as [| |b|n|s|l IH|o IH] using val_ind'; intros path; simpl;
    try (by split; [intros _; by apply wk_atom|]).
  - split; [done|]. by inversion 1.
  - assert (∀ i, (fix go (i : nat) (l : list val) : list key_error :=
        match l with [] => [] | x :: l => validateKeys x (path ++ [SIdx i]) ++ go (S i) l end) i l = [] ↔ Forall well_keyed l) as Hl.
    { induction IH as [|x l Hx _ IH']; intros i; [split; constructor|]. rewrite app_nil, Forall_cons, Hx, IH'. done. }
    rewrite Hl. split; [by constructor|]. inversion 1; subst; done.
  - set (errs := map _ o).
    assert (concat (in_key_order errs).*2 = [] ↔ Forall (λ kv, key_ok kv.1 = true) o ∧ Forall (λ kv, well_keyed kv.2) o) as He.
    { rewrite concat_nil_iff, (in_key_order_Permutation errs). unfold errs. clear errs.
      induction IH as [|[k x] o Hx _ IH']; csimpl; [split; repeat constructor|]. rewrite !Forall_cons, IH', app_nil, Hx. simpl.
      destruct (key_ok k); naive_solver. }
    rewrite app_nil, He. split.
    + intros [Ho [H1 H2]]. apply wk_obj; [by destruct o|done|done].
    + inversion 1; subst; [|done]. split; [by destruct o|done].
Qed.

(** ** Saving *)
Lemma variables_of_get dsl k : obj_wf (variables_of dsl) →
  obj_get k (obj_assign [] (variables_of dsl)) = obj_get k (variables_of dsl).
Proof. intros. by apply obj_get_assign_nil. Qed.

Lemma handleSubmit_get dsl fv k : obj_wf (variables_of dsl) →
  obj_get k (handleSubmit dsl fv) = if decide (k = key_of (obj_get "name" fv)) then variable_entry fv else obj_get k (variables_of dsl).
Proof.
  intros Hw. unfold handleSubmit. case_decide; [subst; by rewrite obj_get_set_eq|].
  rewrite obj_get_set_ne by done. by apply variables_of_get.
Qed.

Lemma delete_get dsl key k : obj_wf (variables_of dsl) →
  obj_get k (handleDeleteGlobalVariable key dsl) = if decide (k = key) then VUndef else obj_get k (variables_of dsl).
Proof.
  intros Hw. unfold handleDeleteGlobalVariable. case_decide.
  - subst. unfold obj_get, obj_del. pose proof (obj_lookup_filter_key (λ x, x !== key) key (obj_assign [] (variables_of dsl))) as E.
    cbv beta in E. by rewrite E, bool_decide_true.
  - rewrite obj_get_del_ne by done. by apply variables_of_get.
Qed.

Section saving.
Context `{Zod}.

Lemma form_names schema type : names (form_fields schema type) = [["name"]; ["type"]; ["value"]; ["description"]].
Proof. done. Qed.

Lemma form_compatible schema type : compatible (names (form_fields schema type)).
Proof. rewrite form_names. apply compatible_unpack, (bool_decide_unpack _). vm_compute. exact I. Qed.

Definition form_keys : list string := ["name"; "type"; "value"; "description"].

Lemma form_submit zodErrors schema type values : valid zodErrors (form_fields schema type) (VObj values) →
  ∃ fv, submit zodErrors (form_fields schema type) (VObj values) = Ok (Some fv) ∧ obj_wf fv ∧
    (∀ k, k ∈ form_keys → obj_get k fv = obj_get k values) ∧ (∀ k, k ∉ form_keys → obj_get k fv = VUndef).
Proof.
  intros Hv. destruct (filter_exact (form_fields schema type) (VObj values) (form_compatible schema type)) as (fv & Hfv & Hk & Ho).
  exists fv. split; [by rewrite (submit_valid _ _ _ Hv), Hfv|]. split; [by apply filterActiveValues_wf in Hfv|]. split.
  - intros k Hin. unfold form_keys in Hin.
    assert (∃ f, f ∈ form_fields schema type ∧ f_name f = k ∧ keys_of k = [k] ∧ active (VObj values) f = true) as (f & Hf & <- & Hks & Ha).
    { rewrite !elem_of_cons in Hin. destruct Hin as [->|[->|[->|[->|Hin%elem_of_nil]]]]; [| | | |done].
      - eexists. split; [by left|done].
      - eexists. split; [by right; left|done].
      - eexists. split; [by do 2 right; left|done].
      - eexists. split; [by do 3 right; left|done]. }
    specialize (Hk f Hf). unfold getNestedValue, get_path in Hk. rewrite Hks in Hk. cbn [foldl prop] in Hk. rewrite Hk.
    rewrite (proj2 (js_some_true _ _)); [done|]. exists f. split; [done|]. rewrite Ha, andb_true_r. by apply bool_decide_eq_true.
  - intros k Hin. apply (Ho [k] ltac:(done)). intros p Hp. rewrite form_names in Hp.
    rewrite !elem_of_cons in Hp. unfold form_keys in Hin. rewrite !not_elem_of_cons in Hin.
    destruct Hin as (? & ? & ? & ? & _).
    destruct Hp as [->|[->|[->|[->|Hp%elem_of_nil]]]]; try done; split; intros Hpre; apply prefix_cons_iff in Hpre as [? _]; congruence.
Qed.

Lemma entry_get fv k : obj_wf fv → is_json_type (obj_get "type" fv) = false ∨ typeof (obj_get "value" fv) ≠ "string" →
  ∃ o, variable_entry fv = VObj o ∧ obj_get k o = obj_get k fv.
Proof.
  intros Hw Hj. unfold variable_entry. eexists. split; [done|]. destruct (decide (k = "value")) as [->|Hk].
  - rewrite obj_get_set_eq. destruct (is_json_type _); [|done]. destruct Hj as [|Hj]; [done|].
    unfold handleObjectData. by destruct (obj_get "value" fv).
  - rewrite obj_get_set_ne by done. by apply obj_get_assign_nil.
Qed.

(** A variable opened in the dialog and saved as it is keeps its name,
    type, value and description, and no other variable changes. *)
Theorem variable_resaved zodErrors schema dsl n type io :
  obj_wf (variables_of dsl) → obj_get n (variables_of dsl) = VObj io → obj_wf io →
  obj_get "name" io = VStr n → obj_get "type" io = VStr type →
  obj_get "value" io ≠ VUndef → obj_get "description" io ≠ VUndef →
  is_json_type (VStr type) = false ∨ typeof (obj_get "value" io) ≠ "string" →
  ∃ values, form_values schema type io = Ok values ∧
    (valid zodErrors (form_fields schema type) (VObj values) →
     ∃ vs, save_variable zodErrors schema type values dsl = Ok (Some vs) ∧
       (∃ o, obj_get n vs = VObj o ∧ ∀ k, k ∈ form_keys → obj_get k o = obj_get k io) ∧
       ∀ m, m ≠ n → obj_get m vs = obj_get m (variables_of dsl)).
Proof.
  intros Hw Hn Hio Hname Htype Hval Hdesc Hj. unfold form_values.
  destruct (default_values_exact (form_fields schema type) (form_compatible schema type)) as (d & -> & _).
  exists (obj_assign d io). split; [done|]. intros Hv.
  destruct (form_submit _ _ _ _ Hv) as (fv & Hs & Hfw & Hk & _). unfold save_variable. rewrite Hs. simpl.
  assert (∀ k, k ∈ form_keys → obj_get k fv = obj_get k io) as Hio'.
  { intros k Hin. rewrite (Hk k Hin). unfold obj_get. rewrite obj_assign_lookup by done.
    destruct (obj_lookup k io) eqn:E; [done|]. exfalso. unfold form_keys in Hin. unfold obj_get in *.
    rewrite !elem_of_cons in Hin. destruct Hin as [->|[->|[->|[->|Hin%elem_of_nil]]]]; try done; by rewrite E in *. }
  assert (obj_get "name" fv = VStr n) as Hnm by (rewrite Hio'; [done|unfold form_keys; set_solver]).
  eexists. split; [done|]. split.
  - rewrite handleSubmit_get by done. rewrite Hnm. simpl. rewrite decide_True by done. eexists. split; [done|].
    intros k Hin. rewrite <-(Hio' k Hin).
    destruct (entry_get fv k Hfw) as (o & Ho & Hg).
    { rewrite (Hio' "type"), (Hio' "value"), Htype by (unfold form_keys; set_solver). done. }
    unfold variable_entry in Ho. injection Ho as <-. done.
  - intros m Hm. rewrite handleSubmit_get by done. rewrite Hnm. simpl. by rewrite decide_False.
Qed.
End saving.

(** ** What is checked and what is not *)

(** The value a type starts with passes its check, except for objects, which
    may not be empty, and for lists of numbers, which start with a text. *)
Lemma type_default_fits type c : handleCustomValidate type = Some c →
  c (type_default type) = check (negb ((type === TypesWithArray.Object) || (type === TypesWithArray.ArrayNumber))).
Proof.
  unfold handleCustomValidate. destruct (bool_decide_reflect (type = TypesWithArray.Object)) as [->|_]; [by intros [= <-]|].
  destruct (bool_decide_reflect (type = TypesWithArray.ArrayObject)) as [->|_]; [by intros [= <-]|].
  destruct (bool_decide_reflect (type = TypesWithArray.ArrayString)) as [->|_]; [by intros [= <-]|].
  destruct (bool_decide_reflect (type = TypesWithArray.ArrayNumber)) as [->|_]; [by intros [= <-]|].
  destruct (bool_decide_reflect (type = TypesWithArray.ArrayBoolean)) as [->|_]; by intros [= <-].
Qed.

(** Typing into a row of a list of numbers makes it a text: the check refuses
    the list whatever was typed. *)
Lemma edited_number_refused index text value : index < length (rows (first_row true) value) →
  arrayValidate "number" (edit_row true index text value) = CThrow (Some formatTypeError).
Proof.
  intros Hi. unfold arrayValidate, edit_row, check. destruct (js_every _ _) eqn:E; [|done].
  rewrite js_every_true in E. specialize (E (VStr text)). rewrite bool_decide_false in E; [|done].
  discriminate E. eapply list_elem_of_lookup_2. by rewrite list_lookup_insert_eq.
Qed.

(** A changed name leaves the variable under its old name beside the new one;
    a new variable of a name that exists replaces it. *)
Lemma renamed_twice dsl fv n m v : obj_wf (variables_of dsl) → obj_get n (variables_of dsl) = v → obj_get "name" fv = VStr m → n ≠ m →
  obj_get n (handleSubmit dsl fv) = v ∧ obj_get m (handleSubmit dsl fv) = variable_entry fv.
Proof.
  intros Hw Hn Hm Hne. rewrite !handleSubmit_get, Hm by done. simpl. by rewrite decide_False, decide_True.
Qed.
End variables.

(** The value of a deleted variable whose name contains [sys] stays among the
    globals of the saved agent. *)
Lemma deleted_sys_stays :
  let dsl := [("variables", VObj [("mysys", VObj [("value", VStr "1")])]); ("globals", VObj [("env.mysys", VStr "1")])] in
  handleDeleteGlobalVariable "mysys" (VObj dsl) = [] ∧
  buildDslGlobalVariables dsl (Some (handleDeleteGlobalVariable "mysys" (VObj dsl))) =
    Ok [("globals", VObj [("env.mysys", VStr "1")]); ("variables", VObj [])].
Proof. split; reflexivity. Qed.

(** ** An example *)
Definition no_parse (s : string) : option val := None.

Definition some_schema (type : string) : option zod := None.

Definition city : obj :=
  [("name", VStr "city"); ("type", VStr "string"); ("value", VStr "Rome"); ("description", VStr "where")].

Definition city_dsl : val := VObj [("variables", VObj [("city", VObj city); ("n", VNum (num_of_Z 1))])].

Lemma variable_resaved_witness :
  ∃ vs, save_variable no_parse "bad" no_errors some_schema "string" city city_dsl = Ok (Some vs) ∧
    (∃ o, obj_get "city" vs = VObj o ∧ ∀ k, k ∈ form_keys → obj_get k o = obj_get k city) ∧
    ∀ m, m ≠ "city" → obj_get m vs = obj_get m (variables_of city_dsl).
Proof.
  assert (obj_wf (variables_of city_dsl)) as H1 by (apply (bool_decide_unpack _); vm_compute; exact I).
  assert (obj_wf city) as H2 by (apply (bool_decide_unpack _); vm_compute; exact I).
  destruct (variable_resaved no_parse "bad" no_errors some_schema city_dsl "city" "string" city H1 eq_refl H2 eq_refl eq_refl
    ltac:(discriminate) ltac:(discriminate) ltac:(by left)) as (values & Hv & Hs).
  vm_compute in Hv. injection Hv as <-. apply Hs.
  split; [eexists; split; reflexivity|]. intros f Hf. apply custom_accepted. revert f Hf. apply fieldErrors_nil. reflexivity.
Defined.
