(* ===== verification/PromptEditor.v ===== *)
(** * Prompt editor

    pages/agent/form/components/prompt-editor, the texts of
    canvas/node/variable-display.tsx, the framework prompts of
    agent-form/use-build-prompt-options.ts and the prompts of
    extractor-form/use-switch-prompt.ts.  A prompt is saved as a text in which
    [{value}] refers to a variable; the editor turns each reference it can
    resolve into a node and writes it back as the same text.

    Lexical is a parameter: the class [Lexical] says what the texts of its
    documents are.  The expression that finds the references is one global
    object, so where its search stands is part of the state. *)
From S2P Require Import Prelude JsValue Graph Libs FormUtils GraphStore Variables Structured.
From Stdlib Require Import Ascii.
Open Scope list_scope.
Open Scope nat_scope.
Open Scope js_scope.

(** ** References in a text *)
Definition open_brace : ascii := "{"%char.
Definition close_brace : ascii := "}"%char.
Definition newline : ascii := ascii_of_nat 10.

(** [s.slice(a, b)] for [a <= b] *)
Definition slice (a b : nat) (s : string) : string := String.substring a (b - a) s.

Definition in_braces (content : string) : string := String open_brace (content +:+ String close_brace "").

(** [[^{}]*] and what follows it. *)
Fixpoint take_content (s : string) : string * string :=
  match s with
  | "" => ("", "")
  | String c s' =>
      if (c === open_brace) || (c === close_brace) then ("", s)
      else let '(d, r) := take_content s' in (String c d, r)
  end.

(** The content of the reference that starts the text. *)
Definition match_reference (s : string) : option string :=
  match s with
  | "" => None
  | String c s' =>
      if c === open_brace then
        match take_content s' with
        | (d, String c' _) => if c' === close_brace then Some d else None
        | _ => None
        end
      else None
  end.

Fixpoint exec_from (s : string) (i : nat) : option (nat * string) :=
  match match_reference s with
  | Some d => Some (i, d)
  | None => match s with "" => None | String _ s' => exec_from s' (S i) end
  end.

(** [VariableRegex.exec(text)]: the index and the content of the next match,
    and the [lastIndex] it leaves. *)
Definition exec (lastIndex : nat) (s : string) : option (nat * string) * nat :=
  if bool_decide (String.length s < lastIndex) then (None, 0)
  else match exec_from (str_from lastIndex s) lastIndex with
       | Some (index, content) => (Some (index, content), index + (String.length content + 2))
       | None => (None, 0)
       end.

(** The loop over the matches that both users of the expression run:
    [literal] is what becomes of the text between two matches and [matched]
    of a match. *)
Section scan.
Context {A : Type} (literal : string → A) (matched : string → A).

Fixpoint match_loop (fuel : nat) (s : string) (regex lastIndex : nat) (out : list A) : outcome (list A * nat * nat) :=
  match fuel with
  | O => Diverge
  | S fuel =>
      match exec regex s with
      | (None, regex') => Ok (out, lastIndex, regex')
      | (Some (index, content), regex') =>
          let out := if bool_decide (lastIndex < index) then out ++ [literal (slice lastIndex index s)] else out in
          match_loop fuel s regex' regex' (out ++ [matched content])
      end
  end.

Definition scan (s : string) (regex : nat) (out : list A) : outcome (list A * nat) :=
  r ← match_loop (S (String.length s)) s regex 0 out;
  let '(out, lastIndex, regex) := r in
  Ok (if bool_decide (lastIndex < String.length s) then out ++ [literal (str_from lastIndex s)] else out, regex).
End scan.

(** ** Nodes of a paragraph *)
Inductive lexical_node :=
| TextNode (text : string)
| VariableNode (value : string) (label : val) (parentLabel : val)
| LineBreakNode.

Definition getTextContent (n : lexical_node) : string :=
  match n with
  | TextNode text => text
  | VariableNode value _ _ => in_braces value
  | LineBreakNode => String newline ""
  end.

Definition nodes_text (ns : list lexical_node) : string := String.concat "" (map getTextContent ns).

Section editor.
Context {L : Lodash} (options : list option_group) (s : RFState).

Definition findItemByValue (value : string) : option DefaultOptionType :=
  let children := flatOptions options in
  match findAgentStructuredOutputLabel value children s with
  | Some item => Some item
  | None => find_option value children
  end.

Definition reference_node (content : string) : lexical_node :=
  match findItemByValue content with
  | Some nodeItem => VariableNode content (o_label nodeItem) (VStr (o_parentLabel nodeItem))
  | None => TextNode (in_braces content)
  end.

Definition parseLineContent (line : string) (regex : nat) (paragraph : list lexical_node)
    : outcome (list lexical_node * nat) := scan TextNode reference_node line regex paragraph.

Fixpoint parse_lines (total index : nat) (lines : list string) (regex : nat) (paragraph : list lexical_node)
    : outcome (list lexical_node * nat) :=
  match lines with
  | [] => Ok (paragraph, regex)
  | line :: lines =>
      r ← (if line === "" then Ok (paragraph, regex) else parseLineContent line regex paragraph);
      let '(paragraph, regex) := r in
      let paragraph := if bool_decide (index < total - 1) then paragraph ++ [LineBreakNode] else paragraph in
      parse_lines total (S index) lines regex paragraph
  end.

Definition parseTextToVariableNodes (text : string) (regex : nat) : outcome (list lexical_node * nat) :=
  let lines := js_split newline text in parse_lines (length lines) 0 lines regex [].

End editor.
(** ** The menu of variables

    Opening the menu: the text before the cursor matches
    [/(^|\s|\()([/]((?:[^/\s\()])* ))$/]. *)
Definition slash : ascii := "/"%char.

Definition query_char (c : ascii) : bool :=
  negb ((c === slash) || is_space c || (c === "("%char) || (c === ")"%char)).

Definition trigger_body (l : list ascii) : option (list ascii) :=
  match l with
  | c :: q => if (c === slash) && js_every query_char q then Some q else None
  | [] => None
  end.

(** A match at a place: the length of its first group and its third. *)
Definition trigger_at (start : bool) (l : list ascii) : option (nat * list ascii) :=
  match (if start then trigger_body l else None) with
  | Some q => Some (0, q)
  | None =>
      match l with
      | c :: l' => if is_space c || (c === "("%char) then pair 1 <$> trigger_body l' else None
      | [] => None
      end
  end.

Fixpoint trigger_from (start : bool) (index : nat) (l : list ascii) : option (nat * list ascii) :=
  match trigger_at start l with
  | Some (w, q) => Some (index + w, q)
  | None => match l with [] => None | _ :: l' => trigger_from false (S index) l' end
  end.

Record query_match := { leadOffset : nat; matchingString : string; replaceableString : string }.

Definition testTriggerFn (text : string) : option query_match :=
  match trigger_from true 0 (String.list_ascii_of_string text) with
  | Some (offset, q) =>
      Some {| leadOffset := offset; matchingString := String.string_of_list_ascii q;
              replaceableString := String slash (String.string_of_list_ascii q) |}
  | None => None
  end.

Record VariableOption := {
  vo_label : val;
  vo_value : string;
  vo_parentLabel : val;
  vo_type : val
}.

Record VariableOptionGroup := {
  vg_label : string;
  vg_options : list VariableOption
}.

Definition to_variable_option (o : DefaultOptionType) : VariableOption :=
  {| vo_label := o_label o; vo_value := o_value o; vo_parentLabel := VStr (o_parentLabel o); vo_type := o_type o |}.

Definition to_variable_group (g : option_group) : VariableOptionGroup :=
  {| vg_label := g_label g; vg_options := map to_variable_option (g_options g) |}.

Definition PromptIdentity : string := "RAGFlow-Prompt".

Definition wrapPromptWithTag (text tag : string) : string :=
  let capitalTag := to_upper tag in
  "<" +:+ capitalTag +:+ ">" +:+ String newline ("  " +:+ text) +:+ String newline ("</" +:+ capitalTag +:+ ">").

(** The prompts of the framework: an option has no label of a parent. *)
Definition framework_option (kv : string * val) : VariableOption :=
  {| vo_label := VStr kv.1; vo_value := wrapPromptWithTag (key_of kv.2) kv.1;
     vo_parentLabel := VUndef; vo_type := VUndef |}.

Definition useBuildPromptExtraPromptOptions (prompts : val) (has : bool) : outcome (list VariableOptionGroup) :=
  es ← entries_of (js_or prompts (VObj []));
  Ok [{| vg_label := PromptIdentity;
         vg_options := js_filter (λ x, if negb has then vo_label x === VStr "citation_guidelines" else true)
                         (map framework_option es) |}].

(** [label.toLowerCase()] *)
Definition lower_label (v : val) : outcome string := match v with VStr t => Ok (to_lower t) | _ => Throw end.

Definition matches_query (queryString : string) (y : VariableOption) : outcome bool :=
  if queryString === "" then Ok true
  else
    let parentLabel := match vo_parentLabel y with VStr p => to_lower p +:+ "." | _ => "" end in
    label ← lower_label (vo_label y);
    let thisLabel := parentLabel +:+ label in
    let thisValue := parentLabel +:+ to_lower (vo_value y) in
    Ok (str_includes queryString thisLabel || str_includes queryString thisValue).

Fixpoint filter_query (queryString : string) (ys : list VariableOption) : outcome (list VariableOption) :=
  match ys with
  | [] => Ok []
  | y :: ys =>
      b ← matches_query queryString y;
      rest ← filter_query queryString ys;
      Ok (if (b : bool) then y :: rest else rest)
  end.

Fixpoint filter_groups (queryString : string) (gs : list VariableOptionGroup) : outcome (list VariableOptionGroup) :=
  match gs with
  | [] => Ok []
  | g :: gs =>
      ys ← filter_query queryString (vg_options g);
      rest ← filter_groups queryString gs;
      Ok ({| vg_label := vg_label g; vg_options := ys |} :: rest)
  end.

(** The groups of the menu and its options in one list. *)
Definition unifiedOptions (queryString : string) (options : list option_group) (extra : list VariableOptionGroup)
    : outcome (list VariableOptionGroup * list VariableOption) :=
  gs ← filter_groups queryString (map to_variable_group options ++ extra);
  let treeified := js_filter (λ g, negb (length (vg_options g) === 0)) gs in
  Ok (treeified, mjoin (map vg_options treeified)).

(** [onQueryChange] *)
Definition query_of (q : option string) : string := default "" (to_lower <$> q).

(** ** The editor

    What is relied on of Lexical: the text of a document made of one
    paragraph, and what inserting at a selection does to the text. *)
Class Lexical := {
  document : Type;
  document_text : document → string;
  of_paragraph : list lexical_node → document;
  range : document → option (string * string * string);
  insert_nodes : list lexical_node → document → document;
  insert_text : string → document → document
}.

Class LexicalLaws `{Lexical} := {
  of_paragraph_text ns : document_text (of_paragraph ns) = nodes_text ns;
  range_text d b i a : range d = Some (b, i, a) → document_text d = b +:+ (i +:+ a);
  insert_nodes_text ns d b i a : range d = Some (b, i, a) →
    document_text (insert_nodes ns d) = b +:+ (nodes_text ns +:+ a);
  insert_text_text t d b i a : range d = Some (b, i, a) → document_text (insert_text t d) = b +:+ (t +:+ a)
}.

Section commands.
Context `{Lexical}.

Fixpoint paste_lines (total index : nat) (lines : list string) (nodes : list lexical_node) : list lexical_node :=
  match lines with
  | [] => nodes
  | lineText :: lines =>
      let nodes := if lineText === "" then nodes else nodes ++ [TextNode lineText] in
      let nodes := if bool_decide (index < total - 1) then nodes ++ [LineBreakNode] else nodes in
      paste_lines total (S index) lines nodes
  end.

Definition pasted_nodes (text : string) : list lexical_node :=
  let lines := js_split newline text in paste_lines (length lines) 0 lines [].

(** The handlers of commands: [None] leaves the command to Lexical. *)
Definition paste_command (text : string) (d : document) : option document :=
  if text === "" then None
  else if str_includes (String newline "") text
  then Some (match range d with Some _ => insert_nodes (pasted_nodes text) d | None => d end)
  else None.

Definition enter_command (shiftKey : bool) (d : document) : option document :=
  if shiftKey then None
  else match range d with Some _ => Some (insert_nodes [LineBreakNode] d) | None => None end.

(** [removed]: the document without the text that opened the menu. *)
Definition onSelectOption (y : VariableOption) (removed d : document) : document :=
  match range d with
  | None => d
  | Some _ =>
      if vo_parentLabel y === VStr PromptIdentity then insert_text (vo_value y) removed
      else insert_nodes [VariableNode (vo_value y) (vo_label y) (vo_parentLabel y)] removed
  end.
End commands.

(** The field of the form that the editor edits, its document, the text it
    takes for its own, and the shared expression. *)
Record prompt_state `{Lexical} := {
  doc : document;
  value : option string;
  previousValue : option string;
  regex : nat
}.

Section editing.
Context {L : Lodash} `{Lexical} (options : list option_group) (s : RFState).

(** The effect on [value]; its update is tagged, so neither listener acts. *)
Definition value_effect (p : prompt_state) : outcome prompt_state :=
  match value p with
  | Some v =>
      if (v !== "") && (Some v !== previousValue p) then
        r ← parseTextToVariableNodes options s v (regex p);
        let '(paragraph, regex') := r in
        Ok {| doc := of_paragraph paragraph; value := value p; previousValue := Some v; regex := regex' |}
      else Ok p
  | None => Ok p
  end.

(** The form gives the field another value. *)
Definition value_set (v : option string) (p : prompt_state) : outcome prompt_state :=
  value_effect {| doc := doc p; value := v; previousValue := previousValue p; regex := regex p |}.

(** An update of the document that is not tagged: both listeners run, and
    the form renders the editor with the value it was given. *)
Definition updated (d : document) (dirty : bool) (p : prompt_state) : outcome prompt_state :=
  let text := document_text d in
  let p := {| doc := d; value := value p; previousValue := Some text; regex := regex p |} in
  if dirty
  then value_effect {| doc := doc p; value := Some text; previousValue := previousValue p; regex := regex p |}
  else Ok p.

Inductive prompt_step (p : prompt_state) : prompt_state → Prop :=
| step_value_set v p' : value_set v p = Ok p' → prompt_step p p'
| step_typed d p' : updated d true p = Ok p' → prompt_step p p'
| step_selection d p' : document_text d = document_text (doc p) → updated d false p = Ok p' → prompt_step p p'
| step_pasted text d p' : paste_command text (doc p) = Some d → updated d true p = Ok p' → prompt_step p p'
| step_enter shiftKey d p' : enter_command shiftKey (doc p) = Some d → updated d true p = Ok p' → prompt_step p p'
| step_chosen y removed p' : updated (onSelectOption y removed (doc p)) true p = Ok p' → prompt_step p p'.
End editing.

(** ** The texts on the canvas (variable-display.tsx) *)
Inductive display_element := TextSpan (t : string) | VariableLabel (label : val).

Definition display_match (getLabel : option (string → val)) (variableValue : string) : display_element :=
  let label := match getLabel with Some f => f variableValue | None => VNull end in
  if truthy label && (label !== VStr variableValue) then VariableLabel label
  else TextSpan (in_braces variableValue).

Definition VariableDisplay (content : string) (getLabel : option (string → val)) (regex : nat)
    : outcome (list display_element * nat) :=
  if content === "" then Ok ([], regex) else scan TextSpan (display_match getLabel) content regex [].

(** ** Prompts of the extractor (use-switch-prompt.ts) *)
Record switcher := {
  previousFieldNames : list string;
  field_name : string;
  sys_prompt : string;
  prompts : string;
  visible : bool
}.

(** [array.at(-2)] *)
Definition second_last (l : list string) : option string := if bool_decide (2 ≤ length l) then l !! (length l - 2) else None.

Definition useSwitchPrompt (name sys user : string) : switcher :=
  {| previousFieldNames := [name]; field_name := name; sys_prompt := sys; prompts := user; visible := false |}.

(** The select changes the field, then calls the handler. *)
Definition handleFieldNameChange (value : string) (w : switcher) : switcher :=
  if value === ""
  then {| previousFieldNames := previousFieldNames w; field_name := value; sys_prompt := sys_prompt w;
          prompts := prompts w; visible := visible w |}
  else
    let names := previousFieldNames w in
    let names := (if bool_decide (1 < length names) then tail names else names) ++ [value] in
    {| previousFieldNames := names; field_name := value; sys_prompt := sys_prompt w; prompts := prompts w;
       visible := true |}.

Definition hideModal (w : switcher) : switcher :=
  {| previousFieldNames := previousFieldNames w; field_name := field_name w; sys_prompt := sys_prompt w;
     prompts := prompts w; visible := false |}.

(** [t(`flow.prompts.${key}.${value}`)] is an argument; a button of the
    dialog also closes it. *)
Definition confirmSwitch (t : string → string → string) (w : switcher) : switcher :=
  hideModal {| previousFieldNames := previousFieldNames w; field_name := field_name w;
               sys_prompt := t "system" (field_name w); prompts := t "user" (field_name w); visible := visible w |}.

Definition cancelSwitch (w : switcher) : switcher :=
  hideModal match second_last (previousFieldNames w) with
            | Some previousValue =>
                {| previousFieldNames := previousFieldNames w;
                   field_name := if previousValue === "" then field_name w else previousValue;
                   sys_prompt := sys_prompt w; prompts := prompts w; visible := visible w |}
            | None => w
            end.

(** ** Lemmas on the scan *)
Definition plain (t : string) : Prop := count_char open_brace t = 0 ∧ count_char close_brace t = 0.

Lemma plain_cons c t : plain (String c t) ↔ c ≠ open_brace ∧ c ≠ close_brace ∧ plain t.
Proof. unfold plain. simpl. repeat case_bool_decide; naive_solver lia. Qed.

Lemma str_from_nil (t : string) : str_from (String.length t) t = "".
Proof. rewrite <- (str_app_nil_r t) at 2. apply str_from_app. Qed.

Lemma in_braces_app d r : in_braces d +:+ r = String open_brace (d +:+ String close_brace r).
Proof. unfold in_braces. by rewrite str_cons_app, str_app_assoc. Qed.

Lemma take_content_spec t d r : take_content t = (d, r) → t = d +:+ r ∧ plain d.
Proof.
  revert d. induction t as [|c t IH]; intros d; simpl; [by intros [= <- <-]|].
  destruct ((c === open_brace) || (c === close_brace)) eqn:Hc; [by intros [= <- <-]|].
  destruct (take_content t) as [d' r'] eqn:Ht. intros [= <- <-].
  destruct (IH _ eq_refl) as [-> Hp]. split; [done|]. apply plain_cons. reflect_bool. naive_solver.
Qed.

Lemma take_content_plain d r : plain d → take_content (d +:+ String close_brace r) = (d, String close_brace r).
Proof.
  induction d as [|c d IH]; intros Hd; [done|]. apply plain_cons in Hd as (H1 & H2 & Hd).
  rewrite str_cons_app. simpl. rewrite !bool_decide_false by done. simpl. by rewrite IH.
Qed.

Lemma match_reference_Some t d : match_reference t = Some d → ∃ post, t = in_braces d +:+ post ∧ plain d.
Proof.
  destruct t as [|c t]; [done|]. simpl. case_bool_decide as Hc; [subst c|done].
  destruct (take_content t) as [d' [|c' r]] eqn:Ht; [done|].
  case_bool_decide as Hc'; [subst c'|done]. intros [= <-].
  apply take_content_spec in Ht as [-> Hp]. exists r. by rewrite in_braces_app.
Qed.

Lemma match_reference_in_braces d post : plain d → match_reference (in_braces d +:+ post) = Some d.
Proof.
  intros Hd. rewrite in_braces_app. cbn [match_reference]. rewrite bool_decide_true by done.
  rewrite take_content_plain by done. by rewrite bool_decide_true.
Qed.

Lemma exec_from_cons c t i : exec_from (String c t) i =
  match match_reference (String c t) with Some d => Some (i, d) | None => exec_from t (S i) end.
Proof. done. Qed.

Lemma exec_reference_Some t i j d : exec_from t i = Some (j, d) →
  ∃ pre post, t = pre +:+ (in_braces d +:+ post) ∧ j = i + String.length pre.
Proof.
  revert i. induction t as [|c t IH]; intros i; [done|]. rewrite exec_from_cons.
  destruct (match_reference (String c t)) as [d'|] eqn:Hm.
  - intros [= <- <-]. apply match_reference_Some in Hm as (post & -> & _). exists "", post. simpl. split; [done|lia].
  - intros (pre & post & -> & ->)%IH. exists (String c pre), post. simpl. split; [done|lia].
Qed.

Lemma exec_from_plain t r i : plain t → exec_from (t +:+ r) i = exec_from r (i + String.length t).
Proof.
  revert i. induction t as [|c t IH]; intros i Ht; [by rewrite Nat.add_0_r|].
  apply plain_cons in Ht as (H1 & H2 & Ht). rewrite str_cons_app, exec_from_cons.
  cbn [match_reference]. rewrite bool_decide_false by done. rewrite IH by done. f_equal. simpl. lia.
Qed.

Lemma exec_from_in_braces d post i : plain d → exec_from (in_braces d +:+ post) i = Some (i, d).
Proof.
  intros Hd. pose proof (match_reference_in_braces d post Hd) as Hm.
  destruct (in_braces d +:+ post); [done|]. rewrite exec_from_cons. by rewrite Hm.
Qed.

Lemma exec_from_shift t i k : exec_from t (k + i) = (λ m, (k + m.1, m.2)) <$> exec_from t i.
Proof.
  revert i. induction t as [|c t IH]; intros i; [done|]. rewrite !exec_from_cons.
  destruct (match_reference (String c t)); [done|]. rewrite <- IH. f_equal. lia.
Qed.

Lemma exec_app a t : exec (String.length a) (a +:+ t) =
  match exec_from t 0 with
  | Some (j, d) => (Some (String.length a + j, d), String.length a + j + (String.length d + 2))
  | None => (None, 0)
  end.
Proof.
  unfold exec. rewrite bool_decide_false by (rewrite str_length_app; lia). rewrite str_from_app.
  pose proof (exec_from_shift t 0 (String.length a)) as H. rewrite Nat.add_0_r in H. rewrite H.
  by destruct (exec_from t 0) as [[j d]|].
Qed.

Lemma slice_app a m r : slice (String.length a) (String.length a + String.length m) (a +:+ (m +:+ r)) = m.
Proof.
  unfold slice. replace (String.length a + String.length m - String.length a) with (String.length m) by lia.
  induction a as [|c a IH]; [|done]. cbn [String.length].
  change ("" +:+ (m +:+ r)) with (m +:+ r).
  induction m as [|c m IH]; [by destruct r|]. rewrite str_cons_app. cbn [String.length String.substring]. by rewrite IH.
Qed.

Section scanned.
Context {A : Type} (literal : string → A) (matched : string → A).

Definition literals (t : string) : list A := if t === "" then [] else [literal t].

(** The pieces of a text: the text up to the first match, the match, and the
    pieces of the rest. *)
Inductive scanned : string → list A → Prop :=
| scanned_end t : exec_from t 0 = None → scanned t (literals t)
| scanned_match pre d post l :
    exec_from (pre +:+ (in_braces d +:+ post)) 0 = Some (String.length pre, d) →
    scanned post l →
    scanned (pre +:+ (in_braces d +:+ post)) (literals pre ++ matched d :: l).

Lemma scanned_total t : ∃ l, scanned t l.
Proof.
  remember (String.length t) as n eqn:Hn. revert t Hn.
  induction (lt_wf n) as [n _ IH]. intros t ->.
  destruct (exec_from t 0) as [[j d]|] eqn:He; [|eexists; by apply scanned_end].
  destruct (exec_reference_Some _ _ _ _ He) as (pre & post & -> & ->). simpl in He.
  destruct (IH (String.length post)) with (t := post) as [l Hl]; [|done|].
  - rewrite !str_length_app. unfold in_braces. simpl. lia.
  - eexists. by apply scanned_match.
Qed.

Lemma length_in_braces d : String.length (in_braces d) = String.length d + 2.
Proof. unfold in_braces. simpl. rewrite str_length_app. simpl. lia. Qed.

Lemma match_loop_scanned t l : scanned t l → ∀ a fuel out, String.length t < fuel →
  ∃ out' p, match_loop literal matched fuel (a +:+ t) (String.length a) (String.length a) out = Ok (out', p, 0) ∧
            (if bool_decide (p < String.length (a +:+ t)) then out' ++ [literal (str_from p (a +:+ t))] else out') = out ++ l.
Proof.
  induction 1 as [t He|pre d post l He Hs IH]; intros a [|fuel] out Hf; [lia| |lia|].
  - exists out, (String.length a). cbn [match_loop]. rewrite exec_app, He. split; [done|].
    rewrite str_from_app, str_length_app. unfold literals.
    destruct t as [|c t]; simpl; [rewrite bool_decide_false by lia; by rewrite app_nil_r|].
    by rewrite bool_decide_true by lia.
  - cbn [match_loop]. rewrite exec_app, He, slice_app.
    specialize (IH (a +:+ (pre +:+ in_braces d)) fuel
      ((if bool_decide (String.length a < String.length a + String.length pre) then out ++ [literal pre] else out) ++ [matched d])).
    destruct IH as (out' & p & Hloop & Hout). { rewrite !str_length_app, length_in_braces in Hf. lia. }
    exists out', p. rewrite !str_app_assoc in *.
    replace (String.length (a +:+ (pre +:+ in_braces d))) with
      (String.length a + String.length pre + (String.length d + 2)) in Hloop
      by (rewrite !str_length_app, length_in_braces; lia).
    split; [exact Hloop|]. rewrite Hout. unfold literals.
    destruct pre as [|c pre]; simpl.
    + rewrite bool_decide_false by lia. by rewrite <- app_assoc.
    + rewrite bool_decide_true by lia. by rewrite <- !app_assoc.
Qed.

(** The loop ends, the expression is left at the start, and the elements are
    the pieces of the text. *)
Lemma scan_scanned t l out : scanned t l → scan literal matched t 0 out = Ok (out ++ l, 0).
Proof.
  intros Hs. destruct (match_loop_scanned t l Hs "" (S (String.length t)) out) as (out' & p & Hl & Ho); [lia|].
  change ("" +:+ t) with t in Hl, Ho. cbn [String.length] in Hl. unfold scan. rewrite Hl.
  cbn [mbind outcome_bind]. by rewrite Ho.
Qed.
End scanned.

(** ** Texts of parsed prompts *)
Lemma nodes_text_nil : nodes_text [] = "".
Proof. done. Qed.

Lemma nodes_text_cons n ns : nodes_text (n :: ns) = getTextContent n +:+ nodes_text ns.
Proof. unfold nodes_text. simpl. destruct (map getTextContent ns); [by rewrite str_app_nil_r|done]. Qed.

Lemma nodes_text_app ns ns' : nodes_text (ns ++ ns') = nodes_text ns +:+ nodes_text ns'.
Proof. induction ns as [|n ns IH]; [done|]. cbn [app]. by rewrite !nodes_text_cons, IH, str_app_assoc. Qed.

(** The lines of a text, joined again. *)
Fixpoint join_lines (ls : list string) : string :=
  match ls with
  | [] => ""
  | [l] => l
  | l :: ls => l +:+ String newline (join_lines ls)
  end.

Lemma split_not_nil c t : js_split c t ≠ [].
Proof. destruct t as [|a t]; [done|]. simpl. case_bool_decide; [done|]. by destruct (js_split c t). Qed.

Lemma join_split t : join_lines (js_split newline t) = t.
Proof.
  induction t as [|a t IH]; [done|]. simpl. pose proof (split_not_nil newline t) as Hn.
  case_bool_decide as Ha; [subst a|]; destruct (js_split newline t) as [|h [|h' ls]]; try done.
  - by rewrite <- IH.
  - by rewrite <- IH.
  - simpl in *. by rewrite <- IH.
  - simpl in *. by rewrite <- IH.
Qed.

(** The nodes of lines with a line break between two of them. *)
Fixpoint with_breaks (lss : list (list lexical_node)) : list lexical_node :=
  match lss with
  | [] => []
  | [l] => l
  | l :: lss => l ++ LineBreakNode :: with_breaks lss
  end.

Section parse.
Context {L : Lodash} (options : list option_group) (s : RFState).

Abbreviation line_nodes := (scanned TextNode (reference_node options s)).

Lemma reference_text content : getTextContent (reference_node options s content) = in_braces content.
Proof. unfold reference_node. by destruct (findItemByValue options s content). Qed.

Lemma literals_text t : nodes_text (literals TextNode t) = t.
Proof. unfold literals. case_bool_decide; [by subst|done]. Qed.

Lemma scanned_text t l : line_nodes t l → nodes_text l = t.
Proof.
  induction 1 as [t _|pre d post l _ _ IH]; [apply literals_text|].
  by rewrite nodes_text_app, literals_text, nodes_text_cons, reference_text, IH.
Qed.

Lemma line_nodes_nil l : line_nodes "" l → l = [].
Proof.
  intros H. remember "" as t eqn:Ht. destruct H as [t _|pre d post l _ _]; [by subst|].
  destruct pre; done.
Qed.

Lemma parse_lines_spec total lines lss : Forall2 line_nodes lines lss → ∀ index par,
  total = index + length lines →
  parse_lines options s total index lines 0 par = Ok (par ++ with_breaks lss, 0).
Proof.
  induction 1 as [|line l lines lss Hl Hls IH]; intros index par Ht; simpl in *; [by rewrite app_nil_r|].
  assert ((if line === "" then Ok (par, 0) else parseLineContent options s line 0 par) = Ok (par ++ l, 0)) as ->.
  { case_bool_decide as Hq; [subst line; by rewrite (line_nodes_nil _ Hl), app_nil_r|].
    by apply scan_scanned. }
  cbn [mbind outcome_bind]. rewrite IH by lia.
  destruct Hls as [|line' l' lines lss Hl' Hls]; simpl in *.
  - rewrite bool_decide_false by lia. by rewrite app_nil_r.
  - rewrite bool_decide_true by lia. by rewrite <- !app_assoc.
Qed.

Lemma parse_nodes text lss : Forall2 line_nodes (js_split newline text) lss →
  parseTextToVariableNodes options s text 0 = Ok (with_breaks lss, 0).
Proof. intros H. by apply (parse_lines_spec _ _ _ H 0 []). Qed.

Lemma lines_total lines : ∃ lss, Forall2 line_nodes lines lss.
Proof.
  induction lines as [|t lines [lss IH]]; [by exists []|].
  destruct (scanned_total TextNode (reference_node options s) t) as [l Hl]. exists (l :: lss). by constructor.
Qed.

Lemma with_breaks_text lines lss : Forall2 line_nodes lines lss → nodes_text (with_breaks lss) = join_lines lines.
Proof.
  induction 1 as [|t l lines lss Hl Hls IH]; [done|].
  destruct Hls as [|t' l' lines lss Hl' Hls]; [by apply scanned_text|].
  cbn [with_breaks] in *. rewrite nodes_text_app, nodes_text_cons, (scanned_text _ _ Hl), IH. done.
Qed.

(** A prompt is shown as nodes whose text is the prompt, character by
    character, whatever references it holds and whether or not they can be
    resolved; the loop over the matches of the shared expression ends and
    leaves the expression at its start. *)
Lemma parsed_text text : ∃ nodes,
  parseTextToVariableNodes options s text 0 = Ok (nodes, 0) ∧ nodes_text nodes = text.
Proof.
  destruct (lines_total (js_split newline text)) as [lss Hl]. exists (with_breaks lss).
  split; [by apply parse_nodes|]. by rewrite (with_breaks_text _ _ Hl), join_split.
Qed.

(** A line as the editor leaves it: texts without braces between references
    to variables that can be resolved, no two texts in a row. *)
Definition word (t : string) : Prop := plain t ∧ count_char newline t = 0.

Inductive clean_line : list lexical_node → Prop :=
| clean_nil : clean_line []
| clean_text t : t ≠ "" → word t → clean_line [TextNode t]
| clean_reference v l : word v → is_Some (findItemByValue options s v) → clean_line l →
    clean_line (reference_node options s v :: l)
| clean_both t v l : t ≠ "" → word t → word v → is_Some (findItemByValue options s v) → clean_line l →
    clean_line (TextNode t :: reference_node options s v :: l).

Inductive clean : list lexical_node → Prop :=
| clean_last l : clean_line l → clean l
| clean_break l d : clean_line l → clean d → clean (l ++ LineBreakNode :: d).

Lemma scanned_word t : word t → exec_from t 0 = None.
Proof. intros [Hp _]. rewrite <- (str_app_nil_r t). by rewrite exec_from_plain. Qed.

Lemma scanned_reference pre v post l : word pre → word v → line_nodes post l →
  line_nodes (pre +:+ (in_braces v +:+ post)) (literals TextNode pre ++ reference_node options s v :: l).
Proof.
  intros [Hpre _] [Hv _] Hl. apply scanned_match; [|done].
  rewrite exec_from_plain, exec_from_in_braces by done. done.
Qed.

Lemma literals_cons t : t ≠ "" → literals TextNode t = [TextNode t].
Proof. intros H. unfold literals. by rewrite bool_decide_false. Qed.

Lemma word_braces_newline v : word v → count_char newline (in_braces v) = 0.
Proof. intros [_ H]. unfold in_braces. simpl. rewrite count_char_app, H. done. Qed.

Lemma clean_line_scanned l : clean_line l → line_nodes (nodes_text l) l ∧ count_char newline (nodes_text l) = 0.
Proof.
  induction 1 as [|t Ht Hw|v l Hv _ _ [IH IHn]|t v l Ht Hw Hv _ _ [IH IHn]].
  - split; [by apply (scanned_end _ _ "")|done].
  - pose proof (scanned_end TextNode (reference_node options s) t (scanned_word t Hw)) as Hs.
    rewrite literals_cons in Hs by done. split; [done|apply Hw].
  - rewrite nodes_text_cons, reference_text. split; [|by rewrite count_char_app, word_braces_newline, IHn].
    by apply (scanned_reference "").
  - rewrite !nodes_text_cons, reference_text. simpl getTextContent. split.
    + pose proof (scanned_reference t v (nodes_text l) l Hw Hv IH) as Hs. by rewrite literals_cons in Hs.
    + by rewrite !count_char_app, word_braces_newline, IHn, (proj2 Hw).
Qed.

Lemma clean_lines d : clean d → ∃ lss, Forall2 line_nodes (js_split newline (nodes_text d)) lss ∧ with_breaks lss = d.
Proof.
  induction 1 as [l [Hl Hn]%clean_line_scanned|l d [Hl Hn]%clean_line_scanned _ (lss & Hlss & Hd)].
  - exists [l]. rewrite js_split_no_sep by done. split; [by repeat constructor|done].
  - exists (l :: lss). rewrite nodes_text_app, nodes_text_cons. simpl getTextContent.
    rewrite str_cons_app. change ("" +:+ nodes_text d) with (nodes_text d). rewrite js_split_app by done.
    split; [by constructor|]. subst d. destruct lss; [|done].
    inversion Hlss.
Qed.

(** C37: Every prompt text can be opened, and the nodes it opens as are saved
    as the same text.  A prompt of references to variables that can be
    resolved, line breaks and texts without braces, never two texts in a row,
    is saved as a text that opens as the very same nodes: every reference is
    shown with the label of its variable again. *)
Theorem prompt_reopened :
  (∀ text, ∃ nodes, parseTextToVariableNodes options s text 0 = Ok (nodes, 0) ∧ nodes_text nodes = text) ∧
  (∀ d, clean d → parseTextToVariableNodes options s (nodes_text d) 0 = Ok (d, 0)).
Proof.
  split; [exact parsed_text|]. intros d (lss & Hl & <-)%clean_lines. rewrite (parse_nodes _ _ Hl). done.
Qed.
End parse.

(** ** The menu *)
Lemma trigger_body_Some l q : trigger_body l = Some q ↔ l = slash :: q ∧ js_every query_char q = true.
Proof.
  destruct l as [|c l]; [naive_solver|]. simpl. case_bool_decide as Hc; simpl; [subst c|naive_solver].
  destruct (js_every query_char l) eqn:Hq; split; [by intros [= <-]|by intros [[= ->] H]|done|intros [[= ->] H]; congruence].
Qed.

Definition before_query (pre : list ascii) : Prop := pre = [] ∨ ∃ c, last pre = Some c ∧ (is_space c = true ∨ c = "("%char).

Lemma before_query_cons c pre : pre ≠ [] → before_query (c :: pre) ↔ before_query pre.
Proof. destruct pre; [done|]. intros _. unfold before_query. cbn [last]. naive_solver. Qed.

Lemma query_no_slash q : js_every query_char q = true → slash ∉ q.
Proof. intros H Hin. apply forallb_forall with (x := slash) in H; [done|]. by apply list_elem_of_In. Qed.

Lemma trigger_at_Some start l w q : trigger_at start l = Some (w, q) ↔
  js_every query_char q = true ∧
  ((start = true ∧ w = 0 ∧ l = slash :: q) ∨
   (w = 1 ∧ ∃ c, l = c :: slash :: q ∧ (is_space c = true ∨ c = "("%char))).
Proof.
  unfold trigger_at. destruct (if start then trigger_body l else None) as [q'|] eqn:Hs.
  - destruct start; [|done]. apply trigger_body_Some in Hs as [-> Hq]. split; [naive_solver|].
    intros [Hq' [(_ & -> & [= ->])|(-> & c & [= <- ->] & Hc)]]; [done|]. by destruct Hc.
  - assert (∀ q', start = true → js_every query_char q' = true → l ≠ slash :: q') as Hno.
    { intros q' -> Hq' ->. by rewrite (proj2 (trigger_body_Some _ _) (conj eq_refl Hq')) in Hs. }
    destruct l as [|c l]; [naive_solver|].
    destruct (is_space c || (c === "("%char)) eqn:Hc.
    + destruct (trigger_body l) as [q'|] eqn:Hb; simpl.
      * apply trigger_body_Some in Hb as [-> Hq']. apply orb_true_iff in Hc.
        rewrite bool_decide_eq_true in Hc. naive_solver.
      * split; [done|]. intros [Hq [(? & _ & ?)|(_ & c' & [= -> ->] & _)]]; [naive_solver|].
        by rewrite (proj2 (trigger_body_Some _ _) (conj eq_refl Hq)) in Hb.
    + reflect_bool. split; [done|]. intros [Hq [(? & _ & ?)|(_ & c' & [= -> ->] & Hc')]]; [naive_solver|].
      destruct Hc'; congruence.
Qed.

Lemma last_slash pre pre' q q' : slash ∉ q → slash ∉ q' → pre ++ slash :: q = pre' ++ slash :: q' → pre = pre' ∧ q = q'.
Proof.
  intros Hq Hq'. revert pre'. induction pre as [|c pre IH]; intros [|c' pre'] Heq; simpl in Heq; simplify_eq; try done.
  - exfalso. apply Hq. set_solver.
  - exfalso. apply Hq'. set_solver.
  - by destruct (IH pre') as [-> ->].
Qed.

Lemma trigger_from_Some start index l k q : trigger_from start index l = Some (k, q) ↔
  ∃ pre, l = pre ++ slash :: q ∧ k = index + length pre ∧ js_every query_char q = true ∧
         before_query pre ∧ (start = true ∨ pre ≠ []).
Proof.
  revert start index. induction l as [|c l IH]; intros start index.
  { simpl. destruct start; simpl; split; try done; intros (pre & H & _); by destruct pre. }
  cbn [trigger_from]. destruct (trigger_at start (c :: l)) as [[w q']|] eqn:Ha.
  - apply trigger_at_Some in Ha as [Hq' Hat].
    assert (∃ pre', c :: l = pre' ++ slash :: q' ∧ w = length pre' ∧ before_query pre' ∧ (start = true ∨ pre' ≠ []))
      as (pre' & Hl' & Hw & Hb' & Hst').
    { destruct Hat as [(-> & -> & Hl')|(-> & c' & Hl' & Hc)].
      - exists []. unfold before_query. naive_solver.
      - exists [c']. unfold before_query. naive_solver. }
    split; [intros [= <- <-]; exists pre'; naive_solver|].
    intros (pre & Hl & -> & Hq & _). rewrite Hl in Hl'.
    apply last_slash in Hl' as [-> ->]; [by rewrite Hw|by apply query_no_slash..].
  - rewrite IH. split.
    + intros (pre & -> & -> & Hq & Hb & [?|Hne]); [done|]. exists (c :: pre).
      rewrite before_query_cons by done. simpl. naive_solver lia.
    + intros (pre & Hl & -> & Hq & Hb & Hst).
      assert (trigger_at start (c :: l) ≠ Some (length pre, q)) as Hno by congruence.
      rewrite trigger_at_Some in Hno. destruct pre as [|c' [|c'' pre]]; simpl in Hl; simplify_eq.
      * exfalso. apply Hno. split; [done|]. left. naive_solver.
      * exfalso. apply Hno. split; [done|]. right. split; [done|]. exists c'. unfold before_query in Hb. naive_solver.
      * exists (c'' :: pre). rewrite before_query_cons in Hb by done. simpl. naive_solver lia.
Qed.

(** The menu opens exactly when the text before the cursor ends in a slash,
    at the start or after white space or an opening parenthesis, and a word
    without white space, slashes and parentheses; that word is the query. *)
Theorem trigger_exact text m : testTriggerFn text = Some m ↔
  ∃ pre q, String.list_ascii_of_string text = pre ++ slash :: q ∧ before_query pre ∧ js_every query_char q = true ∧
    m = {| leadOffset := length pre; matchingString := String.string_of_list_ascii q;
           replaceableString := String slash (String.string_of_list_ascii q) |}.
Proof.
  unfold testTriggerFn. destruct (trigger_from true 0 (String.list_ascii_of_string text)) as [[k q]|] eqn:Ht.
  - pose proof Ht as (pre & Hl & -> & Hq & Hb & _)%trigger_from_Some. split.
    + intros [= <-]. by exists pre, q.
    + intros (pre' & q' & Hl' & Hb' & Hq' & ->). rewrite Hl in Hl'.
      apply last_slash in Hl' as [-> ->]; [done|by apply query_no_slash..].
  - split; [done|]. intros (pre & q & Hl & Hb & Hq & _).
    assert (trigger_from true 0 (String.list_ascii_of_string text) = Some (length pre, q)); [|congruence].
    apply trigger_from_Some. exists pre. naive_solver.
Qed.

Definition text_label (y : VariableOption) : Prop := ∃ l, vo_label y = VStr l.

(** What the search looks in, of an option whose label is a text. *)
Definition found (queryString : string) (y : VariableOption) : bool :=
  (queryString === "") ||
  let parent := match vo_parentLabel y with VStr p => to_lower p +:+ "." | _ => "" end in
  let label := match vo_label y with VStr l => to_lower l | _ => "" end in
  str_includes queryString (parent +:+ label) || str_includes queryString (parent +:+ to_lower (vo_value y)).

Lemma matches_found q y : text_label y → matches_query q y = Ok (found q y).
Proof.
  intros [l Hl]. unfold matches_query, found. rewrite Hl. by case_bool_decide.
Qed.

Lemma filter_query_found q ys : Forall text_label ys → filter_query q ys = Ok (js_filter (found q) ys).
Proof.
  induction 1 as [|y ys Hy _ IH]; [done|]. cbn [filter_query]. rewrite matches_found by done.
  cbn [mbind outcome_bind]. rewrite IH. cbn [mbind outcome_bind]. by rewrite js_filter_cons.
Qed.

Lemma filter_groups_found q gs : Forall (λ g, Forall text_label (vg_options g)) gs →
  filter_groups q gs =
    Ok (map (λ g, {| vg_label := vg_label g; vg_options := js_filter (found q) (vg_options g) |}) gs).
Proof.
  induction 1 as [|g gs Hg _ IH]; [done|]. cbn [filter_groups map]. rewrite filter_query_found by done.
  cbn [mbind outcome_bind]. by rewrite IH.
Qed.

Lemma join_nonempty (gs : list VariableOptionGroup) :
  mjoin (map vg_options (js_filter (λ g, negb (length (vg_options g) === 0)) gs)) = mjoin (map vg_options gs).
Proof.
  induction gs as [|g gs IH]; [done|]. rewrite js_filter_cons. simpl. case_bool_decide as Hl; simpl; rewrite IH; [|done].
  by apply nil_length_inv in Hl as ->.
Qed.

Lemma join_filter q (gs : list VariableOptionGroup) :
  mjoin (map vg_options (map (λ g, {| vg_label := vg_label g; vg_options := js_filter (found q) (vg_options g) |}) gs)) =
  js_filter (found q) (mjoin (map vg_options gs)).
Proof. induction gs as [|g gs IH]; [done|]. simpl. by rewrite js_filter_app, IH. Qed.

(** The menu lists, group by group and in their order, the options the query
    is found in, and no empty group. *)
Theorem menu_exact q options extra :
  Forall (λ g, Forall text_label (vg_options g)) (map to_variable_group options ++ extra) →
  ∃ treeified, unifiedOptions q options extra =
      Ok (treeified, js_filter (found q) (mjoin (map vg_options (map to_variable_group options ++ extra)))) ∧
    Forall (λ g, vg_options g ≠ []) treeified ∧
    mjoin (map vg_options treeified) = js_filter (found q) (mjoin (map vg_options (map to_variable_group options ++ extra))).
Proof.
  intros H. unfold unifiedOptions. rewrite filter_groups_found by done. cbn [mbind outcome_bind].
  rewrite join_nonempty, join_filter. eexists. split; [done|]. rewrite join_nonempty, join_filter. split; [|done].
  apply Forall_forall. intros g [Hg _]%elem_of_js_filter. reflect_bool. intros He. by rewrite He in Hg.
Qed.

(** ** Typing, pasting and choosing *)
Section commands_text.
Context `{LexicalLaws}.

Lemma paste_lines_text lines : ∀ index nodes total, total = index + length lines →
  nodes_text (paste_lines total index lines nodes) = nodes_text nodes +:+ join_lines lines.
Proof.
  induction lines as [|l lines IH]; intros index nodes total Ht; simpl in *; [by rewrite str_app_nil_r|].
  rewrite IH by lia.
  assert (nodes_text (if l === "" then nodes else nodes ++ [TextNode l]) = nodes_text nodes +:+ l) as Hn.
  { case_bool_decide; [subst l; by rewrite str_app_nil_r|by rewrite nodes_text_app]. }
  destruct lines as [|l' lines]; simpl in *.
  - rewrite bool_decide_false by lia. by rewrite str_app_nil_r.
  - rewrite bool_decide_true by lia. rewrite nodes_text_app, Hn, !str_app_assoc. done.
Qed.

Lemma pasted_text text : nodes_text (pasted_nodes text) = text.
Proof. unfold pasted_nodes. rewrite paste_lines_text by done. apply join_split. Qed.

(** A text pasted with its lines replaces the selection. *)
Theorem paste_exact text d d' b i a : range d = Some (b, i, a) → paste_command text d = Some d' →
  document_text d' = b +:+ (text +:+ a).
Proof.
  intros Hr. unfold paste_command. rewrite Hr. case_bool_decide; [done|].
  destruct (str_includes _ text); [|done]. intros [= <-]. by rewrite (insert_nodes_text _ _ _ _ _ Hr), pasted_text.
Qed.

(** Enter puts one line feed in the text. *)
Theorem enter_exact d d' b i a : range d = Some (b, i, a) → enter_command false d = Some d' →
  document_text d' = b +:+ String newline a.
Proof. intros Hr. unfold enter_command. rewrite Hr. intros [= <-]. by rewrite (insert_nodes_text _ _ _ _ _ Hr). Qed.

(** A prompt of the framework is inserted as a reference, in braces: its
    option has no parent's label, so the branch that inserts it as a text is
    not taken. *)
Theorem framework_prompt_braced prompts has gs g y d removed b i a :
  useBuildPromptExtraPromptOptions prompts has = Ok gs → g ∈ gs → y ∈ vg_options g →
  range d ≠ None → range removed = Some (b, i, a) →
  document_text (onSelectOption y removed d) = b +:+ (in_braces (vo_value y) +:+ a).
Proof.
  intros Hgs Hg Hy Hd Hr. unfold useBuildPromptExtraPromptOptions in Hgs.
  destruct (entries_of _) as [es| |]; [|done..]. injection Hgs as <-. apply list_elem_of_singleton in Hg as ->.
  apply elem_of_js_filter in Hy as [_ (kv & -> & _)%list_elem_of_fmap].
  unfold onSelectOption. destruct (range d); [|done]. cbn [framework_option vo_parentLabel].
  rewrite bool_decide_false by done. by rewrite (insert_nodes_text _ _ _ _ _ Hr).
Qed.
End commands_text.

Section editing_invariant.
Context {L : Lodash} `{LexicalLaws} (options : list option_group) (s : RFState).

(** What the editor takes for its text is its text, a value that is not
    empty is taken for it, and the expression stands at its start. *)
Record prompt_ok (p : prompt_state) : Prop := {
  ok_text t : previousValue p = Some t → document_text (doc p) = t;
  ok_value v : value p = Some v → v ≠ "" → previousValue p = Some v;
  ok_regex : regex p = 0
}.

Lemma value_effect_total p : regex p = 0 → (∀ t, previousValue p = Some t → document_text (doc p) = t) →
  ∃ p', value_effect options s p = Ok p' ∧ prompt_ok p' ∧ value p' = value p ∧
    (previousValue p = value p → p' = p).
Proof.
  intros Hr Ht. unfold value_effect. destruct (value p) as [v|] eqn:Hv.
  - destruct ((v !== "") && (Some v !== previousValue p)) eqn:Hc.
    + destruct (parsed_text options s v) as (nodes & Hn & Htext). rewrite Hr, Hn. cbn [mbind outcome_bind].
      eexists. split; [done|]. split; [|split; [done|]].
      * split; simpl; [|intros w; by intros [= <-]|done].
        intros t [= <-]. by rewrite of_paragraph_text.
      * intros He. reflect_bool. congruence.
    + exists p. split; [done|]. split; [|done]. split; [done| |done].
      intros w Hw Hne. rewrite Hv in Hw. injection Hw as <-. apply andb_false_iff in Hc as [Hc|Hc]; reflect_bool; done.
  - exists p. split; [done|]. split; [|done]. split; [done|congruence|done].
Qed.

Lemma updated_total d dirty p : prompt_ok p → (dirty = false → document_text d = document_text (doc p)) →
  ∃ p', updated options s d dirty p = Ok p' ∧ prompt_ok p' ∧ doc p' = d.
Proof.
  intros Hp Hd. unfold updated. destruct dirty.
  - destruct (value_effect_total
      {| doc := d; value := Some (document_text d); previousValue := Some (document_text d); regex := regex p |})
      as (p' & He & Hok & _ & Hsame); [apply Hp|by intros t [= <-]|].
    exists p'. simpl. rewrite He. rewrite (Hsame eq_refl) in *. done.
  - eexists. split; [done|]. split; [|done]. split; simpl; [by intros t [= <-]| |apply Hp].
    intros v Hv Hne. rewrite (Hd eq_refl). f_equal. apply (ok_text _ Hp), (ok_value _ Hp); done.
Qed.

Lemma updated_ok d dirty p p' : prompt_ok p → (dirty = false → document_text d = document_text (doc p)) →
  updated options s d dirty p = Ok p' → prompt_ok p'.
Proof. intros Hp Hd Hu. destruct (updated_total d dirty p Hp Hd) as (p'' & Hu' & Hok & _). congruence. Qed.

Lemma prompt_step_ok p p' : prompt_ok p → prompt_step options s p p' → prompt_ok p'.
Proof.
  intros Hp [v p'' Hv|d p'' Hu|d p'' Hd Hu|text d p'' _ Hu|k d p'' _ Hu|y r p'' Hu].
  2-6: by eapply updated_ok; [done| |done].
  destruct (value_effect_total {| doc := doc p; value := v; previousValue := previousValue p; regex := regex p |})
    as (q & He & Hok & _); [apply Hp|apply Hp|]. unfold value_set in Hv. congruence.
Qed.

(** However the form and the user take turns, the editor shows the
    value of the field whenever that is not empty, and the expression that
    all editors share is back at its start. *)
Theorem prompt_reachable d0 p : rtc (prompt_step options s) {| doc := d0; value := None; previousValue := None; regex := 0 |} p →
  regex p = 0 ∧ ∀ v, value p = Some v → v ≠ "" → document_text (doc p) = v.
Proof.
  intros Hr. assert (prompt_ok p) as Hp.
  { remember {| doc := d0; value := None; previousValue := None; regex := 0 |} as p0 eqn:Hp0.
    assert (prompt_ok p0) as Hp0' by (subst; by split). clear Hp0.
    induction Hr; [done|]. eauto using prompt_step_ok. }
  split; [apply Hp|]. intros v Hv Hne. by apply (ok_text _ Hp), (ok_value _ Hp).
Qed.

(** The user's own change comes back as the value of the field and leaves
    the document (and the cursor in it) alone. *)
Theorem own_change_kept d p : prompt_ok p →
  ∃ p', updated options s d true p = Ok p' ∧ doc p' = d ∧ value p' = Some (document_text d).
Proof.
  intros Hp. unfold updated. simpl.
  destruct (value_effect_total
      {| doc := d; value := Some (document_text d); previousValue := Some (document_text d); regex := regex p |})
      as (p' & He & _ & Hv & Hsame); [apply Hp|by intros t [= <-]|].
  exists p'. rewrite (Hsame eq_refl) in *. done.
Qed.

(** A value the form sets is parsed and shown; an empty one is ignored, and
    the text that was there stays. *)
Theorem cleared_outside p : value_set options s (Some "") p =
  Ok {| doc := doc p; value := Some ""; previousValue := previousValue p; regex := regex p |}.
Proof. done. Qed.
End editing_invariant.

(** ** Texts on the canvas *)
Definition span_text (e : display_element) : string := match e with TextSpan t => t | VariableLabel _ => "" end.

Lemma display_scanned getLabel content l : content ≠ "" → scanned TextSpan (display_match getLabel) content l →
  VariableDisplay content getLabel 0 = Ok (l, 0).
Proof. intros Hc Hs. unfold VariableDisplay. rewrite bool_decide_false by done. by apply (scan_scanned _ _ _ _ []). Qed.

(** Where no reference has a label the text is shown as it is. *)
Theorem display_plain getLabel content : (∀ v, display_match getLabel v = TextSpan (in_braces v)) →
  ∃ l, VariableDisplay content getLabel 0 = Ok (l, 0) ∧ String.concat "" (map span_text l) = content.
Proof.
  intros Hg. destruct (decide (content = "")) as [->|Hne]; [by exists []|].
  destruct (scanned_total TextSpan (display_match getLabel) content) as [l Hl]. exists l.
  split; [by apply display_scanned|]. clear Hne.
  assert (∀ x xs, String.concat "" (map span_text (x :: xs)) = span_text x +:+ String.concat "" (map span_text xs)) as Hcons.
  { intros x xs. simpl. destruct (map span_text xs); [by rewrite str_app_nil_r|done]. }
  induction Hl as [t _|pre d post l _ _ IH]; unfold literals.
  - by case_bool_decide; subst.
  - case_bool_decide as Hp; [subst pre|]; simpl app; rewrite !Hcons, Hg, IH; done.
Qed.

(** ** Prompts of the extractor *)

(** Choosing another field and cancelling brings the field back. *)
Theorem cancel_restores name sys user value : name ≠ "" → value ≠ "" →
  let w := cancelSwitch (handleFieldNameChange value (useSwitchPrompt name sys user)) in
  field_name w = name ∧ sys_prompt w = sys ∧ prompts w = user ∧ visible w = false.
Proof.
  intros Hn Hv. unfold handleFieldNameChange. rewrite bool_decide_false by done. simpl.
  unfold cancelSwitch. simpl. by rewrite bool_decide_false.
Qed.

(** The names are not taken back: cancelling a second choice brings back the
    first, which had been cancelled. *)
Theorem second_cancel_restores_cancelled name sys user v1 v2 : name ≠ "" → v1 ≠ "" → v2 ≠ "" →
  field_name (cancelSwitch (handleFieldNameChange v2 (cancelSwitch (handleFieldNameChange v1 (useSwitchPrompt name sys user))))) = v1.
Proof.
  intros Hn H1 H2. unfold handleFieldNameChange. rewrite !(bool_decide_false (_ = "")) by done. simpl.
  unfold cancelSwitch. simpl. by rewrite !bool_decide_false.
Qed.

(** ** Concrete editors *)
Module Small.
(** A document is the text before the selection, in it and after it. *)
#[local] Instance Lexical_small : Lexical := {|
  document := string * string * string;
  document_text d := d.1.1 +:+ (d.1.2 +:+ d.2);
  of_paragraph ns := (nodes_text ns, "", "");
  range d := Some d;
  insert_nodes ns d := (d.1.1 +:+ nodes_text ns, "", d.2);
  insert_text t d := (d.1.1 +:+ t, "", d.2)
|}.

#[local] Instance LexicalLaws_small : LexicalLaws.
Proof.
  split; cbn.
  - intros ns. by rewrite !str_app_nil_r.
  - by intros d b i a [= ->].
  - intros ns d b i a [= ->]. simpl. by rewrite str_app_assoc.
  - intros t d b i a [= ->]. simpl. by rewrite str_app_assoc.
Qed.

Definition store : RFState :=
  {| nodes := []; edges := []; selectedNodeIds := []; selectedEdgeIds := []; clickedNodeId := None; clickedToolId := None |}.

Definition options : list option_group :=
  [{| g_label := "Begin"; g_options := [{| o_label := VStr "query"; o_value := "sys.query"; o_parentLabel := "Begin"; o_type := VStr "string" |}] |}].

Definition hello : list lexical_node :=
  [TextNode "Hello "; VariableNode "sys.query" (VStr "query") (VStr "Begin"); LineBreakNode; LineBreakNode; TextNode "bye"].
Definition empty_doc : document := ("", "", "").

Definition empty_editor : prompt_state :=
  {| doc := empty_doc; value := None; previousValue := None; regex := 0 |}.

Definition opened : prompt_state :=
  {| doc := ("Hello {sys.query}", "", ""); value := Some "Hello {sys.query}";
     previousValue := Some "Hello {sys.query}"; regex := 0 |}.

Definition pasted : prompt_state :=
  let text := "Hello {sys.query}a" +:+ String newline "b{" in
  {| doc := (text, "", ""); value := Some text; previousValue := Some text; regex := 0 |}.

Lemma opened_step : prompt_step options store empty_editor opened.
Proof. apply (step_value_set _ _ _ (Some "Hello {sys.query}")). by vm_compute. Qed.

Lemma pasted_step : prompt_step options store opened pasted.
Proof. apply (step_pasted _ _ _ ("a" +:+ String newline "b{") (doc pasted)); by vm_compute. Qed.
End Small.

#[local] Existing Instances Small.Lexical_small Small.LexicalLaws_small.

Lemma prompt_reopened_witness :
  parseTextToVariableNodes Small.options Small.store (nodes_text Small.hello) 0 = Ok (Small.hello, 0).
Proof.
  apply (proj2 (prompt_reopened Small.options Small.store)).
  apply (clean_break _ _ [TextNode "Hello "; reference_node Small.options Small.store "sys.query"]).
  - apply clean_both; [done|by repeat split|by repeat split|by eexists|constructor].
  - apply (clean_break _ _ []); [constructor|]. apply clean_last, clean_text; [done|by repeat split].
Defined.

(** A reference typed by hand opens as the variable it names, and a text with
    braces as several nodes. *)
Lemma typed_reference_opens_as_variable :
  parseTextToVariableNodes Small.options Small.store (nodes_text [TextNode "{sys.query}"]) 0 =
    Ok ([reference_node Small.options Small.store "sys.query"], 0).
Proof. vm_compute. reflexivity. Qed.

Lemma braces_split_text :
  parseTextToVariableNodes Small.options Small.store (nodes_text [TextNode "Return {a} now"]) 0 =
    Ok ([TextNode "Return "; TextNode "{a}"; TextNode " now"], 0).
Proof. vm_compute. reflexivity. Qed.

Lemma prompt_reachable_witness :
  regex Small.pasted = 0 ∧ ∀ v, value Small.pasted = Some v → v ≠ "" → document_text (doc Small.pasted) = v.
Proof.
  apply (prompt_reachable Small.options Small.store Small.empty_doc).
  eapply rtc_l; [apply Small.opened_step|]. eapply rtc_l; [apply Small.pasted_step|apply rtc_refl].
Defined.
