(* ===== verification/Scan.v ===== *)
(** * Scanned directories on the server

    api/db/services/scanned_directory_service.py, the routes of
    api/apps/document_app.py for scanned directories and the scheduler of
    api/apps/scan_scheduler.py: a knowledge base keeps one document for every
    supported file of the directories it watches, and a scan brings the
    documents back in line with the files.

    A call of another service may raise: which calls do is an argument.  The
    file system is read once per scan and the clock is an argument.  Texts of
    messages and logs are left out. *)
From S2P Require Import Prelude JsValue Libs.
From Stdlib Require Import Ascii.
Open Scope list_scope.
Open Scope nat_scope.
Open Scope js_scope.

(** ** Tables *)
Record knowledgebase := {
  kb_id : string;
  kb_tenant_id : string;
  kb_parser_id : string;
  kb_pipeline_id : option string;
  kb_parser_config : val;
  kb_doc_num : Z
}.

Record scanned_directory := {
  sd_id : string;
  sd_kb_id : string;
  sd_directory_path : string;
  sd_scan_interval_minutes : Z;
  sd_last_scan_time : option Z;   (* microseconds *)
  sd_created_by : string;
  sd_created_at : Z
}.

Record document := {
  d_id : string;
  d_kb_id : string;
  d_parser_id : string;
  d_pipeline_id : option string;
  d_parser_config : val;
  d_created_by : string;
  d_type : string;
  d_name : string;
  d_source_type : string;
  d_suffix : string;
  d_location : string;            (* empty for a document without one *)
  d_size : Z;
  d_content_hash : string;
  d_run : string
}.

Record file_row := {
  fr_id : string;
  fr_parent_id : string;
  fr_tenant_id : string;
  fr_created_by : string;
  fr_name : string;
  fr_location : string;
  fr_size : Z;
  fr_type : string
}.

(** The tables, the links of documents to files by their common identifier,
    the tasks given to the parser with their priority, and the number of
    identifiers drawn. *)
Record database := {
  kbs : list knowledgebase;
  dirs : list scanned_directory;
  docs : list document;
  file_rows : list file_row;
  links : list string;
  tasks : list (string * Z);
  drawn : nat
}.

Definition with_kbs x db := {| kbs := x; dirs := dirs db; docs := docs db; file_rows := file_rows db;
  links := links db; tasks := tasks db; drawn := drawn db |}.
Definition with_dirs x db := {| kbs := kbs db; dirs := x; docs := docs db; file_rows := file_rows db;
  links := links db; tasks := tasks db; drawn := drawn db |}.
Definition with_docs x db := {| kbs := kbs db; dirs := dirs db; docs := x; file_rows := file_rows db;
  links := links db; tasks := tasks db; drawn := drawn db |}.
Definition with_file_rows x db := {| kbs := kbs db; dirs := dirs db; docs := docs db; file_rows := x;
  links := links db; tasks := tasks db; drawn := drawn db |}.
Definition with_links x db := {| kbs := kbs db; dirs := dirs db; docs := docs db; file_rows := file_rows db;
  links := x; tasks := tasks db; drawn := drawn db |}.
Definition with_tasks x db := {| kbs := kbs db; dirs := dirs db; docs := docs db; file_rows := file_rows db;
  links := links db; tasks := x; drawn := drawn db |}.
Definition with_drawn x db := {| kbs := kbs db; dirs := dirs db; docs := docs db; file_rows := file_rows db;
  links := links db; tasks := tasks db; drawn := x |}.

(** The calls that may raise. *)
Inductive call :=
| DeleteLinks (id : string) | DeleteFileRow (id : string) | GetTenant (id : string) | RemoveDocument (id : string)
| SaveDocument (path : string) | IncreaseDocNum (path : string) | GetKbFolder (path : string)
| InsertFileRow (path : string) | InsertLink (path : string) | RunDocument (path : string).

(** ** Names of files *)
Definition slash : ascii := "/"%char.
Definition dot : ascii := "."%char.
Definition newline : ascii := ascii_of_nat 10.

Definition ends_with (p s : string) : bool :=
  bool_decide (String.length p ≤ String.length s) && (slice_last (String.length p) s === p).

Definition has_extension (exts : list string) (s : string) : bool := js_some (λ e, ends_with (String dot e) s) exts.

(** [re.match(r".*\.(a|b)$", s)]: [.] matches no line feed, [$] matches before
    a last one. *)
Definition match_extension (exts : list string) (s : string) : bool :=
  let body := if ends_with (String newline "") s then String.substring 0 (String.length s - 1) s else s in
  (count_char newline body === 0) && has_extension exts body.

Definition PDF_EXTENSIONS : list string := ["pdf"].

Definition DOC_EXTENSIONS : list string :=
  ["msg"; "eml"; "doc"; "docx"; "ppt"; "pptx"; "yml"; "xml"; "htm"; "json"; "jsonl"; "ldjson"; "csv"; "txt"; "ini";
   "xls"; "xlsx"; "wps"; "rtf"; "hlp"; "pages"; "numbers"; "key"; "md"; "py"; "js"; "java"; "c"; "cpp"; "h"; "php";
   "go"; "ts"; "sh"; "cs"; "kt"; "html"; "sql"].

Definition AURAL_EXTENSIONS : list string := ["wav"; "flac"; "ape"; "alac"; "wv"; "mp3"; "aac"; "ogg"; "vorbis"; "opus"].

Definition VISUAL_EXTENSIONS : list string :=
  ["jpg"; "jpeg"; "png"; "tif"; "gif"; "pcx"; "tga"; "exif"; "fpx"; "svg"; "psd"; "cdr"; "pcd"; "dxf"; "ufo"; "eps";
   "ai"; "raw"; "webp"; "avif"; "apng"; "icon"; "ico"; "mpg"; "mpeg"; "avi"; "rm"; "rmvb"; "mov"; "wmv"; "asf"; "dat";
   "asx"; "wvx"; "mpe"; "mpa"; "mp4"; "avi"; "mkv"].

(** [re.match(SUPPORTED_EXTENSIONS, file, re.IGNORECASE)] *)
Definition supported (file : string) : bool :=
  match_extension (PDF_EXTENSIONS ++ DOC_EXTENSIONS ++ AURAL_EXTENSIONS ++ VISUAL_EXTENSIONS) (to_lower file).

Definition MAX_SCAN_FILE_COUNT : nat := Z.to_nat 10000.

(** [os.path.basename] *)
Definition basename (path : string) : string := default "" (last (js_split slash path)).

(** [os.path.join(root, file)] for a name of a file *)
Definition path_join (root file : string) : string :=
  if root === "" then file
  else if ends_with (String slash "") root then root +:+ file else root +:+ String slash file.

(** [filename.split(".")[-1] if "." in filename else ""] *)
Definition extension (filename : string) : string :=
  if str_includes (String dot "") filename then default "" (last (js_split dot filename)) else "".

(** api/utils/file_utils.py; the names of the types are those of [FileType]. *)
Definition FILE_NAME_LEN_LIMIT : nat := 255.

Definition filename_type (filename : string) : string :=
  let base := str_trim (basename filename) in
  if (base === "") || bool_decide (FILE_NAME_LEN_LIMIT < String.length base) then "other"
  else
    let name := to_lower base in
    if match_extension PDF_EXTENSIONS name then "pdf"
    else if match_extension ("mdx" :: DOC_EXTENSIONS) name then "doc"
    else if match_extension ("wavpack" :: AURAL_EXTENSIONS) name then "aural"
    else if match_extension VISUAL_EXTENSIONS name then "visual"
    else "other".

(** [os.path.normpath] and [os.path.abspath] *)
Definition norm_component (initial : bool) (comps : list string) (comp : string) : list string :=
  if (comp === "") || (comp === ".") then comps
  else if (comp !== "..") || (negb initial && (comps === [])) || (last comps === Some "..") then comps ++ [comp]
  else removelast comps.

Definition initial_slashes (path : string) : nat :=
  if starts_with "//" path && negb (starts_with "///" path) then 2
  else if starts_with "/" path then 1 else 0.

Definition normpath (path : string) : string :=
  if path === "" then "."
  else
    let n := initial_slashes path in
    let comps := foldl (norm_component (negb (n === 0))) [] (js_split slash path) in
    let p := String.concat (String slash "") comps in
    let p := match n with 0 => p | 1 => String slash p | _ => String slash (String slash p) end in
    if p === "" then "." else p.

Definition abspath (cwd path : string) : string :=
  normpath (if starts_with "/" path then path else path_join cwd path).

(** ** Mounted volumes *)
Definition system_fs : list string :=
  ["proc"; "sysfs"; "devtmpfs"; "devpts"; "tmpfs"; "squashfs"; "cgroup2"; "securityfs"; "pstore"; "efivarfs"; "bpf";
   "autofs"; "mqueue"; "hugetlbfs"; "debugfs"; "tracefs"; "fusectl"; "configfs"; "overlay"; "aufs"; "unionfs"; "zfs";
   "btrfs"; "ext4"; "f2fs"].

Definition skip_prefixes : list string :=
  ["/snap/"; "/run/snapd"; "/run/user"; "/run/docker"; "/sys/fs"; "/boot/efi"; "/proc"; "/dev"].

(** [s.split(sep)] for a separator that is not empty, and [s.split()]. *)
Fixpoint py_split_from (fuel : nat) (sep s : string) : list string :=
  match fuel with
  | O => [s]
  | S fuel =>
      match String.index 0 sep s with
      | Some i => String.substring 0 i s :: py_split_from fuel sep (str_from (i + String.length sep) s)
      | None => [s]
      end
  end.

Definition py_split (sep s : string) : list string := py_split_from (String.length s) sep s.

Definition py_words (s : string) : list string :=
  js_filter (λ w, w !== "")
    (js_split " "%char (String.string_of_list_ascii
       (map (λ a, if is_space a then " "%char else a) (String.list_ascii_of_string s)))).

Definition mount_of_line (line : string) : option string :=
  match py_split " - " line with
  | p0 :: p1 :: _ =>
      match py_words p0 !! 4, py_words p1 !! 1 with
      | Some mount_point, Some fs_type =>
          if starts_with "/" mount_point && (mount_point !== "/") && negb (js_includes system_fs (to_lower fs_type)) &&
             negb (js_some (λ p, starts_with p mount_point) skip_prefixes)
          then Some mount_point else None
      | _, _ => None
      end
  | _ => None
  end.

(** The lines of /proc/self/mountinfo, none if it cannot be read. *)
Definition get_mounted_volumes (mountinfo : list string) : list string := push_all [] (omap mount_of_line mountinfo).

(** What a scan sees of the machine: a walk lists the directories below a
    path with the names of their files, [fs_stat] gives the size and the
    modification time in whole seconds, or raises an OSError. *)
Record filesystem := {
  fs_cwd : string;
  fs_mountinfo : list string;
  fs_exists : string → bool;
  fs_isdir : string → bool;
  fs_walk : string → list (string * list string);
  fs_stat : string → option (Z * Z)
}.

Inductive refusal := KbNotFound | NoVolumes | NotAllowed | NoSuchPath | NotADirectory | NoCreator | TooManyFiles.

Record scan_report := {
  sr_imported : list string;
  sr_errors : list string;        (* the paths of the files *)
  sr_scan_dir_id : string;
  sr_deleted : nat;
  sr_skipped : nat;
  sr_reparsed : nat
}.

Inductive scan_result := Refused (r : refusal) | Scanned (report : scan_report).

Definition LOCAL_SCAN : string := "local_scan".

Section server.
Context (uuid : nat → string) (raises : call → bool) (kb_folder : string → string).

Definition draw (db : database) : string * database := (uuid (drawn db), with_drawn (S (drawn db)) db).

(** ** The services a scan calls *)
Definition get_kb (id : string) (db : database) : option knowledgebase := js_find (λ k, kb_id k === id) (kbs db).

Definition update_dir (p : scanned_directory → bool) (f : scanned_directory → scanned_directory) (db : database) : database :=
  with_dirs (map (λ d, if p d then f d else d) (dirs db)) db.

Definition set_last_scan (now : Z) (d : scanned_directory) : scanned_directory :=
  {| sd_id := sd_id d; sd_kb_id := sd_kb_id d; sd_directory_path := sd_directory_path d;
     sd_scan_interval_minutes := sd_scan_interval_minutes d; sd_last_scan_time := Some now;
     sd_created_by := sd_created_by d; sd_created_at := sd_created_at d |}.

Definition set_interval (minutes : Z) (d : scanned_directory) : scanned_directory :=
  {| sd_id := sd_id d; sd_kb_id := sd_kb_id d; sd_directory_path := sd_directory_path d;
     sd_scan_interval_minutes := minutes; sd_last_scan_time := sd_last_scan_time d;
     sd_created_by := sd_created_by d; sd_created_at := sd_created_at d |}.

Definition get_by_kb_id (id : string) (db : database) : list scanned_directory :=
  js_filter (λ d, sd_kb_id d === id) (dirs db).

Definition update_last_scan_time (now : Z) (id : string) : database → database :=
  update_dir (λ d, sd_id d === id) (set_last_scan now).

Definition update_last_scan_time_by_path (now : Z) (kb path : string) : database → database :=
  update_dir (λ d, (sd_kb_id d === kb) && (sd_directory_path d === path)) (set_last_scan now).

Definition update_scan_interval (id : string) (minutes : Z) : database → database :=
  update_dir (λ d, sd_id d === id) (set_interval minutes).

Definition delete_dir (id : string) (db : database) : database :=
  with_dirs (js_filter (λ d, sd_id d !== id) (dirs db)) db.

Definition change_doc_num (kb : string) (n : Z) (db : database) : database :=
  with_kbs (map (λ k, if kb_id k === kb
    then {| kb_id := kb_id k; kb_tenant_id := kb_tenant_id k; kb_parser_id := kb_parser_id k;
            kb_pipeline_id := kb_pipeline_id k; kb_parser_config := kb_parser_config k; kb_doc_num := kb_doc_num k + n |}
    else k) (kbs db)) db.

(** The row goes and the knowledge base counts one document less; a row that
    is gone already changes nothing.  The number of its chunks and tokens is
    left out. *)
Definition remove_document (d : document) (db : database) : database :=
  if js_some (λ e, d_id e === d_id d) (docs db)
  then change_doc_num (d_kb_id d) (-1) (with_docs (js_filter (λ e, d_id e !== d_id d) (docs db)) db)
  else db.

(** The calls that delete a document in a scan, in one block of [try]:
    whether all of them returned. *)
Definition delete_scanned (d : document) (db : database) : database * bool :=
  if raises (DeleteLinks (d_id d)) then (db, false)
  else
    let db := with_links (js_filter (λ i, i !== d_id d) (links db)) db in
    if raises (DeleteFileRow (d_id d)) then (db, false)
    else
      let db := with_file_rows (js_filter (λ f, fr_id f !== d_id d) (file_rows db)) db in
      if raises (GetTenant (d_id d)) || raises (RemoveDocument (d_id d)) then (db, false)
      else (remove_document d db, true).

(** ** A scan *)
Definition files_of_walk (walk : list (string * list string)) : list string :=
  mjoin (map (λ rf : string * list string, map (path_join rf.1) (js_filter supported rf.2)) walk).

Record progress := {
  pr_db : database;
  pr_deleted : nat;
  pr_skipped : nat;
  pr_reparsed : nat;
  pr_imported : list string;
  pr_errors : list string
}.

Definition mtime_text (mtime : Z) : string := pretty mtime.

(** One document of the directory, in the loop over those there were. *)
Definition check_document (fs : filesystem) (path : string) (current : list string) (p : progress) (d : document) : progress :=
  if (d_location d === "") || negb (starts_with path (d_location d)) then p
  else if negb (js_includes current (d_location d)) then
    {| pr_db := (delete_scanned d (pr_db p)).1; pr_deleted := S (pr_deleted p); pr_skipped := pr_skipped p;
       pr_reparsed := pr_reparsed p; pr_imported := pr_imported p; pr_errors := pr_errors p |}
  else
    match fs_stat fs (d_location d) with
    | None => p
    | Some (size, mtime) =>
        if (d_size d === size) && (d_content_hash d === mtime_text mtime) then
          {| pr_db := pr_db p; pr_deleted := pr_deleted p; pr_skipped := S (pr_skipped p);
             pr_reparsed := pr_reparsed p; pr_imported := pr_imported p; pr_errors := pr_errors p |}
        else
          let '(db, ok) := delete_scanned d (pr_db p) in
          {| pr_db := db; pr_deleted := pr_deleted p; pr_skipped := pr_skipped p;
             pr_reparsed := if ok then S (pr_reparsed p) else pr_reparsed p;
             pr_imported := pr_imported p; pr_errors := pr_errors p |}
    end.

Definition file_parser (kb : knowledgebase) (filename : string) : string :=
  let filetype := filename_type filename in
  if filetype === "visual" then "picture" else if filetype === "aural" then "audio" else kb_parser_id kb.

Definition new_document (kb : knowledgebase) (creator path id : string) (size mtime : Z) : document :=
  let filename := basename path in
  {| d_id := id; d_kb_id := kb_id kb; d_parser_id := file_parser kb filename; d_pipeline_id := kb_pipeline_id kb;
     d_parser_config := kb_parser_config kb; d_created_by := creator; d_type := extension filename; d_name := filename;
     d_source_type := LOCAL_SCAN; d_suffix := extension filename; d_location := path; d_size := size;
     d_content_hash := mtime_text mtime; d_run := "1" |}.

Definition new_file_row (kb : knowledgebase) (creator path id : string) (size : Z) : file_row :=
  let filename := basename path in
  {| fr_id := id; fr_parent_id := kb_folder (kb_tenant_id kb); fr_tenant_id := kb_tenant_id kb; fr_created_by := creator;
     fr_name := filename; fr_location := path; fr_size := size; fr_type := extension filename |}.

(** The calls that import a file: the tables, and the identifier if all went
    well.  The file row's link may fail without more. *)
Definition import_new (fs : filesystem) (kb : knowledgebase) (creator : string) (priority : Z) (path : string) (db : database)
    : database * option string :=
  let '(id, db) := draw db in
  match fs_stat fs path with
  | None => (db, None)
  | Some (size, mtime) =>
      if raises (SaveDocument path) then (db, None)
      else
        let db := with_docs (docs db ++ [new_document kb creator path id size mtime]) db in
        if raises (IncreaseDocNum path) then (db, None)
        else
          let db := change_doc_num (kb_id kb) 1 db in
          if raises (GetKbFolder path) || raises (InsertFileRow path) then (db, None)
          else
            let db := with_file_rows (file_rows db ++ [new_file_row kb creator path id size]) db in
            let db := if raises (InsertLink path) then db else with_links (links db ++ [id]) db in
            if raises (RunDocument path) then (db, None) else (with_tasks (tasks db ++ [(id, priority)]) db, Some id)
  end.

Definition import_file (fs : filesystem) (kb : knowledgebase) (creator : string) (priority : Z) (p : progress) (path : string)
    : progress :=
  if js_some (λ d, (d_kb_id d === kb_id kb) && (d_location d === path)) (docs (pr_db p)) then
    {| pr_db := pr_db p; pr_deleted := pr_deleted p; pr_skipped := S (pr_skipped p); pr_reparsed := pr_reparsed p;
       pr_imported := pr_imported p; pr_errors := pr_errors p |}
  else
    let '(db, r) := import_new fs kb creator priority path (pr_db p) in
    {| pr_db := db; pr_deleted := pr_deleted p; pr_skipped := pr_skipped p; pr_reparsed := pr_reparsed p;
       pr_imported := match r with Some id => pr_imported p ++ [id] | None => pr_imported p end;
       pr_errors := match r with Some _ => pr_errors p | None => pr_errors p ++ [path] end |}.

(** The record of the directory: the one there is, or a new one. *)
Definition scan_record (now : Z) (kb_id_ path : string) (scan_interval : Z) (creator : string) (db : database)
    : string * database :=
  match js_find (λ d, sd_directory_path d === path) (get_by_kb_id kb_id_ db) with
  | Some d => (sd_id d, update_last_scan_time now (sd_id d) db)
  | None =>
      let '(id, db) := draw db in
      let d := {| sd_id := id; sd_kb_id := kb_id_; sd_directory_path := path; sd_scan_interval_minutes := scan_interval;
                  sd_last_scan_time := None; sd_created_by := creator; sd_created_at := now |} in
      (id, update_last_scan_time now id (with_dirs (dirs db ++ [d]) db))
  end.

Definition scan_files (fs : filesystem) (now : Z) (kb : knowledgebase) (path : string) (scan_interval : Z) (creator : string)
    (priority : Z) (db : database) : database * scan_report :=
  let files_to_import := files_of_walk (fs_walk fs path) in
  let '(scan_dir_id, db) := scan_record now (kb_id kb) path scan_interval creator db in
  let existing_docs := js_filter (λ d, (d_kb_id d === kb_id kb) && (d_source_type d === LOCAL_SCAN)) (docs db) in
  let p := {| pr_db := db; pr_deleted := 0; pr_skipped := 0; pr_reparsed := 0; pr_imported := []; pr_errors := [] |} in
  let p := foldl (check_document fs path files_to_import) p existing_docs in
  let p := foldl (import_file fs kb creator priority) p files_to_import in
  (update_last_scan_time_by_path now (kb_id kb) path (pr_db p),
   {| sr_imported := pr_imported p; sr_errors := pr_errors p; sr_scan_dir_id := scan_dir_id; sr_deleted := pr_deleted p;
      sr_skipped := pr_skipped p; sr_reparsed := pr_reparsed p |}).

(** [created_by or tenant_id] *)
Definition creator_of (created_by tenant_id : option string) : string :=
  match created_by with Some c => if c === "" then default "" tenant_id else c | None => default "" tenant_id end.

Definition scan_directory (fs : filesystem) (now : Z) (kb_id_ path : string) (scan_interval : Z)
    (created_by tenant_id : option string) (priority : Z) (db : database) : database * scan_result :=
  match get_kb kb_id_ db with
  | None => (db, Refused KbNotFound)
  | Some kb =>
      let path := abspath (fs_cwd fs) path in
      let allowed_paths := get_mounted_volumes (fs_mountinfo fs) in
      if allowed_paths === [] then (db, Refused NoVolumes)
      else if negb (js_some (λ allowed, starts_with allowed path) allowed_paths) then (db, Refused NotAllowed)
      else if negb (fs_exists fs path) then (db, Refused NoSuchPath)
      else if negb (fs_isdir fs path) then (db, Refused NotADirectory)
      else
        let creator := creator_of created_by tenant_id in
        if creator === "" then (db, Refused NoCreator)
        else if bool_decide (MAX_SCAN_FILE_COUNT < length (files_of_walk (fs_walk fs path))) then (db, Refused TooManyFiles)
        else
          let '(db, report) := scan_files fs now kb path scan_interval creator priority db in
          (db, Scanned report)
  end.

(** ** The routes and the scheduler *)
Inductive reply := Data (report : scan_report) | Deleted (documents : nat) | Interval (minutes : Z)
| Directories (l : list scanned_directory) | Failure (r : option refusal) | LookupError.

Context (check_kb_team_permission : knowledgebase → string → bool).

(** [/scan_path]: the checks of the scan come first, with the same answers. *)
Definition scan_path (fs : filesystem) (now : Z) (user kb_id_ path : string) (scan_interval priority : Z) (db : database)
    : database * reply :=
  if (kb_id_ === "") || (path === "") then (db, Failure None)
  else
    let path := abspath (fs_cwd fs) path in
    let allowed_paths := get_mounted_volumes (fs_mountinfo fs) in
    if allowed_paths === [] then (db, Failure (Some NoVolumes))
    else if negb (js_some (λ allowed, starts_with allowed path) allowed_paths) then (db, Failure (Some NotAllowed))
    else if negb (fs_exists fs path) then (db, Failure (Some NoSuchPath))
    else if negb (fs_isdir fs path) then (db, Failure (Some NotADirectory))
    else
      match get_kb kb_id_ db with
      | None => (db, LookupError)
      | Some kb =>
          if negb (check_kb_team_permission kb user) then (db, Failure None)
          else
            match scan_directory fs now kb_id_ path scan_interval (Some user) None priority db with
            | (db, Scanned report) => (db, Data report)
            | (db, Refused r) => (db, Failure (Some r))
            end
      end.

(** [(now - last).total_seconds() / 60 >= interval] *)
Definition due (now : Z) (d : scanned_directory) : bool :=
  match sd_last_scan_time d with
  | Some last => (sd_scan_interval_minutes d * 60000000 <=? now - last)%Z
  | None => false
  end.

(** One round over directories that were read before it. *)
Definition scan_due (fs : filesystem) (now : Z) (tenant : scanned_directory → string) (all_dirs : list scanned_directory)
    (db : database) : database :=
  foldl (λ db d,
    if due now d
    then (scan_directory fs now (sd_kb_id d) (sd_directory_path d) (sd_scan_interval_minutes d) None (Some (tenant d)) 0 db).1
    else db) db all_dirs.

Definition scan_worker (fs : filesystem) (now : Z) (db : database) : database := scan_due fs now sd_created_by (dirs db) db.

(** The list that is answered, and the scans its request starts beside it. *)
Definition get_scanned_directories (user kb_id_ : string) (db : database) : reply :=
  if kb_id_ === "" then Failure None
  else
    match get_kb kb_id_ db with
    | None => LookupError
    | Some kb => if negb (check_kb_team_permission kb user) then Failure None else Directories (get_by_kb_id kb_id_ db)
    end.

Definition check_and_trigger_scan (fs : filesystem) (now : Z) (kb : knowledgebase) (db : database) : database :=
  scan_due fs now (λ _, kb_tenant_id kb) (get_by_kb_id (kb_id kb) db) db.

Definition get_dir (id : string) (db : database) : option scanned_directory := js_find (λ d, sd_id d === id) (dirs db).

(** The deletions of a route, each with its own [try]. *)
Definition delete_one (db : database) (d : document) : database :=
  let db := if raises (DeleteLinks (d_id d)) then db else with_links (js_filter (λ i, i !== d_id d) (links db)) db in
  let db := if raises (DeleteFileRow (d_id d)) then db
            else with_file_rows (js_filter (λ f, fr_id f !== d_id d) (file_rows db)) db in
  if raises (GetTenant (d_id d)) || raises (RemoveDocument (d_id d)) then db else remove_document d db.

Definition delete_scanned_directory (user directory_id : string) (db : database) : database * reply :=
  match get_dir directory_id db with
  | None => (db, Failure None)
  | Some directory =>
      match get_kb (sd_kb_id directory) db with
      | None => (db, LookupError)
      | Some kb =>
          if negb (check_kb_team_permission kb user) then (db, Failure None)
          else
            let all_docs := js_filter (λ d, (d_kb_id d === kb_id kb) && (d_source_type d === LOCAL_SCAN)) (docs db) in
            let doomed := js_filter (λ d, (d_location d !== "") && starts_with (sd_directory_path directory) (d_location d))
                            all_docs in
            (delete_dir directory_id (foldl delete_one db doomed), Deleted (length doomed))
      end
  end.

Definition update_scanned_directory (user directory_id : string) (scan_interval : Z) (db : database) : database * reply :=
  match get_dir directory_id db with
  | None => (db, Failure None)
  | Some directory =>
      match get_kb (sd_kb_id directory) db with
      | None => (db, LookupError)
      | Some kb =>
          if negb (check_kb_team_permission kb user) then (db, Failure None)
          else (update_scan_interval directory_id scan_interval db, Interval scan_interval)
      end
  end.
End server.

(** ** Lemmas on single calls *)
Lemma taken_spec kb path (ds : list document) :
  js_some (λ d, (d_kb_id d === kb_id kb) && (d_location d === path)) ds = true ↔
  ∃ d, d ∈ ds ∧ d_kb_id d = kb_id kb ∧ d_location d = path.
Proof.
  rewrite js_some_true. split; intros (d & Hd & H); exists d.
  - reflect_bool. naive_solver.
  - rewrite !bool_decide_true by naive_solver. naive_solver.
Qed.

Section calls.
Context (uuid : nat → string) (raises : call → bool) (kb_folder : string → string).

(** Documents go, nothing is added, and directories and tasks stay. *)
Definition shrinks (db db' : database) : Prop :=
  dirs db' = dirs db ∧ drawn db' = drawn db ∧ tasks db' = tasks db ∧ ∃ q, docs db' = js_filter q (docs db).

Lemma shrinks_same db db' : dirs db' = dirs db → drawn db' = drawn db → tasks db' = tasks db → docs db' = docs db →
  shrinks db db'.
Proof. intros H1 H2 H3 H4. repeat split; [done..|]. exists (λ _, true). by rewrite js_filter_all. Qed.

Lemma shrinks_refl db : shrinks db db.
Proof. by apply shrinks_same. Qed.

Lemma shrinks_trans db1 db2 db3 : shrinks db1 db2 → shrinks db2 db3 → shrinks db1 db3.
Proof.
  intros (Hd & Hn & Ht & q & Hq) (Hd' & Hn' & Ht' & q' & Hq'). repeat split; [congruence..|].
  exists (λ x, q x && q' x). by rewrite Hq', Hq, js_filter_filter.
Qed.

Lemma remove_document_docs d db : docs (remove_document d db) = js_filter (λ e, d_id e !== d_id d) (docs db).
Proof.
  unfold remove_document. destruct (js_some _ (docs db)) eqn:He; [done|].
  symmetry. apply js_filter_all. intros x Hx. apply negb_true_iff, bool_decide_eq_false. intros Heq.
  assert (js_some (λ e, d_id e === d_id d) (docs db) = true) as Ht; [|congruence].
  apply js_some_true. exists x. by rewrite bool_decide_eq_true.
Qed.

Lemma remove_document_shrinks d db : shrinks db (remove_document d db).
Proof.
  split; [|split; [|split; [|eexists; apply remove_document_docs]]];
    unfold remove_document; by destruct (js_some _ (docs db)).
Qed.

Ltac shrink := first [by apply shrinks_same | eapply shrinks_trans; [|apply remove_document_shrinks]; by apply shrinks_same].

Lemma delete_scanned_shrinks d db : shrinks db (delete_scanned raises d db).1.
Proof.
  unfold delete_scanned. destruct (raises (DeleteLinks _)); [shrink|].
  destruct (raises (DeleteFileRow _)); [shrink|].
  destruct (raises (GetTenant _) || raises (RemoveDocument _)); shrink.
Qed.

Lemma delete_one_shrinks db d : shrinks db (delete_one raises db d).
Proof.
  unfold delete_one.
  destruct (raises (DeleteLinks _)), (raises (DeleteFileRow _)), (raises (GetTenant _) || raises (RemoveDocument _)); shrink.
Qed.

Lemma check_document_shrinks fs path current p d :
  shrinks (pr_db p) (pr_db (check_document raises fs path current p d)).
Proof.
  unfold check_document. pose proof (delete_scanned_shrinks d (pr_db p)) as Hd.
  destruct ((d_location d === "") || negb (starts_with path (d_location d))); [apply shrinks_refl|].
  destruct (negb (js_includes current (d_location d))); [done|].
  destruct (fs_stat fs (d_location d)) as [[size mtime]|]; [|apply shrinks_refl].
  destruct (_ && _); [apply shrinks_refl|]. by destruct (delete_scanned raises d (pr_db p)).
Qed.

Lemma check_documents_shrink fs path current ds p :
  shrinks (pr_db p) (pr_db (foldl (check_document raises fs path current) p ds)).
Proof.
  revert p. induction ds as [|d ds IH]; intros p; [apply shrinks_refl|].
  eapply shrinks_trans; [apply check_document_shrinks|apply IH].
Qed.

Lemma import_new_cases fs kb creator priority path db :
  let db' := (import_new uuid raises kb_folder fs kb creator priority path db).1 in
  dirs db' = dirs db ∧ drawn db' = S (drawn db) ∧
  (docs db' = docs db ∨ ∃ size mtime, fs_stat fs path = Some (size, mtime) ∧
    docs db' = docs db ++ [new_document kb creator path (uuid (drawn db)) size mtime]).
Proof.
  unfold import_new. simpl. destruct (fs_stat fs path) as [[size mtime]|]; [|by auto].
  destruct (raises (SaveDocument path)); [by eauto 10|]. destruct (raises (IncreaseDocNum path)); [by eauto 10|].
  destruct (raises (GetKbFolder path) || raises (InsertFileRow path)); [by eauto 10|].
  destruct (raises (InsertLink path)), (raises (RunDocument path)); simpl; eauto 10.
Qed.

(** A document that an import adds: fresh, at a place that was free. *)
Record imported_by (fs : filesystem) (kb : knowledgebase) (creator : string) (files : list string) (db : database) (n : nat)
    (news : list document) : Prop := {
  im_form d : d ∈ news → ∃ i size mtime, fs_stat fs (d_location d) = Some (size, mtime) ∧ d_location d ∈ files ∧
    d = new_document kb creator (d_location d) (uuid i) size mtime ∧ drawn db ≤ i < n;
  im_free d e : d ∈ news → e ∈ docs db → d_kb_id e = kb_id kb → d_location e ≠ d_location d;
  im_distinct : NoDup (d_location <$> news);
  im_ids : NoDup (d_id <$> news)
}.

Lemma imported_none fs kb creator files db n : imported_by fs kb creator files db n [].
Proof. split; [set_solver|set_solver|constructor|constructor]. Qed.

Lemma imported_later fs kb creator f files db db' n news : docs db' = docs db → drawn db ≤ drawn db' →
  imported_by fs kb creator files db' n news → imported_by fs kb creator (f :: files) db n news.
Proof.
  intros Hd Hn [H1 H2 H3 H4]. split; [|by rewrite <- Hd|done..].
  intros d Hin. destruct (H1 d Hin) as (i & s & m & ? & ? & ? & ?). exists i, s, m.
  split; [done|]. split; [set_solver|]. split; [done|lia].
Qed.

Lemma imported_cons fs kb creator f files db db' n size mtime news (Huuid : Inj (=) (=) uuid) :
  fs_stat fs f = Some (size, mtime) → drawn db' = S (drawn db) → drawn db' ≤ n →
  docs db' = docs db ++ [new_document kb creator f (uuid (drawn db)) size mtime] →
  (∀ e, e ∈ docs db → d_kb_id e = kb_id kb → d_location e ≠ f) →
  imported_by fs kb creator files db' n news →
  imported_by fs kb creator (f :: files) db n (new_document kb creator f (uuid (drawn db)) size mtime :: news).
Proof.
  intros Hs Hdr Hn Hd Hfree [H1 H2 H3 H4]. set (d0 := new_document kb creator f (uuid (drawn db)) size mtime) in *.
  assert (∀ d, d ∈ news → d_location d ≠ f ∧ d_id d ≠ d_id d0) as Hd0.
  { intros d Hin. split.
    - assert (d_location d0 ≠ d_location d) as Hne by (apply H2; [done|rewrite Hd; set_solver|done]).
      intros Heq. by apply Hne.
    - destruct (H1 d Hin) as (i & s & m & _ & _ & -> & Hi). simpl. intros Heq%Huuid. lia. }
  split.
  - intros d [->|Hin]%elem_of_cons.
    + exists (drawn db), size, mtime. split; [done|]. split; [set_solver|]. split; [done|lia].
    + destruct (H1 d Hin) as (i & s & m & ? & ? & ? & ?). exists i, s, m.
      split; [done|]. split; [set_solver|]. split; [done|lia].
  - intros d e [->|Hin]%elem_of_cons He Hk; [by apply Hfree|]. apply H2; [done| |done]. rewrite Hd. set_solver.
  - rewrite fmap_cons. constructor; [|done]. intros (d & Heq & Hin)%list_elem_of_fmap.
    destruct (Hd0 d Hin) as [Hne _]. by apply Hne.
  - rewrite fmap_cons. constructor; [|done]. intros (d & Heq & Hin)%list_elem_of_fmap.
    destruct (Hd0 d Hin) as [_ Hne]. by apply Hne.
Qed.

Lemma import_files_spec fs kb creator priority files (Huuid : Inj (=) (=) uuid) : ∀ p,
  let p' := foldl (import_file uuid raises kb_folder fs kb creator priority) p files in
  dirs (pr_db p') = dirs (pr_db p) ∧ drawn (pr_db p) ≤ drawn (pr_db p') ∧
  ∃ news, docs (pr_db p') = docs (pr_db p) ++ news ∧
    imported_by fs kb creator files (pr_db p) (drawn (pr_db p')) news.
Proof.
  induction files as [|f files IH]; intros p p'; subst p'.
  { split; [done|]. split; [done|]. exists []. rewrite app_nil_r. split; [done|apply imported_none]. }
  simpl foldl. set (q := import_file uuid raises kb_folder fs kb creator priority p f).
  specialize (IH q). cbv zeta in IH. destruct IH as (Hd & Hn & news & Hdocs & Him).
  assert (dirs (pr_db q) = dirs (pr_db p) ∧ drawn (pr_db p) ≤ drawn (pr_db q) ∧
    (docs (pr_db q) = docs (pr_db p) ∨
     (∀ e, e ∈ docs (pr_db p) → d_kb_id e = kb_id kb → d_location e ≠ f) ∧ drawn (pr_db q) = S (drawn (pr_db p)) ∧
     ∃ size mtime, fs_stat fs f = Some (size, mtime) ∧
       docs (pr_db q) = docs (pr_db p) ++ [new_document kb creator f (uuid (drawn (pr_db p))) size mtime]))
    as (Hqd & Hqn & Hq).
  { subst q. unfold import_file. destruct (js_some _ (docs (pr_db p))) eqn:Ht; [by auto|].
    pose proof (import_new_cases fs kb creator priority f (pr_db p)) as (Hd0 & Hn0 & Hc).
    destruct (import_new uuid raises kb_folder fs kb creator priority f (pr_db p)) as [db r]. simpl in *.
    split; [done|]. split; [lia|]. destruct Hc as [Hc|(s & m & Hs & Hc)]; [by left|right].
    split; [|eauto]. intros e He Hk Hl. assert (true = false); [|done]. rewrite <- Ht. symmetry.
    apply taken_spec. by exists e. }
  split; [congruence|]. split; [lia|]. destruct Hq as [Hq|(Hfree & Hs & size & mtime & Hst & Hq)].
  - exists news. rewrite Hdocs, Hq. split; [done|]. by eapply imported_later.
  - eexists (_ :: news). rewrite Hdocs, Hq, <- app_assoc. split; [done|]. by apply (imported_cons _ _ _ _ _ _ (pr_db q)).
Qed.
End calls.

(** ** What holds of the tables *)
Definition is_local (d : document) : bool := d_source_type d === LOCAL_SCAN.
Definition place (d : document) : string * string := (d_kb_id d, d_location d).
Definition dir_key (d : scanned_directory) : string * string := (sd_kb_id d, sd_directory_path d).

Lemma NoDup_key_inj {A B} (f : A → B) (l : list A) x y : NoDup (f <$> l) → x ∈ l → y ∈ l → f x = f y → x = y.
Proof.
  induction l as [|z l IH]; intros Hn Hx Hy Hf; [set_solver|]. rewrite fmap_cons in Hn.
  apply NoDup_cons in Hn as [Hz Hn]. apply elem_of_cons in Hx as [->|Hx], Hy as [->|Hy]; [done| | |by apply IH].
  - exfalso. apply Hz. rewrite Hf. by apply list_elem_of_fmap_2.
  - exfalso. apply Hz. rewrite <- Hf. by apply list_elem_of_fmap_2.
Qed.

Section tables.
Context (uuid : nat → string) (Huuid : Inj (=) (=) uuid).

Record tables_ok (db : database) : Prop := {
  to_ids : NoDup (d_id <$> docs db);
  to_dir_ids : NoDup (sd_id <$> dirs db);
  to_fresh i : drawn db ≤ i → (uuid i ∉ (d_id <$> docs db)) ∧ (uuid i ∉ (sd_id <$> dirs db));
  to_paths : NoDup (dir_key <$> dirs db);
  to_places : NoDup (place <$> js_filter is_local (docs db))
}.

Lemma js_filter_sublist {A} (p : A → bool) (l : list A) : sublist (js_filter p l) l.
Proof.
  induction l as [|x l IH]; [constructor|]. rewrite js_filter_cons.
  destruct (p x); [by apply sublist_skip|by apply sublist_cons].
Qed.

Lemma NoDup_fmap_filter {A B} (f : A → B) (p : A → bool) (l : list A) : NoDup (f <$> l) → NoDup (f <$> js_filter p l).
Proof. intros H. eapply sublist_NoDup; [exact H|]. apply fmap_sublist, js_filter_sublist. Qed.

Lemma tables_shrink db db' : shrinks db db' → tables_ok db → tables_ok db'.
Proof.
  intros (Hd & Hn & _ & q & Hq) [H1 H2 H3 H4 H5]. split; rewrite ?Hd, ?Hq, ?Hn; try done.
  - by apply NoDup_fmap_filter.
  - intros i Hi. destruct (H3 i Hi) as [Hf Hg]. split; [|done].
    intros (d & Heq & [_ Hin]%elem_of_js_filter)%list_elem_of_fmap. apply Hf. rewrite Heq. by apply list_elem_of_fmap_2.
  - rewrite js_filter_filter. rewrite (js_filter_ext _ (λ x, is_local x && q x)) by (intros; apply andb_comm).
    rewrite <- js_filter_filter. by apply NoDup_fmap_filter.
Qed.

(** The directories are rewritten without touching identifiers and paths. *)
Lemma tables_update_dir p f db : (∀ d, sd_id (f d) = sd_id d ∧ dir_key (f d) = dir_key d) →
  tables_ok db → tables_ok (update_dir p f db).
Proof.
  intros Hf [H1 H2 H3 H4 H5].
  assert (∀ {B} (g : scanned_directory → B), (∀ d, g (f d) = g d) → g <$> dirs (update_dir p f db) = g <$> dirs db) as Hg.
  { intros B g Hgf. simpl. rewrite <- list_fmap_compose. apply list_fmap_ext. intros i d _. simpl. by destruct (p d). }
  assert (sd_id <$> dirs (update_dir p f db) = sd_id <$> dirs db) as Hi by (apply Hg; intros d; apply Hf).
  assert (dir_key <$> dirs (update_dir p f db) = dir_key <$> dirs db) as Hk by (apply Hg; intros d; apply Hf).
  split; rewrite ?Hi, ?Hk; done.
Qed.

Lemma tables_last_scan p now db : tables_ok db → tables_ok (update_dir p (set_last_scan now) db).
Proof. by apply tables_update_dir. Qed.

Lemma tables_add_dir db d : tables_ok db → sd_id d = uuid (drawn db) →
  (∀ e, e ∈ dirs db → dir_key e ≠ dir_key d) →
  tables_ok (with_dirs (dirs db ++ [d]) (with_drawn (S (drawn db)) db)).
Proof.
  intros [H1 H2 H3 H4 H5] Hid Hk. split; simpl; try done.
  - rewrite fmap_app. apply NoDup_app. split; [done|]. split; [|apply NoDup_singleton].
    intros x Hx ->%list_elem_of_singleton. rewrite Hid in Hx. by apply (H3 (drawn db)).
  - intros i Hi. destruct (H3 i ltac:(lia)) as [Hf Hg]. split; [done|]. rewrite fmap_app.
    intros [Hx|Hx%list_elem_of_singleton]%elem_of_app; [done|]. rewrite Hid in Hx. apply Huuid in Hx. lia.
  - rewrite fmap_app. apply NoDup_app. split; [done|]. split; [|apply NoDup_singleton].
    intros x (e & -> & He)%list_elem_of_fmap Hx%list_elem_of_singleton. by apply (Hk e).
Qed.

Lemma tables_draw db : tables_ok db → tables_ok (with_drawn (S (drawn db)) db).
Proof. intros [H1 H2 H3 H4 H5]. split; try done. intros i Hi. simpl in Hi. apply H3. lia. Qed.

Lemma scan_record_ok now kb path interval creator db : tables_ok db →
  tables_ok (scan_record uuid now kb path interval creator db).2 ∧
  docs (scan_record uuid now kb path interval creator db).2 = docs db.
Proof.
  intros Ht. unfold scan_record. destruct (js_find _ (get_by_kb_id kb db)) as [d|] eqn:Hf; simpl.
  - split; [by apply tables_last_scan|done].
  - split; [|done]. apply tables_last_scan.
    apply (tables_add_dir db {| sd_id := uuid (drawn db); sd_kb_id := kb; sd_directory_path := path;
      sd_scan_interval_minutes := interval; sd_last_scan_time := None; sd_created_by := creator; sd_created_at := now |});
      [done|done|].
    intros e He Hk. unfold dir_key in Hk. simpl in Hk. injection Hk as Hk1 Hk2.
    assert (bool_decide (sd_directory_path e = path) = false) as Hno; [|by apply bool_decide_eq_false in Hno].
    eapply (find_none _ _ Hf). apply list_elem_of_In, elem_of_js_filter. by rewrite bool_decide_eq_true.
Qed.

Lemma tables_import fs kb creator files db db' news : tables_ok db →
  dirs db' = dirs db → drawn db ≤ drawn db' → docs db' = docs db ++ news →
  imported_by uuid fs kb creator files db (drawn db') news → tables_ok db'.
Proof.
  intros [H1 H2 H3 H4 H5] Hd Hn Hdocs [I1 I2 I3 I4]. split; rewrite ?Hd; try done.
  - rewrite Hdocs, fmap_app. apply NoDup_app. split; [done|]. split; [|done].
    intros x Hx (d & -> & Hin)%list_elem_of_fmap. destruct (I1 d Hin) as (i & s & m & _ & _ & Heq & Hi).
    rewrite Heq in Hx. by destruct (H3 i) as [Hf _]; [lia|].
  - intros i Hi. destruct (H3 i ltac:(lia)) as [Hf Hg]. split; [|done]. rewrite Hdocs, fmap_app.
    intros [?|(d & Heq & Hin)%list_elem_of_fmap]%elem_of_app; [done|].
    destruct (I1 d Hin) as (j & s & m & _ & _ & Hd' & Hj). rewrite Hd' in Heq. simpl in Heq. apply Huuid in Heq. lia.
  - rewrite Hdocs, js_filter_app, fmap_app.
    assert (∀ d, d ∈ news → is_local d = true ∧ d_kb_id d = kb_id kb) as Hloc.
    { intros d Hin. destruct (I1 d Hin) as (i & s & m & _ & _ & Heq & _). by rewrite Heq. }
    rewrite (js_filter_all _ news) by (intros d Hin; apply Hloc; done).
    apply NoDup_app. split; [done|]. split.
    + intros x (e & -> & [_ He]%elem_of_js_filter)%list_elem_of_fmap (d & Hp & Hin)%list_elem_of_fmap.
      unfold place in Hp. injection Hp as Hk Hl. apply (I2 d e Hin He); [|done]. rewrite Hk. by apply Hloc.
    + clear -I3. induction news as [|d news IH]; [constructor|].
      rewrite fmap_cons in *. apply NoDup_cons in I3 as [Hn Hnd]. constructor; [|by apply IH].
      intros (e & Hp & He)%list_elem_of_fmap. apply Hn. unfold place in Hp. injection Hp as _ Hl.
      apply list_elem_of_fmap. by exists e.
Qed.

Section ops.
Context (raises : call → bool) (kb_folder : string → string) (check_kb_team_permission : knowledgebase → string → bool).

Lemma scan_files_ok fs now kb path interval creator priority db : tables_ok db →
  tables_ok (scan_files uuid raises kb_folder fs now kb path interval creator priority db).1.
Proof.
  intros Ht. unfold scan_files.
  pose proof (scan_record_ok now (kb_id kb) path interval creator db Ht) as [Hr _].
  destruct (scan_record uuid now (kb_id kb) path interval creator db) as [id db1]. simpl in Hr |- *.
  apply tables_last_scan.
  match goal with |- tables_ok (pr_db (foldl _ ?q _)) => set (p := q) end.
  assert (tables_ok (pr_db p)) as Hp by (eapply tables_shrink; [apply check_documents_shrink|done]).
  destruct (import_files_spec uuid raises kb_folder fs kb creator priority (files_of_walk (fs_walk fs path)) Huuid p)
    as (Hd & Hn & news & Hdocs & Him).
  by eapply tables_import.
Qed.

Lemma scan_directory_ok fs now kb path interval created_by tenant priority db : tables_ok db →
  tables_ok (scan_directory uuid raises kb_folder fs now kb path interval created_by tenant priority db).1.
Proof.
  intros Ht. unfold scan_directory. destruct (get_kb kb db) as [k|]; [|done].
  repeat (match goal with |- context [if ?b then _ else _] => destruct b end; [done|]).
  pose proof (scan_files_ok fs now k (abspath (fs_cwd fs) path) interval (creator_of created_by tenant) priority db Ht) as Hs.
  by destruct (scan_files _ _ _ _ _ _ _ _ _ _ _).
Qed.

Lemma scan_due_ok fs now tenant all_dirs : ∀ db, tables_ok db →
  tables_ok (scan_due uuid raises kb_folder fs now tenant all_dirs db).
Proof.
  induction all_dirs as [|d all_dirs IH]; intros db Ht; [done|]. simpl. apply IH.
  destruct (due now d); [by apply scan_directory_ok|done].
Qed.

Lemma delete_dir_ok id db : tables_ok db → tables_ok (delete_dir id db).
Proof.
  intros [H1 H2 H3 H4 H5]. split; simpl; try done; [by apply NoDup_fmap_filter| |by apply NoDup_fmap_filter].
  intros i Hi. destruct (H3 i Hi) as [Hf Hg]. split; [done|].
  intros (d & Heq & [_ Hin]%elem_of_js_filter)%list_elem_of_fmap. apply Hg. rewrite Heq. by apply list_elem_of_fmap_2.
Qed.

Lemma delete_all_shrinks ds : ∀ db, shrinks db (foldl (delete_one raises) db ds).
Proof.
  induction ds as [|d ds IH]; intros db; [apply shrinks_refl|].
  eapply shrinks_trans; [apply delete_one_shrinks|apply IH].
Qed.
End ops.

(** A request or a round of the scheduler, with a machine, a clock and calls
    that raise of its own. *)
Inductive server_step (db : database) : database → Prop :=
| step_scan raises kb_folder allowed fs now user kb path interval priority :
    server_step db (scan_path uuid raises kb_folder allowed fs now user kb path interval priority db).1
| step_scheduler raises kb_folder fs now : server_step db (scan_worker uuid raises kb_folder fs now db)
| step_triggered raises kb_folder fs now kb :
    server_step db (check_and_trigger_scan uuid raises kb_folder fs now kb db)
| step_deleted raises allowed user id : server_step db (delete_scanned_directory raises allowed user id db).1
| step_interval allowed user id minutes : server_step db (update_scanned_directory allowed user id minutes db).1.

Lemma server_step_ok db db' : tables_ok db → server_step db db' → tables_ok db'.
Proof.
  intros Ht Hs. destruct Hs as [raises kbf allowed fs now user kb path interval prio|raises kbf fs now|raises kbf fs now kb
    |raises allowed user id|allowed user id minutes].
  - unfold scan_path. repeat (match goal with |- context [if ?b then _ else _] => destruct b end; [done|]).
    destruct (get_kb kb db) as [k|]; [|done]. destruct (negb (allowed k user)); [done|].
    pose proof (scan_directory_ok raises kbf fs now kb (abspath (fs_cwd fs) path) interval (Some user) None prio db Ht) as Hs.
    by destruct (scan_directory _ _ _ _ _ _ _ _ _ _ _ _) as [db' [r|report]].
  - by apply scan_due_ok.
  - by apply scan_due_ok.
  - unfold delete_scanned_directory. destruct (get_dir id db) as [d|]; [|done]. destruct (get_kb _ db) as [k|]; [|done].
    destruct (negb (allowed k user)); [done|]. apply delete_dir_ok. eapply tables_shrink; [apply delete_all_shrinks|done].
  - unfold update_scanned_directory. destruct (get_dir id db) as [d|]; [|done]. destruct (get_kb _ db) as [k|]; [|done].
    destruct (negb (allowed k user)); [done|]. by apply tables_update_dir.
Qed.

(** C2: When scans by hand and by the scheduler, deletions and changes run one
    after another, whichever calls raise on the way, no directory of a
    knowledge base is listed twice, no file of it has two scanned documents,
    and identifiers stay distinct. (Scans that overlap in time are not
    covered: of two of them a file may get two documents, see
    concurrent_imports.) *)
Theorem server_reachable db db' : tables_ok db → rtc server_step db db' →
  NoDup (dir_key <$> dirs db') ∧ NoDup (place <$> js_filter is_local (docs db')) ∧
  NoDup (d_id <$> docs db') ∧ NoDup (sd_id <$> dirs db').
Proof.
  intros Ht Hr. assert (tables_ok db') as [H1 H2 H3 H4 H5]; [|done].
  induction Hr; [done|]. eauto using server_step_ok.
Qed.
End tables.
