(* ===== verification/ScanProps.v ===== *)
(** * What a scan does

    The theorems on [Scan]: the documents mirror the files of the directory,
    a second scan changes nothing, a scan is bounded, a round of the scheduler
    scans what is due; and what the code does not keep apart. *)
From S2P Require Import Prelude JsValue Libs Scan.
From Stdlib Require Import Ascii.
Open Scope list_scope.
Open Scope nat_scope.
Open Scope js_scope.

(** ** A scan in which nothing raises *)
Section mirror.
Context (uuid : nat → string) (Huuid : Inj (=) (=) uuid) (kb_folder : string → string).

Definition quiet (c : call) : bool := false.

(** The documents a scan of a path looks at: the test of the code is on the
    text of the path. *)
Definition below (kb path : string) (d : document) : bool :=
  (d_kb_id d === kb) && is_local d && (d_location d !== "") && starts_with path (d_location d).

(** The document agrees with the file at its place. *)
Definition current (fs : filesystem) (d : document) : bool :=
  match fs_stat fs (d_location d) with
  | Some (size, mtime) => (d_size d === size) && (d_content_hash d === mtime_text mtime)
  | None => true
  end.

Definition kept (fs : filesystem) (kb path : string) (d : document) : bool :=
  negb (below kb path d) ||
  (js_includes (files_of_walk (fs_walk fs path)) (d_location d) && current fs d).

Lemma delete_scanned_quiet d db :
  docs (delete_scanned quiet d db).1 = js_filter (λ e, d_id e !== d_id d) (docs db) ∧ (delete_scanned quiet d db).2 = true.
Proof. unfold delete_scanned. simpl. by rewrite remove_document_docs. Qed.

(** What the loop over the documents does with one of them. *)
Definition dropped (fs : filesystem) (path : string) (files : list string) (d : document) : bool :=
  negb ((d_location d === "") || negb (starts_with path (d_location d))) &&
  (negb (js_includes files (d_location d)) || negb (current fs d)).

Lemma check_document_quiet fs path files p d :
  docs (pr_db (check_document quiet fs path files p d)) =
    (if dropped fs path files d then js_filter (λ e, d_id e !== d_id d) (docs (pr_db p)) else docs (pr_db p)) ∧
  pr_imported (check_document quiet fs path files p d) = pr_imported p ∧
  pr_errors (check_document quiet fs path files p d) = pr_errors p.
Proof.
  pose proof (delete_scanned_quiet d (pr_db p)) as [Hd Ho]. unfold check_document, dropped.
  destruct ((d_location d === "") || negb (starts_with path (d_location d))); [done|]. simpl.
  destruct (js_includes files (d_location d)); simpl; [|done].
  unfold current. destruct (fs_stat fs (d_location d)) as [[size mtime]|]; [|done].
  destruct ((d_size d === size) && (d_content_hash d === mtime_text mtime)); [done|].
  simpl. by rewrite remove_document_docs.
Qed.

Lemma check_documents_quiet fs path files ds : ∀ p,
  docs (pr_db (foldl (check_document quiet fs path files) p ds)) =
    js_filter (λ e, negb (js_some (λ d, dropped fs path files d && (d_id e === d_id d)) ds)) (docs (pr_db p)) ∧
  pr_imported (foldl (check_document quiet fs path files) p ds) = pr_imported p ∧
  pr_errors (foldl (check_document quiet fs path files) p ds) = pr_errors p.
Proof.
  induction ds as [|d ds IH]; intros p; [by rewrite js_filter_all|]. simpl foldl.
  destruct (IH (check_document quiet fs path files p d)) as (H1 & H2 & H3).
  destruct (check_document_quiet fs path files p d) as (G1 & G2 & G3).
  split; [|split; congruence]. rewrite H1, G1. destruct (dropped fs path files d) eqn:Hdr; simpl.
  - rewrite js_filter_filter. apply js_filter_ext. intros e _. rewrite Hdr. simpl. by destruct (d_id e === d_id d).
  - apply js_filter_ext. intros e _. by rewrite Hdr.
Qed.

Lemma some_same_key {A B} `{EqDecision B} (key : A → B) (p q : A → bool) (l : list A) e :
  NoDup (key <$> l) → e ∈ l → js_some (λ d, p d && (key e === key d)) (js_filter q l) = q e && p e.
Proof.
  intros Hn He. apply eq_true_iff_eq. rewrite js_some_true. split.
  - intros (d & Hd & Hb). apply elem_of_js_filter in Hd as [Hq Hd]. reflect_bool.
    assert (e = d) as -> by (by apply (NoDup_key_inj key l)). by rewrite Hq.
  - intros [Hq Hp]%andb_true_iff. exists e. split; [by apply elem_of_js_filter|]. rewrite Hp. by rewrite bool_decide_true.
Qed.

Lemma kept_dropped fs kb path d :
  kept fs kb path d = negb ((d_kb_id d === kb) && (d_source_type d === LOCAL_SCAN) &&
                            dropped fs path (files_of_walk (fs_walk fs path)) d).
Proof.
  unfold kept, below, dropped, is_local.
  destruct (d_kb_id d === kb), (d_source_type d === LOCAL_SCAN), (d_location d === ""), (starts_with path (d_location d)),
    (js_includes _ (d_location d)), (current fs d); done.
Qed.

(** The first loop keeps exactly the documents elsewhere and those that agree
    with their file. *)
Lemma check_documents_kept fs kb path p : NoDup (d_id <$> docs (pr_db p)) →
  docs (pr_db (foldl (check_document quiet fs path (files_of_walk (fs_walk fs path))) p
    (js_filter (λ d, (d_kb_id d === kb) && (d_source_type d === LOCAL_SCAN)) (docs (pr_db p))))) =
  js_filter (kept fs kb path) (docs (pr_db p)).
Proof.
  intros Hn. rewrite (proj1 (check_documents_quiet _ _ _ _ _)). apply js_filter_ext. intros e He.
  rewrite kept_dropped. f_equal. by apply (some_same_key d_id).
Qed.

(** Every file that can be read gets a document, unless there is one. *)
Lemma import_file_quiet fs kb creator priority p f size mtime : fs_stat fs f = Some (size, mtime) →
  ∃ d, d ∈ docs (pr_db (import_file uuid quiet kb_folder fs kb creator priority p f)) ∧ d_kb_id d = kb_id kb ∧ d_location d = f.
Proof.
  intros Hs. unfold import_file. destruct (js_some _ (docs (pr_db p))) eqn:Ht.
  - by destruct (proj1 (taken_spec kb f _) Ht) as (d & Hd & Hk & Hl); exists d.
  - unfold import_new. simpl. rewrite Hs. simpl.
    exists (new_document kb creator f (uuid (drawn (pr_db p))) size mtime). split; [|done].
    apply elem_of_app. right. by apply list_elem_of_singleton.
Qed.

Lemma import_file_docs fs kb creator priority p f d : d ∈ docs (pr_db p) →
  d ∈ docs (pr_db (import_file uuid quiet kb_folder fs kb creator priority p f)).
Proof.
  intros Hd. unfold import_file. destruct (js_some _ (docs (pr_db p))); [done|].
  pose proof (import_new_cases uuid quiet kb_folder fs kb creator priority f (pr_db p)) as (_ & _ & Hc).
  destruct (import_new _ _ _ _ _ _ _ _ _) as [db r]. simpl in *.
  destruct Hc as [->|(s & m & _ & ->)]; [done|]. apply elem_of_app. by left.
Qed.

Lemma import_files_quiet fs kb creator priority files f size mtime : f ∈ files → fs_stat fs f = Some (size, mtime) →
  ∀ p, ∃ d, d ∈ docs (pr_db (foldl (import_file uuid quiet kb_folder fs kb creator priority) p files)) ∧
    d_kb_id d = kb_id kb ∧ d_location d = f.
Proof.
  intros Hf Hs. induction files as [|g files IH]; intros p; [set_solver|]. simpl.
  apply elem_of_cons in Hf as [<-|Hf]; [|by apply IH].
  destruct (import_file_quiet fs kb creator priority p f size mtime Hs) as (d & Hd & Hk & Hl). exists d. split; [|done].
  clear IH. generalize dependent (import_file uuid quiet kb_folder fs kb creator priority p f). clear Hs.
  induction files as [|g files IH]; intros q Hq; [done|]. apply IH. by apply import_file_docs.
Qed.

(** The documents after a scan: those kept, and new ones for the files that
    had none. *)
Lemma scan_files_docs fs now kb path interval creator priority db : tables_ok uuid db →
  let db' := (scan_files uuid quiet kb_folder fs now kb path interval creator priority db).1 in
  ∃ news, docs db' = js_filter (kept fs (kb_id kb) path) (docs db) ++ news ∧
    (∀ d, d ∈ news → ∃ i size mtime, fs_stat fs (d_location d) = Some (size, mtime) ∧
       d_location d ∈ files_of_walk (fs_walk fs path) ∧ d = new_document kb creator (d_location d) (uuid i) size mtime) ∧
    ∀ f size mtime, f ∈ files_of_walk (fs_walk fs path) → fs_stat fs f = Some (size, mtime) →
      ∃ d, d ∈ docs db' ∧ d_kb_id d = kb_id kb ∧ d_location d = f.
Proof.
  intros Ht. unfold scan_files.
  pose proof (scan_record_ok uuid Huuid now (kb_id kb) path interval creator db Ht) as [Hr Hd].
  destruct (scan_record uuid now (kb_id kb) path interval creator db) as [id db1]. simpl in Hr, Hd |- *.
  set (p0 := {| pr_db := db1; pr_deleted := 0; pr_skipped := 0; pr_reparsed := 0; pr_imported := []; pr_errors := [] |}).
  pose proof (check_documents_kept fs (kb_id kb) path p0 (to_ids _ _ Hr)) as Hk. simpl in Hk.
  match goal with |- context [foldl (import_file _ _ _ _ _ _ _) ?q _] => set (p := q) in * end.
  destruct (import_files_spec uuid quiet kb_folder fs kb creator priority (files_of_walk (fs_walk fs path)) Huuid p)
    as (_ & _ & news & Hn & [Him _ _ _]).
  exists news. rewrite Hn. split; [|split].
  - subst p. by rewrite Hk, Hd.
  - intros d Hin. destruct (Him d Hin) as (i & s & m & H1 & H2 & H3 & _). by exists i, s, m.
  - intros f s m Hf Hs. rewrite <- Hn. by eapply import_files_quiet.
Qed.
End mirror.

Lemma starts_with_trans p q r : starts_with p q = true → starts_with p (q +:+ r) = true.
Proof. intros [x ->]%starts_with_true. rewrite str_app_assoc. apply starts_with_app. Qed.

Lemma path_join_below p root file : starts_with p root = true → starts_with p (path_join root file) = true.
Proof.
  intros Hp. unfold path_join. case_bool_decide as Hr.
  - subst root. destruct p; [|done]. by destruct file.
  - destruct (ends_with _ root); by apply starts_with_trans.
Qed.

Lemma path_join_nonempty root file : file ≠ "" → path_join root file ≠ "".
Proof.
  intros Hf. unfold path_join. case_bool_decide; [done|]. destruct root; [done|]. by destruct (ends_with _ _).
Qed.

Definition walks_below (fs : filesystem) : Prop :=
  ∀ p root names, (root, names) ∈ fs_walk fs p → starts_with p root = true.

Lemma files_below fs path f : walks_below fs → f ∈ files_of_walk (fs_walk fs path) → f ≠ "" ∧ starts_with path f = true.
Proof.
  intros Hw Hf. unfold files_of_walk in Hf. apply list_elem_of_join in Hf as (l & Hf & Hl).
  apply list_elem_of_fmap in Hl as ([root names] & -> & Hr).
  apply list_elem_of_fmap in Hf as (file & -> & [Hs _]%elem_of_js_filter). simpl.
  split; [|by eapply path_join_below, Hw]. apply path_join_nonempty. by intros ->.
Qed.

Section mirrored.
Context (uuid : nat → string) (Huuid : Inj (=) (=) uuid) (kb_folder : string → string).

Lemma get_kb_id kb k db : get_kb kb db = Some k → kb_id k = kb.
Proof. intros H. apply find_some in H as [_ H]. by apply bool_decide_eq_true in H. Qed.

(** A scan that goes through is the loops over a directory of a knowledge
    base that exists, with at most the maximum of files. *)
Lemma scanned_cases raises fs now kb path interval created_by tenant priority db db' report :
  scan_directory uuid raises kb_folder fs now kb path interval created_by tenant priority db = (db', Scanned report) →
  ∃ k, get_kb kb db = Some k ∧ length (files_of_walk (fs_walk fs (abspath (fs_cwd fs) path))) ≤ MAX_SCAN_FILE_COUNT ∧
    js_some (λ allowed, starts_with allowed (abspath (fs_cwd fs) path)) (get_mounted_volumes (fs_mountinfo fs)) = true ∧
    scan_files uuid raises kb_folder fs now k (abspath (fs_cwd fs) path) interval (creator_of created_by tenant) priority db
      = (db', report).
Proof.
  unfold scan_directory. destruct (get_kb kb db) as [k|]; [|done]. case_bool_decide; [done|].
  destruct (js_some _ (get_mounted_volumes _)) eqn:Ha; simpl; [|done].
  destruct (fs_exists _ _); simpl; [|done]. destruct (fs_isdir _ _); simpl; [|done]. case_bool_decide; [done|].
  case_bool_decide as Hm; [done|]. destruct (scan_files _ _ _ _ _ _ _ _ _ _ _) as [db1 r] eqn:Hs.
  intros [= -> ->]. exists k. split; [done|]. split; [lia|]. done.
Qed.

(** The documents below the path after a scan in which no call raises, and
    those elsewhere. *)
Lemma scanned_documents fs now kb path interval created_by tenant priority db db' report :
  tables_ok uuid db → walks_below fs →
  scan_directory uuid quiet kb_folder fs now kb path interval created_by tenant priority db = (db', Scanned report) →
  let dir := abspath (fs_cwd fs) path in
  let files := files_of_walk (fs_walk fs dir) in
  (∀ d, below kb dir d = false → d ∈ docs db' ↔ d ∈ docs db) ∧
  (∀ d, below kb dir d = true → d ∈ docs db' → d_location d ∈ files ∧ current fs d = true) ∧
  (∀ d, below kb dir d = true → d ∈ docs db → d_location d ∈ files → current fs d = true → d ∈ docs db') ∧
  (∀ f size mtime, f ∈ files → fs_stat fs f = Some (size, mtime) → ∃ d, d ∈ docs db' ∧ d_kb_id d = kb ∧ d_location d = f).
Proof.
  intros Ht Hw Hs dir files. destruct (scanned_cases _ _ _ _ _ _ _ _ _ _ _ _ Hs) as (k & Hk & _ & _ & Hf).
  apply get_kb_id in Hk as Hid. fold dir in Hf.
  destruct (scan_files_docs uuid Huuid kb_folder fs now k dir interval (creator_of created_by tenant) priority db Ht)
    as (news & Hd & Hnew & Hall). rewrite Hf in Hd, Hall. simpl in Hd, Hall. rewrite Hid in *. fold files in Hnew, Hall.
  assert (∀ d, d ∈ news → below kb dir d = true ∧ d_location d ∈ files ∧ current fs d = true) as Hn.
  { intros d Hin. destruct (Hnew d Hin) as (i & s & m & Hst & Hfile & Heq).
    destruct (files_below fs dir (d_location d) Hw Hfile) as [Hne Hp]. split; [|split; [done|]].
    - unfold below, is_local. rewrite Hp, (bool_decide_false _ Hne).
      assert (d_kb_id d = kb ∧ d_source_type d = LOCAL_SCAN) as [-> ->] by (by rewrite Heq).
      by rewrite !bool_decide_true.
    - unfold current. rewrite Hst. assert (d_size d = s ∧ d_content_hash d = mtime_text m) as [-> ->] by (by rewrite Heq).
      by rewrite !bool_decide_true. }
  split; [|split; [|split]]; [| | |done].
  - intros d Hb. rewrite Hd, elem_of_app, elem_of_js_filter. unfold kept. rewrite Hb. simpl. split; [|by auto].
    intros [[_ ?]|Hin]; [done|]. apply Hn in Hin as [? _]. congruence.
  - intros d Hb. rewrite Hd, elem_of_app, elem_of_js_filter. unfold kept. rewrite Hb. simpl.
    intros [[[Hi Hc]%andb_true_iff _]|Hin]; [|by apply Hn]. by apply bool_decide_eq_true in Hi.
  - intros d Hb Hin Hl Hc. rewrite Hd, elem_of_app, elem_of_js_filter. left. split; [|done]. unfold kept.
    rewrite Hb, Hc. unfold js_includes. by rewrite bool_decide_true.
Qed.

(** C1: A scan that goes through and in which no call raises leaves the
    documents elsewhere alone and, of those whose place starts with the path,
    exactly the ones that agree with a file of the directory, as they were;
    and every file that can be read has a document in the knowledge base. *)
Theorem scan_mirrors fs now kb path interval created_by tenant priority db db' report :
  tables_ok uuid db → walks_below fs →
  scan_directory uuid quiet kb_folder fs now kb path interval created_by tenant priority db = (db', Scanned report) →
  let dir := abspath (fs_cwd fs) path in
  let files := files_of_walk (fs_walk fs dir) in
  (∀ d, below kb dir d = false → d ∈ docs db' ↔ d ∈ docs db) ∧
  (∀ d, below kb dir d = true → d ∈ docs db' → d_location d ∈ files ∧ current fs d = true) ∧
  (∀ d, below kb dir d = true → d ∈ docs db → d_location d ∈ files → current fs d = true → d ∈ docs db') ∧
  (∀ f size mtime, f ∈ files → fs_stat fs f = Some (size, mtime) → ∃ d, d ∈ docs db' ∧ d_kb_id d = kb ∧ d_location d = f).
Proof. apply scanned_documents. Qed.

(** ** Scanning again *)

(** A document that stays is counted at most as skipped. *)
Lemma check_document_idle raises fs path files p d : dropped fs path files d = false →
  let p' := check_document raises fs path files p d in
  pr_db p' = pr_db p ∧ pr_deleted p' = pr_deleted p ∧ pr_reparsed p' = pr_reparsed p ∧
  pr_imported p' = pr_imported p ∧ pr_errors p' = pr_errors p.
Proof.
  unfold dropped, check_document, current.
  destruct ((d_location d === "") || negb (starts_with path (d_location d))); [done|]. simpl.
  destruct (js_includes files (d_location d)); simpl; [|done].
  destruct (fs_stat fs (d_location d)) as [[s m]|]; [|done]. by destruct (_ && _).
Qed.

Lemma check_documents_idle raises fs path files ds : (∀ d, d ∈ ds → dropped fs path files d = false) → ∀ p,
  let p' := foldl (check_document raises fs path files) p ds in
  pr_db p' = pr_db p ∧ pr_deleted p' = pr_deleted p ∧ pr_reparsed p' = pr_reparsed p ∧
  pr_imported p' = pr_imported p ∧ pr_errors p' = pr_errors p.
Proof.
  induction ds as [|d ds IH]; intros Hds p; [done|].
  destruct (check_document_idle raises fs path files p d) as (H1 & H2 & H3 & H4 & H5); [apply Hds; set_solver|].
  destruct (IH ltac:(set_solver) (check_document raises fs path files p d)) as (G1 & G2 & G3 & G4 & G5).
  simpl. by rewrite G1, G2, G3, G4, G5.
Qed.

Lemma import_files_idle raises fs kb creator priority files : ∀ p,
  (∀ f, f ∈ files → ∃ d, d ∈ docs (pr_db p) ∧ d_kb_id d = kb_id kb ∧ d_location d = f) →
  let p' := foldl (import_file uuid raises kb_folder fs kb creator priority) p files in
  pr_db p' = pr_db p ∧ pr_deleted p' = pr_deleted p ∧ pr_reparsed p' = pr_reparsed p ∧
  pr_imported p' = pr_imported p ∧ pr_errors p' = pr_errors p.
Proof.
  induction files as [|f files IH]; intros p Hp; [done|]. simpl.
  assert (js_some (λ d, (d_kb_id d === kb_id kb) && (d_location d === f)) (docs (pr_db p)) = true) as Ht
    by (apply taken_spec, Hp; set_solver).
  assert (import_file uuid raises kb_folder fs kb creator priority p f =
    {| pr_db := pr_db p; pr_deleted := pr_deleted p; pr_skipped := S (pr_skipped p); pr_reparsed := pr_reparsed p;
       pr_imported := pr_imported p; pr_errors := pr_errors p |}) as ->
    by (unfold import_file; by rewrite Ht).
  destruct (IH {| pr_db := pr_db p; pr_deleted := pr_deleted p; pr_skipped := S (pr_skipped p);
    pr_reparsed := pr_reparsed p; pr_imported := pr_imported p; pr_errors := pr_errors p |}) as (H1 & H2 & H3 & H4 & H5);
    [|by rewrite H1, H2, H3, H4, H5].
  intros g Hg. apply Hp. set_solver.
Qed.

Lemma update_dir_docs p f db : docs (update_dir p f db) = docs db ∧ tasks (update_dir p f db) = tasks db.
Proof. done. Qed.

Lemma scan_record_tasks now kb path interval creator db :
  tasks (scan_record uuid now kb path interval creator db).2 = tasks db.
Proof. unfold scan_record. by destruct (js_find _ _). Qed.

(** C4: After a scan in which no call raises, of a directory whose files can
    all be read, scanning again while the files are the same changes no
    document, gives the parser nothing to do and reports nothing imported,
    deleted, read again or failed, whoever asks for the second scan and
    whatever would raise in it. *)
Theorem rescan_stable raises fs now now' kb path interval interval' created_by created_by' tenant tenant' priority priority'
    db db' db'' report report' :
  tables_ok uuid db → walks_below fs →
  (∀ f, f ∈ files_of_walk (fs_walk fs (abspath (fs_cwd fs) path)) → is_Some (fs_stat fs f)) →
  scan_directory uuid quiet kb_folder fs now kb path interval created_by tenant priority db = (db', Scanned report) →
  scan_directory uuid raises kb_folder fs now' kb path interval' created_by' tenant' priority' db' = (db'', Scanned report') →
  docs db'' = docs db' ∧ tasks db'' = tasks db' ∧
  sr_imported report' = [] ∧ sr_errors report' = [] ∧ sr_deleted report' = 0 ∧ sr_reparsed report' = 0.
Proof.
  intros Ht Hw Hstat H1 H2.
  destruct (scanned_documents _ _ _ _ _ _ _ _ _ _ _ Ht Hw H1) as (_ & Hcur & _ & Hall).
  destruct (scanned_cases _ _ _ _ _ _ _ _ _ _ _ _ H2) as (k & Hk & _ & _ & Hf). apply get_kb_id in Hk as Hid.
  set (dir := abspath (fs_cwd fs) path) in *. unfold scan_files in Hf.
  assert (tables_ok uuid db') as Ht'.
  { pose proof (scan_directory_ok uuid Huuid quiet kb_folder fs now kb path interval created_by tenant priority db Ht) as G.
    by rewrite H1 in G. }
  pose proof (scan_record_ok uuid Huuid now' (kb_id k) dir interval' (creator_of created_by' tenant') db' Ht') as [_ Hrd].
  pose proof (scan_record_tasks now' (kb_id k) dir interval' (creator_of created_by' tenant') db') as Hrt.
  destruct (scan_record uuid now' (kb_id k) dir interval' (creator_of created_by' tenant') db') as [id db1].
  simpl in Hrd, Hrt, Hf. rewrite Hrd, Hid in Hf. set (files := files_of_walk (fs_walk fs dir)) in *.
  set (p0 := {| pr_db := db1; pr_deleted := 0; pr_skipped := 0; pr_reparsed := 0; pr_imported := []; pr_errors := [] |}) in Hf.
  set (existing := js_filter _ (docs db')) in Hf.
  destruct (check_documents_idle raises fs dir files existing) with (p := p0) as (C1 & C2 & C3 & C4 & C5).
  { intros d [Hkl Hin]%elem_of_js_filter. assert (kept fs kb dir d = true) as Hkept.
    - unfold kept. destruct (below kb dir d) eqn:Hb; [|done]. destruct (Hcur d Hb Hin) as [Hl ->]. simpl.
      unfold js_includes. by rewrite bool_decide_true.
    - rewrite kept_dropped, Hkl in Hkept. by apply negb_true_iff in Hkept. }
  set (p1 := foldl (check_document raises fs dir files) p0 existing) in *.
  destruct (import_files_idle raises fs k (creator_of created_by' tenant') priority' files p1) as (I1 & I2 & I3 & I4 & I5).
  { intros f Hfile. destruct (Hstat f Hfile) as [[s m] Hs]. destruct (Hall f s m Hfile Hs) as (d & Hd & Hk' & Hl).
    exists d. rewrite C1, Hid. simpl. by rewrite Hrd. }
  injection Hf as <- <-. simpl. rewrite I1, I2, I3, I4, I5, C1, C2, C3, C4, C5. simpl. done.
Qed.

Lemma check_documents_lists raises fs path files ds : ∀ p,
  pr_imported (foldl (check_document raises fs path files) p ds) = pr_imported p ∧
  pr_errors (foldl (check_document raises fs path files) p ds) = pr_errors p.
Proof.
  induction ds as [|d ds IH]; intros p; [done|]. simpl. destruct (IH (check_document raises fs path files p d)) as [-> ->].
  unfold check_document. destruct (_ || _); [done|]. destruct (negb _); [done|].
  destruct (fs_stat fs (d_location d)) as [[s m]|]; [|done]. destruct (_ && _); [done|].
  by destruct (delete_scanned raises d (pr_db p)).
Qed.

Lemma import_files_count raises fs kb creator priority files : ∀ p,
  let p' := foldl (import_file uuid raises kb_folder fs kb creator priority) p files in
  length (pr_imported p') + length (pr_errors p') ≤ length (pr_imported p) + length (pr_errors p) + length files.
Proof.
  induction files as [|f files IH]; intros p; simpl; [lia|].
  eapply Nat.le_trans; [apply IH|]. unfold import_file. destruct (js_some _ _); simpl; [lia|].
  destruct (import_new _ _ _ _ _ _ _ _ _) as [db [id|]]; simpl; rewrite length_app; simpl; lia.
Qed.

(** C5: A scan that is refused changes nothing; one that goes through is of a
    path that starts, as a text, with that of a mounted volume, and of a
    directory with at most ten thousand supported files, and it imports and
    reports as failed at most as many as there are. *)
Theorem scan_bounded raises fs now kb path interval created_by tenant priority db :
  match scan_directory uuid raises kb_folder fs now kb path interval created_by tenant priority db with
  | (db', Refused _) => db' = db
  | (db', Scanned report) =>
      (∃ volume, volume ∈ get_mounted_volumes (fs_mountinfo fs) ∧ starts_with volume (abspath (fs_cwd fs) path) = true) ∧
      let files := files_of_walk (fs_walk fs (abspath (fs_cwd fs) path)) in
      length files ≤ MAX_SCAN_FILE_COUNT ∧ length (sr_imported report) + length (sr_errors report) ≤ length files
  end.
Proof.
  destruct (scan_directory _ _ _ _ _ _ _ _ _ _ _ _) as [db' [r|report]] eqn:Hs.
  - unfold scan_directory in Hs. destruct (get_kb kb db) as [k|]; [|by injection Hs].
    repeat match type of Hs with (if ?b then _ else _) = _ => destruct b end; try (by injection Hs).
    by destruct (scan_files _ _ _ _ _ _ _ _ _ _ _).
  - destruct (scanned_cases _ _ _ _ _ _ _ _ _ _ _ _ Hs) as (k & _ & Hm & Ha & Hf). split.
    { apply js_some_true in Ha as (v & Hv & Hp). by exists v. }
    split; [done|]. unfold scan_files in Hf. destruct (scan_record _ _ _ _ _ _ _) as [id db1]. injection Hf as _ <-. simpl.
    eapply Nat.le_trans; [apply import_files_count|].
    match goal with |- context [foldl (check_document _ _ _ ?fl) ?q ?ds] =>
      destruct (check_documents_lists raises fs (abspath (fs_cwd fs) path) fl ds q) as [-> ->] end.
    simpl. done.
Qed.
End mirrored.

(** ** Normal paths *)
Definition name_ok (c : string) : Prop := c ≠ "" ∧ c ≠ "." ∧ c ≠ ".." ∧ count_char slash c = 0.

Lemma split_no_slash s : Forall (λ c, count_char slash c = 0) (js_split slash s).
Proof.
  induction s as [|a s IH]; [by repeat constructor|]. simpl. case_bool_decide as Ha; [by constructor|].
  destruct (js_split slash s) as [|h t]; [constructor; [simpl; by rewrite bool_decide_false|done]|].
  inversion IH as [|? ? Hh Ht]; subst. constructor; [|done]. simpl. by rewrite bool_decide_false, Hh.
Qed.

Lemma norm_fold_ok cs : ∀ acc, Forall (λ c, count_char slash c = 0) cs → Forall name_ok acc →
  Forall name_ok (foldl (norm_component true) acc cs).
Proof.
  induction cs as [|c cs IH]; intros acc Hc Ha; [done|]. inversion Hc as [|? ? H1 H2]; subst. simpl. apply IH; [done|].
  unfold norm_component. destruct (bool_decide_reflect (c = "")) as [->|He]; [done|].
  destruct (bool_decide_reflect (c = ".")) as [->|Hd]; [done|]. cbn [orb].
  assert (last acc ≠ Some "..") as Hl.
  { intros Hl. apply last_Some_elem_of in Hl. rewrite Forall_forall in Ha. destruct (Ha _ Hl) as (_ & _ & Hn & _). by apply Hn. }
  rewrite (bool_decide_false (last acc = _)) by done.
  destruct (bool_decide_reflect (c = "..")) as [->|Hdd]; simpl.
  - clear -Ha. induction acc as [|x acc IH]; [done|]. inversion Ha as [|? ? H1 H2]; subst. simpl.
    destruct acc; [done|]. constructor; [done|]. by apply IH.
  - apply Forall_app. split; [done|]. by repeat constructor.
Qed.

Lemma norm_fold_names cs : Forall name_ok cs → ∀ acc, foldl (norm_component true) acc cs = acc ++ cs.
Proof.
  induction 1 as [|c cs (H1 & H2 & H3 & _) _ IH]; intros acc; [by rewrite app_nil_r|]. simpl. rewrite IH.
  unfold norm_component. rewrite (bool_decide_false _ H1), (bool_decide_false _ H2), (bool_decide_false _ H3). simpl.
  by rewrite <- app_assoc.
Qed.

Lemma split_joined cs : Forall name_ok cs → cs ≠ [] → js_split slash (String.concat (String slash "") cs) = cs.
Proof.
  induction 1 as [|c cs (H1 & H2 & H3 & Hs) Hcs IH]; intros Hne; [done|].
  destruct cs as [|c' cs]; [by apply js_split_no_sep|].
  change (String.concat (String slash "") (c :: c' :: cs)) with
    (c +:+ (String slash "" +:+ String.concat (String slash "") (c' :: cs))).
  rewrite str_cons_app. rewrite js_split_app by done. f_equal. by apply IH.
Qed.

Lemma starts_with_slash a t : starts_with "/" (String a t) = (a === slash).
Proof.
  unfold starts_with. cbn [String.prefix]. destruct (ascii_dec "/" a) as [<-|Hne].
  - by destruct t.
  - symmetry. apply bool_decide_eq_false. intros ->. by apply Hne.
Qed.

Lemma starts_with_two a b t : starts_with "//" (String a (String b t)) = (a === slash) && (b === slash).
Proof.
  unfold starts_with. cbn [String.prefix]. destruct (ascii_dec "/" a) as [<-|Hne].
  - rewrite bool_decide_true by done. apply starts_with_slash.
  - rewrite bool_decide_false; [done|]. intros ->. by apply Hne.
Qed.

Lemma joined_head cs : Forall name_ok cs → starts_with "/" (String.concat (String slash "") cs) = false.
Proof.
  intros H. destruct H as [|c cs (H1 & _ & _ & Hs) Hcs]; [done|].
  destruct c as [|a c]; [done|]. simpl in Hs. case_bool_decide as Ha; [done|].
  assert (∀ x, starts_with "/" (String a x) = false) as Hg
    by (intros x; rewrite starts_with_slash; by apply bool_decide_eq_false).
  destruct cs as [|c' cs]; [apply Hg|exact (Hg (c +:+ (String slash "" +:+ String.concat (String slash "") (c' :: cs))))].
Qed.

Lemma initial_slashes_head t : starts_with "/" t = false →
  initial_slashes t = 0 ∧ initial_slashes (String slash t) = 1 ∧ initial_slashes (String slash (String slash t)) = 2.
Proof.
  intros H. unfold initial_slashes.
  assert (∀ x, starts_with "///" (String slash x) = starts_with "//" x) as H3 by (intros x; by destruct x).
  assert (∀ x, starts_with "//" (String slash x) = starts_with "/" x) as H2 by (intros x; by destruct x).
  assert (∀ x, starts_with "/" (String slash x) = true) as H1 by (intros x; by destruct x).
  assert (starts_with "//" t = false) as H0.
  { destruct t as [|a [|b t]]; [done| |].
    - rewrite starts_with_slash in H. unfold starts_with. cbn [String.prefix]. by destruct (ascii_dec "/" a).
    - rewrite starts_with_slash in H. by rewrite starts_with_two, H. }
  by rewrite !H3, !H2, !H1, ?H2, H0, H.
Qed.

Lemma normal_joined cs n : Forall name_ok cs → 1 ≤ n ≤ 2 →
  let t := String.concat (String slash "") cs in
  let p := match n with 0 => t | 1 => String slash t | _ => String slash (String slash t) end in normpath p = p.
Proof.
  intros Hcs Hn t p. pose proof (joined_head cs Hcs) as Hh. fold t in Hh.
  destruct (initial_slashes_head t Hh) as (_ & H1 & H2).
  assert (foldl (norm_component true) [] (js_split slash t) = cs) as Hf.
  { subst t. destruct (decide (cs = [])) as [->|Hne]; [done|]. rewrite split_joined by done. by apply norm_fold_names. }
  assert (∀ x, foldl (norm_component true) [] (js_split slash (String slash x)) =
                 foldl (norm_component true) [] (js_split slash x)) as Hskip by done.
  assert (n = 1 ∨ n = 2) as [->| ->] by lia; subst p; simpl; unfold normpath.
  - rewrite H1. rewrite bool_decide_false by done. cbv zeta. rewrite bool_decide_false by done.
    change (1 !== 0) with true. by rewrite (Hskip t), Hf.
  - rewrite H2. rewrite bool_decide_false by done. cbv zeta. rewrite bool_decide_false by done.
    change (2 !== 0) with true. by rewrite (Hskip (String slash t)), (Hskip t), Hf.
Qed.

(** Taking the absolute path twice changes nothing, so a directory is found
    again under the path it was stored with. *)
Lemma abspath_idemp cwd p : starts_with "/" cwd = true → abspath cwd (abspath cwd p) = abspath cwd p.
Proof.
  intros Hc. unfold abspath at 2 3. set (q := if starts_with "/" p then p else path_join cwd p).
  assert (starts_with "/" q = true) as Hq.
  { subst q. destruct (starts_with "/" p) eqn:Hp; [done|]. by apply path_join_below. }
  assert (∃ cs n, Forall name_ok cs ∧ 1 ≤ n ≤ 2 ∧ normpath q = 
    let t := String.concat (String slash "") cs in
    match n with 0 => t | 1 => String slash t | _ => String slash (String slash t) end) as (cs & n & Hcs & Hn & ->).
  { exists (foldl (norm_component true) [] (js_split slash q)), (initial_slashes q).
    split; [apply norm_fold_ok; [apply split_no_slash|done]|].
    unfold normpath. destruct (decide (q = "")) as [->|Hne]; [done|]. rewrite bool_decide_false by done.
    assert (1 ≤ initial_slashes q ≤ 2) as Hi.
    { unfold initial_slashes. rewrite Hq. destruct (_ && _); lia. }
    split; [done|]. rewrite (bool_decide_false (initial_slashes q = 0)) by lia. cbn [negb].
    destruct (initial_slashes q) as [|[|m]]; [lia|..]; by rewrite bool_decide_false. }
  unfold abspath.
  assert (∀ t, starts_with "/" (String slash t) = true) as Hs by (by destruct t).
  cbv zeta. destruct n as [|[|[|n]]]; try lia; rewrite Hs.
  - by apply (normal_joined cs 1).
  - by apply (normal_joined cs 2).
Qed.

(** ** The scheduler *)
Section scheduler.
Context (uuid : nat → string) (Huuid : Inj (=) (=) uuid) (kb_folder : string → string) (raises : call → bool).

(** Knowledge bases stay: only their counters move. *)
Definition same_kbs (db db' : database) : Prop := kb_id <$> kbs db' = kb_id <$> kbs db.

Lemma change_doc_num_kbs kb n db : same_kbs db (change_doc_num kb n db).
Proof.
  unfold same_kbs. simpl. rewrite <- list_fmap_compose. apply list_fmap_ext. intros i k _. simpl. by case_bool_decide.
Qed.

Lemma delete_scanned_kbs d db : same_kbs db (delete_scanned raises d db).1.
Proof.
  unfold delete_scanned. destruct (raises (DeleteLinks _)); [done|]. destruct (raises (DeleteFileRow _)); [done|].
  destruct (_ || _); [done|]. cbn [fst]. unfold remove_document. destruct (js_some _ _); [|done].
  etrans; [apply change_doc_num_kbs|done].
Qed.

Lemma import_new_kbs fs kb creator priority path db :
  same_kbs db (import_new uuid raises kb_folder fs kb creator priority path db).1.
Proof.
  unfold import_new. simpl. destruct (fs_stat fs path) as [[s m]|]; [|done].
  destruct (raises (SaveDocument path)); [done|]. destruct (raises (IncreaseDocNum path)); [done|].
  destruct (_ || _); [cbn [fst]; etrans; [apply change_doc_num_kbs|done]|].
  destruct (raises (InsertLink path)), (raises (RunDocument path)); cbn [fst];
    (etrans; [apply change_doc_num_kbs|done]).
Qed.

Lemma foldl_kbs {A} (f : progress → A → progress) (l : list A) :
  (∀ p x, same_kbs (pr_db p) (pr_db (f p x))) → ∀ p, same_kbs (pr_db p) (pr_db (foldl f p l)).
Proof.
  intros Hf. induction l as [|x l IH]; intros p; [done|]. simpl. etrans; [apply IH|apply Hf].
Qed.

Lemma check_document_kbs fs path files p d : same_kbs (pr_db p) (pr_db (check_document raises fs path files p d)).
Proof.
  unfold check_document. destruct (_ || _); [done|]. destruct (negb _); [apply delete_scanned_kbs|].
  destruct (fs_stat fs (d_location d)) as [[s m]|]; [|done]. destruct (_ && _); [done|].
  pose proof (delete_scanned_kbs d (pr_db p)). by destruct (delete_scanned raises d (pr_db p)).
Qed.

Lemma import_file_kbs fs kb creator priority p f :
  same_kbs (pr_db p) (pr_db (import_file uuid raises kb_folder fs kb creator priority p f)).
Proof.
  unfold import_file. destruct (js_some _ _); [done|].
  pose proof (import_new_kbs fs kb creator priority f (pr_db p)). by destruct (import_new _ _ _ _ _ _ _ _ _).
Qed.

Lemma scan_files_kbs fs now k path interval creator priority db :
  same_kbs db (scan_files uuid raises kb_folder fs now k path interval creator priority db).1.
Proof.
  unfold scan_files.
  assert (same_kbs db (scan_record uuid now (kb_id k) path interval creator db).2) as Hr
    by (unfold scan_record; by destruct (js_find _ _)).
  destruct (scan_record _ _ _ _ _ _ _) as [i db1]. unfold same_kbs. simpl.
  etrans; [apply foldl_kbs; intros; apply import_file_kbs|].
  etrans; [apply foldl_kbs; intros; apply check_document_kbs|]. done.
Qed.

(** Of a directory that is listed: the scan writes its time, and nothing else
    in the list of directories. *)
Lemma scan_files_dirs fs now k d path interval creator priority db :
  tables_ok uuid db → d ∈ dirs db → sd_kb_id d = kb_id k → sd_directory_path d = path →
  let db' := (scan_files uuid raises kb_folder fs now k path interval creator priority db).1 in
  dirs db' = map (λ e, if dir_key e === dir_key d then set_last_scan now e else e) (dirs db) ∧ same_kbs db db'.
Proof.
  intros Ht Hd Hk Hp. cbv zeta. split; [|apply scan_files_kbs]. unfold scan_files, scan_record.
  destruct (js_find _ (get_by_kb_id (kb_id k) db)) as [e|] eqn:Hf.
  2: { exfalso. assert (bool_decide (sd_directory_path d = path) = false) as Hno; [|by apply bool_decide_eq_false in Hno].
       eapply (find_none _ _ Hf). apply list_elem_of_In, elem_of_js_filter. by rewrite bool_decide_eq_true. }
  assert (e = d) as ->.
  { apply find_some in Hf as [He%list_elem_of_In Hep]. apply elem_of_js_filter in He as [Hek He]. reflect_bool.
    apply (NoDup_key_inj dir_key (dirs db)); [apply Ht|done..|]. unfold dir_key. congruence. }
  simpl.
  match goal with |- context [foldl (import_file _ _ _ _ _ _ _) (foldl (check_document _ _ _ _) ?q ?ds) ?fl] =>
    set (p0 := q); set (p1 := foldl (check_document raises fs path fl) p0 ds) end.
  destruct (import_files_spec uuid raises kb_folder fs k creator priority (files_of_walk (fs_walk fs path)) Huuid p1)
    as (H1 & _ & _).
  destruct (check_documents_shrink raises fs path (files_of_walk (fs_walk fs path))
    (js_filter (λ d0, (d_kb_id d0 === kb_id k) && (d_source_type d0 === LOCAL_SCAN)) (docs db)) p0) as (H2 & _).
  fold p1 in H2.
  rewrite H1, H2. simpl. rewrite map_map. apply list_fmap_ext. intros i e He%list_elem_of_lookup_2. simpl.
    destruct (bool_decide_reflect (dir_key e = dir_key d)) as [Hkey|Hkey].
    + assert (e = d) as -> by (by apply (NoDup_key_inj dir_key (dirs db)); [apply Ht| | |]).
      rewrite (bool_decide_true (sd_id d = sd_id d)) by done. simpl. by rewrite Hk, Hp, !bool_decide_true.
    + assert (sd_id e ≠ sd_id d) as Hid.
      { intros Hid. apply Hkey. f_equal. by apply (NoDup_key_inj sd_id (dirs db)); [apply Ht| | |]. }
      rewrite (bool_decide_false _ Hid). unfold dir_key in Hkey. rewrite Hk, Hp in Hkey.
      destruct (bool_decide_reflect (sd_kb_id e = kb_id k)), (bool_decide_reflect (sd_directory_path e = path)); simpl; try done.
      congruence.
Qed.
(** Of a path that is not listed: the scan adds its record, at the end. *)
Lemma scan_files_new_dir fs now k path interval creator priority db :
  tables_ok uuid db → (∀ e, e ∈ dirs db → dir_key e ≠ (kb_id k, path)) →
  dirs (scan_files uuid raises kb_folder fs now k path interval creator priority db).1 =
    dirs db ++ [{| sd_id := uuid (drawn db); sd_kb_id := kb_id k; sd_directory_path := path;
                   sd_scan_interval_minutes := interval; sd_last_scan_time := Some now; sd_created_by := creator;
                   sd_created_at := now |}].
Proof.
  intros Ht Hno. unfold scan_files, scan_record.
  destruct (js_find _ (get_by_kb_id (kb_id k) db)) as [e|] eqn:Hf.
  { exfalso. apply find_some in Hf as [He%list_elem_of_In Hep]. apply elem_of_js_filter in He as [Hek He]. reflect_bool.
    apply (Hno e He). unfold dir_key. by rewrite Hek, Hep. }
  simpl.
  match goal with |- context [foldl (import_file _ _ _ _ _ _ _) (foldl (check_document _ _ _ _) ?q ?ds) ?fl] =>
    set (p0 := q); set (p1 := foldl (check_document raises fs path fl) p0 ds) end.
  destruct (import_files_spec uuid raises kb_folder fs k creator priority (files_of_walk (fs_walk fs path)) Huuid p1)
    as (H1 & _ & _).
  destruct (check_documents_shrink raises fs path (files_of_walk (fs_walk fs path))
    (js_filter (λ d0, (d_kb_id d0 === kb_id k) && (d_source_type d0 === LOCAL_SCAN)) (docs db)) p0) as (H2 & _).
  fold p1 in H2. rewrite H1, H2. simpl. rewrite map_map, map_app. simpl. f_equal.
  - rewrite <- (map_id (dirs db)) at 2. apply list_fmap_ext. intros i e He%list_elem_of_lookup_2. simpl.
    assert (sd_id e ≠ uuid (drawn db)) as Hid.
    { intros Heq. destruct (to_fresh _ _ Ht (drawn db)) as [_ Hf']; [lia|]. apply Hf'. rewrite <- Heq.
      by apply list_elem_of_fmap_2. }
    rewrite (bool_decide_false _ Hid). specialize (Hno e He). unfold dir_key in Hno.
    destruct (bool_decide_reflect (sd_kb_id e = kb_id k)), (bool_decide_reflect (sd_directory_path e = path)); simpl;
      try done. congruence.
  - by rewrite (bool_decide_true (uuid _ = _)), !bool_decide_true.
Qed.

(** The directory can be scanned by the scheduler as the machine is. *)
Definition scannable (fs : filesystem) (ids : list string) (d : scanned_directory) : bool :=
  let path := abspath (fs_cwd fs) (sd_directory_path d) in
  let allowed_paths := get_mounted_volumes (fs_mountinfo fs) in
  js_includes ids (sd_kb_id d) && (allowed_paths !== []) && js_some (λ allowed, starts_with allowed path) allowed_paths &&
  fs_exists fs path && fs_isdir fs path && (sd_created_by d !== "") &&
  negb (bool_decide (MAX_SCAN_FILE_COUNT < length (files_of_walk (fs_walk fs path)))).

Lemma scan_one fs now d e cur : tables_ok uuid cur → e ∈ dirs cur → dir_key e = dir_key d →
  abspath (fs_cwd fs) (sd_directory_path d) = sd_directory_path d →
  let db' := (scan_directory uuid raises kb_folder fs now (sd_kb_id d) (sd_directory_path d) (sd_scan_interval_minutes d)
                None (Some (sd_created_by d)) 0 cur).1 in
  dirs db' = (if scannable fs (kb_id <$> kbs cur) d
              then map (λ e, if dir_key e === dir_key d then set_last_scan now e else e) (dirs cur) else dirs cur) ∧
  same_kbs cur db'.
Proof.
  intros Ht He Hkey Hn. unfold scan_directory, scannable. rewrite Hn.
  change (creator_of None (Some (sd_created_by d))) with (sd_created_by d).
  destruct (get_kb (sd_kb_id d) cur) as [k|] eqn:Hk.
  2: { assert (js_includes (kb_id <$> kbs cur) (sd_kb_id d) = false) as ->; [|done]. apply bool_decide_eq_false.
       intros (k & Heq & Hin)%list_elem_of_fmap. assert (bool_decide (kb_id k = sd_kb_id d) = false) as Hf.
       - apply (find_none _ _ Hk). by apply list_elem_of_In.
       - apply bool_decide_eq_false in Hf. by apply Hf. }
  apply find_some in Hk as [Hin%list_elem_of_In Hk%bool_decide_eq_true].
  assert (js_includes (kb_id <$> kbs cur) (sd_kb_id d) = true) as ->.
  { apply bool_decide_eq_true. rewrite <- Hk. by apply list_elem_of_fmap_2. }
  destruct (get_mounted_volumes _ === []); [done|]. destruct (js_some _ _); [|done].
  destruct (fs_exists _ _); [|done]. destruct (fs_isdir _ _); [|done].
  cbn [negb andb]. destruct (sd_created_by d === ""); [done|]. destruct (bool_decide _); [done|].
  unfold dir_key in Hkey. injection Hkey as Hkk Hkp.
  pose proof (scan_files_dirs fs now k e (sd_directory_path d) (sd_scan_interval_minutes d) (sd_created_by d) 0 cur Ht He) as Hs.
  destruct (scan_files _ _ _ _ _ _ _ _ _ _ _) as [db' report]. simpl in *.
  destruct Hs as [Hd Hs]; [congruence|done|]. split; [|done]. rewrite Hd. by unfold dir_key; rewrite Hkk, Hkp.
Qed.

Lemma set_last_scan_key now e : dir_key (set_last_scan now e) = dir_key e.
Proof. done. Qed.

Lemma scan_all fs now ids l : ∀ cur, tables_ok uuid cur → kb_id <$> kbs cur = ids →
  (∀ d, d ∈ l → (∃ e, e ∈ dirs cur ∧ dir_key e = dir_key d) ∧ abspath (fs_cwd fs) (sd_directory_path d) = sd_directory_path d) →
  dirs (scan_due uuid raises kb_folder fs now sd_created_by l cur) =
    map (λ e, if js_some (λ d, (due now d && scannable fs ids d) && (dir_key e === dir_key d)) l
              then set_last_scan now e else e) (dirs cur).
Proof.
  induction l as [|d l IH]; intros cur Ht Hids Hl; simpl; [by rewrite map_id|].
  destruct (Hl d) as [(e & He & Hkey) Hn]; [set_solver|].
  pose proof (scan_one fs now d e cur Ht He Hkey Hn) as [Hd Hk].
  set (cur' := if due now d then _ else cur).
  assert (tables_ok uuid cur') as Ht' by (subst cur'; destruct (due now d); [by apply scan_directory_ok|done]).
  assert (kb_id <$> kbs cur' = ids) as Hids' by (subst cur'; destruct (due now d); [by rewrite Hk|done]).
  assert (dirs cur' = map (λ e, if (due now d && scannable fs ids d) && (dir_key e === dir_key d)
                               then set_last_scan now e else e) (dirs cur)) as Hd'.
  { subst cur'. destruct (due now d); simpl; [|by rewrite map_id]. rewrite Hd, Hids.
    destruct (scannable fs ids d); simpl; [done|by rewrite map_id]. }
  rewrite (IH cur' Ht' Hids').
  - rewrite Hd', map_map. apply list_fmap_ext. intros i x _. simpl.
    destruct ((due now d && scannable fs ids d) && (dir_key x === dir_key d)); simpl; [|done].
    rewrite set_last_scan_key. by destruct (js_some _ l).
  - intros d' Hin. destruct (Hl d') as [(e' & He' & Hkey') Hn']; [set_solver|]. split; [|done].
    rewrite Hd'. eexists. split; [apply list_elem_of_fmap_2, He'|]. rewrite <- Hkey'.
    by destruct ((due now d && scannable fs ids d) && (dir_key e' === dir_key d)).
Qed.

(** C3: A round of the scheduler scans exactly the directories that are due
    and can be scanned: each of them is given the time of the round, and
    nothing else in the list of directories changes, whichever calls raise. *)
Theorem scheduler_round fs now db : tables_ok uuid db →
  (∀ d, d ∈ dirs db → abspath (fs_cwd fs) (sd_directory_path d) = sd_directory_path d) →
  dirs (scan_worker uuid raises kb_folder fs now db) =
    map (λ d, if due now d && scannable fs (kb_id <$> kbs db) d then set_last_scan now d else d) (dirs db).
Proof.
  intros Ht Hn. unfold scan_worker. rewrite (scan_all fs now (kb_id <$> kbs db) (dirs db) db Ht eq_refl).
  - apply list_fmap_ext. intros i d Hd%list_elem_of_lookup_2. f_equal.
    pose proof (some_same_key dir_key (λ d, due now d && scannable fs (kb_id <$> kbs db) d) (λ _, true) (dirs db) d
      (to_paths _ _ Ht) Hd) as Hs.
    rewrite js_filter_all in Hs by done. by rewrite Hs.
  - intros d Hd. split; [by exists d|by apply Hn].
Qed.

(** The time of the last scan of a due directory that can be scanned moves
    on, so it is not due again before its interval has passed. *)
Lemma scanned_not_due now later d : (0 < sd_scan_interval_minutes d)%Z →
  (now <= later < now + sd_scan_interval_minutes d * 60000000)%Z → due later (set_last_scan now d) = false.
Proof. intros Hi Hl. unfold due. simpl. apply Z.leb_gt. lia. Qed.
End scheduler.

(** ** Two scans at once

    The check for a document and its import are separate calls, and a request
    for the list, a scan by hand and the scheduler run in threads of their
    own: if both have checked before either imports, the file gets two. *)
Lemma concurrent_imports uuid kb_folder fs kb creator creator' priority priority' path size mtime db :
  fs_stat fs path = Some (size, mtime) →
  js_some (λ d, (d_kb_id d === kb_id kb) && (d_location d === path)) (docs db) = false →
  let db1 := (import_new uuid quiet kb_folder fs kb creator priority path db).1 in
  let db2 := (import_new uuid quiet kb_folder fs kb creator' priority' path db1).1 in
  ¬ NoDup (place <$> js_filter is_local (docs db2)).
Proof.
  intros Hs _. unfold import_new. simpl. rewrite Hs. simpl.
  rewrite !js_filter_app, !fmap_app, <- app_assoc. intros (_ & _ & Hn)%NoDup_app.
  apply NoDup_cons in Hn as [Hn _]. apply Hn. by apply list_elem_of_singleton.
Qed.

(** ** A machine *)
Module Machine.
Definition walk (p : string) : list (string * list string) :=
  if p === "/hdd1/a" then [("/hdd1/a", ["x.PDF"; "z.bin"]); ("/hdd1/a/sub", ["y.mp4"])]
  else if p === "/hdd1/ab" then [("/hdd1/ab", ["w.txt"])]
  else [].

Definition machine : filesystem :=
  {| fs_cwd := "/ragflow"; fs_mountinfo := ["36 25 8:17 / /hdd1 rw,relatime shared:1 - ext4 /dev/sdb1 rw";
       "22 25 0:20 / /sys rw - sysfs sysfs rw"];
     fs_exists p := true; fs_isdir p := true; fs_walk := walk; fs_stat p := Some (7%Z, 100%Z) |}.

Definition kb : knowledgebase :=
  {| kb_id := "kb"; kb_tenant_id := "t"; kb_parser_id := "naive"; kb_pipeline_id := None; kb_parser_config := VUndef;
     kb_doc_num := 0 |}.

Definition fresh_db : database :=
  {| kbs := [kb]; dirs := []; docs := []; file_rows := []; links := []; tasks := []; drawn := 0 |}.

Definition uuid (n : nat) : string := pretty n.
Definition folder (t : string) : string := "folder".

Definition scan (now : Z) (path : string) (db : database) : database * scan_result :=
  scan_directory uuid quiet folder machine now "kb" path 10 (Some "u") None 0 db.

Definition once : database * scan_result := Eval vm_compute in scan 1 "/hdd1/a" fresh_db.
Definition twice : database * scan_result := Eval vm_compute in scan 2 "/hdd1/a/../a/" once.1.
Definition sibling : database * scan_result := Eval vm_compute in scan 2 "/hdd1/ab" once.1.

Definition report_of (r : scan_result) : scan_report :=
  match r with
  | Scanned report => report
  | Refused _ => {| sr_imported := []; sr_errors := []; sr_scan_dir_id := ""; sr_deleted := 0; sr_skipped := 0; sr_reparsed := 0 |}
  end.

Lemma uuid_inj : Inj (=) (=) uuid.
Proof. intros a b H. unfold uuid in H. by apply pretty_nat_inj in H. Qed.

Lemma walks : walks_below machine.
Proof.
  intros p root names. simpl. unfold walk. repeat case_bool_decide; subst; [| |set_solver];
    intros Hin; repeat (apply elem_of_cons in Hin as [[= -> ->]|Hin]; [done|]); by apply elem_of_nil in Hin.
Qed.

Lemma fresh_ok : tables_ok uuid fresh_db.
Proof. split; try constructor; set_solver. Qed.

Lemma once_eq : scan 1 "/hdd1/a" fresh_db = (once.1, Scanned (report_of once.2)).
Proof. by vm_compute. Qed.

Lemma twice_eq : scan 2 "/hdd1/a/../a/" once.1 = (twice.1, Scanned (report_of twice.2)).
Proof. by vm_compute. Qed.

Lemma once_ok : tables_ok uuid once.1.
Proof.
  pose proof (scan_directory_ok uuid uuid_inj quiet folder machine 1 "kb" "/hdd1/a" 10 (Some "u") None 0 fresh_db fresh_ok) as H.
  fold (scan 1 "/hdd1/a" fresh_db) in H. by rewrite once_eq in H.
Qed.

(** The scan of the directory imported the two supported files. *)
Example once_documents : (λ d, (d_location d, d_parser_id d)) <$> docs once.1 =
  [("/hdd1/a/x.PDF", "naive"); ("/hdd1/a/sub/y.mp4", "picture")].
Proof. done. Qed.
End Machine.

(** A mount is judged by its source, which is read as if it were its type:
    ext4 is in the list of types that are left out. *)
Theorem source_for_type : mount_of_line "36 25 8:17 / /hdd1 rw,relatime shared:1 - ext4 /dev/sdb1 rw" = Some "/hdd1" ∧
  js_includes system_fs "ext4" = true.
Proof. by vm_compute. Qed.

(** Scanning a directory deletes the documents of another whose path goes on
    from its last name. *)
Theorem sibling_deleted :
  (d_location <$> docs (Machine.scan 3 "/hdd1/ab" Machine.once.1).1) =
    ["/hdd1/a/x.PDF"; "/hdd1/a/sub/y.mp4"; "/hdd1/ab/w.txt"] ∧
  (d_location <$> docs (Machine.scan 4 "/hdd1/a" (Machine.scan 3 "/hdd1/ab" Machine.once.1).1).1) =
    ["/hdd1/a/x.PDF"; "/hdd1/a/sub/y.mp4"].
Proof. by vm_compute. Qed.

(** A file that has not changed is counted as skipped twice. *)
Theorem skipped_twice : sr_skipped (Machine.report_of (Machine.scan 3 "/hdd1/a" Machine.once.1).2) = 4.
Proof. by vm_compute. Qed.

(** The interval of a directory that is listed is not changed by scanning it
    with another. *)
Theorem interval_kept : sd_scan_interval_minutes <$>
  dirs (scan_directory Machine.uuid quiet Machine.folder Machine.machine 2 "kb" "/hdd1/a" 60 (Some "u") None 0 Machine.once.1).1
  = [10%Z].
Proof. by vm_compute. Qed.

Lemma server_reachable_witness :
  NoDup (dir_key <$> dirs Machine.once.1) ∧ NoDup (place <$> js_filter is_local (docs Machine.once.1)) ∧
  NoDup (d_id <$> docs Machine.once.1) ∧ NoDup (sd_id <$> dirs Machine.once.1).
Proof.
  apply (server_reachable Machine.uuid Machine.uuid_inj Machine.fresh_db); [apply Machine.fresh_ok|].
  apply rtc_once.
  exact (step_scan Machine.uuid Machine.fresh_db quiet Machine.folder (λ _ _, true) Machine.machine 1 "u" "kb" "/hdd1/a" 10 0).
Defined.

Lemma scan_mirrors_witness :
  ∃ d, d ∈ docs Machine.once.1 ∧ d_kb_id d = "kb" ∧ d_location d = "/hdd1/a/sub/y.mp4".
Proof.
  destruct (scan_mirrors Machine.uuid Machine.uuid_inj Machine.folder Machine.machine 1 "kb" "/hdd1/a" 10 (Some "u") None 0
    Machine.fresh_db Machine.once.1 (Machine.report_of Machine.once.2) Machine.fresh_ok Machine.walks Machine.once_eq)
    as (_ & _ & _ & H).
  apply (H "/hdd1/a/sub/y.mp4" 7%Z 100%Z); [|done]. apply (bool_decide_unpack _). vm_compute. exact I.
Defined.

Lemma rescan_stable_witness : docs Machine.twice.1 = docs Machine.once.1 ∧ sr_imported (Machine.report_of Machine.twice.2) = [].
Proof.
  destruct (rescan_stable Machine.uuid Machine.uuid_inj Machine.folder quiet Machine.machine 1 2 "kb" "/hdd1/a" 10 10
    (Some "u") (Some "u") None None 0 0 Machine.fresh_db Machine.once.1 Machine.twice.1
    (Machine.report_of Machine.once.2) (Machine.report_of Machine.twice.2)) as (H1 & _ & H2 & _); [..|by split].
  - apply Machine.fresh_ok.
  - apply Machine.walks.
  - intros f _. by eexists.
  - apply Machine.once_eq.
  - by vm_compute.
Defined.

Lemma scheduler_round_witness :
  dirs (scan_worker Machine.uuid quiet Machine.folder Machine.machine 700000000 Machine.once.1) =
  map (λ d, if due 700000000 d && scannable Machine.machine ["kb"] d then set_last_scan 700000000 d else d)
    (dirs Machine.once.1).
Proof.
  apply (scheduler_round Machine.uuid Machine.uuid_inj Machine.folder quiet Machine.machine 700000000 Machine.once.1).
  - apply Machine.once_ok.
  - intros d [->|Hd]%elem_of_cons; [done|by apply elem_of_nil in Hd].
Defined.
