(* ===== verification/ScanPage.v ===== *)
(** * The dialog of scanned directories

    pages/dataset/dataset/use-scan-path.ts and scan-path-modal.tsx, with the
    requests of services/knowledge-service.ts, and their composition with the
    server of [Scan].  The validation of the form (a path is required), the
    toasts and the query cache are those of antd and react-query: a toast is a
    notice, an invalidation a count. *)
From S2P Require Import Prelude JsValue Libs Scan ScanProps.
From Stdlib Require Import Ascii.
Open Scope list_scope.
Open Scope nat_scope.
Open Scope js_scope.

(** ** Paths and the list *)
Definition backslash : ascii := ascii_of_nat 92.

(** [p.replace(/\\+/g, '/')] *)
Fixpoint collapse_backslashes (inside : bool) (s : string) : string :=
  match s with
  | "" => ""
  | String c s' =>
      if c === backslash
      then if inside then collapse_backslashes true s' else String slash (collapse_backslashes true s')
      else String c (collapse_backslashes false s')
  end.

(** [p.replace(/\/+$/, '')] *)
Fixpoint strip_slashes (s : string) : string :=
  match s with
  | "" => ""
  | String c s' => let r := strip_slashes s' in if (c === slash) && (r === "") then "" else String c r
  end.

Definition normalizePath (p : string) : string := strip_slashes (collapse_backslashes false p).

Record ScannedDirectory := {
  id : string;
  directory_path : string;
  scan_interval_minutes : Z;
  last_scan_time : option string
}.

(** [a.localeCompare(b) > 0] on the times of the server, which are of ASCII
    and of one format: by code units. *)
Fixpoint text_after (a b : string) : bool :=
  match a, b with
  | "", _ => false
  | String _ _, "" => true
  | String x a', String y b' =>
      if x === y then text_after a' b' else bool_decide (nat_of_ascii y < nat_of_ascii x)
  end.

(** The comparator of the table returns a positive number. *)
Definition scanned_after (a b : ScannedDirectory) : bool :=
  let ta := default "" (last_scan_time a) in
  let tb := default "" (last_scan_time b) in
  if (ta === "") && (tb === "") then false
  else if ta === "" then true
  else if tb === "" then false
  else text_after ta tb.

Definition sortedDirectories (directories : list ScannedDirectory) : list ScannedDirectory :=
  js_sort scanned_after directories.

(** ** The page *)
Inductive scan_request :=
| ScanPath (path : string) (scan_interval : option Z)
| GetDirectories
| DeleteDirectory (id : string)
| UpdateDirectory (id : string) (scan_interval : Z).

(** What a request comes back with: the code, the message and the data of an
    answer, an answer without data, or an error. *)
Inductive scan_answer :=
| Imported (imported : nat) (message : string)
| Listed (l : option (list ScannedDirectory))
| Done
| Failed (message : option string).

Inductive notice :=
| ScannedFiles (count : nat) | NoFiles (message : string) | ScanFailed (message : option string)
| DirectoryRemoved | DeleteFailed | IntervalUpdated | UpdateFailed | MissingKnowledgeBase | DuplicatePath.

Record scan_form := { fm_path : string; fm_scan_interval : option Z }.

Definition initial_form : scan_form := {| fm_path := ""; fm_scan_interval := Some 40320%Z |}.

Record scan_page := {
  pg_visible : bool;
  pg_loading : bool;
  pg_directories : list ScannedDirectory;
  pg_form : scan_form;
  pg_pending : list scan_request;
  pg_notices : list notice;
  pg_invalidated : nat
}.

Section page.
Context (kbId : string).

Definition send (r : scan_request) (p : scan_page) : scan_page :=
  {| pg_visible := pg_visible p; pg_loading := pg_loading p; pg_directories := pg_directories p; pg_form := pg_form p;
     pg_pending := pg_pending p ++ [r]; pg_notices := pg_notices p; pg_invalidated := pg_invalidated p |}.

Definition notify (n : notice) (p : scan_page) : scan_page :=
  {| pg_visible := pg_visible p; pg_loading := pg_loading p; pg_directories := pg_directories p; pg_form := pg_form p;
     pg_pending := pg_pending p; pg_notices := pg_notices p ++ [n]; pg_invalidated := pg_invalidated p |}.

Definition set_visible (b : bool) (p : scan_page) : scan_page :=
  {| pg_visible := b; pg_loading := pg_loading p; pg_directories := pg_directories p; pg_form := pg_form p;
     pg_pending := pg_pending p; pg_notices := pg_notices p; pg_invalidated := pg_invalidated p |}.

Definition setLoading (b : bool) (p : scan_page) : scan_page :=
  {| pg_visible := pg_visible p; pg_loading := b; pg_directories := pg_directories p; pg_form := pg_form p;
     pg_pending := pg_pending p; pg_notices := pg_notices p; pg_invalidated := pg_invalidated p |}.

Definition setDirectories (l : list ScannedDirectory) (p : scan_page) : scan_page :=
  {| pg_visible := pg_visible p; pg_loading := pg_loading p; pg_directories := l; pg_form := pg_form p;
     pg_pending := pg_pending p; pg_notices := pg_notices p; pg_invalidated := pg_invalidated p |}.

Definition set_form (f : scan_form) (p : scan_page) : scan_page :=
  {| pg_visible := pg_visible p; pg_loading := pg_loading p; pg_directories := pg_directories p; pg_form := f;
     pg_pending := pg_pending p; pg_notices := pg_notices p; pg_invalidated := pg_invalidated p |}.

Definition invalidate (p : scan_page) : scan_page :=
  {| pg_visible := pg_visible p; pg_loading := pg_loading p; pg_directories := pg_directories p; pg_form := pg_form p;
     pg_pending := pg_pending p; pg_notices := pg_notices p; pg_invalidated := S (pg_invalidated p) |}.

Definition loadDirectories (p : scan_page) : scan_page := if kbId === "" then p else send GetDirectories p.

(** Opening the dialog mounts it with a new form and runs the effect that
    loads the list. *)
Definition showScanPathModal (p : scan_page) : scan_page :=
  if pg_visible p then p else loadDirectories (set_form initial_form (set_visible true p)).

Definition onScanPathOk (path : string) (scanInterval : option Z) (p : scan_page) : scan_page :=
  if kbId === "" then notify MissingKnowledgeBase p else send (ScanPath path scanInterval) (setLoading true p).

(** The scan button, which does nothing while a scan is loading. *)
Definition handleOk (p : scan_page) : scan_page :=
  if pg_loading p then p
  else if fm_path (pg_form p) === "" then p
  else
    let inputPath := normalizePath (fm_path (pg_form p)) in
    if js_some (λ dir, normalizePath (directory_path dir) === inputPath) (pg_directories p)
    then notify DuplicatePath p
    else set_form initial_form (onScanPathOk (fm_path (pg_form p)) (fm_scan_interval (pg_form p)) p).

Definition handleCancel (p : scan_page) : scan_page := set_visible false (set_form initial_form p).

Definition onDelete (id : string) (p : scan_page) : scan_page := send (DeleteDirectory id) p.

Definition onUpdateInterval (id : string) (interval : Z) (p : scan_page) : scan_page := send (UpdateDirectory id interval) p.

(** The answer to a request, in the handler that sent it. *)
Definition answered (r : scan_request) (a : scan_answer) (p : scan_page) : scan_page :=
  match r with
  | ScanPath _ _ =>
      setLoading false
        match a with
        | Imported n message =>
            set_visible false (invalidate (loadDirectories
              (notify (if bool_decide (0 < n) then ScannedFiles n else NoFiles message) p)))
        | Failed message => notify (ScanFailed message) p
        | _ => notify (ScanFailed None) p
        end
  | GetDirectories => match a with Listed l => setDirectories (default [] l) p | _ => p end
  | DeleteDirectory _ =>
      match a with Done => loadDirectories (notify DirectoryRemoved p) | _ => notify DeleteFailed p end
  | UpdateDirectory _ _ =>
      match a with Done => loadDirectories (notify IntervalUpdated p) | _ => notify UpdateFailed p end
  end.

(** The answer to the request at a place of those that wait. *)
Definition reply_at (i : nat) (a : scan_answer) (p : scan_page) : scan_page :=
  match pg_pending p !! i with
  | Some r =>
      answered r a {| pg_visible := pg_visible p; pg_loading := pg_loading p; pg_directories := pg_directories p;
                      pg_form := pg_form p; pg_pending := take i (pg_pending p) ++ drop (S i) (pg_pending p);
                      pg_notices := pg_notices p; pg_invalidated := pg_invalidated p |}
  | None => p
  end.

Inductive page_step (p : scan_page) : scan_page → Prop :=
| step_open : page_step p (showScanPathModal p)
| step_edit f : pg_visible p = true → page_step p (set_form f p)
| step_ok : pg_visible p = true → page_step p (handleOk p)
| step_cancel : page_step p (handleCancel p)
| step_delete id : pg_visible p = true → page_step p (onDelete id p)
| step_update id interval : pg_visible p = true → page_step p (onUpdateInterval id interval p)
| step_reply i a : page_step p (reply_at i a p).

Definition closed_page : scan_page :=
  {| pg_visible := false; pg_loading := false; pg_directories := []; pg_form := initial_form; pg_pending := [];
     pg_notices := []; pg_invalidated := 0 |}.
End page.

(** ** The server behind the page *)
Section composition.
Context (uuid : nat → string) (raises : call → bool) (kb_folder : string → string)
  (allowed : knowledgebase → string → bool) (isoformat : Z → string) (failure_message : reply → string) (user kbId : string).

Definition to_page (d : scanned_directory) : ScannedDirectory :=
  {| id := sd_id d; directory_path := sd_directory_path d; scan_interval_minutes := sd_scan_interval_minutes d;
     last_scan_time := isoformat <$> sd_last_scan_time d |}.

(** The server with the threads that a request for the list has started and
    that have not run: each checks the directories of the knowledge base the
    request has read. *)
Record server := { sv_db : database; sv_threads : list knowledgebase }.

Definition with_db (db : database) (s : server) : server := {| sv_db := db; sv_threads := sv_threads s |}.

(** The request for the list, as far as the thread it starts. *)
Definition get_scanned_directories_route (s : server) : server * reply :=
  match get_scanned_directories allowed user kbId (sv_db s), get_kb kbId (sv_db s) with
  | Directories l, Some kb => ({| sv_db := sv_db s; sv_threads := sv_threads s ++ [kb] |}, Directories l)
  | r, _ => (s, r)
  end.

(** One request served, with the answer as the page reads it; a scan without
    an interval is one of sixty minutes. *)
Definition serve (fs : filesystem) (now : Z) (r : scan_request) (s : server) : server * scan_answer :=
  match r with
  | ScanPath path interval =>
      match scan_path uuid raises kb_folder allowed fs now user kbId path (default 60%Z interval) 0 (sv_db s) with
      | (db, Data report) => (with_db db s, Imported (length (sr_imported report)) "success")
      | (db, r) => (with_db db s, Failed (Some (failure_message r)))
      end
  | GetDirectories =>
      match get_scanned_directories_route s with
      | (s, Directories l) => (s, Listed (Some (map to_page l)))
      | (s, _) => (s, Failed None)
      end
  | DeleteDirectory i =>
      match delete_scanned_directory raises allowed user i (sv_db s) with
      | (db, Deleted _) => (with_db db s, Done)
      | (db, _) => (with_db db s, Failed None)
      end
  | UpdateDirectory i interval =>
      match update_scanned_directory allowed user i interval (sv_db s) with
      | (db, Interval _) => (with_db db s, Done)
      | (db, _) => (with_db db s, Failed None)
      end
  end.

(** The first request that waits is served and its answer delivered. *)
Definition turn (fs : filesystem) (now : Z) (w : scan_page * server) : scan_page * server :=
  match pg_pending w.1 with
  | [] => w
  | r :: _ => let '(s, a) := serve fs now r w.2 in (reply_at kbId 0 a w.1, s)
  end.

(** A thread that was started runs: it scans what is due. *)
Definition background (fs : filesystem) (now : Z) (s : server) : server :=
  match sv_threads s with
  | [] => s
  | kb :: rest => {| sv_db := check_and_trigger_scan uuid raises kb_folder fs now kb (sv_db s); sv_threads := rest |}
  end.
End composition.

(** ** Paths *)

(** A path without backslashes that does not end in a slash. *)
Definition plain (p : string) : Prop := count_char backslash p = 0 ∧ ends_with (String slash "") p = false.

Lemma collapse_plain p : count_char backslash p = 0 → ∀ inside, collapse_backslashes inside p = p.
Proof.
  induction p as [|c p IH]; intros Hp inside; [done|]. simpl in *. case_bool_decide; [done|]. by rewrite IH.
Qed.

Lemma strip_slashes_nil p : strip_slashes (p +:+ String slash "") = strip_slashes p.
Proof. induction p as [|c p IH]; [done|]. rewrite str_cons_app. simpl. by rewrite IH. Qed.

Lemma ends_with_slash p : ends_with (String slash "") (p +:+ String slash "") = true.
Proof.
  unfold ends_with, slice_last. rewrite str_length_app. simpl.
  rewrite bool_decide_true by lia. replace (String.length p + 1 - 1) with (String.length p) by lia.
  rewrite str_from_app. by rewrite bool_decide_true.
Qed.

(** A text is empty or has a last character. *)
Lemma string_snoc p : p = "" ∨ ∃ q c, p = q +:+ String c "".
Proof.
  induction p as [|c p IH]; [by left|right]. destruct IH as [->|(q & d & ->)]; [by exists "", c|by exists (String c q), d].
Qed.

Lemma strip_snoc q c : c ≠ slash → strip_slashes (q +:+ String c "") = q +:+ String c "".
Proof.
  intros Hc. induction q as [|a q IH]; simpl; [by rewrite bool_decide_false|]. rewrite IH.
  assert ((q +:+ String c "") ≠ "") as Hne by (by destruct q). rewrite (bool_decide_false _ Hne). by rewrite andb_false_r.
Qed.

Lemma normalize_plain p : plain p → normalizePath p = p.
Proof.
  intros [Hb He]. unfold normalizePath. rewrite collapse_plain by done.
  destruct (string_snoc p) as [->|(q & c & ->)]; [done|]. apply strip_snoc. intros ->. by rewrite ends_with_slash in He.
Qed.

(** ** The table *)
Lemma text_after_asym a : ∀ b, text_after a b = true → text_after b a = false.
Proof.
  induction a as [|x a IH]; intros [|y b]; simpl; try done.
  repeat case_bool_decide; subst; try done; try lia. apply IH.
Qed.

Lemma scanned_after_asym a b : scanned_after a b = true → scanned_after b a = false.
Proof.
  unfold scanned_after. destruct (default "" (last_scan_time a) === ""), (default "" (last_scan_time b) === ""); simpl;
    try done. apply text_after_asym.
Qed.

(** The table lists the directories, those never scanned last and the others
    by the time of their scan. *)
Theorem directories_sorted l :
  sortedDirectories l ≡ₚ l ∧ Sorted (λ a b, scanned_after a b = false) (sortedDirectories l).
Proof. split; [apply js_sort_Permutation|]. apply js_sort_Sorted, scanned_after_asym. Qed.

(** ** The page, whatever the order of answers *)
Definition is_scan (r : scan_request) : bool := match r with ScanPath _ _ => true | _ => false end.

Definition scans (p : scan_page) : nat := length (js_filter is_scan (pg_pending p)).

Section page_invariant.
Context (kbId : string).

(** The button loads exactly while a scan waits, and there is one at most. *)
Definition page_ok (p : scan_page) : Prop := scans p = if pg_loading p then 1 else 0.

Lemma scans_snoc r p : scans (send r p) = scans p + if is_scan r then 1 else 0.
Proof.
  unfold scans. simpl. rewrite js_filter_app, length_app, js_filter_cons. by destruct (is_scan r).
Qed.

Lemma load_scans p : scans (loadDirectories kbId p) = scans p ∧ pg_loading (loadDirectories kbId p) = pg_loading p.
Proof. unfold loadDirectories. case_bool_decide; [done|]. split; [|done]. rewrite scans_snoc. simpl. lia. Qed.

Lemma handleOk_ok p : page_ok p → page_ok (handleOk kbId p).
Proof.
  unfold page_ok, handleOk. intros Hp. destruct (pg_loading p) eqn:Hl; [by rewrite Hl|].
  case_bool_decide; [by rewrite Hl|]. destruct (js_some _ _); [by simpl; rewrite Hl|].
  unfold onScanPathOk. case_bool_decide; [by simpl; rewrite Hl|].
  change (scans (set_form initial_form ?q)) with (scans q). rewrite scans_snoc. simpl.
  change (scans (setLoading true p)) with (scans p). by rewrite Hp.
Qed.

Lemma answered_ok r a q : scans q + (if is_scan r then 1 else 0) = (if pg_loading q then 1 else 0) →
  page_ok (answered kbId r a q).
Proof.
  unfold page_ok. intros Hq. destruct r as [path i| |d|d i]; simpl in Hq |- *.
  - change (scans (setLoading false ?x)) with (scans x). assert (scans q = 0) as H0 by (destruct (pg_loading q); lia).
    destruct a as [n m|l| |m]; try done. change (scans (set_visible false (invalidate ?x))) with (scans x).
    by rewrite (proj1 (load_scans _)).
  - rewrite Nat.add_0_r in Hq. by destruct a.
  - rewrite Nat.add_0_r in Hq. destruct a; try done. by rewrite (proj1 (load_scans _)), (proj2 (load_scans _)).
  - rewrite Nat.add_0_r in Hq. destruct a; try done. by rewrite (proj1 (load_scans _)), (proj2 (load_scans _)).
Qed.

Lemma scans_at (l : list scan_request) i r : l !! i = Some r →
  length (js_filter is_scan l) = length (js_filter is_scan (take i l ++ drop (S i) l)) + if is_scan r then 1 else 0.
Proof.
  intros Hi. rewrite <- (take_drop_middle l i r Hi) at 1. rewrite !js_filter_app, !length_app, js_filter_cons.
  destruct (is_scan r); simpl; lia.
Qed.

Lemma scan_page_step_ok p p' : page_ok p → page_step kbId p p' → page_ok p'.
Proof.
  intros Hp Hs. destruct Hs as [|f _|_| |d _|d n _|i a].
  - unfold showScanPathModal. destruct (pg_visible p); [done|]. unfold page_ok.
    by rewrite (proj1 (load_scans _)), (proj2 (load_scans _)).
  - done.
  - by apply handleOk_ok.
  - done.
  - unfold page_ok, onDelete in *. rewrite scans_snoc, Hp. simpl. lia.
  - unfold page_ok, onUpdateInterval in *. rewrite scans_snoc, Hp. simpl. lia.
  - unfold reply_at. destruct (pg_pending p !! i) as [r|] eqn:Hi; [|done]. apply answered_ok. simpl.
    unfold page_ok in Hp. rewrite <- Hp. unfold scans. simpl. symmetry. by apply scans_at.
Qed.

(** In whatever order answers come back, the button is loading exactly while
    a scan waits for its answer, and never two wait. *)
Theorem one_scan_waits p : rtc (page_step kbId) closed_page p →
  scans p = if pg_loading p then 1 else 0.
Proof.
  intros Hr. assert (page_ok closed_page) as Hp by done. change (page_ok p).
  induction Hr; [done|]. eauto using scan_page_step_ok.
Qed.
End page_invariant.

(** ** A scan from the dialog to the list *)
Section turn.
Context (uuid : nat → string) (Huuid : Inj (=) (=) uuid) (raises : call → bool) (kb_folder : string → string)
  (allowed : knowledgebase → string → bool) (isoformat : Z → string) (failure_message : reply → string)
  (user kbId : string).

Abbreviation listed := (λ db, map (to_page isoformat) (get_by_kb_id kbId db)).
Abbreviation next_turn := (turn uuid raises kb_folder allowed isoformat failure_message user kbId).

(** The dialog is open and idle, and shows the directories of the server. *)
Record in_sync (p : scan_page) (db : database) : Prop := {
  sy_visible : pg_visible p = true;
  sy_loading : pg_loading p = false;
  sy_pending : pg_pending p = [];
  sy_listed : pg_directories p = listed db
}.

(** The machine accepts the path for the knowledge base and the user. *)
Record accepted (fs : filesystem) (path : string) (k : knowledgebase) (db : database) : Prop := {
  ac_kb : get_kb kbId db = Some k;
  ac_allowed k' : kb_id k' = kbId → allowed k' user = true;
  ac_user : user ≠ "";
  ac_normal : abspath (fs_cwd fs) path = path;
  ac_volume : js_some (λ v, starts_with v path) (get_mounted_volumes (fs_mountinfo fs)) = true;
  ac_exists : fs_exists fs path = true;
  ac_isdir : fs_isdir fs path = true;
  ac_few : length (files_of_walk (fs_walk fs path)) ≤ MAX_SCAN_FILE_COUNT
}.

Lemma get_by_kb_id_app db ds : js_filter (λ d, sd_kb_id d === kbId) (dirs db ++ ds) =
  get_by_kb_id kbId db ++ js_filter (λ d, sd_kb_id d === kbId) ds.
Proof. apply js_filter_app. Qed.

Lemma scan_path_accepted fs now path interval k db : kbId ≠ "" → path ≠ "" → accepted fs path k db →
  ∃ report, scan_path uuid raises kb_folder allowed fs now user kbId path interval 0 db =
    ((scan_files uuid raises kb_folder fs now k path interval user 0 db).1, Data report) ∧
    report = (scan_files uuid raises kb_folder fs now k path interval user 0 db).2.
Proof.
  intros Hkb Hp [A1 A2 A3 A4 A5 A6 A7 A8]. specialize (A2 k (get_kb_id _ _ _ A1)). unfold scan_path.
  assert (get_mounted_volumes (fs_mountinfo fs) ≠ []) as Hv by (intros He; by rewrite He in A5).
  rewrite (bool_decide_false _ Hkb), (bool_decide_false _ Hp). cbn [orb]. rewrite A4, (bool_decide_false _ Hv), A5, A6, A7.
  cbn [negb]. rewrite A1, A2. cbn [negb]. unfold scan_directory. rewrite A1, A4, (bool_decide_false _ Hv), A5, A6, A7.
  cbn [negb]. assert (creator_of (Some user) None = user) as -> by (unfold creator_of; by rewrite bool_decide_false).
  rewrite (bool_decide_false _ A3), bool_decide_false by lia.
  destruct (scan_files _ _ _ _ _ _ _ _ _ _ _) as [db' report]. by exists report.
Qed.

Lemma handleOk_fresh p db path interval : kbId ≠ "" → path ≠ "" → in_sync p db →
  pg_form p = {| fm_path := path; fm_scan_interval := Some interval |} → plain path →
  (∀ d, d ∈ get_by_kb_id kbId db → plain (sd_directory_path d) ∧ sd_directory_path d ≠ path) →
  handleOk kbId p = set_form initial_form (send (ScanPath path (Some interval)) (setLoading true p)).
Proof.
  intros Hkb Hp [S1 S2 S3 S4] Hform Hplain Hdirs. unfold handleOk. rewrite S2, Hform. simpl. rewrite (bool_decide_false _ Hp).
  assert (js_some (λ dir, normalizePath (directory_path dir) === normalizePath path) (pg_directories p) = false) as ->.
  { apply not_true_iff_false. rewrite js_some_true, S4. intros (dir & (d & -> & Hd)%list_elem_of_fmap & Heq).
    apply bool_decide_eq_true in Heq. destruct (Hdirs d Hd) as [Hpl Hne].
    simpl in Heq. by rewrite !normalize_plain in Heq. }
  unfold onScanPathOk. by rewrite (bool_decide_false _ Hkb).
Qed.

(** The knowledge base is still there after a scan. *)
Lemma kb_after fs now path interval k db : accepted fs path k db →
  ∃ k', get_kb kbId (scan_files uuid raises kb_folder fs now k path interval user 0 db).1 = Some k' ∧ allowed k' user = true.
Proof.
  intros Hacc. pose proof (ac_kb _ _ _ _ Hacc) as Hk. pose proof (get_kb_id _ _ _ Hk) as Hid.
  pose proof (scan_files_kbs uuid kb_folder raises fs now k path interval user 0 db) as Hkbs.
  set (db' := (scan_files uuid raises kb_folder fs now k path interval user 0 db).1) in *.
  destruct (get_kb kbId db') as [k'|] eqn:Hk'.
  - exists k'. split; [done|]. apply (ac_allowed _ _ _ _ Hacc). by eapply get_kb_id.
  - exfalso. assert (kbId ∈ kb_id <$> kbs db') as Hin.
    { rewrite Hkbs, <- Hid. apply list_elem_of_fmap_2. apply find_some in Hk as [Hk _]. by apply list_elem_of_In. }
    apply list_elem_of_fmap in Hin as (k' & Heq & Hin).
    assert (bool_decide (kb_id k' = kbId) = false) as Hf by (apply (find_none _ _ Hk'); by apply list_elem_of_In).
    apply bool_decide_eq_false in Hf. by apply Hf.
Qed.

(** The page after the answer to its scan, and after that to its list. *)
Definition after_scan (n : nat) (m : string) (p : scan_page) : scan_page :=
  {| pg_visible := false; pg_loading := false; pg_directories := pg_directories p; pg_form := initial_form;
     pg_pending := [GetDirectories];
     pg_notices := pg_notices p ++ [if bool_decide (0 < n) then ScannedFiles n else NoFiles m];
     pg_invalidated := S (pg_invalidated p) |}.

Lemma turn_scan fs now p s k path interval : kbId ≠ "" → path ≠ "" → pg_pending p = [] → accepted fs path k (sv_db s) →
  ∃ n m, next_turn fs now (set_form initial_form (send (ScanPath path (Some interval)) (setLoading true p)), s) =
    (after_scan n m p, with_db (scan_files uuid raises kb_folder fs now k path interval user 0 (sv_db s)).1 s).
Proof.
  intros Hkb Hp Hq Hacc.
  destruct (scan_path_accepted fs now path interval k (sv_db s) Hkb Hp Hacc) as (report & Hsp & _).
  exists (length (sr_imported report)), "success". unfold turn. simpl. rewrite Hq. simpl. rewrite Hsp.
  unfold reply_at, after_scan. simpl. rewrite Hq. simpl. unfold loadDirectories. by rewrite (bool_decide_false _ Hkb).
Qed.

Lemma turn_list fs now n m p s k : kbId ≠ "" → get_kb kbId (sv_db s) = Some k → allowed k user = true →
  next_turn fs now (after_scan n m p, s) =
    ({| pg_visible := false; pg_loading := false; pg_directories := listed (sv_db s); pg_form := initial_form; pg_pending := [];
        pg_notices := pg_notices (after_scan n m p); pg_invalidated := S (pg_invalidated p) |},
     {| sv_db := sv_db s; sv_threads := sv_threads s ++ [k] |}).
Proof.
  intros Hkb Hk Ha. unfold turn. simpl. unfold get_scanned_directories_route, get_scanned_directories.
  by rewrite (bool_decide_false _ Hkb), Hk, Ha.
Qed.

(** C6: From the dialog to the list: scanning a path the machine accepts and
    the list does not have (paths without backslashes or a slash at the end,
    as the page writes them) sends one request, and when the server has served
    it and the request for the list, the dialog is closed and idle with an
    empty form, the server has one directory more, with the path and the
    interval of the form and the time of the scan, the page shows exactly the
    directories of the server, and one thread more waits there, to scan what
    is due in the knowledge base. *)
Theorem scan_turn fs now now' p s k path interval :
  kbId ≠ "" → path ≠ "" → tables_ok uuid (sv_db s) → in_sync p (sv_db s) → accepted fs path k (sv_db s) →
  pg_form p = {| fm_path := path; fm_scan_interval := Some interval |} →
  plain path → (∀ d, d ∈ get_by_kb_id kbId (sv_db s) → plain (sd_directory_path d) ∧ sd_directory_path d ≠ path) →
  let w := next_turn fs now' (next_turn fs now (handleOk kbId p, s)) in
  pg_visible w.1 = false ∧ pg_loading w.1 = false ∧ pg_pending w.1 = [] ∧ pg_form w.1 = initial_form ∧
  get_by_kb_id kbId (sv_db w.2) = get_by_kb_id kbId (sv_db s) ++
    [{| sd_id := uuid (drawn (sv_db s)); sd_kb_id := kbId; sd_directory_path := path; sd_scan_interval_minutes := interval;
        sd_last_scan_time := Some now; sd_created_by := user; sd_created_at := now |}] ∧
  pg_directories w.1 = listed (sv_db w.2) ∧
  ∃ kb, kb_id kb = kbId ∧ sv_threads w.2 = sv_threads s ++ [kb].
Proof.
  intros Hkb Hp Ht [S1 S2 S3 S4] Hacc Hform Hplain Hdirs.
  pose proof (get_kb_id _ _ _ (ac_kb _ _ _ _ Hacc)) as Hid.
  destruct (kb_after fs now path interval k (sv_db s) Hacc) as (k' & Hk' & Hal').
  destruct (turn_scan fs now p s k path interval Hkb Hp S3 Hacc) as (n & m & Hturn).
  rewrite (handleOk_fresh p (sv_db s) path interval), Hturn, (turn_list _ _ _ _ _ _ k') by done.
  pose proof (scan_files_new_dir uuid Huuid kb_folder raises fs now k path interval user 0 (sv_db s) Ht) as Hnew.
  rewrite Hid in Hnew. cbv zeta. do 4 (split; [done|]).
  split; [|split; [done|exists k'; split; [by eapply get_kb_id|done]]].
  cbn [snd sv_db with_db]. unfold get_by_kb_id at 1. rewrite Hnew.
  - by rewrite get_by_kb_id_app, js_filter_cons, bool_decide_true.
  - intros e He Hkey. unfold dir_key in Hkey. injection Hkey as Hek Hep.
    destruct (Hdirs e) as [_ Hne]; [|done]. apply elem_of_js_filter. by rewrite Hek, bool_decide_true.
Qed.

(** A path the list has, written with other slashes or not, is not sent. *)
Theorem duplicate_not_sent p d : pg_loading p = false → fm_path (pg_form p) ≠ "" → d ∈ pg_directories p →
  normalizePath (directory_path d) = normalizePath (fm_path (pg_form p)) → handleOk kbId p = notify DuplicatePath p.
Proof.
  intros Hl Hp Hd Hn. unfold handleOk. rewrite Hl, (bool_decide_false _ Hp).
  assert (js_some (λ dir, normalizePath (directory_path dir) === normalizePath (fm_path (pg_form p))) (pg_directories p) = true)
    as ->; [|done].
  apply js_some_true. exists d. by rewrite bool_decide_true.
Qed.
End turn.

(** Lists that come back in another order than they were asked for leave the
    older one on the page. *)
Theorem stale_list kbId l l' p : pg_pending p = [GetDirectories; GetDirectories] →
  pg_directories (reply_at kbId 0 (Listed (Some l)) (reply_at kbId 1 (Listed (Some l')) p)) = l.
Proof. intros Hp. unfold reply_at at 2. rewrite Hp. done. Qed.

Lemma scan_turn_witness :
  let p := set_form {| fm_path := "/hdd1/a"; fm_scan_interval := Some 10%Z |}
             {| pg_visible := true; pg_loading := false; pg_directories := []; pg_form := initial_form; pg_pending := [];
                pg_notices := []; pg_invalidated := 0 |} in
  let w := turn Machine.uuid quiet Machine.folder (λ _ _, true) pretty (λ _, "") "u" "kb" Machine.machine 2
             (turn Machine.uuid quiet Machine.folder (λ _ _, true) pretty (λ _, "") "u" "kb" Machine.machine 1
               (handleOk "kb" p, {| sv_db := Machine.fresh_db; sv_threads := [] |})) in
  pg_directories w.1 = map (to_page pretty) (get_by_kb_id "kb" (sv_db w.2)).
Proof.
  intros p w.
  destruct (scan_turn Machine.uuid Machine.uuid_inj quiet Machine.folder (λ _ _, true) pretty (λ _, "") "u" "kb"
    Machine.machine 1 2 p {| sv_db := Machine.fresh_db; sv_threads := [] |} Machine.kb "/hdd1/a" 10)
    as (_ & _ & _ & _ & _ & H & _); [..|exact H]; try done.
  - apply Machine.fresh_ok.
  - split; try done. vm_compute. lia.
  - intros d Hd. by apply elem_of_nil in Hd.
Defined.
