(* ===== verification/DatasetPage.v ===== *)
(** * The documents of a dataset

    pages/dataset/dataset/index.tsx with use-bulk-operate-dataset.tsx, the
    dialog of reparse-dialog.tsx, use-run-document.ts, use-upload-document.ts,
    the dialogs that close when their request succeeds (use-rename-document.ts,
    use-change-document-parser.ts, use-create-empty-document.ts,
    use-save-meta.ts), and hooks/logic-hooks/use-row-selection.ts.

    The table is react-table's: a selection is an object whose keys are the
    indexes of rows.  Requests are answered in any order. *)
From S2P Require Import Prelude JsValue.
From Stdlib Require Import Ascii.
Open Scope list_scope.
Open Scope nat_scope.
Open Scope js_scope.

Record IDocumentInfo := {
  di_id : string;
  di_type : string;
  di_run : string;
  di_chunk_num : Z
}.

Definition Virtual : string := "virtual".
Definition RUNNING : string := "1".

(** [useSelectedIds] *)
Definition useSelectedIds (rowSelection : obj) (list_ : list IDocumentInfo) : list string :=
  let indexes := obj_keys rowSelection in
  map di_id (omap (λ xi : nat * IDocumentInfo,
    if js_some (λ y, num_eqb (num_of_string y) (num_of_nat xi.1)) indexes then Some xi.2 else None)
    (imap pair list_)).

(** ** Requests *)
Record run_option := { ro_delete : val; ro_apply_kb : val }.

Inductive doc_request :=
| RunDocuments (ids : list string) (run : Z) (option : option run_option)
| SetStatus (ids : list string) (status : bool)
| RemoveDocuments (ids : list string)
| UploadFiles (count : nat) (parseOnCreation : bool).

Inductive toast := NoFilesToRun | DocumentsBeingParsed.

(** What a request comes back with: a rejected promise, or the body of the
    answer. *)
Inductive doc_answer := Rejected | Answer (code : Z) (message : option string) (ids : list string).

Record dataset_page := {
  dp_documents : list IDocumentInfo;
  dp_rowSelection : obj;
  dp_visible : bool;               (* the dialog to parse again *)
  dp_pending : list doc_request;
  dp_toasts : list toast;
  dp_uploadVisible : bool;
  dp_enable_metadata : bool        (* of the dataset *)
}.

Definition set_documents x p := {| dp_documents := x; dp_rowSelection := dp_rowSelection p; dp_visible := dp_visible p;
  dp_pending := dp_pending p; dp_toasts := dp_toasts p; dp_uploadVisible := dp_uploadVisible p;
  dp_enable_metadata := dp_enable_metadata p |}.
Definition setRowSelection x p := {| dp_documents := dp_documents p; dp_rowSelection := x; dp_visible := dp_visible p;
  dp_pending := dp_pending p; dp_toasts := dp_toasts p; dp_uploadVisible := dp_uploadVisible p;
  dp_enable_metadata := dp_enable_metadata p |}.
Definition set_visible x p := {| dp_documents := dp_documents p; dp_rowSelection := dp_rowSelection p; dp_visible := x;
  dp_pending := dp_pending p; dp_toasts := dp_toasts p; dp_uploadVisible := dp_uploadVisible p;
  dp_enable_metadata := dp_enable_metadata p |}.
Definition set_pending x p := {| dp_documents := dp_documents p; dp_rowSelection := dp_rowSelection p;
  dp_visible := dp_visible p; dp_pending := x; dp_toasts := dp_toasts p; dp_uploadVisible := dp_uploadVisible p;
  dp_enable_metadata := dp_enable_metadata p |}.
Definition error x p := {| dp_documents := dp_documents p; dp_rowSelection := dp_rowSelection p;
  dp_visible := dp_visible p; dp_pending := dp_pending p; dp_toasts := dp_toasts p ++ [x];
  dp_uploadVisible := dp_uploadVisible p; dp_enable_metadata := dp_enable_metadata p |}.
Definition set_uploadVisible x p := {| dp_documents := dp_documents p; dp_rowSelection := dp_rowSelection p;
  dp_visible := dp_visible p; dp_pending := dp_pending p; dp_toasts := dp_toasts p; dp_uploadVisible := x;
  dp_enable_metadata := dp_enable_metadata p |}.

Definition request (r : doc_request) (p : dataset_page) : dataset_page := set_pending (dp_pending p ++ [r]) p.

Definition selectedRowKeys (p : dataset_page) : list string := useSelectedIds (dp_rowSelection p) (dp_documents p).

(** ** Operations on what is selected *)
Definition chunkNum (p : dataset_page) : Z :=
  foldl (λ acc cur, (acc + di_chunk_num cur)%Z) 0%Z
    (js_filter (λ item, js_includes (selectedRowKeys p) (di_id item) && (di_id item !== "")) (dp_documents p)).

Definition runDocument (run : Z) (option : option run_option) (p : dataset_page) : dataset_page :=
  let nonVirtualKeys :=
    js_filter (λ x, negb (js_some (λ y, (x === di_id y) && (di_type y === Virtual)) (dp_documents p))) (selectedRowKeys p) in
  if nonVirtualKeys === [] then error NoFilesToRun p else request (RunDocuments nonVirtualKeys run option) p.

Definition handleRunClick (option : option run_option) : dataset_page → dataset_page := runDocument 1 option.

Definition handleCancelClick : dataset_page → dataset_page := runDocument 2 None.

Definition onChangeStatus (enabled : bool) (p : dataset_page) : dataset_page := request (SetStatus (selectedRowKeys p) enabled) p.

Definition handleDelete (p : dataset_page) : dataset_page :=
  let deletedKeys :=
    js_filter (λ x, negb (js_some (λ y, di_id y === x) (js_filter (λ y, di_run y === RUNNING) (dp_documents p))))
      (selectedRowKeys p) in
  if deletedKeys === [] then error DocumentsBeingParsed p else request (RemoveDocuments deletedKeys) p.

(** The documents the metadata dialog is opened for. *)
Definition metadata_documents (p : dataset_page) : list string := map di_id (dp_documents p).

(** The dialog is left out when there is nothing to ask; then opening it runs
    the documents at once. *)
Definition reparse_hidden (p : dataset_page) : bool := (chunkNum p === 0%Z) && negb (dp_enable_metadata p).

Definition showModal (p : dataset_page) : dataset_page :=
  if dp_visible p then p
  else let p := set_visible true p in if reparse_hidden p then handleRunClick None p else p.

(** The fields of the dialog. *)
Definition reparse_fields (chunk_num : Z) (enable_metadata : bool) : list string :=
  if (0 <? chunk_num)%Z && enable_metadata then ["delete"; "apply_kb"]
  else if (0 <? chunk_num)%Z && negb enable_metadata then ["delete"]
  else if (chunk_num <=? 0)%Z && enable_metadata then ["apply_kb"]
  else [].

Definition reparse_defaults (chunk_num : Z) : run_option :=
  {| ro_delete := VBool (0 <? chunk_num)%Z; ro_apply_kb := VBool false |}.

(** ** Uploads *)
Definition getUnSupportedFilesCount (message : string) : nat := length (js_split (ascii_of_nat 10) message).

Definition onDocumentUploadOk (files : nat) (parseOnCreation : bool) (p : dataset_page) : dataset_page :=
  if bool_decide (0 < files) then request (UploadFiles files parseOnCreation) p else p.

(** The code the upload dialog gets. *)
Definition upload_code (files : nat) (code : Z) (message : string) : Z :=
  let count := getUnSupportedFilesCount message in
  if (code === 0%Z) || ((code === 500%Z) && (count !== files)) then 0%Z else code.

(** ** Answers *)
Definition answered (r : doc_request) (a : doc_answer) (p : dataset_page) : dataset_page :=
  match r, a with
  | _, Rejected => p
  | RunDocuments _ _ _, Answer _ _ _ => set_visible false p
  | SetStatus _ _, Answer _ _ _ => p
  | RemoveDocuments _, Answer code _ _ => if code === 0%Z then setRowSelection [] p else p
  | UploadFiles files parseOnCreation, Answer code message ids =>
      match message with
      | None => p
      | Some message =>
          let p := if (code === 0%Z) && parseOnCreation then request (RunDocuments ids 1 None) p else p in
          if upload_code files code message === 0%Z then set_uploadVisible false p else p
      end
  end.

Definition reply_at (i : nat) (a : doc_answer) (p : dataset_page) : dataset_page :=
  match dp_pending p !! i with
  | Some r => answered r a (set_pending (take i (dp_pending p) ++ drop (S i) (dp_pending p)) p)
  | None => p
  end.

(** ** One document *)
Record run_cell := { rc_loading : bool; rc_currentId : string; rc_visible : bool }.

Definition isLoading (id : string) (c : run_cell) : bool := rc_loading c && (rc_currentId c !== "") && (rc_currentId c === id).

(** [handleRunDocumentByIds] up to its request: 2 cancels, 1 runs. *)
Definition handleRunDocumentByIds (id : string) (isRunning : bool) (option : option run_option) (c : run_cell)
    : run_cell * list doc_request :=
  if isLoading id c then (c, [])
  else ({| rc_loading := true; rc_currentId := id; rc_visible := rc_visible c |},
        [RunDocuments [id] (if isRunning then 2 else 1)%Z option]).

(** Its end, however the request ends. *)
Definition run_ended (c : run_cell) : run_cell := {| rc_loading := false; rc_currentId := ""; rc_visible := false |}.

(** The dialog of a row is left out for an empty or a running document. *)
Definition cell_hidden (chunk_num : Z) (enable_metadata isRunning : bool) : bool :=
  ((chunk_num === 0%Z) && negb enable_metadata) || isRunning.

(** ** Dialogs that close when their request succeeds *)
Record record_dialog := { rd_record : option string; rd_open : bool }.

Definition show_record (id : string) (d : record_dialog) : record_dialog := {| rd_record := Some id; rd_open := true |}.

(** The request is for the record that was opened, if there is one. *)
Definition confirm_record (d : record_dialog) : option string :=
  match rd_record d with Some id => if id === "" then None else Some id | None => None end.

Definition confirm_answered (code : Z) (d : record_dialog) : record_dialog :=
  if code === 0%Z then {| rd_record := rd_record d; rd_open := false |} else d.

(** ** What is selected *)
Definition index_key (i : nat) : string := pretty (Z.of_nat i).

Lemma index_key_num i k : num_eqb (num_of_string (index_key i)) (num_of_nat k) = (i === k).
Proof.
  unfold index_key. rewrite num_of_string_pretty by lia. unfold num_of_nat. rewrite num_eqb_Z.
  destruct (bool_decide_reflect (i = k)) as [->|Hne]; [apply Z.eqb_refl|]. apply Z.eqb_neq. lia.
Qed.

(** The rows of the table: every key of the selection is an index. *)
Definition rows (sel : obj) : Prop := ∀ k, k ∈ obj_keys sel → ∃ i, k = index_key i.

Lemma selected_at sel k : rows sel →
  js_some (λ y, num_eqb (num_of_string y) (num_of_nat k)) (obj_keys sel) = bool_decide (index_key k ∈ obj_keys sel).
Proof.
  intros Hs. apply eq_true_iff_eq. rewrite js_some_true, bool_decide_eq_true. split.
  - intros (y & Hy & He). destruct (Hs y Hy) as [i ->]. rewrite index_key_num in He. by apply bool_decide_eq_true in He as ->.
  - intros Hk. exists (index_key k). split; [done|]. rewrite index_key_num. by apply bool_decide_eq_true.
Qed.

Definition selects (sel : obj) (i : nat) : Prop := index_key i ∈ obj_keys sel.

Lemma elem_of_selected sel docs x : rows sel →
  x ∈ useSelectedIds sel docs ↔ ∃ i d, docs !! i = Some d ∧ di_id d = x ∧ selects sel i.
Proof.
  intros Hs. unfold useSelectedIds. rewrite list_elem_of_fmap. setoid_rewrite list_elem_of_omap.
  setoid_rewrite elem_of_lookup_imap. split.
  - intros (d & -> & [k d'] & (i & e & [= -> ->] & Hi) & Hk). simpl in Hk. rewrite selected_at in Hk by done.
    case_bool_decide as Hin; [|done]. injection Hk as <-. by exists i, e.
  - intros (i & d & Hi & <- & Hsel). exists d. split; [done|]. exists (i, d). split; [by exists i, d|].
    simpl. rewrite selected_at by done. by rewrite bool_decide_true.
Qed.

Lemma omap_sublist {A B} (f : A → option B) (g : B → A) (l : list A) :
  (∀ x y, x ∈ l → f x = Some y → g y = x) → sublist (g <$> omap f l) l.
Proof.
  induction l as [|x l IH]; intros Hf; [constructor|]. simpl. destruct (f x) as [y|] eqn:Hx; simpl.
  - rewrite (Hf x y) by (set_solver || done). apply sublist_skip, IH. set_solver.
  - apply sublist_cons, IH. set_solver.
Qed.

Lemma selected_NoDup sel docs : NoDup (di_id <$> docs) → NoDup (useSelectedIds sel docs).
Proof.
  intros Hn. eapply sublist_NoDup; [exact Hn|]. unfold useSelectedIds. apply fmap_sublist.
  generalize (obj_keys sel). intros ks.
  assert (∀ (l : list IDocumentInfo) (f : nat → nat), sublist (omap (λ xi : nat * IDocumentInfo,
    if js_some (λ y, num_eqb (num_of_string y) (num_of_nat xi.1)) ks then Some xi.2 else None)
    (imap (λ i x, (f i, x)) l)) l) as H; [|apply (H docs id)].
  induction l as [|x l IH]; intros f; [constructor|]. rewrite imap_cons. simpl.
  destruct (js_some _ ks); [apply sublist_skip|apply sublist_cons]; apply (IH (f ∘ S)).
Qed.

(** ** Deleting *)

(** Deleting what is selected asks for exactly the selected documents that
    are not being parsed, each once; when the server has deleted them nothing
    is selected, and a refusal or an error leaves the selection. *)
Theorem delete_turn p : rows (dp_rowSelection p) → NoDup (di_id <$> dp_documents p) →
  (∃ i d, dp_documents p !! i = Some d ∧ selects (dp_rowSelection p) i ∧ di_run d ≠ RUNNING) →
  ∃ ids, handleDelete p = request (RemoveDocuments ids) p ∧ NoDup ids ∧
    (∀ x, x ∈ ids ↔ ∃ i d, dp_documents p !! i = Some d ∧ di_id d = x ∧ selects (dp_rowSelection p) i ∧ di_run d ≠ RUNNING) ∧
    ∀ a, let q := reply_at (length (dp_pending p)) a (handleDelete p) in
      dp_pending q = dp_pending p ∧ dp_documents q = dp_documents p ∧
      dp_rowSelection q = match a with Answer 0 _ _ => [] | _ => dp_rowSelection p end.
Proof.
  intros Hr Hn Hex. unfold handleDelete.
  set (ids := js_filter (λ x, negb (js_some (λ y, di_id y === x) (js_filter (λ y, di_run y === RUNNING) (dp_documents p))))
                (selectedRowKeys p)).
  assert (∀ x, x ∈ ids ↔ ∃ i d, dp_documents p !! i = Some d ∧ di_id d = x ∧ selects (dp_rowSelection p) i ∧ di_run d ≠ RUNNING)
    as Hids.
  { intros x. unfold ids, selectedRowKeys. rewrite elem_of_js_filter, elem_of_selected by done. rewrite negb_true_iff, <- not_true_iff_false, js_some_true.
    split.
    - intros [Hno (i & d & Hi & Hx & Hsel)]. exists i, d. split; [done|]. split; [done|]. split; [done|]. intros Hrun.
      apply Hno. exists d. rewrite elem_of_js_filter, !bool_decide_eq_true. split; [split; [done|]|done].
      by apply list_elem_of_lookup_2 in Hi.
    - intros (i & d & Hi & Hx & Hsel & Hrun). split; [|by exists i, d].
      intros (e & [He%bool_decide_eq_true Hin]%elem_of_js_filter & Hex'%bool_decide_eq_true).
      apply list_elem_of_lookup in Hin as [j Hj]. assert (i = j) as <-.
      { apply (NoDup_lookup (di_id <$> dp_documents p) i j x); [done| |]; rewrite list_lookup_fmap; [by rewrite Hi, <- Hx|by rewrite Hj, <- Hex']. }
      congruence. }
  assert (ids ≠ []) as Hne.
  { destruct Hex as (i & d & Hi & Hsel & Hrun). intros He. assert (di_id d ∈ ids) as Hin by (apply Hids; by exists i, d).
    rewrite He in Hin. by apply elem_of_nil in Hin. }
  rewrite (bool_decide_false _ Hne). exists ids. split; [done|].
  split; [by apply NoDup_js_filter, selected_NoDup|]. split; [done|].
  intros a. unfold reply_at, request. simpl. rewrite list_lookup_middle by done. simpl.
  rewrite take_app_length, drop_app_ge by lia. replace (S (length (dp_pending p)) - length (dp_pending p)) with 1 by lia.
  simpl. rewrite app_nil_r. destruct a as [|code m l]; simpl; [done|].
  destruct (bool_decide_reflect (code = 0%Z)) as [->|Hc]; [done|]. by destruct code.
Qed.

(** ** What the selection follows *)

(** A selection is of places: when a list with a new document in front
    arrives, the document before the selected one is selected instead. *)
Theorem selection_follows_place i d d' new docs : docs !! i = Some d → docs !! S i = Some d' →
  useSelectedIds [(index_key (S i), VBool true)] docs = [di_id d'] ∧
  useSelectedIds [(index_key (S i), VBool true)] (new :: docs) = [di_id d].
Proof.
  assert (∀ (l : list IDocumentInfo) k x, l !! k = Some x → useSelectedIds [(index_key k, VBool true)] l = [di_id x]) as H;
    [|by intros H1 H2; split; apply H].
  intros l k x Hx. unfold useSelectedIds.
  assert (obj_keys [(index_key k, VBool true)] = [index_key k]) as ->.
  { unfold obj_keys, obj_entries. rewrite !js_filter_cons. by destruct (is_index_key (index_key k, VBool true)). }
  set (f := λ xi : nat * IDocumentInfo,
    if js_some (λ y, num_eqb (num_of_string y) (num_of_nat xi.1)) [index_key k] then Some xi.2 else None).
  assert (∀ j y, f (j, y) = if k === j then Some y else None) as Hf.
  { intros j y. subst f. simpl. rewrite index_key_num. by destruct (k === j). }
  assert (∀ (m : list IDocumentInfo) (g : nat → nat), (∀ j, j < length m → g j ≠ k) →
    omap f (imap (λ j y, (g j, y)) m) = []) as Hnone.
  { induction m as [|y m IH]; intros g Hg; [done|]. rewrite imap_cons. simpl omap. rewrite Hf.
    rewrite bool_decide_false; [|intros Hk; apply (Hg 0); [simpl; lia|done]].
    apply (IH (g ∘ S)). intros j Hj. apply Hg. simpl. lia. }
  assert (length (take k l) = k) as Hlen by (apply lookup_lt_Some in Hx; rewrite length_take; lia).
  rewrite <- (take_drop_middle l k x Hx), imap_app, omap_app, Hlen.
  assert (omap f (imap pair (take k l)) = []) as -> by (apply (Hnone (take k l) id); intros j Hj; simpl; lia).
  rewrite imap_cons. simpl omap. rewrite Hf, bool_decide_true by lia.
  assert (omap f (imap ((λ n y, (k + n, y)) ∘ S) (drop (S k) l)) = []) as Hrest
    by (apply (Hnone (drop (S k) l) (λ j, k + S j)); intros; lia).
  exact (f_equal (λ r, map di_id (x :: r)) Hrest).
Qed.

(** The metadata dialog for the selected documents is opened for every
    document on the page, whatever is selected. *)
Theorem metadata_ignores_selection sel p : metadata_documents (setRowSelection sel p) = map di_id (dp_documents p).
Proof. done. Qed.

(** ** The dialog to parse again *)

(** Running documents none of which can be parsed, with nothing to ask,
    leaves the dialog that is left out open: asking again does nothing. *)
Theorem run_stuck p : dp_visible p = false → reparse_hidden p = true →
  (∀ x, x ∈ selectedRowKeys p → ∃ y, y ∈ dp_documents p ∧ di_id y = x ∧ di_type y = Virtual) →
  let q := showModal p in
  q = error NoFilesToRun (set_visible true p) ∧ showModal q = q.
Proof.
  intros Hv Hh Hall. unfold showModal. rewrite Hv. change (reparse_hidden (set_visible true p)) with (reparse_hidden p).
  rewrite Hh. unfold handleRunClick, runDocument. change (selectedRowKeys (set_visible true p)) with (selectedRowKeys p).
  rewrite js_filter_none; [done|]. intros x Hx. apply negb_false_iff, js_some_true.
  destruct (Hall x Hx) as (y & Hy & <- & Ht). exists y. by rewrite !bool_decide_true.
Qed.

(** The dialog asks for exactly what can matter: removing chunks if there are
    any, applying the metadata settings if the dataset has them. *)
Lemma reparse_fields_exact n b f : f ∈ reparse_fields n b ↔ (f = "delete" ∧ (0 < n)%Z) ∨ (f = "apply_kb" ∧ b = true).
Proof.
  unfold reparse_fields. destruct (Z.ltb_spec 0 n), (Z.leb_spec n 0), b; simpl; try lia; set_solver by lia.
Qed.

(** ** Uploads *)

(** Of an upload the dialog is told success when all went well or when the
    lines of the message are not as many as the files. *)
Lemma upload_code_exact files code message :
  upload_code files code message = 0%Z ↔ code = 0%Z ∨ (code = 500%Z ∧ getUnSupportedFilesCount message ≠ files).
Proof.
  unfold upload_code. destruct (bool_decide_reflect (code = 0%Z)) as [->|H0]; simpl; [naive_solver|].
  destruct (bool_decide_reflect (code = 500%Z)) as [->|H5]; simpl; [|naive_solver].
  case_bool_decide; simpl; naive_solver.
Qed.

(** An error of the network, one line, for several files is told as a
    success and closes the dialog. *)
Theorem network_error_closes p : dp_pending p = [UploadFiles 2 false] →
  dp_uploadVisible (reply_at 0 (Answer 500 (Some "TypeError: Failed to fetch") []) p) = false.
Proof. intros Hp. unfold reply_at. by rewrite Hp. Qed.

(** ** A table *)
Definition three_documents : list IDocumentInfo :=
  [{| di_id := "a"; di_type := "pdf"; di_run := "3"; di_chunk_num := 4 |};
   {| di_id := "b"; di_type := "pdf"; di_run := "1"; di_chunk_num := 0 |};
   {| di_id := "c"; di_type := "virtual"; di_run := "0"; di_chunk_num := 0 |}].

Definition small_page : dataset_page :=
  {| dp_documents := three_documents; dp_rowSelection := [("0", VBool true); ("1", VBool true)]; dp_visible := false;
     dp_pending := []; dp_toasts := []; dp_uploadVisible := false; dp_enable_metadata := false |}.

Example delete_small : handleDelete small_page = request (RemoveDocuments ["a"]) small_page.
Proof. by vm_compute. Qed.

Lemma delete_turn_witness : ∃ ids, handleDelete small_page = request (RemoveDocuments ids) small_page ∧ NoDup ids.
Proof.
  destruct (delete_turn small_page) as (ids & H1 & H2 & _); [..|by exists ids].
  - intros k Hk. assert (k ∈ ["0"; "1"]) as Hin by exact Hk.
    apply elem_of_cons in Hin as [->|[->|Hin%elem_of_nil]%elem_of_cons]; [by exists 0|by exists 1|done].
  - apply (bool_decide_unpack _). by vm_compute.
  - exists 0. eexists. split; [done|]. split; [|done]. unfold selects. apply (bool_decide_unpack _). by vm_compute.
Defined.
