(* ===== verification/Embed.v ===== *)
(** * Embedding a chat in another page

    components/embed-dialog/index.tsx makes the address of a shared chat from
    the settings of a form, and the HTML that shows it in another page; the
    shared pages read the settings back from their address
    (useGetSharedChatSearchParams, pages/next-chats/hooks and
    pages/agent/hooks/use-send-shared-message.ts), the requests their token
    (utils/authorization-util.ts), the widget its mode
    (components/floating-chat-widget.tsx).  pages/next-search has a dialog and
    parameters of its own (embed-app-modal.tsx, hooks.ts).

    A string is the list of its UTF-8 bytes: the form encoding of an address
    and [encodeURIComponent] work on these. *)
From S2P Require Import Prelude JsValue Libs FormUtils.
From Stdlib Require Import Ascii.
Open Scope list_scope.
Open Scope nat_scope.
Open Scope js_scope.

(** ** Addresses

    [URLSearchParams]: the application/x-www-form-urlencoded format. *)
Definition char_in (a b : nat) (c : ascii) : bool := bool_decide (a ≤ nat_of_ascii c) && bool_decide (nat_of_ascii c ≤ b).

Definition alnum (c : ascii) : bool := char_in 48 57 c || char_in 65 90 c || char_in 97 122 c.

Definition form_safe (c : ascii) : bool := alnum c || js_includes ["*"%char; "-"%char; "."%char; "_"%char] c.

Definition hex_digit (n : nat) : ascii := ascii_of_nat (if bool_decide (n < 10) then 48 + n else 55 + n).

Definition percent (c : ascii) : string :=
  String "%" (String (hex_digit (nat_of_ascii c / 16)) (String (hex_digit (nat_of_ascii c mod 16)) "")).

Fixpoint form_encode (s : string) : string :=
  match s with
  | "" => ""
  | String c r => (if form_safe c then String c "" else if c === " "%char then "+" else percent c) +:+ form_encode r
  end.

Definition hex_value (c : ascii) : option nat :=
  if char_in 48 57 c then Some (nat_of_ascii c - 48)
  else if char_in 65 70 c then Some (nat_of_ascii c - 55)
  else if char_in 97 102 c then Some (nat_of_ascii c - 87)
  else None.

Fixpoint form_decode (s : string) : string :=
  match s with
  | "" => ""
  | String c r =>
      if c === "+"%char then String " " (form_decode r)
      else if c === "%"%char then
        match r with
        | String a (String b r') =>
            match hex_value a, hex_value b with
            | Some x, Some y => String (ascii_of_nat (16 * x + y)) (form_decode r')
            | _, _ => String c (form_decode r)
            end
        | _ => String c (form_decode r)
        end
      else String c (form_decode r)
  end.

(** The text before the first [c], and the text after it, if there is one. *)
Fixpoint until (c : ascii) (s : string) : string :=
  match s with "" => "" | String a r => if a === c then "" else String a (until c r) end.

Fixpoint after (c : ascii) (s : string) : option string :=
  match s with "" => None | String a r => if a === c then Some r else after c r end.

Definition pair_text (kv : string * string) : string := form_encode kv.1 +:+ String "=" (form_encode kv.2).

Definition serialize (l : list (string * string)) : string := String.concat "&" (map pair_text l).

Definition parse_pair (s : string) : option (string * string) :=
  if s === "" then None
  else Some (form_decode (until "=" s), form_decode (default "" (after "=" s))).

Definition parse (query : string) : list (string * string) := omap parse_pair (js_split "&" query).

(** The parameters of an address: what is between the first [?] and the
    fragment. *)
Definition searchParams (href : string) : list (string * string) := parse (default "" (after "?" (until "#" href))).

(** [searchParams.get] *)
Definition get (k : string) (ps : list (string * string)) : option string := snd <$> js_find (λ kv, kv.1 === k) ps.

(** [s.replace(p, r)] for texts. *)
Fixpoint replace_first (p r s : string) : string :=
  if starts_with p s then r +:+ str_from (String.length p) s
  else match s with "" => "" | String c s' => String c (replace_first p r s') end.

(** [encodeURIComponent] *)
Definition component_safe (c : ascii) : bool :=
  alnum c || js_includes ["-"%char; "_"%char; "."%char; "!"%char; "~"%char; "*"%char; "'"%char; "("%char; ")"%char] c.

Fixpoint encodeURIComponent (s : string) : string :=
  match s with
  | "" => ""
  | String c r => (if component_safe c then String c "" else percent c) +:+ encodeURIComponent r
  end.

(** ** The dialog *)
Module SharedFrom.
Definition Agent : string := "agent".
Definition Chat : string := "chat".
End SharedFrom.

Definition ChatWidget : string := "/chats/widget".
Definition ChatShare : string := "/chats/share".
Definition AgentShare : string := "/agent/share".

Record embed_values := {
  ev_visibleAvatar : bool;
  ev_publishAvatar : bool;
  ev_locale : string;
  ev_widget : bool;            (* [embedType === 'widget'], else fullscreen *)
  ev_enableStreaming : bool;
  ev_dark : bool               (* [theme] *)
}.

Definition theme_text (dark : bool) : string := if dark then "dark" else "light".

Definition bool_text (b : bool) : string := if b then "true" else "false".

Definition embed_init : embed_values :=
  {| ev_visibleAvatar := false; ev_publishAvatar := false; ev_locale := ""; ev_widget := false;
     ev_enableStreaming := false; ev_dark := false |}.

Definition baseRoute (from : string) (v : embed_values) : string :=
  if ev_widget v then ChatWidget else if from === SharedFrom.Agent then AgentShare else ChatShare.

Definition iframe_params (token from beta : string) (v : embed_values) : list (string * string) :=
  [("shared_id", token); ("from", from); ("auth", beta)]
  ++ (if ev_publishAvatar v then [("release", "true")] else [])
  ++ (if ev_visibleAvatar v then [("visible_avatar", "1")] else [])
  ++ (if ev_locale v === "" then [] else [("locale", ev_locale v)])
  ++ (if ev_widget v then [("mode", "master"); ("streaming", bool_text (ev_enableStreaming v))] else [])
  ++ (if ev_widget v then [] else [("theme", theme_text (ev_dark v))]).

Definition generateIframeSrc (origin token from beta : string) (v : embed_values) : string :=
  origin +:+ baseRoute from v +:+ "?" +:+ serialize (iframe_params token from beta v).

(** [location.origin.replace(/:\d+/, ':9222')] *)
Fixpoint drop_digits (s : string) : string :=
  match s with String c r => if is_digit c then drop_digits r else s | "" => "" end.

Fixpoint replace_port (s : string) : string :=
  match s with
  | "" => ""
  | String c r =>
      match r with
      | String d r' => if (c === ":"%char) && is_digit d then ":9222" +:+ drop_digits r' else String c (replace_port r)
      | "" => s
      end
  end.

Definition quote : string := String (ascii_of_nat 34) "".
Definition newline : string := String (ascii_of_nat 10) "".

Definition in_quotes (s : string) : string := quote +:+ s +:+ quote.

Definition lines (ls : list string) : string := String.concat newline ls +:+ newline.

(** The HTML to copy. *)
Definition text (origin iframeSrc : string) (widget : bool) : string :=
  if widget then
    lines
      ["<iframe";
       "  src=" +:+ in_quotes iframeSrc;
       "  style=" +:+ in_quotes "position:fixed;bottom:0;right:0;width:100px;height:100px;border:none;background:transparent;z-index:9999";
       "  frameborder=" +:+ in_quotes "0";
       "  allow=" +:+ in_quotes "microphone;camera";
       "></iframe>";
       "<script>";
       "window.addEventListener('message',e=>{";
       "  if(e.origin!=='" +:+ replace_port origin +:+ "')return;";
       "  if(e.data.type==='CREATE_CHAT_WINDOW'){";
       "    if(document.getElementById('chat-win'))return;";
       "    const i=document.createElement('iframe');";
       "    i.id='chat-win';i.src=e.data.src;";
       "    i.style.cssText='position:fixed;bottom:104px;right:24px;width:380px;height:500px;border:none;background:transparent;z-index:9998;display:none';";
       "    i.frameBorder='0';i.allow='microphone;camera';";
       "    document.body.appendChild(i);";
       "  }else if(e.data.type==='TOGGLE_CHAT'){";
       "    const w=document.getElementById('chat-win');";
       "    if(w)w.style.display=e.data.isOpen?'block':'none';";
       "  }else if(e.data.type==='SCROLL_PASSTHROUGH')window.scrollBy(0,e.data.deltaY);";
       "});";
       "</script>"]
  else
    lines
      ["<iframe";
       "  src=" +:+ in_quotes iframeSrc;
       "  style=" +:+ in_quotes "width: 100%; height: 100%; min-height: 600px";
       "  frameborder=" +:+ in_quotes "0";
       "></iframe>"].

(** [handleOperate] of useFetchTokenListBeforeOtherStep: the dialog opens if
    the list the server sends has a first token, with a beta. *)
Inductive token_error := BetaEmpty | TokenEmpty.

Record system_token := { st_token : string; st_beta : string }.

Definition handleOperate (list_ : option (list system_token)) : (option string) + token_error :=
  match list_ with
  | Some (t :: _) => if st_beta t === "" then inr BetaEmpty else inl (if st_token t === "" then None else Some (st_token t))
  | _ => inr TokenEmpty
  end.

(** ** The shared pages *)
Definition DATA_PREFIX : string := "data_".

Record SharedChatSearchParams := {
  sp_from : option string;
  sp_sharedId : option string;
  sp_release : option string;
  sp_locale : option string;
  sp_theme : option string;
  sp_data : obj;
  sp_visibleAvatar : bool
}.

(** [Object.fromEntries] *)
Definition fromEntries (l : list (string * string)) : obj := foldl (λ o kv, obj_set kv.1 (VStr kv.2) o) [] l.

Definition shared_data (ps : list (string * string)) : obj :=
  fromEntries (map (λ kv, (replace_first DATA_PREFIX "" kv.1, kv.2)) (js_filter (λ kv, starts_with DATA_PREFIX kv.1) ps)).

Definition visible_avatar (ps : list (string * string)) : bool :=
  match get "visible_avatar" ps with
  | Some x => if x === "" then true else x !== "1"
  | None => true
  end.

Definition useGetSharedChatSearchParams (ps : list (string * string)) : SharedChatSearchParams :=
  {| sp_from := get "from" ps; sp_sharedId := get "shared_id" ps; sp_release := get "release" ps;
     sp_locale := get "locale" ps; sp_theme := get "theme" ps; sp_data := shared_data ps;
     sp_visibleAvatar := visible_avatar ps |}.

(** The address of the completions of a shared chat. *)
Definition completionUrl (p : SharedChatSearchParams) : string :=
  let botType := if sp_from p === Some SharedFrom.Agent then "agentbots" else "chatbots" in
  let releaseQuery :=
    match sp_release p with
    | Some r => if r === "" then "" else "?release=" +:+ encodeURIComponent r
    | None => ""
    end in
  "/api/v1/" +:+ botType +:+ "/" +:+ default "null" (sp_sharedId p) +:+ "/completions" +:+ releaseQuery.

(** [getAuthorization], with what local storage keeps. *)
Definition getAuthorization (ps : list (string * string)) (stored : option string) : string :=
  let given k := match get k ps with Some x => if x === "" then None else Some x | None => None end in
  match given "jwt_auth" with
  | Some jwtAuth => jwtAuth
  | None => match given "auth" with Some auth => "Bearer " +:+ auth | None => default "" stored end
  end.

(** What the shared page does with its theme: only two are known. *)
Definition useSyncThemeFromParams (theme : option string) (current : string) : string :=
  match theme with
  | Some t => if (t === "light") || (t === "dark") then t else current
  | None => current
  end.

(** The mode of the widget and whether it shows an answer as it arrives. *)
Definition widget_mode (ps : list (string * string)) : string :=
  match get "mode" ps with Some m => if m === "" then "full" else m | None => "full" end.

Definition enableStreaming (ps : list (string * string)) : bool := get "streaming" ps === Some "true".

(** [window.location.href.replace('mode=master', 'mode=window')] *)
Definition window_src (href : string) : string := replace_first "mode=master" "mode=window" href.

(** ** The search app

    Its address is put together without encoding. *)
Definition search_iframe_src (origin url token from beta tenantId : string) (hideAvatar : bool) (locale : string) : string :=
  origin +:+ url +:+ "?shared_id=" +:+ token +:+ "&from=" +:+ from +:+ "&auth=" +:+ beta +:+ "&tenantId=" +:+ tenantId
  +:+ (if hideAvatar then "&visible_avatar=1" else "") +:+ (if locale === "" then "" else "&locale=" +:+ locale).

Record SharedSearchParams := {
  ss_from : option string;
  ss_sharedId : option string;
  ss_locale : option string;
  ss_tenantId : option string;
  ss_data : obj;
  ss_visibleAvatar : bool
}.

Definition useGetSharedSearchParams (ps : list (string * string)) : SharedSearchParams :=
  {| ss_from := get "from" ps; ss_sharedId := get "shared_id" ps; ss_locale := get "locale" ps;
     ss_tenantId := get "tenantId" ps; ss_data := shared_data ps; ss_visibleAvatar := visible_avatar ps |}.

(** ** The form encoding *)
Fixpoint str_all (P : ascii → bool) (s : string) : bool :=
  match s with "" => true | String c r => P c && str_all P r end.

Lemma str_all_app P s t : str_all P (s +:+ t) = str_all P s && str_all P t.
Proof. induction s as [|c s IH]; [done|]. rewrite str_cons_app. simpl. by rewrite IH, andb_assoc. Qed.

Lemma str_all_count P c s : P c = false → str_all P s = true → count_char c s = 0.
Proof.
  intros Hc. induction s as [|a s IH]; [done|]. simpl. intros [Ha Hs]%andb_true_iff.
  rewrite bool_decide_false by (intros ->; congruence). by apply IH.
Qed.

Definition encoded_char (c : ascii) : bool := form_safe c || (c === "+"%char) || (c === "%"%char).

Lemma percent_encoded c : str_all encoded_char (percent c) = true.
Proof. destruct c as [[] [] [] [] [] [] [] []]; by vm_compute. Qed.

Lemma form_encode_all s : str_all encoded_char (form_encode s) = true.
Proof.
  induction s as [|c s IH]; [done|]. simpl form_encode. rewrite str_all_app, IH, andb_true_r.
  destruct (form_safe c) eqn:Hc; [simpl; unfold encoded_char; by rewrite Hc|].
  case_bool_decide; [done|apply percent_encoded].
Qed.

Lemma decode_percent c r : form_decode (percent c +:+ r) = String c (form_decode r).
Proof. destruct c as [[] [] [] [] [] [] [] []]; reflexivity. Qed.

Lemma safe_plain c : form_safe c = true → c ≠ "+"%char ∧ c ≠ "%"%char.
Proof. intros Hc. split; intros ->; discriminate Hc. Qed.

Lemma decode_safe c r : form_safe c = true → form_decode (String c r) = String c (form_decode r).
Proof. intros [H1 H2]%safe_plain. simpl. by rewrite !bool_decide_false. Qed.

(** Decoding undoes the encoding of every text. *)
Lemma form_decode_encode s : form_decode (form_encode s) = s.
Proof.
  induction s as [|c s IH]; [done|]. simpl form_encode. destruct (form_safe c) eqn:Hc.
  - change (String c "" +:+ form_encode s) with (String c (form_encode s)). by rewrite decode_safe, IH.
  - destruct (bool_decide_reflect (c = " "%char)) as [->|Hsp].
    + change ("+" +:+ form_encode s) with (String "+" (form_encode s)). simpl. by rewrite IH.
    + by rewrite decode_percent, IH.
Qed.

Lemma encoded_free c s : encoded_char c = false → count_char c (form_encode s) = 0.
Proof. intros Hc. eapply str_all_count; [exact Hc|apply form_encode_all]. Qed.

Lemma encode_safe s : str_all form_safe s = true → form_encode s = s.
Proof.
  induction s as [|c s IH]; [done|]. simpl. intros [Hc Hs]%andb_true_iff. rewrite Hc. simpl. by rewrite IH.
Qed.

(** ** Lists of parameters *)
Lemma until_app c s t : count_char c s = 0 → until c (s +:+ String c t) = s.
Proof.
  induction s as [|a s IH]; simpl; [by rewrite bool_decide_true|]. case_bool_decide; [done|]. intros Hc. by rewrite IH.
Qed.

Lemma until_free c s : count_char c s = 0 → until c s = s.
Proof. induction s as [|a s IH]; simpl; [done|]. case_bool_decide; [done|]. intros Hc. by rewrite IH. Qed.

Lemma after_app c s t : count_char c s = 0 → after c (s +:+ String c t) = Some t.
Proof. induction s as [|a s IH]; simpl; [by rewrite bool_decide_true|]. case_bool_decide; [done|]. apply IH. Qed.

Lemma parse_pair_text kv : parse_pair (pair_text kv) = Some kv.
Proof.
  destruct kv as [k v]. unfold parse_pair, pair_text. simpl.
  rewrite bool_decide_false by (by destruct (form_encode k)).
  rewrite until_app, after_app by (by apply encoded_free). simpl. by rewrite !form_decode_encode.
Qed.

Lemma pair_text_free c kv : encoded_char c = false → c ≠ "="%char → count_char c (pair_text kv) = 0.
Proof.
  intros Hc Hne. unfold pair_text. rewrite count_char_app. simpl. rewrite !encoded_free by done.
  rewrite bool_decide_false; [done|]. congruence.
Qed.

Lemma concat_amp x y l : String.concat "&" (x :: y :: l) = x +:+ String "&" (String.concat "&" (y :: l)).
Proof. done. Qed.

Lemma split_concat x l : Forall (λ s, count_char "&" s = 0) (x :: l) →
  js_split "&" (String.concat "&" (x :: l)) = x :: l.
Proof.
  revert x. induction l as [|y l IH]; intros x [Hx Hl]%Forall_cons; [by apply js_split_no_sep|].
  rewrite concat_amp, js_split_app by done. by rewrite IH.
Qed.

Lemma pairs_free l : Forall (λ s, count_char "&" s = 0) (map pair_text l).
Proof. apply Forall_map, Forall_forall. intros kv _. by apply pair_text_free. Qed.

Lemma omap_pairs l : omap parse_pair (map pair_text l) = l.
Proof.
  induction l as [|kv l IH]; [done|]. change (map pair_text (kv :: l)) with (pair_text kv :: map pair_text l).
  cbn [omap list_omap]. by rewrite parse_pair_text, IH.
Qed.

(** Parsing undoes the serialization of every list of parameters. *)
Lemma parse_serialize l : parse (serialize l) = l.
Proof.
  destruct l as [|kv l]; [done|]. unfold parse, serialize.
  change (map pair_text (kv :: l)) with (pair_text kv :: map pair_text l).
  rewrite split_concat by apply (pairs_free (kv :: l)).
  change (pair_text kv :: map pair_text l) with (map pair_text (kv :: l)).
  apply omap_pairs.
Qed.

Lemma serialize_free c l : encoded_char c = false → c ≠ "="%char → c ≠ "&"%char → count_char c (serialize l) = 0.
Proof.
  intros H1 H2 H3. unfold serialize. destruct l as [|kv l]; [done|].
  change (map pair_text (kv :: l)) with (pair_text kv :: map pair_text l). revert kv.
  induction l as [|kv' l IH]; intros kv; [by apply pair_text_free|].
  simpl map. rewrite concat_amp, count_char_app, pair_text_free by done. simpl.
  rewrite bool_decide_false by congruence. simpl. apply (IH kv').
Qed.

(** ** The address *)

(** An origin without the characters that end it. *)
Definition plain_origin (origin : string) : Prop :=
  count_char "?" origin = 0 ∧ count_char "#" origin = 0 ∧ count_char "=" origin = 0.

Lemma route_free from v c : js_includes ["?"%char; "#"%char; "="%char] c = true → count_char c (baseRoute from v) = 0.
Proof.
  unfold baseRoute. intros Hc%js_includes_true.
  destruct (ev_widget v); [|destruct (from === _)]; revert c Hc; apply Forall_forall; by repeat constructor.
Qed.

Lemma searchParams_at base l : count_char "?" base = 0 → count_char "#" base = 0 →
  searchParams (base +:+ "?" +:+ serialize l) = l.
Proof.
  intros Hq Hh. unfold searchParams. change ("?" +:+ serialize l) with (String "?" (serialize l)).
  rewrite until_free.
  - rewrite after_app by done. apply parse_serialize.
  - rewrite count_char_app, Hh. simpl. by apply serialize_free.
Qed.

Lemma src_params origin token from beta v : plain_origin origin →
  searchParams (generateIframeSrc origin token from beta v) = iframe_params token from beta v.
Proof.
  intros (Hq & Hh & _). unfold generateIframeSrc. rewrite <- str_app_assoc.
  apply searchParams_at; rewrite count_char_app, ?Hq, ?Hh; by apply route_free.
Qed.

(** ** What the shared page knows *)
Lemma get_cons k kv l : get k (kv :: l) = if kv.1 === k then Some kv.2 else get k l.
Proof. unfold get. simpl. by destruct (kv.1 === k). Qed.

Lemma get_opt k (b : bool) kv l :
  get k ((if b then [kv] else []) ++ l) = if b && (kv.1 === k) then Some kv.2 else get k l.
Proof. destruct b; [apply get_cons|done]. Qed.

Lemma get_params k token from beta v : get k (iframe_params token from beta v) =
  if "shared_id" === k then Some token else if "from" === k then Some from else if "auth" === k then Some beta
  else if ev_publishAvatar v && ("release" === k) then Some "true"
  else if ev_visibleAvatar v && ("visible_avatar" === k) then Some "1"
  else if (ev_locale v !== "") && ("locale" === k) then Some (ev_locale v)
  else if ev_widget v && ("mode" === k) then Some "master"
  else if ev_widget v && ("streaming" === k) then Some (bool_text (ev_enableStreaming v))
  else if negb (ev_widget v) && ("theme" === k) then Some (theme_text (ev_dark v))
  else None.
Proof.
  unfold iframe_params. cbn [app]. rewrite !get_cons, !get_opt. cbn [fst snd].
  assert (∀ l, get k ((if ev_locale v === "" then [] else [("locale", ev_locale v)]) ++ l) =
    if (ev_locale v !== "") && ("locale" === k) then Some (ev_locale v) else get k l) as ->.
  { intros l. destruct (ev_locale v === ""); [done|apply get_cons]. }
  destruct (ev_widget v); cbn [app negb andb]; rewrite !get_cons; done.
Qed.

(** Comparisons of given keys. *)
Ltac keys :=
  repeat match goal with
  | |- context[bool_decide (?a = ?b)] =>
      let r := eval vm_compute in (bool_decide (a = b)) in
      match r with true => idtac | false => idtac end;
      change (bool_decide (a = b)) with r
  end; cbn [andb negb].

Lemma no_data token from beta v : shared_data (iframe_params token from beta v) = [].
Proof. destruct v as [[] [] loc [] str dark]; unfold iframe_params; cbn; by destruct (loc === ""). Qed.

(** C38: Whatever the identifier, the token and the settings of the dialog,
    the shared page reads from its address exactly these: whose chat it is,
    whether the published version, the language, the theme of a full page,
    the avatar; its requests carry the token; and a widget is the master
    that streams or not, a full page is no widget. *)
Theorem embedded_settings origin token from beta v stored : plain_origin origin → beta ≠ "" →
  let ps := searchParams (generateIframeSrc origin token from beta v) in
  useGetSharedChatSearchParams ps =
    {| sp_from := Some from; sp_sharedId := Some token;
       sp_release := if ev_publishAvatar v then Some "true" else None;
       sp_locale := if ev_locale v === "" then None else Some (ev_locale v);
       sp_theme := if ev_widget v then None else Some (theme_text (ev_dark v));
       sp_data := []; sp_visibleAvatar := negb (ev_visibleAvatar v) |} ∧
  getAuthorization ps stored = "Bearer " +:+ beta ∧
  widget_mode ps = (if ev_widget v then "master" else "full") ∧
  enableStreaming ps = ev_widget v && ev_enableStreaming v.
Proof.
  intros Ho Hb ps. subst ps. rewrite src_params by done. split; [|split; [|split]].
  - unfold useGetSharedChatSearchParams, visible_avatar. rewrite !get_params, no_data. keys.
    rewrite !andb_true_r, ?andb_false_r. destruct (ev_publishAvatar v), (ev_visibleAvatar v), (ev_widget v); keys; f_equal; by destruct (ev_locale v === "").
  - unfold getAuthorization. rewrite !get_params. keys. rewrite ?andb_false_r. by rewrite (bool_decide_false _ Hb).
  - unfold widget_mode. rewrite get_params. keys. rewrite ?andb_false_r, ?andb_true_r. destruct (ev_widget v); by keys.
  - unfold enableStreaming. rewrite get_params. keys. rewrite ?andb_false_r, ?andb_true_r.
    by destruct (ev_widget v), (ev_enableStreaming v).
Qed.

(** The page then asks the bot of its kind and identifier. *)
Lemma shared_completions origin token from beta v : plain_origin origin →
  completionUrl (useGetSharedChatSearchParams (searchParams (generateIframeSrc origin token from beta v))) =
  "/api/v1/" +:+ (if from === SharedFrom.Agent then "agentbots" else "chatbots") +:+ "/" +:+ token +:+ "/completions"
  +:+ (if ev_publishAvatar v then "?release=true" else "").
Proof.
  intros Ho. rewrite src_params by done. unfold completionUrl, useGetSharedChatSearchParams. cbn [sp_from sp_release sp_sharedId].
  rewrite !get_params. keys. rewrite ?andb_false_r, ?andb_true_r. cbn [default].
  assert ((Some from === Some SharedFrom.Agent) = (from === SharedFrom.Agent)) as ->
    by (apply bool_decide_ext; split; [by intros [= ->]|by intros ->]).
  by destruct (ev_publishAvatar v).
Qed.

(** *** Settings added by hand *)
Lemma replace_prefix p r s : replace_first p r (p +:+ s) = r +:+ s.
Proof.
  pose proof (starts_with_app p s) as Hp. pose proof (str_from_app p s) as Hf.
  destruct (p +:+ s) as [|c t]; cbn [replace_first]; by rewrite Hp, Hf.
Qed.

(** The [data_] parameters an embedding page adds reach the first request as
    they are named. *)
Lemma added_data origin token from beta v extra : plain_origin origin →
  shared_data (searchParams (origin +:+ baseRoute from v +:+ "?" +:+
    serialize (iframe_params token from beta v ++ map (λ kv, (DATA_PREFIX +:+ kv.1, kv.2)) extra))) = fromEntries extra.
Proof.
  intros (Hq & Hh & _). rewrite <- str_app_assoc, searchParams_at by (rewrite count_char_app, ?Hq, ?Hh; by apply route_free).
  unfold shared_data. rewrite js_filter_app, map_app.
  assert (js_filter (λ kv, starts_with DATA_PREFIX kv.1) (iframe_params token from beta v) = []) as ->.
  { destruct v as [[] [] loc [] str dark]; unfold iframe_params; cbn; by destruct (loc === ""). }
  rewrite js_filter_all; [|intros kv (kv' & -> & _)%list_elem_of_fmap; apply starts_with_app].
  rewrite map_map. f_equal. rewrite <- (map_id extra) at 2. apply map_ext. intros [k w]. cbn [fst snd]. by rewrite replace_prefix.
Qed.

(** *** The code to copy *)

(** The value of the first attribute of a text. *)
Definition first_attribute (html : string) : string :=
  let q := ascii_of_nat 34 in until q (default "" (after q html)).

(** In the code to copy, the source of the frame is exactly the address
    of the shared chat: no identifier, token or setting ends the attribute. *)
Theorem code_shows_src origin token from beta v : plain_origin origin → count_char (ascii_of_nat 34) origin = 0 →
  let src := generateIframeSrc origin token from beta v in
  first_attribute (text origin src (ev_widget v)) = src.
Proof.
  intros Ho Hq src.
  assert (count_char (ascii_of_nat 34) src = 0) as Hsrc.
  { subst src. unfold generateIframeSrc. rewrite !count_char_app, Hq. rewrite serialize_free by done.
    unfold baseRoute. by destruct (ev_widget v), (from === SharedFrom.Agent). }
  assert (∀ rest, first_attribute ("<iframe" +:+ newline +:+ "  src=" +:+ in_quotes src +:+ rest) = src) as Hattr.
  { intros rest. unfold first_attribute, in_quotes, quote. rewrite !str_app_assoc.
    change (until (ascii_of_nat 34) (default "" (after (ascii_of_nat 34)
      (("<iframe" +:+ newline +:+ "  src=") +:+ String (ascii_of_nat 34) (src +:+ String (ascii_of_nat 34) rest)))) = src).
    rewrite after_app by done. cbn [from_option id]. by rewrite until_app. }
  unfold text. destruct (ev_widget v); unfold lines; cbn [String.concat]; rewrite !str_app_assoc; apply Hattr.
Qed.

(** ** The window of the widget *)

(** Text before an equals sign that reads [mode] to its left. *)
Fixpoint ends_mode (s : string) : bool :=
  (s === "mode") || match s with "" => false | String _ r => ends_mode r end.

Lemma prefix_mode u t : count_char "=" u = 0 → starts_with "mode=" (u +:+ String "=" t) = true → u = "mode".
Proof.
  unfold starts_with. intros Hu Hp.
  do 5 (destruct u as [|? u]; simpl in Hp; [try done; by repeat case_match|];
        case_match; [subst|done]; simpl in Hu; try done).
Qed.

Lemma includes_skip u t : count_char "=" u = 0 → ends_mode u = false →
  str_includes "mode=" (u +:+ String "=" t) = str_includes "mode=" t.
Proof.
  induction u as [|c u IH]; intros Hu He; [done|]. rewrite str_cons_app. cbn [str_includes].
  change (String.prefix "mode=" (String c (u +:+ String "=" t))) with (starts_with "mode=" (String c u +:+ String "=" t)).
  cbn [ends_mode] in He. apply orb_false_iff in He as [Hne He]. apply bool_decide_eq_false in Hne.
  destruct (starts_with "mode=" _) eqn:Hp; [by apply prefix_mode in Hp|]. cbn [orb]. apply IH; [|done].
  simpl in Hu. lia.
Qed.

Lemma includes_free u : count_char "=" u = 0 → str_includes "mode=" u = false.
Proof.
  induction u as [|c u IH]; intros Hu; [done|]. cbn [str_includes]. rewrite IH by (simpl in Hu; lia). rewrite orb_false_r.
  apply not_true_iff_false. intros [t Ht]%starts_with_true. by rewrite Ht, count_char_app in Hu.
Qed.

Lemma ends_mode_app u k : 4 ≤ String.length k → ends_mode (u +:+ k) = ends_mode k.
Proof.
  intros Hk. induction u as [|c u IH]; [done|]. rewrite str_cons_app. cbn [ends_mode]. rewrite IH.
  rewrite bool_decide_false; [done|]. intros He%(f_equal String.length). simpl in He. rewrite str_length_app in He. lia.
Qed.

(** Replacing stops at the first place, and there is none before it. *)
Lemma replace_at r a b : str_includes "mode=" a = false →
  replace_first "mode=master" r (a +:+ "mode=master" +:+ b) = a +:+ r +:+ b.
Proof.
  induction a as [|c a IH]; intros Ha; [exact (replace_prefix "mode=master" r b)|]. cbn [str_includes] in Ha. apply orb_false_iff in Ha as [Hc Ha].
  rewrite str_cons_app. cbn [replace_first].
  destruct (starts_with "mode=master" _) eqn:Hp; [|by rewrite IH].
  exfalso. apply starts_with_true in Hp as [t Ht]. clear IH Ha.
  do 4 (destruct a as [|? a]; [cbn in Ht; discriminate Ht|]).
  injection Ht as -> -> -> -> -> _. by destruct a.
Qed.

(** The parameters after the first, each behind its [&]. *)
Fixpoint tails (l : list (string * string)) : string :=
  match l with [] => "" | kv :: l' => String "&" (pair_text kv +:+ tails l') end.

Lemma serialize_cons kv l : serialize (kv :: l) = pair_text kv +:+ tails l.
Proof.
  unfold serialize. revert kv. induction l as [|kv' l IH]; intros kv; [symmetry; apply str_app_nil_r|].
  change (map pair_text (kv :: kv' :: l)) with (pair_text kv :: pair_text kv' :: map pair_text l). rewrite concat_amp.
  change (pair_text kv' :: map pair_text l) with (map pair_text (kv' :: l)). by rewrite IH.
Qed.

Lemma tails_app l1 l2 : tails (l1 ++ l2) = tails l1 +:+ tails l2.
Proof.
  induction l1 as [|kv l1 IH]; [done|]. change (tails ((kv :: l1) ++ l2)) with (String "&" (pair_text kv +:+ tails (l1 ++ l2))).
  rewrite IH. change (tails (kv :: l1)) with (String "&" (pair_text kv +:+ tails l1)). by rewrite str_cons_app, str_app_assoc.
Qed.

(** No key of the dialog but the last ones ends like [mode]. *)
Definition harmless (kv : string * string) : Prop :=
  3 ≤ String.length (form_encode kv.1) ∧ ends_mode (String "&" (form_encode kv.1)) = false.

Lemma tails_no_mode u l : count_char "=" u = 0 → Forall harmless l → str_includes "mode=" (u +:+ tails l +:+ "&") = false.
Proof.
  intros Hu Hl. revert u Hu. induction Hl as [|[k v] l [Hlen Hk] _ IH]; intros u Hu.
  - apply includes_free. by rewrite count_char_app, Hu.
  - assert (u +:+ tails ((k, v) :: l) +:+ "&" =
      (u +:+ String "&" (form_encode k)) +:+ String "=" (form_encode v +:+ tails l +:+ "&")) as ->.
    { change (tails ((k, v) :: l)) with (String "&" ((form_encode k +:+ String "=" (form_encode v)) +:+ tails l)).
      by repeat (rewrite str_app_assoc || rewrite str_cons_app || rewrite str_app_nil_r). }
    rewrite includes_skip; [apply IH; by apply encoded_free| |].
    + rewrite count_char_app, Hu. simpl. by apply encoded_free.
    + rewrite ends_mode_app by (simpl in *; lia). done.
Qed.

Definition first_params (from beta : string) (v : embed_values) : list (string * string) :=
  [("from", from); ("auth", beta)]
  ++ (if ev_publishAvatar v then [("release", "true")] else [])
  ++ (if ev_visibleAvatar v then [("visible_avatar", "1")] else [])
  ++ (if ev_locale v === "" then [] else [("locale", ev_locale v)]).

Lemma first_harmless from beta v : Forall harmless (first_params from beta v).
Proof.
  unfold first_params. rewrite !Forall_app. unfold harmless. split; [by repeat constructor|].
  split; [destruct (ev_publishAvatar v); by repeat constructor|].
  split; [destruct (ev_visibleAvatar v); by repeat constructor|]. destruct (ev_locale v === ""); by repeat constructor.
Qed.

Lemma get_app k l1 l2 : get k (l1 ++ l2) = match get k l1 with Some x => Some x | None => get k l2 end.
Proof.
  induction l1 as [|kv l1 IH]; [done|]. rewrite <- app_comm_cons, !get_cons. by destruct (kv.1 === k).
Qed.

Lemma first_no_mode from beta v : get "mode" (first_params from beta v) = None.
Proof.
  unfold first_params. rewrite !get_app, !get_cons. cbn [fst snd]. keys.
  destruct (ev_publishAvatar v), (ev_visibleAvatar v), (ev_locale v === ""); reflexivity.
Qed.

(** The window a widget asks for has the address of the widget, with the mode
    of a window and every other setting as the dialog made it. *)
Lemma window_settings origin token from beta v : plain_origin origin → ev_widget v = true →
  let ps := searchParams (window_src (generateIframeSrc origin token from beta v)) in
  let qs := searchParams (generateIframeSrc origin token from beta v) in
  widget_mode ps = "window" ∧ useGetSharedChatSearchParams ps = useGetSharedChatSearchParams qs ∧
  enableStreaming ps = enableStreaming qs.
Proof.
  intros Ho Hw ps qs.
  assert (iframe_params token from beta v =
    ("shared_id", token) :: first_params from beta v ++ [("mode", "master"); ("streaming", bool_text (ev_enableStreaming v))]) as Hps.
  { unfold iframe_params, first_params. rewrite Hw, app_nil_r. cbn [app]. by rewrite <- !app_assoc. }
  subst ps qs. rewrite src_params, Hps by done. unfold generateIframeSrc. rewrite Hps.
  set (streaming := ("streaming", bool_text (ev_enableStreaming v))).
  set (a := origin +:+ baseRoute from v +:+ "?" +:+ pair_text ("shared_id", token) +:+ tails (first_params from beta v) +:+ "&").
  assert (∀ m, origin +:+ baseRoute from v +:+ "?" +:+ serialize (("shared_id", token) :: first_params from beta v ++ [("mode", m); streaming]) =
    a +:+ pair_text ("mode", m) +:+ tails [streaming]) as Hsrc.
  { intros m. rewrite serialize_cons, tails_app. subst a. rewrite !str_app_assoc. done. }
  assert (str_includes "mode=" a = false) as Ha.
  { assert (a = (origin +:+ baseRoute from v +:+ "?shared_id") +:+
      String "=" (form_encode token +:+ tails (first_params from beta v) +:+ "&")) as ->
      by (subst a; unfold pair_text; rewrite !str_app_assoc; done).
    destruct Ho as (_ & _ & Heq). rewrite <- (str_app_assoc origin), includes_skip.
    - apply tails_no_mode; [by apply encoded_free|apply first_harmless].
    - rewrite !count_char_app, Heq, route_free; done.
    - by rewrite ends_mode_app by (simpl; lia). }
  rewrite (Hsrc "master"). change (pair_text ("mode", "master")) with "mode=master".
  unfold window_src. rewrite replace_at by done. change "mode=window" with (pair_text ("mode", "window")).
  rewrite <- Hsrc, <- str_app_assoc, searchParams_at
    by (destruct Ho as (Hq & Hh & _); rewrite count_char_app, ?Hq, ?Hh; by apply route_free).
  set (l := first_params from beta v).
  assert (∀ m k, get k (("shared_id", token) :: l ++ [("mode", m); streaming]) =
    if k === "mode" then Some m else get k (("shared_id", token) :: l ++ [streaming])) as Hget.
  { intros m k. rewrite !get_cons, !get_app. cbn [fst snd]. rewrite !get_cons. cbn [fst snd].
    destruct (bool_decide_reflect (k = "mode")) as [->|Hk].
    - subst l. rewrite first_no_mode. by keys.
    - by rewrite (bool_decide_false ("mode" = k)) by congruence. }
  assert (∀ m, shared_data (("shared_id", token) :: l ++ [("mode", m); streaming]) = []) as Hdata.
  { intros m. subst l streaming. unfold first_params. destruct (ev_publishAvatar v), (ev_visibleAvatar v), (ev_locale v === ""); by cbn. }
  unfold widget_mode, enableStreaming, useGetSharedChatSearchParams, visible_avatar. rewrite !Hget, !Hdata. by keys.
Qed.

(** ** The search app *)

(** The address of the search app is put together without encoding; as
    long as identifiers, token, tenant and language consist of characters
    that need none, the shared page reads them as they are. *)
Theorem search_settings origin url token from beta tenantId hideAvatar locale :
  count_char "?" (origin +:+ url) = 0 → count_char "#" (origin +:+ url) = 0 →
  Forall (λ s, str_all form_safe s = true) [token; from; beta; tenantId; locale] →
  useGetSharedSearchParams (searchParams (search_iframe_src origin url token from beta tenantId hideAvatar locale)) =
    {| ss_from := Some from; ss_sharedId := Some token; ss_locale := if locale === "" then None else Some locale;
       ss_tenantId := Some tenantId; ss_data := []; ss_visibleAvatar := negb hideAvatar |}.
Proof.
  intros Hq Hh Hsafe.
  assert (search_iframe_src origin url token from beta tenantId hideAvatar locale = (origin +:+ url) +:+ "?" +:+
    serialize ([("shared_id", token); ("from", from); ("auth", beta); ("tenantId", tenantId)]
      ++ (if hideAvatar then [("visible_avatar", "1")] else []) ++ (if locale === "" then [] else [("locale", locale)]))) as ->.
  { cbn [app]. rewrite serialize_cons. unfold search_iframe_src.
    repeat (apply Forall_cons in Hsafe as [?%encode_safe Hsafe]).
    destruct hideAvatar, (locale === ""); cbn [tails app]; unfold pair_text; cbn [fst snd];
      repeat match goal with H : form_encode ?x = ?x |- _ => rewrite H; clear H end;
      by repeat (rewrite str_app_assoc || rewrite str_cons_app || rewrite str_app_nil_r). }
  rewrite searchParams_at by done. unfold useGetSharedSearchParams, visible_avatar.
  destruct hideAvatar; destruct (locale === ""); cbn [app]; rewrite !get_cons; by cbn.
Qed.

(** ** The port of the origin *)
Fixpoint colon_digit (s : string) : bool :=
  match s with
  | "" => false
  | String c r => ((c === ":"%char) && match r with String d _ => is_digit d | "" => false end) || colon_digit r
  end.

Lemma drop_all_digits s : str_all is_digit s = true → drop_digits s = "".
Proof. induction s as [|c s IH]; [done|]. simpl. intros [-> Hs]%andb_true_iff. by apply IH. Qed.

Lemma replace_port_cons c s : (c === ":"%char) && match s with String d _ => is_digit d | "" => false end = false →
  replace_port (String c s) = String c (replace_port s).
Proof. intros Hc. destruct s as [|d s]; [done|]. cbn [replace_port]. by rewrite Hc. Qed.

Lemma replace_port_none s : colon_digit s = false → replace_port s = s.
Proof.
  induction s as [|c s IH]; intros Hs; [done|]. cbn [colon_digit] in Hs. apply orb_false_iff in Hs as [Hc Hs].
  by rewrite replace_port_cons, IH.
Qed.

Lemma app_cancel (a b c : string) : a +:+ b = a +:+ c → b = c.
Proof. induction a as [|x a IH]; [done|]. intros [= He]. by apply IH. Qed.

(** The script of the widget listens to its origin when that has no port, or
    the port 9222; to no other. *)
Theorem script_origin base port : colon_digit base = false → port ≠ "" → str_all is_digit port = true →
  replace_port base = base ∧
  (replace_port (base +:+ ":" +:+ port) = base +:+ ":" +:+ port ↔ port = "9222").
Proof.
  intros Hb Hp Hd. split; [by apply replace_port_none|].
  assert (replace_port (base +:+ ":" +:+ port) = base +:+ ":9222") as ->.
  { induction base as [|c base IH].
    - destruct port as [|d port]; [done|]. apply andb_true_iff in Hd as [Hd Hr].
      change (replace_port ("" +:+ ":" +:+ String d port)) with
        (if is_digit d then ":9222" +:+ drop_digits port else String ":" (replace_port (String d port))).
      by rewrite Hd, drop_all_digits.
    - cbn [colon_digit] in Hb. apply orb_false_iff in Hb as [Hc Hb]. rewrite !str_cons_app, <- IH by done.
      rewrite replace_port_cons; [done|]. by destruct base; [rewrite andb_false_r|]. }
  split; [|by intros ->]. intros He%app_cancel. by injection He.
Qed.

(** ** An address *)
Definition my_values : embed_values :=
  {| ev_visibleAvatar := true; ev_publishAvatar := true; ev_locale := "pt-BR"; ev_widget := true; ev_enableStreaming := true;
     ev_dark := false |}.

Definition my_origin : string := "https://rag.example.org:8443".

Example my_src : generateIframeSrc my_origin "a/b&c=d é" "chat" "t+k" my_values =
  "https://rag.example.org:8443/chats/widget?shared_id=a%2Fb%26c%3Dd+%C3%A9&from=chat&auth=t%2Bk&release=true&visible_avatar=1&locale=pt-BR&mode=master&streaming=true".
Proof. by vm_compute. Qed.

Example my_port : replace_port my_origin = "https://rag.example.org:9222".
Proof. by vm_compute. Qed.

Lemma embedded_settings_witness :
  useGetSharedChatSearchParams (searchParams (generateIframeSrc my_origin "a/b&c=d é" "chat" "t+k" my_values)) =
    {| sp_from := Some "chat"; sp_sharedId := Some "a/b&c=d é"; sp_release := Some "true"; sp_locale := Some "pt-BR";
       sp_theme := None; sp_data := []; sp_visibleAvatar := false |}.
Proof.
  apply (embedded_settings my_origin "a/b&c=d é" "chat" "t+k" my_values None); [|done].
  split; [|split]; by vm_compute.
Defined.
