(* ===== verification/SharedChat.v ===== *)
(** * A shared chat and its widget

    The page of a shared chat (useSendSharedMessage,
    pages/next-chats/hooks/use-send-shared-message.ts): the session it asks
    for, its messages and questions.  The floating widget
    (components/floating-chat-widget.tsx) with its input, the messages it
    displays, and the messages it sends to the page it is embedded in, whose
    script the embed dialog makes (components/embed-dialog/index.tsx).

    A step of the page is what the user or the server does, followed by the
    effects React runs for the renders it causes. *)
From S2P Require Import Prelude JsValue Libs FormUtils Messages Streaming Embed.
Open Scope list_scope.
Open Scope nat_scope.
Open Scope js_scope.

(** ** The page *)
Section shared.
Context {L : Lodash} (uuid : nat → string).
Context (conversationId : string) (release : option string) (sharedData : obj).

Record shared_chat := {
  sc_messages : list val;
  sc_sse : sse;
  sc_drawn : nat;
  sc_value : string;
  sc_hasError : bool;
  sc_sent : list obj
}.

Definition set_list (m : list val * nat) (c : shared_chat) : shared_chat :=
  {| sc_messages := m.1; sc_sse := sc_sse c; sc_drawn := m.2; sc_value := sc_value c; sc_hasError := sc_hasError c;
     sc_sent := sc_sent c |}.

Definition set_sse (s : sse) (c : shared_chat) : shared_chat :=
  {| sc_messages := sc_messages c; sc_sse := s; sc_drawn := sc_drawn c; sc_value := sc_value c;
     sc_hasError := sc_hasError c; sc_sent := sc_sent c |}.

Definition set_value (v : string) (c : shared_chat) : shared_chat :=
  {| sc_messages := sc_messages c; sc_sse := sc_sse c; sc_drawn := sc_drawn c; sc_value := v;
     sc_hasError := sc_hasError c; sc_sent := sc_sent c |}.

Definition setHasError (b : bool) (c : shared_chat) : shared_chat :=
  {| sc_messages := sc_messages c; sc_sse := sc_sse c; sc_drawn := sc_drawn c; sc_value := sc_value c;
     sc_hasError := b; sc_sent := sc_sent c |}.

Definition send (body : obj) (c : shared_chat) : shared_chat :=
  {| sc_messages := sc_messages c; sc_sse := setDoneValue (VObj body) false (sc_sse c); sc_drawn := sc_drawn c;
     sc_value := sc_value c; sc_hasError := sc_hasError c; sc_sent := sc_sent c ++ [body] |}.

Definition release_part : obj := match release with Some r => if r === "" then [] else [("release", VStr r)] | None => [] end.

(** *** Effects *)
Definition session_body : obj := obj_assign (obj_assign [("question", VStr "")] sharedData) release_part.

Definition fetchSessionId : shared_chat → shared_chat := send session_body.

Definition effect_answer (c : shared_chat) : shared_chat :=
  let answer := sse_answer (sc_sse c) in
  if truthy (obj_get "answer" answer) then set_list (addNewestAnswer uuid (sc_drawn c) answer (sc_messages c)) c else c.

(** The parameters of the address are read at every render, into an object of
    that render, so that the effect that fetches the session runs after every
    render; the one on the answer only when that is new.  A second render
    follows when they changed the messages or the flag of the stream, and the
    request of that one changes nothing more. *)
Definition rendered (newAnswer : bool) (c : shared_chat) : shared_chat :=
  let answered := newAnswer && truthy (obj_get "answer" (sse_answer (sc_sse c))) in
  let c1 := fetchSessionId c in
  let c1 := if newAnswer then effect_answer c1 else c1 in
  if negb answered && (sse_done (sc_sse c) === sse_done (sc_sse c1)) then c1 else fetchSessionId c1.

(** *** Questions *)
Definition question_body (messages : list val) (content : string) (enableThinking enableInternet : val) : obj :=
  obj_assign
    [("conversation_id", VStr conversationId); ("quote", VBool true); ("question", VStr content);
     ("session_id", prop "session_id" (default VUndef (head messages)));
     ("reasoning", enableThinking); ("internet", enableInternet)] release_part.

Definition handlePressEnter (enableThinking enableInternet : val) (c : shared_chat) : shared_chat :=
  if str_trim (sc_value c) === "" then c
  else if sse_done (sc_sse c) then
    let id := uuid (sc_drawn c) in
    let content := sc_value c in
    let messages := sc_messages c in
    let c := set_value "" c in
    let c := set_list (addNewestQuestion uuid (S (sc_drawn c))
               [("content", VStr content); ("doc_ids", VArr []); ("id", VStr id); ("role", VStr MessageType.User)]
               (VStr "") messages) c in
    rendered false (send (question_body messages (str_trim content) enableThinking enableInternet) c)
  else set_list (sc_messages c, S (sc_drawn c)) c.

(** [isCompletionError] *)
Definition isCompletionError (res : val) : outcome bool :=
  if negb (truthy res) then Ok false
  else
    status ← read "status" (prop "response" res);
    Ok ((status !== VNum (num_of_Z 200)) || (prop "code" (prop "data" res) !== VNum (num_of_Z 0))).

(** What follows when a request for the session, or a question, comes back. *)
Definition session_returned (res : val) (c : shared_chat) : outcome shared_chat :=
  failed ← isCompletionError res;
  Ok (if (failed : bool) then (if sc_hasError c then c else rendered false (setHasError true c)) else c).

Definition question_returned (content : string) (res : val) (c : shared_chat) : outcome shared_chat :=
  failed ← isCompletionError res;
  Ok (if (failed : bool) then rendered false (set_list (removeLatestMessage (sc_messages c), sc_drawn c) (set_value content c)) else c).

Inductive shared_event :=
  | TypeValue (value : string)
  | EnterPressed (enableThinking enableInternet : val)
  | Streamed (e : sse_event)
  | SessionReturned (res : val)
  | QuestionReturned (content : string) (res : val)
  | ResetClicked.

Definition shared_step (c : shared_chat) (e : shared_event) : outcome shared_chat :=
  match e with
  | TypeValue value =>
      let c' := set_value (handleInputChange value) c in
      Ok (if sc_value c === sc_value c' then c else rendered false c')
  | EnterPressed t w => Ok (handlePressEnter t w c)
  | Streamed e =>
      s ← sse_step (sc_sse c) e;
      let c' := set_sse s c in
      Ok (if answer_changes e then rendered true c'
          else if sse_done s === sse_done (sc_sse c) then c' else rendered false c')
  | SessionReturned res => session_returned res c
  | QuestionReturned content res => question_returned content res c
  | ResetClicked => Ok (rendered false (set_list (removeAllMessagesExceptFirst (sc_messages c), sc_drawn c) c))
  end.

(** The page when it is opened. *)
Definition shared_init : shared_chat :=
  rendered false {| sc_messages := []; sc_sse := sse_init; sc_drawn := 0; sc_value := ""; sc_hasError := false; sc_sent := [] |}.

Definition shared_run (c : shared_chat) (es : list shared_event) : outcome shared_chat :=
  foldl (λ m e, m ≫= λ c, shared_step c e) (Ok c) es.
End shared.

(** ** The widget *)

(** Which messages are displayed: an answer that is not to be streamed is
    kept back while it is the last message of a running request. *)
Definition displayed (enableStreaming sendLoading : bool) (derivedMessages : list val) : list val :=
  if enableStreaming then derivedMessages
  else omap (λ im : nat * val,
    let '(index, msg) := im in
    if prop "role" msg === VStr MessageType.User then Some msg
    else if prop "role" msg === VStr MessageType.Assistant then
      if negb sendLoading || bool_decide (S index < length derivedMessages) then Some msg else None
    else Some msg) (imap pair derivedMessages).

(** The badge of the closed button. *)
Definition badge (isOpen : bool) (messageCount : nat) : option string :=
  if negb isOpen && bool_decide (0 < messageCount) then
    Some (if bool_decide (9 < messageCount) then "9+" else pretty (Z.of_nat messageCount))
  else None.

(** *** Its input

    [w_input] is the local text, [w_hook] the text of the hook that sends.  A
    click waits for a timer; what the timer does is fixed at the click: the
    text and the state of the hook then. *)
Record widget := {
  w_input : string;
  w_hook : string;
  w_loading : bool;
  w_timers : list (string * bool);
  w_asked : list string
}.

(** The effect that brings the text of the hook into the input. *)
Definition synced (w : widget) : widget :=
  if (w_hook w !== "") && (w_hook w !== w_input w) then
    {| w_input := w_hook w; w_hook := w_hook w; w_loading := w_loading w; w_timers := w_timers w; w_asked := w_asked w |}
  else w.

Definition type_text (v : string) (w : widget) : widget :=
  synced {| w_input := v; w_hook := handleInputChange v; w_loading := w_loading w; w_timers := w_timers w; w_asked := w_asked w |}.

Definition handleSendMessage (w : widget) : widget :=
  if (str_trim (w_input w) === "") || w_loading w then w
  else synced {| w_input := w_input w; w_hook := handleInputChange (w_input w); w_loading := w_loading w;
                 w_timers := w_timers w ++ [(w_hook w, negb (w_loading w))]; w_asked := w_asked w |}.

(** The oldest timer: Enter is pressed in the hook, with the text of the
    click, and the input is emptied. *)
Definition timer_fired (w : widget) : widget :=
  match w_timers w with
  | [] => w
  | (value, done) :: timers =>
      let asks := (str_trim value !== "") && done in
      synced {| w_input := ""; w_hook := if asks then "" else w_hook w; w_loading := w_loading w || asks;
                w_timers := timers; w_asked := if asks then w_asked w ++ [value] else w_asked w |}
  end.

(** The request ends; when it failed its text comes back. *)
Definition request_ended (back : option string) (w : widget) : widget :=
  synced {| w_input := w_input w; w_hook := default (w_hook w) back; w_loading := false; w_timers := w_timers w;
            w_asked := w_asked w |}.

(** *** Open, closed, minimized *)
Record widget_view := { v_isOpen : bool; v_isMinimized : bool }.

(** [toggleChat]; in button mode the embedding page is told. *)
Definition toggleChat (mode : string) (v : widget_view) : widget_view * list bool :=
  if mode === "button" then
    ({| v_isOpen := negb (v_isOpen v); v_isMinimized := v_isMinimized v |}, [negb (v_isOpen v)])
  else ({| v_isOpen := negb (v_isOpen v); v_isMinimized := false |}, []).

Definition minimizeChat (v : widget_view) : widget_view := {| v_isOpen := v_isOpen v; v_isMinimized := true |}.

(** ** The embedding page *)
Inductive widget_message :=
  | WIDGET_READY
  | CREATE_CHAT_WINDOW (src : string)
  | TOGGLE_CHAT (isOpen : bool)
  | SCROLL_PASSTHROUGH (deltaY : Z).

(** Its document: the window with its source and whether it is shown, and how
    far the page is scrolled. *)
Record host := { h_window : option (string * bool); h_scroll : Z }.

Definition host_init : host := {| h_window := None; h_scroll := 0 |}.

(** The script of the embed dialog, which listens to one origin. *)
Definition host_script (expected origin : string) (h : host) (m : widget_message) : host :=
  if origin !== expected then h
  else match m with
  | CREATE_CHAT_WINDOW src =>
      match h_window h with
      | Some _ => h
      | None => {| h_window := Some (src, false); h_scroll := h_scroll h |}
      end
  | TOGGLE_CHAT isOpen =>
      match h_window h with
      | Some (src, _) => {| h_window := Some (src, isOpen); h_scroll := h_scroll h |}
      | None => h
      end
  | SCROLL_PASSTHROUGH deltaY => {| h_window := h_window h; h_scroll := (h_scroll h + deltaY)%Z |}
  | WIDGET_READY => h
  end.

(** The button of the master: what a click sends, and its new state. *)
Definition master_click (isOpen : bool) : bool * widget_message := (negb isOpen, TOGGLE_CHAT (negb isOpen)).

(** What the master sends when it is mounted. *)
Definition master_mounted (href : string) : list widget_message :=
  if widget_mode (searchParams href) === "master" then [CREATE_CHAT_WINDOW (window_src href); WIDGET_READY] else [WIDGET_READY].

(** Clicks on the button after it is mounted: the button's state and the
    document of the page around it. *)
Fixpoint clicks (expected origin : string) (n : nat) (s : bool * host) : bool * host :=
  match n with
  | 0 => s
  | S n => let '(isOpen, m) := master_click s.1 in clicks expected origin n (isOpen, host_script expected origin s.2 m)
  end.

Definition embedded (expected origin href : string) (n : nat) : bool * host :=
  clicks expected origin n (false, foldl (host_script expected origin) host_init (master_mounted href)).

(** ** Displayed messages *)
Definition is_answer (m : val) : bool := prop "role" m === VStr MessageType.Assistant.

Lemma shown_all {A B} (f : nat * A → option B) (g : A → B) (l : list A) (k : nat) :
  (∀ i x, l !! i = Some x → f (k + i, x) = Some (g x)) → omap f (imap (λ i x, (k + i, x)) l) = map g l.
Proof.
  revert k. induction l as [|x l IH]; intros k Hf; [done|]. rewrite imap_cons. cbn [omap list_omap map].
  rewrite (Hf 0 x) by done. f_equal. rewrite <- (IH (S k)).
  - f_equal. apply imap_ext. intros i y _. simpl. f_equal. lia.
  - intros i y Hy. rewrite <- (Hf (S i) y Hy). f_equal. f_equal. lia.
Qed.

(** A widget that streams, or has nothing to wait for, displays all messages;
    otherwise all but the answer that is being written. *)
Theorem displayed_exact enableStreaming sendLoading ms m :
  displayed enableStreaming sendLoading [] = [] ∧
  displayed enableStreaming sendLoading (ms ++ [m]) =
    ms ++ (if negb enableStreaming && sendLoading && is_answer m then [] else [m]).
Proof.
  unfold displayed. destruct enableStreaming; [by split|]. split; [done|].
  set (f := λ im : nat * val, _). rewrite imap_app, omap_app.
  assert (∀ i x, i < length ms → f (i, x) = Some x) as Hf.
  { intros i x Hi. subst f. simpl. rewrite length_app. simpl. rewrite (bool_decide_true (S i < _)) by lia.
    rewrite orb_true_r. by destruct (prop "role" x === VStr MessageType.User), (prop "role" x === VStr MessageType.Assistant). }
  f_equal.
  - change (imap pair ms) with (imap (λ i x, (0 + i, x)) ms). rewrite (shown_all f id ms 0); [apply map_id|]. intros i x Hi%lookup_lt_Some. by apply Hf.
  - simpl. subst f. cbn beta iota. rewrite Nat.add_0_r, length_app, (bool_decide_false (S (length ms) < _)) by (simpl; lia).
    rewrite orb_false_r. unfold is_answer. destruct (bool_decide_reflect (prop "role" m = VStr MessageType.User)) as [->|Hu].
    + by destruct sendLoading.
    + destruct (prop "role" m === VStr MessageType.Assistant), sendLoading; done.
Qed.

(** ** The input of the widget *)
Inductive widget_event := Typed (v : string) | Clicked | TimerFired | RequestEnded (back : option string).

Definition widget_step (w : widget) (e : widget_event) : widget :=
  match e with
  | Typed v => type_text v w
  | Clicked => handleSendMessage w
  | TimerFired => timer_fired w
  | RequestEnded back => request_ended back w
  end.

Definition widget_init : widget := {| w_input := ""; w_hook := ""; w_loading := false; w_timers := []; w_asked := [] |}.

Definition in_step (w : widget) : Prop := w_hook w = "" ∨ w_hook w = w_input w.

Lemma synced_in_step w : in_step (synced w).
Proof.
  unfold synced, in_step. destruct (bool_decide_reflect (w_hook w = "")) as [He|Hne]; [by left; rewrite He|].
  destruct (bool_decide_reflect (w_hook w = w_input w)) as [He|Hd]; right; [done|]. reflexivity.
Qed.

(** Whatever happens to the widget, the text it would send is the text it
    shows, unless it has none to send. *)
Lemma widget_in_step es : in_step (foldl widget_step widget_init es).
Proof.
  assert (∀ w, in_step w → in_step (foldl widget_step w es)) as H; [|apply H; by left].
  induction es as [|e es IH]; intros w Hw; [done|]. apply IH.
  destruct e; simpl; try apply synced_in_step; [|].
  - unfold handleSendMessage. case_match; [done|apply synced_in_step].
  - unfold timer_fired. by destruct (w_timers w) as [|[v d] ts]; [|apply synced_in_step].
Qed.

Lemma typed v w : handleInputChange v ≠ "" → type_text v w =
  {| w_input := handleInputChange v; w_hook := handleInputChange v; w_loading := w_loading w; w_timers := w_timers w;
     w_asked := w_asked w |}.
Proof.
  intros Hne. unfold type_text, synced. generalize dependent (handleInputChange v). intros h Hne.
  cbn [w_hook w_input]. rewrite (bool_decide_false _ Hne). cbn [negb andb]. by destruct (bool_decide_reflect (h = v)) as [->|].
Qed.

Lemma timer_asks v w ts : str_trim v ≠ "" → w_timers w = (v, true) :: ts →
  timer_fired w = {| w_input := ""; w_hook := ""; w_loading := true; w_timers := ts; w_asked := w_asked w ++ [v] |}.
Proof. intros Hv Ht. unfold timer_fired. by rewrite Ht, (bool_decide_false _ Hv), orb_true_r. Qed.

(** A text typed and sent is asked once, and both texts are empty. *)
Lemma asked_once v w : w_timers w = [] → w_loading w = false → str_trim (handleInputChange v) ≠ "" →
  foldl widget_step w [Typed v; Clicked; TimerFired] =
    {| w_input := ""; w_hook := ""; w_loading := true; w_timers := []; w_asked := w_asked w ++ [handleInputChange v] |}.
Proof.
  intros Ht Hl Hv. cbn [foldl widget_step]. assert (handleInputChange v ≠ "") as Hne by (intros He; rewrite He in Hv; by apply Hv).
  rewrite typed by done. generalize dependent (handleInputChange v). intros h Hv _. rewrite Ht, Hl.
  unfold handleSendMessage. cbn [w_input w_loading w_timers w_hook w_asked]. rewrite (bool_decide_false _ Hv). cbn [orb negb app].
  rewrite (timer_asks h _ []); [|done|by unfold synced; case_match].
  unfold synced. by case_match.
Qed.

(** Two clicks before the timer fires ask twice. *)
Lemma double_click v : handleInputChange v = v → str_trim v ≠ "" →
  w_asked (foldl widget_step widget_init [Typed v; Clicked; Clicked; TimerFired; TimerFired]) = [v; v].
Proof.
  intros Hv Ht. cbn [foldl widget_step].
  assert (v ≠ "") as Hne by (intros ->; by apply Ht).
  assert (∀ l ts a, synced {| w_input := v; w_hook := v; w_loading := l; w_timers := ts; w_asked := a |} =
    {| w_input := v; w_hook := v; w_loading := l; w_timers := ts; w_asked := a |}) as Hs.
  { intros l ts a. unfold synced. cbn. by rewrite (bool_decide_true (v = v)), andb_false_r by done. }
  unfold type_text. rewrite Hv, Hs. cbn [w_loading w_timers w_asked widget_init].
  unfold handleSendMessage. do 2 (cbn [w_input w_loading w_timers w_hook w_asked]; rewrite (bool_decide_false _ Ht), Hv, Hs; cbn [orb negb app]).
  rewrite (timer_asks v (Build_widget v v false [(v, true); (v, true)] []) [(v, true)]) by done. by rewrite (timer_asks v _ []) by done.
Qed.

(** ** The session *)
Section session.
Context {L : Lodash} (uuid : nat → string) (conversationId : string) (release : option string) (sharedData : obj).
Context (Hwf : obj_wf sharedData) (Hbox : obj_has "chatBoxId" sharedData = false).

Local Abbreviation rendered := (rendered uuid release sharedData).
Local Abbreviation step := (shared_step uuid conversationId release sharedData).
Local Abbreviation body := (session_body release sharedData).

Lemma body_no_box : has_box (VObj body) = false.
Proof.
  apply not_true_iff_false. unfold has_box. cbn [obj_of_val]. rewrite obj_has_true. unfold session_body.
  rewrite obj_assign_lookup by (unfold release_part; destruct release as [r|]; [destruct (r === "")|]; repeat constructor; set_solver).
  assert (obj_lookup "chatBoxId" (release_part release) = None) as ->
    by (unfold release_part; destruct release as [r|]; [by destruct (r === "")|done]).
  rewrite obj_assign_lookup by done. unfold obj_has in Hbox. destruct (obj_lookup "chatBoxId" sharedData); [done|]. by intros [? ?].
Qed.

Lemma fetch_busy c : sse_done (sc_sse (fetchSessionId release sharedData c)) = false.
Proof. unfold fetchSessionId, send, setDoneValue. cbn. by rewrite body_no_box. Qed.

Lemma answer_keeps_done c : sse_done (sc_sse (effect_answer uuid c)) = sse_done (sc_sse c) ∧ sc_sent (effect_answer uuid c) = sc_sent c.
Proof. unfold effect_answer. by case_match. Qed.

(** After every render the stream is busy, and only the session was asked
    for. *)
Lemma rendered_busy b c : sse_done (sc_sse (rendered b c)) = false ∧
  ∃ n, sc_sent (rendered b c) = sc_sent c ++ replicate (S n) body ∧ (sse_done (sc_sse c) = true → n = 1).
Proof.
  unfold SharedChat.rendered. set (c1 := if b then _ else _).
  assert (sse_done (sc_sse c1) = false ∧ sc_sent c1 = sc_sent c ++ [body]) as [Hd Hs].
  { subst c1. destruct b; [|split; [apply fetch_busy|done]].
    destruct (answer_keeps_done (fetchSessionId release sharedData c)) as [-> ->]. split; [apply fetch_busy|done]. }
  destruct (negb _ && _) eqn:He.
  - split; [done|]. exists 0. split; [done|]. intros Hc. apply andb_true_iff in He as [_ He%bool_decide_eq_true]. congruence.
  - split; [apply fetch_busy|]. exists 1. split; [|done]. cbn. by rewrite Hs, <- app_assoc.
Qed.

(** What a reachable page is like: its stream is busy, and it only ever asked
    for the session. *)
Definition only_session (c : shared_chat) : Prop := sse_done (sc_sse c) = false ∧ ∃ n, sc_sent c = replicate (S n) body.

Lemma rendered_only b c : (∃ n, sc_sent c = replicate n body) → only_session (rendered b c).
Proof.
  intros [n Hn]. destruct (rendered_busy b c) as [Hd (m & Hs & _)]. split; [done|]. exists (n + m).
  rewrite Hs, Hn, <- replicate_add. f_equal. lia.
Qed.

Lemma step_only c e c' : only_session c → step c e = Ok c' → only_session c' ∧ sublist (sc_sent c) (sc_sent c').
Proof.
  intros [Hd [n Hn]].
  assert (∀ b x, sc_sent x = sc_sent c → only_session (rendered b x) ∧ sublist (sc_sent c) (sc_sent (rendered b x))) as Hr.
  { intros b x Hx. split; [apply rendered_only; rewrite Hx; by exists (S n)|].
    destruct (rendered_busy b x) as [_ (m & -> & _)]. rewrite Hx. apply sublist_inserts_r. done. }
  assert (∀ x, sse_done (sc_sse x) = false → sc_sent x = sc_sent c → only_session x ∧ sublist (sc_sent c) (sc_sent x)) as Hk.
  { intros x H1 H2. rewrite H2. split; [|done]. split; [done|]. rewrite H2. by exists n. }
  destruct e as [v|t w|e|res|content res|]; cbn [shared_step].
  - intros [= <-]. case_match; [by apply Hk|by apply Hr].
  - unfold handlePressEnter. intros [= <-]. rewrite Hd. case_match; by apply Hk.
  - destruct (sse_step (sc_sse c) e) as [s| |]; [|done|done]. cbn. intros [= <-].
    destruct (answer_changes e); [by apply Hr|]. case_bool_decide as He; [|by apply Hr]. apply Hk; [cbn; congruence|done].
  - unfold session_returned. destruct (isCompletionError res) as [f| |]; [|done|done]. cbn. intros [= <-].
    destruct f; [|by apply Hk]. destruct (sc_hasError c); [by apply Hk|by apply Hr].
  - unfold question_returned. destruct (isCompletionError res) as [f| |]; [|done|done]. cbn. intros [= <-].
    destruct f; [by apply Hr|by apply Hk].
  - intros [= <-]. by apply Hr.
Qed.

(** The page of a shared chat is never idle: whatever the user does and the
    server answers, it waits for another session, and no question leaves
    it. *)
Theorem never_asks es c : shared_run uuid conversationId release sharedData (shared_init uuid release sharedData) es = Ok c →
  sse_done (sc_sse c) = false ∧ ∀ b, b ∈ sc_sent c → b = body.
Proof.
  assert (∀ c0, only_session c0 → shared_run uuid conversationId release sharedData c0 es = Ok c → only_session c) as H.
  { unfold shared_run. induction es as [|e es IH]; intros c0 H0; cbn [foldl]; [by intros [= <-]|].
    cbn [mbind outcome_bind]. destruct (step c0 e) as [c1| |] eqn:He; [|intros Hc; exfalso; revert Hc; clear..].
    - apply IH. by eapply step_only.
    - induction es as [|e' es IH']; [done|exact IH'].
    - induction es as [|e' es IH']; [done|exact IH']. }
  intros Hc. apply H in Hc as [Hd [n Hn]]; [|by apply rendered_only; exists 0]. split; [done|].
  intros b Hb. rewrite Hn in Hb. by apply elem_of_replicate in Hb as [-> _].
Qed.

(** Each answer that ends is followed by two more requests. *)
Lemma ended_asks_again c b : sse_done (sc_sse c) = false → has_box b = false →
  ∃ c', step c (Streamed (Ended b)) = Ok c' ∧ sc_sent c' = sc_sent c ++ [body; body].
Proof.
  intros Hd Hb. cbn [shared_step sse_step mbind outcome_bind answer_changes]. unfold setDoneValue. rewrite Hb.
  eexists. split; [reflexivity|]. cbn [resetAnswer sse_done]. rewrite Hd. rewrite bool_decide_false by done.
  set (c1 := set_sse _ c). destruct (rendered_busy false c1) as [_ (n & -> & Hn)]. by rewrite Hn.
Qed.
End session.

(** ** The widget in a page *)
Lemma clicked expected origin n b h src : origin = expected → h_window h = Some (src, b) →
  clicks expected origin n (b, h) = (xorb (Nat.odd n) b, {| h_window := Some (src, xorb (Nat.odd n) b); h_scroll := h_scroll h |}).
Proof.
  intros ->. revert b h. induction n as [|n IH]; intros b h Hh.
  - simpl. by destruct h as [w sc]; simpl in *; rewrite Hh.
  - cbn [clicks fst snd master_click]. rewrite IH by (unfold host_script; rewrite bool_decide_true by done; cbn [negb]; by rewrite Hh).
    assert (∀ x, h_scroll (host_script expected expected h (TOGGLE_CHAT x)) = h_scroll h) as ->
      by (intros x; unfold host_script; rewrite bool_decide_true by done; cbn [negb]; by rewrite Hh).
    rewrite Nat.odd_succ, <- Nat.negb_odd. by destruct (Nat.odd n), b.
Qed.

Lemma not_heard expected origin n b h : origin ≠ expected → (clicks expected origin n (b, h)).2 = h.
Proof.
  intros Ho. revert b. induction n as [|n IH]; intros b; [done|]. cbn [clicks fst snd master_click].
  unfold host_script at 1. rewrite (bool_decide_false _ Ho). apply IH.
Qed.

(** A page with the code of the dialog shows one window, a widget in
    window mode with the settings of the dialog, exactly while the button was
    clicked an odd number of times; but only if the script listens to the
    origin of the frame, and otherwise never. *)
Theorem widget_embedded origin token from beta v n : plain_origin origin → ev_widget v = true →
  let href := generateIframeSrc origin token from beta v in
  let '(isOpen, h) := embedded (replace_port origin) origin href n in
  if replace_port origin === origin then
    isOpen = Nat.odd n ∧
    ∃ src, h_window h = Some (src, isOpen) ∧ widget_mode (searchParams src) = "window" ∧
      useGetSharedChatSearchParams (searchParams src) = useGetSharedChatSearchParams (searchParams href) ∧
      enableStreaming (searchParams src) = ev_enableStreaming v
  else h = host_init.
Proof.
  intros Ho Hw href. destruct (embedded _ _ _ _) as [isOpen h] eqn:He. unfold embedded, master_mounted in He.
  assert (widget_mode (searchParams href) = "master") as Hm.
  { subst href. rewrite src_params by done. unfold widget_mode. rewrite get_params. keys. by rewrite !andb_false_r, Hw. }
  rewrite (bool_decide_true _ Hm) in He. cbn [foldl] in He.
  destruct (bool_decide_reflect (replace_port origin = origin)) as [Hp|Hp].
  - unfold host_script at 1 2 in He. rewrite !bool_decide_true in He by done. cbn in He.
    erewrite clicked in He by done. rewrite xorb_false_r in He. injection He as <- <-. split; [done|].
    exists (window_src href). split; [done|]. destruct (window_settings origin token from beta v Ho Hw) as (H1 & H2 & H3).
    split; [exact H1|]. split; [exact H2|]. subst href. etransitivity; [exact H3|]. rewrite src_params by done. unfold enableStreaming.
    rewrite get_params. keys. rewrite !andb_false_r, Hw. by destruct (ev_enableStreaming v).
  - assert (origin ≠ replace_port origin) as Hne by congruence.
    unfold host_script at 1 2 in He. rewrite !(bool_decide_false _ Hne) in He. cbn [negb] in He.
    pose proof (not_heard (replace_port origin) origin n false host_init Hne) as Hn. by rewrite He in Hn.
Qed.

(** ** A page with a widget *)
Definition host_origin : string := "https://rag.example.org".

Example three_clicks : (embedded host_origin host_origin (generateIframeSrc host_origin "c1" "agent" "k" my_values) 3).1 = true.
Proof. by vm_compute. Qed.

Lemma widget_embedded_witness :
  let '(isOpen, h) := embedded (replace_port my_origin) my_origin (generateIframeSrc my_origin "c1" "agent" "k" my_values) 3 in
  h = host_init.
Proof.
  apply (widget_embedded my_origin "c1" "agent" "k" my_values 3); [|done].
  split; [|split]; by vm_compute.
Defined.
