(* ===== verification/Credentials.v ===== *)
(** * Credentials of data sources

    pages/user-setting/data-source/component: the fields of the Gmail and the
    Google Drive connector (gmail-token-field.tsx, google-drive-token-field.tsx,
    the same but for names), which keep a JSON text of OAuth credentials: a
    file is uploaded, and what lacks a refresh token is authorized in a popup
    window whose result is polled; and what box-token-field.tsx stores.

    A step of the field is what the user, the popup, the server or a timer
    does; requests and files are answered in any order.  [json_parse] and
    [json_stringify] are those of [JSON], [None] where the first throws. *)
From S2P Require Import Prelude JsValue Libs FormUtils.
Open Scope list_scope.
Open Scope nat_scope.
Open Scope js_scope.

Class JSON := { json_parse : string → option val; json_stringify : val → string }.

Section credentials.
Context `{JSON}.

(** ** The text *)
Definition credentialHasRefreshToken (content : string) : bool :=
  match json_parse content with Some parsed => truthy (prop "refresh_token" parsed) | None => false end.

Inductive summary := NoSummary | WithRefreshToken | ClientCredentials | StoredCredentials.

Definition describeCredentials (content : string) : summary :=
  if content === "" then NoSummary
  else match json_parse content with
  | None => NoSummary
  | Some parsed =>
      if truthy (prop "refresh_token" parsed) then WithRefreshToken
      else if truthy (prop "installed" parsed) || truthy (prop "web" parsed) then ClientCredentials
      else StoredCredentials
  end.

Definition parseJsonObject (content : string) : option val :=
  if content === "" then None
  else match json_parse content with
  | Some parsed => if (typeof parsed === "object") && (parsed !== VNull) then Some parsed else None
  | None => None
  end.

Definition filled (item : val) : option string :=
  match item with VStr s => if str_trim s === "" then None else Some (str_trim s) | _ => None end.

Definition extractRedirectUri (content : string) : string :=
  match parseJsonObject content with
  | None => ""
  | Some parsed =>
      match filled (prop "redirect_uri" parsed) with
      | Some uri => uri
      | None =>
          match js_coalesce (prop "redirect_uris" (prop "web" parsed)) (prop "redirect_uris" (prop "installed" parsed)) with
          | VArr redirectUris => default "" (head (omap filled redirectUris))
          | _ => ""
          end
      end
  end.

(** [{ ...parsed }]: an array is spread by its indexes. *)
Definition spread_json (parsed : val) : obj :=
  match parsed with VArr l => imap (λ i x, (pretty (Z.of_nat i), x)) l | _ => spread parsed end.

Definition withRedirectUri (credentials redirectUri : string) : string :=
  let trimmedRedirectUri := str_trim redirectUri in
  if trimmedRedirectUri === "" then credentials
  else match parseJsonObject credentials with
  | None => credentials
  | Some parsed => json_stringify (VObj (obj_set "redirect_uri" (VStr trimmedRedirectUri) (spread_json parsed)))
  end.

(** ** The field *)
Inductive web_status := Idle | Waiting (message : string).

Inductive notice :=
  | Success (text : string) | Failure (text : string) | Information (text : string) | Warned.

(** A poll keeps the flow it asks for and the redirect URI its closure
    holds. *)
Record poll := { po_flow : string; po_redirect : string }.

Record token_field := {
  tf_value : string;
  tf_files : option string;
  tf_pending : string;
  tf_redirect : string;
  tf_open : bool;
  tf_starting : bool;
  tf_flow : option string;
  tf_status : web_status;
  tf_timer : option poll;
  tf_polls : list poll;
  tf_starts : list (string * string);
  tf_reads : list string;
  tf_notices : list notice
}.

Definition with_value x f := {| tf_value := x; tf_files := tf_files f; tf_pending := tf_pending f; tf_redirect := tf_redirect f;
  tf_open := tf_open f; tf_starting := tf_starting f; tf_flow := tf_flow f; tf_status := tf_status f; tf_timer := tf_timer f;
  tf_polls := tf_polls f; tf_starts := tf_starts f; tf_reads := tf_reads f; tf_notices := tf_notices f |}.
Definition with_files x f := {| tf_value := tf_value f; tf_files := x; tf_pending := tf_pending f; tf_redirect := tf_redirect f;
  tf_open := tf_open f; tf_starting := tf_starting f; tf_flow := tf_flow f; tf_status := tf_status f; tf_timer := tf_timer f;
  tf_polls := tf_polls f; tf_starts := tf_starts f; tf_reads := tf_reads f; tf_notices := tf_notices f |}.
Definition with_pending x f := {| tf_value := tf_value f; tf_files := tf_files f; tf_pending := x; tf_redirect := tf_redirect f;
  tf_open := tf_open f; tf_starting := tf_starting f; tf_flow := tf_flow f; tf_status := tf_status f; tf_timer := tf_timer f;
  tf_polls := tf_polls f; tf_starts := tf_starts f; tf_reads := tf_reads f; tf_notices := tf_notices f |}.
Definition with_redirect x f := {| tf_value := tf_value f; tf_files := tf_files f; tf_pending := tf_pending f; tf_redirect := x;
  tf_open := tf_open f; tf_starting := tf_starting f; tf_flow := tf_flow f; tf_status := tf_status f; tf_timer := tf_timer f;
  tf_polls := tf_polls f; tf_starts := tf_starts f; tf_reads := tf_reads f; tf_notices := tf_notices f |}.
Definition with_open x f := {| tf_value := tf_value f; tf_files := tf_files f; tf_pending := tf_pending f; tf_redirect := tf_redirect f;
  tf_open := x; tf_starting := tf_starting f; tf_flow := tf_flow f; tf_status := tf_status f; tf_timer := tf_timer f;
  tf_polls := tf_polls f; tf_starts := tf_starts f; tf_reads := tf_reads f; tf_notices := tf_notices f |}.
Definition with_starting x f := {| tf_value := tf_value f; tf_files := tf_files f; tf_pending := tf_pending f; tf_redirect := tf_redirect f;
  tf_open := tf_open f; tf_starting := x; tf_flow := tf_flow f; tf_status := tf_status f; tf_timer := tf_timer f;
  tf_polls := tf_polls f; tf_starts := tf_starts f; tf_reads := tf_reads f; tf_notices := tf_notices f |}.
Definition with_web flow status timer f := {| tf_value := tf_value f; tf_files := tf_files f; tf_pending := tf_pending f;
  tf_redirect := tf_redirect f; tf_open := tf_open f; tf_starting := tf_starting f; tf_flow := flow; tf_status := status;
  tf_timer := timer; tf_polls := tf_polls f; tf_starts := tf_starts f; tf_reads := tf_reads f; tf_notices := tf_notices f |}.
Definition with_requests polls starts reads f := {| tf_value := tf_value f; tf_files := tf_files f; tf_pending := tf_pending f;
  tf_redirect := tf_redirect f; tf_open := tf_open f; tf_starting := tf_starting f; tf_flow := tf_flow f; tf_status := tf_status f;
  tf_timer := tf_timer f; tf_polls := polls; tf_starts := starts; tf_reads := reads; tf_notices := tf_notices f |}.
Definition notify n f := {| tf_value := tf_value f; tf_files := tf_files f; tf_pending := tf_pending f; tf_redirect := tf_redirect f;
  tf_open := tf_open f; tf_starting := tf_starting f; tf_flow := tf_flow f; tf_status := tf_status f; tf_timer := tf_timer f;
  tf_polls := tf_polls f; tf_starts := tf_starts f; tf_reads := tf_reads f; tf_notices := tf_notices f ++ [n] |}.

Definition setWebStatus (s : web_status) (f : token_field) : token_field := with_web (tf_flow f) s (tf_timer f) f.

(** The flow in the state and the one in the ref are the same at the end of
    every step. *)
Definition clearWebState : token_field → token_field := with_web None Idle None.

Definition resetDialog (shouldResetState : bool) (f : token_field) : token_field :=
  let f := clearWebState (with_open false f) in
  if shouldResetState then with_files None (with_pending "" f) else f.

(** The effect on the dialog and the value. *)
Definition settle (before f : token_field) : token_field :=
  if (tf_open before === tf_open f) && (tf_value before === tf_value f) then f
  else if tf_open f then f else with_redirect (extractRedirectUri (tf_value f)) f.

(** What is shown above the field. *)
Definition hasVerifiedTokens (f : token_field) : bool :=
  (tf_value f !== "") && credentialHasRefreshToken (tf_value f).

Definition hasUploadedButUnverified (f : token_field) : bool := (tf_value f !== "") && negb (hasVerifiedTokens f).

(** *** Polling *)
Definition fetchWebResult (p : poll) (f : token_field) : token_field :=
  with_requests (tf_polls f ++ [p]) (tf_starts f) (tf_reads f) f.

(** What a poll comes back with. *)
Inductive poll_answer := PollRejected | PollAnswer (code : Z) (credentials : val) (message : string).

Definition Finalizing : string := "Authorization confirmed. Finalizing tokens...".

Definition poll_answered (p : poll) (a : poll_answer) (f : token_field) : token_field :=
  match a with
  | PollRejected => clearWebState (notify (Failure "Unable to retrieve authorization result.") f)
  | PollAnswer code credentials message =>
      if (code === 0%Z) && truthy credentials then
        let rawCredentials := match credentials with VStr s => s | _ => json_stringify credentials end in
        let f := with_value (withRedirectUri rawCredentials (po_redirect p)) f in
        resetDialog false (notify (Success "Gmail credentials verified.") (with_pending "" f))
      else if code === 106%Z then with_web (tf_flow f) (Waiting Finalizing) (Some p) f
      else clearWebState (notify (Failure (if message === "" then "Authorization failed." else message)) f)
  end.

(** *** The popup's message *)
Definition window_message (flowId : string) (success : bool) (message : string) (f : token_field) : token_field :=
  if flowId === "" then f
  else if match tf_flow f with Some flow => (flow !== "") && (flow !== flowId) | None => false end then f
  else if success then
    fetchWebResult {| po_flow := flowId; po_redirect := tf_redirect f |} (setWebStatus (Waiting Finalizing) f)
  else clearWebState (notify (Failure (if message === "" then "Authorization window reported an error." else message)) f).

(** *** Files *)
Definition handleValueChange (nextFiles : list string) (f : token_field) : token_field :=
  match last nextFiles with
  | None => clearWebState (with_pending "" (with_value "" (with_files None f)))
  | Some file => with_requests (tf_polls f) (tf_starts f) (tf_reads f ++ [file]) f
  end.

(** A file that was read, or could not be. *)
Definition file_read (file : string) (text : option string) (f : token_field) : token_field :=
  match text with
  | None => with_files None (notify (Failure "Unable to read the uploaded file.") f)
  | Some text =>
      match json_parse text with
      | None => clearWebState (with_files None (notify (Failure "Invalid JSON file.") f))
      | Some _ =>
          let f := clearWebState (with_files (Some file) f) in
          let extractedRedirectUri := extractRedirectUri text in
          let f := with_redirect extractedRedirectUri f in
          if credentialHasRefreshToken text then
            notify (Success "Gmail OAuth credentials uploaded.")
              (with_pending "" (with_value (withRedirectUri text extractedRedirectUri) f))
          else
            notify (Information "Client configuration uploaded. Verification is required to finish setup.")
              (with_open true (with_pending text f))
      end
  end.

(** *** Starting the authorization *)
Definition handleStartWebAuthorization (f : token_field) : token_field :=
  if tf_pending f === "" then notify (Failure "No Google credential file detected.") f
  else if str_trim (tf_redirect f) === "" then notify (Failure "Please fill in Redirect URI.") f
  else
    let f := clearWebState (with_starting true f) in
    with_requests (tf_polls f) (tf_starts f ++ [(tf_pending f, str_trim (tf_redirect f))]) (tf_reads f) f.

Inductive start_answer := StartRejected | StartAnswer (code : Z) (authorization_url flow_id message : string).

Definition start_answered (popup : bool) (a : start_answer) (f : token_field) : token_field :=
  with_starting false
    match a with
    | StartRejected => notify (Failure "Failed to start browser authorization.") f
    | StartAnswer code authorization_url flow_id message =>
        if (code === 0%Z) && (authorization_url !== "") then
          if popup then
            with_web (Some flow_id) (Waiting "Complete the Google consent in the popup window.") (tf_timer f) f
          else notify (Failure "Popup was blocked. Please allow popups for this site.") f
        else notify (Failure (if message === "" then "Failed to start browser authorization." else message)) f
    end.

Definition handleManualWebCheck (f : token_field) : token_field :=
  match tf_flow f with
  | Some flow =>
      if flow === "" then notify (Information "Start browser authorization first.") f
      else fetchWebResult {| po_flow := flow; po_redirect := tf_redirect f |}
             (setWebStatus (Waiting "Checking authorization status...") f)
  | None => notify (Information "Start browser authorization first.") f
  end.

Definition handleCancel (f : token_field) : token_field := resetDialog true (notify Warned f).

(** *** Steps *)
Inductive field_event :=
  | FilesChosen (nextFiles : list string)
  | FileRead (i : nat) (text : option string)
  | RedirectTyped (v : string)
  | StartClicked
  | StartAnswered (i : nat) (popup : bool) (a : start_answer)
  | WindowMessage (flowId : string) (success : bool) (message : string)
  | PollAnswered (i : nat) (a : poll_answer)
  | TimerFired
  | CheckClicked
  | Cancelled.

Definition cut {A} (i : nat) (l : list A) : list A := take i l ++ drop (S i) l.

Definition field_act (f : token_field) (e : field_event) : token_field :=
  match e with
  | FilesChosen nextFiles => handleValueChange nextFiles f
  | FileRead i text =>
      match tf_reads f !! i with
      | Some file => file_read file text (with_requests (tf_polls f) (tf_starts f) (cut i (tf_reads f)) f)
      | None => f
      end
  | RedirectTyped v => if tf_open f then with_redirect v f else f
  | StartClicked => if tf_open f && negb (tf_starting f) then handleStartWebAuthorization f else f
  | StartAnswered i popup a =>
      match tf_starts f !! i with
      | Some _ => start_answered popup a (with_requests (tf_polls f) (cut i (tf_starts f)) (tf_reads f) f)
      | None => f
      end
  | WindowMessage flowId success message => window_message flowId success message f
  | PollAnswered i a =>
      match tf_polls f !! i with
      | Some p => poll_answered p a (with_requests (cut i (tf_polls f)) (tf_starts f) (tf_reads f) f)
      | None => f
      end
  | TimerFired =>
      match tf_timer f with
      | Some p => fetchWebResult p (with_web (tf_flow f) (tf_status f) None f)
      | None => f
      end
  | CheckClicked => if tf_open f then handleManualWebCheck f else f
  | Cancelled => if tf_open f then handleCancel f else f
  end.

Definition field_step (f : token_field) (e : field_event) : token_field := settle f (field_act f e).

Definition field_init (value : string) : token_field :=
  {| tf_value := value; tf_files := None; tf_pending := ""; tf_redirect := extractRedirectUri value; tf_open := false;
     tf_starting := false; tf_flow := None; tf_status := Idle; tf_timer := None; tf_polls := []; tf_starts := [];
     tf_reads := []; tf_notices := [] |}.

Definition field_run (f : token_field) (es : list field_event) : token_field := foldl field_step f es.

(** ** What the value can be *)
Definition raw_credentials (credentials : val) : string :=
  match credentials with VStr s => s | _ => json_stringify credentials end.

Lemma settle_value before f : tf_value (settle before f) = tf_value f.
Proof. unfold settle. by repeat case_match. Qed.

(** A step leaves the value, or it is emptied with the files, or it is an
    uploaded text that has a refresh token, or what the server sent for a
    flow, with the redirect URI. *)
Theorem value_sources f e : tf_value (field_step f e) = tf_value f ∨
  (e = FilesChosen [] ∧ tf_value (field_step f e) = "") ∨
  (∃ i text, e = FileRead i (Some text) ∧ credentialHasRefreshToken text = true ∧
     tf_value (field_step f e) = withRedirectUri text (extractRedirectUri text)) ∨
  (∃ i p credentials message, e = PollAnswered i (PollAnswer 0 credentials message) ∧ tf_polls f !! i = Some p ∧
     truthy credentials = true ∧ tf_value (field_step f e) = withRedirectUri (raw_credentials credentials) (po_redirect p)).
Proof.
  unfold field_step. rewrite settle_value. destruct e as [fs|i text|v| |i popup a|flow ok m|i a| | |]; cbn [field_act].
  - unfold handleValueChange. destruct (last fs) as [x|] eqn:Hl; [by left|]. right. left. apply last_None in Hl as ->. done.
  - destruct (tf_reads f !! i) as [file|]; [|by left]. unfold file_read. destruct text as [text|]; [|by left].
    destruct (json_parse text); [|by left]. destruct (credentialHasRefreshToken text) eqn:Ht; [|by left].
    right. right. left. by exists i, text.
  - left. by destruct (tf_open f).
  - left. destruct (tf_open f && _); [|done]. unfold handleStartWebAuthorization. by repeat case_match.
  - left. destruct (tf_starts f !! i); [|done]. unfold start_answered. destruct a; [done|]. by repeat case_match.
  - left. unfold window_message. repeat (case_match; try done).
  - destruct (tf_polls f !! i) as [p|] eqn:Hp; [|by left]. destruct a as [|code c m]; [by left|]. cbn [poll_answered].
    destruct (bool_decide_reflect (code = 0%Z)) as [->|Hc]; cbn [andb]; [|left; by repeat case_match].
    destruct (truthy c) eqn:Hc; [|by left]. right. right. right. by exists i, p, c, m.
  - left. by destruct (tf_timer f).
  - left. destruct (tf_open f); [|done]. unfold handleManualWebCheck. by repeat case_match.
  - left. by destruct (tf_open f).
Qed.

(** ** An authorization *)

(** The dialog as an upload of client credentials leaves it. *)
Record ready (f : token_field) : Prop := {
  rd_open : tf_open f = true;
  rd_pending : tf_pending f ≠ "";
  rd_redirect : str_trim (tf_redirect f) ≠ "";
  rd_starting : tf_starting f = false;
  rd_polls : tf_polls f = [];
  rd_starts : tf_starts f = []
}.

(** Waiting for the result of one flow. *)
Record polling (p : poll) (f0 f : token_field) : Prop := {
  pg_open : tf_open f = true;
  pg_value : tf_value f = tf_value f0;
  pg_files : tf_files f = tf_files f0;
  pg_starting : tf_starting f = false;
  pg_flow : tf_flow f = Some (po_flow p);
  pg_polls : tf_polls f = [p];
  pg_starts : tf_starts f = []
}.

Lemma settle_same before f : tf_open before = tf_open f → tf_value before = tf_value f → settle before f = f.
Proof. intros Ho Hv. unfold settle. by rewrite Ho, Hv, !bool_decide_true by done. Qed.

Lemma authorization_starts f flow url : ready f → flow ≠ "" → url ≠ "" →
  polling {| po_flow := flow; po_redirect := tf_redirect f |} f
    (field_run f [StartClicked; StartAnswered 0 true (StartAnswer 0 url flow ""); WindowMessage flow true ""]).
Proof.
  intros [Ho Hp Hr Hs Hl Hst] Hf Hu. cbn [field_run foldl].
  set (f1 := field_step f StartClicked).
  assert (f1 = with_requests [] [(tf_pending f, str_trim (tf_redirect f))] (tf_reads f) (clearWebState (with_starting true f))) as ->.
  { subst f1. unfold field_step. cbn [field_act]. rewrite Ho, Hs. cbn [andb negb]. unfold handleStartWebAuthorization.
    rewrite (bool_decide_false _ Hp), (bool_decide_false _ Hr). cbv zeta. cbn [clearWebState with_web with_starting tf_polls tf_starts tf_reads tf_pending tf_redirect].
    rewrite Hl, Hst. by apply settle_same. }
  set (f2 := field_step _ (StartAnswered _ _ _)).
  assert (f2 = with_starting false (with_web (Some flow) (Waiting "Complete the Google consent in the popup window.") None
    (with_requests [] [] (tf_reads f) (clearWebState (with_starting true f))))) as ->.
  { subst f2. unfold field_step. cbn [field_act tf_starts with_requests lookup list_lookup]. unfold start_answered.
    rewrite (bool_decide_false _ Hu). by apply settle_same. }
  set (p := {| po_flow := flow; po_redirect := tf_redirect f |}).
  unfold field_step. cbn [field_act]. unfold window_message. rewrite (bool_decide_false _ Hf). cbn [tf_flow with_starting with_web].
  rewrite (bool_decide_false _ Hf), (bool_decide_true (flow = flow)) by done. cbn [negb andb].
  rewrite settle_same by done. by split.
Qed.

Lemma poll_again p f0 f : polling p f0 f →
  polling p f0 (field_run f [PollAnswered 0 (PollAnswer 106 VUndef ""); TimerFired]).
Proof.
  intros [Ho Hv Hf Hs Hfl Hp Hst]. cbn [field_run foldl]. unfold field_step at 2. cbn [field_act]. rewrite Hp. cbn [lookup list_lookup].
  rewrite settle_same by done. unfold field_step. cbn. rewrite settle_same by done. by split.
Qed.

(** However often the server is not ready, an authorization that goes through
    ends with its credentials as the value, with the redirect URI that was
    typed, and the dialog closed with nothing left to poll. *)
Theorem authorization_turn f flow url n credentials : ready f → flow ≠ "" → url ≠ "" → truthy credentials = true →
  let g := field_run f
    ([StartClicked; StartAnswered 0 true (StartAnswer 0 url flow ""); WindowMessage flow true ""]
     ++ concat (replicate n [PollAnswered 0 (PollAnswer 106 VUndef ""); TimerFired])
     ++ [PollAnswered 0 (PollAnswer 0 credentials "")]) in
  tf_value g = withRedirectUri (raw_credentials credentials) (tf_redirect f) ∧
  tf_open g = false ∧ tf_pending g = "" ∧ tf_flow g = None ∧ tf_status g = Idle ∧ tf_timer g = None ∧
  tf_polls g = [] ∧ tf_starting g = false ∧ tf_redirect g = extractRedirectUri (tf_value g).
Proof.
  intros Hf Hfl Hu Hc g. subst g. unfold field_run. rewrite !foldl_app. set (p := {| po_flow := flow; po_redirect := tf_redirect f |}).
  pose proof (authorization_starts f flow url Hf Hfl Hu) as H0. unfold field_run in H0. fold p in H0.
  set (f1 := foldl field_step f _) in *. clearbody f1.
  assert (polling p f (foldl field_step f1 (concat (replicate n [PollAnswered 0 (PollAnswer 106 VUndef ""); TimerFired])))) as H1.
  { revert f1 H0. induction n as [|n IH]; intros f1 H0; [done|]. cbn [replicate concat]. rewrite foldl_app. apply IH.
    by apply (poll_again p f f1). }
  set (f2 := foldl field_step f1 _) in *. clearbody f2. destruct H1 as [Ho Hv Hfi Hs Hfw Hp Hst].
  cbn [foldl]. unfold field_step. cbn [field_act]. rewrite Hp. cbn [lookup list_lookup poll_answered]. rewrite Hc. cbn [andb].
  unfold settle. rewrite Ho. done.
Qed.

(** ** What a cancellation leaves running *)

(** A poll that is under way when the user cancels still sets the value; one
    that is not ready sets the timer again. *)
Theorem cancelled_saved f p credentials message : tf_open f = true → tf_polls f = [p] → truthy credentials = true →
  tf_value (field_run f [Cancelled; PollAnswered 0 (PollAnswer 0 credentials message)]) =
    withRedirectUri (raw_credentials credentials) (po_redirect p) ∧
  tf_timer (field_run f [Cancelled; PollAnswered 0 (PollAnswer 106 VUndef message)]) = Some p.
Proof.
  intros Ho Hp Hc. cbn [field_run foldl]. unfold field_step at 2 4. cbn [field_act]. rewrite Ho.
  assert (∀ g, tf_polls (settle f g) = tf_polls g) as Hset by (intros g; unfold settle; by repeat case_match).
  unfold field_step. rewrite settle_value. cbn [field_act]. rewrite Hset. cbn [handleCancel resetDialog tf_polls with_files with_pending clearWebState with_web with_open notify].
  rewrite Hp. cbn [lookup list_lookup poll_answered]. rewrite Hc. cbn [andb]. split; [done|].
  unfold settle at 1. by repeat case_match.
Qed.

(** Without a flow of its own the field polls for any flow a message names. *)
Lemma any_flow f flow message : flow ≠ "" → tf_flow f = None →
  tf_polls (field_step f (WindowMessage flow true message)) = tf_polls f ++ [{| po_flow := flow; po_redirect := tf_redirect f |}].
Proof.
  intros Hf Hn. unfold field_step. cbn [field_act]. unfold window_message. rewrite (bool_decide_false _ Hf), Hn. cbn [negb andb].
  by rewrite settle_same.
Qed.

(** ** The redirect URI *)
Lemma filled_trim s : str_trim s ≠ "" → filled (VStr s) = Some (str_trim s).
Proof. intros Hs. unfold filled. by rewrite (bool_decide_false _ Hs). Qed.

(** The redirect URI stored with credentials is the one found in them, where
    the text that is written parses to what was written. *)
Lemma redirect_found credentials redirectUri parsed :
  parseJsonObject credentials = Some parsed → str_trim redirectUri ≠ "" → str_trim (str_trim redirectUri) = str_trim redirectUri →
  let o := VObj (obj_set "redirect_uri" (VStr (str_trim redirectUri)) (spread_json parsed)) in
  json_stringify o ≠ "" → json_parse (json_stringify o) = Some o →
  extractRedirectUri (withRedirectUri credentials redirectUri) = str_trim redirectUri.
Proof.
  intros Hp Hr Ht o Hne Hj. unfold withRedirectUri. rewrite (bool_decide_false _ Hr), Hp. fold o.
  unfold extractRedirectUri, parseJsonObject. rewrite (bool_decide_false _ Hne), Hj.
  change ((typeof o === "object") && (o !== VNull)) with true. cbn iota.
  assert (prop "redirect_uri" o = VStr (str_trim redirectUri)) as -> by apply obj_get_set_eq.
  rewrite filled_trim; by rewrite Ht.
Qed.

(** ** Box

    The field of box-token-field.tsx stores what its form holds, and then what
    the server sends for the flow. *)
Record BoxCredentials := {
  bc_client_id : val;
  bc_client_secret : val;
  bc_redirect_uri : val;
  bc_authorization_code : val;
  bc_access_token : val;
  bc_refresh_token : val
}.

(** Reading a property of [null] throws, which is caught. *)
Definition parseBoxCredentials (content : string) : option BoxCredentials :=
  if content === "" then None
  else match json_parse content with
  | None => None
  | Some parsed =>
      if nullish parsed then None
      else Some {| bc_client_id := prop "client_id" parsed; bc_client_secret := prop "client_secret" parsed;
                   bc_redirect_uri := prop "redirect_uri" parsed;
                   bc_authorization_code := js_coalesce (prop "authorization_code" parsed) (prop "code" parsed);
                   bc_access_token := prop "access_token" parsed; bc_refresh_token := prop "refresh_token" parsed |}
  end.

Definition hasConfigured (content : string) : bool :=
  match parseBoxCredentials content with
  | Some p => truthy (bc_client_id p) && truthy (bc_client_secret p) && truthy (bc_redirect_uri p)
  | None => false
  end.

Definition hasAuthorized (content : string) : bool :=
  match parseBoxCredentials content with
  | Some p => truthy (bc_access_token p) || truthy (bc_refresh_token p) || truthy (bc_authorization_code p)
  | None => false
  end.

(** The texts of the form and what its closures hold of the stored value. *)
Record box_form := { bf_clientId : string; bf_clientSecret : string; bf_redirectUri : string; bf_parsedRedirectUri : val }.

(** What is stored when the flow starts. *)
Definition payloadForStorage (b : box_form) : obj :=
  [("client_id", VStr (str_trim (bf_clientId b))); ("client_secret", VStr (str_trim (bf_clientSecret b)));
   ("redirect_uri", VStr (str_trim (bf_redirectUri b)))].

(** What is stored when it ends; [credentials] is an object. *)
Definition finalValue (b : box_form) (credentials : obj) : obj :=
  let rest := obj_del "code" (obj_del "user_id" (spread (VObj credentials))) in
  let v := obj_set "client_secret" (js_coalesce (obj_get "client_secret" rest) (VStr (str_trim (bf_clientSecret b))))
             (obj_set "client_id" (js_coalesce (obj_get "client_id" rest) (VStr (str_trim (bf_clientId b)))) rest) in
  let redirect := js_or (js_or (VStr (str_trim (bf_redirectUri b))) (bf_parsedRedirectUri b)) (obj_get "redirect_uri" rest) in
  let v := if truthy redirect then obj_set "redirect_uri" redirect v else v in
  if truthy (obj_get "code" credentials) then obj_set "authorization_code" (obj_get "code" credentials) v else v.

Inductive box_status := BoxIdle | BoxWaiting (message : string) | BoxError (message : string).

(** A poll with the form its closure holds. *)
Record box_poll := { bp_flow : string; bp_form : box_form }.

Record box_field := {
  bx_value : string;
  bx_form : box_form;
  bx_open : bool;
  bx_submitLoading : bool;
  bx_flow : option string;
  bx_status : box_status;
  bx_timer : option box_poll;
  bx_polls : list box_poll;
  bx_starts : list obj
}.

Definition set_box_web flow status timer x := {| bx_value := bx_value x; bx_form := bx_form x; bx_open := bx_open x;
  bx_submitLoading := bx_submitLoading x; bx_flow := flow; bx_status := status; bx_timer := timer; bx_polls := bx_polls x;
  bx_starts := bx_starts x |}.
Definition set_box_value v x := {| bx_value := v; bx_form := bx_form x; bx_open := bx_open x;
  bx_submitLoading := bx_submitLoading x; bx_flow := bx_flow x; bx_status := bx_status x; bx_timer := bx_timer x;
  bx_polls := bx_polls x; bx_starts := bx_starts x |}.
Definition set_box_open o x := {| bx_value := bx_value x; bx_form := bx_form x; bx_open := o;
  bx_submitLoading := bx_submitLoading x; bx_flow := bx_flow x; bx_status := bx_status x; bx_timer := bx_timer x;
  bx_polls := bx_polls x; bx_starts := bx_starts x |}.
Definition set_box_form b x := {| bx_value := bx_value x; bx_form := b; bx_open := bx_open x;
  bx_submitLoading := bx_submitLoading x; bx_flow := bx_flow x; bx_status := bx_status x; bx_timer := bx_timer x;
  bx_polls := bx_polls x; bx_starts := bx_starts x |}.
Definition set_box_requests loading polls starts x := {| bx_value := bx_value x; bx_form := bx_form x; bx_open := bx_open x;
  bx_submitLoading := loading; bx_flow := bx_flow x; bx_status := bx_status x; bx_timer := bx_timer x;
  bx_polls := polls; bx_starts := starts |}.

(** [clearWebState] and [resetWebStatus] *)
Definition clear_flow (x : box_field) : box_field := set_box_web None (bx_status x) None x.
Definition resetWebStatus (x : box_field) : box_field := set_box_web (bx_flow x) BoxIdle (bx_timer x) x.
Definition failed (message : string) (x : box_field) : box_field := set_box_web None (BoxError message) None x.

Definition text_of (v : val) : string := match v with VStr s => s | _ => "" end.

(** The effect on the stored value and the dialog, and the stored redirect URI
    the next closures hold. *)
Definition settle_box (before x : box_field) : box_field :=
  let parsed := parseBoxCredentials (bx_value x) in
  let part f := match parsed with Some p => text_of (f p) | None => "" end in
  let parsedRedirectUri := match parsed with Some p => js_coalesce (bc_redirect_uri p) (VStr "") | None => VStr "" end in
  let b := bx_form x in
  if negb (bx_open x) && negb ((bx_open before === bx_open x) && (bx_value before === bx_value x)) then
    set_box_form {| bf_clientId := part bc_client_id; bf_clientSecret := part bc_client_secret;
                    bf_redirectUri := part bc_redirect_uri; bf_parsedRedirectUri := parsedRedirectUri |} x
  else set_box_form {| bf_clientId := bf_clientId b; bf_clientSecret := bf_clientSecret b;
                       bf_redirectUri := bf_redirectUri b; bf_parsedRedirectUri := parsedRedirectUri |} x.

Inductive box_answer := BoxRejected | BoxAnswer (code : Z) (credentials : val) (message : string).

Definition box_poll_answered (p : box_poll) (a : box_answer) (x : box_field) : box_field :=
  match a with
  | BoxRejected => failed "Unable to retrieve authorization result." x
  | BoxAnswer code credentials message =>
      if (code === 0%Z) && truthy credentials then
        set_box_open false (resetWebStatus (clear_flow
          (set_box_value (json_stringify (VObj (finalValue (bp_form p) (obj_of_val credentials)))) x)))
      else if code === 106%Z then
        set_box_web (bx_flow x) (BoxWaiting "Authorization confirmed. Finalizing credentials...") (Some p) x
      else failed (if message === "" then "Authorization failed." else message) x
  end.

Definition fetch_box_result (p : box_poll) (x : box_field) : box_field :=
  set_box_requests (bx_submitLoading x) (bx_polls x ++ [p]) (bx_starts x) x.

(** A message of the popup; without a flow it is about the one that runs. *)
Definition box_message (flowId : string) (success : bool) (message : string) (x : box_field) : box_field :=
  let targetFlowId := if flowId === "" then default "" (bx_flow x) else flowId in
  if targetFlowId === "" then x
  else if match bx_flow x with Some flow => (flow !== "") && (flow !== targetFlowId) | None => false end then x
  else if success then
    fetch_box_result {| bp_flow := targetFlowId; bp_form := bx_form x |}
      (set_box_web (bx_flow x) (BoxWaiting "Authorization confirmed. Finalizing credentials...") (bx_timer x) x)
  else failed (if message === "" then "Authorization failed." else message) x.

Definition handleOpenDialog (x : box_field) : box_field := set_box_open true (clear_flow (resetWebStatus x)).

Definition handleCloseDialog (x : box_field) : box_field := resetWebStatus (clear_flow (set_box_open false x)).

Definition handleSubmit (x : box_field) : box_field :=
  let b := bx_form x in
  if (str_trim (bf_clientId b) === "") || (str_trim (bf_clientSecret b) === "") || (str_trim (bf_redirectUri b) === "") then x
  else
    let x := clear_flow (resetWebStatus x) in
    set_box_requests true (bx_polls x) (bx_starts x ++ [payloadForStorage b]) x.

(** Its answer: the form is stored before the popup is opened. *)
Definition submit_answered (payload : obj) (popup : bool) (a : start_answer) (x : box_field) : box_field :=
  let x :=
    match a with
    | StartRejected => x
    | StartAnswer code authorization_url flow_id _ =>
        if (code === 0%Z) && (authorization_url !== "") then
          let x := set_box_value (json_stringify (VObj payload)) x in
          if popup then
            set_box_web (Some flow_id) (BoxWaiting "Complete the Box consent in the opened window and return here.") (bx_timer x) x
          else clear_flow x
        else x
    end in
  set_box_requests false (bx_polls x) (bx_starts x) x.

Definition box_check (x : box_field) : box_field :=
  match bx_flow x with
  | Some flow =>
      if flow === "" then x
      else fetch_box_result {| bp_flow := flow; bp_form := bx_form x |}
             (set_box_web (bx_flow x) (BoxWaiting "Checking authorization status...") (bx_timer x) x)
  | None => x
  end.

Inductive box_event :=
  | BoxTyped (clientId clientSecret redirectUri : string)
  | BoxOpened
  | BoxClosed
  | BoxSubmitted
  | BoxStarted (i : nat) (popup : bool) (a : start_answer)
  | BoxMessage (flowId : string) (success : bool) (message : string)
  | BoxPolled (i : nat) (a : box_answer)
  | BoxTimerFired
  | BoxChecked.

Definition box_act (x : box_field) (e : box_event) : box_field :=
  match e with
  | BoxTyped c s r =>
      if bx_open x then
        set_box_form {| bf_clientId := c; bf_clientSecret := s; bf_redirectUri := r;
                        bf_parsedRedirectUri := bf_parsedRedirectUri (bx_form x) |} x
      else x
  | BoxOpened => handleOpenDialog x
  | BoxClosed => if bx_open x then handleCloseDialog x else x
  | BoxSubmitted => if bx_open x && negb (bx_submitLoading x) then handleSubmit x else x
  | BoxStarted i popup a =>
      match bx_starts x !! i with
      | Some payload => submit_answered payload popup a (set_box_requests (bx_submitLoading x) (bx_polls x) (cut i (bx_starts x)) x)
      | None => x
      end
  | BoxMessage flowId success message => box_message flowId success message x
  | BoxPolled i a =>
      match bx_polls x !! i with
      | Some p => box_poll_answered p a (set_box_requests (bx_submitLoading x) (cut i (bx_polls x)) (bx_starts x) x)
      | None => x
      end
  | BoxTimerFired =>
      match bx_timer x with
      | Some p => fetch_box_result p (set_box_web (bx_flow x) (bx_status x) None x)
      | None => x
      end
  | BoxChecked => if bx_open x then box_check x else x
  end.

Definition box_step (x : box_field) (e : box_event) : box_field := settle_box x (box_act x e).

Lemma settle_box_value before x : bx_value (settle_box before x) = bx_value x ∧ bx_open (settle_box before x) = bx_open x.
Proof. unfold settle_box. by case_match. Qed.

(** A step leaves the stored text, or stores the form when its flow starts,
    or the end of a flow, with which the dialog closes. *)
Theorem box_value_sources x e : bx_value (box_step x e) = bx_value x ∨
  (∃ i payload popup url flow m, e = BoxStarted i popup (StartAnswer 0 url flow m) ∧ bx_starts x !! i = Some payload ∧
     bx_value (box_step x e) = json_stringify (VObj payload)) ∨
  (∃ i p credentials m, e = BoxPolled i (BoxAnswer 0 credentials m) ∧ bx_polls x !! i = Some p ∧ truthy credentials = true ∧
     bx_value (box_step x e) = json_stringify (VObj (finalValue (bp_form p) (obj_of_val credentials))) ∧
     bx_open (box_step x e) = false).
Proof.
  unfold box_step. destruct (settle_box_value x (box_act x e)) as [-> ->]. destruct e as [c s r| | | |i popup a|flow ok m|i a| |]; cbn [box_act].
  - left. by destruct (bx_open x).
  - by left.
  - left. by destruct (bx_open x).
  - left. destruct (bx_open x && _); [|done]. unfold handleSubmit. by case_match.
  - destruct (bx_starts x !! i) as [payload|] eqn:Hs; [|by left]. unfold submit_answered.
    destruct a as [|code url flow m]; [by left|]. destruct (bool_decide_reflect (code = 0%Z)) as [->|Hc]; cbn [andb]; [|by left].
    destruct (url !== ""); [|by left]. right. left. exists i, payload, popup, url, flow, m. split; [done|]. split; [done|]. by destruct popup.
  - left. unfold box_message. by repeat case_match.
  - destruct (bx_polls x !! i) as [p|] eqn:Hp; [|by left]. destruct a as [|code c m]; [by left|]. cbn [box_poll_answered].
    destruct (bool_decide_reflect (code = 0%Z)) as [->|Hc]; cbn [andb]; [|left; by repeat case_match].
    destruct (truthy c) eqn:Hc; [|by left]. right. right. by exists i, p, c, m.
  - left. by destruct (bx_timer x).
  - left. destruct (bx_open x); [|done]. unfold box_check. by repeat case_match.
Qed.

(** What is stored at the end keeps the identifier, the secret and the
    redirect URI of the form, unless the server sends an identifier or a
    secret of its own. *)
Lemma final_keeps_form b credentials : obj_wf credentials → str_trim (bf_redirectUri b) ≠ "" →
  let v := finalValue b credentials in
  obj_get "redirect_uri" v = VStr (str_trim (bf_redirectUri b)) ∧
  obj_get "client_id" v = js_coalesce (obj_get "client_id" credentials) (VStr (str_trim (bf_clientId b))) ∧
  obj_get "client_secret" v = js_coalesce (obj_get "client_secret" credentials) (VStr (str_trim (bf_clientSecret b))) ∧
  (truthy (obj_get "code" credentials) = true → obj_get "authorization_code" v = obj_get "code" credentials).
Proof.
  intros Hw Hr. unfold finalValue.
  assert (∀ k, k ≠ "code" → k ≠ "user_id" → obj_get k (obj_del "code" (obj_del "user_id" (spread (VObj credentials)))) = obj_get k credentials) as Hrest.
  { intros k H1 H2. rewrite !obj_get_del_ne by done. by apply obj_get_assign_nil. }
  rewrite !Hrest by done.
  assert (truthy (VStr (str_trim (bf_redirectUri b))) = true) as Ht by (cbn [truthy]; by rewrite (bool_decide_false _ Hr)).
  assert (js_or (js_or (VStr (str_trim (bf_redirectUri b))) (bf_parsedRedirectUri b)) (obj_get "redirect_uri" credentials) =
    VStr (str_trim (bf_redirectUri b))) as -> by (unfold js_or; by rewrite !Ht).
  rewrite Ht.
  destruct (truthy (obj_get "code" credentials)) eqn:Hcode; cbv zeta iota;
    repeat split; repeat first [rewrite obj_get_set_eq | rewrite obj_get_set_ne by done]; done.
Qed.
End credentials.

(** ** A field *)
#[local] Instance sample_json : JSON :=
  {| json_parse := λ s, if s === "tokens" then Some (VObj [("refresh_token", VStr "r")])
                        else if s === "client" then Some (VObj [("web", VObj [("redirect_uris", VArr [VStr " https://a/cb "])])])
                        else None;
     json_stringify := λ _, "stored" |}.

Example upload_client : let f := field_run (field_init "") [FilesChosen ["c.json"]; FileRead 0 (Some "client")] in
  tf_open f = true ∧ tf_pending f = "client" ∧ tf_redirect f = "https://a/cb" ∧ tf_value f = "".
Proof. by vm_compute. Qed.

Lemma authorization_turn_witness :
  let f := field_run (field_init "") [FilesChosen ["c.json"]; FileRead 0 (Some "client")] in
  tf_value (field_run f
    ([StartClicked; StartAnswered 0 true (StartAnswer 0 "https://google/auth" "f1" ""); WindowMessage "f1" true ""]
     ++ concat (replicate 2 [PollAnswered 0 (PollAnswer 106 VUndef ""); TimerFired])
     ++ [PollAnswered 0 (PollAnswer 0 (VStr "tokens") "")])) = "stored".
Proof.
  intros f. etransitivity; [refine (proj1 (authorization_turn f "f1" "https://google/auth" 2 (VStr "tokens") _ _ _ _))|];
    [split; by vm_compute|done..|by vm_compute].
Defined.
