(* ===== verification/AgentPage.v ===== *)
(** * The page of an agent

    pages/agent/index.tsx with the drawers of the canvas
    (hooks/use-show-drawer.tsx, canvas/index.tsx, run-sheet/index.tsx), saving
    by hand, before a run and by itself (hooks/use-save-graph.ts), and the run
    of a pipeline with its trace (hooks/use-run-dataflow.ts,
    hooks/use-fetch-pipeline-log.ts, hooks/use-cancel-dataflow.ts,
    hooks/use-download-output.ts).

    The page is what decides which drawers are open and what is asked of the
    server; the graph is here its nodes with their operators and the number of
    inputs the Begin operator asks for.  A request is kept with what its reply
    leads to; replies come in any order. *)
From S2P Require Import Prelude JsValue Graph.
Open Scope list_scope.
Open Scope nat_scope.
Open Scope js_scope.

(** ** The trace of a pipeline *)
Record trace_item := { tr_component_id : string; tr_message : string }.

(** The latest item is the end and has a message. *)
Definition completed (data : option (list trace_item)) : bool :=
  match data with
  | Some l => match last l with Some latest => (tr_component_id latest === "END") && (tr_message latest !== "") | None => false end
  | None => false
  end.

Definition isLogEmpty (data : option (list trace_item)) : bool := match data with Some (_ :: _) => false | _ => true end.

(** [findEndOutput], with [JSON.parse]. *)
Definition findEndOutput (json_parse : string → option val) (data : option (list trace_item)) : val :=
  match data with
  | Some l =>
      match js_find (λ x, tr_component_id x === "END") l with
      | Some x => if tr_message x === "" then VUndef else default VUndef (json_parse (tr_message x))
      | None => VUndef
      end
  | None => VUndef
  end.

(** ** The page *)
Inductive agent_kind := WebhookAgent | PipelineAgent | OtherAgent.

(** What opens once the graph is saved and the agent is reset. *)
Inductive to_show := ShowDrawer | ShowChat.

Inductive request :=
  | Save
  | AutoSave
  | SaveThenReset (k : to_show)
  | SaveThenDebug
  | SaveThenRun (file : string)
  | Reset (k : to_show)
  | RunFlow (file : string)
  | CancelFlow (messageId : string).

Inductive warning := TokenizerRequired | RunFailed.

Record agent_page := {
  ap_kind : agent_kind;
  ap_nodes : list (string * string);      (* identifier and operator *)
  ap_inputs : nat;
  ap_drawer : bool;                       (* [chatDrawerVisible] *)
  ap_chat : bool;
  ap_run : bool;
  ap_debug : bool;
  ap_form : bool;
  ap_clicked : string;
  ap_tool : option string;
  ap_webhook : bool;
  ap_runSheet : bool;
  ap_logSheet : bool;
  ap_timer : bool;                        (* the debounced save *)
  ap_messageId : string;
  ap_data : option (list trace_item);
  ap_stopped : bool;                      (* [isStopFetchTrace] *)
  ap_file : option string;                (* [uploadedFileData] *)
  ap_requests : list request;
  ap_warnings : list warning
}.

Definition upd_graph ns i p := {| ap_kind := ap_kind p; ap_nodes := ns; ap_inputs := i; ap_drawer := ap_drawer p; ap_chat := ap_chat p;
  ap_run := ap_run p; ap_debug := ap_debug p; ap_form := ap_form p; ap_clicked := ap_clicked p; ap_tool := ap_tool p;
  ap_webhook := ap_webhook p; ap_runSheet := ap_runSheet p; ap_logSheet := ap_logSheet p; ap_timer := ap_timer p;
  ap_messageId := ap_messageId p; ap_data := ap_data p; ap_stopped := ap_stopped p; ap_file := ap_file p;
  ap_requests := ap_requests p; ap_warnings := ap_warnings p |}.
Definition upd_drawers d c r p := {| ap_kind := ap_kind p; ap_nodes := ap_nodes p; ap_inputs := ap_inputs p; ap_drawer := d; ap_chat := c;
  ap_run := r; ap_debug := ap_debug p; ap_form := ap_form p; ap_clicked := ap_clicked p; ap_tool := ap_tool p;
  ap_webhook := ap_webhook p; ap_runSheet := ap_runSheet p; ap_logSheet := ap_logSheet p; ap_timer := ap_timer p;
  ap_messageId := ap_messageId p; ap_data := ap_data p; ap_stopped := ap_stopped p; ap_file := ap_file p;
  ap_requests := ap_requests p; ap_warnings := ap_warnings p |}.
Definition upd_form d f cl t p := {| ap_kind := ap_kind p; ap_nodes := ap_nodes p; ap_inputs := ap_inputs p; ap_drawer := ap_drawer p;
  ap_chat := ap_chat p; ap_run := ap_run p; ap_debug := d; ap_form := f; ap_clicked := cl; ap_tool := t;
  ap_webhook := ap_webhook p; ap_runSheet := ap_runSheet p; ap_logSheet := ap_logSheet p; ap_timer := ap_timer p;
  ap_messageId := ap_messageId p; ap_data := ap_data p; ap_stopped := ap_stopped p; ap_file := ap_file p;
  ap_requests := ap_requests p; ap_warnings := ap_warnings p |}.
Definition upd_sheets w r l p := {| ap_kind := ap_kind p; ap_nodes := ap_nodes p; ap_inputs := ap_inputs p; ap_drawer := ap_drawer p;
  ap_chat := ap_chat p; ap_run := ap_run p; ap_debug := ap_debug p; ap_form := ap_form p; ap_clicked := ap_clicked p; ap_tool := ap_tool p;
  ap_webhook := w; ap_runSheet := r; ap_logSheet := l; ap_timer := ap_timer p;
  ap_messageId := ap_messageId p; ap_data := ap_data p; ap_stopped := ap_stopped p; ap_file := ap_file p;
  ap_requests := ap_requests p; ap_warnings := ap_warnings p |}.
Definition upd_timer t p := {| ap_kind := ap_kind p; ap_nodes := ap_nodes p; ap_inputs := ap_inputs p; ap_drawer := ap_drawer p;
  ap_chat := ap_chat p; ap_run := ap_run p; ap_debug := ap_debug p; ap_form := ap_form p; ap_clicked := ap_clicked p; ap_tool := ap_tool p;
  ap_webhook := ap_webhook p; ap_runSheet := ap_runSheet p; ap_logSheet := ap_logSheet p; ap_timer := t;
  ap_messageId := ap_messageId p; ap_data := ap_data p; ap_stopped := ap_stopped p; ap_file := ap_file p;
  ap_requests := ap_requests p; ap_warnings := ap_warnings p |}.
Definition upd_trace m d s f p := {| ap_kind := ap_kind p; ap_nodes := ap_nodes p; ap_inputs := ap_inputs p; ap_drawer := ap_drawer p;
  ap_chat := ap_chat p; ap_run := ap_run p; ap_debug := ap_debug p; ap_form := ap_form p; ap_clicked := ap_clicked p; ap_tool := ap_tool p;
  ap_webhook := ap_webhook p; ap_runSheet := ap_runSheet p; ap_logSheet := ap_logSheet p; ap_timer := ap_timer p;
  ap_messageId := m; ap_data := d; ap_stopped := s; ap_file := f;
  ap_requests := ap_requests p; ap_warnings := ap_warnings p |}.
Definition upd_requests rs ws p := {| ap_kind := ap_kind p; ap_nodes := ap_nodes p; ap_inputs := ap_inputs p; ap_drawer := ap_drawer p;
  ap_chat := ap_chat p; ap_run := ap_run p; ap_debug := ap_debug p; ap_form := ap_form p; ap_clicked := ap_clicked p; ap_tool := ap_tool p;
  ap_webhook := ap_webhook p; ap_runSheet := ap_runSheet p; ap_logSheet := ap_logSheet p; ap_timer := ap_timer p;
  ap_messageId := ap_messageId p; ap_data := ap_data p; ap_stopped := ap_stopped p; ap_file := ap_file p;
  ap_requests := rs; ap_warnings := ws |}.

Definition ask (r : request) (p : agent_page) : agent_page := upd_requests (ap_requests p ++ [r]) (ap_warnings p) p.
Definition warn (w : warning) (p : agent_page) : agent_page := upd_requests (ap_requests p) (ap_warnings p ++ [w]) p.

Definition operator_of (id : string) (p : agent_page) : option string := snd <$> js_find (λ n, n.1 === id) (ap_nodes p).

Definition isParsing (p : agent_page) : bool := negb (isLogEmpty (ap_data p)) && negb (completed (ap_data p)) && negb (ap_stopped p).

(** The trace is fetched again every three seconds. *)
Definition polling (p : agent_page) : bool := (ap_messageId p !== "") && negb (ap_stopped p).

(** *** Drawers *)
Definition hideRunOrChatDrawer : agent_page → agent_page := upd_drawers false false false.

Definition showChatModal (p : agent_page) : agent_page := upd_drawers (ap_drawer p) true (ap_run p) p.

Definition showChatDrawer (p : agent_page) : agent_page := upd_drawers true (ap_chat p) (ap_run p) p.

Definition hideFormDrawer (p : agent_page) : agent_page := upd_form (ap_debug p) false (ap_clicked p) (ap_tool p) p.

Definition hideSingleDebugDrawer (p : agent_page) : agent_page := upd_form false (ap_form p) (ap_clicked p) (ap_tool p) p.

Definition ExcludedNodes : list string := [Operator.Note; Operator.Placeholder; Operator.File].

Definition showFormDrawer (nodeId : string) (toolId tool : option string) (p : agent_page) : agent_page :=
  let given x := match x with Some s => s !== "" | None => false end in
  let operatorType := operator_of nodeId p in
  if ((operatorType === Some Operator.Tool) && negb (given tool))
     || js_includes [Some Operator.LoopStart; Some Operator.ExitLoop] operatorType then p
  else upd_form (ap_debug p) true nodeId (if given toolId then toolId else tool) p.

(** A click on a node: its form, and the debug drawer if the play icon was
    hit, once the graph is saved. *)
Definition onNodeClick (nodeId label : string) (toolId tool : option string) (play : bool) (p : agent_page) : agent_page :=
  let p := if js_some (λ x, x === label) ExcludedNodes then p else showFormDrawer nodeId toolId tool (hideSingleDebugDrawer p) in
  if play then ask SaveThenDebug p else p.

(** *** Running *)
Definition handleRun (k : to_show) : agent_page → agent_page := ask (SaveThenReset k).

Definition handleRunAgent (p : agent_page) : agent_page :=
  if bool_decide (0 < ap_inputs p) then showChatDrawer p else handleRun ShowDrawer p.

Definition handleRunPipeline (p : agent_page) : agent_page :=
  if negb (js_some (λ n, n.2 === Operator.Tokenizer) (ap_nodes p)) then warn TokenizerRequired p
  else if isParsing p then upd_sheets (ap_webhook p) (ap_runSheet p) true p
  else upd_sheets (ap_webhook p) true false p.

Definition handleButtonRunClick (p : agent_page) : agent_page :=
  match ap_kind p with
  | WebhookAgent => upd_sheets true (ap_runSheet p) (ap_logSheet p) (ask Save p)
  | PipelineAgent => handleRunPipeline p
  | OtherAgent => handleRunAgent p
  end.

(** The run sheet: the inputs go into the Begin operator, which the save
    takes along, and the sheet closes. *)
Definition handleRunAgentInputs (p : agent_page) : agent_page := hideRunOrChatDrawer (handleRun ShowChat p).

(** *** Replies

    [code] is that of the body; the reply to a run has its status and the
    message it is about. *)
Record reply := { rp_code : Z; rp_status : Z; rp_message_id : string }.

Definition ok (a : reply) : bool := rp_code a === 0%Z.

Definition run_saved (file : string) (a : reply) (p : agent_page) : agent_page :=
  if ok a then ask (RunFlow file) (upd_sheets (ap_webhook p) (ap_runSheet p) true p) else p.

Definition run_answered (file : string) (a : reply) (p : agent_page) : agent_page :=
  if (rp_status a === 200%Z) && ok a then
    let msgId := rp_message_id a in
    if msgId === "" then upd_trace (ap_messageId p) (ap_data p) (ap_stopped p) (Some file) p
    else upd_trace msgId (if msgId === ap_messageId p then ap_data p else None) (ap_stopped p) (Some file) p
  else warn RunFailed p.

Definition cancel_answered (a : reply) (p : agent_page) : agent_page :=
  if ok a then upd_trace (ap_messageId p) (ap_data p) true (ap_file p) p else p.

Definition debug_saved (a : reply) (p : agent_page) : agent_page :=
  if ok a then upd_form true (ap_form p) (ap_clicked p) (ap_tool p) p else p.

Definition agent_reset (k : to_show) (a : reply) (p : agent_page) : agent_page :=
  if ok a then match k with ShowDrawer => showChatDrawer p | ShowChat => showChatModal p end else p.

Definition replied (r : request) (a : reply) (p : agent_page) : agent_page :=
  match r with
  | Save | AutoSave => p
  | SaveThenReset k => if ok a then ask (Reset k) p else p
  | Reset k => agent_reset k a p
  | SaveThenDebug => debug_saved a p
  | SaveThenRun file => run_saved file a p
  | RunFlow file => run_answered file a p
  | CancelFlow _ => cancel_answered a p
  end.

(** The save by itself, when its timer fires. *)
Definition saveAgent (p : agent_page) : agent_page :=
  if ap_timer p then
    let p := upd_timer false p in if ap_drawer p then p else ask AutoSave p
  else p.

(** *** Effects *)

(** The inputs of a Begin operator without any are a new object at every
    render. *)
Definition drawer_effect (before p : agent_page) : agent_page :=
  if ap_drawer p && negb ((ap_drawer before === ap_drawer p) && (ap_inputs before === ap_inputs p) && (ap_inputs p !== 0)) then
    if bool_decide (0 < ap_inputs p) then upd_drawers (ap_drawer p) false true p else upd_drawers (ap_drawer p) true false p
  else p.

Definition deletion_effect (before p : agent_page) : agent_page :=
  if (ap_nodes before === ap_nodes p) && (ap_clicked before === ap_clicked p) then p
  else if js_some (λ n, n.1 === ap_clicked p) (ap_nodes p) then p else hideFormDrawer p.

Definition trace_effects (before p : agent_page) : agent_page :=
  let p :=
    if completed (ap_data p) && negb (completed (ap_data before))
    then upd_trace (ap_messageId p) (ap_data p) true (ap_file p) p else p in
  if ap_logSheet p && negb (ap_logSheet before) then upd_trace (ap_messageId p) (ap_data p) false (ap_file p) p else p.

Definition effects (before p : agent_page) : agent_page :=
  trace_effects before (deletion_effect before (drawer_effect before p)).

(** *** Steps *)
Inductive page_event :=
  | RunClicked
  | InputsSubmitted
  | SaveClicked
  | NodeClicked (nodeId : string) (toolId tool : option string) (play : bool)
  | PaneClicked
  | FormClosed
  | DebugClosed
  | DrawerClosed
  | WebhookClosed
  | RunSheetClosed
  | LogSheetClosed
  | FileSubmitted (file : string)
  | CancelClicked
  | GraphChanged (nodes : list (string * string)) (inputs : nat)
  | TimerFired
  | Replied (i : nat) (a : reply)
  | TraceFetched (messageId : string) (data : list trace_item).

Definition page_act (p : agent_page) (e : page_event) : agent_page :=
  match e with
  | RunClicked => handleButtonRunClick p
  | InputsSubmitted => if ap_run p then handleRunAgentInputs p else p
  | SaveClicked => ask Save p
  | NodeClicked nodeId toolId tool play =>
      match operator_of nodeId p with Some label => onNodeClick nodeId label toolId tool play p | None => p end
  | PaneClicked | FormClosed => hideFormDrawer p
  | DebugClosed => hideSingleDebugDrawer p
  | DrawerClosed => hideRunOrChatDrawer p
  | WebhookClosed => upd_sheets false (ap_runSheet p) (ap_logSheet p) p
  | RunSheetClosed => upd_sheets (ap_webhook p) false (ap_logSheet p) p
  | LogSheetClosed => upd_sheets (ap_webhook p) (ap_runSheet p) false p
  | FileSubmitted file => if ap_runSheet p then ask (SaveThenRun file) p else p
  | CancelClicked => if ap_logSheet p && isParsing p then ask (CancelFlow (ap_messageId p)) p else p
  | GraphChanged nodes inputs => upd_timer true (upd_graph nodes inputs p)
  | TimerFired => saveAgent p
  | Replied i a =>
      match ap_requests p !! i with
      | Some r => replied r a (upd_requests (take i (ap_requests p) ++ drop (S i) (ap_requests p)) (ap_warnings p) p)
      | None => p
      end
  | TraceFetched messageId data =>
      if messageId === ap_messageId p then upd_trace (ap_messageId p) (Some data) (ap_stopped p) (ap_file p) p else p
  end.

Definition page_step (p : agent_page) (e : page_event) : agent_page := effects p (page_act p e).

(** The page when it is opened; the save is due though nothing changed. *)
Definition page_init (kind : agent_kind) (nodes : list (string * string)) (inputs : nat) : agent_page :=
  {| ap_kind := kind; ap_nodes := nodes; ap_inputs := inputs; ap_drawer := false; ap_chat := false; ap_run := false;
     ap_debug := false; ap_form := false; ap_clicked := ""; ap_tool := None; ap_webhook := false; ap_runSheet := false;
     ap_logSheet := false; ap_timer := true; ap_messageId := ""; ap_data := None; ap_stopped := false; ap_file := None;
     ap_requests := []; ap_warnings := [] |}.

Definition page_run (p : agent_page) (es : list page_event) : agent_page := foldl page_step p es.

(** ** What the effects change *)
Lemma effects_keep before p : ap_requests (effects before p) = ap_requests p ∧ ap_timer (effects before p) = ap_timer p ∧
  ap_drawer (effects before p) = ap_drawer p ∧ ap_nodes (effects before p) = ap_nodes p ∧ ap_inputs (effects before p) = ap_inputs p ∧
  ap_data (effects before p) = ap_data p ∧ ap_messageId (effects before p) = ap_messageId p ∧ ap_logSheet (effects before p) = ap_logSheet p ∧
  ap_clicked (effects before p) = ap_clicked p.
Proof. unfold effects, trace_effects, deletion_effect, drawer_effect. by repeat case_match. Qed.

(** ** The form belongs to a node *)
Definition node_there (p : agent_page) : bool := js_some (λ n, n.1 === ap_clicked p) (ap_nodes p).

Definition form_ok (p : agent_page) : Prop := ap_form p = true → node_there p = true.

Lemma operator_there id label p : operator_of id p = Some label → js_some (λ n, n.1 === id) (ap_nodes p) = true.
Proof.
  unfold operator_of. destruct (js_find _ _) as [n|] eqn:Hn; [|done]. intros _. apply js_find_Some in Hn as [Hin Hp].
  apply js_some_true. by exists n.
Qed.

Lemma effects_form before p : (ap_form p = true → ap_nodes before = ap_nodes p → ap_clicked before = ap_clicked p → node_there p = true) →
  form_ok (effects before p).
Proof.
  intros Hp. unfold form_ok, node_there. destruct (effects_keep before p) as (_ & _ & _ & -> & _ & _ & _ & _ & ->).
  fold (node_there p).
  assert (ap_form (effects before p) = ap_form (deletion_effect before (drawer_effect before p))) as ->
    by (unfold effects, trace_effects; by repeat case_match).
  set (p1 := drawer_effect before p).
  assert (ap_form p1 = ap_form p ∧ ap_nodes p1 = ap_nodes p ∧ ap_clicked p1 = ap_clicked p) as (H1 & H2 & H3)
    by (unfold p1, drawer_effect; by repeat case_match).
  unfold deletion_effect. rewrite H2, H3. destruct (_ && _) eqn:He.
  - rewrite H1. intros Hf. apply andb_true_iff in He as [Hn%bool_decide_eq_true Hc%bool_decide_eq_true]. by apply Hp.
  - fold (node_there p). destruct (node_there p); [done|]. by cbn.
Qed.

(** Whatever happens on the page, the form that is open is the form of a node
    of the canvas. *)
Theorem form_has_node kind nodes inputs es : form_ok (page_run (page_init kind nodes inputs) es).
Proof.
  assert (∀ p, form_ok p → form_ok (page_run p es)) as H; [|by apply H].
  unfold page_run. induction es as [|e es IH]; intros p Hp; [done|]. apply IH. apply effects_form.
  assert (∀ q, ap_form q = ap_form p → ap_nodes q = ap_nodes p → ap_clicked q = ap_clicked p → ap_form q = true → node_there q = true) as Hsame.
  { intros q H1 H2 H3 Hf. unfold node_there. rewrite H2, H3. apply Hp. congruence. }
  destruct e as [| | |id ti t play| | | | | | | |file| |ns i| |i a|m d]; unfold page_act, saveAgent; intros Hf Hn Hc; try (by apply Hsame).
  - apply Hsame; unfold handleButtonRunClick, handleRunAgent, handleRunPipeline in *; try done; by repeat case_match.
  - apply Hsame; by repeat case_match.
  - destruct (operator_of id p) as [label|] eqn:Ho; [|by apply Hsame]. unfold onNodeClick in *.
    assert (∀ (b : bool) q, node_there (if b then ask SaveThenDebug q else q) = node_there q) as Hask by (by intros []).
    assert (∀ (b : bool) q, ap_form (if b then ask SaveThenDebug q else q) = ap_form q) as Hask' by (by intros []).
    rewrite Hask. rewrite Hask' in Hf. destruct (js_some _ ExcludedNodes); [by apply Hsame|].
    unfold showFormDrawer in *. destruct (_ || _); [by apply Hsame|]. by apply operator_there in Ho.
  - apply Hsame; by repeat case_match.
  - apply Hsame; by repeat case_match.
  - apply Hsame; by repeat case_match.
  - destruct (ap_requests p !! i) as [r|]; [|by apply Hsame].
    apply Hsame; destruct r as [| |[]| | |[]| |]; unfold replied, agent_reset, run_saved, run_answered, cancel_answered, debug_saved in *; try done; by repeat case_match.
  - apply Hsame; by repeat case_match.
Qed.

(** ** Saving by itself *)

(** However many changes come before the timer, there is one save for all of
    them, and none while the drawer is open: these changes then wait for the
    next one. *)
Theorem autosave g gs p :
  let q := page_run p (map (λ g, GraphChanged g.1 g.2) (g :: gs) ++ [TimerFired]) in
  ap_requests q = ap_requests p ++ (if ap_drawer p then [] else [AutoSave]) ∧ ap_timer q = false ∧
  ap_requests (page_step q TimerFired) = ap_requests q.
Proof.
  unfold page_run. rewrite foldl_app.
  assert (ap_requests (foldl page_step p (map (λ g, GraphChanged g.1 g.2) (g :: gs))) = ap_requests p ∧
    ap_drawer (foldl page_step p (map (λ g, GraphChanged g.1 g.2) (g :: gs))) = ap_drawer p ∧
    ap_timer (foldl page_step p (map (λ g, GraphChanged g.1 g.2) (g :: gs))) = true) as (H1 & H2 & H3).
  { revert g p. induction gs as [|g' gs IH]; intros g p.
    - cbn [map foldl]. unfold page_step. by destruct (effects_keep p (page_act p (GraphChanged g.1 g.2))) as (-> & -> & -> & _).
    - rewrite map_cons. cbn [foldl]. destruct (IH g' (page_step p (GraphChanged g.1 g.2))) as (-> & -> & ->).
      unfold page_step. by destruct (effects_keep p (page_act p (GraphChanged g.1 g.2))) as (-> & _ & -> & _). }
  set (p1 := foldl _ p _) in *. clearbody p1. cbn [foldl].
  assert (∀ r, ap_timer r = false → ap_requests (page_step r TimerFired) = ap_requests r) as Hidle.
  { intros r Hr. unfold page_step. destruct (effects_keep r (page_act r TimerFired)) as [-> _]. unfold page_act, saveAgent. by rewrite Hr. }
  set (q := page_step p1 TimerFired).
  assert (ap_requests q = ap_requests (page_act p1 TimerFired) ∧ ap_timer q = ap_timer (page_act p1 TimerFired)) as [Hr Ht]
    by (subst q; unfold page_step; by destruct (effects_keep p1 (page_act p1 TimerFired)) as (-> & -> & _)).
  unfold page_act, saveAgent in Hr, Ht. rewrite H3 in Hr, Ht. cbn [ap_drawer upd_timer] in Hr, Ht. rewrite H2 in Hr, Ht.
  assert (ap_timer q = false) as Htf by (rewrite Ht; by destruct (ap_drawer p)).
  split; [|split; [exact Htf|by apply Hidle]].
  rewrite Hr, <- H1. destruct (ap_drawer p); cbn; [by rewrite app_nil_r|done].
Qed.

(** ** Running an agent *)
Definition all_closed (p : agent_page) : Prop :=
  ap_drawer p = false ∧ ap_chat p = false ∧ ap_run p = false ∧ ap_requests p = [].

Definition drawers (p : agent_page) : bool * bool * bool := (ap_drawer p, ap_chat p, ap_run p).

Definition drawn (d0 : bool) (i0 i : nat) (s : bool * bool * bool) : bool * bool * bool :=
  let '(d, c, r) := s in
  if d && negb ((d0 === d) && (i0 === i) && (i !== 0)) then (if bool_decide (0 < i) then (d, false, true) else (d, true, false)) else s.

Lemma step_drawers p e : drawers (page_step p e) = drawn (ap_drawer p) (ap_inputs p) (ap_inputs (page_act p e)) (drawers (page_act p e)) ∧
  ap_inputs (page_step p e) = ap_inputs (page_act p e) ∧ ap_requests (page_step p e) = ap_requests (page_act p e).
Proof.
  unfold page_step. destruct (effects_keep p (page_act p e)) as (-> & _ & _ & _ & -> & _). split; [|done].
  assert (drawers (effects p (page_act p e)) = drawers (drawer_effect p (page_act p e))) as ->
    by (unfold effects, trace_effects, deletion_effect, drawers; by repeat case_match).
  unfold drawer_effect, drawn, drawers. by repeat case_match.
Qed.

(** A request that is answered first, with nothing else asked. *)
Lemma reply_drawers p r k a : ap_requests p = [SaveThenReset k] → drawers p = (false, false, false) →
  let q := page_step p (Replied 0 r) in let q' := page_step q (Replied 0 a) in
  drawers q' = (if ok r && ok a then drawn false (ap_inputs p) (ap_inputs p)
                  match k with ShowDrawer => (true, false, false) | ShowChat => (false, true, false) end
                else (false, false, false)) ∧ ap_requests q' = [].
Proof.
  intros Hp Hd q q'. destruct (step_drawers p (Replied 0 r)) as (H1 & H2 & H3). fold q in H1, H2, H3.
  destruct (step_drawers q (Replied 0 a)) as (H4 & H5 & H6). fold q' in H4, H5, H6.
  cbn [page_act] in H1, H2, H3, H4, H5, H6. rewrite Hp in H1, H2, H3. cbn [lookup list_lookup] in H1, H2, H3; unfold replied, run_saved, run_answered, agent_reset in H1, H2, H3.
  assert (ap_drawer p = false) as Hpd by (by injection Hd).
  destruct (ok r).
  - assert (ap_requests q = [Reset k]) as Hq by (rewrite H3; done). rewrite Hq in H4, H5, H6.
    assert (drawers q = (false, false, false)) as Hqd.
    { rewrite H1. change (drawers (ask _ _)) with (drawers p). by rewrite Hd. }
    assert (ap_drawer q = false) as Hqd' by (by injection Hqd).
    assert (ap_inputs q = ap_inputs p) as Hqi by (rewrite H2; done).
    rewrite H4, H6, Hqd', Hqi. cbn [lookup list_lookup andb]. unfold replied, agent_reset.
    unfold drawers in Hqd. injection Hqd as Hq1 Hq2 Hq3.
    destruct k, (ok a); unfold drawers; cbn; rewrite ?Hq1, ?Hq2, ?Hq3, ?Hqi; done.
  - assert (ap_requests q = []) as Hq by (rewrite H3; done). rewrite Hq in H4, H6. cbn [lookup list_lookup] in H4, H6.
    assert (drawers q = (false, false, false)) as Hqd.
    { rewrite H1. change (drawers (upd_requests _ _ p)) with (drawers p). by rewrite Hd. }
    rewrite H4, H6, Hqd, Hq. by cbn.
Qed.

(** A run saves, then resets, then opens the chat, and a reply that is not a
    success ends it; when the agent asks for inputs a sheet asks for them
    first, and the chat opens without the drawer of the page. *)
Theorem agent_run p a b : ap_kind p = OtherAgent → all_closed p →
  let es := if bool_decide (0 < ap_inputs p) then [RunClicked; InputsSubmitted] else [RunClicked] in
  let q := page_run p (es ++ [Replied 0 a; Replied 0 b]) in
  drawers q = (if ok a && ok b then (negb (bool_decide (0 < ap_inputs p)), true, false) else (false, false, false)) ∧
  ap_requests q = [].
Proof.
  intros Hk (Hd & Hc & Hr & Hq). destruct (step_drawers p RunClicked) as (H1 & H2 & H3).
  cbn [page_act] in H1, H2, H3. unfold handleButtonRunClick, handleRunAgent in H1, H2, H3. rewrite Hk in H1, H2, H3.
  destruct (bool_decide_reflect (0 < ap_inputs p)) as [Hi|Hi]; cbn [page_run foldl app].
  - set (p1 := page_step p RunClicked) in *.
    assert (drawers p1 = (true, false, true)) as Hp1.
    { rewrite H1. unfold drawers, drawn. change (ap_inputs (showChatDrawer p)) with (ap_inputs p). by rewrite (bool_decide_true _ Hi), Hd. }
    unfold drawers in Hp1. injection Hp1 as Hp1 Hp2 Hp3.
    destruct (step_drawers p1 InputsSubmitted) as (H4 & H5 & H6). cbn [page_act] in H4, H5, H6. rewrite Hp3 in H4, H5, H6.
    set (p2 := page_step p1 InputsSubmitted) in *.
    destruct (reply_drawers p2 a ShowChat b) as [-> ->]; [by rewrite H6; cbn; rewrite H3; cbn; rewrite Hq|by rewrite H4|].
    by destruct (ok a && ok b).
  - set (p1 := page_step p RunClicked) in *.
    destruct (reply_drawers p1 a ShowDrawer b) as [-> ->].
    + rewrite H3. cbn. by rewrite Hq.
    + rewrite H1. unfold drawers, drawn. cbn. by rewrite Hd, Hc, Hr.
    + assert (ap_inputs p1 = 0) as -> by (rewrite H2; cbn; lia). by destruct (ok a && ok b).
Qed.

(** ** The run of a pipeline *)
Definition has_tokenizer (p : agent_page) : bool := js_some (λ n, n.2 === Operator.Tokenizer) (ap_nodes p).

Lemma trace_view before p : let q := effects before p in
  ap_stopped q = (if ap_logSheet p && negb (ap_logSheet before) then false
                  else if completed (ap_data p) && negb (completed (ap_data before)) then true else ap_stopped p) ∧
  ap_runSheet q = ap_runSheet p ∧ ap_kind q = ap_kind p ∧ ap_file q = ap_file p.
Proof.
  intros q. subst q. unfold effects. set (p1 := deletion_effect before (drawer_effect before p)).
  assert (ap_stopped p1 = ap_stopped p ∧ ap_runSheet p1 = ap_runSheet p ∧ ap_kind p1 = ap_kind p ∧ ap_file p1 = ap_file p ∧
    ap_data p1 = ap_data p ∧ ap_logSheet p1 = ap_logSheet p) as (H1 & H2 & H3 & H4 & H5 & H6).
  { unfold p1, deletion_effect, drawer_effect. by repeat case_match. }
  unfold trace_effects. rewrite H5. destruct (completed (ap_data p) && _); cbn [ap_logSheet upd_trace]; rewrite H6;
    destruct (ap_logSheet p && _); cbn; by rewrite ?H1, ?H2, ?H3, ?H4.
Qed.

(** A fetched trace of the running message. *)
Record following (m f : string) (data : option (list trace_item)) (stopped : bool) (p : agent_page) : Prop := {
  fo_message : ap_messageId p = m;
  fo_data : ap_data p = data;
  fo_stopped : ap_stopped p = stopped;
  fo_log : ap_logSheet p = true;
  fo_file : ap_file p = Some f
}.

Lemma fetched m f d0 s p d : following m f d0 s p →
  following m f (Some d) (if completed (Some d) && negb (completed d0) then true else s) (page_step p (TraceFetched m d)).
Proof.
  intros [H1 H2 H3 H4 H5]. unfold page_step. cbn [page_act]. rewrite (bool_decide_true (m = _)) by done.
  set (p' := upd_trace _ _ _ _ _).
  destruct (effects_keep p p') as (_ & _ & _ & _ & _ & Hd & Hm & Hl & _). destruct (trace_view p p') as (Hs & _ & _ & Hf).
  split; [by rewrite Hm|by rewrite Hd| |by rewrite Hl|by rewrite Hf].
  rewrite Hs. subst p'. cbn [ap_logSheet ap_data ap_stopped upd_trace]. by rewrite H4, H2, H3.
Qed.

Lemma fetched_all m f s ds p : (∀ d, d ∈ ds → completed (Some d) = false) →
  following m f None s p → ∃ d0, completed d0 = false ∧ following m f d0 s (page_run p (map (TraceFetched m) ds)).
Proof.
  intros Hds Hp. assert (completed None = false) as Hn by done. revert p Hp Hn. generalize (@None (list trace_item)).
  induction ds as [|d ds IH]; intros d0 p Hp Hd0; [by exists d0|]. cbn [map page_run foldl].
  apply (IH ltac:(set_solver) (Some d)); [|apply Hds; set_solver].
  pose proof (fetched m f d0 s p d Hp) as H. by rewrite (Hds d) in H by set_solver.
Qed.

Lemma page_run_app p es1 es2 : page_run p (es1 ++ es2) = page_run (page_run p es1) es2.
Proof. apply foldl_app. Qed.

Definition pipeline_start (file : string) (r1 : reply) (m : string) : list page_event :=
  [RunClicked; FileSubmitted file; Replied 0 r1; Replied 0 {| rp_code := 0; rp_status := 200; rp_message_id := m |}].

(** Submitting a file opens the log and lets the trace be fetched again. *)
Lemma log_opens p file r1 : ap_kind p = PipelineAgent → has_tokenizer p = true → ap_requests p = [] →
  ap_logSheet p = false → isParsing p = false → ok r1 = true →
  let q := page_run p [RunClicked; FileSubmitted file; Replied 0 r1] in
  ap_requests q = [RunFlow file] ∧ ap_data q = ap_data p ∧ ap_messageId q = ap_messageId p ∧ ap_logSheet q = true ∧ ap_stopped q = false.
Proof.
  intros Hk Ht Hq Hl Hip Hr1. cbn [page_run foldl].
  assert (∀ before x, ap_requests (effects before x) = ap_requests x) as Er by (intros b x; apply (effects_keep b x)).
  assert (∀ before x, ap_logSheet (effects before x) = ap_logSheet x) as El by (intros b x; apply (effects_keep b x)).
  assert (∀ before x, ap_data (effects before x) = ap_data x) as Ed by (intros b x; apply (effects_keep b x)).
  assert (∀ before x, ap_messageId (effects before x) = ap_messageId x) as Em by (intros b x; apply (effects_keep b x)).
  assert (∀ before x, ap_runSheet (effects before x) = ap_runSheet x) as Es by (intros b x; apply (trace_view b x)).
  set (p1 := page_step p RunClicked).
  assert (page_act p RunClicked = upd_sheets (ap_webhook p) true false p) as H1.
  { cbn [page_act]. unfold handleButtonRunClick, handleRunPipeline. rewrite Hk, Hip. unfold has_tokenizer in Ht. by rewrite Ht. }
  set (p2 := page_step p1 (FileSubmitted file)).
  assert (page_act p1 (FileSubmitted file) = ask (SaveThenRun file) p1) as H2.
  { cbn [page_act]. subst p1. unfold page_step. by rewrite Es, H1. }
  set (p3 := page_step p2 (Replied 0 r1)).
  assert (ap_requests p2 = [SaveThenRun file]) as Hq2.
  { subst p2. unfold page_step. rewrite Er, H2. cbn. subst p1. unfold page_step. rewrite Er, H1. cbn. by rewrite Hq. }
  assert (page_act p2 (Replied 0 r1) = ask (RunFlow file) (upd_sheets (ap_webhook p2) (ap_runSheet p2) true (upd_requests [] (ap_warnings p2) p2))) as H3.
  { cbn [page_act]. rewrite Hq2. cbn [lookup list_lookup]; unfold replied, run_saved, run_answered, agent_reset. by rewrite Hr1. }
  assert (ap_data p2 = ap_data p ∧ ap_messageId p2 = ap_messageId p ∧ ap_logSheet p2 = false) as (Hd2 & Hm2 & Hl2).
  { subst p2. unfold page_step. rewrite Ed, Em, El, H2. cbn. subst p1. unfold page_step. by rewrite Ed, Em, El, H1. }
  subst p3. unfold page_step. rewrite Er, Ed, Em, El. destruct (trace_view p2 (page_act p2 (Replied 0 r1))) as (-> & _).
  rewrite H3. cbn. by rewrite Hl2, Hd2, Hm2.
Qed.

(** The message of an accepted run is followed. *)
Lemma run_replied p file m : ap_requests p = [RunFlow file] → ap_logSheet p = true → ap_stopped p = false →
  m ≠ "" → m ≠ ap_messageId p →
  following m file None false (page_step p (Replied 0 {| rp_code := 0; rp_status := 200; rp_message_id := m |})).
Proof.
  intros H1 H4 H5 Hm Hne. set (a := {| rp_code := 0; rp_status := 200; rp_message_id := m |}).
  assert (page_act p (Replied 0 a) = upd_trace m None false (Some file) (upd_requests [] (ap_warnings p) p)) as H6.
  { cbn [page_act]. rewrite H1. cbn [lookup list_lookup]; unfold replied, run_saved, run_answered, agent_reset. subst a. cbn [rp_status rp_message_id]. unfold ok. cbn [rp_code].
    cbn [bool_decide andb]. rewrite (bool_decide_false _ Hm). cbn [ap_messageId upd_requests ap_data ap_stopped].
    rewrite (bool_decide_false (m = _)) by congruence. by rewrite H5. }
  clearbody a. unfold page_step. rewrite H6. set (p' := upd_trace m None false (Some file) _).
  destruct (trace_view p p') as (Hs & _ & _ & Hf). destruct (effects_keep p p') as (_ & _ & _ & _ & _ & Hd & Hi & Hlg & _).
  split; [by rewrite Hi|by rewrite Hd| |by rewrite Hlg|by rewrite Hf].
  rewrite Hs. cbn. by rewrite H4.
Qed.

Lemma pipeline_start_app file r1 m : pipeline_start file r1 m =
  [RunClicked; FileSubmitted file; Replied 0 r1] ++ [Replied 0 {| rp_code := 0; rp_status := 200; rp_message_id := m |}].
Proof. reflexivity. Qed.

(** The pipeline is started from its two sheets. *)
Lemma pipeline_starts p file r1 m : ap_kind p = PipelineAgent → has_tokenizer p = true → ap_requests p = [] →
  ap_logSheet p = false → isParsing p = false → ok r1 = true → m ≠ "" → m ≠ ap_messageId p →
  following m file None false (page_run p (pipeline_start file r1 m)).
Proof.
  intros Hk Ht Hq Hl Hip Hr1 Hm Hne. destruct (log_opens p file r1 Hk Ht Hq Hl Hip Hr1) as (H1 & H2 & H3 & H4 & H5).
  rewrite pipeline_start_app, page_run_app. apply run_replied; [done..|]. by rewrite H3.
Qed.

(** The trace of a run is fetched again as long as it is not complete, and no
    longer. *)
Theorem pipeline_turn p file r1 m ds d : ap_kind p = PipelineAgent → has_tokenizer p = true → ap_requests p = [] →
  ap_logSheet p = false → isParsing p = false → ok r1 = true → m ≠ "" → m ≠ ap_messageId p →
  (∀ x, x ∈ ds → completed (Some x) = false) → completed (Some d) = true →
  let q := page_run p (pipeline_start file r1 m ++ map (TraceFetched m) ds) in
  let q' := page_step q (TraceFetched m d) in
  polling q = true ∧ polling q' = false ∧ isParsing q' = false ∧ ap_data q' = Some d ∧ ap_logSheet q' = true ∧ ap_file q' = Some file.
Proof.
  intros Hk Ht Hq Hl Hip Hr1 Hm Hne Hds Hd q q'.
  pose proof (pipeline_starts p file r1 m Hk Ht Hq Hl Hip Hr1 Hm Hne) as H0.
  destruct (fetched_all m file false ds _ Hds H0) as (d0 & Hd0 & H1). rewrite <- page_run_app in H1. fold q in H1. clearbody q.
  pose proof (fetched m file d0 false q d H1) as H3. rewrite Hd, Hd0 in H3. fold q' in H3. clearbody q'.
  destruct H1 as [Ha _ Hb _ _], H3 as [H4 H5 H6 H7 H8].
  unfold polling, isParsing. rewrite Ha, Hb, H4, H5, H6, (bool_decide_false _ Hm), Hd. split_and!; try done. by rewrite !andb_false_r.
Qed.

(** When a run fails after another was complete, the trace of that other one
    is fetched again and again. *)
Theorem failed_run_polls p file r1 r2 d n : ap_kind p = PipelineAgent → has_tokenizer p = true → ap_requests p = [] →
  ap_logSheet p = false → ap_messageId p ≠ "" → ap_data p = Some d → completed (Some d) = true → ok r1 = true → ok r2 = false →
  let q := page_run p ([RunClicked; FileSubmitted file; Replied 0 r1; Replied 0 r2] ++ replicate n (TraceFetched (ap_messageId p) d)) in
  polling q = true ∧ ap_data q = Some d.
Proof.
  intros Hk Ht Hq Hl Hm Hdata Hd Hr1 Hr2.
  destruct (log_opens p file r1 Hk Ht Hq Hl) as (H1 & H2 & H3 & H4 & H5); [by unfold isParsing; rewrite Hdata, Hd, andb_false_r|done|].
  assert ([RunClicked; FileSubmitted file; Replied 0 r1; Replied 0 r2] = [RunClicked; FileSubmitted file; Replied 0 r1] ++ [Replied 0 r2]) as -> by done.
  rewrite !page_run_app. set (p3 := page_run p [RunClicked; FileSubmitted file; Replied 0 r1]) in *. clearbody p3.
  set (m := ap_messageId p) in *. clearbody m.
  assert (∀ x e, page_act x e = upd_trace m (Some d) false (ap_file x) x ∨ page_act x e = warn RunFailed (upd_requests [] (ap_warnings x) x) →
    ap_messageId x = m ∧ ap_data x = Some d ∧ ap_stopped x = false ∧ ap_logSheet x = true →
    ap_messageId (page_step x e) = m ∧ ap_data (page_step x e) = Some d ∧ ap_stopped (page_step x e) = false ∧ ap_logSheet (page_step x e) = true) as Hstep.
  { intros x e He (Ha & Hb & Hc & Hg). unfold page_step. destruct (trace_view x (page_act x e)) as (-> & _).
    destruct (effects_keep x (page_act x e)) as (_ & _ & _ & _ & _ & -> & -> & -> & _).
    rewrite Hb, Hg, Hd. destruct He as [-> | ->];
      cbn [ap_logSheet ap_data ap_stopped ap_messageId upd_trace warn upd_requests]; rewrite ?Ha, ?Hb, ?Hc, ?Hg, ?Hd; done. }
  assert (∀ x, ap_messageId x = m ∧ ap_data x = Some d ∧ ap_stopped x = false ∧ ap_logSheet x = true →
    let y := page_run x (replicate n (TraceFetched m d)) in
    ap_messageId y = m ∧ ap_data y = Some d ∧ ap_stopped y = false ∧ ap_logSheet y = true) as Hn.
  { induction n as [|n IH]; intros x Hx; [done|]. cbn [replicate page_run foldl]. apply IH. apply Hstep; [|done].
    left. destruct Hx as (Ha & Hb & Hc & _). cbn [page_act]. rewrite Ha, Hc. by rewrite bool_decide_true. }
  destruct (Hn (page_run p3 [Replied 0 r2])) as (Ha & Hb & Hc & _).
  { cbn [page_run foldl]. apply Hstep; [|by rewrite H2, Hdata]. right. cbn [page_act]. rewrite H1. cbn [lookup list_lookup]; unfold replied, run_saved, run_answered, agent_reset.
    by rewrite Hr2, andb_false_r. }
  cbv zeta. unfold polling. by rewrite Ha, Hb, Hc, (bool_decide_false _ Hm).
Qed.

(** ** A page *)
Definition my_pipeline : agent_page := page_init PipelineAgent [("f", Operator.File); ("t", Operator.Tokenizer)] 0.
Definition accepted : reply := {| rp_code := 0; rp_status := 200; rp_message_id := "" |}.
Definition working : list trace_item := [{| tr_component_id := "f"; tr_message := "" |}].
Definition finished : list trace_item := working ++ [{| tr_component_id := "END"; tr_message := "[]" |}].

Lemma pipeline_turn_witness :
  polling (page_step (page_run my_pipeline (pipeline_start "a.pdf" accepted "m1" ++ map (TraceFetched "m1") [working]))
    (TraceFetched "m1" finished)) = false.
Proof.
  apply (pipeline_turn my_pipeline "a.pdf" accepted "m1" [working] finished); try done.
  intros x Hx. by apply list_elem_of_singleton in Hx as ->.
Defined.
