(* ===== verification/Pager.v ===== *)
(** * The pages of a list

    components/ui/ragflow-pagination.tsx: the row of page numbers under a
    list, and the two kinds of parents it has: lists whose page is in the URL
    ([useGetPaginationWithRouter] of hooks/logic-hooks.ts, modelled in
    [Search]) and the tables of the administration (pages/admin/users.tsx),
    which page through rows they have.  The component keeps a page and a size
    of its own beside the parent's, which two effects copy; a gesture calls
    the parent and sets the component's page. *)
From Stdlib Require Import QArith Qcanon Qround.
From S2P Require Import Prelude JsValue Libs FormUtils Streaming Search.
Open Scope list_scope.
Open Scope nat_scope.
Open Scope js_scope.

(** ** What a parent gives and takes

    [p_change] is the parent's onChange; [p_current] and [p_pageSize] the
    props it passes at the next render. *)
Class PagerParent (P : Type) := {
  p_current : P → num;
  p_pageSize : P → num;
  p_change : num → num → P → P
}.

(** What the component relies on: the parent goes to the page it is told to
    when the size stays, and takes the size. *)
Class PagerParentLaws (P : Type) `{PagerParent P} := {
  p_change_current page p : 1 ≤ page → p_current (p_change (num_of_nat page) (p_pageSize p) p) = num_of_nat page;
  p_change_pageSize page size p : 1 ≤ size → p_pageSize (p_change page (num_of_nat size) p) = num_of_nat size
}.

#[export] Instance router_parent : PagerParent paging := {
  p_current := page_of;
  p_pageSize := size_of;
  p_change page size := setCurrentPagination page (Some size)
}.

(** [table.setPagination({ pageIndex: page - 1, pageSize })], with the props
    [pageIndex + 1] and [pageSize]. *)
Record table_paging := { pageIndex : num; table_pageSize : num }.

Definition table_setPagination (page pageSize : num) (t : table_paging) : table_paging :=
  {| pageIndex := num_sub page (num_of_Z 1); table_pageSize := pageSize |}.

#[export] Instance table_parent : PagerParent table_paging := {
  p_current t := num_add (pageIndex t) (num_of_Z 1);
  p_pageSize := table_pageSize;
  p_change := table_setPagination
}.

(** ** The component *)
Record pager := { currentPage : num; currentPageSize : string }.

(** [Number(size)] *)
Definition size_number (s : string) : num := num_of_string s.

(** [x.toString()] *)
Definition size_string (n : num) : string := num_to_string n.

Definition sizeChangerOptions : list string := map (λ z, size_string (num_of_Z z)) [10; 20; 50; 100]%Z.

(** [Math.ceil(total / pageSize)], then an array of that length: a RangeError
    on a length that is negative, infinite, not a number or too large. *)
Definition pages (total : nat) (pageSize : num) : outcome (list num) :=
  match pageSize with
  | NFin s =>
      if s === 0%Qc then Throw
      else
        let num := Qceiling (Qc_of_Z (Z.of_nat total) / s)%Qc in
        if (0 <=? num)%Z && (num <? 2 ^ 32)%Z then Ok (map num_of_Z (seqZ 1 num)) else Throw
  | NPosInf | NNegInf => Ok []
  | NNaN => Throw
  end.

Definition num_min (a b : num) : num :=
  match a, b with
  | NNaN, _ | _, NNaN => NNaN
  | _, _ => if num_ltb b a then b else a
  end.

(** [for (let i = left; i <= right; i++) newPages.push(i)] *)
Fixpoint pages_from (fuel : nat) (i right : num) : list num :=
  match fuel with
  | O => []
  | S fuel => if num_leb i right then i :: pages_from fuel (num_add i (num_of_Z 1)) right else []
  end.

(** The loop makes at most five rounds ([pages_from_ends]). *)
Definition displayedPages (pages : list num) (currentPage : num) : list num :=
  let totalPages := Z.of_nat (length pages) in
  if (totalPages <=? 5)%Z then pages
  else
    let left := num_max (num_of_Z 2) (num_sub currentPage (num_of_Z 2)) in
    let right := num_min (num_of_Z (totalPages - 1)) (num_add currentPage (num_of_Z 2)) in
    [num_of_Z 1] ++ (if num_ltb (num_of_Z 2) left then [num_of_Z (-1)] else [])
      ++ pages_from 5 left right
      ++ (if num_ltb right (num_of_Z (totalPages - 1)) then [num_of_Z (-1)] else [])
      ++ (if (1 <? totalPages)%Z then [num_of_Z totalPages] else []).

(** A handler leaves the component's state and calls the parent with a page
    and a size. *)
Definition handlePreviousPageChange (s : pager) : pager * (num * num) :=
  let previousPage := num_sub (currentPage s) (num_of_Z 1) in
  if num_ltb (num_of_Z 0) previousPage
  then ({| currentPage := previousPage; currentPageSize := currentPageSize s |},
        (previousPage, size_number (currentPageSize s)))
  else (s, (currentPage s, size_number (currentPageSize s))).

Definition handlePageChange (page : num) (s : pager) : pager * (num * num) :=
  ({| currentPage := page; currentPageSize := currentPageSize s |},
   (page, size_number (currentPageSize s))).

Definition handleNextPageChange (pages : list num) (s : pager) : pager * (num * num) :=
  let nextPage := num_add (currentPage s) (num_of_Z 1) in
  if num_leb nextPage (num_of_nat (length pages))
  then ({| currentPage := nextPage; currentPageSize := currentPageSize s |},
        (nextPage, size_number (currentPageSize s)))
  else (s, (currentPage s, size_number (currentPageSize s))).

Definition handlePageSizeChange (size : string) (s : pager) : pager * (num * num) :=
  ({| currentPage := currentPage s; currentPageSize := size |}, (currentPage s, size_number size)).

(** ** The component under its parent *)
Section listing.
Context {P : Type} `{PagerParent P}.

(** The requests the list has made are the parent's changes, in order. *)
Record listing := { l_parent : P; l_total : nat; l_pager : pager; l_calls : list (num * num) }.

(** The effects on [current] and on [pageSize], after a render with other
    props. *)
Definition pager_effects (old new : P) (s : pager) : pager :=
  {| currentPage := if p_current new !== p_current old then p_current new else currentPage s;
     currentPageSize :=
       if p_pageSize new !== p_pageSize old then size_string (p_pageSize new) else currentPageSize s |}.

(** At the mount both effects run. *)
Definition mount_pager (p : P) (total : nat) : listing :=
  {| l_parent := p; l_total := total;
     l_pager := {| currentPage := p_current p; currentPageSize := size_string (p_pageSize p) |};
     l_calls := [] |}.

Definition render_pages (l : listing) : outcome (list num) := pages (l_total l) (p_pageSize (l_parent l)).

Definition shown_pages (l : listing) : outcome (list num) :=
  ps ← render_pages l; Ok (displayedPages ps (currentPage (l_pager l))).

Definition call_parent (l : listing) (r : pager * (num * num)) : listing :=
  let new := p_change r.2.1 r.2.2 (l_parent l) in
  {| l_parent := new; l_total := l_total l;
     l_pager := pager_effects (l_parent l) new r.1;
     l_calls := l_calls l ++ [r.2] |}.

Inductive gesture :=
  | PreviousClicked
  | NextClicked
  | PageClicked (page : num)
  | SizeChosen (size : string)
  | Answered (total : nat).

(** A click is on a page that is shown, and the ellipses are no pages; a size
    is one of the options; an answer of the server brings another total. *)
Definition pager_step (l : listing) (g : gesture) : outcome listing :=
  ps ← render_pages l;
  Ok match g with
     | PreviousClicked => call_parent l (handlePreviousPageChange (l_pager l))
     | NextClicked => call_parent l (handleNextPageChange ps (l_pager l))
     | PageClicked page =>
         if js_includes (displayedPages ps (currentPage (l_pager l))) page && (page !== num_of_Z (-1))
         then call_parent l (handlePageChange page (l_pager l)) else l
     | SizeChosen size =>
         if js_includes sizeChangerOptions size
         then call_parent l (handlePageSizeChange size (l_pager l)) else l
     | Answered total =>
         {| l_parent := l_parent l; l_total := total; l_pager := l_pager l; l_calls := l_calls l |}
     end.

Definition pager_run (l : listing) (gs : list gesture) : outcome listing :=
  foldl (λ l g, l ← l; pager_step l g) (Ok l) gs.
End listing.
Arguments listing P : clear implicits.

(** ** The reference

    The first and the last page and those next to the current one are shown,
    and an ellipsis stands wherever pages are left out. *)
Fixpoint with_gaps (l : list Z) : list Z :=
  match l with
  | x :: (y :: _) as l' => if (x + 1 <? y)%Z then x :: (-1)%Z :: with_gaps l' else x :: with_gaps l'
  | _ => l
  end.

Definition page_shown (n current p : Z) : bool :=
  (n <=? 5)%Z || (p =? 1)%Z || (p =? n)%Z || (Z.abs (p - current) <=? 2)%Z.

(** The abstract list: a page, a size and a total. *)
Record cursor := { c_page : nat; c_size : nat; c_total : nat }.

Definition num_pages (c : cursor) : nat := (c_total c + c_size c - 1) / c_size c.

Definition with_page (page : nat) (c : cursor) : cursor :=
  {| c_page := page; c_size := c_size c; c_total := c_total c |}.

(** The page of the list a number is, if it is shown. *)
Definition page_to_click (c : cursor) (page : num) : option nat :=
  js_find (λ k, (num_of_nat k === page) && page_shown (Z.of_nat (num_pages c)) (Z.of_nat (c_page c)) (Z.of_nat k))
    (seq 1 (num_pages c)).

(** The size an option of the select stands for. *)
Definition size_chosen (size : string) : option nat := js_find (λ k, pretty (Z.of_nat k) === size) [10; 20; 50; 100].

Definition cursor_step (c : cursor) (g : gesture) : cursor :=
  match g with
  | PreviousClicked => with_page (Nat.max 1 (c_page c - 1)) c
  | NextClicked => if bool_decide (c_page c < num_pages c) then with_page (S (c_page c)) c else c
  | PageClicked page => match page_to_click c page with Some k => with_page k c | None => c end
  | SizeChosen size =>
      match size_chosen size with
      | Some k => {| c_page := if k === c_size c then c_page c else 1; c_size := k; c_total := c_total c |}
      | None => c
      end
  | Answered total => {| c_page := c_page c; c_size := c_size c; c_total := total |}
  end.

Example shown_5 : displayedPages (map num_of_Z (seqZ 1 20)) (num_of_Z 10) = map num_of_Z [1; -1; 8; 9; 10; 11; 12; -1; 20]%Z.
Proof. apply (bool_decide_unpack _). vm_compute. exact I. Qed.

(** ** The pages shown *)

(** The row for whole numbers. *)
Definition integer_row (pages : list Z) (currentPage : Z) : list Z :=
  let totalPages := Z.of_nat (length pages) in
  if (totalPages <=? 5)%Z then pages
  else
    let left := Z.max 2 (currentPage - 2) in
    let right := Z.min (totalPages - 1) (currentPage + 2) in
    [1%Z] ++ (if (2 <? left)%Z then [(-1)%Z] else [])
      ++ seqZ left (right - left + 1)
      ++ (if (right <? totalPages - 1)%Z then [(-1)%Z] else [])
      ++ (if (1 <? totalPages)%Z then [totalPages] else []).

Lemma num_max_Z a b : num_max (num_of_Z a) (num_of_Z b) = num_of_Z (Z.max a b).
Proof.
  unfold num_max. change (match num_of_Z a with NNaN => NNaN | _ => match num_of_Z b with NNaN => NNaN | _ =>
    if num_ltb (num_of_Z a) (num_of_Z b) then num_of_Z b else num_of_Z a end end = num_of_Z (Z.max a b)).
  rewrite num_ltb_Z. cbn [num_of_Z]. destruct (Z.ltb_spec a b); f_equal; f_equal; lia.
Qed.

Lemma num_min_Z a b : num_min (num_of_Z a) (num_of_Z b) = num_of_Z (Z.min a b).
Proof.
  unfold num_min. change (match num_of_Z a with NNaN => NNaN | _ => match num_of_Z b with NNaN => NNaN | _ =>
    if num_ltb (num_of_Z b) (num_of_Z a) then num_of_Z b else num_of_Z a end end = num_of_Z (Z.min a b)).
  rewrite num_ltb_Z. cbn [num_of_Z]. destruct (Z.ltb_spec b a); f_equal; f_equal; lia.
Qed.

Lemma pages_from_Z fuel l r : (r - l + 1 <= Z.of_nat fuel)%Z →
  pages_from fuel (num_of_Z l) (num_of_Z r) = map num_of_Z (seqZ l (r - l + 1)).
Proof.
  revert l. induction fuel as [|fuel IH]; intros l Hf.
  - by rewrite seqZ_nil by lia.
  - cbn [pages_from]. rewrite num_leb_Z, num_add_Z. destruct (Z.leb_spec l r).
    + rewrite (seqZ_cons l) by lia. cbn [map]. rewrite IH by lia. do 3 f_equal. lia.
    + by rewrite seqZ_nil by lia.
Qed.

(** Five rounds are enough for any current page. *)
Lemma pages_from_more k fuel a r : num_leb (NFin (a + Qc_of_Z (Z.of_nat k))%Qc) r = false →
  pages_from (k + fuel) (NFin a) r = pages_from k (NFin a) r.
Proof.
  revert a. induction k as [|k IH]; intros a Hk.
  - assert ((a + Qc_of_Z (Z.of_nat 0))%Qc = a) as E by (change (a + 0 = a)%Qc; ring). rewrite E in Hk.
    destruct fuel; cbn [pages_from Nat.add]; [done|by rewrite Hk].
  - cbn [pages_from Nat.add]. destruct (num_leb (NFin a) r); [|done]. f_equal. apply (IH (a + Qc_of_Z 1)%Qc).
    rewrite <-Hk. f_equal. f_equal. rewrite Nat2Z.inj_succ, <-Z.add_1_l, Z2Qc_inj_add. ring.
Qed.

Lemma num_max_fin a b : ∃ c, num_max (NFin a) (NFin b) = NFin c ∧ (b <= c)%Qc.
Proof.
  cbn. case_bool_decide as H; eexists; (split; [done|]); [apply Qcle_refl|by apply Qcnot_lt_le].
Qed.

Lemma num_min_above n b q : (b < q)%Qc → num_leb (NFin q) (num_min n (NFin b)) = false.
Proof.
  intros Hq. unfold num_min. destruct n as [a| | |]; cbn; [| |by apply bool_decide_eq_false, Qclt_not_le|done].
  - case_bool_decide as H; cbn; apply bool_decide_eq_false, Qclt_not_le; [done|].
    eapply Qcle_lt_trans; [by apply Qcnot_lt_le|done].
  - done.
Qed.

Lemma pages_from_ends fuel q (n : num) :
  let left := num_max (num_of_Z 2) (num_sub (NFin q) (num_of_Z 2)) in
  let right := num_min n (num_add (NFin q) (num_of_Z 2)) in
  pages_from (5 + fuel) left right = pages_from 5 left right.
Proof.
  intros left right. destruct (num_max_fin (Qc_of_Z 2) (q + - Qc_of_Z 2)%Qc) as (c & Hc & Hle).
  change (num_max _ _) with left in Hc. rewrite Hc. apply pages_from_more, num_min_above.
  apply Qclt_le_trans with (q + - Qc_of_Z 2 + Qc_of_Z 5)%Qc; [|by apply Qcplus_le_mono_r].
  rewrite <-Qcplus_assoc. apply Qcplus_lt_mono_l. by apply (bool_decide_unpack _).
Qed.

Lemma displayed_row ps cur : displayedPages (map num_of_Z ps) (num_of_Z cur) = map num_of_Z (integer_row ps cur).
Proof.
  unfold displayedPages, integer_row. rewrite length_map. destruct (_ <=? 5)%Z; [done|].
  rewrite num_sub_Z, num_add_Z, num_max_Z, num_min_Z, !num_ltb_Z, pages_from_Z by lia.
  rewrite !map_app. f_equal. by destruct (2 <? _)%Z, (_ <? Z.of_nat (length ps) - 1)%Z, (1 <? _)%Z.
Qed.

Lemma js_filter_seqZ_none (p : Z → bool) m k :
  (∀ x, (m <= x < m + k)%Z → p x = false) → js_filter p (seqZ m k) = [].
Proof. intros Hp. apply js_filter_none. intros x Hx%elem_of_seqZ. by apply Hp. Qed.

Lemma js_filter_seqZ_all (p : Z → bool) m k :
  (∀ x, (m <= x < m + k)%Z → p x = true) → js_filter p (seqZ m k) = seqZ m k.
Proof. intros Hp. apply js_filter_all. intros x Hx%elem_of_seqZ. by apply Hp. Qed.

Lemma with_gaps_run x k l : (0 <= k)%Z →
  with_gaps (seqZ x (k + 1) ++ l) =
  seqZ x k ++ with_gaps ((x + k)%Z :: l).
Proof.
  intros Hk. revert x. pattern k. apply natlike_ind; [|clear k Hk; intros k Hk IH x|done].
  { intros x. rewrite Z.add_0_r. rewrite (seqZ_cons x (0 + 1)), !seqZ_nil by lia. done. }
  rewrite (seqZ_cons x (Z.succ k + 1)), (seqZ_cons x (Z.succ k)), Z.pred_succ by lia.
  replace (Z.pred (Z.succ k + 1)) with (k + 1)%Z by lia.
  specialize (IH (Z.succ x)). rewrite (seqZ_cons (Z.succ x) (k + 1)) in IH |- * by lia.
  cbn [app with_gaps] in IH |- *. rewrite (proj2 (Z.ltb_ge (x + 1) (Z.succ x))) by lia.
  replace (x + Z.succ k)%Z with (Z.succ x + k)%Z by lia. by rewrite IH.
Qed.

Lemma with_gaps_seqZ x k : with_gaps (seqZ x k) = seqZ x k.
Proof.
  destruct (decide (k <= 0)%Z); [by rewrite seqZ_nil|].
  replace k with (k - 1 + 1)%Z by lia. rewrite <-(app_nil_r (seqZ x _)), with_gaps_run by lia.
  rewrite app_nil_r, seqZ_app by lia. done.
Qed.

Lemma with_gaps_cons x y l :
  with_gaps (x :: y :: l) = [x] ++ (if (x + 1 <? y)%Z then [(-1)%Z] else []) ++ with_gaps (y :: l).
Proof. cbn [with_gaps]. by destruct (x + 1 <? y)%Z. Qed.

Lemma with_gaps_first x y k l : (0 < k)%Z →
  with_gaps ([x] ++ seqZ y k ++ l) =
  [x] ++ (if (x + 1 <? y)%Z then [(-1)%Z] else []) ++ with_gaps (seqZ y k ++ l).
Proof. intros Hk. rewrite seqZ_cons by lia. apply with_gaps_cons. Qed.

(** The pages between the first and the last of a long list: a block around
    the current page. *)
Lemma shown_block n cur : (5 < n)%Z →
  js_filter (page_shown n cur) (seqZ 1 n) =
  [1%Z] ++ seqZ (Z.max 2 (cur - 2)) (Z.min (n - 1) (cur + 2) - Z.max 2 (cur - 2) + 1) ++ [n].
Proof.
  intros Hn. remember (Z.max 2 (cur - 2)) as lft eqn:Hl. remember (Z.min (n - 1) (cur + 2)) as rgt eqn:Hr.
  assert (∀ x, (1 < x < n)%Z → page_shown n cur x = (Z.abs (x - cur) <=? 2)%Z) as Hmid.
  { intros x Hx. unfold page_shown. rewrite (proj2 (Z.leb_gt n 5)), (proj2 (Z.eqb_neq x 1)), (proj2 (Z.eqb_neq x n)) by lia. done. }
  assert (seqZ 1 n = [1%Z] ++ seqZ 2 (n - 2) ++ [n]) as ->.
  { replace n with (1 + (n - 2 + 1))%Z at 1 by lia. rewrite !seqZ_app by lia.
    rewrite (seqZ_cons 1 1), (seqZ_nil (Z.succ 1)), (seqZ_cons _ 1), (seqZ_nil (Z.succ _)) by lia.
    cbn [app]. do 3 f_equal. f_equal. lia. }
  rewrite !js_filter_app. f_equal; [|f_equal].
  - unfold js_filter. by rewrite filter_cons_True by (unfold page_shown; by rewrite Z.eqb_refl, orb_true_r).
  - destruct (decide (lft <= rgt)%Z).
    + replace (n - 2)%Z with (lft - 2 + (rgt - lft + 1 + (n - 1 - rgt)))%Z by lia.
      rewrite (seqZ_app 2 (lft - 2)), (seqZ_app _ (rgt - lft + 1)) by lia. rewrite !js_filter_app.
      rewrite (js_filter_seqZ_none _ 2) by (intros x Hx; rewrite Hmid by lia; (apply Z.leb_gt || apply Z.leb_le); lia).
      rewrite (js_filter_seqZ_none _ _ (n - 1 - rgt)) by (intros x Hx; rewrite Hmid by lia; (apply Z.leb_gt || apply Z.leb_le); lia).
      rewrite js_filter_seqZ_all by (intros x Hx; rewrite Hmid by lia; (apply Z.leb_gt || apply Z.leb_le); lia).
      rewrite app_nil_r. cbn [app]. f_equal. lia.
    + rewrite (seqZ_nil _ (rgt - lft + 1)) by lia.
      apply js_filter_seqZ_none. intros x Hx. rewrite Hmid by lia. apply Z.leb_gt. lia.
  - unfold js_filter. rewrite filter_cons_True; [done|]. unfold page_shown. rewrite Z.eqb_refl, orb_true_r. done.
Qed.

(** The row of pages is exactly its reference: for every number of pages
    and every current page (in range or not), the pages shown are the first,
    the last and those at most two away from the current one (all of at most
    five), in order, with an ellipsis exactly where pages are left out. *)
Theorem pages_displayed_exact (n cur : Z) :
  displayedPages (map num_of_Z (seqZ 1 n)) (num_of_Z cur) =
  map num_of_Z (with_gaps (js_filter (page_shown n cur) (seqZ 1 n))).
Proof.
  rewrite displayed_row. f_equal. unfold integer_row. rewrite length_seqZ. destruct (Z.of_nat (Z.to_nat n) <=? 5)%Z eqn:Hn.
  { apply Z.leb_le in Hn. rewrite js_filter_all; [by rewrite with_gaps_seqZ|].
    intros x [Hx1 Hx2]%elem_of_seqZ. unfold page_shown. by rewrite (proj2 (Z.leb_le n 5)) by lia. }
  apply Z.leb_gt in Hn. rewrite Z2Nat.id by lia. rewrite Z2Nat.id in Hn by lia. rewrite shown_block by done.
  rewrite (proj2 (Z.ltb_lt 1 n)) by lia.
  remember (Z.max 2 (cur - 2)) as lft eqn:Hl. remember (Z.min (n - 1) (cur + 2)) as rgt eqn:Hr.
  destruct (decide (lft <= rgt)%Z).
  - rewrite (with_gaps_first 1 lft), with_gaps_run, with_gaps_cons by lia.
    replace (lft + (rgt - lft))%Z with rgt by lia.
    rewrite (seqZ_app lft (rgt - lft) 1), (seqZ_cons (lft + _) 1), (seqZ_nil (Z.succ _)) by lia.
    replace (lft + (rgt - lft))%Z with rgt by lia.
    replace (1 + 1 <? lft)%Z with (2 <? lft)%Z by done.
    replace (rgt + 1 <? n)%Z with (rgt <? n - 1)%Z by (destruct (Z.ltb_spec rgt (n - 1)), (Z.ltb_spec (rgt + 1) n); lia).
    rewrite <-!app_assoc. done.
  - rewrite seqZ_nil by lia. cbn [app]. rewrite with_gaps_cons. cbn [with_gaps].
    rewrite (proj2 (Z.ltb_lt (1 + 1) n)) by lia.
    destruct (Z.ltb_spec 2 lft), (Z.ltb_spec rgt (n - 1)); try done; lia.
Qed.

(** ** The component follows its parent *)
Lemma size_number_string n : size_number (size_string (num_of_nat n)) = num_of_nat n.
Proof. unfold size_number, size_string, num_of_nat. by rewrite num_to_string_Z, num_of_string_pretty by lia. Qed.

Lemma size_chosen_option size :
  if js_includes sizeChangerOptions size
  then ∃ k, size_chosen size = Some k ∧ size = size_string (num_of_nat k) ∧ 1 ≤ k
  else size_chosen size = None.
Proof.
  assert (sizeChangerOptions = map (λ k, size_string (num_of_nat k)) [10; 20; 50; 100]) as -> by done.
  unfold js_includes, size_chosen.
  assert (∀ k, (pretty (Z.of_nat k) === size) = (size_string (num_of_nat k) === size)) as Hk.
  { intros k. unfold size_string, num_of_nat. by rewrite num_to_string_Z. }
  case_bool_decide as H.
  - apply list_elem_of_fmap in H as (k & -> & Hin).
    destruct (js_find_is_Some (λ j, pretty (Z.of_nat j) === size_string (num_of_nat k)) [10; 20; 50; 100] k) as [j Hj];
      [done|rewrite Hk; by apply bool_decide_eq_true|].
    exists j. split; [done|]. apply js_find_Some in Hj as [Hj E]. rewrite Hk in E. apply bool_decide_eq_true in E.
    split; [done|]. set_unfold. lia.
  - destruct (js_find _ _) as [k|] eqn:E; [|done]. apply js_find_Some in E as [Hin E]. rewrite Hk in E.
    apply bool_decide_eq_true in E. destruct H. apply list_elem_of_fmap. by exists k.
Qed.

Lemma or_number_eq o z : z ≠ 0%Z → num_eqb (or_number o z) (or_number o z) = true ∧ or_number o z ≠ num_of_Z 0.
Proof.
  intros Hz. assert (num_eqb (num_of_Z z) (num_of_Z z) = true ∧ num_of_Z z ≠ num_of_Z 0) as Hd.
  { rewrite num_eqb_Z, Z.eqb_refl. split; [done|]. by intros ?%num_of_Z_inj. }
  destruct o as [n|]; [|exact Hd]. cbn [or_number]. destruct (truthy (VNum n)) eqn:E; [|exact Hd].
  destruct n as [q| | |]; try done. split; [cbn; by apply bool_decide_eq_true|]. intros [= ->]. done.
Qed.

Lemma truthy_nat n : n ≠ 0 → truthy (VNum (num_of_nat n)) = true.
Proof.
  intros Hn. apply negb_true_iff, bool_decide_eq_false. intros H. apply Hn. apply (num_of_Z_inj _ 0) in H. lia.
Qed.

Lemma or_number_some n z : n ≠ 0 → or_number (Some (num_of_nat n)) z = num_of_nat n.
Proof. intros Hn. cbn [or_number]. by rewrite truthy_nat. Qed.

Lemma page_of_set page size (p : paging) : 1 ≤ page → 1 ≤ size →
  page_of (setCurrentPagination (num_of_nat page) (Some (num_of_nat size)) p) =
    (if num_eqb (num_of_nat size) (size_of p) then num_of_nat page else num_of_Z 1) ∧
  size_of (setCurrentPagination (num_of_nat page) (Some (num_of_nat size)) p) = num_of_nat size.
Proof.
  intros Hp Hs. unfold setCurrentPagination, page_of, size_of, setPaginationParams. cbn [url_page url_size default].
  split.
  - destruct (num_eqb _ _); cbn [negb]; [by apply or_number_some; lia|]. by apply (or_number_some 1).
  - rewrite truthy_nat by lia. by apply or_number_some; lia.
Qed.

#[export] Instance router_laws : PagerParentLaws paging.
Proof.
  split; cbn [p_current p_pageSize p_change router_parent].
  - intros page p Hp. unfold setCurrentPagination, page_of, size_of, setPaginationParams. cbn [url_page default].
    rewrite (proj1 (or_number_eq (url_size p) 50 ltac:(done))). cbn [negb]. by apply or_number_some; lia.
  - intros page size p Hs. unfold setCurrentPagination, size_of, setPaginationParams. cbn [url_size].
    rewrite truthy_nat by lia. by apply or_number_some; lia.
Qed.

#[export] Instance table_laws : PagerParentLaws table_paging.
Proof.
  split; cbn [p_current p_pageSize p_change table_parent table_setPagination pageIndex table_pageSize].
  - intros page t Hp. unfold num_of_nat. by rewrite num_sub_Z, num_add_Z, Z.sub_add.
  - done.
Qed.

Lemma ceiling_div (t : Z) (s : nat) : 1 ≤ s →
  Qceiling (Qc_of_Z t / Qc_of_Z (Z.of_nat s))%Qc = (- (- t / Z.of_nat s))%Z.
Proof.
  intros Hs. destruct (Z.of_nat s) as [|p|] eqn:E; [lia| |lia]. transitivity (Qceiling (t # p)); [|done].
  apply Qceiling_comp. unfold Qcdiv. change (this (Q2Qc (Qc_of_Z t * this (/ Qc_of_Z (Zpos p))%Qc)) == t # p)%Q.
  etransitivity; [apply Qred_correct|].
  assert ((/ Qc_of_Z (Zpos p))%Qc == / inject_Z (Zpos p))%Q as -> by apply Qred_correct.
  cbn. unfold Qeq. cbn. lia.
Qed.

Lemma Qc_of_Z_nonzero z : z ≠ 0%Z → Qc_of_Z z ≠ 0%Qc.
Proof. intros Hz H. apply Hz, (num_of_Z_inj z 0). unfold num_of_Z. f_equal. rewrite H. by apply Qc_is_canon. Qed.

Lemma pages_ok total size : 1 ≤ size → (Z.of_nat total < 2 ^ 32)%Z →
  pages total (num_of_nat size) = Ok (map num_of_Z (seqZ 1 (Z.of_nat ((total + size - 1) / size)))).
Proof.
  intros Hs Ht. unfold pages, num_of_nat, num_of_Z at 1.
  rewrite bool_decide_false by (apply Qc_of_Z_nonzero; lia). rewrite ceiling_div by done.
  assert ((- (- Z.of_nat total / Z.of_nat size))%Z = Z.of_nat ((total + size - 1) / size)) as ->.
  { rewrite Nat2Z.inj_div, Nat2Z.inj_sub, Nat2Z.inj_add by lia.
    pose proof (Z.div_mod (- Z.of_nat total) (Z.of_nat size) ltac:(lia)).
    pose proof (Z.mod_pos_bound (- Z.of_nat total) (Z.of_nat size) ltac:(lia)).
    apply Z.div_unique with (Z.of_nat size - 1 - (- Z.of_nat total) mod Z.of_nat size)%Z; lia. }
  assert ((total + size - 1) / size ≤ total) as Hle.
  { destruct (decide (total = 0)) as [->|]; [rewrite Nat.div_small; lia|].
    apply Nat.Div0.div_le_upper_bound. nia. }
  rewrite (proj2 (Z.leb_le _ _)), (proj2 (Z.ltb_lt _ _)) by lia. done.
Qed.

Section follows.
Context {P : Type} `{PagerParentLaws P}.

(** The component's page and size are the parent's. *)
Definition in_step (l : listing P) : Prop :=
  currentPage (l_pager l) = p_current (l_parent l) ∧
  currentPageSize (l_pager l) = size_string (p_pageSize (l_parent l)).

(** A list is at a cursor: its parent has the cursor's page and size. *)
Record at_cursor (l : listing P) (c : cursor) : Prop := {
  at_page : p_current (l_parent l) = num_of_nat (c_page c);
  at_size : p_pageSize (l_parent l) = num_of_nat (c_size c);
  at_total : l_total l = c_total c;
  at_page_pos : 1 ≤ c_page c;
  at_size_pos : 1 ≤ c_size c;
  at_bounded : (Z.of_nat (c_total c) < 2 ^ 32)%Z     (* fewer pages than an array may have elements *)
}.

Lemma render_ok l c : at_cursor l c → render_pages l = Ok (map num_of_Z (seqZ 1 (Z.of_nat (num_pages c)))).
Proof. intros [H1 H2 H3 H4 H5 H6]. unfold render_pages, num_pages. rewrite H2, H3. by apply pages_ok. Qed.

(** A call whose page is the component's own, in the parent's size. *)
Lemma call_same_size l c page : in_step l → at_cursor l c → 1 ≤ page →
  let l' := call_parent l (handlePageChange (num_of_nat page) (l_pager l)) in
  in_step l' ∧ at_cursor l' (with_page page c).
Proof.
  intros [Hc Hz] [H1 H2 H3 H4 H5 H6] Hp. unfold handlePageChange. rewrite Hz, H2, size_number_string.
  pose proof (p_change_current page (l_parent l) Hp) as Hcur. rewrite H2 in Hcur.
  pose proof (p_change_pageSize (num_of_nat page) (c_size c) (l_parent l) H5) as Hsize.
  split; [|by split].
  split; cbn [call_parent l_pager l_parent fst snd pager_effects currentPage currentPageSize].
  - rewrite Hcur. by destruct (_ !== _).
  - rewrite Hsize, H2, bool_decide_true by done. done.
Qed.

Lemma call_new_size l c k : in_step l → at_cursor l c → 1 ≤ k →
  let l' := call_parent l (handlePageSizeChange (size_string (num_of_nat k)) (l_pager l)) in
  in_step l' ∧ l_parent l' = p_change (num_of_nat (c_page c)) (num_of_nat k) (l_parent l) ∧ l_total l' = c_total c.
Proof.
  intros [Hc Hz] [H1 H2 H3 H4 H5 H6] Hk. unfold handlePageSizeChange. rewrite size_number_string, Hc, H1.
  pose proof (p_change_pageSize (num_of_nat (c_page c)) k (l_parent l) Hk) as Hsize. split; [|by split].
  split; cbn [call_parent l_pager l_parent fst snd pager_effects currentPage currentPageSize].
  - rewrite H1. case_bool_decide as E; simpl; congruence.
  - rewrite Hsize. by destruct (_ !== _).
Qed.

Lemma previous_is_page l c : in_step l → at_cursor l c →
  handlePreviousPageChange (l_pager l) = handlePageChange (num_of_nat (Nat.max 1 (c_page c - 1))) (l_pager l).
Proof.
  intros [Hc Hz] [H1 _ _ H4 _ _]. unfold handlePreviousPageChange, handlePageChange. rewrite Hc, H1. unfold num_of_nat.
  rewrite num_sub_Z, num_ltb_Z. destruct (Z.ltb_spec 0 (Z.of_nat (c_page c) - 1)).
  - by replace (Z.of_nat (c_page c) - 1)%Z with (Z.of_nat (Nat.max 1 (c_page c - 1))) by lia.
  - replace (Nat.max 1 (c_page c - 1)) with (c_page c) by lia. unfold num_of_nat in H1. rewrite <-H1, <-Hc. by destruct (l_pager l).
Qed.

Lemma next_is_page l c ps : in_step l → at_cursor l c → length ps = num_pages c →
  handleNextPageChange ps (l_pager l) =
  handlePageChange (num_of_nat (if bool_decide (c_page c < num_pages c) then S (c_page c) else c_page c)) (l_pager l).
Proof.
  intros [Hc Hz] [H1 _ _ H4 _ _] Hl. unfold handleNextPageChange, handlePageChange. rewrite Hl, Hc, H1. unfold num_of_nat.
  rewrite num_add_Z, num_leb_Z. destruct (Z.leb_spec (Z.of_nat (c_page c) + 1) (Z.of_nat (num_pages c))).
  - rewrite bool_decide_true by lia. by replace (Z.of_nat (c_page c) + 1)%Z with (Z.of_nat (S (c_page c))) by lia.
  - rewrite bool_decide_false by lia. unfold num_of_nat in H1. rewrite <-H1, <-Hc. by destruct (l_pager l).
Qed.
End follows.

(** ** A list whose page is in the URL *)
Lemma elem_of_with_gaps p l : p ≠ (-1)%Z → p ∈ with_gaps l ↔ p ∈ l.
Proof.
  intros Hp. induction l as [|x [|y l] IH]; [done|done|]. rewrite with_gaps_cons.
  rewrite !elem_of_app, IH. destruct (x + 1 <? y)%Z; set_solver.
Qed.

(** A click reaches exactly the pages of the list that are shown. *)
Lemma click_shown (c : cursor) (page : num) :
  if js_includes (displayedPages (map num_of_Z (seqZ 1 (Z.of_nat (num_pages c)))) (num_of_nat (c_page c))) page
     && (page !== num_of_Z (-1))
  then ∃ k, page_to_click c page = Some k ∧ page = num_of_nat k ∧ 1 ≤ k
  else page_to_click c page = None.
Proof.
  unfold num_of_nat at 1. rewrite pages_displayed_exact. unfold page_to_click.
  set (n := num_pages c). set (cur := Z.of_nat (c_page c)).
  assert (∀ k, page = num_of_nat k → k ∈ seq 1 n ∧ page_shown (Z.of_nat n) cur (Z.of_nat k) = true ↔
    js_includes (map num_of_Z (with_gaps (js_filter (page_shown (Z.of_nat n) cur) (seqZ 1 (Z.of_nat n))))) page = true) as Hk.
  { intros k ->. unfold js_includes. rewrite bool_decide_eq_true, list_elem_of_fmap. unfold num_of_nat.
    rewrite list_elem_of_In, in_seq. split.
    - intros [Hr Hs]. exists (Z.of_nat k). split; [done|]. rewrite elem_of_with_gaps, elem_of_js_filter, elem_of_seqZ by lia.
      split; [done|lia].
    - intros (z & <-%num_of_Z_inj & Hz). rewrite elem_of_with_gaps, elem_of_js_filter, elem_of_seqZ in Hz by lia.
      destruct Hz as [? ?]. split; [lia|done]. }
  destruct (js_find _ (seq 1 n)) as [k|] eqn:E.
  - apply js_find_Some in E as [Hin [<-%bool_decide_eq_true Hs]%andb_true_iff].
    rewrite (proj1 (Hk k eq_refl) (conj Hin Hs)). rewrite list_elem_of_In, in_seq in Hin.
    rewrite bool_decide_false; [|by intros ?%num_of_Z_inj; lia]. exists k. split; [done|]. split; [done|lia].
  - destruct (js_includes _ page) eqn:Hi; [|done]. case_bool_decide as Hm; [done|]. exfalso. cbn [negb andb] in *.
    pose proof Hi as Hi'. unfold js_includes in Hi'. apply bool_decide_eq_true, list_elem_of_fmap in Hi' as (z & -> & Hz).
    assert (z ≠ (-1)%Z) as Hz1 by (intros ->; done).
    rewrite elem_of_with_gaps, elem_of_js_filter, elem_of_seqZ in Hz by done. destruct Hz as [Hs Hr].
    destruct (js_find_is_Some (λ k, (num_of_nat k === num_of_Z z) && page_shown (Z.of_nat n) cur (Z.of_nat k)) (seq 1 n) (Z.to_nat z))
      as [k Hf]; [apply list_elem_of_In, in_seq; lia| |congruence].
    unfold num_of_nat. rewrite Z2Nat.id by lia. by rewrite bool_decide_true.
Qed.

(** A gesture brings no total that cannot be shown. *)
Definition small_answer (g : gesture) : Prop :=
  match g with Answered total => (Z.of_nat total < 2 ^ 32)%Z | _ => True end.

Lemma pager_step_refines (l : listing paging) c g : in_step l → at_cursor l c → small_answer g →
  ∃ l', pager_step l g = Ok l' ∧ in_step l' ∧ at_cursor l' (cursor_step c g).
Proof.
  intros Hl Hc Hg. unfold pager_step. rewrite (render_ok l c Hc). cbn [mbind outcome_bind].
  pose proof (at_page_pos _ _ Hc) as Hpos. eexists. split; [done|]. destruct g; cbn [cursor_step].
  - rewrite (previous_is_page l c Hl Hc). by apply call_same_size; [..|lia].
  - rewrite (next_is_page l c) by (done || by rewrite length_map, length_seqZ, Nat2Z.id). case_bool_decide.
    + by apply call_same_size; [..|lia].
    + assert (with_page (c_page c) c = c) as E by by destruct c. rewrite <-E at 3. by apply call_same_size.
  - rewrite (proj1 Hl), (at_page _ _ Hc). pose proof (click_shown c page) as Hs. destruct (_ && _); [|by rewrite Hs].
    destruct Hs as (k & -> & -> & Hk). by apply call_same_size.
  - pose proof (size_chosen_option size) as Hs. destruct (js_includes _ size); [|by rewrite Hs].
    destruct Hs as (k & -> & -> & Hk). destruct (call_new_size l c k Hl Hc Hk) as (Hl' & Hpar & Htot). split; [exact Hl'|].
    destruct (page_of_set (c_page c) k (l_parent l) Hpos Hk) as [Hpage Hsize]. destruct Hc as [H1 H2 H3 H4 H5 H6].
    split; cbn [c_page c_size c_total]; [|by rewrite Hpar|done| |done|done].
    + rewrite Hpar. etransitivity; [exact Hpage|]. change (size_of (l_parent l)) with (p_pageSize (l_parent l)).
      rewrite H2. unfold num_of_nat at 1 2. rewrite num_eqb_Z. case_bool_decide as E.
      * subst. by rewrite Z.eqb_refl.
      * rewrite (proj2 (Z.eqb_neq _ _)) by lia. done.
    + case_bool_decide; lia.
  - split; [done|]. destruct Hc as [H1 H2 H3 H4 H5 H6]. by split.
Qed.

Lemma pager_run_refines (l : listing paging) c gs : in_step l → at_cursor l c → Forall small_answer gs →
  ∃ l', pager_run l gs = Ok l' ∧ in_step l' ∧ at_cursor l' (foldl cursor_step c gs).
Proof.
  intros Hl Hc Hgs. revert l c Hl Hc. induction Hgs as [|g gs Hg _ IH]; intros l c Hl Hc; [by exists l|].
  destruct (pager_step_refines l c g Hl Hc Hg) as (l1 & Hs & Hl1 & Hc1).
  destruct (IH l1 _ Hl1 Hc1) as (l' & Hr & ? & ?). exists l'.
  split; [|by split]. unfold pager_run in Hr |- *. cbn [foldl mbind outcome_bind]. by rewrite Hs.
Qed.

(** The current page is one of the list; an empty list shows page one. *)
Definition in_range (c : cursor) : Prop := 1 ≤ c_page c ≤ Nat.max 1 (num_pages c).

Definition no_answer (g : gesture) : Prop := match g with Answered _ => False | _ => True end.

Lemma cursor_in_range c gs : in_range c → Forall no_answer gs → in_range (foldl cursor_step c gs).
Proof.
  intros Hc Hgs. revert c Hc. induction Hgs as [|g gs Hg _ IH]; intros c Hc; [done|]. cbn [foldl]. apply IH.
  unfold in_range in *. destruct g; cbn [cursor_step].
  - change (num_pages (with_page _ c)) with (num_pages c). cbn. lia.
  - case_bool_decide; [|done]. change (num_pages (with_page _ c)) with (num_pages c). cbn. lia.
  - destruct (page_to_click c page) as [k|] eqn:E; [|done]. change (num_pages (with_page _ c)) with (num_pages c).
    apply js_find_Some in E as [Hin _]. rewrite list_elem_of_In, in_seq in Hin. cbn. lia.
  - destruct (size_chosen size) as [k|]; [|done]. destruct (decide (k = c_size c)) as [E|E].
    + rewrite bool_decide_true by done. rewrite E. by destruct c.
    + rewrite bool_decide_false by done. cbn [c_page]. lia.
  - done.
Qed.

(** C33: The pages of a list in the URL refine an abstract cursor.  From a URL
    whose page and size read as whole numbers that are not negative, or are
    not there, whatever is clicked and whatever totals below 2^32 the server
    answers: no handler throws, the component's page and size stay the URL's,
    page and size are those of the cursor (a step back or forth within the
    list, the page clicked, page one when the size changes), the row shown is
    the reference row around that page, and while the total stays the page
    never leaves the list. *)
Theorem pager_refines (u : paging) (page size total : nat) (gs : list gesture) :
  page_of u = num_of_nat page → size_of u = num_of_nat size →
  (Z.of_nat total < 2 ^ 32)%Z → Forall small_answer gs →
  let start := {| c_page := page; c_size := size; c_total := total |} in
  let c := foldl cursor_step start gs in
  ∃ l, pager_run (mount_pager u total) gs = Ok l ∧ in_step l ∧
    page_of (l_parent l) = num_of_nat (c_page c) ∧ size_of (l_parent l) = num_of_nat (c_size c) ∧
    l_total l = c_total c ∧
    shown_pages l = Ok (map num_of_Z (with_gaps (js_filter (page_shown (Z.of_nat (num_pages c)) (Z.of_nat (c_page c)))
                                                  (seqZ 1 (Z.of_nat (num_pages c)))))) ∧
    (in_range start → Forall no_answer gs → in_range c).
Proof.
  intros Hp Hs Ht Hgs start c.
  assert (at_cursor (mount_pager u total) start) as H0.
  { split; [done|done|done| | |done]; cbn; apply Nat.neq_0_lt_0; intros ->.
    - by apply (or_number_eq (url_page u) 1).
    - by apply (or_number_eq (url_size u) 50). }
  destruct (pager_run_refines (mount_pager u total) start gs) as (l & Hr & Hl & Hc); [done..|].
  exists l. fold c in Hc. destruct (Hc) as [H1 H2 H3 H4 H5 H6]. repeat (split; [done|]). split.
  - unfold shown_pages. rewrite (render_ok l c Hc). cbn [mbind outcome_bind].
    rewrite (proj1 Hl), H1. unfold num_of_nat at 1. by rewrite pages_displayed_exact.
  - intros Hin Hno. by apply cursor_in_range.
Qed.

Definition page_two : paging := {| url_page := Some (num_of_Z 2); url_size := Some (num_of_Z 10) |}.

Definition some_clicks : list gesture :=
  [NextClicked; PageClicked (num_of_Z 10); NextClicked; PreviousClicked; SizeChosen (size_string (num_of_Z 20))].

Lemma pager_refines_witness : ∃ l, pager_run (mount_pager page_two 95) some_clicks = Ok l ∧
  page_of (l_parent l) = num_of_nat 1 ∧ size_of (l_parent l) = num_of_nat 20.
Proof.
  destruct (pager_refines page_two 2 10 95 some_clicks) as (l & Hr & _ & Hp & Hs & _).
  - reflexivity.
  - reflexivity.
  - reflexivity.
  - repeat constructor.
  - exists l. split; [exact Hr|]. split; (etransitivity; [eassumption|]; f_equal; vm_compute; reflexivity).
Defined.

(** The tables of the administration keep the page when the size changes: the
    fourth page of 35 users, ten to a page, becomes the fourth of one. *)
Lemma table_page_beyond : ∃ l,
  pager_run (mount_pager {| pageIndex := num_of_Z 3; table_pageSize := num_of_Z 10 |} 35)
    [SizeChosen (size_string (num_of_Z 50))] = Ok l ∧
  currentPage (l_pager l) = num_of_Z 4 ∧ p_current (l_parent l) = num_of_Z 4 ∧ render_pages l = Ok [num_of_Z 1].
Proof.
  eexists. split; [vm_compute; reflexivity|].
  split; [|split]; apply (bool_decide_unpack _); vm_compute; exact I.
Qed.

(** A negative size in the URL makes the row throw, and a fractional page is
    surrounded by fractional pages. *)
Lemma negative_size_throws page :
  shown_pages (mount_pager {| url_page := page; url_size := Some (num_of_Z (-10)) |} 95) = Throw.
Proof. reflexivity. Qed.

Lemma fractional_page_row :
  shown_pages (mount_pager {| url_page := Some (num_of_string "7.5"); url_size := Some (num_of_Z 10) |} 195) =
  Ok ([num_of_Z 1; num_of_Z (-1)] ++ map num_of_string ["5.5"; "6.5"; "7.5"; "8.5"; "9.5"] ++ [num_of_Z (-1); num_of_Z 20]).
Proof. apply (bool_decide_unpack _). vm_compute. exact I. Qed.
