(* ===== verification/MultiSelect.v ===== *)
(** * The select with several values

    components/ui/multi-select.tsx.  The component keeps a selection of its
    own; every change of it is reported with onValueChange, and two effects
    fill an empty selection from the [value] or the [defaultValue] it is
    given.  Options may be disabled, and are in groups or not. *)
From S2P Require Import Prelude.
Open Scope list_scope.
Open Scope nat_scope.
Open Scope js_scope.

(** ** Options and properties *)
Record select_option := { o_value : string; o_disabled : bool }.

Inductive option_entry :=
  | Single (o : select_option)
  | Group (options : list select_option).

(** [value] may be absent; [defaultValue] is empty when absent. *)
Record multi_props := {
  m_options : list option_entry;
  m_value : option (list string);
  m_defaultValue : list string;
  m_maxCount : nat;
  m_showSelectAll : bool
}.

Definition flatOptions (p : multi_props) : list select_option :=
  concat (map (λ e, match e with Group os => os | Single o => [o] end) (m_options p)).

Definition is_group (e : option_entry) : bool := match e with Group _ => true | Single _ => false end.

(** The options that are listed: all of them unless groups and options are
    mixed. *)
Definition listedOptions (p : multi_props) : list select_option :=
  if js_some is_group (m_options p) && negb (js_every is_group (m_options p)) then [] else flatOptions p.

Definition disabledValues (p : multi_props) : list string :=
  map o_value (js_filter o_disabled (flatOptions p)).

Definition canRemoveValue (p : multi_props) (v : string) : bool := negb (js_includes (disabledValues p) v).

(** [Array.from(new Set(values))] *)
Definition distinct (vs : list string) : list string := push_all [] vs.

(** ** The selection *)
Definition preserveDisabledValues (p : multi_props) (selected values : list string) : list string :=
  distinct (js_filter (λ v, js_includes (disabledValues p) v) selected ++ values).

(** The key Backspace in an empty search text: the last value that can be
    removed goes; [None] when there is none. *)
Definition backspace (p : multi_props) (selected : list string) : option (list string) :=
  match js_findIndex (canRemoveValue p) (reverse selected) with
  | None => None
  | Some removableIndex =>
      let i := length selected - 1 - removableIndex in
      Some (take i selected ++ drop (S i) selected)
  end.

Definition toggleOption (p : multi_props) (v : string) (selected : list string) : option (list string) :=
  if js_includes (disabledValues p) v then None
  else Some (if js_includes selected v then js_filter (λ value, value !== v) selected
             else selected ++ [v]).

Definition handleClear (p : multi_props) (selected : list string) : list string :=
  preserveDisabledValues p selected [].

Definition clearExtraOptions (p : multi_props) (selected : list string) : list string :=
  preserveDisabledValues p selected (take (m_maxCount p) selected).

Definition toggleAll (p : multi_props) (selected : list string) : list string :=
  if length selected === length (flatOptions p) then handleClear p selected
  else preserveDisabledValues p selected (map o_value (flatOptions p)).

(** The two effects, until neither changes the selection: what an empty
    selection becomes is not empty, so the first that applies is the last. *)
Definition fill (p : multi_props) (selected : list string) : list string :=
  match selected with
  | [] => match m_value p with
          | Some (v :: vs) => v :: vs
          | _ => m_defaultValue p
          end
  | _ => selected
  end.

(** ** The component in a form

    The parent's field takes what is reported, and is passed back in one of
    the ways the forms of the program do. *)
Inductive usage := AsValue | AsDefault | AsBoth.

(** What stays while the form is open. *)
Record select_setting := {
  usage_of : usage;
  st_options : list option_entry;
  st_maxCount : nat;
  st_showSelectAll : bool
}.

Definition field_props (c : select_setting) (field : list string) : multi_props :=
  {| m_options := st_options c;
     m_value := match usage_of c with AsDefault => None | _ => Some field end;
     m_defaultValue := match usage_of c with AsValue => [] | _ => field end;
     m_maxCount := st_maxCount c;
     m_showSelectAll := st_showSelectAll c |}.

(** [reports] are the calls of onValueChange. *)
Record multi := {
  selectedValues : list string;
  isPopoverOpen : bool;
  field : list string;
  reports : list (list string)
}.

(** [setSelectedValues] and [onValueChange] with the same values; then the
    component is rendered with the field that took them. *)
Definition report (c : select_setting) (m : multi) (values : list string) : multi :=
  {| selectedValues := fill (field_props c values) values;
     isPopoverOpen := isPopoverOpen m; field := values; reports := reports m ++ [values] |}.

Definition with_open (o : bool) (m : multi) : multi :=
  {| selectedValues := selectedValues m; isPopoverOpen := o; field := field m; reports := reports m |}.

Definition report_if (c : select_setting) (m : multi) (values : option (list string)) : multi :=
  match values with Some vs => report c m vs | None => m end.

Definition handleInputKeyDown (c : select_setting) (key text : string) (m : multi) : multi :=
  if key === "Enter" then with_open true m
  else if (key === "Backspace") && (text === "")
  then report_if c m (backspace (field_props c (field m)) (selectedValues m))
  else m.

Inductive multi_event :=
  | Key (key text : string)
  | OptionSelected (i : nat)
  | BadgeRemoved (v : string)
  | ExtraCleared
  | Cleared
  | AllToggled
  | PopoverToggled
  | PopoverSet (open : bool)
  | FieldSet (values : list string).

#[export] Instance multi_event_eq_dec : EqDecision multi_event.
Proof. solve_decision. Defined.

(** What is not shown cannot be clicked: the options listed, the crosses of
    the first badges that can be removed, the badge of the others, the buttons
    of a selection that is not empty.  [FieldSet] is the form setting the field
    by itself. *)
Definition multi_step (c : select_setting) (m : multi) (e : multi_event) : multi :=
  let p := field_props c (field m) in
  let selected := selectedValues m in
  match e with
  | Key key text => if bool_decide (0 < length (m_options p)) then handleInputKeyDown c key text m else m
  | OptionSelected i =>
      match listedOptions p !! i with
      | Some o => if o_disabled o then m else report_if c m (toggleOption p (o_value o) selected)
      | None => m
      end
  | BadgeRemoved v =>
      if js_includes (take (m_maxCount p) selected) v && canRemoveValue p v
      then report_if c m (toggleOption p v selected) else m
  | ExtraCleared =>
      if bool_decide (m_maxCount p < length selected) then report c m (clearExtraOptions p selected) else m
  | Cleared => if bool_decide (0 < length selected) then report c m (handleClear p selected) else m
  | AllToggled =>
      if m_showSelectAll p && bool_decide (0 < length (m_options p)) then report c m (toggleAll p selected) else m
  | PopoverToggled => with_open (negb (isPopoverOpen m)) m
  | PopoverSet o => with_open o m
  | FieldSet values =>
      {| selectedValues := fill (field_props c values) selected;
         isPopoverOpen := isPopoverOpen m; field := values; reports := reports m |}
  end.

(** The state starts as the default value; then the effects run. *)
Definition multi_mount (c : select_setting) (values : list string) : multi :=
  let p := field_props c values in
  {| selectedValues := fill p (m_defaultValue p); isPopoverOpen := false; field := values; reports := [] |}.

Definition multi_run (c : select_setting) (m : multi) (es : list multi_event) : multi := foldl (multi_step c) m es.

(** ** The operations *)
Definition disabled_value (c : select_setting) (v : string) : Prop := v ∈ disabledValues (field_props c []).

Definition offered_value (c : select_setting) (v : string) : Prop := v ∈ map o_value (flatOptions (field_props c [])).

Lemma disabledValues_props c field : disabledValues (field_props c field) = disabledValues (field_props c []).
Proof. done. Qed.

Lemma canRemove_true c fld v : canRemoveValue (field_props c fld) v = true ↔ ¬ disabled_value c v.
Proof. unfold canRemoveValue, js_includes. rewrite negb_true_iff, bool_decide_eq_false. done. Qed.

Lemma elem_of_distinct vs v : v ∈ distinct vs ↔ v ∈ vs.
Proof. unfold distinct. rewrite elem_of_push_all. set_solver. Qed.

Lemma NoDup_distinct vs : NoDup (distinct vs).
Proof. apply NoDup_push_all, NoDup_nil_2. Qed.

Lemma elem_of_preserve c fld sel vs v :
  v ∈ preserveDisabledValues (field_props c fld) sel vs ↔ (disabled_value c v ∧ v ∈ sel) ∨ v ∈ vs.
Proof.
  unfold preserveDisabledValues. rewrite elem_of_distinct, elem_of_app, elem_of_js_filter.
  unfold js_includes. by rewrite bool_decide_eq_true.
Qed.

(** Backspace removes the last value that can be removed. *)
Lemma backspace_Some p sel vs : backspace p sel = Some vs →
  ∃ l1 v l2, sel = l1 ++ v :: l2 ∧ canRemoveValue p v = true ∧ (∀ w, w ∈ l2 → canRemoveValue p w = false) ∧
    vs = l1 ++ l2.
Proof.
  unfold backspace. destruct (js_findIndex _ _) as [i|] eqn:E; [|done]. intros [= <-].
  apply js_findIndex_Some in E as [(v & Hv & Hr) Hbefore].
  apply reverse_lookup_Some in Hv as [Hv Hi].
  replace (length sel - S i) with (length sel - 1 - i) in Hv by lia.
  set (k := length sel - 1 - i) in *.
  exists (take k sel), v, (drop (S k) sel). repeat split; [by rewrite take_drop_middle|done|].
  intros w [j Hj]%list_elem_of_lookup. rewrite lookup_drop in Hj.
  pose proof (lookup_lt_Some _ _ _ Hj). apply (Hbefore (length sel - S (S k + j))); [lia|].
  rewrite reverse_lookup by lia. by replace (length sel - S (length sel - S (S k + j))) with (S k + j) by lia.
Qed.

(** Selecting an option and clicking it again leaves the selection as it was. *)
Lemma toggle_twice p v sel sel' : v ∉ sel → toggleOption p v sel = Some sel' → toggleOption p v sel' = Some sel.
Proof.
  intros Hv. unfold toggleOption, js_includes. destruct (bool_decide (v ∈ disabledValues p)); [done|].
  rewrite (bool_decide_false (v ∈ sel)) by done. intros [= <-]. rewrite bool_decide_true by set_solver.
  rewrite js_filter_app, js_filter_all, js_filter_none.
  - by rewrite app_nil_r.
  - intros w ->%list_elem_of_singleton. by rewrite bool_decide_true.
  - intros w Hw. rewrite bool_decide_false; [done|]. by intros ->.
Qed.

(** What an operation may do to a selection: no value twice, disabled values
    stay, and what is new is offered; without the option that selects all no
    disabled value is new, and at most one value. *)
Record changed_well (c : select_setting) (sel vs : list string) : Prop := {
  cw_nodup : NoDup sel → NoDup vs;
  cw_kept v : disabled_value c v → v ∈ sel → v ∈ vs;
  cw_new v : v ∈ vs → v ∈ sel ∨ offered_value c v
}.

Definition one_new (c : select_setting) (sel vs : list string) : Prop :=
  (∀ v, disabled_value c v → v ∈ vs → v ∈ sel) ∧ ∃ v0, ∀ v, v ∈ vs → v ∈ sel ∨ v = v0.

Lemma preserve_changed c fld sel vs : (∀ v, v ∈ vs → v ∈ sel ∨ offered_value c v) →
  changed_well c sel (preserveDisabledValues (field_props c fld) sel vs).
Proof.
  intros Hvs. split.
  - intros _. apply NoDup_distinct.
  - intros v Hd Hv. rewrite elem_of_preserve. auto.
  - intros v [[_ Hv]|Hv]%elem_of_preserve; auto.
Qed.

Lemma backspace_changed c fld sel vs : backspace (field_props c fld) sel = Some vs →
  changed_well c sel vs ∧ one_new c sel vs.
Proof.
  intros (l1 & v & l2 & -> & Hv & _ & ->)%backspace_Some. apply canRemove_true in Hv. split; [split|].
  - rewrite !NoDup_app. setoid_rewrite NoDup_cons. set_solver.
  - set_solver.
  - set_solver.
  - split; [intros w; set_solver|]. exists v. set_solver.
Qed.

Lemma toggle_changed c fld v sel vs : toggleOption (field_props c fld) v sel = Some vs →
  v ∈ sel ∨ offered_value c v → changed_well c sel vs ∧ one_new c sel vs.
Proof.
  unfold toggleOption, js_includes. rewrite disabledValues_props.
  case_bool_decide as Hd; [done|]. intros [= <-] Hv. case_bool_decide as Hin.
  - split; [split|].
    + apply NoDup_js_filter.
    + intros w Hw Hs. apply elem_of_js_filter. split; [|done]. rewrite bool_decide_false; [done|]. by intros ->.
    + intros w [_ Hw]%elem_of_js_filter. auto.
    + split; [|exists v; intros w [_ Hw]%elem_of_js_filter; by left].
      intros w _ [_ Hw]%elem_of_js_filter. done.
  - split; [split|].
    + intros Hn. apply NoDup_app. split; [done|]. split; [set_solver|]. apply NoDup_singleton.
    + set_solver.
    + intros w [Hw| ->%list_elem_of_singleton]%elem_of_app; [auto|]. destruct Hv; auto.
    + split; [|exists v; set_solver]. intros w Hw [Hs| ->%list_elem_of_singleton]%elem_of_app; done.
Qed.

Lemma clear_changed c fld sel : changed_well c sel (handleClear (field_props c fld) sel) ∧
  one_new c sel (handleClear (field_props c fld) sel).
Proof.
  split; [apply preserve_changed; set_solver|]. unfold one_new, handleClear. setoid_rewrite elem_of_preserve.
  split; [set_solver|]. exists "". set_solver.
Qed.

Lemma extra_changed c fld sel : changed_well c sel (clearExtraOptions (field_props c fld) sel) ∧
  one_new c sel (clearExtraOptions (field_props c fld) sel).
Proof.
  assert (∀ v, v ∈ take (m_maxCount (field_props c fld)) sel → v ∈ sel) as Ht by (intros v (? & ? & _)%elem_of_take; by eapply list_elem_of_lookup_2).
  split; [apply preserve_changed; auto|]. unfold one_new, clearExtraOptions. setoid_rewrite elem_of_preserve.
  split; [naive_solver|]. exists "". naive_solver.
Qed.

Lemma all_changed c fld sel : changed_well c sel (toggleAll (field_props c fld) sel).
Proof.
  unfold toggleAll. case_bool_decide; [apply clear_changed|]. apply preserve_changed. intros v Hv. by right.
Qed.

(** ** In a form *)
Definition user_event (e : multi_event) : Prop := match e with FieldSet _ => False | _ => True end.

Definition not_all (e : multi_event) : Prop := match e with AllToggled => False | _ => True end.

(** What a step does: nothing to the selection, or one report. *)
Inductive step_result (c : select_setting) (m : multi) (several_new : Prop) : multi → Prop :=
  | SameSelection o : step_result c m several_new (with_open o m)
  | Reported vs :
      changed_well c (selectedValues m) vs → several_new ∨ one_new c (selectedValues m) vs →
      step_result c m several_new (report c m vs).

Lemma with_open_same m : with_open (isPopoverOpen m) m = m.
Proof. by destruct m. Qed.

Lemma same_result c m nd : step_result c m nd m.
Proof. rewrite <-(with_open_same m) at 2. constructor. Qed.

Lemma step_result_weaken c m (P Q : Prop) m' : (P → Q) → step_result c m P m' → step_result c m Q m'.
Proof. intros HPQ []; constructor; naive_solver. Qed.

Lemma listed_offered c fld i o : listedOptions (field_props c fld) !! i = Some o → offered_value c (o_value o).
Proof.
  unfold listedOptions. destruct (_ && _); [done|]. intros Ho%list_elem_of_lookup_2.
  unfold offered_value. apply list_elem_of_fmap. by exists o.
Qed.

Lemma report_if_result c m nd vs :
  (∀ l, vs = Some l → changed_well c (selectedValues m) l ∧ one_new c (selectedValues m) l) →
  step_result c m nd (report_if c m vs).
Proof.
  intros Hvs. destruct vs as [l|]; [|apply same_result]. destruct (Hvs l eq_refl). constructor; auto.
Qed.

Lemma multi_step_result c m e : user_event e →
  step_result c m (¬ not_all e) (multi_step c m e).
Proof.
  intros He. destruct e; cbn [multi_step not_all]; try done.
  - case_bool_decide; [|apply same_result]. unfold handleInputKeyDown.
    destruct (key === "Enter"); [constructor|]. destruct (_ && _); [|apply same_result].
    apply report_if_result. intros l. apply backspace_changed.
  - destruct (listedOptions _ !! i) as [o|] eqn:Ho; [|apply same_result].
    destruct (o_disabled o); [apply same_result|]. apply report_if_result. intros l Hl.
    eapply toggle_changed; [done|]. right. by eapply listed_offered.
  - destruct (_ && _) eqn:E; [|apply same_result]. apply andb_true_iff in E as [Hin _].
    apply report_if_result. intros l Hl. eapply toggle_changed; [done|]. left.
    apply bool_decide_eq_true, elem_of_take in Hin as (? & ? & _). by eapply list_elem_of_lookup_2.
  - case_bool_decide; [|apply same_result]. constructor; [|right]; apply extra_changed.
  - case_bool_decide; [|apply same_result]. constructor; [|right]; apply clear_changed.
  - destruct (_ && _); [|apply same_result]. constructor; [apply all_changed|]. left. by intros [].
  - constructor.
  - constructor.
Qed.

(** Without the option that selects all, no step adds more than a value. *)
Lemma multi_step_single c m e : st_showSelectAll c = false → user_event e →
  step_result c m False (multi_step c m e).
Proof.
  intros Hc He. destruct (decide (e = AllToggled)) as [->|Hne].
  - cbn [multi_step field_props m_showSelectAll]. rewrite Hc. apply same_result.
  - eapply step_result_weaken; [|by apply multi_step_result]. by destruct e.
Qed.

Lemma fill_field c vs : fill (field_props c vs) vs = vs.
Proof. destruct vs; [|done]. unfold field_props. by destruct (usage_of c). Qed.

Lemma multi_run_snoc c m es e : multi_run c m (es ++ [e]) = multi_step c (multi_run c m es) e.
Proof. unfold multi_run. by rewrite foldl_app. Qed.

Lemma mount_selected c values : selectedValues (multi_mount c values) = values.
Proof. unfold multi_mount, field_props. destruct (usage_of c), values; done. Qed.

(** In a form, whatever the user does: the selection shown is the value
    of the field, which is the last one reported; no value is in it twice; a
    disabled value that was selected stays; every value is one of the field's
    first value or an option; and unless all are selected at once, no disabled
    value is ever added. *)
Theorem multi_in_form (c : select_setting) (values : list string) (es : list multi_event) :
  NoDup values → Forall user_event es →
  let m := multi_run c (multi_mount c values) es in
  selectedValues m = field m ∧ field m = List.last (reports m) values ∧ NoDup (field m) ∧
  (∀ v, disabled_value c v → v ∈ values → v ∈ field m) ∧
  (∀ v, v ∈ field m → v ∈ values ∨ offered_value c v) ∧
  (Forall not_all es → ∀ v, disabled_value c v → v ∈ field m → v ∈ values).
Proof.
  intros Hn Hes. induction es as [|e es IH] using rev_ind.
  { change (multi_run c (multi_mount c values) []) with (multi_mount c values). cbn zeta. rewrite mount_selected.
    cbn [multi_mount field reports List.last]. naive_solver. }
  apply Forall_app in Hes as [Hes [He _]%Forall_cons]. specialize (IH Hes).
  rewrite multi_run_snoc. cbn zeta in *. destruct IH as (Hsel & Hlast & Hnd & Hkept & Hnew & Hdis).
  pose proof (multi_step_result c (multi_run c (multi_mount c values) es) e He) as Hr.
  set (m := multi_run c (multi_mount c values) es) in *. clearbody m.
  destruct Hr as [o|vs [Hcn Hck Hcw] Hall]; cbn [with_open report selectedValues field reports].
  - repeat split; try done. intros [Hno _]%Forall_app. auto.
  - rewrite fill_field, last_last. rewrite Hsel in *. repeat split; try done; [auto|auto| |].
    + intros v [Hv|Hv]%Hcw; auto.
    + intros [Hno [Hne _]%Forall_cons]%Forall_app v Hd Hv. apply (Hdis Hno v Hd).
      destruct Hall as [Hall|Hall]; [done|]. by apply Hall.
Qed.

Definition example_select : select_setting :=
  {| usage_of := AsBoth;
     st_options := [Single {| o_value := "a"; o_disabled := false |}; Single {| o_value := "b"; o_disabled := true |};
                    Single {| o_value := "c"; o_disabled := false |}];
     st_maxCount := 2; st_showSelectAll := true |}.

Lemma multi_in_form_witness :
  let m := multi_run example_select (multi_mount example_select ["b"; "a"])
             [OptionSelected 2; Key "Backspace" ""; Cleared; OptionSelected 1; OptionSelected 2] in
  field m = ["b"; "c"] ∧ selectedValues m = field m ∧ NoDup (field m).
Proof.
  cbn zeta. split; [vm_compute; reflexivity|].
  assert (NoDup ["b"; "a"]) as Hn by (apply (bool_decide_unpack _); vm_compute; exact I).
  destruct (multi_in_form example_select ["b"; "a"]
    [OptionSelected 2; Key "Backspace" ""; Cleared; OptionSelected 1; OptionSelected 2] Hn) as (H1 & _ & H2 & _).
  - repeat constructor.
  - split; [exact H1|exact H2].
Defined.

(** Selecting all selects the disabled options too, and nothing the user does
    takes them away again. *)
Lemma all_selects_disabled es : Forall user_event es →
  "b" ∈ field (multi_run example_select (multi_mount example_select ["a"]) (AllToggled :: es)).
Proof.
  intros Hes.
  assert (∀ m, "b" ∈ selectedValues m → selectedValues m = field m →
    "b" ∈ field (multi_run example_select m es)) as Hrun.
  { induction Hes as [|e es He _ IH]; intros m Hb Hm; [cbn; by rewrite <-Hm|]. cbn.
    destruct (multi_step_result example_select m e He) as [o|vs [_ Hk _] _]; apply IH; try done.
    - cbn [report selectedValues]. rewrite fill_field. apply Hk; [|done].
      unfold disabled_value. apply (bool_decide_unpack _). vm_compute. exact I.
    - cbn [report selectedValues field]. by rewrite fill_field. }
  apply Hrun; [|reflexivity]. apply (bool_decide_unpack _). vm_compute. exact I.
Qed.

(** A field that is set by the form is not shown while something is selected. *)
Lemma field_set_ignored : 
  let m := multi_run example_select (multi_mount example_select ["a"]) [FieldSet ["c"]] in
  selectedValues m = ["a"] ∧ field m = ["c"].
Proof. vm_compute. done. Qed.
