(* ===== verification/DatasetSelect.v ===== *)
(** * The datasets of a chat

    components/knowledge-base-item.tsx: the field [kb_ids] of a chat and of a
    retrieval operator, a select with several values ([MultiSelect]) whose
    options are disabled when their embedding model is not that of the first
    dataset selected (useDisableDifferenceEmbeddingDataset); the settings of a
    search (pages/next-search/search-setting.tsx) have the same handler. *)
From S2P Require Import Prelude JsValue MultiSelect.
Open Scope list_scope.
Open Scope nat_scope.
Open Scope js_scope.

Record dataset := { ds_id : string; ds_embd : string; ds_parser : string }.

(** [DocumentParserType.Tag] *)
Definition TagParser : string := "tag".

(** The effect that fills [datasetOptions]. *)
Definition datasetOptions (origin : list dataset) (datasetSelectEmbedId : string) : list select_option :=
  map (λ item, {| o_value := ds_id item;
                  o_disabled := (ds_embd item !== datasetSelectEmbedId) && (datasetSelectEmbedId !== "") |})
    (js_filter (λ x, ds_parser x !== TagParser) origin).

Definition new_embed_id (origin : list dataset) (value : list string) : string :=
  match value with
  | [] => ""
  | v :: _ => match js_find (λ item, ds_id item === v) origin with Some data => ds_embd data | None => "" end
  end.

(** The variables of an operator, in groups, with their types. *)
Definition variable_groups (groups : list (list (string * string))) : list option_entry :=
  map (λ g, Group (map (λ v : string * string, {| o_value := v.1; o_disabled := false |})
                     (js_filter (λ v : string * string, str_includes "string" (to_lower v.2)) g))) groups.

(** [variables] is there with [showVariable]. *)
Definition knowledge_options (variables : option (list (list (string * string)))) (knowledgeOptions : list select_option)
    : list option_entry :=
  match variables with
  | Some groups => Group knowledgeOptions :: variable_groups groups
  | None => map Single knowledgeOptions
  end.

Record kb_field := { kb_multi : multi; datasetSelectEmbedId : string }.

Section field.
Context (origin : list dataset) (variables : option (list (list (string * string)))).

(** [{...field}] passes the value, beside [defaultValue={field.value}]. *)
Definition kb_setting (embedId : string) : select_setting :=
  {| usage_of := AsBoth;
     st_options := knowledge_options variables (datasetOptions origin embedId);
     st_maxCount := 100; st_showSelectAll := false |}.

(** Each report goes through [handleDatasetSelectChange]. *)
Definition handleDatasetSelectChange (embedId : string) (reported : list (list string)) : string :=
  foldl (λ _ value, new_embed_id origin value) embedId reported.

Definition kb_step (k : kb_field) (e : multi_event) : kb_field :=
  let m := multi_step (kb_setting (datasetSelectEmbedId k)) (kb_multi k) e in
  {| kb_multi := m;
     datasetSelectEmbedId :=
       handleDatasetSelectChange (datasetSelectEmbedId k) (drop (length (reports (kb_multi k))) (reports m)) |}.

Definition kb_mount (values : list string) : kb_field :=
  {| kb_multi := multi_mount (kb_setting "") values; datasetSelectEmbedId := "" |}.

Definition kb_run (k : kb_field) (es : list multi_event) : kb_field := foldl kb_step k es.
End field.

(** ** One embedding model *)
Section one_model.
Context (origin : list dataset).

(** A dataset that can be selected beside those selected before it. *)
Definition selectable (embedId v : string) : Prop :=
  ∃ d, d ∈ origin ∧ ds_id d = v ∧ ds_parser d ≠ TagParser ∧ ds_embd d = embedId.

Definition kb_inv (k : kb_field) : Prop :=
  selectedValues (kb_multi k) = field (kb_multi k) ∧
  datasetSelectEmbedId k = new_embed_id origin (field (kb_multi k)) ∧
  ∀ v, v ∈ field (kb_multi k) → selectable (datasetSelectEmbedId k) v.

Lemma flat_singles (embedId : string) fld :
  flatOptions (field_props (kb_setting origin None embedId) fld) = datasetOptions origin embedId.
Proof.
  unfold flatOptions. cbn. induction (datasetOptions origin embedId) as [|o os IH]; [done|]. cbn. by rewrite IH.
Qed.

Lemma offered_dataset embedId v : offered_value (kb_setting origin None embedId) v →
  ∃ d, d ∈ origin ∧ ds_id d = v ∧ ds_parser d ≠ TagParser.
Proof.
  unfold offered_value. rewrite flat_singles. unfold datasetOptions. rewrite map_map.
  intros (d & -> & [Hp Hd]%elem_of_js_filter)%list_elem_of_fmap. exists d. reflect_bool. done.
Qed.

Lemma disabled_dataset embedId v :
  disabled_value (kb_setting origin None embedId) v ↔
  ∃ d, d ∈ origin ∧ ds_id d = v ∧ ds_parser d ≠ TagParser ∧ ds_embd d ≠ embedId ∧ embedId ≠ "".
Proof.
  unfold disabled_value, disabledValues. rewrite flat_singles, list_elem_of_fmap.
  setoid_rewrite elem_of_js_filter. unfold datasetOptions. setoid_rewrite list_elem_of_fmap. split.
  - intros (o & -> & Ho & d & -> & Hd). apply elem_of_js_filter in Hd as [Hp Hd]. cbn in Ho. reflect_bool.
    by exists d.
  - intros (d & Hd & <- & Hp & He & Hne). eexists. split; [|split; [|exists d; split; [done|]]]; cbn; [done| |].
    + by rewrite !bool_decide_false.
    + apply elem_of_js_filter. by rewrite bool_decide_false.
Qed.

Context (ids : NoDup (map ds_id origin)) (models : ∀ d, d ∈ origin → ds_embd d ≠ "").

Lemma find_dataset d : d ∈ origin → js_find (λ item, ds_id item === ds_id d) origin = Some d.
Proof.
  intros Hd. destruct (js_find_is_Some (λ item, ds_id item === ds_id d) origin d Hd) as [d' Hd']; [by apply bool_decide_true|].
  rewrite Hd'. apply js_find_Some in Hd' as [Hin He]. apply bool_decide_eq_true in He. f_equal.
  revert Hin Hd He. clear -ids.
  induction origin as [|x l IH]; [set_solver|]. cbn in ids. apply NoDup_cons in ids as [Hx Hl].
  intros [->|Hin]%elem_of_cons [->|Hd]%elem_of_cons He; try done.
  - destruct Hx. rewrite He. by apply list_elem_of_fmap_2.
  - destruct Hx. rewrite <-He. by apply list_elem_of_fmap_2.
  - by apply IH.
Qed.

Lemma embed_of_selectable embedId v vs : selectable embedId v → new_embed_id origin (v :: vs) = embedId.
Proof. intros (d & Hd & <- & _ & <-). cbn. by rewrite find_dataset. Qed.

Lemma reported_selectable embedId sel vs :
  (∀ v, v ∈ sel → selectable embedId v) →
  changed_well (kb_setting origin None embedId) sel vs → one_new (kb_setting origin None embedId) sel vs →
  ∀ v, v ∈ vs → selectable (new_embed_id origin vs) v.
Proof.
  intros Hsel [_ _ Hnew] [Hdis [v0 Hone]].
  destruct (decide (embedId = "")) as [->|Hne].
  - assert (∀ v, v ∉ sel) as Hno.
    { intros v (d & Hd & _ & _ & He)%Hsel. by apply (models d Hd). }
    assert (∀ v, v ∈ vs → v = v0 ∧ ∃ e, selectable e v0) as Hv0.
    { intros v Hv. destruct (Hone v Hv) as [Hs| ->]; [by destruct (Hno v)|]. split; [done|].
      destruct (Hnew v0 Hv) as [Hs|(d & Hd & Hid & Hp)%offered_dataset]; [by destruct (Hno v0)|].
      exists (ds_embd d), d. done. }
    intros v Hv. destruct (Hv0 v Hv) as [-> [e He]]. destruct vs as [|w vs']; [set_solver|].
    destruct (Hv0 w) as [-> _]; [set_solver|]. by rewrite (embed_of_selectable e).
  - assert (∀ v, v ∈ vs → selectable embedId v) as Hall.
    { intros v Hv. destruct (decide (v ∈ sel)) as [Hs|Hs]; [by apply Hsel|].
      destruct (Hnew v Hv) as [|(d & Hd & Hid & Hp)%offered_dataset]; [done|].
      exists d. repeat split; try done. destruct (decide (ds_embd d = embedId)) as [|He]; [done|].
      destruct Hs. apply Hdis; [|done]. apply disabled_dataset. by exists d. }
    intros v Hv. destruct vs as [|w vs']; [set_solver|]. rewrite (embed_of_selectable embedId); [by apply Hall|].
    apply Hall. set_solver.
Qed.

Lemma drop_reports (l l' : list (list string)) : drop (length l) (l ++ l') = l'.
Proof. by rewrite drop_app_length. Qed.

Lemma kb_step_inv k e : user_event e → kb_inv k → kb_inv (kb_step origin None k e).
Proof.
  intros He (Hsel & Hemb & Hall). unfold kb_step.
  set (c := kb_setting origin None (datasetSelectEmbedId k)).
  assert (step_result c (kb_multi k) False (multi_step c (kb_multi k) e)) as Hr.
  { by apply multi_step_single. }
  destruct Hr as [o|vs Hc [[]|Ho]].
  - cbn [with_open reports]. rewrite drop_all. unfold kb_inv. cbn. done.
  - cbn [report reports]. rewrite drop_reports. rewrite Hsel in Hc, Ho.
    unfold kb_inv. cbn [kb_multi datasetSelectEmbedId report selectedValues field handleDatasetSelectChange foldl].
    rewrite fill_field. split; [done|]. split; [done|].
    by apply (reported_selectable (datasetSelectEmbedId k) (field (kb_multi k))).
Qed.
End one_model.

(** C34: For datasets with distinct identifiers and an embedding model each,
    in a field that offers no variables and starts empty: whatever the user
    clicks, all datasets selected have one embedding model, the one the
    options are compared with, none of them is a tag set, and each can be
    taken away again. *)
Theorem datasets_one_model (origin : list dataset) (es : list multi_event) :
  NoDup (map ds_id origin) → (∀ d, d ∈ origin → ds_embd d ≠ "") → Forall user_event es →
  let k := kb_run origin None (kb_mount origin None []) es in
  selectedValues (kb_multi k) = field (kb_multi k) ∧
  ∀ v, v ∈ field (kb_multi k) →
    selectable origin (datasetSelectEmbedId k) v ∧
    canRemoveValue (field_props (kb_setting origin None (datasetSelectEmbedId k)) (field (kb_multi k))) v = true.
Proof.
  intros Hids Hmodels Hes.
  assert (∀ k, kb_inv origin k → kb_inv origin (kb_run origin None k es)) as Hrun.
  { induction Hes as [|e es He _ IH]; intros k Hk; [done|]. apply IH. by apply kb_step_inv. }
  assert (kb_inv origin (kb_mount origin None [])) as H0 by (split; [done|split; [done|set_solver]]).
  destruct (Hrun _ H0) as (Hsel & _ & Hall). cbn zeta.
  set (k := kb_run _ _ _ es) in *. clearbody k. split; [done|]. intros v Hv.
  pose proof (Hall v Hv) as Hs. split; [done|]. apply canRemove_true. rewrite disabled_dataset.
  intros (d & Hd & Hid & _ & Hne & _). destruct Hs as (d' & Hd' & Hid' & _ & He'). apply Hne.
  rewrite <-He'. f_equal. assert (Some d = Some d') as [= ->]; [|done].
  rewrite <-(find_dataset origin Hids d Hd), <-(find_dataset origin Hids d' Hd'). by rewrite Hid, Hid'.
Qed.

Definition three_datasets : list dataset :=
  [{| ds_id := "1"; ds_embd := "bge"; ds_parser := "naive" |};
   {| ds_id := "2"; ds_embd := "e5"; ds_parser := "naive" |};
   {| ds_id := "3"; ds_embd := "bge"; ds_parser := "qa" |}].

Lemma datasets_one_model_witness :
  let k := kb_run three_datasets None (kb_mount three_datasets None [])
             [OptionSelected 0; OptionSelected 1; OptionSelected 2] in
  field (kb_multi k) = ["1"; "3"] ∧
  ∀ v, v ∈ field (kb_multi k) → selectable three_datasets (datasetSelectEmbedId k) v.
Proof.
  cbn zeta. split; [vm_compute; reflexivity|]. intros v Hv.
  refine (proj1 (proj2 (datasets_one_model three_datasets [OptionSelected 0; OptionSelected 1; OptionSelected 2] _ _ _) v Hv)).
  - apply (bool_decide_unpack _). vm_compute. exact I.
  - intros d Hd. repeat (apply elem_of_cons in Hd as [->|Hd]; [discriminate|]). by apply not_elem_of_nil in Hd.
  - repeat constructor.
Defined.

(** A chat that is opened with a dataset already selected compares with no
    model until the first change: a dataset of another model can be added, and
    cannot be taken away then. *)
Lemma opened_mixes :
  let k := kb_run three_datasets None (kb_mount three_datasets None ["1"]) [OptionSelected 1] in
  field (kb_multi k) = ["1"; "2"] ∧ datasetSelectEmbedId k = "bge" ∧
  canRemoveValue (field_props (kb_setting three_datasets None "bge") (field (kb_multi k))) "2" = false.
Proof. vm_compute. done. Qed.

(** A variable selected first has no model, so nothing is compared. *)
Lemma variable_mixes :
  let vars := Some [[("begin@files", "Array<string>")]] in
  let k := kb_run three_datasets vars (kb_mount three_datasets vars [])
             [OptionSelected 3; OptionSelected 0; OptionSelected 1] in
  field (kb_multi k) = ["begin@files"; "1"; "2"] ∧ datasetSelectEmbedId k = "".
Proof. vm_compute. done. Qed.
