(* ===== verification/RunTimeline.v ===== *)
(** * What a run shows of its nodes

    pages/agent/log-sheet/workflow-timeline.tsx and tool-timeline-item.tsx:
    the rows of the log, one for each node that was started, with the tools an
    agent called; pages/agent/hooks/use-node-loading.ts and
    canvas/node/node-wrapper.tsx: the loading marks on the canvas.  Both read
    the events of a run ([currentEventListWithoutMessage]) in the order they
    arrived. *)
From S2P Require Import Prelude JsValue Graph Libs AddNode.
From Stdlib Require Import Ascii.
Open Scope list_scope.
Open Scope nat_scope.
Open Scope js_scope.

(** ** Events *)
Inductive event_type := NodeStarted | NodeFinished | WorkflowStarted | WorkflowFinished | UserInputs | NodeLogs.

#[export] Instance event_type_eq_dec : EqDecision event_type.
Proof. solve_decision. Defined.

(** An event without its envelope; events that are not about a node have no
    component. *)
Record node_event := {
  ne_event : event_type;
  ne_component_id : option string;
  ne_component_type : string;
  ne_component_name : string;
  ne_error : val;
  ne_elapsed_time : num;
  ne_inputs : val;
  ne_outputs : val
}.

Definition is_type (t : event_type) (x : node_event) : bool := ne_event x === t.

Definition of_node (id : option string) (x : node_event) : bool := ne_component_id x === id.

(** ** The rows of the log *)

(** [if (pre.every(...)) pre.push(cur)] *)
Definition push_started (pre : list node_event) (cur : node_event) : list node_event :=
  if js_every (λ x, ne_component_id x !== ne_component_id cur) pre then pre ++ [cur] else pre.

Definition startedNodeList (es : list node_event) : list node_event :=
  foldl push_started [] (js_filter (is_type NodeStarted) es).

(** [setISStopFetchTrace(finish || !sendLoading)] *)
Definition stop_trace (es : list node_event) (sendLoading : bool) : bool :=
  js_some (is_type WorkflowFinished) es || negb sendLoading.

(** Nothing ([None]) is the empty text; a time of zero is nothing. *)
Definition getElapsedTime (es : list node_event) (nodeId : option string) : option num :=
  if nodeId === Some "begin" then None
  else match js_find (λ x, of_node nodeId x && is_type NodeFinished x) es with
       | None => None
       | Some data =>
           if num_ltb (ne_elapsed_time data) (num_div_Z (num_of_Z 1) 1000000) then None
           else if truthy (VNum (ne_elapsed_time data)) then Some (ne_elapsed_time data) else None
       end.

Definition filterFinishedNodeList (es : list node_event) (componentId : option string) : list node_event :=
  js_filter (λ x, is_type NodeFinished x && of_node componentId x) es.

(** [get(x, field, {})] and then one object, or the list of several. *)
Definition getInputsOrOutputs (values : list val) : val :=
  let vs := map (λ v, if is_undef v then VObj [] else v) values in
  match vs with
  | [] => VObj []
  | [v] => js_or v (VObj [])
  | _ => VArr vs
  end.

Record trace_data := { tr_component_id : string; tr_trace : list val }.

Definition hasTrace (traceData : option (list trace_data)) (componentId : option string) : bool :=
  match traceData with Some l => js_some (λ x, Some (tr_component_id x) === componentId) l | None => false end.

Definition filterTrace (traceData : option (list trace_data)) (componentId : option string) : list val :=
  match traceData with
  | Some l => foldl (λ pre cur, pre ++ tr_trace cur) [] (js_filter (λ x, Some (tr_component_id x) === componentId) l)
  | None => [VObj []]
  end.

(** A row: whether it is marked as finished, whether it turns, its time, the
    colour of its dot, and what was put in and out. *)
Record row := {
  row_id : option string;
  row_name : string;
  row_finished : bool;
  row_spinning : bool;
  row_elapsed : option num;
  row_success : bool;
  row_inputs : val;
  row_outputs : val;
  row_tools : option (list val)
}.

Section timeline.
Context {L : Lodash}.

Definition row_of (es : list node_event) (traceData : option (list trace_data)) (sendLoading : bool)
    (x : node_event) : row :=
  let id := ne_component_id x in
  let nodeDataList := filterFinishedNodeList es id in
  let finishNodeIds := map ne_component_id nodeDataList in
  {| row_id := id;
     row_name := ne_component_name x;
     row_finished := js_includes finishNodeIds id;
     row_spinning := negb (js_includes finishNodeIds id) && sendLoading;
     row_elapsed := getElapsedTime es id;
     row_success := lo_isEmpty (ne_error x);
     row_inputs := getInputsOrOutputs (map ne_inputs nodeDataList);
     row_outputs := getInputsOrOutputs (map ne_outputs nodeDataList);
     row_tools := if hasTrace traceData id then Some (filterTrace traceData id) else None |}.

Definition WorkFlowTimeline (es : list node_event) (traceData : option (list trace_data)) (sendLoading : bool)
    : list row :=
  map (row_of es traceData sendLoading) (startedNodeList es).
End timeline.

(** ** The marks on the canvas *)
Definition lastNode (es : list node_event) : option node_event := last (startedNodeList es).

Definition startNodeIds (es : list node_event) : list (option string) := map ne_component_id (startedNodeList es).

Definition finishNodeIds (es : list node_event) : list (option string) :=
  match lastNode es with
  | None => []
  | Some _ => push_all [] (map ne_component_id (js_filter (is_type NodeFinished) es))
  end.

Definition startButNotFinishedNodeIds (es : list node_event) : list (option string) :=
  js_filter (λ x, negb (js_includes (finishNodeIds es) x)) (startNodeIds es).

(** The frame of a node: it has the mark when it is given an identifier.
    [id && startButNotFinishedNodeIds.indexOf(id) > -1 && currentSendLoading] *)
Definition NodeWrapper (es : list node_event) (currentSendLoading : bool) (id : option string) : bool :=
  match id with
  | Some i => (i !== "") && js_includes (startButNotFinishedNodeIds es) (Some i) && currentSendLoading
  | None => false
  end.

(** How the component of a type of node is built: on the frame with the node's
    identifier, on the frame without it, or not on the frame. *)
Inductive node_frame := FrameWithId | FrameWithoutId | NoFrame.

#[export] Instance node_frame_eq_dec : EqDecision node_frame.
Proof. solve_decision. Defined.

Definition nodeTypes : list (string * node_frame) :=
  [("ragNode", FrameWithId); ("categorizeNode", FrameWithId); ("beginNode", FrameWithId);
   ("placeholderNode", FrameWithoutId); ("noteNode", FrameWithoutId); ("switchNode", FrameWithId);
   ("retrievalNode", FrameWithId); ("messageNode", FrameWithId); ("rewriteNode", NoFrame);
   ("keywordNode", NoFrame); ("group", NoFrame); ("iterationStartNode", FrameWithoutId);
   ("agentNode", FrameWithId); ("toolNode", FrameWithId); ("fileNode", FrameWithId);
   ("parserNode", FrameWithId); ("tokenizerNode", FrameWithId); ("splitterNode", FrameWithId);
   ("contextNode", FrameWithId); ("dataOperationsNode", FrameWithId); ("listOperationsNode", FrameWithId);
   ("variableAssignerNode", FrameWithId); ("variableAggregatorNode", FrameWithId);
   ("loopNode", NoFrame); ("loopStartNode", FrameWithoutId); ("exitLoopNode", FrameWithId)].

(** The mark of a node of the canvas; a type that is not listed is drawn by
    React Flow's own node. *)
Definition node_loading (type : string) (es : list node_event) (currentSendLoading : bool) (id : string) : bool :=
  match js_find (λ kv, kv.1 === type) nodeTypes with
  | Some (_, FrameWithId) => NodeWrapper es currentSendLoading (Some id)
  | Some (_, FrameWithoutId) => NodeWrapper es currentSendLoading None
  | Some (_, NoFrame) | None => false
  end.

(** The events are those of the last message. *)
Definition loading_events (byId : string → list node_event) (derivedMessages : list string) : list node_event :=
  match last derivedMessages with
  | None => []
  | Some id => if id === "" then [] else byId id
  end.

(** ** The tools an agent called *)
Record tool_call := {
  tool_name : string;
  tool_path : string;
  tool_result : val;
  tool_arguments : val
}.

Definition blackList : list string := ["add_memory"; "gen_citations"].

Definition filteredTools (tools : list tool_call) : list tool_call :=
  js_filter (λ t, negb (js_includes blackList (tool_name t))) tools.

Definition capitalize (word : string) : string :=
  match word with
  | "" => ""
  | String c w => String (ascii_upper c) (to_lower w)
  end%string.

Definition capitalizeWords (str : string) (separator : ascii) : list string :=
  if str === "" then [""] else map capitalize (js_split separator str).

(** [str.toLowerCase().replace(/ /g, '').replaceAll(char, '')] *)
Fixpoint without_char (c : ascii) (s : string) : string :=
  match s with
  | "" => ""
  | String a s' => if a === c then without_char c s' else String a (without_char c s')
  end%string.

Definition toLowerCaseStringAndDeleteChar (str : string) (char : ascii) : string :=
  without_char char (without_char " "%char (to_lower str)).

(** The keys of [typeMap]; the texts are the translations'. *)
Definition typeMap : list string :=
  ["begin"; "agent"; "retrieval"; "message"; "awaitResponse"; "switch"; "iteration"; "categorize"; "code";
   "textProcessing"; "tavilySearch"; "tavilyExtract"; "exeSQL"; "google"; "duckDuckGo"; "wikipedia";
   "googleScholar"; "arXiv"; "pubMed"; "gitHub"; "email"; "httpRequest"; "wenCai"; "yahooFinance"; "userFillUp"].

Definition typeMapLowerCase : list string := map (λ k, toLowerCaseStringAndDeleteChar k "_"%char) typeMap.

(** The name of a tool on a shared page: of a known type, or made of the
    words of the tool's name. *)
Inductive shared_name := KnownType (key : string) | AgentName (name : string).

Definition changeToolName (toolName : string) : string :=
  "Agent " +:+ String.concat " " (capitalizeWords toolName "_"%char).

Definition shared_tool_name (name : string) : shared_name :=
  let key := toLowerCaseStringAndDeleteChar name "_"%char in
  if js_includes typeMap key then KnownType key else AgentName (changeToolName name).

(** The name of a node on a shared page. *)
Definition shared_node_name (label : string) : shared_name :=
  let key := toLowerCaseStringAndDeleteChar label "_"%char in
  if js_includes typeMapLowerCase key then KnownType key else AgentName label.

(** The last tool turns while its result is not there. *)
Definition tool_spinning (tools : list tool_call) (idx : nat) (sendLoading : bool) : bool :=
  match filteredTools tools !! idx with
  | Some tool => bool_decide (length (filteredTools tools) - 1 ≤ idx) && (tool_result tool === VStr "...") && sendLoading
  | None => false
  end.

(** ** One row for each node *)
Definition started (es : list node_event) (id : option string) : Prop :=
  ∃ x, x ∈ es ∧ ne_event x = NodeStarted ∧ ne_component_id x = id.

Definition finished (es : list node_event) (id : option string) : Prop :=
  ∃ x, x ∈ es ∧ ne_event x = NodeFinished ∧ ne_component_id x = id.

Lemma push_started_ids pre cur :
  map ne_component_id (push_started pre cur) = push_new (map ne_component_id pre) (ne_component_id cur).
Proof.
  rewrite push_new_eq. unfold push_started. destruct (js_every _ pre) eqn:E.
  - rewrite decide_False; [by rewrite map_app|]. intros (x & Hx & Hin)%list_elem_of_fmap.
    apply (proj1 (js_every_true _ _) E), negb_true_iff, bool_decide_eq_false in Hin. congruence.
  - rewrite decide_True; [done|]. apply not_true_iff_false in E. rewrite js_every_true in E.
    apply dec_stable. intros Hn. apply E. intros x Hx. apply negb_true_iff, bool_decide_eq_false.
    intros He. apply Hn. rewrite <-He. by apply list_elem_of_fmap_2.
Qed.

Lemma startNodeIds_push es :
  startNodeIds es = push_all [] (map ne_component_id (js_filter (is_type NodeStarted) es)).
Proof.
  unfold startNodeIds, startedNodeList, push_all.
  change (@nil (option string)) with (map ne_component_id []). generalize (@nil node_event).
  induction (js_filter (is_type NodeStarted) es) as [|x l IH]; intros pre; [done|]. cbn. by rewrite IH, push_started_ids.
Qed.

Lemma elem_of_ids t es id :
  id ∈ map ne_component_id (js_filter (is_type t) es) ↔ ∃ x, x ∈ es ∧ ne_event x = t ∧ ne_component_id x = id.
Proof.
  rewrite list_elem_of_fmap. setoid_rewrite elem_of_js_filter. unfold is_type. setoid_rewrite bool_decide_eq_true.
  naive_solver.
Qed.

Lemma elem_of_started es id : id ∈ startNodeIds es ↔ started es id.
Proof. rewrite startNodeIds_push, elem_of_push_all, elem_of_ids. unfold started. set_solver. Qed.

Lemma NoDup_started es : NoDup (startNodeIds es).
Proof. rewrite startNodeIds_push. apply NoDup_push_all, NoDup_nil_2. Qed.

Lemma startedNodeList_app es es' :
  startedNodeList (es ++ es') = foldl push_started (startedNodeList es) (js_filter (is_type NodeStarted) es').
Proof. unfold startedNodeList. by rewrite js_filter_app, foldl_app. Qed.

Lemma rows_grow es es' : startedNodeList es `prefix_of` startedNodeList (es ++ es').
Proof.
  rewrite startedNodeList_app. generalize (startedNodeList es).
  induction (js_filter _ es') as [|x l IH]; intros pre; [done|]. cbn. etransitivity; [|apply IH].
  unfold push_started. destruct (js_every _ _); [by apply prefix_app_r|done].
Qed.

Lemma lastNode_None es : lastNode es = None ↔ startNodeIds es = [].
Proof. unfold lastNode, startNodeIds. rewrite last_None. destruct (startedNodeList es); naive_solver. Qed.

Lemma elem_of_finishNodeIds es id : startNodeIds es ≠ [] → id ∈ finishNodeIds es ↔ finished es id.
Proof.
  intros Hne. unfold finishNodeIds. destruct (lastNode es) eqn:E; [|by apply lastNode_None in E].
  rewrite elem_of_push_all, elem_of_ids. unfold finished. set_solver.
Qed.

Lemma elem_of_loading es id :
  id ∈ startButNotFinishedNodeIds es ↔ started es id ∧ ¬ finished es id.
Proof.
  unfold startButNotFinishedNodeIds. rewrite elem_of_js_filter, elem_of_started, negb_true_iff. unfold js_includes.
  rewrite bool_decide_eq_false.
  assert (started es id → startNodeIds es ≠ []) as Hne.
  { intros Hs%elem_of_started E. rewrite E in Hs. by apply not_elem_of_nil in Hs. }
  split; intros [? ?].
  - split; [done|]. by rewrite <-elem_of_finishNodeIds by auto.
  - split; [|done]. by rewrite elem_of_finishNodeIds by auto.
Qed.

Lemma row_finished_spec `{Lodash} es tr loading x :
  row_finished (row_of es tr loading x) = true ↔ finished es (ne_component_id x).
Proof.
  cbn. unfold js_includes. rewrite bool_decide_eq_true, list_elem_of_fmap. unfold filterFinishedNodeList, finished.
  setoid_rewrite elem_of_js_filter. unfold is_type, of_node. setoid_rewrite andb_true_iff.
  setoid_rewrite bool_decide_eq_true. naive_solver.
Qed.

(** ** What is running *)

(** The reference: a started node runs until it is finished. *)
Definition run_event (running : gset string) (x : node_event) : gset string :=
  match ne_component_id x, ne_event x with
  | Some id, NodeStarted => running ∪ {[id]}
  | Some id, NodeFinished => running ∖ {[id]}
  | _, _ => running
  end.

Definition running (es : list node_event) : gset string := foldl run_event ∅ es.

(** No node is started twice, and none is finished before it is started. *)
Inductive orderly : list node_event → Prop :=
  | orderly_nil : orderly []
  | orderly_snoc es x :
      orderly es →
      (ne_event x = NodeStarted → ¬ started es (ne_component_id x)) →
      (ne_event x = NodeFinished → started es (ne_component_id x)) →
      orderly (es ++ [x]).

Lemma started_snoc es x id :
  started (es ++ [x]) id ↔ started es id ∨ (ne_event x = NodeStarted ∧ ne_component_id x = id).
Proof. unfold started. setoid_rewrite elem_of_app. setoid_rewrite list_elem_of_singleton. naive_solver. Qed.

Lemma finished_snoc es x id :
  finished (es ++ [x]) id ↔ finished es id ∨ (ne_event x = NodeFinished ∧ ne_component_id x = id).
Proof. unfold finished. setoid_rewrite elem_of_app. setoid_rewrite list_elem_of_singleton. naive_solver. Qed.

Lemma finished_started es : orderly es → ∀ id, finished es id → started es id.
Proof.
  induction 1 as [|es x _ IH Hs Hf]; intros id.
  - intros (? & ?%not_elem_of_nil & _). done.
  - rewrite finished_snoc, started_snoc. naive_solver.
Qed.

Lemma running_spec es : orderly es → ∀ id, id ∈ running es ↔ started es (Some id) ∧ ¬ finished es (Some id).
Proof.
  induction 1 as [|es x Ho IH Hs Hf]; intros id.
  - unfold running, started. cbn. set_solver.
  - unfold running in *. rewrite foldl_app. cbn [foldl]. rewrite started_snoc, finished_snoc.
    pose proof (finished_started es Ho (Some id)) as Hfs.
    unfold run_event. destruct (ne_component_id x) as [i|] eqn:Hi, (ne_event x) eqn:Ht;
      try (rewrite IH; naive_solver).
    + rewrite elem_of_union, elem_of_singleton, IH. specialize (Hs eq_refl). split.
      * intros [[? ?]| ->]; [naive_solver|]. split; [by right|]. intros [Hfin|[? ?]]; [|done].
        by apply Hs, finished_started.
      * intros [[?|[_ [= ->]]] Hn]; [left; naive_solver|by right].
    + rewrite elem_of_difference, not_elem_of_singleton, IH. specialize (Hf eq_refl). naive_solver.
Qed.

(** Operators whose nodes never have the mark: the groups and where they
    start, notes, the placeholder, and the rewriting of questions. *)
Definition unmarked : list string :=
  [Operator.Iteration; Operator.Loop; Operator.IterationStart; Operator.LoopStart;
   Operator.Note; Operator.Placeholder; Operator.RewriteQuestion].

Lemma frame_of_operator op :
  snd <$> js_find (λ kv, kv.1 === AddNode.node_type op) nodeTypes = Some FrameWithId ↔ op ∉ unmarked.
Proof.
  unfold AddNode.node_type. destruct (js_find (λ kv, kv.1 === op) NodeMap) as [[k t]|] eqn:E.
  - apply js_find_Some in E as [Hin Hk%bool_decide_eq_true]. cbn in Hk. subst k. cbn [fmap option_fmap option_map default snd].
    assert (Forall (λ kv, snd <$> js_find (λ kv', kv'.1 === kv.2) nodeTypes = Some FrameWithId ↔ kv.1 ∉ unmarked) NodeMap) as Hall.
    { repeat (constructor; [by apply (bool_decide_unpack _); vm_compute|]). constructor. }
    rewrite Forall_forall in Hall. exact (Hall _ Hin).
  - split; [|done]. intros _ Hop.
    assert (Forall (λ o, is_Some (js_find (λ kv, kv.1 === o) NodeMap)) unmarked) as Hall by (by repeat constructor; eexists).
    rewrite Forall_forall in Hall. destruct (Hall _ Hop) as [kv Hkv]. congruence.
Qed.

Lemma mark_of_operator op es loading id : id ≠ "" →
  node_loading (AddNode.node_type op) es loading id =
  negb (bool_decide (op ∈ unmarked)) && (js_includes (startButNotFinishedNodeIds es) (Some id) && loading).
Proof.
  intros Hid. pose proof (frame_of_operator op) as Hf. unfold node_loading, NodeWrapper.
  destruct (js_find _ nodeTypes) as [[k []]|]; cbn in Hf;
    try (case_bool_decide as Ho; [done|by apply Hf in Ho]).
  rewrite (bool_decide_false (op ∈ _)) by (by apply Hf). by rewrite bool_decide_false.
Qed.

(** C35: As long as no node of a run is started twice or finished before it is
    started: the node of an operator has the loading mark on the canvas
    exactly when it was started, is not finished yet and the answer is being
    received, unless the operator is one of those whose nodes are drawn
    without it; there is one row in the log for each node that was started, in
    the order of the starts, and a row turns exactly while its node runs and
    the answer is being received. *)
Theorem run_shown `{Lodash} (es : list node_event) (tr : option (list trace_data)) (loading : bool) :
  orderly es →
  (∀ op id, id ≠ "" → node_loading (AddNode.node_type op) es loading id =
     negb (bool_decide (op ∈ unmarked)) && (bool_decide (id ∈ running es) && loading)) ∧
  map row_id (WorkFlowTimeline es tr loading) = push_all [] (map ne_component_id (js_filter (is_type NodeStarted) es)) ∧
  (∀ r id, r ∈ WorkFlowTimeline es tr loading → row_id r = Some id →
    row_spinning r = bool_decide (id ∈ running es) && loading).
Proof.
  intros Ho. split; [|split].
  - intros op id Hid. rewrite mark_of_operator by done. unfold js_includes. f_equal. f_equal.
    apply bool_decide_ext. by rewrite elem_of_loading, running_spec.
  - rewrite <-startNodeIds_push. unfold WorkFlowTimeline. by rewrite map_map.
  - intros r id (x & -> & Hx)%list_elem_of_fmap Hid. cbn in Hid.
    assert (started es (Some id)) as Hs.
    { apply elem_of_started. rewrite <-Hid. by apply list_elem_of_fmap_2. }
    change (row_spinning _) with (negb (row_finished (row_of es tr loading x)) && loading). f_equal.
    apply eq_bool_prop_intro. rewrite negb_True, bool_decide_spec, running_spec by done.
    rewrite Is_true_true, row_finished_spec, Hid. naive_solver.
Qed.

Definition an_event (t : event_type) (id : string) (error : val) : node_event :=
  {| ne_event := t; ne_component_id := Some id; ne_component_type := "Agent"; ne_component_name := id;
     ne_error := error; ne_elapsed_time := num_of_Z 2; ne_inputs := VUndef; ne_outputs := VUndef |}.

Definition example_run : list node_event :=
  [an_event NodeStarted "begin" VUndef; an_event NodeFinished "begin" VNull; an_event NodeStarted "Agent:1" VUndef].

Lemma run_shown_witness :
  node_loading "agentNode" example_run true "Agent:1" = true ∧ node_loading "beginNode" example_run true "begin" = false.
Proof.
  assert (orderly example_run) as Ho.
  { apply (orderly_snoc [an_event NodeStarted "begin" VUndef; an_event NodeFinished "begin" VNull]).
    - apply (orderly_snoc [an_event NodeStarted "begin" VUndef]).
      + apply (orderly_snoc []); [constructor| |discriminate]. intros _ (? & ?%not_elem_of_nil & _). done.
      + discriminate.
      + intros _. eexists. split; [apply elem_of_cons; by left|done].
    - intros _ (x & Hx & _ & Hi). repeat (apply elem_of_cons in Hx as [->|Hx]; [discriminate|]).
      by apply not_elem_of_nil in Hx.
    - discriminate. }
  destruct (run_shown (H := lodash_impl) example_run None true Ho) as (Hmark & _ & _).
  split; etransitivity; [apply (Hmark Operator.Agent "Agent:1"); discriminate|reflexivity
                        |apply (Hmark Operator.Begin "begin"); discriminate|reflexivity].
Defined.

(** ** While events arrive *)
Lemma js_find_grow {A} (p : A → bool) (l l' : list A) x : js_find p l = Some x → js_find p (l ++ l') = Some x.
Proof.
  unfold js_find. induction l as [|y l IH]; [done|]. cbn. destruct (p y); [done|]. apply IH.
Qed.

Lemma elapsed_settled es es' id : finished es id → getElapsedTime (es ++ es') id = getElapsedTime es id.
Proof.
  intros (x & Hx & Ht & Hi). unfold getElapsedTime. destruct (id === Some "begin"); [done|].
  set (p := λ x, of_node id x && is_type NodeFinished x).
  destruct (js_find_is_Some p es x Hx) as [y Hy].
  { unfold p, of_node, is_type. by rewrite !bool_decide_true. }
  by rewrite Hy, (js_find_grow _ _ es' _ Hy).
Qed.

Lemma finished_grows es es' id : finished es id → finished (es ++ es') id.
Proof. intros (x & Hx & ?). exists x. split; [|done]. apply elem_of_app. by left. Qed.

(** The log only grows: more events keep every row at its place, a finished
    row stays finished and does not turn again, and its time stays. *)
Theorem timeline_grows `{Lodash} (es es' : list node_event) (tr tr' : option (list trace_data)) (loading loading' : bool)
    (i : nat) (r : row) :
  WorkFlowTimeline es tr loading !! i = Some r →
  ∃ r', WorkFlowTimeline (es ++ es') tr' loading' !! i = Some r' ∧
    row_id r' = row_id r ∧ row_name r' = row_name r ∧
    (row_finished r = true → row_finished r' = true ∧ row_spinning r' = false ∧ row_elapsed r' = row_elapsed r).
Proof.
  unfold WorkFlowTimeline. rewrite !list_lookup_fmap. intros (x & Hx & ->)%fmap_Some.
  assert (startedNodeList (es ++ es') !! i = Some x) as Hx'.
  { destruct (rows_grow es es') as [k ->]. by apply lookup_app_l_Some. }
  exists (row_of (es ++ es') tr' loading' x). rewrite Hx'. split; [done|]. split; [done|]. split; [done|].
  intros Hf%row_finished_spec. pose proof (finished_grows es es' _ Hf) as Hf'.
  pose proof (proj2 (row_finished_spec (es ++ es') tr' loading' x) Hf') as Hr. split; [done|]. split.
  - change (negb (row_finished (row_of (es ++ es') tr' loading' x)) && loading' = false). by rewrite Hr.
  - cbn. by apply elapsed_settled.
Qed.

Lemma timeline_grows_witness : ∃ r',
  WorkFlowTimeline (L := lodash_impl) (example_run ++ [an_event NodeFinished "Agent:1" VNull]) None true !! 0 = Some r' ∧
  row_spinning r' = false.
Proof.
  destruct (timeline_grows (H := lodash_impl) example_run [an_event NodeFinished "Agent:1" VNull] None None true true 0
    (row_of (L := lodash_impl) example_run None true (an_event NodeStarted "begin" VUndef))) as (r' & H1 & _ & _ & H2).
  - reflexivity.
  - exists r'. split; [exact H1|]. exact (proj1 (proj2 (H2 eq_refl))).
Defined.

(** A running iteration turns in the log and has no mark on the canvas. *)
Lemma iteration_not_marked :
  let es := [an_event NodeStarted "Iteration:1" VUndef] in
  "Iteration:1" ∈ running es ∧ node_loading "group" es true "Iteration:1" = false ∧
  map row_spinning (WorkFlowTimeline (L := lodash_impl) es None true) = [true].
Proof. split; [|split; reflexivity]. apply (bool_decide_unpack _). vm_compute. exact I. Qed.

(** In a loop a node is started again: it runs, but is shown as finished. *)
Lemma loop_not_shown :
  let es := [an_event NodeStarted "Code:1" VUndef; an_event NodeFinished "Code:1" VNull; an_event NodeStarted "Code:1" VUndef] in
  "Code:1" ∈ running es ∧ node_loading "ragNode" es true "Code:1" = false.
Proof. split; [|reflexivity]. apply (bool_decide_unpack _). vm_compute. exact I. Qed.

(** The dot of a row looks for the error in the event of the start, which has
    none: it is green whatever the end says. *)
Lemma failed_shown_green {L : Lodash} `{!LodashLaws L} es tr loading :
  (∀ x, x ∈ es → ne_event x = NodeStarted → ne_error x = VUndef) →
  ∀ r, r ∈ WorkFlowTimeline es tr loading → row_success r = true.
Proof.
  intros He r (x & -> & Hx)%list_elem_of_fmap. cbn.
  assert (x ∈ js_filter (is_type NodeStarted) es) as [Ht Hin]%elem_of_js_filter.
  { revert Hx. unfold startedNodeList.
    assert (∀ pre l, x ∈ foldl push_started pre l → x ∈ pre ∨ x ∈ l) as Hin.
    { intros pre l. revert pre. induction l as [|y l IH]; intros pre; cbn; [by left|]. intros [Hp|Hl]%IH; [|set_solver].
      unfold push_started in Hp. destruct (js_every _ _); set_solver. }
    by intros [?%not_elem_of_nil|?]%Hin. }
  rewrite He; [apply isEmpty_undef|done|]. unfold is_type in Ht. by apply bool_decide_eq_true in Ht.
Qed.

(** Every node whose type has a text is found on a shared page; the names of
    tools are looked up in the other table, whose keys with capitals are never
    found. *)
Lemma shared_names :
  Forall (λ k, shared_node_name k = KnownType (toLowerCaseStringAndDeleteChar k "_"%char)) typeMap ∧
  shared_tool_name "retrieval" = KnownType "retrieval" ∧
  shared_tool_name "tavily_search" = AgentName "Agent Tavily Search" ∧
  "tavilySearch" ∈ typeMap.
Proof.
  split; [|split; [reflexivity|split; [reflexivity|]]].
  - repeat (constructor; [vm_compute; reflexivity|]). constructor.
  - apply (bool_decide_unpack _). vm_compute. exact I.
Qed.
