(* ===== verification/CaseForms.v ===== *)
(** * The branches of categorize and switch operators

    pages/agent/form/categorize-form/dynamic-categorize.tsx and
    pages/agent/form/switch-form/index.tsx: the lists of branches in the forms
    of two operators, each branch with a handle from which edges start.  The
    form is open beside the canvas; what it holds is written to the node after
    each change ([categorize_watch] and [switch_watch] of [AgentForms]), and
    edges are drawn and removed meanwhile ([GraphStore]).  The handles a node
    shows are those of use-build-categorize-handle-positions.ts and
    use-build-switch-handle-positions.ts. *)
From S2P Require Import Prelude JsValue Graph Libs Downstream NodeNames FormUtils GraphStore StoreProps AgentForms.
Open Scope list_scope.
Open Scope nat_scope.
Open Scope js_scope.

(** ** Categories *)
Record category := {
  cat_name : string;
  cat_description : string;
  cat_uuid : string;
  cat_examples : list string
}.

Definition category_val (c : category) : val :=
  VObj [("name", VStr (cat_name c)); ("description", VStr (cat_description c)); ("uuid", VStr (cat_uuid c));
        ("examples", VArr (map (λ e, VObj [("value", VStr e)]) (cat_examples c)))].

Section categorize.
Context {L : Lodash} {X : XYFlow}.

(** [trim] of lodash, the node of the form, and the other fields of the form. *)
Context (trim : string → string) (nodeId : string) (rest : obj).

(** The store and the items of the form. *)
Record case_form := { cf_store : RFState; cf_items : list category }.

Definition form_val (items : list category) : val := VObj (obj_set "items" (VArr (map category_val items)) rest).

(** The form is written to the node after a change of its values. *)
Definition write_form (items : list category) (s : RFState) : outcome case_form :=
  s' ← categorize_watch (Some nodeId) (form_val items) s;
  Ok {| cf_store := s'; cf_items := items |}.

(** The names of the rows that differ from that of this row. *)
Definition getOtherFieldValues (items : list category) (index : nat) : list string :=
  js_filter (λ x, Some x !== (cat_name <$> items !! index)) (map cat_name items).

Inductive name_error := NameRepeated | NameRequired | NoError.

Definition handleNameChange (otherNames : list string) (val : string) : name_error :=
  let trimmedVal := trim val in
  if js_some (λ x, x === trimmedVal) otherNames then NameRepeated
  else if trimmedVal === "" then NameRequired else NoError.

(** The name that is stored when the field is left, if any. *)
Definition name_blurred (otherNames : list string) (val : string) : option string :=
  if js_every (λ x, x !== val) otherNames && (trim val !== "") then Some val else None.

Definition with_name (c : category) (nm : string) : category :=
  {| cat_name := nm; cat_description := cat_description c; cat_uuid := cat_uuid c; cat_examples := cat_examples c |}.

Definition with_texts (description : string) (examples : list string) (c : category) : category :=
  {| cat_name := cat_name c; cat_description := description; cat_uuid := cat_uuid c; cat_examples := examples |}.

Definition handleNameBlur (index : nat) (val : string) (st : case_form) : outcome case_form :=
  match name_blurred (getOtherFieldValues (cf_items st) index) val with
  | Some nm => write_form (alter (λ c, with_name c nm) index (cf_items st)) (cf_store st)
  | None => Ok st
  end.

Definition edit_texts (index : nat) (description : string) (examples : list string) (st : case_form) : outcome case_form :=
  write_form (alter (with_texts description examples) index (cf_items st)) (cf_store st).

(** A new category with a word for its name and a fresh uuid. *)
Definition handleAdd (word uuid : string) (st : case_form) : outcome case_form :=
  write_form (cf_items st ++ [{| cat_name := word; cat_description := ""; cat_uuid := uuid; cat_examples := [""] |}])
    (cf_store st).

(** [remove(index)], then the edges of the row that was there are deleted. *)
Definition handleRemove (index : nat) (st : case_form) : outcome case_form :=
  let items := delete index (cf_items st) in
  s ← (if nodeId !== ""
       then match cf_items st !! index with
            | Some c => Ok (deleteEdgesBySourceAndSourceHandle nodeId (HId (cat_uuid c)) (cf_store st))
            | None => Throw
            end
       else Ok (cf_store st));
  write_form items s.

(** The handles the node shows, from the form that is stored. *)
Definition categorize_handles (s : RFState) : list val :=
  match getNode (Some nodeId) s with
  | Some n => map (prop "uuid") (arr_of_val (prop "items" (form (n_data n))))
  | None => []
  end.

(** What can happen while the form is open.  The words and uuids drawn are not
    in use; an edge starts at a handle that is shown. *)
Inductive case_step (st : case_form) : case_form → Prop :=
  | CaseAdded word uuid st' :
      word ∉ map cat_name (cf_items st) → uuid ∉ map cat_uuid (cf_items st) → uuid ≠ "" →
      handleAdd word uuid st = Ok st' → case_step st st'
  | CaseRemoved index st' :
      index < length (cf_items st) → handleRemove index st = Ok st' → case_step st st'
  | CaseRenamed index val st' :
      handleNameBlur index val st = Ok st' → case_step st st'
  | CaseEdited index description examples st' :
      edit_texts index description examples st = Ok st' → case_step st st'
  | EdgeDrawn c :
      (c_source c = nodeId → ∃ u, c_sourceHandle c = HId u ∧ VStr u ∈ categorize_handles (cf_store st)) →
      case_step st {| cf_store := onConnect c (cf_store st); cf_items := cf_items st |}
  | EdgeRemoved id :
      case_step st {| cf_store := deleteEdgeById id (cf_store st); cf_items := cf_items st |}.
End categorize.

(** ** Cases of a switch *)
Record switch_case := { sw_operator : string; sw_items : list val; sw_to : list string }.

Definition switch_case_val (c : switch_case) : val :=
  VObj [("logical_operator", VStr (sw_operator c)); ("items", VArr (sw_items c)); ("to", VArr (map VStr (sw_to c)))].

Section switch.
Context {L : Lodash} {X : XYFlow}.
Context (nodeId : string) (rest : obj).

Record switch_form := { sf_store : RFState; sf_conditions : list switch_case }.

Definition switch_val (conditions : list switch_case) : val :=
  VObj (obj_set "conditions" (VArr (map switch_case_val conditions)) rest).

Definition write_switch (conditions : list switch_case) (s : RFState) : outcome switch_form :=
  s' ← switch_watch (Some nodeId) (switch_val conditions) s;
  Ok {| sf_store := s'; sf_conditions := conditions |}.

(** The operator of a new item is the first of the options. *)
Definition case_added (operator : string) (st : switch_form) : outcome switch_form :=
  write_switch (sf_conditions st ++ [{| sw_operator := "and"; sw_items := [VObj [("operator", VStr operator)]]; sw_to := [] |}])
    (sf_store st).

(** The button for removing a case is there for all but the first. *)
Definition case_removed (index : nat) (st : switch_form) : outcome switch_form :=
  if index === 0 then Ok st else write_switch (delete index (sf_conditions st)) (sf_store st).

Definition with_items (items : list val) (c : switch_case) : switch_case :=
  {| sw_operator := sw_operator c; sw_items := items; sw_to := sw_to c |}.

Definition item_added (parentIndex : nat) (operator : string) (st : switch_form) : outcome switch_form :=
  write_switch (alter (λ c, with_items (sw_items c ++ [VObj [("operator", VStr operator)]]) c) parentIndex (sf_conditions st))
    (sf_store st).

(** [handleRemove] of the items: the case goes with its last item, as far as
    the condition says so. *)
Definition removes_parent (parentIndex index parentLength : nat) : bool :=
  (parentIndex !== 0) && (index === 0) && (parentLength === 1).

Definition item_removed (parentIndex index : nat) (st : switch_form) : outcome switch_form :=
  let conditions := alter (λ c, with_items (delete index (sw_items c)) c) parentIndex (sf_conditions st) in
  let conditions :=
    if removes_parent parentIndex index (length (sf_conditions st)) then delete parentIndex conditions else conditions in
  write_switch conditions (sf_store st).

Definition item_edited (parentIndex index : nat) (item : val) (st : switch_form) : outcome switch_form :=
  write_switch (alter (λ c, with_items (<[index := item]> (sw_items c)) c) parentIndex (sf_conditions st)) (sf_store st).

(** The handles the node shows: one for each stored condition, and "else". *)
Definition switch_handles (s : RFState) : list string :=
  match getNode (Some nodeId) s with
  | Some n =>
      map (λ idx, generateSwitchHandleText (num_of_nat idx))
        (seq 0 (length (arr_of_val (prop "conditions" (form (n_data n)))))) ++ [SwitchElseTo]
  | None => []
  end.

(** The targets stored for a condition. *)
Definition stored_to (index : nat) (s : RFState) : val :=
  match getNode (Some nodeId) s with
  | Some n => prop "to" (default VUndef (arr_of_val (prop "conditions" (form (n_data n))) !! index))
  | None => VUndef
  end.
End switch.

(** ** Categories and their edges *)
Section categorize_props.
Context {L : Lodash} {X : XYFlow} `{!XYFlowLaws X}.
Context (trim : string → string) (nodeId : string) (rest : obj) (Hid : nodeId ≠ "").

(** Distinct names and handles; the node holds the items of the form; every
    edge that starts at the node starts at the handle of a category. *)
Record categories_ok (st : case_form) : Prop := {
  co_names : NoDup (map cat_name (cf_items st));
  co_uuids : NoDup (map cat_uuid (cf_items st));
  co_uuid c : c ∈ cf_items st → cat_uuid c ≠ "";
  co_node : ∃ n, getNode (Some nodeId) (cf_store st) = Some n ∧ label (n_data n) = Operator.Categorize ∧
    prop "items" (form (n_data n)) = VArr (map category_val (cf_items st));
  co_edges e : e ∈ edges (cf_store st) → source e = nodeId →
    ∃ c, c ∈ cf_items st ∧ sourceHandle e = HId (cat_uuid c)
}.

Lemma write_form_Ok items s : ∃ vs, obj_wf vs ∧ obj_lookup "items" vs = Some (VArr (map category_val items)) ∧
  write_form nodeId rest items s = Ok {| cf_store := updateNodeForm nodeId (VObj vs) [] s; cf_items := items |}.
Proof.
  exists (obj_set "items" (VArr (map category_val items)) (spread (form_val rest items))).
  split; [apply field_wf|]. split; [apply obj_lookup_set_eq|].
  unfold write_form, categorize_watch, for_node, form_val. rewrite bool_decide_false by done. cbn [negb].
  cbn [prop]. rewrite obj_get_set_eq. done.
Qed.

Lemma written_node items s st' n : write_form nodeId rest items s = Ok st' →
  getNode (Some nodeId) s = Some n → label (n_data n) = Operator.Categorize →
  cf_items st' = items ∧ edges (cf_store st') = edges s ∧
  ∃ n', getNode (Some nodeId) (cf_store st') = Some n' ∧ label (n_data n') = Operator.Categorize ∧
    prop "items" (form (n_data n')) = VArr (map category_val items).
Proof.
  intros Hw Hn Hl. destruct (write_form_Ok items s) as (vs & Hwf & Hitems & Hok). rewrite Hok in Hw. simplify_eq/=.
  split; [done|]. split; [done|]. rewrite updateNodeForm_getNode, Hn. cbn [fmap option_fmap option_map].
  eexists. split; [done|]. destruct (getNode_Some _ _ _ Hn) as [-> _]. rewrite bool_decide_true by done.
  split; [done|].
  transitivity (obj_get "items" (obj_assign (obj_assign [] (obj_of_val (form (n_data n)))) vs)); [done|].
  unfold obj_get. by rewrite obj_assign_lookup, Hitems.
Qed.

Lemma NoDup_replace (l : list string) i x v : NoDup l → l !! i = Some x → (∀ y, y ∈ l → y ≠ x → y ≠ v) →
  NoDup (<[i := v]> l).
Proof.
  intros Hl Hi Hv. apply NoDup_alt. intros j k y Hj Hk.
  destruct (decide (j = i)) as [->|Hji], (decide (k = i)) as [->|Hki]; [done| | |].
  - rewrite list_lookup_insert_eq in Hj by (by eapply lookup_lt_Some). rewrite list_lookup_insert_ne in Hk by done.
    simplify_eq. exfalso. apply (Hv y); [by eapply list_elem_of_lookup_2| |done].
    intros ->. apply Hki. by eapply NoDup_lookup.
  - rewrite list_lookup_insert_ne in Hj by done. rewrite list_lookup_insert_eq in Hk by (by eapply lookup_lt_Some).
    simplify_eq. exfalso. apply (Hv y); [by eapply list_elem_of_lookup_2| |done].
    intros ->. apply Hji. by eapply NoDup_lookup.
  - rewrite list_lookup_insert_ne in Hj, Hk by done. by eapply NoDup_lookup.
Qed.

Lemma map_alter_same {A B} (f : A → B) g i (l : list A) : (∀ a, f (g a) = f a) → map f (alter g i l) = map f l.
Proof.
  intros Hg. revert i. induction l as [|a l IH]; intros [|i]; cbn; [done..| |]; [by rewrite Hg|]. f_equal. apply IH.
Qed.

Lemma map_rename i v (l : list category) :
  map cat_name (alter (λ c, with_name c v) i l) = if decide (i < length l) then <[i := v]> (map cat_name l) else map cat_name l.
Proof.
  revert i. induction l as [|c l IH]; intros [|i]; cbn; try done. rewrite IH. repeat case_decide; try lia; done.
Qed.

(** A change of the items that keeps the handles. *)
Lemma rewritten_ok st st' items :
  categories_ok st → write_form nodeId rest items (cf_store st) = Ok st' →
  NoDup (map cat_name items) → map cat_uuid items = map cat_uuid (cf_items st) → categories_ok st'.
Proof.
  intros [Hnames Huuids Hne (n & Hn & Hl & _) He] Hw Hnew Hsame.
  destruct (written_node _ _ _ n Hw Hn Hl) as (Hi & Hed & Hnode).
  assert (∀ u, u ∈ map cat_uuid items ↔ u ∈ map cat_uuid (cf_items st)) as Hu by (intros u; by rewrite Hsame).
  split; rewrite ?Hi, ?Hed; [done|by rewrite Hsame| |done|].
  - intros c Hc. assert (cat_uuid c ∈ map cat_uuid (cf_items st)) as (c' & Hcc & Hc')%list_elem_of_fmap.
    { apply Hu. by apply list_elem_of_fmap_2. }
    rewrite Hcc. by apply Hne.
  - intros e Hin Hs. destruct (He e Hin Hs) as (c & Hc & ->).
    assert (cat_uuid c ∈ map cat_uuid items) as (c' & Hcc & Hc')%list_elem_of_fmap.
    { apply Hu. by apply list_elem_of_fmap_2. }
    exists c'. by rewrite Hcc.
Qed.

Lemma added_ok word uuid st st' : categories_ok st →
  word ∉ map cat_name (cf_items st) → uuid ∉ map cat_uuid (cf_items st) → uuid ≠ "" →
  handleAdd nodeId rest word uuid st = Ok st' → categories_ok st'.
Proof.
  intros [Hnames Huuids Hne (n & Hn & Hl & _) He] Hw Hu Hue Hst.
  destruct (written_node _ _ _ n Hst Hn Hl) as (Hi & Hed & Hnode).
  split; rewrite ?Hi, ?Hed; [rewrite map_app|rewrite map_app| |done|].
  - apply NoDup_app. cbn. split; [done|]. split; [|apply NoDup_singleton]. set_solver.
  - apply NoDup_app. cbn. split; [done|]. split; [|apply NoDup_singleton]. set_solver.
  - intros c [Hc| ->%list_elem_of_singleton]%elem_of_app; [by apply Hne|done].
  - intros e Hin Hs. destruct (He e Hin Hs) as (c & Hc & ->). exists c. split; [|done]. apply elem_of_app. by left.
Qed.

Lemma renamed_ok index val st st' : categories_ok st →
  handleNameBlur trim nodeId rest index val st = Ok st' → categories_ok st'.
Proof.
  intros Hok. unfold handleNameBlur, name_blurred. destruct (_ && _) eqn:E; [|by intros [= <-]].
  intros Hw. apply andb_true_iff in E as [Hother _].
  apply (rewritten_ok st st' (alter (λ c, with_name c val) index (cf_items st)) Hok Hw); [|by apply map_alter_same].
  rewrite map_rename. case_decide as Hi; [|apply co_names, Hok].
  destruct (lookup_lt_is_Some_2 (cf_items st) index Hi) as [c Hc].
  apply (NoDup_replace _ index (cat_name c)); [apply co_names, Hok| |].
  - change (map cat_name (cf_items st)) with (cat_name <$> cf_items st). by rewrite list_lookup_fmap, Hc.
  - intros y Hy Hne. rewrite js_every_true in Hother.
    assert (y ∈ getOtherFieldValues (cf_items st) index) as Hin.
    { apply elem_of_js_filter. split; [|done]. rewrite Hc. apply negb_true_iff, bool_decide_eq_false. cbn. congruence. }
    apply Hother, negb_true_iff, bool_decide_eq_false in Hin. done.
Qed.

Lemma edited_ok index d ex st st' : categories_ok st → edit_texts nodeId rest index d ex st = Ok st' → categories_ok st'.
Proof.
  intros Hok Hw. apply (rewritten_ok st st' _ Hok Hw); [|by apply map_alter_same].
  rewrite map_alter_same by done. apply co_names, Hok.
Qed.

(** Removing a category removes exactly the edges of its handle. *)
Lemma removed_edges index st c n : cf_items st !! index = Some c →
  getNode (Some nodeId) (cf_store st) = Some n → label (n_data n) = Operator.Categorize →
  ∃ st', handleRemove nodeId rest index st = Ok st' ∧ cf_items st' = delete index (cf_items st) ∧
    edges (cf_store st') =
      js_filter (λ e, negb ((source e === nodeId) && (sourceHandle e === HId (cat_uuid c)))) (edges (cf_store st)) ∧
    ∃ n', getNode (Some nodeId) (cf_store st') = Some n' ∧ label (n_data n') = Operator.Categorize ∧
      prop "items" (form (n_data n')) = VArr (map category_val (delete index (cf_items st))).
Proof.
  intros Hc Hn Hl. unfold handleRemove. rewrite bool_decide_false by done. cbn [negb]. rewrite Hc. cbn [mbind outcome_bind].
  set (s1 := deleteEdgesBySourceAndSourceHandle _ _ _).
  destruct (write_form_Ok (delete index (cf_items st)) s1) as (vs & _ & _ & Hok).
  exists {| cf_store := updateNodeForm nodeId (VObj vs) [] s1; cf_items := delete index (cf_items st) |}.
  split; [exact Hok|]. split; [done|]. split; [done|].
  by destruct (written_node _ _ _ n Hok Hn Hl) as (_ & _ & Hnode).
Qed.

Lemma removed_ok index st st' : categories_ok st → index < length (cf_items st) →
  handleRemove nodeId rest index st = Ok st' → categories_ok st'.
Proof.
  intros [Hnames Huuids Hne (n & Hn & Hl & _) He] Hi Hst.
  destruct (lookup_lt_is_Some_2 _ _ Hi) as [c Hc].
  destruct (removed_edges index st c n Hc Hn Hl) as (st1 & Hst1 & Hit & Hed & Hnode).
  rewrite Hst1 in Hst. simplify_eq. rewrite <-Hit in Hnode.
  assert (cf_items st ≡ₚ c :: delete index (cf_items st)) as Hp by (by apply delete_Permutation).
  rewrite <-Hit in Hp. rewrite Hp in Hnames, Huuids. cbn in Hnames, Huuids.
  apply NoDup_cons in Hnames as [_ Hnames]. apply NoDup_cons in Huuids as [Hcu Huuids].
  split; [done|done| |done|].
  - intros d Hd. apply Hne. rewrite Hp. set_solver.
  - intros e. rewrite Hed, elem_of_js_filter. intros [Hkeep Hin] Hs. destruct (He e Hin Hs) as (d & Hd & Hh).
    exists d. split; [|done]. rewrite Hp in Hd. apply elem_of_cons in Hd as [->|Hd]; [|done].
    rewrite Hs, Hh in Hkeep. by rewrite !bool_decide_true in Hkeep.
Qed.

(** The canvas does not touch the form of a categorize operator. *)
Lemma canvas_node (s s' : RFState) n :
  getNode (Some nodeId) s = Some n → label (n_data n) = Operator.Categorize →
  (s' = s ∨ ∃ src p v, getOperatorTypeFromId (Some src) s = Some Operator.Switch ∧ s' = updateNodeForm src v p s) →
  getNode (Some nodeId) s' = Some n.
Proof.
  intros Hn Hl [->|(src & p & v & Hsrc & ->)]; [done|]. rewrite updateNodeForm_getNode, Hn. cbn.
  rewrite bool_decide_false; [done|]. intros Heq. destruct (getNode_Some _ _ _ Hn) as [Hidn _].
  unfold getOperatorTypeFromId in Hsrc. rewrite <-Heq, Hidn, Hn in Hsrc. cbn in Hsrc. rewrite Hl in Hsrc. done.
Qed.

Lemma switch_update_cases src h t b s : 
  updateSwitchFormData src h t b s = s ∨ ∃ p v, updateSwitchFormData src h t b s = updateNodeForm src v p s.
Proof. unfold updateSwitchFormData. repeat case_match; eauto. Qed.

Lemma drawn_node c s n : getNode (Some nodeId) s = Some n → label (n_data n) = Operator.Categorize →
  getNode (Some nodeId) (onConnect c s) = Some n.
Proof.
  intros Hn Hl. unfold onConnect, updateFormDataOnConnect. set (s1 := setEdges _ s).
  apply (canvas_node s1); [done|done|]. case_bool_decide; [by left|]. cbn [negb]. case_bool_decide as Hop; [|by left].
  destruct (switch_update_cases (c_source c) (c_sourceHandle c) (Some (c_target c)) true s1) as [->|(p & v & ->)]; [by left|].
  right. eauto.
Qed.

Lemma undrawn_node id s n : getNode (Some nodeId) s = Some n → label (n_data n) = Operator.Categorize →
  getNode (Some nodeId) (deleteEdgeById id s) = Some n.
Proof.
  intros Hn Hl. unfold deleteEdgeById. rewrite getNode_setEdges. apply (canvas_node s); [done|done|].
  destruct (js_find _ _) as [e|]; [|by left]. case_bool_decide as Hop; [|by left].
  destruct (switch_update_cases (source e) (sourceHandle e) (Some (target e)) false s) as [->|(p & v & ->)]; [by left|].
  right. eauto.
Qed.
End categorize_props.

Section categorize_session.
Context {L : Lodash} {X : XYFlow} `{!XYFlowLaws X}.
Context (trim : string → string) (nodeId : string) (rest : obj) (Hid : nodeId ≠ "").

Lemma shown_handle st u : categories_ok nodeId st → VStr u ∈ categorize_handles nodeId (cf_store st) →
  ∃ c, c ∈ cf_items st ∧ u = cat_uuid c.
Proof.
  intros Hok. destruct (co_node _ _ Hok) as (n & Hn & _ & Hitems). unfold categorize_handles. rewrite Hn, Hitems.
  cbn [arr_of_val]. rewrite map_map. intros (c & Hu & Hc)%list_elem_of_fmap. exists c. split; [done|].
  by injection Hu.
Qed.

Lemma case_step_ok st st' : categories_ok nodeId st → case_step trim nodeId rest st st' → categories_ok nodeId st'.
Proof.
  intros Hok Hst. destruct Hst as [word uuid st' Hw Hu Hue Hst|index st' Hi Hst|index val st' Hst|index d ex st' Hst|c Hc|id].
  - by eapply added_ok.
  - by eapply removed_ok.
  - by eapply renamed_ok.
  - by eapply edited_ok.
  - destruct (Hok) as [Hnames Huuids Hne (n & Hn & Hl & Hitems) He]. split; cbn [cf_items cf_store]; [done|done|done| |].
    + exists n. by rewrite (drawn_node nodeId c _ n).
    + intros e. rewrite onConnect_edges. destruct (addEdge_cases c (edges (cf_store st))) as [(d & -> & Hd & _)|[-> _]]; [|apply He].
      intros [Hin| ->%list_elem_of_singleton]%elem_of_app Hs; [by apply He|].
      destruct Hd as (Hsrc & _ & Hh & _). destruct Hc as (u & Hu & Hshown); [congruence|].
      destruct (shown_handle st u Hok Hshown) as (k & Hk & ->). exists k. split; [done|]. rewrite Hu in Hh.
      destruct Hh as [Hh|[_ Hh]]; [done|]. exfalso. cbn in Hh. reflect_bool. by apply (Hne k Hk).
  - destruct (Hok) as [Hnames Huuids Hne (n & Hn & Hl & Hitems) He]. split; cbn [cf_items cf_store]; [done|done|done| |].
    + exists n. by rewrite (undrawn_node nodeId id _ n).
    + intros e [_ Hin]%elem_of_js_filter. by apply He.
Qed.
End categorize_session.

(** C25: while the form of a categorize operator is open beside the canvas,
    whatever is added, removed, renamed and edited in it and whatever edges
    are drawn and removed meanwhile: names stay distinct, handles stay
    distinct, the node holds the categories of the form, and every edge that
    starts at the node starts at the handle of a category. *)
Theorem categories_kept {L : Lodash} {X : XYFlow} `{!XYFlowLaws X} (trim : string → string) (nodeId : string) (rest : obj)
    (st st' : case_form) :
  nodeId ≠ "" → categories_ok nodeId st → rtc (case_step trim nodeId rest) st st' → categories_ok nodeId st'.
Proof. intros Hid Hok Hst. induction Hst as [|st st1 st' Hs _ IH]; [done|]. apply IH. by eapply case_step_ok. Qed.

(** ** Concrete forms *)
Import Canvas.

Definition weather : category :=
  {| cat_name := "weather"; cat_description := ""; cat_uuid := "u1"; cat_examples := [] |}.
Definition travel : category :=
  {| cat_name := "travel"; cat_description := ""; cat_uuid := "u2"; cat_examples := [] |}.

Definition categorize_form : case_form :=
  {| cf_store :=
       setEdges [mk_edge "e1" "Categorize:a" "Agent:a" (HId "u1"); mk_edge "e2" "Categorize:a" "Message:a" (HId "u2")]
         (setNodes [mk_node "Categorize:a" Operator.Categorize "Categorize_0" None
                      (VObj [("items", VArr [category_val weather; category_val travel])])] canvas);
     cf_items := [weather; travel] |}.

Lemma categories_kept_witness : ∃ st',
  rtc (case_step (L := lodash_impl) (X := xyflow_impl) str_trim "Categorize:a" []) categorize_form st' ∧
  categories_ok "Categorize:a" st' ∧ cf_items st' = [travel] ∧ map e_id (edges (cf_store st')) = ["e2"].
Proof.
  destruct (handleRemove "Categorize:a" [] 0 categorize_form) as [st'| |] eqn:E; [|discriminate E..].
  assert (rtc (case_step (L := lodash_impl) (X := xyflow_impl) str_trim "Categorize:a" []) categorize_form st') as Hr.
  { apply rtc_once. apply (CaseRemoved _ _ _ _ 0); [cbn; lia|exact E]. }
  exists st'. split; [exact Hr|]. split.
  - apply (categories_kept (L := lodash_impl) (X := xyflow_impl) str_trim "Categorize:a" [] categorize_form st');
      [discriminate| |exact Hr].
    split.
    + apply (bool_decide_unpack _). vm_compute. exact I.
    + apply (bool_decide_unpack _). vm_compute. exact I.
    + intros c Hc. repeat (apply elem_of_cons in Hc as [->|Hc]; [discriminate|]). by apply not_elem_of_nil in Hc.
    + eexists. split; [reflexivity|]. split; reflexivity.
    + intros e He _. cbn in He. apply elem_of_cons in He as [->|He]; [exists weather; split; [apply elem_of_cons; by left|reflexivity]|].
      apply list_elem_of_singleton in He as ->. exists travel. split; [|reflexivity]. apply elem_of_cons. right.
      by apply list_elem_of_singleton.
  - vm_compute in E. injection E as <-. split; reflexivity.
Defined.

(** A name that differs from another by a space at its end is refused while it
    is typed, and stored when the field is left. *)
Lemma spaced_name_stored :
  handleNameChange str_trim (getOtherFieldValues [weather; travel] 1) "weather " = NameRepeated ∧
  name_blurred str_trim (getOtherFieldValues [weather; travel] 1) "weather " = Some "weather ".
Proof. vm_compute. done. Qed.

(** *** Switch *)
Definition case_to (to : list string) : switch_case := {| sw_operator := "and"; sw_items := []; sw_to := to |}.

Definition switch_state : switch_form :=
  let conditions := [case_to []; case_to ["Agent:a"]; case_to ["Message:a"]] in
  {| sf_store :=
       setEdges [mk_edge "e1" "Switch:a" "Agent:a" (HId "Case 2"); mk_edge "e2" "Switch:a" "Message:a" (HId "Case 3")]
         (setNodes [mk_node "Switch:a" Operator.Switch "Switch_0" None
                      (VObj [("conditions", VArr (map switch_case_val conditions))])] canvas);
     sf_conditions := conditions |}.

(** Removing a case removes none of its edges and moves none of the others:
    the edge of the removed case hangs at the case after it, whose own edge is
    at a handle that is gone, while the stored targets have moved. *)
Lemma case_removed_misplaced : ∃ st,
  case_removed "Switch:a" [] 1 switch_state = Ok st ∧
  edges (sf_store st) = edges (sf_store switch_state) ∧
  switch_handles "Switch:a" (sf_store st) = ["Case 1"; "Case 2"; SwitchElseTo] ∧
  stored_to "Switch:a" 1 (sf_store st) = VArr [VStr "Message:a"] ∧
  handle_targets "Switch:a" "Case 2" (sf_store st) = ["Agent:a"].
Proof. eexists. split; [vm_compute; reflexivity|]. repeat split; vm_compute; reflexivity. Qed.

(** An edge drawn while the form is open is stored in the node's form; the
    next change of the open form writes the targets back it was opened with. *)
Lemma open_form_overwrites : 
  let c := {| c_source := "Switch:a"; c_target := "Agent:a"; c_sourceHandle := HId "Case 1"; c_targetHandle := HUndef |} in
  let drawn := onConnect (L := lodash_impl) (X := xyflow_impl) c (sf_store switch_state) in
  stored_to "Switch:a" 0 drawn = VArr [VStr "Agent:a"] ∧
  ∃ st, item_added "Switch:a" [] 0 "=" {| sf_store := drawn; sf_conditions := sf_conditions switch_state |} = Ok st ∧
    stored_to "Switch:a" 0 (sf_store st) = VArr [] ∧
    handle_targets "Switch:a" "Case 1" (sf_store st) = ["Agent:a"].
Proof.
  split; [vm_compute; reflexivity|]. eexists. split; [vm_compute; reflexivity|]. split; vm_compute; reflexivity.
Qed.

(** The condition under which the last item takes its case along never holds:
    the only case is the first one. *)
Lemma case_never_removed parentIndex index parentLength :
  parentIndex < parentLength → removes_parent parentIndex index parentLength = false.
Proof.
  intros Hlt. unfold removes_parent. destruct (parentIndex !== 0) eqn:E1; [|done].
  destruct (index === 0); [|done]. cbn [andb]. apply bool_decide_false. reflect_bool. lia.
Qed.
