(* ===== verification/FolderTree.v ===== *)
(** * Moving files to a folder

    pages/files/move-dialog.tsx with components/ui/async-tree-select.tsx: the
    dialog in which a folder is chosen from a tree that is loaded level by
    level, and pages/files/use-move-file.ts: the request behind it.  Requests
    and replies are events of their own, so that clicks can come between. *)
From S2P Require Import Prelude.
Open Scope list_scope.
Open Scope nat_scope.
Open Scope js_scope.

#[local] Set Warnings "-register-all".

(** ** The tree *)
Record tnode := { t_id : string; t_parentId : string; t_title : string; t_isLeaf : bool }.

#[export] Instance tnode_eq_dec : EqDecision tnode.
Proof. solve_decision. Defined.

(** The nodes of a level: the children of a node, or without one (the id [""]
    is none) the nodes whose parent is not there. *)
Definition currentLevelList (treeData : list tnode) (parentId : option string) : list tnode :=
  match parentId with
  | Some p =>
      if p === "" then js_filter (λ x, js_every (λ y, t_parentId x !== t_id y) treeData) treeData
      else js_filter (λ x, t_parentId x === p) treeData
  | None => js_filter (λ x, js_every (λ y, t_parentId x !== t_id y) treeData) treeData
  end.

Definition isExpanded (expandedKeys : list string) (id : option string) : bool :=
  match id with None => true | Some i => js_includes expandedKeys i end.

(** A rendered node with whether the list below it is hidden. *)
Inductive rtree := RNode (n : tnode) (hidden : bool) (children : list rtree).

(** [renderNodes] calls itself for each node it shows, expanded or not; [None]
    is a recursion that has not ended. *)
Fixpoint renderNodes (fuel : nat) (treeData : list tnode) (expandedKeys : list string) (parentId : option string)
    : option (list rtree) :=
  match fuel with
  | 0 => None
  | S fuel =>
      mapM (λ x,
        children ← renderNodes fuel treeData expandedKeys (Some (t_id x));
        Some (RNode x (negb (isExpanded expandedKeys (Some (t_id x)))) children))
        (currentLevelList treeData parentId)
  end.

Fixpoint rendered (r : rtree) : list tnode :=
  match r with RNode n _ children => n :: concat (map rendered children) end.

(** One level for each node and one. *)
Definition render_fuel (treeData : list tnode) : nat := S (length treeData).

(** ** The dialog *)

(** A folder or a file of a reply; [has_child_folder] may be missing. *)
Record file := {
  fl_id : string;
  fl_parent_id : string;
  fl_name : string;
  fl_type : string;
  fl_has_child_folder : option bool
}.

Definition isFolderType (type : string) : bool := type === "folder".

Definition node_of_file (x : file) : tnode :=
  {| t_id := fl_id x; t_parentId := fl_parent_id x; t_title := fl_name x;
     t_isLeaf := match fl_has_child_folder x with Some b => negb b | None => false end |}.

Definition new_nodes (files : list file) : list tnode :=
  map node_of_file (js_filter (λ x, isFolderType (fl_type x)) files).

(** A request in flight: the folder whose content is asked for, and whether an
    arrow waits for it. *)
Record request := { rq_parent : string; rq_arrow : bool }.

Record dialog := {
  treeData : list tnode;
  treeValue : string;
  tree_open : bool;
  expandedKeys : list string;
  loadingId : string;
  in_flight : list request
}.

Definition with_tree (data : list tnode) (d : dialog) : dialog :=
  {| treeData := data; treeValue := treeValue d; tree_open := tree_open d; expandedKeys := expandedKeys d;
     loadingId := loadingId d; in_flight := in_flight d |}.

Definition with_choice (v : string) (o : bool) (d : dialog) : dialog :=
  {| treeData := treeData d; treeValue := v; tree_open := o; expandedKeys := expandedKeys d;
     loadingId := loadingId d; in_flight := in_flight d |}.

Definition with_keys (keys : list string) (d : dialog) : dialog :=
  {| treeData := treeData d; treeValue := treeValue d; tree_open := tree_open d; expandedKeys := keys;
     loadingId := loadingId d; in_flight := in_flight d |}.

Definition with_loading (id : string) (requests : list request) (d : dialog) : dialog :=
  {| treeData := treeData d; treeValue := treeValue d; tree_open := tree_open d; expandedKeys := expandedKeys d;
     loadingId := id; in_flight := requests |}.

Definition ask (r : request) (d : dialog) : dialog := with_loading (loadingId d) (in_flight d ++ [r]) d.

(** The effect on [treeData], which runs when the list is another one. *)
Definition tree_effect (d : dialog) : dialog :=
  if treeData d === [] then ask {| rq_parent := ""; rq_arrow := false |} d else d.

Definition dialog_mount : dialog :=
  tree_effect {| treeData := []; treeValue := ""; tree_open := false; expandedKeys := []; loadingId := ""; in_flight := [] |}.

Definition handleNodeClick (id : string) (d : dialog) : dialog := with_choice id false d.

Definition handleArrowClick (node : tnode) (d : dialog) : dialog :=
  let id := t_id node in
  if isExpanded (expandedKeys d) (Some id)
  then with_keys (js_filter (λ x, x !== id) (expandedKeys d)) d
  else
    let hasChild := js_some (λ x, t_parentId x === id) (treeData d) in
    let d := with_keys (expandedKeys d ++ [id]) d in
    if negb hasChild
    then with_loading id (in_flight d ++ [{| rq_parent := id; rq_arrow := true |}]) d
    else d.

(** [onLoadData]: the list that [concat] returns is another one even when
    nothing is added. *)
Definition onLoadData (files : option (list file)) (d : dialog) : dialog :=
  match files with
  | Some fs => tree_effect (with_tree (treeData d ++ new_nodes fs) d)
  | None => d
  end.

(** The reply to the [i]-th request in flight; [None] is a code that is not
    zero.  The arrow that waited clears the mark. *)
Definition replied (i : nat) (files : option (list file)) (d : dialog) : dialog :=
  match in_flight d !! i with
  | None => d
  | Some r =>
      let d := onLoadData files (with_loading (loadingId d) (delete i (in_flight d)) d) in
      if rq_arrow r then with_loading "" (in_flight d) d else d
  end.

Inductive dialog_event :=
  | TreeOpened (open : bool)
  | NodeClicked (i : nat)
  | ArrowClicked (i : nat)
  | Replied (i : nat) (files : option (list file)).

(** The arrow of a leaf is not shown, that of the node being loaded is
    disabled. *)
Definition dialog_step (d : dialog) (e : dialog_event) : dialog :=
  match e with
  | TreeOpened o => with_choice (treeValue d) o d
  | NodeClicked i => match treeData d !! i with Some n => handleNodeClick (t_id n) d | None => d end
  | ArrowClicked i =>
      match treeData d !! i with
      | Some n => if t_isLeaf n || (loadingId d === t_id n) then d else handleArrowClick n d
      | None => d
      end
  | Replied i files => replied i files d
  end.

Definition dialog_run (d : dialog) (es : list dialog_event) : dialog := foldl dialog_step d es.

Definition selectedTitle (d : dialog) : option string :=
  t_title <$> js_find (λ x, t_id x === treeValue d) (treeData d).

(** The button is disabled while nothing is chosen. *)
Definition handleSubmit (d : dialog) : option string := if treeValue d === "" then None else Some (treeValue d).

(** ** The request behind the dialog *)
Record mover := {
  moveFileVisible : bool;
  sourceFileIds : list string;
  isBulk : bool;
  rowSelection : list string;
  moved : list (list string * string)
}.

Definition handleShowMoveFileModal (ids : list string) (bulk : bool) (m : mover) : mover :=
  {| moveFileVisible := true; sourceFileIds := ids; isBulk := bulk; rowSelection := rowSelection m; moved := moved m |}.

Definition hideMoveFileModal (m : mover) : mover :=
  {| moveFileVisible := false; sourceFileIds := sourceFileIds m; isBulk := isBulk m; rowSelection := rowSelection m;
     moved := moved m |}.

Definition clearRowSelection (m : mover) : mover :=
  {| moveFileVisible := moveFileVisible m; sourceFileIds := sourceFileIds m; isBulk := isBulk m; rowSelection := [];
     moved := moved m |}.

(** [onMoveFileOk] with the code of its reply. *)
Definition onMoveFileOk (targetFolderId : string) (ret : Z) (m : mover) : mover :=
  let m := {| moveFileVisible := moveFileVisible m; sourceFileIds := sourceFileIds m; isBulk := isBulk m;
              rowSelection := rowSelection m; moved := moved m ++ [(sourceFileIds m, targetFolderId)] |} in
  if ret === 0%Z then hideMoveFileModal (if isBulk m then clearRowSelection m else m) else m.

(** ** Forests

    Each node comes after its parent, or its parent is not there. *)
Inductive forest : list tnode → Prop :=
  | forest_nil : forest []
  | forest_cons x rest :
      t_id x ≠ "" → t_parentId x ≠ t_id x →
      (∀ y, y ∈ rest → t_parentId x ≠ t_id y) → (∀ y, y ∈ rest → t_id y ≠ t_id x) →
      forest rest → forest (x :: rest).

Definition children (data : list tnode) (p : string) : list tnode := js_filter (λ x, t_parentId x === p) data.

Definition roots (data : list tnode) : list tnode :=
  js_filter (λ x, js_every (λ y, t_parentId x !== t_id y) data) data.

(** The nodes below a node, in the order in which they are shown. *)
Fixpoint walk (fuel : nat) (data : list tnode) (p : string) : list tnode :=
  match fuel with
  | 0 => []
  | S fuel => concat (map (λ y, y :: walk fuel data (t_id y)) (children data p))
  end.

Definition walk_roots (fuel : nat) (data : list tnode) : list tnode :=
  concat (map (λ y, y :: walk fuel data (t_id y)) (roots data)).

Lemma level_children data p : p ≠ "" → currentLevelList data (Some p) = children data p.
Proof. intros Hp. unfold currentLevelList. by rewrite bool_decide_false. Qed.

Lemma children_cons x data p : children (x :: data) p = if decide (t_parentId x = p) then x :: children data p else children data p.
Proof. unfold children. rewrite js_filter_cons. case_decide; [by rewrite bool_decide_true|by rewrite bool_decide_false]. Qed.

Lemma elem_of_children data p y : y ∈ children data p ↔ t_parentId y = p ∧ y ∈ data.
Proof. unfold children. by rewrite elem_of_js_filter, bool_decide_eq_true. Qed.

Lemma elem_of_roots data y : y ∈ roots data ↔ y ∈ data ∧ ∀ z, z ∈ data → t_parentId y ≠ t_id z.
Proof.
  unfold roots. rewrite elem_of_js_filter, js_every_true. setoid_rewrite negb_true_iff.
  setoid_rewrite bool_decide_eq_false. naive_solver.
Qed.

Lemma forest_ids data y : forest data → y ∈ data → t_id y ≠ "".
Proof. induction 1; set_solver. Qed.

Lemma forest_NoDup data : forest data → NoDup (map t_id data).
Proof.
  induction 1 as [|x rest _ _ _ Hx _ IH]; [by constructor|]. cbn. constructor; [|done].
  intros (y & Hy & Hin)%list_elem_of_fmap. by apply (Hx y).
Qed.

(** The first node is below none of the others. *)
Lemma parent_not_below x rest y : forest (x :: rest) → y ∈ x :: rest → t_id y ≠ t_parentId x.
Proof. inversion 1 as [|? ? _ Hself Hlater _ _]; subst. intros [->|Hy]%elem_of_cons; [done|]. intros E. by apply (Hlater y). Qed.

Lemma option_mapM_ext {A B} (f g : A → option B) (l : list A) : (∀ x, x ∈ l → f x = g x) → mapM f l = mapM g l.
Proof.
  induction l as [|x l IH]; intros Hfg; [done|]. cbn. rewrite Hfg, IH; [done| |]; set_solver.
Qed.

Lemma map_ext_elem {A B} (f g : A → B) (l : list A) : (∀ x, x ∈ l → f x = g x) → map f l = map g l.
Proof. intros Hfg. apply map_ext_in. intros x Hx. apply Hfg. by apply list_elem_of_In. Qed.

Section cons.
Context (x : tnode) (rest : list tnode) (Hf : forest (x :: rest)).

Lemma rest_id y : y ∈ rest → t_id y ≠ "" ∧ t_id y ≠ t_parentId x.
Proof.
  intros Hy. assert (y ∈ x :: rest) as Hy' by (apply elem_of_cons; by right).
  split; [by apply (forest_ids (x :: rest))|by apply (parent_not_below x rest)].
Qed.

Lemma render_cons f keys p : p ≠ "" → p ≠ t_parentId x →
  renderNodes f (x :: rest) keys (Some p) = renderNodes f rest keys (Some p).
Proof.
  revert p. induction f as [|f IH]; intros p Hp Hx; [done|]. cbn [renderNodes].
  rewrite !level_children by done. rewrite children_cons, decide_False by done.
  apply option_mapM_ext. intros y [_ Hy]%elem_of_children. by rewrite IH by (by apply rest_id).
Qed.

Lemma walk_cons f p : p ≠ t_parentId x → walk f (x :: rest) p = walk f rest p.
Proof.
  revert p. induction f as [|f IH]; intros p Hx; [done|]. cbn [walk]. rewrite children_cons, decide_False by done.
  f_equal. apply map_ext_elem. intros y [_ Hy]%elem_of_children. by rewrite IH by (by apply rest_id).
Qed.

Lemma children_below p : ∀ y, y ∈ children (x :: rest) p → t_id y ≠ "" ∧ t_id y ≠ t_parentId x.
Proof.
  intros y [_ Hy]%elem_of_children. split; [by apply (forest_ids (x :: rest))|by apply (parent_not_below x rest)].
Qed.
End cons.

(** ** What is rendered *)
Lemma render_ends data : forest data → ∀ f keys p, length data < f → p ≠ "" → is_Some (renderNodes f data keys (Some p)).
Proof.
  induction 1 as [|x rest H1 H2 H3 H4 Hrest IH]; intros [|f] keys p Hf Hp; cbn in Hf; try lia.
  { cbn [renderNodes]. rewrite level_children by done. by eexists. }
  assert (forest (x :: rest)) as Hx by by constructor.
  cbn [renderNodes]. rewrite level_children by done. apply mapM_is_Some, Forall_forall.
  intros y Hy. destruct (children_below x rest Hx p y Hy) as [Hy0 Hyp]. cbn.
  rewrite (render_cons x rest Hx) by done. by destruct (IH f keys (t_id y) ltac:(lia) Hy0) as [r ->].
Qed.

Lemma render_walk data f keys : forest data → ∀ p r, p ≠ "" →
  renderNodes f data keys (Some p) = Some r → concat (map rendered r) = walk f data p.
Proof.
  intros Hd. induction f as [|f IH]; intros p r Hp; [done|]. cbn [renderNodes walk]. rewrite level_children by done.
  intros Hr%mapM_Some_1. f_equal.
  assert (∀ y, y ∈ children data p → t_id y ≠ "") as Hids.
  { intros y [_ Hy]%elem_of_children. by apply (forest_ids data). }
  induction Hr as [|y t l k Hyt _ IHk]; [done|]. cbn. f_equal; [|apply IHk; set_solver].
  apply bind_Some in Hyt as (ch & Hch & [= <-]). cbn. f_equal. apply (IH _ _ (Hids y ltac:(set_solver)) Hch).
Qed.

Lemma walk_stable data : forest data → ∀ f p, length data ≤ f → walk (S f) data p = walk f data p.
Proof.
  induction 1 as [|x rest H1 H2 H3 H4 Hrest IH]; intros f p Hf; [by destruct f|].
  destruct f as [|f]; cbn in Hf; [lia|]. assert (forest (x :: rest)) as Hx by by constructor.
  change (concat (map (λ y, y :: walk (S f) (x :: rest) (t_id y)) (children (x :: rest) p)) =
          concat (map (λ y, y :: walk f (x :: rest) (t_id y)) (children (x :: rest) p))).
  f_equal. apply map_ext_elem. intros y Hy. destruct (children_below x rest Hx p y Hy) as [_ Hyp].
  rewrite !(walk_cons x rest Hx) by done. by rewrite IH by lia.
Qed.

Lemma roots_split x rest : forest (x :: rest) →
  roots (x :: rest) = x :: js_filter (λ y, (t_parentId y !== t_id x) && js_every (λ z, t_parentId y !== t_id z) rest) rest ∧
  roots rest ≡ₚ children rest (t_id x) ++
    js_filter (λ y, (t_parentId y !== t_id x) && js_every (λ z, t_parentId y !== t_id z) rest) rest.
Proof.
  inversion 1 as [|? ? Hid Hself Hlater Hfresh Hrest]; subst. split.
  - unfold roots. rewrite js_filter_cons. replace (js_every (λ y, t_parentId x !== t_id y) (x :: rest)) with true; [done|].
    symmetry. apply js_every_true. intros z [->|Hz]%elem_of_cons; apply negb_true_iff, bool_decide_eq_false; [done|].
    by apply Hlater.
  - unfold roots, children.
    assert (∀ l, (∀ y, y ∈ l → t_parentId y = t_id x → js_every (λ z, t_parentId y !== t_id z) rest = true) →
      js_filter (λ y, js_every (λ z, t_parentId y !== t_id z) rest) l ≡ₚ
      js_filter (λ y, t_parentId y === t_id x) l ++
      js_filter (λ y, (t_parentId y !== t_id x) && js_every (λ z, t_parentId y !== t_id z) rest) l) as Hl.
    { induction l as [|y l IH]; intros Hy; [done|]. rewrite !js_filter_cons.
      specialize (IH ltac:(set_solver)). destruct (decide (t_parentId y = t_id x)) as [E|E].
      - rewrite (Hy y) by (done || set_solver). rewrite bool_decide_true by done. cbn. by rewrite IH.
      - rewrite bool_decide_false by done. cbn [negb andb]. destruct (js_every _ rest); [|done].
        rewrite IH. by rewrite Permutation_middle. }
    apply Hl. intros y _ E. apply js_every_true. intros z Hz. apply negb_true_iff, bool_decide_eq_false.
    rewrite E. intros Ez. by apply (Hfresh z).
Qed.

Lemma concat_map_Permutation {A B} (g : A → list B) (l l' : list A) : l ≡ₚ l' → concat (map g l) ≡ₚ concat (map g l').
Proof. induction 1; cbn; [done|by f_equiv| |by etrans]. by rewrite !app_assoc, (Permutation_app_comm (g y)). Qed.

Lemma walk_roots_all data : forest data → ∀ f, length data ≤ f → walk_roots f data ≡ₚ data.
Proof.
  induction 1 as [|x rest H1 H2 H3 H4 Hrest IH]; intros f Hf; [done|].
  destruct f as [|f]; cbn in Hf; [lia|]. assert (forest (x :: rest)) as Hx by by constructor.
  destruct (roots_split x rest Hx) as [Hr Hr']. unfold walk_roots. rewrite Hr. cbn [map concat].
  set (others := js_filter _ rest) in *.
  rewrite (walk_cons x rest Hx) by congruence.
  change (walk (S f) rest (t_id x)) with (concat (map (λ y, y :: walk f rest (t_id y)) (children rest (t_id x)))).
  replace (map (λ y, y :: walk (S f) (x :: rest) (t_id y)) others) with (map (λ y, y :: walk f rest (t_id y)) others).
  - cbn [app]. constructor. rewrite <-concat_app, <-map_app. etransitivity; [|apply (IH f); lia]. unfold walk_roots.
    by apply concat_map_Permutation.
  - apply map_ext_elem. intros y [_ Hy]%elem_of_js_filter. destruct (rest_id x rest Hx y Hy) as [_ Hyp].
    by rewrite (walk_cons x rest Hx), walk_stable by (done || lia).
Qed.

(** The rendering of a forest ends, within a level for each node and one, and
    shows every node exactly once. *)
Lemma rendered_once data keys : forest data →
  ∃ r, renderNodes (render_fuel data) data keys None = Some r ∧ concat (map rendered r) ≡ₚ data.
Proof.
  intros Hd.
  assert (∀ y, y ∈ roots data → ∃ r, renderNodes (length data) data keys (Some (t_id y)) = Some r ∧
    concat (map rendered r) = walk (length data) data (t_id y)) as Hy.
  { intros y Hy. assert (y ∈ data) as Hin by (by apply elem_of_roots in Hy as [? _]).
    assert (is_Some (renderNodes (length data) data keys (Some (t_id y)))) as [r Hr].
    { destruct data as [|x rest]; [set_solver|]. inversion Hd; subst.
      rewrite (render_cons x rest Hd) by (by apply (forest_ids (x :: rest)) || by apply (parent_not_below x rest)).
      apply render_ends; [done|cbn; lia|by apply (forest_ids (x :: rest))]. }
    exists r. split; [done|]. eapply render_walk; [done| |done]. by apply (forest_ids data). }
  assert (∃ r, Forall2 (λ x t, (c ← renderNodes (length data) data keys (Some (t_id x));
      Some (RNode x (negb (isExpanded keys (Some (t_id x)))) c)) = Some t) (roots data) r ∧
    concat (map rendered r) = walk_roots (length data) data) as (r & Hr & Hw).
  { unfold walk_roots. induction (roots data) as [|y l IH]; [by exists []; split; [constructor|]|].
    destruct (Hy y ltac:(set_solver)) as (c & Hc & Hcw). destruct IH as (k & Hk & Hkw); [set_solver|].
    eexists (_ :: k). split; [constructor; [by rewrite Hc|done]|]. cbn. by rewrite Hcw, Hkw. }
  apply mapM_Some_2 in Hr.
  exists r. split; [exact Hr|]. rewrite Hw. by apply walk_roots_all.
Qed.

(** ** Loading a tree *)

(** The request for a folder names no page: the server answers with the first
    entries of it ([page_size] in list_files, api/apps/file_app.py). *)
Definition page_size : nat := 15.

Definition list_files (listing : string → list file) (p : string) : list file := take page_size (listing p).

(** What is loaded depends on what the server answers for a folder. *)
Section loading.
Context (answer : string → list file) (root : string).

(** The identifier that the entries of a folder have for their parent; the
    dialog asks for the root with [""]. *)
Definition parent_key (p : string) : string := if p === "" then root else p.

Definition folder_in (p : string) (f : file) : Prop := f ∈ answer p ∧ isFolderType (fl_type f) = true.

(** The folders of the server are a tree: each is in one folder, which it
    names as its parent, and none is above itself. *)
Record server_ok : Prop := {
  so_parent p f : folder_in p f → fl_parent_id f = parent_key p;
  so_id p f : folder_in p f → fl_id f ≠ "" ∧ fl_id f ≠ root;
  so_once p : NoDup (map t_id (new_nodes (answer p)));
  so_place p q f g : folder_in p f → folder_in q g → fl_id f = fl_id g → p = q;
  so_rank : ∃ rank : string → nat, ∀ p f, folder_in p f → p ≠ "" → rank p < rank (fl_id f)
}.

Definition known (data : list tnode) (p : string) : Prop := p = "" ∨ p ∈ map t_id data.

Record tree_ok (d : dialog) : Prop := {
  to_forest : forest (treeData d);
  to_server x : x ∈ treeData d → ∃ p f, known (treeData d) p ∧ folder_in p f ∧ x = node_of_file f;
  to_asked r : r ∈ in_flight d → known (treeData d) (rq_parent r) ∧ children (treeData d) (parent_key (rq_parent r)) = [];
  to_root r : r ∈ in_flight d → rq_parent r = "" → treeData d = [];
  to_single : NoDup (map rq_parent (in_flight d));
  to_complete p : known (treeData d) p →
    children (treeData d) (parent_key p) = [] ∨ children (treeData d) (parent_key p) = new_nodes (answer p)
}.

Context (S : server_ok).

Lemma elem_of_new p x : x ∈ new_nodes (answer p) ↔ ∃ f, folder_in p f ∧ x = node_of_file f.
Proof.
  unfold new_nodes, folder_in. rewrite list_elem_of_fmap. setoid_rewrite elem_of_js_filter. naive_solver.
Qed.

Lemma new_parent p x : x ∈ new_nodes (answer p) → t_parentId x = parent_key p.
Proof. intros (f & Hf & ->)%elem_of_new. by apply (so_parent S). Qed.

Lemma new_id p x : x ∈ new_nodes (answer p) → t_id x ≠ "" ∧ t_id x ≠ root.
Proof. intros (f & Hf & ->)%elem_of_new. by apply (so_id S p). Qed.

Lemma key_not_new p x : x ∈ new_nodes (answer p) → parent_key p ≠ t_id x.
Proof.
  intros (f & Hf & ->)%elem_of_new. unfold parent_key. case_bool_decide as E.
  - intros Er. destruct (so_id S p f Hf) as [_ Hr]. by apply Hr.
  - intros Ep. destruct (so_rank S) as [rank Hrank]. specialize (Hrank p f Hf E). cbn in Ep. rewrite <-Ep in Hrank. lia.
Qed.

Lemma new_forest p : forest (new_nodes (answer p)).
Proof.
  assert (∀ l, (∀ x, x ∈ l → x ∈ new_nodes (answer p)) → NoDup (map t_id l) → forest l) as Hl.
  { induction l as [|x l IH]; intros Hin Hn; [constructor|]. cbn in Hn. apply NoDup_cons in Hn as [Hx Hn].
    assert (x ∈ new_nodes (answer p)) as Hxn by (apply Hin; set_solver).
    pose proof (new_parent p x Hxn) as Hp.
    constructor; [by apply (new_id p)|rewrite Hp; by apply key_not_new| | |apply IH; [set_solver|done]].
    - intros y Hy. rewrite Hp. apply key_not_new, Hin. set_solver.
    - intros y Hy E. apply Hx. rewrite <-E. by apply list_elem_of_fmap_2. }
  apply Hl; [done|apply S].
Qed.

Lemma forest_app data new : forest data → forest new →
  (∀ x y, x ∈ data → y ∈ new → t_parentId x ≠ t_id y ∧ t_id y ≠ t_id x) → forest (data ++ new).
Proof.
  intros Hd Hn. induction Hd as [|x rest H1 H2 H3 H4 _ IH]; intros Hxy; [done|]. cbn. constructor; [done|done| | |].
  - intros y [Hy|Hy]%elem_of_app; [by apply H3|]. by apply (Hxy x y); [set_solver|].
  - intros y [Hy|Hy]%elem_of_app; [by apply H4|]. by apply (Hxy x y); [set_solver|].
  - apply IH. intros x' y Hx' Hy. apply Hxy; [set_solver|done].
Qed.

Lemma children_app l1 l2 p : children (l1 ++ l2) p = children l1 p ++ children l2 p.
Proof. apply js_filter_app. Qed.

Lemma children_new p q : parent_key q ≠ parent_key p → children (new_nodes (answer p)) (parent_key q) = [].
Proof. intros Hne. apply js_filter_none. intros x Hx. rewrite (new_parent p) by done. apply bool_decide_false. congruence. Qed.

Lemma children_new_own p : children (new_nodes (answer p)) (parent_key p) = new_nodes (answer p).
Proof. apply js_filter_all. intros x Hx. apply bool_decide_true. by apply new_parent. Qed.

(** Known folders have keys of their own. *)
Lemma key_inj (d : dialog) p q : tree_ok d → known (treeData d) p → known (treeData d) q →
  parent_key p = parent_key q → p = q.
Proof.
  intros Hok. unfold parent_key.
  assert (∀ s, known (treeData d) s → s ≠ "" → s ≠ root) as Hr.
  { intros s [->|(x & -> & Hx)%list_elem_of_fmap] Hs; [done|].
    destruct (to_server _ Hok x Hx) as (p' & f & _ & Hf & ->). by apply (so_id S p' f). }
  intros Hp Hq. case_bool_decide as Ep; case_bool_decide as Eq; intros E; [congruence| | |done].
  - by destruct (Hr q Hq Eq).
  - by destruct (Hr p Hp Ep).
Qed.

Lemma known_app data new p : known data p → known (data ++ new) p.
Proof. unfold known. rewrite map_app, elem_of_app. naive_solver. Qed.

(** ** Steps *)

(** No arrow is clicked whose folder is being asked for, and a reply is the
    server's answer for the folder or an error. *)
Inductive calm_step (d : dialog) : dialog → Prop :=
  | CalmOpened o : calm_step d (dialog_step d (TreeOpened o))
  | CalmNode i : calm_step d (dialog_step d (NodeClicked i))
  | CalmArrow i :
      (∀ n, treeData d !! i = Some n → t_id n ∉ map rq_parent (in_flight d)) →
      calm_step d (dialog_step d (ArrowClicked i))
  | CalmReply i r :
      in_flight d !! i = Some r → calm_step d (dialog_step d (Replied i (Some (answer (rq_parent r)))))
  | CalmError i : calm_step d (dialog_step d (Replied i None)).

(** What keeps the tree and the requests keeps the invariant. *)
Lemma tree_ok_same d d' : tree_ok d → treeData d' = treeData d → in_flight d' = in_flight d → tree_ok d'.
Proof. intros [] E1 E2. split; rewrite ?E1, ?E2; done. Qed.

Lemma delete_requests i (l : list request) :
  (∀ r, r ∈ delete i l → r ∈ l) ∧ (NoDup (map rq_parent l) → NoDup (map rq_parent (delete i l))).
Proof.
  destruct (l !! i) as [r|] eqn:E.
  - assert (l ≡ₚ r :: delete i l) as Hp by (by apply delete_Permutation).
    split; [intros r' Hr'; rewrite Hp; by right|]. rewrite Hp at 1. cbn. by intros [_ ?]%NoDup_cons.
  - assert (delete i l = l) as ->; [|done].
    rewrite delete_take_drop. apply lookup_ge_None in E. rewrite take_ge, drop_ge by lia. by rewrite app_nil_r.
Qed.

Lemma fewer_requests d i d' : tree_ok d → treeData d' = treeData d → in_flight d' = delete i (in_flight d) → tree_ok d'.
Proof.
  intros [Hf Hs Ha Hr Hn Hc] E1 E2.
  destruct (delete_requests i (in_flight d)) as [Hin Hnd].
  split; rewrite ?E1, ?E2; [done|done|by intros r ?%Hin; apply Ha|by intros r ?%Hin; apply Hr|by apply Hnd|done].
Qed.

Lemma asked_ok d r d' : tree_ok d → treeData d' = treeData d → in_flight d' = in_flight d ++ [r] →
  known (treeData d) (rq_parent r) → children (treeData d) (parent_key (rq_parent r)) = [] →
  (rq_parent r = "" → treeData d = []) → rq_parent r ∉ map rq_parent (in_flight d) → tree_ok d'.
Proof.
  intros [Hf Hs Ha Hr Hn Hc] E1 E2 Hk Hch Hroot Hnew. split; rewrite ?E1, ?E2; [done|done| | | |done].
  - intros r' [Hr'|E%list_elem_of_singleton]%elem_of_app; [by apply Ha|by subst r'].
  - intros r' [Hr'|E%list_elem_of_singleton]%elem_of_app; [by apply Hr|subst r'; done].
  - rewrite map_app. apply NoDup_app. split; [done|]. split; [|apply NoDup_singleton]. set_solver.
Qed.

Lemma mount_ok : tree_ok dialog_mount.
Proof.
  apply (asked_ok {| treeData := []; treeValue := ""; tree_open := false; expandedKeys := []; loadingId := ""; in_flight := [] |}
    {| rq_parent := ""; rq_arrow := false |}); try done; [|by left|set_solver].
  split; cbn; [constructor|set_solver|set_solver|set_solver|constructor|by left].
Qed.

Lemma other_requests d i r : tree_ok d → in_flight d !! i = Some r →
  ∀ r', r' ∈ delete i (in_flight d) → r' ∈ in_flight d ∧ rq_parent r' ≠ rq_parent r.
Proof.
  intros Hok Hi r' Hr'. assert (in_flight d ≡ₚ r :: delete i (in_flight d)) as Hp by (by apply delete_Permutation).
  split; [rewrite Hp; by right|]. pose proof (to_single _ Hok) as Hn. rewrite Hp in Hn. cbn in Hn.
  apply NoDup_cons in Hn as [Hnew _]. intros E. apply Hnew. rewrite <-E. by apply list_elem_of_fmap_2.
Qed.

(** The answer for a folder that is known and not there yet. *)
Lemma loaded_ok d r i d' : tree_ok d → in_flight d !! i = Some r →
  treeData d' = treeData d ++ new_nodes (answer (rq_parent r)) → in_flight d' = delete i (in_flight d) → tree_ok d'.
Proof.
  intros Hok Hi E1 E2. pose proof Hok as [Hf Hs Ha Hr Hn Hc].
  assert (r ∈ in_flight d) as Hin by (by eapply list_elem_of_lookup_2). destruct (Ha r Hin) as [Hk Hch].
  set (p := rq_parent r) in *.
  assert (∀ x y, x ∈ treeData d → y ∈ new_nodes (answer p) → t_id y ≠ t_id x) as Hfresh.
  { intros x y Hx (g & Hg & ->)%elem_of_new E. destruct (Hs x Hx) as (q & f & Hq & Hff & ->).
    assert (p = q) as <- by (by apply (so_place S p q g f)).
    assert (node_of_file f ∈ children (treeData d) (parent_key p)) as Hbad.
    { apply elem_of_children. split; [by apply (so_parent S)|done]. }
    rewrite Hch in Hbad. by apply not_elem_of_nil in Hbad. }
  pose proof (other_requests d i r Hok Hi) as Hothers. fold p in Hothers.
  split; rewrite ?E1, ?E2.
  - apply forest_app; [done|apply new_forest|]. intros x y Hx Hy. split; [|by apply Hfresh].
    destruct (Hs x Hx) as (q & f & Hq & Hff & ->). cbn. rewrite (so_parent S q f Hff). unfold parent_key.
    case_bool_decide as Eq; [intros E; destruct (new_id p y Hy) as [_ Hy']; by apply Hy'|].
    destruct Hq as [->|(z & -> & Hz)%list_elem_of_fmap]; [done|]. intros E. by apply (Hfresh z y).
  - intros x [Hx|Hx]%elem_of_app.
    + destruct (Hs x Hx) as (q & f & Hq & ?). exists q, f. split; [by apply known_app|done].
    + apply elem_of_new in Hx as (f & Hff & ->). exists p, f. split; [by apply known_app|done].
  - intros r' Hr'. destruct (Hothers r' Hr') as [Hr'' Hne]. destruct (Ha r' Hr'') as [Hk' Hch'].
    split; [by apply known_app|]. rewrite children_app, Hch', children_new; [done|].
    intros E. apply Hne. by apply (key_inj d).
  - intros r' Hr' Hroot. destruct (Hothers r' Hr') as [Hr'' Hne]. exfalso.
    pose proof (Hr r' Hr'' Hroot) as Hnil. destruct Hk as [E|Hk]; [congruence|]. rewrite Hnil in Hk. set_solver.
  - apply (to_single (with_loading (loadingId d) (delete i (in_flight d)) d)). by apply (fewer_requests d i).
  - intros q Hq. rewrite children_app. destruct (decide (known (treeData d) q)) as [Hkq|Hnq].
    + destruct (decide (q = p)) as [->|Hne].
      * rewrite Hch, children_new_own. by right.
      * rewrite children_new, app_nil_r; [by apply Hc|]. intros E. apply Hne. by apply (key_inj d).
    + left. destruct Hq as [->|Hq]; [by destruct Hnq; left|]. rewrite map_app in Hq.
      apply elem_of_app in Hq as [Hq|(y & -> & Hy)%list_elem_of_fmap]; [by destruct Hnq; right|].
      destruct (new_id p y Hy) as [Hy0 Hyr].
      assert (parent_key (t_id y) = t_id y) as Ey by (unfold parent_key; by rewrite bool_decide_false).
      rewrite children_new, app_nil_r by (rewrite Ey; intros E; by apply (key_not_new p y Hy)).
      apply js_filter_none. intros x Hx. apply bool_decide_false. rewrite Ey.
      destruct (Hs x Hx) as (s & f & Hks & Hff & ->). cbn. rewrite (so_parent S s f Hff). intros E.
      apply Hnq. destruct (decide (s = "")) as [->|Hs0]; unfold parent_key in E.
      * rewrite bool_decide_true in E by done. congruence.
      * rewrite bool_decide_false in E by done. by rewrite <-E.
Qed.

Lemma effect_ok d : tree_ok d → (treeData d = [] → "" ∉ map rq_parent (in_flight d)) → tree_ok (tree_effect d).
Proof.
  intros Hok Hn. unfold tree_effect. case_bool_decide as E; [|done].
  apply (asked_ok d {| rq_parent := ""; rq_arrow := false |}); try done; [by left|by cbn; rewrite E|by apply Hn].
Qed.

Lemma arrow_ok d n : tree_ok d → n ∈ treeData d → t_id n ∉ map rq_parent (in_flight d) → tree_ok (handleArrowClick n d).
Proof.
  intros Hok Hn Hnew. unfold handleArrowClick. destruct (isExpanded _ _); [by apply (tree_ok_same d)|].
  destruct (js_some _ _) eqn:E; cbn [negb]; [by apply (tree_ok_same d)|].
  assert (t_id n ≠ "") as Hid by (by apply (forest_ids (treeData d)); [apply Hok|]).
  apply (asked_ok d {| rq_parent := t_id n; rq_arrow := true |}); try done.
  - right. exact (list_elem_of_fmap_2 t_id (treeData d) n Hn).
  - apply js_filter_none. intros x Hx. cbn. unfold parent_key. rewrite (bool_decide_false (t_id n = "")) by done.
    destruct (bool_decide (t_parentId x = t_id n)) eqn:Ex; [|done].
    assert (js_some (λ x, t_parentId x === t_id n) (treeData d) = true) as Ht by (apply js_some_true; eauto). by rewrite E in Ht.
Qed.

Lemma reply_ok d i r : tree_ok d → in_flight d !! i = Some r → tree_ok (replied i (Some (answer (rq_parent r))) d).
Proof.
  intros Hok Hi. unfold replied. rewrite Hi. cbn [onLoadData].
  assert (tree_ok (tree_effect (with_tree (treeData d ++ new_nodes (answer (rq_parent r)))
    (with_loading (loadingId d) (delete i (in_flight d)) d)))) as Hd; [|destruct (rq_arrow r); [by eapply tree_ok_same|done]].
  apply effect_ok; [by apply (loaded_ok d r i)|]. cbn. intros [Hnil _]%app_eq_nil (r' & E & Hr')%list_elem_of_fmap.
  destruct (other_requests d i r Hok Hi r' Hr') as [_ Hne]. apply Hne. rewrite <-E.
  destruct (to_asked _ Hok r) as [[?|Hk] _]; [by eapply list_elem_of_lookup_2|done|]. rewrite Hnil in Hk. set_solver.
Qed.

Lemma calm_step_ok d d' : tree_ok d → calm_step d d' → tree_ok d'.
Proof.
  intros Hok [o|i|i Hi|i r Hi|i]; cbn [dialog_step].
  - by apply (tree_ok_same d).
  - destruct (treeData d !! i); [by apply (tree_ok_same d)|done].
  - destruct (treeData d !! i) as [n|] eqn:E; [|done]. destruct (_ || _); [done|].
    apply arrow_ok; [done|by eapply list_elem_of_lookup_2|by apply Hi].
  - by apply reply_ok.
  - unfold replied. destruct (in_flight d !! i) as [r|] eqn:E; [|done].
    destruct (rq_arrow r); by apply (fewer_requests d i).
Qed.

Lemma calm_ok d : rtc calm_step dialog_mount d → tree_ok d.
Proof.
  intros Hd. enough (∀ d0, rtc calm_step d0 d → tree_ok d0 → tree_ok d) as Henough by (by apply (Henough dialog_mount), mount_ok).
  clear Hd. induction 1; [done|]. intros Hok. eauto using calm_step_ok.
Qed.
End loading.

(** The first entries of the folders of a tree are folders of a tree. *)
Lemma first_entries_ok listing root : server_ok listing root → server_ok (list_files listing) root.
Proof.
  intros [H1 H2 H3 H4 [rank H5]]. assert (∀ p f, folder_in (list_files listing) p f → folder_in listing p f) as Hin.
  { intros p f [Hf Hft]. split; [|done]. unfold list_files in Hf. by eapply subseteq_take. }
  split; [eauto..| |eauto|exists rank; eauto].
  intros p. specialize (H3 p). rewrite <- (take_drop page_size (listing p)) in H3. unfold new_nodes in H3.
  rewrite js_filter_app, !map_app in H3. by apply NoDup_app in H3 as [? _].
Qed.

(** C26: However the folder dialog is clicked and in whatever order the
    replies come, as long as no arrow is clicked whose folder is being asked
    for and the folders of the server stay the same and are a tree with
    distinct identifiers: the recursion that draws the tree ends and draws
    every loaded folder exactly once, no identifier is there twice, every node
    is a folder of the server below one that is there, and the folders shown
    below one are none or exactly those among the first fifteen entries the
    server has there, in its order. *)
Theorem tree_shown listing root d (Hserver : server_ok listing root) (Hd : rtc (calm_step (list_files listing)) dialog_mount d) :
  (∃ r, renderNodes (render_fuel (treeData d)) (treeData d) (expandedKeys d) None = Some r ∧
        concat (map rendered r) ≡ₚ treeData d) ∧
  NoDup (map t_id (treeData d)) ∧
  (∀ x, x ∈ treeData d → ∃ p f, known (treeData d) p ∧ f ∈ listing p ∧ isFolderType (fl_type f) = true ∧ x = node_of_file f) ∧
  (∀ p, known (treeData d) p →
     children (treeData d) (parent_key root p) = [] ∨
     children (treeData d) (parent_key root p) =
       map node_of_file (filter (λ f, fl_type f = "folder") (take 15 (listing p)))).
Proof.
  destruct (calm_ok (list_files listing) root (first_entries_ok _ _ Hserver) d Hd) as [Hf Hs _ _ _ Hc].
  split; [by apply rendered_once|]. split; [by apply forest_NoDup|]. split.
  - intros x Hx. destruct (Hs x Hx) as (p & f & Hk & [Hin Hft] & ->). exists p, f. repeat split; [done| |done].
    unfold list_files in Hin. by eapply subseteq_take.
  - intros p Hp. destruct (Hc p Hp) as [?|Hn]; [by left|right]. rewrite Hn. unfold new_nodes, js_filter. f_equal.
    apply list_filter_iff. intros f. unfold isFolderType. by rewrite Is_true_true, bool_decide_eq_true.
Qed.

(** A server with folders A and B, C below A, and a document. *)
Definition sample_file (id parent type : string) : file :=
  {| fl_id := id; fl_parent_id := parent; fl_name := id; fl_type := type; fl_has_child_folder := Some true |}.

Definition sample_content (p : string) : list file :=
  if p === "" then [sample_file "A" "root" "folder"; sample_file "B" "root" "folder"; sample_file "D" "root" "pdf"]
  else if p === "A" then [sample_file "C" "A" "folder"] else [].

Lemma sample_folders p f : folder_in sample_content p f →
  (p = "" ∧ (f = sample_file "A" "root" "folder" ∨ f = sample_file "B" "root" "folder")) ∨
  (p = "A" ∧ f = sample_file "C" "A" "folder").
Proof.
  unfold folder_in, sample_content. intros [Hin Hft]. repeat case_bool_decide; subst; [| |set_solver].
  - rewrite !elem_of_cons, elem_of_nil in Hin. destruct Hin as [->|[->|[->|[]]]]; [by left; eauto|by left; eauto|done].
  - apply list_elem_of_singleton in Hin as ->. by right.
Qed.

Lemma sample_server : server_ok sample_content "root".
Proof.
  split.
  - by intros p f [(-> & [->| ->])|[-> ->]]%sample_folders.
  - by intros p f [(-> & [->| ->])|[-> ->]]%sample_folders.
  - intros p. unfold sample_content. destruct (bool_decide (p = "")); [|destruct (bool_decide (p = "A"))];
      apply (bool_decide_unpack _); vm_compute; exact I.
  - by intros p q f g [(-> & [->| ->])|[-> ->]]%sample_folders [(-> & [->| ->])|[-> ->]]%sample_folders.
  - exists (λ s, if s === "C" then 1 else 0). intros p f [(-> & _)|[-> ->]]%sample_folders; [done|]. intros _. vm_compute. lia.
Qed.

Definition sample_clicks : list dialog_event :=
  [TreeOpened true; Replied 0 (Some (sample_content "")); ArrowClicked 0; NodeClicked 1; Replied 0 (Some (sample_content "A"))].

Lemma tree_shown_witness :
  treeData (dialog_run dialog_mount sample_clicks) ≠ [] ∧
  NoDup (map t_id (treeData (dialog_run dialog_mount sample_clicks))).
Proof.
  split; [by vm_compute|].
  refine (proj1 (proj2 (tree_shown sample_content "root" _ sample_server _))).
  unfold sample_clicks, dialog_run. cbn [foldl].
  eapply rtc_l; [apply (CalmOpened _ _ true)|].
  eapply rtc_l; [apply (CalmReply (list_files sample_content) _ 0 {| rq_parent := ""; rq_arrow := false |}); reflexivity|].
  eapply rtc_l; [apply (CalmArrow _ _ 0); intros n [= <-]; apply (bool_decide_unpack _); vm_compute; exact I|].
  eapply rtc_l; [apply (CalmNode _ _ 1)|].
  eapply rtc_l; [apply (CalmReply (list_files sample_content) _ 0 {| rq_parent := "A"; rq_arrow := true |}); reflexivity|].
  apply rtc_refl.
Defined.

(** The mark of the folder being loaded is one for the whole tree: after a
    click on another arrow the first is enabled again, and closing and opening
    it asks for its folders a second time.  Both replies are added. *)
Lemma two_loads_duplicate :
  let d := dialog_run dialog_mount
    [Replied 0 (Some (sample_content "")); ArrowClicked 0; ArrowClicked 1; ArrowClicked 0; ArrowClicked 0;
     Replied 0 (Some (sample_content "A")); Replied 1 (Some (sample_content "A"))] in
  map t_id (treeData d) = ["A"; "B"; "C"; "C"].
Proof. reflexivity. Qed.

(** A folder behind the first fifteen entries of its own is not offered. *)
Lemma sixteenth_not_offered :
  let listing p := if p === "" then map (λ i, sample_file (pretty i) "root" "folder") (seq 0 16) else [] in
  let d := dialog_run dialog_mount [Replied 0 (Some (list_files listing ""))] in
  length (listing "") = 16 ∧ length (treeData d) = 15 ∧ "15" ∉ map t_id (treeData d).
Proof. split; [done|]. split; [done|]. apply (bool_decide_unpack _). vm_compute. exact I. Qed.

(** When the root has no folder, each reply makes another empty list, and the
    effect asks for the root again. *)
Lemma empty_asks_again files n : new_nodes files = [] →
  let d := dialog_run dialog_mount (repeat (Replied 0 (Some files)) n) in
  treeData d = [] ∧ in_flight d = [{| rq_parent := ""; rq_arrow := false |}].
Proof.
  intros Hf. cbn zeta. unfold dialog_run.
  enough (∀ d, treeData d = [] → in_flight d = [{| rq_parent := ""; rq_arrow := false |}] →
    treeData (foldl dialog_step d (repeat (Replied 0 (Some files)) n)) = [] ∧
    in_flight (foldl dialog_step d (repeat (Replied 0 (Some files)) n)) = [{| rq_parent := ""; rq_arrow := false |}])
    as Henough by by apply Henough.
  induction n as [|n IH]; intros d Ed Er; [done|]. cbn [repeat foldl dialog_step]. apply IH;
    unfold replied; rewrite Er; cbn; rewrite Ed, Hf; done.
Qed.

(** ** The request behind the dialog *)

(** What is chosen is moved to the folder that is submitted, once, and the
    dialog closes when that succeeded; only a bulk operation clears the rows
    that are selected. *)
Lemma move_turn ids bulk target ret m :
  let m' := onMoveFileOk target ret (handleShowMoveFileModal ids bulk m) in
  moved m' = moved m ++ [(ids, target)] ∧
  (moveFileVisible m' = false ↔ ret = 0%Z) ∧
  rowSelection m' = if (ret === 0%Z) && bulk then [] else rowSelection m.
Proof. cbn. unfold onMoveFileOk. case_bool_decide; destruct bulk; cbn; naive_solver. Qed.

