(* ===== verification/SchemaEditor.v ===== *)
(** * Editing the schema of a structured output

    components/jsonjoy-builder: lib/schema-editor.ts, the helpers of
    types/json-schema.ts and the editors under components/schema-editor, with
    which the dialog of an agent's structured output is edited
    (pages/agent/form/components/schema-dialog.tsx).  An editor hands a new
    schema to the editor around it, up to the dialog. *)
From S2P Require Import Prelude JsValue.
From Stdlib Require Import Ascii.
Open Scope list_scope.
Open Scope nat_scope.
Open Scope js_scope.

(** ** Schemas *)
Definition isBooleanSchema (schema : val) : bool := match schema with VBool _ => true | _ => false end.

Definition isObjectSchema (schema : val) : bool := negb (isBooleanSchema schema).

Definition asObjectSchema (schema : val) : val :=
  if isObjectSchema schema then schema else VObj [("type", VStr "null")].

Definition withObjectSchema {A} (schema : val) (fn : val → A) (defaultValue : A) : A :=
  if isObjectSchema schema then fn schema else defaultValue.

Definition getSchemaDescription (schema : val) : val :=
  if isObjectSchema schema then js_or (prop "description" schema) (VStr "") else VStr "".

(** [{ ...schema }] *)
Definition spread (schema : val) : obj := obj_assign [] (obj_of_val schema).

(** ** lib/schema-editor.ts *)
Record property := { pr_name : string; pr_schema : val; pr_required : bool }.

Definition updateObjectProperty (schema : val) (propertyName : string) (propertySchema : val) : val :=
  if isObjectSchema schema
  then VObj (obj_set "properties" (VObj (obj_set propertyName propertySchema (obj_of_val (prop "properties" schema))))
         (obj_of_val schema))
  else schema.

Definition without_name (name : string) (required : val) : val :=
  VArr (js_filter (λ x, x !== VStr name) (arr_of_val required)).

Definition removeObjectProperty (schema : val) (propertyName : string) : val :=
  if negb (isObjectSchema schema) || negb (truthy (prop "properties" schema)) then schema
  else
    let o := obj_set "properties" (VObj (obj_del propertyName (obj_of_val (prop "properties" schema)))) (obj_of_val schema) in
    VObj (if truthy (obj_get "required" o) then obj_set "required" (without_name propertyName (obj_get "required" o)) o else o).

Definition updatePropertyRequired (schema : val) (propertyName : string) (required : bool) : val :=
  if isObjectSchema schema
  then
    let names := if truthy (prop "required" schema) then arr_of_val (prop "required" schema) else [] in
    VObj (obj_set "required"
           (if required
            then VArr (if js_includes names (VStr propertyName) then names else names ++ [VStr propertyName])
            else without_name propertyName (VArr names))
           (obj_of_val schema))
  else schema.

Definition getSchemaProperties (schema : val) : list property :=
  if isObjectSchema schema && truthy (prop "properties" schema)
  then
    let required := arr_of_val (js_or (prop "required" schema) (VArr [])) in
    map (λ kv, {| pr_name := kv.1; pr_schema := kv.2; pr_required := js_includes required (VStr kv.1) |})
      (obj_entries (obj_of_val (prop "properties" schema)))
  else [].

Definition find_property (name : string) (schema : val) : option property :=
  js_find (λ p, pr_name p === name) (getSchemaProperties schema).

Definition getArrayItemsSchema (schema : val) : option val :=
  if isBooleanSchema schema then None
  else if prop "type" schema !== VStr "array" then None
  else if truthy (prop "items" schema) then Some (prop "items" schema) else None.

(** A field as the forms describe it; [nf_validation] may be [undefined]. *)
Record new_field := {
  nf_name : string;
  nf_type : val;
  nf_description : val;
  nf_required : bool;
  nf_validation : val
}.

Definition createFieldSchema (f : new_field) : val :=
  if isObjectSchema (nf_validation f)
  then VObj (obj_assign [("type", nf_type f); ("description", nf_description f)] (obj_of_val (nf_validation f)))
  else nf_validation f.

(** What the form of a new field submits; nothing under a blank name. *)
Record field_form := { ff_name : string; ff_type : string; ff_description : string; ff_required : bool }.

Definition added_field (f : field_form) : option new_field :=
  if str_trim (ff_name f) === "" then None
  else Some {| nf_name := ff_name f; nf_type := VStr (ff_type f); nf_description := VStr (ff_description f);
               nf_required := ff_required f; nf_validation := VUndef |}.

(** ** The row of a property *)

(** What a row asks of the editor around it. *)
Inductive prop_call :=
  | OnDelete
  | OnNameChange (newName : string)
  | OnRequiredChange (required : bool)
  | OnSchemaChange (schema : val).

(** What is done in a row. *)
Inductive prop_action :=
  | Deleted
  | NameSubmitted (tempName : string)
  | DescSubmitted (tempDesc : string)
  | TypeChosen (newType : string)
  | RequiredClicked.

Definition handleNameSubmit (name tempName : string) : option prop_call :=
  let trimmedName := str_trim tempName in
  if (trimmedName !== "") && (trimmedName !== name) then Some (OnNameChange trimmedName) else None.

Definition handleDescSubmit (schema : val) (tempDesc : string) : option prop_call :=
  let trimmedDesc := VStr (str_trim tempDesc) in
  if trimmedDesc !== getSchemaDescription schema
  then Some (OnSchemaChange (VObj (obj_set "description" (js_or trimmedDesc VUndef) (spread (asObjectSchema schema)))))
  else None.

(** The schema that the editor below a row hands up keeps the description. *)
Definition handleSchemaUpdate (schema updatedSchema : val) : val :=
  VObj (obj_set "description" (js_or (getSchemaDescription schema) VUndef) (spread updatedSchema)).

Definition prop_run (a : prop_action) (p : property) : option prop_call :=
  match a with
  | Deleted => Some OnDelete
  | NameSubmitted s => handleNameSubmit (pr_name p) s
  | DescSubmitted s => handleDescSubmit (pr_schema p) s
  | TypeChosen t => Some (OnSchemaChange (VObj (obj_set "type" (VStr t) (spread (asObjectSchema (pr_schema p))))))
  | RequiredClicked => Some (OnRequiredChange (negb (pr_required p)))
  end.

(** ** The editor of an object *)
Definition normalizedSchema (schema : val) : val :=
  if isBooleanSchema schema then VObj [("type", VStr "object"); ("properties", VObj [])]
  else VObj (obj_set "properties" (js_or (prop "properties" schema) (VObj [])) (obj_set "type" (VStr "object") (spread schema))).

Definition handleAddProperty (f : new_field) (schema : val) : val :=
  let fieldSchema := VObj (obj_assign [("type", nf_type f); ("description", js_or (nf_description f) VUndef)]
                             (obj_of_val (js_or (nf_validation f) (VObj [])))) in
  let newSchema := updateObjectProperty (normalizedSchema schema) (nf_name f) fieldSchema in
  if nf_required f then updatePropertyRequired newSchema (nf_name f) true else newSchema.

Definition handleDeleteProperty (propertyName : string) (schema : val) : val :=
  removeObjectProperty (normalizedSchema schema) propertyName.

Definition handlePropertyNameChange (oldName newName : string) (schema : val) : option val :=
  if oldName === newName then None
  else
    match find_property oldName schema with
    | None => None
    | Some property =>
        let newSchema := updateObjectProperty (normalizedSchema schema) newName (asObjectSchema (pr_schema property)) in
        let newSchema := if pr_required property then updatePropertyRequired newSchema newName true else newSchema in
        Some (removeObjectProperty newSchema oldName)
    end.

Definition handlePropertyRequiredChange (propertyName : string) (required : bool) (schema : val) : val :=
  updatePropertyRequired (normalizedSchema schema) propertyName required.

Definition handlePropertySchemaChange (propertyName : string) (propertySchema schema : val) : val :=
  updateObjectProperty (normalizedSchema schema) propertyName propertySchema.

Definition object_call (name : string) (c : prop_call) (schema : val) : option val :=
  match c with
  | OnDelete => Some (handleDeleteProperty name schema)
  | OnNameChange newName => handlePropertyNameChange name newName schema
  | OnRequiredChange required => Some (handlePropertyRequiredChange name required schema)
  | OnSchemaChange s => Some (handlePropertySchemaChange name s schema)
  end.

(** ** The editors of an array, a string, a number and a boolean *)
Record array_state := { minItems : val; maxItems : val; uniqueItems : bool }.

Definition array_mount (schema : val) : array_state :=
  {| minItems := withObjectSchema schema (prop "minItems") VUndef;
     maxItems := withObjectSchema schema (prop "maxItems") VUndef;
     uniqueItems := withObjectSchema schema (λ s, truthy (prop "uniqueItems" s)) false |}.

Definition itemsSchema (schema : val) : val := default (VObj [("type", VStr "string")]) (getArrayItemsSchema schema).

Definition array_base (schema : val) : obj :=
  obj_assign [("type", VStr "array")] (if isBooleanSchema schema then [] else obj_of_val schema).

Definition array_bounds (st : array_state) (schema : val) : val :=
  let o := obj_set "uniqueItems" (if uniqueItems st then VBool true else VUndef)
             (obj_set "maxItems" (maxItems st) (obj_set "minItems" (minItems st) (array_base schema))) in
  let o := if obj_get "items" o === VUndef then obj_set "items" (itemsSchema schema) o else o in
  VObj (js_filter (λ kv, negb (is_undef kv.2)) (obj_entries o)).

Definition handleItemSchemaChange (updatedItemSchema schema : val) : val :=
  VObj (obj_set "items" updatedItemSchema (array_base schema)).

(** The switch: the handler that the timer calls is the one of the rendering
    in which the switch was clicked. *)
Definition unique_clicked (checked : bool) (st : array_state) (schema : val) : array_state * val :=
  ({| minItems := minItems st; maxItems := maxItems st; uniqueItems := checked |}, array_bounds st schema).

Inductive string_key := SEnum | SMinLength | SMaxLength | SPattern | SFormat.

Definition string_key_name (k : string_key) : string :=
  match k with
  | SEnum => "enum" | SMinLength => "minLength" | SMaxLength => "maxLength" | SPattern => "pattern" | SFormat => "format"
  end.

Definition string_changed (k : string_key) (value schema : val) : val :=
  let baseSchema := if isBooleanSchema schema then [("type", VStr "string")] else spread schema in
  VObj (obj_set (string_key_name k) value
    (obj_set "type" (VStr "string") (obj_del "description" (obj_del "type" baseSchema)))).

(** The last of the allowed values is removed. *)
Definition string_enum_emptied (schema : val) : val :=
  let baseSchema := if isBooleanSchema schema then [("type", VStr "string")] else spread schema in
  VObj (if obj_has "enum" baseSchema then obj_del "enum" baseSchema else baseSchema).

Inductive number_key := NMinimum | NMaximum | NExclusiveMinimum | NExclusiveMaximum | NMultipleOf | NEnum.

Definition number_key_name (k : number_key) : string :=
  match k with
  | NMinimum => "minimum" | NMaximum => "maximum" | NExclusiveMinimum => "exclusiveMinimum"
  | NExclusiveMaximum => "exclusiveMaximum" | NMultipleOf => "multipleOf" | NEnum => "enum"
  end.

Definition number_keys : list string :=
  ["minimum"; "maximum"; "exclusiveMinimum"; "exclusiveMaximum"; "multipleOf"; "enum"].

Definition number_changed (integer : bool) (k : number_key) (value schema : val) : val :=
  let baseProperties :=
    ("type", VStr (if integer then "integer" else "number")) ::
    (if isBooleanSchema schema then []
     else map (λ key, (key, prop key schema)) (js_filter (λ key, negb (is_undef (prop key schema))) number_keys)) in
  VObj (if is_undef value then obj_del (number_key_name k) baseProperties
        else obj_set (number_key_name k) value baseProperties).

(** The values that are allowed after a click; [None]: nothing is handed up. *)
Definition newEnum (value allowed : bool) (enumValues : val) : option val :=
  let hasRestrictions := is_array enumValues in
  let includes := js_includes (arr_of_val enumValues) (VBool value) in
  if allowed then
    if negb hasRestrictions || includes then None
    else
      let newEnum := arr_of_val enumValues ++ [VBool value] in
      Some (if js_includes newEnum (VBool true) && js_includes newEnum (VBool false) then VUndef else VArr newEnum)
  else if hasRestrictions && negb includes then None else Some (VArr [VBool (negb value)]).

Definition handleAllowedChange (value allowed : bool) (schema : val) : option val :=
  (λ e, VObj (if truthy e then [("type", VStr "boolean"); ("enum", e)] else [("type", VStr "boolean")])) <$>
  newEnum value allowed (withObjectSchema schema (prop "enum") VNull).

(** ** The editor that fits the type *)
Inductive type_action :=
  | FieldAdded (f : field_form)
  | FieldAction (name : string) (a : prop_action)
  | ItemTypeChosen (newType : string)
  | ArrayBounded (st : array_state)
  | StringChanged (k : string_key) (value : val)
  | StringEnumEmptied
  | NumberChanged (k : number_key) (value : val)
  | BooleanAllowed (value allowed : bool).

Definition editor_type (schema : val) : val :=
  withObjectSchema schema (λ s, js_or (prop "type" s) (VStr "object")) (VStr "string").

Definition type_run (a : type_action) (schema : val) : option val :=
  match a with
  | FieldAdded f =>
      if editor_type schema === VStr "object" then (f ← added_field f; Some (handleAddProperty f schema)) else None
  | FieldAction name a =>
      if editor_type schema === VStr "object" then
        (p ← find_property name schema; c ← prop_run a p; object_call name c schema)
      else None
  | ItemTypeChosen t =>
      if editor_type schema === VStr "array" then
        Some (handleItemSchemaChange
          (VObj (obj_set "type" (VStr t) (withObjectSchema (itemsSchema schema) spread []))) schema)
      else None
  | ArrayBounded st => if editor_type schema === VStr "array" then Some (array_bounds st schema) else None
  | StringChanged k value => if editor_type schema === VStr "string" then Some (string_changed k value schema) else None
  | StringEnumEmptied => if editor_type schema === VStr "string" then Some (string_enum_emptied schema) else None
  | NumberChanged k value =>
      if editor_type schema === VStr "number" then Some (number_changed false k value schema)
      else if editor_type schema === VStr "integer" then Some (number_changed true k value schema)
      else None
  | BooleanAllowed value allowed =>
      if editor_type schema === VStr "boolean" then handleAllowedChange value allowed schema else None
  end.

(** The way from an editor to one inside it. *)
Inductive step := InField (name : string) | InItem.

#[export] Instance step_eq_dec : EqDecision step.
Proof. solve_decision. Defined.

(** What the editor of [schema] hands up when something is done in the editor
    at the end of the way. *)
Fixpoint type_edit (route : list step) (a : type_action) (schema : val) : option val :=
  match route with
  | [] => type_run a schema
  | InField name :: route =>
      if editor_type schema === VStr "object" then
        (p ← find_property name schema;
         updated ← type_edit route a (pr_schema p);
         Some (handlePropertySchemaChange name (handleSchemaUpdate (pr_schema p) updated) schema))
      else None
  | InItem :: route =>
      if editor_type schema === VStr "array" then
        (updated ← type_edit route a (itemsSchema schema); Some (handleItemSchemaChange updated schema))
      else None
  end.

(** ** The editor of the dialog *)
Definition handleAddField (f : new_field) (schema : val) : val :=
  let newSchema := updateObjectProperty (asObjectSchema schema) (nf_name f) (createFieldSchema f) in
  if nf_required f then updatePropertyRequired newSchema (nf_name f) true else newSchema.

Definition handleEditField (name : string) (updatedField : new_field) (schema : val) : val :=
  let fieldSchema := createFieldSchema updatedField in
  let newName := nf_name updatedField in
  let newSchema := updateObjectProperty (asObjectSchema schema) newName fieldSchema in
  let newSchema := updatePropertyRequired newSchema newName (nf_required updatedField) in
  if name !== newName then
    let rest := obj_del "properties" (obj_of_val newSchema) in
    let remainingProps := obj_del name (obj_of_val (js_or (prop "properties" newSchema) (VObj []))) in
    let newSchema := VObj (obj_set "properties" (VObj remainingProps) (obj_assign [] rest)) in
    let newSchema := updateObjectProperty newSchema newName fieldSchema in
    if nf_required updatedField then updatePropertyRequired newSchema newName true else newSchema
  else newSchema.

Definition handleDeleteField (name : string) (schema : val) : option val :=
  if isBooleanSchema schema || negb (truthy (prop "properties" schema)) then None
  else
    let o := obj_set "properties" (VObj (obj_del name (obj_of_val (prop "properties" schema)))) (spread schema) in
    Some (VObj (if truthy (obj_get "required" o) then obj_set "required" (without_name name (obj_get "required" o)) o else o)).

(** [Array.isArray(type) ? type[0] || 'object' : type || 'object'] *)
Definition single_type (type : val) : val :=
  match type with VArr l => js_or (default VUndef (head l)) (VStr "object") | _ => js_or type (VStr "object") end.

Definition getValidSchemaType (propSchema : val) : val :=
  if isBooleanSchema propSchema then VStr "object" else single_type (prop "type" propSchema).

Definition same_field (p : property) (name : string) (required : bool) : new_field :=
  {| nf_name := name; nf_type := getValidSchemaType (pr_schema p);
     nf_description := getSchemaDescription (pr_schema p); nf_required := required;
     nf_validation := if isBooleanSchema (pr_schema p) then VObj [("type", VStr "object")] else pr_schema p |}.

Definition handleSchemaChange (p : property) (updatedSchema : val) : new_field :=
  {| nf_name := pr_name p; nf_type := single_type (prop "type" updatedSchema);
     nf_description := js_or (prop "description" updatedSchema) (VStr ""); nf_required := pr_required p;
     nf_validation := updatedSchema |}.

Definition visual_call (p : property) (c : prop_call) (schema : val) : option val :=
  match c with
  | OnDelete => handleDeleteField (pr_name p) schema
  | OnNameChange newName => Some (handleEditField (pr_name p) (same_field p newName (pr_required p)) schema)
  | OnRequiredChange required => Some (handleEditField (pr_name p) (same_field p (pr_name p) required) schema)
  | OnSchemaChange s => Some (handleEditField (pr_name p) (handleSchemaChange p s) schema)
  end.

Inductive visual_event :=
  | VAdd (f : field_form)
  | VField (name : string) (a : prop_action)
  | VInside (name : string) (route : list step) (a : type_action).

Definition visual_change (e : visual_event) (schema : val) : option val :=
  match e with
  | VAdd f => f ← added_field f; Some (handleAddField f schema)
  | VField name a => p ← find_property name schema; c ← prop_run a p; visual_call p c schema
  | VInside name route a =>
      p ← find_property name schema;
      updated ← type_edit route a (pr_schema p);
      visual_call p (OnSchemaChange (handleSchemaUpdate (pr_schema p) updated)) schema
  end.

(** The schema of the dialog. *)
Definition visual_step (schema : val) (e : visual_event) : val := default schema (visual_change e schema).

Definition visual_run (schema : val) (es : list visual_event) : val := foldl visual_step schema es.

(** ** What an editor shows

    A schema as the fields that lie on the ways into it. *)
Record field := { fd_type : val; fd_required : bool; fd_description : val; fd_enum : val }.

Definition props (schema : val) : obj := obj_of_val (prop "properties" schema).

Definition reqs (schema : val) : list val := arr_of_val (prop "required" schema).

Definition child (x : step) (schema : val) : option val :=
  match x with
  | InField n => obj_lookup n (props schema)
  | InItem => if is_undef (prop "items" schema) then None else Some (prop "items" schema)
  end.

Definition required_in (x : step) (schema : val) : bool :=
  match x with InField n => js_includes (reqs schema) (VStr n) | InItem => false end.

Definition info (req : bool) (schema : val) : field :=
  {| fd_type := js_or (prop "type" schema) (VStr "object"); fd_required := req;
     fd_description := js_or (prop "description" schema) (VStr ""); fd_enum := prop "enum" schema |}.

Fixpoint field_at (req : bool) (q : list step) (schema : val) : option field :=
  match q with
  | [] => Some (info req schema)
  | x :: q => c ← child x schema; field_at (required_in x schema) q c
  end.

Definition tree := list step → option field.

Definition tree_of (req : bool) (schema : val) : tree := λ q, field_at req q schema.

(** *** Operations on trees *)
Definition t_put (x : step) (sub : option tree) (t : tree) : tree :=
  λ q, match q with
       | [] => t []
       | y :: q' => if decide (y = x) then (u ← sub; u q') else t q
       end.

Definition under (x : step) (t : tree) : tree := λ q, t (x :: q).

Definition root_map (g : field → field) (t : tree) : tree := λ q, match q with [] => g <$> t [] | _ => t q end.

(** Only the root is left. *)
Definition only_root (t : tree) : tree := λ q, match q with [] => t [] | _ => None end.

Definition leaf (fd : field) : tree := λ q, match q with [] => Some fd | _ => None end.

Definition set_type (ty : val) (fd : field) : field :=
  {| fd_type := ty; fd_required := fd_required fd; fd_description := fd_description fd; fd_enum := fd_enum fd |}.
Definition set_required (b : bool) (fd : field) : field :=
  {| fd_type := fd_type fd; fd_required := b; fd_description := fd_description fd; fd_enum := fd_enum fd |}.
Definition set_description (d : val) (fd : field) : field :=
  {| fd_type := fd_type fd; fd_required := fd_required fd; fd_description := d; fd_enum := fd_enum fd |}.
Definition set_enum (e : val) (fd : field) : field :=
  {| fd_type := fd_type fd; fd_required := fd_required fd; fd_description := fd_description fd; fd_enum := e |}.

Definition required_at (n : string) (t : tree) : bool := from_option fd_required false (t [InField n]).

(** The editor of an array shows a string where no items are described. *)
Definition shown_item (t : tree) : tree :=
  match t [InItem] with
  | Some _ => under InItem t
  | None => leaf {| fd_type := VStr "string"; fd_required := false; fd_description := VStr ""; fd_enum := VUndef |}
  end.

(** *** What is meant to happen *)
Definition spec_add (f : field_form) (t : tree) : option tree :=
  if str_trim (ff_name f) === "" then None
  else Some (t_put (InField (ff_name f))
    (Some (leaf {| fd_type := js_or (VStr (ff_type f)) (VStr "object");
                   fd_required := ff_required f || required_at (ff_name f) t;
                   fd_description := VStr (ff_description f); fd_enum := VUndef |})) t).

(** Renamed to the name of another field, a field takes its place; in the
    editor of an object it is then also required when the other was. *)
Definition spec_field (top : bool) (n : string) (a : prop_action) (t : tree) : option tree :=
  fd ← t [InField n];
  let below g := t_put (InField n) (Some (root_map g (under (InField n) t))) t in
  match a with
  | Deleted => Some (t_put (InField n) None t)
  | NameSubmitted s =>
      let m := str_trim s in
      if (m === "") || (m === n) then None
      else
        let required := if top then fd_required fd else fd_required fd || required_at m t in
        Some (t_put (InField n) None (t_put (InField m) (Some (root_map (set_required required) (under (InField n) t))) t))
  | DescSubmitted s => if VStr (str_trim s) === fd_description fd then None else Some (below (set_description (VStr (str_trim s))))
  | TypeChosen ty => Some (below (set_type (js_or (VStr ty) (VStr "object"))))
  | RequiredClicked => Some (below (set_required (negb (fd_required fd))))
  end.

Definition has_type (t : tree) (ty : string) : bool := from_option (λ fd, fd_type fd === VStr ty) false (t []).

Definition spec_action (a : type_action) (t : tree) : option tree :=
  match a with
  | FieldAdded f => if has_type t "object" then spec_add f t else None
  | FieldAction n a => if has_type t "object" then spec_field false n a t else None
  | ItemTypeChosen ty =>
      if has_type t "array"
      then Some (t_put InItem (Some (root_map (set_type (js_or (VStr ty) (VStr "object"))) (shown_item t))) t) else None
  | ArrayBounded _ => if has_type t "array" then Some (t_put InItem (Some (shown_item t)) t) else None
  | StringChanged k v =>
      if has_type t "string"
      then Some (root_map (λ fd, set_description (VStr "") (match k with SEnum => set_enum v fd | _ => fd end)) t) else None
  | StringEnumEmptied => if has_type t "string" then Some (root_map (set_enum VUndef) t) else None
  | NumberChanged k v =>
      if has_type t "number" || has_type t "integer"
      then Some (only_root (root_map (λ fd, set_description (VStr "") (match k with NEnum => set_enum v fd | _ => fd end)) t))
      else None
  | BooleanAllowed v allowed =>
      if has_type t "boolean" then
        (fd ← t []; e ← newEnum v allowed (fd_enum fd);
         Some (only_root (root_map (λ fd, set_description (VStr "") (set_enum e fd)) t)))
      else None
  end.

(** A field keeps its description whatever is done inside it; the items of an
    array do not. *)
Definition spec_inside (n : string) (edit : tree → option tree) (t : tree) : option tree :=
  fd ← t [InField n];
  u ← edit (under (InField n) t);
  Some (t_put (InField n) (Some (root_map (set_description (fd_description fd)) u)) t).

Fixpoint spec_edit (route : list step) (a : type_action) (t : tree) : option tree :=
  match route with
  | [] => spec_action a t
  | InField n :: route => if has_type t "object" then spec_inside n (spec_edit route a) t else None
  | InItem :: route =>
      if has_type t "array" then (u ← spec_edit route a (shown_item t); Some (t_put InItem (Some u) t)) else None
  end.

Definition spec_step (t : tree) (e : visual_event) : tree :=
  default t (match e with
             | VAdd f => spec_add f t
             | VField n a => spec_field true n a t
             | VInside n route a => spec_inside n (spec_edit route a) t
             end).
