(* ===== verification/SchemaEditorProps.v ===== *)
(** * The editor of a schema keeps the tree of its fields

    The editors of [SchemaEditor] against operations on trees of fields: each
    level of a schema is related to the operations of its editor
    ([changed], [same]), an edit at the end of a way to the edit of the tree
    below that way ([edit_refines]), and a sequence of edits in the dialog to
    the same operations one after the other ([schema_edits_refine]). *)
From S2P Require Import Prelude JsValue SchemaEditor.
Open Scope list_scope.
Open Scope nat_scope.
Open Scope js_scope.

(** ** Well-formed schemas

    Objects throughout (the code also accepts booleans), and the required
    names are fields that are there. *)
Record level_ok (s : val) : Prop := {
  lo_obj : ∃ o, s = VObj o ∧ obj_wf o;
  lo_props : prop "properties" s = VUndef ∨ ∃ ps, prop "properties" s = VObj ps ∧ obj_wf ps;
  lo_reqs : prop "required" s = VUndef ∨ ∃ l, prop "required" s = VArr l;
  lo_closed v : v ∈ reqs s → ∃ n, v = VStr n ∧ is_Some (child (InField n) s)
}.

Fixpoint schema_at (q : list step) (s : val) : option val :=
  match q with [] => Some s | x :: q => c ← child x s; schema_at q c end.

Definition schema_ok (s : val) : Prop := ∀ q c, schema_at q s = Some c → level_ok c.

Lemma ok_level s : schema_ok s → level_ok s.
Proof. intros Hs. by apply (Hs []). Qed.

Lemma ok_child x s c : schema_ok s → child x s = Some c → schema_ok c.
Proof. intros Hs Hc q d Hd. apply (Hs (x :: q)). cbn. by rewrite Hc. Qed.

Lemma schema_ok_intro s : level_ok s → (∀ x c, child x s = Some c → schema_ok c) → schema_ok s.
Proof.
  intros Hl Hc [|x q] c; cbn; [by intros [= <-]|]. intros (d & Hd & Hq)%bind_Some. by apply (Hc x d Hd q).
Qed.

(** ** Trees up to extension *)
Record tree_eq (t u : tree) : Prop := { tree_at q : t q = u q }.
Arguments tree_at {_ _}.
Infix "≈" := tree_eq (at level 70) : js_scope.

#[export] Instance tree_equivalence : Equivalence tree_eq.
Proof. split; [by intros t; split|by intros t u H; split; intros q; rewrite (tree_at H)|intros t u w H1 H2; split; intros q; by rewrite (tree_at H1), (tree_at H2)]. Qed.

Definition otree_eq (t u : option tree) : Prop := option_relation tree_eq (λ _, False) (λ _, False) t u.
Infix "≈?" := otree_eq (at level 70) : js_scope.

#[export] Instance otree_reflexive : Reflexive otree_eq.
Proof. by intros [t|]; cbn. Qed.

#[export] Instance t_put_proper x : Proper (otree_eq ==> tree_eq ==> tree_eq) (t_put x).
Proof.
  intros [a|] [b|] Hab t u Htu; try done; split; intros [|y q]; cbn;
    try case_decide; first [apply (tree_at Htu)|done|apply (tree_at Hab)].
Qed.

#[export] Instance under_proper x : Proper (tree_eq ==> tree_eq) (under x).
Proof. intros t u H. split. intros q. apply (tree_at H). Qed.

#[export] Instance root_map_proper g : Proper (tree_eq ==> tree_eq) (root_map g).
Proof. intros t u H. split. intros [|y q]; cbn; by rewrite (tree_at H). Qed.

#[export] Instance only_root_proper : Proper (tree_eq ==> tree_eq) only_root.
Proof. intros t u H. split. intros [|y q]; [apply (tree_at H)|done]. Qed.

#[export] Instance shown_item_proper : Proper (tree_eq ==> tree_eq) shown_item.
Proof. intros t u H. unfold shown_item. rewrite (tree_at H [InItem]). by destruct (u _); [apply under_proper|]. Qed.

#[export] Instance Some_tree_proper : Proper (tree_eq ==> otree_eq) Some.
Proof. by intros t u H. Qed.

Lemma has_type_proper t u ty : t ≈ u → has_type t ty = has_type u ty.
Proof. intros H. unfold has_type. by rewrite (tree_at H []). Qed.

Lemma spec_add_proper f t u : t ≈ u → spec_add f t ≈? spec_add f u.
Proof.
  intros H. unfold spec_add, required_at. rewrite (tree_at H [InField _]). case_bool_decide; [done|]. cbn. by rewrite H.
Qed.

Lemma spec_field_proper top n a t u : t ≈ u → spec_field top n a t ≈? spec_field top n a u.
Proof.
  intros H. unfold spec_field, required_at. rewrite (tree_at H [InField n]). destruct (u [InField n]) as [fd|]; [|done]. cbn.
  destruct a as [|s|s|ty|]; cbn; [by rewrite H| | |by rewrite H|by rewrite H].
  - rewrite (tree_at H [InField _]). destruct (_ || _); [done|]. cbn. by rewrite H.
  - case_bool_decide; [done|]. cbn. by rewrite H.
Qed.

Lemma spec_action_proper a t u : t ≈ u → spec_action a t ≈? spec_action a u.
Proof.
  intros H. unfold spec_action. destruct a; rewrite ?(has_type_proper _ _ _ H);
    try (destruct (has_type _ _); [|done]); [by apply spec_add_proper|by apply spec_field_proper|cbn; by rewrite H|cbn; by rewrite H
    |cbn; by rewrite H|cbn; by rewrite H| |].
  - destruct (_ || _); cbn; [|done]. by rewrite H.
  - rewrite (tree_at H []). destruct (u []) as [fd|]; [|done]. cbn. destruct (newEnum _ _ _); cbn; [|done]. by rewrite H.
Qed.

Lemma spec_inside_proper n (f : tree → option tree) t u : (∀ a b, a ≈ b → f a ≈? f b) → t ≈ u →
  spec_inside n f t ≈? spec_inside n f u.
Proof.
  intros Hf H. unfold spec_inside. rewrite (tree_at H [InField n]). destruct (u [InField n]) as [fd|]; [|done]. cbn.
  specialize (Hf _ _ (under_proper (InField n) _ _ H)). destruct (f (under _ t)), (f (under _ u)); try done. cbn in *.
  by rewrite Hf, H.
Qed.

Lemma spec_edit_proper route a t u : t ≈ u → spec_edit route a t ≈? spec_edit route a u.
Proof.
  revert t u. induction route as [|[n|] route IH]; intros t u H; cbn; [by apply spec_action_proper| |];
    rewrite (has_type_proper _ _ _ H); (destruct (has_type u _); [|done]).
  - by apply spec_inside_proper.
  - specialize (IH _ _ (shown_item_proper _ _ H)). destruct (spec_edit _ _ (shown_item t)), (spec_edit _ _ (shown_item u)); try done.
    cbn in *. by rewrite IH, H.
Qed.

Lemma default_proper a b t u : a ≈? b → t ≈ u → default t a ≈ default u b.
Proof. by destruct a, b. Qed.

#[export] Instance spec_step_proper : Proper (tree_eq ==> eq ==> tree_eq) spec_step.
Proof.
  intros t u H e _ <-. unfold spec_step. apply default_proper; [|done].
  destruct e; [by apply spec_add_proper|by apply spec_field_proper|apply spec_inside_proper; [apply spec_edit_proper|done]].
Qed.

(** ** One level *)

(** [s'] shows what [s] shows, except that the field or the items at [x] are
    now [oc]. *)
Record changed (x : step) (oc : option val) (r : bool) (s s' : val) : Prop := {
  ch_child : child x s' = oc;
  ch_req : required_in x s' = r;
  ch_rest y : y ≠ x → child y s' = child y s ∧ required_in y s' = required_in y s;
  ch_info req : info req s' = info req s;
  ch_ok : level_ok s'
}.

Record same (s s' : val) : Prop := {
  sm_rest y : child y s' = child y s ∧ required_in y s' = required_in y s;
  sm_info req : info req s' = info req s;
  sm_ok : level_ok s'
}.

Lemma changed_tree x oc r s s' req : changed x oc r s s' → tree_of req s' ≈ t_put x (tree_of r <$> oc) (tree_of req s).
Proof.
  intros H. split. intros [|y q]; cbn; [by rewrite (ch_info _ _ _ _ _ H)|]. case_decide as E.
  - subst y. rewrite (ch_child _ _ _ _ _ H), (ch_req _ _ _ _ _ H). by destruct oc.
  - by destruct (ch_rest _ _ _ _ _ H y E) as [-> ->].
Qed.

Lemma changed_schema_ok x oc r s s' : changed x oc r s s' → schema_ok s → (∀ c, oc = Some c → schema_ok c) → schema_ok s'.
Proof.
  intros H Hs Hc. apply schema_ok_intro; [apply H|]. intros y d Hd. destruct (decide (y = x)) as [->|E].
  - apply Hc. by rewrite <-(ch_child _ _ _ _ _ H).
  - destruct (ch_rest _ _ _ _ _ H y E) as [E' _]. rewrite E' in Hd. by apply (ok_child y s).
Qed.

Lemma same_tree s s' req : same s s' → tree_of req s' ≈ tree_of req s.
Proof.
  intros H. split. intros [|y q]; cbn; [by rewrite (sm_info _ _ H)|]. by destruct (sm_rest _ _ H y) as [-> ->].
Qed.

Lemma same_schema_ok s s' : same s s' → schema_ok s → schema_ok s'.
Proof.
  intros H Hs. apply schema_ok_intro; [apply H|]. intros y d. destruct (sm_rest _ _ H y) as [-> _]. by apply ok_child.
Qed.

Lemma same_changed x oc r s s1 s2 : same s s1 → changed x oc r s1 s2 → changed x oc r s s2.
Proof.
  intros H1 [Ha Hb Hc Hd He]. split; [done|done| | |done].
  - intros y Hy. destruct (Hc y Hy) as [-> ->]. apply H1.
  - intros req. by rewrite Hd, (sm_info _ _ H1).
Qed.

(** Two changes at one place. *)
Lemma changed_twice x oc r oc' r' s s1 s2 : changed x oc r s s1 → changed x oc' r' s1 s2 → changed x oc' r' s s2.
Proof.
  intros [Ha Hb Hc Hd He] [Ha' Hb' Hc' Hd' He']. split; [done|done| | |done].
  - intros y Hy. destruct (Hc' y Hy) as [-> ->]. by apply Hc.
  - intros req. by rewrite Hd', Hd.
Qed.

Lemma props_wf s : level_ok s → obj_wf (props s).
Proof. intros Hs. unfold props. destruct (lo_props _ Hs) as [->|(ps & -> & ?)]; [by constructor|done]. Qed.

Lemma level_object s : level_ok s → isObjectSchema s = true ∧ isBooleanSchema s = false ∧ asObjectSchema s = s.
Proof. intros Hs. by destruct (lo_obj _ Hs) as (o & -> & _). Qed.

Lemma schema_spread_get s k : level_ok s → obj_get k (spread s) = prop k s.
Proof. intros Hs. destruct (lo_obj _ Hs) as (o & -> & Hwf). cbn. by apply obj_get_assign_nil. Qed.

Lemma spread_wf s : obj_wf (spread s).
Proof. apply obj_assign_wf. by constructor. Qed.

(** An object that reads like [s] where it matters. *)
Lemma below_intro s o : level_ok s → obj_wf o → obj_get "items" o = prop "items" s →
  (obj_get "properties" o = prop "properties" s ∨ prop "properties" s = VUndef ∧ obj_get "properties" o = VObj []) →
  obj_get "required" o = prop "required" s →
  (∀ y, child y (VObj o) = child y s ∧ required_in y (VObj o) = required_in y s) ∧ level_ok (VObj o).
Proof.
  intros Hs Hwf Hi Hp Hr.
  assert (props (VObj o) = props s) as Eps by (unfold props; cbn; destruct Hp as [->|[-> ->]]; done).
  assert (reqs (VObj o) = reqs s) as Ers by (unfold reqs; cbn; by rewrite Hr).
  assert (∀ y, child y (VObj o) = child y s) as Ech by (intros [n|]; cbn [child]; [by rewrite Eps|cbn; by rewrite Hi]).
  split.
  - intros y. split; [done|]. destruct y; cbn [required_in]; [by rewrite Ers|done].
  - split; [by exists o| | |].
    + cbn. destruct Hp as [->|[_ ->]]; [apply Hs|]. right. exists []. split; [done|by constructor].
    + cbn. rewrite Hr. apply Hs.
    + rewrite Ers. setoid_rewrite Ech. apply Hs.
Qed.

Lemma same_intro s o : level_ok s → obj_wf o →
  js_or (obj_get "type" o) (VStr "object") = js_or (prop "type" s) (VStr "object") →
  js_or (obj_get "description" o) (VStr "") = js_or (prop "description" s) (VStr "") →
  obj_get "enum" o = prop "enum" s → obj_get "items" o = prop "items" s →
  (obj_get "properties" o = prop "properties" s ∨ prop "properties" s = VUndef ∧ obj_get "properties" o = VObj []) →
  (obj_get "required" o = prop "required" s) → same s (VObj o).
Proof.
  intros Hs Hwf Ht Hd He Hi Hp Hr. destruct (below_intro s o Hs Hwf Hi Hp Hr) as [Hb Hl].
  split; [done| |done]. intros req. unfold info. cbn. by rewrite Ht, Hd, He.
Qed.

(** What lies below is the same, the root has other labels. *)
Lemma relabel g s s' r : (∀ y, child y s' = child y s ∧ required_in y s' = required_in y s) →
  info r s' = g (info r s) → tree_of r s' ≈ root_map g (tree_of r s).
Proof. intros Hb Hi. split. intros [|y q]; cbn; [by rewrite Hi|]. by destruct (Hb y) as [-> ->]. Qed.

Lemma below_ok s s' : schema_ok s → level_ok s' →
  (∀ y, child y s' = child y s ∧ required_in y s' = required_in y s) → schema_ok s'.
Proof. intros Hs Hl Hb. apply schema_ok_intro; [done|]. intros y d. destruct (Hb y) as [-> _]. by apply ok_child. Qed.

Lemma update_changed s n c : level_ok s →
  changed (InField n) (Some c) (required_in (InField n) s) s (updateObjectProperty s n c).
Proof.
  intros Hs. pose proof (props_wf s Hs) as Hps. destruct (lo_obj _ Hs) as (o & -> & Hwf).
  set (s' := VObj (obj_set "properties" (VObj (obj_set n c (props (VObj o)))) o)).
  change (updateObjectProperty (VObj o) n c) with s'.
  assert (props s' = obj_set n c (props (VObj o))) as Eps by (unfold props at 1, s'; cbn [prop]; by rewrite obj_get_set_eq).
  assert (∀ k, k ≠ "properties" → prop k s' = prop k (VObj o)) as Ek by (intros k Hk; unfold s'; cbn [prop]; by rewrite obj_get_set_ne).
  assert (reqs s' = reqs (VObj o)) as Ers by (unfold reqs; by rewrite Ek).
  assert (∀ y, y ≠ InField n → child y s' = child y (VObj o)) as Ech.
  { intros [m|] Hm; cbn [child]; [|by rewrite Ek]. rewrite Eps. apply obj_lookup_set_ne. congruence. }
  assert (child (InField n) s' = Some c) as Ec by (cbn [child]; rewrite Eps; apply obj_lookup_set_eq).
  split; [done|cbn [required_in]; by rewrite Ers| | |].
  - intros y Hy. split; [by apply Ech|]. destruct y; cbn [required_in]; [by rewrite Ers|done].
  - intros req. unfold info. by rewrite !Ek.
  - split; [eexists; split; [done|by apply obj_set_wf]| | |].
    + right. eexists. split; [unfold s'; cbn [prop]; apply obj_get_set_eq|]. by apply obj_set_wf.
    + rewrite Ek by done. apply Hs.
    + rewrite Ers. intros v Hv. destruct (lo_closed _ Hs v Hv) as (m & -> & Hm). exists m. split; [done|].
      destruct (decide (m = n)) as [->|Hne]; [by rewrite Ec|]. rewrite Ech; [done|congruence].
Qed.

(** The names that are required are others. *)
Lemma reqs_changed s n b oc l s' : level_ok s → (∃ o, s' = VObj o ∧ obj_wf o) →
  (prop "properties" s' = VUndef ∨ ∃ ps, prop "properties" s' = VObj ps ∧ obj_wf ps) →
  (∀ k, k ≠ "properties" → k ≠ "required" → prop k s' = prop k s) →
  child (InField n) s' = oc → (∀ m, m ≠ n → child (InField m) s' = child (InField m) s) →
  prop "required" s' = VArr l → (∀ v, v ∈ l → v = VStr n ∧ b = true ∨ v ∈ reqs s ∧ v ≠ VStr n) →
  (∀ v, v ∈ reqs s → v ≠ VStr n → v ∈ l) → (b = true → VStr n ∈ l ∧ is_Some oc) →
  changed (InField n) oc b s s'.
Proof.
  intros Hs Ho Hp Hk Hc Hm Hr Hl Hl' Hb. assert (reqs s' = l) as Ers by (unfold reqs; by rewrite Hr).
  split; [done| | | |].
  - cbn [required_in]. rewrite Ers. destruct b; [by apply bool_decide_true, Hb|].
    apply bool_decide_false. intros [[_ ?]|[_ ?]]%Hl; done.
  - intros [m|] Hy; [|by cbn [child required_in]; rewrite Hk]. assert (m ≠ n) as Hne by congruence. split; [by apply Hm|].
    cbn [required_in]. unfold js_includes. rewrite Ers. apply bool_decide_ext. split.
    + intros [[E _]|[? _]]%Hl; [by simplify_eq|done].
    + intros Hin. apply Hl'; [done|congruence].
  - intros req. unfold info. by rewrite !Hk.
  - split; [done|done|right; by exists l|]. rewrite Ers. intros v [[-> Eb]|[Hv Hne]]%Hl.
    + exists n. split; [done|]. rewrite Hc. by apply Hb.
    + destruct (lo_closed _ Hs v Hv) as (m & -> & Hm'). exists m. split; [done|]. rewrite Hm by congruence. done.
Qed.

Lemma reqs_truthy s : level_ok s → (if truthy (prop "required" s) then arr_of_val (prop "required" s) else []) = reqs s.
Proof. intros Hs. unfold reqs. by destruct (lo_reqs _ Hs) as [->|[l ->]]. Qed.

Lemma set_reads o k v k' : k' ≠ k → prop k' (VObj (obj_set k v o)) = prop k' (VObj o).
Proof. intros Hk. cbn. by rewrite obj_get_set_ne. Qed.

Lemma set_read o k v : prop k (VObj (obj_set k v o)) = v.
Proof. cbn. apply obj_get_set_eq. Qed.

Lemma without_in n (l : list val) v : v ∈ js_filter (λ x, x !== VStr n) l ↔ v ∈ l ∧ v ≠ VStr n.
Proof. rewrite elem_of_js_filter, negb_true_iff, bool_decide_eq_false. naive_solver. Qed.

Lemma required_changed s n b : level_ok s → (b = true → is_Some (child (InField n) s)) →
  changed (InField n) (child (InField n) s) b s (updatePropertyRequired s n b).
Proof.
  intros Hs Hb. unfold updatePropertyRequired. rewrite (reqs_truthy s Hs). destruct (level_object s Hs) as [-> _].
  destruct (lo_obj _ Hs) as (o & Eo & Hwf). replace (obj_of_val s) with o by (by rewrite Eo).
  apply (reqs_changed s n b _ (if b then (if js_includes (reqs s) (VStr n) then reqs s else reqs s ++ [VStr n])
                                  else js_filter (λ x, x !== VStr n) (reqs s)));
    [done|eexists; split; [done|by apply obj_set_wf]| | | | | | | |].
  - rewrite set_reads by done. rewrite <-Eo. apply Hs.
  - intros k _ Hk. rewrite set_reads by done. by rewrite <-Eo.
  - cbn [child]. unfold props. rewrite set_reads by done. by rewrite <-Eo.
  - intros m _. cbn [child]. unfold props. rewrite set_reads by done. by rewrite <-Eo.
  - rewrite set_read. by destruct b.
  - destruct b; cbn.
    + destruct (js_includes (reqs s) (VStr n)) eqn:E; intros v Hv.
      * destruct (decide (v = VStr n)) as [->|]; [by left|by right].
      * apply elem_of_app in Hv as [Hv|Hv%list_elem_of_singleton]; [|by left].
        destruct (decide (v = VStr n)) as [->|]; [by left|by right].
    + intros v ?%without_in. by right.
  - destruct b; cbn; [|intros v Hv Hne; by apply without_in].
    destruct (js_includes _ _); intros v Hv _; [done|]. apply elem_of_app. by left.
  - intros ->. cbn. split; [|by apply Hb]. destruct (js_includes (reqs s) (VStr n)) eqn:E; [by apply js_includes_true|].
    apply elem_of_app. right. by apply list_elem_of_singleton.
Qed.

(** A field is taken out of an object that reads like [s]. *)
Lemma del_child s o n m : obj_get "properties" o = VObj (obj_del n (props s)) →
  child (InField m) (VObj o) = if decide (m = n) then None else child (InField m) s.
Proof.
  intros Hp. cbn [child]. unfold props at 1. cbn [prop]. rewrite Hp. cbn [obj_of_val]. unfold obj_del.
  pose proof (obj_lookup_filter_key (λ x, x !== n) m (props s)) as Hf. cbv beta in Hf. rewrite Hf.
  case_decide; [by rewrite bool_decide_true|by rewrite bool_decide_false].
Qed.

Lemma del_unrequired s o n : level_ok s → obj_wf o → (∀ k, k ≠ "properties" → obj_get k o = prop k s) →
  obj_get "properties" o = VObj (obj_del n (props s)) → required_in (InField n) s = false →
  changed (InField n) None false s (VObj o).
Proof.
  intros Hs Hwf Hk Hp Hn.
  assert (reqs (VObj o) = reqs s) as Er by (unfold reqs; cbn [prop]; by rewrite Hk).
  split.
  - rewrite (del_child s o n) by done. by rewrite decide_True.
  - cbn [required_in] in *. by rewrite Er.
  - intros [m|] Hm; [|by cbn [child required_in prop]; rewrite Hk]. rewrite (del_child s o n) by done.
    rewrite decide_False by congruence. cbn [required_in]. by rewrite Er.
  - intros req. unfold info. cbn [prop]. by rewrite !Hk.
  - split; [by eexists| | |].
    + right. cbn [prop]. rewrite Hp. eexists. split; [done|]. by apply obj_del_wf, props_wf.
    + cbn [prop]. rewrite Hk by done. apply Hs.
    + rewrite Er. intros v Hv. destruct (lo_closed _ Hs v Hv) as (m & -> & Hm). exists m. split; [done|].
      rewrite (del_child s o n) by done. case_decide as E; [|done]. subst m. cbn [required_in] in Hn.
      assert (js_includes (reqs s) (VStr n) = true) as Ht by (by apply js_includes_true). by rewrite Ht in Hn.
Qed.

Lemma del_changed s o n : level_ok s → obj_wf o → (∀ k, k ≠ "properties" → obj_get k o = prop k s) →
  obj_get "properties" o = VObj (obj_del n (props s)) →
  changed (InField n) None false s
    (VObj (if truthy (obj_get "required" o) then obj_set "required" (without_name n (obj_get "required" o)) o else o)).
Proof.
  intros Hs Hwf Hk Hp. assert (obj_wf (obj_del n (props s))) as Hdel by (by apply obj_del_wf, props_wf).
  rewrite (Hk "required") by done. destruct (lo_reqs _ Hs) as [E|[l E]]; rewrite E; cbn [truthy].
  - apply del_unrequired; [done..|]. cbn [required_in]. unfold reqs. by rewrite E.
  - eapply reqs_changed; [done|eexists; split; [done|by apply obj_set_wf]| | | | | | | |done].
    + rewrite set_reads by done. right. cbn [prop]. rewrite Hp. by eexists.
    + intros k Hk1 Hk2. rewrite set_reads by done. cbn [prop]. by apply Hk.
    + rewrite (del_child s _ n) by (by rewrite obj_get_set_ne). by rewrite decide_True.
    + intros m Hm. rewrite (del_child s _ n) by (by rewrite obj_get_set_ne). by rewrite decide_False.
    + by rewrite set_read.
    + cbn. intros v ?%without_in. right. unfold reqs. by rewrite E.
    + cbn. intros v Hv Hne. apply without_in. unfold reqs in Hv. by rewrite E in Hv.
Qed.

Lemma remove_changed s n : level_ok s → prop "properties" s ≠ VUndef → changed (InField n) None false s (removeObjectProperty s n).
Proof.
  intros Hs Hp. unfold removeObjectProperty. destruct (level_object s Hs) as [-> _].
  assert (truthy (prop "properties" s) = true) as -> by (by destruct (lo_props _ Hs) as [?|(ps & -> & _)]).
  cbn [negb orb]. destruct (lo_obj _ Hs) as (o & Eo & Hwf). apply del_changed; [done| | |apply obj_get_set_eq].
  - apply obj_set_wf. by rewrite Eo.
  - intros k Hk. rewrite obj_get_set_ne by done. by rewrite Eo.
Qed.

Lemma delete_changed s n s' : level_ok s → handleDeleteField n s = Some s' → changed (InField n) None false s s'.
Proof.
  intros Hs. unfold handleDeleteField. destruct (_ || _); [done|]. intros [= <-].
  apply del_changed; [done|by apply obj_set_wf, spread_wf| |apply obj_get_set_eq].
  intros k Hk. rewrite obj_get_set_ne by done. by apply schema_spread_get.
Qed.

Lemma normalized_same s : level_ok s → editor_type s = VStr "object" →
  same s (normalizedSchema s) ∧ prop "properties" (normalizedSchema s) ≠ VUndef.
Proof.
  intros Hs Ht. unfold normalizedSchema, editor_type, withObjectSchema in *. destruct (level_object s Hs) as (E1 & -> & _).
  rewrite E1 in Ht.
  assert (truthy (prop "properties" s) = true ∧ js_or (prop "properties" s) (VObj []) = prop "properties" s ∨
    prop "properties" s = VUndef) as Hp by (destruct (lo_props _ Hs) as [?|(ps & -> & _)]; [by right|by left]).
  split.
  - apply same_intro; [done|by repeat apply obj_set_wf; apply spread_wf| | | | | |];
      repeat (rewrite obj_get_set_ne by done); rewrite ?obj_get_set_eq, ?schema_spread_get by done; try done.
    destruct Hp as [[_ ->]|E]; [by left|]. right. by rewrite E.
  - rewrite set_read. destruct Hp as [[Hp ->]| ->]; [|done]. by destruct (prop "properties" s).
Qed.

(** ** Fields *)
Lemma find_entries n f (es : obj) : (∀ kv, pr_name (f kv) = kv.1) →
  js_find (λ p, pr_name p === n) (map f es) = (λ c, f (n, c)) <$> obj_lookup n es.
Proof.
  intros Hf. induction es as [|[k v] es IH]; [done|]. unfold js_find in *. cbn. rewrite Hf. cbn.
  destruct (decide (k = n)) as [->|Hk]; [by rewrite !bool_decide_true|].
  rewrite !bool_decide_false by congruence. apply IH.
Qed.

Lemma find_property_spec n s : level_ok s →
  find_property n s = (λ c, {| pr_name := n; pr_schema := c; pr_required := required_in (InField n) s |}) <$> child (InField n) s.
Proof.
  intros Hs. unfold find_property, getSchemaProperties. destruct (level_object s Hs) as [-> _]. cbn [andb].
  assert (arr_of_val (js_or (prop "required" s) (VArr [])) = reqs s) as ->
    by (unfold reqs; by destruct (lo_reqs _ Hs) as [->|[l ->]]).
  cbn [child]. pose proof (props_wf s Hs) as Hwf. unfold props in *. destruct (lo_props _ Hs) as [E|(ps & E & _)]; rewrite E in *; [done|].
  cbn [truthy obj_of_val] in *. by rewrite find_entries, obj_entries_lookup by done.
Qed.

Lemma required_child n s : level_ok s → required_in (InField n) s = true → is_Some (child (InField n) s).
Proof. intros Hs Hr%js_includes_true. destruct (lo_closed _ Hs _ Hr) as (m & [= ->] & Hm). done. Qed.

Lemma root_view n r s : tree_of r s [InField n] = (λ c, info (required_in (InField n) s) c) <$> child (InField n) s.
Proof. unfold tree_of. cbn [field_at]. by destruct (child _ s). Qed.

Lemma required_view n r s : level_ok s → required_at n (tree_of r s) = required_in (InField n) s.
Proof.
  intros Hs. unfold required_at. rewrite root_view. destruct (child (InField n) s) eqn:E; [done|]. cbn.
  destruct (required_in (InField n) s) eqn:Er; [|done]. apply required_child in Er as [? Er]; [|done]. by rewrite E in Er.
Qed.

Lemma under_view x r s c : child x s = Some c → under x (tree_of r s) ≈ tree_of (required_in x s) c.
Proof. intros Hc. split. intros q. unfold under, tree_of. cbn. by rewrite Hc. Qed.

Lemma required_relabel r r' c : tree_of r' c ≈ root_map (set_required r') (tree_of r c).
Proof. by split; intros [|y q]. Qed.

Lemma leaf_view t d r :
  let c := VObj [("type", VStr t); ("description", d)] in
  schema_ok c ∧ tree_of r c ≈ leaf {| fd_type := js_or (VStr t) (VStr "object"); fd_required := r;
                                      fd_description := js_or d (VStr ""); fd_enum := VUndef |}.
Proof.
  cbn zeta. split; [|by split; intros [|[n|] q]]. apply schema_ok_intro; [|by intros [n|] c].
  split; [eexists; split; [done|apply (bool_decide_unpack _); vm_compute; exact I]|by left|by left|].
  intros v Hv. by apply not_elem_of_nil in Hv.
Qed.

(** A change at [x] that shows what was meant. *)
Lemma put_refines x c r s s' req u : schema_ok s → changed x (Some c) r s s' → schema_ok c → tree_of r c ≈ u →
  schema_ok s' ∧ tree_of req s' ≈ t_put x (Some u) (tree_of req s).
Proof.
  intros Hs Hch Hc Hu. split; [eapply changed_schema_ok; [done|done|by intros ? [= <-]]|].
  rewrite (changed_tree _ _ _ _ _ req Hch). cbn. by rewrite Hu.
Qed.

Lemma drop_refines x r s s' req : schema_ok s → changed x None r s s' →
  schema_ok s' ∧ tree_of req s' ≈ t_put x None (tree_of req s).
Proof. intros Hs Hch. split; [by eapply changed_schema_ok|]. by rewrite (changed_tree _ _ _ _ _ req Hch). Qed.

Lemma same_refl s : level_ok s → same s s.
Proof. by split. Qed.

Lemma changed_noop x oc r s s' : changed x oc r s s' → child x s = oc → required_in x s = r → same s s'.
Proof.
  intros [Ha Hb Hc Hd He] <- <-. split; [|done|done]. intros y. destruct (decide (y = x)) as [->|Hy]; [done|by apply Hc].
Qed.

(** A new field, in either editor. *)
Lemma add_refines s s0 n c req b u : schema_ok s → same s s0 → schema_ok c →
  (∀ r, tree_of r c ≈ u r) →
  let s' := if b : bool then updatePropertyRequired (updateObjectProperty s0 n c) n true else updateObjectProperty s0 n c in
  schema_ok s' ∧ tree_of req s' ≈ t_put (InField n) (Some (u (b || required_at n (tree_of req s)))) (tree_of req s).
Proof.
  intros Hs H0 Hc Hu. cbn zeta. rewrite required_view by (by apply ok_level).
  assert (changed (InField n) (Some c) (required_in (InField n) s) s (updateObjectProperty s0 n c)) as H1.
  { eapply same_changed; [done|]. destruct (sm_rest _ _ H0 (InField n)) as [_ <-]. apply update_changed, H0. }
  destruct b; cbn [orb].
  - eapply put_refines; [done| |done|apply Hu]. eapply changed_twice; [done|].
    rewrite <-(ch_child _ _ _ _ _ H1). apply required_changed; [by apply H1|]. intros _. by rewrite (ch_child _ _ _ _ _ H1).
  - by eapply put_refines.
Qed.

(** What a row hands up for the field [c]. *)
Lemma set_relabel k v g c r : schema_ok c → k ∈ ["type"; "description"] →
  info r (VObj (obj_set k v (spread c))) = g (info r c) →
  schema_ok (VObj (obj_set k v (spread c))) ∧ tree_of r (VObj (obj_set k v (spread c))) ≈ root_map g (tree_of r c).
Proof.
  intros Hc Hk Hg. pose proof (ok_level c Hc) as Hl.
  assert (∀ k', k' ∉ ["type"; "description"] → obj_get k' (obj_set k v (spread c)) = prop k' c) as Hget.
  { intros k' Hk'. rewrite obj_get_set_ne by set_solver. by apply schema_spread_get. }
  edestruct (below_intro c (obj_set k v (spread c))) as [Hb Hok];
    [done|by apply obj_set_wf, spread_wf|apply Hget; set_solver|left; apply Hget; set_solver|apply Hget; set_solver|].
  split; [by eapply below_ok|]. by apply relabel.
Qed.

Lemma desc_relabel c d e r : schema_ok c → js_or d (VStr "") = e →
  let c' := VObj (obj_set "description" d (spread c)) in
  schema_ok c' ∧ tree_of r c' ≈ root_map (set_description e) (tree_of r c).
Proof.
  intros Hc He. apply set_relabel; [done|set_solver|]. unfold info, set_description. cbn [prop].
  rewrite (obj_get_set_ne _ "type"), (obj_get_set_ne _ "enum"), obj_get_set_eq, He by done.
  by repeat (rewrite schema_spread_get by (by apply ok_level)).
Qed.

Lemma type_relabel c ty r : schema_ok c →
  let c' := VObj (obj_set "type" (VStr ty) (spread c)) in
  schema_ok c' ∧ tree_of r c' ≈ root_map (set_type (js_or (VStr ty) (VStr "object"))) (tree_of r c).
Proof.
  intros Hc. apply set_relabel; [done|set_solver|]. unfold info, set_type. cbn [prop].
  rewrite (obj_get_set_ne _ "description"), (obj_get_set_ne _ "enum"), obj_get_set_eq by done. by repeat (rewrite schema_spread_get by (by apply ok_level)).
Qed.

Lemma js_or_twice v d : js_or (js_or (js_or v d) VUndef) d = js_or v d.
Proof. unfold js_or. destruct (truthy v) eqn:E; rewrite ?E; [done|]. by destruct (truthy d) eqn:E'; rewrite ?E'. Qed.

Lemma js_or_string t : js_or (js_or (VStr t) VUndef) (VStr "") = VStr t.
Proof.
  unfold js_or. cbn [truthy]. destruct (decide (t = "")) as [->|Ht]; [done|].
  rewrite (bool_decide_false (t = "")) by done. cbn. by rewrite (bool_decide_false (t = "")).
Qed.

Lemma keep_relabel c u r : schema_ok u → level_ok c →
  schema_ok (handleSchemaUpdate c u) ∧
  tree_of r (handleSchemaUpdate c u) ≈ root_map (set_description (fd_description (info r c))) (tree_of r u).
Proof.
  intros Hu Hlc. apply desc_relabel; [done|]. unfold getSchemaDescription. destruct (level_object c Hlc) as (-> & _).
  apply js_or_twice.
Qed.

(** ** The editor of an object *)
Lemma row_change a p v r : schema_ok (pr_schema p) → prop_run a p = Some (OnSchemaChange v) →
  schema_ok v ∧ ∃ g, tree_of r v ≈ root_map g (tree_of r (pr_schema p)) ∧
  match a with
  | DescSubmitted s => VStr (str_trim s) ≠ fd_description (info r (pr_schema p)) ∧ g = set_description (VStr (str_trim s))
  | TypeChosen ty => g = set_type (js_or (VStr ty) (VStr "object"))
  | _ => False
  end.
Proof.
  intros Hc. destruct (level_object _ (ok_level _ Hc)) as (E1 & _ & E2).
  destruct a as [|s|s|ty|]; cbn; [done| | | |done].
  - unfold handleNameSubmit. by destruct (_ && _).
  - unfold handleDescSubmit, getSchemaDescription. rewrite E1, E2. case_bool_decide as E; [done|]. intros [= <-].
    destruct (desc_relabel (pr_schema p) (js_or (VStr (str_trim s)) VUndef) (VStr (str_trim s)) r Hc) as [Hok Ht];
      [apply js_or_string|].
    split; [done|]. by eexists.
  - rewrite E2. intros [= <-]. destruct (type_relabel (pr_schema p) ty r Hc) as [Hok Ht]. split; [done|]. by eexists.
Qed.

Definition refines (req : bool) (os : option val) (ot : option tree) : Prop :=
  match os, ot with
  | Some s', Some t' => schema_ok s' ∧ tree_of req s' ≈ t'
  | None, None => True
  | _, _ => False
  end.

Lemma row_refines n c g s s' v req : schema_ok s → child (InField n) s = Some c →
  changed (InField n) (Some v) (required_in (InField n) s) s s' → schema_ok v →
  tree_of (required_in (InField n) s) v ≈ root_map g (tree_of (required_in (InField n) s) c) →
  schema_ok s' ∧ tree_of req s' ≈ t_put (InField n) (Some (root_map g (under (InField n) (tree_of req s)))) (tree_of req s).
Proof.
  intros Hs Hc Hch Hv Hg. eapply put_refines; [done|done|done|]. by rewrite (under_view (InField n) req s c Hc).
Qed.

(** The required names are set or reset, the field is the same. *)
Lemma required_refines n b c s s' req : schema_ok s → child (InField n) s = Some c → changed (InField n) (Some c) b s s' →
  schema_ok s' ∧
  tree_of req s' ≈ t_put (InField n) (Some (root_map (set_required b) (under (InField n) (tree_of req s)))) (tree_of req s).
Proof.
  intros Hs Hc Hch. eapply put_refines; [done|done|by apply (ok_child (InField n) s)|].
  rewrite (under_view (InField n) req s c Hc). apply required_relabel.
Qed.

(** A field is put in the place of another name and taken out of its own. *)
Lemma rename_refines n m c b s s1 s2 req : schema_ok s → n ≠ m → child (InField n) s = Some c →
  schema_ok s1 → changed (InField m) (Some c) b s s1 → changed (InField n) None false s1 s2 →
  schema_ok s2 ∧ tree_of req s2 ≈ t_put (InField n) None
    (t_put (InField m) (Some (root_map (set_required b) (under (InField n) (tree_of req s)))) (tree_of req s)).
Proof.
  intros Hs Hnm Hc Hs1 H1 H2. destruct (drop_refines _ _ _ _ req Hs1 H2) as [Hok Ht]. split; [done|]. rewrite Ht.
  assert (tree_of req s1 ≈ t_put (InField m) (Some (root_map (set_required b) (under (InField n) (tree_of req s)))) (tree_of req s))
    as ->; [|done].
  eapply put_refines; [done|done|by apply (ok_child (InField n) s)|].
  rewrite (under_view (InField n) req s c Hc). apply required_relabel.
Qed.

Lemma name_change_refines s n m req c : schema_ok s → editor_type s = VStr "object" →
  child (InField n) s = Some c → m ≠ n →
  refines req (handlePropertyNameChange n m s)
    (Some (t_put (InField n) None (t_put (InField m)
       (Some (root_map (set_required (required_in (InField n) s || required_at m (tree_of req s)))
          (under (InField n) (tree_of req s)))) (tree_of req s)))).
Proof.
  intros Hs Ht Hc Hnm. pose proof (ok_level s Hs) as Hl. unfold handlePropertyNameChange.
  rewrite bool_decide_false by congruence. rewrite (find_property_spec n s Hl), Hc. cbn [fmap option_fmap option_map pr_schema pr_required].
  pose proof (ok_child _ _ _ Hs Hc) as Hcok. destruct (level_object c (ok_level c Hcok)) as (_ & _ & ->).
  destruct (normalized_same s Hl Ht) as [H0 Hp].
  assert (changed (InField m) (Some c) (required_in (InField m) s) s (updateObjectProperty (normalizedSchema s) m c)) as H1.
  { eapply same_changed; [done|]. destruct (sm_rest _ _ H0 (InField m)) as [_ <-]. apply update_changed, H0. }
  rewrite required_view by done.
  set (s1 := if required_in (InField n) s then _ else _).
  assert (changed (InField m) (Some c) (required_in (InField n) s || required_in (InField m) s) s s1) as H2.
  { subst s1. destruct (required_in (InField n) s); [|done]. eapply changed_twice; [done|].
    rewrite <-(ch_child _ _ _ _ _ H1). apply required_changed; [apply H1|]. intros _. by rewrite (ch_child _ _ _ _ _ H1). }
  cbn [refines]. eapply (rename_refines n m c _ s s1); [done|congruence|done| |done|].
  - eapply changed_schema_ok; [done|done|]. by intros ? [= <-].
  - apply remove_changed; [apply H2|]. intros E. pose proof (ch_child _ _ _ _ _ H2) as Hm. cbn [child] in Hm.
    unfold props in Hm. rewrite E in Hm. done.
Qed.

Lemma object_refines s n a req : schema_ok s → editor_type s = VStr "object" →
  refines req (p ← find_property n s; c ← prop_run a p; object_call n c s) (spec_field false n a (tree_of req s)).
Proof.
  intros Hs Ht. pose proof (ok_level s Hs) as Hl. unfold spec_field. rewrite root_view, find_property_spec by done.
  destruct (child (InField n) s) as [c|] eqn:Hc; [|done]. cbn [fmap option_fmap option_map mbind option_bind fd_required info].
  set (p := {| pr_name := n; pr_schema := c; pr_required := required_in (InField n) s |}).
  pose proof (ok_child _ _ _ Hs Hc) as Hcok. destruct (normalized_same s Hl Ht) as [H0 Hp].
  assert (∀ v, changed (InField n) (Some v) (required_in (InField n) s) s (handlePropertySchemaChange n v s)) as Hv.
  { intros v. eapply same_changed; [done|]. destruct (sm_rest _ _ H0 (InField n)) as [_ <-]. apply update_changed, H0. }
  destruct a as [|d|d|ty|].
  - cbn. eapply drop_refines; [done|]. eapply same_changed; [done|]. apply remove_changed; [apply H0|done].
  - cbn [prop_run p pr_name]. unfold handleNameSubmit. cbn [p pr_name].
    destruct (decide (str_trim d = "")) as [->|Hd]; [done|]. rewrite (bool_decide_false (str_trim d = "")) by done.
    destruct (decide (str_trim d = n)) as [->|Hn]; [by rewrite bool_decide_true|]. rewrite bool_decide_false by done.
    by apply name_change_refines with (c := c).
  - destruct (prop_run (DescSubmitted d) p) as [x|] eqn:E.
    + assert (∃ v, x = OnSchemaChange v) as [v ->] by (cbn in E; unfold handleDescSubmit in E; case_bool_decide; [done|]; injection E as <-; eauto).
      destruct (row_change _ p v (required_in (InField n) s) Hcok E) as (Hvok & g & Hg & Hne & ->).
      rewrite bool_decide_false by done. cbn. by eapply row_refines.
    + cbn in E. unfold handleDescSubmit, getSchemaDescription in E. cbn in E.
      destruct (level_object c (ok_level c Hcok)) as (E1 & _). rewrite E1 in E. case_bool_decide as Ed; [|done].
      by rewrite bool_decide_true.
  - destruct (row_change (TypeChosen ty) p _ (required_in (InField n) s) Hcok eq_refl) as (Hvok & g & Hg & ->).
    cbn. by eapply row_refines.
  - cbn. eapply required_refines; [done|done|]. eapply same_changed; [done|].
    destruct (sm_rest _ _ H0 (InField n)) as [Hch _]. rewrite Hc in Hch. rewrite <-Hch.
    apply required_changed; [apply H0|]. intros _. by rewrite Hch.
Qed.

(** ** The other editors *)
Lemma has_type_view s req ty : level_ok s → has_type (tree_of req s) ty = (editor_type s === VStr ty).
Proof. intros Hs. unfold has_type, editor_type, withObjectSchema. by destruct (level_object s Hs) as (-> & _). Qed.

Lemma array_type s : level_ok s → editor_type s = VStr "array" → prop "type" s = VStr "array".
Proof.
  intros Hs. unfold editor_type, withObjectSchema. destruct (level_object s Hs) as (-> & _). unfold js_or.
  by destruct (truthy _).
Qed.

Lemma array_base_get s k : level_ok s → editor_type s = VStr "array" →
  obj_get k (array_base s) = prop k s ∧ obj_wf (array_base s).
Proof.
  intros Hs Ht. unfold array_base. destruct (level_object s Hs) as (_ & -> & _).
  pose proof (array_type s Hs Ht) as E. destruct (lo_obj _ Hs) as (o & -> & Hwf). cbn [obj_of_val prop] in *.
  split; [|apply obj_assign_wf; apply NoDup_singleton]. unfold obj_get in *. rewrite obj_assign_lookup by done.
  destruct (obj_lookup k o) eqn:Ek; [done|]. cbn. case_bool_decide; [|done]. subst k. by rewrite Ek in E.
Qed.

(** An object that reads like [s] but for its items. *)
Lemma item_intro s o v : level_ok s → obj_wf o → obj_get "items" o = v → v ≠ VUndef →
  (∀ k, k ∈ ["type"; "description"; "enum"; "properties"; "required"] → obj_get k o = prop k s) →
  changed InItem (Some v) false s (VObj o).
Proof.
  intros Hs Hwf Hi Hv Hk.
  assert (props (VObj o) = props s) as Eps by (unfold props; cbn; by rewrite Hk by set_solver).
  assert (reqs (VObj o) = reqs s) as Ers by (unfold reqs; cbn; by rewrite Hk by set_solver).
  split; [|done| | |].
  - cbn [child prop]. rewrite Hi. by destruct v.
  - intros [n|] Hn; [|done]. cbn [child required_in]. by rewrite Eps, Ers.
  - intros req. unfold info. cbn [prop]. by rewrite !Hk by set_solver.
  - split; [by eexists|cbn [prop]; rewrite Hk by set_solver; apply Hs|cbn [prop]; rewrite Hk by set_solver; apply Hs|].
    rewrite Ers. cbn [child]. rewrite Eps. apply Hs.
Qed.

Lemma item_changed s v : level_ok s → editor_type s = VStr "array" → v ≠ VUndef →
  changed InItem (Some v) false s (handleItemSchemaChange v s).
Proof.
  intros Hs Ht Hv. destruct (array_base_get s "type" Hs Ht) as [_ Hwf].
  apply item_intro; [done|by apply obj_set_wf|apply obj_get_set_eq|done|].
  intros k Hk. rewrite obj_get_set_ne by set_solver. by apply array_base_get.
Qed.

Lemma items_defined s : schema_ok s → child InItem s = None ∧ prop "items" s = VUndef ∨
  ∃ o, child InItem s = Some (VObj o) ∧ prop "items" s = VObj o.
Proof.
  intros Hs. cbn. destruct (is_undef (prop "items" s)) eqn:E; [left; by destruct (prop "items" s)|]. right.
  assert (child InItem s = Some (prop "items" s)) as Hc by (cbn; by rewrite E).
  destruct (lo_obj _ (ok_level _ (ok_child _ _ _ Hs Hc))) as (o & Eo & _). exists o. by rewrite Eo.
Qed.

Lemma items_view s req : schema_ok s → editor_type s = VStr "array" →
  schema_ok (itemsSchema s) ∧ tree_of false (itemsSchema s) ≈ shown_item (tree_of req s) ∧ itemsSchema s ≠ VUndef ∧
  (prop "items" s ≠ VUndef → itemsSchema s = prop "items" s).
Proof.
  intros Hs Ht. pose proof (ok_level s Hs) as Hl. unfold itemsSchema, getArrayItemsSchema.
  destruct (level_object s Hl) as (_ & -> & _). rewrite (array_type s Hl Ht). rewrite bool_decide_true by done. cbn [negb].
  unfold shown_item, tree_of at 2. cbn [field_at].
  destruct (items_defined s Hs) as [[Hc ->]|(o & Hc & ->)]; rewrite Hc; cbn [truthy default mbind option_bind field_at].
  - split; [|split; [by split; intros [|[n|] q]|done]]. apply schema_ok_intro; [|by intros [n|] c].
    split; [eexists; split; [done|apply NoDup_singleton]|by left|by left|]. intros v Hv. by apply not_elem_of_nil in Hv.
  - split; [by apply (ok_child InItem s)|]. split; [|done]. symmetry. by apply under_view.
Qed.

Lemma bounds_changed s st : schema_ok s → editor_type s = VStr "array" →
  changed InItem (Some (itemsSchema s)) false s (array_bounds st s).
Proof.
  intros Hs Ht. pose proof (ok_level s Hs) as Hl. destruct (items_view s false Hs Ht) as (_ & _ & Hne & Heq).
  destruct (array_base_get s "type" Hl Ht) as [_ Hwf]. unfold array_bounds.
  set (o := obj_set "uniqueItems" _ _).
  assert (obj_wf o) as Hwo by (by repeat apply obj_set_wf).
  assert (∀ k, k ∈ ["type"; "description"; "enum"; "properties"; "required"; "items"] → obj_get k o = prop k s) as Hk.
  { intros k Hk. unfold o. do 3 rewrite obj_get_set_ne by set_solver. by apply array_base_get. }
  apply item_intro; [done| | |done|].
  - apply obj_filter_wf, obj_entries_wf. case_bool_decide; [by apply obj_set_wf|done].
  - rewrite obj_get_defined by (apply obj_entries_wf; case_bool_decide; [by apply obj_set_wf|done]).
    unfold obj_get. rewrite obj_entries_lookup by (case_bool_decide; [by apply obj_set_wf|done]).
    change (obj_get "items" (if obj_get "items" o === VUndef then obj_set "items" (itemsSchema s) o else o) = itemsSchema s).
    case_bool_decide as E; [apply obj_get_set_eq|]. rewrite Hk in E |- * by set_solver. symmetry. by apply Heq.
  - intros k Hk'. rewrite obj_get_defined by (apply obj_entries_wf; case_bool_decide; [by apply obj_set_wf|done]).
    unfold obj_get at 1. rewrite obj_entries_lookup by (case_bool_decide; [by apply obj_set_wf|done]).
    rewrite <-(Hk k) by set_solver. case_bool_decide; [|done]. fold (obj_get k (obj_set "items" (itemsSchema s) o)).
    apply obj_get_set_ne. set_solver.
Qed.

(** *** Strings *)
Lemma string_refines k v s req : schema_ok s → editor_type s = VStr "string" →
  schema_ok (string_changed k v s) ∧ tree_of req (string_changed k v s) ≈
    root_map (λ fd, set_description (VStr "") (match k with SEnum => set_enum v fd | _ => fd end)) (tree_of req s).
Proof.
  intros Hs Ht. pose proof (ok_level s Hs) as Hl. unfold string_changed. destruct (level_object s Hl) as (_ & E & _). rewrite E.
  set (o := obj_set "type" _ _).
  assert (∀ k', k' ∈ ["properties"; "items"; "required"; "enum"] → obj_get k' o = prop k' s) as Hk.
  { intros k' Hk'. unfold o. rewrite obj_get_set_ne, !obj_get_del_ne by set_solver. by apply schema_spread_get. }
  assert (∀ k', k' ∈ ["properties"; "items"; "required"] → obj_get k' (obj_set (string_key_name k) v o) = prop k' s) as Hk'.
  { intros k' Hk'. rewrite obj_get_set_ne by (destruct k; cbn; set_solver). apply Hk. set_solver. }
  edestruct (below_intro s (obj_set (string_key_name k) v o)) as [Hb Hok];
    [done|by repeat apply obj_set_wf; repeat apply obj_del_wf; apply spread_wf|apply Hk'; set_solver|left; apply Hk'; set_solver
    |apply Hk'; set_solver|].
  split; [by eapply below_ok|]. apply relabel; [done|].
  assert (js_or (prop "type" s) (VStr "object") = VStr "string") as Et
    by (unfold editor_type, withObjectSchema in Ht; by destruct (level_object s Hl) as (E' & _); rewrite E' in Ht).
  assert (obj_get "description" o = VUndef) as Ed by (unfold o; rewrite obj_get_set_ne by done; apply obj_get_del_eq).
  assert (obj_get "type" o = VStr "string") as Eo by apply obj_get_set_eq.
  unfold info. cbn [prop]. rewrite Et.
  destruct k; cbn [string_key_name]; rewrite ?(obj_get_set_ne _ "type"), ?(obj_get_set_ne _ "description"), Ed, Eo by done;
    rewrite ?(obj_get_set_ne _ "enum"), ?Hk, ?obj_get_set_eq by (done || set_solver); done.
Qed.

Lemma enum_emptied_refines s req : schema_ok s →
  schema_ok (string_enum_emptied s) ∧ tree_of req (string_enum_emptied s) ≈ root_map (set_enum VUndef) (tree_of req s).
Proof.
  intros Hs. pose proof (ok_level s Hs) as Hl. unfold string_enum_emptied. destruct (level_object s Hl) as (_ & -> & _).
  set (o := if obj_has "enum" (spread s) then _ else _).
  assert (obj_wf o) as Hwf by (unfold o; destruct (obj_has _ _); [apply obj_del_wf|]; apply spread_wf).
  assert (∀ k, k ≠ "enum" → obj_get k o = prop k s) as Hk.
  { intros k Hk. unfold o. destruct (obj_has _ _); [rewrite obj_get_del_ne by done|]; by apply schema_spread_get. }
  assert (obj_get "enum" o = VUndef) as He.
  { unfold o. destruct (obj_has "enum" (spread s)) eqn:E; [apply obj_get_del_eq|].
    unfold obj_get, obj_has in *. by destruct (obj_lookup "enum" (spread s)). }
  edestruct (below_intro s o) as [Hb Hok]; [done|done|by apply Hk|by left; apply Hk|by apply Hk|].
  split; [by eapply below_ok|]. apply relabel; [done|]. unfold info, set_enum. cbn [prop]. by rewrite He, !Hk.
Qed.

(** *** Numbers and booleans: what lies below is dropped *)
Lemma only_view o r : obj_wf o → (∀ k, k ∈ ["properties"; "items"; "required"] → obj_get k o = VUndef) →
  schema_ok (VObj o) ∧ tree_of r (VObj o) ≈ leaf (info r (VObj o)).
Proof.
  intros Hwf Hk.
  assert (∀ x, child x (VObj o) = None) as Hch.
  { intros [n|]; cbn [child]; [unfold props|]; cbn [prop]; rewrite Hk by set_solver; done. }
  split.
  - apply schema_ok_intro; [|intros x c; by rewrite Hch].
    split; [by eexists|left; cbn; apply Hk; set_solver|left; cbn; apply Hk; set_solver|].
    unfold reqs. cbn [prop]. rewrite Hk by set_solver. intros v Hv. by apply not_elem_of_nil in Hv.
  - split. intros [|x q]; [done|]. unfold tree_of. cbn [field_at]. by rewrite Hch.
Qed.

Lemma only_root_view g r s : only_root (root_map g (tree_of r s)) ≈ leaf (g (info r s)).
Proof. by split; intros [|x q]. Qed.

Lemma obj_get_keys (f : string → val) k l : obj_get k (map (λ key, (key, f key)) l) = if decide (k ∈ l) then f k else VUndef.
Proof.
  unfold obj_get. induction l as [|k' l IH]; [done|]. csimpl. destruct (decide (k = k')) as [->|Hne].
  - rewrite bool_decide_true, decide_True by (done || set_solver). done.
  - rewrite bool_decide_false by done. rewrite IH. repeat case_decide; set_solver.
Qed.

Definition number_base (integer : bool) (s : val) : obj :=
  ("type", VStr (if integer then "integer" else "number")) ::
  map (λ key, (key, prop key s)) (js_filter (λ key, negb (is_undef (prop key s))) number_keys).

Lemma number_base_wf i s : obj_wf (number_base i s).
Proof.
  unfold obj_wf, number_base. csimpl. rewrite <-list_fmap_compose. change (fst ∘ _) with (λ key : string, key).
  rewrite list_fmap_id. apply NoDup_cons. split; [|].
  - rewrite elem_of_js_filter. intros [_ Hin]. unfold number_keys in Hin. set_solver.
  - apply NoDup_js_filter. apply (bool_decide_unpack _). vm_compute. exact I.
Qed.

Lemma number_base_get i s k : k ≠ "type" → obj_get k (number_base i s) = if decide (k ∈ number_keys) then prop k s else VUndef.
Proof.
  intros Hk. unfold number_base, obj_get. cbn [obj_lookup]. rewrite bool_decide_false by done.
  fold (obj_get k (map (λ key, (key, prop key s)) (js_filter (λ key, negb (is_undef (prop key s))) number_keys))).
  rewrite obj_get_keys. destruct (is_undef (prop k s)) eqn:E.
  - assert (prop k s = VUndef) as -> by (by destruct (prop k s)). by repeat case_decide.
  - assert (k ∈ js_filter (λ key, negb (is_undef (prop key s))) number_keys ↔ k ∈ number_keys) as Hiff
      by (rewrite elem_of_js_filter, E; naive_solver).
    repeat case_decide; tauto.
Qed.

Lemma number_refines i k v s req : schema_ok s → editor_type s = VStr (if i : bool then "integer" else "number") →
  schema_ok (number_changed i k v s) ∧ tree_of req (number_changed i k v s) ≈
    only_root (root_map (λ fd, set_description (VStr "") (match k with NEnum => set_enum v fd | _ => fd end)) (tree_of req s)).
Proof.
  intros Hs Ht. pose proof (ok_level s Hs) as Hl. unfold number_changed. destruct (level_object s Hl) as (E & E' & _). rewrite E'.
  change (_ :: map _ _) with (number_base i s).
  set (o := if is_undef v then _ else _). pose proof (number_base_wf i s) as Hwf.
  assert (obj_wf o) as Hwo by (unfold o; destruct (is_undef v); [by apply obj_del_wf|by apply obj_set_wf]).
  assert (∀ k', k' ≠ number_key_name k → obj_get k' o = obj_get k' (number_base i s)) as Hne.
  { intros k' Hk'. unfold o. destruct (is_undef v); [by apply obj_get_del_ne|by apply obj_get_set_ne]. }
  assert (obj_get (number_key_name k) o = v) as Heq.
  { unfold o. destruct (is_undef v) eqn:Ev; [|apply obj_get_set_eq]. rewrite obj_get_del_eq. by destruct v. }
  assert (∀ k', k' ∈ ["properties"; "items"; "required"; "description"] → obj_get k' o = VUndef) as Hun.
  { intros k' Hk'. rewrite Hne by (destruct k; cbn; set_solver). rewrite number_base_get by set_solver.
    apply decide_False. unfold number_keys. set_solver. }
  assert (obj_get "type" o = VStr (if i then "integer" else "number")) as Hty by (rewrite Hne by (by destruct k); done).
  assert (obj_get "enum" o = match k with NEnum => v | _ => prop "enum" s end) as Hen.
  { destruct k; [..|done]; rewrite Hne, number_base_get by done; by rewrite decide_True by (unfold number_keys; set_solver). }
  destruct (only_view o req Hwo) as [Hok Hv]; [intros k' Hk'; apply Hun; set_solver|].
  split; [done|]. rewrite Hv, only_root_view. apply reflexive_eq. f_equal.
  unfold editor_type, withObjectSchema in Ht. rewrite E in Ht. unfold info. cbn [prop].
  rewrite Hty, Hen, (Hun "description") by set_solver. rewrite Ht. by destruct i, k.
Qed.

Lemma boolean_refines value allowed s req : schema_ok s → editor_type s = VStr "boolean" →
  refines req (handleAllowedChange value allowed s)
    (e ← newEnum value allowed (prop "enum" s);
     Some (only_root (root_map (λ fd, set_description (VStr "") (set_enum e fd)) (tree_of req s)))).
Proof.
  intros Hs Ht. pose proof (ok_level s Hs) as Hl. unfold handleAllowedChange, withObjectSchema.
  destruct (level_object s Hl) as (E & _). rewrite E. unfold editor_type, withObjectSchema in Ht. rewrite E in Ht.
  destruct (newEnum value allowed (prop "enum" s)) as [e|] eqn:Ee; [|done]. cbn [fmap option_fmap option_map mbind option_bind refines].
  assert (e = VUndef ∨ truthy e = true) as He.
  { unfold newEnum in Ee. destruct allowed; destruct (_ || _) in Ee || destruct (_ && _) in Ee; simplify_eq; try by right.
    destruct (_ && _); [by left|by right]. }
  set (o := if truthy e then _ else _).
  assert (obj_wf o ∧ (∀ k, k ∈ ["properties"; "items"; "required"; "description"] → obj_get k o = VUndef) ∧
    obj_get "type" o = VStr "boolean" ∧ obj_get "enum" o = e) as (Hwf & Hun & Hty & Hen).
  { unfold o. destruct He as [->|He]; [|rewrite He]; cbn [truthy].
    - split; [apply NoDup_singleton|]. split; [|done]. intros k Hk. unfold obj_get. cbn. rewrite bool_decide_false by set_solver. done.
    - split; [apply (bool_decide_unpack _); vm_compute; exact I|]. split; [|done]. intros k Hk. unfold obj_get. cbn.
      by rewrite !bool_decide_false by set_solver. }
  destruct (only_view o req Hwf) as [Hok Hv]; [intros k' Hk'; apply Hun; set_solver|].
  split; [done|]. rewrite Hv, only_root_view. apply reflexive_eq. f_equal. unfold info. cbn [prop].
  by rewrite Hty, Hen, (Hun "description"), Ht by set_solver.
Qed.

(** *** What an editor hands up *)
Lemma form_refines s s0 f nf d req : schema_ok s → same s s0 → added_field f = Some nf →
  js_or d (VStr "") = VStr (ff_description f) →
  refines req
    (Some (let s1 := updateObjectProperty s0 (nf_name nf) (VObj [("type", VStr (ff_type f)); ("description", d)]) in
           if nf_required nf then updatePropertyRequired s1 (nf_name nf) true else s1))
    (spec_add f (tree_of req s)).
Proof.
  intros Hs H0 Hf Hd. unfold added_field, spec_add in *. destruct (bool_decide (str_trim (ff_name f) = "")); [done|].
  injection Hf as <-. cbn [nf_required nf_name refines].
  destruct (leaf_view (ff_type f) d true) as [Hok _].
  rewrite <-Hd.
  exact (add_refines s s0 (ff_name f) _ req (ff_required f)
    (λ r, leaf {| fd_type := js_or (VStr (ff_type f)) (VStr "object"); fd_required := r;
                  fd_description := js_or d (VStr ""); fd_enum := VUndef |}) Hs H0 Hok
    (λ r, proj2 (leaf_view (ff_type f) d r))).
Qed.

Lemma form_none f t : added_field f = None → spec_add f t = None.
Proof. unfold added_field, spec_add. by case_bool_decide. Qed.

Lemma js_or_empty d : js_or (VStr d) (VStr "") = VStr d.
Proof. unfold js_or. destruct (truthy _) eqn:E; [done|]. apply negb_false_iff, bool_decide_eq_true in E. by rewrite E. Qed.

Lemma run_refines a s req : schema_ok s → refines req (type_run a s) (spec_action a (tree_of req s)).
Proof.
  intros Hs. pose proof (ok_level s Hs) as Hl. unfold type_run, spec_action.
  destruct a as [f|n a|ty|st|k v| |k v|v allowed]; rewrite ?has_type_view by done; try (case_bool_decide as Ht; [|done]).
  - destruct (added_field f) as [nf|] eqn:Ef; [|by rewrite form_none]. destruct (normalized_same s Hl Ht) as [H0 _].
    pose proof (form_refines s _ f nf (js_or (VStr (ff_description f)) VUndef) req Hs H0 Ef (js_or_string _)) as Hr.
    unfold added_field in Ef. case_bool_decide; [done|]. by injection Ef as <-.
  - by apply object_refines.
  - destruct (items_view s req Hs Ht) as (Hi & Hv & Hne & _).
    assert (withObjectSchema (itemsSchema s) spread [] = spread (itemsSchema s)) as ->
      by (unfold withObjectSchema; by destruct (level_object _ (ok_level _ Hi)) as (-> & _)).
    destruct (type_relabel (itemsSchema s) ty false Hi) as [Hok Ht'].
    eapply put_refines; [done|by apply item_changed|done|]. by rewrite Ht', Hv.
  - destruct (items_view s req Hs Ht) as (Hi & Hv & Hne & _). eapply put_refines; [done|by apply bounds_changed|done|done].
  - by apply string_refines.
  - by apply enum_emptied_refines.
  - case_bool_decide as Ht; cbn [orb]; [by apply (number_refines false)|].
    case_bool_decide as Ht'; [by apply (number_refines true)|done].
  - by apply boolean_refines.
Qed.

Lemma edit_refines route a s req : schema_ok s → refines req (type_edit route a s) (spec_edit route a (tree_of req s)).
Proof.
  revert s req. induction route as [|[n|] route IH]; intros s req Hs; cbn [type_edit spec_edit]; [by apply run_refines| |];
    pose proof (ok_level s Hs) as Hl; rewrite has_type_view by done; (case_bool_decide as Ht; [|done]).
  - unfold spec_inside. rewrite root_view, find_property_spec by done.
    destruct (child (InField n) s) as [c|] eqn:Hc; [|done]. cbn [fmap option_fmap option_map mbind option_bind pr_schema].
    pose proof (ok_child _ _ _ Hs Hc) as Hcok. specialize (IH c (required_in (InField n) s) Hcok).
    pose proof (spec_edit_proper route a _ _ (under_view (InField n) req s c Hc)) as Hp.
    destruct (type_edit route a c) as [u|], (spec_edit route a (tree_of _ c)) as [t|],
      (spec_edit route a (under _ _)) as [t'|]; try done. cbn [mbind option_bind].
    destruct IH as [Hu Htu]. destruct (keep_relabel c u (required_in (InField n) s) Hu (ok_level c Hcok)) as [Hku Hkt].
    destruct (normalized_same s Hl Ht) as [H0 _].
    eapply (put_refines _ _ (required_in (InField n) s)); [done| |done|].
    + eapply same_changed; [done|]. destruct (sm_rest _ _ H0 (InField n)) as [_ <-]. apply update_changed, H0.
    + rewrite Hkt, Htu. cbn in Hp. by rewrite Hp.
  - destruct (items_view s req Hs Ht) as (Hi & Hv & Hne & _). specialize (IH (itemsSchema s) false Hi).
    pose proof (spec_edit_proper route a _ _ Hv) as Hp.
    destruct (type_edit route a (itemsSchema s)) as [u|], (spec_edit route a (tree_of _ _)) as [t|],
      (spec_edit route a (shown_item _)) as [t'|]; try done. cbn [mbind option_bind].
    destruct IH as [Hu Htu]. apply (put_refines _ u false); [done| |done|].
    + apply item_changed; [done|done|]. intros E. destruct (lo_obj _ (ok_level _ Hu)) as (o & Eo & _). by rewrite Eo in E.
    + rewrite Htu. cbn in Hp. by rewrite Hp.
Qed.

(** ** The editor of the dialog *)
Lemma create_same f v : level_ok v → nf_validation f = v → nf_type f = single_type (prop "type" v) →
  nf_description f = js_or (prop "description" v) (VStr "") → same v (createFieldSchema f).
Proof.
  intros Hv Ev Et Ed. unfold createFieldSchema. rewrite Ev, Et, Ed. destruct (level_object v Hv) as (-> & _).
  destruct (lo_obj _ Hv) as (o & Eo & Hwf). rewrite Eo in *. cbn [obj_of_val prop] in *.
  assert (∀ k, obj_get k (obj_assign [("type", single_type (obj_get "type" o)); ("description", js_or (obj_get "description" o) (VStr ""))] o) =
    default (obj_get k [("type", single_type (obj_get "type" o)); ("description", js_or (obj_get "description" o) (VStr ""))])
      (obj_lookup k o)) as Hget.
  { intros k. unfold obj_get at 1. rewrite obj_assign_lookup by done. by destruct (obj_lookup k o). }
  set (o' := obj_assign _ _) in *.
  assert (∀ k, k ∉ ["type"; "description"] → obj_get k o' = obj_get k o) as Hk.
  { intros k Hk. rewrite Hget. unfold obj_get. destruct (obj_lookup k o) eqn:E; [done|]. cbn.
    by rewrite !bool_decide_false by set_solver. }
  apply same_intro; [done|apply obj_assign_wf; apply (bool_decide_unpack _); vm_compute; exact I| | |apply Hk; set_solver
    |apply Hk; set_solver|left; apply Hk; set_solver|apply Hk; set_solver]; rewrite Hget; cbn [prop]; unfold obj_get.
  - by destruct (obj_lookup "type" o) eqn:E; cbn; rewrite ?E.
  - by destruct (obj_lookup "description" o) eqn:E; cbn; rewrite ?E.
Qed.

Lemma edit_changed n f s : level_ok s → nf_name f = n →
  changed (InField n) (Some (createFieldSchema f)) (nf_required f) s (handleEditField n f s).
Proof.
  intros Hs <-. unfold handleEditField. rewrite bool_decide_true by done. destruct (level_object s Hs) as (_ & _ & ->). cbn [negb].
  pose proof (update_changed s (nf_name f) (createFieldSchema f) Hs) as H1. eapply changed_twice; [done|].
  rewrite <-(ch_child _ _ _ _ _ H1). apply required_changed; [apply H1|]. intros _. by rewrite (ch_child _ _ _ _ _ H1).
Qed.

Lemma edit_rename n f s : level_ok s → n ≠ nf_name f → required_in (InField n) s = false → nf_required f = false →
  ∃ s1, changed (InField (nf_name f)) (Some (createFieldSchema f)) false s s1 ∧
        changed (InField n) None false s1 (handleEditField n f s).
Proof.
  intros Hs Hne Hn Hf. set (m := nf_name f) in *. set (fs := createFieldSchema f) in *.
  pose proof (update_changed s m fs Hs) as H1.
  set (s1 := updatePropertyRequired (updateObjectProperty s m fs) m false).
  assert (changed (InField m) (Some fs) false s s1) as H2.
  { eapply changed_twice; [done|]. rewrite <-(ch_child _ _ _ _ _ H1). by apply required_changed; [apply H1|]. }
  exists s1. split; [done|]. unfold handleEditField. fold m fs. rewrite Hf.
  destruct (level_object s Hs) as (_ & _ & ->). rewrite bool_decide_false by done. cbn [negb]. fold s1.
  pose proof (ch_ok _ _ _ _ _ H2) as Hl1. destruct (lo_obj _ Hl1) as (o & Eo & Hwf). rewrite Eo in Hl1 |- *.
  cbn [obj_of_val].
  assert (obj_of_val (js_or (prop "properties" (VObj o)) (VObj [])) = props (VObj o)) as ->
    by (unfold props; destruct (lo_props _ Hl1) as [->|(ps & -> & _)]; done).
  set (o2 := obj_set "properties" (VObj (obj_del n (props (VObj o)))) (obj_assign [] (obj_del "properties" o))).
  assert (changed (InField n) None false (VObj o) (VObj o2)) as H3.
  { apply del_unrequired; [done|by apply obj_set_wf, obj_assign_wf, NoDup_nil_2| |apply obj_get_set_eq|].
    - intros k Hk. unfold o2. rewrite obj_get_set_ne, obj_get_assign_nil by (done || by apply obj_del_wf). by apply obj_get_del_ne.
    - rewrite <-Eo. destruct (ch_rest _ _ _ _ _ H2 (InField n)) as [_ ->]; [congruence|done]. }
  pose proof (update_changed (VObj o2) m fs (ch_ok _ _ _ _ _ H3)) as H4.
  assert (child (InField m) (VObj o2) = Some fs) as Hm.
  { destruct (ch_rest _ _ _ _ _ H3 (InField m)) as [-> _]; [congruence|]. rewrite <-Eo. apply H2. }
  destruct (changed_noop _ _ _ _ _ H4 Hm eq_refl) as [Hrest Hinfo Hok].
  destruct H3 as [Ha Hb Hc Hd He]. split.
  - by destruct (Hrest (InField n)) as [-> _].
  - by destruct (Hrest (InField n)) as [_ ->].
  - intros y Hy. destruct (Hrest y) as [-> ->]. by apply Hc.
  - intros req. by rewrite Hinfo.
  - done.
Qed.

Lemma same_field_same p n b : schema_ok (pr_schema p) → same (pr_schema p) (createFieldSchema (same_field p n b)).
Proof.
  intros Hp. pose proof (ok_level _ Hp) as Hl. destruct (level_object _ Hl) as (E1 & E2 & _).
  apply create_same; [done|cbn; by rewrite E2|cbn; unfold getValidSchemaType; by rewrite E2|].
  cbn. unfold getSchemaDescription. by rewrite E1.
Qed.

(** The schema that a row hands up is stored as it is. *)
Lemma visual_schema_refines n c v g s req : schema_ok s → child (InField n) s = Some c → schema_ok v →
  tree_of (required_in (InField n) s) v ≈ g →
  let p := {| pr_name := n; pr_schema := c; pr_required := required_in (InField n) s |} in
  refines req (visual_call p (OnSchemaChange v) s) (Some (t_put (InField n) (Some g) (tree_of req s))).
Proof.
  intros Hs Hc Hv Hg p. pose proof (ok_level s Hs) as Hl. pose proof (edit_changed n (handleSchemaChange p v) s Hl eq_refl) as Hch.
  assert (same v (createFieldSchema (handleSchemaChange p v))) as Hsame by (by apply create_same; [apply ok_level|..]).
  cbn [visual_call refines pr_name p]. eapply put_refines; [done|exact Hch|by eapply same_schema_ok|].
  by rewrite (same_tree _ _ _ Hsame).
Qed.

Definition keeps_required (t : tree) (e : visual_event) : bool :=
  match e with VField n (NameSubmitted _) => negb (required_at n t) | _ => true end.

Lemma visual_field_refines s n a req : schema_ok s → keeps_required (tree_of req s) (VField n a) = true →
  refines req (p ← find_property n s; c ← prop_run a p; visual_call p c s) (spec_field true n a (tree_of req s)).
Proof.
  intros Hs Hk. pose proof (ok_level s Hs) as Hl. unfold spec_field. rewrite root_view, find_property_spec by done.
  destruct (child (InField n) s) as [c|] eqn:Hc; [|done]. cbn [fmap option_fmap option_map mbind option_bind fd_required info].
  set (p := {| pr_name := n; pr_schema := c; pr_required := required_in (InField n) s |}).
  pose proof (ok_child _ _ _ Hs Hc) as Hcok.
  destruct a as [|d|d|ty|].
  - cbn. destruct (handleDeleteField n s) as [s'|] eqn:E; [by eapply drop_refines, delete_changed|].
    unfold handleDeleteField in E. destruct (level_object s Hl) as (_ & E' & _). rewrite E' in E. cbn [child] in Hc. unfold props in Hc.
    destruct (lo_props _ Hl) as [Ep|(ps & Ep & _)]; rewrite Ep in E, Hc; done.
  - cbn [prop_run p pr_name]. unfold handleNameSubmit. cbn [p pr_name].
    destruct (decide (str_trim d = "")) as [->|Hd]; [done|]. rewrite (bool_decide_false (str_trim d = "")) by done.
    destruct (decide (str_trim d = n)) as [->|Hn]; [by rewrite bool_decide_true|]. rewrite bool_decide_false by done.
    cbn [negb andb orb mbind option_bind visual_call]. cbn [keeps_required] in Hk. rewrite required_view in Hk by done.
    destruct (required_in (InField n) s) eqn:Er; [done|].
    destruct (edit_rename n (same_field p (str_trim d) (pr_required p)) s Hl (not_eq_sym Hn) Er eq_refl) as (s1 & H1 & H2).
    pose proof (same_field_same p (str_trim d) (pr_required p) Hcok) as Hsame.
    cbn [refines]. cbn [nf_name same_field] in H1.
    assert (schema_ok (createFieldSchema (same_field p (str_trim d) (pr_required p)))) as Hfs by by eapply same_schema_ok.
    assert (schema_ok s1) as Hs1 by (eapply changed_schema_ok; [done|done|]; by intros ? [= <-]).
    destruct (drop_refines _ _ _ _ req Hs1 H2) as [Hok Ht]. split; [exact Hok|]. etransitivity; [exact Ht|].
    destruct (put_refines _ _ _ _ _ req (root_map (set_required false) (under (InField n) (tree_of req s))) Hs H1 Hfs) as [_ Ht1].
    { rewrite (same_tree _ _ _ Hsame), (under_view (InField n) req s c Hc). apply required_relabel. }
    by rewrite Ht1.
  - destruct (prop_run (DescSubmitted d) p) as [x|] eqn:E.
    + assert (∃ v, x = OnSchemaChange v) as [v ->] by (cbn in E; unfold handleDescSubmit in E; case_bool_decide; [done|]; injection E as <-; eauto).
      destruct (row_change _ p v (required_in (InField n) s) Hcok E) as (Hvok & g & Hg & Hne & ->).
      rewrite bool_decide_false by done. cbn [mbind option_bind]. apply visual_schema_refines; [done|done|done|].
      by rewrite Hg, (under_view (InField n) req s c Hc).
    + cbn in E. unfold handleDescSubmit, getSchemaDescription in E. cbn in E.
      destruct (level_object c (ok_level c Hcok)) as (E1 & _). rewrite E1 in E. case_bool_decide as Ed; [|done].
      by rewrite bool_decide_true.
  - destruct (row_change (TypeChosen ty) p _ (required_in (InField n) s) Hcok eq_refl) as (Hvok & g & Hg & ->).
    apply visual_schema_refines; [done|done|done|]. by rewrite Hg, (under_view (InField n) req s c Hc).
  - cbn. pose proof (same_field_same p n (negb (pr_required p)) Hcok) as Hsame.
    eapply put_refines; [done|by apply edit_changed|by eapply same_schema_ok|].
    rewrite (same_tree _ _ _ Hsame), (under_view (InField n) req s c Hc). apply required_relabel.
Qed.

Lemma change_refines e s : schema_ok s → keeps_required (tree_of false s) e = true →
  schema_ok (visual_step s e) ∧ tree_of false (visual_step s e) ≈ spec_step (tree_of false s) e.
Proof.
  intros Hs Hk. unfold visual_step, spec_step.
  enough (refines false (visual_change e s)
    (match e with VAdd f => spec_add f (tree_of false s) | VField n a => spec_field true n a (tree_of false s)
     | VInside n route a => spec_inside n (spec_edit route a) (tree_of false s) end)) as Hr.
  { revert Hr. generalize (match e with VAdd f => spec_add f (tree_of false s) | VField n a => spec_field true n a (tree_of false s)
     | VInside n route a => spec_inside n (spec_edit route a) (tree_of false s) end).
    intros ot. destruct (visual_change e s), ot; cbn; try done. }
  pose proof (ok_level s Hs) as Hl. destruct e as [f|n a|n route a]; cbn [visual_change]; [|by apply visual_field_refines|].
  - destruct (added_field f) as [nf|] eqn:Ef; [|by rewrite form_none].
    pose proof (form_refines s s f nf (VStr (ff_description f)) false Hs (same_refl s Hl) Ef (js_or_empty _)) as Hr.
    unfold added_field in Ef. case_bool_decide; [done|]. injection Ef as <-. cbn [mbind option_bind]. unfold handleAddField.
    by destruct (level_object s Hl) as (_ & _ & ->).
  - unfold spec_inside. rewrite root_view, find_property_spec by done.
    destruct (child (InField n) s) as [c|] eqn:Hc; [|done]. cbn [fmap option_fmap option_map mbind option_bind pr_schema].
    pose proof (ok_child _ _ _ Hs Hc) as Hcok. pose proof (edit_refines route a c (required_in (InField n) s) Hcok) as IH.
    pose proof (spec_edit_proper route a _ _ (under_view (InField n) false s c Hc)) as Hp.
    destruct (type_edit route a c) as [u|], (spec_edit route a (tree_of _ c)) as [t|],
      (spec_edit route a (under _ _)) as [t'|]; try done. cbn [mbind option_bind].
    destruct IH as [Hu Htu]. destruct (keep_relabel c u (required_in (InField n) s) Hu (ok_level c Hcok)) as [Hku Hkt].
    apply visual_schema_refines; [done|done|done|]. rewrite Hkt, Htu. cbn in Hp. by rewrite Hp.
Qed.

Fixpoint run_ok (t : tree) (es : list visual_event) : bool :=
  match es with [] => true | e :: es => keeps_required t e && run_ok (spec_step t e) es end.

Lemma keeps_required_proper e t u : t ≈ u → keeps_required t e = keeps_required u e.
Proof. intros H. unfold keeps_required, required_at. destruct e as [|n []|]; try done. by rewrite (tree_at H). Qed.

Lemma run_refines_spec es s t : schema_ok s → tree_of false s ≈ t → run_ok t es = true →
  schema_ok (visual_run s es) ∧ tree_of false (visual_run s es) ≈ foldl spec_step t es.
Proof.
  revert s t. induction es as [|e es IH]; intros s t Hs Ht; [done|]. cbn [run_ok]. intros [Hk Hes]%andb_true_iff.
  assert (keeps_required (tree_of false s) e = true) as Hk' by (by rewrite (keeps_required_proper e _ _ Ht)).
  destruct (change_refines e s Hs Hk') as [Hok Hst]. apply IH; [done| |done]. by rewrite Hst, Ht.
Qed.

(** C21: However fields are added, renamed, retyped, described, required and
    removed in the dialog, at any depth, and whatever is set in the editors of
    the types, as long as no required field of the first level is renamed: the
    schema stays well formed, its required names being its fields, and on every
    way into it lies exactly the field that the edits, understood as operations
    on the tree of fields, have put there. *)
Theorem schema_edits_refine s es (Hs : schema_ok s) (Hes : run_ok (tree_of false s) es = true) :
  schema_ok (visual_run s es) ∧
  ∀ q, field_at false q (visual_run s es) = foldl spec_step (tree_of false s) es q.
Proof.
  destruct (run_refines_spec es s (tree_of false s) Hs (reflexivity _) Hes) as [Hok Ht]. split; [done|].
  intros q. apply (tree_at Ht).
Qed.

Lemma empty_ok : schema_ok (VObj []).
Proof.
  apply schema_ok_intro; [|by intros [n|] c].
  split; [by exists []; split; [|constructor]|by left|by left|]. intros v Hv. by apply not_elem_of_nil in Hv.
Qed.

Definition sample_form (name type : string) (required : bool) : field_form :=
  {| ff_name := name; ff_type := type; ff_description := "d"; ff_required := required |}.

Definition sample_edits : list visual_event :=
  [VAdd (sample_form "people" "array" true); VInside "people" [] (ItemTypeChosen "object");
   VInside "people" [InItem] (FieldAdded (sample_form "age" "integer" true));
   VInside "people" [InItem] (FieldAction "age" (NameSubmitted " years "));
   VInside "people" [InItem; InField "years"] (NumberChanged NMinimum (VNum (num_of_Z 0)));
   VAdd (sample_form "n" "string" false); VField "n" (NameSubmitted "note"); VField "note" RequiredClicked].

Lemma schema_edits_refine_witness :
  run_ok (tree_of false (VObj [])) sample_edits = true ∧
  field_at false [InField "people"; InItem; InField "years"] (visual_run (VObj []) sample_edits) =
  foldl spec_step (tree_of false (VObj [])) sample_edits [InField "people"; InItem; InField "years"].
Proof.
  assert (run_ok (tree_of false (VObj [])) sample_edits = true) as Hes by (vm_compute; reflexivity).
  split; [exact Hes|]. apply (schema_edits_refine (VObj []) sample_edits empty_ok Hes).
Defined.

Example sample_shown :
  field_at false [InField "people"; InItem; InField "years"] (visual_run (VObj []) sample_edits) =
  Some {| fd_type := VStr "integer"; fd_required := true; fd_description := VStr "d"; fd_enum := VUndef |} ∧
  getSchemaProperties (visual_run (VObj []) sample_edits) !! 1 =
  Some {| pr_name := "note"; pr_schema := VObj [("type", VStr "string"); ("description", VStr "d")]; pr_required := true |}.
Proof. vm_compute. done. Qed.

(** ** What the editors do not do *)

(** A required field that is renamed stays required under its old name, where
    there is none; a field added under that name is required at once. *)
Lemma renamed_stays_required :
  let s := visual_run (VObj []) [VAdd (sample_form "a" "string" true); VField "a" (NameSubmitted "b")] in
  prop "required" s = VArr [VStr "a"; VStr "b"] ∧ obj_keys (props s) = ["b"] ∧
  required_in (InField "a") (visual_step s (VAdd (sample_form "a" "string" false))) = true.
Proof. vm_compute. done. Qed.

(** A field that is added under a name that is there, or renamed to it,
    replaces that field and everything in it. *)
Lemma added_replaces :
  let s := visual_run (VObj []) [VAdd (sample_form "a" "object" false); VInside "a" [] (FieldAdded (sample_form "b" "string" false))] in
  is_Some (field_at false [InField "a"; InField "b"] s) ∧
  field_at false [InField "a"; InField "b"] (visual_step s (VAdd (sample_form "a" "object" false))) = None.
Proof. vm_compute. by eauto. Qed.

(** The items of an array lose their description when a bound is set. *)
Lemma item_description_lost :
  let items := VObj [("type", VStr "string"); ("description", VStr "a city")] in
  let s := VObj [("properties", VObj [("cities", VObj [("type", VStr "array"); ("items", items)])])] in
  fd_description <$> field_at false [InField "cities"; InItem] s = Some (VStr "a city") ∧
  fd_description <$> field_at false [InField "cities"; InItem]
    (visual_step s (VInside "cities" [InItem] (StringChanged SMaxLength (VNum (num_of_Z 9))))) = Some (VStr "").
Proof. vm_compute. done. Qed.

(** The switch hands up what was set before the click: after on and off the
    switch is off and the schema asks for unique items. *)
Lemma unique_one_late :
  let s0 := VObj [("type", VStr "array")] in
  let on := unique_clicked true (array_mount s0) s0 in
  let off := unique_clicked false on.1 on.2 in
  uniqueItems on.1 = true ∧ prop "uniqueItems" on.2 = VUndef ∧
  uniqueItems off.1 = false ∧ prop "uniqueItems" off.2 = VBool true.
Proof. vm_compute. done. Qed.
