(* ===== verification/SearchSettings.v ===== *)
(** * The settings of a search application

    pages/next-search/search-setting.tsx with pages/next-searches/hooks.ts and
    the update of api/apps/search_app.py: the form filled from what is stored,
    what the schema lets through, what is sent, and how the server merges it.
    The types of the fields are checked by zod, [accepts] here.  The weight of
    the keywords is stored as its difference from 1, which the language
    computes in binary64: [one_minus] rounds as the standard says. *)
From Stdlib Require Import Ascii QArith Qround Qcanon SpecFloat.
From S2P Require Import Prelude JsValue.
Open Scope list_scope.
Open Scope nat_scope.
Open Scope js_scope.

(** ** Numbers of 64 bits

    A number is the rational it stands for; the standard's operations are those
    of [SpecFloat] with 53 bits. *)
Definition float_of_Z (z : Z) : spec_float := binary_normalize 53 1024 z 0 false.

Definition float_of_num (n : num) : spec_float :=
  match n with
  | NFin q => SFdiv 53 1024 (float_of_Z (Qnum (Qcanon.this q))) (float_of_Z (Zpos (Qden (Qcanon.this q))))
  | NNaN => S754_nan
  | NPosInf => S754_infinity false
  | NNegInf => S754_infinity true
  end.

Definition num_of_float (f : spec_float) : num :=
  match f with
  | S754_zero _ => num_of_Z 0
  | S754_nan => NNaN
  | S754_infinity negative => if negative then NNegInf else NPosInf
  | S754_finite negative m e =>
      let z := if negative then Zneg m else Zpos m in
      NFin match e with
           | Zneg p => Q2Qc (z # Pos.pow 2 p)
           | _ => Q2Qc ((z * 2 ^ e)%Z # 1)
           end
  end.

(** Hundredths, as the language reads [0.3]. *)
Definition cents (z : Z) : val := VNum (num_of_float (SFdiv 53 1024 (float_of_Z z) (float_of_Z 100))).

(** [1 - v] for a number. *)
Definition one_minus (v : val) : val :=
  match v with
  | VNum n => VNum (num_of_float (SFsub 53 1024 (float_of_Z 1) (float_of_num n)))
  | _ => VNum NNaN
  end.

(** [v.toFixed(2)], which the form shows of the weight, in hundredths. *)
Definition hundredths (v : val) : option Z :=
  match v with VNum (NFin q) => Some (Qfloor (Qcanon.this q * 100 + (1 # 2))%Q) | _ => None end.

(** The subtraction from 1 is not undone by another one. *)
Example weight_not_exact : one_minus (one_minus (cents 30)) ≠ cents 30 ∧ hundredths (one_minus (one_minus (cents 30))) = Some 30%Z ∧
  one_minus (cents 30) = cents 70.
Proof. split; [|split]; apply (bool_decide_unpack _); vm_compute; exact I. Qed.

(** ** Filling the form *)
Definition reset_llm (search_config : val) : val :=
  let llm_setting := prop "llm_setting" search_config in
  VObj [("llm_id", js_or (prop "chat_id" search_config) (VStr ""));
        ("parameter", prop "parameter" llm_setting);
        ("temperature", js_or (prop "temperature" llm_setting) (VNum (num_of_Z 0)));
        ("top_p", js_or (prop "top_p" llm_setting) (VNum (num_of_Z 0)));
        ("frequency_penalty", js_or (prop "frequency_penalty" llm_setting) (VNum (num_of_Z 0)));
        ("presence_penalty", js_or (prop "presence_penalty" llm_setting) (VNum (num_of_Z 0)));
        ("temperatureEnabled", VBool (truthy (prop "temperature" llm_setting)));
        ("topPEnabled", VBool (truthy (prop "top_p" llm_setting)));
        ("presencePenaltyEnabled", VBool (truthy (prop "presence_penalty" llm_setting)));
        ("frequencyPenaltyEnabled", VBool (truthy (prop "frequency_penalty" llm_setting)))].

Definition reset_config (search_config : val) : val :=
  let weight := prop "vector_similarity_weight" search_config in
  VObj [("kb_ids", js_or (prop "kb_ids" search_config) (VArr []));
        ("vector_similarity_weight", js_or (if truthy weight then one_minus weight else cents 30) (cents 30));
        ("web_search", js_or (prop "web_search" search_config) (VBool false));
        ("doc_ids", VArr []);
        ("similarity_threshold", js_or (prop "similarity_threshold" search_config) (cents 20));
        ("use_kg", VBool false);
        ("rerank_id", js_or (prop "rerank_id" search_config) (VStr ""));
        ("use_rerank", VBool (truthy (prop "rerank_id" search_config)));
        ("top_k", js_or (prop "top_k" search_config) (VNum (num_of_Z 1024)));
        ("summary", js_or (prop "summary" search_config) (VBool false));
        ("chat_id", js_or (prop "chat_id" search_config) (VStr ""));
        ("llm_setting", reset_llm search_config);
        ("chat_settingcross_languages", VArr []);
        ("highlight", VBool false);
        ("keyword", VBool false);
        ("related_search", js_or (prop "related_search" search_config) (VBool false));
        ("query_mindmap", js_or (prop "query_mindmap" search_config) (VBool false));
        ("meta_data_filter", prop "meta_data_filter" search_config)].

Definition resetForm (descriptionDefaultValue : string) (data : val) : val :=
  VObj [("search_id", prop "id" data);
        ("name", js_or (prop "name" data) (VStr ""));
        ("avatar", js_or (prop "avatar" data) (VStr ""));
        ("description", js_or (prop "description" data) (VStr descriptionDefaultValue));
        ("search_config", reset_config (prop "search_config" data))].

(** ** The schema *)
Definition required_config_keys : list string :=
  ["kb_ids"; "vector_similarity_weight"; "web_search"; "similarity_threshold"; "use_kg"; "rerank_id"; "use_rerank"; "top_k";
   "summary"; "llm_setting"; "related_search"; "query_mindmap"].

Definition config_keys : list string := required_config_keys ++ ["meta_data_filter"].

Definition llm_keys : list string :=
  ["llm_id"; "temperature"; "top_p"; "presence_penalty"; "frequency_penalty"; "max_tokens";
   "temperatureEnabled"; "topPEnabled"; "presencePenaltyEnabled"; "frequencyPenaltyEnabled"; "maxTokensEnabled"].

(** An object schema lets the properties it names through. *)
Definition pick (keys : list string) (v : val) : obj := js_filter (λ kv, js_includes keys kv.1) (obj_of_val v).

Definition schema_config (search_config : val) : val :=
  VObj (obj_set "llm_setting" (VObj (pick llm_keys (prop "llm_setting" search_config))) (pick config_keys search_config)).

Definition schema_issues (data : val) : list string :=
  let search_config := prop "search_config" data in
  (if truthy (prop "use_rerank" search_config) && negb (truthy (prop "rerank_id" search_config)) then ["rerank_id"] else []) ++
  (if truthy (prop "summary" search_config) && negb (truthy (prop "llm_id" (prop "llm_setting" search_config)))
   then ["llm_setting"] else []).

Section settings.
Context (accepts : val → bool).

(** The values handed to [onSubmit]; [None]: errors are shown instead. *)
Definition schema_parse (data : val) : option val :=
  let search_config := prop "search_config" data in
  if accepts data && js_every (λ k, negb (is_undef (prop k search_config))) required_config_keys && (schema_issues data === [])
  then Some (VObj (obj_set "search_config" (schema_config search_config)
                     (pick ["search_id"; "name"; "avatar"; "description"; "search_config"] data)))
  else None.

(** ** Sending it *)

(** A property that is [undefined] is not sent. *)
Definition sent (o : obj) : val := VObj (js_filter (λ kv, negb (is_undef kv.2)) o).

Definition llmSetting (llm_setting : val) : val :=
  sent [("parameter", prop "parameter" llm_setting); ("temperature", prop "temperature" llm_setting);
        ("top_p", prop "top_p" llm_setting); ("frequency_penalty", prop "frequency_penalty" llm_setting);
        ("presence_penalty", prop "presence_penalty" llm_setting)].

Definition sent_config (search_config : val) : val :=
  let other_config := obj_del "rerank_id" (obj_del "use_rerank" (obj_del "vector_similarity_weight"
                        (obj_del "llm_setting" (obj_of_val search_config)))) in
  let llm_setting := prop "llm_setting" search_config in
  sent (obj_set "llm_setting" (llmSetting llm_setting)
    (obj_set "rerank_id" (if truthy (prop "use_rerank" search_config) then prop "rerank_id" search_config else VStr "")
    (obj_set "vector_similarity_weight" (one_minus (prop "vector_similarity_weight" search_config))
    (obj_set "chat_id" (prop "llm_id" llm_setting) other_config)))).

Definition request_of (tenant_id : string) (formData : val) : obj :=
  obj_set "tenant_id" (VStr tenant_id)
    (obj_set "search_config" (sent_config (prop "search_config" formData))
      (obj_del "search_config" (obj_of_val formData))).

(** ** The server *)

(** [{ **current, **new }] *)
Definition dict_merge (current new : obj) : obj := foldl (λ acc kv, obj_set kv.1 kv.2 acc) current new.

Definition DATASET_NAME_LIMIT : nat := 128.

Definition str_of (v : val) : string := match v with VStr n => n | _ => "" end.

(** [taken]: the answer of the database for a name; [None] is a code that is
    not zero. *)
Definition search_update (allowed : bool) (taken : string → bool) (req app : obj) : option obj :=
  match obj_get "name" req with
  | VStr name =>
      if str_trim name === "" then None
      else if (DATASET_NAME_LIMIT <? String.length name)%nat then None
      else if negb allowed then None
      else
        let name := str_trim name in
        if (to_lower name !== to_lower (str_of (obj_get "name" app))) &&
           taken name then None
        else
          match obj_get "search_config" req with
          | VObj new =>
              let req := obj_set "search_config" (VObj (dict_merge (obj_of_val (obj_get "search_config" app)) new))
                           (obj_set "name" (VStr name) req) in
              Some (dict_merge app (obj_del "tenant_id" (obj_del "search_id" req)))
          | _ => None
          end
  | _ => None
  end.

(** The form submitted: [None] when nothing is stored. *)
Definition onSubmit (tenant_id : string) (allowed : bool) (taken : string → bool) (form : val) (app : obj) : option obj :=
  formData ← schema_parse form; search_update allowed taken (request_of tenant_id formData) app.
End settings.

(** ** Choosing a dataset *)
Record dataset := { ds_id : string; ds_embd_id : string }.

(** The embedding model of the first chosen dataset and the chosen ones. *)
Definition handleDatasetSelectChange (datasets : list dataset) (value : list string) : string * list string :=
  (match value with
   | [] => ""
   | v :: _ => default "" (ds_embd_id <$> js_find (λ d, ds_id d === v) datasets)
   end, value).

Definition dataset_disabled (datasetSelectEmbdId : string) (d : dataset) : bool :=
  (ds_embd_id d !== datasetSelectEmbdId) && (datasetSelectEmbdId !== "").

(** Switching the reranking off resets [top_k]: [prev] is the value at the last
    rendering. *)
Definition rerank_effect (prev : option bool) (use_rerank : bool) (top_k : val) : val :=
  if (prev === Some true) && negb use_rerank then VNum (num_of_Z 1024) else top_k.

(** ** Saving and opening again *)
Section reopen.
Context (accepts : val → bool).

Lemma pick_get keys k v : obj_get k (pick keys v) = if js_includes keys k then prop k v else VUndef.
Proof.
  unfold obj_get, pick. pose proof (obj_lookup_filter_key (λ x, js_includes keys x) k (obj_of_val v)) as H. cbv beta in H.
  rewrite H. destruct (js_includes keys k); [|done]. by destruct v.
Qed.

Lemma obj_lookup_del_ne k k' o : k ≠ k' → obj_lookup k (obj_del k' o) = obj_lookup k o.
Proof.
  intros Hk. unfold obj_del. pose proof (obj_lookup_filter_key (λ x, x !== k') k o) as H. cbv beta in H. rewrite H.
  by rewrite bool_decide_false.
Qed.

Lemma pick_wf keys v : obj_wf (obj_of_val v) → obj_wf (pick keys v).
Proof. apply obj_filter_wf. Qed.

Lemma dict_merge_get k current new : obj_wf new →
  obj_get k (dict_merge current new) = match obj_lookup k new with Some v => v | None => obj_get k current end.
Proof. intros Hn. unfold obj_get, dict_merge. rewrite foldl_obj_set_lookup by done. by destruct (obj_lookup k new). Qed.

Lemma sent_lookup k o : obj_wf o →
  obj_lookup k (obj_of_val (sent o)) = if is_undef (obj_get k o) then None else Some (obj_get k o).
Proof.
  unfold obj_get, obj_wf, sent. cbn [obj_of_val]. induction o as [|[k' v] o IH]; [done|]. csimpl. intros [Hk Hwf]%NoDup_cons.
  rewrite js_filter_cons. csimpl. destruct (decide (k = k')) as [->|Hne].
  - rewrite bool_decide_true by done. cbn [default]. destruct (is_undef v) eqn:Ev; csimpl; rewrite Ev; [|by rewrite bool_decide_true by done].
    apply obj_lookup_None. intros (kv & E & [_ Hin]%elem_of_js_filter)%list_elem_of_fmap. apply Hk. rewrite E.
    by apply list_elem_of_fmap_2.
  - rewrite (bool_decide_false (k = k')) by done. destruct (negb (is_undef v)); csimpl; [|by apply IH].
    rewrite (bool_decide_false (k = k')) by done. by apply IH.
Qed.

(** What the names of a configuration read after the merge. *)
Lemma stored_config tenant_id allowed taken form app app' :
  obj_wf (obj_of_val form) → obj_wf (obj_of_val (prop "search_config" form)) →
  onSubmit accepts tenant_id allowed taken form app = Some app' →
  ∃ o, obj_get "search_config" app' = VObj o ∧ ∀ k,
    obj_get k o =
      match obj_lookup k (obj_of_val (sent_config (schema_config (prop "search_config" form)))) with
      | Some v => v | None => obj_get k (obj_of_val (obj_get "search_config" app)) end.
Proof.
  intros Hf Hc. unfold onSubmit. destruct (schema_parse accepts form) as [fd|] eqn:Ep; [|done]. cbn [mbind option_bind].
  unfold schema_parse in Ep. destruct (_ && _); [|done]. injection Ep as <-.
  set (c' := schema_config (prop "search_config" form)). set (fo := obj_set "search_config" c' _).
  assert (obj_wf fo) as Hfo by (apply obj_set_wf, pick_wf, Hf).
  assert (obj_wf (request_of tenant_id (VObj fo))) as Hreq by (unfold request_of; cbn [obj_of_val]; by repeat apply obj_set_wf; apply obj_del_wf).
  assert (obj_get "search_config" (request_of tenant_id (VObj fo)) = sent_config c') as Er.
  { unfold request_of. rewrite obj_get_set_ne, obj_get_set_eq by done. cbn [prop]. unfold fo. by rewrite obj_get_set_eq. }
  unfold search_update. rewrite Er. intros Hsome. repeat (case_match; try discriminate Hsome).
  injection Hsome as <-.
  match goal with H : sent_config c' = VObj _ |- _ => rename H into Es end.
  eexists. split.
  - rewrite dict_merge_get by (do 2 apply obj_del_wf; do 2 apply obj_set_wf; exact Hreq).
    rewrite !obj_lookup_del_ne by done. by rewrite obj_lookup_set_eq.
  - intros k. cbn [obj_of_val]. apply dict_merge_get.
    assert (obj_wf (obj_of_val (sent_config c'))) as Hwf; [|by rewrite Es in Hwf].
    apply obj_filter_wf. repeat apply obj_set_wf. repeat apply obj_del_wf. cbn. by apply obj_set_wf, pick_wf.
Qed.

(** What is sent under each name; [undefined] is not. *)
Definition sent_value (c : val) (k : string) : val :=
  if k === "llm_setting" then llmSetting (VObj (pick llm_keys (prop "llm_setting" c)))
  else if k === "rerank_id" then (if truthy (prop "use_rerank" c) then prop "rerank_id" c else VStr "")
  else if k === "vector_similarity_weight" then one_minus (prop "vector_similarity_weight" c)
  else if k === "chat_id" then prop "llm_id" (prop "llm_setting" c)
  else if k === "use_rerank" then VUndef
  else if js_includes config_keys k then prop k c else VUndef.

Lemma schema_config_get c k : obj_get k (obj_of_val (schema_config c)) =
  if k === "llm_setting" then VObj (pick llm_keys (prop "llm_setting" c))
  else if js_includes config_keys k then prop k c else VUndef.
Proof.
  unfold schema_config. cbn [obj_of_val]. case_bool_decide as E; [subst k; apply obj_get_set_eq|].
  rewrite obj_get_set_ne by congruence. apply pick_get.
Qed.

Lemma sent_config_lookup c k : obj_wf (obj_of_val c) →
  obj_lookup k (obj_of_val (sent_config (schema_config c))) =
  if is_undef (sent_value c k) then None else Some (sent_value c k).
Proof.
  intros Hc.
  assert (∀ k', prop k' (schema_config c) = obj_get k' (obj_of_val (schema_config c))) as Hprop by done.
  assert (prop "llm_id" (VObj (pick llm_keys (prop "llm_setting" c))) = prop "llm_id" (prop "llm_setting" c)) as Hid
    by (cbn [prop]; by rewrite pick_get).
  unfold sent_config. rewrite sent_lookup.
  2:{ repeat apply obj_set_wf. repeat apply obj_del_wf. cbn. by apply obj_set_wf, pick_wf. }
  assert (∀ k', k' ≠ "llm_setting" → k' ∈ config_keys → prop k' (schema_config c) = prop k' c) as Hread.
  { intros k' Hk' Hin. rewrite Hprop, schema_config_get, bool_decide_false by done.
    by rewrite (proj2 (js_includes_true config_keys k') Hin). }
  assert (prop "llm_setting" (schema_config c) = VObj (pick llm_keys (prop "llm_setting" c))) as -> by (by rewrite Hprop, schema_config_get).
  rewrite Hid, !Hread by (done || apply (bool_decide_unpack _); vm_compute; exact I).
  assert (∀ x y : val, x = y → (if is_undef x then None else Some x) = (if is_undef y then None else Some y)) as Hcong by (by intros x y ->).
  apply Hcong. unfold sent_value.
  destruct (decide (k = "llm_setting")) as [->|H1]; [apply obj_get_set_eq|rewrite (bool_decide_false _ H1), obj_get_set_ne by (done || by apply not_eq_sym)].
  destruct (decide (k = "rerank_id")) as [->|H2]; [apply obj_get_set_eq|rewrite (bool_decide_false _ H2), obj_get_set_ne by (done || by apply not_eq_sym)].
  destruct (decide (k = "vector_similarity_weight")) as [->|H3];
    [apply obj_get_set_eq|rewrite (bool_decide_false _ H3), obj_get_set_ne by (done || by apply not_eq_sym)].
  destruct (decide (k = "chat_id")) as [->|H4];
    [apply obj_get_set_eq|rewrite (bool_decide_false _ H4), obj_get_set_ne by (done || by apply not_eq_sym)].
  rewrite obj_get_del_ne by done.
  destruct (decide (k = "use_rerank")) as [->|H5]; [apply obj_get_del_eq|rewrite (bool_decide_false _ H5)].
  rewrite !obj_get_del_ne, schema_config_get by done. by rewrite (bool_decide_false _ H1).
Qed.

(** A weight as the slider sets it, in hundredths between 0 and 1, or as it is
    shown after it was stored. *)
Definition weight_ok (v : val) : Prop :=
  ∃ k, (1 <= k <= 99)%Z ∧ (v = cents k ∨ v = one_minus (one_minus (cents k))).

(** A form whose values are of their types, with the numbers inside their
    ranges and the switches as the fields they go with. *)
Record regular (c : val) : Prop := {
  rg_weight : weight_ok (prop "vector_similarity_weight" c);
  rg_threshold : truthy (prop "similarity_threshold" c) = true;
  rg_top_k : truthy (prop "top_k" c) = true;
  rg_kb : truthy (prop "kb_ids" c) = true;
  rg_flags k : k ∈ ["web_search"; "summary"; "related_search"; "query_mindmap"] → ∃ b, prop k c = VBool b;
  rg_kg : prop "use_kg" c = VBool false;
  rg_rerank : ∃ s, prop "rerank_id" c = VStr s ∧ prop "use_rerank" c = VBool (s !== "");
  rg_llm_id : ∃ s, prop "llm_id" (prop "llm_setting" c) = VStr s;
  rg_llm k e : (k, e) ∈ [("temperature", "temperatureEnabled"); ("top_p", "topPEnabled");
                         ("frequency_penalty", "frequencyPenaltyEnabled"); ("presence_penalty", "presencePenaltyEnabled")] →
    ∃ q, prop k (prop "llm_setting" c) = VNum (NFin q) ∧ prop e (prop "llm_setting" c) = VBool (truthy (VNum (NFin q)))
}.

Definition shown_keys : list string := required_config_keys.

Definition llm_shown : list string :=
  ["llm_id"; "temperature"; "top_p"; "frequency_penalty"; "presence_penalty";
   "temperatureEnabled"; "topPEnabled"; "presencePenaltyEnabled"; "frequencyPenaltyEnabled"].

Lemma js_or_true v d : truthy v = true → js_or v d = v.
Proof. intros H. unfold js_or. by rewrite H. Qed.

Lemma js_or_bool b : js_or (VBool b) (VBool false) = VBool b.
Proof. by destruct b. Qed.

Lemma js_or_fin q : js_or (VNum (NFin q)) (VNum (num_of_Z 0)) = VNum (NFin q).
Proof.
  unfold js_or. destruct (truthy _) eqn:E; [done|]. cbn in E. apply negb_false_iff, bool_decide_eq_true in E. by rewrite E.
Qed.

(** What is shown of a weight that was stored. *)
Definition shown_weight (stored : val) : val := js_or (if truthy stored then one_minus stored else cents 30) (cents 30).

Definition weight_kept (w : val) : bool :=
  (hundredths (shown_weight (one_minus w)) === hundredths w) && (one_minus (shown_weight (one_minus w)) === one_minus w) &&
  negb (is_undef (one_minus w)).

Lemma weights_kept : js_every (λ k, weight_kept (cents k) && weight_kept (one_minus (one_minus (cents k)))) (seqZ 1 99) = true.
Proof. by vm_compute. Qed.

Lemma weight_shown w : weight_ok w →
  hundredths (shown_weight (one_minus w)) = hundredths w ∧ one_minus (shown_weight (one_minus w)) = one_minus w.
Proof.
  intros (k & Hk & Hw). pose proof weights_kept as H. rewrite js_every_true in H.
  assert (weight_kept w = true) as Hkept.
  { specialize (H k). apply andb_true_iff in H as [H1 H2]; [by destruct Hw as [->| ->]|]. apply elem_of_seqZ. lia. }
  unfold weight_kept in Hkept. apply andb_true_iff in Hkept as [[H1 H2]%andb_true_iff _]. by reflect_bool.
Qed.

Lemma unsent c k : k ∉ "chat_id" :: config_keys → sent_value c k = VUndef.
Proof.
  intros Hk'. unfold sent_value. rewrite (bool_decide_false (k = "llm_setting")), (bool_decide_false (k = "rerank_id")),
    (bool_decide_false (k = "vector_similarity_weight")), (bool_decide_false (k = "chat_id")) by (intros ->; apply Hk'; apply (bool_decide_unpack _); vm_compute; exact I).
  case_bool_decide; [done|]. destruct (js_includes config_keys k) eqn:E; [|done]. apply js_includes_true in E. set_solver.
Qed.

Section merged.
Context (c stored : val) (o : obj) (Hreg : regular c).
Context (Hk : ∀ k, prop k (VObj o) = if is_undef (sent_value c k) then prop k stored else sent_value c k).

(** What is sent is what is stored. *)
Lemma sent_read k v : sent_value c k = v → v ≠ VUndef → prop k (VObj o) = v.
Proof. intros E Hv. rewrite Hk, E. by destruct v. Qed.

Lemma rerank_sent : ∃ s, prop "rerank_id" c = VStr s ∧ prop "use_rerank" c = VBool (s !== "") ∧ prop "rerank_id" (VObj o) = VStr s.
Proof.
  destruct (rg_rerank _ Hreg) as (s & E1 & E2). exists s. split; [done|]. split; [done|].
  apply sent_read; [|done]. unfold sent_value. rewrite E1, E2. cbn [bool_decide]. change (truthy (VBool (s !== ""))) with (s !== "").
  destruct (decide (s = "")) as [->|Hs]; [done|]. by rewrite (bool_decide_false (s = "")).
Qed.

Lemma weight_again : let w := prop "vector_similarity_weight" (reset_config (VObj o)) in
  hundredths w = hundredths (prop "vector_similarity_weight" c) ∧ one_minus w = one_minus (prop "vector_similarity_weight" c).
Proof.
  intros w. assert (w = shown_weight (one_minus (prop "vector_similarity_weight" c))) as ->; [|apply weight_shown, Hreg].
  unfold w. change (prop "vector_similarity_weight" (reset_config (VObj o))) with (shown_weight (prop "vector_similarity_weight" (VObj o))).
  f_equal. apply sent_read; [done|]. by destruct (prop "vector_similarity_weight" c).
Qed.

Lemma config_shown k : k ∈ shown_keys → k ≠ "llm_setting" → k ≠ "vector_similarity_weight" →
  prop k (reset_config (VObj o)) = prop k c.
Proof.
  assert (∀ k v, k ∈ ["kb_ids"; "web_search"; "similarity_threshold"; "top_k"; "summary"; "related_search"; "query_mindmap"] →
    prop k c = v → v ≠ VUndef → prop k (VObj o) = v) as Hplain.
  { intros k' v Hk' Ev Hv. apply sent_read; [|done]. rewrite <-Ev. repeat (apply elem_of_cons in Hk' as [->|Hk']; [done|]).
    by apply not_elem_of_nil in Hk'. }
  assert (∀ v, truthy v = true → v ≠ VUndef) as Htu by (by intros v Hv ->).
  assert (∀ k, k ∈ ["web_search"; "summary"; "related_search"; "query_mindmap"] → js_or (prop k (VObj o)) (VBool false) = prop k c) as Hflag.
  { intros k' Hk'. destruct (rg_flags _ Hreg k' Hk') as [b Eb]. rewrite (Hplain k' (VBool b)), Eb by (done || set_solver).
    apply js_or_bool. }
  assert (∀ k d, k ∈ ["kb_ids"; "similarity_threshold"; "top_k"] → truthy (prop k c) = true →
    js_or (prop k (VObj o)) d = prop k c) as Htrue.
  { intros k' d Hk' Ht. rewrite (Hplain k' (prop k' c)) by (done || set_solver || by apply Htu). by apply js_or_true. }
  destruct rerank_sent as (s & E1 & E2 & E3).
  intros Hin Hne Hnw. repeat (apply elem_of_cons in Hin as [->|Hin]; [|]); [..|by apply not_elem_of_nil in Hin].
  - apply Htrue; [set_solver|apply Hreg].
  - done.
  - apply Hflag. set_solver.
  - apply Htrue; [set_solver|apply Hreg].
  - symmetry. apply Hreg.
  - change (js_or (prop "rerank_id" (VObj o)) (VStr "") = prop "rerank_id" c). rewrite E3, E1. unfold js_or. cbn [truthy].
    case_bool_decide; cbn; by subst.
  - change (VBool (truthy (prop "rerank_id" (VObj o))) = prop "use_rerank" c). by rewrite E3, E2.
  - apply Htrue; [set_solver|apply Hreg].
  - apply Hflag. set_solver.
  - done.
  - apply Hflag. set_solver.
  - apply Hflag. set_solver.
Qed.

Lemma llm_shown_again k : k ∈ llm_shown → prop k (prop "llm_setting" (reset_config (VObj o))) = prop k (prop "llm_setting" c).
Proof.
  change (prop "llm_setting" (reset_config (VObj o))) with (reset_llm (VObj o)).
  assert (prop "llm_setting" (VObj o) = llmSetting (VObj (pick llm_keys (prop "llm_setting" c)))) as El
    by (by apply sent_read).
  destruct (rg_llm_id _ Hreg) as [s Es].
  assert (prop "chat_id" (VObj o) = VStr s) as Ec by (by apply sent_read; [rewrite <-Es|]).
  assert (∀ k e q, (k, e) ∈ [("temperature", "temperatureEnabled"); ("top_p", "topPEnabled");
                         ("frequency_penalty", "frequencyPenaltyEnabled"); ("presence_penalty", "presencePenaltyEnabled")] →
    prop k (prop "llm_setting" c) = VNum (NFin q) → prop k (prop "llm_setting" (VObj o)) = VNum (NFin q)) as Hl.
  { intros k' e q Hk' Eq.
    assert (∀ k, js_includes llm_keys k = true → obj_get k (pick llm_keys (prop "llm_setting" c)) = prop k (prop "llm_setting" c))
      as Hpick by (intros k0 E; by rewrite pick_get, E).
    rewrite El. unfold llmSetting, sent. cbn [prop].
    rewrite obj_get_defined by (apply (bool_decide_unpack _); vm_compute; exact I).
    repeat (apply elem_of_cons in Hk' as [[= -> ->]|Hk']; [match type of Eq with prop ?k0 _ = _ => exact (eq_trans (Hpick k0 eq_refl) Eq) end|]).
    by apply not_elem_of_nil in Hk'. }
  assert (∀ k e, (k, e) ∈ [("temperature", "temperatureEnabled"); ("top_p", "topPEnabled");
                         ("frequency_penalty", "frequencyPenaltyEnabled"); ("presence_penalty", "presencePenaltyEnabled")] →
    js_or (prop k (prop "llm_setting" (VObj o))) (VNum (num_of_Z 0)) = prop k (prop "llm_setting" c) ∧
    VBool (truthy (prop k (prop "llm_setting" (VObj o)))) = prop e (prop "llm_setting" c)) as Hpair.
  { intros k' e Hk'. destruct (rg_llm _ Hreg k' e Hk') as (q & Eq & Ee). rewrite (Hl k' e q Hk' Eq), Eq, Ee.
    split; [apply js_or_fin|done]. }
  intros Hin. repeat (apply elem_of_cons in Hin as [->|Hin]; [|]); [..|by apply not_elem_of_nil in Hin].
  - change (js_or (prop "chat_id" (VObj o)) (VStr "") = prop "llm_id" (prop "llm_setting" c)). rewrite Ec, Es. unfold js_or. cbn [truthy].
    case_bool_decide; cbn; by subst.
  - apply (Hpair "temperature" "temperatureEnabled"). set_solver.
  - apply (Hpair "top_p" "topPEnabled"). set_solver.
  - apply (Hpair "frequency_penalty" "frequencyPenaltyEnabled"). set_solver.
  - apply (Hpair "presence_penalty" "presencePenaltyEnabled"). set_solver.
  - apply (Hpair "temperature" "temperatureEnabled"). set_solver.
  - apply (Hpair "top_p" "topPEnabled"). set_solver.
  - apply (Hpair "presence_penalty" "presencePenaltyEnabled"). set_solver.
  - apply (Hpair "frequency_penalty" "frequencyPenaltyEnabled"). set_solver.
Qed.
End merged.

End reopen.

(** ** A stored application *)
Definition sample_config (weight threshold : Z) (use_kg : bool) : val :=
  VObj [("kb_ids", VArr [VStr "kb1"]); ("vector_similarity_weight", cents weight); ("similarity_threshold", cents threshold);
        ("use_kg", VBool use_kg); ("doc_ids", VArr [VStr "doc1"]); ("rerank_id", VStr "r1"); ("top_k", VNum (num_of_Z 50));
        ("chat_id", VStr "m1"); ("summary", VBool true);
        ("llm_setting", VObj [("parameter", VStr "Precise"); ("temperature", cents 10); ("top_p", cents 30)])].

Definition sample_app (config : val) : obj := [("id", VStr "s1"); ("name", VStr "App"); ("search_config", config)].

Definition any_values (v : val) : bool := true.

(** What is stored when the form is opened, [edit]ed and saved. *)
Definition saved_config (edit : obj → obj) (config : val) : option val :=
  let form := obj_of_val (resetForm "described" (VObj (sample_app config))) in
  let form := VObj (obj_set "search_config" (VObj (edit (obj_of_val (obj_get "search_config" form)))) form) in
  obj_get "search_config" <$> onSubmit any_values "t1" true (λ _, false) form (sample_app config).

Lemma number_and_switch v w :
  match v with VNum (NFin q) => w === VBool (truthy v) | _ => false end = true →
  ∃ q, v = VNum (NFin q) ∧ w = VBool (truthy (VNum (NFin q))).
Proof. destruct v as [| | |[q| | |]| | |]; try done. intros H. reflect_bool. by exists q. Qed.

Lemma bool_value v : match v with VBool _ => true | _ => false end = true → ∃ b, v = VBool b.
Proof. destruct v; try done. by eexists. Qed.

Lemma string_value v : match v with VStr _ => true | _ => false end = true → ∃ t, v = VStr t.
Proof. destruct v; try done. by eexists. Qed.


(** ** What is lost *)

(** At either end of its range the weight is shown as 0.3 and saved as 0.7 when
    the form is opened and saved. *)
Lemma weight_ends_lost :
  (prop "vector_similarity_weight" <$> saved_config id (sample_config 0 20 false)) = Some (cents 70) ∧
  (prop "vector_similarity_weight" <$> saved_config id (sample_config 100 20 false)) = Some (cents 70) ∧
  (prop "vector_similarity_weight" ∘ reset_config <$>
     saved_config (obj_set "vector_similarity_weight" (cents 0)) (sample_config 30 20 false)) = Some (cents 30) ∧
  (prop "vector_similarity_weight" ∘ reset_config <$>
     saved_config (obj_set "vector_similarity_weight" (cents 100)) (sample_config 30 20 false)) = Some (cents 30).
Proof. repeat split; apply (bool_decide_unpack _); vm_compute; exact I. Qed.

(** A threshold of zero becomes 0.2, and the use of the knowledge graph is
    switched off. *)
Lemma zero_threshold_lost :
  (prop "similarity_threshold" <$> saved_config id (sample_config 30 0 false)) = Some (cents 20) ∧
  (prop "use_kg" <$> saved_config id (sample_config 30 20 true)) = Some (VBool false).
Proof. split; apply (bool_decide_unpack _); vm_compute; exact I. Qed.

(** The preset of the model is filled into the form and sent back, but the
    schema between does not name it. *)
Lemma preset_lost :
  (prop "parameter" (prop "llm_setting" (reset_config (sample_config 30 20 false)))) = VStr "Precise" ∧
  (prop "parameter" ∘ prop "llm_setting" <$> saved_config id (sample_config 30 20 false)) = Some VUndef.
Proof. split; apply (bool_decide_unpack _); vm_compute; exact I. Qed.

(** ** Datasets and reranking *)

(** Once a dataset is chosen, the others that can be chosen share its embedding
    model. *)
Lemma one_embedding_model datasets v value d :
  let embd := (handleDatasetSelectChange datasets (v :: value)).1 in
  embd ≠ "" → dataset_disabled embd d = false ↔ ds_embd_id d = embd.
Proof.
  intros embd He. unfold dataset_disabled. rewrite (bool_decide_false (embd = "")) by done. rewrite andb_true_r.
  by rewrite negb_false_iff, bool_decide_eq_true.
Qed.
