(* ===== verification/Helpers.v ===== *)
(** * Sizes, orders and names

    Helpers that several pages share: the sizes of files
    (utils/common-util.ts, utils/file-util.ts), the order in which providers
    of models are listed, and the shortening of names.  A size is an integer
    number of bytes and its quotients are exact: dividing by 1024 is exact in
    binary64, dividing by 1000 is rounded there. *)
From S2P Require Import Prelude JsValue.
From Stdlib Require Import Ascii.
Open Scope list_scope.
Open Scope nat_scope.
Open Scope js_scope.

(** ** Sizes *)

(** The quotient [x / d] rounded to [dp] decimals, in units of the last one;
    a half is rounded up. *)
Definition rounded (dp : nat) (x d : Z) : Z := ((2 * x * 10 ^ Z.of_nat dp + d) / (2 * d))%Z.

(** [(x / d).toFixed(dp)] for [dp] 0 or 1 *)
Definition to_fixed (dp : nat) (x d : Z) : string :=
  let t := rounded dp x d in
  if (dp =? 0)%nat then pretty t else pretty (t / 10)%Z +:+ "." +:+ pretty (t mod 10)%Z.

Definition si_units : list string := ["kB"; "MB"; "GB"; "TB"; "PB"; "EB"; "ZB"; "YB"].

(** The loop of [formatFileSize] from the quotient by [d]: [units_left] units are
    left.  The number of units bounds it. *)
Fixpoint size_loop (units_left : nat) (bytes d : Z) : nat * Z :=
  match units_left with
  | 0 => (0, d)
  | S units_left =>
      if (1000 * 10 <=? rounded 1 bytes d)%Z then let '(u, d) := size_loop units_left bytes (d * 1000)%Z in (S u, d) else (0, d)
  end.

(** [formatFileSize] with its default arguments, for a size that is not
    negative. *)
Definition formatFileSize (bytes : Z) : string :=
  if (bytes <? 1000)%Z then pretty bytes +:+ " B"
  else
    let '(u, d) := size_loop (length si_units - 1) bytes 1000 in
    to_fixed 1 bytes d +:+ " " +:+ default "undefined" (si_units !! u).

Definition Units : list string := ["bytes"; "KB"; "MB"; "GB"; "TB"; "PB"; "EB"; "ZB"; "YB"].

(** The loop of [formatBytes], which the units do not bound; [None] is a loop
    that has not ended. *)
Fixpoint bytes_loop (fuel : nat) (x d : Z) (l : nat) : option (nat * Z) :=
  match fuel with
  | 0 => None
  | S fuel => if (1024 * d <=? x)%Z then bytes_loop fuel x (d * 1024)%Z (S l) else Some (l, d)
  end.

Definition bytes_fuel (x : Z) : nat := S (Z.to_nat x).

Definition formatBytes (x : Z) : option string :=
  '(l, d) ← bytes_loop (bytes_fuel x) x 1 0;
  Some (to_fixed (if (x <? 10 * d)%Z && (0 <? l)%nat then 1 else 0) x d +:+ " " +:+ default "undefined" (Units !! l)).

(** ** Orders *)
Section order.
Context {A : Type} (name : A → string).

Definition sortLLmFactoryListBySpecifiedOrder (orderFactoryList : list string) (factories : list A) : list A :=
  let finalList := omap (λ orderItem, js_find (λ item, name item === orderItem) factories) orderFactoryList in
  foldl (λ finalList item, if js_every (λ x, name x !== name item) finalList then finalList ++ [item] else finalList)
    finalList factories.
End order.

Definition orderFactoryList : list string :=
  ["OpenAI"; "Moonshot"; "PPIO"; "ZHIPU-AI"; "Ollama"; "Xinference"; "302.AI"; "CometAPI"; "DeerAPI"; "Jiekou.AI"].

(** ** Names *)

(** [str.slice(0, n)], [str.slice(-n)] for [n] at most the length *)
Definition middleEllipsis (dots : string) (str : string) (front back : nat) : string :=
  if (String.length str <=? front + back)%nat then str
  else String.substring 0 front str +:+ dots +:+ String.substring (String.length str - back) back str.

(** ** What is shown *)
Lemma rounded_ge dp x d n : (0 < d)%Z → (n <= rounded dp x d ↔ (2 * n - 1) * d <= 2 * x * 10 ^ Z.of_nat dp)%Z.
Proof.
  intros Hd. unfold rounded. set (m := (2 * x * 10 ^ Z.of_nat dp)%Z). split; intros H.
  - pose proof (Z.mul_div_le (m + d) (2 * d) ltac:(lia)). nia.
  - apply Z.div_le_lower_bound; nia.
Qed.

Lemma size_loop_spec units_left bytes d u d' : (0 < d)%Z → (10 <= rounded 1 bytes d)%Z →
  size_loop units_left bytes d = (u, d') →
  u ≤ units_left ∧ d' = (d * 1000 ^ Z.of_nat u)%Z ∧ (10 <= rounded 1 bytes d')%Z ∧
  (u = units_left ∨ (rounded 1 bytes d' < 10000)%Z).
Proof.
  revert d u. induction units_left as [|n IH]; intros d u Hd Hlow; cbn [size_loop].
  { intros [= <- <-]. repeat split; [lia|cbn; lia|done|by left]. }
  destruct (Z.leb_spec (1000 * 10) (rounded 1 bytes d)) as [H|H].
  - destruct (size_loop n bytes (d * 1000)) as [u' d''] eqn:E. intros [= <- <-].
    apply IH in E as (Hu & -> & Hr & Hor); [|lia|].
    + split; [lia|]. split; [rewrite Nat2Z.inj_succ, Z.pow_succ_r by lia; lia|]. split; [done|]. destruct Hor; [left; lia|by right].
    + apply rounded_ge in H; [|done]. apply rounded_ge; lia.
  - intros [= <- <-]. repeat split; [lia|cbn; lia|done|right; lia].
Qed.

(** A size of a thousand bytes and more is shown with a unit, as at least 1.0
    and, below the last unit, less than 1000.0 of it. *)
Lemma file_size_shown bytes : (1000 <= bytes)%Z → ∃ u unit t,
  si_units !! u = Some unit ∧ t = rounded 1 bytes (1000 ^ Z.of_nat (S u))%Z ∧
  formatFileSize bytes = pretty (t / 10)%Z +:+ "." +:+ pretty (t mod 10)%Z +:+ " " +:+ unit ∧
  (10 <= t)%Z ∧ (u = 7 ∨ (t < 10000)%Z).
Proof.
  intros Hb. unfold formatFileSize. rewrite (proj2 (Z.ltb_ge _ _)) by lia.
  destruct (size_loop (length si_units - 1) bytes 1000) as [u d] eqn:E.
  assert (10 <= rounded 1 bytes 1000)%Z as Hlow by (apply rounded_ge; [lia|]; change (10 ^ Z.of_nat 1)%Z with 10%Z; lia).
  destruct (size_loop_spec _ _ 1000 _ _ ltac:(done) Hlow E) as (Hu & -> & Hr & Hor).
  destruct (lookup_lt_is_Some_2 si_units u) as [unit Hunit]; [cbn in *; lia|].
  replace (1000 * 1000 ^ Z.of_nat u)%Z with (1000 ^ Z.of_nat (S u))%Z in * by (rewrite Nat2Z.inj_succ, Z.pow_succ_r; lia).
  exists u, unit, (rounded 1 bytes (1000 ^ Z.of_nat (S u))). split; [done|]. split; [done|]. split; [|done].
  rewrite Hunit. unfold to_fixed. cbn [Nat.eqb default]. by rewrite !str_app_assoc.
Qed.

Lemma bytes_loop_spec fuel x d l : (0 < d)%Z → 0 < fuel → (x < d * 1024 ^ Z.of_nat fuel)%Z →
  ∃ k, bytes_loop fuel x d l = Some ((l + k)%nat, (d * 1024 ^ Z.of_nat k)%Z) ∧ (x < 1024 * (d * 1024 ^ Z.of_nat k))%Z ∧
       (k = 0 ∨ (d * 1024 ^ Z.of_nat k <= x)%Z).
Proof.
  revert d l. induction fuel as [|fuel IH]; intros d l Hd Hf Hx; [lia|]. cbn [bytes_loop].
  destruct (Z.leb_spec (1024 * d) x) as [H|H].
  - assert (0 < fuel) as Hf' by (destruct fuel; [cbn in Hx; lia|lia]).
    destruct (IH (d * 1024)%Z (S l)) as (k & -> & Hk & Hor); [lia|done|rewrite Nat2Z.inj_succ, Z.pow_succ_r in Hx; lia|].
    assert (d * 1024 * 1024 ^ Z.of_nat k = d * 1024 ^ Z.of_nat (S k))%Z as Ed by (rewrite Nat2Z.inj_succ, Z.pow_succ_r; lia).
    exists (S k). rewrite <-Ed. split; [do 2 f_equal; lia|]. split; [done|]. right. destruct Hor as [->|?]; [cbn; lia|done].
  - exists 0. rewrite Nat.add_0_r. replace (d * 1024 ^ Z.of_nat 0)%Z with d by (cbn; lia). split; [done|]. split; [lia|by left].
Qed.

(** The division by 1024 ends with the unit in which the size is at least 1
    and less than 1024; beyond the last of them the unit is missing. *)
Lemma bytes_shown x : (0 <= x)%Z → ∃ l dp,
  formatBytes x = Some (to_fixed dp x (1024 ^ Z.of_nat l) +:+ " " +:+ default "undefined" (Units !! l)) ∧
  (x < 1024 * 1024 ^ Z.of_nat l)%Z ∧ (l = 0 ∨ (1024 ^ Z.of_nat l <= x)%Z) ∧
  dp = (if (x <? 10 * 1024 ^ Z.of_nat l)%Z && (0 <? l)%nat then 1 else 0).
Proof.
  intros Hx. destruct (bytes_loop_spec (bytes_fuel x) x 1 0) as (k & Hk & Hlt & Hor); [lia|unfold bytes_fuel; lia| |].
  - unfold bytes_fuel. rewrite Nat2Z.inj_succ, Z2Nat.id, Z.pow_succ_r by lia. pose proof (Z.pow_gt_lin_r 1024 x ltac:(lia) Hx). lia.
  - exists k, (if (x <? 10 * 1024 ^ Z.of_nat k)%Z && (0 <? k)%nat then 1 else 0).
    unfold formatBytes. rewrite Hk. cbn [mbind option_bind]. rewrite Z.mul_1_l in *. done.
Qed.

(** Rounding comes after the choice of the unit here, and is part of it
    there. *)
Lemma rounded_to_1024 :
  formatBytes 1048575 = Some "1024 KB" ∧ formatFileSize 999950 = "1.0 MB" ∧ formatFileSize 999949 = "999.9 kB".
Proof. vm_compute. done. Qed.

(** ** What is listed *)
Section ordered.
Context {A : Type} (name : A → string).

Definition add_new (finalList : list A) (item : A) : list A :=
  if js_every (λ x, name x !== name item) finalList then finalList ++ [item] else finalList.

Lemma every_fresh item l : js_every (λ x, name x !== name item) l = true ↔ name item ∉ map name l.
Proof.
  rewrite js_every_true. setoid_rewrite negb_true_iff. setoid_rewrite bool_decide_eq_false. split.
  - intros Hl (x & E & Hx)%list_elem_of_fmap. by apply (Hl x).
  - intros Hn x Hx E. apply Hn. rewrite <-E. by apply list_elem_of_fmap_2.
Qed.

(** Adding the items whose names are new keeps what is there in front. *)
Lemma add_all items l : NoDup (map name items) →
  foldl add_new l items = l ++ js_filter (λ x, negb (bool_decide (name x ∈ map name l))) items.
Proof.
  revert l. induction items as [|x items IH]; intros l; cbn [foldl map]; [by rewrite app_nil_r|]. intros [Hx Hnd]%NoDup_cons.
  rewrite IH by done. rewrite js_filter_cons. unfold add_new. destruct (js_every _ l) eqn:E.
  - apply every_fresh in E. rewrite bool_decide_false by done. cbn [negb]. rewrite <-app_assoc. cbn. do 2 f_equal.
    apply js_filter_ext. intros y Hy. f_equal. apply bool_decide_ext. rewrite map_app, elem_of_app. cbn.
    rewrite list_elem_of_singleton. split; [|by left]. intros [?|Ey]; [done|]. destruct Hx. rewrite <-Ey. by apply list_elem_of_fmap_2.
  - rewrite bool_decide_true; [done|]. destruct (decide (name x ∈ map name l)) as [?|Hn]; [done|].
    by rewrite (proj2 (every_fresh x l) Hn) in E.
Qed.

Lemma found_name n l x : js_find (λ item, name item === n) l = Some x → x ∈ l ∧ name x = n.
Proof. intros [Hx E]%js_find_Some. by apply bool_decide_eq_true in E. Qed.

(** Every provider is listed once, those of the order first and in it. *)
Theorem providers_ordered order items : NoDup (map name items) → NoDup order →
  sortLLmFactoryListBySpecifiedOrder name order items ≡ₚ items ∧
  ∃ rest, map name (sortLLmFactoryListBySpecifiedOrder name order items) = js_filter (λ n, js_includes (map name items) n) order ++ rest ∧
          ∀ n, n ∈ rest → n ∉ order.
Proof.
  intros Hnd Ho. unfold sortLLmFactoryListBySpecifiedOrder. set (first := omap _ order).
  change (foldl _ first items) with (foldl add_new first items). rewrite add_all by done.
  assert (map name first = js_filter (λ n, js_includes (map name items) n) order) as Ef.
  { subst first. clear Ho. induction order as [|n order IH]; [done|]. rewrite js_filter_cons. cbn [omap list_omap].
    destruct (js_find _ items) as [x|] eqn:E.
    - apply found_name in E as [Hx <-]. rewrite (proj2 (js_includes_true _ _)) by (by apply list_elem_of_fmap_2).
      cbn. by f_equal.
    - destruct (js_includes (map name items) n) eqn:E'; [|done]. apply js_includes_true, list_elem_of_fmap in E' as (y & -> & Hy).
      rewrite js_find_None in E. specialize (E y Hy). by rewrite bool_decide_true in E. }
  assert (∀ x, x ∈ first → x ∈ items) as Hin.
  { intros x (n & _ & Hx)%list_elem_of_omap. by apply found_name in Hx as [? _]. }
  split.
  - apply NoDup_Permutation.
    + apply NoDup_app. split; [|split].
      * apply (NoDup_fmap_1 name). change (name <$> first) with (map name first). rewrite Ef. by apply NoDup_js_filter.
      * intros x Hx [Hn _]%elem_of_js_filter. rewrite bool_decide_true in Hn; [done|]. by apply list_elem_of_fmap_2.
      * apply NoDup_js_filter. by apply (NoDup_fmap_1 name).
    + by apply (NoDup_fmap_1 name).
    + intros x. rewrite elem_of_app, elem_of_js_filter. split; [intros [?|[_ ?]]; auto|]. intros Hx.
      destruct (decide (name x ∈ map name first)) as [Hf|Hf]; [|right; by rewrite bool_decide_false]. left.
      apply list_elem_of_fmap in Hf as (y & E & Hy). replace x with y; [done|].
      apply list_elem_of_lookup in Hx as [i Hi]. pose proof (Hin y Hy) as [j Hj]%list_elem_of_lookup.
      assert (i = j) as ->; [|by simplify_eq].
      apply (NoDup_lookup (map name items) i j (name x)); [done|by rewrite list_lookup_fmap, Hi|rewrite list_lookup_fmap, Hj; cbn; by rewrite E].
  - exists (map name (js_filter (λ x, negb (bool_decide (name x ∈ map name first))) items)).
    rewrite map_app, Ef. split; [done|]. intros n (x & -> & [Hn Hx]%elem_of_js_filter)%list_elem_of_fmap Hord.
    apply negb_true_iff, bool_decide_eq_false in Hn. apply Hn. apply elem_of_js_filter. split; [|done].
    apply js_includes_true. by apply list_elem_of_fmap_2.
Qed.
End ordered.

